(* ===== verification/_CoqProject ===== *)
-Q . S2P
Prelude.v
Wp.v
Fw.v
Drom.v
Mcu.v
Startup.v
Typec.v
Packets.v
Topology.v
Pci0Init.v
Pci0Mem.v
ImsiPolicy.v
Imsi.v
Ucsi.v
Pdlog.v
Native.v
Board.v
Providers.v
Frontend.v
ColdStart.v
Observer.v
NhiLink.v
NhiRun.v
Pcie.v
Storage.v
NvmeSession.v
NvmeIrq.v
Lease.v
LeaseProof.v
HostData.v
HostStart.v
HostStop.v
HostStores.v
HostLogic.v
HostInv.v
HostCold.v
HostDown.v
HostSteps.v
HostFrame.v
HostRun.v
HostWait.v
HostSafety.v
Ctl.v
CtlProof.v
Retained.v
RetainedLogic.v
RetainedInv.v
RetainedProof.v
RetainedRetire.v
RetainedSafety.v
RetainedPull.v
HostPcie.v
HostPcieLogic.v
HostPcieInv.v
HostPcieSteps.v
HostPcieBatch.v
HostPcieRetire.v
HostPciePlatform.v
HostPcieConfig.v
HostPcieProof.v
