(* ===== verification/Prelude.v ===== *)
(** * Yoga Slim 7x USB4: a verification development

    The program is the Linux side of a USB4 bring-up on an X1 laptop: code that
    runs once per boot, on hardware that answers anything, and that must stop
    rather than guess; and the production driver that grew out of it, which
    takes the router through power-up, use, power-down and renewal.  Paths
    below are relative to src/; [T] abbreviates
    snapshot/kernel/drivers/thunderbolt, [S] snapshot/kernel/drivers/soc/qcom,
    [O] experiments/omarchy1/kernel/drivers.

    ** The parts and how they interact

    1. Cold start of the router.  snapshot/module/frontend.c is a platform
       driver that owns one attempt per boot.  It validates the firmware image
       (qcom-usb4-fw.c), builds the descriptor of the router
       (qcom-usb4-drom.c, qcom-usb4-x1-drom.c), and runs a fixed table of steps
       (qcom-usb4-x1-startup.c) through callbacks that use the MCU handshake
       (qcom-usb4-mcu.c), the mailbox words (qcom-usb4-typec.c) and two
       providers that the clock and PHY drivers lend to it
       (clk/qcom/x1-usb4-diag.inc, phy/qualcomm/x1-usb4-diag.inc).
    2. Host interface.  [T]/qcom-x1-nhi-diag.c takes the control rings after an
       isolation check, reads the root router, and can run one link checkpoint:
       packets ([T]/x1-*-packet.h), an inventory ([T]/x1-topology.h), a stop.
    3. Type-C side.  [S]/yoga_typec_observer.c receives PAN notifications
       (yoga_pan_packet.h), applies a plan (yoga_pan_plan.h), acknowledges, and
       starts the link with the word of yoga_link_plan.h; yoga_ucsi_*.h/.c and
       yoga_pdlog*.h/.c are two read-only diagnostics of the same firmware.
    4. Native path.  [T]/qcom-x1-native.c replaces the checkpoint by the
       connection manager and approves one PCIe tunnel; [T]/qcom-x1-pcie.c with
       x1-pcie-init.h owns the root port behind it and decides which storage
       function may be bound; experiments/el1-pci0 adds the memory window and
       the MSI receiver of that root port.  On the storage side,
       nvme/host/x1-nvme-irq*.h and irqchip/irq-gic-v3-its-x1-audit.h collect
       interrupt evidence, and experiments/omarchy1 (x1-private-read.h) hands
       out tickets for a private read test.
    5. Production driver.  [O]/thunderbolt/qcom-usb4-x1-host.c publishes one
       session per attachment; Type-C callbacks and sysfs stores drive it
       through cold start (the libraries of part 1), one inventory batch,
       removal of the storage device, tunnel stop, ring stop, power stop,
       retirement and renewal.  It takes clocks from a lease of
       [O]/clk/qcom/gcc-x1e80100.c, hands the root port behind the tunnel to
       [O]/thunderbolt/qcom-usb4-x1-pcie.c (preparation, training, inventory,
       one filtered PCI bus with one NVMe endpoint, its removal, the fence and
       the release of all providers), and stops and retires the control channel
       ([O]/thunderbolt/ctl.c) and the connection manager with its one retained
       tunnel (the private part of [O]/thunderbolt/tb.c), in this order: the
       manager retires only over a control channel that is already an empty
       shell.

    ** Files

    - Prelude.v (this file): error numbers, machine words, bytes, the error and
      state monad [M] with results [res] ([Ok], [Err] an errno, [Fault] an
      access outside a buffer), register devices [Mmio], traced devices and the
      logics on them, hints and tactics.
    - Fw.v, Drom.v, Mcu.v, Startup.v, Typec.v: the five libraries of part 1 and
      the planner of part 3, one function per C function.
    - Board.v: x1-usb4-diag.h, the gate every entry point asks.
    - Providers.v: the two providers.  Frontend.v: the driver.  ColdStart.v:
      sequencer, driver and providers put together.
    - Packets.v, Topology.v, NhiRun.v (the rings are taken), NhiLink.v (the
      link checkpoint): part 2.
    - Observer.v, Ucsi.v, Pdlog.v: part 3.
    - Native.v, Pcie.v, Pci0Init.v, Pci0Mem.v, ImsiPolicy.v, Imsi.v, NvmeIrq.v,
      NvmeSession.v: part 4.  Storage.v: the native owner and the bridge put
      together.
    - Wp.v: errnos as values and the weakest preconditions part 5 is proved in.
    - Lease.v, LeaseProof.v: the clock lease.
    - HostData.v (structs, environment, primitives), HostStart.v, HostStop.v,
      HostStores.v (the handlers, in the order of the C file): the production
      driver.  HostLogic.v (protocol, balances, invariant), HostInv.v,
      HostCold.v, HostDown.v, HostSteps.v (each handler keeps the invariant),
      HostFrame.v, HostRun.v, HostWait.v (frame, renewal, time), HostSafety.v
      (the claims).
    - Ctl.v, CtlProof.v: the control channel.
    - Retained.v: the retained tunnel and the guards of the connection manager.
      RetainedLogic.v (what checks and notifications leave alone),
      RetainedInv.v (phases and invariant), RetainedProof.v, RetainedRetire.v
      (each operation), RetainedSafety.v, RetainedPull.v (the claims).
    - HostPcie.v: the PCIe side, in the order of the C file.  HostPcieLogic.v
      (ledger, protocol, rules), HostPcieInv.v (invariant), HostPcieSteps.v,
      HostPcieBatch.v, HostPcieRetire.v, HostPciePlatform.v (each entry point
      keeps it), HostPcieConfig.v (the configuration filter by bytes),
      HostPcieProof.v (the claims, and a concrete desk).

    ** How the code is represented

    A C integer is a [Z] with its wrap-around written out ([u8], [u32], [u64]).
    A buffer is a list of bytes, a possibly NULL pointer an [option], and every
    indexed access is checked: outside the buffer it is [Fault], and the
    theorems on each operation exclude [Fault].  A C struct is a record with
    the fields the code reads or writes; a field that is only handed to another
    subsystem is left out.  A function that returns an errno is a computation
    [M S A] over the state [S] it changes.  Hardware, the clock and the other
    kernel subsystems are type classes or records of operations over an
    arbitrary state ([Mmio], [Kernel], [Regmap], [PhyServices], [bridge_env],
    ...): theorems quantify over all of them, so they hold for a device that
    answers anything at any time.  The CRC-32C and SHA-256 routines of the
    kernel are parameters.

    Effects on hardware are compared with scripts: an operation runs over a
    device that records its accesses, and a theorem says which sequences may
    have been recorded.  Code under one lock is one step.  Where several
    parties share a record (Observer.v, Ucsi.v, Pdlog.v, Imsi.v, Native.v,
    Pcie.v), the state machine is a step function or an interpreter of a list
    of operations, and the theorems are invariants of every reachable state.
    In part 5 handlers are not atomic: the host driver lets the Type-C
    callbacks of other threads run each time a handler takes the Type-C lock,
    the control channel lets other threads run at every call that sleeps, and
    the connection manager receives notifications at every call out of its code
    and handlers and workers wherever it drops the domain lock; the PCIe side
    receives configuration accesses, the enable hook and the mark of a pulled
    device at every call out of its code.  Functions of
    other files that take callbacks (storage removal, tunnel deactivation) are
    arbitrary trees of steps and callbacks ([helper]).  The calls each part
    makes are recorded, and safety is a monitor over the record.

    ** What the theorems show

    - Cold start: the table is executed row by row with an accurate record of
      the failing step ([startup_progress]); over the driver's callbacks it
      refines a script of register writes and read-backs
      ([startup_refines_script]), over the providers a script of clock, reset
      and PHY accesses ([cold_start_power]); a probe makes that attempt with
      the pinned image or touches nothing ([probe_outcomes]).
    - Libraries: acceptance and output of the decoder, the descriptor builder,
      the mailbox encoders and the packet codecs are characterised exactly, on
      accepted and on refused input, with round trips and equality of the two
      encoders; the MCU handshake always undoes a start that fails.
    - Host interface: a checkpoint always returns, sends only allowed frames
      within its budgets and ends with the rings stopped
      ([link_run_confined]); taking the rings publishes or undoes
      ([nhi_run_outcomes]); the inventory is bounded.
    - Type-C side: notifications are applied and acknowledged in order, once,
      in every interleaving ([observer_acks_in_order]); a stopped attempt
      stays stopped; one link at most; the diagnostics send only commands of
      their allow-lists and latch their first error.
    - Native path: one connect, one rescan and one approval per boot
      ([native_one_attempt]; it returns on any clock that advances, by the
      plain theorem [native_connect_returns]); a storage driver may bind only behind the
      identified, trained and scanned bridge ([bridge_gated]); the identity
      check and the scan accept exactly what they should; owner and bridge
      together let nothing bind before one complete attempt with the approved
      device ([storage_after_approval]); writes of the
      bring-up stay within fixed lists and the write gate is closed again; the
      MSI receiver's receipts stay consistent over any lifecycle; tickets form
      complete generations ([session_generations]) and evidence is read within
      fixed bounds (the plain theorem [irq_evidence_bounded]).
    - Production driver, over every history of stores, callbacks, probe,
      unbinding, suspend and shutdown: every call is permitted by the calls
      before it ([host_protocol]); what a session holds is what its record says
      and a retired session holds nothing ([host_holdings]); references are
      those of the port and of the work in flight ([host_sessions]); nothing
      faults ([host_never_faults]); every handler returns ([host_returns]);
      only a fully retired session is replaced ([host_renewal]); suspend is
      admitted only with nothing held ([host_suspend]).
    - Clock lease: what is outstanding is what the one lease records
      ([lease_accounting]); powering off is all or nothing
      ([power_off_restores]); a switch of the receive clocks is exact
      ([rx_select_exact]).
    - Control channel: packets, buffers, rings and pool are used and given back
      exactly while they are held ([channel_memory]); a closed channel stays
      closed ([channel_closed]).
    - Retained tunnel: one approval, one hold, one stop, one retirement, in
      order and of the same objects, and a retirement only over an empty
      control channel ([retained_protocol]); references and counters are those
      of the phase ([retained_references]); a checked stop succeeds only if
      nothing was notified since the hold ([stop_unchanged]); a pulled device
      can always be let go ([pulled_stop]).
    - PCIe side, over every history of its entry points and of the callbacks
      between them: nothing faults and every call is permitted by the calls
      before it ([pcie_protocol]); what was taken is what the context records,
      and without a context nothing ([pcie_accounting]); an admitted
      configuration write sets no guarded bit and leaves identity, bus numbers
      and base addresses alone ([config_write_confined]).  The example
      [pulled_while_removing] shows that a drive pulled during its removal is
      still read.

    What part 5 relies on of code that is not here is stated as classes of
    laws: [CtlLaws] (a stopped ring takes no frame, a stop calls back every
    frame, a flush is true only of an empty ring, the private stop and detach
    succeed only with a finished stop), the clock of [host_returns] and
    [OwnerFound] of [pulled_stop]; each has a concrete instance.

    ** Fuel and bounds

    Recursion that is not structural takes fuel where the C code has a bound or
    a well-founded measure, and the theorems show it is enough: the image
    decoder takes one unit per byte plus one; the capability walk has the C
    bound of 48, the number of slots; waiting for a reply consumes one of the
    384 receive buffers per turn, so 385 units are enough; waiting for the
    root reads the buffers that are left.  Polls with a timeout take an
    arbitrary number of iterations, so a theorem holds for any clock.  The
    native wait uses the clock of its environment and is shown to end when the
    clock advances over sleeps.  The waits of the production driver end at
    deadlines of at most 120 seconds; with a clock that every sleep moves on,
    more than 120 * HZ units of fuel are enough ([host_returns]).  Polls of the
    MCU are bounded by arbitrary counts.  The walk over the routers that drops
    display resources has fuel 3; the checks before it admit no deeper tree
    ([dp_resources_released], [empty_dp_resources_released]), so it never runs
    out.

    ** Not modelled

    Log output and sysfs formatting (all show functions); upstream Linux code
    carried with patches (NVMe host, GIC ITS, PHY and retimer drivers, the
    clock driver outside the .inc file and the lease), which the models take as
    environments; of the production tb.c the ordinary connection manager: the
    handlers behind the guards are arbitrary changes of the objects, which name
    none of the private fields; of ctl.c the checks of replies, the reference
    counts of requests and the synchronous wrappers; tunnels, paths, routers
    and rings (tunnel.c, path.c, switch.c, nhi.c of the production kernel are
    not in the repository); device-tree lookups, which are arguments or
    answers, among them the admission of the PCIe node (x1_pcie_admit); the
    register programs of the PCIe side whose headers are not in the repository
    (decoder, CFG0, training, inventory), which are arbitrary finite request
    trees; memory ordering and DMA timing; host test programs; earlier copies
    of the drivers kept for comparison.  Host driver, connection manager and
    PCIe side are verified each over its own environment and not as one system:
    the host driver takes the functions of the other two as arbitrary helpers,
    the order in which it calls them is [host_protocol], and the other two are
    safe under any order, the PCIe side with one exception: its callers start
    no batch on a session whose platform is being retired ([caller_ok]). *)

From stdpp Require Export base list numbers strings gmap sets relations.

#[global] Open Scope Z_scope.

(** ** Linux error numbers (asm-generic/errno-base.h and errno.h)

    The C code returns [-EPERM] and so on; the model writes the same terms. *)

Definition EPERM : Z := 1.
Definition ENOENT : Z := 2.
Definition EIO : Z := 5.
Definition EAGAIN : Z := 11.
Definition ENOMEM : Z := 12.
Definition EFAULT : Z := 14.
Definition EBUSY : Z := 16.
Definition ENODEV : Z := 19.
Definition EINVAL : Z := 22.
Definition EFBIG : Z := 27.
Definition ENOSPC : Z := 28.
Definition ERANGE : Z := 34.
Definition ELOOP : Z := 40.
Definition ETIME : Z := 62.
Definition ENOLINK : Z := 67.
Definition EPROTO : Z := 71.
Definition EBADMSG : Z := 74.
Definition EOVERFLOW : Z := 75.
Definition EMSGSIZE : Z := 90.
Definition EPROTONOSUPPORT : Z := 93.
Definition EOPNOTSUPP : Z := 95.
Definition ENOTCONN : Z := 107.
Definition ESHUTDOWN : Z := 108.
Definition ETIMEDOUT : Z := 110.
Definition EHOSTDOWN : Z := 112.
Definition EALREADY : Z := 114.
Definition ESTALE : Z := 116.
Definition EREMOTEIO : Z := 121.
Definition ECANCELED : Z := 125.
Definition EKEYREJECTED : Z := 129.

(** ** Machine words

    An unsigned [w]-bit C integer is a [Z]; every place where C would wrap is
    written with the reduction below. *)

Definition U8_MAX : Z := 0xff.
Definition U32_MAX : Z := 0xffffffff.
Definition U64_MAX : Z := 0xffffffffffffffff.
Definition u8 (x : Z) : Z := x mod 2 ^ 8.
Definition u16 (x : Z) : Z := x mod 2 ^ 16.
Definition u32 (x : Z) : Z := x mod 2 ^ 32.
Definition u64 (x : Z) : Z := x mod 2 ^ 64.
Definition not32 (x : Z) : Z := Z.lxor x U32_MAX.
Definition BIT (n : Z) : Z := Z.shiftl 1 n.

(** [x & m] used as a truth value. *)
Definition tst (x m : Z) : bool := negb (Z.land x m =? 0).

Notation "a .& b" := (Z.land a b) (at level 45, left associativity) : Z_scope.
Notation "a .| b" := (Z.lor a b) (at level 46, left associativity) : Z_scope.
Notation "a << b" := (Z.shiftl a b) (at level 44, left associativity) : Z_scope.
Notation "a >> b" := (Z.shiftr a b) (at level 44, left associativity) : Z_scope.
Notation "a !=? b" := (negb (a =? b)) (at level 70, no associativity) : Z_scope.

Lemma u32_range x : 0 ≤ u32 x < 2 ^ 32.
Proof. apply Z.mod_pos_bound. lia. Qed.

Lemma u32_small x : 0 ≤ x < 2 ^ 32 → u32 x = x.
Proof. apply Z.mod_small. Qed.

Lemma u8_range x : 0 ≤ u8 x < 256.
Proof. apply Z.mod_pos_bound. lia. Qed.

Lemma u8_small x : 0 ≤ x < 256 → u8 x = x.
Proof. apply Z.mod_small. Qed.

Lemma testbit_high x n k : 0 ≤ x < 2 ^ n → n ≤ k → Z.testbit x k = false.
Proof.
  intros Hx Hk. destruct (decide (n < 0)) as [Hn|Hn].
  { rewrite (Z.pow_neg_r 2 n) in Hx by lia. lia. }
  rewrite <- (Z.mod_small x (2 ^ n)) by lia.
  apply Z.mod_pow2_bits_high. lia.
Qed.

Lemma testbit_u32_max k : 0 ≤ k → Z.testbit U32_MAX k = (k <? 32).
Proof.
  intros Hk. change U32_MAX with (Z.ones 32).
  rewrite Z.testbit_ones by lia.
  destruct (Z.ltb_spec k 32), (Z.leb_spec 0 k); simpl; try reflexivity; lia.
Qed.

Lemma bits_lt_pow2 x n :
  0 ≤ n → 0 ≤ x → (∀ k, n ≤ k → Z.testbit x k = false) → x < 2 ^ n.
Proof.
  intros Hn Hx Hbits.
  assert (x = x mod 2 ^ n) as ->.
  { apply Z.bits_inj'. intros k Hk.
    destruct (decide (k < n)).
    - by rewrite Z.mod_pow2_bits_low by lia.
    - rewrite Z.mod_pow2_bits_high by lia. apply Hbits. lia. }
  apply Z.mod_pos_bound. lia.
Qed.

Lemma land_lt x y n : 0 ≤ n → 0 ≤ x < 2 ^ n → 0 ≤ x .& y < 2 ^ n.
Proof.
  intros Hn Hx. assert (0 ≤ x .& y) by (apply Z.land_nonneg; lia).
  split; [done|]. apply bits_lt_pow2; [done..|].
  intros k Hk. rewrite Z.land_spec, (testbit_high x n k) by lia. done.
Qed.

Lemma lor_lt x y n : 0 ≤ n → 0 ≤ x < 2 ^ n → 0 ≤ y < 2 ^ n → 0 ≤ x .| y < 2 ^ n.
Proof.
  intros Hn Hx Hy. assert (0 ≤ x .| y) by (apply Z.lor_nonneg; lia).
  split; [done|]. apply bits_lt_pow2; [done..|].
  intros k Hk. by rewrite Z.lor_spec, !(testbit_high _ n k) by lia.
Qed.

Lemma not32_lt x : 0 ≤ x < 2 ^ 32 → 0 ≤ not32 x < 2 ^ 32.
Proof.
  intros Hx. unfold not32.
  assert (0 ≤ Z.lxor x U32_MAX) by (apply Z.lxor_nonneg; unfold U32_MAX; lia).
  split; [done|]. apply bits_lt_pow2; [lia|done|].
  intros k Hk. rewrite Z.lxor_spec, (testbit_high x 32 k) by lia.
  rewrite testbit_u32_max by lia. destruct (Z.ltb_spec k 32); [lia|done].
Qed.

(** Packing a field below a shifted one is addition. *)
Lemma lor_shiftl_add a b n : 0 ≤ n → 0 ≤ b < 2 ^ n → (a << n) .| b = a * 2 ^ n + b.
Proof.
  intros Hn Hb. rewrite <- Z.shiftl_mul_pow2 by done.
  rewrite <- Z.lxor_lor, Z.add_nocarry_lxor; [done| |].
  all: apply Z.bits_inj'; intros k Hk; rewrite Z.land_spec, Z.bits_0;
    destruct (decide (k < n));
    [by rewrite Z.shiftl_spec_low by lia
    |by rewrite (testbit_high b n k), andb_false_r by lia].
Qed.

(** [(x & ~m) | v] changes exactly the bits of [m]. *)
Lemma field_update_in x m v :
  0 ≤ x < 2 ^ 32 → 0 ≤ m < 2 ^ 32 → v .& m = v →
  ((x .& not32 m) .| v) .& m = v.
Proof.
  intros Hx Hm Hv. apply Z.bits_inj'. intros k Hk.
  rewrite Z.land_spec, Z.lor_spec, Z.land_spec. unfold not32.
  rewrite Z.lxor_spec, testbit_u32_max by lia.
  assert (Z.testbit v k = Z.testbit v k && Z.testbit m k) as Ev
    by (rewrite <- Z.land_spec; by rewrite Hv).
  destruct (Z.testbit m k) eqn:Em.
  - destruct (Z.ltb_spec k 32).
    + simpl. rewrite andb_false_r. simpl. by rewrite andb_true_r.
    + rewrite (testbit_high m 32 k) in Em by lia. done.
  - rewrite andb_false_r in *. by rewrite Ev.
Qed.

Lemma field_update_out x m v :
  0 ≤ x < 2 ^ 32 → 0 ≤ m < 2 ^ 32 → v .& m = v →
  ((x .& not32 m) .| v) .& not32 m = x .& not32 m.
Proof.
  intros Hx Hm Hv. apply Z.bits_inj'. intros k Hk.
  rewrite !Z.land_spec, Z.lor_spec, Z.land_spec. unfold not32.
  rewrite Z.lxor_spec, testbit_u32_max by lia.
  assert (Z.testbit v k = Z.testbit v k && Z.testbit m k) as Ev
    by (rewrite <- Z.land_spec; by rewrite Hv).
  destruct (Z.testbit m k) eqn:Em; simpl.
  - destruct (Z.ltb_spec k 32); simpl.
    + by rewrite !andb_false_r.
    + rewrite (testbit_high m 32 k) in Em by lia. done.
  - rewrite andb_false_r in Ev. rewrite Ev.
    destruct (Z.testbit x k), (k <? 32); done.
Qed.

(** The same for a word of any width stored into a 32-bit register. *)
Lemma u32_land x m : 0 ≤ m < 2 ^ 32 → u32 x .& m = x .& m.
Proof.
  intros Hm. unfold u32. apply Z.bits_inj'. intros k Hk. rewrite !Z.land_spec.
  destruct (decide (k < 32)).
  - by rewrite Z.mod_pow2_bits_low by lia.
  - by rewrite (testbit_high m 32 k), !andb_false_r by lia.
Qed.

Lemma field_set x m v : 0 ≤ m < 2 ^ 32 → v .& m = v → u32 ((x .& not32 m) .| v) .& m = v.
Proof.
  intros Hm Hv. rewrite u32_land by done. apply Z.bits_inj'. intros k Hk.
  rewrite Z.land_spec, Z.lor_spec, Z.land_spec. unfold not32.
  rewrite Z.lxor_spec, testbit_u32_max by lia.
  assert (Z.testbit v k = Z.testbit v k && Z.testbit m k) as Ev
    by (rewrite <- Z.land_spec; by rewrite Hv).
  destruct (Z.testbit m k) eqn:Em; [|by rewrite andb_false_r in *].
  destruct (Z.ltb_spec k 32); [|by rewrite (testbit_high m 32 k) in Em by lia].
  simpl. rewrite andb_false_r. simpl. by rewrite andb_true_r.
Qed.

(** ** Record updates

    [r <| field := v |>], C's [r->field = v].  A record type names its fields
    once, in an [Eta] instance; the setter of each field is derived from it. *)

Class Eta (R : Type) := eta : R → R.
Class Setter {R T : Type} (proj : R → T) := set_field : (T → T) → R → R.
#[global] Arguments set_field {R T} proj {_} _ _.

Ltac build_setter :=
  match goal with
  | |- @Setter ?R ?T ?p =>
      let e := constr:(_ : Eta R) in
      exact (λ (f : T → T) (r : R),
        ltac:(let t := eval hnf in (e r) in
              let t := eval pattern (p r) in t in
              lazymatch t with ?g _ =>
                let u := eval cbv beta in (g (f (p r))) in exact u end))
  end.
#[global] Hint Extern 1 (Setter _) => build_setter : typeclass_instances.
Notation "r <| p := v |>" := (set_field p (λ _, v) r)
  (at level 1, left associativity, p at level 9).

(** ** Outcomes and the effect monad

    A C function that returns an errno is a computation over a state [S].  It
    yields [Ok] for the success return, [Err e] for [return e], and [Fault]
    where C would be undefined: an access outside the buffer it was given (or
    a loop whose model ran out of fuel).  The state reached is kept on every
    outcome, as side effects are. *)

Inductive res (A : Type) : Type :=
| Ok (a : A)
| Err (e : Z)
| Fault.
Arguments Ok {_} _.
Arguments Err {_} _.
Arguments Fault {_}.

Definition M (S A : Type) : Type := S → res A * S.

Definition ret {S A} (a : A) : M S A := λ s, (Ok a, s).
Definition fail {S A} (e : Z) : M S A := λ s, (Err e, s).
Definition fault {S A} : M S A := λ s, (Fault, s).
Definition lift {S A} (r : res A) : M S A := λ s, (r, s).
Definition get {S} : M S S := λ s, (Ok s, s).
Definition modify {S} (f : S → S) : M S unit := λ s, (Ok tt, f s).

Definition bind {S A B} (m : M S A) (k : A → M S B) : M S B := λ s,
  match m s with
  | (Ok a, s') => k a s'
  | (Err e, s') => (Err e, s')
  | (Fault, s') => (Fault, s')
  end.

(** [ret = f(); if (ret) return ret;] for a callback that returns an [int]. *)
Definition try_ {S} (f : S → Z * S) : M S unit := λ s,
  let (r, s') := f s in
  if r =? 0 then (Ok tt, s') else (Err r, s').

(** Run [m]; whatever errno it ends with, run [h] on it (0 for success), and
    return the errno of [m].  This is the [out: s->error = ret; return ret;]
    shape. *)
Definition code {A} (r : res A) : Z :=
  match r with Ok _ => 0 | Err e => e | Fault => 0 end.

Definition recording {S A} (m : M S A) (h : Z → S → S) : M S A := λ s,
  match m s with
  | (Fault, s') => (Fault, s')
  | (r, s') => (r, h (code r) s')
  end.

(** [if (ret) goto stop; ... stop: cleanup(); return ret;] *)
Definition on_error {S A} (m : M S A) (cleanup : M S unit) : M S A := λ s,
  match m s with
  | (Err e, s') => (Err e, (cleanup s').2)
  | r => r
  end.

Definition rbind {A B} (m : res A) (k : A → res B) : res B :=
  match m with Ok a => k a | Err e => Err e | Fault => Fault end.

Declare Scope km_scope.
Delimit Scope km_scope with km.
Notation "'let!' x ':=' m 'in' k" := (bind m (λ x, k))
  (at level 10, x pattern, m at level 100, k at level 200,
   format "'[v' 'let!'  x  ':='  m  'in' '/' k ']'") : km_scope.
Notation "'do!' m 'in' k" := (bind m (λ _, k))
  (at level 10, m at level 100, k at level 200,
   format "'[v' 'do!'  m  'in' '/' k ']'") : km_scope.
Notation "'let?' x ':=' m 'in' k" := (rbind m (λ x, k))
  (at level 10, x pattern, m at level 100, k at level 200,
   format "'[v' 'let?'  x  ':='  m  'in' '/' k ']'") : km_scope.
#[global] Open Scope km_scope.

(** A [for] loop over a table, leaving at the first error. *)
Fixpoint for_each {S X} (l : list X) (body : X → M S unit) : M S unit :=
  match l with
  | [] => ret tt
  | x :: l => do! body x in for_each l body
  end.

(** ** Preorders on states that a computation respects

    [keeps R m]: whatever state [m] starts in, it ends in an [R]-later one.
    With [R] a preorder this is closed under sequencing, so one relation
    ("the log grew by reads only", "no latch was cleared") is carried through
    a whole handler by the hint database. *)

Definition keeps {S A} (R : relation S) (m : M S A) : Prop :=
  ∀ s, R s (m s).2.

Section keeps.
Context {S : Type} (R : relation S) `{!PreOrder R}.

Lemma keeps_ret {A} (a : A) : keeps R (ret a).
Proof. intros s. reflexivity. Qed.
Lemma keeps_fail {A} e : keeps R (@fail S A e).
Proof. intros s. reflexivity. Qed.
Lemma keeps_fault {A} : keeps R (@fault S A).
Proof. intros s. reflexivity. Qed.
Lemma keeps_lift {A} (r : res A) : keeps R (lift r).
Proof. intros s. reflexivity. Qed.
Lemma keeps_get : keeps R get.
Proof. intros s. reflexivity. Qed.
Lemma keeps_modify f : (∀ s, R s (f s)) → keeps R (modify f).
Proof. intros H s. apply H. Qed.
Lemma keeps_try f : (∀ s, R s (f s).2) → keeps R (try_ f).
Proof.
  intros H s. unfold try_. specialize (H s). destruct (f s) as [r s'].
  by destruct (r =? 0).
Qed.

Lemma keeps_bind {A B} (m : M S A) (k : A → M S B) :
  keeps R m → (∀ a, keeps R (k a)) → keeps R (bind m k).
Proof.
  intros Hm Hk s. unfold bind. specialize (Hm s).
  destruct (m s) as [[a|e|] s'] eqn:E; simpl in *; [|done|done].
  etransitivity; [exact Hm|apply Hk].
Qed.

Lemma keeps_recording {A} (m : M S A) h :
  keeps R m → (∀ z s, R s (h z s)) → keeps R (recording m h).
Proof.
  intros Hm Hh s. unfold recording. specialize (Hm s).
  destruct (m s) as [[a|e|] s']; simpl in *; try done;
    (etransitivity; [exact Hm|apply Hh]).
Qed.

Lemma keeps_on_error {A} (m : M S A) h :
  keeps R m → keeps R h → keeps R (on_error m h).
Proof.
  intros Hm Hh s. unfold on_error. specialize (Hm s).
  destruct (m s) as [[a|e|] s']; simpl in *; try done.
  etransitivity; [exact Hm|apply Hh].
Qed.

Lemma keeps_if {A} (b : bool) (m n : M S A) :
  keeps R m → keeps R n → keeps R (if b then m else n).
Proof. by destruct b. Qed.

Lemma keeps_for_each {X} (l : list X) body :
  (∀ x, x ∈ l → keeps R (body x)) → keeps R (for_each l body).
Proof.
  induction l as [|x l IH]; intros H; simpl; [apply keeps_ret|].
  apply keeps_bind; [apply H; set_solver|]. intros _. apply IH.
  intros y Hy. apply H. set_solver.
Qed.
End keeps.

Create HintDb km.
#[export] Hint Resolve keeps_ret keeps_fail keeps_fault keeps_lift keeps_get
  keeps_bind keeps_if : km.

(** Walk a computation: sequencing and branching by the rules above, the
    leaves by the hints of the component. *)
Ltac keeps_step :=
  lazymatch goal with
  | |- keeps _ (bind _ _) => apply keeps_bind; [try typeclasses eauto| |intros ?]
  | |- keeps _ (if ?b then _ else _) => destruct b eqn:?
  | |- keeps _ (match ?x with _ => _ end) => destruct x eqn:?
  | |- keeps _ (ret _) => apply keeps_ret; typeclasses eauto
  | |- keeps _ (fail _) => apply keeps_fail; typeclasses eauto
  | |- keeps _ fault => apply keeps_fault; typeclasses eauto
  | |- keeps _ (lift _) => apply keeps_lift; typeclasses eauto
  | |- keeps _ get => apply keeps_get; typeclasses eauto
  | |- keeps _ (λ _, _) => fail
  | |- keeps _ _ => solve [eauto with km]
  end.
Ltac keeps_auto := repeat first [keeps_step | progress cbv zeta].

(** ** Computations without undefined behaviour *)

Definition safe {S A} (m : M S A) : Prop := ∀ s, (m s).1 ≠ Fault.

Section safe.
Context {S : Type}.

Lemma safe_ret {A} (a : A) : safe (S:=S) (ret a).
Proof. done. Qed.
Lemma safe_fail {A} e : safe (@fail S A e).
Proof. done. Qed.
Lemma safe_get : safe (S:=S) get.
Proof. done. Qed.
Lemma safe_modify (f : S → S) : safe (modify f).
Proof. done. Qed.
Lemma safe_lift {A} (r : res A) : r ≠ Fault → safe (S:=S) (lift r).
Proof. by intros H s. Qed.
Lemma safe_try (f : S → Z * S) : safe (try_ f).
Proof. intros s. unfold try_. destruct (f s) as [r s']. by destruct (r =? 0). Qed.

Lemma safe_bind {A B} (m : M S A) (k : A → M S B) :
  safe m → (∀ a, safe (k a)) → safe (bind m k).
Proof.
  intros Hm Hk s. unfold bind. specialize (Hm s).
  destruct (m s) as [[a|e|] s'] eqn:E; simpl in *; [apply Hk|done|done].
Qed.

Lemma safe_recording {A} (m : M S A) h : safe m → safe (recording m h).
Proof.
  intros Hm s. unfold recording. specialize (Hm s). by destruct (m s) as [[a|e|] s'].
Qed.

Lemma safe_on_error {A} (m : M S A) h : safe m → safe (on_error m h).
Proof.
  intros Hm s. unfold on_error. specialize (Hm s). by destruct (m s) as [[a|e|] s'].
Qed.

Lemma safe_for_each {X} (l : list X) (body : X → M S unit) :
  (∀ x, x ∈ l → safe (body x)) → safe (for_each l body).
Proof.
  induction l as [|x l IH]; intros H; simpl; [done|].
  apply safe_bind; [apply H; set_solver|]. intros _. apply IH. intros y Hy. apply H. set_solver.
Qed.
End safe.

(** The same walk as [keeps_auto]. *)
Ltac safe_step :=
  lazymatch goal with
  | |- safe (bind _ _) => apply safe_bind; [|intros ?]
  | |- safe (if ?b then _ else _) => destruct b eqn:?
  | |- safe (match ?x with _ => _ end) => destruct x eqn:?
  | |- safe (ret _) => apply safe_ret
  | |- safe (fail _) => apply safe_fail
  | |- safe get => apply safe_get
  | |- safe (modify _) => apply safe_modify
  | |- safe (try_ _) => apply safe_try
  | |- safe (λ _, _) => fail
  | |- safe _ => solve [eauto with km]
  end.
Ltac safe_auto := repeat first [safe_step | progress cbv zeta].

(** The errnos a computation may end with. *)
Definition errs {S A} (P : Z → Prop) (m : M S A) : Prop :=
  ∀ s e s', m s = (Err e, s') → P e.

Lemma errs_bind {S A B} P (m : M S A) (k : A → M S B) :
  errs P m → (∀ a, errs P (k a)) → errs P (bind m k).
Proof.
  intros Hm Hk s e s'. unfold bind. destruct (m s) as [[a|e0|] s1] eqn:E; [apply Hk| |done].
  intros [= -> <-]. by eapply Hm.
Qed.

Lemma errs_for_each {S X} P (l : list X) (body : X → M S unit) :
  (∀ x, errs P (body x)) → errs P (for_each l body).
Proof.
  intros Hb. induction l as [|x l IH]; cbn [for_each]; [by intros s e s'|].
  by apply errs_bind.
Qed.

Ltac errs_step :=
  lazymatch goal with
  | |- errs _ (bind _ _) => apply errs_bind; [|intros ?]
  | |- errs _ (if ?b then _ else _) => destruct b eqn:?
  | |- errs _ (ret _) => by intros ???
  | |- errs _ get => by intros ???
  | |- errs _ (modify _) => by intros ???
  | |- errs _ (fail _) => intros ???; (intros [= <- <-])
  | |- errs _ (λ _, _) => fail
  | |- errs _ _ => solve [eauto with km]
  end.
Ltac errs_auto := repeat first [errs_step | progress cbv zeta].

(** ** Hoare triples over a view of the state

    [triple v P m Q E]: from a state whose view satisfies [P], [m] ends in one
    satisfying [Q] when it succeeds and [E] when it does not. *)

#[export] Instance same_view_preorder {S V} (v : S → V) : PreOrder (λ s s', v s' = v s).
Proof. split; [done|]. intros s1 s2 s3 H1 H2. congruence. Qed.

Section triple.
Context {S V : Type} (v : S → V).

Definition triple {A} (P : V → Prop) (m : M S A) (Q E : V → Prop) : Prop := ∀ s,
  P (v s) → match m s with
            | (Ok _, s') => Q (v s')
            | (_, s') => E (v s')
            end.

Lemma triple_bind {A B} (P R Q E : V → Prop) (m : M S A) (k : A → M S B) :
  triple P m R E → (∀ a, triple R (k a) Q E) → triple P (bind m k) Q E.
Proof.
  intros Hm Hk s HP. unfold bind. specialize (Hm s HP).
  destruct (m s) as [[a|e|] s']; [by apply Hk|done|done].
Qed.

Lemma triple_ret {A} (P E : V → Prop) (a : A) : triple P (ret a) P E.
Proof. by intros s. Qed.
Lemma triple_fail {A} (P Q : V → Prop) e : triple P (@fail S A e) Q P.
Proof. by intros s. Qed.
Lemma triple_conseq {A} (P P' Q Q' E E' : V → Prop) (m : M S A) :
  triple P' m Q' E' → (∀ x, P x → P' x) → (∀ x, Q' x → Q x) → (∀ x, E' x → E x) →
  triple P m Q E.
Proof.
  intros Hm HP HQ HE s Hs. specialize (Hm s (HP _ Hs)).
  destruct (m s) as [[a|e|] s']; auto.
Qed.

(** A step that leaves the view alone. *)
Lemma triple_frame {A} (P : V → Prop) (m : M S A) :
  keeps (λ s s', v s' = v s) m → triple P m P P.
Proof.
  intros Hm s Hs. specialize (Hm s). destruct (m s) as [[a|e|] s']; simpl in Hm; by rewrite Hm.
Qed.
End triple.

(** Evaluate one sequenced step whose outcome is known. *)
Lemma bind_ok {S A B} (m : M S A) (k : A → M S B) s a s' :
  m s = (Ok a, s') → bind m k s = k a s'.
Proof. intros E. unfold bind. by rewrite E. Qed.

Lemma bind_err {S A B} (m : M S A) (k : A → M S B) s e s' :
  m s = (Err e, s') → bind m k s = (Err e, s').
Proof. intros E. unfold bind. by rewrite E. Qed.

Lemma bind_inv {S A B} (m : M S A) (k : A → M S B) s r s' :
  bind m k s = (r, s') →
  (∃ a s1, m s = (Ok a, s1) ∧ k a s1 = (r, s')) ∨
  (∃ e, m s = (Err e, s') ∧ r = Err e) ∨ (m s = (Fault, s') ∧ r = Fault).
Proof.
  unfold bind. destruct (m s) as [[a|e|] s1]; intros E; simplify_eq; eauto 8.
Qed.

Lemma bind_ok_inv {S A B} (m : M S A) (k : A → M S B) s b s' :
  bind m k s = (Ok b, s') →
  ∃ a s1, m s = (Ok a, s1) ∧ k a s1 = (Ok b, s').
Proof.
  intros E. apply bind_inv in E as [H|[(e&_&?)|[_ ?]]]; [done|discriminate..].
Qed.

Lemma bind_assoc {S A B C} (m : M S A) (k : A → M S B) (h : B → M S C) s :
  bind (bind m k) h s = bind m (λ a, bind (k a) h) s.
Proof. unfold bind. by destruct (m s) as [[a|e|] s']. Qed.

Lemma bind_ext {S A B} (m m' : M S A) (k k' : A → M S B) s :
  m s = m' s → (∀ a s', m' s = (Ok a, s') → k a s' = k' a s') → bind m k s = bind m' k' s.
Proof.
  intros Em Ek. unfold bind. rewrite Em.
  destruct (m' s) as [[a|e|] s'] eqn:E; [|done..]. by apply Ek.
Qed.

Lemma for_each_app {S X} (l1 l2 : list X) (body : X → M S unit) s :
  for_each (l1 ++ l2) body s = (do! for_each l1 body in for_each l2 body) s.
Proof.
  revert s. induction l1 as [|x l1 IH]; intros s; [done|]. simpl.
  rewrite bind_assoc. apply bind_ext; [done|]. intros _ s' _. apply IH.
Qed.

(** Peel every sequenced step off a hypothesis [c s = (Ok b, s')]. *)
Ltac ok_inv :=
  repeat match goal with
  | H : bind _ _ _ = (Ok _, _) |- _ =>
      let a := fresh "a" in let s := fresh "st" in
      let H1 := fresh "Hm" in let H2 := fresh "Hk" in
      apply bind_ok_inv in H as (a & s & H1 & H2)
  | H : ret _ _ = (_, _) |- _ => unfold ret in H; simplify_eq
  | H : fail _ _ = (Ok _, _) |- _ => discriminate H
  | H : (if ?b then _ else _) _ = (Ok _, _) |- _ =>
      let E := fresh "E" in destruct b eqn:E
  end.

(** Split on the outermost [if] of the goal. *)
Ltac if_case E :=
  match goal with |- context [if ?b then _ else _] => destruct b eqn:E end.

(** ** Total correctness

    [runs P m Q]: from any state in [P], [m] returns normally (no early error
    return, no undefined access) with a value and a state in [Q].  Code that
    passes C [int]s around as plain values is specified this way. *)

Definition runs {S A} (P : S → Prop) (m : M S A) (Q : A → S → Prop) : Prop :=
  ∀ s, P s → ∃ a s', m s = (Ok a, s') ∧ Q a s'.

Section runs.
Context {S : Type}.

Lemma runs_ret {A} (P : S → Prop) (a : A) (Q : A → S → Prop) :
  (∀ s, P s → Q a s) → runs P (ret a) Q.
Proof. intros H s Hs. eexists _, _. split; [done|]. auto. Qed.

Lemma runs_get (P : S → Prop) : runs P get (λ a s, P s ∧ a = s).
Proof. intros s Hs. by eexists _, _. Qed.

Lemma runs_modify (P : S → Prop) f (Q : unit → S → Prop) :
  (∀ s, P s → Q tt (f s)) → runs P (modify f) Q.
Proof. intros H s Hs. eexists _, _. split; [done|]. auto. Qed.

Lemma runs_lift {A} (P : S → Prop) (r : res A) (Q : A → Prop) :
  (∃ a, r = Ok a ∧ Q a) → runs P (lift r) (λ a s, P s ∧ Q a).
Proof. intros (a&->&Ha) s Hs. by eexists _, _. Qed.

Lemma runs_bind {A B} (P : S → Prop) (m : M S A) (k : A → M S B) (R : A → S → Prop) Q :
  runs P m R → (∀ a, runs (R a) (k a) Q) → runs P (bind m k) Q.
Proof.
  intros Hm Hk s Hs. destruct (Hm s Hs) as (a&s1&E&H1).
  destruct (Hk a s1 H1) as (b&s2&E2&H2). exists b, s2. unfold bind. by rewrite E.
Qed.

Lemma runs_conseq {A} (P P' : S → Prop) (m : M S A) (Q Q' : A → S → Prop) :
  runs P m Q → (∀ s, P' s → P s) → (∀ a s, Q a s → Q' a s) → runs P' m Q'.
Proof. intros Hm HP HQ s Hs. destruct (Hm s (HP s Hs)) as (a&s1&E&H1). eauto. Qed.

Lemma runs_if {A} (P : S → Prop) (b : bool) (m n : M S A) Q :
  (b = true → runs P m Q) → (b = false → runs P n Q) → runs P (if b then m else n) Q.
Proof. destruct b; auto. Qed.

(** A pure fact of the precondition moves to the context. *)
Lemma runs_pure {A} (P : S → Prop) (φ : Prop) (m : M S A) Q :
  (φ → runs P m Q) → runs (λ s, P s ∧ φ) m Q.
Proof. intros Hm s [Hs Hp]. by apply Hm. Qed.

Lemma runs_for_each {X} (P : S → Prop) (l : list X) (body : X → M S unit) :
  (∀ x, x ∈ l → runs P (body x) (λ _, P)) → runs P (for_each l body) (λ _, P).
Proof.
  induction l as [|x l IH]; intros H; simpl; [by apply runs_ret|].
  eapply runs_bind; [apply H; by left|]. intros ?. apply IH. intros y Hy. apply H. by right.
Qed.
End runs.

(** ** Partial correctness with results

    [spec P m Q E]: from a state in [P], a success ends in [Q] with its value,
    anything else in [E]. *)

Definition spec {S A} (P : S → Prop) (m : M S A) (Q : A → S → Prop) (E : S → Prop) : Prop :=
  ∀ s, P s → match m s with (Ok a, s') => Q a s' | (_, s') => E s' end.

Section spec.
Context {S : Type}.

Lemma spec_ret {A} (P E : S → Prop) (a : A) (Q : A → S → Prop) :
  (∀ s, P s → Q a s) → spec P (ret a) Q E.
Proof. intros HQ s Hs. by apply HQ. Qed.

Lemma spec_fail {A} (P E : S → Prop) e (Q : A → S → Prop) :
  (∀ s, P s → E s) → spec P (fail e) Q E.
Proof. intros HE s Hs. by apply HE. Qed.

Lemma spec_fault {A} (P E : S → Prop) (Q : A → S → Prop) :
  (∀ s, P s → E s) → spec P fault Q E.
Proof. intros HE s Hs. by apply HE. Qed.

Lemma spec_modify (P E : S → Prop) f (Q : unit → S → Prop) :
  (∀ s, P s → Q tt (f s)) → spec P (modify f) Q E.
Proof. intros HQ s Hs. by apply HQ. Qed.

Lemma spec_bind {A B} (P E : S → Prop) (m : M S A) (k : A → M S B) (R : A → S → Prop) Q :
  spec P m R E → (∀ a, spec (R a) (k a) Q E) → spec P (bind m k) Q E.
Proof.
  intros Hm Hk s Hs. unfold bind. specialize (Hm s Hs).
  destruct (m s) as [[a|e|] s1]; [by apply Hk|done|done].
Qed.

Lemma spec_conseq {A} (P P' E E' : S → Prop) (m : M S A) (Q Q' : A → S → Prop) :
  spec P m Q E → (∀ s, P' s → P s) → (∀ a s, Q a s → Q' a s) → (∀ s, E s → E' s) →
  spec P' m Q' E'.
Proof.
  intros Hm HP HQ HE s Hs. specialize (Hm s (HP s Hs)). destruct (m s) as [[a|e|] s1]; auto.
Qed.

Lemma spec_if {A} (P E : S → Prop) (b : bool) (m n : M S A) Q :
  (b = true → spec P m Q E) → (b = false → spec P n Q E) → spec P (if b then m else n) Q E.
Proof. destruct b; auto. Qed.

Lemma spec_pure {A} (P E : S → Prop) (φ : Prop) (m : M S A) Q :
  (φ → spec P m Q E) → spec (λ s, P s ∧ φ) m Q E.
Proof. intros Hm s [Hs Hp]. by apply Hm. Qed.

Lemma spec_for_each {X} (P E : S → Prop) (l : list X) (body : X → M S unit) :
  (∀ x, x ∈ l → spec P (body x) (λ _, P) E) → spec P (for_each l body) (λ _, P) E.
Proof.
  induction l as [|x l IH]; intros H; simpl; [by apply spec_ret|].
  eapply spec_bind; [apply H; by left|]. intros ?. cbv beta. apply IH. intros y Hy. apply H. by right.
Qed.
End spec.

(** ** Partial correctness without undefined behaviour

    [sound P m Q E]: from a state in [P], [m] never faults; a success ends in
    [Q] with its value and an error return in [E]. *)

Definition sound {S A} (P : S → Prop) (m : M S A) (Q : A → S → Prop) (E : S → Prop) : Prop :=
  ∀ s, P s → match m s with
             | (Ok a, s') => Q a s'
             | (Err _, s') => E s'
             | (Fault, _) => False
             end.

Section sound.
Context {S : Type}.

Lemma sound_ret {A} (P E : S → Prop) (a : A) (Q : A → S → Prop) :
  (∀ s, P s → Q a s) → sound P (ret a) Q E.
Proof. intros HQ s Hs. by apply HQ. Qed.

Lemma sound_fail {A} (P E : S → Prop) e (Q : A → S → Prop) :
  (∀ s, P s → E s) → sound P (fail e) Q E.
Proof. intros HE s Hs. by apply HE. Qed.

Lemma sound_get (P E : S → Prop) : sound P get (λ a s, P s ∧ a = s) E.
Proof. by intros s Hs. Qed.

Lemma sound_modify (P E : S → Prop) f (Q : unit → S → Prop) :
  (∀ s, P s → Q tt (f s)) → sound P (modify f) Q E.
Proof. intros HQ s Hs. by apply HQ. Qed.

Lemma sound_lift {A} (P E : S → Prop) (r : res A) (Q : A → Prop) :
  r ≠ Fault → (∀ a, r = Ok a → Q a) → (∀ s, P s → E s) →
  sound P (lift r) (λ a s, P s ∧ Q a) E.
Proof. intros Hf HQ HE s Hs. unfold lift. destruct r as [a|e|]; auto. Qed.

Lemma sound_bind {A B} (P E : S → Prop) (m : M S A) (k : A → M S B) (R : A → S → Prop) Q :
  sound P m R E → (∀ a, sound (R a) (k a) Q E) → sound P (bind m k) Q E.
Proof.
  intros Hm Hk s Hs. unfold bind. specialize (Hm s Hs).
  destruct (m s) as [[a|e|] s1]; [by apply Hk|done|done].
Qed.

Lemma sound_conseq {A} (P P' E E' : S → Prop) (m : M S A) (Q Q' : A → S → Prop) :
  sound P m Q E → (∀ s, P' s → P s) → (∀ a s, Q a s → Q' a s) → (∀ s, E s → E' s) →
  sound P' m Q' E'.
Proof.
  intros Hm HP HQ HE s Hs. specialize (Hm s (HP s Hs)). destruct (m s) as [[a|e|] s1]; auto.
Qed.

Lemma sound_if {A} (P E : S → Prop) (b : bool) (m n : M S A) Q :
  (b = true → sound P m Q E) → (b = false → sound P n Q E) → sound P (if b then m else n) Q E.
Proof. destruct b; auto. Qed.

Lemma sound_pure {A} (P E : S → Prop) (φ : Prop) (m : M S A) Q :
  (φ → sound P m Q E) → sound (λ s, P s ∧ φ) m Q E.
Proof. intros Hm s [Hs Hp]. by apply Hm. Qed.
End sound.

(** ** Kernel time

    [unsigned long] tick counts compared modulo their width. *)
Definition time_after_eq (a b : Z) : bool := u64 (a - b) <? 2 ^ 63.
Definition time_before (a b : Z) : bool := negb (time_after_eq a b).
Definition time_after (a b : Z) : bool := time_before b a.

(** ** Logs

    A state that carries a log of what was done to the outside; a computation
    only extends it, and [emits P] bounds what it may add. *)

Class Logged (S E : Type) := get_log : S → list E.

Definition grows {S E} `{Logged S E} (P : E → Prop) : relation S :=
  λ s s', ∃ t, get_log s' = get_log s ++ t ∧ Forall P t.

#[export] Instance grows_preorder {S E} `{Logged S E} (P : E → Prop) :
  PreOrder (@grows S E _ P).
Proof.
  split.
  - intros s. exists []. by rewrite app_nil_r.
  - intros s1 s2 s3 (t1&H1&F1) (t2&H2&F2). exists (t1 ++ t2).
    rewrite H2, H1, app_assoc. split; [done|]. by apply Forall_app.
Qed.

Lemma grows_mono {S E} `{Logged S E} (P Q : E → Prop) s s' :
  (∀ e, P e → Q e) → grows P s s' → grows Q s s'.
Proof. intros HPQ (t&Ht&F). exists t. split; [done|]. by eapply Forall_impl. Qed.

Definition emits {S E A} `{Logged S E} (P : E → Prop) (m : M S A) : Prop :=
  keeps (grows P) m.

(** What a successful run logs, exactly. *)
Definition ok_logs {S E A} `{Logged S E} (l : list E) (m : M S A) : Prop :=
  ∀ s a s', m s = (Ok a, s') → get_log s' = get_log s ++ l.

Lemma ok_logs_bind {S E A B} `{Logged S E} l1 l2 (m : M S A) (k : A → M S B) :
  ok_logs l1 m → (∀ a, ok_logs l2 (k a)) → ok_logs (l1 ++ l2) (bind m k).
Proof.
  intros Hm Hk s b s' Eb. apply bind_ok_inv in Eb as (a&s1&E1&E2).
  by rewrite (Hk _ _ _ _ E2), (Hm _ _ _ E1), app_assoc.
Qed.

Lemma ok_logs_for_each {S E X} `{Logged S E} (f : X → list E) (l : list X) (body : X → M S unit) :
  (∀ x, ok_logs (f x) (body x)) → ok_logs (flat_map f l) (for_each l body).
Proof.
  intros Hb. induction l as [|x l IH]; cbn [for_each flat_map].
  - intros s a s' [= _ <-]. by rewrite app_nil_r.
  - by apply ok_logs_bind.
Qed.

(** ** Prescribed effects

    [does vis Ps m]: of the events [m] logs, the visible ones match [Ps] one by
    one; a computation that stops with an error has done a prefix of them, and
    one that succeeds has done them all. *)

Section does.
Context {S E : Type} `{Logged S E} (vis : E → bool).

Definition matches (Ps : list (E → Prop)) (t : list E) : Prop :=
  Forall2 (λ P e, P e) Ps (filter (λ e, vis e = true) t).

Definition does {A} (Ps : list (E → Prop)) (m : M S A) : Prop := ∀ s, ∃ t,
  get_log (m s).2 = get_log s ++ t ∧
  match (m s).1 with
  | Ok _ => matches Ps t
  | Err _ => ∃ k, matches (take k Ps) t
  | Fault => False
  end.

Lemma matches_app Ps Qs t u : matches Ps t → matches Qs u → matches (Ps ++ Qs) (t ++ u).
Proof. intros H1 H2. unfold matches. rewrite filter_app. by apply Forall2_app. Qed.

Lemma matches_one (P : E → Prop) e : vis e = true → P e → matches [P] [e].
Proof. intros Hv HP. unfold matches. rewrite filter_cons_True by done. by repeat constructor. Qed.

Lemma does_ret {A} (a : A) : does [] (ret a).
Proof. intros s. exists []. rewrite app_nil_r. split; [done|]. constructor. Qed.

Lemma does_fail {A} Ps e : does Ps (@fail S A e).
Proof.
  intros s. exists []. rewrite app_nil_r. split; [done|]. exists 0%nat. constructor.
Qed.

(** The same, for code that may end a failure with one of the tails [halts],
    such as a clean-up. *)
Definition does_or {A} (halts : list (list (E → Prop))) (Ps : list (E → Prop))
    (m : M S A) : Prop := ∀ s, ∃ t,
  get_log (m s).2 = get_log s ++ t ∧
  match (m s).1 with
  | Ok _ => matches Ps t
  | Err _ => ∃ k c, matches (take k Ps ++ c) t ∧ (c = [] ∨ c ∈ halts)
  | Fault => False
  end.

Lemma does_does_or {A} halts Ps (m : M S A) : does Ps m → does_or halts Ps m.
Proof.
  intros Hm s. destruct (Hm s) as (t&Ht&Hr). exists t. split; [done|].
  destruct (m s).1; [done| |done]. destruct Hr as (k&Hk). exists k, [].
  rewrite app_nil_r. auto.
Qed.

Lemma does_or_nil {A} Ps (m : M S A) : does_or [] Ps m → does Ps m.
Proof.
  intros Hm s. destruct (Hm s) as (t&Ht&Hr). exists t. split; [done|].
  destruct (m s).1; [done| |done]. destruct Hr as (k&c&Hk&[-> | []%not_elem_of_nil]).
  rewrite app_nil_r in Hk. eauto.
Qed.

Lemma does_or_bind {A B} halts Ps Qs (m : M S A) (k : A → M S B) :
  does_or halts Ps m → (∀ a, does_or halts Qs (k a)) → does_or halts (Ps ++ Qs) (bind m k).
Proof.
  intros Hm Hk s. unfold bind. destruct (Hm s) as (t&Ht&Hr).
  destruct (m s) as [[a|e|] s1]; simpl in *; [| |done].
  - destruct (Hk a s1) as (u&Hu&Hr'). exists (t ++ u). rewrite Hu, Ht, app_assoc.
    split; [done|]. destruct (k a s1) as [[b|e|] s2]; simpl in *; [| |done].
    + by apply matches_app.
    + destruct Hr' as (n&c&Hn&Hc). exists (length Ps + n)%nat, c.
      rewrite take_app_add, <- app_assoc. split; [by apply matches_app|done].
  - exists t. split; [done|]. destruct Hr as (n&c&Hn&Hc).
    exists (n `min` length Ps)%nat, c. split; [|done].
    rewrite take_app_le by lia. destruct (decide (n ≤ length Ps)%nat).
    + by rewrite Nat.min_l by lia.
    + rewrite take_ge in Hn by lia. by rewrite Nat.min_r, take_ge by lia.
Qed.

Lemma does_bind {A B} Ps Qs (m : M S A) (k : A → M S B) :
  does Ps m → (∀ a, does Qs (k a)) → does (Ps ++ Qs) (bind m k).
Proof.
  intros Hm Hk. apply does_or_nil, does_or_bind; [by apply does_does_or|].
  intros a. by apply does_does_or.
Qed.

Lemma does_or_for_each {X} halts (f : X → list (E → Prop)) (l : list X) (body : X → M S unit) :
  (∀ x, x ∈ l → does_or halts (f x) (body x)) → does_or halts (flat_map f l) (for_each l body).
Proof.
  induction l as [|x l IH]; intros Hb; cbn [for_each flat_map].
  - apply does_does_or, does_ret.
  - apply does_or_bind; [apply Hb; by left|]. intros _. apply IH. intros y Hy.
    apply Hb. by right.
Qed.

Lemma does_for_each {X} (f : X → list (E → Prop)) (l : list X) (body : X → M S unit) :
  (∀ x, x ∈ l → does (f x) (body x)) → does (flat_map f l) (for_each l body).
Proof.
  intros Hb. apply does_or_nil, does_or_for_each. intros x Hx. by apply does_does_or, Hb.
Qed.

Lemma does_or_ext {A} halts Ps (m m' : M S A) :
  (∀ s, m s = m' s) → does_or halts Ps m' → does_or halts Ps m.
Proof. intros Em Hm s. rewrite Em. apply Hm. Qed.

Lemma does_or_if {A} halts Ps (b : bool) (m n : M S A) :
  (b = true → does_or halts Ps m) → (b = false → does_or halts Ps n) →
  does_or halts Ps (if b then m else n).
Proof. destruct b; auto. Qed.

Lemma does_if {A} Ps (b : bool) (m n : M S A) :
  does Ps m → does Ps n → does Ps (if b then m else n).
Proof. by destruct b. Qed.

(** Extending the prescription of the errors of a step that may stop early. *)
Lemma does_safe {A} Ps (m : M S A) : does Ps m → safe m.
Proof. intros H1 s. destruct (H1 s) as (t&_&Hr). by destruct (m s) as [[a|e|] s']. Qed.

(** Steps with no visible event. *)
Lemma does_silent {A} (m : M S A) :
  safe m → emits (λ e, vis e = false) m → does [] m.
Proof.
  intros Hs He s. destruct (He s) as (t&Ht&Hf). exists t. split; [done|].
  specialize (Hs s). assert (filter (λ e, vis e = true) t = []) as Ef.
  { clear Ht. induction Hf as [|e t He' Hf IH]; [done|].
    rewrite filter_cons_False by congruence. done. }
  destruct (m s) as [[a|e|] s']; [| |done].
  - unfold matches. rewrite Ef. constructor.
  - exists 0%nat. unfold matches. rewrite Ef. constructor.
Qed.
End does.

(** ** Byte buffers *)

Definition is_byte (b : Z) : Prop := 0 ≤ b < 256.

(** [p[i]]; outside the buffer C is undefined. *)
Definition byte_at (p : list Z) (i : Z) : res Z :=
  if i <? 0 then Fault else
  match p !! Z.to_nat i with Some b => Ok (u8 b) | None => Fault end.

Definition get_unaligned_le16 (p : list Z) (i : Z) : res Z :=
  let? a := byte_at p i in let? b := byte_at p (i + 1) in
  Ok (a + b * 2 ^ 8).

Definition get_unaligned_le32 (p : list Z) (i : Z) : res Z :=
  let? a := byte_at p i in let? b := byte_at p (i + 1) in
  let? c := byte_at p (i + 2) in let? d := byte_at p (i + 3) in
  Ok (a + b * 2 ^ 8 + c * 2 ^ 16 + d * 2 ^ 24).

Definition get_unaligned_be32 (p : list Z) (i : Z) : res Z :=
  let? a := byte_at p i in let? b := byte_at p (i + 1) in
  let? c := byte_at p (i + 2) in let? d := byte_at p (i + 3) in
  Ok (d + c * 2 ^ 8 + b * 2 ^ 16 + a * 2 ^ 24).

Definition le16 (v : Z) : list Z := [u8 v; u8 (v / 2 ^ 8)].
Definition le32 (v : Z) : list Z :=
  [u8 v; u8 (v / 2 ^ 8); u8 (v / 2 ^ 16); u8 (v / 2 ^ 24)].
Definition be32 (v : Z) : list Z :=
  [u8 (v / 2 ^ 24); u8 (v / 2 ^ 16); u8 (v / 2 ^ 8); u8 v].
Definition le64 (v : Z) : list Z := le32 (v mod 2 ^ 32) ++ le32 (v / 2 ^ 32).

(** [memcpy(p + i, bs, sizeof(bs))]; the put_unaligned helpers are this with
    the encodings above. *)
Definition put_bytes (p : list Z) (i : Z) (bs : list Z) : res (list Z) :=
  if (i <? 0) || (Z.of_nat (length p) <? i + Z.of_nat (length bs)) then Fault
  else Ok (take (Z.to_nat i) p ++ bs ++ drop (Z.to_nat i + length bs) p).

Lemma byte_at_ok p i :
  0 ≤ i < Z.of_nat (length p) → ∃ b, byte_at p i = Ok b ∧ is_byte b.
Proof.
  intros Hi. unfold byte_at. destruct (Z.ltb_spec i 0); [lia|].
  destruct (p !! Z.to_nat i) as [b|] eqn:E.
  - exists (u8 b). split; [done|]. apply u8_range.
  - apply lookup_ge_None in E. lia.
Qed.

Lemma byte_at_app_r l1 l2 i :
  0 ≤ i → byte_at (l1 ++ l2) (Z.of_nat (length l1) + i) = byte_at l2 i.
Proof.
  intros Hi. unfold byte_at.
  destruct (Z.ltb_spec (Z.of_nat (length l1) + i) 0), (Z.ltb_spec i 0); try lia.
  rewrite lookup_app_r by lia.
  by replace (Z.to_nat (Z.of_nat (length l1) + i) - length l1)%nat
    with (Z.to_nat i) by lia.
Qed.

Lemma byte_at_app_l l1 l2 i :
  i < Z.of_nat (length l1) → byte_at (l1 ++ l2) i = byte_at l1 i.
Proof.
  intros Hi. unfold byte_at. destruct (Z.ltb_spec i 0); [done|].
  rewrite lookup_app_l by lia. done.
Qed.

Lemma get_le32_ok p i :
  0 ≤ i → i + 4 ≤ Z.of_nat (length p) →
  ∃ v, get_unaligned_le32 p i = Ok v ∧ 0 ≤ v < 2 ^ 32.
Proof.
  intros Hi Hl. unfold get_unaligned_le32.
  destruct (byte_at_ok p i) as (a&->&Ha); [lia|].
  destruct (byte_at_ok p (i + 1)) as (b&->&Hb); [lia|].
  destruct (byte_at_ok p (i + 2)) as (c&->&Hc); [lia|].
  destruct (byte_at_ok p (i + 3)) as (d&->&Hd); [lia|].
  simpl. eexists. split; [done|]. unfold is_byte in *. lia.
Qed.

Lemma get_be32_ok p i :
  0 ≤ i → i + 4 ≤ Z.of_nat (length p) →
  ∃ v, get_unaligned_be32 p i = Ok v ∧ 0 ≤ v < 2 ^ 32.
Proof.
  intros Hi Hl. unfold get_unaligned_be32.
  destruct (byte_at_ok p i) as (a&->&Ha); [lia|].
  destruct (byte_at_ok p (i + 1)) as (b&->&Hb); [lia|].
  destruct (byte_at_ok p (i + 2)) as (c&->&Hc); [lia|].
  destruct (byte_at_ok p (i + 3)) as (d&->&Hd); [lia|].
  simpl. eexists. split; [done|]. unfold is_byte in *. lia.
Qed.

Lemma get_le16_ok p i :
  0 ≤ i → i + 2 ≤ Z.of_nat (length p) →
  ∃ v, get_unaligned_le16 p i = Ok v ∧ 0 ≤ v < 2 ^ 16.
Proof.
  intros Hi Hl. unfold get_unaligned_le16.
  destruct (byte_at_ok p i) as (a&->&Ha); [lia|].
  destruct (byte_at_ok p (i + 1)) as (b&->&Hb); [lia|].
  simpl. eexists. split; [done|]. unfold is_byte in *. lia.
Qed.

(** Carry out the buffer reads that lie in bounds. *)
Ltac in_bounds :=
  repeat match goal with
  | |- context [rbind (byte_at ?p ?i) _] =>
      let b := fresh "b" in let H := fresh "Hb" in
      destruct (byte_at_ok p i) as (b&->&H); [lia|]; cbn [rbind]
  | |- context [rbind (get_unaligned_le32 ?p ?i) _] =>
      let b := fresh "w" in let H := fresh "Hw" in
      destruct (get_le32_ok p i) as (b&->&H); [lia|lia|]; cbn [rbind]
  | |- context [rbind (get_unaligned_be32 ?p ?i) _] =>
      let b := fresh "w" in let H := fresh "Hw" in
      destruct (get_be32_ok p i) as (b&->&H); [lia|lia|]; cbn [rbind]
  | |- context [rbind (get_unaligned_le16 ?p ?i) _] =>
      let b := fresh "w" in let H := fresh "Hw" in
      destruct (get_le16_ok p i) as (b&->&H); [lia|lia|]; cbn [rbind]
  end.

Lemma get_le32_app l1 l2 i :
  0 ≤ i →
  get_unaligned_le32 (l1 ++ l2) (Z.of_nat (length l1) + i) = get_unaligned_le32 l2 i.
Proof.
  intros Hi. unfold get_unaligned_le32. rewrite <- !Z.add_assoc.
  by rewrite !byte_at_app_r by lia.
Qed.

Lemma get_be32_app l1 l2 i :
  0 ≤ i →
  get_unaligned_be32 (l1 ++ l2) (Z.of_nat (length l1) + i) = get_unaligned_be32 l2 i.
Proof.
  intros Hi. unfold get_unaligned_be32. rewrite <- !Z.add_assoc.
  by rewrite !byte_at_app_r by lia.
Qed.

Lemma get_le32_at l1 l2 i j :
  i = Z.of_nat (length l1) + j → 0 ≤ j →
  get_unaligned_le32 (l1 ++ l2) i = get_unaligned_le32 l2 j.
Proof. intros ->. apply get_le32_app. Qed.

Lemma get_be32_at l1 l2 i j :
  i = Z.of_nat (length l1) + j → 0 ≤ j →
  get_unaligned_be32 (l1 ++ l2) i = get_unaligned_be32 l2 j.
Proof. intros ->. apply get_be32_app. Qed.

Lemma u8_idem x : u8 (u8 x) = u8 x.
Proof. apply u8_small, u8_range. Qed.

(** Powers of two as literals, for [lia]. *)
Ltac pow_lits :=
  change (2 ^ 8) with 256 in *; change (2 ^ 16) with 65536 in *;
  change (2 ^ 24) with 16777216 in *; change (2 ^ 32) with 4294967296 in *.

(** Base-256 digits of a 32-bit word. *)
Lemma digits32 v :
  0 ≤ v < 2 ^ 32 →
  u8 v + u8 (v / 2 ^ 8) * 2 ^ 8 + u8 (v / 2 ^ 16) * 2 ^ 16 +
  u8 (v / 2 ^ 24) * 2 ^ 24 = v.
Proof. intros Hv. unfold u8. pow_lits. Z.to_euclidean_division_equations. lia. Qed.

Lemma get_le32_le32 v r : 0 ≤ v < 2 ^ 32 → get_unaligned_le32 (le32 v ++ r) 0 = Ok v.
Proof.
  intros Hv. unfold get_unaligned_le32, le32, byte_at. simpl.
  rewrite !u8_idem. f_equal. by apply digits32.
Qed.

Lemma get_be32_be32 v r : 0 ≤ v < 2 ^ 32 → get_unaligned_be32 (be32 v ++ r) 0 = Ok v.
Proof.
  intros Hv. unfold get_unaligned_be32, be32, byte_at. simpl.
  rewrite !u8_idem. f_equal. by apply digits32.
Qed.

(** The four bytes read as a word are its encoding. *)
Lemma le32_of_get p v :
  Forall is_byte p → get_unaligned_le32 p 0 = Ok v → p = le32 v ++ drop 4 p.
Proof.
  intros Hp. unfold get_unaligned_le32, byte_at. simpl.
  destruct p as [|a [|b [|c [|d p]]]]; simpl; try discriminate.
  intros [= <-].
  inversion_clear Hp as [|?? Ha Hp1]. inversion_clear Hp1 as [|?? Hb Hp2].
  inversion_clear Hp2 as [|?? Hc Hp3]. inversion_clear Hp3 as [|?? Hd Hp4].
  unfold is_byte, le32 in *. rewrite !(u8_small a), !(u8_small b), !(u8_small c),
    !(u8_small d) by lia.
  unfold u8. simpl. pow_lits. repeat f_equal; Z.to_euclidean_division_equations; lia.
Qed.

Lemma length_le32 v : length (le32 v) = 4%nat.
Proof. done. Qed.
Lemma length_be32 v : length (be32 v) = 4%nat.
Proof. done. Qed.

Lemma le32_bytes v : Forall is_byte (le32 v).
Proof. repeat constructor; apply u8_range. Qed.
Lemma be32_bytes v : Forall is_byte (be32 v).
Proof. repeat constructor; apply u8_range. Qed.

Lemma put_bytes_ok p i bs :
  0 ≤ i → i + Z.of_nat (length bs) ≤ Z.of_nat (length p) →
  put_bytes p i bs =
    Ok (take (Z.to_nat i) p ++ bs ++ drop (Z.to_nat i + length bs) p).
Proof.
  intros Hi Hl. unfold put_bytes.
  destruct (Z.ltb_spec i 0); [lia|].
  destruct (Z.ltb_spec (Z.of_nat (length p)) (i + Z.of_nat (length bs))); [lia|done].
Qed.

(** Overwriting a middle segment of the same length. *)
Lemma put_bytes_at l1 l2 l3 i bs :
  i = Z.of_nat (length l1) → length bs = length l2 →
  put_bytes (l1 ++ l2 ++ l3) i bs = Ok (l1 ++ bs ++ l3).
Proof.
  intros -> Hl. rewrite put_bytes_ok by (rewrite ?length_app; lia).
  rewrite Nat2Z.id, take_app_length, Hl, <- drop_drop, drop_app_length.
  by rewrite drop_app_length.
Qed.

Lemma put_bytes_front l2 l3 bs :
  length bs = length l2 → put_bytes (l2 ++ l3) 0 bs = Ok (bs ++ l3).
Proof. by apply (put_bytes_at []). Qed.

(** Copy [n] bytes out of a buffer; outside it C is undefined. *)
Definition bytes_at (p : list Z) (i n : Z) : res (list Z) :=
  if (i <? 0) || (n <? 0) || (Z.of_nat (length p) <? i + n) then Fault
  else Ok (take (Z.to_nat n) (drop (Z.to_nat i) p)).

Lemma bytes_at_ok p i n :
  0 ≤ i → 0 ≤ n → i + n ≤ Z.of_nat (length p) →
  ∃ bs, bytes_at p i n = Ok bs ∧ Z.of_nat (length bs) = n.
Proof.
  intros Hi Hn Hl. unfold bytes_at. destruct (_ || _) eqn:E.
  { rewrite !orb_true_iff, !Z.ltb_lt in E. lia. }
  eexists. split; [done|]. rewrite length_take, length_drop. lia.
Qed.

Lemma put_bytes_length p i bs q : put_bytes p i bs = Ok q → length q = length p.
Proof.
  unfold put_bytes. destruct (_ || _) eqn:E; [done|]. intros [= <-].
  rewrite orb_false_iff, !Z.ltb_ge in E. rewrite !length_app, length_take, length_drop. lia.
Qed.

(** Cutting a buffer at a known offset. *)
Lemma cut_at {A} n (l : list A) :
  (n ≤ length l)%nat → ∃ l1 l2, l = l1 ++ l2 ∧ length l1 = n.
Proof.
  intros Hn. exists (take n l), (drop n l). rewrite take_drop. split; [done|].
  rewrite length_take. lia.
Qed.

#[global] Arguments le32 _ : simpl never.
#[global] Arguments be32 _ : simpl never.

(** Index a C array of words; outside it C is undefined. *)
Definition word_of (l : list Z) (i : nat) : res Z :=
  match l !! i with Some w => Ok w | None => Fault end.

(** Fill an array in a loop, leaving at the first error. *)
Fixpoint rmap {A B} (f : A → res B) (l : list A) : res (list B) :=
  match l with
  | [] => Ok []
  | x :: l => let? y := f x in let? ys := rmap f l in Ok (y :: ys)
  end.

(** Big-endian words, the wire order of control packets. *)
Definition is_u32 (w : Z) : Prop := 0 ≤ w < 2 ^ 32.
Definition be_words (ws : list Z) : list Z := flat_map be32 ws.

Lemma be32_of_get p v :
  Forall is_byte p → get_unaligned_be32 p 0 = Ok v → p = be32 v ++ drop 4 p.
Proof.
  intros Hp. unfold get_unaligned_be32, byte_at. simpl.
  destruct p as [|a [|b [|c [|d p]]]]; simpl; try discriminate.
  intros [= <-].
  inversion_clear Hp as [|?? Ha Hp1]. inversion_clear Hp1 as [|?? Hb Hp2].
  inversion_clear Hp2 as [|?? Hc Hp3]. inversion_clear Hp3 as [|?? Hd Hp4].
  unfold is_byte, be32 in *. rewrite !(u8_small a), !(u8_small b), !(u8_small c),
    !(u8_small d) by lia.
  unfold u8. simpl. pow_lits. repeat f_equal; Z.to_euclidean_division_equations; lia.
Qed.

Lemma be_words_cons w ws : be_words (w :: ws) = be32 w ++ be_words ws.
Proof. done. Qed.

Lemma length_be_words ws : length (be_words ws) = (4 * length ws)%nat.
Proof. induction ws as [|w ws IH]; [done|]. simpl. rewrite IH. lia. Qed.

Lemma be_words_app ws1 ws2 : be_words (ws1 ++ ws2) = be_words ws1 ++ be_words ws2.
Proof. apply flat_map_app. Qed.

Lemma be_words_bytes ws : Forall is_byte (be_words ws).
Proof.
  induction ws as [|w ws IH]; [constructor|]. rewrite be_words_cons. apply Forall_app.
  split; [apply be32_bytes|done].
Qed.

(** Any buffer of whole words is the encoding of its words. *)
Lemma be_words_split p n :
  Forall is_byte p → length p = (4 * n)%nat →
  ∃ ws, p = be_words ws ∧ length ws = n ∧ Forall is_u32 ws.
Proof.
  revert p. induction n as [|n IH]; intros p Hp Hl.
  { exists []. by destruct p. }
  destruct (get_be32_ok p 0) as (v&Hv&Hr); [lia|lia|].
  pose proof (be32_of_get p v Hp Hv) as E.
  destruct (IH (drop 4 p)) as (ws&Hw&Hn&Hf); [by apply Forall_drop|rewrite length_drop; lia|].
  exists (v :: ws). rewrite be_words_cons, <- Hw, <- E. simpl.
  split_and!; [done|by rewrite Hn|by constructor].
Qed.

Lemma get_be_word ws r (i : nat) w :
  Forall is_u32 ws → ws !! i = Some w →
  get_unaligned_be32 (be_words ws ++ r) (4 * Z.of_nat i) = Ok w.
Proof.
  revert i. induction ws as [|v ws IH]; intros i Hf Hi; [done|].
  apply Forall_cons in Hf as [Hv Hf]. destruct i as [|i]; simpl in Hi.
  - simplify_eq. rewrite be_words_cons, <- app_assoc. by apply get_be32_be32.
  - rewrite be_words_cons, <- app_assoc. rewrite (get_be32_at (be32 v) _ _ (4 * Z.of_nat i)).
    + by apply IH.
    + rewrite length_be32. lia.
    + lia.
Qed.

Lemma be32_inj v w : is_u32 v → is_u32 w → be32 v = be32 w → v = w.
Proof.
  intros Hv Hw E. pose proof (get_be32_be32 v [] Hv) as H1.
  pose proof (get_be32_be32 w [] Hw) as H2. rewrite E in H1. congruence.
Qed.

Lemma be_words_inj ws1 ws2 :
  Forall is_u32 ws1 → Forall is_u32 ws2 → be_words ws1 = be_words ws2 → ws1 = ws2.
Proof.
  revert ws2. induction ws1 as [|v ws1 IH]; intros [|w ws2] H1 H2 E; try done.
  rewrite !be_words_cons in E. apply app_inj_1 in E as [E1 E2]; [|done].
  apply Forall_cons in H1 as [Hv H1], H2 as [Hw H2]. f_equal; [by apply be32_inj|by apply IH].
Qed.

(** The loop [for (i = 0; i < n; i++) words[i] = get_unaligned_be32(p + a + 4 * i)]. *)
Lemma read_be_words pre ws r a :
  Forall is_u32 ws → Forall is_u32 pre → a = 4 * Z.of_nat (length pre) →
  rmap (λ i, get_unaligned_be32 (be_words (pre ++ ws) ++ r) (a + 4 * Z.of_nat i))
    (seq 0 (length ws)) = Ok ws.
Proof.
  intros Hw Hp ->. revert pre Hp. induction ws as [|w ws IH]; intros pre Hp; [done|].
  apply Forall_cons in Hw as [Hw Hws]. specialize (IH Hws (pre ++ [w])).
  assert (Forall is_u32 (pre ++ w :: ws)) as Hall
    by (apply Forall_app; split; [done|by constructor]).
  cbn [length seq rmap]. replace (4 * Z.of_nat (length pre) + 4 * Z.of_nat 0)
    with (4 * Z.of_nat (length pre)) by lia.
  rewrite (get_be_word _ _ _ w) by (done || by rewrite lookup_app_r, Nat.sub_diag by lia).
  cbn [rbind]. rewrite <- fmap_S_seq.
  assert (∀ l, rmap (λ i, get_unaligned_be32 (be_words (pre ++ w :: ws) ++ r)
      (4 * Z.of_nat (length pre) + 4 * Z.of_nat i)) (S <$> l) =
    rmap (λ i, get_unaligned_be32 (be_words ((pre ++ [w]) ++ ws) ++ r)
      (4 * Z.of_nat (length (pre ++ [w])) + 4 * Z.of_nat i)) l) as ->.
  { intros l. rewrite <- app_assoc, length_app. cbn [app length].
    induction l as [|i l IHl]; [done|]. rewrite fmap_cons. cbn [rmap]. rewrite IHl.
    do 2 f_equal. lia. }
  rewrite IH; [done|]. apply Forall_app. split; [done|]. constructor; [done|constructor].
Qed.


(** ** Memory-mapped registers

    The hardware behind [readl]/[writel] is a parameter: any state with a
    read and a write, reads allowed to change it. *)

Class Mmio (A D : Type) := {
  dev_read : A → D → Z * D;
  dev_write : A → Z → D → D;
}.

Definition readl {A D} `{Mmio A D} (a : A) : M D Z := λ d,
  let (v, d') := dev_read a d in (Ok (u32 v), d').
Definition writel {A D} `{Mmio A D} (v : Z) (a : A) : M D unit := λ d,
  (Ok tt, dev_write a (u32 v) d).

(** [readl_poll_timeout] of linux/iopoll.h: read until the condition holds;
    once the deadline has passed, one last read decides.  How many reads fit
    before the deadline is the environment's choice, [iters] more than one. *)
Fixpoint readl_poll_timeout {A D} `{Mmio A D} (iters : nat) (a : A) (cond : Z → bool)
    : M D unit :=
  let! v := readl a in
  if cond v then ret tt else
  match iters with
  | O => let! v := readl a in if cond v then ret tt else fail (-ETIMEDOUT)
  | S iters => readl_poll_timeout iters a cond
  end.

(** Every access of a device, in order, beside the device itself. *)
Inductive access (A : Type) :=
| Rd (a : A) (v : Z)
| Wr (a : A) (v : Z).
Arguments Rd {_} _ _.
Arguments Wr {_} _ _.

Record traced (A D : Type) := Traced { hw : D; log : list (access A) }.
Arguments Traced {_ _} _ _.
Arguments hw {_ _} _.
Arguments log {_ _} _.

#[export] Instance traced_mmio {A D} `{Mmio A D} : Mmio A (traced A D) := {|
  dev_read a s := let (v, d) := dev_read a (hw s) in
                  (v, Traced d (log s ++ [Rd a (u32 v)]));
  dev_write a v s := Traced (dev_write a v (hw s)) (log s ++ [Wr a v]);
|}.
#[export] Instance traced_logged A D : Logged (traced A D) (access A) := log.

Definition writes {A} (l : list (access A)) : list (A * Z) :=
  omap (λ e, match e with Wr a v => Some (a, v) | Rd _ _ => None end) l.

(** Accesses that leave the device as it is found, and accesses whose
    writes satisfy [P]. *)
Definition reads_only {A} (e : access A) : Prop :=
  match e with Rd _ _ => True | Wr _ _ => False end.
Definition wr_in {A} (P : A → Z → Prop) (e : access A) : Prop :=
  match e with Rd _ _ => True | Wr a v => P a v end.
Definition at_addr {A} (P : A → Prop) (e : access A) : Prop :=
  match e with Rd a _ | Wr a _ => P a end.

Lemma writes_app {A} (l1 l2 : list (access A)) : writes (l1 ++ l2) = writes l1 ++ writes l2.
Proof. unfold writes. apply omap_app. Qed.

Lemma writes_fmap {A X} (f : X → A) (g : X → Z) l :
  writes ((λ x, Wr (f x) (g x)) <$> l) = (λ x, (f x, g x)) <$> l.
Proof.
  induction l as [|x l IH]; [done|]. rewrite !fmap_cons. unfold writes in *. simpl.
  by f_equal.
Qed.

Lemma writes_reads_only {A} (l : list (access A)) : Forall reads_only l → writes l = [].
Proof. induction 1 as [|[a v|a v] l H _ IH]; [done| |done]. done. Qed.

Lemma grows_no_write {A D} (s s' : traced A D) :
  grows reads_only s s' → writes (log s') = writes (log s).
Proof.
  intros (t&Ht&F). unfold get_log, traced_logged in Ht.
  by rewrite Ht, writes_app, (writes_reads_only t), app_nil_r.
Qed.

Section traced.
Context {A D : Type} `{Mmio A D}.

Lemma emits_readl (P : access A → Prop) a :
  (∀ v, P (Rd a v)) → emits (S:=traced A D) P (readl a).
Proof.
  intros HP s. unfold readl. simpl. destruct (dev_read a (hw s)) as [v d].
  exists [Rd a (u32 v)]. split; [done|]. by constructor.
Qed.

Lemma emits_writel (P : access A → Prop) a v :
  P (Wr a (u32 v)) → emits (S:=traced A D) P (writel v a).
Proof. intros HP s. exists [Wr a (u32 v)]. split; [done|]. by constructor. Qed.

Lemma emits_poll (P : access A → Prop) a cond iters :
  (∀ v, P (Rd a v)) → emits (S:=traced A D) P (readl_poll_timeout iters a cond).
Proof.
  intros HP. assert (emits (S:=traced A D) P (readl a)) as Hr by by apply emits_readl.
  unfold emits in *. induction iters as [|n IH]; simpl; keeps_auto; done.
Qed.

Lemma poll_result a cond iters (s : traced A D) :
  (∃ s', readl_poll_timeout iters a cond s = (Ok tt, s') ∧ grows reads_only s s') ∨
  (∃ s', readl_poll_timeout iters a cond s = (Err (-ETIMEDOUT), s') ∧ grows reads_only s s').
Proof.
  pose proof (emits_poll reads_only a cond iters (λ _, I) s) as Hg. revert Hg.
  assert (∀ iters (s0 : traced A D),
    (readl_poll_timeout iters a cond s0).1 = Ok tt ∨
    (readl_poll_timeout iters a cond s0).1 = Err (-ETIMEDOUT)) as Hr.
  { clear. intros iters. induction iters as [|n IH]; intros s0; simpl; unfold bind, readl;
      destruct (dev_read a s0) as [v s1]; destruct (cond (u32 v)); try by left.
    - destruct (dev_read a s1) as [v' s2]. destruct (cond (u32 v')); [by left|by right].
    - apply IH. }
  destruct (readl_poll_timeout iters a cond s) as [r s'] eqn:E. simpl. intros Hg.
  destruct (Hr iters s) as [Hr'|Hr']; rewrite E in Hr'; simpl in Hr'; subst; eauto.
Qed.

(** The exact effect of one access on device and log. *)
Lemma readl_traced a (s : traced A D) :
  ∃ v d, readl a s = (Ok v, Traced d (log s ++ [Rd a v])) ∧ 0 ≤ v < 2 ^ 32.
Proof.
  unfold readl. simpl. destruct (dev_read a (hw s)) as [v d].
  exists (u32 v), d. split; [done|apply u32_range].
Qed.

Lemma writel_traced a v (s : traced A D) :
  writel v a s = (Ok tt, Traced (dev_write a (u32 v) (hw s)) (log s ++ [Wr a (u32 v)])).
Proof. done. Qed.

Lemma readl_range a (s : traced A D) v s' :
  readl a s = (Ok v, s') → 0 ≤ v < 2 ^ 32.
Proof.
  unfold readl. destruct (dev_read a s) as [w d]. intros [= <- _]. apply u32_range.
Qed.
End traced.

(** A register file: every register reads back what was last written to it.
    The instance that witnesses evaluate on. *)
Definition regs (A : Type) : Type := A → Z.
#[export] Instance regs_mmio {A} `{EqDecision A} : Mmio A (regs A) := {|
  dev_read a d := (d a, d);
  dev_write a v d := λ b, if decide (a = b) then v else d b;
|}.
