(* ===== verification/Wp.v ===== *)
(** * Errnos as values and weakest preconditions

    Code that keeps the result of a call and decides on it later, and the
    calculus in which such code is walked through. *)

From S2P Require Import Prelude.

(** ** Errnos as values *)

Definition EXDEV : Z := 18.
Definition EPROBE_DEFER : Z := 517.

(** Run [m] and hand its errno on, 0 for success. *)
Definition attempt {S} (m : M S unit) : M S Z := λ s,
  match m s with
  | (Ok _, s) => (Ok 0, s)
  | (Err e, s) => (Ok e, s)
  | (Fault, s) => (Fault, s)
  end.

(** [if (ret) goto fail;] *)
Definition ok_or_fail {S} (r : Z) : M S unit := if r =? 0 then ret tt else fail r.

(** [a ?: b] *)
Definition elvis (a b : Z) : Z := if a =? 0 then b else a.

(** ** Weakest preconditions

    [wp m Q E s]: from [s], [m] does not fault, returns a value and a state in
    [Q], or leaves with an errno and a state in [E]. *)

Definition wp {S A} (m : M S A) (Q : A → S → Prop) (E : Z → S → Prop) (s : S) : Prop :=
  match m s with
  | (Ok a, s') => Q a s'
  | (Err e, s') => E e s'
  | (Fault, _) => False
  end.

Section wp.
Context {S : Type}.

Lemma wp_ret {A} (a : A) (Q : A → S → Prop) E s : Q a s → wp (ret a) Q E s.
Proof. done. Qed.
Lemma wp_fail {A} e (Q : A → S → Prop) (E : Z → S → Prop) s : E e s → wp (fail e) Q E s.
Proof. done. Qed.
Lemma wp_bind {A B} (m : M S A) (k : A → M S B) Q E s :
  wp m (λ a, wp (k a) Q E) E s → wp (bind m k) Q E s.
Proof. unfold wp, bind. by destruct (m s) as [[a|e|] s']. Qed.
Lemma wp_assoc {A B C} (m : M S A) (n : A → M S B) (k : B → M S C) Q E s :
  wp (bind (bind m n) k) Q E s → wp (bind m (λ a, bind (n a) k)) Q E s.
Proof. unfold wp. by rewrite bind_assoc. Qed.
Lemma wp_mono {A} (m : M S A) (Q Q' : A → S → Prop) (E E' : Z → S → Prop) s :
  wp m Q E s → (∀ a s', Q a s' → Q' a s') → (∀ e s', E e s' → E' e s') → wp m Q' E' s.
Proof. unfold wp. destruct (m s) as [[a|e|] s']; auto. Qed.
Lemma wp_attempt (m : M S unit) (Q : Z → S → Prop) E s :
  wp m (λ _, Q 0) Q s → wp (attempt m) Q E s.
Proof. unfold wp, attempt. by destruct (m s) as [[a|e|] s']. Qed.
Lemma wp_ok_or_fail r (Q : unit → S → Prop) (E : Z → S → Prop) s :
  (r = 0 → Q tt s) → (r ≠ 0 → E r s) → wp (ok_or_fail r) Q E s.
Proof. unfold ok_or_fail. intros HQ HE. destruct (Z.eqb_spec r 0); [by apply HQ|by apply HE]. Qed.
Lemma wp_modify (f : S → S) (Q : unit → S → Prop) E s : Q tt (f s) → wp (modify f) Q E s.
Proof. done. Qed.
Lemma wp_get (Q : S → S → Prop) E s : Q s s → wp get Q E s.
Proof. done. Qed.
Lemma wp_lift {A} (r : res A) (Q : A → S → Prop) (E : Z → S → Prop) s :
  r ≠ Fault → (∀ a, r = Ok a → Q a s) → (∀ e, r = Err e → E e s) → wp (lift r) Q E s.
Proof. unfold wp, lift. destruct r; auto. Qed.
Lemma wp_on_error {A} (m : M S A) c (Q : A → S → Prop) (E : Z → S → Prop) s :
  wp m Q (λ e, wp c (λ _, E e) (λ _, E e)) s → wp (on_error m c) Q E s.
Proof.
  unfold wp, on_error. destruct (m s) as [[a|e|] s']; [done| |done].
  intros Hc. destruct (c s') as [[b|e'|] s'']; done.
Qed.

Lemma wp_recording {A} (m : M S A) h (Q : A → S → Prop) (E : Z → S → Prop) s :
  wp m (λ a t, Q a (h 0 t)) (λ e t, E e (h e t)) s → wp (recording m h) Q E s.
Proof. unfold wp, recording. by destruct (m s) as [[a|e|] s']. Qed.

(** A loop keeps what every round keeps. *)
Lemma wp_for_each {X} (l : list X) (body : X → M S unit) (I : S → Prop) (E : Z → S → Prop) s :
  I s → (∀ x s, x ∈ l → I s → wp (body x) (λ _, I) E s) → wp (for_each l body) (λ _, I) E s.
Proof.
  revert s. induction l as [|x l IH]; intros s Hs Hb; simpl; [by apply wp_ret|].
  apply wp_bind. eapply wp_mono; [apply Hb; [set_solver|done]| |done].
  intros ? s' Hs'. apply IH; [done|]. intros y t Hy. apply Hb. set_solver.
Qed.

Lemma wp_safe {A} (m : M S A) Q E s : wp m Q E s → (m s).1 ≠ Fault.
Proof. unfold wp. by destruct (m s) as [[a|e|] s']. Qed.
End wp.
