(* ===== verification/Fw.v ===== *)
(** * Firmware record decoding (snapshot/module/qcom-usb4-fw.c)

    The MCU image is a concatenation of records: a little-endian byte offset,
    a little-endian word count, then the words.  [qcom_usb4_fw_validate] walks
    the whole image before anything is written; [qcom_usb4_fw_upload] hands
    each word to a transport callback. *)

From S2P Require Import Prelude.

Section loops.
Context (data : list Z) (size ram_size : Z).

(** The [while (pos < size)] loop of [qcom_usb4_fw_validate].  [size] is a
    64-bit [size_t] and every [pos + 8 <= size], so the sums do not wrap;
    [words * 4] is computed in [size_t] and stays below 2^34. *)
Fixpoint fw_validate_loop (fuel : nat) (pos : Z) : res unit :=
  match fuel with
  | O => Fault
  | S fuel =>
      if pos <? size then
        if size - pos <? 8 then Err (-EINVAL) else
        let? offset := get_unaligned_le32 data pos in
        let? words := get_unaligned_le32 data (pos + 4) in
        let pos := pos + 8 in
        if (size - pos) / 4 <? words then Err (-EINVAL) else
        let bytes := words * 4 in
        if offset mod 4 !=? 0 then Err (-EINVAL) else
        if U32_MAX - offset <? bytes then Err (-EOVERFLOW) else
        if (ram_size <? offset) || (ram_size - offset <? bytes) then Err (-EFBIG) else
        fw_validate_loop fuel (pos + bytes)
      else Ok tt
  end.

Context {S : Type} (write_word : Z → Z → S → Z * S).

(** [while (words--)]: one callback per word; [offset] is a [u32]. *)
Fixpoint fw_upload_words (words : nat) (offset pos : Z) : M S Z :=
  match words with
  | O => ret pos
  | Datatypes.S words =>
      let! v := lift (get_unaligned_le32 data pos) in
      do! try_ (write_word offset v) in
      fw_upload_words words (u32 (offset + 4)) (pos + 4)
  end.

Fixpoint fw_upload_loop (fuel : nat) (pos : Z) : M S unit :=
  match fuel with
  | O => fault
  | Datatypes.S fuel =>
      if pos <? size then
        let! offset := lift (get_unaligned_le32 data pos) in
        let! words := lift (get_unaligned_le32 data (pos + 4)) in
        let! pos := fw_upload_words (Z.to_nat words) offset (pos + 8) in
        fw_upload_loop fuel pos
      else ret tt
  end.
End loops.

(** [data] is [None] for a NULL pointer. *)
Definition qcom_usb4_fw_validate (data : option (list Z)) (size ram_size : Z) : res unit :=
  match data with
  | None => Err (-EINVAL)
  | Some data =>
      if size =? 0 then Err (-EINVAL) else
      fw_validate_loop data size ram_size (S (Z.to_nat size)) 0
  end.

Definition qcom_usb4_fw_upload {S} (data : option (list Z)) (size ram_size : Z)
    (write_word : option (Z → Z → S → Z * S)) : M S unit :=
  match write_word with
  | None => fail (-EINVAL)
  | Some w =>
      do! lift (qcom_usb4_fw_validate data size ram_size) in
      match data with
      | None => fault
      | Some data => fw_upload_loop data size w (Datatypes.S (Z.to_nat size)) 0
      end
  end.

(** ** What an image is *)

Definition record : Type := Z * list Z.
Definition enc_record (r : record) : list Z :=
  le32 r.1 ++ le32 (Z.of_nat (length r.2)) ++ flat_map le32 r.2.
#[global] Arguments enc_record _ : simpl never.
Definition enc_image (rs : list record) : list Z := flat_map enc_record rs.

(** A record the loader may place in [ram] bytes of MCU RAM. *)
Definition record_ok (ram : Z) (r : record) : Prop :=
  0 ≤ r.1 ∧ r.1 mod 4 = 0 ∧
  r.1 + 4 * Z.of_nat (length r.2) ≤ U32_MAX ∧
  r.1 + 4 * Z.of_nat (length r.2) ≤ ram ∧
  Forall (λ w, 0 ≤ w < 2 ^ 32) r.2.

(** The transport writes an image asks for, in order. *)
Fixpoint word_writes (offset : Z) (ws : list Z) : list (Z * Z) :=
  match ws with [] => [] | w :: ws => (offset, w) :: word_writes (offset + 4) ws end.
Definition image_writes (rs : list record) : list (Z * Z) :=
  flat_map (λ r, word_writes r.1 r.2) rs.

Lemma length_words ws : length (flat_map le32 ws) = (4 * length ws)%nat.
Proof. induction ws as [|w ws IH]; [done|]. simpl. rewrite IH. lia. Qed.

Lemma length_enc_record r : length (enc_record r) = (8 + 4 * length r.2)%nat.
Proof. unfold enc_record. rewrite !length_app, length_words, !length_le32. lia. Qed.

(** Splitting [4 * n] bytes off a buffer as words. *)
Lemma split_words n p :
  Forall is_byte p → (4 * n ≤ length p)%nat →
  ∃ ws rest, p = flat_map le32 ws ++ rest ∧ length ws = n ∧
    Forall (λ w, 0 ≤ w < 2 ^ 32) ws.
Proof.
  revert p. induction n as [|n IH]; intros p Hp Hl; [by exists [], p|].
  destruct (get_le32_ok p 0) as (v&Hv&Hr); [lia..|].
  pose proof (le32_of_get p v Hp Hv) as E.
  destruct (IH (drop 4 p)) as (ws&rest&Eq&Hlen&Hws).
  { by apply Forall_drop. }
  { rewrite length_drop. lia. }
  exists (v :: ws), rest. split; [|split; [by simpl; rewrite Hlen|by constructor]].
  rewrite E at 1. rewrite Eq.
  change (flat_map le32 (v :: ws)) with (le32 v ++ flat_map le32 ws).
  by rewrite <- app_assoc.
Qed.

(** A buffer of at least eight bytes starts with a record header; when the
    words it announces are there, it starts with that record. *)
Lemma split_record p :
  Forall is_byte p → (8 ≤ length p)%nat →
  ∃ off n, get_unaligned_le32 p 0 = Ok off ∧ get_unaligned_le32 p 4 = Ok n ∧
    0 ≤ off < 2 ^ 32 ∧ 0 ≤ n < 2 ^ 32 ∧
    (8 + 4 * n ≤ Z.of_nat (length p) →
     ∃ ws rest, p = enc_record (off, ws) ++ rest ∧ Z.of_nat (length ws) = n ∧
       Forall (λ w, 0 ≤ w < 2 ^ 32) ws).
Proof.
  intros Hp Hl.
  destruct (get_le32_ok p 0) as (off&Ho&Hor); [lia..|].
  pose proof (le32_of_get p off Hp Ho) as E1.
  set (p1 := drop 4 p) in *.
  assert (Forall is_byte p1) as Hp1 by (by apply Forall_drop).
  assert (length p1 = length p - 4)%nat as Hl1 by (apply length_drop).
  destruct (get_le32_ok p1 0) as (n&Hn&Hnr); [lia..|].
  pose proof (le32_of_get p1 n Hp1 Hn) as E2.
  exists off, n. split_and!; try lia; [done| |].
  { rewrite E1. by rewrite (get_le32_at (le32 off) p1 4 0). }
  intros Hfit.
  destruct (split_words (Z.to_nat n) (drop 4 p1)) as (ws&rest&E3&Hws&Hr).
  { by apply Forall_drop. }
  { rewrite length_drop. lia. }
  exists ws, rest. split_and!; [|lia|done].
  rewrite E1, E2, E3. unfold enc_record. simpl fst; simpl snd.
  replace (Z.of_nat (length ws)) with n by lia. by rewrite <- !app_assoc.
Qed.

Lemma get_record_offset off ws rest :
  0 ≤ off < 2 ^ 32 → get_unaligned_le32 (enc_record (off, ws) ++ rest) 0 = Ok off.
Proof. intros. unfold enc_record. rewrite <- app_assoc. by apply get_le32_le32. Qed.

Lemma get_record_count off ws rest :
  Z.of_nat (length ws) < 2 ^ 32 →
  get_unaligned_le32 (enc_record (off, ws) ++ rest) 4 = Ok (Z.of_nat (length ws)).
Proof.
  intros. unfold enc_record. rewrite <- !app_assoc.
  rewrite (get_le32_at _ _ 4 0) by done. apply get_le32_le32. simpl. lia.
Qed.

(** One turn of the loop at a record. *)
Lemma validate_step fuel pre off ws rest ram :
  0 ≤ off < 2 ^ 32 → Z.of_nat (length ws) < 2 ^ 32 →
  fw_validate_loop (pre ++ enc_record (off, ws) ++ rest)
    (Z.of_nat (length (pre ++ enc_record (off, ws) ++ rest))) ram (S fuel)
    (Z.of_nat (length pre)) =
  let bytes := Z.of_nat (length ws) * 4 in
  if off mod 4 !=? 0 then Err (-EINVAL) else
  if U32_MAX - off <? bytes then Err (-EOVERFLOW) else
  if (ram <? off) || (ram - off <? bytes) then Err (-EFBIG) else
  fw_validate_loop ((pre ++ enc_record (off, ws)) ++ rest)
    (Z.of_nat (length ((pre ++ enc_record (off, ws)) ++ rest))) ram fuel
    (Z.of_nat (length (pre ++ enc_record (off, ws)))).
Proof.
  intros Ho Hw. rewrite <- (app_assoc pre). cbn [fw_validate_loop].
  rewrite !length_app, !length_enc_record. simpl snd.
  destruct (Z.ltb_spec (Z.of_nat (length pre))
    (Z.of_nat (length pre + (8 + 4 * length ws + length rest)))); [|lia].
  destruct (Z.ltb_spec (Z.of_nat (length pre + (8 + 4 * length ws + length rest))
    - Z.of_nat (length pre)) 8); [lia|].
  rewrite <- (Z.add_0_r (Z.of_nat (length pre))) at 1.
  rewrite !get_le32_app by lia.
  rewrite get_record_offset, get_record_count by lia. cbn [rbind].
  destruct (Z.ltb_spec ((Z.of_nat (length pre + (8 + 4 * length ws + length rest))
    - (Z.of_nat (length pre) + 8)) / 4) (Z.of_nat (length ws))) as [Hlt|_].
  { Z.to_euclidean_division_equations. lia. }
  cbv zeta.
  replace (Z.of_nat (length pre) + 8 + Z.of_nat (length ws) * 4)
    with (Z.of_nat (length pre + (8 + 4 * length ws))) by lia.
  done.
Qed.

(** The two ways the header walk fails: no room for a header, or for the
    words it announces. *)
Lemma validate_short fuel pre rest ram :
  (0 < length rest < 8)%nat →
  fw_validate_loop (pre ++ rest) (Z.of_nat (length (pre ++ rest))) ram (S fuel)
    (Z.of_nat (length pre)) = Err (-EINVAL).
Proof.
  intros Hs. cbn [fw_validate_loop]. rewrite length_app.
  destruct (Z.ltb_spec (Z.of_nat (length pre))
    (Z.of_nat (length pre + length rest))); [|lia].
  by destruct (Z.ltb_spec (Z.of_nat (length pre + length rest) -
    Z.of_nat (length pre)) 8); [|lia].
Qed.

Lemma validate_missing fuel pre rest ram off n :
  (8 ≤ length rest)%nat →
  get_unaligned_le32 rest 0 = Ok off → get_unaligned_le32 rest 4 = Ok n →
  Z.of_nat (length rest) < 8 + 4 * n →
  fw_validate_loop (pre ++ rest) (Z.of_nat (length (pre ++ rest))) ram (S fuel)
    (Z.of_nat (length pre)) = Err (-EINVAL).
Proof.
  intros Hs Ho Hn Hm. cbn [fw_validate_loop]. rewrite length_app.
  destruct (Z.ltb_spec (Z.of_nat (length pre))
    (Z.of_nat (length pre + length rest))); [|lia].
  destruct (Z.ltb_spec (Z.of_nat (length pre + length rest) -
    Z.of_nat (length pre)) 8); [lia|].
  rewrite <- (Z.add_0_r (Z.of_nat (length pre))) at 1.
  rewrite !get_le32_app, Ho, Hn by lia. cbn [rbind].
  destruct (Z.ltb_spec ((Z.of_nat (length pre + length rest) -
    (Z.of_nat (length pre) + 8)) / 4) n) as [_|Hge]; [done|].
  Z.to_euclidean_division_equations. lia.
Qed.

(** The checks of the loop body decide [record_ok]. *)
Definition record_checks (ram off bytes : Z) : bool :=
  (off mod 4 =? 0) && (bytes <=? U32_MAX - off) && (off <=? ram) && (bytes <=? ram - off).

Lemma record_checks_ok ram off ws :
  0 ≤ off → Forall (λ w, 0 ≤ w < 2 ^ 32) ws →
  record_checks ram off (Z.of_nat (length ws) * 4) = true ↔ record_ok ram (off, ws).
Proof.
  intros Ho Hws. unfold record_checks, record_ok. simpl.
  rewrite !andb_true_iff, Z.eqb_eq, !Z.leb_le. split.
  - intros [[[H1 H2] H3] H4]. split_and!; try done; lia.
  - intros (_&H2&H3&H4&_). split_and!; try done; lia.
Qed.

Lemma validate_record_step fuel pre off ws rest ram :
  0 ≤ off < 2 ^ 32 → Z.of_nat (length ws) < 2 ^ 32 →
  fw_validate_loop (pre ++ enc_record (off, ws) ++ rest)
    (Z.of_nat (length (pre ++ enc_record (off, ws) ++ rest))) ram (S fuel)
    (Z.of_nat (length pre)) = Ok tt ↔
  record_checks ram off (Z.of_nat (length ws) * 4) = true ∧
  fw_validate_loop ((pre ++ enc_record (off, ws)) ++ rest)
    (Z.of_nat (length ((pre ++ enc_record (off, ws)) ++ rest))) ram fuel
    (Z.of_nat (length (pre ++ enc_record (off, ws)))) = Ok tt.
Proof.
  intros Ho Hw. rewrite validate_step by done. cbv zeta. unfold record_checks.
  destruct (Z.eqb_spec (off mod 4) 0); [|split; [discriminate|by intros [? _]]]. simpl.
  set (b := Z.of_nat (length ws) * 4). rewrite !Z.leb_antisym.
  destruct (U32_MAX - off <? b); [split; [discriminate|by intros [? _]]|]. simpl.
  destruct (ram <? off); [split; [discriminate|by intros [? _]]|]. simpl.
  destruct (ram - off <? b); [split; [discriminate|by intros [? _]]|]. simpl. tauto.
Qed.

(** An encoded image determines its first record. *)
Lemma enc_head_inj off ws off' ws' rest rest' ram :
  0 ≤ off < 2 ^ 32 → Z.of_nat (length ws) < 2 ^ 32 → record_ok ram (off', ws') →
  enc_record (off, ws) ++ rest = enc_record (off', ws') ++ rest' →
  off' = off ∧ length ws' = length ws ∧ rest = rest'.
Proof.
  intros Ho Hw (Hr1&Hr2&Hr3&Hr4&Hr5) E. cbn [fst snd] in *. unfold U32_MAX in *.
  assert (Ok off = Ok off') as [= ->].
  { rewrite <- (get_record_offset off ws rest), E by done.
    apply get_record_offset. lia. }
  assert (Ok (Z.of_nat (length ws)) = Ok (Z.of_nat (length ws'))) as [= Hl].
  { rewrite <- (get_record_count off' ws rest), E by done.
    apply get_record_count. lia. }
  apply app_inj_1 in E as [_ ->]; [|rewrite !length_enc_record; simpl; lia].
  split_and!; [done|lia|done].
Qed.

Lemma validate_loop_iff fuel pre rest ram :
  Forall is_byte rest → (length rest < fuel)%nat →
  fw_validate_loop (pre ++ rest) (Z.of_nat (length (pre ++ rest))) ram fuel
    (Z.of_nat (length pre)) = Ok tt ↔
  ∃ rs, rest = enc_image rs ∧ Forall (record_ok ram) rs.
Proof.
  revert pre rest. induction fuel as [|fuel IH]; intros pre rest Hb Hf; [lia|].
  destruct (decide (length rest = 0%nat)) as [H0|H0].
  { apply nil_length_inv in H0 as ->. rewrite app_nil_r. simpl.
    rewrite Z.ltb_irrefl. split; [intros _; by exists []|done]. }
  destruct (decide (length rest < 8)%nat) as [Hs|Hs].
  { rewrite validate_short by lia. split; [discriminate|].
    intros ([|r rs]&->&_); [done|].
    change (enc_image (r :: rs)) with (enc_record r ++ enc_image rs) in Hs.
    rewrite length_app, length_enc_record in Hs. lia. }
  destruct (split_record rest) as (off&n&Ho&Hn&Hor&Hnr&Hfit); [done|lia|].
  destruct (decide (8 + 4 * n ≤ Z.of_nat (length rest))) as [Hle|Hgt].
  - destruct Hfit as (ws&rest'&->&<-&Hws); [done|].
    apply Forall_app in Hb as [_ Hb].
    rewrite length_app, length_enc_record in Hf.
    rewrite validate_record_step, record_checks_ok by (done || lia).
    rewrite IH by (done || lia). split.
    + intros [Hr (rs&->&Hrs)]. exists ((off, ws) :: rs). split; [done|by constructor].
    + intros ([|[off' ws'] rs]&E&Hrs).
      { apply (f_equal length) in E. rewrite length_app, length_enc_record in E. done. }
      apply Forall_cons in Hrs as [Hr Hrs].
      destruct (enc_head_inj _ _ _ _ _ _ _ Hor (proj2 Hnr) Hr E) as (->&Hl&->).
      split; [|by exists rs]. destruct Hr as (?&?&?&?&?). unfold record_ok. simpl in *.
      by rewrite <- Hl.
  - rewrite (validate_missing _ _ _ _ off n) by (done || lia).
    split; [discriminate|]. intros ([|[off' ws'] rs]&->&Hrs); [done|].
    apply Forall_cons in Hrs as [(Hr0&_&Hr&_) _]. cbn [fst snd] in *. unfold U32_MAX in *.
    change (enc_image ((off', ws') :: rs)) with (enc_record (off', ws') ++ enc_image rs) in *.
    rewrite get_record_count in Hn by lia. simplify_eq.
    rewrite length_app, length_enc_record in Hgt. simpl in Hgt. lia.
Qed.

Lemma validate_loop_total data size ram fuel pos :
  0 ≤ pos ≤ size → size ≤ Z.of_nat (length data) → size - pos < Z.of_nat fuel →
  fw_validate_loop data size ram fuel pos ≠ Fault.
Proof.
  revert pos. induction fuel as [|fuel IH]; intros pos Hp Hs Hf; [lia|].
  cbn [fw_validate_loop]. destruct (Z.ltb_spec pos size); [|done].
  destruct (Z.ltb_spec (size - pos) 8); [done|].
  destruct (get_le32_ok data pos) as (off&->&Hor); [lia..|].
  destruct (get_le32_ok data (pos + 4)) as (n&->&Hnr); [lia..|]. cbn [rbind].
  destruct (Z.ltb_spec ((size - (pos + 8)) / 4) n) as [|Hfit]; [done|].
  repeat (case_match; [done|]). apply IH; [|lia|].
  all: Z.to_euclidean_division_equations; lia.
Qed.

Lemma validate_loop_errors data size ram fuel pos e :
  fw_validate_loop data size ram fuel pos = Err e →
  e ∈ [-EINVAL; -EOVERFLOW; -EFBIG].
Proof.
  revert pos. induction fuel as [|fuel IH]; intros pos; cbn [fw_validate_loop]; [done|].
  assert (∀ p i (e' : Z), get_unaligned_le32 p i ≠ Err e') as Hg.
  { intros p i e'. unfold get_unaligned_le32, byte_at. by repeat (case_match; simpl). }
  destruct (get_unaligned_le32 data pos) eqn:E1; [|by apply Hg in E1|];
    destruct (get_unaligned_le32 data (pos + 4)) eqn:E2; try by apply Hg in E2.
  all: cbn [rbind]; repeat case_match; try discriminate; intros E;
    try (apply IH in E; done); simplify_eq; set_solver.
Qed.

Lemma validate_errors data size ram e :
  qcom_usb4_fw_validate data size ram = Err e → e ∈ [-EINVAL; -EOVERFLOW; -EFBIG].
Proof.
  unfold qcom_usb4_fw_validate. repeat case_match; try (intros [= <-]; set_solver).
  apply validate_loop_errors.
Qed.

Lemma validate_never_faults data size ram :
  0 ≤ size ≤ Z.of_nat (length data) → qcom_usb4_fw_validate (Some data) size ram ≠ Fault.
Proof.
  intros Hs. unfold qcom_usb4_fw_validate. destruct (size =? 0); [done|].
  apply validate_loop_total; lia.
Qed.

Lemma enc_image_bytes rs : Forall is_byte (enc_image rs).
Proof.
  apply Forall_flat_map, Forall_true. intros r. unfold enc_record.
  rewrite !Forall_app. split_and!; try apply le32_bytes.
  apply Forall_flat_map, Forall_true. intros v. apply le32_bytes.
Qed.

Lemma enc_image_ne rs : rs ≠ [] → enc_image rs ≠ [].
Proof.
  destruct rs as [|r rs]; [done|]. intros _ E. apply (f_equal length) in E.
  change (enc_image (r :: rs)) with (enc_record r ++ enc_image rs) in E.
  rewrite length_app, length_enc_record in E. done.
Qed.

Lemma word_writes_bounds off ws o v :
  (o, v) ∈ word_writes off ws →
  ∃ k, 0 ≤ k < Z.of_nat (length ws) ∧ o = off + 4 * k.
Proof.
  revert off. induction ws as [|x ws IH]; intros off; cbn [word_writes length].
  { by intros ?%not_elem_of_nil. }
  intros [[= -> ->]|(k&Hk&->)%IH]%elem_of_cons; [exists 0; lia|exists (k + 1); lia].
Qed.

Lemma image_writes_bounds rs ram o v :
  Forall (record_ok ram) rs → (o, v) ∈ image_writes rs →
  o mod 4 = 0 ∧ 0 ≤ o ∧ o + 4 ≤ ram.
Proof.
  intros Hrs. unfold image_writes.
  rewrite list_elem_of_In, in_flat_map.
  intros ([off ws]&Hin%list_elem_of_In&Hw%list_elem_of_In).
  apply word_writes_bounds in Hw as (k&Hk&->).
  rewrite Forall_forall in Hrs. destruct (Hrs _ Hin) as (H1&H2&H3&H4&_).
  cbn [fst snd] in *. split_and!; try lia.
  rewrite Z.add_mod, H2, Z.mul_comm, Z.mod_mul by lia. done.
Qed.

(** ** Properties *)

Lemma fw_validate_iff_aux data ram :
  Forall is_byte data → data ≠ [] →
  qcom_usb4_fw_validate (Some data) (Z.of_nat (length data)) ram = Ok tt ↔
  ∃ rs, data = enc_image rs ∧ Forall (record_ok ram) rs.
Proof.
  intros Hb Hne. unfold qcom_usb4_fw_validate.
  destruct (Z.eqb_spec (Z.of_nat (length data)) 0) as [H0|_].
  { destruct data; [done|simpl in H0; lia]. }
  rewrite Nat2Z.id. apply (validate_loop_iff _ []); [done|lia].
Qed.

(** C27. [qcom_usb4_fw_validate] accepts a buffer exactly when it is the
    encoding of a list of records, each four-byte aligned, inside the MCU
    RAM, and free of 32-bit overflow in its destination range. *)
Theorem fw_validate_exact data ram :
  Forall is_byte data → data ≠ [] →
  qcom_usb4_fw_validate (Some data) (Z.of_nat (length data)) ram = Ok tt ↔
  ∃ rs, data = enc_image rs ∧ Forall (record_ok ram) rs.
Proof. apply fw_validate_iff_aux. Qed.

(** Validation reads only inside the buffer it is given and always
    terminates, for any contents, any claimed size within the buffer and any
    RAM size: the model's out-of-bounds and out-of-fuel outcome is unreachable. *)
Theorem fw_validate_safe data size ram :
  0 ≤ size ≤ Z.of_nat (length data) →
  qcom_usb4_fw_validate (Some data) size ram ≠ Fault.
Proof. apply validate_never_faults. Qed.

Section upload.
Context {S : Type} (w : Z → Z → S → Z * S).
Let put : Z * Z → M S unit := λ p, try_ (w p.1 p.2).

Lemma upload_words_spec pre ws rest off s :
  0 ≤ off → off + 4 * Z.of_nat (length ws) ≤ U32_MAX →
  Forall (λ v, 0 ≤ v < 2 ^ 32) ws →
  fw_upload_words (pre ++ flat_map le32 ws ++ rest) w (length ws) off
    (Z.of_nat (length pre)) s =
  (do! for_each (word_writes off ws) put in
   ret (Z.of_nat (length (pre ++ flat_map le32 ws)))) s.
Proof.
  revert pre off s. induction ws as [|v ws IH]; intros pre off s Ho Hw Hv.
  { simpl. by rewrite app_nil_r. }
  apply Forall_cons in Hv as [Hv Hvs].
  change (flat_map le32 (v :: ws)) with (le32 v ++ flat_map le32 ws).
  cbn [length fw_upload_words word_writes for_each]. unfold lift, bind at 1.
  rewrite <- (Z.add_0_r (Z.of_nat (length pre))) at 1.
  rewrite get_le32_app, <- app_assoc, get_le32_le32 by done.
  rewrite bind_assoc. apply bind_ext; [done|]. intros _ s' _.
  cbn [length] in Hw. rewrite (u32_small (off + 4)) by (unfold U32_MAX in *; lia).
  replace (Z.of_nat (length pre) + 4) with (Z.of_nat (length (pre ++ le32 v)))
    by (rewrite length_app; simpl; lia).
  rewrite !app_assoc. rewrite <- (app_assoc (pre ++ le32 v)).
  apply IH; [lia..|done].
Qed.

Lemma upload_loop_spec fuel pre rs s ram :
  Forall (record_ok ram) rs → (length (enc_image rs) < fuel)%nat →
  fw_upload_loop (pre ++ enc_image rs) (Z.of_nat (length (pre ++ enc_image rs)))
    w fuel (Z.of_nat (length pre)) s = for_each (image_writes rs) put s.
Proof.
  revert pre rs s. induction fuel as [|fuel IH]; intros pre rs s Hrs Hf; [lia|].
  cbn [fw_upload_loop]. destruct rs as [|[off ws] rs].
  { simpl. by rewrite app_nil_r, Z.ltb_irrefl. }
  apply Forall_cons in Hrs as [(H1&_&H3&_&H5) Hrs]. cbn [fst snd] in *.
  change (enc_image ((off, ws) :: rs)) with (enc_record (off, ws) ++ enc_image rs) in *.
  rewrite length_app, length_enc_record in Hf. cbn [snd] in Hf.
  assert (length (pre ++ enc_record (off, ws) ++ enc_image rs) =
    length pre + (8 + 4 * length ws + length (enc_image rs)))%nat as Hl
    by (rewrite !length_app, length_enc_record; done).
  rewrite Hl. destruct (Z.ltb_spec (Z.of_nat (length pre)) (Z.of_nat (length pre +
    (8 + 4 * length ws + length (enc_image rs))))); [|lia].
  unfold U32_MAX in *. unfold lift. unfold bind at 1.
  rewrite <- (Z.add_0_r (Z.of_nat (length pre))) at 1.
  rewrite get_le32_app, get_record_offset by lia. unfold bind at 1.
  rewrite get_le32_app, get_record_count by lia. rewrite Nat2Z.id.
  change (image_writes ((off, ws) :: rs)) with (word_writes off ws ++ image_writes rs).
  rewrite for_each_app.
  set (pre' := pre ++ le32 off ++ le32 (Z.of_nat (length ws))).
  replace (pre ++ enc_record (off, ws) ++ enc_image rs)
    with (pre' ++ flat_map le32 ws ++ enc_image rs)
    by (unfold pre', enc_record; by rewrite <- !app_assoc).
  replace (Z.of_nat (length pre) + 8) with (Z.of_nat (length pre'))
    by (unfold pre'; rewrite !length_app, !length_le32; lia).
  rewrite (bind_ext _ _ _ _ _ (upload_words_spec pre' ws (enc_image rs) off s H1 H3 H5)
    (λ _ _ _, eq_refl)), bind_assoc.
  apply bind_ext; [done|]. intros _ s' _. unfold bind, ret.
  replace (length pre + (8 + 4 * length ws + length (enc_image rs)))%nat
    with (length ((pre' ++ flat_map le32 ws) ++ enc_image rs))
    by (unfold pre'; rewrite !length_app, length_words, !length_le32; lia).
  rewrite app_assoc. apply IH; [done|lia].
Qed.

Lemma upload_accepted rs ram s :
  rs ≠ [] → Forall (record_ok ram) rs →
  qcom_usb4_fw_upload (Some (enc_image rs)) (Z.of_nat (length (enc_image rs))) ram
    (Some w) s = for_each (image_writes rs) put s.
Proof.
  intros Hne Hrs. unfold qcom_usb4_fw_upload, bind, lift.
  assert (qcom_usb4_fw_validate (Some (enc_image rs))
    (Z.of_nat (length (enc_image rs))) ram = Ok tt) as ->.
  { apply fw_validate_iff_aux; [apply enc_image_bytes|by apply enc_image_ne|eauto]. }
  rewrite Nat2Z.id. apply (upload_loop_spec _ [] rs s ram); [done|lia].
Qed.

(** C28. For every transport callback: an upload either performs exactly the
    word writes of the image's records, in order, each aligned and inside
    the RAM, stopping with the transport's error at the first one that
    fails; or it rejects the image with -EINVAL, -EOVERFLOW or -EFBIG before
    the first transport call. *)
Theorem fw_upload_exact data ram s :
  Forall is_byte data → data ≠ [] →
  (∃ rs, data = enc_image rs ∧ Forall (record_ok ram) rs ∧
     (∀ o v, (o, v) ∈ image_writes rs → o mod 4 = 0 ∧ 0 ≤ o ∧ o + 4 ≤ ram) ∧
     qcom_usb4_fw_upload (Some data) (Z.of_nat (length data)) ram (Some w) s =
     for_each (image_writes rs) (λ p, try_ (w p.1 p.2)) s) ∨
  (∃ e, e ∈ [-EINVAL; -EOVERFLOW; -EFBIG] ∧
     qcom_usb4_fw_upload (Some data) (Z.of_nat (length data)) ram (Some w) s = (Err e, s)).
Proof.
  intros Hb Hne.
  destruct (qcom_usb4_fw_validate (Some data) (Z.of_nat (length data)) ram)
    as [[]|e|] eqn:E.
  - left. apply fw_validate_iff_aux in E as (rs&->&Hrs); [|done..].
    exists rs. split_and!; try done.
    { intros o v. by apply image_writes_bounds. }
    apply upload_accepted; [|done]. by intros ->.
  - right. exists e. split; [by eapply validate_errors|].
    unfold qcom_usb4_fw_upload, bind, lift. by rewrite E.
  - by apply validate_never_faults in E; [|lia].
Qed.
End upload.

(** ** Witnesses: a two-record image in a 32-byte RAM *)

Definition sample_image : list record := [(0, [7; 0xdeadbeef]); (16, [1])].

Lemma sample_image_ok : Forall (record_ok 32) sample_image.
Proof. repeat constructor; simpl; unfold U32_MAX; try lia; vm_compute; try done. Qed.

Lemma fw_validate_exact_witness :
  qcom_usb4_fw_validate (Some (enc_image sample_image)) 28 32 = Ok tt.
Proof.
  apply (fw_validate_exact (enc_image sample_image) 32).
  - apply enc_image_bytes.
  - apply enc_image_ne. discriminate.
  - exists sample_image. split; [reflexivity|exact sample_image_ok].
Defined.

Lemma fw_validate_safe_witness :
  qcom_usb4_fw_validate (Some [1; 2; 3]) 3 32 ≠ Fault.
Proof. apply (fw_validate_safe [1; 2; 3] 3 32). simpl. lia. Defined.

(** A transport that records the words in a list. *)
Definition log_word (o v : Z) (s : list (Z * Z)) : Z * list (Z * Z) := (0, s ++ [(o, v)]).

Lemma fw_upload_exact_witness :
  qcom_usb4_fw_upload (Some (enc_image sample_image)) 28 32 (Some log_word) [] =
    (Ok tt, [(0, 7); (4, 0xdeadbeef); (16, 1)]).
Proof.
  destruct (fw_upload_exact log_word (enc_image sample_image) 32 []
    (enc_image_bytes sample_image) (enc_image_ne sample_image ltac:(discriminate)))
    as [(rs&_&_&_&E)|(e&_&E)]; vm_compute in E |- *; congruence.
Defined.
