(* ===== verification/Drom.v ===== *)
(** * DROM descriptors (snapshot/module/qcom-usb4-drom.c, qcom-usb4-x1-drom.c)

    A 116-byte descriptor: a CRC-8 over the eight UID bytes, the UID, a CRC-32C
    over the rest, and a fixed table of adapter entries.  [crc32c] is the
    kernel's library routine and a parameter here; as in C its value is used
    as a [u32]. *)

From S2P Require Import Prelude.

Definition QCOM_USB4_DROM_SIZE : Z := 116.

Definition qcom_usb4_drom_data : list Z := [
  0x01; 0x67; 0x00; 0x28; 0x03; 0x00; 0x00; 0x00; 0x00; 0x05; 0x86; 0x00;
  0x00; 0x00; 0x05; 0x87; 0x00; 0x00; 0x00; 0x1e; 0x01; 0x51; 0x75; 0x61;
  0x6c; 0x63; 0x6f; 0x6d; 0x6d; 0x20; 0x54; 0x65; 0x63; 0x68; 0x6e; 0x6f;
  0x6c; 0x6f; 0x67; 0x69; 0x65; 0x73; 0x2c; 0x20; 0x49; 0x6e; 0x63; 0x2e;
  0x00; 0x11; 0x02; 0x53; 0x6e; 0x61; 0x70; 0x64; 0x72; 0x61; 0x67; 0x6f;
  0x6e; 0x20; 0x30; 0x31; 0x42; 0x00; 0x0f; 0x09; 0x10; 0x04; 0xc6; 0x05;
  0x38; 0x09; 0x00; 0x00; 0xeb; 0x34; 0x00; 0x00; 0x00; 0x08; 0x82; 0x80;
  0x03; 0x00; 0x00; 0x00; 0x00; 0x08; 0x83; 0x90; 0x02; 0x00; 0x00; 0x00;
  0x00; 0x03; 0x84; 0x00; 0x03; 0x08; 0x06 ].

(** The inner bit loop and the byte loop of [qcom_usb4_uid_crc]. *)
Fixpoint uid_crc_bits (n : nat) (crc : Z) : Z :=
  match n with
  | O => crc
  | S n => uid_crc_bits n (u8 (Z.lxor (crc << 1) (if tst crc 0x80 then 0x07 else 0)))
  end.

Definition qcom_usb4_uid_crc (data : list Z) : Z :=
  fold_left (λ crc b, uid_crc_bits 8 (Z.lxor crc b)) (take 8 data) 0xff.

Section drom.
Context (crc32c : Z → list Z → Z).

(** [~crc32c(~0U, p, n)] as a [u32]. *)
Definition crc_field (p : list Z) : Z := not32 (u32 (crc32c U32_MAX p)).

Definition drom_uid (serial router : Z) : Z :=
  (0x5c6 << 48) .| (serial << 4) .| router.

(** [data] is the caller's buffer, [None] for NULL; the result is the buffer
    after the call.  On an error return it has not been touched. *)
Definition qcom_usb4_drom_build (data : option (list Z)) (size serial router : Z)
    : res (list Z) :=
  match data with
  | None => Err (-EINVAL)
  | Some data =>
      if (size <? QCOM_USB4_DROM_SIZE) || (2 <? router) then Err (-EINVAL) else
      let uid := drom_uid serial router in
      let? data := put_bytes data 1 (le64 uid) in
      let? data := put_bytes data 0 [qcom_usb4_uid_crc (drop 1 data)] in
      let? data := put_bytes data 13 qcom_usb4_drom_data in
      let crc := crc_field (take (length qcom_usb4_drom_data) (drop 13 data)) in
      put_bytes data 9 (le32 crc)
  end.

Definition qcom_usb4_x1_drom_build (data : option (list Z)) (size serial router : Z)
    : res (list Z) :=
  let? data := qcom_usb4_drom_build data size serial router in
  let? data := put_bytes data 0x4d [65] in
  let? data := put_bytes data 0x59 [0x33] in
  let? data := put_bytes data 0x5a [0x28] in
  put_bytes data 9
    (le32 (crc_field (take (Z.to_nat (QCOM_USB4_DROM_SIZE - 13)) (drop 13 data)))).

(** ** The descriptor *)

(** The table with the X1 variant's three bytes ("01A", and its product id). *)
Definition x1_table : list Z :=
  <[77%nat := 0x28]> (<[76%nat := 0x33]> (<[64%nat := 65]> qcom_usb4_drom_data)).

Definition descriptor (table : list Z) (serial router : Z) : list Z :=
  let uid := le64 (drom_uid serial router) in
  [qcom_usb4_uid_crc uid] ++ uid ++ le32 (crc_field table) ++ table.

(** A buffer of at least [n + k] bytes, cut into the descriptor's fields. *)
Lemma drom_fields (data : list Z) :
  (116 ≤ length data)%nat →
  ∃ b u c t r, data = b ++ u ++ c ++ t ++ r ∧ length b = 1%nat ∧ length u = 8%nat ∧
    length c = 4%nat ∧ length t = 103%nat.
Proof.
  intros H0.
  destruct (cut_at 1 data) as (b&d1&->&Hb); [lia|]. rewrite length_app in H0.
  destruct (cut_at 8 d1) as (u&d2&->&Hu); [lia|]. rewrite length_app in H0.
  destruct (cut_at 4 d2) as (c&d3&->&Hc); [lia|]. rewrite length_app in H0.
  destruct (cut_at 103 d3) as (t&r&->&Ht); [lia|].
  by exists b, u, c, t, r.
Qed.

Lemma uid_crc_prefix u r : length u = 8%nat →
  qcom_usb4_uid_crc (u ++ r) = qcom_usb4_uid_crc u.
Proof.
  intros Hu. unfold qcom_usb4_uid_crc.
  by rewrite take_app_length', (take_ge u) by lia.
Qed.

Lemma drom_build_ok data size serial router :
  QCOM_USB4_DROM_SIZE ≤ size ≤ Z.of_nat (length data) → router ≤ 2 →
  qcom_usb4_drom_build (Some data) size serial router =
    Ok (descriptor qcom_usb4_drom_data serial router ++ drop 116 data).
Proof.
  intros Hs Hr. unfold qcom_usb4_drom_build, QCOM_USB4_DROM_SIZE in *.
  destruct (Z.ltb_spec size 116); [lia|]. destruct (Z.ltb_spec 2 router); [lia|].
  cbn [orb]. destruct (drom_fields data) as (b&u&c&t&r&->&Hb&Hu&Hc&Ht); [lia|].
  set (uid := le64 (drom_uid serial router)).
  assert (length uid = 8%nat) as Hlu by done.
  unfold descriptor. fold uid. clearbody uid.
  rewrite put_bytes_at by (rewrite ?Hlu; lia). cbn [rbind].
  rewrite put_bytes_front by (simpl; lia). cbn [rbind app].
  rewrite (drop_app_length' b) by lia.
  rewrite uid_crc_prefix by done. set (crc8 := qcom_usb4_uid_crc uid).
  clearbody crc8.
  replace (crc8 :: uid ++ c ++ t ++ r) with ((crc8 :: uid ++ c) ++ t ++ r)
    by (simpl; by rewrite <- app_assoc).
  assert (length qcom_usb4_drom_data = 103%nat) as Hld by done.
  rewrite put_bytes_at by (simpl; rewrite ?length_app; lia). cbn [rbind].
  rewrite (drop_app_length' (crc8 :: uid ++ c)) by (simpl; rewrite length_app; lia).
  rewrite take_app_length.
  set (crc := crc_field qcom_usb4_drom_data).
  replace ((crc8 :: uid ++ c) ++ qcom_usb4_drom_data ++ r)
    with ((crc8 :: uid) ++ c ++ qcom_usb4_drom_data ++ r)
    by (simpl; by rewrite <- app_assoc).
  rewrite put_bytes_at by (rewrite ?length_le32; simpl; lia).
  assert (drop 116 (b ++ u ++ c ++ t ++ r) = r) as ->.
  { rewrite !app_assoc. apply drop_app_length'. rewrite !length_app. lia. }
  f_equal. simpl. by rewrite <- !app_assoc.
Qed.

Lemma x1_drom_build_ok data size serial router :
  QCOM_USB4_DROM_SIZE ≤ size ≤ Z.of_nat (length data) → router ≤ 2 →
  qcom_usb4_x1_drom_build (Some data) size serial router =
    Ok (descriptor x1_table serial router ++ drop 116 data).
Proof.
  intros Hs Hr. unfold qcom_usb4_x1_drom_build. rewrite drom_build_ok by done.
  cbn [rbind]. unfold descriptor.
  set (uid := le64 (drom_uid serial router)).
  assert (length uid = 8%nat) as Hlu by done. clearbody uid.
  set (crc8 := qcom_usb4_uid_crc uid). clearbody crc8.
  set (r := drop 116 data). clearbody r.
  set (crc := le32 (crc_field qcom_usb4_drom_data)).
  assert (length crc = 4%nat) as Hlc by done. clearbody crc.
  set (t0 := take 64 qcom_usb4_drom_data).
  set (t1 := [0x00; 0x0f; 0x09; 0x10; 0x04; 0xc6; 0x05; 0x38; 0x09; 0x00; 0x00]).
  set (t2 := drop 78 qcom_usb4_drom_data).
  replace (([crc8] ++ uid ++ crc ++ qcom_usb4_drom_data) ++ r) with
    (([crc8] ++ uid ++ crc ++ t0) ++ [0x42] ++ (t1 ++ [0xeb; 0x34] ++ t2 ++ r))
    by (rewrite <- !app_assoc; done).
  rewrite put_bytes_at by (rewrite ?length_app; simpl; lia). cbn [rbind].
  replace (([crc8] ++ uid ++ crc ++ t0) ++ [65] ++ t1 ++ [0xeb; 0x34] ++ t2 ++ r) with
    (([crc8] ++ uid ++ crc ++ t0 ++ [65] ++ t1) ++ [0xeb] ++ ([0x34] ++ t2 ++ r))
    by (rewrite <- !app_assoc; done).
  rewrite put_bytes_at by (rewrite ?length_app; simpl; lia). cbn [rbind].
  replace (([crc8] ++ uid ++ crc ++ t0 ++ [65] ++ t1) ++ [0x33] ++ [0x34] ++ t2 ++ r) with
    (([crc8] ++ uid ++ crc ++ t0 ++ [65] ++ t1 ++ [0x33]) ++ [0x34] ++ (t2 ++ r))
    by (rewrite <- !app_assoc; done).
  rewrite put_bytes_at by (rewrite ?length_app; simpl; lia). cbn [rbind].
  replace (([crc8] ++ uid ++ crc ++ t0 ++ [65] ++ t1 ++ [0x33]) ++ [0x28] ++ t2 ++ r) with
    (([crc8] ++ uid) ++ crc ++ (x1_table ++ r)) by (rewrite <- !app_assoc; done).
  replace (take _ (drop 13 (([crc8] ++ uid) ++ crc ++ x1_table ++ r))) with x1_table.
  2: { rewrite app_assoc, drop_app_length' by (rewrite !length_app, Hlu, Hlc; done).
       symmetry. by apply take_app_length'. }
  rewrite put_bytes_at by (rewrite ?length_app, ?length_le32; simpl; lia).
  by rewrite <- !app_assoc.
Qed.

(** The UID packs a 32-bit serial and a router index below the vendor id. *)
Lemma drom_uid_value serial router :
  0 ≤ serial < 2 ^ 32 → 0 ≤ router ≤ 2 →
  drom_uid serial router = 0x5c6 * 2 ^ 48 + serial * 16 + router.
Proof.
  intros Hs Hr. unfold drom_uid. rewrite <- Z.lor_assoc.
  rewrite (lor_shiftl_add serial router 4) by lia.
  rewrite lor_shiftl_add; change (2 ^ 4) with 16; change (2 ^ 48) with 281474976710656;
    pow_lits; lia.
Qed.

(** The X1 descriptor builder, for every caller buffer of at least the
    claimed size: an accepted call leaves exactly the CRC-8 of the UID, the
    UID, the CRC-32C of the table and the X1 table in the first 116 bytes and
    nothing else changed; a short size, a router index above 2 or a NULL
    buffer is refused with -EINVAL and the buffer is never overrun. *)
Theorem x1_drom_exact data size serial router :
  0 ≤ router → size ≤ Z.of_nat (length data) →
  (QCOM_USB4_DROM_SIZE ≤ size ∧ router ≤ 2 →
     qcom_usb4_x1_drom_build (Some data) size serial router =
     Ok (descriptor x1_table serial router ++ drop 116 data)) ∧
  (size < QCOM_USB4_DROM_SIZE ∨ 2 < router →
     qcom_usb4_x1_drom_build (Some data) size serial router = Err (-EINVAL)) ∧
  qcom_usb4_x1_drom_build None size serial router = Err (-EINVAL).
Proof.
  intros Hr Hl. split_and!; [|intros Hbad|done].
  - intros [Hs Hr2]. by apply x1_drom_build_ok.
  - unfold qcom_usb4_x1_drom_build, qcom_usb4_drom_build.
    destruct (Z.ltb_spec size QCOM_USB4_DROM_SIZE), (Z.ltb_spec 2 router); try done; lia.
Qed.

(** Two X1 descriptors are equal only for the same SoC serial and router:
    the identity written to the router is recoverable from the bytes. *)
Theorem x1_drom_identity serial router serial' router' :
  0 ≤ serial < 2 ^ 32 → 0 ≤ router ≤ 2 → 0 ≤ serial' < 2 ^ 32 → 0 ≤ router' ≤ 2 →
  descriptor x1_table serial router = descriptor x1_table serial' router' ↔
  serial = serial' ∧ router = router'.
Proof.
  intros H1 H2 H3 H4. split; [|by intros [-> ->]]. intros E. unfold descriptor in E.
  apply app_inj_1 in E as [_ E]; [|done]. apply app_inj_1 in E as [E _]; [|done].
  unfold le64 in E. apply app_inj_1 in E as [El Eh]; [|done].
  assert (∀ v, 0 ≤ v < 2 ^ 32 → get_unaligned_le32 (le32 v) 0 = Ok v) as G.
  { intros v Hv. rewrite <- (app_nil_r (le32 v)). by apply get_le32_le32. }
  rewrite !drom_uid_value in El, Eh by done.
  apply (f_equal (λ l, get_unaligned_le32 l 0)) in El, Eh.
  change (0x5c6 * 2 ^ 48) with 416020015578349568 in *. pow_lits.
  rewrite !G in El, Eh by (Z.to_euclidean_division_equations; lia).
  simplify_eq. Z.to_euclidean_division_equations. lia.
Qed.
End drom.

(** ** Witnesses

    The kernel's [crc32c] is the reflected Castagnoli CRC; evaluated here only
    to show a concrete descriptor. *)

Fixpoint crc32c_bits (n : nat) (crc : Z) : Z :=
  match n with
  | O => crc
  | S n => crc32c_bits n (Z.lxor (crc >> 1) (if Z.odd crc then 0x82f63b78 else 0))
  end.
Definition castagnoli (seed : Z) (p : list Z) : Z :=
  fold_left (λ crc b, crc32c_bits 8 (Z.lxor crc b)) p seed.

Lemma x1_drom_exact_witness :
  qcom_usb4_x1_drom_build castagnoli (Some (replicate 116 0)) 116 0x12345678 0 =
  Ok (descriptor castagnoli x1_table 0x12345678 0) ∧
  qcom_usb4_x1_drom_build castagnoli (Some (replicate 115 0)) 115 0x12345678 0 = Err (-EINVAL).
Proof.
  split.
  - destruct (x1_drom_exact castagnoli (replicate 116 0) 116 0x12345678 0) as (H&_);
      [lia|simpl; lia|].
    rewrite H by (unfold QCOM_USB4_DROM_SIZE; lia). by rewrite drop_ge, app_nil_r.
  - destruct (x1_drom_exact castagnoli (replicate 115 0) 115 0x12345678 0) as (_&H&_);
      [lia|simpl; lia|].
    apply H. unfold QCOM_USB4_DROM_SIZE. lia.
Defined.

Lemma x1_drom_identity_witness :
  descriptor castagnoli x1_table 5 0 ≠ descriptor castagnoli x1_table 5 1.
Proof. rewrite (x1_drom_identity castagnoli 5 0 5 1) by lia. lia. Defined.
