(* ===== verification/Mcu.v ===== *)
(** * MCU run/ready handshake (snapshot/module/qcom-usb4-mcu.c, .h)

    [qcom_usb4_mcu] is the C record; register addresses are byte offsets from
    [base].  The device behind the registers is any [Mmio Z D]. *)

From S2P Require Import Prelude Fw Drom.

Definition QCOM_USB4_MCU_STATUS : Z := 0x18.
Definition QCOM_USB4_MCU_HOST_CONTROL : Z := 0x8018.
Definition QCOM_USB4_MCU_UID_HIGH : Z := 0x801c.
Definition QCOM_USB4_MCU_UID_LOW : Z := 0x8020.
Definition QCOM_USB4_MCU_READY : Z := BIT 24.
Definition QCOM_USB4_MCU_RUN : Z := BIT 0.
Definition QCOM_USB4_MCU_SHARED_MIN_SIZE : Z := 12.
Definition QCOM_USB4_MCU_COMMAND_RELATIVE : Z := 0xc.
Definition QCOM_USB4_MCU_MAX_COMMAND_TIMEOUT_US : Z := 1000000.

(** [enum qcom_usb4_mcu_layout] *)
Definition QCOM_USB4_MCU_LEGACY : Z := 0.
Definition QCOM_USB4_MCU_V2 : Z := 1.

Record qcom_usb4_mcu := {
  base : Z;
  ram_size : Z;
  ram_offset : Z;
  control_offset : Z;
  shared_offset_reg : Z;
  drom_offset : Z;
}.

Definition mcu_zero : qcom_usb4_mcu :=
  {| base := 0; ram_size := 0; ram_offset := 0; control_offset := 0;
     shared_offset_reg := 0; drom_offset := 0 |}.

(** The [switch (layout)]: RAM, control and shared-pointer offsets. *)
Definition mcu_layout (layout : Z) : option (Z * Z * Z) :=
  if layout =? QCOM_USB4_MCU_LEGACY then Some (0x13000, 0x22000, 0x22010)
  else if layout =? QCOM_USB4_MCU_V2 then Some (0x1e000, 0x14000, 0x14010)
  else None.

(** The state is the pointed-to record, [None] for a NULL [mcu]. *)
Definition qcom_usb4_mcu_init (base mapping_size ram_size layout : Z)
    : M (option qcom_usb4_mcu) unit :=
  let! m := get in
  match m with
  | None => fail (-EINVAL)
  | Some _ =>
      do! modify (λ _, Some mcu_zero) in
      if (base =? 0) || (base mod 4 !=? 0) || (ram_size <? QCOM_USB4_MCU_SHARED_MIN_SIZE)
      then fail (-EINVAL) else
      match mcu_layout layout with
      | None => fail (-EINVAL)
      | Some (ram, control, shared) =>
          if (mapping_size <? shared + 4) || (mapping_size <? ram) ||
             (mapping_size - ram <? ram_size) ||
             ((ram <=? control) && (control - ram <? ram_size))
          then fail (-EINVAL) else
          modify (λ _, Some {|
            base := base; ram_size := ram_size; ram_offset := ram;
            control_offset := control; shared_offset_reg := shared;
            drom_offset := if layout =? QCOM_USB4_MCU_V2 then 0xff20 else 0xdf20 |})
      end
  end.

(** [!mcu || !mcu->base] *)
Definition no_mcu (mcu : option qcom_usb4_mcu) : bool :=
  match mcu with None => true | Some m => base m =? 0 end.

Section mcu.
Context (crc32c : Z → list Z → Z).
Context {D : Type} `{Mmio Z D}.

(** The transport handed to [qcom_usb4_fw_upload]; always returns 0. *)
Definition qcom_usb4_mcu_write_word (mcu : qcom_usb4_mcu) (offset value : Z) (d : D)
    : Z * D := (0, (writel value (ram_offset mcu + offset) d).2).

Definition qcom_usb4_mcu_prepare_drom (mcu : option qcom_usb4_mcu) (drom : list Z)
    (serial router : Z) : res (list Z) :=
  match mcu with
  | None => Err (-EINVAL)
  | Some m =>
      if base m =? 0 then Err (-EINVAL) else
      if (ram_size m <? drom_offset m) ||
         (ram_size m - drom_offset m <? QCOM_USB4_DROM_SIZE) then Err (-EFBIG) else
      qcom_usb4_drom_build crc32c (Some drom) QCOM_USB4_DROM_SIZE serial router
  end.

Definition qcom_usb4_mcu_upload (mcu : option qcom_usb4_mcu) (data : option (list Z))
    (size : Z) : M D unit :=
  match mcu with
  | None => fail (-EINVAL)
  | Some m =>
      if base m =? 0 then fail (-EINVAL) else
      do! lift (qcom_usb4_fw_validate data size (ram_size m)) in
      let! control := readl (control_offset m) in
      if tst control QCOM_USB4_MCU_RUN then fail (-EBUSY) else
      do! writel 0 (control_offset m) in
      do! qcom_usb4_fw_upload data size (ram_size m)
            (Some (qcom_usb4_mcu_write_word m)) in
      do! readl (control_offset m) in
      ret tt
  end.

(** [for (i = 0; i < QCOM_USB4_DROM_SIZE; i += 4)]: 29 words. *)
Definition drom_words : list Z := (λ i, 4 * Z.of_nat i) <$> seq 0 29.

Definition qcom_usb4_mcu_store_drom (m : qcom_usb4_mcu) (drom : list Z) : M D unit :=
  let! hi := lift (get_unaligned_le32 drom 5) in
  do! writel hi QCOM_USB4_MCU_UID_HIGH in
  let! lo := lift (get_unaligned_le32 drom 1) in
  do! writel lo QCOM_USB4_MCU_UID_LOW in
  do! for_each drom_words (λ i,
        let! v := lift (get_unaligned_le32 drom i) in
        try_ (qcom_usb4_mcu_write_word m (u32 (drom_offset m + i)) v)) in
  do! readl (control_offset m) in
  ret tt.

(** [drom] is the uninitialised local array: [stack] stands for its bytes. *)
Definition qcom_usb4_mcu_write_drom (stack : list Z) (mcu : option qcom_usb4_mcu)
    (serial router : Z) : M D unit :=
  let! drom := lift (qcom_usb4_mcu_prepare_drom mcu stack serial router) in
  match mcu with
  | None => fault
  | Some m =>
      let! control := readl (control_offset m) in
      if tst control QCOM_USB4_MCU_RUN then fail (-EBUSY) else
      qcom_usb4_mcu_store_drom m drom
  end.

Definition qcom_usb4_mcu_load (stack : list Z) (mcu : option qcom_usb4_mcu)
    (data : option (list Z)) (size serial router : Z) : M D unit :=
  let! drom := lift (qcom_usb4_mcu_prepare_drom mcu stack serial router) in
  do! qcom_usb4_mcu_upload mcu data size in
  match mcu with None => fault | Some m => qcom_usb4_mcu_store_drom m drom end.

Definition qcom_usb4_mcu_update (offset mask value : Z) : M D unit :=
  let! reg := readl offset in
  writel ((reg .& not32 mask) .| (value .& mask)) offset.

Definition qcom_usb4_mcu_stop (mcu : option qcom_usb4_mcu) : M D unit :=
  match mcu with
  | None => ret tt
  | Some m =>
      if base m =? 0 then ret tt else
      do! qcom_usb4_mcu_update (control_offset m) QCOM_USB4_MCU_RUN 0 in
      do! qcom_usb4_mcu_update QCOM_USB4_MCU_HOST_CONTROL QCOM_USB4_MCU_READY 0 in
      do! readl QCOM_USB4_MCU_HOST_CONTROL in
      ret tt
  end.

(** The part of [qcom_usb4_mcu_start] between the RUN write and [return 0];
    its error exits are the [goto stop]s. *)
Definition mcu_await_shared (polls : nat) (m : qcom_usb4_mcu) : M D Z :=
  do! readl_poll_timeout polls QCOM_USB4_MCU_STATUS
        (λ status, tst status QCOM_USB4_MCU_READY) in
  let! offset := readl (shared_offset_reg m) in
  if (offset mod 4 !=? 0) || (ram_size m - QCOM_USB4_MCU_SHARED_MIN_SIZE <? offset)
  then fail (-EPROTO) else ret offset.

(** From the first register access on. *)
Definition mcu_start_run (polls : nat) (m : qcom_usb4_mcu) : M D Z :=
  let! control := readl (control_offset m) in
  if tst control QCOM_USB4_MCU_RUN then fail (-EBUSY) else
  do! qcom_usb4_mcu_update QCOM_USB4_MCU_HOST_CONTROL QCOM_USB4_MCU_READY 0 in
  do! qcom_usb4_mcu_update (control_offset m) QCOM_USB4_MCU_RUN QCOM_USB4_MCU_RUN in
  on_error (mcu_await_shared polls m) (qcom_usb4_mcu_stop (Some m)).

(** [shared] is the out parameter, [None] for NULL; its value after the call
    is part of the result. *)
Definition qcom_usb4_mcu_start (polls : nat) (mcu : option qcom_usb4_mcu)
    (shared : option Z) (d : D) : res unit * option Z * D :=
  match shared with
  | None => (Err (-EINVAL), None, d)
  | Some _ =>
      match mcu with
      | None => (Err (-EINVAL), Some 0, d)
      | Some m =>
          if base m =? 0 then (Err (-EINVAL), Some 0, d) else
          match mcu_start_run polls m d with
          | (Ok offset, d) => (Ok tt, Some offset, d)
          | (Err e, d) => (Err e, Some 0, d)
          | (Fault, d) => (Fault, Some 0, d)
          end
      end
  end.

Definition qcom_usb4_mcu_command (polls : nat) (mcu : option qcom_usb4_mcu)
    (command timeout_us : Z) : M D unit :=
  match mcu with
  | None => fail (-EINVAL)
  | Some m =>
      if (base m =? 0) || (command =? 0) || (timeout_us =? 0) ||
         (QCOM_USB4_MCU_MAX_COMMAND_TIMEOUT_US <? timeout_us) then fail (-EINVAL) else
      let! control := readl (control_offset m) in
      if negb (tst control QCOM_USB4_MCU_RUN) then fail (-EHOSTDOWN) else
      let! status := readl QCOM_USB4_MCU_STATUS in
      if negb (tst status QCOM_USB4_MCU_READY) then fail (-EAGAIN) else
      let mailbox := control_offset m + QCOM_USB4_MCU_COMMAND_RELATIVE in
      let! pending := readl mailbox in
      if pending !=? 0 then fail (-EBUSY) else
      do! writel command mailbox in
      readl_poll_timeout polls mailbox (λ value, value =? 0)
  end.
End mcu.

(** ** The layout invariant *)

(** What [qcom_usb4_mcu_init] establishes over a mapping of [map] bytes: the
    RAM window and the control block lie in it and do not meet. *)
Definition mcu_wf (map : Z) (m : qcom_usb4_mcu) : Prop :=
  base m ≠ 0 ∧ base m mod 4 = 0 ∧ QCOM_USB4_MCU_SHARED_MIN_SIZE ≤ ram_size m ∧
  ram_offset m + ram_size m ≤ map ∧ shared_offset_reg m + 4 ≤ map ∧
  shared_offset_reg m = control_offset m + 0x10 ∧
  (ram_offset m + ram_size m ≤ control_offset m ∨ shared_offset_reg m + 4 ≤ ram_offset m) ∧
  QCOM_USB4_MCU_UID_LOW + 4 ≤ ram_offset m ∧ QCOM_USB4_MCU_UID_LOW + 4 ≤ control_offset m ∧
  ram_offset m mod 4 = 0 ∧ control_offset m mod 4 = 0 ∧
  0 ≤ drom_offset m < 2 ^ 16 ∧ drom_offset m mod 4 = 0.

(** Initialisation yields a record whose RAM window and registers are
    aligned, inside the mapping and disjoint, or it fails with -EINVAL leaving
    the record all zeroes (which every later operation refuses). *)
Theorem mcu_init_wf base map ram layout m0 :
  match qcom_usb4_mcu_init base map ram layout (Some m0) with
  | (Ok _, m) => ∃ m', m = Some m' ∧ mcu_wf map m' ∧ ram_size m' = ram
  | (Err e, m) => e = -EINVAL ∧ m = Some mcu_zero
  | (Fault, _) => False
  end.
Proof.
  unfold qcom_usb4_mcu_init, bind, get, modify, fail.
  destruct (_ || _) eqn:E1; [done|]. unfold mcu_layout.
  destruct (Z.eqb_spec layout QCOM_USB4_MCU_LEGACY) as [->|];
    [|destruct (Z.eqb_spec layout QCOM_USB4_MCU_V2) as [->|]; [|done]].
  all: match goal with |- context [if ?b then _ else _] => destruct b eqn:E2 end; [done|].
  all: eexists; split; [done|]; split; [|done].
  all: unfold mcu_wf, QCOM_USB4_MCU_SHARED_MIN_SIZE, QCOM_USB4_MCU_UID_LOW in *; simpl in *.
  all: split_and!; try done; lia.
Qed.

Section proofs.
Context {D : Type} `{Mmio Z D}.
Abbreviation world := (traced Z D).

(** Aligned words of the mapping. *)
Definition in_map (map a : Z) : Prop := 0 ≤ a ∧ a + 4 ≤ map ∧ a mod 4 = 0.

Lemma write_word_traced m o v (s : world) :
  qcom_usb4_mcu_write_word m o v s =
  (0, Traced (dev_write (ram_offset m + o) (u32 v) (hw s))
        (log s ++ [Wr (ram_offset m + o) (u32 v)])).
Proof. done. Qed.

Lemma write_words_traced m l (s : world) :
  ∃ d, for_each l (λ p, try_ (qcom_usb4_mcu_write_word m p.1 p.2)) s =
    (Ok tt, Traced d (log s ++ ((λ p, Wr (ram_offset m + p.1) (u32 p.2)) <$> l))).
Proof.
  revert s. induction l as [|p l IH]; intros s.
  { exists (hw s). simpl. rewrite app_nil_r. by destruct s. }
  cbn [for_each]. unfold bind, try_ at 1. rewrite write_word_traced.
  change (0 =? 0) with true. cbv iota beta.
  destruct (IH (Traced (dev_write (ram_offset m + p.1) (u32 p.2) (hw s))
    (log s ++ [Wr (ram_offset m + p.1) (u32 p.2)]))) as (d&->).
  exists d. cbn [log]. by rewrite <- app_assoc.
Qed.

(** Every path through the upload, for any device. *)
Lemma upload_paths m data (s : world) :
  base m ≠ 0 → Forall is_byte data → data ≠ [] →
  match qcom_usb4_mcu_upload (Some m) (Some data) (Z.of_nat (length data)) s with
  | (Ok _, s') => ∃ rs c r, data = enc_image rs ∧ Forall (record_ok (ram_size m)) rs ∧
      tst c QCOM_USB4_MCU_RUN = false ∧
      log s' = log s ++ [Rd (control_offset m) c; Wr (control_offset m) 0] ++
        ((λ p, Wr (ram_offset m + p.1) (u32 p.2)) <$> image_writes rs) ++
        [Rd (control_offset m) r]
  | (Err e, s') => e ∈ [-EINVAL; -EOVERFLOW; -EFBIG; -EBUSY] ∧
      (log s' = log s ∨ ∃ c, log s' = log s ++ [Rd (control_offset m) c])
  | (Fault, _) => False
  end.
Proof.
  intros Hb Hd Hne. unfold qcom_usb4_mcu_upload.
  destruct (Z.eqb_spec (base m) 0); [done|]. unfold lift. unfold bind at 1.
  destruct (qcom_usb4_fw_validate _ _ _) as [[]|e|] eqn:E.
  2: { apply validate_errors in E. split; [set_solver|by left]. }
  2: { by apply validate_never_faults in E; [|lia]. }
  apply fw_validate_iff_aux in E as (rs&->&Hrs); [|done..].
  unfold bind at 1. destruct (readl_traced (control_offset m) s) as (c&d&->&Hc).
  destruct (tst c QCOM_USB4_MCU_RUN) eqn:Er.
  { split; [set_solver|]. right. by exists c. }
  unfold bind. rewrite writel_traced.
  rewrite upload_accepted with (rs := rs) by (done || by intros ->).
  match goal with |- context [for_each _ _ ?s0] =>
    destruct (write_words_traced m (image_writes rs) s0) as (d1&->) end.
  match goal with |- context [readl _ ?s0] =>
    destruct (readl_traced (control_offset m) s0) as (r&d2&->&_) end.
  exists rs, c, r. split_and!; try done. simpl. by rewrite <- !app_assoc.
Qed.

(** The word at byte [i] of a descriptor. *)
Definition word_at (d : list Z) (i : Z) : Z :=
  match get_unaligned_le32 d i with Ok v => v | _ => 0 end.

Lemma word_at_ok d i :
  0 ≤ i → i + 4 ≤ Z.of_nat (length d) →
  get_unaligned_le32 d i = Ok (word_at d i) ∧ u32 (word_at d i) = word_at d i.
Proof.
  intros Hi Hl. unfold word_at. destruct (get_le32_ok d i Hi Hl) as (v&->&Hv).
  split; [done|]. by apply u32_small.
Qed.

Lemma drom_words_bound i : i ∈ drom_words → 0 ≤ i ≤ 112 ∧ i mod 4 = 0.
Proof.
  unfold drom_words. intros (k&->&Hk)%list_elem_of_fmap.
  apply elem_of_seq in Hk. split; [lia|]. by rewrite Z.mul_comm, Z.mod_mul.
Qed.

Lemma store_words_traced m d l (s : world) :
  0 ≤ drom_offset m < 2 ^ 16 → length d = 116%nat →
  (∀ i, i ∈ l → 0 ≤ i ≤ 112) →
  ∃ d', for_each l (λ i, let! v := lift (get_unaligned_le32 d i) in
      try_ (qcom_usb4_mcu_write_word m (u32 (drom_offset m + i)) v)) s =
    (Ok tt, Traced d' (log s ++
      ((λ i, Wr (ram_offset m + (drom_offset m + i)) (word_at d i)) <$> l))).
Proof.
  intros Hm Hd. revert s. induction l as [|i l IH]; intros s Hl.
  { exists (hw s). simpl. rewrite app_nil_r. by destruct s. }
  assert (0 ≤ i ≤ 112) as Hi by (apply Hl; set_solver).
  destruct (word_at_ok d i) as [E1 E2]; [lia..|].
  cbn [for_each]. unfold bind at 1. unfold bind at 1. unfold lift at 1. rewrite E1.
  unfold try_ at 1. rewrite write_word_traced. change (0 =? 0) with true. cbv iota beta.
  rewrite E2, u32_small by lia.
  destruct (IH (Traced (dev_write (ram_offset m + (drom_offset m + i)) (word_at d i) (hw s))
    (log s ++ [Wr (ram_offset m + (drom_offset m + i)) (word_at d i)]))) as (d1&->).
  { intros j Hj. apply Hl. set_solver. }
  exists d1. cbn [log]. by rewrite <- app_assoc.
Qed.

Lemma store_drom_traced m d (s : world) :
  0 ≤ drom_offset m < 2 ^ 16 → length d = 116%nat →
  ∃ d' r, qcom_usb4_mcu_store_drom m d s =
    (Ok tt, Traced d' (log s ++
      [Wr QCOM_USB4_MCU_UID_HIGH (word_at d 5); Wr QCOM_USB4_MCU_UID_LOW (word_at d 1)] ++
      ((λ i, Wr (ram_offset m + (drom_offset m + i)) (word_at d i)) <$> drom_words) ++
      [Rd (control_offset m) r])).
Proof.
  intros Hm Hd. unfold qcom_usb4_mcu_store_drom.
  destruct (word_at_ok d 5) as [E1 E2]; [lia..|].
  destruct (word_at_ok d 1) as [E3 E4]; [lia..|].
  unfold bind, lift at 1 2. rewrite E1, writel_traced, E2, E3, writel_traced, E4.
  match goal with |- context [for_each _ _ ?s0] =>
    destruct (store_words_traced m d drom_words s0) as (d1&Es) end;
    [done..|by intros i [? _]%drom_words_bound|]. unfold bind in Es. rewrite Es.
  match goal with |- context [readl _ ?s0] =>
    destruct (readl_traced (control_offset m) s0) as (r&d2&->&_) end.
  exists d2, r. cbn [log]. by rewrite <- !app_assoc.
Qed.

Lemma update_traced off mask v (s : world) :
  0 ≤ mask < 2 ^ 32 →
  ∃ d r w, qcom_usb4_mcu_update off mask v s =
      (Ok tt, Traced d (log s ++ [Rd off r; Wr off w])) ∧
    w .& mask = v .& mask ∧ w .& not32 mask = r .& not32 mask.
Proof.
  intros Hm. unfold qcom_usb4_mcu_update, bind.
  destruct (readl_traced off s) as (r&d&->&Hr). rewrite writel_traced.
  set (w := (r .& not32 mask) .| (v .& mask)).
  assert (0 ≤ w < 2 ^ 32) as Hw.
  { apply lor_lt; [lia| |rewrite Z.land_comm]; by apply land_lt. }
  assert (v .& mask .& mask = v .& mask) as Hv by (by rewrite <- Z.land_assoc, Z.land_diag).
  eexists _, r, w. rewrite u32_small by done. cbn [log]. rewrite <- app_assoc.
  split_and!; [done|by apply field_update_in|by apply field_update_out].
Qed.

(** Both firmware handshake bits are words of the register. *)
Lemma run_ready_range :
  0 ≤ QCOM_USB4_MCU_RUN < 2 ^ 32 ∧ 0 ≤ QCOM_USB4_MCU_READY < 2 ^ 32.
Proof. by vm_compute. Qed.

Lemma stop_traced m (s : world) :
  base m ≠ 0 →
  ∃ d t c h, qcom_usb4_mcu_stop (Some m) s = (Ok tt, Traced d (log s ++ t)) ∧
    writes t = [(control_offset m, c); (QCOM_USB4_MCU_HOST_CONTROL, h)] ∧
    tst c QCOM_USB4_MCU_RUN = false ∧ tst h QCOM_USB4_MCU_READY = false.
Proof.
  intros Hb. unfold qcom_usb4_mcu_stop. destruct (Z.eqb_spec (base m) 0); [done|].
  unfold bind. destruct run_ready_range as [Hr1 Hr2].
  destruct (update_traced (control_offset m) QCOM_USB4_MCU_RUN 0 s Hr1)
    as (d&r&c&->&Hc&_).
  match goal with |- context [qcom_usb4_mcu_update _ _ _ ?s0] =>
    destruct (update_traced QCOM_USB4_MCU_HOST_CONTROL QCOM_USB4_MCU_READY 0 s0 Hr2)
      as (d2&r2&h&->&Hh&_) end.
  match goal with |- context [readl _ ?s0] =>
    destruct (readl_traced QCOM_USB4_MCU_HOST_CONTROL s0) as (r3&d3&->&_) end.
  eexists _, _, c, h. cbn [log]. rewrite <- !app_assoc. split_and!; [done|done| |].
  - unfold tst. by rewrite Hc.
  - unfold tst. by rewrite Hh.
Qed.

(** Waiting for the firmware only reads. *)
Lemma await_reads polls m : emits (S:=world) reads_only (mcu_await_shared polls m).
Proof.
  unfold mcu_await_shared, emits. keeps_auto.
  - by apply emits_poll.
  - by apply emits_readl.
Qed.

Lemma await_result polls m (s : world) :
  match mcu_await_shared polls m s with
  | (Ok off, _) => off mod 4 = 0 ∧ 0 ≤ off ≤ ram_size m - QCOM_USB4_MCU_SHARED_MIN_SIZE
  | (Err e, _) => e ∈ [-ETIMEDOUT; -EPROTO]
  | (Fault, _) => False
  end.
Proof.
  unfold mcu_await_shared, bind.
  destruct (poll_result QCOM_USB4_MCU_STATUS (λ v, tst v QCOM_USB4_MCU_READY) polls s)
    as [(s1&->&_)|(s1&->&_)]; [|set_solver].
  destruct (readl_traced (shared_offset_reg m) s1) as (off&d&->&Ho).
  destruct (_ || _) eqn:E; unfold fail, ret; [set_solver|]. lia.
Qed.


(** C32. A mailbox command writes at most once: only after reading RUN set,
    READY set and the mailbox empty, and only the command word to the mailbox;
    a timeout reports -ETIMEDOUT with the command still posted, and every
    other refusal leaves the hardware unwritten. *)
Theorem mcu_command_outcomes polls m command timeout (s : world) :
  let mailbox := control_offset m + QCOM_USB4_MCU_COMMAND_RELATIVE in
  match qcom_usb4_mcu_command polls (Some m) command timeout s with
  | (Ok _, s') => ∃ c st t,
      log s' = log s ++ [Rd (control_offset m) c; Rd QCOM_USB4_MCU_STATUS st;
        Rd mailbox 0; Wr mailbox (u32 command)] ++ t ∧ Forall reads_only t ∧
      tst c QCOM_USB4_MCU_RUN = true ∧ tst st QCOM_USB4_MCU_READY = true ∧ command ≠ 0
  | (Err e, s') =>
      (e ∈ [-EINVAL; -EHOSTDOWN; -EAGAIN; -EBUSY] ∧ writes (log s') = writes (log s)) ∨
      (e = -ETIMEDOUT ∧ writes (log s') = writes (log s) ++ [(mailbox, u32 command)])
  | (Fault, _) => False
  end.
Proof.
  intros mailbox. unfold qcom_usb4_mcu_command.
  destruct (_ || _) eqn:E0; [left; set_solver|]. fold mailbox.
  unfold bind at 1. destruct (readl_traced (control_offset m) s) as (c&d&->&_).
  destruct (tst c QCOM_USB4_MCU_RUN) eqn:Er; cbn [negb]; cbv iota beta.
  2: { left. split; [set_solver|]. cbn [log]. by rewrite writes_app, app_nil_r. }
  unfold bind at 1. match goal with |- context [readl _ ?s0] =>
    destruct (readl_traced QCOM_USB4_MCU_STATUS s0) as (st&d1&->&_) end.
  destruct (tst st QCOM_USB4_MCU_READY) eqn:Es; cbn [negb]; cbv iota beta.
  2: { left. split; [set_solver|]. cbn [log]. by rewrite !writes_app, !app_nil_r. }
  unfold bind at 1. match goal with |- context [readl _ ?s0] =>
    destruct (readl_traced mailbox s0) as (p&d2&->&_) end.
  destruct (Z.eqb_spec p 0) as [->|]; cbn [negb]; cbv iota beta.
  2: { left. split; [set_solver|]. cbn [log]. by rewrite !writes_app, !app_nil_r. }
  unfold bind. rewrite writel_traced.
  match goal with |- context [readl_poll_timeout _ _ _ ?s0] =>
    destruct (poll_result mailbox (λ value, value =? 0) polls s0)
      as [(s1&->&Hg)|(s1&->&Hg)] end.
  - destruct Hg as (t&Ht&Hf). exists c, st, t. unfold get_log, traced_logged in Ht.
    cbn [log] in Ht. rewrite Ht, <- !app_assoc. split_and!; try done. lia.
  - right. split; [done|]. apply grows_no_write in Hg. cbn [log] in Hg.
    rewrite Hg, !writes_app. cbn [writes omap list_omap app]. by rewrite !app_nil_r.
Qed.
End proofs.

Section load.
Context (crc32c : Z → list Z → Z).
Context {D : Type} `{Mmio Z D}.
Abbreviation world := (traced Z D).

(** What a load leaves in the descriptor window, and the writes it makes. *)
Definition drom_of (serial router : Z) : list Z :=
  descriptor crc32c qcom_usb4_drom_data serial router.

Definition load_writes m rs serial router : list (Z * Z) :=
  (control_offset m, 0) ::
  ((λ p, (ram_offset m + p.1, u32 p.2)) <$> image_writes rs) ++
  [(QCOM_USB4_MCU_UID_HIGH, word_at (drom_of serial router) 5);
   (QCOM_USB4_MCU_UID_LOW, word_at (drom_of serial router) 1)] ++
  ((λ i, (ram_offset m + (drom_offset m + i), word_at (drom_of serial router) i))
     <$> drom_words).

Lemma prepare_drom_result m stack serial router :
  base m ≠ 0 → length stack = 116%nat →
  match qcom_usb4_mcu_prepare_drom crc32c (Some m) stack serial router with
  | Ok d => d = drom_of serial router ∧
      drom_offset m + QCOM_USB4_DROM_SIZE ≤ ram_size m ∧ router ≤ 2
  | Err e => e ∈ [-EINVAL; -EFBIG]
  | Fault => False
  end.
Proof.
  intros Hb Hl. unfold qcom_usb4_mcu_prepare_drom.
  destruct (Z.eqb_spec (base m) 0); [done|].
  destruct (_ || _) eqn:E; [set_solver|].
  destruct (decide (2 < router)) as [Hr|Hr].
  { unfold qcom_usb4_drom_build. destruct (Z.ltb_spec 2 router); [|lia].
    rewrite orb_true_r. set_solver. }
  rewrite drom_build_ok by (unfold QCOM_USB4_DROM_SIZE; lia).
  split_and!; [|lia|lia]. unfold drom_of. by rewrite drop_ge, app_nil_r by lia.
Qed.

(** C29. Loading firmware and descriptor, for every device and every image:
    either nothing at all is written (bad image, bad identity, running
    firmware), or the writes are exactly: control cleared, the records' words
    at their RAM offsets in order, the UID, the 29 descriptor words. *)
Theorem mcu_load_exact map m stack data serial router (s : world) :
  mcu_wf map m → length stack = 116%nat → Forall is_byte data → data ≠ [] →
  match qcom_usb4_mcu_load crc32c stack (Some m) (Some data) (Z.of_nat (length data))
      serial router s with
  | (Ok _, s') => ∃ rs, data = enc_image rs ∧ Forall (record_ok (ram_size m)) rs ∧
      writes (log s') = writes (log s) ++ load_writes m rs serial router
  | (Err _, s') => writes (log s') = writes (log s)
  | (Fault, _) => False
  end.
Proof.
  intros Hwf Hs Hd Hne. unfold qcom_usb4_mcu_load. unfold lift at 1. unfold bind at 1.
  assert (base m ≠ 0) as Hb by apply Hwf.
  pose proof (prepare_drom_result m stack serial router Hb Hs) as Hp.
  destruct (qcom_usb4_mcu_prepare_drom _ _ _ _ _) as [d|e|]; [|done|done].
  destruct Hp as (->&_&_). unfold bind at 1.
  pose proof (upload_paths m data s Hb Hd Hne) as Hu.
  destruct (qcom_usb4_mcu_upload _ _ _ s) as [[[]|e|] s1]; [| |done].
  - destruct Hu as (rs&c&r&->&Hrs&_&Hlog).
    destruct (store_drom_traced m (drom_of serial router) s1) as (d'&r'&->);
      [apply Hwf|done|].
    exists rs. split_and!; try done. cbn [log].
    rewrite Hlog, !writes_app. unfold load_writes. rewrite !writes_fmap.
    cbn [writes omap list_omap app]. by rewrite <- !app_assoc, !app_nil_r.
  - destruct Hu as [_ [->|(c&->)]]; [done|]. by rewrite writes_app, app_nil_r.
Qed.
End load.

(** ** Witnesses: the register file of a legacy layout with an 0xf000-byte RAM *)

Definition legacy_mcu : qcom_usb4_mcu :=
  {| base := 0x15600000; ram_size := 0xf000; ram_offset := 0x13000;
     control_offset := 0x22000; shared_offset_reg := 0x22010; drom_offset := 0xdf20 |}.

Lemma legacy_mcu_wf : mcu_wf 0x100000 legacy_mcu.
Proof. unfold mcu_wf. vm_compute. intuition (discriminate || auto). Qed.

(** All registers zero, nothing done yet. *)
Definition idle_world : traced Z (regs Z) := Traced (λ _, 0) [].
(** Firmware up and ready, mailbox empty. *)
Definition ready_world : traced Z (regs Z) :=
  Traced (λ a, if a =? 0x22000 then 1 else if a =? 0x18 then BIT 24 else 0) [].

Lemma mcu_load_exact_witness :
  ∃ s', qcom_usb4_mcu_load castagnoli (replicate 116 0) (Some legacy_mcu)
      (Some (enc_image sample_image)) 28 7 0 idle_world = (Ok tt, s') ∧
    ∃ rs, enc_image sample_image = enc_image rs ∧
      writes (log s') = load_writes castagnoli legacy_mcu rs 7 0.
Proof.
  pose proof (mcu_load_exact castagnoli 0x100000 legacy_mcu (replicate 116 0)
    (enc_image sample_image) 7 0 idle_world legacy_mcu_wf eq_refl
    (enc_image_bytes sample_image) (enc_image_ne sample_image ltac:(discriminate))) as H.
  change (Z.of_nat (length (enc_image sample_image))) with 28 in H.
  assert ((qcom_usb4_mcu_load castagnoli (replicate 116 0) (Some legacy_mcu)
    (Some (enc_image sample_image)) 28 7 0 idle_world).1 = Ok tt) as E
    by (vm_compute; reflexivity).
  destruct (qcom_usb4_mcu_load _ _ _ _ _ _ _ _) as [r s']. simpl in E. subst r.
  exists s'. split; [reflexivity|]. destruct H as (rs&Hrs&_&Hw). by exists rs.
Defined.


(** A mailbox that the firmware never clears. *)
Example command_posted :
  ∃ s', qcom_usb4_mcu_command 2 (Some legacy_mcu) 0x2501 10000 ready_world =
    (Err (-ETIMEDOUT), s') ∧ writes (log s') = [(0x2200c, 0x2501)].
Proof. eexists. split; vm_compute; reflexivity. Qed.
