(* ===== verification/Startup.v ===== *)
(** * The X1 cold-start sequencer (snapshot/module/qcom-usb4-x1-startup.c, .h)

    One attempt per state: validate, take ownership, then run the table of
    operations through the caller's callbacks.  The callbacks ([struct x1_ops])
    act on a context of any type. *)

From S2P Require Import Prelude Fw Drom.

Inductive x1_step :=
| X1_NONE | X1_VALIDATE | X1_OWNER | X1_PHY_PREPARE | X1_RX_PREPARE
| X1_TXB_PREPARE | X1_TXA_PREPARE | X1_RX_CLOCK_REFERENCE | X1_MISC_RESET_ASSERT
| X1_MISC_ASSERT_DELAY | X1_EXTRA_RESET_ASSERT | X1_DP_RESET_ASSERT
| X1_RESET_ASSERT_DELAY | X1_DP_RESET_CLEAR | X1_EXTRA_RESET_CLEAR
| X1_RESET_RELEASE_DELAY | X1_MISC_RESET_CLEAR | X1_SYS_READY | X1_RX_CLOCK_PHY
| X1_CLEAR_1200C | X1_RX_ACTIVE | X1_TXB_ACTIVE | X1_TXA_ACTIVE | X1_SET_81000
| X1_PIPE_RESET_ASSERT | X1_PIPE_ASSERT_DELAY | X1_PIPE_ASSERT_SETTLE
| X1_SET_81018 | X1_PIPE_RESET_CLEAR | X1_PIPE_RELEASE_DELAY
| X1_PIPE_RELEASE_SETTLE | X1_CLEAR_81000 | X1_UPLOAD | X1_SYS_MEMORY_FORCE
| X1_TCSR_ROUTE | X1_PIPE_HWCG_OFF | X1_SET_81004 | X1_TIMER_HIGH | X1_TIMER_LOW
| X1_TIMER_8148 | X1_TIMER_8144 | X1_DROM | X1_PHY_COMPOSITE | X1_ADAPTER_23
| X1_ADAPTER_22 | X1_ADAPTER_21 | X1_CLEAR_D064_6 | X1_MCU_START | X1_PRESET.

#[export] Instance x1_step_eq_dec : EqDecision x1_step.
Proof. solve_decision. Defined.

Inductive kind := PROVIDER | UPDATE | DELAY | RELEASE_DELAY | CLEAR_1200C.

Record operation := Operation {
  o_step : x1_step;
  o_kind : kind;
  o_offset : Z;
  o_mask : Z;
  o_value : Z;
  o_name : string;
}.

Definition P_ (s : x1_step) (n : string) : operation := Operation s PROVIDER 0 0 0 n.
Definition U_ (s : x1_step) (o m v : Z) (n : string) : operation := Operation s UPDATE o m v n.
Definition D_ (s : x1_step) (us : Z) (n : string) : operation := Operation s DELAY 0 0 us n.

Definition operations : list operation := [
  P_ X1_PHY_PREPARE "PHY_PREPARE";
  P_ X1_RX_PREPARE "RX_PREPARE";
  P_ X1_TXB_PREPARE "TXB_PREPARE";
  P_ X1_TXA_PREPARE "TXA_PREPARE";
  P_ X1_RX_CLOCK_REFERENCE "RX_CLOCK_REFERENCE";
  P_ X1_MISC_RESET_ASSERT "MISC_RESET_ASSERT";
  D_ X1_MISC_ASSERT_DELAY 100 "MISC_ASSERT_DELAY";
  P_ X1_EXTRA_RESET_ASSERT "EXTRA_RESET_ASSERT";
  P_ X1_DP_RESET_ASSERT "DP_RESET_ASSERT";
  D_ X1_RESET_ASSERT_DELAY 1 "RESET_ASSERT_DELAY";
  P_ X1_DP_RESET_CLEAR "DP_RESET_CLEAR";
  P_ X1_EXTRA_RESET_CLEAR "EXTRA_RESET_CLEAR";
  Operation X1_RESET_RELEASE_DELAY RELEASE_DELAY 0 0 0 "RESET_RELEASE_DELAY";
  P_ X1_MISC_RESET_CLEAR "MISC_RESET_CLEAR";
  P_ X1_SYS_READY "SYS_READY";
  P_ X1_RX_CLOCK_PHY "RX_CLOCK_PHY";
  Operation X1_CLEAR_1200C CLEAR_1200C 0 0 0 "CLEAR_1200C";
  P_ X1_RX_ACTIVE "RX_ACTIVE";
  P_ X1_TXB_ACTIVE "TXB_ACTIVE";
  P_ X1_TXA_ACTIVE "TXA_ACTIVE";
  U_ X1_SET_81000 0x81000 1 1 "SET_81000";
  P_ X1_PIPE_RESET_ASSERT "PIPE_RESET_ASSERT";
  D_ X1_PIPE_ASSERT_DELAY 1000 "PIPE_ASSERT_DELAY";
  D_ X1_PIPE_ASSERT_SETTLE 100 "PIPE_ASSERT_SETTLE";
  U_ X1_SET_81018 0x81018 1 1 "SET_81018";
  P_ X1_PIPE_RESET_CLEAR "PIPE_RESET_CLEAR";
  D_ X1_PIPE_RELEASE_DELAY 1000 "PIPE_RELEASE_DELAY";
  D_ X1_PIPE_RELEASE_SETTLE 100 "PIPE_RELEASE_SETTLE";
  U_ X1_CLEAR_81000 0x81000 1 0 "CLEAR_81000";
  P_ X1_UPLOAD "UPLOAD";
  P_ X1_SYS_MEMORY_FORCE "SYS_MEMORY_FORCE";
  P_ X1_TCSR_ROUTE "TCSR_ROUTE";
  P_ X1_PIPE_HWCG_OFF "PIPE_HWCG_OFF";
  U_ X1_SET_81004 0x81004 1 1 "SET_81004";
  U_ X1_TIMER_HIGH 0x80c8 0xffff0000 0x00040000 "TIMER_HIGH";
  U_ X1_TIMER_LOW 0x80c8 0xffff 0 "TIMER_LOW";
  U_ X1_TIMER_8148 0x8148 0xffffffff 250000 "TIMER_8148";
  U_ X1_TIMER_8144 0x8144 0xffffffff 4000 "TIMER_8144";
  P_ X1_DROM "DROM";
  P_ X1_PHY_COMPOSITE "PHY_COMPOSITE";
  U_ X1_ADAPTER_23 0xd000 (1 << 23) 0 "ADAPTER_23";
  U_ X1_ADAPTER_22 0xd000 (1 << 22) 0 "ADAPTER_22";
  U_ X1_ADAPTER_21 0xd000 (1 << 21) 0 "ADAPTER_21";
  U_ X1_CLEAR_D064_6 0xd064 (1 << 6) 0 "CLEAR_D064_6";
  P_ X1_MCU_START "MCU_START";
  P_ X1_PRESET "PRESET" ].

Definition x1_step_name (s : x1_step) : string :=
  if decide (s = X1_NONE) then "none" else
  if decide (s = X1_VALIDATE) then "validate" else
  if decide (s = X1_OWNER) then "owner" else
  match list_find (λ op, o_step op = s) operations with
  | Some (_, op) => o_name op
  | None => "invalid"
  end.

Record x1_config := {
  cfg_firmware : option (list Z);
  cfg_firmware_size : Z;
  cfg_serial : Z;
  cfg_router : Z;
  cfg_phy_rx_eq : Z;
  cfg_mcu_preset : Z;
  cfg_reset_release_us : Z;
}.

Inductive x1_phase := X1_NEW | X1_RUNNING | X1_FAILED | X1_COMPLETE.
#[export] Instance x1_phase_eq_dec : EqDecision x1_phase.
Proof. solve_decision. Defined.

Record x1_state := X1State {
  st_phase : x1_phase;
  st_active : x1_step;
  st_completed : x1_step;
  st_error : Z;
}.

(** The callbacks.  [read] returns an errno and the value; [delay_us] is void. *)
Record x1_ops (S : Type) := {
  ops_owner : x1_config → S → Z * S;
  ops_step : x1_step → x1_config → S → Z * S;
  ops_read : Z → S → Z * Z * S;
  ops_update : Z → Z → Z → S → Z * S;
  ops_delay_us : Z → S → S;
}.
Arguments ops_owner {_} _ _ _.
Arguments ops_step {_} _ _ _ _.
Arguments ops_read {_} _ _ _.
Arguments ops_update {_} _ _ _ _ _.
Arguments ops_delay_us {_} _ _ _.

Section startup.
Context (crc32c : Z → list Z → Z).
Context {S : Type}.

(** NULL [cfg] and NULL [ops] (or any NULL callback in it) are [None]; the
    descriptor is built into a local array only to check that it can be. *)
Definition validate (cfg : option x1_config) (ops : option (x1_ops S)) : res unit :=
  match cfg, ops with
  | Some cfg, Some _ =>
      if (cfg_serial cfg =? 0) || (cfg_router cfg !=? 0) || (cfg_phy_rx_eq cfg !=? 0x6f) ||
         (cfg_mcu_preset cfg !=? 0x0c63) || (cfg_reset_release_us cfg !=? 100)
      then Err (-EINVAL) else
      let? _ := qcom_usb4_x1_drom_build crc32c (Some (replicate 116 0))
                  QCOM_USB4_DROM_SIZE (cfg_serial cfg) 0 in
      qcom_usb4_fw_validate (cfg_firmware cfg) (cfg_firmware_size cfg) 0xf000
  | _, _ => Err (-EINVAL)
  end.

Definition call_read (ops : x1_ops S) (off : Z) : M S Z := λ s,
  let '(r, v, s') := ops_read ops off s in
  if r =? 0 then (Ok (u32 v), s') else (Err r, s').

(** [for (;;)] of [clear_1200c]: [more] is how many more updates it will do
    before giving up, [11 - attempts]. *)
Fixpoint clear_1200c_loop (ops : x1_ops S) (more : nat) : M S unit :=
  let! value := call_read ops 0x1200c in
  if negb (tst value (1 << 31)) then ret tt else
  match more with
  | O => fail (-ETIMEDOUT)
  | Datatypes.S more =>
      do! try_ (ops_update ops 0x1200c (1 << 31) 0) in
      do! modify (ops_delay_us ops 1) in
      clear_1200c_loop ops more
  end.

Definition clear_1200c (ops : x1_ops S) : M S unit :=
  do! clear_1200c_loop ops 11 in
  modify (ops_delay_us ops 10000).

Definition execute (op : operation) (cfg : x1_config) (ops : x1_ops S) : M S unit :=
  match o_kind op with
  | PROVIDER => try_ (ops_step ops (o_step op) cfg)
  | UPDATE => try_ (ops_update ops (o_offset op) (o_mask op) (o_value op))
  | DELAY => modify (ops_delay_us ops (o_value op))
  | RELEASE_DELAY => modify (ops_delay_us ops (cfg_reset_release_us cfg))
  | CLEAR_1200C => clear_1200c ops
  end.

Definition set_active (a : x1_step) (st : x1_state) : x1_state :=
  X1State (st_phase st) a (st_completed st) (st_error st).
Definition set_completed (st : x1_state) : x1_state :=
  X1State (st_phase st) (st_active st) (st_active st) (st_error st).

(** [state->active = s; ret = m; if (ret) goto fail; state->completed = state->active] *)
Definition stage (s : x1_step) (m : M S unit) : M (x1_state * S) unit := λ '(st, c),
  let st := set_active s st in
  match m c with
  | (Ok _, c) => (Ok tt, (set_completed st, c))
  | (Err e, c) => (Err e, (st, c))
  | (Fault, c) => (Fault, (st, c))
  end.

(** The body up to [fail:], over the whole table. *)
Definition startup_body (table : list operation) (cfg : option x1_config)
    (ops : option (x1_ops S)) : M (x1_state * S) unit :=
  do! stage X1_VALIDATE (lift (validate cfg ops)) in
  match cfg, ops with
  | Some cfg, Some ops =>
      do! stage X1_OWNER (try_ (ops_owner ops cfg)) in
      for_each table (λ op, stage (o_step op) (execute op cfg ops))
  | _, _ => fault
  end.

(** The C function also returns -EINVAL for a NULL state. *)
Definition x1_startup_run (cfg : option x1_config) (ops : option (x1_ops S))
    : M (x1_state * S) unit := λ '(st, c),
  if decide (st_phase st ≠ X1_NEW) then
    (Err (if decide (st_phase st = X1_RUNNING) then -EBUSY else -EALREADY), (st, c))
  else
    match startup_body operations cfg ops (X1State X1_RUNNING (st_active st) X1_NONE 0, c) with
    | (Ok _, (st, c)) =>
        (Ok tt, (X1State X1_COMPLETE X1_NONE (st_completed st) (st_error st), c))
    | (Err e, (st, c)) =>
        let e := if e <? 0 then e else -EPROTO in
        (Err e, (X1State X1_FAILED (st_active st) (st_completed st) e, c))
    | (Fault, s) => (Fault, s)
    end.
End startup.

(** ** What a run may do

    The callbacks with a record of their calls. *)

Inductive call :=
| COwner
| CStep (s : x1_step)
| CRead (off : Z)
| CUpdate (off mask v : Z)
| CDelay (us : Z).

Section traces.
Context (crc32c : Z → list Z → Z).
Context {S : Type}.
Implicit Types (ops : x1_ops S) (c : S * list call).

Definition logging (ops : x1_ops S) : x1_ops (S * list call) := {|
  ops_owner cfg c := let (r, s) := ops_owner ops cfg c.1 in (r, (s, c.2 ++ [COwner]));
  ops_step st cfg c := let (r, s) := ops_step ops st cfg c.1 in (r, (s, c.2 ++ [CStep st]));
  ops_read off c := let '(r, v, s) := ops_read ops off c.1 in (r, v, (s, c.2 ++ [CRead off]));
  ops_update o m v c := let (r, s) := ops_update ops o m v c.1 in
                        (r, (s, c.2 ++ [CUpdate o m v]));
  ops_delay_us us c := (ops_delay_us ops us c.1, c.2 ++ [CDelay us]);
|}.

(** Polling 0x1200c: at most [n + 1] reads, [n] clears of bit 31, short
    pauses, and the final settle delay. *)
Inductive clear_trace : nat → list call → Prop :=
| ct_read n : clear_trace n [CRead 0x1200c]
| ct_done n : clear_trace n [CRead 0x1200c; CDelay 10000]
| ct_fail n : clear_trace (Datatypes.S n) [CRead 0x1200c; CUpdate 0x1200c (1 << 31) 0]
| ct_again n t : clear_trace n t →
    clear_trace (Datatypes.S n) (CRead 0x1200c :: CUpdate 0x1200c (1 << 31) 0 :: CDelay 1 :: t).

(** The calls one table row may make, completed or not. *)
Definition op_trace (cfg : x1_config) (op : operation) (t : list call) : Prop :=
  match o_kind op with
  | PROVIDER => t = [CStep (o_step op)]
  | UPDATE => t = [CUpdate (o_offset op) (o_mask op) (o_value op)]
  | DELAY => t = [CDelay (o_value op)]
  | RELEASE_DELAY => t = [CDelay (cfg_reset_release_us cfg)]
  | CLEAR_1200C => clear_trace 11 t
  end.

Lemma clear_loop_trace ops n c :
  match clear_1200c_loop (logging ops) n c with
  | (Ok _, c') => ∃ t, c'.2 = c.2 ++ t ∧ clear_trace n t ∧ clear_trace n (t ++ [CDelay 10000])
  | (Err _, c') => ∃ t, c'.2 = c.2 ++ t ∧ clear_trace n t
  | (Fault, _) => False
  end.
Proof.
  revert c. induction n as [|n IH]; intros [s l]; simpl; unfold bind, call_read; simpl;
    destruct (ops_read ops 0x1200c s) as [[r v] s1]; destruct (r =? 0).
  2, 4: exists [CRead 0x1200c]; split; [done|constructor].
  all: destruct (negb _) eqn:Ev; unfold ret, fail; simpl.
  1, 3: exists [CRead 0x1200c]; split_and!; [done|constructor|constructor].
  { exists [CRead 0x1200c]. split; [done|constructor]. }
  unfold try_. simpl. destruct (ops_update ops 0x1200c (1 << 31) 0 s1) as [r2 s2].
  destruct (r2 =? 0); unfold modify; simpl.
  2: { eexists. rewrite <- app_assoc. split; [done|constructor]. }
  specialize (IH (ops_delay_us ops 1 s2,
    ((l ++ [CRead 0x1200c]) ++ [CUpdate 0x1200c (1 << 31) 0]) ++ [CDelay 1])).
  destruct (clear_1200c_loop _ _ _) as [[[]|e|] c']; [| |done]; simpl in IH.
  - destruct IH as (t&Ht&H1&H2). rewrite Ht, <- !app_assoc. eexists.
    split_and!; [done|by constructor|by constructor].
  - destruct IH as (t&Ht&H1). rewrite Ht, <- !app_assoc. eexists.
    split; [done|by constructor].
Qed.

Lemma clear_trace_settled ops n c :
  match (do! clear_1200c_loop (logging ops) n in
         modify (ops_delay_us (logging ops) 10000)) c with
  | (Fault, _) => False
  | (_, c') => ∃ t, c'.2 = c.2 ++ t ∧ clear_trace n t
  end.
Proof.
  unfold bind. pose proof (clear_loop_trace ops n c) as H.
  destruct (clear_1200c_loop _ n _) as [[[]|e|] [s1 l1]]; [| |done]; cbn [snd] in *.
  - destruct H as (t&->&_&Ht). exists (t ++ [CDelay 10000]). simpl.
    by rewrite <- app_assoc.
  - destruct H as (t&->&Ht). eauto.
Qed.

Lemma execute_trace ops op cfg c :
  match execute op cfg (logging ops) c with
  | (Fault, _) => False
  | (_, c') => ∃ t, c'.2 = c.2 ++ t ∧ op_trace cfg op t
  end.
Proof.
  unfold execute, op_trace. destruct (o_kind op).
  - unfold try_. simpl. destruct (ops_step ops (o_step op) cfg c.1) as [r s1].
    destruct (r =? 0); eauto.
  - unfold try_. simpl. destruct (ops_update ops _ _ _ c.1) as [r s1].
    destruct (r =? 0); eauto.
  - unfold modify. simpl. eauto.
  - unfold modify. simpl. eauto.
  - apply clear_trace_settled.
Qed.
(** The table loop: every row before the stopping point ran, in order. *)
Lemma rows_trace ops cfg table st c :
  match for_each table (λ op, stage (o_step op) (execute op cfg (logging ops))) (st, c) with
  | (Ok _, (st', c')) => ∃ ts, Forall2 (op_trace cfg) table ts ∧ c'.2 = c.2 ++ concat ts ∧
      st_phase st' = st_phase st ∧ st_error st' = st_error st ∧
      st_completed st' = default (st_completed st) (last (o_step <$> table))
  | (Err _, (st', c')) => ∃ ran op rest ts t, table = ran ++ op :: rest ∧
      Forall2 (op_trace cfg) ran ts ∧ op_trace cfg op t ∧ c'.2 = c.2 ++ concat ts ++ t ∧
      st_active st' = o_step op ∧
      st_completed st' = default (st_completed st) (last (o_step <$> ran))
  | (Fault, _) => False
  end.
Proof.
  revert st c. induction table as [|op table IH]; intros st c; cbn [for_each].
  { exists []. simpl. by rewrite app_nil_r. }
  unfold bind, stage at 1. pose proof (execute_trace ops op cfg c) as He.
  destruct (execute op cfg (logging ops) c) as [[[]|e|] c1]; [| |done].
  2: { destruct He as (t&Hc&Ht). exists [], op, table, [], t. by repeat split. }
  destruct He as (t&Hc&Ht).
  specialize (IH (set_completed (set_active (o_step op) st)) c1).
  destruct (for_each table _ _) as [[[]|e|] [st' c']]; [| |done].
  - destruct IH as (ts&Hf&Hc'&Hp&Hr&Hd). exists (t :: ts). split_and!; try done.
    + by constructor.
    + rewrite Hc', Hc. cbn [concat]. by rewrite <- app_assoc.
    + rewrite Hd, fmap_cons, last_cons. by destruct (last _).
  - destruct IH as (ran&op'&rest&ts&t'&->&Hf&Ht'&Hc'&Ha&Hd).
    exists (op :: ran), op', rest, (t :: ts), t'. split_and!; try done.
    + by constructor.
    + rewrite Hc', Hc. cbn [concat]. by rewrite <- !app_assoc.
    + rewrite Hd, fmap_cons, last_cons. by destruct (last _).
Qed.

Lemma validate_total {T} cfg (ops : x1_ops T) :
  0 ≤ cfg_firmware_size cfg ≤ Z.of_nat (length (default [] (cfg_firmware cfg))) →
  validate crc32c (Some cfg) (Some ops) ≠ Fault.
Proof.
  intros Hf. unfold validate. destruct (_ || _); [done|].
  rewrite x1_drom_build_ok by (unfold QCOM_USB4_DROM_SIZE; simpl; lia). cbn [rbind].
  destruct (cfg_firmware cfg) as [data|]; [by apply validate_never_faults|].
  by unfold qcom_usb4_fw_validate.
Qed.

(** Where a run that did not complete stopped: before any callback, in the
    ownership claim, or in a row of the table after all rows before it. *)
Definition stopped (cfg : x1_config) (st : x1_state) (l : list call) : Prop :=
  (st_active st = X1_VALIDATE ∧ st_completed st = X1_NONE ∧ l = []) ∨
  (st_active st = X1_OWNER ∧ st_completed st = X1_VALIDATE ∧ l = [COwner]) ∨
  ∃ ran op rest ts t, operations = ran ++ op :: rest ∧ st_active st = o_step op ∧
    st_completed st = default X1_OWNER (last (o_step <$> ran)) ∧
    Forall2 (op_trace cfg) ran ts ∧ op_trace cfg op t ∧ l = COwner :: concat ts ++ t.

Lemma startup_progress_aux cfg ops a d0 e0 s :
  0 ≤ cfg_firmware_size cfg ≤ Z.of_nat (length (default [] (cfg_firmware cfg))) →
  match x1_startup_run crc32c (Some cfg) (Some (logging ops))
          (X1State X1_NEW a d0 e0, (s, [])) with
  | (Ok _, (st, c)) => st = X1State X1_COMPLETE X1_NONE X1_PRESET 0 ∧
      ∃ ts, Forall2 (op_trace cfg) operations ts ∧ c.2 = COwner :: concat ts
  | (Err e, (st, c)) => e < 0 ∧ st_phase st = X1_FAILED ∧ st_error st = e ∧
      stopped cfg st c.2
  | (Fault, _) => False
  end.
Proof.
  intros Hf. unfold x1_startup_run. rewrite decide_False by (simpl; by intros []).
  unfold startup_body. unfold bind at 1, stage at 1, lift.
  destruct (validate _ _ _) as [[]|e|] eqn:Ev.
  3: { by destruct (validate_total cfg (logging ops) Hf). }
  2: { simpl. split_and!; [by destruct (Z.ltb_spec e 0)|done..|by left]. }
  unfold bind, stage at 1. unfold try_. cbn [logging ops_owner fst snd].
  destruct (ops_owner ops cfg s) as [r s1]. destruct (r =? 0).
  2: { simpl. split_and!; [by destruct (Z.ltb_spec r 0)|done..|right; by left]. }
  match goal with |- context [for_each operations _ (?st0, ?c0)] =>
    pose proof (rows_trace ops cfg operations st0 c0) as Hr;
    destruct (for_each operations _ (st0, c0)) as [[[]|e|] [st' c']] end; [| |done].
  - destruct Hr as (ts&Ht&Hc&_&He&Hd). rewrite Hd, He. split; [done|]. by exists ts.
  - destruct Hr as (ran&op&rest&ts&t&Hop&Ht&Ht'&Hc&Ha&Hd).
    split_and!; [by destruct (Z.ltb_spec e 0)|done..|].
    right. right. exists ran, op, rest, ts, t. by split_and!.
Qed.
End traces.

Section claims.
Context (crc32c : Z → list Z → Z).
Context {S : Type}.
Implicit Types ops : x1_ops S.


(** An attempt is never repeated: whatever a first run from a fresh
    state ended with, a second run on the same state, with any configuration
    and callbacks, returns -EALREADY and touches neither state nor hardware. *)
Theorem startup_once cfg ops a d0 e0 s cfg' (ops' : option (x1_ops (S * list call))) :
  0 ≤ cfg_firmware_size cfg ≤ Z.of_nat (length (default [] (cfg_firmware cfg))) →
  let after := (x1_startup_run crc32c (Some cfg) (Some (logging ops))
                  (X1State X1_NEW a d0 e0, (s, []))).2 in
  x1_startup_run crc32c cfg' ops' after = (Err (-EALREADY), after).
Proof.
  intros Hf after. pose proof (startup_progress_aux crc32c cfg ops a d0 e0 s Hf) as H.
  subst after. destruct (x1_startup_run _ _ _ _) as [[[]|e|] [st c]]; [| |done]; cbn [snd].
  - destruct H as [-> _]. done.
  - destruct H as (_&Hp&_). unfold x1_startup_run.
    rewrite decide_True by (by rewrite Hp). by rewrite decide_False by (by rewrite Hp).
Qed.
End claims.

(** ** Witnesses *)

(** A board on which every callback succeeds and bit 31 of 0x1200c is clear. *)
Definition calm_ops : x1_ops unit := {|
  ops_owner _ s := (0, s); ops_step _ _ s := (0, s); ops_read _ s := (0, 0, s);
  ops_update _ _ _ s := (0, s); ops_delay_us _ s := s |}.

(** The same, except that the TCSR route provider fails with -ENODEV. *)
Definition no_route_ops : x1_ops unit := {|
  ops_owner _ s := (0, s);
  ops_step st _ s := (if decide (st = X1_TCSR_ROUTE) then -ENODEV else 0, s);
  ops_read _ s := (0, 0, s); ops_update _ _ _ s := (0, s); ops_delay_us _ s := s |}.

Definition sample_config : x1_config := {|
  cfg_firmware := Some (enc_image sample_image); cfg_firmware_size := 28;
  cfg_serial := 7; cfg_router := 0; cfg_phy_rx_eq := 0x6f; cfg_mcu_preset := 0x0c63;
  cfg_reset_release_us := 100 |}.

Definition fresh_state : x1_state := X1State X1_NEW X1_NONE X1_NONE 0.


Lemma startup_once_witness :
  let after := (x1_startup_run castagnoli (Some sample_config) (Some (logging calm_ops))
                  (fresh_state, (tt, []))).2 in
  x1_startup_run castagnoli (Some sample_config) (Some (logging calm_ops)) after =
    (Err (-EALREADY), after).
Proof.
  apply (startup_once castagnoli sample_config calm_ops X1_NONE X1_NONE 0 tt).
  vm_compute. split; discriminate.
Defined.
