(* ===== verification/Typec.v ===== *)
(** * Type-C mailbox words (snapshot/module/qcom-usb4-typec.c, .h) and the PAN
    planner (snapshot/kernel/drivers/soc/qcom/yoga_pan_packet.h,
    yoga_pan_plan.h, yoga_link_plan.h)

    The encoders write through [u32 *command]: the state is the pointed-to
    word, [None] for a NULL pointer. *)

From S2P Require Import Prelude.

(** ** The mailbox encoder *)

Definition QCOM_USB4_TUNNEL_TBT : Z := 0.
Definition QCOM_USB4_TUNNEL_USB4 : Z := 1.
Definition QCOM_USB4_PAN_NORMAL : Z := 0.
Definition QCOM_USB4_PAN_REVERSE : Z := 1.
Definition QCOM_USB4_PAN_PASSIVE : Z := 0.
Definition QCOM_USB4_PAN_RETIMER : Z := 1.

(** Every field is a [u8]. *)
Record qcom_usb4_pan_connect := PanConnect {
  pc_mode : Z;
  pc_orientation : Z;
  pc_cable_type : Z;
  pc_cable_speed : Z;
  pc_rounded : Z;
  pc_board_retimer : Z;
}.

Definition cable_class (pan : qcom_usb4_pan_connect) : Z :=
  if pc_cable_type pan =? QCOM_USB4_PAN_RETIMER then
    if (pc_mode pan =? QCOM_USB4_TUNNEL_TBT) && (pc_rounded pan =? 0) then 3 else 1
  else 0.

Definition connect_word (pan : qcom_usb4_pan_connect) : Z :=
  1 .| (pc_mode pan << 8) .| (pc_orientation pan << 9) .| (pc_board_retimer pan << 10) .|
  (cable_class pan << 11) .| (pc_cable_speed pan << 13).

Definition qcom_usb4_typec_connect_command (pan : option qcom_usb4_pan_connect)
    : M (option Z) unit := λ command,
  match pan, command with
  | Some pan, Some _ =>
      if (QCOM_USB4_TUNNEL_USB4 <? pc_mode pan) ||
         (QCOM_USB4_PAN_REVERSE <? pc_orientation pan) ||
         (1 <? pc_rounded pan) || (1 <? pc_board_retimer pan) then (Err (-EINVAL), command) else
      if (QCOM_USB4_PAN_RETIMER <? pc_cable_type pan) || (1 <? pc_cable_speed pan)
      then (Err (-EOPNOTSUPP), command)
      else (Ok tt, Some (connect_word pan))
  | _, _ => (Err (-EINVAL), command)
  end.

(** [enum typec_orientation] *)
Inductive typec_orientation :=
| TYPEC_ORIENTATION_NONE | TYPEC_ORIENTATION_NORMAL | TYPEC_ORIENTATION_REVERSE.

(** The two [switch (orientation)] statements. *)
Definition pan_orientation (o : typec_orientation) : res Z :=
  match o with
  | TYPEC_ORIENTATION_NORMAL => Ok QCOM_USB4_PAN_NORMAL
  | TYPEC_ORIENTATION_REVERSE => Ok QCOM_USB4_PAN_REVERSE
  | TYPEC_ORIENTATION_NONE => Err (-EINVAL)
  end.

(** The constants and field macros of linux/usb/pd.h and typec_tbt.h, which
    the encoder only uses. *)
Class TypecAbi := {
  EUDO_USB_MODE_MASK : Z;
  EUDO_USB_MODE_SHIFT : Z;
  EUDO_USB_MODE_USB4 : Z;
  EUDO_CABLE_SPEED_MASK : Z;
  EUDO_CABLE_SPEED_SHIFT : Z;
  EUDO_CABLE_SPEED_USB4_GEN2 : Z;
  EUDO_CABLE_SPEED_USB4_GEN3 : Z;
  EUDO_CABLE_TYPE_MASK : Z;
  EUDO_CABLE_TYPE_SHIFT : Z;
  TBT_MODE : Z;
  TBT_ADAPTER : Z → Z;
  TBT_ADAPTER_TBT3 : Z;
  TBT_CABLE_OPTICAL : Z;
  TBT_CABLE_LINK_TRAINING : Z;
  TBT_CABLE_ACTIVE_PASSIVE : Z;
  TBT_CABLE_RETIMER : Z;
  TBT_ENTER_MODE_ACTIVE_CABLE : Z;
  TBT_CABLE_SPEED : Z → Z;
  TBT_CABLE_USB3_PASSIVE : Z;
  TBT_CABLE_10_AND_20GBPS : Z;
  TBT_CABLE_ROUNDED_SUPPORT : Z → Z;
}.

(** What the C text itself requires of them (case labels are distinct) and the
    documented widths: a cable type of two bits, a rounded-support field that
    fits its byte. *)
Class TypecAbiOk `(TypecAbi) : Prop := {
  eudo_speeds_distinct : EUDO_CABLE_SPEED_USB4_GEN2 ≠ EUDO_CABLE_SPEED_USB4_GEN3;
  tbt_speeds_distinct : TBT_CABLE_USB3_PASSIVE ≠ TBT_CABLE_10_AND_20GBPS;
  eudo_cable_type_width : EUDO_CABLE_TYPE_MASK = 3 << EUDO_CABLE_TYPE_SHIFT;
  eudo_cable_type_shift : 0 ≤ EUDO_CABLE_TYPE_SHIFT < 32;
  tbt_rounded_width x : 0 ≤ x < 2 ^ 32 → 0 ≤ TBT_CABLE_ROUNDED_SUPPORT x < 256;
}.

Record enter_usb_data := { eudo : Z; active_link_training : bool }.
Record typec_thunderbolt_data := { device_mode : Z; cable_mode : Z; enter_vdo : Z }.

Section adapters.
Context `{TypecAbi}.

Definition eudo_speed (eudo : Z) : res Z :=
  let speed := (eudo .& EUDO_CABLE_SPEED_MASK) >> EUDO_CABLE_SPEED_SHIFT in
  if speed =? EUDO_CABLE_SPEED_USB4_GEN2 then Ok 0
  else if speed =? EUDO_CABLE_SPEED_USB4_GEN3 then Ok 1
  else Err (-EOPNOTSUPP).

Definition qcom_usb4_typec_usb4_command (data : option enter_usb_data)
    (orientation : typec_orientation) (board_retimer : Z) : M (option Z) unit := λ command,
  match data, command with
  | Some data, Some _ =>
      (if (eudo data .& EUDO_USB_MODE_MASK) >> EUDO_USB_MODE_SHIFT !=? EUDO_USB_MODE_USB4 then fail (-EINVAL) else
       if active_link_training data then fail (-EOPNOTSUPP) else
       let! o := lift (pan_orientation orientation) in
       let! speed := lift (eudo_speed (eudo data)) in
       qcom_usb4_typec_connect_command (Some {|
         pc_mode := QCOM_USB4_TUNNEL_USB4; pc_orientation := o;
         pc_cable_type := u8 ((eudo data .& EUDO_CABLE_TYPE_MASK) >> EUDO_CABLE_TYPE_SHIFT);
         pc_cable_speed := speed;
         pc_rounded := 0; pc_board_retimer := board_retimer |})) command
  | _, _ => (Err (-EINVAL), command)
  end.

Definition tbt_speed (speed : Z) : res Z :=
  if speed =? TBT_CABLE_USB3_PASSIVE then Ok 0
  else if speed =? TBT_CABLE_10_AND_20GBPS then Ok 1
  else Err (-EOPNOTSUPP).

(** Everything between the NULL checks and the final [connect_command]. *)
Definition tbt_fields (data : typec_thunderbolt_data) (orientation : typec_orientation)
    (board_retimer : Z) : res qcom_usb4_pan_connect :=
  let cable := cable_mode data in
  let enter := enter_vdo data in
  if negb (tst (device_mode data) TBT_MODE) || negb (tst cable TBT_MODE) ||
     negb (tst enter TBT_MODE) then Err (-EINVAL) else
  if TBT_ADAPTER (device_mode data) !=? TBT_ADAPTER_TBT3 then Err (-EOPNOTSUPP) else
  if tst (cable .| enter) (TBT_CABLE_OPTICAL .| TBT_CABLE_LINK_TRAINING)
  then Err (-EOPNOTSUPP) else
  let active := tst cable TBT_CABLE_ACTIVE_PASSIVE in
  let retimer := tst cable TBT_CABLE_RETIMER in
  if negb (eqb active (tst enter TBT_ENTER_MODE_ACTIVE_CABLE)) ||
     negb (eqb retimer (tst enter TBT_CABLE_RETIMER)) || (negb active && retimer)
  then Err (-EINVAL) else
  if active && negb retimer then Err (-EOPNOTSUPP) else
  let speed := TBT_CABLE_SPEED cable in
  if speed !=? TBT_CABLE_SPEED enter then Err (-EINVAL) else
  let? cable_speed := tbt_speed speed in
  let rounded := TBT_CABLE_ROUNDED_SUPPORT cable in
  if rounded !=? TBT_CABLE_ROUNDED_SUPPORT enter then Err (-EINVAL) else
  if 1 <? rounded then Err (-EOPNOTSUPP) else
  let? o := pan_orientation orientation in
  Ok {| pc_mode := QCOM_USB4_TUNNEL_TBT; pc_orientation := o;
        pc_cable_type := if retimer then QCOM_USB4_PAN_RETIMER else QCOM_USB4_PAN_PASSIVE;
        pc_cable_speed := cable_speed; pc_rounded := u8 rounded;
        pc_board_retimer := board_retimer |}.

Definition qcom_usb4_typec_tbt_command (data : option typec_thunderbolt_data)
    (orientation : typec_orientation) (board_retimer : Z) : M (option Z) unit := λ command,
  match data, command with
  | Some data, Some _ =>
      (let! pan := lift (tbt_fields data orientation board_retimer) in
       qcom_usb4_typec_connect_command (Some pan)) command
  | _, _ => (Err (-EINVAL), command)
  end.
End adapters.

Definition qcom_usb4_typec_preset_command (preset : Z) : M (option Z) unit := λ command,
  match command with
  | None => (Err (-EINVAL), command)
  | Some _ => if 0xffff <? preset then (Err (-EINVAL), command)
              else (Ok tt, Some (u32 (2 .| (preset << 8))))
  end.

Definition qcom_usb4_typec_disconnect_command : M (option Z) unit := λ command,
  match command with None => (Err (-EINVAL), command) | Some _ => (Ok tt, Some 6) end.

(** ** The PAN notification and the port plan *)

Record yoga_pan := YogaPan {
  yp_port : Z;
  yp_orientation_raw : Z;
  yp_mux_raw : Z;
  yp_ext : list Z;
  yp_vid : Z;
  yp_svid_header : Z;
  yp_svid_payload : Z;
}.

(** [p] is the buffer, [len] the length the caller claims for it. *)
Definition yoga_pan_decode (p : option (list Z)) (len : Z) : res yoga_pan :=
  match p with
  | None => Err (-EINVAL)
  | Some p =>
      if len !=? 32 then Err (-EINVAL) else
      let? owner := get_unaligned_le32 p 0 in
      if owner !=? 32780 then Err (-EBADMSG) else
      let? type := get_unaligned_le32 p 4 in
      if type !=? 2 then Err (-EBADMSG) else
      let? opcode := get_unaligned_le32 p 8 in
      if opcode .& 0xffff !=? 0x16 then Err (-EBADMSG) else
      let? port := byte_at p 12 in
      if 3 <=? port then Err (-EBADMSG) else
      let? orientation := byte_at p 13 in
      let? mux := byte_at p 14 in
      let? vid := get_unaligned_le16 p 16 in
      let? svid := get_unaligned_le16 p 18 in
      let? e0 := byte_at p 20 in let? e1 := byte_at p 21 in
      let? e2 := byte_at p 22 in let? e3 := byte_at p 23 in
      let? e4 := byte_at p 24 in let? e5 := byte_at p 25 in
      let? e6 := byte_at p 26 in let? e7 := byte_at p 27 in
      Ok (YogaPan port orientation mux [e0; e1; e2; e3; e4; e5; e6; e7] vid
            (opcode >> 16) svid)
  end.

(** [enum yoga_port_mode] *)
Definition YOGA_SAFE : Z := 0.
Definition YOGA_USB3 : Z := 1.
Definition YOGA_USB4 : Z := 2.
Definition YOGA_TBT : Z := 3.

Record yoga_port_plan := PortPlan {
  pp_orientation : Z;
  pp_mode : Z;
  pp_cable_type : Z;
  pp_speed : Z;
  pp_rounded : Z;
  pp_connect_word : Z;
}.

(** [*out] is only written on success, so the plan is the result. *)
Definition yoga_plan (e : yoga_pan) : res yoga_port_plan :=
  if (yp_port e !=? 0) || (2 <? yp_orientation_raw e) then Err (-EINVAL) else
  let ori := yp_orientation_raw e in
  if yp_mux_raw e =? 0 then Ok (PortPlan 2 YOGA_SAFE 0 0 0 0) else
  if yp_mux_raw e =? 1 then
    if ori =? 2 then Err (-EINVAL) else
    if (yp_svid_header e !=? 0xff00) || (yp_svid_payload e !=? 0xff00)
    then Err (-EOPNOTSUPP) else Ok (PortPlan ori YOGA_USB3 0 0 0 0)
  else if yp_mux_raw e =? 4 then
    if (ori =? 2) || (yp_svid_header e !=? yp_svid_payload e) then Err (-EINVAL) else
    let? mode := if yp_svid_header e =? 0xff00 then Ok YOGA_USB4
                 else if yp_svid_header e =? 0x8087 then Ok YOGA_TBT
                 else Err (-EOPNOTSUPP) in
    let? ext0 := byte_at (yp_ext e) 0 in
    if tst ext0 0x80 then Err (-EOPNOTSUPP) else
    if existsb (λ x, x !=? 0) (take 7 (drop 1 (yp_ext e))) then Err (-EOPNOTSUPP) else
    let speed := ext0 .& 7 in
    let cable_type := (ext0 >> 3) .& 7 in
    let rounded := (ext0 >> 6) .& 1 in
    if (1 <? speed) || (1 <? cable_type) then Err (-EOPNOTSUPP) else
    let class := if cable_type !=? 0 then
                   if (mode =? YOGA_TBT) && (rounded =? 0) then 3 else 1 else 0 in
    Ok (PortPlan ori mode cable_type speed rounded
          (1 .| (if mode =? YOGA_USB4 then 1 << 8 else 0) .| (ori << 9) .| (1 << 10) .|
           (class << 11) .| (speed << 13)))
  else Err (-EOPNOTSUPP).

(** [events] holds [count] entries; the last one for port 0 decides. *)
Definition yoga_link_word (events : list yoga_pan) (count processed : Z) : res Z :=
  if (count =? 0) || (32 <? count) || (count !=? processed) then Err (-EAGAIN) else
  if Z.of_nat (length events) <? count then Fault else
  match last (filter (λ e, yp_port e = 0) (take (Z.to_nat count) events)) with
  | None => Err (-ENOTCONN)
  | Some e =>
      let? ext0 := byte_at (yp_ext e) 0 in
      if (yp_vid e !=? 0x059f) || (ext0 !=? 1) then Err (-ENOTCONN) else
      match yoga_plan e with
      | Ok p =>
          if (pp_mode p !=? YOGA_USB4) ||
             ((pp_connect_word p !=? 0x2501) && (pp_connect_word p !=? 0x2701))
          then Err (-ENOTCONN) else Ok (pp_connect_word p)
      | Err _ => Err (-ENOTCONN)
      | Fault => Fault
      end
  end.

(** ** The encoder *)

(** The word read back field by field. *)
Definition decode_connect (w : Z) : qcom_usb4_pan_connect :=
  let class := (w >> 11) .& 3 in
  {| pc_mode := (w >> 8) .& 1; pc_orientation := (w >> 9) .& 1;
     pc_cable_type := class .& 1; pc_cable_speed := (w >> 13) .& 1;
     pc_rounded := if ((w >> 8) .& 1 =? 0) && (class =? 1) then 1 else 0;
     pc_board_retimer := (w >> 10) .& 1 |}.

(** Rounded support is only encoded for a Thunderbolt retimer cable. *)
Definition canonical (pan : qcom_usb4_pan_connect) : qcom_usb4_pan_connect :=
  {| pc_mode := pc_mode pan; pc_orientation := pc_orientation pan;
     pc_cable_type := pc_cable_type pan; pc_cable_speed := pc_cable_speed pan;
     pc_rounded := if (pc_mode pan =? QCOM_USB4_TUNNEL_TBT) &&
                      (pc_cable_type pan =? QCOM_USB4_PAN_RETIMER) then pc_rounded pan else 0;
     pc_board_retimer := pc_board_retimer pan |}.

Definition is_bit (x : Z) : Prop := x = 0 ∨ x = 1.
Definition pan_bits (pan : qcom_usb4_pan_connect) : Prop :=
  is_bit (pc_mode pan) ∧ is_bit (pc_orientation pan) ∧ is_bit (pc_cable_type pan) ∧
  is_bit (pc_cable_speed pan) ∧ is_bit (pc_rounded pan) ∧ is_bit (pc_board_retimer pan).
Definition pan_u8 (pan : qcom_usb4_pan_connect) : Prop :=
  is_byte (pc_mode pan) ∧ is_byte (pc_orientation pan) ∧ is_byte (pc_cable_type pan) ∧
  is_byte (pc_cable_speed pan) ∧ is_byte (pc_rounded pan) ∧ is_byte (pc_board_retimer pan).

Lemma connect_word_decodes pan :
  pan_bits pan → decode_connect (connect_word pan) = canonical pan ∧
    connect_word pan .& 0xff = 1 ∧ 0 ≤ connect_word pan < 2 ^ 14.
Proof.
  destruct pan as [m o t s r b]. unfold pan_bits, is_bit. simpl.
  intros ([->| ->]&[->| ->]&[->| ->]&[->| ->]&[->| ->]&[->| ->]); by vm_compute.
Qed.

Lemma connect_command_accepts pan c :
  pan_u8 pan →
  (pan_bits pan ∧
   qcom_usb4_typec_connect_command (Some pan) (Some c) = (Ok tt, Some (connect_word pan))) ∨
  (¬ pan_bits pan ∧ ∃ e, e ∈ [-EINVAL; -EOPNOTSUPP] ∧
   qcom_usb4_typec_connect_command (Some pan) (Some c) = (Err e, Some c)).
Proof.
  intros Hu. unfold qcom_usb4_typec_connect_command, pan_bits, pan_u8, is_bit, is_byte,
    QCOM_USB4_TUNNEL_USB4, QCOM_USB4_PAN_REVERSE, QCOM_USB4_PAN_RETIMER in *.
  if_case E1; [|if_case E2].
  1, 2: right; split; [lia|]; eexists; split; [|done]; set_solver.
  left. split; [lia|done].
Qed.

(** The connect encoder, for any [u8] fields: it accepts exactly the
    inputs whose six fields are all 0 or 1; the word it stores carries command
    code 1 in its low byte, fits 14 bits, and decodes back to the input (so two
    different accepted inputs never share a word, up to the rounded flag where
    the format has none).  On a refusal the caller's word is unchanged. *)
Theorem connect_command_roundtrip pan c :
  pan_u8 pan →
  match qcom_usb4_typec_connect_command (Some pan) (Some c) with
  | (Ok _, w) => pan_bits pan ∧ ∃ w', w = Some w' ∧ decode_connect w' = canonical pan ∧
      w' .& 0xff = 1 ∧ 0 ≤ w' < 2 ^ 14
  | (Err e, w) => ¬ pan_bits pan ∧ w = Some c ∧ e ∈ [-EINVAL; -EOPNOTSUPP]
  | (Fault, _) => False
  end.
Proof.
  intros Hu. destruct (connect_command_accepts pan c Hu) as [[Hb ->]|(Hb&e&He&->)].
  - split; [done|]. exists (connect_word pan). split; [done|].
    by apply connect_word_decodes.
  - done.
Qed.

Lemma connect_command_roundtrip_witness :
  decode_connect 0x2501 = PanConnect 1 0 0 1 0 1 ∧
  qcom_usb4_typec_connect_command (Some (PanConnect 1 0 0 1 0 1)) (Some 7) =
    (Ok tt, Some 0x2501).
Proof.
  pose proof (connect_command_roundtrip (PanConnect 1 0 0 1 0 1) 7
    ltac:(unfold pan_u8, is_byte; simpl; lia)) as H.
  assert (qcom_usb4_typec_connect_command (Some (PanConnect 1 0 0 1 0 1)) (Some 7) =
    (Ok tt, Some 0x2501)) as E by reflexivity.
  rewrite E in H. destruct H as (_&w&[= <-]&Hd&_). split; [exact Hd|exact E].
Defined.

Section adapter_claims.
Context `{Habi : TypecAbiOk}.

Definition eudo_field (x mask shift : Z) : Z := (x .& mask) >> shift.

Lemma cable_type_range x :
  0 ≤ x → 0 ≤ eudo_field x EUDO_CABLE_TYPE_MASK EUDO_CABLE_TYPE_SHIFT < 256.
Proof.
  intros Hx. unfold eudo_field. rewrite eudo_cable_type_width.
  pose proof eudo_cable_type_shift as Hs.
  rewrite Z.shiftr_land, Z.shiftr_shiftl_l, Z.sub_diag, Z.shiftl_0_r by lia.
  rewrite Z.land_comm. pose proof (land_lt 3 (x >> EUDO_CABLE_TYPE_SHIFT) 2). lia.
Qed.

(** The USB4 Enter-USB adapter stores a word exactly when the payload is
    USB4 mode without link training, the plug has an orientation, the speed
    is Gen2 or Gen3, the cable type is passive or retimer and the board flag is
    0/1; the word is the connect word of those very fields. *)
Theorem usb4_command_exact data ori br c w :
  0 ≤ eudo data < 2 ^ 32 → is_byte br →
  qcom_usb4_typec_usb4_command (Some data) ori br (Some c) = (Ok tt, Some w) ↔
  ∃ o sp, eudo_field (eudo data) EUDO_USB_MODE_MASK EUDO_USB_MODE_SHIFT =
      EUDO_USB_MODE_USB4 ∧ active_link_training data = false ∧
    pan_orientation ori = Ok o ∧
    eudo_field (eudo data) EUDO_CABLE_SPEED_MASK EUDO_CABLE_SPEED_SHIFT =
      (if sp =? 0 then EUDO_CABLE_SPEED_USB4_GEN2 else EUDO_CABLE_SPEED_USB4_GEN3) ∧
    is_bit sp ∧ is_bit br ∧
    let t := eudo_field (eudo data) EUDO_CABLE_TYPE_MASK EUDO_CABLE_TYPE_SHIFT in
    is_bit t ∧ w = connect_word (PanConnect QCOM_USB4_TUNNEL_USB4 o t sp 0 br).
Proof.
  intros He Hbr. pose proof (cable_type_range (eudo data) ltac:(lia)) as Ht.
  pose proof eudo_speeds_distinct as Hsd.
  unfold qcom_usb4_typec_usb4_command, eudo_speed. fold (eudo_field (eudo data)
    EUDO_USB_MODE_MASK EUDO_USB_MODE_SHIFT) (eudo_field (eudo data)
    EUDO_CABLE_SPEED_MASK EUDO_CABLE_SPEED_SHIFT) (eudo_field (eudo data)
    EUDO_CABLE_TYPE_MASK EUDO_CABLE_TYPE_SHIFT).
  set (t := eudo_field (eudo data) EUDO_CABLE_TYPE_MASK _) in *.
  set (sp := eudo_field (eudo data) EUDO_CABLE_SPEED_MASK _).
  rewrite (u8_small t) by lia.
  assert (∀ o s, is_bit o → is_bit s →
    qcom_usb4_typec_connect_command (Some (PanConnect 1 o t s 0 br)) (Some c) =
      (Ok tt, Some w) ↔
    is_bit br ∧ is_bit t ∧ w = connect_word (PanConnect 1 o t s 0 br)) as Hc.
  { intros o s Ho Hs. destruct (connect_command_accepts (PanConnect 1 o t s 0 br) c)
      as [[Hb ->]|(Hb&e&_&->)].
    - unfold pan_u8, is_bit, is_byte in *. simpl. lia.
    - unfold pan_bits in Hb. simpl in Hb. destruct_and! Hb. split; [|by intros (_&_&->)].
      by intros [= <-].
    - split; [done|]. intros (?&?&_). destruct Hb. unfold pan_bits, is_bit in *. simpl. lia. }
  split.
  - if_case Em; [done|]. if_case Ea; [done|]. unfold bind, lift.
    destruct (pan_orientation ori) as [o|?|] eqn:Eo; [|done|done].
    assert (is_bit o) as Ho by (unfold is_bit; destruct ori; simplify_eq/=; auto).
    intros E. exists o.
    destruct (Z.eqb_spec sp EUDO_CABLE_SPEED_USB4_GEN2);
      [exists 0|destruct (Z.eqb_spec sp EUDO_CABLE_SPEED_USB4_GEN3); [exists 1|done]].
    all: apply Hc in E as (?&?&?); [|done|by unfold is_bit; auto].
    all: split_and!; try done; [lia|unfold is_bit; auto].
  - intros (o&s&Em&Ea&Eo&Es&Hs&Hbr'&Ht'&Hw). rewrite Em, Z.eqb_refl, Ea. cbn [negb].
    unfold bind, lift. rewrite Eo.
    assert (is_bit o) as Ho by (unfold is_bit; destruct ori; simplify_eq/=; auto).
    fold sp in Es. rewrite Es. destruct Hs as [->| ->]; simpl.
    + rewrite Z.eqb_refl. apply Hc; unfold is_bit in *; auto.
    + destruct (Z.eqb_spec EUDO_CABLE_SPEED_USB4_GEN3 EUDO_CABLE_SPEED_USB4_GEN2); [done|].
      rewrite Z.eqb_refl. apply Hc; unfold is_bit in *; auto.
Qed.

(** A Thunderbolt payload whose cable and Enter-Mode words tell one story. *)
Definition tbt_consistent (data : typec_thunderbolt_data) (retimer : bool)
    (sp rounded : Z) : Prop :=
  let cable := cable_mode data in
  let enter := enter_vdo data in
  tst (device_mode data) TBT_MODE = true ∧ tst cable TBT_MODE = true ∧
  tst enter TBT_MODE = true ∧ TBT_ADAPTER (device_mode data) = TBT_ADAPTER_TBT3 ∧
  tst (cable .| enter) (TBT_CABLE_OPTICAL .| TBT_CABLE_LINK_TRAINING) = false ∧
  tst cable TBT_CABLE_ACTIVE_PASSIVE = retimer ∧
  tst enter TBT_ENTER_MODE_ACTIVE_CABLE = retimer ∧
  tst cable TBT_CABLE_RETIMER = retimer ∧ tst enter TBT_CABLE_RETIMER = retimer ∧
  TBT_CABLE_SPEED enter = TBT_CABLE_SPEED cable ∧
  TBT_CABLE_SPEED cable = (if sp =? 0 then TBT_CABLE_USB3_PASSIVE
                           else TBT_CABLE_10_AND_20GBPS) ∧
  TBT_CABLE_ROUNDED_SUPPORT cable = rounded ∧ TBT_CABLE_ROUNDED_SUPPORT enter = rounded.

Lemma tbt_fields_exact data ori br pan :
  0 ≤ cable_mode data < 2 ^ 32 →
  tbt_fields data ori br = Ok pan ↔
  ∃ o retimer sp rounded, tbt_consistent data retimer sp rounded ∧ is_bit sp ∧
    is_bit rounded ∧ pan_orientation ori = Ok o ∧
    pan = PanConnect QCOM_USB4_TUNNEL_TBT o (if retimer : bool then 1 else 0) sp rounded br.
Proof.
  intros Hc. pose proof (tbt_rounded_width (cable_mode data) Hc) as Hr.
  pose proof tbt_speeds_distinct as Hd. unfold tbt_fields, tbt_speed. split.
  - if_case E1; [done|]. if_case E2; [done|]. if_case E3; [done|]. if_case E4; [done|].
    if_case E5; [done|]. if_case E6; [done|].
    apply orb_false_iff in E1 as [E1 E1c]. apply orb_false_iff in E1 as [E1a E1b].
    apply orb_false_iff in E4 as [E4 E4c]. apply orb_false_iff in E4 as [E4a E4b].
    apply negb_false_iff, eqb_prop in E4a, E4b. apply negb_false_iff in E1a, E1b, E1c.
    set (spd := TBT_CABLE_SPEED (cable_mode data)) in *.
    assert (∃ sp, is_bit sp ∧
      (if spd =? TBT_CABLE_USB3_PASSIVE then Ok 0
       else if spd =? TBT_CABLE_10_AND_20GBPS then Ok 1 else Err (-EOPNOTSUPP)) = Ok sp ∧
      spd = (if sp =? 0 then TBT_CABLE_USB3_PASSIVE else TBT_CABLE_10_AND_20GBPS)
      ∨ (if spd =? TBT_CABLE_USB3_PASSIVE then Ok 0
       else if spd =? TBT_CABLE_10_AND_20GBPS then Ok 1 else Err (-EOPNOTSUPP)) =
        Err (-EOPNOTSUPP)) as (sp&[(Hsp&->&Hsp')| ->]); [|cbn [rbind]|done].
    { unfold is_bit. destruct (Z.eqb_spec spd TBT_CABLE_USB3_PASSIVE);
        [exists 0; left; auto|].
      destruct (Z.eqb_spec spd TBT_CABLE_10_AND_20GBPS); [exists 1; left; auto|].
      exists 0. auto. }
    if_case E7; [done|]. if_case E8; [done|].
    destruct (pan_orientation ori) as [o|?|]; [|done|done]. cbn [rbind]. intros [= <-].
    exists o, (tst (cable_mode data) TBT_CABLE_RETIMER), sp,
      (TBT_CABLE_ROUNDED_SUPPORT (cable_mode data)).
    assert (tst (cable_mode data) TBT_CABLE_ACTIVE_PASSIVE =
      tst (cable_mode data) TBT_CABLE_RETIMER) as Har
      by (revert E4c E5; by destruct (tst (cable_mode data) TBT_CABLE_ACTIVE_PASSIVE),
            (tst (cable_mode data) TBT_CABLE_RETIMER)).
    rewrite u8_small by lia.
    split_and!; try done; [|unfold is_bit; lia]. unfold tbt_consistent. fold spd.
    split_and!; try done; try congruence; try lia.
  - intros (o&rt&sp&rd&(H1&H2&H3&H4&H5&H6&H7&H8&H9&H10&H11&H12&H13)&Hsp&Hrd&Ho&->).
    rewrite H1, H2, H3, H4, H5, H6, H7, H8, H9, H10, H12, H13, !Z.eqb_refl, Ho.
    assert (eqb rt rt = true) as -> by by destruct rt. cbn [negb orb].
    assert ((if TBT_CABLE_SPEED (cable_mode data) =? TBT_CABLE_USB3_PASSIVE then Ok 0
      else if TBT_CABLE_SPEED (cable_mode data) =? TBT_CABLE_10_AND_20GBPS then Ok 1
      else Err (-EOPNOTSUPP)) = Ok sp) as ->.
    { rewrite H11. destruct Hsp as [->| ->]; cbn; [by rewrite Z.eqb_refl|].
      destruct (Z.eqb_spec TBT_CABLE_10_AND_20GBPS TBT_CABLE_USB3_PASSIVE);
        [done|by rewrite Z.eqb_refl]. }
    cbn [rbind]. destruct Hrd as [->| ->]; by destruct rt.
Qed.

(** The Thunderbolt adapter stores a word exactly for a payload whose
    cable and Enter-Mode words agree on mode, activity, retimer, speed and
    rounded support, with no optical or link-training flag, an active cable
    only when it says it has a retimer, an orientation and 0/1 fields; the
    word is the connect word of those fields. *)
Theorem tbt_command_exact data ori br c w :
  0 ≤ cable_mode data < 2 ^ 32 → is_byte br →
  qcom_usb4_typec_tbt_command (Some data) ori br (Some c) = (Ok tt, Some w) ↔
  ∃ o retimer sp rounded, tbt_consistent data retimer sp rounded ∧ is_bit sp ∧
    is_bit rounded ∧ is_bit br ∧ pan_orientation ori = Ok o ∧
    w = connect_word
          (PanConnect QCOM_USB4_TUNNEL_TBT o (if retimer : bool then 1 else 0) sp rounded br).
Proof.
  intros Hcm Hbr. unfold qcom_usb4_typec_tbt_command, bind, lift.
  assert (∀ o rt sp rd, pan_orientation ori = Ok o → is_bit sp → is_bit rd →
    qcom_usb4_typec_connect_command (Some (PanConnect QCOM_USB4_TUNNEL_TBT o
      (if rt : bool then 1 else 0) sp rd br)) (Some c) = (Ok tt, Some w) ↔
    is_bit br ∧ w = connect_word (PanConnect QCOM_USB4_TUNNEL_TBT o
      (if rt : bool then 1 else 0) sp rd br)) as Hc.
  { intros o rt sp rd Ho Hsp Hrd.
    assert (is_bit o) as Hob by (unfold is_bit; destruct ori; simplify_eq/=; auto).
    destruct (connect_command_accepts (PanConnect QCOM_USB4_TUNNEL_TBT o
      (if rt then 1 else 0) sp rd br) c) as [[Hb ->]|(Hb&e&_&->)].
    - unfold pan_u8, is_bit, is_byte, QCOM_USB4_TUNNEL_TBT in *. simpl. destruct rt; lia.
    - unfold pan_bits in Hb. simpl in Hb. split; [intros [= <-]; by destruct_and! Hb|].
      by intros [_ ->].
    - split; [done|]. intros [Hb' _]. destruct Hb.
      unfold pan_bits, is_bit, QCOM_USB4_TUNNEL_TBT in *. simpl. destruct rt; lia. }
  split.
  - destruct (tbt_fields data ori br) as [pan|e|] eqn:Ef; [|done|done].
    apply tbt_fields_exact in Ef as (o&rt&sp&rd&Hk&Hsp&Hrd&Ho&->); [|done].
    intros E%Hc; [|done..]. destruct E as [Hb ->]. exists o, rt, sp, rd. by split_and!.
  - intros (o&rt&sp&rd&Hk&Hsp&Hrd&Hb&Ho&Hw).
    assert (tbt_fields data ori br = Ok (PanConnect QCOM_USB4_TUNNEL_TBT o
      (if rt then 1 else 0) sp rd br)) as -> by (apply tbt_fields_exact; eauto 10).
    by apply Hc.
Qed.
End adapter_claims.

(** The values the Linux headers give the constants. *)
#[export] Instance linux_abi : TypecAbi := {|
  EUDO_USB_MODE_MASK := 7 << 28; EUDO_USB_MODE_SHIFT := 28; EUDO_USB_MODE_USB4 := 2;
  EUDO_CABLE_SPEED_MASK := 7 << 21; EUDO_CABLE_SPEED_SHIFT := 21;
  EUDO_CABLE_SPEED_USB4_GEN2 := 1; EUDO_CABLE_SPEED_USB4_GEN3 := 2;
  EUDO_CABLE_TYPE_MASK := 3 << 19; EUDO_CABLE_TYPE_SHIFT := 19;
  TBT_MODE := BIT 0; TBT_ADAPTER x := (x >> 16) .& 1; TBT_ADAPTER_TBT3 := 1;
  TBT_CABLE_OPTICAL := BIT 21; TBT_CABLE_LINK_TRAINING := BIT 23;
  TBT_CABLE_ACTIVE_PASSIVE := BIT 25; TBT_CABLE_RETIMER := BIT 22;
  TBT_ENTER_MODE_ACTIVE_CABLE := BIT 24; TBT_CABLE_SPEED x := (x >> 16) .& 7;
  TBT_CABLE_USB3_PASSIVE := 2; TBT_CABLE_10_AND_20GBPS := 3;
  TBT_CABLE_ROUNDED_SUPPORT x := (x >> 19) .& 3 |}.

#[export] Instance linux_abi_ok : TypecAbiOk linux_abi.
Proof.
  constructor; try done. intros x Hx. cbn [TBT_CABLE_ROUNDED_SUPPORT linux_abi].
  rewrite Z.land_comm. pose proof (land_lt 3 (x >> 19) 2). lia.
Qed.

(** A passive Gen3 cable entering USB4. *)
Definition gen3_passive : enter_usb_data :=
  {| eudo := (2 << 28) .| (2 << 21); active_link_training := false |}.

Lemma usb4_command_exact_witness :
  qcom_usb4_typec_usb4_command (Some gen3_passive) TYPEC_ORIENTATION_REVERSE 1 (Some 0) =
    (Ok tt, Some 0x2701).
Proof.
  apply (usb4_command_exact gen3_passive TYPEC_ORIENTATION_REVERSE 1 0 0x2701).
  - vm_compute. split; [discriminate|reflexivity].
  - unfold is_byte. lia.
  - exists 1, 1. unfold is_bit. vm_compute. repeat split; auto.
Defined.

(** An active cable with a retimer, consistent in both words. *)
Definition tbt_retimer : typec_thunderbolt_data :=
  {| device_mode := 0x10001; cable_mode := 0x2430001; enter_vdo := 0x1430001 |}.

Lemma tbt_command_exact_witness :
  qcom_usb4_typec_tbt_command (Some tbt_retimer) TYPEC_ORIENTATION_NORMAL 1 (Some 0) =
    (Ok tt, Some 0x3c01).
Proof.
  apply (tbt_command_exact tbt_retimer TYPEC_ORIENTATION_NORMAL 1 0 0x3c01).
  - vm_compute. split; [discriminate|reflexivity].
  - unfold is_byte. lia.
  - exists 0, true, 1, 0. unfold is_bit, tbt_consistent. vm_compute. repeat split; auto.
Defined.

(** ** The PAN notification *)

Definition pan_wf (v : yoga_pan) : Prop :=
  0 ≤ yp_port v < 3 ∧ is_byte (yp_orientation_raw v) ∧ is_byte (yp_mux_raw v) ∧
  length (yp_ext v) = 8%nat ∧ Forall is_byte (yp_ext v) ∧
  0 ≤ yp_vid v < 2 ^ 16 ∧ 0 ≤ yp_svid_header v < 2 ^ 16 ∧ 0 ≤ yp_svid_payload v < 2 ^ 16.

(** The wire format: header (owner, type, opcode and SVID), the payload, the
    bytes the decoder ignores. *)
Definition pan_encode (v : yoga_pan) (pad : Z) (tail : list Z) : list Z :=
  le32 32780 ++ le32 2 ++ le32 (0x16 + yp_svid_header v * 2 ^ 16) ++
  [yp_port v; yp_orientation_raw v; yp_mux_raw v; pad] ++
  le16 (yp_vid v) ++ le16 (yp_svid_payload v) ++ yp_ext v ++ tail.

Lemma get_le16_le16 v r : 0 ≤ v < 2 ^ 16 → get_unaligned_le16 (le16 v ++ r) 0 = Ok v.
Proof.
  intros Hv. unfold get_unaligned_le16, le16, byte_at. simpl. rewrite !u8_idem. f_equal.
  unfold u8. pow_lits. Z.to_euclidean_division_equations. lia.
Qed.

Lemma get_le16_at l1 l2 i j :
  i = Z.of_nat (length l1) + j → 0 ≤ j →
  get_unaligned_le16 (l1 ++ l2) i = get_unaligned_le16 l2 j.
Proof.
  intros -> Hj. unfold get_unaligned_le16. rewrite <- !Z.add_assoc.
  by rewrite !byte_at_app_r by lia.
Qed.

Lemma opcode_split v : 0 ≤ v < 2 ^ 16 →
  (0x16 + v * 2 ^ 16) .& 0xffff = 0x16 ∧ (0x16 + v * 2 ^ 16) >> 16 = v.
Proof.
  intros Hv. change 0xffff with (Z.ones 16). rewrite Z.land_ones, Z.shiftr_div_pow2 by lia.
  pow_lits. split; Z.to_euclidean_division_equations; lia.
Qed.

(** Every notification in the wire format decodes to the fields it was
    built from, whatever its padding and trailing bytes. *)
Theorem pan_roundtrip v pad tail :
  pan_wf v → length tail = 4%nat →
  yoga_pan_decode (Some (pan_encode v pad tail)) 32 = Ok v.
Proof.
  intros (Hp&Ho&Hm&Hl&He&Hv&Hh&Hs) Ht. unfold yoga_pan_decode, pan_encode.
  destruct v as [port ori mux ext vid sh sp].
  cbn [yp_port yp_orientation_raw yp_mux_raw yp_ext yp_vid yp_svid_header yp_svid_payload] in *.
  change (32 !=? 32) with false. cbv iota.
  destruct ext as [|e0[|e1[|e2[|e3[|e4[|e5[|e6[|e7[|]]]]]]]]]; try done.
  destruct (opcode_split sh Hh) as [Hop Hsh].
  rewrite get_le32_le32 by lia. cbn [rbind]. rewrite Z.eqb_refl. cbn [negb].
  rewrite (get_le32_at (le32 32780) _ 4 0), get_le32_le32 by (rewrite ?length_le32; lia).
  cbn [rbind]. rewrite Z.eqb_refl. cbn [negb].
  rewrite (get_le32_at (le32 32780) _ 8 4), (get_le32_at (le32 2) _ 4 0), get_le32_le32
    by (rewrite ?length_le32; lia).
  cbn [rbind]. rewrite Hop, Z.eqb_refl. cbn [negb].
  set (hdr := le32 32780 ++ le32 2 ++ le32 (0x16 + sh * 2 ^ 16)).
  assert (length hdr = 12%nat) as Lh by done.
  match goal with |- context [byte_at ?b 12] =>
    assert (b = hdr ++ [port; ori; mux; pad] ++ le16 vid ++ le16 sp ++
      [e0; e1; e2; e3; e4; e5; e6; e7] ++ tail) as ->
      by (subst hdr; by rewrite <- !app_assoc) end.
  set (body := [port; ori; mux; pad] ++ le16 vid ++ le16 sp ++ _).
  assert (∀ j i, j = 12 + i → 0 ≤ i → byte_at (hdr ++ body) j = byte_at body i) as Hb
    by (intros j i -> Hi; by apply (byte_at_app_r hdr body i)).
  rewrite (Hb 12 0), (Hb 13 1), (Hb 14 2), (get_le16_at hdr body 16 4),
    (get_le16_at hdr body 18 6), (Hb 20 8), (Hb 21 9), (Hb 22 10), (Hb 23 11),
    (Hb 24 12), (Hb 25 13), (Hb 26 14), (Hb 27 15) by lia.
  rewrite !Forall_cons in He. unfold is_byte in *. destruct_and! He.
  change (byte_at body 0) with (Ok (u8 port)). cbn [rbind]. rewrite (u8_small port) by lia.
  destruct (Z.leb_spec 3 port); [lia|].
  subst body. rewrite (get_le16_at [port; ori; mux; pad] _ 4 0), get_le16_le16
    by (simpl; lia).
  rewrite (get_le16_at [port; ori; mux; pad] _ 6 2), (get_le16_at (le16 vid) _ 2 0),
    get_le16_le16 by (simpl; lia).
  unfold byte_at. simpl. by rewrite !u8_small, Hsh by lia.
Qed.

Lemma pan_decode_total p : length p = 32%nat → yoga_pan_decode (Some p) 32 ≠ Fault.
Proof.
  intros Hl. unfold yoga_pan_decode. change (32 !=? 32) with false. cbv iota.
  in_bounds. if_case E1; [done|]. if_case E2; [done|]. if_case E3; [done|].
  if_case E4; [done|]. done.
Qed.

(** The notification of the attached drive: port 0, reversed, USB4. *)
Definition lacie_event : yoga_pan :=
  YogaPan 0 1 4 [1; 0; 0; 0; 0; 0; 0; 0] 0x059f 0xff00 0xff00.

Lemma lacie_event_wf : pan_wf lacie_event.
Proof. unfold pan_wf, is_byte. simpl. repeat split; try lia; repeat constructor; lia. Qed.

Lemma pan_roundtrip_witness :
  yoga_pan_decode (Some (pan_encode lacie_event 0xaa [1; 2; 3; 4])) 32 = Ok lacie_event.
Proof. apply (pan_roundtrip lacie_event 0xaa [1; 2; 3; 4] lacie_event_wf eq_refl). Defined.

(** ** The plan and the encoder agree *)

Definition plan_pan (p : yoga_port_plan) : qcom_usb4_pan_connect :=
  {| pc_mode := if pp_mode p =? YOGA_USB4 then QCOM_USB4_TUNNEL_USB4 else QCOM_USB4_TUNNEL_TBT;
     pc_orientation := pp_orientation p; pc_cable_type := pp_cable_type p;
     pc_cable_speed := pp_speed p; pc_rounded := pp_rounded p; pc_board_retimer := 1 |}.

Lemma plan_tunnel e p :
  0 ≤ yp_orientation_raw e → yoga_plan e = Ok p → YOGA_USB4 ≤ pp_mode p →
  pan_bits (plan_pan p) ∧ pp_connect_word p = connect_word (plan_pan p) ∧
  yp_mux_raw e = 4 ∧ pp_orientation p = yp_orientation_raw e ∧ yp_port e = 0 ∧
  yp_svid_header e = yp_svid_payload e ∧
  pp_mode p = (if yp_svid_header e =? 0xff00 then YOGA_USB4 else YOGA_TBT).
Proof.
  intros Ho. unfold yoga_plan. if_case E1; [done|]. if_case E2; [intros [= <-]; done|].
  if_case E3. { if_case E4; [done|]. if_case E5; [done|]. intros [= <-]. done. }
  if_case E4; [|done]. if_case E5; [done|].
  assert (∃ mode, (if yp_svid_header e =? 0xff00 then Ok YOGA_USB4
    else if yp_svid_header e =? 0x8087 then Ok YOGA_TBT else Err (-EOPNOTSUPP)) = Ok mode ∧
    mode = (if yp_svid_header e =? 0xff00 then YOGA_USB4 else YOGA_TBT)
    ∨ (if yp_svid_header e =? 0xff00 then Ok YOGA_USB4
    else if yp_svid_header e =? 0x8087 then Ok YOGA_TBT else Err (-EOPNOTSUPP)) =
      Err (-EOPNOTSUPP)) as (mode&[[-> Hm]| ->]); [|cbn [rbind]|done].
  { destruct (yp_svid_header e =? 0xff00); [exists YOGA_USB4; by left|].
    destruct (yp_svid_header e =? 0x8087); [exists YOGA_TBT; by left|exists 0; by right]. }
  destruct (byte_at (yp_ext e) 0) as [x|?|]; [|done|done]. cbn [rbind].
  if_case E6; [done|]. if_case E7; [done|]. if_case E8; [done|]. intros [= <-] _.
  assert (0 ≤ x .& 7 ∧ 0 ≤ (x >> 3) .& 7 ∧ 0 ≤ (x >> 6) .& 1 < 2 ^ 1) as (B1&B2&B3).
  { split_and!; [apply Z.land_nonneg; lia..|rewrite Z.land_comm; by apply land_lt]. }
  generalize dependent (x .& 7). intros sp E8 B1.
  generalize dependent ((x >> 3) .& 7). intros ct E8 B2.
  generalize dependent ((x >> 6) .& 1). intros rd B3.
  assert (is_bit sp ∧ is_bit ct ∧ is_bit rd ∧ is_bit (yp_orientation_raw e)) as (Hs&Hc&Hr&Hoo)
    by (unfold is_bit; lia).
  unfold plan_pan, pan_bits, connect_word, cable_class. simpl.
  split_and!; try done; try lia.
  all: subst mode; destruct (yp_svid_header e =? 0xff00); simpl; unfold is_bit in *; auto.
  all: destruct Hs as [->| ->], Hc as [->| ->], Hr as [->| ->], Hoo as [-> | ->]; reflexivity.
Qed.

(** The observer's planner and the mailbox encoder agree: whenever the
    planner accepts a USB4 or Thunderbolt notification, the word it logs is the
    word [qcom_usb4_typec_connect_command] builds from the planned fields with
    the board retimer set. *)
Theorem plan_refines_encoder e p c :
  0 ≤ yp_orientation_raw e → yoga_plan e = Ok p → YOGA_USB4 ≤ pp_mode p →
  qcom_usb4_typec_connect_command (Some (plan_pan p)) (Some c) =
    (Ok tt, Some (pp_connect_word p)).
Proof.
  intros Ho Hp Hm. destruct (plan_tunnel e p Ho Hp Hm) as (Hb&->&_).
  destruct (connect_command_accepts (plan_pan p) c) as [[_ ->]|[? _]]; [|done..].
  unfold pan_bits, pan_u8, is_bit, is_byte in *. lia.
Qed.

Lemma plan_refines_encoder_witness :
  ∃ p, yoga_plan lacie_event = Ok p ∧
    qcom_usb4_typec_connect_command (Some (plan_pan p)) (Some 0) = (Ok tt, Some 0x2701).
Proof.
  eexists. split; [vm_compute; reflexivity|].
  refine (plan_refines_encoder lacie_event _ 0 _ _ _); vm_compute; [discriminate|reflexivity|discriminate].
Defined.

(** A link word is only ever produced from the newest port-0 event, when
    every buffered event was processed, and only for the one attached profile:
    vendor 0x059f, multiplexer 4, USB4 on both SVIDs, passive Gen3; it is then
    0x2501 or 0x2701 by orientation.  The call never reads past its events. *)
Theorem link_word_profile events processed :
  Forall pan_wf events →
  match yoga_link_word events (Z.of_nat (length events)) processed with
  | Ok w => processed = Z.of_nat (length events) ∧ (length events ≤ 32)%nat ∧ ∃ e,
      last (filter (λ e, yp_port e = 0) events) = Some e ∧
      yp_vid e = 0x059f ∧ yp_mux_raw e = 4 ∧ yp_svid_header e = 0xff00 ∧
      yp_svid_payload e = 0xff00 ∧ head (yp_ext e) = Some 1 ∧
      w = (if yp_orientation_raw e =? 0 then 0x2501 else 0x2701)
  | Err e => e = -EAGAIN ∨ e = -ENOTCONN
  | Fault => False
  end.
Proof.
  intros Hwf. unfold yoga_link_word. if_case E1; [by left|].
  destruct (Z.ltb_spec (Z.of_nat (length events)) (Z.of_nat (length events))); [lia|].
  rewrite Nat2Z.id, take_ge by lia.
  destruct (last (filter _ events)) as [e|] eqn:El; [|by right].
  assert (pan_wf e) as We.
  { rewrite Forall_forall in Hwf. apply Hwf. apply last_Some_elem_of in El.
    by apply list_elem_of_filter in El as [_ ?]. }
  destruct We as (_&Ho&_&Hx&Hxb&_).
  destruct (yp_ext e) as [|x xs] eqn:Ex; [done|]. apply Forall_cons in Hxb as [Hb _].
  unfold byte_at at 1. simpl. rewrite u8_small by done.
  if_case E2; [by right|]. destruct (yoga_plan e) as [p|?|] eqn:Ep; [|by right|].
  - if_case E3; [by right|]. split_and!; [lia..|]. exists e.
    destruct (plan_tunnel e p) as (Hbits&Hw&Hm&Hpo&_&Hs&Hmo);
      [apply Ho|done|unfold YOGA_USB4 in *; lia|].
    destruct (Z.eqb_spec (yp_svid_header e) 0xff00) as [Hh|]; [|unfold YOGA_USB4, YOGA_TBT in *; lia].
    rewrite <- Hs, Hh, Ex. split_and!; try done; try lia. { simpl. f_equal. lia. }
    destruct Hbits as (_&Hob&Hcb&Hsb&Hrb&_). unfold plan_pan in *. simpl in *.
    rewrite Hw in E3 |- *. unfold connect_word, cable_class in *. simpl in *.
    rewrite <- Hpo. rewrite Hmo in *. simpl in *.
    destruct Hob as [Ho'|Ho'], Hcb as [Hc'|Hc'], Hsb as [Hs'|Hs'];
      rewrite Ho', Hc', Hs' in E3 |- *; by vm_compute in E3 |- *.
  - revert Ep. unfold yoga_plan. rewrite Ex. unfold byte_at. simpl. by repeat case_match.
Qed.

Lemma link_word_profile_witness :
  yoga_link_word [lacie_event] 1 1 = Ok 0x2701 ∧
  ∃ e, last (filter (λ e, yp_port e = 0) [lacie_event]) = Some e ∧ yp_vid e = 0x059f.
Proof.
  split; [vm_compute; reflexivity|].
  pose proof (link_word_profile [lacie_event] 1 ltac:(constructor; [exact lacie_event_wf|constructor])) as H.
  change (yoga_link_word [lacie_event] (Z.of_nat (length [lacie_event])) 1)
    with (Ok 0x2701) in H. cbv iota in H.
  destruct H as (_&_&e&He&Hv&_). exists e. split; [exact He|exact Hv].
Defined.
