(* ===== verification/Packets.v ===== *)
(** * Control packets (snapshot/kernel/drivers/thunderbolt/x1-event-packet.h,
    x1-link-packet.h, x1-enum-packet.h, x1-diag-packet.h)

    A packet is a byte buffer of big-endian words closed by a CRC-32C.  Output
    buffers are passed in and returned; [None] is a NULL pointer.  The CRC
    routine is the kernel's and a parameter, as in Drom.v. *)

From S2P Require Import Prelude Drom.

(** The routing fields of an address word, shared by reads and writes. *)
Definition cfg_address (offset words port space seq : Z) : Z :=
  offset .| (words << 13) .| (port << 19) .| (space << 25) .| (seq << 27).

(** [~(0x3fU << 19)]: everything but the port number. *)
Definition port_mask : Z := 0x3f << 19.

Record x1_plug_event := PlugEvent { ev_port : Z; ev_unplug : bool }.

Record x1_read_spec := ReadSpec {
  rs_route : Z;
  rs_port : Z;
  rs_space : Z;
  rs_offset : Z;
  rs_words : Z;
  rs_seq : Z;
}.

(** [unsigned int] fields, so [offset + words] wraps at 32 bits. *)
Definition x1_read_address (s : x1_read_spec) : res Z :=
  if ((rs_route s !=? 0) && (rs_route s !=? 2)) || (7 <? rs_port s) || (3 <? rs_seq s) ||
     (rs_words s =? 0) || (8 <? rs_words s) || (255 <? rs_offset s) ||
     (256 <? u32 (rs_offset s + rs_words s)) ||
     ((rs_space s !=? 1) && (rs_space s !=? 2)) ||
     ((rs_space s =? 2) && ((rs_port s !=? 0) ||
        negb (((rs_offset s =? 0) && (rs_words s =? 5)) ||
              ((rs_offset s =? 5) && (rs_words s =? 4)) ||
              ((rs_route s =? 2) && ((rs_offset s =? 5) || (rs_offset s =? 6)) &&
               (rs_words s =? 1)) ||
              ((9 <=? rs_offset s) && (rs_words s <=? 2))))) ||
     ((rs_space s =? 1) && ((rs_port s =? 0) || ((rs_route s !=? 0) && (5 <? rs_port s))))
  then Err (-EINVAL)
  else Ok (cfg_address (rs_offset s) (rs_words s) (rs_port s) (rs_space s) (rs_seq s)).

Record x1_write_spec := WriteSpec {
  ws_port : Z;
  ws_space : Z;
  ws_offset : Z;
  ws_words : Z;
  ws_seq : Z;
  ws_before : list Z;
  ws_after : list Z;
  ws_route : Z;
}.

(** [header] is an array of five words. *)
Definition x1_root_plan (header : list Z) : res (list Z) :=
  let? h0 := word_of header 0 in let? h1 := word_of header 1 in
  let? h2 := word_of header 2 in let? h3 := word_of header 3 in
  let? h4 := word_of header 4 in
  if (h0 !=? 0x093805c6) || (h1 !=? 0x0101c11c) || (h2 !=? 0) || (h3 !=? 0) ||
     (h4 !=? 0x2000000a) then Err (-EPERM)
  else Ok [h1; h2; h3 .| 0x80000000; (h4 .& 0xffff0000) .| 0x10ff].

Definition x1_external_plan (header : list Z) : res (list Z) :=
  let? h0 := word_of header 0 in let? h1 := word_of header 1 in
  let? h2 := word_of header 2 in let? h3 := word_of header 3 in
  let? h4 := word_of header 4 in
  if (h0 !=? 0x113b059f) || (h1 !=? 0x00014120) || (h2 !=? 0) || (h3 !=? 0) ||
     (h4 !=? 0x2000000a) then Err (-EPERM)
  else Ok [h1 .| (1 << 20); 2; 0x80000000; 0x200010ff].

Definition x1_external_setup_plan (before : Z) : res Z :=
  if tst before 0x8700000f then Err (-EPERM)
  else Ok (before .& not32 0x00800000).

(** The guards of [x1_write_address], shape by shape. *)
Definition write_guard_external (s : x1_write_spec) : res unit :=
  if (ws_port s !=? 0) || (ws_space s !=? 2) then Err (-EPERM) else
  if (ws_offset s =? 1) && (ws_words s =? 4) then
    let? b0 := word_of (ws_before s) 0 in let? b1 := word_of (ws_before s) 1 in
    let? b2 := word_of (ws_before s) 2 in let? b3 := word_of (ws_before s) 3 in
    let? a0 := word_of (ws_after s) 0 in let? a1 := word_of (ws_after s) 1 in
    let? a2 := word_of (ws_after s) 2 in let? a3 := word_of (ws_after s) 3 in
    if (b0 !=? 0x00014120) || (b1 !=? 0) || (b2 !=? 0) || (b3 !=? 0x2000000a) ||
       (a0 !=? 0x00114120) || (a1 !=? 2) || (a2 !=? 0x80000000) || (a3 !=? 0x200010ff)
    then Err (-EPERM) else Ok tt
  else if (ws_offset s =? 5) && (ws_words s =? 1) then
    let? b0 := word_of (ws_before s) 0 in
    match x1_external_setup_plan b0 with
    | Ok expected =>
        let? a0 := word_of (ws_after s) 0 in
        if a0 !=? expected then Err (-EPERM) else Ok tt
    | Err _ => Err (-EPERM)
    | Fault => Fault
    end
  else Err (-EPERM).

Definition write_guard_root (s : x1_write_spec) : res unit :=
  if (ws_port s =? 0) && (ws_space s =? 2) && (ws_offset s =? 1) && (ws_words s =? 4) then
    let? b0 := word_of (ws_before s) 0 in let? b1 := word_of (ws_before s) 1 in
    let? b2 := word_of (ws_before s) 2 in let? b3 := word_of (ws_before s) 3 in
    let? a0 := word_of (ws_after s) 0 in let? a1 := word_of (ws_after s) 1 in
    let? a2 := word_of (ws_after s) 2 in let? a3 := word_of (ws_after s) 3 in
    if (b0 !=? 0x0101c11c) || (b1 !=? 0) || (b2 !=? 0) || (b3 !=? 0x2000000a) ||
       (a0 !=? b0) || (a1 !=? 0) || (a2 !=? 0x80000000) || (a3 !=? 0x200010ff)
    then Err (-EPERM) else Ok tt
  else if (ws_port s =? 2) && (ws_space s =? 1) && (ws_offset s =? 4) && (ws_words s =? 1) then
    let? b0 := word_of (ws_before s) 0 in
    let? a0 := word_of (ws_after s) 0 in
    if negb (tst b0 0x80000000) || (a0 !=? b0 .& 0x7fffffff) then Err (-EPERM) else Ok tt
  else Err (-EPERM).

Definition x1_write_address (s : x1_write_spec) : res Z :=
  if 3 <? ws_seq s then Err (-EINVAL) else
  let? _ := if ws_route s =? 2 then write_guard_external s
            else if ws_route s !=? 0 then Err (-EPERM)
            else write_guard_root s in
  Ok (cfg_address (ws_offset s) (ws_words s) (ws_port s) (ws_space s) (ws_seq s)).

Section packets.
Context (crc32c : Z → list Z → Z).

(** [~crc32c(~0U, wire, n)] *)
Definition wire_crc (wire : list Z) (n : Z) : Z := crc_field crc32c (take (Z.to_nat n) wire).

Definition x1_event_decode (wire : option (list Z)) (size sof eof : Z) : res x1_plug_event :=
  match wire with
  | None => Err (-EINVAL)
  | Some wire =>
      if (size !=? 16) || (sof !=? 0) || (eof !=? 5) then Err (-EPROTO) else
      let? crc := get_unaligned_be32 wire 12 in
      if crc !=? wire_crc wire 12 then Err (-EBADMSG) else
      let? w0 := get_unaligned_be32 wire 0 in
      if w0 !=? 0x80000000 then Err (-EPROTO) else
      let? w1 := get_unaligned_be32 wire 4 in
      if w1 !=? 0 then Err (-EPROTO) else
      let? data := get_unaligned_be32 wire 8 in
      if tst data 0x7fffffc0 || ((data .& 0x3f !=? 2) && (data .& 0x3f !=? 3))
      then Err (-EPROTO) else
      Ok (PlugEvent (data .& 0x3f) (tst data 0x80000000))
  end.

Definition x1_event_ack (wire : option (list Z)) (event : x1_plug_event) : res (list Z) :=
  match wire with
  | None => Err (-EINVAL)
  | Some wire =>
      if (ev_port event !=? 2) && (ev_port event !=? 3) then Err (-EINVAL) else
      let? wire := put_bytes wire 0 (be32 0) in
      let? wire := put_bytes wire 4 (be32 0) in
      let? wire := put_bytes wire 8
        (be32 ((if ev_unplug event then 0xc0000000 else 0x80000000) .|
               (ev_port event << 8) .| 7)) in
      put_bytes wire 12 (be32 (wire_crc wire 12))
  end.

Definition x1_read_request (wire : option (list Z)) (s : x1_read_spec) : res (list Z) :=
  let? address := x1_read_address s in
  match wire with
  | None => Err (-EINVAL)
  | Some wire =>
      let? wire := put_bytes wire 0 (be32 0) in
      let? wire := put_bytes wire 4 (be32 (rs_route s)) in
      let? wire := put_bytes wire 8 (be32 address) in
      put_bytes wire 12 (be32 (wire_crc wire 12))
  end.

(** The result is what was stored in [words[0 .. s->words - 1]]. *)
Definition x1_read_reply (wire : option (list Z)) (size sof eof : Z) (s : x1_read_spec)
    : res (list Z) :=
  let? address := x1_read_address s in
  match wire with
  | None => Err (-EINVAL)
  | Some wire =>
      if (size <? 16) || (48 <? size) || (sof !=? 0) || tst size 3 then Err (-EPROTO) else
      let? crc := get_unaligned_be32 wire (size - 4) in
      if crc !=? wire_crc wire (size - 4) then Err (-EBADMSG) else
      if eof =? 3 then if size !=? 16 then Err (-EPROTO) else Err (-ENOLINK) else
      if (eof !=? 1) || (size !=? 16 + 4 * rs_words s) then Err (-EPROTO) else
      let? w0 := get_unaligned_be32 wire 0 in
      if w0 !=? 0x80000000 then Err (-EPROTO) else
      let? w1 := get_unaligned_be32 wire 4 in
      if w1 !=? rs_route s then Err (-EPROTO) else
      let? got := get_unaligned_be32 wire 8 in
      if got .& not32 port_mask !=? address .& not32 port_mask then Err (-EPROTO) else
      rmap (λ i, get_unaligned_be32 wire (12 + 4 * Z.of_nat i))
        (seq 0 (Z.to_nat (rs_words s)))
  end.

Fixpoint put_words (ws : list Z) (i : Z) (wire : list Z) : res (list Z) :=
  match ws with
  | [] => Ok wire
  | w :: ws => let? wire := put_bytes wire i (be32 w) in put_words ws (i + 4) wire
  end.

Definition x1_write_request (wire : option (list Z)) (s : x1_write_spec) : res (list Z) :=
  let? address := x1_write_address s in
  match wire with
  | None => Err (-EINVAL)
  | Some wire =>
      let? wire := put_bytes wire 0 (be32 0) in
      let? wire := put_bytes wire 4 (be32 (ws_route s)) in
      let? wire := put_bytes wire 8 (be32 address) in
      let? after := rmap (word_of (ws_after s)) (seq 0 (Z.to_nat (ws_words s))) in
      let? wire := put_words after 12 wire in
      let size := 12 + 4 * ws_words s in
      put_bytes wire size (be32 (wire_crc wire size))
  end.

Definition x1_write_reply (wire : option (list Z)) (size sof eof : Z) (s : x1_write_spec)
    : res unit :=
  let? address := x1_write_address s in
  match wire with
  | None => Err (-EINVAL)
  | Some wire =>
      if (size !=? 16) || (sof !=? 0) then Err (-EPROTO) else
      let? crc := get_unaligned_be32 wire 12 in
      if crc !=? wire_crc wire 12 then Err (-EBADMSG) else
      if eof =? 3 then Err (-ENOLINK) else
      if eof !=? 2 then Err (-EPROTO) else
      let? w0 := get_unaligned_be32 wire 0 in
      if w0 !=? 0x80000000 then Err (-EPROTO) else
      let? w1 := get_unaligned_be32 wire 4 in
      if w1 !=? ws_route s then Err (-EPROTO) else
      let? got := get_unaligned_be32 wire 8 in
      if got .& not32 port_mask =? address .& not32 port_mask then Ok tt else Err (-EPROTO)
  end.

(** ** The earlier route-0 encoding (x1-diag-packet.h) *)

Definition X1_READ_WORDS : Z := 5.
Definition X1_REPLY_BYTES : Z := 16 + 4 * X1_READ_WORDS.

Definition x1_packet_request (wire : list Z) (seq : Z) : res (list Z) :=
  let? wire := put_bytes wire 0 (be32 0) in
  let? wire := put_bytes wire 4 (be32 0) in
  let? wire := put_bytes wire 8
    (be32 (u32 ((X1_READ_WORDS << 13) .| (2 << 25) .| (seq << 27)))) in
  put_bytes wire 12 (be32 (wire_crc wire 12)).

Definition x1_packet_reply (wire : list Z) (size sof eof sq : Z) : res (list Z) :=
  if (size !=? X1_REPLY_BYTES) || (sof !=? 0) || (eof !=? 1) || (1 <? sq)
  then Err (-EPROTO) else
  let? crc := get_unaligned_be32 wire (size - 4) in
  if crc !=? wire_crc wire (size - 4) then Err (-EBADMSG) else
  let? w0 := get_unaligned_be32 wire 0 in
  if w0 !=? 0x80000000 then Err (-EPROTO) else
  let? w1 := get_unaligned_be32 wire 4 in
  if w1 !=? 0 then Err (-EPROTO) else
  let? addr := get_unaligned_be32 wire 8 in
  if addr .& not32 port_mask !=? (X1_READ_WORDS << 13) .| (2 << 25) .| (sq << 27)
  then Err (-EPROTO) else
  rmap (λ i, get_unaligned_be32 wire (12 + 4 * Z.of_nat i)) (seq 0 (Z.to_nat X1_READ_WORDS)).
End packets.

(** ** Frames *)

Section frames.
Context (crc32c : Z → list Z → Z).

(** Words followed by their check word. *)
Definition sealed (ws : list Z) : list Z := ws ++ [crc_field crc32c (be_words ws)].

Lemma crc_field_range p : is_u32 (crc_field crc32c p).
Proof. apply not32_lt, u32_range. Qed.

Lemma sealed_u32 ws : Forall is_u32 ws → Forall is_u32 (sealed ws).
Proof.
  intros H. apply Forall_app. split; [done|]. constructor; [apply crc_field_range|constructor].
Qed.

Lemma wire_crc_words ws r n :
  n = 4 * Z.of_nat (length ws) →
  wire_crc crc32c (be_words ws ++ r) n = crc_field crc32c (be_words ws).
Proof.
  intros ->. unfold wire_crc. f_equal.
  replace (Z.to_nat (4 * Z.of_nat (length ws))) with (length (be_words ws))
    by (rewrite length_be_words; lia).
  apply take_app_length.
Qed.

(** A buffer of [n + 1] words passes the check exactly when it is sealed. *)
Lemma sealed_split wire n :
  Forall is_byte wire → length wire = (4 * (n + 1))%nat →
  ∃ ws c, length ws = n ∧ Forall is_u32 ws ∧ is_u32 c ∧ wire = be_words (ws ++ [c]) ∧
    get_unaligned_be32 wire (4 * Z.of_nat n) = Ok c ∧
    wire_crc crc32c wire (4 * Z.of_nat n) = crc_field crc32c (be_words ws) ∧
    (∀ (i : nat) w, ws !! i = Some w → get_unaligned_be32 wire (4 * Z.of_nat i) = Ok w).
Proof.
  intros Hb Hl. destruct (be_words_split wire (n + 1) Hb Hl) as (all&->&Hn&Hf).
  destruct (cut_at n all) as (ws&cs&->&Hw); [lia|].
  destruct cs as [|c [|]]; rewrite length_app in Hn; simpl in Hn; try lia.
  exists ws, c. pose proof Hf as Hf'. apply Forall_app in Hf as [Hf1 Hf2].
  apply Forall_cons in Hf2 as [Hc _].
  assert (∀ (i : nat) w, (ws ++ [c]) !! i = Some w →
    get_unaligned_be32 (be_words (ws ++ [c])) (4 * Z.of_nat i) = Ok w) as Hg.
  { intros i w Hi. rewrite <- (app_nil_r (be_words _)). by apply get_be_word. }
  split_and!; try done.
  - apply Hg. by rewrite lookup_app_r, Hw, Nat.sub_diag by lia.
  - rewrite be_words_app. apply wire_crc_words. lia.
  - intros i w Hi. apply Hg. by apply lookup_app_l_Some.
Qed.

Lemma put_header a b c buf :
  (12 ≤ length buf)%nat →
  (let? w := put_bytes buf 0 (be32 a) in
   let? w := put_bytes w 4 (be32 b) in
   put_bytes w 8 (be32 c)) = Ok (be_words [a; b; c] ++ drop 12 buf).
Proof.
  intros Hl. destruct (cut_at 12 buf Hl) as (h&r&->&Hh).
  destruct (cut_at 4 h) as (h1&h2&->&H1); [lia|].
  destruct (cut_at 4 h2) as (h2'&h3&->&H2); [rewrite length_app in Hh; lia|].
  rewrite !length_app in Hh. rewrite <- !app_assoc.
  rewrite put_bytes_front by done. cbn [rbind].
  rewrite (put_bytes_at (be32 a) h2' (h3 ++ r)) by done. cbn [rbind].
  replace (be32 a ++ be32 b ++ h3 ++ r) with ((be32 a ++ be32 b) ++ h3 ++ r)
    by by rewrite <- app_assoc.
  rewrite (put_bytes_at (be32 a ++ be32 b) h3 r); [|done|rewrite length_be32; lia].
  f_equal. rewrite !be_words_cons, <- !app_assoc. do 3 f_equal. simpl.
  replace (h1 ++ h2' ++ h3 ++ r) with ((h1 ++ h2' ++ h3) ++ r) by by rewrite <- !app_assoc.
  rewrite drop_app_length'; [done|]. rewrite !length_app. lia.
Qed.

Lemma put_crc ws buf n :
  n = 4 * Z.of_nat (length ws) → (4 ≤ length buf)%nat →
  put_bytes (be_words ws ++ buf) n (be32 (wire_crc crc32c (be_words ws ++ buf) n)) =
    Ok (be_words (sealed ws) ++ drop 4 buf).
Proof.
  intros Hn Hl. rewrite wire_crc_words by done.
  destruct (cut_at 4 buf Hl) as (h&r&->&Hh).
  rewrite (put_bytes_at (be_words ws) h r); [|rewrite length_be_words; lia|done].
  unfold sealed. rewrite be_words_app, <- app_assoc. do 2 f_equal.
  rewrite drop_app_length' by done. done.
Qed.

Lemma put_frame a b c buf :
  (16 ≤ length buf)%nat →
  (let? w := put_bytes buf 0 (be32 a) in
   let? w := put_bytes w 4 (be32 b) in
   let? w := put_bytes w 8 (be32 c) in
   put_bytes w 12 (be32 (wire_crc crc32c w 12))) =
  Ok (be_words (sealed [a; b; c]) ++ drop 16 buf).
Proof.
  intros Hl. pose proof (put_header a b c buf ltac:(lia)) as H.
  destruct (put_bytes buf 0 (be32 a)) as [w1|?|]; cbn [rbind] in *; [|done|done].
  destruct (put_bytes w1 4 (be32 b)) as [w2|?|]; cbn [rbind] in *; [|done|done].
  rewrite H. cbn [rbind]. rewrite put_crc by (rewrite ?length_drop; simpl; lia).
  by rewrite drop_drop.
Qed.

(** ** Plug events *)

Definition event_word (e : x1_plug_event) : Z :=
  ev_port e .| (if ev_unplug e then 0x80000000 else 0).

Lemma event_word_fields data :
  is_u32 data → tst data 0x7fffffc0 = false →
  data = (data .& 0x3f) .| (if tst data 0x80000000 then 0x80000000 else 0).
Proof.
  intros Hd H0. unfold tst in *. apply negb_false_iff, Z.eqb_eq in H0.
  assert (data = (data .& 0x3f) .| (data .& 0x80000000)) as E.
  { rewrite <- Z.land_lor_distr_r. change (0x3f .| 0x80000000) with (Z.lxor 0x7fffffc0 U32_MAX).
    apply Z.bits_inj'. intros k Hk. rewrite Z.land_spec, Z.lxor_spec, testbit_u32_max by done.
    assert (Z.testbit data k && Z.testbit 0x7fffffc0 k = false) as H1
      by (by rewrite <- Z.land_spec, H0, Z.bits_0).
    destruct (Z.ltb_spec k 32).
    - destruct (Z.testbit data k), (Z.testbit 0x7fffffc0 k); done.
    - rewrite (testbit_high data 32 k) by (done || lia). done. }
  assert (data .& 0x80000000 = 0 ∨ data .& 0x80000000 = 0x80000000) as Hb.
  { change 0x80000000 with (2 ^ 31). destruct (Z.testbit data 31) eqn:E31.
    - right. apply Z.bits_inj'. intros k Hk. rewrite Z.land_spec, Z.pow2_bits_eqb by lia.
      destruct (Z.eqb_spec 31 k); [subst; by rewrite E31|by rewrite andb_false_r].
    - left. apply Z.bits_inj'. intros k Hk. rewrite Z.land_spec, Z.pow2_bits_eqb, Z.bits_0 by lia.
      destruct (Z.eqb_spec 31 k); [subst; by rewrite E31|by rewrite andb_false_r]. }
  rewrite E at 1. f_equal. destruct Hb as [->| ->]; done.
Qed.

(** A plug notification is accepted exactly when its sixteen bytes are
    the sealed frame of a root-lane event (port 2 or 3, plug or unplug): no
    other word, no reserved bit and no bad check word gets through, and the
    event returned is the one on the wire. *)
Theorem event_decode_exact wire e :
  Forall is_byte wire → length wire = 16%nat →
  x1_event_decode crc32c (Some wire) 16 0 5 = Ok e ↔
  (ev_port e = 2 ∨ ev_port e = 3) ∧ wire = be_words (sealed [0x80000000; 0; event_word e]).
Proof.
  intros Hb Hl. destruct (sealed_split wire 3 Hb Hl) as (ws&c&Hn&Hf&Hc&Hw&Hgc&Hcrc&Hg).
  destruct ws as [|w0 [|w1 [|w2 [|]]]]; try done.
  pose proof Hf as Hf'. rewrite !Forall_cons in Hf'. destruct Hf' as (H0&H1&H2&_).
  unfold x1_event_decode. change (_ || _) with false at 1. cbv iota.
  change 12 with (4 * Z.of_nat 3). rewrite Hgc. cbn [rbind]. rewrite Hcrc.
  change (get_unaligned_be32 wire 0) with (get_unaligned_be32 wire (4 * Z.of_nat 0)).
  change (get_unaligned_be32 wire 4) with (get_unaligned_be32 wire (4 * Z.of_nat 1)).
  change (get_unaligned_be32 wire 8) with (get_unaligned_be32 wire (4 * Z.of_nat 2)).
  rewrite (Hg 0%nat w0), (Hg 1%nat w1), (Hg 2%nat w2) by done. cbn [rbind]. split.
  - if_case E1; [done|]. if_case E2; [done|]. if_case E3; [done|]. if_case E4; [done|].
    intros [= <-]. cbn [ev_port].
    assert (c = crc_field crc32c (be_words [w0; w1; w2])) as -> by lia.
    assert (w0 = 0x80000000) as -> by lia. assert (w1 = 0) as -> by lia.
    apply orb_false_iff in E4 as [E4 E5]. split; [lia|].
    rewrite Hw. unfold event_word. cbn [ev_port ev_unplug].
    by rewrite <- event_word_fields.
  - intros [Hp E]. rewrite Hw in E. apply be_words_inj in E.
    2: { apply Forall_app. split; [done|]. by constructor. }
    2: { apply sealed_u32. unfold event_word. repeat constructor; try lia.
         1, 2: destruct e as [p u]; simpl in *; destruct Hp as [->| ->], u; by vm_compute. }
    unfold sealed in E. cbn [app] in E. simplify_eq. rewrite Z.eqb_refl. cbn [negb].
    destruct e as [p u]. unfold event_word in *. cbn [ev_port ev_unplug] in *.
    destruct Hp as [->| ->], u; by vm_compute.
Qed.

(** ** Reads *)

Lemma testbit_port_mask k :
  0 ≤ k → Z.testbit port_mask k = (19 <=? k) && (k <? 25).
Proof.
  intros Hk. unfold port_mask. rewrite Z.shiftl_spec by done. change 0x3f with (Z.ones 6).
  destruct (Z.leb_spec 19 k); simpl.
  - rewrite Z.testbit_ones by lia.
    destruct (Z.ltb_spec (k - 19) 6), (Z.leb_spec 0 (k - 19)), (Z.ltb_spec k 25); try lia; done.
  - apply Z.testbit_neg_r. lia.
Qed.

(** Agreement off the port field: the port is whatever was received. *)
Lemma port_mask_agree got a :
  is_u32 got →
  got .& not32 port_mask = a .& not32 port_mask ↔
  ∃ p, 0 ≤ p < 64 ∧ got = (a .& not32 port_mask) .| (p << 19).
Proof.
  intros Hg. split.
  - intros E. exists ((got >> 19) .& 0x3f). split.
    { rewrite Z.land_comm. by apply (land_lt 0x3f _ 6). }
    rewrite <- E. apply Z.bits_inj'. intros k Hk. rewrite Z.lor_spec, Z.land_spec.
    unfold not32. rewrite Z.lxor_spec, testbit_u32_max, testbit_port_mask by done.
    rewrite Z.shiftl_spec by done. change 0x3f with (Z.ones 6).
    destruct (Z.ltb_spec k 19).
    + rewrite (Z.testbit_neg_r _ (k - 19)) by lia.
      destruct (Z.leb_spec 19 k), (Z.ltb_spec k 32); try lia. cbn.
      by rewrite andb_true_r, orb_false_r.
    + rewrite Z.land_spec, Z.shiftr_spec, Z.testbit_ones by lia.
      replace (k - 19 + 19) with k by lia.
      destruct (Z.leb_spec 19 k), (Z.leb_spec 0 (k - 19)), (Z.ltb_spec (k - 19) 6),
        (Z.ltb_spec k 25); try lia; cbn.
      * destruct (Z.ltb_spec k 32); [|lia]. cbn. by rewrite andb_false_r, andb_true_r.
      * rewrite andb_false_r, orb_false_r. destruct (Z.ltb_spec k 32); cbn.
        -- by rewrite andb_true_r.
        -- by rewrite (testbit_high got 32 k) by (done || lia).
  - intros (p&Hp&->). apply Z.bits_inj'. intros k Hk.
    rewrite !Z.land_spec, Z.lor_spec, Z.land_spec. unfold not32.
    rewrite Z.lxor_spec, testbit_u32_max, testbit_port_mask, Z.shiftl_spec by done.
    destruct (Z.leb_spec 19 k), (Z.ltb_spec k 25), (Z.ltb_spec k 32); try lia; cbn;
      rewrite ?andb_false_r, ?andb_true_r; try done.
    + rewrite (testbit_high p 6 (k - 19)) by lia. by rewrite orb_false_r.
    + rewrite (Z.testbit_neg_r p) by lia. by rewrite orb_false_r.
Qed.

Definition read_spec_u32 (s : x1_read_spec) : Prop :=
  is_u32 (rs_route s) ∧ is_u32 (rs_port s) ∧ is_u32 (rs_space s) ∧ is_u32 (rs_offset s) ∧
  is_u32 (rs_words s) ∧ is_u32 (rs_seq s).

(** The fields of an address word do not overlap. *)
Lemma cfg_address_sum offset words port space sq :
  0 ≤ offset < 2 ^ 13 → 0 ≤ words < 2 ^ 6 → 0 ≤ port < 2 ^ 6 → 0 ≤ space < 2 ^ 2 →
  cfg_address offset words port space sq =
  offset + words * 2 ^ 13 + port * 2 ^ 19 + space * 2 ^ 25 + sq * 2 ^ 27.
Proof.
  intros Ho Hw Hp Hs. unfold cfg_address.
  rewrite (Z.lor_comm offset), (lor_shiftl_add words offset 13) by lia.
  rewrite (Z.lor_comm _ (port << 19)), (lor_shiftl_add port _ 19) by lia.
  rewrite (Z.lor_comm _ (space << 25)), (lor_shiftl_add space _ 25) by lia.
  rewrite (Z.lor_comm _ (sq << 27)), (lor_shiftl_add sq _ 27) by lia. lia.
Qed.

Lemma read_address_ok s a :
  read_spec_u32 s → x1_read_address s = Ok a →
  is_u32 a ∧ 1 ≤ rs_words s ≤ 8 ∧ (rs_route s = 0 ∨ rs_route s = 2) ∧
  a = rs_offset s + rs_words s * 2 ^ 13 + rs_port s * 2 ^ 19 + rs_space s * 2 ^ 25 +
      rs_seq s * 2 ^ 27 ∧
  rs_offset s + rs_words s ≤ 256 ∧ rs_port s ≤ 7 ∧ rs_seq s ≤ 3 ∧
  (rs_space s = 1 ∨ rs_space s = 2).
Proof.
  unfold read_spec_u32, is_u32, x1_read_address. intros Hu. if_case E; [done|]. intros [= <-].
  assert (rs_words s ≤ 8 ∧ rs_words s ≠ 0 ∧ rs_offset s ≤ 255 ∧ rs_port s ≤ 7 ∧ rs_seq s ≤ 3 ∧
    (rs_space s = 1 ∨ rs_space s = 2) ∧ (rs_route s = 0 ∨ rs_route s = 2)) by lia.
  assert (u32 (rs_offset s + rs_words s) = rs_offset s + rs_words s) as Es
    by (apply u32_small; lia).
  rewrite Es in E. rewrite cfg_address_sum by lia. lia.
Qed.

Definition reply_words (s : x1_read_spec) (a p : Z) (ws : list Z) : list Z :=
  [0x80000000; rs_route s; (a .& not32 port_mask) .| (p << 19)] ++ ws.


(** ** Writes *)

(** The four configuration writes there are, in terms of the plans: the root
    router's and the external router's four-word configuration as planned from
    the header just read, the external setup word as planned, and clearing the
    lock bit of the root lane adapter. *)
Definition write_allowed (s : x1_write_spec) : Prop :=
  (ws_route s = 0 ∧ ws_port s = 0 ∧ ws_space s = 2 ∧ ws_offset s = 1 ∧ ws_words s = 4 ∧
     x1_root_plan (0x093805c6 :: ws_before s) = Ok (take 4 (ws_after s))) ∨
  (ws_route s = 2 ∧ ws_port s = 0 ∧ ws_space s = 2 ∧ ws_offset s = 1 ∧ ws_words s = 4 ∧
     x1_external_plan (0x113b059f :: ws_before s) = Ok (take 4 (ws_after s))) ∨
  (ws_route s = 2 ∧ ws_port s = 0 ∧ ws_space s = 2 ∧ ws_offset s = 5 ∧ ws_words s = 1 ∧
     ∃ b a, ws_before s !! 0%nat = Some b ∧ ws_after s !! 0%nat = Some a ∧
       x1_external_setup_plan b = Ok a) ∨
  (ws_route s = 0 ∧ ws_port s = 2 ∧ ws_space s = 1 ∧ ws_offset s = 4 ∧ ws_words s = 1 ∧
     ∃ b, ws_before s !! 0%nat = Some b ∧ ws_after s !! 0%nat = Some (b .& 0x7fffffff) ∧
       tst b 0x80000000 = true).

(** Take the first four words of an array, or find it too short. *)
Ltac four_words l :=
  let a := fresh "a" in let b := fresh "b" in let c := fresh "c" in
  let d := fresh "d" in let r := fresh "r" in
  destruct l as [|a [|b [|c [|d r]]]].

(** No other shape of the allow-list fits. *)
Ltac external_no H :=
  destruct H as [(?&_)|[(_&_&_&?&_)|[(_&_&_&_&_&?&?&?&?&?)|(?&_)]]]; simplify_eq/=; congruence.
Ltac root_no H :=
  destruct H as [(_&?&_)|[(?&_)|[(?&_)|(_&_&_&_&_&?&?&?&?)]]]; simplify_eq/=; congruence.

Lemma guard_external_ok s :
  ws_route s = 2 → write_guard_external s = Ok tt ↔ write_allowed s.
Proof.
  intros Hr. unfold write_guard_external, write_allowed, x1_external_plan, word_of. rewrite Hr.
  if_case E1; [split; [done|lia]|]. if_case E2.
  - assert (ws_words s = 4 ∧ ws_offset s = 1 ∧ ws_port s = 0 ∧ ws_space s = 2)
      as (->& ->& ->& ->) by lia.
    four_words (ws_before s); try (split; [done|]; intros [(?&_)|[(_&_&_&_&_&?)|[(_&_&_&?&_)|(?&_)]]]; done).
    four_words (ws_after s); simpl;
      try (split; [done|]; intros [(?&_)|[(_&_&_&_&_&?)|[(_&_&_&?&_)|(?&_)]]]; (done || by repeat case_match)).
    match goal with |- context [(if ?b then Err _ else Ok tt) = Ok tt] => destruct b eqn:E3 end.
    { split; [done|]. intros [(?&_)|[(_&_&_&_&_&?)|[(_&_&_&?&_)|(?&_)]]]; [done| |done..].
      repeat case_match; simplify_eq. by assert (a = 0x14120) as -> by lia. }
    split; [intros _|done]. right. left. split_and!; try done.
    assert (a = 0x14120 ∧ b = 0 ∧ c = 0 ∧ d = 0x2000000a ∧ a0 = 0x114120 ∧ b0 = 2 ∧
      c0 = 0x80000000 ∧ d0 = 0x200010ff) as (->&->&->&->&->&->&->&->) by lia. done.
  - if_case E3; [|split; [done|lia]].
    assert (ws_words s = 1 ∧ ws_offset s = 5 ∧ ws_port s = 0 ∧ ws_space s = 2)
      as (->& ->& ->& ->) by lia.
    destruct (ws_before s) as [|b bs]; [split; [done|]; intros Hd; external_no Hd|]. simpl.
    destruct (x1_external_setup_plan b) as [x|e|] eqn:Ex;
      [|split; [done|]; intros Hd; external_no Hd..].
    destruct (ws_after s) as [|a as_]; [split; [done|]; intros Hd; external_no Hd|]. simpl.
    destruct (Z.eqb_spec a x) as [->|Hax]; simpl; split; try done.
    + intros _. right. right. left. split_and!; try done. by exists b, x.
    + intros Hd. external_no Hd.
Qed.

Lemma guard_root_ok s :
  ws_route s = 0 → write_guard_root s = Ok tt ↔ write_allowed s.
Proof.
  intros Hr. unfold write_guard_root, write_allowed, x1_root_plan, word_of. rewrite Hr.
  if_case E1.
  - assert (ws_words s = 4 ∧ ws_offset s = 1 ∧ ws_port s = 0 ∧ ws_space s = 2)
      as (->& ->& ->& ->) by lia.
    four_words (ws_before s); try (split; [done|]; intros [(_&_&_&_&_&?)|[(?&_)|[(?&_)|(_&?&_)]]]; done).
    four_words (ws_after s); simpl;
      try (split; [done|]; intros [(_&_&_&_&_&?)|[(?&_)|[(?&_)|(_&?&_)]]]; (done || by repeat case_match)).
    match goal with |- context [(if ?b then Err _ else Ok tt) = Ok tt] => destruct b eqn:E3 end.
    { split; [done|]. intros [(_&_&_&_&_&?)|[(?&_)|[(?&_)|(_&?&_)]]]; [|done..].
      repeat case_match; simplify_eq.
      by assert (a0 = 0x101c11c ∧ b0 = 0 ∧ c = 0 ∧ d = 0x2000000a) as (->&->&->&->) by lia. }
    split; [intros _|done]. left. split_and!; try done.
    assert (a = 0x101c11c ∧ b = 0 ∧ c = 0 ∧ d = 0x2000000a ∧ a0 = 0x101c11c ∧ b0 = 0 ∧
      c0 = 0x80000000 ∧ d0 = 0x200010ff) as (->&->&->&->&->&->&->&->) by lia. done.
  - if_case E3; [|split; [done|lia]].
    assert (ws_words s = 1 ∧ ws_offset s = 4 ∧ ws_port s = 2 ∧ ws_space s = 1)
      as (->& ->& ->& ->) by lia.
    destruct (ws_before s) as [|b bs]; [split; [done|]; intros Hd; root_no Hd|].
    destruct (ws_after s) as [|a as_]; [split; [done|]; intros Hd; root_no Hd|]. simpl.
    destruct (tst b 0x80000000) eqn:Eb; simpl; [|split; [done|]; intros Hd; root_no Hd].
    destruct (Z.eqb_spec a (b .& 0x7fffffff)) as [->|Hax]; simpl; split; try done.
    + intros _. right. right. right. split_and!; try done. by exists b.
    + intros Hd. root_no Hd.
Qed.

(** C33. A configuration write gets an address exactly when it is one of the
    four allowed shapes with the planned contents: no other register, route,
    length or value can be encoded. *)
Theorem write_allow_list s x :
  x1_write_address s = Ok x ↔
  ws_seq s ≤ 3 ∧ write_allowed s ∧
  x = cfg_address (ws_offset s) (ws_words s) (ws_port s) (ws_space s) (ws_seq s).
Proof.
  unfold x1_write_address. destruct (Z.ltb_spec 3 (ws_seq s)); [split; [done|lia]|].
  destruct (Z.eqb_spec (ws_route s) 2) as [Hr|Hr].
  - pose proof (guard_external_ok s Hr) as Hg.
    destruct (write_guard_external s) as [[]|e|]; cbn [rbind].
    + assert (write_allowed s) by by apply Hg. split; [intros [= <-]; auto|by intros (_&_&->)].
    + split; [done|]. intros (_&Ha%Hg&_). done.
    + split; [done|]. intros (_&Ha%Hg&_). done.
  - destruct (Z.eqb_spec (ws_route s) 0) as [Hr0|Hr0]; cbn [negb rbind].
    2: { split; [done|]. intros (_&[(?&_)|[(?&_)|[(?&_)|(?&_)]]]&_); congruence. }
    pose proof (guard_root_ok s Hr0) as Hg.
    destruct (write_guard_root s) as [[]|e|]; cbn [rbind].
    + assert (write_allowed s) by by apply Hg. split; [intros [= <-]; auto|by intros (_&_&->)].
    + split; [done|]. intros (_&Ha%Hg&_). done.
    + split; [done|]. intros (_&Ha%Hg&_). done.
Qed.
End frames.

(** ** The two read encoders agree *)

Section diag.
Context (crc32c : Z → list Z → Z).

Definition root_header_spec (sq : Z) : x1_read_spec := ReadSpec 0 0 2 0 5 sq.

Lemma root_header_address sq :
  sq = 0 ∨ sq = 1 →
  x1_read_address (root_header_spec sq) =
    Ok ((X1_READ_WORDS << 13) .| (2 << 25) .| (sq << 27)) ∧
  u32 ((X1_READ_WORDS << 13) .| (2 << 25) .| (sq << 27)) =
    (X1_READ_WORDS << 13) .| (2 << 25) .| (sq << 27) ∧
  ((X1_READ_WORDS << 13) .| (2 << 25) .| (sq << 27)) .& not32 port_mask =
    (X1_READ_WORDS << 13) .| (2 << 25) .| (sq << 27).
Proof. by intros [->| ->]. Qed.

(** The first diagnostic's route-0 encoder and the general read encoder
    are the same protocol: for the five root header words, the request frames are
    equal bytes for any buffer, and on a completed reply of the right size both
    decoders return the same outcome, errors included. *)
Theorem diag_is_link_read sq wire :
  sq = 0 ∨ sq = 1 →
  x1_packet_request crc32c wire sq = x1_read_request crc32c (Some wire) (root_header_spec sq) ∧
  x1_packet_reply crc32c wire X1_REPLY_BYTES 0 1 sq =
    x1_read_reply crc32c (Some wire) X1_REPLY_BYTES 0 1 (root_header_spec sq).
Proof.
  intros Hsq. destruct (root_header_address sq Hsq) as (Ha&Hu&Hm). split.
  - unfold x1_packet_request, x1_read_request. rewrite Ha, Hu. done.
  - unfold x1_packet_reply, x1_read_reply. rewrite Ha. cbn [rbind rs_route rs_words root_header_spec].
    rewrite Hm. destruct Hsq as [->| ->]; done.
Qed.

(** A request is the sealed frame of its three words, and nothing after the
    frame changes. *)
Lemma read_request_wire s a buf :
  x1_read_address s = Ok a → (16 ≤ length buf)%nat →
  x1_read_request crc32c (Some buf) s =
    Ok (be_words (sealed crc32c [0; rs_route s; a]) ++ drop 16 buf).
Proof. intros Ha Hl. unfold x1_read_request. rewrite Ha. by apply put_frame. Qed.

Lemma event_ack_wire e buf :
  ev_port e = 2 ∨ ev_port e = 3 → (16 ≤ length buf)%nat →
  x1_event_ack crc32c (Some buf) e =
    Ok (be_words (sealed crc32c [0; 0;
      (if ev_unplug e then 0xc0000000 else 0x80000000) .| (ev_port e << 8) .| 7]) ++
      drop 16 buf).
Proof.
  intros Hp Hl. unfold x1_event_ack. if_case E; [lia|]. by apply put_frame.
Qed.

Lemma put_words_app ws pre buf :
  (4 * length ws ≤ length buf)%nat →
  put_words ws (4 * Z.of_nat (length pre)) (be_words pre ++ buf) =
    Ok (be_words (pre ++ ws) ++ drop (4 * length ws) buf).
Proof.
  revert pre buf. induction ws as [|w ws IH]; intros pre buf Hl.
  { simpl. by rewrite app_nil_r. }
  cbn [put_words length] in *. destruct (cut_at 4 buf) as (h&r&->&Hh); [lia|].
  rewrite (put_bytes_at (be_words pre) h r); [|rewrite length_be_words; lia|done].
  cbn [rbind]. replace (be_words pre ++ be32 w ++ r) with (be_words (pre ++ [w]) ++ r)
    by (rewrite be_words_app, <- app_assoc; done).
  replace (4 * Z.of_nat (length pre) + 4) with (4 * Z.of_nat (length (pre ++ [w])))
    by (rewrite length_app; simpl; lia).
  rewrite length_app in Hl.
  rewrite IH by lia. rewrite <- app_assoc. do 2 f_equal.
  replace (4 * S (length ws))%nat with (length h + 4 * length ws)%nat by lia.
  by rewrite <- drop_drop, drop_app_length.
Qed.

Lemma rmap_word_of l n : (n ≤ length l)%nat → rmap (word_of l) (seq 0 n) = Ok (take n l).
Proof.
  intros Hn. assert (∀ k (pre : list Z), length pre = k → ∀ suf, l = pre ++ suf → ∀ m,
    (m ≤ length suf)%nat → rmap (word_of l) (seq k m) = Ok (take m suf)) as H.
  { intros k pre Hk suf El m. revert k pre Hk suf El.
    induction m as [|m IH]; intros k pre Hk suf El Hm; [by destruct suf|].
    destruct suf as [|x suf]; [simpl in Hm; lia|]. cbn [seq rmap].
    unfold word_of at 1. rewrite El at 1.
    rewrite lookup_app_r, <- Hk, Nat.sub_diag by lia. cbn [lookup list_lookup rbind].
    rewrite (IH (S (length pre)) (pre ++ [x])) with (suf := suf); [done| | |].
    - rewrite length_app. simpl. lia.
    - by rewrite El, <- app_assoc.
    - simpl in Hm. lia. }
  by apply (H 0%nat []).
Qed.

Lemma write_request_bytes s x buf :
  x1_write_address s = Ok x → (Z.to_nat (ws_words s) ≤ length (ws_after s))%nat →
  0 ≤ ws_words s → (16 + 4 * Z.to_nat (ws_words s) ≤ length buf)%nat →
  x1_write_request crc32c (Some buf) s =
    Ok (be_words (sealed crc32c ([0; ws_route s; x] ++
          take (Z.to_nat (ws_words s)) (ws_after s))) ++
        drop (16 + 4 * Z.to_nat (ws_words s)) buf).
Proof.
  intros Hx Ha H0 Hl. unfold x1_write_request. rewrite Hx. cbn [rbind].
  pose proof (put_header 0 (ws_route s) x buf ltac:(lia)) as H.
  destruct (put_bytes buf 0 (be32 0)) as [w1|?|]; cbn [rbind] in *; [|done|done].
  destruct (put_bytes w1 4 _) as [w2|?|]; cbn [rbind] in *; [|done|done].
  rewrite H. cbn [rbind]. rewrite rmap_word_of by done. cbn [rbind].
  set (d := take (Z.to_nat (ws_words s)) (ws_after s)).
  assert (length d = Z.to_nat (ws_words s)) as Hd by (subst d; rewrite length_take; lia).
  rewrite (put_words_app d [0; ws_route s; x]) by (rewrite length_drop; lia). cbn [rbind].
  rewrite put_crc.
  - rewrite !drop_drop. do 3 f_equal. lia.
  - rewrite length_app, Hd. simpl. lia.
  - rewrite !length_drop. lia.
Qed.

(** What a configuration write puts on the wire, for every allowed
    write: request, route, address, exactly the planned data words and their
    check word, with the rest of the buffer untouched. *)
Theorem write_request_wire s x buf :
  x1_write_address s = Ok x → (Z.to_nat (ws_words s) ≤ length (ws_after s))%nat →
  0 ≤ ws_words s → (16 + 4 * Z.to_nat (ws_words s) ≤ length buf)%nat →
  x1_write_request crc32c (Some buf) s =
    Ok (be_words (sealed crc32c ([0; ws_route s; x] ++
          take (Z.to_nat (ws_words s)) (ws_after s))) ++
        drop (16 + 4 * Z.to_nat (ws_words s)) buf).
Proof. apply write_request_bytes. Qed.
End diag.

(** ** Witnesses, with the Castagnoli polynomial *)

Lemma event_decode_exact_witness :
  x1_event_decode castagnoli
    (Some (be_words (sealed castagnoli [0x80000000; 0; 0x80000002]))) 16 0 5 =
    Ok (PlugEvent 2 true).
Proof.
  apply (event_decode_exact castagnoli
    (be_words (sealed castagnoli [0x80000000; 0; 0x80000002])) (PlugEvent 2 true)).
  - apply be_words_bytes.
  - reflexivity.
  - split; [left; reflexivity|reflexivity].
Defined.

(** Lane adapter 3 of the root router, two words at offset 16. *)
Definition lane_spec : x1_read_spec := ReadSpec 0 3 1 16 2 1.


Lemma diag_is_link_read_witness :
  x1_packet_request castagnoli (replicate 16 0) 1 =
  x1_read_request castagnoli (Some (replicate 16 0)) (root_header_spec 1).
Proof. apply (diag_is_link_read castagnoli 1 (replicate 16 0)). right. reflexivity. Defined.

(** Unlocking the root lane adapter. *)
Definition unlock_spec : x1_write_spec := WriteSpec 2 1 4 1 0 [0x8000001f] [0x1f] 0.

Lemma write_request_wire_witness :
  x1_write_request castagnoli (Some (replicate 20 0)) unlock_spec =
    Ok (be_words (sealed castagnoli [0; 0; 0x2102004; 0x1f])).
Proof.
  rewrite (write_request_wire castagnoli unlock_spec 0x2102004 (replicate 20 0)).
  - reflexivity.
  - vm_compute. reflexivity.
  - simpl. lia.
  - simpl. lia.
  - simpl. lia.
Defined.
