(* ===== verification/Topology.v ===== *)
(** * Read-only topology inventory
    (snapshot/kernel/drivers/thunderbolt/x1-topology.h)

    The [read] and [report] callbacks are arbitrary; [read] returns an errno and
    the contents it left in the output array, as a function of the index. *)

From S2P Require Import Prelude Drom Packets.

Definition X1_TOPO_READ_LIMIT : Z := 128.
Definition X1_TOPO_CAP_LIMIT : nat := 16.

(** The counters of [struct x1_topology]. *)
Record x1_topology := Topo {
  t_reads : Z;
  t_adapters : Z;
  t_caps : Z;
  t_lanes : Z;
  t_pcie_up : Z;
  t_pcie_down : Z;
  t_skipped : Z;
}.

Definition inc_reads t := Topo (t_reads t + 1) (t_adapters t) (t_caps t) (t_lanes t)
  (t_pcie_up t) (t_pcie_down t) (t_skipped t).
Definition inc_adapters t := Topo (t_reads t) (t_adapters t + 1) (t_caps t) (t_lanes t)
  (t_pcie_up t) (t_pcie_down t) (t_skipped t).
Definition inc_caps t := Topo (t_reads t) (t_adapters t) (t_caps t + 1) (t_lanes t)
  (t_pcie_up t) (t_pcie_down t) (t_skipped t).
Definition inc_lanes t := Topo (t_reads t) (t_adapters t) (t_caps t) (t_lanes t + 1)
  (t_pcie_up t) (t_pcie_down t) (t_skipped t).
Definition inc_pcie_up t := Topo (t_reads t) (t_adapters t) (t_caps t) (t_lanes t)
  (t_pcie_up t + 1) (t_pcie_down t) (t_skipped t).
Definition inc_pcie_down t := Topo (t_reads t) (t_adapters t) (t_caps t) (t_lanes t)
  (t_pcie_up t) (t_pcie_down t + 1) (t_skipped t).
Definition inc_skipped t := Topo (t_reads t) (t_adapters t) (t_caps t) (t_lanes t)
  (t_pcie_up t) (t_pcie_down t) (t_skipped t + 1).

(** The adapter types whose protocol word is read. *)
Definition protocol_type (type : Z) : bool :=
  (type =? 0x100101) || (type =? 0x100102) || (type =? 0x200101) || (type =? 0x200102).

Section topology.
Context {S : Type}.
Context (read : x1_read_spec → S → Z * (nat → Z) * S).
Context (report : string → Z → Z → Z → list Z → S → S).
Abbreviation T := (M (x1_topology * S)).

Definition count (f : x1_topology → x1_topology) : T unit :=
  modify (λ '(t, s), (f t, s)).
Definition tell (what : string) (route port off : Z) (data : list Z) : T unit :=
  modify (λ '(t, s), (t, report what route port off data s)).

Definition x1_topo_read (route port space offset words : Z) : T (nat → Z) :=
  let spec := ReadSpec route port space offset words 0 in
  do! lift (x1_read_address spec) in
  let! st := get in
  if X1_TOPO_READ_LIMIT <=? t_reads st.1 then fail (-ENOSPC) else
  do! count inc_reads in
  λ '(t, s), let '(r, out, s) := read spec s in
             ((if r =? 0 then Ok out else Err r), (t, s)).

(** One capability: what [x1_topo_caps] does for [cap], and the next one. *)
Definition topo_cap (route port cap type : Z) : T (option Z) :=
  let space := if port !=? 0 then 1 else 2 in
  let words := if port !=? 0 then 1 else 2 in
  let! data := x1_topo_read route port space cap words in
  let id := (data 0%nat >> 8) .& 0xff in
  let next := data 0%nat .& 0xff in
  let header := if port !=? 0 then [data 0%nat] else [data 0%nat; data 1%nat] in
  if (port =? 0) && negb ((id =? 5) && (data 0%nat >> 24 =? 0)) && (id !=? 3) && (id !=? 5)
  then
    do! tell "UNKNOWN_ROUTER_CAP" route port cap header in
    do! count inc_skipped in
    ret None
  else
    let next := if (port =? 0) && (id =? 5) && (data 0%nat >> 24 =? 0)
                then data 1%nat .& 0xffff else next in
    do! count inc_caps in
    do! tell "CAP" route port cap header in
    if (port !=? 0) && (((id =? 1) && (type =? 1)) || ((id =? 4) && protocol_type type)) then
      let! cs1 := x1_topo_read route port 1 (cap + 1) 1 in
      do! tell (if id =? 1 then "PHY" else "PROTOCOL") route port cap
            [data 0%nat; cs1 0%nat] in
      do! (if id =? 1 then count inc_lanes else ret tt) in
      ret (Some next)
    else ret (Some next).

(** [seen] lists the capabilities already visited. *)
Fixpoint topo_caps_loop (n : nat) (seen : list Z) (route port cap type : Z) : T unit :=
  if cap =? 0 then ret tt else
  match n with
  | O => fail (-ELOOP)
  | Datatypes.S n =>
      if 254 <? cap then
        do! count inc_skipped in
        tell "CAP_OUTSIDE_WINDOW" route port cap [cap]
      else if (cap <? (if port !=? 0 then 8 else 9)) || bool_decide (cap ∈ seen)
      then fail (-EPROTO)
      else
        let! next := topo_cap route port cap type in
        match next with
        | None => ret tt
        | Some next => topo_caps_loop n (cap :: seen) route port next type
        end
  end.

Definition x1_topo_caps (route port cap type : Z) : T unit :=
  topo_caps_loop X1_TOPO_CAP_LIMIT [] route port cap type.

(** The first loop of [x1_topology_router]: [types[port]] and [cap_heads[port]]
    for the ports visited, in order. *)
Fixpoint topo_adapters (ports : list Z) (route : Z) : T (list (Z * Z * Z)) :=
  match ports with
  | [] => ret []
  | port :: ports =>
      let! data := x1_topo_read route port 1 0 8 in
      do! count inc_adapters in
      do! tell "ADAPTER" route port 0 (data <$> seq 0 8) in
      let type := data 2%nat .& 0xffffff in
      do! (if (type =? 0x100102) && (route !=? 0) then count inc_pcie_up else ret tt) in
      do! (if (type =? 0x100101) && (route =? 0) then count inc_pcie_down else ret tt) in
      let! rest := topo_adapters ports route in
      ret ((port, type, data 1%nat .& 0xff) :: rest)
  end.

(** The second loop, over what the first one collected. *)
Definition topo_walk (route : Z) (a : Z * Z * Z) : T unit :=
  let '(port, type, head) := a in
  if (route =? 0) && (port =? 1) then ret tt else
  if type =? 0 then ret tt else
  x1_topo_caps route port head type.

Definition topo_header_ok (route : Z) (h : list Z) : bool :=
  if route =? 0 then bool_decide (take 5 h = [0x093805c6; 0x0101c11c; 0; 0x80000000; 0x200010ff])
  else if route =? 2 then
    bool_decide (take 5 h = [0x113b059f; 0x00114120; 2; 0x80000000; 0x200010ff])
  else false.

(** [header] is an array of five words. *)
Definition x1_topology_router (route : Z) (header : option (list Z)) : T unit :=
  match header with
  | None => fail (-EINVAL)
  | Some h =>
      if negb (topo_header_ok route h) then fail (-EPERM) else
      let ports := if route !=? 0 then [1; 2; 3; 4; 5] else [1; 2; 3; 4; 5; 6; 7] in
      let! adapters := topo_adapters ports route in
      do! for_each adapters (topo_walk route) in
      let! data := x1_topo_read route 0 2 5 4 in
      do! tell "ROUTER" route 0 5 (data <$> seq 0 4) in
      let! h1 := lift (word_of h 1) in
      x1_topo_caps route 0 (h1 .& 0xff) 0
  end.
End topology.

(** ** For any callbacks

    No step of the inventory is undefined, and what both callbacks preserve,
    the inventory preserves. *)

Section generic.
Context {S : Type}.
Context (read : x1_read_spec → S → Z * (nat → Z) * S).
Context (report : string → Z → Z → Z → list Z → S → S).

Lemma safe_topo_read route port space off words :
  safe (x1_topo_read read route port space off words).
Proof.
  unfold x1_topo_read. safe_auto.
  - apply safe_lift. unfold x1_read_address. by case_match.
  - unfold count. safe_auto.
  - intros [t s]. cbn. destruct (read _ s) as [[r out] s']. by destruct (r =? 0).
Qed.
Lemma safe_count f : safe (count (S:=S) f).
Proof. done. Qed.
Lemma safe_tell what r p o d : safe (tell report what r p o d).
Proof. done. Qed.
Hint Resolve safe_topo_read safe_count safe_tell : km.

Lemma safe_caps route n seen port cap type :
  safe (topo_caps_loop read report n seen route port cap type).
Proof.
  revert seen cap. induction n as [|n IH]; intros seen cap; cbn [topo_caps_loop];
    unfold topo_cap; safe_auto.
Qed.

Lemma safe_adapters route ports : safe (topo_adapters read report ports route).
Proof. induction ports as [|p ports IH]; cbn [topo_adapters]; safe_auto. Qed.
Hint Resolve safe_caps safe_adapters : km.

Lemma header_ok_word route h : topo_header_ok route h = true → word_of h 1 ≠ Fault.
Proof.
  unfold topo_header_ok, word_of. destruct h as [|a [|b h]]; simpl; [| |done].
  all: destruct (route =? 0), (route =? 2); try done.
  all: intros H%bool_decide_eq_true; discriminate H.
Qed.

Lemma safe_topology_router route header : safe (x1_topology_router read report route header).
Proof.
  unfold x1_topology_router, x1_topo_caps. safe_auto.
  - apply safe_for_each. intros [[p ty] hd] _. unfold topo_walk, x1_topo_caps. safe_auto.
  - apply safe_lift. apply (header_ok_word route). by apply negb_false_iff.
Qed.

Context (J : S → Prop).
Hypothesis read_J : ∀ spec s, J s → J (read spec s).2.
Hypothesis report_J : ∀ w r p o d s, J s → J (report w r p o d s).

Definition preserves (w w' : x1_topology * S) : Prop := J w.2 → J w'.2.
#[local] Instance preserves_preorder : PreOrder preserves.
Proof. split; [by intros w ?|]. intros w1 w2 w3 H1 H2. unfold preserves in *. auto. Qed.

Lemma preserves_count f : keeps preserves (count (S:=S) f).
Proof. by intros [t s] ?. Qed.
Lemma preserves_tell what r p o d : keeps preserves (tell report what r p o d).
Proof. intros [t s] Hs. by apply report_J. Qed.
Lemma preserves_read route port space off words :
  keeps preserves (x1_topo_read read route port space off words).
Proof.
  unfold x1_topo_read. intros [t s]. unfold bind at 1, lift.
  destruct (x1_read_address _) as [a|e|]; [|by intros ?..].
  cbn. destruct (Z.leb_spec X1_TOPO_READ_LIMIT (t_reads t)); [by intros ?|]. cbn.
  pose proof (read_J (ReadSpec route port space off words 0) s) as Hr.
  by destruct (read _ s) as [[r out] s'].
Qed.
Hint Resolve preserves_count preserves_tell preserves_read : km.

Lemma preserves_caps route n seen port cap type :
  keeps preserves (topo_caps_loop read report n seen route port cap type).
Proof.
  revert seen cap. induction n as [|n IH]; intros seen cap; cbn [topo_caps_loop];
    unfold topo_cap; keeps_auto.
Qed.

Lemma preserves_adapters route ports : keeps preserves (topo_adapters read report ports route).
Proof. induction ports as [|p ports IH]; cbn [topo_adapters]; keeps_auto. Qed.
Hint Resolve preserves_caps preserves_adapters : km.

Lemma preserves_topology_router route header :
  keeps preserves (x1_topology_router read report route header).
Proof.
  unfold x1_topology_router, x1_topo_caps. keeps_auto.
  apply keeps_for_each; [typeclasses eauto|]. intros [[p ty] hd] _.
  unfold topo_walk, x1_topo_caps. keeps_auto.
Qed.
End generic.

(** ** Bounds *)

(** Reads, each with its specification recorded. *)
Definition logged_read {S} (read : x1_read_spec → S → Z * (nat → Z) * S) :
    x1_read_spec → S * list x1_read_spec → Z * (nat → Z) * (S * list x1_read_spec) :=
  λ spec '(s, l), let '(r, out, s') := read spec s in (r, out, (s', l ++ [spec])).

Definition logged_report {S} (report : string → Z → Z → Z → list Z → S → S) :
    string → Z → Z → Z → list Z → S * list x1_read_spec → S * list x1_read_spec :=
  λ what route port off data '(s, l), (report what route port off data s, l).

Section bounds.
Context {S : Type}.
Context (read : x1_read_spec → S → Z * (nat → Z) * S).
Context (report : string → Z → Z → Z → list Z → S → S).
Abbreviation world := (x1_topology * (S * list x1_read_spec))%type.
Abbreviation rd := (logged_read read).
Abbreviation rp := (logged_report report).

(** A read the transport is allowed to send, on [route]. *)
Definition valid_on (route : Z) (s : x1_read_spec) : Prop :=
  rs_route s = route ∧ ∃ a, x1_read_address s = Ok a.

(** Progress of an inventory of [route]: as many reads sent as counted, each of
    them allowed, and never past the limit. *)
Definition inventory (route : Z) (w w' : world) : Prop :=
  ∃ l, w'.2.2 = w.2.2 ++ l ∧ Forall (valid_on route) l ∧
    t_reads w'.1 = t_reads w.1 + Z.of_nat (length l) ∧
    (t_reads w.1 ≤ X1_TOPO_READ_LIMIT → t_reads w'.1 ≤ X1_TOPO_READ_LIMIT).

#[export] Instance inventory_preorder route : PreOrder (inventory route).
Proof.
  split.
  - intros w. exists []. rewrite app_nil_r. split_and!; [done|constructor|simpl; lia|done].
  - intros w1 w2 w3 (l1&E1&F1&N1&B1) (l2&E2&F2&N2&B2). exists (l1 ++ l2).
    rewrite E2, E1, app_assoc, length_app. split_and!; [done|by apply Forall_app|lia|auto].
Qed.

Lemma keeps_count route f :
  (∀ t, t_reads (f t) = t_reads t) → keeps (inventory route) (count (S:=S * list _) f).
Proof.
  intros Hf [t s]. exists []. simpl. rewrite app_nil_r, Hf.
  split_and!; [done|constructor|lia|done].
Qed.

Lemma keeps_tell route what r p o d : keeps (inventory route) (tell rp what r p o d).
Proof.
  intros [t [s l]]. exists []. simpl. rewrite app_nil_r.
  split_and!; [done|constructor|lia|done].
Qed.

Lemma keeps_topo_read route port space off words :
  keeps (inventory route) (x1_topo_read rd route port space off words).
Proof.
  unfold x1_topo_read. intros [t [s l]]. unfold bind at 1, lift.
  destruct (x1_read_address _) as [a|e|] eqn:Ea; [|reflexivity..].
  cbn. destruct (Z.leb_spec X1_TOPO_READ_LIMIT (t_reads t)); [reflexivity|]. cbn.
  destruct (read _ s) as [[r out] s']. exists [ReadSpec route port space off words 0].
  cbn. split_and!; [done| |lia|lia].
  constructor; [|constructor]. split; [done|by exists a].
Qed.

Hint Resolve keeps_tell keeps_topo_read : km.
Hint Extern 1 (keeps _ (count _)) => apply keeps_count; done : km.

Lemma keeps_topo_cap route port cap type :
  keeps (inventory route) (topo_cap rd rp route port cap type).
Proof. unfold topo_cap. keeps_auto. Qed.
Hint Resolve keeps_topo_cap : km.

Lemma keeps_topo_caps route n seen port cap type :
  keeps (inventory route) (topo_caps_loop rd rp n seen route port cap type).
Proof.
  revert seen cap. induction n as [|n IH]; intros seen cap; cbn [topo_caps_loop]; keeps_auto.
Qed.

Lemma keeps_topo_adapters route ports :
  keeps (inventory route) (topo_adapters rd rp ports route).
Proof. induction ports as [|p ports IH]; cbn [topo_adapters]; keeps_auto. Qed.
Hint Resolve keeps_topo_caps keeps_topo_adapters : km.

Lemma keeps_topology_router route header :
  keeps (inventory route) (x1_topology_router rd rp route header).
Proof.
  unfold x1_topology_router, x1_topo_caps. keeps_auto.
  apply keeps_for_each; [typeclasses eauto|]. intros [[p ty] hd] _. unfold topo_walk, x1_topo_caps. keeps_auto.
Qed.

(** Counters of adapters are only moved by the header loop. *)
Definition same_adapters (w w' : world) : Prop := t_adapters w'.1 = t_adapters w.1.
#[export] Instance same_adapters_preorder : PreOrder same_adapters.
Proof. split; [done|]. intros w1 w2 w3 H1 H2. unfold same_adapters in *. congruence. Qed.

Lemma adapters_read route port space off words :
  keeps same_adapters (x1_topo_read rd route port space off words).
Proof.
  unfold x1_topo_read. intros [t [s l]]. unfold bind at 1, lift.
  destruct (x1_read_address _) as [a|e|] eqn:Ea; [|reflexivity..].
  cbn. destruct (Z.leb_spec X1_TOPO_READ_LIMIT (t_reads t)); [reflexivity|]. cbn.
  by destruct (read _ s) as [[r out] s'].
Qed.
Lemma adapters_count f :
  (∀ t, t_adapters (f t) = t_adapters t) → keeps same_adapters (count (S:=S * list _) f).
Proof. intros Hf [t s]. apply Hf. Qed.
Lemma adapters_tell what r p o d : keeps same_adapters (tell rp what r p o d).
Proof. by intros [t [s l]]. Qed.
Hint Resolve adapters_tell adapters_read : km.
Hint Extern 1 (keeps same_adapters (count _)) => apply adapters_count; done : km.

Lemma adapters_cap route port cap type :
  keeps same_adapters (topo_cap rd rp route port cap type).
Proof. unfold topo_cap. keeps_auto. Qed.
Hint Resolve adapters_cap : km.

Lemma adapters_caps route n seen port cap type :
  keeps same_adapters (topo_caps_loop rd rp n seen route port cap type).
Proof.
  revert seen cap. induction n as [|n IH]; intros seen cap; cbn [topo_caps_loop]; keeps_auto.
Qed.

Lemma adapters_walk route l : keeps same_adapters (for_each l (topo_walk rd rp route)).
Proof.
  apply keeps_for_each; [typeclasses eauto|]. intros [[p ty] hd] _.
  unfold topo_walk, x1_topo_caps. pose proof adapters_caps. keeps_auto.
Qed.

Lemma adapters_loop route ports w as_ w' :
  topo_adapters rd rp ports route w = (Ok as_, w') →
  t_adapters w'.1 = t_adapters w.1 + Z.of_nat (length ports).
Proof.
  revert w as_. induction ports as [|p ports IH]; intros w as_; cbn [topo_adapters].
  { intros [= <- <-]. simpl. lia. }
  intros E. ok_inv; simplify_eq.
  all: match goal with H : topo_adapters _ _ _ _ _ = _ |- _ => apply IH in H as -> end.
  all: repeat match goal with
  | H : x1_topo_read _ _ _ _ _ _ ?s = (_, ?s') |- _ =>
      pose proof (adapters_read route p 1 0 8 s) as Hr; rewrite H in Hr; clear H
  | H : tell _ _ _ _ _ _ ?s = _ |- _ => destruct s as [? [? ?]]; injection H as <-
  | H : count _ ?s = _ |- _ => destruct s as [? [? ?]]; injection H as <-
  end; unfold same_adapters in *; simplify_eq; simpl in *; lia.
Qed.

(** The inventory of a router, for every device and every callback result:
    it returns (no undefined access, no endless capability chain), it never
    sends more than 128 reads, counts exactly the reads it sent, and sends only
    reads the packet layer allows, on the route it was asked for; success means
    one of the two known routers with all its adapters visited. *)
Theorem topology_bounded route header t s l :
  t_reads t ≤ X1_TOPO_READ_LIMIT →
  let '(r, (t', (_, l'))) := x1_topology_router rd rp route header (t, (s, l)) in
  r ≠ Fault ∧ t_reads t' ≤ X1_TOPO_READ_LIMIT ∧
  (∃ sent, l' = l ++ sent ∧ Forall (valid_on route) sent ∧
     t_reads t' = t_reads t + Z.of_nat (length sent)) ∧
  (r = Ok tt → (route = 0 ∧ t_adapters t' = t_adapters t + 7) ∨
               (route = 2 ∧ t_adapters t' = t_adapters t + 5)).
Proof.
  intros Ht.
  pose proof (safe_topology_router rd rp route header (t, (s, l))) as Hs.
  pose proof (keeps_topology_router route header (t, (s, l))) as Hk.
  destruct (x1_topology_router rd rp route header (t, (s, l))) as [r [t' [s' l']]] eqn:E.
  destruct Hk as (sent&El&Hv&Hn&Hb). simpl in *.
  split_and!; [done|by apply Hb|by exists sent|]. intros ->.
  unfold x1_topology_router in E. destruct header as [h|]; [|done].
  destruct (topo_header_ok route h) eqn:Eh; [|done]. cbn [negb] in E.
  assert (route = 0 ∨ route = 2) as Hr by (unfold topo_header_ok in Eh; lia || (repeat case_match; lia)).
  cbv zeta in E. ok_inv.
  match goal with H : topo_adapters _ _ _ _ _ = _ |- _ => apply adapters_loop in H as Ha end.
  match goal with H : for_each ?l _ ?s0 = _ |- _ =>
    pose proof (adapters_walk route l s0) as Hf; rewrite H in Hf end.
  match goal with H : x1_topo_read _ ?a1 ?a2 ?a3 ?a4 ?a5 ?s0 = _ |- _ =>
    pose proof (adapters_read a1 a2 a3 a4 a5 s0) as Hrd; rewrite H in Hrd end.
  match goal with H : tell _ ?a1 ?a2 ?a3 ?a4 ?a5 ?s0 = _ |- _ =>
    pose proof (adapters_tell a1 a2 a3 a4 a5 s0) as Htl; rewrite H in Htl end.
  match goal with H : lift _ _ = _ |- _ => injection H as _ <- end.
  match goal with H : x1_topo_caps _ _ ?a1 ?a2 ?a3 ?a4 ?s0 = _ |- _ =>
    pose proof (adapters_caps a1 X1_TOPO_CAP_LIMIT [] a2 a3 a4 s0) as Hcp;
    unfold x1_topo_caps in H; rewrite H in Hcp end.
  unfold same_adapters in *. simpl in *.
  destruct Hr as [->| ->]; [left|right]; split; try done; simpl in Ha; lia.
Qed.
End bounds.

(** A root router whose registers all read zero: nine reads, seven adapters. *)
Definition zero_read (_ : x1_read_spec) (s : unit) : Z * (nat → Z) * unit := (0, λ _, 0, s).
Definition no_report (_ : string) (_ _ _ : Z) (_ : list Z) (s : unit) : unit := s.
Definition root_header : list Z := [0x093805c6; 0x0101c11c; 0; 0x80000000; 0x200010ff].
Definition topo_zero : x1_topology := Topo 0 0 0 0 0 0 0.

Lemma topology_bounded_witness :
  ∃ t' l', x1_topology_router (logged_read zero_read) (logged_report no_report) 0
      (Some root_header) (topo_zero, (tt, [])) = (Ok tt, (t', (tt, l'))) ∧
    t_reads t' = 9 ∧ Forall (valid_on 0) l' ∧ t_adapters t' = 7.
Proof.
  pose proof (topology_bounded zero_read no_report 0 (Some root_header) topo_zero tt []
    ltac:(vm_compute; discriminate)) as H.
  assert (∃ t' l', x1_topology_router (logged_read zero_read) (logged_report no_report) 0
      (Some root_header) (topo_zero, (tt, [])) = (Ok tt, (t', (tt, l'))) ∧ t_reads t' = 9)
    as (t'&l'&E&Hn) by (eexists _, _; split; vm_compute; reflexivity).
  rewrite E in H. destruct H as (_&_&(sent&->&Hv&_)&Hok).
  exists t', sent. split; [exact E|]. split; [exact Hn|]. split; [exact Hv|].
  destruct (Hok eq_refl) as [[_ Ha]|[Ha _]]; [exact Ha|discriminate Ha].
Defined.
