(* ===== verification/Pci0Init.v ===== *)
(** * PCI0 root-port initialisation
    (snapshot/kernel/drivers/thunderbolt/x1-pcie-init.h, x1-pcie-msi-audit.h)

    The callbacks of [struct x1_pci0_io] act on a context of any type; [read]
    returns the word, [write] and [delay] are void, [reset] returns an errno. *)

From S2P Require Import Prelude.

Inductive x1_pci0_region := X1_ROOT | X1_PARF | X1_ROUTER.
#[export] Instance x1_pci0_region_eq_dec : EqDecision x1_pci0_region.
Proof. solve_decision. Defined.

Record x1_pci0_io (S : Type) := {
  io_read : x1_pci0_region → Z → S → Z * S;
  io_write : x1_pci0_region → Z → Z → S → S;
  io_reset : bool → S → Z * S;
  io_delay : Z → S → S;
}.
Arguments io_read {_} _ _ _ _.
Arguments io_write {_} _ _ _ _ _.
Arguments io_reset {_} _ _ _.
Arguments io_delay {_} _ _ _.

Section pci0.
Context {S : Type} (io : x1_pci0_io S).

Definition x1_pr (r : x1_pci0_region) (off : Z) : M S Z := λ s,
  let (v, s) := io_read io r off s in (Ok (u32 v), s).
Definition x1_pw (r : x1_pci0_region) (off v : Z) : M S unit :=
  modify (io_write io r off (u32 v)).
Definition delay (ms : Z) : M S unit := modify (io_delay io ms).

Definition x1_pm (r : x1_pci0_region) (off mask v : Z) : M S unit :=
  let! old := x1_pr r off in
  if old =? 0xffffffff then fail (-EIO) else
  do! x1_pw r off ((old .& not32 mask) .| v) in
  let! got := x1_pr r off in
  if got .& mask =? v then ret tt else fail (-EIO).

Definition x1_pv (r : x1_pci0_region) (off v : Z) : M S unit :=
  do! x1_pw r off v in
  let! got := x1_pr r off in
  if got =? v then ret tt else fail (-EIO).

(** [for (i = 0; i <= ms; i++)]; [more] is [ms - i]. *)
Fixpoint pp_loop (r : x1_pci0_region) (off mask expected : Z) (more : nat) : M S unit :=
  let! v := x1_pr r off in
  if v =? 0xffffffff then fail (-EIO) else
  if v .& mask =? expected then ret tt else
  match more with
  | O => fail (-ETIMEDOUT)
  | Datatypes.S more => do! delay 1 in pp_loop r off mask expected more
  end.
Definition x1_pp (r : x1_pci0_region) (off mask expected ms : Z) : M S unit :=
  pp_loop r off mask expected (Z.to_nat ms).

(** [if (read(r, off) != v) return e;] *)
Definition require_eq (r : x1_pci0_region) (off v e : Z) : M S unit :=
  let! got := x1_pr r off in if got !=? v then fail e else ret tt.

(** What follows the signature and gate checks. *)
Definition mode_switch : M S unit :=
  do! x1_pm X1_PARF 0x1b0 0x100 0 in
  do! x1_pw X1_ROUTER 0x82000 1 in
  do! require_eq X1_ROUTER 0x82000 1 (-EIO) in
  do! try_ (io_reset io true) in
  do! delay 5 in
  do! try_ (io_reset io false) in
  do! delay 5 in
  do! x1_pm X1_PARF 0x1000 0xf 4 in
  do! x1_pw X1_ROUTER 0x82000 0 in
  do! require_eq X1_ROUTER 0x82000 0 (-EIO) in
  do! delay 5 in
  do! require_eq X1_ROOT 0 0x011117cb (-ENODEV) in
  let! hdr := x1_pr X1_ROOT 12 in
  if (hdr >> 16) .& 0xff !=? 1 then fail (-ENODEV) else ret tt.

Definition x1_pci0_mode : M S unit :=
  do! require_eq X1_ROOT 0 0x011117cb (-ENODEV) in
  do! require_eq X1_ROOT 4 0x00100000 (-ENODEV) in
  do! require_eq X1_ROOT 8 0xff000001 (-ENODEV) in
  do! require_eq X1_ROOT 12 0 (-ENODEV) in
  let! gate := x1_pr X1_ROUTER 0x82000 in
  if 1 <? gate then fail (-EBUSY) else mode_switch.

Definition setup_parf : list (Z * Z) := [
  (0x350, 0); (0x354, 4); (0x634, 0x1000); (0x638, 4);
  (0x64c, 0xffffffff); (0x650, 0xffffffff); (0x358, 0); (0x35c, 0x200) ].
Definition setup_dbi : list (Z * Z * Z) := [
  (0xb90, 0x100, 0x100); (0x71c, 0xffff0000, 0x04040000);
  (0x644, 1, 0); (0x718, 0x7c000, 0x10000);
  (0x20, 0xfff0fff0, 0x4ff04000) ].

(** The two protected fields: [ret = x1_pm(..); if (!ret) ret = x1_pm(..)]. *)
Definition setup_protected : M S unit :=
  do! x1_pm X1_ROOT 8 0xffff0000 0x06040000 in
  x1_pm X1_ROOT 0x84 0x60 0x60.

(** Run [m], close the DBI write gate whatever it returned, and return -EIO if
    the gate does not close. *)
Definition with_gate_closed (m : M S unit) : M S unit := λ s,
  match m s with
  | (Fault, s) => (Fault, s)
  | (r, s) =>
      match x1_pm X1_ROOT 0x8bc 1 0 s with
      | (Ok _, s) => (r, s)
      | (Err _, s) => (Err (-EIO), s)
      | (Fault, s) => (Fault, s)
      end
  end.

(** Up to opening the DBI write gate, and after closing it. *)
Definition setup_before : M S unit :=
  do! x1_pm X1_PARF 0x1b4 0xfff 0xf40 in
  do! x1_pm X1_PARF 0x20 0x20 0 in
  do! for_each setup_parf (λ p, x1_pv X1_PARF p.1 p.2) in
  do! x1_pr X1_PARF 0x35c in
  do! for_each (take 2 setup_dbi) (λ '(o, m, v), x1_pm X1_ROOT o m v) in
  x1_pm X1_ROOT 0x8bc 1 1.
Definition setup_after : M S unit :=
  do! for_each (drop 2 setup_dbi) (λ '(o, m, v), x1_pm X1_ROOT o m v) in
  do! x1_pm X1_ROOT 0xfe4 1 1 in
  do! x1_pw X1_ROOT 0x10 0 in
  do! x1_pw X1_ROOT 0x14 0 in
  do! x1_pr X1_ROOT 0x14 in
  do! x1_pm X1_ROOT 0xfe4 1 0 in
  x1_pm X1_ROOT 4 6 6.

Definition x1_pci0_setup : M S unit :=
  do! setup_before in
  do! with_gate_closed setup_protected in
  setup_after.

Definition x1_pci0_reset_request (bit : Z) : M S unit :=
  let! old := x1_pr X1_ROUTER 0xe008 in
  if tst old 3 || ((bit !=? 1) && (bit !=? 2)) then fail (-EBUSY) else
  do! x1_pw X1_ROUTER 0xe008 (old .| bit) in
  x1_pp X1_ROUTER 0xe008 bit 0 10.

(** [m] then [x1_pw(io, X1_PARF, 0x494, 0)] on both outcomes. *)
Definition then_494 (m : M S unit) : M S unit := λ s,
  match m s with
  | (Fault, s) => (Fault, s)
  | (r, s) => (r, (x1_pw X1_PARF 0x494 0 s).2)
  end.

Definition x1_pci0_train : M S unit :=
  do! x1_pci0_reset_request 1 in
  do! delay 1 in
  do! x1_pci0_reset_request 2 in
  do! delay 20 in
  do! x1_pw X1_PARF 0x494 0 in
  do! x1_pw X1_PARF 0x494 2 in
  do! x1_pw X1_PARF 0x494 0 in
  do! x1_pw X1_PARF 0x494 5 in
  do! then_494 (
    do! x1_pm X1_PARF 0x1b0 0x100 0x100 in
    x1_pp X1_ROOT 0xf48 0x400 0x400 150) in
  x1_pp X1_PARF 0x1b0 0x3f 0x11 150.

Definition windows_root : list (Z * Z) := [
  (0x1008, 0x00100000); (0x100c, 4); (0x1010, 0x001fffff);
  (0x1014, 0x01000000); (0x1018, 0); (0x1000, 4); (0x1004, 0x90000000);
  (0x1208, 0x00200000); (0x120c, 4); (0x1210, 0x0fffffff);
  (0x1200, 5); (0x1204, 0x90000000) ].
Definition windows_parf : list (Z * Z) := [
  (0x380, 0); (0x360, 0x1000); (0x364, 4);
  (0x370, 0x1000); (0x374, 4);
  (0x388, 0x000fffff); (0x390, 0x008fefff);
  (0x368, 0x000fffff); (0x36c, 4); (0x378, 0x000fffff); (0x37c, 4);
  (0x398, 0x101000); (0x39c, 4); (0x3a8, 0x101000); (0x3ac, 4);
  (0x3a0, 0x1fffff); (0x3a4, 4); (0x3b0, 0x1fffff); (0x3b4, 4) ].

Definition x1_pci0_windows : M S unit :=
  do! for_each windows_root (λ p, x1_pv X1_ROOT p.1 p.2) in
  do! for_each windows_parf (λ p, x1_pv X1_PARF p.1 p.2) in
  let! a := x1_pr X1_ROOT 0x1004 in
  if a .& 0x90000000 !=? 0x90000000 then fail (-EIO) else
  let! b := x1_pr X1_ROOT 0x1204 in
  if b .& 0x90000000 !=? 0x90000000 then fail (-EIO) else
  x1_pm X1_PARF 0 0x44000000 0x44000000.

Definition msi_audit_regs : list (x1_pci0_region * Z) := [
  (X1_ROOT, 0x820); (X1_ROOT, 0x824); (X1_ROOT, 0x828); (X1_ROOT, 0x82c); (X1_ROOT, 0x830);
  (X1_PARF, 0x1a8); (X1_PARF, 0x234); (X1_PARF, 0x24c); (X1_PARF, 0x2c00) ].

(** The nine values, in table order. *)
Fixpoint msi_audit_loop (regs : list (x1_pci0_region * Z)) : M S (list Z) :=
  match regs with
  | [] => ret []
  | (r, off) :: regs =>
      let! v := x1_pr r off in
      let! vs := msi_audit_loop regs in
      ret (v :: vs)
  end.
Definition x1_pci0_msi_audit : M S (list Z) := msi_audit_loop msi_audit_regs.
End pci0.

(** ** Traces *)

Inductive pci_event :=
| PRead (r : x1_pci0_region) (off v : Z)
| PWrite (r : x1_pci0_region) (off v : Z)
| PReset (on : bool)
| PDelay (ms : Z).

Definition pci_log (S : Type) : Type := S * list pci_event.
#[export] Instance pci_logged S : Logged (pci_log S) pci_event := snd.

Definition logging_io {S} (io : x1_pci0_io S) : x1_pci0_io (pci_log S) := {|
  io_read r off c := let (v, s) := io_read io r off c.1 in (v, (s, c.2 ++ [PRead r off (u32 v)]));
  io_write r off v c := (io_write io r off v c.1, c.2 ++ [PWrite r off v]);
  io_reset on c := let (z, s) := io_reset io on c.1 in (z, (s, c.2 ++ [PReset on]));
  io_delay ms c := (io_delay io ms c.1, c.2 ++ [PDelay ms]);
|}.

(** Writes only to [regs], no reset. *)
Definition writes_to (regs : list (x1_pci0_region * Z)) (e : pci_event) : Prop :=
  match e with PWrite r off _ => (r, off) ∈ regs | PReset _ => False | _ => True end.

Definition setup_regs : list (x1_pci0_region * Z) :=
  [(X1_PARF, 0x1b4); (X1_PARF, 0x20)] ++ ((λ p, (X1_PARF, p.1)) <$> setup_parf) ++
  ((λ p, (X1_ROOT, p.1.1)) <$> setup_dbi) ++
  [(X1_ROOT, 0x8bc); (X1_ROOT, 8); (X1_ROOT, 0x84); (X1_ROOT, 0xfe4); (X1_ROOT, 0x10);
   (X1_ROOT, 0x14); (X1_ROOT, 4)].
Definition train_regs : list (x1_pci0_region * Z) :=
  [(X1_ROUTER, 0xe008); (X1_PARF, 0x494); (X1_PARF, 0x1b0)].
Definition windows_regs : list (x1_pci0_region * Z) :=
  ((λ p, (X1_ROOT, p.1)) <$> windows_root) ++ ((λ p, (X1_PARF, p.1)) <$> windows_parf) ++
  [(X1_PARF, 0)].

Section traces.
Context {S : Type} (io : x1_pci0_io S).
Abbreviation lio := (logging_io io).
Implicit Types (P : pci_event → Prop) (c : pci_log S).

Lemma emits_pr P r off : (∀ v, P (PRead r off v)) → emits P (x1_pr lio r off).
Proof.
  intros HP c. unfold x1_pr. simpl. destruct (io_read io r off c.1) as [v s].
  exists [PRead r off (u32 v)]. split; [done|]. by constructor.
Qed.
Lemma emits_pw P r off v : (∀ v, P (PWrite r off v)) → emits P (x1_pw lio r off v).
Proof. intros HP c. eexists [_]. split; [done|]. by constructor. Qed.
Lemma emits_delay P ms : P (PDelay ms) → emits P (delay lio ms).
Proof. intros HP c. exists [PDelay ms]. split; [done|]. by constructor. Qed.

Lemma emits_pm P r off mask v :
  (∀ v, P (PRead r off v)) → (∀ v, P (PWrite r off v)) → emits P (x1_pm lio r off mask v).
Proof.
  intros H1 H2. unfold x1_pm, emits. keeps_auto; (by apply emits_pr) || (by apply emits_pw).
Qed.
Lemma emits_pv P r off v :
  (∀ v, P (PRead r off v)) → (∀ v, P (PWrite r off v)) → emits P (x1_pv lio r off v).
Proof.
  intros H1 H2. unfold x1_pv, emits. keeps_auto; (by apply emits_pr) || (by apply emits_pw).
Qed.
Lemma emits_pp P r off mask ex ms :
  (∀ v, P (PRead r off v)) → P (PDelay 1) → emits P (x1_pp lio r off mask ex ms).
Proof.
  intros H1 H2. unfold x1_pp, emits. generalize (Z.to_nat ms). intros n.
  induction n as [|n IH]; cbn [pp_loop]; keeps_auto; (by apply emits_pr) || (by apply emits_delay) || done.
Qed.
Lemma emits_require P r off v e :
  (∀ v, P (PRead r off v)) → emits P (require_eq lio r off v e).
Proof. intros H. unfold require_eq, emits. keeps_auto. by apply emits_pr. Qed.

(** Membership of a literal register in a literal table. *)
Ltac in_table := intros; cbn; rewrite ?list_elem_of_In; cbn; tauto.
Ltac pci_leaf :=
  first [apply emits_pr; done | apply emits_pw; in_table | apply emits_delay; done
        | apply emits_pm; [done|in_table] | apply emits_pv; [done|in_table]
        | apply emits_pp; done | apply emits_require; done].

Lemma keeps_gate P m :
  emits P m → emits P (x1_pm lio X1_ROOT 0x8bc 1 0) → emits P (with_gate_closed lio m).
Proof.
  intros Hm Hg c. unfold with_gate_closed. specialize (Hm c).
  destruct (m c) as [[[]|e|] c1]; [| |done].
  all: specialize (Hg c1); destruct (x1_pm lio X1_ROOT 0x8bc 1 0 c1) as [[[]|e'|] c2]; simpl in *.
  all: by etransitivity.
Qed.
Lemma keeps_494 P m :
  emits P m → (∀ v, P (PWrite X1_PARF 0x494 v)) → emits P (then_494 lio m).
Proof.
  intros Hm HP c. unfold then_494. specialize (Hm c).
  destruct (m c) as [[[]|e|] c1]; [| |done]; simpl in *.
  all: etransitivity; [exact Hm|]; by apply (emits_pw P X1_PARF 0x494 0 HP).
Qed.

(** Apart from the one-time mode switch, no PCI0 step can write anything
    but the registers of its own table or assert the controller reset, whatever
    the hardware answers; the MSI audit writes nothing at all. *)
Theorem pci0_confined :
  emits (writes_to setup_regs) (x1_pci0_setup lio) ∧
  emits (writes_to train_regs) (x1_pci0_train lio) ∧
  emits (writes_to windows_regs) (x1_pci0_windows lio) ∧
  emits (writes_to []) (x1_pci0_msi_audit lio).
Proof.
  split_and!.
  - unfold x1_pci0_setup, setup_before, setup_after, setup_protected, emits. cbn [for_each take drop setup_parf setup_dbi].
    keeps_auto; try pci_leaf.
    apply keeps_gate; [|pci_leaf]. unfold emits. keeps_auto; pci_leaf.
  - unfold x1_pci0_train, x1_pci0_reset_request, emits. keeps_auto; try pci_leaf.
    apply keeps_494; [|in_table]. unfold emits. keeps_auto; pci_leaf.
  - unfold x1_pci0_windows, emits. cbn [for_each windows_root windows_parf].
    keeps_auto; pci_leaf.
  - unfold x1_pci0_msi_audit, emits. generalize msi_audit_regs. intros l.
    induction l as [|[r off] l IH]; cbn [msi_audit_loop]; keeps_auto; by apply emits_pr.
Qed.

(** ** The mode switch *)

(** Everything but reads. *)
Definition effect (e : pci_event) : bool :=
  match e with PRead _ _ _ => false | _ => true end.

Lemma safe_pr r off : safe (x1_pr lio r off).
Proof. intros c. unfold x1_pr. simpl. by destruct (io_read io r off c.1). Qed.

Lemma does_pr r off : does effect [] (x1_pr lio r off).
Proof. apply does_silent; [apply safe_pr|by apply emits_pr]. Qed.

Lemma does_require r off v e : does effect [] (require_eq lio r off v e).
Proof.
  apply does_silent; [|by apply emits_require].
  unfold require_eq. pose proof safe_pr. safe_auto.
Qed.

Lemma does_one {A} (m : M (pci_log S) A) (P : pci_event → Prop) e :
  effect e = true → P e → (∀ c, ∃ a c', m c = (Ok a, c') ∧ c'.2 = c.2 ++ [e]) →
  does effect [P] m.
Proof.
  intros Hv HP Hm c. destruct (Hm c) as (a&c'&->&Ec). exists [e]. split; [done|]. by apply matches_one.
Qed.

Lemma does_pw r off v : does effect [eq (PWrite r off (u32 v))] (x1_pw lio r off v).
Proof. apply (does_one _ _ (PWrite r off (u32 v))); [done..|]. intros c. by eexists _, _. Qed.

Lemma does_delay ms : does effect [eq (PDelay ms)] (delay lio ms).
Proof. apply (does_one _ _ (PDelay ms)); [done..|]. intros c. by eexists _, _. Qed.

Lemma does_reset on : does effect [eq (PReset on)] (try_ (io_reset lio on)).
Proof.
  intros c. exists [PReset on]. unfold try_. simpl.
  destruct (io_reset io on c.1) as [z s]. destruct (z =? 0); split; try done.
  - by apply matches_one.
  - exists 1%nat. by apply matches_one.
Qed.

(** A masked update: one write, with the field set as asked and the rest as read. *)
Definition field_write (r : x1_pci0_region) (off mask v : Z) (e : pci_event) : Prop :=
  ∃ w, e = PWrite r off w ∧ w .& mask = v.

Lemma does_pm r off mask v :
  0 ≤ mask < 2 ^ 32 → v .& mask = v →
  does effect [field_write r off mask v] (x1_pm lio r off mask v).
Proof.
  intros Hm Hf. unfold x1_pm. apply (does_bind _ []); [apply does_pr|]. intros old.
  apply does_if; [apply does_fail|]. apply (does_bind _ [_] []).
  - eapply (does_one _ _ (PWrite r off _)); [done| |intros c; by eexists _, _].
    eexists. split; [done|]. by apply field_set.
  - intros _. apply (does_bind _ []); [apply does_pr|]. intros got.
    apply does_if; [apply does_ret|apply does_fail].
Qed.

Definition mode_effects : list (pci_event → Prop) := [
  field_write X1_PARF 0x1b0 0x100 0; eq (PWrite X1_ROUTER 0x82000 1);
  eq (PReset true); eq (PDelay 5); eq (PReset false); eq (PDelay 5);
  field_write X1_PARF 0x1000 0xf 4; eq (PWrite X1_ROUTER 0x82000 0); eq (PDelay 5) ].

Definition quiescent (g : Z) : list pci_event := [
  PRead X1_ROOT 0 0x011117cb; PRead X1_ROOT 4 0x00100000; PRead X1_ROOT 8 0xff000001;
  PRead X1_ROOT 12 0; PRead X1_ROUTER 0x82000 g ].

Lemma pr_log r off c : ∃ v s, x1_pr lio r off c = (Ok v, (s, c.2 ++ [PRead r off v])).
Proof. unfold x1_pr. simpl. destruct (io_read io r off c.1) as [v s]. by eexists _, _. Qed.

Lemma require_log r off v e c :
  (∃ s, require_eq lio r off v e c = (Ok tt, (s, c.2 ++ [PRead r off v]))) ∨
  (∃ s got, require_eq lio r off v e c = (Err e, (s, c.2 ++ [PRead r off got]))).
Proof.
  unfold require_eq, bind. destruct (pr_log r off c) as (got&s&->).
  destruct (Z.eqb_spec got v) as [->|]; [left|right]; eauto.
Qed.

Ltac does_leaf := first [apply does_pw | apply does_delay | apply does_reset].

Lemma does_mode_switch : does effect mode_effects (mode_switch lio).
Proof.
  unfold mode_switch, mode_effects.
  apply (does_bind _ [_]); [by apply does_pm|intros _].
  apply (does_bind _ [_]); [does_leaf|intros _].
  apply (does_bind _ []); [apply does_require|intros _].
  apply (does_bind _ [_]); [apply does_reset|intros _].
  apply (does_bind _ [_]); [does_leaf|intros _].
  apply (does_bind _ [_]); [apply does_reset|intros _].
  apply (does_bind _ [_]); [does_leaf|intros _].
  apply (does_bind _ [_]); [by apply does_pm|intros _].
  apply (does_bind _ [_]); [does_leaf|intros _].
  apply (does_bind _ []); [apply does_require|intros _].
  apply (does_bind _ [_] []); [does_leaf|intros _].
  apply (does_bind _ []); [apply does_require|intros _].
  apply (does_bind _ []); [apply does_pr|intros hdr].
  apply does_if; [apply does_fail|apply does_ret].
Qed.

(** Switching PCI0 to root-complex mode, for every behaviour of the
    hardware: nothing is written and no reset is asserted unless the four root
    words read the exact quiescent signature and the router gate read 0 or 1;
    from then on the effects are the fixed sequence (LTSSM enable cleared, gate
    closed, reset asserted and released with 5 ms each, mode set to 4, gate
    reopened), an error leaving a prefix of it and success all of it. *)
Theorem mode_outcomes c :
  let '(r, c') := x1_pci0_mode lio c in ∃ t, c'.2 = c.2 ++ t ∧
    match r with
    | Ok _ => ∃ g rest, t = quiescent g ++ rest ∧ g ≤ 1 ∧ matches effect mode_effects rest
    | Err e => (matches effect [] t) ∨
        (∃ g rest k, t = quiescent g ++ rest ∧ g ≤ 1 ∧ matches effect (take k mode_effects) rest)
    | Fault => False
    end.
Proof.
  unfold x1_pci0_mode. unfold bind at 1.
  destruct (require_log X1_ROOT 0 0x011117cb (-ENODEV) c) as [(s1&->)|(s1&g1&->)].
  2: { eexists. split; [done|]. left. hnf. constructor. }
  unfold bind at 1. destruct (require_log X1_ROOT 4 0x00100000 (-ENODEV)
    (s1, c.2 ++ [PRead X1_ROOT 0 0x011117cb])) as [(s2&->)|(s2&g2&->)].
  2: { eexists. cbn [snd]. rewrite <- app_assoc. split; [done|]. left. hnf. constructor. }
  unfold bind at 1. match goal with |- context [require_eq _ _ _ _ _ ?c0] =>
    destruct (require_log X1_ROOT 8 0xff000001 (-ENODEV) c0) as [(s3&->)|(s3&g3&->)] end.
  2: { eexists. cbn [snd]. rewrite <- !app_assoc. split; [done|]. left. hnf. constructor. }
  unfold bind at 1. match goal with |- context [require_eq _ _ _ _ _ ?c0] =>
    destruct (require_log X1_ROOT 12 0 (-ENODEV) c0) as [(s4&->)|(s4&g4&->)] end.
  2: { eexists. cbn [snd]. rewrite <- !app_assoc. split; [done|]. left. hnf. constructor. }
  unfold bind at 1. match goal with |- context [x1_pr _ _ _ ?c0] =>
    destruct (pr_log X1_ROUTER 0x82000 c0) as (g&s5&->) end.
  destruct (Z.ltb_spec 1 g).
  { eexists. cbn [snd fail]. rewrite <- !app_assoc. split; [done|]. left. hnf. constructor. }
  match goal with |- context [mode_switch _ ?c0] =>
    destruct (does_mode_switch c0) as (t&Ht&Hr); destruct (mode_switch lio c0) as [r c1] end.
  exists (quiescent g ++ t). unfold get_log, pci_logged in Ht. cbn [fst snd] in *.
  rewrite <- !app_assoc in Ht. split; [by rewrite Ht|].
  destruct r as [[]|e|]; [by exists g, t| |done]. right. destruct Hr as (k&Hk). by exists g, t, k.
Qed.

(** ** The DBI write gate *)

Definition protected (e : pci_event) : Prop :=
  match e with PWrite X1_ROOT off _ => off = 8 ∨ off = 0x84 | _ => False end.
Definition unprotected (e : pci_event) : Prop := ¬ protected e.
Definition past_gate (e : pci_event) : Prop :=
  ¬ protected e ∧ match e with PWrite X1_ROOT off _ => off ≠ 0x8bc | _ => True end.

(** An attempt to close the gate: the register is gone, or bit 0 is written 0. *)
Inductive closing : list pci_event → Prop :=
| closing_gone : closing [PRead X1_ROOT 0x8bc 0xffffffff]
| closing_write old w got : w .& 1 = 0 →
    closing [PRead X1_ROOT 0x8bc old; PWrite X1_ROOT 0x8bc w; PRead X1_ROOT 0x8bc got].
(** One that the readback confirmed. *)
Definition closed (t : list pci_event) : Prop :=
  ∃ old w got, t = [PRead X1_ROOT 0x8bc old; PWrite X1_ROOT 0x8bc w; PRead X1_ROOT 0x8bc got] ∧
    w .& 1 = 0 ∧ got .& 1 = 0.

Lemma close_log c :
  let '(r, c') := x1_pm lio X1_ROOT 0x8bc 1 0 c in
  ∃ t, c'.2 = c.2 ++ t ∧ closing t ∧
    match r with Ok _ => closed t | Err e => e = -EIO | Fault => False end.
Proof.
  unfold x1_pm, bind. destruct (pr_log X1_ROOT 0x8bc c) as (old&s1&->).
  destruct (Z.eqb_spec old 0xffffffff) as [->|].
  { eexists. split; [done|]. split; [constructor|done]. }
  simpl. set (w := u32 _). assert (w .& 1 = 0) as Hw by by apply field_set.
  match goal with |- context [x1_pr _ _ _ ?c0] =>
    destruct (pr_log X1_ROOT 0x8bc c0) as (got&s2&->) end.
  destruct (Z.eqb_spec (got .& 1) 0) as [Hg|Hg]; simpl; rewrite <- !app_assoc;
    (eexists; split; [done|]; split; [by constructor|]); [|done].
  by exists old, w, got.
Qed.

Lemma gate_log m c :
  emits (S:=pci_log S) (λ _, True) m → safe m →
  let '(r, c') := with_gate_closed lio m c in
  ∃ t0 t, c'.2 = c.2 ++ t0 ++ t ∧ closing t ∧ (r = Ok tt → closed t) ∧ r ≠ Fault.
Proof.
  intros Hm Hs. unfold with_gate_closed. destruct (Hm c) as (t0&Ht0&_). specialize (Hs c).
  destruct (m c) as [[[]|e|] c1]; [| |done]; unfold get_log, pci_logged in Ht0; simpl in *.
  all: pose proof (close_log c1) as H;
    destruct (x1_pm lio X1_ROOT 0x8bc 1 0 c1) as [[[]|e'|] c2]; destruct H as (t&Ht&Hc&Hr); try done.
  all: exists t0, t; rewrite Ht, Ht0, app_assoc; split_and!; done.
Qed.

Lemma safe_pm r off mask v : safe (x1_pm lio r off mask v).
Proof. unfold x1_pm. pose proof safe_pr. unfold x1_pw. safe_auto. Qed.

Lemma before_unprotected : emits unprotected (setup_before lio).
Proof.
  unfold setup_before, emits. cbn [for_each take setup_parf setup_dbi].
  keeps_auto; first [apply emits_pm | apply emits_pv | apply emits_pr]; unfold unprotected;
    simpl; intros; lia.
Qed.
Lemma after_past_gate : emits past_gate (setup_after lio).
Proof.
  unfold setup_after, emits. cbn [for_each drop setup_parf setup_dbi].
  keeps_auto; first [apply emits_pm | apply emits_pv | apply emits_pr | apply emits_pw];
    unfold past_gate; simpl; intros; lia.
Qed.

(** The DBI write gate never stays open behind a protected write: in any
    run of the setup, for any hardware, either no protected field was written,
    or the protected writes are followed by an attempt to close the gate (the
    register reading all ones, or bit 0 written back to zero) after which
    neither the gate nor a protected field is written again; and a successful
    setup has closed it with a confirming readback. *)
Theorem setup_gate_closed c :
  let '(r, c') := x1_pci0_setup lio c in ∃ t, c'.2 = c.2 ++ t ∧
    (Forall unprotected t ∧ r ≠ Ok tt ∨
     ∃ t0 t1 t2, t = t0 ++ t1 ++ t2 ∧ closing t1 ∧ Forall past_gate t2 ∧
       (r = Ok tt → closed t1)).
Proof.
  unfold x1_pci0_setup. unfold bind at 1.
  destruct (before_unprotected c) as (t0&Ht0&Hf0). unfold get_log, pci_logged in Ht0.
  destruct (setup_before lio c) as [[[]|e|] c1]; simpl in Ht0.
  2, 3: exists t0; split; [done|]; left; by split.
  unfold bind. pose proof (gate_log (setup_protected lio) c1) as Hg.
  destruct (with_gate_closed lio (setup_protected lio) c1) as [r c2].
  destruct Hg as (tp&t1&Ht1&Hc&Hok&Hnf).
  { unfold setup_protected, emits. keeps_auto; by apply emits_pm. }
  { unfold setup_protected. pose proof safe_pm. safe_auto. }
  destruct r as [[]|e|]; [| |done].
  - destruct (after_past_gate c2) as (t2&Ht2&Hf2). unfold get_log, pci_logged in Ht2.
    destruct (setup_after lio c2) as [r c3]. simpl in Ht2.
    exists ((t0 ++ tp) ++ t1 ++ t2). split.
    { by rewrite Ht2, Ht1, Ht0, <- !app_assoc. }
    right. exists (t0 ++ tp), t1, t2. split_and!; try done. intros _. by apply Hok.
  - exists ((t0 ++ tp) ++ t1 ++ []). split.
    { by rewrite Ht1, Ht0, app_nil_r, <- !app_assoc. }
    right. exists (t0 ++ tp), t1, []. by split_and!.
Qed.
End traces.

(** ** A register file behind the callbacks *)

Definition file_io : x1_pci0_io (x1_pci0_region * Z → Z) := {|
  io_read r off s := (s (r, off), s);
  io_write r off v s := λ a, if decide (a = (r, off)) then v else s a;
  io_reset _ s := (0, s);
  io_delay _ s := s;
|}.

(** On registers that hold what is written, setup succeeds and leaves the
    fixed values, with the gate closed. *)
Example setup_on_registers :
  ∃ s, x1_pci0_setup file_io (λ _, 0) = (Ok tt, s) ∧
    s (X1_ROOT, 0x8bc) = 0 ∧ s (X1_ROOT, 8) = 0x06040000 ∧ s (X1_PARF, 0x35c) = 0x200 ∧
    s (X1_ROOT, 0x20) = 0x4ff04000 ∧ s (X1_ROOT, 4) = 6.
Proof. eexists. split; [vm_compute; reflexivity|]. by vm_compute. Qed.
