(* ===== verification/Pci0Mem.v ===== *)
(** * The outbound MEM window
    (experiments/el1-pci0/kernel/drivers/thunderbolt/x1-pci0-mem.h)

    One-shot programming of outbound region 1 through checked callbacks. *)

From S2P Require Import Prelude.

Record x1_mem_io (S : Type) := {
  mio_check : S → Z * S;
  mio_read : Z → S → Z * Z * S;
  mio_write : Z → Z → S → Z * S;
  mio_delay : Z → S → Z * S;
}.
Arguments mio_check {_} _ _.
Arguments mio_read {_} _ _ _.
Arguments mio_write {_} _ _ _ _.
Arguments mio_delay {_} _ _ _.

Record x1_mem_state := MemState {
  ms_attempted : bool;
  ms_enable_issued : bool;
  ms_complete : bool;
  ms_writes : Z;
  ms_error : Z;
  ms_step : string;
}.

Definition set_step (n : string) (s : x1_mem_state) : x1_mem_state :=
  MemState (ms_attempted s) (ms_enable_issued s) (ms_complete s) (ms_writes s) (ms_error s) n.
Definition count_write (s : x1_mem_state) : x1_mem_state :=
  MemState (ms_attempted s) (ms_enable_issued s) (ms_complete s) (ms_writes s + 1)
    (ms_error s) (ms_step s).
Definition set_enable (s : x1_mem_state) : x1_mem_state :=
  MemState (ms_attempted s) true (ms_complete s) (ms_writes s) (ms_error s) (ms_step s).
Definition set_mem_error (e : Z) (s : x1_mem_state) : x1_mem_state :=
  MemState (ms_attempted s) (ms_enable_issued s) (ms_complete s) (ms_writes s) e (ms_step s).
Definition set_attempted (s : x1_mem_state) : x1_mem_state :=
  MemState true (ms_enable_issued s) (ms_complete s) (ms_writes s) (ms_error s) (ms_step s).
Definition set_complete (s : x1_mem_state) : x1_mem_state :=
  MemState (ms_attempted s) (ms_enable_issued s) true (ms_writes s) (ms_error s)
    "mem-ready-not-endpoint-dma-proof".

Definition x1_mem_offset (off : Z) : bool :=
  bool_decide (off ∈ [0x1200; 0x1204; 0x1208; 0x120c; 0x1210; 0x1214; 0x1218; 0x1220]).

Definition mem_words : list (Z * Z) := [
  (0x1208, 0x40000000); (0x120c, 0);
  (0x1210, 0x4fffffff); (0x1220, 0);
  (0x1214, 0x40000000); (0x1218, 0); (0x1200, 0) ].

Section mem.
Context {S : Type} (io : x1_mem_io S).
Abbreviation W := (M (x1_mem_state * S)).

Definition upd (f : x1_mem_state → x1_mem_state) : W unit := modify (λ '(m, s), (f m, s)).

(** [if (ret) return ret > 0 ? -EIO : ret;] after a callback. *)
Definition call_io (f : S → Z * S) : W unit := λ '(m, s),
  let (r, s) := f s in
  ((if r =? 0 then Ok tt else Err (if 0 <? r then -EIO else r)), (m, s)).

Definition x1_mem_read (off : Z) : W Z :=
  if negb (x1_mem_offset off) then fail (-EINVAL) else
  do! call_io (mio_check io) in
  λ '(m, s), let '(r, v, s) := mio_read io off s in
    ((if r =? 0 then Ok (u32 v) else Err (if 0 <? r then -EIO else r)), (m, s)).

Definition x1_mem_expect (off value : Z) : W unit :=
  let! got := x1_mem_read off in
  if got =? value then ret tt else fail (-EIO).

Definition x1_mem_set (off value : Z) : W unit :=
  if negb (x1_mem_offset off) then fail (-EINVAL) else
  do! call_io (mio_check io) in
  do! upd count_write in
  do! call_io (mio_write io off value) in
  x1_mem_expect off value.

Definition mem_verify : W unit := for_each mem_words (λ p, x1_mem_expect p.1 p.2).

(** [for (i = 0; i < 5; i++)]; [more] is [4 - i]. *)
Fixpoint mem_await (more : nat) : W unit :=
  let! value := x1_mem_read 0x1204 in
  if value =? 0x80000000 then ret tt else
  if value !=? 0 then fail (-EIO) else
  match more with
  | O => fail (-ETIMEDOUT)
  | Datatypes.S more => do! call_io (mio_delay io 10) in mem_await more
  end.

(** Up to the single enable, and the enable with what follows it. *)
Definition mem_program : W unit :=
  do! upd (set_step "mem-inactive-ob1") in
  do! x1_mem_expect 0x1204 0 in
  do! upd (set_step "mem-program-ob1") in
  do! for_each mem_words (λ p, x1_mem_set p.1 p.2) in
  do! mem_verify in
  do! x1_mem_expect 0x1204 0 in
  do! upd (set_step "mem-enable-ob1") in
  call_io (mio_check io).

Definition mem_enable : W unit :=
  do! upd set_enable in
  do! upd count_write in
  do! call_io (mio_write io 0x1204 0x80000000) in
  do! mem_await 4 in
  do! upd (set_step "mem-final-readback") in
  do! mem_verify in
  do! x1_mem_expect 0x1204 0x80000000 in
  upd set_complete.

Definition x1_mem_prepare : W unit :=
  let! st := get in
  if ms_attempted st.1 then fail (-EALREADY) else
  do! upd set_attempted in
  recording (do! mem_program in mem_enable) (λ e '(m, s), (set_mem_error e m, s)).
End mem.

(** ** What reaches the hardware *)

Inductive mem_event := MRead (off v : Z) | MWrite (off v : Z).

Definition logging_mem {S} (io : x1_mem_io S) : x1_mem_io (S * list mem_event) := {|
  mio_check c := let (r, s) := mio_check io c.1 in (r, (s, c.2));
  mio_read off c := let '(r, v, s) := mio_read io off c.1 in
                    (r, v, (s, c.2 ++ [MRead off (u32 v)]));
  mio_write off v c := let (r, s) := mio_write io off v c.1 in (r, (s, c.2 ++ [MWrite off v]));
  mio_delay ms c := let (r, s) := mio_delay io ms c.1 in (r, (s, c.2));
|}.

#[export] Instance mem_logged S : Logged (x1_mem_state * (S * list mem_event)) mem_event :=
  λ w, w.2.2.

Definition mem_write (e : mem_event) : bool := match e with MWrite _ _ => true | _ => false end.

Section claims.
Context {S : Type} (io : x1_mem_io S).
Abbreviation lio := (logging_mem io).
Abbreviation world := (x1_mem_state * (S * list mem_event))%type.

(** The programming writes, then the one enable. *)
Definition program_effects : list (mem_event → Prop) :=
  (λ p : Z * Z, eq (MWrite p.1 p.2)) <$> mem_words.
Definition enable_effects : list (mem_event → Prop) := [eq (MWrite 0x1204 0x80000000)].

Lemma does_upd f : does (S:=world) mem_write [] (upd f).
Proof. intros [m c]. exists []. simpl. rewrite app_nil_r. split; [done|]. constructor. Qed.

Lemma does_call f :
  (∀ c : S * list mem_event, (f c).2.2 = c.2) → does (S:=world) mem_write [] (call_io f).
Proof.
  intros Hf [m c]. exists []. unfold call_io. specialize (Hf c).
  destruct (f c) as [r c']. unfold get_log, mem_logged. simpl in *. rewrite app_nil_r.
  split; [done|]. destruct (r =? 0); [constructor|]. exists 0%nat. constructor.
Qed.

Lemma does_check : does (S:=world) mem_write [] (call_io (mio_check lio)).
Proof. apply does_call. intros [s l]. simpl. by destruct (mio_check io s). Qed.

Lemma does_write off v :
  does (S:=world) mem_write [eq (MWrite off v)] (call_io (mio_write lio off v)).
Proof.
  intros [m [s l]]. exists [MWrite off v]. unfold call_io. simpl.
  destruct (mio_write io off v s) as [r s']. split; [done|].
  destruct (r =? 0); [|exists 1%nat]; by constructor.
Qed.

Lemma does_read off : does (S:=world) mem_write [] (x1_mem_read lio off).
Proof.
  unfold x1_mem_read. apply does_if; [apply does_fail|].
  apply (does_bind _ []); [apply does_check|]. intros _ [m [s l]]. simpl.
  destruct (mio_read io off s) as [[r v] s']. exists [MRead off (u32 v)]. split; [done|].
  destruct (r =? 0); [|exists 0%nat]; constructor.
Qed.

Lemma does_expect off v : does (S:=world) mem_write [] (x1_mem_expect lio off v).
Proof.
  unfold x1_mem_expect. apply (does_bind _ []); [apply does_read|]. intros got.
  apply does_if; [apply does_ret|apply does_fail].
Qed.

Lemma does_verify : does (S:=world) mem_write [] (mem_verify lio).
Proof.
  unfold mem_verify. induction mem_words as [|p l IH]; cbn [for_each]; [apply does_ret|].
  apply (does_bind _ []); [apply does_expect|done].
Qed.

Lemma does_set off v : does (S:=world) mem_write [eq (MWrite off v)] (x1_mem_set lio off v).
Proof.
  unfold x1_mem_set. apply does_if; [apply does_fail|].
  apply (does_bind _ []); [apply does_check|intros _].
  apply (does_bind _ []); [apply does_upd|intros _].
  apply (does_bind _ [_] []); [apply does_write|intros _]. apply does_expect.
Qed.

Lemma does_await n : does (S:=world) mem_write [] (mem_await lio n).
Proof.
  induction n as [|n IH]; cbn [mem_await]; (apply (does_bind _ []); [apply does_read|intros v]);
    (apply does_if; [apply does_ret|]); (apply does_if; [apply does_fail|]); [apply does_fail|].
  apply (does_bind _ []); [|intros _; apply IH].
  apply does_call. intros [s l]. simpl. by destruct (mio_delay io 10 s).
Qed.

Lemma does_sets l :
  does (S:=world) mem_write ((λ p : Z * Z, eq (MWrite p.1 p.2)) <$> l)
    (for_each l (λ p, x1_mem_set lio p.1 p.2)).
Proof.
  induction l as [|p l IH]; [apply does_ret|]. rewrite fmap_cons. cbn [for_each].
  apply (does_bind _ [_]); [apply does_set|done].
Qed.

Lemma does_program : does (S:=world) mem_write program_effects (mem_program lio).
Proof.
  unfold mem_program. apply (does_bind _ []); [apply does_upd|intros _].
  apply (does_bind _ []); [apply does_expect|intros _].
  apply (does_bind _ []); [apply does_upd|intros _].
  apply (does_bind _ program_effects []); [apply does_sets|intros _].
  apply (does_bind _ []); [apply does_verify|intros _].
  apply (does_bind _ []); [apply does_expect|intros _].
  apply (does_bind _ []); [apply does_upd|intros _]. apply does_check.
Qed.

Lemma does_enable : does (S:=world) mem_write enable_effects (mem_enable lio).
Proof.
  unfold mem_enable, enable_effects.
  apply (does_bind _ []); [apply does_upd|intros _].
  apply (does_bind _ []); [apply does_upd|intros _].
  apply (does_bind _ [_] []); [apply does_write|intros _].
  apply (does_bind _ []); [apply does_await|intros _].
  apply (does_bind _ []); [apply does_upd|intros _].
  apply (does_bind _ []); [apply does_verify|intros _].
  apply (does_bind _ []); [apply does_expect|intros _]. apply does_upd.
Qed.

(** The trace of a completed programming phase: the region was idle, every
    word was written and read back, every word was read back again, and the
    region was still idle. *)
Definition program_trace : list mem_event :=
  [MRead 0x1204 0] ++ flat_map (λ p, [MWrite p.1 p.2; MRead p.1 p.2]) mem_words ++
  flat_map (λ p, [MRead p.1 p.2]) mem_words ++ [MRead 0x1204 0].

Lemma upd_logs f : ok_logs (S:=world) [] (upd f).
Proof. intros [m c] a s' [= <- <-]. by rewrite app_nil_r. Qed.

Lemma check_logs : ok_logs (S:=world) [] (call_io (mio_check lio)).
Proof.
  intros [m [s l]] a s'. unfold call_io. simpl. destruct (mio_check io s) as [r s1].
  destruct (r =? 0); intros [= <-]. subst s'. unfold get_log, mem_logged. simpl.
  by rewrite app_nil_r.
Qed.

Lemma expect_logs off v : ok_logs (S:=world) [MRead off v] (x1_mem_expect lio off v).
Proof.
  intros w a w' E. unfold x1_mem_expect in E. apply bind_ok_inv in E as (got&w1&E1&E2).
  destruct (Z.eqb_spec got v) as [->|]; [|done]. injection E2 as _ ->.
  unfold x1_mem_read in E1. destruct (negb _); [done|].
  apply bind_ok_inv in E1 as (u&w2&E1&E2). rewrite <- (app_nil_l [_]), app_assoc.
  rewrite <- (check_logs _ _ _ E1). destruct w2 as [m [s l]]. simpl in E2.
  destruct (mio_read io off s) as [[r x] s1]. destruct (r =? 0); [|done].
  injection E2 as <- <-. done.
Qed.

Lemma set_logs off v : ok_logs (S:=world) [MWrite off v; MRead off v] (x1_mem_set lio off v).
Proof.
  unfold x1_mem_set. destruct (negb _); [by intros ???|].
  apply (ok_logs_bind []); [apply check_logs|intros _].
  apply (ok_logs_bind []); [apply upd_logs|intros _].
  apply (ok_logs_bind [_] [_]); [|intros _; apply expect_logs].
  intros [m [s l]] a s'. unfold call_io. simpl. destruct (mio_write io off v s) as [r s1].
  by destruct (r =? 0); intros [= <- <-].
Qed.

Lemma program_logs : ok_logs (S:=world) program_trace (mem_program lio).
Proof.
  unfold mem_program, program_trace.
  apply (ok_logs_bind []); [apply upd_logs|intros _].
  apply (ok_logs_bind [_]); [apply expect_logs|intros _].
  apply (ok_logs_bind []); [apply upd_logs|intros _].
  refine (ok_logs_bind (flat_map (λ p, [MWrite p.1 p.2; MRead p.1 p.2]) mem_words)
    (flat_map (λ p, [MRead p.1 p.2]) mem_words ++ [MRead 0x1204 0]) _ _ _ _);
    [apply ok_logs_for_each; intros p; apply set_logs|intros _].
  refine (ok_logs_bind (flat_map (λ p, [MRead p.1 p.2]) mem_words) [MRead 0x1204 0] _ _ _ _);
    [apply ok_logs_for_each; intros p; apply expect_logs|intros _].
  apply (ok_logs_bind [_] []); [apply expect_logs|intros _].
  apply (ok_logs_bind []); [apply upd_logs|intros _]. apply check_logs.
Qed.

Lemma enable_completes w w' : mem_enable lio w = (Ok tt, w') → ms_complete w'.1 = true.
Proof.
  unfold mem_enable. intros E. ok_inv.
  match goal with H : upd set_complete ?s = _ |- _ => destruct s; by injection H as <- end.
Qed.

(** The one-shot latch survives every step. *)
Definition latched (w w' : world) : Prop := ms_attempted w'.1 = ms_attempted w.1.
#[export] Instance latched_preorder : PreOrder latched.
Proof. split; [done|]. intros w1 w2 w3 H1 H2. unfold latched in *. congruence. Qed.

Lemma latched_upd f : (∀ m, ms_attempted (f m) = ms_attempted m) → keeps latched (upd f).
Proof. intros Hf [m c]. apply Hf. Qed.
Lemma latched_call f : keeps latched (call_io f).
Proof. intros [m c]. unfold call_io. by destruct (f c). Qed.
Lemma latched_read off : keeps latched (x1_mem_read lio off).
Proof.
  unfold x1_mem_read. pose proof latched_call. keeps_auto. intros [m [s l]]. simpl.
  by destruct (mio_read io off s) as [[r v] s'].
Qed.
Lemma latched_body : keeps latched (do! mem_program lio in mem_enable lio).
Proof.
  pose proof latched_call. pose proof latched_read.
  assert (∀ o v, keeps latched (x1_mem_expect lio o v)) by (intros; unfold x1_mem_expect; keeps_auto).
  assert (∀ n, keeps latched (mem_await lio n))
    by (intros n; induction n; cbn [mem_await]; keeps_auto).
  unfold mem_program, mem_enable, mem_verify, x1_mem_set.
  keeps_auto; try (by apply latched_upd); apply keeps_for_each; try typeclasses eauto;
    intros p _; keeps_auto; by apply latched_upd.
Qed.

(** Programming the outbound window, for every behaviour of the callbacks:
    a second attempt is refused with nothing touched; the only writes are the
    seven fixed words in order and then the single enable, an error leaving a
    prefix; the enable is never written unless the region was idle, all seven
    words were read back twice with their exact values and the region was still
    idle; success means complete, and the errno is recorded. *)
Theorem mem_prepare_outcomes m c :
  let '(r, (m', c')) := x1_mem_prepare lio (m, c) in
  if ms_attempted m then r = Err (-EALREADY) ∧ m' = m ∧ c' = c else
  ms_attempted m' = true ∧ ms_error m' = code r ∧ ∃ t, c'.2 = c.2 ++ t ∧
    match r with
    | Ok _ => ms_complete m' = true ∧ matches mem_write (program_effects ++ enable_effects) t ∧
        program_trace `prefix_of` t
    | Err _ => (∃ k, matches mem_write (take k program_effects) t) ∨
        (program_trace `prefix_of` t ∧
         ∃ k, matches mem_write (program_effects ++ take k enable_effects) t)
    | Fault => False
    end.
Proof.
  unfold x1_mem_prepare. unfold bind at 1. cbn [get fst]. destruct (ms_attempted m) eqn:Ea; [done|].
  unfold bind at 1. cbn [upd modify]. set (w0 := (set_attempted m, c)).
  unfold recording. pose proof (latched_body w0) as Hl. unfold bind in *.
  destruct (does_program w0) as (t1&Ht1&Hp1). pose proof (program_logs w0) as Hlog.
  destruct (mem_program lio w0) as [[[]|e|] w1]; [| |done].
  - specialize (Hlog tt w1 eq_refl). cbn [fst snd] in *. rewrite Ht1 in Hlog.
    apply app_inv_head in Hlog.
    destruct (does_enable w1) as (t2&Ht2&Hp2). pose proof (enable_completes w1) as Hc.
    destruct (mem_enable lio w1) as [[[]|e|] [m2 c2]]; [| |done];
      unfold get_log, mem_logged in *; simpl in *; (split; [done|]); (split; [done|]);
      exists (t1 ++ t2); (split; [by rewrite Ht2, Ht1, app_assoc|]); subst t1.
    + split_and!; [by apply (Hc (m2, c2))| |by exists t2].
      exact (matches_app mem_write program_effects enable_effects _ _ Hp1 Hp2).
    + right. split; [by exists t2|]. destruct Hp2 as (k&Hk). exists k.
      exact (matches_app mem_write program_effects (take k enable_effects) _ _ Hp1 Hk).
  - destruct w1 as [m1 c1]. unfold get_log, mem_logged in *; simpl in *.
    split; [done|]. split; [done|]. exists t1. split; [done|]. by left.
Qed.
End claims.

(** A register file that never refuses: the window comes up. *)
Definition mem_file : x1_mem_io (Z → Z) := {|
  mio_check s := (0, s); mio_read off s := (0, s off, s);
  mio_write off v s := (0, λ a, if a =? off then v else s a); mio_delay _ s := (0, s) |}.

Example mem_comes_up :
  (x1_mem_prepare mem_file (MemState false false false 0 0 "", λ _, 0)).1 = Ok tt ∧
  ms_writes (x1_mem_prepare mem_file (MemState false false false 0 0 "", λ _, 0)).2.1 = 8.
Proof. by vm_compute. Qed.
