(* ===== verification/ImsiPolicy.v ===== *)
(** * Receiver-test policies
    (experiments/el1-pci0/kernel/drivers/thunderbolt/x1-imsi-policy.c, .h)

    What the kernel reports about devices, nodes and interrupts is the record
    [policy_env]: the facts the functions test, some of them at the time of the
    test.  The PARF block is any register device. *)

From S2P Require Import Prelude.

Definition X1_POLICY_STATUS : Z := 0x224.
Definition X1_POLICY_MASK : Z := 0x22c.
(** GENMASK(30, 23) *)
Definition X1_POLICY_BANKS : Z := 0x7f800000.
Definition X1_POLICY_LINK_UP : Z := BIT 13.

(** The receipts of [struct x1_imsi_policy]; its pointers are in the
    environment. *)
Record x1_imsi_policy := Policy {
  po_global_attempted : bool;
  po_global_ready : bool;
  po_target_attempted : bool;
  po_target_ready : bool;
  po_mask_write_issued : bool;
  po_mask_write_returned : bool;
  po_mask_before : Z;
  po_mask_after : Z;
  po_status_before : Z;
  po_status_after : Z;
  po_target : Z;
  po_memory_windows : Z;
  po_global_error : Z;
  po_target_error : Z;
}.

Definition policy_zero : x1_imsi_policy :=
  Policy false false false false false false 0 0 0 0 0 0 0 0.

#[export] Instance eta_policy : Eta x1_imsi_policy := λ p, Policy (po_global_attempted p)
  (po_global_ready p) (po_target_attempted p) (po_target_ready p) (po_mask_write_issued p)
  (po_mask_write_returned p) (po_mask_before p) (po_mask_after p) (po_status_before p)
  (po_status_after p) (po_target p) (po_memory_windows p) (po_global_error p) (po_target_error
  p).

Definition po_set_global_attempted p := p <| po_global_attempted := true |>.
Definition po_set_global_ready p := p <| po_global_ready := true |>.
Definition po_set_target_attempted t p :=
  p <| po_target_attempted := true |> <| po_target := t |>.
Definition po_set_target_ready p := p <| po_target_ready := true |>.
Definition po_set_issued p := p <| po_mask_write_issued := true |>.
Definition po_set_returned p := p <| po_mask_write_returned := true |>.
Definition po_set_mask_before v p := p <| po_mask_before := v |>.
Definition po_set_mask_after v p := p <| po_mask_after := v |>.
Definition po_set_status_before v p := p <| po_status_before := v |>.
Definition po_set_status_after v p := p <| po_status_after := v |>.
Definition po_count_window p := p <| po_memory_windows := u32 (po_memory_windows p + 1) |>.
Definition po_set_global_error e p := p <| po_global_error := e |>.
Definition po_set_target_error e p := p <| po_target_error := e |>.

(** What [irq_get_irq_data] and its neighbours say of the global interrupt. *)
Record irq_view := {
  iv_domain_is_intc : bool;
  iv_hwirq : Z;
  iv_level_high : bool;
  iv_disabled : bool;
  iv_has_action : bool;
  iv_handler_data : bool;
}.

Record policy_env (D : Type) := {
  pe_pointers : bool;           (* pdev, owner, bridge, parf, check_live non-NULL *)
  pe_check_live : D → Z * D;
  pe_pdev_active : D → bool;    (* pm_runtime_active(&p->pdev->dev) *)
  pe_owner_active : D → bool;   (* pm_runtime_active(p->owner) *)
  pe_machine : bool;            (* of_machine_is_compatible("lenovo,yoga-slim7x") *)
  pe_bridge_parent : bool;      (* p->bridge->dev.parent == &p->pdev->dev *)
  pe_bridge_bus : bool;         (* p->bridge->bus *)
  pe_drivers : bool;            (* both drivers bound, both suppress_bind_attrs *)
  pe_host_node : bool;          (* host node found, ours, and compatible *)
  pe_owner_node : bool;         (* owner node found, ours, and compatible *)
  pe_parf_resource : option (Z * Z);   (* start, size *)
  pe_global_irq : D → Z;        (* platform_get_irq_byname(p->pdev, "global") *)
  pe_irq_data : Z → D → option irq_view;
}.
Arguments pe_pointers {_} _.
Arguments pe_check_live {_} _ _.
Arguments pe_pdev_active {_} _ _.
Arguments pe_owner_active {_} _ _.
Arguments pe_machine {_} _.
Arguments pe_bridge_parent {_} _.
Arguments pe_bridge_bus {_} _.
Arguments pe_drivers {_} _.
Arguments pe_host_node {_} _.
Arguments pe_owner_node {_} _.
Arguments pe_parf_resource {_} _.
Arguments pe_global_irq {_} _ _.
Arguments pe_irq_data {_} _ _ _.

Inductive resource_type := IORESOURCE_BUS | IORESOURCE_MEM | IORESOURCE_OTHER.
#[export] Instance resource_type_eq_dec : EqDecision resource_type.
Proof. solve_decision. Defined.

Record resource := Resource { r_type : resource_type; r_start : Z; r_end : Z }.
(** [struct resource_entry]: the resource may be absent. *)
Record resource_entry := Window { w_res : option resource; w_offset : Z }.

Section policy.
Context {D : Type} `{Mmio Z D} (env : policy_env D).
Abbreviation P := (M (x1_imsi_policy * D)).

Definition note (f : x1_imsi_policy → x1_imsi_policy) : P unit := modify (λ '(p, d), (f p, d)).
Definition dev {A} (m : M D A) : P A := λ '(p, d), let (r, d) := m d in (r, (p, d)).

Definition x1_policy_live : P unit := λ '(p, d),
  let (ret, d) := pe_check_live env d in
  if ret !=? 0 then (Err (if ret <? 0 then ret else -EIO), (p, d)) else
  if negb (pe_pdev_active env d) || negb (pe_owner_active env d)
  then (Err (-EHOSTDOWN), (p, d)) else (Ok tt, (p, d)).

Definition x1_policy_admit : P unit :=
  if negb (pe_pointers env) then fail (-EINVAL) else
  if negb (pe_machine env) || negb (pe_bridge_parent env) || pe_bridge_bus env ||
     negb (pe_drivers env) then fail (-ENODEV) else
  if negb (pe_host_node env) then fail (-ENODEV) else
  if negb (pe_owner_node env) then fail (-ENODEV) else
  match pe_parf_resource env with
  | None => fail (-ENODEV)
  | Some (start, size) =>
      if (start !=? 0x1c28000) || (size !=? 0x8000) then fail (-ENODEV) else x1_policy_live
  end.

Definition irq_idle (v : option irq_view) : bool :=
  match v with
  | None => false
  | Some v => iv_domain_is_intc v && (iv_hwirq v =? 167 + 32) && iv_level_high v &&
              iv_disabled v && negb (iv_has_action v) && negb (iv_handler_data v)
  end.

Definition x1_policy_global_idle (irq : Z) : P unit :=
  do! x1_policy_live in
  λ '(p, d),
    if (irq <=? 0) || (pe_global_irq env d !=? irq) then (Err (-EINVAL), (p, d)) else
    if irq_idle (pe_irq_data env irq d) then (Ok tt, (p, d)) else (Err (-EBUSY), (p, d)).

(** [p->parf + off] *)
Definition parf_read (off : Z) : P Z := dev (readl off).

(** From the last check before the write to [global_ready]. *)
Definition policy_global_commit (irq mask : Z) : P unit :=
  let desired := mask .| X1_POLICY_BANKS in
  do! x1_policy_global_idle irq in
  do! (if desired !=? mask then
         do! note po_set_issued in
         do! dev (writel desired X1_POLICY_MASK) in
         note po_set_returned
       else ret tt) in
  let! after := parf_read X1_POLICY_MASK in
  do! note (po_set_mask_after after) in
  if after !=? desired then fail (-EIO) else
  do! x1_policy_global_idle irq in
  let! status := parf_read X1_POLICY_STATUS in
  do! note (po_set_status_after status) in
  if tst status (not32 X1_POLICY_LINK_UP) then fail (-EBUSY) else
  do! x1_policy_global_idle irq in
  note po_set_global_ready.

(** The body up to [out:]. *)
Definition policy_global_body (irq : Z) : P unit :=
  do! x1_policy_admit in
  do! x1_policy_global_idle irq in
  let! status := parf_read X1_POLICY_STATUS in
  do! note (po_set_status_before status) in
  if tst status (not32 X1_POLICY_LINK_UP) then fail (-EBUSY) else
  do! x1_policy_global_idle irq in
  let! mask := parf_read X1_POLICY_MASK in
  do! note (po_set_mask_before mask) in
  if mask =? U32_MAX then fail (-EIO) else
  if mask .| X1_POLICY_BANKS =? U32_MAX then fail (-EIO) else
  policy_global_commit irq mask.

Definition x1_imsi_policy_global (irq : Z) : P unit :=
  let! st := get in
  if po_global_attempted st.1 then fail (-EALREADY) else
  do! note po_set_global_attempted in
  recording (policy_global_body irq) (λ e '(p, d), (po_set_global_error e p, d)).

(** [resource_list_for_each_entry]; [entries] have been counted so far. *)
Fixpoint policy_windows (wins : list resource_entry) (entries : Z) (target : Z) : P unit :=
  match wins with
  | [] => ret tt
  | win :: wins =>
      let entries := entries + 1 in
      if 16 <? entries then fail (-EINVAL) else
      match w_res win with
      | None => fail (-EINVAL)
      | Some res =>
          if decide (r_type res = IORESOURCE_BUS) then policy_windows wins entries target else
          if negb (bool_decide (r_type res = IORESOURCE_MEM)) || (r_end res <? r_start res) ||
             (r_start res <? w_offset win) then fail (-EINVAL) else
          let bus_start := r_start res - w_offset win in
          let bus_end := r_end res - w_offset win in
          let last := target + 7 in
          do! note po_count_window in
          if ((target <=? bus_end) && (bus_start <=? last)) ||
             ((target <=? r_end res) && (r_start res <=? last)) then fail (-ERANGE) else
          policy_windows wins entries target
      end
  end.

Definition policy_target_body (wins : list resource_entry) (target : Z) : P unit :=
  do! x1_policy_admit in
  if tst target 7 || (U64_MAX - 7 <? target) then fail (-EINVAL) else
  do! policy_windows wins 0 target in
  let! st := get in
  if po_memory_windows st.1 =? 0 then fail (-ENODEV) else
  do! x1_policy_live in
  note po_set_target_ready.

Definition x1_imsi_policy_target (wins : list resource_entry) (target : Z) : P unit :=
  let! st := get in
  if po_target_attempted st.1 then fail (-EALREADY) else
  do! note (po_set_target_attempted target) in
  recording (policy_target_body wins target) (λ e '(p, d), (po_set_target_error e p, d)).
End policy.

(** ** What the policies may do *)

(** The same environment beside a recorded device. *)
Definition traced_env {D} (env : policy_env D) : policy_env (traced Z D) := {|
  pe_pointers := pe_pointers env;
  pe_check_live s := let (r, d) := pe_check_live env (hw s) in (r, Traced d (log s));
  pe_pdev_active s := pe_pdev_active env (hw s);
  pe_owner_active s := pe_owner_active env (hw s);
  pe_machine := pe_machine env;
  pe_bridge_parent := pe_bridge_parent env;
  pe_bridge_bus := pe_bridge_bus env;
  pe_drivers := pe_drivers env;
  pe_host_node := pe_host_node env;
  pe_owner_node := pe_owner_node env;
  pe_parf_resource := pe_parf_resource env;
  pe_global_irq s := pe_global_irq env (hw s);
  pe_irq_data irq s := pe_irq_data env irq (hw s);
|}.

Section claims.
Context {D : Type} `{Mmio Z D} (env : policy_env D).
Abbreviation world := (x1_imsi_policy * traced Z D)%type.
Abbreviation tenv := (traced_env env).

(** A check: succeeds or fails, and leaves receipts and registers alone. *)
Definition quiet (m : M world unit) : Prop := ∀ p s,
  (∃ s', m (p, s) = (Ok tt, (p, s')) ∧ log s' = log s) ∨
  (∃ e s', m (p, s) = (Err e, (p, s')) ∧ log s' = log s ∧ e < 0).

Lemma quiet_fail e : e < 0 → quiet (fail e).
Proof. intros He p s. right. by exists e, s. Qed.

Lemma quiet_live : quiet (x1_policy_live tenv).
Proof.
  intros p s. unfold x1_policy_live. simpl. destruct (pe_check_live env (hw s)) as [r d].
  if_case E1; [right; eexists _, _; split_and!; [done..|]; by destruct (Z.ltb_spec r 0)|].
  if_case E2; [right|left]; by repeat eexists.
Qed.

Lemma quiet_admit : quiet (x1_policy_admit tenv).
Proof.
  unfold x1_policy_admit. repeat (if_case E; [by apply quiet_fail|clear E]).
  case_match; [|by apply quiet_fail].
  destruct p as [start size]. if_case E1; [by apply quiet_fail|]. apply quiet_live.
Qed.

Lemma quiet_idle irq : quiet (x1_policy_global_idle tenv irq).
Proof.
  intros p s. unfold x1_policy_global_idle, bind.
  destruct (quiet_live p s) as [(s'&->&El)|(e&s'&->&El&He)]; [|right; by eexists _, _].
  if_case E1; [right; by eexists _, _|]. if_case E2; [left|right]; by repeat eexists.
Qed.

(** [out:] of the global policy: the receipts tell what was done. *)
Definition clean (status : Z) : Prop := tst status (not32 X1_POLICY_LINK_UP) = false.

Definition global_post (s : traced Z D) (r : res unit) (p' : x1_imsi_policy)
    (s' : traced Z D) : Prop :=
  (writes (log s') = writes (log s) ∨
   (writes (log s') = writes (log s) ++
      [(X1_POLICY_MASK, po_mask_before p' .| X1_POLICY_BANKS)] ∧
    po_mask_before p' .| X1_POLICY_BANKS ≠ U32_MAX ∧
    po_mask_before p' ≠ po_mask_before p' .| X1_POLICY_BANKS ∧ clean (po_status_before p'))) ∧
  match r with
  | Ok _ => po_global_ready p' = true ∧
      po_mask_after p' = po_mask_before p' .| X1_POLICY_BANKS ∧
      clean (po_status_before p') ∧ clean (po_status_after p')
  | Err _ => True
  | Fault => False
  end.

(** Nothing written so far, and an error: the postcondition holds. *)
Lemma global_quiet s e p' s' :
  writes (log s') = writes (log s) → global_post s (Err e) p' s'.
Proof. intros E. split; [by left|done]. Qed.

Lemma parf_read_traced off p (s : traced Z D) :
  ∃ v s', parf_read off (p, s) = (Ok v, (p, s')) ∧ writes (log s') = writes (log s) ∧
    0 ≤ v < 2 ^ 32.
Proof.
  unfold parf_read, dev. destruct (readl_traced off s) as (v&d&->&Hv).
  eexists _, _. split; [done|]. simpl. by rewrite writes_app, app_nil_r.
Qed.

(** Banks are ordinary bits of the mask word. *)
Lemma banks_range v : 0 ≤ v < 2 ^ 32 → 0 ≤ v .| X1_POLICY_BANKS < 2 ^ 32.
Proof. intros Hv. apply lor_lt; [lia|done|]. by vm_compute. Qed.

Lemma mask_write_traced v p (s : traced Z D) :
  0 ≤ v < 2 ^ 32 →
  ∃ s', (do! note po_set_issued in do! dev (writel v X1_POLICY_MASK) in note po_set_returned)
      (p, s) = (Ok tt, (po_set_returned (po_set_issued p), s')) ∧
    writes (log s') = writes (log s) ++ [(X1_POLICY_MASK, v)].
Proof.
  intros Hv. eexists. split; [done|]. simpl. by rewrite writes_app, u32_small by done.
Qed.

(** The one-shot receipt is never cleared. *)
Definition attempted_kept (w w' : world) : Prop :=
  po_global_attempted w'.1 = po_global_attempted w.1.
#[export] Instance attempted_preorder : PreOrder attempted_kept.
Proof. split; [done|]. intros w1 w2 w3 H1 H2. unfold attempted_kept in *. congruence. Qed.

Lemma quiet_keeps m : quiet m → keeps attempted_kept m.
Proof. intros Hq [p s]. destruct (Hq p s) as [(s'&->&_)|(e&s'&->&_&_)]; done. Qed.

Lemma keeps_attempted irq : keeps attempted_kept (policy_global_body tenv irq).
Proof.
  pose proof (quiet_keeps _ quiet_admit). pose proof (λ i, quiet_keeps _ (quiet_idle i)).
  assert (∀ A (m : M (traced Z D) A), keeps attempted_kept (dev m))
    by (intros A m [p s]; unfold dev; by destruct (m s)).
  unfold policy_global_body, policy_global_commit, parf_read.
  keeps_auto; apply keeps_modify; by intros [? ?].
Qed.

(** Run one check and set aside its failure. *)
Ltac check_step H :=
  unfold bind at 1;
  match goal with |- context [match ?m (?p, ?s) with _ => _ end] =>
    let s' := fresh "s" in let e := fresh "e" in let El := fresh "El" in
    destruct (H p s) as [(s'&->&El)|(e&s'&->&El&_)];
    [|apply global_quiet; congruence]
  end.
Ltac parf_step :=
  unfold bind at 1;
  match goal with |- context [match parf_read ?off (?p, ?s) with _ => _ end] =>
    let v := fresh "v" in let s' := fresh "s" in let El := fresh "El" in let Hv := fresh "Hv" in
    destruct (parf_read_traced off p s) as (v&s'&->&El&Hv)
  end;
  match goal with |- context [bind (note ?f)] =>
    unfold bind at 1; cbn [note modify] end.

Lemma commit_post irq p s :
  0 ≤ po_mask_before p < 2 ^ 32 → po_mask_before p .| X1_POLICY_BANKS ≠ U32_MAX →
  clean (po_status_before p) →
  let '(r, (p', s')) := policy_global_commit tenv irq (po_mask_before p) (p, s) in
  global_post s r p' s'.
Proof.
  intros Hm Hd Hc. unfold policy_global_commit. set (desired := po_mask_before p .| _) in *.
  check_step (quiet_idle irq).
  set (written := writes (log s) ++ (if desired =? po_mask_before p then []
                                     else [(X1_POLICY_MASK, desired)])).
  assert (∃ p1 s1, (if desired !=? po_mask_before p then
         do! note po_set_issued in
         do! dev (writel desired X1_POLICY_MASK) in
         note po_set_returned
       else ret tt) (p, s0) = (Ok tt, (p1, s1)) ∧ writes (log s1) = written ∧
       po_mask_before p1 = po_mask_before p ∧ po_status_before p1 = po_status_before p)
    as (p1&s1&E1&Ew&Eb&Es).
  { subst written. destruct (desired =? po_mask_before p); cbn [negb].
    - exists p, s0. by rewrite app_nil_r, <- El.
    - destruct (mask_write_traced desired p s0) as (s1&->&Ew); [by apply banks_range|].
      eexists _, s1. split; [done|]. by rewrite Ew, El. }
  assert (∀ r p' s', po_mask_before p' = po_mask_before p → po_status_before p' = po_status_before p →
    writes (log s') = written → r ≠ Fault →
    (r = Ok tt → po_global_ready p' = true ∧ po_mask_after p' = desired ∧ clean (po_status_after p')) →
    global_post s r p' s') as Hpost.
  { intros r p' s' Eb' Es' Ew' Hf Hok. split.
    - rewrite Ew', Eb', Es'. subst written.
      destruct (Z.eqb_spec desired (po_mask_before p)); [left; by rewrite app_nil_r|].
      right. split_and!; (done || congruence).
    - destruct r as [[]|e|]; [|done|done]. rewrite Eb', Es'.
      destruct (Hok eq_refl) as (?&?&?). by split_and!. }
  unfold bind at 1. rewrite E1. parf_step.
  destruct (Z.eqb_spec v desired) as [->|]; cbn [negb].
  2: { apply Hpost; simpl; congruence. }
  unfold bind at 1. match goal with |- context [x1_policy_global_idle _ _ (?p2, ?s2)] =>
    destruct (quiet_idle irq p2 s2) as [(s3&->&El3)|(e&s3&->&El3&_)] end.
  2: { apply Hpost; simpl; congruence. }
  parf_step. destruct (tst v _) eqn:Ev. { apply Hpost; simpl; congruence. }
  unfold bind at 1. match goal with |- context [x1_policy_global_idle _ _ (?p2, ?s2)] =>
    destruct (quiet_idle irq p2 s2) as [(s5&->&El5)|(e&s5&->&El5&_)] end.
  all: apply Hpost; simpl; (congruence || by intros).
Qed.

(** Enabling the MSI source bits, for every device and every answer of the
    kernel: status is never written; the only possible write is the mask word
    with exactly the eight bank bits added to the value just read, made at most
    once, only after a status free of anything but link-up, and never when the
    word is all ones; success means the readback equalled it with a clean status
    again; a second call is refused and changes nothing. *)
Theorem policy_global_outcomes irq p s :
  let '(r, (p', s')) := x1_imsi_policy_global tenv irq (p, s) in
  if po_global_attempted p then r = Err (-EALREADY) ∧ p' = p ∧ s' = s
  else po_global_attempted p' = true ∧ po_global_error p' = code r ∧ global_post s r p' s'.
Proof.
  unfold x1_imsi_policy_global. unfold bind at 1. cbn [get fst].
  destruct (po_global_attempted p) eqn:Ea; [done|]. unfold bind at 1. cbn [note modify].
  set (p0 := po_set_global_attempted p). unfold recording.
  pose proof (keeps_attempted irq (p0, s)) as Hk.
  assert (let '(r, (p', s')) := policy_global_body tenv irq (p0, s) in global_post s r p' s') as Hb.
  { unfold policy_global_body. check_step quiet_admit. check_step (quiet_idle irq).
    parf_step. destruct (tst v _) eqn:Ev; [apply global_quiet; congruence|].
    check_step (quiet_idle irq). parf_step.
    destruct (Z.eqb_spec v0 U32_MAX); [apply global_quiet; congruence|].
    destruct (Z.eqb_spec (v0 .| X1_POLICY_BANKS) U32_MAX); [apply global_quiet; congruence|].
    match goal with |- context [policy_global_commit _ _ _ (?p2, ?s2)] =>
      assert (writes (log s2) = writes (log s)) as Ew by congruence;
      pose proof (commit_post irq p2 s2 Hv0 n0 Ev) as Hc;
      change (po_mask_before p2) with v0 in Hc;
      destruct (policy_global_commit tenv irq v0 (p2, s2)) as [r [p9 s9]] end.
    unfold global_post in *. by rewrite Ew in Hc. }
  destruct (policy_global_body tenv irq (p0, s)) as [[[]|e|] [p' s']]; cbn [snd fst] in *;
    [..|by destruct Hb].
  all: split; [exact Hk|]; split; [done|]; exact Hb.
Qed.

(** ** The doorbell target *)

(** Eight bytes at [target] miss the window in both address spaces. *)
Definition window_clear (target : Z) (win : resource_entry) : Prop :=
  ∃ res, w_res win = Some res ∧
    (r_type res = IORESOURCE_BUS ∨
     r_type res = IORESOURCE_MEM ∧ w_offset win ≤ r_start res ≤ r_end res ∧
     (∀ a, target ≤ a ≤ target + 7 → ¬ (r_start res ≤ a ≤ r_end res)) ∧
     (∀ a, target ≤ a ≤ target + 7 →
        ¬ (r_start res - w_offset win ≤ a ≤ r_end res - w_offset win))).

Definition is_memory (win : resource_entry) : bool :=
  match w_res win with Some res => bool_decide (r_type res = IORESOURCE_MEM) | None => false end.

Lemma windows_result wins n target p (s : traced Z D) :
  match policy_windows wins n target (p, s) with
  | (Ok _, (p', s')) => s' = s ∧ n + Z.of_nat (length wins) ≤ 16 `max` n ∧
      Forall (window_clear target) wins ∧
      (existsb is_memory wins = false → po_memory_windows p' = po_memory_windows p)
  | (Err e, (_, s')) => s' = s ∧ e ∈ [-EINVAL; -ERANGE]
  | (Fault, _) => False
  end.
Proof.
  revert n p. induction wins as [|win wins IH]; intros n p; cbn [policy_windows].
  { simpl. split_and!; [done|lia|constructor|done]. }
  if_case E1; [split; [done|set_solver]|].
  destruct (w_res win) as [res|] eqn:Er; [|split; [done|set_solver]].
  destruct (decide (r_type res = IORESOURCE_BUS)) as [Hb|Hb].
  - specialize (IH (n + 1) p). destruct (policy_windows wins (n + 1) target (p, s))
      as [[[]|e|] [p' s']]; [|done|done].
    destruct IH as (->&Hn&Hf&Hm). cbn [length existsb]. split_and!; [done|lia| |].
    + constructor; [|done]. exists res. auto.
    + unfold is_memory at 1. rewrite Er, Hb. done.
  - if_case E2; [split; [done|set_solver]|]. unfold bind. cbn [note modify].
    if_case E3; [split; [done|set_solver]|].
    specialize (IH (n + 1) (po_count_window p)).
    destruct (policy_windows wins (n + 1) target (po_count_window p, s)) as [[[]|e|] [p' s']];
      [|done|done].
    destruct IH as (->&Hn&Hf&Hm). cbn [length existsb].
    assert (r_type res = IORESOURCE_MEM) as Ht.
    { destruct (decide (r_type res = IORESOURCE_MEM)) as [?|Hn']; [done|].
      rewrite bool_decide_eq_false_2 in E2 by done. done. }
    split_and!; [done|lia| |].
    + constructor; [|done]. exists res. split; [done|]. right.
      split_and!; [done|lia|lia|intros; lia|intros; lia].
    + unfold is_memory at 1. rewrite Er, bool_decide_eq_true_2 by done. done.
Qed.

(** Accepting a doorbell address, for every set of windows: success means
    the address is 8-byte aligned, its eight bytes stay inside 64 bits, at most
    16 windows were listed, at least one of them memory, and no byte of the
    doorbell lies in any memory window, seen as a bus or as a CPU address; no
    register is touched on any path, and a second call is refused. *)
Theorem policy_target_outcomes wins target p s :
  let '(r, (p', s')) := x1_imsi_policy_target tenv wins target (p, s) in
  log s' = log s ∧
  if po_target_attempted p then r = Err (-EALREADY) ∧ p' = p
  else po_target_error p' = code r ∧
    match r with
    | Ok _ => po_target_ready p' = true ∧ target .& 7 = 0 ∧ target + 7 ≤ U64_MAX ∧
        (length wins ≤ 16)%nat ∧ Forall (window_clear target) wins ∧
        (po_memory_windows p = 0 → existsb is_memory wins = true)
    | Err e => e < 0
    | Fault => False
    end.
Proof.
  unfold x1_imsi_policy_target. unfold bind at 1. cbn [get fst].
  destruct (po_target_attempted p) eqn:Ea; [done|]. unfold bind at 1. cbn [note modify].
  set (p0 := po_set_target_attempted target p). unfold recording, policy_target_body.
  unfold bind at 1. destruct (quiet_admit p0 s) as [(s1&->&El)|(e&s1&->&El&He)].
  2: { done. }
  if_case E1; [done|]. unfold bind at 1. pose proof (windows_result wins 0 target p0 s1) as Hw.
  destruct (policy_windows wins 0 target (p0, s1)) as [[[]|e|] [p2 s2]]; [| |done].
  2: { destruct Hw as [-> He]. split; [done|]. split; [done|]. simpl.
       rewrite !list_elem_of_In in He. simpl in He. unfold EINVAL, ERANGE in *. lia. }
  destruct Hw as (->&Hn&Hf&Hm). unfold bind at 1. cbn [get fst].
  destruct (Z.eqb_spec (po_memory_windows p2) 0) as [|Hmw]; [done|].
  unfold bind. destruct (quiet_live p2 s1) as [(s3&->&El3)|(e&s3&->&El3&He)].
  2: { cbn. split; [congruence|done]. }
  cbn. split; [congruence|]. split; [done|]. apply orb_false_iff in E1 as [E1 E2].
  split_and!; [done|unfold tst in E1; lia|lia|lia|done|].
  intros H0. destruct (existsb is_memory wins); [done|]. by rewrite Hm in Hmw.
Qed.
End claims.

(** A live board, link-up pending, mask clear: both policies succeed. *)
Definition live_env : policy_env (regs Z) := {|
  pe_pointers := true; pe_check_live d := (0, d);
  pe_pdev_active _ := true; pe_owner_active _ := true; pe_machine := true;
  pe_bridge_parent := true; pe_bridge_bus := false; pe_drivers := true;
  pe_host_node := true; pe_owner_node := true; pe_parf_resource := Some (0x1c28000, 0x8000);
  pe_global_irq _ := 77;
  pe_irq_data _ _ := Some {| iv_domain_is_intc := true; iv_hwirq := 199; iv_level_high := true;
    iv_disabled := true; iv_has_action := false; iv_handler_data := false |} |}.

Definition link_up_regs : regs Z := λ a, if a =? X1_POLICY_STATUS then BIT 13 else 0.

Example policies_succeed :
  (x1_imsi_policy_global live_env 77 (policy_zero, link_up_regs)).1 = Ok tt ∧
  (x1_imsi_policy_target live_env
     [Window (Some (Resource IORESOURCE_BUS 0 255)) 0;
      Window (Some (Resource IORESOURCE_MEM 0x40000000 0x4fffffff)) 0]
     0x80001000 (policy_zero, link_up_regs)).1 = Ok tt ∧
  (x1_imsi_policy_target live_env
     [Window (Some (Resource IORESOURCE_MEM 0x40000000 0x4fffffff)) 0]
     0x4ffffff8 (policy_zero, link_up_regs)).1 = Err (-ERANGE).
Proof. by vm_compute. Qed.
