(* ===== verification/Imsi.v ===== *)
(** * The iMSI-RX receiver lifecycle
    (experiments/el1-pci0/kernel/drivers/thunderbolt/x1-imsi.c, .h)

    Every operation runs under [x1_imsi_lock], so each is one atomic step.
    Contexts are heap cells, a pointer is an index; [x1_imsi_active] is the
    global owner.  DesignWare's helpers, devres, the interrupt core and the
    caller's callbacks are the environment. *)

From S2P Require Import Prelude ImsiPolicy.

(** DBI registers (named in snapshot x1-pcie-msi-audit.h). *)
Definition PCIE_MSI_ADDR_LO : Z := 0x820.
Definition PCIE_MSI_ADDR_HI : Z := 0x824.
Definition PCIE_MSI_INTR0_ENABLE : Z := 0x828.
Definition PCIE_MSI_INTR0_MASK : Z := 0x82c.
Definition PCIE_MSI_INTR0_STATUS : Z := 0x830.
Definition X1_DBI : Z := 0x400000000.

Record x1_imsi_stop := Stop {
  sp_attempted : bool;
  sp_finished : bool;
  sp_banks_disabled : Z;
  sp_parents_detached : Z;
  sp_error : Z;
}.
#[export] Instance eta_stop : Eta x1_imsi_stop := λ s,
  Stop (sp_attempted s) (sp_finished s) (sp_banks_disabled s) (sp_parents_detached s) (sp_error s).

Record x1_imsi_receipt := Receipt {
  rc_attempted : bool;
  rc_retained : bool;
  rc_domain_ready : bool;
  rc_target_reserved : bool;
  rc_global_policy_complete : bool;
  rc_associated : bool;
  rc_ready : bool;
  rc_banks : Z;
  rc_vectors : Z;
  rc_target : Z;
  rc_error : Z;
  rc_step : string;
  rc_stop : x1_imsi_stop;
  rc_release_attempted : bool;
  rc_released : bool;
  rc_release_error : Z;
}.
#[export] Instance eta_receipt : Eta x1_imsi_receipt := λ c,
  Receipt (rc_attempted c) (rc_retained c) (rc_domain_ready c) (rc_target_reserved c)
    (rc_global_policy_complete c) (rc_associated c) (rc_ready c) (rc_banks c) (rc_vectors c)
    (rc_target c) (rc_error c) (rc_step c) (rc_stop c) (rc_release_attempted c)
    (rc_released c) (rc_release_error c).

(** The context: its receipt, the interrupts found at admission, the fields of
    [struct dw_pcie_rp] this code looks at, and the bridge association. *)
Record x1_imsi := Imsi {
  im_receipt : x1_imsi_receipt;
  im_parents : list Z;
  im_global : Z;
  im_target_group : bool;
  im_target_group_closed : bool;
  im_dbi_base : bool;         (* r->pci.dbi_base == r->request.dbi *)
  pp_irq_domain : bool;       (* non-NULL *)
  pp_use_imsi_rx : bool;
  pp_num_vectors : Z;
  pp_msi_data : Z;
  pp_msi_irq : list Z;
  pp_irq_mask : list Z;
  br_domain : bool;           (* the bridge device carries pp->irq_domain *)
  br_msi_domain : bool;       (* bridge->msi_domain *)
}.
#[export] Instance eta_imsi : Eta x1_imsi := λ r,
  Imsi (im_receipt r) (im_parents r) (im_global r) (im_target_group r)
    (im_target_group_closed r) (im_dbi_base r) (pp_irq_domain r) (pp_use_imsi_rx r)
    (pp_num_vectors r) (pp_msi_data r) (pp_msi_irq r) (pp_irq_mask r)
    (br_domain r) (br_msi_domain r).

Definition stop_zero : x1_imsi_stop := Stop false false 0 0 0.
(** [devm_kzalloc] *)
Definition imsi_zero : x1_imsi :=
  Imsi (Receipt false false false false false false false 0 0 0 0 "" stop_zero false false 0)
    (replicate 8 0) 0 false false false false false 0 0 (replicate 8 0) (replicate 8 0) false false.

(** What the tree and the interrupt core say of one named interrupt. *)
Record parent_facts := {
  pf_index : Z;               (* of_property_match_string *)
  pf_parse : Z;               (* of_irq_parse_one *)
  pf_np_intc : bool;          (* spec.np == intc *)
  pf_args_count : Z;
  pf_spi_level : bool;        (* args[0] == GIC_SPI, args[2] == IRQ_TYPE_LEVEL_HIGH *)
  pf_spi : Z;                 (* args[1] *)
  pf_irq : Z;                 (* platform_get_irq_byname *)
  pf_data : option irq_view;
}.

(** What [dw_pcie_msi_host_init] left in [pp]. *)
Record dw_init := { di_irq_domain : bool; di_num_vectors : Z; di_msi_data : Z; di_msi_irq : list Z }.

Inductive handler_data := HD_NONE | HD_OURS | HD_OTHER.
#[export] Instance handler_data_eq_dec : EqDecision handler_data.
Proof. solve_decision. Defined.

Record imsi_env (D : Type) := {
  ie_request : bool;                (* request, out and the checked pointers non-NULL *)
  ie_alloc : D → bool * D;          (* devm_kzalloc *)
  ie_check_live : D → Z * D;
  ie_active : D → bool;             (* both devices runtime active *)
  ie_device : bool;                 (* the first admission test *)
  ie_foreign : bool;                (* msi-map, iommus, another MSI domain *)
  ie_host_node : bool;
  ie_resources : bool;              (* three windows, nine interrupts *)
  ie_owner_node : bool;
  ie_smmu : option (Z * bool);      (* read of "status", reserved smmu-v3 *)
  ie_intc : bool;
  ie_parent : nat → parent_facts;
  ie_policies : bool;               (* global_route and target_check given *)
  ie_retain : D → Z * D;
  ie_open_group : D → bool * D;
  ie_host_init : D → Z * dw_init * D;
  ie_target_check : Z → D → Z * D;
  ie_msi_init : Z → D → D;          (* dw_pcie_msi_init *)
  ie_global_route : Z → D → Z * D;
  ie_handler : Z → D → handler_data;
  ie_has_action : Z → D → bool;
  ie_in_use : D → bool;             (* some vector of msi_irq_in_use is set *)
  ie_detach : Z → D → D;            (* disable_irq, irq_set_chained_handler_and_data *)
  ie_bridge_bus : D → bool;
  ie_bridge_registered : D → bool;
  ie_free_msi : D → D;
  ie_release_group : D → Z * D;
}.
Arguments ie_request {_} _.
Arguments ie_alloc {_} _ _.
Arguments ie_check_live {_} _ _.
Arguments ie_active {_} _ _.
Arguments ie_device {_} _.
Arguments ie_foreign {_} _.
Arguments ie_host_node {_} _.
Arguments ie_resources {_} _.
Arguments ie_owner_node {_} _.
Arguments ie_smmu {_} _.
Arguments ie_intc {_} _.
Arguments ie_parent {_} _ _.
Arguments ie_policies {_} _.
Arguments ie_retain {_} _ _.
Arguments ie_open_group {_} _ _.
Arguments ie_host_init {_} _ _.
Arguments ie_target_check {_} _ _ _.
Arguments ie_msi_init {_} _ _ _.
Arguments ie_global_route {_} _ _ _.
Arguments ie_handler {_} _ _ _.
Arguments ie_has_action {_} _ _ _.
Arguments ie_in_use {_} _ _.
Arguments ie_detach {_} _ _ _.
Arguments ie_bridge_bus {_} _ _.
Arguments ie_bridge_registered {_} _ _.
Arguments ie_free_msi {_} _ _.
Arguments ie_release_group {_} _ _.

Record imsi_world (D : Type) := IWorld {
  iw_heap : list x1_imsi;
  iw_active : option nat;
  iw_dev : D;
}.
Arguments IWorld {_} _ _ _.
Arguments iw_heap {_} _.
Arguments iw_active {_} _.
Arguments iw_dev {_} _.

Section imsi.
Context (MSI_REG_CTRL_BLOCK_SIZE : Z).
Context {D : Type} `{Mmio Z D} (env : imsi_env D).

(** A computation on one context and the device. *)
Abbreviation C := (M (x1_imsi * D)).

Definition cnote (f : x1_imsi → x1_imsi) : C unit := modify (λ '(r, d), (f r, d)).
Definition rnote (f : x1_imsi_receipt → x1_imsi_receipt) : C unit :=
  cnote (λ r, r <| im_receipt := f (im_receipt r) |>).
Definition cstep (n : string) : C unit := rnote (λ c, c <| rc_step := n |>).
Definition cdev {A} (m : M D A) : C A := λ '(r, d), let (x, d) := m d in (x, (r, d)).
Definition casks {A} (f : D → A) : C A := λ '(r, d), (Ok (f d), (r, d)).
Definition cdo (f : D → D) : C unit := modify (λ '(r, d), (r, f d)).
(** [ret = f(); if (ret) return ret < 0 ? ret : -EIO;] *)
Definition ccall (f : D → Z * D) : C unit := λ '(r, d),
  let (ret, d) := f d in
  if ret =? 0 then (Ok tt, (r, d)) else (Err (if ret <? 0 then ret else -EIO), (r, d)).

Definition x1_imsi_guard : C unit :=
  do! ccall (ie_check_live env) in
  let! active := casks (ie_active env) in
  if negb active then fail (-EHOSTDOWN) else ret tt.

Definition x1_imsi_parent (f : parent_facts) (index spi : Z) : res Z :=
  if pf_index f !=? index then Err (-EINVAL) else
  if pf_parse f !=? 0 then Err (pf_parse f) else
  if negb (pf_np_intc f && (pf_args_count f =? 3) && pf_spi_level f && (pf_spi f =? spi))
  then Err (-EINVAL) else
  if pf_irq f <=? 0 then Err (if pf_irq f =? 0 then -EINVAL else pf_irq f) else
  match pf_data f with
  | None => Err (-EBUSY)
  | Some v =>
      if negb (iv_domain_is_intc v) || (iv_hwirq v !=? spi + 32) || negb (iv_level_high v) ||
         iv_has_action v || iv_handler_data v then Err (-EBUSY)
      else Ok (pf_irq f)
  end.

Definition spis : list Z := [655; 657; 664; 668; 348; 349; 351; 702; 167].

(** Iteration [i] of the interrupt loop. *)
Definition admit_irq (i : nat) : C unit :=
  let! irq := lift (let? spi := word_of spis i in
                    x1_imsi_parent (ie_parent env i) (Z.of_nat i) spi) in
  let! st := get in
  if existsb (λ p, p =? irq) (take (i `min` 8) (im_parents st.1)) then fail (-EINVAL) else
  cnote (λ r, if decide (i = 8%nat) then r <| im_global := irq |>
              else r <| im_parents := <[i := irq]> (im_parents r) |>).

Definition x1_imsi_admit : C unit :=
  if negb (ie_device env) then fail (-ENODEV) else
  if ie_foreign env then fail (-EBUSY) else
  if negb (ie_host_node env) then fail (-ENODEV) else
  if negb (ie_resources env) then fail (-EINVAL) else
  if negb (ie_owner_node env) then fail (-ENODEV) else
  match ie_smmu env with
  | None => fail (-ENODEV)
  | Some (ret, reserved) =>
      if ret !=? 0 then fail ret else
      if negb reserved then fail (-ENODEV) else
      if negb (ie_intc env) then fail (-ENODEV) else
      for_each (seq 0 9) admit_irq
  end.

Definition x1_imsi_write_checked (offset value : Z) : C unit :=
  do! cdev (writel value offset) in
  let! got := cdev (readl offset) in
  if got =? value then ret tt else fail (-EIO).

Definition bank_off (i : nat) : Z := Z.of_nat i * MSI_REG_CTRL_BLOCK_SIZE.

(** [if (readl(off) != v) return e;] *)
Definition creq (off v e : Z) : C unit :=
  let! got := cdev (readl off) in if got =? v then ret tt else fail e.

Definition mask_bank (i : nat) : C unit :=
  do! x1_imsi_guard in
  do! x1_imsi_write_checked (PCIE_MSI_INTR0_MASK + bank_off i) U32_MAX in
  creq (PCIE_MSI_INTR0_STATUS + bank_off i) 0 (-EBUSY).

Definition verify_bank (i : nat) : C unit :=
  do! creq (PCIE_MSI_INTR0_MASK + bank_off i) U32_MAX (-EIO) in
  do! creq (PCIE_MSI_INTR0_ENABLE + bank_off i) U32_MAX (-EIO) in
  creq (PCIE_MSI_INTR0_STATUS + bank_off i) 0 (-EIO).

(** The tests between [dw_pcie_msi_host_init] and [target_check]. *)
Definition target_sane (r : x1_imsi) : bool :=
  bool_decide (pp_msi_irq r = im_parents r) &&
  pp_irq_domain r && (pp_num_vectors r =? 256) && (pp_msi_data r !=? U64_MAX) &&
  negb (tst (pp_msi_data r) 7) &&
  negb ((X1_DBI <=? pp_msi_data r) && (pp_msi_data r <? X1_DBI + 0x10000000)).

Definition setup_receiver : C unit :=
  do! cstep "initial-fence" in
  do! x1_imsi_guard in
  do! creq 0 0x011117cb (-EBUSY) in
  do! cstep "mask-eight-banks" in
  do! for_each (seq 0 8) mask_bank in
  do! cnote (λ r, r <| im_dbi_base := true |> <| pp_num_vectors := 256 |>) in
  do! cstep "dw-msi-host-init" in
  do! x1_imsi_guard in
  do! (λ '(r, d), let (ok, d) := ie_open_group env d in
         if ok : bool then (Ok tt, (r <| im_target_group := true |>, d))
         else (Err (-ENOMEM), (r, d))) in
  let! init := λ '(r, d), let '(ret, pp, d) := ie_host_init env d in (Ok (ret, pp), (r, d)) in
  do! cnote (λ r, r <| im_target_group_closed := true |>) in
  if init.1 !=? 0 then fail init.1 else
  let pp := init.2 in
  do! cnote (λ r, r <| pp_irq_domain := di_irq_domain pp |> <| pp_num_vectors := di_num_vectors pp |>
                    <| pp_msi_data := di_msi_data pp |> <| pp_msi_irq := di_msi_irq pp |>) in
  rnote (λ c, c <| rc_domain_ready := true |> <| rc_target_reserved := true |>
                <| rc_target := di_msi_data pp |> <| rc_banks := 8 |>
                <| rc_vectors := di_num_vectors pp |>).

Definition setup_program : C unit :=
  let! st := get in
  if negb (target_sane st.1) then fail (-EINVAL) else
  do! ccall (ie_target_check env (pp_msi_data st.1)) in
  do! cstep "dw-msi-register-init" in
  do! x1_imsi_guard in
  do! cnote (λ r, r <| pp_use_imsi_rx := true |>) in
  do! cdo (ie_msi_init env (pp_msi_data st.1)) in
  do! creq PCIE_MSI_ADDR_LO (u32 (pp_msi_data st.1)) (-EIO) in
  do! creq PCIE_MSI_ADDR_HI (u32 (pp_msi_data st.1 >> 32)) (-EIO) in
  for_each (seq 0 8) verify_bank.

Definition setup_associate : C unit :=
  do! cstep "global-route-policy" in
  do! x1_imsi_guard in
  let! st := get in
  do! ccall (ie_global_route env (im_global st.1)) in
  do! rnote (λ c, c <| rc_global_policy_complete := true |>) in
  do! cstep "bridge-domain" in
  do! x1_imsi_guard in
  do! cnote (λ r, r <| br_domain := true |> <| br_msi_domain := true |>) in
  do! rnote (λ c, c <| rc_associated := true |> <| rc_ready := true |>) in
  cstep "receiver-ready-no-endpoint-dma-proof".

Definition x1_imsi_setup : C unit :=
  do! setup_receiver in
  do! setup_program in
  setup_associate.

(** After allocation, up to [terminal:]. *)
Definition prepare_body : C unit :=
  do! rnote (λ c, c <| rc_attempted := true |>) in
  do! cstep "admission" in
  do! x1_imsi_admit in
  if negb (ie_policies env) then
    do! cstep "platform-policy-unresolved" in fail (-EOPNOTSUPP)
  else
    do! cstep "retain-cold-boot-lifetime" in
    do! ccall (ie_retain env) in
    do! rnote (λ c, c <| rc_retained := true |>) in
    x1_imsi_setup.

(** Run [m] on context [i]. *)
Definition on_ctx {A} (i : nat) (m : C A) : M (imsi_world D) A := λ w,
  match iw_heap w !! i with
  | None => (Fault, w)
  | Some r =>
      let '(x, (r', d)) := m (r, iw_dev w) in
      (x, IWorld (<[i := r']> (iw_heap w)) (iw_active w) d)
  end.

(** The result carries [*out]. *)
Definition x1_imsi_prepare : M (imsi_world D) (option nat) := λ w,
  if negb (ie_request env) then (Err (-EINVAL), w) else
  match iw_active w with
  | Some _ => (Err (-EALREADY), w)
  | None =>
      let (ok, d) := ie_alloc env (iw_dev w) in
      if negb ok then (Err (-ENOMEM), IWorld (iw_heap w) None d) else
      let i := length (iw_heap w) in
      let w := IWorld (iw_heap w ++ [imsi_zero]) (Some i) d in
      match on_ctx i (recording prepare_body (λ e '(r, d),
              (r <| im_receipt := (im_receipt r) <| rc_error := e |> |>, d))) w with
      | (Ok _, w) => (Ok (Some i), w)
      | (Err e, w) => (Err e, w)
      | (Fault, w) => (Fault, w)
      end
  end.

Definition x1_imsi_cached (i : nat) (w : imsi_world D) : option x1_imsi_receipt :=
  im_receipt <$> iw_heap w !! i.

(** ** Stop *)

Definition stop_admitted (r : x1_imsi) (d : D) : bool :=
  let c := im_receipt r in
  rc_ready c && (rc_error c =? 0) && rc_retained c && rc_associated c && rc_domain_ready c &&
  rc_target_reserved c && pp_irq_domain r && pp_use_imsi_rx r && (pp_num_vectors r =? 256) &&
  (rc_banks c =? 8) && im_dbi_base r &&
  forallb (λ p, (0 <? p) && bool_decide (ie_handler env p d = HD_OURS)) (im_parents r) &&
  bool_decide (pp_msi_irq r = im_parents r) && negb (ie_in_use env d).

Definition snote (f : x1_imsi_stop → x1_imsi_stop) : C unit :=
  rnote (λ c, c <| rc_stop := f (rc_stop c) |>).

Definition disable_bank (i : nat) : C unit :=
  do! cnote (λ r, r <| pp_irq_mask := <[i := U32_MAX]> (pp_irq_mask r) |>) in
  do! x1_imsi_write_checked (PCIE_MSI_INTR0_MASK + bank_off i) U32_MAX in
  do! x1_imsi_write_checked (PCIE_MSI_INTR0_ENABLE + bank_off i) 0 in
  snote (λ s, s <| sp_banks_disabled := sp_banks_disabled s + 1 |>).

(** One parent: [ret] becomes -EIO when its handler does not go away. *)
Definition detach_parent (ret : Z) (p : Z) : C Z :=
  do! cdo (ie_detach env p) in
  let! hd := casks (ie_handler env p) in
  if decide (hd = HD_NONE) then
    do! snote (λ s, s <| sp_parents_detached := sp_parents_detached s + 1 |>) in
    Prelude.ret ret
  else Prelude.ret (-EIO).

Fixpoint detach_all (ps : list Z) (ret : Z) : C Z :=
  match ps with
  | [] => Prelude.ret ret
  | p :: ps => let! ret := detach_parent ret p in detach_all ps ret
  end.

(** The bank loop's errno as a value: the loop breaks, the detach loop runs. *)
Definition stop_banks : C Z := λ c,
  match for_each (seq 0 8) disable_bank c with
  | (Ok _, c) => (Ok 0, c)
  | (Err e, c) => (Ok e, c)
  | (Fault, c) => (Fault, c)
  end.

Definition stop_body : C unit :=
  let! st := get in
  if sp_attempted (rc_stop (im_receipt st.1)) then fail (-EALREADY) else
  if negb (stop_admitted st.1 st.2) then fail (-EPERM) else
  do! snote (λ s, s <| sp_attempted := true |>) in
  let! ret := stop_banks in
  let! ret := detach_all (im_parents st.1) ret in
  do! snote (λ s, s <| sp_error := ret |> <| sp_finished := (ret =? 0) |>) in
  if ret =? 0 then Prelude.ret tt else fail ret.

Definition x1_imsi_stop_retained (i : nat) : M (imsi_world D) unit := on_ctx i stop_body.

(** ** Release and retirement *)

Definition release_admitted (r : x1_imsi) (d : D) : bool :=
  let c := im_receipt r in
  let s := rc_stop c in
  rc_ready c && (rc_error c =? 0) && rc_retained c && rc_associated c && rc_domain_ready c &&
  rc_target_reserved c && sp_attempted s && sp_finished s && (sp_error s =? 0) &&
  (sp_banks_disabled s =? 8) && (sp_parents_detached s =? 8) && im_target_group r &&
  im_target_group_closed r && pp_irq_domain r && (pp_num_vectors r =? 256) &&
  negb (ie_in_use env d) && negb (ie_bridge_bus env d) && negb (ie_bridge_registered env d) &&
  br_domain r && br_msi_domain r &&
  forallb (λ p, (0 <? p) && bool_decide (ie_handler env p d = HD_NONE) &&
                negb (ie_has_action env p d)) (im_parents r) &&
  bool_decide (pp_msi_irq r = im_parents r).

Definition release_body (check_stopped : D → Z * D) : C unit :=
  let! st := get in
  if rc_release_attempted (im_receipt st.1) then fail (-EALREADY) else
  if negb (release_admitted st.1 st.2) then fail (-EPERM) else
  do! (λ '(r, d), let (z, d) := check_stopped d in
         ((if z =? 0 then Ok tt else Err z), (r, d))) in
  do! rnote (λ c, c <| rc_release_attempted := true |> <| rc_associated := false |>) in
  do! cnote (λ r, r <| br_domain := false |> <| br_msi_domain := false |>) in
  do! cdo (ie_free_msi env) in
  do! cnote (λ r, r <| pp_irq_domain := false |> <| pp_use_imsi_rx := false |>) in
  do! rnote (λ c, c <| rc_domain_ready := false |> <| rc_ready := false |>) in
  let! n := λ '(r, d), let (n, d) := ie_release_group env d in (Ok n, (r, d)) in
  if n <=? 0 then
    let e := if n <? 0 then n else -ENOENT in
    do! rnote (λ c, c <| rc_release_error := e |>) in fail e
  else
    do! cnote (λ r, r <| im_target_group := false |> <| pp_msi_data := 0 |>) in
    rnote (λ c, c <| rc_target_reserved := false |> <| rc_released := true |>).

Definition x1_imsi_release_stopped (i : nat) (check_stopped : option (D → Z * D))
    : M (imsi_world D) unit :=
  match check_stopped with
  | None => fail (-EINVAL)
  | Some check => on_ctx i (release_body check)
  end.

Definition retire_admitted (r : x1_imsi) (d : D) : bool :=
  let c := im_receipt r in
  rc_released c && (rc_release_error c =? 0) && sp_finished (rc_stop c) &&
  (sp_error (rc_stop c) =? 0) && negb (rc_ready c) && negb (rc_associated c) &&
  negb (rc_domain_ready c) && negb (rc_target_reserved c) && negb (pp_irq_domain r) &&
  negb (im_target_group r) && negb (ie_bridge_bus env d) && negb (ie_bridge_registered env d) &&
  forallb (λ p, (0 <? p) && bool_decide (ie_handler env p d = HD_NONE) &&
                negb (ie_has_action env p d)) (im_parents r).

Definition x1_imsi_retire_context (i : nat) (check_stopped : option (D → Z * D))
    : M (imsi_world D) unit := λ w,
  match check_stopped with
  | None => (Err (-EINVAL), w)
  | Some check =>
      match iw_heap w !! i with
      | None => (Fault, w)
      | Some r =>
          if negb (bool_decide (iw_active w = Some i)) || negb (retire_admitted r (iw_dev w))
          then (Err (-EPERM), w) else
          let (z, d) := check (iw_dev w) in
          if z =? 0 then (Ok tt, IWorld (iw_heap w) None d)
          else (Err z, IWorld (iw_heap w) (iw_active w) d)
      end
  end.
End imsi.

(** ** The lifecycle invariant *)

Section lifecycle.
Context (BLOCK : Z).
Context {D : Type} `{Mmio Z D}.
Implicit Types (env : imsi_env D) (w : imsi_world D).

(** What the invariant looks at: the receipt but for its progress text, and
    the number of parents. *)
Definition core (r : x1_imsi) : x1_imsi_receipt * nat :=
  ((im_receipt r) <| rc_step := "" |>, length (im_parents r)).
Definition view (c : x1_imsi * D) : x1_imsi_receipt * nat := core c.1.

(** Before the first stop attempt. *)
Definition unstopped (c : x1_imsi_receipt * nat) : Prop :=
  rc_stop c.1 = stop_zero ∧ rc_released c.1 = false ∧ c.2 = 8%nat.
Definition preparing c : Prop := unstopped c ∧ rc_ready c.1 = false.
Definition leased c : Prop := preparing c ∧ rc_retained c.1 = true.
Definition reserved c : Prop :=
  leased c ∧ rc_domain_ready c.1 = true ∧ rc_target_reserved c.1 = true ∧ rc_banks c.1 = 8.
Definition routed c : Prop := reserved c ∧ rc_global_policy_complete c.1 = true.

(** Ready only with everything behind it; finished only with all banks and all
    parents; released only after a finished stop, with nothing left. *)
Definition receipt_ok (c : x1_imsi_receipt * nat) : Prop :=
  c.2 = 8%nat ∧
  (sp_attempted (rc_stop c.1) = false → rc_stop c.1 = stop_zero) ∧
  (sp_finished (rc_stop c.1) = true → sp_attempted (rc_stop c.1) = true ∧
     sp_banks_disabled (rc_stop c.1) = 8 ∧ sp_parents_detached (rc_stop c.1) = 8 ∧
     sp_error (rc_stop c.1) = 0) ∧
  (rc_ready c.1 = true → rc_retained c.1 = true ∧ rc_domain_ready c.1 = true ∧
     rc_target_reserved c.1 = true ∧ rc_associated c.1 = true ∧
     rc_global_policy_complete c.1 = true ∧ rc_banks c.1 = 8) ∧
  (rc_released c.1 = true → sp_finished (rc_stop c.1) = true ∧ rc_ready c.1 = false ∧
     rc_associated c.1 = false ∧ rc_domain_ready c.1 = false ∧
     rc_target_reserved c.1 = false).

Definition imsi_ok w : Prop :=
  (∀ i r, iw_heap w !! i = Some r → receipt_ok (core r) ∧
     (iw_active w ≠ Some i → rc_released (im_receipt r) = true)) ∧
  (∀ i, iw_active w = Some i → (i < length (iw_heap w))%nat).

Lemma preparing_ok c : preparing c → receipt_ok c.
Proof.
  intros [(Hs&Hr&Hn) Hd]. unfold receipt_ok. rewrite Hs, Hr, Hd. by split_and!.
Qed.

(** Steps that touch neither receipt nor parents. *)
Abbreviation frame := (λ c c', view c' = view c).
Lemma frame_cdev {A} (m : M D A) : keeps frame (cdev m).
Proof. intros [r d]. unfold cdev. by destruct (m d). Qed.
Lemma frame_casks {A} (f : D → A) : keeps frame (casks f).
Proof. by intros [r d]. Qed.
Lemma frame_cdo f : keeps frame (cdo (D:=D) f).
Proof. by intros [r d]. Qed.
Lemma frame_ccall f : keeps frame (ccall (D:=D) f).
Proof. intros [r d]. unfold ccall. destruct (f d) as [z d']. by destruct (z =? 0). Qed.
Lemma frame_cstep n : keeps frame (cstep (D:=D) n).
Proof. by intros [r d]. Qed.
Lemma frame_cnote f : (∀ r, core (f r) = core r) → keeps frame (cnote (D:=D) f).
Proof. intros Hf [r d]. apply Hf. Qed.
Hint Resolve frame_cdev frame_casks frame_cdo frame_ccall frame_cstep : km.
Hint Extern 1 (keeps _ (cnote _)) => apply frame_cnote; done : km.

Lemma frame_guard env : keeps frame (x1_imsi_guard env).
Proof. unfold x1_imsi_guard. keeps_auto. Qed.
Lemma frame_write_checked o v : keeps frame (x1_imsi_write_checked (D:=D) o v).
Proof. unfold x1_imsi_write_checked. keeps_auto. Qed.
Lemma frame_creq o v e : keeps frame (creq (D:=D) o v e).
Proof. unfold creq. keeps_auto. Qed.
Hint Resolve frame_guard frame_write_checked frame_creq : km.

Lemma frame_admit env : keeps frame (x1_imsi_admit env).
Proof.
  unfold x1_imsi_admit. keeps_auto. apply keeps_for_each; [typeclasses eauto|].
  intros i _. unfold admit_irq. keeps_auto. apply frame_cnote. intros r.
  destruct (decide (i = 8%nat)); [done|]. unfold core. simpl. by rewrite length_insert.
Qed.
Hint Resolve frame_admit : km.

Lemma frame_banks env l : keeps frame (for_each l (mask_bank BLOCK env)).
Proof.
  apply keeps_for_each; [typeclasses eauto|]. intros i _. unfold mask_bank. keeps_auto.
Qed.
Lemma frame_verify l : keeps frame (for_each l (verify_bank (D:=D) BLOCK)).
Proof.
  apply keeps_for_each; [typeclasses eauto|]. intros i _. unfold verify_bank. keeps_auto.
Qed.
Hint Resolve frame_banks frame_verify : km.

(** Receipt updates as triples. *)
Lemma triple_rnote (P Q E : _ → Prop) f :
  (∀ c n, P (c <| rc_step := "" |>, n) → Q ((f c) <| rc_step := "" |>, n)) →
  triple view P (rnote (D:=D) f) Q E.
Proof. intros Hf [r d] HP. by apply Hf. Qed.

Lemma triple_cstep (P E : _ → Prop) n : triple view P (cstep (D:=D) n) P E.
Proof. by intros [r d]. Qed.

Lemma triple_framed {A} (P E : _ → Prop) (m : M (x1_imsi * D) A) :
  keeps frame m → (∀ c, P c → E c) → triple view P m P E.
Proof.
  intros Hm HE. by apply (triple_conseq view P P P P E P); [apply triple_frame|..].
Qed.

Lemma receiver_ok env : triple view leased (setup_receiver BLOCK env) reserved preparing.
Proof.
  assert (∀ c, leased c → preparing c) as Hl by by intros c [? _].
  unfold setup_receiver.
  repeat (eapply triple_bind; [apply triple_framed; [solve [eauto with km]|done]|intros _]).
  eapply triple_bind; [apply triple_framed; [|done]|intros _].
  { intros [r d]. destruct (ie_open_group env d) as [[] d']; done. }
  eapply triple_bind; [apply triple_framed; [|done]|intros init].
  { intros [r d]. by destruct (ie_host_init env d) as [[? ?] ?]. }
  eapply triple_bind; [apply triple_framed; [solve [eauto with km]|done]|intros _].
  destruct (init.1 !=? 0).
  { by apply (triple_conseq view leased leased reserved reserved preparing leased);
      [apply triple_fail|..]. }
  cbv zeta. eapply triple_bind; [apply triple_framed; [solve [eauto with km]|done]|intros _].
  apply triple_rnote. intros c n Hc. by split_and!.
Qed.

Lemma program_ok env : triple view reserved (setup_program BLOCK env) reserved preparing.
Proof.
  apply triple_framed; [|by intros c [[? _] _]]. unfold setup_program. keeps_auto.
Qed.

Lemma associate_ok env :
  triple view reserved (setup_associate env)
    (λ c, receipt_ok c ∧ rc_ready c.1 = true ∧ rc_released c.1 = false) preparing.
Proof.
  assert (∀ c, reserved c → preparing c) as Hp by by intros c [[? _] _].
  assert (∀ c, routed c → preparing c) as Hp' by (intros c [? _]; auto).
  unfold setup_associate.
  do 2 (eapply triple_bind; [apply triple_framed; [solve [eauto with km]|done]|intros _]).
  eapply triple_bind; [apply triple_framed; [apply keeps_get; typeclasses eauto|done]|intros st].
  eapply triple_bind; [apply triple_framed; [solve [eauto with km]|done]|intros _].
  eapply (triple_bind _ _ routed); [apply triple_rnote; intros c n Hc; by split|intros _].
  do 3 (eapply triple_bind; [apply triple_framed; [solve [eauto with km]|done]|intros _]).
  eapply triple_bind; [apply triple_rnote|intros _; apply triple_cstep].
  intros c n (((((Hs&Hr&Hn)&_)&Hl)&Hd&Ht&Hb)&Hg). simpl in *.
  unfold receipt_ok. simpl. rewrite Hs, Hr. by split_and!.
Qed.

Definition prepared c : Prop := receipt_ok c ∧ rc_released c.1 = false.

Lemma prepare_body_ok env : triple view preparing (prepare_body BLOCK env) prepared prepared.
Proof.
  assert (∀ c, preparing c → prepared c) as Hp
    by (intros c Hc; split; [by apply preparing_ok|apply Hc]).
  unfold prepare_body.
  eapply (triple_bind _ _ preparing); [apply triple_rnote; intros c n Hc; exact Hc|intros _].
  do 2 (eapply triple_bind; [apply triple_framed; [solve [eauto with km]|done]|intros _]).
  destruct (negb (ie_policies env)).
  { eapply triple_bind; [apply triple_framed; [solve [eauto with km]|done]|intros _].
    by apply (triple_conseq view preparing preparing prepared prepared prepared preparing);
      [apply triple_fail|..]. }
  do 2 (eapply triple_bind; [apply triple_framed; [solve [eauto with km]|done]|intros _]).
  eapply (triple_bind _ _ leased); [apply triple_rnote; intros c n Hc; by split|intros _].
  unfold x1_imsi_setup. eapply triple_bind.
  { eapply triple_conseq; [apply receiver_ok|intros c Hc; exact Hc|intros c Hc; exact Hc|done]. }
  intros _. eapply triple_bind.
  { eapply triple_conseq; [apply program_ok|intros c Hc; exact Hc|intros c Hc; exact Hc|done]. }
  intros _. eapply triple_conseq; [apply associate_ok|intros c Hc; exact Hc| |done].
  intros c (?&_&?). by split.
Qed.

(** ** Stop, release, retire *)

(** Between the first write of a stop and its end. *)
Definition stopping (banks parents : Z) (c : x1_imsi_receipt * nat) : Prop :=
  c.2 = 8%nat ∧ sp_attempted (rc_stop c.1) = true ∧ sp_finished (rc_stop c.1) = false ∧
  sp_banks_disabled (rc_stop c.1) = banks ∧ sp_parents_detached (rc_stop c.1) = parents ∧
  rc_released c.1 = false ∧
  rc_ready c.1 = true ∧ rc_retained c.1 = true ∧ rc_domain_ready c.1 = true ∧
  rc_target_reserved c.1 = true ∧ rc_associated c.1 = true ∧
  rc_global_policy_complete c.1 = true ∧ rc_banks c.1 = 8.

Lemma disable_bank_ok i b p :
  triple view (stopping b p) (disable_bank (D:=D) BLOCK i) (stopping (b + 1) p) (stopping b p).
Proof.
  unfold disable_bank.
  do 3 (eapply triple_bind; [apply triple_framed; [solve [eauto with km]|done]|intros _]).
  apply triple_rnote. intros c n Hc. unfold stopping in *. simpl in *.
  destruct_and! Hc. split_and!; (done || lia).
Qed.

Lemma banks_ok l b p :
  triple view (stopping b p) (for_each l (disable_bank (D:=D) BLOCK))
    (stopping (b + Z.of_nat (length l)) p) (λ c, ∃ b', stopping b' p c).
Proof.
  revert b. induction l as [|i l IH]; intros b; cbn [for_each length].
  { intros s Hs. by replace (b + Z.of_nat 0) with b by lia. }
  eapply triple_bind.
  - eapply triple_conseq; [apply disable_bank_ok|intros c Hc; exact Hc|intros c Hc; exact Hc|eauto].
  - intros _. replace (b + Z.of_nat (S (length l))) with (b + 1 + Z.of_nat (length l)) by lia.
    apply IH.
Qed.

Definition count_detached (r : x1_imsi) : x1_imsi :=
  let c := im_receipt r in
  r <| im_receipt := c <| rc_stop := (rc_stop c)
    <| sp_parents_detached := sp_parents_detached (rc_stop c) + 1 |> |> |>.

Lemma detach_parent_eq env z x r d :
  detach_parent env z x (r, d) =
  (if decide (ie_handler env x (ie_detach env x d) = HD_NONE)
   then (Ok z, (count_detached r, ie_detach env x d))
   else (Ok (-EIO), (r, ie_detach env x d))).
Proof.
  unfold detach_parent, bind. simpl.
  by destruct (decide (ie_handler env x (ie_detach env x d) = HD_NONE)).
Qed.

(** Every parent is detached or the errno becomes -EIO. *)
Lemma detach_ok env ps z r d b p :
  stopping b p (core r) →
  match detach_all env ps z (r, d) with
  | (Ok z', (r', _)) => ∃ p', stopping b p' (core r') ∧ im_parents r' = im_parents r ∧
      (z' = 0 → z = 0 ∧ p' = p + Z.of_nat (length ps))
  | _ => False
  end.
Proof.
  revert z r d p. induction ps as [|x ps IH]; intros z r d p Hs; cbn [detach_all].
  { exists p. split; [done|]. split; [done|]. simpl. lia. }
  unfold bind. rewrite detach_parent_eq.
  destruct (decide (ie_handler env x (ie_detach env x d) = HD_NONE)).
  - set (r1 := count_detached r).
    assert (stopping b (p + 1) (core r1)) as Hs1.
    { unfold stopping in *. subst r1. simpl in *. destruct_and! Hs. split_and!; (done || lia). }
    specialize (IH z r1 (ie_detach env x d) (p + 1)).
    destruct (detach_all env ps z (r1, ie_detach env x d)) as [[z'|?|] [r' d']].
    2, 3: by apply IH.
    destruct (IH Hs1) as (p'&H1&H2&H3).
    exists p'. split; [done|]. split; [done|]. intros Hz. destruct (H3 Hz) as [Hz0 ->]. split; [done|]. cbn [length]. lia.
  - specialize (IH (-EIO) r (ie_detach env x d) p Hs).
    destruct (detach_all env ps (-EIO) (r, ie_detach env x d)) as [[z'|?|] [r' d']]; [|done|done].
    destruct IH as (p'&H1&H2&H3). exists p'. split; [done|]. split; [done|].
    intros Hz. by destruct (H3 Hz).
Qed.

Lemma errs_cdev {A} (m : M D A) P : errs P m → errs P (cdev m).
Proof.
  intros Hm [r d] e s'. unfold cdev. destruct (m d) as [[a|e0|] d'] eqn:E; try done.
  intros [= -> <-]. by eapply Hm.
Qed.
Lemma errs_readl P a : errs P (readl (D:=D) a).
Proof. intros d e d'. unfold readl. by destruct (dev_read a d). Qed.

Lemma errs_write_checked o v : errs (λ e, e = -EIO) (x1_imsi_write_checked (D:=D) o v).
Proof.
  unfold x1_imsi_write_checked. errs_auto; [|apply errs_cdev, errs_readl|done].
  apply errs_cdev. by intros ???.
Qed.
Hint Resolve errs_write_checked : km.

Lemma banks_err l c e c' :
  for_each l (disable_bank (D:=D) BLOCK) c = (Err e, c') → e = -EIO.
Proof.
  revert c e c'. apply (errs_for_each (λ e, e = -EIO)). intros i.
  unfold disable_bank, snote, rnote, cnote. errs_auto.
Qed.

Lemma safe_cdev {A} (m : M D A) : safe m → safe (cdev m).
Proof. intros Hm [r d]. unfold cdev. specialize (Hm d). by destruct (m d). Qed.
Lemma safe_readl_dev a : safe (readl (D:=D) a).
Proof. intros d. unfold readl. by destruct (dev_read a d). Qed.
Lemma safe_write_checked o v : safe (x1_imsi_write_checked (D:=D) o v).
Proof.
  unfold x1_imsi_write_checked. safe_auto; apply safe_cdev; [done|apply safe_readl_dev].
Qed.
Hint Resolve safe_write_checked : km.
Lemma banks_safe l : safe (for_each l (disable_bank (D:=D) BLOCK)).
Proof.
  apply safe_for_each. intros i _. unfold disable_bank, snote, rnote, cnote. safe_auto.
Qed.

Lemma stop_admitted_facts env r d :
  stop_admitted env r d = true → rc_ready (im_receipt r) = true.
Proof. unfold stop_admitted. by destruct (rc_ready (im_receipt r)). Qed.

(** The end of a stop: detach every parent, then record the outcome. *)
Definition stop_tail env (ps : list Z) (z : Z) : M (x1_imsi * D) unit :=
  let! z := detach_all env ps z in
  do! snote (λ s, s <| sp_error := z |> <| sp_finished := (z =? 0) |>) in
  if z =? 0 then ret tt else fail z.

Definition stop_post (x : res unit) (r' : x1_imsi) : Prop :=
  receipt_ok (core r') ∧ rc_released (im_receipt r') = false ∧
  (x = Ok tt → sp_finished (rc_stop (im_receipt r')) = true).

Lemma stop_tail_ok env ps z r d b :
  length ps = 8%nat → stopping b 0 (core r) → (z = 0 → b = 8) →
  match stop_tail env ps z (r, d) with
  | (Fault, _) => False
  | (x, (r', _)) => stop_post x r'
  end.
Proof.
  intros Hn Hs Hzb. unfold stop_tail. unfold bind at 1.
  pose proof (detach_ok env ps z r d b 0 Hs) as Hd.
  destruct (detach_all env ps z (r, d)) as [[z'|?|] [r3 d3]]; [|done|done].
  destruct Hd as (p'&H3&_&Hz'). unfold bind. cbn [snote rnote cnote modify].
  unfold stopping, core in H3. simpl in H3. destruct_and! H3.
  destruct (Z.eqb_spec z' 0) as [->|Hne]; simpl; unfold stop_post, receipt_ok; simpl.
  - destruct (Hz' eq_refl) as [-> ->]. specialize (Hzb eq_refl).
    split_and!; try done; intros; try congruence; split_and!; (done || lia).
  - split_and!; try done; intros; try congruence; by split_and!.
Qed.

(** What one context may go through in a stop. *)
Lemma stop_body_ok env r d :
  receipt_ok (core r) →
  match stop_body BLOCK env (r, d) with
  | (Fault, _) => False
  | (x, (r', _)) => receipt_ok (core r') ∧
      rc_released (im_receipt r') = rc_released (im_receipt r) ∧
      (x = Ok tt → sp_finished (rc_stop (im_receipt r')) = true)
  end.
Proof.
  intros Hok. unfold stop_body. unfold bind at 1. cbn [get fst snd].
  destruct (sp_attempted (rc_stop (im_receipt r))) eqn:Ea; [done|].
  destruct (stop_admitted env r d) eqn:Ed; [|done]. cbn [negb].
  pose proof (stop_admitted_facts env r d Ed) as Hr.
  destruct Hok as (Hn&Hz&_&Hrd&Hrl). simpl in Hn, Hz, Hrd, Hrl.
  specialize (Hz Ea). destruct (Hrd Hr) as (?&?&?&?&?&?).
  assert (rc_released (im_receipt r) = false) as Hnr.
  { destruct (rc_released (im_receipt r)); [|done]. destruct (Hrl eq_refl) as (_&?&_). congruence. }
  rewrite Hnr. unfold bind at 1. cbn [snote rnote cnote modify].
  match goal with |- context [bind (stop_banks _) _ (?r0, d)] => set (r1 := r0) end.
  assert (stopping 0 0 (view (r1, d))) as Hst.
  { unfold stopping, view, core. simpl. rewrite Hz. by split_and!. }
  unfold bind at 1, stop_banks.
  pose proof (banks_ok (seq 0 8) 0 0 (r1, d) Hst) as Hb.
  pose proof (banks_safe (seq 0 8) (r1, d)) as Hs.
  destruct (for_each (seq 0 8) (disable_bank BLOCK) (r1, d)) as [[[]|e|] [r2 d2]] eqn:Eb; [| |done].
  - by apply (stop_tail_ok env (im_parents r) 0 r2 d2 8).
  - apply banks_err in Eb as ->. destruct Hb as (b'&Hb). by apply (stop_tail_ok env (im_parents r) (-EIO) r2 d2 b').
Qed.

Lemma release_admitted_facts env r d :
  release_admitted env r d = true →
  rc_ready (im_receipt r) = true ∧ sp_finished (rc_stop (im_receipt r)) = true.
Proof.
  unfold release_admitted. rewrite !andb_true_iff.
  by intros [[[[[[[[[[[[[[[[[[[[[]]]]]]]]]]]]]]]]]]]]].
Qed.

Lemma release_body_ok env check r d :
  receipt_ok (core r) →
  match release_body env check (r, d) with
  | (Fault, _) => False
  | (x, (r', _)) => receipt_ok (core r') ∧
      (rc_released (im_receipt r) = true → rc_released (im_receipt r') = true) ∧
      (x = Ok tt → rc_released (im_receipt r') = true)
  end.
Proof.
  intros Hok. unfold release_body. unfold bind at 1. cbn [get fst snd].
  destruct (rc_release_attempted (im_receipt r)); [done|].
  destruct (release_admitted env r d) eqn:Ed; [|done]. cbn [negb].
  apply release_admitted_facts in Ed as [Hr Hfin].
  unfold bind at 1. destruct (check d) as [z d1]. destruct (z =? 0); [|done].
  destruct Hok as (Hn&Hz&Hf&Hrd&Hrl). simpl in Hn, Hz, Hf, Hrl.
  assert (rc_released (im_receipt r) = false) as Hnr.
  { destruct (rc_released (im_receipt r)); [|done].
    destruct (Hrl eq_refl) as (_&Hno&_). by rewrite Hr in Hno. }
  unfold bind. cbn [rnote cnote cdo modify].
  destruct (ie_release_group env (ie_free_msi env d1)) as [n d2].
  destruct (n <=? 0); unfold receipt_ok; simpl; rewrite ?Hnr.
  all: split_and!; try done; intros; discriminate.
Qed.

(** The state of the contexts after a step on one of them. *)
Lemma on_ctx_ok {A} i (m : M (x1_imsi * D) A) w :
  imsi_ok w →
  (∀ r d, receipt_ok (core r) → let '(_, (r', _)) := m (r, d) in
     receipt_ok (core r') ∧ (rc_released (im_receipt r) = true → rc_released (im_receipt r') = true)) →
  imsi_ok (on_ctx i m w).2.
Proof.
  intros [Hh Ha] Hm. unfold on_ctx. destruct (iw_heap w !! i) as [r|] eqn:Ei; [|done].
  specialize (Hm r (iw_dev w)). destruct (Hh i r Ei) as [Hr Hrel].
  destruct (m (r, iw_dev w)) as [x [r' d]]. destruct (Hm Hr) as [Hok' Hmono]. split; simpl.
  - intros j rj Hj. destruct (decide (i = j)) as [->|Hne].
    + rewrite list_lookup_insert_eq in Hj by (by eapply lookup_lt_Some). simplify_eq. auto.
    + rewrite list_lookup_insert_ne in Hj by done. auto.
  - intros j Hj. rewrite length_insert. by apply Ha.
Qed.

Inductive imsi_step : imsi_world D → imsi_world D → Prop :=
| step_prepare env w : imsi_step w (x1_imsi_prepare BLOCK env w).2
| step_stop env i w : imsi_step w (x1_imsi_stop_retained BLOCK env i w).2
| step_release env i check w : imsi_step w (x1_imsi_release_stopped env i check w).2
| step_retire env i check w : imsi_step w (x1_imsi_retire_context env i check w).2
| step_kernel w d : imsi_step w (IWorld (iw_heap w) (iw_active w) d).

Lemma prepare_ok env w : imsi_ok w → imsi_ok (x1_imsi_prepare BLOCK env w).2.
Proof.
  intros Hw. unfold x1_imsi_prepare. destruct (negb (ie_request env)); [done|].
  destruct (iw_active w) as [a|] eqn:Ea; [done|]. destruct Hw as [Hh _].
  destruct (ie_alloc env (iw_dev w)) as [[] d]; cbn [negb].
  2: { split; [|done]. intros i r Hi. rewrite Ea in Hh. by apply Hh. }
  set (i := length (iw_heap w)). unfold on_ctx. cbn [iw_heap iw_dev iw_active].
  rewrite lookup_app_r, Nat.sub_diag by done. cbn [lookup list_lookup].
  unfold recording. pose proof (prepare_body_ok env (imsi_zero, d)) as Hb.
  assert (preparing (view (imsi_zero, d))) as H0 by by split_and!. specialize (Hb H0).
  assert (∀ r d', prepared (view (r, d')) →
    imsi_ok (IWorld (<[i := r]> (iw_heap w ++ [imsi_zero])) (Some i) d')) as Hnew.
  { intros r d' [Hr _]. split; cbn [iw_heap iw_active].
    - intros j rj Hj. destruct (decide (i = j)) as [<-|Hne].
      + rewrite list_lookup_insert_eq in Hj by (rewrite length_app; simpl; lia). by simplify_eq.
      + rewrite list_lookup_insert_ne in Hj by done.
        assert (j < i)%nat as Hlt.
        { apply lookup_lt_Some in Hj. rewrite length_app in Hj. simpl in Hj. fold i in Hj. lia. }
        rewrite lookup_app_l in Hj by done. destruct (Hh j rj Hj) as [H1 H2].
        split; [done|]. intros _. apply H2. by rewrite Ea.
    - intros j [= <-]. rewrite length_insert, length_app. simpl. lia. }
  destruct (prepare_body BLOCK env (imsi_zero, d)) as [[[]|e|] [r1 d1]]; by apply Hnew.
Qed.

Lemma retire_ok env i check w : imsi_ok w → imsi_ok (x1_imsi_retire_context env i check w).2.
Proof.
  intros [Hh Ha]. unfold x1_imsi_retire_context. destruct check as [check|]; [|done].
  destruct (iw_heap w !! i) as [r|] eqn:Ei; [|done].
  destruct (_ || _) eqn:E; [done|]. apply orb_false_iff in E as [E1 E2].
  apply negb_false_iff in E1, E2. apply bool_decide_eq_true in E1.
  assert (rc_released (im_receipt r) = true) as Hr.
  { unfold retire_admitted in E2. by destruct (rc_released (im_receipt r)). }
  destruct (check (iw_dev w)) as [z d]. destruct (z =? 0); [|done].
  split; [|done]. simpl. intros j rj Hj. split; [by apply (Hh j)|]. intros _.
  destruct (decide (j = i)) as [->|]; [by simplify_eq|]. apply (Hh j rj Hj). congruence.
Qed.

Lemma imsi_step_ok w w' : imsi_ok w → imsi_step w w' → imsi_ok w'.
Proof.
  intros Hw Hs. destruct Hs.
  - by apply prepare_ok.
  - apply on_ctx_ok; [done|]. intros r d Hr. pose proof (stop_body_ok env r d Hr) as H1.
    destruct (stop_body BLOCK env (r, d)) as [[[]|e|] [r' d']]; [..|done];
      destruct H1 as (?&->&_); auto.
  - destruct check as [check|]; [|done]. apply on_ctx_ok; [done|]. intros r d Hr.
    pose proof (release_body_ok env check r d Hr) as H1.
    destruct (release_body env check (r, d)) as [[[]|e|] [r' d']]; [..|done];
      by destruct H1 as (?&?&_).
  - by apply retire_ok.
  - done.
Qed.

(** C38. The receiver's lifecycle, over any sequence of prepare, stop, release
    and retire calls with any kernel behaviour in between: a context is ready
    only with its lease, domain, target, policy and association in place; a
    finished stop disabled all eight banks and detached all eight parents
    without error; a released context was stopped first and keeps nothing; and at
    most one context at a time is not fully released, so a new receiver never
    coexists with an old one's hardware state. *)
Theorem imsi_lifecycle d0 w :
  rtc imsi_step (IWorld [] None d0) w →
  (∀ i r, iw_heap w !! i = Some r → receipt_ok (core r)) ∧
  (∀ i j ri rj, iw_heap w !! i = Some ri → iw_heap w !! j = Some rj →
     rc_released (im_receipt ri) = false → rc_released (im_receipt rj) = false → i = j).
Proof.
  intros Hs. assert (imsi_ok w) as [Hh Ha].
  { assert (imsi_ok (IWorld [] None d0)) as H0 by (by split).
    revert H0. induction Hs as [|w1 w2 w3 H1 _ IH]; [done|].
    intros H0. apply IH. by eapply imsi_step_ok. }
  split; [intros i r Hi; by apply (Hh i)|].
  intros i j ri rj Hi Hj Hri Hrj. destruct (Hh i ri Hi) as [_ H1], (Hh j rj Hj) as [_ H2].
  destruct (decide (iw_active w = Some i)) as [E1|E1]; [|by rewrite H1 in Hri].
  destruct (decide (iw_active w = Some j)) as [E2|E2]; [congruence|by rewrite H2 in Hrj].
Qed.
End lifecycle.

(** ** A full life on a register file *)

(** Reset state behind eight parents 100..107 and the global interrupt 108. *)
Definition good_view (hwirq : Z) : irq_view :=
  {| iv_domain_is_intc := true; iv_hwirq := hwirq; iv_level_high := true; iv_disabled := true;
     iv_has_action := false; iv_handler_data := false |}.

(** The device: registers, and whether the parents still have our handlers. *)
Definition imsi_dev : Type := regs Z * bool.
#[export] Instance imsi_dev_mmio : Mmio Z imsi_dev := {|
  dev_read a d := (d.1 a, d);
  dev_write a v d := ((λ b, if decide (a = b) then v else d.1 b), d.2);
|}.

Definition good_env : imsi_env imsi_dev := {|
  ie_request := true; ie_alloc d := (true, d); ie_check_live d := (0, d);
  ie_active _ := true; ie_device := true; ie_foreign := false; ie_host_node := true;
  ie_resources := true; ie_owner_node := true; ie_smmu := Some (0, true); ie_intc := true;
  ie_parent i := {| pf_index := Z.of_nat i; pf_parse := 0; pf_np_intc := true;
    pf_args_count := 3; pf_spi_level := true; pf_spi := nth i spis 0;
    pf_irq := 100 + Z.of_nat i; pf_data := Some (good_view (nth i spis 0 + 32)) |};
  ie_policies := true; ie_retain d := (0, d); ie_open_group d := (true, d);
  ie_host_init d := (0, {| di_irq_domain := true; di_num_vectors := 256;
    di_msi_data := 0x80001000; di_msi_irq := [100; 101; 102; 103; 104; 105; 106; 107] |},
    (d.1, true));
  ie_target_check _ d := (0, d);
  ie_msi_init t d := ((λ a, if a =? 0x820 then u32 t else if a =? 0x824 then 0
    else if (0x828 <=? a) && (a <? 0x888) && ((a - 0x828) mod 12 =? 0) then U32_MAX else d.1 a),
    d.2);
  ie_global_route _ d := (0, d);
  ie_handler _ d := if d.2 : bool then HD_OURS else HD_NONE;
  ie_has_action _ _ := false; ie_in_use _ := false;
  ie_detach _ d := (d.1, false); ie_bridge_bus _ := false; ie_bridge_registered _ := false;
  ie_free_msi d := d; ie_release_group d := (1, d) |}.

Definition boot_dev : imsi_dev := (λ a, if a =? 0 then 0x011117cb else 0, false).
Definition boot : imsi_world imsi_dev := IWorld [] None boot_dev.
Definition all_stopped (d : imsi_dev) : Z * imsi_dev := (0, d).

Definition after_prepare := (x1_imsi_prepare 12 good_env boot).2.
Definition after_stop := (x1_imsi_stop_retained 12 good_env 0 after_prepare).2.
Definition after_release := (x1_imsi_release_stopped good_env 0 (Some all_stopped) after_stop).2.
Definition after_retire := (x1_imsi_retire_context good_env 0 (Some all_stopped) after_release).2.
Definition second_life := (x1_imsi_prepare 12 good_env after_retire).2.

Example full_life :
  (x1_imsi_prepare 12 good_env boot).1 = Ok (Some 0%nat) ∧
  (x1_imsi_prepare 12 good_env after_prepare).1 = Err (-EALREADY) ∧
  (x1_imsi_stop_retained 12 good_env 0 after_prepare).1 = Ok tt ∧
  (x1_imsi_release_stopped good_env 0 (Some all_stopped) after_stop).1 = Ok tt ∧
  (x1_imsi_retire_context good_env 0 (Some all_stopped) after_release).1 = Ok tt ∧
  (x1_imsi_prepare 12 good_env after_retire).1 = Ok (Some 1%nat).
Proof. by vm_compute. Qed.

(** The second receiver's context. *)
Definition second_ctx : x1_imsi := default imsi_zero (iw_heap second_life !! 1%nat).

Lemma imsi_lifecycle_witness : receipt_ok (core second_ctx).
Proof.
  apply (imsi_lifecycle 12 boot_dev second_life) with (i := 1%nat); [|by vm_compute].
  apply (rtc_l _ _ after_prepare); [apply step_prepare|].
  apply (rtc_l _ _ after_stop); [apply step_stop|].
  apply (rtc_l _ _ after_release); [apply step_release|].
  apply (rtc_l _ _ after_retire); [apply step_retire|].
  apply (rtc_l _ _ second_life); [apply step_prepare|]. apply rtc_refl.
Defined.
