(* ===== verification/Ucsi.v ===== *)
(** * UCSI query engine (snapshot/kernel/drivers/soc/qcom/yoga_ucsi_packet.h,
    yoga_ucsi_query.h and yoga_ucsi_snapshot.c)

    The C functions here pass [int]s that are an error when negative and a
    length when not, so they are modelled as computations that return that
    integer.  The query layer ([uq_*]) works over any transport; the driver is
    one transport, over the PMIC glink service, with its worker, its two sysfs
    entry points and the callbacks that arrive at any interruptible point. *)

From S2P Require Import Prelude.

(** ** Packets (yoga_ucsi_packet.h) *)

Record yoga_ucsi_sample := Sample { us_version : Z; us_cci : Z; us_prefix : list Z }.

(** [len] is the length of the packet [p]. *)
Definition yoga_ucsi_decode (p : list Z) : res yoga_ucsi_sample :=
  let len := Z.of_nat (length p) in
  if (len !=? 64) && (len !=? 544) then Err (-EMSGSIZE) else
  let? w0 := get_unaligned_le32 p 0 in
  if w0 !=? 32779 then Err (-EBADMSG) else
  let? w1 := get_unaligned_le32 p 4 in
  if w1 !=? 1 then Err (-EBADMSG) else
  let? w2 := get_unaligned_le32 p 8 in
  if w2 !=? 0x11 then Err (-EBADMSG) else
  let? status := get_unaligned_le32 p (len - 4) in
  if status !=? 0 then Err (-EREMOTEIO) else
  let? version := get_unaligned_le16 p 12 in
  if ((len =? 64) && ((version <? 0x100) || (0x200 <=? version))) ||
     ((len =? 544) && ((version <? 0x200) || (0x300 <? version)))
  then Err (-EPROTONOSUPPORT) else
  let? cci := get_unaligned_le32 p 16 in
  let? prefix := bytes_at p 12 32 in
  Ok (Sample version cci prefix).

(** ** The query layer (yoga_ucsi_query.h) *)

Definition UQ_NOTIFY : Z := 0x10005.
Definition UQ_NOTIFY_READY : Z := 0xdb050005.
Definition UQ_ACK : Z := 0x20004.
Definition UQ_ACK_EVENT : Z := 0x30004.
Definition UQ_COMPLETE : Z := 0x80000000.
Definition UQ_ERROR : Z := 0x40000000.
Definition UQ_ACKED : Z := 0x20000000.
Definition UQ_BUSY : Z := 0x10000000.
Definition UQ_UNSUPPORTED : Z := 0x02000000.

(** [read] fills its argument on success and may leave it as it was. *)
Record uq_io (S : Type) := {
  io_write : Z → M S Z;
  io_read : yoga_ucsi_sample → M S (Z * yoga_ucsi_sample);
  io_pause : M S unit;
  io_deadline : M S unit;
}.
Arguments io_write {_} _ _.
Arguments io_read {_} _ _.
Arguments io_pause {_} _.
Arguments io_deadline {_} _.

Definition uq_allowed (cmd : Z) : bool :=
  (cmd =? UQ_NOTIFY) || (cmd =? UQ_NOTIFY_READY) || (cmd =? UQ_ACK) ||
  (cmd =? UQ_ACK_EVENT) || (cmd =? 6) ||
  existsb (λ port,
    (cmd =? (port << 16) .| 7) || (cmd =? (port << 16) .| 0x11) ||
    (cmd =? (port << 16) .| 0x12) || (cmd =? (port << 16) .| 0x0e) ||
    existsb (λ recipient, cmd =? (port << 24) .| (recipient << 16) .| 0x0c) [1; 2])
    [1; 2; 3].

(** The connector number and the data length of a CCI word. *)
Definition cci_connector (cci : Z) : Z := (cci >> 1) .& 0x7f.
Definition cci_length (cci : Z) : Z := (cci >> 8) .& 0xff.

Definition sample_zero : yoga_ucsi_sample := Sample 0 0 (replicate 32 0).

Section query.
Context {S : Type} (io : uq_io S).
Abbreviation Q := (M S).

Definition uq_read (sample : yoga_ucsi_sample) : Q (Z * yoga_ucsi_sample) :=
  let! r := io_read io sample in
  if r.1 !=? 0 then ret r else
  ret (if us_version r.2 =? 0x0120 then 0 else -EPROTONOSUPPORT, r.2).

(** What a poll makes of a CCI word: an outcome, or look again. *)
Definition poll_verdict (cci : Z) (ack : bool) : option Z :=
  if tst cci UQ_BUSY then None else
  if tst cci (not32 (UQ_COMPLETE .| UQ_ERROR .| UQ_ACKED .| UQ_UNSUPPORTED .| 0xfffe))
  then Some (-EPROTO) else
  if ack && tst cci UQ_ACKED then
    Some (if tst cci (not32 (UQ_ACKED .| 0xfe)) then -EPROTO else 0)
  else if negb ack && tst cci UQ_COMPLETE then
    Some (if tst cci UQ_ACKED || (16 <? cci_length cci) then -EPROTO else 0)
  else None.

Fixpoint uq_poll_loop (n : nat) (sample : yoga_ucsi_sample) (ack : bool)
    : Q (Z * yoga_ucsi_sample) :=
  match n with
  | O => ret (-ETIMEDOUT, sample)
  | Datatypes.S n =>
      let! r := uq_read sample in
      if r.1 !=? 0 then ret r else
      match poll_verdict (us_cci r.2) ack with
      | Some z => ret (z, r.2)
      | None => do! io_pause io in uq_poll_loop n r.2 ack
      end
  end.

Definition uq_poll : yoga_ucsi_sample → bool → Q (Z * yoga_ucsi_sample) := uq_poll_loop 50.

(** The result of a completed command: its length or why it failed. *)
Definition command_result (cci event_connector : Z) : Z :=
  let result := cci_length cci in
  let result := if tst cci UQ_UNSUPPORTED then -EOPNOTSUPP else result in
  let result := if tst cci UQ_ERROR then -EREMOTEIO else result in
  if (event_connector !=? 0) && (0 <=? result) &&
     ((result <? 9) || (16 <? result) || (cci_connector cci !=? event_connector))
  then -EPROTO else result.

(** The acknowledgement of a completed command. *)
Definition command_ack (event_connector result : Z) : Z :=
  if (event_connector !=? 0) && (0 <=? result) then UQ_ACK_EVENT else UQ_ACK.

(** The second component is [*reply] on return. *)
Definition uq_command_kind (cmd : Z) (reply : yoga_ucsi_sample) (event_connector : Z)
    : Q (Z * yoga_ucsi_sample) :=
  if negb (uq_allowed cmd) || (cmd =? UQ_ACK) || (cmd =? UQ_ACK_EVENT)
  then ret (-EPERM, reply) else
  if (event_connector !=? 0) && ((3 <? event_connector) ||
       (cmd !=? (event_connector << 16) .| 0x12)) then ret (-EPERM, reply) else
  do! io_deadline io in
  let! r := uq_read sample_zero in
  if r.1 !=? 0 then ret (r.1, reply) else
  if tst (us_cci r.2) (not32 (UQ_ACKED .| 0xfe)) then ret (-EBUSY, reply) else
  if (event_connector !=? 0) && (cci_connector (us_cci r.2) !=? event_connector)
  then ret (-EPROTO, reply) else
  let! e := io_write io cmd in
  if e !=? 0 then ret (e, reply) else
  let! p := uq_poll reply false in
  if p.1 !=? 0 then ret p else
  let result := command_result (us_cci p.2) event_connector in
  do! io_deadline io in
  let! e := io_write io (command_ack event_connector result) in
  if e !=? 0 then ret (e, p.2) else
  let! a := uq_poll r.2 true in
  ret (if a.1 !=? 0 then a.1 else result, p.2).

Definition uq_command (cmd : Z) (reply : yoga_ucsi_sample) : Q (Z * yoga_ucsi_sample) :=
  uq_command_kind cmd reply 0.

Definition uq_pending (connectors : Z) : Q Z :=
  if (connectors =? 0) || (3 <? connectors) then ret (-ERANGE) else
  do! io_deadline io in
  let! r := uq_read sample_zero in
  if r.1 !=? 0 then ret r.1 else
  if tst (us_cci r.2) (not32 (UQ_ACKED .| 0xfe)) then ret (-EBUSY) else
  let connector := cci_connector (us_cci r.2) in
  ret (if connectors <? connector then -EPROTO else connector).
End query.

(** ** What a command does to the policy manager *)

Inductive uq_event := UWrite (cmd : Z) | URead | UPause | UDeadline.

#[export] Instance uq_event_eq_dec : EqDecision uq_event.
Proof. solve_decision. Defined.

(** A transport that also records what it was asked. *)
Definition logging_uq {S} (io : uq_io S) : uq_io (S * list uq_event) :=
  let log {A} (e : uq_event) (m : M S A) : M (S * list uq_event) A :=
    λ '(s, l), let (r, s) := m s in (r, (s, l ++ [e])) in
  {| io_write c := log (UWrite c) (io_write io c);
     io_read x := log URead (io_read io x);
     io_pause := log UPause (io_pause io);
     io_deadline := log UDeadline (io_deadline io) |}.

Definition uq_writes (l : list uq_event) : list Z :=
  omap (λ e, match e with UWrite c => Some c | _ => None end) l.
Definition uq_reads (l : list uq_event) : nat :=
  length (filter (λ e, e = URead) l).

(** A transport keeps its callback contract: it returns, and its codes are
    errno-style, never positive. *)
Record uq_contract {S} (io : uq_io S) : Prop := {
  write_returns c s : ∃ z s', io_write io c s = (Ok z, s') ∧ z ≤ 0;
  read_returns x s : ∃ z x' s', io_read io x s = (Ok (z, x'), s') ∧ z ≤ 0;
  pause_returns s : ∃ s', io_pause io s = (Ok tt, s');
  deadline_returns s : ∃ s', io_deadline io s = (Ok tt, s');
}.

Section command.
Context {S : Type} (io : uq_io S) (Hio : uq_contract io).
Abbreviation lio := (logging_uq io).

(** The commands sent so far, and a bound on the reads so far. *)
Definition seen (ws : list Z) (n : nat) (s : S * list uq_event) : Prop :=
  uq_writes s.2 = ws ∧ (uq_reads s.2 ≤ n)%nat.

Lemma seen_snoc_other ws n s l e :
  (∀ c, e ≠ UWrite c) → e ≠ URead → seen ws n (s, l) → seen ws n (s, l ++ [e]).
Proof.
  intros Hw Hr [H1 H2]. unfold seen, uq_writes, uq_reads in *. simpl in *.
  rewrite omap_app, filter_app, length_app, filter_cons_False by done.
  destruct e; simpl; rewrite ?app_nil_r; try done; [by destruct (Hw cmd)|split; [done|lia]..].
Qed.

Lemma runs_uwrite c ws n :
  runs (seen ws n) (io_write lio c) (λ z s, seen (ws ++ [c]) n s ∧ z ≤ 0).
Proof.
  intros [s l] [H1 H2]. destruct (write_returns io Hio c s) as (z&s'&E&Hz).
  simpl. rewrite E. eexists _, _. split; [done|]. split; [|done].
  unfold seen, uq_writes, uq_reads in *. simpl in *.
  rewrite omap_app, filter_app, H1, length_app, filter_cons_False by done. split; [done|simpl; lia].
Qed.

Lemma runs_uread x ws n :
  runs (seen ws n) (uq_read lio x) (λ r s, seen ws (n + 1) s ∧ r.1 ≤ 0).
Proof.
  intros [s l] [H1 H2]. destruct (read_returns io Hio x s) as (z&x'&s'&E&Hz).
  unfold uq_read, bind. simpl. rewrite E.
  assert (seen ws (n + 1) (s', l ++ [URead])) as Hs.
  { unfold seen, uq_writes, uq_reads in *. simpl in *.
    rewrite omap_app, filter_app, length_app, app_nil_r. simpl. split; [done|lia]. }
  cbn [fst snd]. destruct (z =? 0); eexists _, _; (split; [done|]); split; try done.
  simpl. destruct (_ =? _); unfold EPROTONOSUPPORT; lia.
Qed.

Lemma runs_upause ws n : runs (seen ws n) (io_pause lio) (λ _, seen ws n).
Proof.
  intros [s l] Hs. destruct (pause_returns io Hio s) as (s'&E). simpl. rewrite E.
  eexists _, _. split; [done|]. by apply seen_snoc_other.
Qed.

Lemma runs_udeadline ws n : runs (seen ws n) (io_deadline lio) (λ _, seen ws n).
Proof.
  intros [s l] Hs. destruct (deadline_returns io Hio s) as (s'&E). simpl. rewrite E.
  eexists _, _. split; [done|]. by apply seen_snoc_other.
Qed.

(** A poll sends nothing, reads at most once per round, and ends well only on
    a CCI word it accepts. *)
Lemma runs_upoll k x ack ws n :
  runs (seen ws n) (uq_poll_loop lio k x ack) (λ r s, seen ws (n + k) s ∧
    r.1 ≤ 0 ∧ (r.1 = 0 → poll_verdict (us_cci r.2) ack = Some 0)).
Proof.
  revert x n. induction k as [|k IH]; intros x n; simpl.
  { apply runs_ret. intros s Hs. rewrite Nat.add_0_r. done. }
  eapply runs_bind; [apply runs_uread|]. intros r. apply runs_pure. intros Hr.
  apply runs_if; intros E.
  { apply runs_ret. intros s [Hw Hn]. split; [split; [done|lia]|].
    split; [done|]. intros Hz. by rewrite Hz in E. }
  destruct (poll_verdict _ _) as [z|] eqn:Ev.
  { apply runs_ret. intros s [Hw Hn]. split; [split; [done|lia]|]. simpl.
    split; [|by intros ->]. revert Ev. unfold poll_verdict, EPROTO.
    repeat case_match; intros ?; simplify_eq; lia. }
  eapply runs_bind; [apply runs_upause|]. intros ?.
  eapply runs_conseq; [apply (IH r.2 (n + 1)%nat)|done|].
  intros b s (Hs&H1&H2). split_and!; try done. replace (n + Datatypes.S k)%nat with (n + 1 + k)%nat by lia. done.
Qed.

(** A reply the engine accepts as the status of connector [ev]. *)
Definition event_reply (cci ev : Z) : Prop :=
  ev ≠ 0 ∧ tst cci UQ_ERROR = false ∧ tst cci UQ_UNSUPPORTED = false ∧
  9 ≤ cci_length cci ∧ cci_connector cci = ev.

Lemma poll_done cci :
  poll_verdict cci false = Some 0 → tst cci UQ_BUSY = false ∧ tst cci UQ_COMPLETE = true ∧
    tst cci UQ_ACKED = false ∧ 0 ≤ cci_length cci ≤ 16.
Proof.
  unfold poll_verdict. destruct (tst cci UQ_BUSY); [done|].
  destruct (tst cci (not32 _)); [done|]. cbn [andb negb].
  destruct (tst cci UQ_COMPLETE); [|done]. destruct (tst cci UQ_ACKED); [done|]. cbn [orb].
  destruct (Z.ltb_spec 16 (cci_length cci)); [done|]. intros _. split_and!; try done.
  unfold cci_length. apply Z.land_nonneg. by right.
Qed.

(** The acknowledgement consumes the connector event only for such a reply,
    and a non-negative result is the length of a clean one. *)
Lemma command_result_spec cci ev :
  0 ≤ cci_length cci ≤ 16 →
  (command_ack ev (command_result cci ev) = UQ_ACK_EVENT ↔ event_reply cci ev) ∧
  (command_ack ev (command_result cci ev) = UQ_ACK ∨
   command_ack ev (command_result cci ev) = UQ_ACK_EVENT) ∧
  (0 ≤ command_result cci ev → command_result cci ev = cci_length cci ∧
     tst cci UQ_ERROR = false ∧ tst cci UQ_UNSUPPORTED = false).
Proof.
  intros Hl. unfold event_reply, command_ack, command_result.
  destruct (tst cci UQ_ERROR); [|destruct (tst cci UQ_UNSUPPORTED)];
    rewrite ?andb_false_r; simpl; unfold EREMOTEIO, EOPNOTSUPP.
  1,2: split_and!; [split; [done|intros (?&?&?&?); done]|by left|lia].
  destruct (Z.eqb_spec ev 0) as [->|He]; simpl.
  { split_and!; [split; [done|intros (?&?); done]|by left|done]. }
  destruct (Z.leb_spec 0 (cci_length cci)); [|lia]. simpl.
  destruct (Z.ltb_spec (cci_length cci) 9); simpl.
  { split_and!; [split; [done|intros (?&?&?&?&?); lia]|by left|unfold EPROTO; lia]. }
  destruct (Z.ltb_spec 16 (cci_length cci)); [lia|]. simpl.
  destruct (Z.eqb_spec (cci_connector cci) ev); simpl.
  - destruct (Z.leb_spec 0 (cci_length cci)); [|lia]. split_and!; try done; [by right].
  - split_and!; [split; [done|intros (?&?&?&?&?); done]|by left|unfold EPROTO; lia].
Qed.

(** The outcome of one command against what was sent for it. *)
Definition command_post (cmd ev : Z) (r : Z * yoga_ucsi_sample) (s : S * list uq_event) : Prop :=
  let cci := us_cci r.2 in
  (uq_reads s.2 ≤ 101)%nat ∧
  (uq_writes s.2 ≠ [] → uq_allowed cmd = true ∧ cmd ≠ UQ_ACK ∧ cmd ≠ UQ_ACK_EVENT ∧
     (ev ≠ 0 → ev ≤ 3 ∧ cmd = (ev << 16) .| 0x12)) ∧
  ((uq_writes s.2 = [] ∨ uq_writes s.2 = [cmd]) ∧ r.1 < 0 ∨
   ∃ ack, uq_writes s.2 = [cmd; ack] ∧ (ack = UQ_ACK ∨ ack = UQ_ACK_EVENT) ∧
     tst cci UQ_COMPLETE = true ∧ tst cci UQ_BUSY = false ∧
     (ack = UQ_ACK_EVENT ↔ event_reply cci ev) ∧
     (0 ≤ r.1 → r.1 = cci_length cci ∧ r.1 ≤ 16 ∧
        tst cci UQ_ERROR = false ∧ tst cci UQ_UNSUPPORTED = false)).

(** The tests before anything is sent. *)
Definition admitted (cmd ev : Z) : Prop :=
  uq_allowed cmd = true ∧ cmd ≠ UQ_ACK ∧ cmd ≠ UQ_ACK_EVENT ∧
  (ev ≠ 0 → ev ≤ 3 ∧ cmd = (ev << 16) .| 0x12).

Lemma post_refused cmd ev z p ws n s :
  ws = [] ∨ ws = [cmd] ∧ admitted cmd ev → seen ws n s → (n ≤ 101)%nat → z < 0 →
  command_post cmd ev (z, p) s.
Proof.
  intros Hws [Hw Hn] Hb Hz. unfold command_post. rewrite Hw. split; [lia|].
  destruct Hws as [->|[-> Ha]]; (split; [done|]); left; auto.
Qed.

(** From a completed reply on: acknowledge, await the acknowledgement. *)
Lemma runs_acknowledge cmd ev x (p : Z * yoga_ucsi_sample) n :
  admitted cmd ev → (n ≤ 51)%nat → poll_verdict (us_cci p.2) false = Some 0 →
  let result := command_result (us_cci p.2) ev in
  runs (seen [cmd] n)
    (do! io_deadline lio in
     let! e := io_write lio (command_ack ev result) in
     if e !=? 0 then ret (e, p.2) else
     let! a := uq_poll lio x true in
     ret (if a.1 !=? 0 then a.1 else result, p.2))
    (command_post cmd ev).
Proof.
  intros Ha Hn Hv result. destruct (poll_done _ Hv) as (Hb&Hc&_&Hl).
  destruct (command_result_spec (us_cci p.2) ev Hl) as (Hiff&Hack&Hres).
  fold result in Hiff, Hack, Hres. set (ack := command_ack ev result) in *.
  assert (∀ z m s, seen [cmd; ack] m s → (m ≤ 101)%nat →
    (0 ≤ z → z = result) → command_post cmd ev (z, p.2) s) as Hdone.
  { intros z m s [Hw Hm] Hbm Hz. unfold command_post. rewrite Hw. split; [lia|].
    split; [done|]. right. exists ack. split_and!; try done. intros Hpos. specialize (Hz Hpos).
    simpl. rewrite Hz in *. destruct (Hres Hpos) as (Hr&?&?). rewrite Hr. split_and!; try done. lia. }
  eapply runs_bind; [apply runs_udeadline|]. intros ?.
  eapply runs_bind; [apply runs_uwrite|]. intros e. apply runs_pure. intros He.
  apply runs_if; intros E.
  { apply runs_ret. intros s Hs. eapply Hdone; [done|lia|].
    rewrite negb_true_iff, Z.eqb_neq in E. lia. }
  eapply runs_bind; [apply runs_upoll|]. intros c s (Hs&Hpa&_). revert s Hs.
  apply runs_ret. intros s Hs. eapply Hdone; [done|lia|].
  destruct (Z.eqb_spec c.1 0); simpl; [done|lia].
Qed.

Lemma runs_command cmd reply ev :
  runs (seen [] 0) (uq_command_kind lio cmd reply ev) (command_post cmd ev).
Proof.
  unfold uq_command_kind. apply runs_if; intros E1.
  { apply runs_ret. intros s Hs. eapply (post_refused _ _ _ _ []); [by left|exact Hs|lia|done]. }
  rewrite !orb_false_iff, negb_false_iff, !Z.eqb_neq in E1.
  apply runs_if; intros E2.
  { apply runs_ret. intros s Hs. eapply (post_refused _ _ _ _ []); [by left|exact Hs|lia|done]. }
  assert (admitted cmd ev) as Ha.
  { destruct E1 as [[??]?]. split_and!; try done.
    intros He. destruct (Z.eqb_spec ev 0); [done|]. simpl in E2.
    rewrite orb_false_iff, Z.ltb_ge, negb_false_iff, Z.eqb_eq in E2. done. }
  eapply runs_bind; [apply runs_udeadline|]. intros ?.
  eapply runs_bind; [apply runs_uread|]. intros r. apply runs_pure. intros Hr.
  apply runs_if; intros E3.
  { apply runs_ret. intros s Hs. rewrite negb_true_iff, Z.eqb_neq in E3.
    eapply (post_refused _ _ _ _ []); [by left|exact Hs|lia..]. }
  apply runs_if; intros E4.
  { apply runs_ret. intros s Hs. eapply (post_refused _ _ _ _ []); [by left|exact Hs|lia|done]. }
  apply runs_if; intros E5.
  { apply runs_ret. intros s Hs. eapply (post_refused _ _ _ _ []); [by left|exact Hs|lia|done]. }
  eapply runs_bind; [apply runs_uwrite|]. intros e. apply runs_pure. intros He.
  apply runs_if; intros E6.
  { apply runs_ret. intros s Hs. rewrite negb_true_iff, Z.eqb_neq in E6.
    eapply (post_refused _ _ _ _ [cmd]); [by right|done|lia..]. }
  eapply runs_bind; [apply runs_upoll|]. intros p s (Hs&Hp&Hv). revert s Hs.
  apply runs_if; intros E7.
  { apply runs_ret. intros s Hs. rewrite negb_true_iff, Z.eqb_neq in E7.
    destruct p as [z p]. simpl in *. eapply (post_refused _ _ _ _ [cmd]); [by right|done|lia..]. }
  rewrite negb_false_iff, Z.eqb_eq in E7. apply runs_acknowledge; [done|lia|by apply Hv].
Qed.
End command.

(** Every command of the query engine, on any transport: only commands on
    the allow list are ever sent, at most the command and one acknowledgement,
    with at most 101 reads in between; the acknowledgement that consumes a
    connector event goes out exactly when the completed reply is a clean status
    of at least nine bytes for that very connector; and a non-negative result is
    the length, at most 16, of a clean completed reply that was acknowledged. *)
Theorem uq_command_outcomes {S} (io : uq_io S) cmd reply ev s :
  uq_contract io →
  ∃ r s', uq_command_kind (logging_uq io) cmd reply ev (s, []) = (Ok r, s') ∧
    command_post cmd ev r s'.
Proof. intros Hio. by apply (runs_command io Hio). Qed.

(** A policy manager that answers every command with a 16-byte reply: idle,
    then complete, then acknowledged. *)
Definition ppm_io : uq_io Z := {|
  io_write c := λ _, (Ok 0, if (c =? UQ_ACK) || (c =? UQ_ACK_EVENT) then UQ_ACKED
                            else UQ_COMPLETE .| (16 << 8));
  io_read x := λ cci, (Ok (0, Sample 0x0120 cci (us_prefix x)), cci);
  io_pause := ret tt;
  io_deadline := ret tt |}.

Lemma ppm_contract : uq_contract ppm_io.
Proof. split; intros; by repeat eexists. Qed.

Lemma uq_command_outcomes_witness :
  ∃ r s', uq_command_kind (logging_uq ppm_io) 6 sample_zero 0 (0, []) = (Ok r, s') ∧
    command_post 6 0 r s'.
Proof. apply (uq_command_outcomes ppm_io 6 sample_zero 0 0), ppm_contract. Defined.

Example ppm_capability :
  let '(r, (_, l)) := uq_command_kind (logging_uq ppm_io) 6 sample_zero 0 (0, []) in
  fst <$> (match r with Ok a => Some a | _ => None end) = Some 16 ∧ uq_writes l = [6; UQ_ACK].
Proof. by vm_compute. Qed.

(** ** The driver (yoga_ucsi_snapshot.c) *)

Record query := Query {
  q_done : bool;             (* the completion *)
  q_reply : yoga_ucsi_sample;
  q_attempts : Z;
  q_commands : Z;
  q_notifications : Z;
  q_opcode : Z;
  q_deadline : Z;
  q_group_deadline : Z;
  q_error : Z;
  q_reply_error : Z;
  q_service_up : bool;
  q_awaiting : bool;
  q_initialized : bool;
  q_policy_attempted : bool;
  q_policy_active : bool;
  q_polls : Z;
  q_events : Z;
  q_policy_deadline : Z;
  q_scheduled : bool;        (* policy_work is queued *)
  q_connectors : Z;
  q_cap : list Z;
  q_caps : list (list Z);
  q_status : list (list Z);
  q_cable : list (list Z);
  q_cam : list (list Z);
  q_status_len : list Z;
  q_cable_len : list Z;
  q_features : Z;
}.
#[export] Instance eta_query : Eta query := λ q,
  Query (q_done q) (q_reply q) (q_attempts q) (q_commands q) (q_notifications q) (q_opcode q)
    (q_deadline q) (q_group_deadline q) (q_error q) (q_reply_error q) (q_service_up q)
    (q_awaiting q) (q_initialized q) (q_policy_attempted q) (q_policy_active q) (q_polls q)
    (q_events q) (q_policy_deadline q) (q_scheduled q) (q_connectors q) (q_cap q) (q_caps q)
    (q_status q) (q_cable q) (q_cam q) (q_status_len q) (q_cable_len q) (q_features q).

(** [devm_kzalloc]; [cam] is an array of three one-byte buffers here. *)
Definition query_zero : query := {|
  q_done := false; q_reply := sample_zero; q_attempts := 0; q_commands := 0;
  q_notifications := 0; q_opcode := 0; q_deadline := 0; q_group_deadline := 0; q_error := 0;
  q_reply_error := 0; q_service_up := false; q_awaiting := false; q_initialized := false;
  q_policy_attempted := false; q_policy_active := false; q_polls := 0; q_events := 0;
  q_policy_deadline := 0; q_scheduled := false; q_connectors := 0; q_cap := replicate 16 0;
  q_caps := replicate 3 (replicate 4 0); q_status := replicate 3 (replicate 16 0);
  q_cable := replicate 3 (replicate 16 0); q_cam := replicate 3 [0];
  q_status_len := replicate 3 0; q_cable_len := replicate 3 0; q_features := 0 |}.

(** What the glink service delivers: a packet, or a change of its state. *)
Inductive inbound := Packet (p : list Z) | Pdr (up : bool).

(** The kernel around the driver.  [ue_send] and [ue_wait] return the traffic
    delivered meanwhile; for a wait, the part before the timeout and the part
    after it but before the waiter runs again. *)
Record ucsi_env (D : Type) := {
  ue_jiffies : D → Z;
  ue_send : list Z → D → Z * list inbound * D;
  ue_wait : Z → D → list inbound * list inbound * D;
  ue_sleep : Z → D → list inbound * D;
  ue_nhi_complete : D → bool;
}.
Arguments ue_jiffies {_} _ _.
Arguments ue_send {_} _ _ _.
Arguments ue_wait {_} _ _ _.
Arguments ue_sleep {_} _ _ _.
Arguments ue_nhi_complete {_} _ _.

(** [uw_once] is the boot-wide [policy_once]. *)
Record uworld (D : Type) := UWorld { uw_q : query; uw_once : bool; uw_dev : D }.
Arguments UWorld {_} _ _ _.
Arguments uw_q {_} _.
Arguments uw_once {_} _.
Arguments uw_dev {_} _.

Section driver.
Context {D : Type} (HZ : Z) (env : ucsi_env D).
Abbreviation W := (M (uworld D)).

Definition qset (f : query → query) : W unit :=
  modify (λ w, UWorld (f (uw_q w)) (uw_once w) (uw_dev w)).
Definition qget {A} (f : query → A) : W A := λ w, (Ok (f (uw_q w)), w).
Definition outside {A} (f : D → A * D) : W A := λ w,
  let (x, d) := f (uw_dev w) in (Ok x, UWorld (uw_q w) (uw_once w) d).
Definition jiffies : W Z := λ w, (Ok (ue_jiffies env (uw_dev w)), w).

(** [s->reply_error] and [s->reply] after a packet that answers [opcode]. *)
Definition callback_reply (opcode : Z) (p : list Z) (q : query) : res query :=
  let len := Z.of_nat (length p) in
  if opcode =? 0x11 then
    if len =? 64 then
      match yoga_ucsi_decode p with
      | Ok sample => Ok (q <| q_reply := sample |> <| q_reply_error := 0 |>)
      | Err e => Ok (q <| q_reply_error := e |>)
      | Fault => Fault
      end
    else Ok (q <| q_reply_error := -EMSGSIZE |>)
  else if len !=? 16 then Ok (q <| q_reply_error := -EMSGSIZE |>) else
  let? w1 := get_unaligned_le32 p 4 in
  if w1 !=? 1 then Ok (q <| q_reply_error := -EBADMSG |>) else
  let? w3 := get_unaligned_le32 p 12 in
  Ok (q <| q_reply_error := if w3 !=? 0 then -EREMOTEIO else 0 |>).

Definition query_callback (p : list Z) : W unit :=
  let len := Z.of_nat (length p) in
  if len <? 12 then ret tt else
  let! w0 := lift (get_unaligned_le32 p 0) in
  if w0 !=? 32779 then ret tt else
  let! opcode := lift (get_unaligned_le32 p 8) in
  let! q := qget id in
  if opcode =? 0x13 then
    let! w1 := lift (get_unaligned_le32 p 4) in
    if (len =? 24) && (w1 =? 2)
    then qset (λ q, q <| q_notifications := u32 (q_notifications q + 1) |>) else ret tt
  else if (opcode =? q_opcode q) && q_awaiting q then
    let! q := lift (callback_reply opcode p q) in
    qset (λ _, q <| q_awaiting := false |> <| q_done := true |>)
  else ret tt.

Definition query_pdr (up : bool) : W unit :=
  qset (λ q,
    let q := q <| q_service_up := up |> in
    if negb up && (q_attempts q !=? 0) then
      (if q_error q =? 0 then q <| q_error := -ENOTCONN |> else q)
        <| q_awaiting := false |> <| q_done := true |>
    else q).

Definition deliver (i : inbound) : W unit :=
  match i with Packet p => query_callback p | Pdr up => query_pdr up end.
Definition deliver_all (l : list inbound) : W unit := for_each l deliver.

Definition query_left : W Z :=
  let! now := jiffies in
  qget (λ q,
    if time_after_eq now (q_deadline q) || time_after_eq now (q_group_deadline q) then 0
    else Z.min (u64 (q_deadline q - now)) (u64 (q_group_deadline q - now))).

(** The request buffer, of which a read sends twelve bytes. *)
Definition query_request (opcode command : Z) : res (list Z) :=
  let? r := put_bytes (replicate 64 0) 0 (le32 32779) in
  let? r := put_bytes r 4 (le32 1) in
  let? r := put_bytes r 8 (le32 opcode) in
  let? r := if opcode =? 0x12 then put_bytes r 20 (le64 command) else Ok r in
  bytes_at r 0 (if opcode =? 0x11 then 12 else 64).

(** The two locked sections of an exchange. *)
Definition exchange_begin (opcode : Z) : W Z :=
  let! rest := query_left in
  let! q := qget id in
  let e := if q_error q !=? 0 then q_error q
           else if negb (q_service_up q) then -ENOTCONN
           else if rest =? 0 then -ETIMEDOUT else 0 in
  if e !=? 0 then do! qset (λ q, q <| q_error := e |>) in ret e else
  do! qset (λ q, q <| q_done := false |> <| q_reply_error := -ETIMEDOUT |>
                   <| q_opcode := opcode |> <| q_awaiting := true |>) in
  ret 0.

Definition exchange_end (e : Z) (sample : yoga_ucsi_sample) : W (Z * yoga_ucsi_sample) :=
  let! q := qget id in
  let e := if q_error q !=? 0 then q_error q else e in
  let e := if e =? 0 then q_reply_error q else e in
  do! qset (λ q, let q := q <| q_awaiting := false |> in
                 if e !=? 0 then q <| q_error := e |> else q) in
  ret (e, if e =? 0 then q_reply q else sample).

(** [pmic_glink_send], then wait for the reply within the time left. *)
Definition exchange_send (request : list Z) : W Z :=
  let! sent := outside (ue_send env request) in
  do! deliver_all sent.2 in
  let! rest := query_left in
  if sent.1 !=? 0 then ret sent.1 else
  if rest =? 0 then ret (-ETIMEDOUT) else
  let! traffic := outside (ue_wait env rest) in
  do! deliver_all traffic.1 in
  let! done := qget q_done in
  do! deliver_all traffic.2 in
  ret (if done then 0 else -ETIMEDOUT).

Definition query_exchange (opcode command : Z) (sample : yoga_ucsi_sample)
    : W (Z * yoga_ucsi_sample) :=
  if (opcode !=? 0x11) && (opcode !=? 0x12) then ret (-EPERM, sample) else
  if (opcode =? 0x12) && negb (uq_allowed command) then ret (-EPERM, sample) else
  let! request := lift (query_request opcode command) in
  let! e := exchange_begin opcode in
  if e !=? 0 then ret (e, sample) else
  let! e := exchange_send request in
  exchange_end e sample.

Definition query_io : uq_io (uworld D) := {|
  io_write cmd := let! r := query_exchange 0x12 cmd sample_zero in ret r.1;
  io_read sample := query_exchange 0x11 0 sample;
  io_pause := let! l := outside (ue_sleep env 100) in deliver_all l;
  io_deadline := let! now := jiffies in
                 qset (λ q, q <| q_deadline := u64 (now + 5 * HZ) |>) |}.

(** [data] is the caller's buffer, [None] for NULL. *)
Definition run_query (cmd : Z) (data : option (list Z)) (minimum maximum : Z) (optional : bool)
    : W (Z * option (list Z)) :=
  let! r := uq_command query_io cmd sample_zero in
  do! qset (λ q, q <| q_commands := u32 (q_commands q + 1) |>) in
  let e := r.1 in
  if (e =? -EOPNOTSUPP) && optional then ret (0, data) else
  if e <? 0 then ret (e, data) else
  if (e <? minimum) || (maximum <? e) then ret (-EPROTO, data) else
  match data with
  | None => ret (e, None)
  | Some buf =>
      let! src := lift (bytes_at (us_prefix r.2) 16 e) in
      let! buf := lift (put_bytes buf 0 src) in
      ret (e, Some buf)
  end.

(** [if (ret < 0) return ret;] *)
Definition or_return (m : W Z) (k : Z → W Z) : W Z :=
  let! e := m in if e <? 0 then ret e else k e.

(** A query into a row of one of the per-connector arrays. *)
Definition query_row (get_rows : query → list (list Z)) (put_row : nat → list Z → query → query)
    (i : nat) (cmd minimum maximum : Z) (optional : bool) : W Z :=
  let! rows := qget get_rows in
  let! row := lift (match rows !! i with Some r => Ok r | None => Fault end) in
  let! r := run_query cmd (Some row) minimum maximum optional in
  do! qset (put_row i (default row r.2)) in
  ret r.1.

Fixpoint collect_caps (n i : nat) : W Z :=
  match n with
  | O => ret 0
  | Datatypes.S n =>
      or_return (query_row q_caps (λ i r q, q <| q_caps := <[i := r]> (q_caps q) |>)
                   i ((Z.of_nat (i + 1) << 16) .| 7) 2 4 false)
        (λ _, collect_caps n (i + 1))
  end.

Definition collect_init : W Z :=
  or_return (let! r := run_query UQ_NOTIFY None 0 0 false in ret r.1) (λ _,
  or_return (let! cap := qget q_cap in
             let! r := run_query 6 (Some cap) 16 16 false in
             do! qset (λ q, q <| q_cap := default cap r.2 |>) in ret r.1) (λ _,
  let! cap := qget q_cap in
  let! byte := lift (byte_at cap 4) in
  let connectors := u8 byte in
  do! qset (λ q, q <| q_connectors := connectors |>) in
  if (connectors =? 0) || (3 <? connectors) then ret (-ERANGE) else
  let! features := lift (get_unaligned_le16 cap 5) in
  do! qset (λ q, q <| q_features := features |>) in
  or_return (collect_caps (Z.to_nat connectors) 0) (λ _,
  do! qset (λ q, q <| q_initialized := true |>) in ret 0))).

Definition collect_modes (i : nat) : W Z :=
  let mode recipient :=
    let! r := run_query ((Z.of_nat (i + 1) << 24) .| (recipient << 16) .| 0x0c) None 0 6 true in
    ret r.1 in
  or_return (query_row q_cam (λ i r q, q <| q_cam := <[i := r]> (q_cam q) |>)
               i ((Z.of_nat (i + 1) << 16) .| 0x0e) 1 1 true) (λ _,
  or_return (mode 1) (λ _, or_return (mode 2) (λ _, ret 0))).

(** Accessory details of a connected partner, as far as the features go. *)
Definition collect_partner (i : nat) : W Z :=
  let! features := qget q_features in
  or_return
    (if tst features (BIT 5) then
       or_return (query_row q_cable (λ i r q, q <| q_cable := <[i := r]> (q_cable q) |>)
                    i ((Z.of_nat (i + 1) << 16) .| 0x11) 5 8 true) (λ e,
       do! qset (λ q, q <| q_cable_len := <[i := u8 e]> (q_cable_len q) |>) in ret 0)
     else ret 0) (λ _,
  if tst features (BIT 2) then collect_modes i else ret 0).

Definition collect_connector (i : nat) : W Z :=
  or_return (query_row q_status (λ i r q, q <| q_status := <[i := r]> (q_status q) |>)
               i ((Z.of_nat (i + 1) << 16) .| 0x12) 9 16 false) (λ e,
  do! qset (λ q, q <| q_status_len := <[i := u8 e]> (q_status_len q) |>) in
  let! rows := qget q_status in
  let! status := lift (match rows !! i with
                       | Some r => get_unaligned_le32 r 0 | None => Fault end) in
  let partner := (status >> 29) .& 7 in
  if negb (tst status (BIT 19)) || ((partner !=? 2) && (partner !=? 4)) then ret 0
  else collect_partner i).

Fixpoint collect_loop (n i : nat) : W Z :=
  match n with
  | O => ret 0
  | Datatypes.S n => or_return (collect_connector i) (λ _, collect_loop n (i + 1))
  end.

Definition query_collect : W Z :=
  let! initialized := qget q_initialized in
  or_return (if initialized : bool then ret 0 else collect_init) (λ _,
  do! qset (λ q, q <| q_status := replicate 3 (replicate 16 0) |>
                   <| q_cable := replicate 3 (replicate 16 0) |>
                   <| q_status_len := replicate 3 0 |> <| q_cable_len := replicate 3 0 |>
                   <| q_cam := replicate 3 [0xff] |>) in
  let! connectors := qget q_connectors in
  collect_loop (Z.to_nat connectors) 0).

Fixpoint drain_loop (n : nat) : W Z :=
  match n with
  | O => ret 0
  | Datatypes.S n =>
      let! connectors := qget q_connectors in
      let! connector := uq_pending query_io connectors in
      if connector <=? 0 then ret connector else
      let! events := qget q_events in
      if 64 <=? events then ret (-ENOSPC) else
      let! r := uq_command_kind query_io ((connector << 16) .| 0x12) sample_zero connector in
      do! qset (λ q, q <| q_commands := u32 (q_commands q + 1) |>) in
      if r.1 <? 0 then ret r.1 else
      do! qset (λ q, q <| q_events := u32 (q_events q + 1) |>) in
      drain_loop n
  end.
Definition query_drain : W Z := drain_loop 8.

Definition query_fail (e : Z) : W unit :=
  qset (λ q, (if (e !=? 0) && (q_error q =? 0) then q <| q_error := e |> else q)
               <| q_policy_active := false |>).

(** [if (time_after(group_deadline, policy_deadline)) group_deadline = policy_deadline;] *)
Definition clamp_group (q : query) : query :=
  if time_after (q_group_deadline q) (q_policy_deadline q)
  then q <| q_group_deadline := q_policy_deadline q |> else q.

(** The queued work has left the queue when its function runs. *)
Definition policy_worker : W unit :=
  do! qset (λ q, q <| q_scheduled := false |>) in
  let! q := qget id in
  if negb (q_policy_active q) then ret tt else
  let! now := jiffies in
  let e := if q_error q !=? 0 then q_error q
           else if time_after_eq now (q_policy_deadline q) || (300 <=? q_polls q)
           then -ETIMEDOUT else 0 in
  let! e := if e =? 0 then
      let! now := jiffies in
      do! qset (λ q, clamp_group
        (q <| q_polls := u32 (q_polls q + 1) |> <| q_group_deadline := u64 (now + 20 * HZ) |>)) in
      query_drain
    else ret e in
  if e !=? 0 then query_fail e else qset (λ q, q <| q_scheduled := true |>).

(** [cancel_delayed_work_sync] takes the work off the queue. *)
Definition policy_stop : W unit :=
  do! query_fail 0 in qset (λ q, q <| q_scheduled := false |>).

(** [atomic_cmpxchg(&policy_once, 0, 1)] *)
Definition claim_once : W bool := λ w, (Ok (uw_once w), UWorld (uw_q w) true (uw_dev w)).

(** The return value 0 stands for [count]. *)
Definition policy_enable : W Z :=
  let! q := qget id in
  if q_error q !=? 0 then ret (q_error q) else
  if negb (q_service_up q) then ret (-ENOTCONN) else
  if negb (q_initialized q) || (q_connectors q !=? 3) || (q_features q !=? 0x0004)
  then ret (-EPROTONOSUPPORT) else
  let! claimed := claim_once in
  if claimed : bool then ret (-EPERM) else
  let! now := jiffies in
  do! qset (λ q, q <| q_policy_attempted := true |>
                   <| q_policy_deadline := u64 (now + 300 * HZ) |>
                   <| q_group_deadline := u64 (now + 20 * HZ) |>) in
  let! r := run_query UQ_NOTIFY_READY None 0 0 false in
  let! e := if r.1 =? 0 then query_drain else ret r.1 in
  if e !=? 0 then do! query_fail e in ret e else
  do! qset (λ q, q <| q_policy_active := true |> <| q_scheduled := true |>) in
  ret 0.

(** [parsed] is the outcome of [kstrtobool]. *)
Definition policy_store (parsed : Z + bool) : W Z :=
  match parsed with
  | inl e => ret e
  | inr false => do! policy_stop in ret 0
  | inr true =>
      let! complete := λ w, (Ok (ue_nhi_complete env (uw_dev w)), w) in
      if negb complete then ret (-EPERM) else policy_enable
  end.

Definition query_rounds : W Z :=
  let! now := jiffies in
  do! qset (λ q, q <| q_group_deadline := u64 (now + 60 * HZ) |>) in
  let! q := qget id in
  if q_policy_attempted q && negb (q_policy_active q) then ret (-ESHUTDOWN) else
  let! e := if q_policy_attempted q then do! qset clamp_group in query_drain else ret 0 in
  let! e := if e !=? 0 then ret e else
    let! e := query_collect in
    let! active := qget q_policy_active in
    if (e =? 0) && active then query_drain else ret e in
  let! error := qget q_error in
  let e := if error !=? 0 then error else e in
  do! qset (λ q, if e !=? 0 then q <| q_error := e |> else q) in
  ret e.

Definition query_store (parsed : Z + bool) : W Z :=
  match parsed with
  | inl _ | inr false => ret (-EINVAL)
  | inr true =>
      let! complete := λ w, (Ok (ue_nhi_complete env (uw_dev w)), w) in
      if negb complete then ret (-EPERM) else
      let! q := qget id in
      let e := if q_error q !=? 0 then q_error q
               else if negb (q_service_up q) then -ENOTCONN
               else if 3 <=? q_attempts q then -ENOSPC else 0 in
      if e !=? 0 then ret e else
      do! qset (λ q, q <| q_attempts := u32 (q_attempts q + 1) |>) in
      query_rounds
  end.
End driver.

(** ** Exchanges *)

Definition read_packet : list Z := le32 32779 ++ le32 1 ++ le32 0x11.
Definition write_packet (cmd : Z) : list Z :=
  le32 32779 ++ le32 1 ++ le32 0x12 ++ replicate 8 0 ++ le64 cmd ++ replicate 36 0.

(** Everything the driver may put on the wire. *)
Definition wire_ok (p : list Z) : Prop :=
  p = read_packet ∨ ∃ cmd, uq_allowed cmd = true ∧ p = write_packet cmd.

Lemma query_request_ok opcode cmd :
  opcode = 0x11 ∨ opcode = 0x12 →
  query_request opcode cmd = Ok (if opcode =? 0x11 then read_packet else write_packet cmd).
Proof. by intros [-> | ->]. Qed.

(** An environment that also records the packets it was given. *)
Definition logging_ucsi {D} (env : ucsi_env D) : ucsi_env (D * list (list Z)) := {|
  ue_jiffies d := ue_jiffies env d.1;
  ue_send p d := let '(z, l, d') := ue_send env p d.1 in (z, l, (d', d.2 ++ [p]));
  ue_wait t d := let '(l1, l2, d') := ue_wait env t d.1 in (l1, l2, (d', d.2));
  ue_sleep t d := let (l, d') := ue_sleep env t d.1 in (l, (d', d.2));
  ue_nhi_complete d := ue_nhi_complete env d.1 |}.

Section exchange.
Context {D : Type} (HZ : Z) (uenv : ucsi_env D).
Abbreviation env := (logging_ucsi uenv).
Abbreviation world := (uworld (D * list (list Z))).
Implicit Types w : world.

Definition sent w : list (list Z) := (uw_dev w).2.

(** The latch: packets are only ever added, all of them on the allow list, and
    once an error is recorded it stays and nothing is sent any more. *)
Definition latched w w' : Prop :=
  (∃ t, sent w' = sent w ++ t ∧ Forall wire_ok t) ∧
  (q_error (uw_q w) ≠ 0 → q_error (uw_q w') = q_error (uw_q w) ∧ sent w' = sent w).

#[export] Instance latched_preorder : PreOrder latched.
Proof.
  split.
  - intros w. split; [|done]. exists []. by rewrite app_nil_r.
  - intros w1 w2 w3 [(t1&E1&F1) H1] [(t2&E2&F2) H2]. split.
    + exists (t1 ++ t2). rewrite E2, E1, app_assoc. split; [done|]. by apply Forall_app.
    + intros He. destruct (H1 He) as [Hq Hs]. rewrite <- Hq in He.
      destruct (H2 He) as [Hq' Hs']. by rewrite Hq', Hs', Hq, Hs.
Qed.

(** What an exchange may not touch: everything but the volatile fields. *)
Definition fixed_part (q : query) : query :=
  q <| q_done := false |> <| q_reply := sample_zero |> <| q_commands := 0 |>
    <| q_notifications := 0 |> <| q_opcode := 0 |> <| q_deadline := 0 |> <| q_error := 0 |>
    <| q_reply_error := 0 |> <| q_service_up := false |> <| q_awaiting := false |>.

Definition full_reply (q : query) : Prop := length (us_prefix (q_reply q)) = 32%nat.

(** [w] is reached from [w0] by exchanges and callbacks only. *)
Definition within w0 w : Prop :=
  fixed_part (uw_q w) = fixed_part (uw_q w0) ∧ uw_once w = uw_once w0 ∧
  latched w0 w ∧ full_reply (uw_q w).

Lemma within_put w0 w q :
  within w0 w → fixed_part q = fixed_part (uw_q w) → full_reply q →
  (q_error (uw_q w) ≠ 0 → q_error q = q_error (uw_q w)) →
  within w0 (UWorld q (uw_once w) (uw_dev w)).
Proof.
  intros (H1&H2&H3&H4) F1 F2 F3. split_and!; try done; [by rewrite <- H1|].
  etrans; [done|]. split; [exists []; by rewrite app_nil_r|]. intros He. split; [auto|done].
Qed.

Lemma within_qset w0 (f : query → query) :
  (∀ q, full_reply q → fixed_part (f q) = fixed_part q ∧ full_reply (f q) ∧
     (q_error q ≠ 0 → q_error (f q) = q_error q)) →
  runs (within w0) (qset f) (λ _, within w0).
Proof.
  intros Hf. apply runs_modify. intros w Hw. destruct (Hf (uw_q w)) as (F1&F2&F3); [apply Hw|].
  by apply within_put.
Qed.

Lemma runs_qget {A} (P : world → Prop) (f : query → A) :
  runs P (qget f) (λ r w, P w ∧ r = f (uw_q w)).
Proof. intros w Hw. by eexists _, _. Qed.

Lemma within_qget {A} w0 (f : query → A) : runs (within w0) (qget f) (λ _, within w0).
Proof. intros w Hw. by eexists _, _. Qed.

(** A word inside the packet. *)
Lemma runs_word (P : world → Prop) p i :
  0 ≤ i → i + 4 ≤ Z.of_nat (length p) → runs P (lift (get_unaligned_le32 p i)) (λ _, P).
Proof.
  intros Hi Hl w Hw. destruct (get_le32_ok p i) as (x&E&_); [lia..|].
  eexists _, _. unfold lift. by rewrite E.
Qed.

Lemma within_jiffies w0 : runs (within w0) (jiffies env) (λ _, within w0).
Proof. intros w Hw. by eexists _, _. Qed.

Lemma decode_safe p :
  match yoga_ucsi_decode p with
  | Ok x => length (us_prefix x) = 32%nat | Err _ => True | Fault => False
  end.
Proof.
  unfold yoga_ucsi_decode. destruct (_ && _) eqn:E; [done|].
  rewrite andb_false_iff, !negb_false_iff, !Z.eqb_eq in E.
  assert (64 ≤ Z.of_nat (length p)) as Hl by lia.
  in_bounds. if_case E1; [done|]. in_bounds. if_case E2; [done|]. in_bounds. if_case E3; [done|].
  in_bounds. if_case E4; [done|]. in_bounds. if_case E5; [done|]. in_bounds.
  destruct (bytes_at_ok p 12 32) as (bs&->&Hn); [lia..|]. simpl. lia.
Qed.

Lemma callback_reply_ok opcode p q :
  12 ≤ Z.of_nat (length p) → full_reply q →
  ∃ q', callback_reply opcode p q = Ok q' ∧ fixed_part q' = fixed_part q ∧ full_reply q' ∧
    q_error q' = q_error q.
Proof.
  intros Hl Hq. unfold callback_reply. destruct (opcode =? 0x11).
  - destruct (_ =? 64); [|by eexists]. pose proof (decode_safe p) as Hd.
    destruct (yoga_ucsi_decode p); [by eexists..|done].
  - destruct (Z.eqb_spec (Z.of_nat (length p)) 16); [|by eexists]. cbn [negb].
    in_bounds. destruct (negb _); [by eexists|]. in_bounds. by eexists.
Qed.

Lemma within_callback w0 p : runs (within w0) (query_callback p) (λ _, within w0).
Proof.
  unfold query_callback. apply runs_if; intros El; [by apply runs_ret|]. apply Z.ltb_ge in El.
  eapply runs_bind; [apply runs_word; lia|]. intros x0.
  apply runs_if; intros _; [by apply runs_ret|].
  eapply runs_bind; [apply runs_word; lia|]. intros opcode.
  eapply runs_bind; [apply runs_qget|]. intros q.
  apply runs_if; intros _.
  - apply (runs_conseq (within w0) _ _ (λ _, within w0)); [|by intros ? []|done].
    eapply runs_bind; [apply runs_word; lia|]. intros x1.
    apply runs_if; intros _; [by apply within_qset|by apply runs_ret].
  - apply runs_if; intros _; [|apply runs_ret; by intros ? []].
    intros w [Hw ->]. unfold id.
    destruct (callback_reply_ok opcode p (uw_q w) El) as (q&E&F1&F2&F3); [apply Hw|].
    unfold bind, lift. rewrite E. eexists _, _. split; [done|]. by apply within_put.
Qed.

Lemma within_deliver_one w0 i : runs (within w0) (deliver i) (λ _, within w0).
Proof.
  destruct i as [p|up]; [apply within_callback|]. apply within_qset.
  intros q Hq. destruct up; [by split_and!|]. cbv zeta. cbn [negb andb].
  simpl. destruct (_ !=? 0); [|by split_and!].
  destruct (Z.eqb_spec (q_error q) 0) as [E|E]; by split_and!.
Qed.

Lemma within_deliver w0 l : runs (within w0) (deliver_all l) (λ _, within w0).
Proof. apply runs_for_each. intros i _. apply within_deliver_one. Qed.

Lemma within_left w0 : runs (within w0) (query_left env) (λ _, within w0).
Proof. eapply runs_bind; [apply within_jiffies|]. intros ?. apply within_qget. Qed.

(** An exchange that may go ahead found no error. *)
Lemma within_begin w0 opcode :
  runs (within w0) (exchange_begin env opcode)
    (λ e w, within w0 w ∧ (e = 0 → q_error (uw_q w0) = 0)).
Proof.
  unfold exchange_begin. eapply runs_bind; [apply within_left|]. intros rest.
  eapply runs_bind; [apply runs_qget|]. intros q w [Hw ->]. unfold id.
  destruct (Z.eqb_spec (q_error (uw_q w)) 0) as [E0|E0]; cbn [negb].
  - assert (q_error (uw_q w0) = 0) as Hz.
    { destruct (decide (q_error (uw_q w0) = 0)) as [|Hn]; [done|].
      destruct Hw as (_&_&[_ Hl]&_). destruct (Hl Hn) as [Hl' _]. congruence. }
    if_case E1; eexists _, _; (split; [done|]); (split; [|done]); apply within_put; try done; apply Hw.
  - destruct (Z.eqb_spec (q_error (uw_q w)) 0) as [|_]; [done|]. cbn [negb].
    eexists _, _. split; [done|]. split; [|done]. apply within_put; try done; apply Hw.
Qed.

Lemma within_outside {A} w0 (f : D * list (list Z) → A * (D * list (list Z))) :
  (∀ d, (f d).2.2 = d.2) → runs (within w0) (outside f) (λ _, within w0).
Proof.
  intros Hf w (H1&H2&H3&H4). unfold outside. specialize (Hf (uw_dev w)).
  destruct (f (uw_dev w)) as [x d]. eexists _, _. split; [done|]. split_and!; try done.
  etrans; [done|]. unfold latched, sent. simpl in *. rewrite Hf. split; [|done].
  exists []. by rewrite app_nil_r.
Qed.

Lemma within_send w0 p :
  wire_ok p → q_error (uw_q w0) = 0 →
  runs (within w0) (exchange_send env p) (λ _, within w0).
Proof.
  intros Hp H0. unfold exchange_send.
  apply (runs_bind _ _ _ (λ _, within w0)).
  { intros w (H1&H2&[(t&Ht&Hf) H3]&H4). unfold outside. simpl.
    destruct (ue_send uenv p (uw_dev w).1) as [[z l] d]. eexists _, _. split; [done|].
    split_and!; try done. split; [|done]. exists (t ++ [p]). unfold sent in *. simpl.
    rewrite Ht, app_assoc. split; [done|]. apply Forall_app. split; [done|by apply Forall_singleton]. }
  intros snt. eapply runs_bind; [apply within_deliver|]. intros ?.
  eapply runs_bind; [apply within_left|]. intros rest.
  apply runs_if; intros _; [by apply runs_ret|].
  apply runs_if; intros _; [by apply runs_ret|].
  eapply runs_bind.
  { apply within_outside. intros d. simpl. by destruct (ue_wait uenv rest d.1) as [[??]?]. }
  intros traffic. eapply runs_bind; [apply within_deliver|]. intros ?.
  eapply runs_bind; [apply within_qget|]. intros fin.
  eapply runs_bind; [apply within_deliver|]. intros ?. by apply runs_ret.
Qed.

Definition full (x : yoga_ucsi_sample) : Prop := length (us_prefix x) = 32%nat.

Lemma within_end w0 e x :
  full x → runs (within w0) (exchange_end e x) (λ r w, within w0 w ∧ full r.2).
Proof.
  intros Hx. unfold exchange_end. eapply runs_bind; [apply runs_qget|].
  intros q w [Hw ->]. unfold id.
  set (e1 := if q_error (uw_q w) !=? 0 then _ else e).
  set (e2 := if e1 =? 0 then _ else e1).
  assert (q_error (uw_q w) ≠ 0 → e2 = q_error (uw_q w)) as He.
  { intros Hn. unfold e2, e1. apply Z.eqb_neq in Hn. rewrite Hn. cbn [negb]. by rewrite Hn. }
  eexists _, _. split; [done|]. split.
  - apply within_put; [done|..]; destruct (e2 !=? 0) eqn:E; try done; try apply Hw.
  - simpl. destruct (e2 =? 0); [apply Hw|done].
Qed.

(** An exchange from any state reached by exchanges. *)
Lemma within_exchange w0 opcode cmd x :
  full x →
  runs (within w0) (query_exchange env opcode cmd x) (λ r w, within w0 w ∧ full r.2).
Proof.
  intros Hx. unfold query_exchange. apply runs_if; intros E1; [by apply runs_ret|].
  apply runs_if; intros E2; [by apply runs_ret|].
  assert (opcode = 0x11 ∨ opcode = 0x12) as Ho.
  { rewrite andb_false_iff, !negb_false_iff, !Z.eqb_eq in E1. done. }
  rewrite (query_request_ok _ _ Ho). set (p := if opcode =? 0x11 then read_packet else write_packet cmd).
  assert (wire_ok p) as Hp.
  { unfold p. destruct Ho as [-> | ->]; simpl; [by left|]. right. exists cmd. split; [|done].
    simpl in E2. by rewrite negb_false_iff in E2. }
  eapply (runs_bind _ _ _ (λ r w, within w0 w ∧ r = p)); [intros w Hw; by eexists _, _|].
  intros ?. apply runs_pure. intros ->.
  eapply runs_bind; [apply within_begin|]. intros e. intros w [Hw He]. revert w Hw.
  apply runs_if; intros E3; [by apply runs_ret|].
  apply negb_false_iff, Z.eqb_eq in E3.
  eapply runs_bind; [apply within_send; auto|]. intros e'. by apply within_end.
Qed.
End exchange.

(** ** The query layer over an invariant of its transport *)

Record io_keeps {S} (io : uq_io S) (I : S → Prop) : Prop := {
  keep_write c : runs I (io_write io c) (λ _, I);
  keep_read x : full x → runs I (io_read io x) (λ r s, I s ∧ full r.2);
  keep_pause : runs I (io_pause io) (λ _, I);
  keep_deadline : runs I (io_deadline io) (λ _, I);
}.

Section keeping.
Context {S : Type} (io : uq_io S) (I : S → Prop) (Hio : io_keeps io I).

Lemma keep_uq_read x : full x → runs I (uq_read io x) (λ r s, I s ∧ full r.2).
Proof.
  intros Hx. eapply runs_bind; [by apply keep_read|]. intros r. apply runs_pure. intros Hr.
  apply runs_if; intros _; by apply runs_ret.
Qed.

Lemma keep_uq_poll n x ack : full x → runs I (uq_poll_loop io n x ack) (λ r s, I s ∧ full r.2).
Proof.
  revert x. induction n as [|n IH]; intros x Hx; simpl; [by apply runs_ret|].
  eapply runs_bind; [by apply keep_uq_read|]. intros r. apply runs_pure. intros Hr.
  apply runs_if; intros _; [by apply runs_ret|].
  destruct (poll_verdict _ _); [by apply runs_ret|].
  eapply runs_bind; [by apply keep_pause|]. intros ?. by apply IH.
Qed.

Lemma keep_command cmd x ev :
  full x → runs I (uq_command_kind io cmd x ev) (λ r s, I s ∧ full r.2).
Proof.
  intros Hx. unfold uq_command_kind.
  do 2 (apply runs_if; intros _; [by apply runs_ret|]).
  eapply runs_bind; [by apply keep_deadline|]. intros ?.
  eapply runs_bind; [by apply keep_uq_read|]. intros r. apply runs_pure. intros Hr.
  do 3 (apply runs_if; intros _; [by apply runs_ret|]).
  eapply runs_bind; [by apply keep_write|]. intros e.
  apply runs_if; intros _; [by apply runs_ret|].
  eapply runs_bind; [by apply keep_uq_poll|]. intros p. apply runs_pure. intros Hp.
  apply runs_if; intros _; [by apply runs_ret|].
  eapply runs_bind; [by apply keep_deadline|]. intros ?.
  eapply runs_bind; [by apply keep_write|]. intros e2.
  apply runs_if; intros _; [by apply runs_ret|].
  eapply runs_bind; [by apply keep_uq_poll|]. intros b. apply runs_pure. intros _. by apply runs_ret.
Qed.

Lemma keep_pending n : runs I (uq_pending io n) (λ _, I).
Proof.
  unfold uq_pending. apply runs_if; intros _; [by apply runs_ret|].
  eapply runs_bind; [by apply keep_deadline|]. intros ?.
  eapply runs_bind; [by apply keep_uq_read|]. intros r. apply runs_pure. intros Hr.
  do 2 (apply runs_if; intros _; [by apply runs_ret|]). by apply runs_ret.
Qed.
End keeping.

(** ** The driver's operations *)

Section operations.
Context {D : Type} (HZ : Z) (uenv : ucsi_env D).
Abbreviation env := (logging_ucsi uenv).
Abbreviation world := (uworld (D * list (list Z))).
Implicit Types w : world.

Lemma within_io w0 : io_keeps (query_io HZ env) (within w0).
Proof.
  split; cbn [io_write io_read io_pause io_deadline query_io].
  - intros c. eapply runs_bind; [by apply within_exchange|]. intros r. apply runs_pure. intros _.
    by apply runs_ret.
  - intros x Hx. by apply within_exchange.
  - eapply runs_bind; [|intros ?; apply within_deliver]. apply within_outside. intros d. simpl.
    by destruct (ue_sleep uenv 100 d.1).
  - eapply runs_bind; [apply within_jiffies|]. intros now. cbv beta.
    by apply within_qset.
Qed.

(** A query keeps its buffer's length and a result within its limits. *)
Definition query_result (data : option (list Z)) (maximum : Z) (r : Z * option (list Z)) : Prop :=
  length <$> r.2 = length <$> data ∧ r.1 ≤ Z.max 0 maximum.

Lemma within_run_query w0 cmd data lo hi opt :
  0 ≤ lo → hi ≤ 16 → (∀ buf, data = Some buf → hi ≤ Z.of_nat (length buf)) →
  runs (within w0) (run_query HZ env cmd data lo hi opt)
    (λ r w, within w0 w ∧ query_result data hi r).
Proof.
  intros Hlo Hhi Hd. unfold run_query, uq_command.
  eapply runs_bind; [by apply (keep_command _ (within w0) (within_io w0))|].
  intros r. apply runs_pure. intros Hr.
  eapply (runs_bind _ _ _ (λ _, within w0)); [by apply within_qset|].
  intros ?. apply runs_if; intros _; [apply runs_ret; intros w Hw; split; [done|split; [done|simpl; lia]]|].
  apply runs_if; intros E1.
  { apply Z.ltb_lt in E1. apply runs_ret. intros w Hw. split; [done|]. split; [done|simpl; lia]. }
  apply runs_if; intros E2.
  { apply runs_ret. intros w Hw. split; [done|]. split; [done|simpl; unfold EPROTO; lia]. }
  rewrite orb_false_iff, !Z.ltb_ge in E2. apply Z.ltb_ge in E1.
  destruct data as [buf|].
  2: { apply runs_ret. intros w Hw. split; [done|]. split; [done|simpl; lia]. }
  specialize (Hd buf eq_refl).
  destruct (bytes_at_ok (us_prefix r.2) 16 r.1) as (src&Es&Hs); [lia..|unfold full in Hr; lia|].
  destruct (put_bytes buf 0 src) as [out| |] eqn:Ep;
    try (rewrite put_bytes_ok in Ep by lia; done).
  intros w Hw. unfold bind, lift. rewrite Es, Ep. eexists _, _. split; [done|].
  split; [done|]. split; [|simpl; lia]. simpl. by rewrite (put_bytes_length _ _ _ _ Ep).
Qed.

(** Assertions about the part exchanges do not touch. *)
Definition holds (ψ : query → bool → Prop) w0 w : Prop :=
  ψ (fixed_part (uw_q w)) (uw_once w) ∧ full_reply (uw_q w) ∧ latched w0 w.

Lemma runs_exchanging {A} ψ w0 (m : M world A) (φ : A → Prop) :
  (∀ w1, runs (within w1) m (λ r w, within w1 w ∧ φ r)) →
  runs (holds ψ w0) m (λ r w, holds ψ w0 w ∧ φ r).
Proof.
  intros Hm w (H1&H2&H3). destruct (Hm w w) as (r&w'&E&(Hf&Ho&Hl&Hr)&Hφ).
  { split_and!; try done. }
  eexists _, _. split; [done|]. split; [|done]. split_and!; [by rewrite Hf, Ho|done|by etrans].
Qed.

Lemma runs_exchanging' {A} ψ w0 (m : M world A) :
  (∀ w1, runs (within w1) m (λ _, within w1)) →
  runs (holds ψ w0) m (λ _, holds ψ w0).
Proof.
  intros Hm. eapply runs_conseq; [apply (runs_exchanging ψ w0 m (λ _, True))|done|by intros ?? []].
  intros w1. by eapply runs_conseq.
Qed.

Lemma runs_qset ψ ψ' w0 (f : query → query) :
  (∀ q o, full_reply q → ψ (fixed_part q) o → ψ' (fixed_part (f q)) o ∧ full_reply (f q) ∧
     (q_error q ≠ 0 → q_error (f q) = q_error q)) →
  runs (holds ψ w0) (qset f) (λ _, holds ψ' w0).
Proof.
  intros Hf. apply runs_modify. intros w (H1&H2&H3).
  destruct (Hf _ _ H2 H1) as (F1&F2&F3). split_and!; try done.
  etrans; [done|]. split; [exists []; by rewrite app_nil_r|]. intros He. split; [auto|done].
Qed.

Lemma runs_qread {A} ψ w0 (f : query → A) :
  (∀ q, f (fixed_part q) = f q) →
  runs (holds ψ w0) (qget f) (λ r, holds (λ q o, ψ q o ∧ r = f q) w0).
Proof.
  intros Hf w (H1&H2&H3). eexists _, _. split; [done|]. split_and!; done.
Qed.

Lemma runs_holds {A} ψ ψ' w0 (m : M world A) Q :
  runs (holds ψ' w0) m Q → (∀ q o, ψ q o → ψ' q o) → runs (holds ψ w0) m Q.
Proof. intros Hm Hψ. eapply runs_conseq; [done| |done]. intros w (?&?&?). split_and!; auto. Qed.

Lemma holds_pure {A} (φ : Prop) ψ w0 (m : M world A) Q :
  (φ → runs (holds ψ w0) m Q) → runs (holds (λ q o, ψ q o ∧ φ) w0) m Q.
Proof. intros Hm w ((?&Hp)&?&?). apply Hm; [done|by split_and!]. Qed.

(** ** The driver invariant *)

Definition rows_ok (k : nat) (rows : list (list Z)) : Prop :=
  length rows = 3%nat ∧ Forall (λ r, length r = k) rows.

Definition fixed_ok (q : query) (once : bool) : Prop :=
  length (q_cap q) = 16%nat ∧ rows_ok 4 (q_caps q) ∧ rows_ok 16 (q_status q) ∧
  rows_ok 16 (q_cable q) ∧ rows_ok 1 (q_cam q) ∧
  0 ≤ q_attempts q ≤ 3 ∧ 0 ≤ q_polls q ≤ 300 ∧ 0 ≤ q_events q ≤ 64 ∧
  (q_initialized q = true → 1 ≤ q_connectors q ≤ 3) ∧
  (q_policy_active q = true → q_policy_attempted q = true ∧ q_initialized q = true ∧
     q_connectors q = 3 ∧ q_features q = 4) ∧
  (q_policy_attempted q = true → once = true).

Lemma rows_ok_insert k rows i r : rows_ok k rows → length r = k → rows_ok k (<[i := r]> rows).
Proof.
  intros [Hl Hf] Hr. split; [by rewrite length_insert|]. by apply Forall_insert.
Qed.

(** The invariant after an update: what the update did not touch is as before. *)
Ltac fixed_case Hok :=
  destruct Hok as (Hcap&Hcaps&Hst&Hcab&Hcam&Hat&Hpo&Hev&Hin&Hac&Hon);
  unfold fixed_ok; simpl in *;
  refine (conj _ (conj _ (conj _ (conj _ (conj _ (conj _ (conj _ (conj _ (conj _ (conj _ _))))))))));
  try assumption.

Lemma ok_run_query w0 ψ cmd data lo hi opt :
  0 ≤ lo → hi ≤ 16 → (∀ buf, data = Some buf → hi ≤ Z.of_nat (length buf)) →
  runs (holds ψ w0) (run_query HZ env cmd data lo hi opt)
    (λ r w, holds ψ w0 w ∧ query_result data hi r).
Proof. intros. apply runs_exchanging. intros w1. by apply within_run_query. Qed.

Lemma or_return_ok (P : world → Prop) (m : M world Z) k Q :
  runs P m (λ _, P) → (∀ z, z < 0 → ∀ w, P w → Q z w) → (∀ z, runs P (k z) Q) →
  runs P (or_return m k) Q.
Proof.
  intros Hm Hn Hk. eapply runs_bind; [done|]. intros z. cbv beta.
  apply runs_if; [intros E|auto]. apply Z.ltb_lt in E. apply runs_ret. auto.
Qed.

(** A query into row [i] of a table of rows of length [k]. *)
Lemma ok_query_row w0 ψ get_rows put_row k i cmd lo hi opt :
  0 ≤ lo → hi ≤ 16 → hi ≤ Z.of_nat k → (i < 3)%nat →
  (∀ q, get_rows (fixed_part q) = get_rows q) →
  (∀ q o, ψ q o → rows_ok k (get_rows q)) →
  (∀ r q o, length r = k → full_reply q → ψ (fixed_part q) o → ψ (fixed_part (put_row i r q)) o ∧
     full_reply (put_row i r q) ∧ q_error (put_row i r q) = q_error q) →
  runs (holds ψ w0) (query_row HZ env get_rows put_row i cmd lo hi opt) (λ _, holds ψ w0).
Proof.
  intros Hlo Hhi Hk Hi Hg Hr Hp. unfold query_row.
  eapply runs_bind; [by apply runs_qread|]. intros rows. cbv beta.
  apply (runs_holds _ (λ q o, ψ q o ∧ rows_ok k rows)); [|intros q o [H1 ->]; split; [done|by apply (Hr q o)]].
  apply holds_pure. intros [Hl Hf].
  destruct (lookup_lt_is_Some_2 rows i) as [row Erow]; [lia|]. rewrite Erow.
  eapply (runs_bind _ _ _ (λ r w, holds ψ w0 w ∧ r = row)); [intros w Hw; by eexists _, _|].
  intros ?. apply runs_pure. intros ->.
  assert (length row = k) as Hrow by (by eapply Forall_lookup_1 in Hf).
  eapply runs_bind; [apply ok_run_query; [done..|]; intros buf [= <-]; lia|].
  intros r. apply runs_pure. intros [Hq _].
  eapply (runs_bind _ _ _ (λ _, holds ψ w0)); [|intros ?; by apply runs_ret].
  apply runs_qset. intros q o H1 H2.
  destruct (Hp (default row r.2) q o) as (?&?&?); [|done..|by split_and!].
  destruct r.2; simpl in *; congruence.
Qed.

Abbreviation ok w0 := (holds fixed_ok w0).
(** The invariant before the first successful collection. *)
Definition fresh_ok (q : query) (once : bool) : Prop :=
  fixed_ok q once ∧ q_initialized q = false.

Lemma ok_caps w0 c n i :
  (n + i ≤ 3)%nat →
  runs (holds (λ q o, fresh_ok q o ∧ q_connectors q = c) w0) (collect_caps HZ env n i)
    (λ _, holds (λ q o, fresh_ok q o ∧ q_connectors q = c) w0).
Proof.
  revert i. induction n as [|n IH]; intros i Hi; simpl; [by apply runs_ret|].
  apply or_return_ok; [|done|].
  - apply (ok_query_row _ _ _ _ 4); try done; try lia; [by intros q o [[(?&?&_) _] _]|].
    intros r q o Hr Hq [[Hok Hi0] Hc]. split; [|done]. split; [|done]. split; [|done].
    fixed_case Hok. by apply rows_ok_insert.
  - intros _. apply IH. lia.
Qed.

(** The capability query and what it says about the connectors. *)
Lemma ok_capability w0 :
  runs (holds fresh_ok w0)
    (let! cap := qget q_cap in
     let! r := run_query HZ env 6 (Some cap) 16 16 false in
     do! qset (λ q, q <| q_cap := default cap r.2 |>) in ret r.1) (λ _, holds fresh_ok w0).
Proof.
  eapply runs_bind; [by apply (runs_qread _ _ q_cap)|]. intros cap. cbv beta.
  apply (runs_holds _ (λ q o, fresh_ok q o ∧ length cap = 16%nat)).
  2: { intros q o [H1 ->]. split; [done|]. apply H1. }
  apply holds_pure. intros Hc.
  eapply runs_bind; [apply ok_run_query; [done..|]; intros buf [= <-]; lia|].
  intros r. apply runs_pure. intros [Hq _].
  eapply (runs_bind _ _ _ (λ _, holds fresh_ok w0)); [|intros ?; by apply runs_ret].
  apply runs_qset. intros q o Hq0 [Hok Hi0]. split; [|done]. split; [|done].
  fixed_case Hok. destruct r.2; simpl in *; congruence.
Qed.

Lemma fresh_connectors w0 n :
  runs (holds fresh_ok w0) (qset (λ q, q <| q_connectors := n |>))
    (λ _, holds (λ q o, fresh_ok q o ∧ q_connectors q = n) w0).
Proof.
  apply runs_qset. intros q o Hq [Hok Hi]. split; [|done]. split; [|done]. split; [|done].
  fixed_case Hok; [by rewrite Hi|]. intros Ha. destruct (Hac Ha) as (_&Hi'&_). by rewrite Hi in Hi'.
Qed.

(** The invariant after an initialisation that returned [e]. *)
Definition ready_ok (e : Z) (q : query) (once : bool) : Prop :=
  fixed_ok q once ∧ (0 ≤ e → q_initialized q = true).

Lemma ok_init w0 :
  runs (holds fresh_ok w0) (collect_init HZ env) (λ e, holds (ready_ok e) w0).
Proof.
  assert (∀ ψ z w, z < 0 → holds (λ q o, fresh_ok q o ∧ ψ q) w0 w → holds (ready_ok z) w0 w) as Hweak.
  { intros ψ z w Hz (([]&_)&?&?). split_and!; [|done..]. split; [done|lia]. }
  assert (∀ z, z < 0 → ∀ w, holds fresh_ok w0 w → holds (ready_ok z) w0 w) as Hweak'.
  { intros z Hz w ([]&?&?). split_and!; [|done..]. split; [done|lia]. }
  unfold collect_init. apply or_return_ok; [|auto|intros _].
  { eapply runs_bind; [by apply ok_run_query|]. intros r. apply runs_pure. intros _. by apply runs_ret. }
  apply or_return_ok; [apply ok_capability|auto|intros _].
  eapply runs_bind; [by apply (runs_qread _ _ q_cap)|]. intros cap. cbv beta.
  apply (runs_holds _ (λ q o, fresh_ok q o ∧ length cap = 16%nat)).
  2: { intros q o [H1 ->]. split; [done|]. apply H1. }
  apply holds_pure. intros Hc.
  destruct (byte_at_ok cap 4) as (n&En&_); [lia|]. rewrite En.
  eapply (runs_bind _ _ _ (λ r w, holds fresh_ok w0 w ∧ r = n)); [intros w Hw; by eexists _, _|].
  intros ?. apply runs_pure. intros ->.
  eapply runs_bind; [apply (fresh_connectors w0 (u8 n))|]. intros ?. cbv beta.
  pose proof (u8_range n) as Hn. set (c := u8 n) in *.
  apply runs_if; intros Er; [apply runs_ret; intros w; by apply Hweak|].
  rewrite orb_false_iff, Z.eqb_neq, Z.ltb_ge in Er.
  destruct (get_le16_ok cap 5) as (f&Ef&_); [lia..|]. rewrite Ef.
  eapply (runs_bind _ _ _ (λ r w, holds (λ q o, fresh_ok q o ∧ q_connectors q = c) w0 w ∧ r = f)).
  { intros w Hw. by eexists _, _. }
  intros ?. apply runs_pure. intros ->.
  eapply (runs_bind _ _ _ (λ _, holds (λ q o, fresh_ok q o ∧ q_connectors q = c) w0)).
  { apply runs_qset. intros q o Hq [[Hok Hi] Hcc]. split; [|done]. split; [|done]. split; [|done].
    fixed_case Hok. intros Ha. destruct (Hac Ha) as (_&Hi'&_). by rewrite Hi in Hi'. }
  intros ?. apply or_return_ok; [apply ok_caps; lia|intros z Hz w; by apply Hweak|].
  intros _. eapply (runs_bind _ _ _ (λ _, holds (ready_ok 0) w0)); [|intros ?; by apply runs_ret].
  apply runs_qset. intros q o Hq [[Hok Hi] Hcc]. split; [|done]. split; [|done].
  fixed_case Hok; [intros _; lia|]. intros Ha. destruct (Hac Ha) as (_&Hi'&_). by rewrite Hi in Hi'.
Qed.

(** One query of connector [i], by the table its answer goes to. *)
Ltac row_query k :=
  apply (ok_query_row _ _ _ _ k); try done; try lia;
    [by intros q o (?&?&?&?&?&_)
    |intros r q o Hr Hq Hok; (split; [|done]); fixed_case Hok; by apply rows_ok_insert].

Lemma ok_modes w0 i : (i < 3)%nat → runs (ok w0) (collect_modes HZ env i) (λ _, ok w0).
Proof.
  intros Hi. unfold collect_modes. apply or_return_ok; [row_query 1%nat|done|intros _].
  do 2 (apply or_return_ok; [|done|intros _];
    [eapply runs_bind; [by apply ok_run_query|]; intros r; apply runs_pure; intros _; by apply runs_ret|]).
  by apply runs_ret.
Qed.

Lemma ok_partner w0 i : (i < 3)%nat → runs (ok w0) (collect_partner HZ env i) (λ _, ok w0).
Proof.
  intros Hi. unfold collect_partner. eapply (runs_bind _ _ _ (λ _, ok w0)).
  { intros w Hw. by eexists _, _. }
  intros features. apply or_return_ok; [|done|intros _].
  - apply runs_if; intros _; [|by apply runs_ret].
    apply or_return_ok; [row_query 16%nat|done|intros e].
    eapply (runs_bind _ _ _ (λ _, ok w0)); [|intros ?; by apply runs_ret].
    apply runs_qset. intros q o Hq Hok. by split_and!.
  - apply runs_if; intros _; [by apply ok_modes|by apply runs_ret].
Qed.

Lemma ok_connector w0 i : (i < 3)%nat → runs (ok w0) (collect_connector HZ env i) (λ _, ok w0).
Proof.
  intros Hi. unfold collect_connector. apply or_return_ok; [row_query 16%nat|done|intros e].
  eapply (runs_bind _ _ _ (λ _, ok w0)).
  { apply runs_qset. intros q o Hq Hok. by split_and!. }
  intros ?. eapply runs_bind; [by apply (runs_qread _ _ q_status)|]. intros rows. cbv beta.
  apply (runs_holds _ (λ q o, fixed_ok q o ∧ rows_ok 16 rows)).
  2: { intros q o [H1 ->]. split; [done|]. apply H1. }
  apply holds_pure. intros [Hl Hf].
  destruct (lookup_lt_is_Some_2 rows i) as [row Erow]; [lia|]. rewrite Erow.
  assert (length row = 16%nat) as Hrow by (by eapply Forall_lookup_1 in Hf).
  destruct (get_le32_ok row 0) as (x&E&_); [lia..|]. rewrite E.
  eapply (runs_bind _ _ _ (λ _, ok w0)); [intros w Hw; by eexists _, _|]. intros status. cbv beta zeta.
  apply runs_if; intros _; [by apply runs_ret|by apply ok_partner].
Qed.

Lemma ok_loop w0 n i : (n + i ≤ 3)%nat → runs (ok w0) (collect_loop HZ env n i) (λ _, ok w0).
Proof.
  revert i. induction n as [|n IH]; intros i Hi; simpl; [by apply runs_ret|].
  apply or_return_ok; [apply ok_connector; lia|done|intros _]. apply IH. lia.
Qed.

Lemma ok_collect w0 : runs (ok w0) (query_collect HZ env) (λ _, ok w0).
Proof.
  unfold query_collect. eapply runs_bind; [by apply (runs_qread _ _ q_initialized)|].
  intros b. cbv beta. unfold or_return.
  eapply (runs_bind _ _ _ (λ e, holds (ready_ok e) w0)).
  { destruct b.
    - apply runs_ret. intros w ((?&Hi)&?&?). split_and!; [|done..]. by split.
    - eapply runs_conseq; [apply ok_init|intros w ((?&Hi)&?&?); by split_and!|done]. }
  intros e. cbv beta. apply runs_if; intros Ee.
  { apply runs_ret. intros w ((?&_)&?&?). by split_and!. }
  apply Z.ltb_ge in Ee.
  eapply (runs_bind _ _ _ (λ _, holds (ready_ok e) w0)).
  { apply runs_qset. intros q o Hq [Hok Hi]. split; [|done]. split; [|done].
    fixed_case Hok; by repeat constructor. }
  intros ?. eapply runs_bind; [by apply (runs_qread _ _ q_connectors)|]. intros n. cbv beta.
  apply (runs_holds _ (λ q o, fixed_ok q o ∧ 1 ≤ n ≤ 3)).
  2: { intros q o [[Hok Hi] ->]. split; [done|]. by apply Hok, Hi. }
  apply holds_pure. intros Hn. apply ok_loop. lia.
Qed.

(** Draining counts events and leaves any other fact [χ] alone. *)
Lemma ok_drain_with w0 (χ : query → Prop) :
  (∀ q n, χ (fixed_part q) → χ (fixed_part (q <| q_events := n |>))) →
  runs (holds (λ q o, fixed_ok q o ∧ χ q) w0) (query_drain HZ env)
    (λ _, holds (λ q o, fixed_ok q o ∧ χ q) w0).
Proof.
  intros Hχ. set (ψ := λ q o, fixed_ok q o ∧ χ q). set (ψ' := λ q o, ψ q o ∧ q_events q < 64).
  assert (∀ w, holds ψ' w0 w → holds ψ w0 w) as Hweak by (by intros w ((?&_)&?)).
  unfold query_drain. generalize 8%nat. intros n. induction n as [|n IH]; simpl; [by apply runs_ret|].
  eapply (runs_bind _ _ _ (λ _, holds ψ w0)); [intros w Hw; by eexists _, _|]. intros c. cbv beta.
  eapply runs_bind; [apply runs_exchanging'; intros w1; apply (keep_pending _ _ (within_io w1))|].
  intros connector. cbv beta. apply runs_if; intros _; [by apply runs_ret|].
  eapply runs_bind; [by apply (runs_qread _ _ q_events)|]. intros ev. cbv beta.
  apply (runs_if (S := world)); intros He; [apply runs_ret; by intros w ((?&_)&?)|].
  apply Z.leb_gt in He. apply (runs_holds _ ψ'); [|by intros q o [? ->]].
  eapply runs_bind.
  { apply (runs_exchanging _ _ _ (λ r, full r.2)). intros w1.
    by apply (keep_command _ _ (within_io w1)). }
  intros r. apply runs_pure. intros _. eapply (runs_bind _ _ _ (λ _, holds ψ' w0)).
  { apply runs_qset. intros q o Hq Hok. split; [exact Hok|done]. }
  intros ?. cbv beta. apply runs_if; intros _; [apply runs_ret; auto|].
  eapply (runs_bind _ _ _ (λ _, holds ψ w0)); [|intros ?; apply IH].
  apply runs_qset. intros q o Hq [[Hok Hc] Hlt]. split; [|done]. split; [|by apply Hχ].
  fixed_case Hok. rewrite u32_small; lia.
Qed.

Lemma ok_drain w0 : runs (ok w0) (query_drain HZ env) (λ _, ok w0).
Proof.
  eapply runs_conseq; [by apply (ok_drain_with w0 (λ _, True))|by intros w (?&?)|by intros ? w ((?&_)&?)].
Qed.

Lemma ok_fail w0 e : runs (ok w0) (query_fail e) (λ _, ok w0).
Proof.
  apply runs_qset. intros q o Hq Hok.
  destruct ((e !=? 0) && (q_error q =? 0)) eqn:E; (split; [fixed_case Hok; done|]); split; try done.
  simpl. intros Hn. apply andb_true_iff in E as [_ E]. by apply Z.eqb_eq in E.
Qed.

Lemma clamp_group_ok q o :
  full_reply q → fixed_ok (fixed_part q) o → fixed_ok (fixed_part (clamp_group q)) o ∧
    full_reply (clamp_group q) ∧ q_error (clamp_group q) = q_error q.
Proof. intros Hq Hok. unfold clamp_group. destruct (time_after _ _); by split_and!. Qed.

Lemma ok_worker w0 : runs (ok w0) (policy_worker HZ env) (λ _, ok w0).
Proof.
  unfold policy_worker. eapply (runs_bind _ _ _ (λ _, ok w0)).
  { apply runs_qset. intros q o Hq Hok. by split_and!. }
  intros ?. eapply runs_bind; [apply (runs_qget (ok w0))|]. intros q. cbv beta.
  apply runs_if; intros _; [apply runs_ret; by intros w []|].
  eapply (runs_bind _ _ _ (λ _ w, ok w0 w ∧ q = uw_q w)); [intros w Hw; by eexists _, _|].
  intros now. cbv beta zeta. set (e := if q_error q !=? 0 then _ else _).
  apply (runs_conseq (holds (λ q' o, fixed_ok q' o ∧ (e = 0 → q_polls q' < 300)) w0) _ _ (λ _, ok w0)).
  2: { intros w ((?&?)&->). split; [|done]. split; [done|]. unfold e. simpl.
       destruct (Z.eqb_spec (q_error (uw_q w)) 0); [|done]. cbn [negb].
       destruct (_ || _) eqn:Eo; [done|]. apply orb_false_iff in Eo as [_ Eo]. by apply Z.leb_gt in Eo. }
  2: done.
  eapply (runs_bind _ _ _ (λ _, ok w0)).
  - destruct (Z.eqb_spec e 0) as [He|]; [|apply runs_ret; intros w ((?&_)&?&?); by split_and!].
    apply (runs_bind _ _ _ (λ _, holds (λ q' o, fixed_ok q' o ∧ q_polls q' < 300) w0)).
    { intros w ([? Hp]&?). eexists _, _. split; [done|]. split; [|done]. split; auto. }
    intros now'. cbv beta. eapply (runs_bind _ _ _ (λ _, ok w0)); [|intros ?; apply ok_drain].
    apply runs_qset. intros q' o Hq [Hok Hlt].
    match goal with |- context [clamp_group ?x] => destruct (clamp_group_ok x o) as (?&?&Hce) end;
      [done| |by rewrite Hce]. fixed_case Hok. rewrite u32_small; lia.
  - intros e'. cbv beta. apply runs_if; intros _; [apply ok_fail|].
    apply runs_qset. intros q' o Hq Hok. split; [exact Hok|done].
Qed.

Lemma ok_stop w0 : runs (ok w0) policy_stop (λ _, ok w0).
Proof.
  eapply runs_bind; [apply ok_fail|]. intros ?. cbv beta.
  apply runs_qset. intros q o Hq Hok. split; [exact Hok|done].
Qed.

(** What a policy needs before it may be enabled. *)
Definition eligible (q : query) : Prop :=
  q_initialized q = true ∧ q_connectors q = 3 ∧ q_features q = 4.

Lemma ok_enable w0 : runs (ok w0) (policy_enable HZ env) (λ _, ok w0).
Proof.
  unfold policy_enable. eapply runs_bind; [apply (runs_qget (ok w0))|]. intros q. cbv beta.
  do 2 (apply runs_if; intros _; [apply runs_ret; by intros w []|]).
  apply runs_if; intros Ee; [apply runs_ret; by intros w []|].
  rewrite !orb_false_iff, !negb_false_iff, !Z.eqb_eq in Ee.
  apply (runs_conseq (holds (λ q' o, fixed_ok q' o ∧ eligible q') w0) _ _ (λ _, ok w0)).
  2: { intros w ((?&?)&->). destruct Ee as [[??]?]. split; [|done]. by split. }
  2: done.
  eapply (runs_bind _ _ _ (λ c, holds (λ q' o, fixed_ok q' o ∧ eligible q' ∧ o = true) w0)).
  { intros w ((Hok&?)&?). eexists _, _. split; [done|]. split; [|done]. split; [|done].
    by fixed_case Hok. }
  intros claimed. cbv beta. apply (runs_if (S := world)); intros _.
  { apply runs_ret. intros w ((?&_)&?&?). by split_and!. }
  eapply (runs_bind _ _ _ (λ c, holds (λ q' o, fixed_ok q' o ∧ eligible q' ∧ o = true) w0)).
  { intros w Hw. by eexists _, _. }
  intros now. cbv beta.
  set (χ := λ q', eligible q' ∧ q_policy_attempted q' = true).
  set (ψ := λ (q' : query) (o : bool), fixed_ok q' o ∧ χ q').
  assert (∀ w, holds ψ w0 w → ok w0 w) as Hweak by (by intros w ((?&_)&?)).
  eapply (runs_bind _ _ _ (λ _, holds ψ w0)).
  { apply runs_qset. intros q' o Hq (Hok&He&Ho). split; [|done]. split; [|done].
    by fixed_case Hok. }
  intros ?. cbv beta. eapply runs_bind; [by apply (ok_run_query w0 ψ)|].
  intros r. apply runs_pure. intros _. eapply (runs_bind _ _ _ (λ _, holds ψ w0)).
  { apply runs_if; intros _; [by apply ok_drain_with|by apply runs_ret]. }
  intros e. cbv beta. apply runs_if; intros _.
  - eapply (runs_bind _ _ _ (λ _, ok w0)); [|intros ?; by apply runs_ret].
    eapply runs_conseq; [apply ok_fail|done|done].
  - eapply (runs_bind _ _ _ (λ _, ok w0)); [|intros ?; by apply runs_ret].
    apply runs_qset. intros q' o Hq [Hok [(?&?&?) ?]]. split; [|done].
    fixed_case Hok. intros _. by split_and!.
Qed.

Lemma ok_policy_store w0 parsed : runs (ok w0) (policy_store HZ env parsed) (λ _, ok w0).
Proof.
  destruct parsed as [e|[|]]; simpl; [by apply runs_ret| |].
  - eapply (runs_bind _ _ _ (λ _, ok w0)); [intros w Hw; by eexists _, _|]. intros c. cbv beta.
    apply runs_if; intros _; [by apply runs_ret|apply ok_enable].
  - eapply runs_bind; [apply ok_stop|]. intros ?. by apply runs_ret.
Qed.

Lemma ok_rounds w0 : runs (ok w0) (query_rounds HZ env) (λ _, ok w0).
Proof.
  unfold query_rounds.
  eapply (runs_bind _ _ _ (λ _, ok w0)); [intros w Hw; by eexists _, _|]. intros now. cbv beta.
  eapply (runs_bind _ _ _ (λ _, ok w0)).
  { apply runs_qset. intros q o Hq Hok. split; [exact Hok|done]. }
  intros ?. eapply (runs_bind _ _ _ (λ _, ok w0)); [intros w Hw; by eexists _, _|]. intros q. cbv beta.
  apply runs_if; intros _; [by apply runs_ret|].
  eapply (runs_bind _ _ _ (λ _, ok w0)).
  { apply runs_if; intros _; [|by apply runs_ret].
    eapply (runs_bind _ _ _ (λ _, ok w0)); [|intros ?; apply ok_drain].
    apply runs_qset. intros q' o Hq Hok. destruct (clamp_group_ok q' o Hq Hok) as (?&?&Hce).
    by rewrite Hce. }
  intros e. eapply (runs_bind _ _ _ (λ _, ok w0)).
  { apply runs_if; intros _; [by apply runs_ret|].
    eapply runs_bind; [apply ok_collect|]. intros e'. cbv beta.
    eapply (runs_bind _ _ _ (λ _, ok w0)); [intros w Hw; by eexists _, _|]. intros act. cbv beta.
    apply runs_if; intros _; [apply ok_drain|by apply runs_ret]. }
  intros e'. cbv beta. eapply runs_bind; [apply (runs_qget (ok w0))|]. intros err w [Hw ->].
  destruct Hw as (H1&H2&H3). cbv zeta.
  destruct (Z.eqb_spec (q_error (uw_q w)) 0) as [E|E]; cbn [negb].
  - destruct (e' !=? 0); eexists _, _; (split; [done|]); split_and!; try done.
    etrans; [done|]. split; [exists []; by rewrite app_nil_r|]. done.
  - destruct (q_error (uw_q w) !=? 0); eexists _, _; (split; [done|]); split_and!; try done.
Qed.

Lemma ok_query_store w0 parsed : runs (ok w0) (query_store HZ env parsed) (λ _, ok w0).
Proof.
  destruct parsed as [e|[|]]; simpl; [by apply runs_ret| |by apply runs_ret].
  eapply (runs_bind _ _ _ (λ _, ok w0)); [intros w Hw; by eexists _, _|]. intros c. cbv beta.
  apply runs_if; intros _; [by apply runs_ret|].
  eapply runs_bind; [apply (runs_qget (ok w0))|]. intros q. cbv beta zeta.
  apply runs_if; intros E; [apply runs_ret; by intros w []|].
  apply (runs_conseq (holds (λ q' o, fixed_ok q' o ∧ q_attempts q' < 3) w0) _ _ (λ _, ok w0)).
  2: { intros w ((?&?)&->). split; [|done]. split; [done|]. apply negb_false_iff, Z.eqb_eq in E.
       simpl. destruct (Z.eqb_spec (q_error (id (uw_q w))) 0); [|done]. cbn [negb] in E.
       destruct (negb _); [done|]. destruct (Z.leb_spec 3 (q_attempts (id (uw_q w)))); done. }
  2: done.
  eapply (runs_bind _ _ _ (λ _, ok w0)); [|intros ?; apply ok_rounds].
  apply runs_qset. intros q' o Hq [Hok Hlt]. split; [|done]. fixed_case Hok.
  rewrite u32_small; lia.
Qed.
End operations.

(** ** Reachable states *)

Section reachable.
Context {D : Type} (HZ : Z).
Abbreviation world := (uworld (D * list (list Z))).
Implicit Types w : world.

(** The state [query_probe] leaves, whatever happened to [policy_once] before. *)
Definition probed (once : bool) (d : D) : world := UWorld query_zero once (d, []).

(** One call at a time under the control mutex, with callbacks and the passing
    of time in between; the worker runs only when it is queued. *)
Inductive ucsi_step : world → world → Prop :=
| step_query env parsed w : ucsi_step w (query_store HZ (logging_ucsi env) parsed w).2
| step_policy env parsed w : ucsi_step w (policy_store HZ (logging_ucsi env) parsed w).2
| step_worker env w :
    q_scheduled (uw_q w) = true → ucsi_step w (policy_worker HZ (logging_ucsi env) w).2
| step_remove w : ucsi_step w (policy_stop w).2
| step_deliver i w : ucsi_step w (deliver i w).2
| step_time d w : ucsi_step w (UWorld (uw_q w) (uw_once w) (d, sent w)).

Lemma runs_result {A} (P : world → Prop) (m : M world A) (Q : world → Prop) w :
  runs P m (λ _, Q) → P w → Q (m w).2.
Proof. intros Hm Hw. destruct (Hm w Hw) as (r&w'&E&H'). by rewrite E. Qed.

Lemma ucsi_step_ok w0 w w' : ucsi_step w w' → holds fixed_ok w0 w → holds fixed_ok w0 w'.
Proof.
  intros Hs Hw. destruct Hs.
  - by eapply runs_result; [apply ok_query_store|].
  - by eapply runs_result; [apply ok_policy_store|].
  - by eapply runs_result; [apply ok_worker|].
  - by eapply runs_result; [apply ok_stop|].
  - eapply runs_result; [|done]. apply runs_exchanging'. intros w1. apply within_deliver_one.
  - destruct Hw as (H1&H2&Hl). split; [exact H1|]. split; [exact H2|]. etrans; [done|].
    split; [|done]. exists []. by rewrite app_nil_r.
Qed.

Lemma ucsi_steps_ok w0 w w' : rtc ucsi_step w w' → holds fixed_ok w0 w → holds fixed_ok w0 w'.
Proof. induction 1 as [|w1 w2 w3 Hs _ IH]; [done|]. intros Hw. eapply IH, ucsi_step_ok; eauto. Qed.

Lemma probed_ok once d : holds fixed_ok (probed once d) (probed once d).
Proof.
  split_and!; try done. unfold fixed_ok, rows_ok. simpl.
  split_and!; try done; try lia; by repeat constructor.
Qed.

(** C40. In every state the driver can reach, under any traffic, timing and
    calls: the counters respect their limits (3 rounds, 300 polls, 64 events),
    the connector count is in range once known, the policy runs only on the one
    supported capability combination and only after the boot-wide claim,
    everything ever sent is a read or an allow-listed command, and no entry
    point reads or writes outside its buffers. *)
Theorem ucsi_invariant once d w :
  rtc ucsi_step (probed once d) w →
  fixed_ok (uw_q w) (uw_once w) ∧ Forall wire_ok (sent w) ∧
  ∀ env parsed i, (∃ z, (query_store HZ (logging_ucsi env) parsed w).1 = Ok z) ∧
    (∃ z, (policy_store HZ (logging_ucsi env) parsed w).1 = Ok z) ∧
    (policy_worker HZ (logging_ucsi env) w).1 = Ok tt ∧ (deliver i w).1 = Ok tt.
Proof.
  intros Hs. pose proof (ucsi_steps_ok (probed once d) _ w Hs (probed_ok once d)) as Hw.
  split; [apply Hw|]. split.
  { destruct Hw as (_&_&(t&Ht&Hf)&_). unfold sent at 2 in Ht. simpl in Ht. by rewrite Ht. }
  intros env parsed i. split_and!.
  - destruct (ok_query_store HZ env _ parsed w Hw) as (z&?&->&_). eauto.
  - destruct (ok_policy_store HZ env _ parsed w Hw) as (z&?&->&_). eauto.
  - by destruct (ok_worker HZ env _ w Hw) as ([]&?&->&_).
  - destruct Hw as (_&Hr&_). destruct (within_deliver_one w i w) as ([]&?&->&_); [|done].
    by split_and!.
Qed.

(** The first error is terminal: in every later state it is still the
    recorded error and not one further packet has been sent, whichever entry
    points are called and whatever the service delivers. *)
Theorem ucsi_latch once d w w' :
  rtc ucsi_step (probed once d) w → q_error (uw_q w) ≠ 0 → rtc ucsi_step w w' →
  q_error (uw_q w') = q_error (uw_q w) ∧ sent w' = sent w.
Proof.
  intros Hs He Hs'. destruct (ucsi_steps_ok (probed once d) _ w Hs (probed_ok once d)) as (H1&H2&_).
  destruct (ucsi_steps_ok w w w' Hs') as (_&_&_&Hl); [by split_and!|]. by apply Hl.
Qed.
End reachable.

(** ** A simulated service

    Answers every exchange at once: a read with the current CCI word and
    message, a write by completing the command.  The capability reply reports
    three connectors and features 0004. *)

Definition ppm_message (cmd : Z) : list Z :=
  if cmd =? 6 then [0; 0; 0; 0; 3; 4; 0] ++ replicate 9 0 else replicate 16 0.
Definition ppm_length (cmd : Z) : Z :=
  if cmd =? 6 then 16 else if (cmd =? UQ_NOTIFY) || (cmd =? UQ_NOTIFY_READY) then 0
  else if cmd .& 0xff =? 7 then 4 else 9.

Definition ppm_cci (cmd : Z) : Z :=
  if (cmd =? UQ_ACK) || (cmd =? UQ_ACK_EVENT) then UQ_ACKED
  else UQ_COMPLETE .| (ppm_length cmd << 8).

Definition ppm_env : ucsi_env Z := {|
  ue_jiffies _ := 0;
  ue_send p cmd :=
    let head op := le32 32779 ++ le32 1 ++ le32 op in
    if (length p =? 12)%nat then
      (0, [Packet (head 0x11 ++ le16 0x0120 ++ [0; 0] ++ le32 (ppm_cci cmd) ++
                   replicate 8 0 ++ ppm_message cmd ++ replicate 16 0 ++ le32 0)], cmd)
    else
      (0, [Packet (head 0x12 ++ le32 0)],
       match get_unaligned_le32 p 20 with Ok c => c | _ => 0 end);
  ue_wait _ d := ([], [], d);
  ue_sleep _ d := ([], d);
  ue_nhi_complete _ := true |}.

(** The same service gone mute. *)
Definition mute_env : ucsi_env Z := {|
  ue_jiffies _ := 0; ue_send _ d := (0, [], d); ue_wait _ d := ([], [], d);
  ue_sleep _ d := ([], d); ue_nhi_complete _ := true |}.

Definition up : uworld (Z * list (list Z)) := (deliver (Pdr true) (probed false UQ_ACK)).2.
Definition collected := (query_store 250 (logging_ucsi ppm_env) (inr true) up).2.
Definition enabled := (policy_store 250 (logging_ucsi ppm_env) (inr true) collected).2.
Definition polled := (policy_worker 250 (logging_ucsi ppm_env) enabled).2.
Definition broken := (query_store 250 (logging_ucsi mute_env) (inr true) polled).2.

Example simulated_run :
  (query_store 250 (logging_ucsi ppm_env) (inr true) up).1 = Ok 0 ∧
  q_connectors (uw_q collected) = 3 ∧ q_features (uw_q collected) = 4 ∧
  (policy_store 250 (logging_ucsi ppm_env) (inr true) collected).1 = Ok 0 ∧
  q_policy_active (uw_q enabled) = true ∧ q_polls (uw_q polled) = 1 ∧
  q_error (uw_q broken) = -ETIMEDOUT.
Proof. by vm_compute. Qed.

Lemma reach_broken : rtc (ucsi_step 250) (probed false UQ_ACK) broken.
Proof.
  apply (rtc_l _ _ up); [apply step_deliver|].
  apply (rtc_l _ _ collected); [apply step_query|].
  apply (rtc_l _ _ enabled); [apply step_policy|].
  apply (rtc_l _ _ polled); [apply step_worker; by vm_compute|].
  apply (rtc_l _ _ broken); [apply step_query|]. apply rtc_refl.
Qed.

Lemma ucsi_invariant_witness : fixed_ok (uw_q broken) (uw_once broken).
Proof. apply (ucsi_invariant 250 false UQ_ACK broken). exact reach_broken. Defined.

Lemma ucsi_latch_witness :
  sent (query_store 250 (logging_ucsi ppm_env) (inr true) broken).2 = sent broken.
Proof.
  apply (ucsi_latch 250 false UQ_ACK broken); [exact reach_broken|by vm_compute|].
  apply rtc_once, step_query.
Defined.
