(* ===== verification/Pdlog.v ===== *)
(** * PD log capture (snapshot/kernel/drivers/soc/qcom/yoga_pdlog_policy.h and
    yoga_pdlog.c)

    A bounded GET-only capture of a text log: a request policy, a decoder that
    keeps printable text only, and the driver around them.  Replies and a stop
    from sysfs may arrive while the worker waits; both are modelled as traffic
    delivered at its interruptible points. *)

From S2P Require Import Prelude.

(** ** Policy (yoga_pdlog_policy.h) *)

Definition PDLOG_SIZE : Z := 8192.
Definition PDLOG_MAX_REQUESTS : Z := 128.

Record pdlog_state := PdState {
  ps_attempted : bool;
  ps_active : bool;
  ps_awaiting : bool;
  ps_limited : bool;
  ps_requests : Z;
  ps_replies : Z;
  ps_error : Z;
}.
#[export] Instance eta_pdlog_state : Eta pdlog_state := λ s,
  PdState (ps_attempted s) (ps_active s) (ps_awaiting s) (ps_limited s) (ps_requests s)
    (ps_replies s) (ps_error s).

Definition pdlog_start (s : pdlog_state) (allowed : bool) : Z * pdlog_state :=
  if negb allowed || ps_attempted s then (-EPERM, s)
  else (0, s <| ps_attempted := true |> <| ps_active := true |>).

Definition pdlog_stop (s : pdlog_state) (error : Z) : pdlog_state :=
  let s := s <| ps_active := false |> <| ps_awaiting := false |> in
  if (error !=? 0) && (ps_error s =? 0) then s <| ps_error := error |> else s.

Definition pdlog_next (s : pdlog_state) (expired : bool) : bool * pdlog_state :=
  if negb (ps_active s) || ps_awaiting s || (ps_error s !=? 0) then (false, s) else
  if expired || (PDLOG_MAX_REQUESTS <=? ps_requests s)
  then (false, pdlog_stop (s <| ps_limited := true |>) 0)
  else (true, s <| ps_requests := u32 (ps_requests s + 1) |> <| ps_awaiting := true |>).

Definition pdlog_request : res (list Z) :=
  let? r := put_bytes (replicate 16 0) 0 (le32 32778) in
  let? r := put_bytes r 4 (le32 1) in
  let? r := put_bytes r 8 (le32 0x18) in
  put_bytes r 12 (le32 PDLOG_SIZE).

(** What may be shown: printable text, newline and tab. *)
Definition shown (c : Z) : bool :=
  ((32 <=? c) && (c <=? 126)) || (c =? 10) || (c =? 9).

Fixpoint c_string (l : list Z) : list Z :=
  match l with
  | [] => []
  | c :: l => if c =? 0 then [] else c :: c_string l
  end.

(** [text] is the buffer written to; the result is its new contents. *)
Definition pdlog_decode (p text : list Z) : res (list Z) :=
  if Z.of_nat (length p) !=? PDLOG_SIZE + 12 then Err (-EMSGSIZE) else
  let? w0 := get_unaligned_le32 p 0 in
  if w0 !=? 32778 then Err (-EBADMSG) else
  let? w1 := get_unaligned_le32 p 4 in
  if w1 !=? 1 then Err (-EBADMSG) else
  let? w2 := get_unaligned_le32 p 8 in
  if w2 !=? 0x18 then Err (-EBADMSG) else
  let? body := bytes_at p 12 PDLOG_SIZE in
  put_bytes text 0 (map (λ c, if shown c then c else 46) (c_string body) ++ [0]).

Definition pdlog_reply (s : pdlog_state) (error : Z) : bool * pdlog_state :=
  if negb (ps_active s) || negb (ps_awaiting s) || (ps_error s !=? 0) then (false, s) else
  let s := s <| ps_awaiting := false |> in
  (true, if error !=? 0 then pdlog_stop s error
         else s <| ps_replies := u32 (ps_replies s + 1) |>).

(** ** Printing (the [strsep] loop of [pdlog_work]) *)

(** The pieces between newlines. *)
Fixpoint split_lines (l : list Z) : list (list Z) :=
  match l with
  | [] => [[]]
  | c :: l =>
      if c =? 10 then [] :: split_lines l else
      match split_lines l with
      | line :: lines => (c :: line) :: lines
      | [] => [[c]]
      end
  end.

(** A line in pieces of at most 160 bytes; [n] bounds their number. *)
Fixpoint pieces (n : nat) (line : list Z) : list (list Z) :=
  match n with
  | O => []
  | Datatypes.S n =>
      match line with [] => [] | _ => take 160 line :: pieces n (drop 160 line) end
  end.

Definition pdlog_lines (text : list Z) : list (list Z) :=
  flat_map (λ line, pieces (length line) line) (split_lines (c_string text)).

(** [strsep] leaves a NUL in place of each newline of the string. *)
Fixpoint strsep_all (l : list Z) : list Z :=
  match l with
  | [] => []
  | c :: l => if c =? 0 then c :: l else (if c =? 10 then 0 else c) :: strsep_all l
  end.

(** ** The driver (yoga_pdlog.c) *)

Record pdlog := Pdlog {
  pd_done : bool;
  pd_scheduled : bool;
  pd_state : pdlog_state;
  pd_deadline : Z;
  pd_nonempty : Z;
  pd_text : list Z;
}.
#[export] Instance eta_pdlog : Eta pdlog := λ p,
  Pdlog (pd_done p) (pd_scheduled p) (pd_state p) (pd_deadline p) (pd_nonempty p) (pd_text p).

Definition pdlog_zero : pdlog :=
  Pdlog false false (PdState false false false false 0 0 0) 0 0 (replicate (Z.to_nat 8193) 0).

(** A message from the channel ([None] for a negative length), or a
    concurrent [pdlog_cancel]. *)
Inductive pd_traffic := PdMessage (p : option (list Z)) | PdCancel (error : Z).

Record pd_env (D : Type) := {
  pe_jiffies : D → Z;
  pe_trysend : list Z → D → Z * list pd_traffic * D;
  pe_wait : Z → D → list pd_traffic * list pd_traffic * D;
  pe_print : list Z → D → D;
  pe_nhi_complete : D → bool;
}.
Arguments pe_jiffies {_} _ _.
Arguments pe_trysend {_} _ _ _.
Arguments pe_wait {_} _ _ _.
Arguments pe_print {_} _ _ _.
Arguments pe_nhi_complete {_} _ _.

(** [pw_boot] is [attempted_this_boot]. *)
Record pworld (D : Type) := PWorld { pw_p : pdlog; pw_boot : bool; pw_dev : D }.
Arguments PWorld {_} _ _ _.
Arguments pw_p {_} _.
Arguments pw_boot {_} _.
Arguments pw_dev {_} _.

Section driver.
Context {D : Type} (HZ : Z) (env : pd_env D).
Abbreviation W := (M (pworld D)).

Definition pset (f : pdlog → pdlog) : W unit :=
  modify (λ w, PWorld (f (pw_p w)) (pw_boot w) (pw_dev w)).
Definition pget {A} (f : pdlog → A) : W A := λ w, (Ok (f (pw_p w)), w).
Definition pout {A} (f : D → A * D) : W A := λ w,
  let (x, d) := f (pw_dev w) in (Ok x, PWorld (pw_p w) (pw_boot w) d).
Definition pd_jiffies : W Z := λ w, (Ok (pe_jiffies env (pw_dev w)), w).

(** The new text and the error code of a received message. *)
Definition received (m : option (list Z)) (text : list Z) : res (Z * list Z) :=
  match m with
  | None => Ok (-EMSGSIZE, text)
  | Some p =>
      match pdlog_decode p text with
      | Ok text => Ok (0, text) | Err e => Ok (e, text) | Fault => Fault
      end
  end.

Definition pdlog_callback (m : option (list Z)) : W unit :=
  let! p := pget id in
  let s := pd_state p in
  if ps_active s && ps_awaiting s && (ps_error s =? 0) then
    let! r := lift (received m (pd_text p)) in
    let (accepted, s) := pdlog_reply s r.1 in
    pset (λ p, let p := p <| pd_text := r.2 |> <| pd_state := s |> in
               if accepted then p <| pd_done := true |> else p)
  else ret tt.

Definition pdlog_cancel (error : Z) : W unit :=
  pset (λ p, p <| pd_state := pdlog_stop (pd_state p) error |> <| pd_done := true |>
               <| pd_scheduled := false |>).

Definition pd_deliver (t : pd_traffic) : W unit :=
  match t with PdMessage m => pdlog_callback m | PdCancel e => pdlog_cancel e end.
Definition pd_deliver_all (l : list pd_traffic) : W unit := for_each l pd_deliver.

(** Send one request and wait for its reply. *)
Definition pdlog_exchange : W Z :=
  let! request := lift pdlog_request in
  let! r := pout (pe_trysend env request) in
  do! pd_deliver_all r.2 in
  let! now := pd_jiffies in
  let! deadline := pget pd_deadline in
  let rest := if time_before now deadline then Z.min (5 * HZ) (u64 (deadline - now)) else 0 in
  if r.1 !=? 0 then ret r.1 else
  if rest =? 0 then ret (-ETIMEDOUT) else
  let! t := pout (pe_wait env rest) in
  do! pd_deliver_all t.1 in
  let! fin := pget pd_done in
  do! pd_deliver_all t.2 in
  ret (if fin then 0 else -ETIMEDOUT).

Definition pdlog_work : W unit :=
  do! pset (λ p, p <| pd_scheduled := false |>) in
  let! now := pd_jiffies in
  let! p := pget id in
  let (more, s) := pdlog_next (pd_state p) (time_after_eq now (pd_deadline p)) in
  if negb more then pset (λ p, p <| pd_state := s |>) else
  do! pset (λ p, p <| pd_state := s |> <| pd_done := false |>) in
  let sq := ps_requests s in
  let! e := pdlog_exchange in
  do! pset (λ p, if e !=? 0 then p <| pd_state := pdlog_stop (pd_state p) e |> else p) in
  let! p := pget id in
  let valid := (ps_error (pd_state p) =? 0) && (ps_replies (pd_state p) =? sq) in
  do! (if valid then
    do! pset (λ p, if nth 0 (pd_text p) 0 !=? 0
                   then p <| pd_nonempty := u32 (pd_nonempty p + 1) |> else p) in
    do! for_each (pdlog_lines (pd_text p)) (λ line, pout (λ d, (tt, pe_print env line d))) in
    pset (λ p, p <| pd_text := strsep_all (pd_text p) |>)
  else ret tt) in
  pset (λ p, if ps_active (pd_state p) && (ps_error (pd_state p) =? 0)
             then p <| pd_scheduled := true |> else p).

(** [input] is [Some true] for "1", [Some false] for "0"; 0 stands for [count].
    The boot-wide claim is only made when the diagnostic is complete. *)
Definition capture_store (input : option bool) : W Z :=
  match input with
  | None => ret (-EINVAL)
  | Some false => do! pdlog_cancel 0 in ret 0
  | Some true => λ w,
      let complete := pe_nhi_complete env (pw_dev w) in
      let allowed := complete && negb (pw_boot w) in
      let boot := pw_boot w || complete in
      let (e, s) := pdlog_start (pd_state (pw_p w)) allowed in
      let p := (pw_p w) <| pd_state := s |> in
      let p := if e =? 0
               then p <| pd_deadline := u64 (pe_jiffies env (pw_dev w) + 300 * HZ) |>
                      <| pd_scheduled := true |>
               else p in
      (Ok e, PWorld p boot (pw_dev w))
  end.

Definition pdlog_remove : W unit := pdlog_cancel (-ENOTCONN).
End driver.

(** ** Text *)

Lemma c_string_length l : (length (c_string l) ≤ length l)%nat.
Proof. induction l as [|c l IH]; simpl; [lia|]. destruct (c =? 0); simpl; lia. Qed.

(** Text written by the decoder reads back as itself. *)
Lemma c_string_stop s r : Forall (λ c, c ≠ 0) s → c_string (s ++ 0 :: r) = s.
Proof.
  induction 1 as [|c s Hc _ IH]; simpl; [done|]. apply Z.eqb_neq in Hc. by rewrite Hc, IH.
Qed.

Definition visible (c : Z) : Prop := shown c = true.

Lemma sanitized l :
  let s := map (λ c, if shown c then c else 46) l in Forall visible s ∧ Forall (λ c, c ≠ 0) s.
Proof.
  split; rewrite List.Forall_map; apply Forall_true; intros c; unfold visible;
    destruct (shown c) eqn:E; try done.
  intros ->. by vm_compute in E.
Qed.

(** A text buffer: full length, terminated, nothing but visible text. *)
Definition text_ok (t : list Z) : Prop :=
  Z.of_nat (length t) = 8193 ∧ 0 ∈ t ∧ Forall visible (c_string t).

Lemma decode_ok p t :
  text_ok t →
  match pdlog_decode p t with Ok t' => text_ok t' | Err _ => True | Fault => False end.
Proof.
  intros (Hl&_&_). unfold pdlog_decode, PDLOG_SIZE.
  destruct (Z.eqb_spec (Z.of_nat (length p)) (8192 + 12)) as [Hp|]; [|done]. cbn [negb].
  in_bounds. if_case E1; [done|]. in_bounds. if_case E2; [done|]. in_bounds. if_case E3; [done|].
  destruct (bytes_at_ok p 12 8192) as (b&->&Hb); [lia..|]. cbn [rbind].
  destruct (sanitized (c_string b)) as [Hv Hn]. set (s := map _ _) in *.
  assert (Z.of_nat (length s) ≤ 8192) as Hs.
  { unfold s. rewrite length_map. pose proof (c_string_length b). lia. }
  rewrite put_bytes_ok by (rewrite ?length_app; simpl; lia).
  change (Z.to_nat 0) with 0%nat. rewrite take_0. cbn [app Nat.add]. split_and!.
  - rewrite !length_app, length_drop. cbn [length]. lia.
  - rewrite !elem_of_app. left. right. by left.
  - rewrite <- app_assoc. simpl. by rewrite c_string_stop.
Qed.

Lemma text_zero : text_ok (replicate (Z.to_nat 8193) 0).
Proof.
  split; [by rewrite length_replicate|]. change (Z.to_nat 8193) with (Datatypes.S (Z.to_nat 8192)).
  split; [by left|by constructor].
Qed.

Lemma strsep_ok t : text_ok t → text_ok (strsep_all t).
Proof.
  intros (Hl&H0&Hv). assert (length (strsep_all t) = length t ∧ 0 ∈ strsep_all t ∧
    Forall visible (c_string (strsep_all t))) as (?&?&?); [|split_and!; congruence || done].
  clear Hl. induction t as [|c t IH]; [by apply elem_of_nil in H0|]. simpl in *.
  destruct (Z.eqb_spec c 0) as [->|Hc]; simpl.
  { split_and!; [done|by left|done]. }
  apply Forall_cons in Hv as [Hc' Hv].
  destruct IH as (?&?&?); [by apply elem_of_cons in H0 as [?|?]|done|].
  destruct (Z.eqb_spec c 10); simpl.
  - split_and!; [congruence|by left|done].
  - apply Z.eqb_neq in Hc. rewrite Hc. split_and!; [congruence|by right|by constructor].
Qed.

(** A printed piece: at most 160 visible characters of one line. *)
Definition piece_ok (l : list Z) : Prop :=
  (length l ≤ 160)%nat ∧ Forall (λ c, visible c ∧ c ≠ 10) l.

Lemma split_lines_ok s :
  Forall visible s → Forall (Forall (λ c, visible c ∧ c ≠ 10)) (split_lines s).
Proof.
  induction 1 as [|c s Hc _ IH]; simpl; [by repeat constructor|].
  destruct (Z.eqb_spec c 10); [by constructor|].
  destruct (split_lines s) as [|line lines]; [by repeat constructor|].
  apply Forall_cons in IH as [? ?]. constructor; [by constructor|done].
Qed.

Lemma pieces_ok n l : Forall (λ c, visible c ∧ c ≠ 10) l → Forall piece_ok (pieces n l).
Proof.
  revert l. induction n as [|n IH]; intros l Hl; simpl; [done|]. destruct l as [|c l]; [done|].
  constructor; [|apply IH; by apply Forall_drop].
  split; [rewrite length_take; lia|by apply Forall_take].
Qed.

Lemma pdlog_lines_ok t : text_ok t → Forall piece_ok (pdlog_lines t).
Proof.
  intros (_&_&Hv). unfold pdlog_lines. apply Forall_flat_map.
  eapply Forall_impl; [by apply split_lines_ok|]. intros l Hl. by apply pieces_ok.
Qed.

(** Nothing is lost in printing: the pieces are the text without newlines. *)
Lemma pieces_concat n l : (length l ≤ n)%nat → concat (pieces n l) = l.
Proof.
  revert l. induction n as [|n IH]; intros l Hl; [by destruct l; simpl in *; try lia|].
  destruct l as [|c l]; [done|]. cbn [pieces concat]. rewrite IH; [apply take_drop|].
  rewrite length_drop. simpl in *. lia.
Qed.

Lemma pdlog_lines_complete t :
  concat (pdlog_lines t) = List.filter (λ c, c !=? 10) (c_string t).
Proof.
  unfold pdlog_lines. induction (c_string t) as [|c s IH]; [done|]. simpl.
  destruct (c =? 10); simpl; [done|].
  destruct (split_lines s) as [|line lines] eqn:E; [by destruct s; simpl in E; repeat case_match|].
  rewrite <- IH. cbn [flat_map]. rewrite !concat_app, !pieces_concat by lia. done.
Qed.

(** ** Reachable states *)

Inductive pd_event := PdSent (p : list Z) | PdLine (l : list Z).

(** An environment that records what is sent and printed. *)
Definition logging_pd {D} (env : pd_env D) : pd_env (D * list pd_event) := {|
  pe_jiffies d := pe_jiffies env d.1;
  pe_trysend p d := let '(z, l, d') := pe_trysend env p d.1 in (z, l, (d', d.2 ++ [PdSent p]));
  pe_wait t d := let '(l1, l2, d') := pe_wait env t d.1 in (l1, l2, (d', d.2));
  pe_print l d := (pe_print env l d.1, d.2 ++ [PdLine l]);
  pe_nhi_complete d := pe_nhi_complete env d.1 |}.

Definition get_packet : list Z := le32 32778 ++ le32 1 ++ le32 0x18 ++ le32 PDLOG_SIZE.

Definition pd_event_ok (e : pd_event) : Prop :=
  match e with PdSent p => p = get_packet | PdLine l => piece_ok l end.
Definition pd_sent (l : list pd_event) : list (list Z) :=
  omap (λ e, match e with PdSent p => Some p | _ => None end) l.

Section reachable.
Context {D : Type} (HZ : Z).
Abbreviation world := (pworld (D * list pd_event)).
Implicit Types w : world.

(** [k] requests are counted but not yet sent. *)
Definition pd_inv (k : nat) w : Prop :=
  let s := pd_state (pw_p w) in
  text_ok (pd_text (pw_p w)) ∧ 0 ≤ ps_replies s ∧
  ps_replies s + (if ps_awaiting s then 1 else 0) ≤ ps_requests s ≤ PDLOG_MAX_REQUESTS ∧
  (ps_active s = true → ps_attempted s = true) ∧ (ps_attempted s = true → pw_boot w = true) ∧
  ps_requests s = Z.of_nat (length (pd_sent (pw_dev w).2) + k) ∧
  Forall pd_event_ok (pw_dev w).2.

Lemma stop_inv k w e (f : pdlog → pdlog) :
  (∀ p, pd_state (f p) = pdlog_stop (pd_state p) e ∧ pd_text (f p) = pd_text p) →
  pd_inv k w → pd_inv k (PWorld (f (pw_p w)) (pw_boot w) (pw_dev w)).
Proof.
  intros Hf (H1&H2&H3&H4&H5&H6&H7). destruct (Hf (pw_p w)) as [E1 E2].
  unfold pd_inv. cbn [pw_p pw_boot pw_dev]. rewrite E1, E2. unfold pdlog_stop.
  destruct (_ && _); simpl; split_and!; try done; try lia; destruct (ps_awaiting _); lia.
Qed.

Lemma text_inv k w (f : pdlog → pdlog) :
  (∀ p, text_ok (pd_text p) → pd_state (f p) = pd_state p ∧ text_ok (pd_text (f p))) →
  pd_inv k w → pd_inv k (PWorld (f (pw_p w)) (pw_boot w) (pw_dev w)).
Proof.
  intros Hf (H1&H2&H3&H4&H5&H6&H7). destruct (Hf (pw_p w) H1) as [E1 E2].
  unfold pd_inv. cbn [pw_p pw_boot pw_dev]. rewrite E1. exact (conj E2 (conj H2 (conj H3 (conj H4 (conj H5 (conj H6 H7)))))).
Qed.

Lemma callback_inv k m : runs (pd_inv k) (pdlog_callback m) (λ _, pd_inv k).
Proof.
  intros w Hw. unfold pdlog_callback, bind at 1. cbn [pget]. unfold id.
  destruct (_ && _) eqn:E; [|by eexists _, _].
  apply andb_true_iff in E as [E Ez]. apply andb_true_iff in E as [Ea Ew].
  pose proof Hw as (H1&H2&H3&H4&H5&H6&H7).
  assert (∃ r, received m (pd_text (pw_p w)) = Ok r ∧ text_ok r.2) as (r&Er&Ht).
  { destruct m as [p|]; simpl; [|by eexists]. pose proof (decode_ok p _ H1) as Hd.
    destruct (pdlog_decode p _); [by eexists..|done]. }
  unfold bind, lift. rewrite Er. unfold pdlog_reply. rewrite Ea, Ew, Ez. cbn [negb orb].
  rewrite Ew in H3. eexists _, _. split; [done|]. unfold pd_inv. cbn [pw_p pw_boot pw_dev].
  destruct (r.1 !=? 0); simpl.
  - unfold pdlog_stop. destruct (_ && _); simpl; split_and!; try done; lia.
  - rewrite u32_small by (unfold PDLOG_MAX_REQUESTS in *; lia). split_and!; try done; lia.
Qed.

Lemma deliver_inv k l : runs (pd_inv k) (pd_deliver_all l) (λ _, pd_inv k).
Proof.
  apply runs_for_each. intros [m|e] _; [apply callback_inv|].
  apply runs_modify. intros w. by apply (stop_inv k w e (λ p, p <| pd_state := pdlog_stop (pd_state p) e |>
    <| pd_done := true |> <| pd_scheduled := false |>)).
Qed.

Lemma exchange_inv (env : pd_env D) :
  runs (pd_inv 1) (pdlog_exchange HZ (logging_pd env)) (λ _, pd_inv 0).
Proof.
  unfold pdlog_exchange. apply (runs_bind _ _ _ (λ r w, pd_inv 1 w ∧ r = get_packet)).
  { intros w Hw. by eexists _, _. }
  intros p. apply runs_pure. intros ->. apply (runs_bind _ _ _ (λ _, pd_inv 0)).
  { intros w (H1&H2&H3&H4&H5&H6&H7). unfold pout. simpl.
    destruct (pe_trysend env get_packet (pw_dev w).1) as [[z l] d]. eexists _, _. split; [done|].
    unfold pd_inv, pd_sent in *. simpl. rewrite omap_app, length_app, Forall_app. simpl.
    split_and!; try done; try lia. by repeat constructor. }
  intros r. eapply runs_bind; [apply deliver_inv|]. intros ?. cbv beta.
  apply (runs_bind _ _ _ (λ _, pd_inv 0)); [intros w Hw; by eexists _, _|]. intros now.
  apply (runs_bind _ _ _ (λ _, pd_inv 0)); [intros w Hw; by eexists _, _|]. intros deadline. cbv zeta.
  apply runs_if; intros _; [by apply runs_ret|]. apply runs_if; intros _; [by apply runs_ret|].
  apply (runs_bind _ _ _ (λ _, pd_inv 0)).
  { intros w Hw. unfold pout. simpl. destruct (pe_wait env _ _) as [[??]?]. by eexists _, _. }
  intros t. eapply runs_bind; [apply deliver_inv|]. intros ?. cbv beta.
  apply (runs_bind _ _ _ (λ _, pd_inv 0)); [intros w Hw; by eexists _, _|]. intros fin.
  eapply runs_bind; [apply deliver_inv|]. intros ?. by apply runs_ret.
Qed.

(** A worker pass either stops or counts one request to send. *)
Lemma next_inv w b more s :
  pd_inv 0 w → pdlog_next (pd_state (pw_p w)) b = (more, s) → ∀ p, pd_state p = s →
  pd_text p = pd_text (pw_p w) → pd_inv (if more then 1 else 0) (PWorld p (pw_boot w) (pw_dev w)).
Proof.
  intros (H1&H2&H3&H4&H5&H6&H7) E p Hp Ht. unfold pd_inv. cbn [pw_p pw_boot pw_dev].
  rewrite Hp, Ht. clear Hp Ht. unfold pdlog_next in E. destruct (_ || _) eqn:E1; [injection E as <- <-; exact (conj H1 (conj H2 (conj H3 (conj H4 (conj H5 (conj H6 H7))))))|].
  rewrite !orb_false_iff in E1. destruct E1 as [[Ea Ew] _]. rewrite Ew in H3.
  apply negb_false_iff in Ea.
  destruct (_ || _) eqn:E2; injection E as <- <-; simpl.
  - split_and!; try done; lia.
  - rewrite orb_false_iff, Z.leb_gt in E2. unfold PDLOG_MAX_REQUESTS in *.
    rewrite u32_small by lia. split_and!; try done; lia.
Qed.

Lemma print_inv (env : pd_env D) l :
  Forall piece_ok l →
  runs (pd_inv 0) (for_each l (λ line, pout (λ d, (tt, pe_print (logging_pd env) line d))))
    (λ _, pd_inv 0).
Proof.
  intros Hl. apply runs_for_each. intros line Hin w (H1&H2&H3&H4&H5&H6&H7).
  eexists _, _. split; [done|]. unfold pd_inv, pd_sent in *. simpl.
  rewrite omap_app, length_app, Forall_app. simpl. split_and!; try done; try lia.
  apply Forall_singleton. rewrite Forall_forall in Hl; by apply Hl.
Qed.

Lemma work_inv (env : pd_env D) : runs (pd_inv 0) (pdlog_work HZ (logging_pd env)) (λ _, pd_inv 0).
Proof.
  unfold pdlog_work. apply (runs_bind _ _ _ (λ _, pd_inv 0)).
  { apply runs_modify. intros w. by apply (text_inv 0 w (λ p, p <| pd_scheduled := false |>)). }
  intros ?. apply (runs_bind _ _ _ (λ _, pd_inv 0)); [intros w Hw; by eexists _, _|]. intros now.
  intros w Hw. unfold bind at 1. cbn [pget]. unfold id.
  destruct (pdlog_next _ _) as [more s] eqn:En. pose proof (next_inv w _ more s Hw En) as Hn.
  destruct more; cbn [negb]; [|eexists _, _; split; [done|]; by apply Hn].
  apply (runs_bind (λ w', w' = w) _ _ (λ _, pd_inv 1)); [|clear w Hw En Hn|done].
  { apply runs_modify. intros ? ->. by apply Hn. }
  intros ?. eapply runs_bind; [apply exchange_inv|]. intros e. cbv beta.
  apply (runs_bind _ _ _ (λ _, pd_inv 0)).
  { apply runs_modify. intros w Hw. destruct (e !=? 0); [|by destruct w].
    by apply (stop_inv 0 w e (λ p, p <| pd_state := pdlog_stop (pd_state p) e |>)). }
  intros ?. apply (runs_bind _ _ _ (λ p w, pd_inv 0 w ∧ text_ok (pd_text p))).
  { intros w Hw. eexists _, _. split; [done|]. split; [done|apply Hw]. }
  intros p. apply runs_pure. intros Ht. cbv zeta. apply (runs_bind _ _ _ (λ _, pd_inv 0)).
  - apply runs_if; intros _; [|by apply runs_ret].
    apply (runs_bind _ _ _ (λ _, pd_inv 0)).
    { apply runs_modify. intros w. apply (text_inv 0 w (λ p, if nth 0 (pd_text p) 0 !=? 0
        then p <| pd_nonempty := u32 (pd_nonempty p + 1) |> else p)).
      intros p'. by destruct (_ !=? 0). }
    intros ?. eapply runs_bind; [by apply print_inv, pdlog_lines_ok|]. intros ?. cbv beta.
    apply runs_modify. intros w.
    apply (text_inv 0 w (λ p, p <| pd_text := strsep_all (pd_text p) |>)).
    intros p' Hp'. split; [done|]. by apply strsep_ok.
  - intros ?. apply runs_modify. intros w. 
    apply (text_inv 0 w (λ p, if ps_active (pd_state p) && (ps_error (pd_state p) =? 0)
      then p <| pd_scheduled := true |> else p)).
    intros p'. by destruct (_ && _).
Qed.

Lemma store_inv (env : pd_env D) input :
  runs (pd_inv 0) (capture_store HZ (logging_pd env) input) (λ _, pd_inv 0).
Proof.
  destruct input as [[]|]; simpl; [| |by apply runs_ret].
  2: { apply (runs_bind _ _ _ (λ _, pd_inv 0)); [|intros ?; by apply runs_ret].
       apply (deliver_inv 0 [PdCancel 0]). }
  intros w (H1&H2&H3&H4&H5&H6&H7). unfold pdlog_start.
  destruct (pe_nhi_complete env (pw_dev w).1), (pw_boot w) eqn:Eb; simpl;
    try destruct (ps_attempted (pd_state (pw_p w))) eqn:Et; simpl;
    eexists _, _; (split; [done|]); unfold pd_inv; simpl; rewrite ?Eb;
    split_and!; try done; try (by rewrite Et in *; auto); try lia; try apply H1; try (by intros _; apply H5).
Qed.

Definition pd_probed (boot : bool) (d : D) : world := PWorld pdlog_zero boot (d, []).

Inductive pd_step : world → world → Prop :=
| pd_capture env input w : pd_step w (capture_store HZ (logging_pd env) input w).2
| pd_work env w :
    pd_scheduled (pw_p w) = true → pd_step w (pdlog_work HZ (logging_pd env) w).2
| pd_arrive t w : pd_step w (pd_deliver t w).2
| pd_remove w : pd_step w (pdlog_remove w).2
| pd_time d w : pd_step w (PWorld (pw_p w) (pw_boot w) (d, (pw_dev w).2)).

Lemma pd_result {A} (m : M world A) w : runs (pd_inv 0) m (λ _, pd_inv 0) → pd_inv 0 w → pd_inv 0 (m w).2.
Proof. intros Hm Hw. destruct (Hm w Hw) as (r&w'&E&?). by rewrite E. Qed.

Lemma arrive_inv t : runs (pd_inv 0) (pd_deliver t) (λ _, pd_inv 0).
Proof.
  intros w Hw. destruct (deliver_inv 0 [t] w Hw) as (r&w'&E&?). unfold pd_deliver_all in E. simpl in E.
  unfold bind in E. destruct (pd_deliver t w) as [[[]|e|] w1]; [|done..].
  unfold ret in E. simplify_eq. by eexists _, _.
Qed.

Lemma pd_reachable b d w : rtc pd_step (pd_probed b d) w → pd_inv 0 w.
Proof.
  intros Hs. assert (pd_inv 0 (pd_probed b d)) as H0.
  { split; [exact text_zero|]. by split_and!. }
  revert H0. induction Hs as [|w1 w2 w3 Hs _ IH]; [done|]. intros Hw. apply IH.
  destruct Hs; [by apply pd_result, Hw; apply store_inv|by apply pd_result, Hw; apply work_inv| | |done].
  - by apply pd_result; [apply arrive_inv|].
  - by apply pd_result; [apply (arrive_inv (PdCancel (-ENOTCONN)))|].
Qed.

(** In every reachable state of the PD log capture, with replies and stops
    arriving at any time: at most 128 requests were made, each of them exactly
    the one fixed GET packet, with never more replies counted than requests; a
    capture is only ever started under the boot-wide claim; the text buffer stays
    terminated and free of control characters, so every printed piece has at
    most 160 visible characters; and the worker and the callback never touch
    memory outside their buffers. *)
Theorem pdlog_bounded b d w :
  rtc pd_step (pd_probed b d) w →
  let s := pd_state (pw_p w) in
  ps_replies s ≤ ps_requests s ≤ 128 ∧
  pd_sent (pw_dev w).2 = replicate (Z.to_nat (ps_requests s)) get_packet ∧
  (∀ l, PdLine l ∈ (pw_dev w).2 → piece_ok l) ∧
  (ps_attempted s = true → pw_boot w = true) ∧ text_ok (pd_text (pw_p w)) ∧
  ∀ env m, (pdlog_work HZ (logging_pd env) w).1 = Ok tt ∧ (pdlog_callback m w).1 = Ok tt.
Proof.
  intros Hs. pose proof (pd_reachable b d w Hs) as Hw.
  pose proof Hw as (H1&H2&H3&H4&H5&H6&H7). cbv zeta. split_and!; try done.
  - destruct (ps_awaiting _); lia.
  - unfold PDLOG_MAX_REQUESTS in H3. lia.
  - rewrite H6, Nat.add_0_r, Nat2Z.id. clear -H7. unfold pd_sent.
    induction H7 as [|[p|l] evs He _ IH]; simpl; [done|simpl in He; subst p; by f_equal|done].
  - intros l Hl. rewrite Forall_forall in H7. by apply (H7 (PdLine l)).
  - intros env m. destruct (work_inv env w Hw) as ([]&?&->&_).
    by destruct (callback_inv 0 m w Hw) as ([]&?&->&_).
Qed.
End reachable.

(** A channel that answers each request with an escape sequence in the text. *)
Definition log_reply : list Z :=
  le32 32778 ++ le32 1 ++ le32 0x18 ++ [72; 105; 10; 27; 91; 109] ++ replicate (Z.to_nat 8186) 0.

Definition log_env : pd_env unit := {|
  pe_jiffies _ := 0; pe_trysend _ d := (0, [PdMessage (Some log_reply)], d);
  pe_wait _ d := ([], [], d); pe_print _ d := d; pe_nhi_complete _ := true |}.

Definition started : pworld (unit * list pd_event) :=
  (capture_store 250 (logging_pd log_env) (Some true) (pd_probed false tt)).2.
Definition sampled := (pdlog_work 250 (logging_pd log_env) started).2.

(** The escape character is printed as a dot. *)
Example sampled_log :
  (pw_dev sampled).2 = [PdSent get_packet; PdLine [72; 105]; PdLine [46; 91; 109]] ∧
  ps_replies (pd_state (pw_p sampled)) = 1 ∧ pd_scheduled (pw_p sampled) = true.
Proof. by vm_compute. Qed.

Lemma pdlog_bounded_witness : text_ok (pd_text (pw_p sampled)).
Proof.
  apply (pdlog_bounded 250 false tt sampled).
  apply (rtc_l _ _ started); [apply pd_capture|].
  apply (rtc_l _ _ sampled); [apply pd_work; by vm_compute|]. apply rtc_refl.
Defined.
