(* ===== verification/Native.v ===== *)
(** * Native connection-manager owner
    (snapshot/kernel/drivers/thunderbolt/x1-native-policy.h and qcom-x1-native.c)

    One owner per boot: it starts the domain, issues one MCU connect command,
    waits for the external router and approves the PCIe tunnel of one exact
    device.  The connection manager (tb.c, switch.c), the NHI adapter and the
    PCI0 bridge are the environment; scan results that the connection manager
    reports arrive while its lock is not held by this code, and during the
    rescan this code asks for. *)

From S2P Require Import Prelude.

(** ** Policy (x1-native-policy.h) *)

Definition x1_native_route_allowed (route : Z) : Z :=
  if (route =? 0) || (route =? 2) then 0 else -EPERM.

Definition x1_native_header_allowed (route : Z) (h : option (list Z)) : res Z :=
  match h with
  | None => Ok (-EPERM)
  | Some h =>
      if x1_native_route_allowed route !=? 0 then Ok (-EPERM) else
      let? h0 := word_of h 0 in
      let? h1 := word_of h 1 in
      Ok (if route =? 0
          then if (h0 =? 0x093805c6) && (h1 .& 0xfffff =? 0x1c11c) then 0 else -ENODEV
          else if (h0 =? 0x113b059f) && (h1 .& 0xfffff =? 0x14120) then 0 else -ENODEV)
  end.

(** The public snapshot approves no device. *)
Definition X1_NATIVE_LACIE_UID : Z := 0.

(** [approved] is the build's [X1_NATIVE_LACIE_UID]. *)
Definition x1_native_uid_allowed (approved route uid : Z) : Z :=
  if (approved !=? 0) && (route =? 2) && (uid =? approved) then 0 else -ENODEV.

Definition x1_native_connect_word_allowed (word : Z) : Z :=
  if (word =? 0x2501) || (word =? 0x2701) then 0 else -EPERM.

Definition x1_native_rescan_allowed (used preconfig : bool) (error : Z) : bool :=
  negb used && preconfig &&
  ((error =? -ETIMEDOUT) || (error =? -ENOTCONN) || (error =? -EAGAIN)).

(** ** State (qcom-x1-native.c) *)

Record x1_native := Native {
  n_tb : bool;               (* the domain exists *)
  n_connect : bool;          (* a connect callback is registered *)
  n_live : bool;
  n_attempted : bool;
  n_stopped : bool;
  n_allow_pcie : bool;
  n_scan_results : Z;
  n_scan_error : Z;
  n_scan_preconfig : bool;
  n_scan_stage : string;
}.
#[export] Instance eta_native : Eta x1_native := λ n,
  Native (n_tb n) (n_connect n) (n_live n) (n_attempted n) (n_stopped n)
    (n_allow_pcie n) (n_scan_results n) (n_scan_error n) (n_scan_preconfig n) (n_scan_stage n).
Definition native_zero : x1_native :=
  Native false false false false false false 0 0 false "".

(** The external router as the connection manager knows it. *)
Record tb_switch := Switch {
  sw_uid : Z;
  sw_is_unplugged : bool;
  sw_link_usb4 : bool;
  sw_authorized : bool;
  sw_pcie_up : bool;         (* it has a PCIe upstream adapter *)
}.

(** One call of [x1_native_scan_result] by the connection manager.  [sc_ours]:
    the reporting domain is the owner's and carries the test node. *)
Record scan := Scan {
  sc_ours : bool;
  sc_route : Z;
  sc_port : Z;
  sc_stage : string;
  sc_error : Z;
  sc_preconfig : bool;
}.

(** Everything outside the file.  Calls during which the connection manager
    can run return the scan results it reported meanwhile. *)
Record native_env (D : Type) := {
  ne_jiffies : D → Z;
  ne_msecs : Z → Z;                            (* msecs_to_jiffies *)
  ne_alloc : D → bool * D;
  ne_node : bool;                              (* birk,usb4-native-cm-test *)
  ne_caps : D → Z * D;                         (* readl(REG_CAPS) *)
  ne_ring_enabled : nat → D → bool * D;        (* (TX | RX options) & RING_FLAG_ENABLE *)
  ne_prepare : D → Z * D;
  ne_prepared : D → bool;                      (* qnhi.prepared *)
  ne_init_interrupts : D → Z * D;
  ne_disable_interrupts : D → D;
  ne_tb_probe : D → bool * D;
  ne_domain_add : D → Z * D;
  ne_ctl_stop : D → D;
  ne_uid_read : D → Z * (Z * Z) * D;           (* tb_cfg_read of two UID words *)
  ne_valid : D → bool * D;                     (* the caller's validity check *)
  ne_connect : Z → D → Z * list scan * D;      (* the registered MCU command *)
  ne_trylock : D → bool * list scan * D;
  ne_lock : D → list scan * D;
  ne_find : D → option tb_switch;              (* tb_switch_find_by_route(2) *)
  ne_rescan : D → Z * list scan * D;
  ne_sleep : D → list scan * D;
  ne_approve : tb_switch → D → Z * D;          (* tb_domain_approve_switch *)
  ne_authorize : D → D;                        (* sw->authorized = 1 *)
  ne_pcie_start : D → Z * D;
  ne_pcie_train : D → Z * D;
  ne_pcie_scan : D → Z * D;
}.
Arguments ne_jiffies {_} _ _.
Arguments ne_msecs {_} _ _.
Arguments ne_alloc {_} _ _.
Arguments ne_node {_} _.
Arguments ne_caps {_} _ _.
Arguments ne_ring_enabled {_} _ _ _.
Arguments ne_prepare {_} _ _.
Arguments ne_prepared {_} _ _.
Arguments ne_init_interrupts {_} _ _.
Arguments ne_disable_interrupts {_} _ _.
Arguments ne_tb_probe {_} _ _.
Arguments ne_domain_add {_} _ _.
Arguments ne_ctl_stop {_} _ _.
Arguments ne_uid_read {_} _ _.
Arguments ne_valid {_} _ _.
Arguments ne_connect {_} _ _ _.
Arguments ne_trylock {_} _ _.
Arguments ne_lock {_} _ _.
Arguments ne_find {_} _ _.
Arguments ne_rescan {_} _ _.
Arguments ne_sleep {_} _ _.
Arguments ne_approve {_} _ _ _.
Arguments ne_authorize {_} _ _.
Arguments ne_pcie_start {_} _ _.
Arguments ne_pcie_train {_} _ _.
Arguments ne_pcie_scan {_} _ _.

Record nworld (D : Type) := NWorld { nw_owner : option x1_native; nw_dev : D }.
Arguments NWorld {_} _ _.
Arguments nw_owner {_} _.
Arguments nw_dev {_} _.

(** The observable outcome of one pass of the wait loop. *)
Inductive pass := Found | Stop (error : Z) | Again (rescanned : bool).

(** ** Operations *)

Section native.
Context {D : Type} (approved : Z) (env : native_env D).
Abbreviation N := (M (nworld D)).

Definition own (f : x1_native → x1_native) : N unit :=
  modify (λ w, NWorld (f <$> nw_owner w) (nw_dev w)).
Definition nask {A} (f : D → A * D) : N A := λ w,
  let (x, d) := f (nw_dev w) in (Ok x, NWorld (nw_owner w) d).
Definition ntell (f : D → D) : N unit := modify (λ w, NWorld (nw_owner w) (f (nw_dev w))).
(** [ret = f(); if (ret) return ret;] *)
Definition ncall (f : D → Z * D) : N unit :=
  let! e := nask f in if e !=? 0 then fail e else ret tt.
Definition now : N Z := λ w, (Ok (ne_jiffies env (nw_dev w)), w).

Definition x1_native_pcie_authorizing (same_tb : bool) (w : nworld D) : bool :=
  match nw_owner w with
  | Some n => same_tb && n_live n && negb (n_stopped n) && n_allow_pcie n
  | None => false
  end.

(** [test] is [x1_native_test(tb)]. *)
Definition x1_native_guard_router (test : bool) (route : Z) (header : option (list Z)) : N Z :=
  if negb test then ret 0 else
  match header with
  | None => ret (-EPERM)
  | Some _ =>
      let! e := lift (x1_native_header_allowed route header) in
      if (e !=? 0) || (route =? 0) then ret e else
      let! r := nask (ne_uid_read env) in
      if r.1 !=? 0 then ret r.1 else
      ret (x1_native_uid_allowed approved route ((r.2.2 << 32) .| r.2.1))
  end.

Definition scan_recorded (s : scan) (n : x1_native) : x1_native :=
  if negb (sc_ours s) || negb (n_live n) || negb (n_attempted n) || n_stopped n ||
     (sc_route s !=? 2) || (sc_port s !=? 2) then n else
  if (n_scan_results n !=? 0) && (n_scan_error n !=? 0) && negb (n_scan_preconfig n) then n else
  n <| n_scan_results := u32 (n_scan_results n + 1) |> <| n_scan_error := sc_error s |>
    <| n_scan_preconfig := sc_preconfig s |> <| n_scan_stage := sc_stage s |>.

Definition x1_native_scan_result (s : scan) : N unit := own (scan_recorded s).
Definition reports (l : list scan) : N unit := for_each l x1_native_scan_result.

(** Every ring must be off. *)
Definition rings_idle : N unit :=
  for_each (seq 0 3) (λ i,
    let! enabled := nask (ne_ring_enabled env i) in
    if enabled : bool then fail (-EBUSY) else ret tt).

(** From the interrupt set-up on, a failure masks the interrupts again. *)
Definition start_domain : N unit :=
  do! ncall (ne_init_interrupts env) in
  let! ok := nask (ne_tb_probe env) in
  if negb ok then fail (-ENOMEM) else
  do! own (λ n, n <| n_tb := true |>) in
  do! ncall (ne_domain_add env) in
  own (λ n, n <| n_live := true |>).

Definition x1_native_start (dev router : bool) (irq : Z) : N unit := λ w,
  if negb dev || negb router || (irq <=? 0) || negb (ne_node env) then (Err (-EPERM), w) else
  match nw_owner w with
  | Some _ => (Err (-EALREADY), w)
  | None =>
      (let! ok := nask (ne_alloc env) in
       if negb ok then fail (-ENOMEM) else
       do! modify (λ w, NWorld (Some native_zero) (nw_dev w)) in
       let! caps := nask (ne_caps env) in
       if caps !=? 3 then fail (-ENODEV) else
       do! rings_idle in
       let! tx := nask (ne_alloc env) in
       let! rx := nask (ne_alloc env) in
       if negb tx || negb rx then fail (-ENOMEM) else
       do! ncall (ne_prepare env) in
       on_error start_domain (ntell (ne_disable_interrupts env))) w
  end.

Definition x1_native_register_connect (connect ctx : bool) : N unit := λ w,
  match nw_owner w with
  | Some n =>
      if negb (n_live n) || n_stopped n || n_connect n || negb connect || negb ctx
      then (Err (-EPERM), w)
      else own (λ n, n <| n_connect := true |>) w
  | None => (Err (-EPERM), w)
  end.

(** [if (!valid(ctx)) return -ENOTCONN;] *)
Definition still_valid : N unit :=
  let! v := nask (ne_valid env) in if v : bool then ret tt else fail (-ENOTCONN).

Definition usable (sw : tb_switch) : bool :=
  negb (sw_is_unplugged sw) && sw_link_usb4 sw && sw_pcie_up sw.

(** Under the domain lock: the exact device, still there and not yet authorized. *)
Definition approve_tunnel (sw : tb_switch) : N unit :=
  let e := x1_native_uid_allowed approved 2 (sw_uid sw) in
  if e !=? 0 then fail e else
  let! v := nask (ne_valid env) in
  if negb v || negb (usable sw) || sw_authorized sw then fail (-ENODEV) else
  do! own (λ n, n <| n_allow_pcie := true |>) in
  let! e := nask (ne_approve env sw) in
  do! own (λ n, n <| n_allow_pcie := false |>) in
  if e !=? 0 then fail e else ntell (ne_authorize env).

Definition x1_native_prepare_storage : N unit :=
  do! still_valid in
  do! ncall (ne_pcie_start env) in
  let! l := nask (ne_lock env) in
  do! reports l in
  let! sw := λ w, (Ok (ne_find env (nw_dev w)), w) in
  do! match sw with
      | None => fail (-ENODEV)
      | Some sw => approve_tunnel sw
      end in
  do! still_valid in
  do! ncall (ne_pcie_train env) in
  do! still_valid in
  do! ncall (ne_pcie_scan env) in
  still_valid.

Definition terminal_scan (n : x1_native) : bool :=
  (n_scan_results n !=? 0) && (n_scan_error n !=? 0) && negb (n_scan_preconfig n).

(** One pass with the domain lock held. *)
Definition locked_pass (n : x1_native) (deadline : Z) (rescanned : bool) : N pass :=
  if terminal_scan n then ret (Stop (n_scan_error n)) else
  let! sw := λ w, (Ok (ne_find env (nw_dev w)), w) in
  match sw with
  | Some sw =>
      let e := x1_native_uid_allowed approved 2 (sw_uid sw) in
      ret (if e !=? 0 then Stop e else if negb (usable sw) then Stop (-ENODEV) else Found)
  | None =>
      let! t := now in
      if x1_native_rescan_allowed rescanned (n_scan_preconfig n) (n_scan_error n) &&
         time_before (u64 (t + ne_msecs env 8000)) deadline then
        let! v := nask (ne_valid env) in
        if negb v then ret (Stop (-ENOTCONN)) else
        let! r := nask (ne_rescan env) in
        do! reports r.2 in
        ret (if r.1 !=? 0 then Stop r.1 else Again true)
      else ret (Again rescanned)
  end.

(** [fuel] bounds the passes of the [do .. while (time_before(jiffies, deadline))]. *)
Fixpoint connect_wait (fuel : nat) (deadline : Z) (rescanned : bool) : N unit :=
  match fuel with
  | O => fault
  | Datatypes.S fuel =>
      do! still_valid in
      let! r := nask (ne_trylock env) in
      do! reports r.2 in
      let! n := λ w, (Ok (default native_zero (nw_owner w)), w) in
      let! p := if r.1 : bool then locked_pass n deadline rescanned
                else ret (Again rescanned) in
      match p with
      | Found => ret tt
      | Stop e => fail e
      | Again rescanned =>
          let! l := nask (ne_sleep env) in
          do! reports l in
          let! t := now in
          if time_before t deadline then connect_wait fuel deadline rescanned
          else fail (-ETIMEDOUT)
      end
  end.

Definition connect_body (fuel : nat) (word : Z) : N unit :=
  do! own (λ n, n <| n_attempted := true |>) in
  do! still_valid in
  let! r := nask (ne_connect env word) in
  do! reports r.2 in
  if r.1 !=? 0 then fail r.1 else
  let! t := now in
  do! connect_wait fuel (u64 (t + ne_msecs env 20000)) false in
  x1_native_prepare_storage.

Definition x1_native_connect (fuel : nat) (word : Z) (valid : bool) : N unit := λ w,
  let e := x1_native_connect_word_allowed word in
  if e !=? 0 then (Err e, w) else
  if negb valid then (Err (-EINVAL), w) else
  match nw_owner w with
  | None => (Err (-EPERM), w)
  | Some n =>
      if negb (n_live n) || n_stopped n || n_attempted n || negb (n_connect n)
      then (Err (-EPERM), w)
      else connect_body fuel word w
  end.

(** Also what [native_expire] runs. *)
Definition x1_native_stop : N unit := λ w,
  match nw_owner w with
  | None => (Ok tt, w)
  | Some n =>
      if n_stopped n then (Ok tt, w) else
      (do! own (λ n, n <| n_stopped := true |> <| n_live := false |>) in
       do! (if n_tb n then
              let! l := nask (ne_lock env) in
              do! reports l in
              ntell (ne_ctl_stop env)
            else ret tt) in
       let! prepared := λ w, (Ok (ne_prepared env (nw_dev w)), w) in
       if prepared : bool then ntell (ne_disable_interrupts env) else ret tt) w
  end.
End native.

(** ** What happens to the outside *)

Inductive native_event :=
| NConnect (word : Z) | NRescan | NStart | NApprove (sw : tb_switch) | NTrain | NScan.

Definition quietly {D L A} (f : D → A * D) (d : D * L) : A * (D * L) :=
  let (x, d') := f d.1 in (x, (d', d.2)).
Definition loudly {D L A} (e : L) (f : D → A * D) (d : D * list L) : A * (D * list L) :=
  let (x, d') := f d.1 in (x, (d', d.2 ++ [e])).

(** An environment that records the calls with an effect beyond this driver. *)
Definition logging_native {D} (env : native_env D) : native_env (D * list native_event) := {|
  ne_jiffies d := ne_jiffies env d.1; ne_msecs := ne_msecs env; ne_node := ne_node env;
  ne_prepared d := ne_prepared env d.1; ne_find d := ne_find env d.1;
  ne_alloc := quietly (ne_alloc env); ne_caps := quietly (ne_caps env);
  ne_ring_enabled i := quietly (ne_ring_enabled env i); ne_prepare := quietly (ne_prepare env);
  ne_init_interrupts := quietly (ne_init_interrupts env);
  ne_disable_interrupts d := (ne_disable_interrupts env d.1, d.2);
  ne_tb_probe := quietly (ne_tb_probe env); ne_domain_add := quietly (ne_domain_add env);
  ne_ctl_stop d := (ne_ctl_stop env d.1, d.2); ne_uid_read := quietly (ne_uid_read env);
  ne_valid := quietly (ne_valid env); ne_trylock := quietly (ne_trylock env);
  ne_lock := quietly (ne_lock env); ne_sleep := quietly (ne_sleep env);
  ne_authorize d := (ne_authorize env d.1, d.2);
  ne_connect word := loudly (NConnect word) (ne_connect env word);
  ne_rescan := loudly NRescan (ne_rescan env);
  ne_approve sw := loudly (NApprove sw) (ne_approve env sw);
  ne_pcie_start := loudly NStart (ne_pcie_start env);
  ne_pcie_train := loudly NTrain (ne_pcie_train env);
  ne_pcie_scan := loudly NScan (ne_pcie_scan env) |}.

(** The one device a tunnel may be approved for. *)
Definition approved_device (approved : Z) (sw : tb_switch) : Prop :=
  approved ≠ 0 ∧ sw_uid sw = approved ∧ usable sw = true ∧ sw_authorized sw = false.

(** The effects of one connection attempt that got [k] storage steps far. *)
Definition attempt_log (word : Z) (rescanned : bool) (sw : tb_switch) (k : nat) : list native_event :=
  NConnect word :: (if rescanned then [NRescan] else []) ++
  take k [NStart; NApprove sw; NTrain; NScan].

Definition allowed_log (approved : Z) (l : list native_event) : Prop :=
  l = [] ∨ ∃ word rescanned sw k, l = attempt_log word rescanned sw k ∧
    (word = 0x2501 ∨ word = 0x2701) ∧
    ((1 ≤ k)%nat → approved ≠ 0) ∧ ((2 ≤ k)%nat → approved_device approved sw).

Section attempts.
Context {D : Type} (approved : Z) (nenv : native_env D).
Abbreviation env := (logging_native nenv).
Abbreviation world := (nworld (D * list native_event)).
Implicit Types w : world.

Definition nlog w : list native_event := (nw_dev w).2.

(** The owner after its attempt has begun, with the calls made so far. *)
Definition trying (allow : bool) (l : list native_event) w : Prop :=
  (∃ n, nw_owner w = Some n ∧ n_attempted n = true ∧ n_allow_pcie n = allow) ∧ nlog w = l.
Definition tried w : Prop := ∃ l, trying false l w ∧ allowed_log approved l.

Lemma scan_recorded_flags s n :
  n_attempted (scan_recorded s n) = n_attempted n ∧
  n_allow_pcie (scan_recorded s n) = n_allow_pcie n ∧ n_stopped (scan_recorded s n) = n_stopped n.
Proof. unfold scan_recorded. by repeat case_match. Qed.

Lemma spec_reports a l E scans : spec (trying a l) (reports scans) (λ _, trying a l) E.
Proof.
  apply spec_for_each. intros s _. apply spec_modify. intros w ((n&Hn&H1&H2)&Hl). split; [|done].
  simpl. rewrite Hn. destruct (scan_recorded_flags s n) as (F1&F2&_).
  exists (scan_recorded s n). by rewrite F1, F2.
Qed.

Lemma spec_quiet {A} a l E (f : D → A * D) :
  spec (trying a l) (nask (quietly f)) (λ _, trying a l) E.
Proof. intros w Hw. unfold nask, quietly. by destruct (f (nw_dev w).1). Qed.

Lemma spec_loud {A} a l E e (f : D → A * D) :
  spec (trying a l) (nask (loudly e f)) (λ _, trying a (l ++ [e])) E.
Proof.
  intros w ((n&Hn)&Hl). unfold nask, loudly. destruct (f (nw_dev w).1).
  split; [by exists n|]. unfold nlog in *. simpl. by rewrite Hl.
Qed.

Lemma spec_call a l e (f : D → Z * D) (E : world → Prop) :
  (∀ w, trying a (l ++ [e]) w → E w) →
  spec (trying a l) (ncall (loudly e f)) (λ _, trying a (l ++ [e])) E.
Proof.
  intros HE. eapply spec_bind; [apply spec_loud|]. intros z. cbv beta.
  apply spec_if; intros _; [by apply spec_fail|by apply spec_ret].
Qed.

Lemma spec_valid l (E : world → Prop) :
  (∀ w, trying false l w → E w) →
  spec (trying false l) (still_valid env) (λ _, trying false l) E.
Proof.
  intros HE. eapply spec_bind; [apply (spec_quiet false l E (ne_valid nenv))|]. intros v. cbv beta.
  destruct v; [by apply spec_ret|by apply spec_fail].
Qed.

Lemma spec_ask {A} a l E (f : world → A) :
  spec (trying a l) (λ w, (Ok (f w), w)) (λ _, trying a l) E.
Proof. by intros w Hw. Qed.

(** Any stage of an attempt is an allowed log. *)
Lemma tried_at word r sw k w :
  word = 0x2501 ∨ word = 0x2701 → ((1 ≤ k)%nat → approved ≠ 0) →
  ((2 ≤ k)%nat → approved_device approved sw) →
  trying false (attempt_log word r sw k) w → tried w.
Proof. intros. eexists. split; [done|]. right. by eexists _, _, _, _. Qed.

Lemma uid_allowed_inv uid :
  x1_native_uid_allowed approved 2 uid = 0 → approved ≠ 0 ∧ uid = approved.
Proof.
  unfold x1_native_uid_allowed. destruct (Z.eqb_spec approved 0); [done|].
  destruct (Z.eqb_spec uid approved); done.
Qed.

Lemma spec_approve sw l (E : world → Prop) :
  (∀ w, trying false l w → E w) →
  (approved_device approved sw → ∀ w, trying false (l ++ [NApprove sw]) w → E w) →
  spec (trying false l) (approve_tunnel approved env sw)
    (λ _ w, trying false (l ++ [NApprove sw]) w ∧ approved_device approved sw) E.
Proof.
  intros HE HE'. unfold approve_tunnel. cbv zeta.
  apply spec_if; intros E1; [by apply spec_fail|].
  apply negb_false_iff, Z.eqb_eq in E1. apply uid_allowed_inv in E1 as [Ha Hu].
  eapply spec_bind; [apply (spec_quiet false l E (ne_valid nenv))|]. intros v. cbv beta.
  apply spec_if; intros E2; [by apply spec_fail|].
  rewrite !orb_false_iff, !negb_false_iff in E2. destruct E2 as [[_ H2] H3].
  assert (approved_device approved sw) as Hd by by split_and!.
  assert (∀ a b l' E', spec (trying a l') (own (λ n, n <| n_allow_pcie := b |>)) (λ _ : (), trying b l') E')
    as Hown.
  { intros a b l' E'. apply spec_modify. intros w ((n&Hn&?&?)&Hl). split; [|done].
    simpl. rewrite Hn. by eexists. }
  eapply spec_bind; [apply Hown|]. intros ?. cbv beta.
  eapply spec_bind; [apply (spec_loud true l E (NApprove sw))|]. intros z. cbv beta.
  eapply spec_bind; [apply Hown|]. intros ?. cbv beta.
  apply spec_if; intros _; [apply spec_fail; auto|]. by apply spec_modify.
Qed.

Lemma spec_train_scan l :
  (∀ w, trying false l w → tried w) → (∀ w, trying false (l ++ [NTrain]) w → tried w) →
  (∀ w, trying false ((l ++ [NTrain]) ++ [NScan]) w → tried w) →
  spec (trying false l)
    (do! still_valid env in do! ncall (ne_pcie_train env) in
     do! still_valid env in do! ncall (ne_pcie_scan env) in still_valid env) (λ _, tried) tried.
Proof.
  intros T3 T4 T5.
  eapply spec_bind; [by apply spec_valid|]. intros ?. cbv beta.
  eapply spec_bind; [by apply (spec_call false l NTrain)|]. intros ?. cbv beta.
  eapply spec_bind; [by apply spec_valid|]. intros ?. cbv beta.
  eapply spec_bind; [by apply (spec_call false _ NScan)|]. intros ?. cbv beta.
  eapply spec_conseq; [by apply spec_valid|done| |done]. intros ? w. apply T5.
Qed.

Lemma spec_storage word (r : bool) :
  word = 0x2501 ∨ word = 0x2701 → approved ≠ 0 →
  spec (trying false (NConnect word :: (if r then [NRescan] else [])))
    (x1_native_prepare_storage approved env) (λ _, tried) tried.
Proof.
  intros Hw Ha. set (l := NConnect word :: (if r then [NRescan] else [])). set (none := Switch 0 false false false false).
  assert (∀ w, trying false l w → tried w) as T0.
  { intros w Ht. apply (tried_at word r none 0); [done|lia|lia|].
    unfold attempt_log. by rewrite app_nil_r. }
  assert (∀ w, trying false (l ++ [NStart]) w → tried w) as T1.
  { intros w. apply (tried_at word r none 1); [done|done|lia]. }
  assert (∀ sw, approved_device approved sw →
    (∀ w, trying false ((l ++ [NStart]) ++ [NApprove sw]) w → tried w) ∧
    (∀ w, trying false (((l ++ [NStart]) ++ [NApprove sw]) ++ [NTrain]) w → tried w) ∧
    (∀ w, trying false ((((l ++ [NStart]) ++ [NApprove sw]) ++ [NTrain]) ++ [NScan]) w → tried w)) as T2.
  { intros sw Hd. rewrite <- !app_assoc. split_and!; intros w.
    - by apply (tried_at word r sw 2).
    - by apply (tried_at word r sw 3).
    - by apply (tried_at word r sw 4). }
  clearbody l. unfold x1_native_prepare_storage.
  eapply spec_bind; [by apply spec_valid|]. intros ?. cbv beta.
  eapply spec_bind; [by apply (spec_call false l NStart)|]. intros ?. cbv beta.
  eapply spec_bind; [apply (spec_quiet _ _ _ (ne_lock nenv))|]. intros scans. cbv beta.
  eapply spec_bind; [apply spec_reports|]. intros ?. cbv beta.
  eapply spec_bind; [apply spec_ask|]. intros sw. cbv beta.
  apply (spec_bind _ _ _ _ (λ _ w, ∃ sw, trying false ((l ++ [NStart]) ++ [NApprove sw]) w ∧
    approved_device approved sw)).
  { destruct sw as [sw|]; [|by apply spec_fail].
    eapply spec_conseq; [apply (spec_approve sw (l ++ [NStart]) tried); [done|]|done| |done].
    - intros Hd. apply (T2 sw Hd).
    - intros ? w ?. by exists sw. }
  intros ? w (sw'&Ht&Hd). destruct (T2 sw' Hd) as (T3&T4&T5).
  revert w Ht. by apply spec_train_scan.
Qed.

(** One pass leaves the calls as they are, or adds the one rescan. *)
Definition passed (word : Z) (rescanned : bool) (p : pass) w : Prop :=
  match p with
  | Found => trying false (NConnect word :: (if rescanned then [NRescan] else [])) w ∧ approved ≠ 0
  | Stop _ => ∃ r : bool, trying false (NConnect word :: (if r then [NRescan] else [])) w
  | Again r => trying false (NConnect word :: (if r then [NRescan] else [])) w
  end.

Lemma spec_pass word n deadline (rescanned : bool) E :
  spec (trying false (NConnect word :: (if rescanned then [NRescan] else [])))
    (locked_pass approved env n deadline rescanned) (passed word rescanned) E.
Proof.
  unfold locked_pass. apply spec_if; intros _; [apply spec_ret; by exists rescanned|].
  eapply spec_bind; [apply spec_ask|]. intros sw. cbv beta. destruct sw as [sw|].
  { cbv zeta. apply spec_ret. intros w Hw. destruct (Z.eqb_spec (x1_native_uid_allowed approved 2 (sw_uid sw)) 0)
      as [Hu|]; cbn [negb]; [|by exists rescanned].
    destruct (negb _); [by exists rescanned|]. split; [done|]. by apply uid_allowed_inv in Hu as []. }
  eapply spec_bind; [apply spec_ask|]. intros t. cbv beta.
  apply spec_if; intros Er; [|by apply spec_ret].
  destruct rescanned; [done|].
  eapply spec_bind; [apply (spec_quiet _ _ _ (ne_valid nenv))|]. intros v. cbv beta.
  apply spec_if; intros _; [apply spec_ret; by exists false|].
  eapply spec_bind; [apply (spec_loud _ _ _ NRescan)|]. intros r. cbv beta.
  eapply spec_bind; [apply spec_reports|]. intros ?. cbv beta.
  apply spec_ret. intros w Hw. destruct (r.1 !=? 0); [by exists true|done].
Qed.

Lemma spec_wait word fuel deadline (rescanned : bool) :
  word = 0x2501 ∨ word = 0x2701 →
  spec (trying false (NConnect word :: (if rescanned then [NRescan] else [])))
    (connect_wait approved env fuel deadline rescanned)
    (λ _ w, ∃ r : bool, trying false (NConnect word :: (if r then [NRescan] else [])) w ∧ approved ≠ 0)
    tried.
Proof.
  intros Hword. assert (∀ (r : bool) w, trying false (NConnect word :: (if r then [NRescan] else [])) w →
    tried w) as T0.
  { intros r w Ht. apply (tried_at word r (Switch 0 false false false false) 0); [done|lia|lia|].
    unfold attempt_log. by rewrite app_nil_r. }
  revert rescanned. induction fuel as [|fuel IH]; intros rescanned; simpl.
  { apply spec_fault. apply T0. }
  eapply spec_bind; [apply spec_valid, T0|]. intros ?. cbv beta.
  eapply spec_bind; [apply (spec_quiet _ _ _ (ne_trylock nenv))|]. intros r. cbv beta.
  eapply spec_bind; [apply spec_reports|]. intros ?. cbv beta.
  eapply spec_bind; [apply spec_ask|]. intros n. cbv beta.
  apply (spec_bind _ _ _ _ (passed word rescanned)).
  { destruct r.1; [apply spec_pass|by apply spec_ret]. }
  intros [|e|r']; simpl.
  - apply spec_ret. intros w [??]. by exists rescanned.
  - apply spec_fail. intros w [r0 Ht]. by apply (T0 r0).
  - eapply spec_bind; [apply (spec_quiet _ _ _ (ne_sleep nenv))|]. intros scans. cbv beta.
    eapply spec_bind; [apply spec_reports|]. intros ?. cbv beta.
    eapply spec_bind; [apply spec_ask|]. intros t. cbv beta.
    apply spec_if; intros _; [apply IH|apply spec_fail, T0].
Qed.

Lemma spec_connect fuel word :
  word = 0x2501 ∨ word = 0x2701 →
  spec (λ w, is_Some (nw_owner w) ∧ nlog w = [] ∧ ∀ n, nw_owner w = Some n → n_allow_pcie n = false)
    (connect_body approved env fuel word) (λ _, tried) tried.
Proof.
  intros Hword. unfold connect_body.
  assert (∀ w, trying false [NConnect word] w → tried w) as T0.
  { intros w. apply (tried_at word false (Switch 0 false false false false) 0); [done|lia|lia]. }
  apply (spec_bind _ _ _ _ (λ _, trying false [])).
  { apply spec_modify. intros w ([n Hn]&Hl&Ha). split; [|done]. simpl. rewrite Hn.
    eexists. split; [done|]. split; [done|]. exact (Ha n Hn). }
  intros ?. cbv beta. eapply spec_bind.
  { apply spec_valid. intros w Ht. exists []. split; [done|by left]. }
  intros ?. cbv beta. eapply spec_bind; [apply (spec_loud _ _ _ (NConnect word))|].
  intros r. cbv beta. eapply spec_bind; [apply spec_reports|]. intros ?. cbv beta.
  apply spec_if; intros _; [by apply spec_fail|].
  eapply spec_bind; [apply spec_ask|]. intros t. cbv beta.
  eapply spec_bind; [by apply (spec_wait word fuel _ false)|].
  intros ? w (r0&Ht&Ha). revert w Ht. by apply spec_storage.
Qed.

(** An owner that has not been told to connect. *)
Definition waiting w : Prop :=
  (∃ n, nw_owner w = Some n ∧ n_attempted n = false ∧ n_allow_pcie n = false) ∧ nlog w = [].
Definition native_ok w : Prop := nw_owner w = None ∧ nlog w = [] ∨ waiting w ∨ tried w.

Lemma spec_waiting {A} (f : D → A * D) E : spec waiting (nask (quietly f)) (λ _, waiting) E.
Proof. intros w Hw. unfold nask, quietly. by destruct (f (nw_dev w).1). Qed.

Lemma spec_waiting_call (f : D → Z * D) : spec waiting (ncall (quietly f)) (λ _, waiting) waiting.
Proof.
  eapply spec_bind; [apply spec_waiting|]. intros z. cbv beta.
  apply spec_if; intros _; [by apply spec_fail|by apply spec_ret].
Qed.

Lemma spec_waiting_own f E :
  (∀ n, n_attempted (f n) = n_attempted n ∧ n_allow_pcie (f n) = n_allow_pcie n) →
  spec waiting (own f) (λ _, waiting) E.
Proof.
  intros Hf. apply spec_modify. intros w ((n&Hn&?&?)&Hl). split; [|done]. simpl. rewrite Hn.
  destruct (Hf n) as [F1 F2]. exists (f n). by rewrite F1, F2.
Qed.

Lemma start_domain_waiting : spec waiting (start_domain env) (λ _, waiting) waiting.
Proof.
  unfold start_domain. eapply spec_bind; [apply spec_waiting_call|]. intros ?. cbv beta.
  eapply spec_bind; [apply (spec_waiting (ne_tb_probe nenv))|]. intros b. cbv beta.
  apply spec_if; intros _; [by apply spec_fail|].
  eapply spec_bind; [by apply spec_waiting_own|]. intros ?. cbv beta.
  eapply spec_bind; [apply spec_waiting_call|]. intros ?. cbv beta. by apply spec_waiting_own.
Qed.

Lemma start_ok dev router irq w : native_ok w → native_ok (x1_native_start env dev router irq w).2.
Proof.
  intros Hw. unfold x1_native_start. destruct (_ || _); [done|].
  destruct (nw_owner w) as [n|] eqn:Eo; [done|].
  assert (nlog w = []) as Hl.
  { destruct Hw as [[_ ?]|[[(n&Hn&_) _]|(l&[(n&Hn&_) _]&_)]]; congruence. }
  set (fresh := λ w' : world, nw_owner w' = None ∧ nlog w' = []).
  assert (∀ m : M world (), spec fresh m (λ _, waiting) (λ w, fresh w ∨ waiting w) →
    native_ok (m w).2) as Hfin.
  { intros m Hm. specialize (Hm w (conj Eo Hl)). destruct (m w) as [[[]|e|] w']; simpl;
      [by right; left|destruct Hm as [?|?]; [by left|by right; left]..]. }
  apply Hfin. eapply (spec_bind _ _ _ _ (λ _, fresh)).
  { intros w' Hw'. unfold nask. simpl. unfold quietly. by destruct (ne_alloc nenv (nw_dev w').1). }
  intros ok. cbv beta. apply spec_if; intros _; [apply spec_fail; auto|].
  apply (spec_bind _ _ _ _ (λ _, waiting)).
  { apply spec_modify. intros w' [_ Hl']. split; [by eexists|done]. }
  intros ?. cbv beta. apply (spec_conseq waiting _ waiting _ _ (λ _, waiting)); [|done|done|by right].
  eapply spec_bind; [apply (spec_waiting (ne_caps nenv))|]. intros caps. cbv beta.
  apply spec_if; intros _; [by apply spec_fail|].
  eapply spec_bind.
  { apply spec_for_each. intros i _. eapply spec_bind; [apply (spec_waiting (ne_ring_enabled nenv i))|].
    intros b. cbv beta. apply (spec_if (S := world)); intros _; [by apply spec_fail|by apply spec_ret]. }
  intros ?. cbv beta. eapply spec_bind; [apply (spec_waiting (ne_alloc nenv))|]. intros tx. cbv beta.
  eapply spec_bind; [apply (spec_waiting (ne_alloc nenv))|]. intros rx. cbv beta.
  apply spec_if; intros _; [by apply spec_fail|].
  eapply spec_bind; [apply spec_waiting_call|]. intros ? w' Hw'. unfold on_error.
  pose proof (start_domain_waiting w' Hw') as Hs. by destruct (start_domain env w') as [[[]|e|] w2].
Qed.

(** Updates that keep both flags keep the invariant. *)
Lemma flags_ok f w :
  (∀ n, n_attempted (f n) = n_attempted n ∧ n_allow_pcie (f n) = n_allow_pcie n) →
  native_ok w → native_ok (own f w).2.
Proof.
  intros Hf [[Ho Hl]|[((n&Hn&?&?)&Hl)|(l&((n&Hn&?&?)&Hl)&Ha)]]; simpl.
  - left. split; [|done]. simpl. by rewrite Ho.
  - right; left. split; [|done]. simpl. rewrite Hn. destruct (Hf n) as [F1 F2].
    exists (f n). by rewrite F1, F2.
  - right; right. exists l. split; [|done]. split; [|done]. simpl. rewrite Hn.
    destruct (Hf n) as [F1 F2]. exists (f n). by rewrite F1, F2.
Qed.

Lemma dev_ok w d : native_ok w → native_ok (NWorld (nw_owner w) (d, nlog w)).
Proof. done. Qed.

Lemma reports_ok scans w : native_ok w → native_ok (reports scans w).2.
Proof.
  revert w. induction scans as [|s l IH]; intros w Hw; [done|]. simpl.
  apply IH. apply (flags_ok (scan_recorded s)); [|done].
  intros n. by destruct (scan_recorded_flags s n) as (?&?&_).
Qed.

Lemma connect_ok fuel word valid w :
  native_ok w → native_ok (x1_native_connect approved env fuel word valid w).2.
Proof.
  intros Hw. unfold x1_native_connect. cbv zeta.
  destruct (Z.eqb_spec (x1_native_connect_word_allowed word) 0) as [Hword|]; [|done]. cbn [negb].
  destruct (negb valid); [done|]. destruct (nw_owner w) as [n|] eqn:Eo; [|done].
  destruct (_ || _) eqn:E; [done|].
  rewrite !orb_false_iff, !negb_false_iff in E. destruct E as [[[_ _] Hat] _].
  assert (word = 0x2501 ∨ word = 0x2701) as Hword'.
  { revert Hword. unfold x1_native_connect_word_allowed.
    destruct (Z.eqb_spec word 0x2501); [auto|]. destruct (Z.eqb_spec word 0x2701); [auto|done]. }
  pose proof (spec_connect fuel word Hword' w) as Hs.
  assert (native_ok (connect_body approved env fuel word w).2) as Hfin; [|done].
  destruct (connect_body approved env fuel word w) as [[[]|e|] w']; right; right; apply Hs;
    (destruct Hw as [[Ho _]|[((m&Hm&?&?)&Hl)|(l&((m&Hm&?&?)&Hl)&_)]]; [congruence| |congruence];
     split_and!; [by rewrite Hm|done|intros n' Hn'; congruence]).
Qed.

Lemma stop_ok w : native_ok w → native_ok (x1_native_stop env w).2.
Proof.
  intros Hw. unfold x1_native_stop. destruct (nw_owner w) as [n|] eqn:Eo; [|done].
  destruct (n_stopped n); [done|].
  assert (native_ok (own (λ n, n <| n_stopped := true |> <| n_live := false |>) w).2) as H1.
  { by apply flags_ok. }
  unfold bind at 1. set (w1 := (own _ w).2) in *.
  change (own (λ n, n <| n_stopped := true |> <| n_live := false |>) w) with (Ok tt, w1).
  cbv iota beta. clearbody w1. destruct (n_tb n).
  - unfold bind at 1 2, nask. simpl. unfold quietly. destruct (ne_lock nenv (nw_dev w1).1) as [l d].
    pose proof (reports_ok l _ (dev_ok w1 d H1)) as H2. unfold nlog in H2.
    unfold bind at 1. destruct (reports l _) as [[[]|e|] w2]; simpl; [|done..].
    unfold bind. simpl. by destruct (ne_prepared nenv _).
  - unfold bind. simpl. by destruct (ne_prepared nenv _).
Qed.
End attempts.

Section owner.
Context {D : Type} (approved : Z).
Abbreviation world := (nworld (D * list native_event)).
Implicit Types w : world.

Inductive native_step : world → world → Prop :=
| native_start env dev router irq w :
    native_step w (x1_native_start (logging_native env) dev router irq w).2
| native_register connect ctx w : native_step w (x1_native_register_connect connect ctx w).2
| native_connect env fuel word valid w :
    native_step w (x1_native_connect approved (logging_native env) fuel word valid w).2
| native_stop env w : native_step w (x1_native_stop (logging_native env) w).2
| native_scan s w : native_step w (x1_native_scan_result s w).2
| native_time d w : native_step w (NWorld (nw_owner w) (d, nlog w)).

Lemma native_step_ok w w' : native_step w w' → native_ok approved w → native_ok approved w'.
Proof.
  intros Hs Hw. destruct Hs.
  - by apply start_ok.
  - unfold x1_native_register_connect. destruct (nw_owner w); [|done].
    destruct (_ || _); [done|]. by apply flags_ok.
  - by apply connect_ok.
  - by apply stop_ok.
  - apply flags_ok; [|done]. intros n. by destruct (scan_recorded_flags s n) as (?&?&_).
  - by apply dev_ok.
Qed.

Lemma native_reachable d w :
  rtc native_step (NWorld None (d, [])) w →
  native_ok approved w ∧ allowed_log approved (nlog w).
Proof.
  intros Hs. assert (native_ok approved w) as Hw.
  { assert (native_ok approved (NWorld None (d, []))) as H0 by (by left).
    revert H0. induction Hs as [|w1 w2 w3 H1 _ IH]; [done|]. intros H0. apply IH.
    by eapply native_step_ok. }
  split; [done|]. destruct Hw as [[_ ->]|[[_ ->]|(l&[_ ->]&?)]]; [by left..|done].
Qed.

(** C31. Over any sequence of starts, registrations, connects, stops and scan
    results, with any behaviour of the connection manager and of the clock: one
    boot issues at most one MCU connect command, with one of the two allowed
    words, then at most one rescan, then the storage steps in their order, each
    at most once; the PCI0 bridge is started only when a device is approved at
    all, and the tunnel is approved only for exactly that device, plugged, on a
    USB4 link and not yet authorized; no PCIe authorization is left open between
    calls; and the public snapshot, which approves no device, never gets past
    the rescan. *)
Theorem native_one_attempt d w :
  rtc native_step (NWorld None (d, [])) w →
  allowed_log approved (nlog w) ∧
  (∀ same, x1_native_pcie_authorizing same w = false) ∧
  (approved = X1_NATIVE_LACIE_UID →
     ∀ e, e ∈ nlog w → (∃ word, e = NConnect word) ∨ e = NRescan).
Proof.
  intros Hs. destruct (native_reachable _ _ Hs) as [Hw Hl]. split; [done|]. split.
  - intros same. unfold x1_native_pcie_authorizing.
    destruct Hw as [[-> _]|[[(n&->&_&Ha) _]|(l&[(n&->&_&Ha) _]&_)]]; [done|..];
      rewrite Ha; apply andb_false_r.
  - unfold X1_NATIVE_LACIE_UID. intros Hz e He.
    destruct Hl as [Hl|(word&r&sw&k&Hl&_&Hk&_)]; rewrite Hl in He; [by apply elem_of_nil in He|].
    destruct k as [|k]; [|destruct Hk; [lia|done]]. unfold attempt_log in He.
    rewrite take_0, app_nil_r in He. apply elem_of_cons in He as [->|He]; [by left; exists word|].
    destruct r; [|by apply elem_of_nil in He]. apply list_elem_of_singleton in He. by right.
Qed.
End owner.

(** ** The wait for the router ends *)

(** A tick counter that wraps at 64 bits: a call takes at most 2^60 ticks, and
    a sleep at least one. *)
Definition ticks (lo hi a b : Z) : Prop := ∃ k, lo ≤ k ≤ hi ∧ b = u64 (a + k).

Record clock_runs {D} (env : native_env D) : Prop := {
  clock_range d : 0 ≤ ne_jiffies env d < 2 ^ 64;
  clock_valid d : ticks 0 (2 ^ 60) (ne_jiffies env d) (ne_jiffies env (ne_valid env d).2);
  clock_trylock d : ticks 0 (2 ^ 60) (ne_jiffies env d) (ne_jiffies env (ne_trylock env d).2);
  clock_rescan d : ticks 0 (2 ^ 60) (ne_jiffies env d) (ne_jiffies env (ne_rescan env d).2);
  clock_sleep d : ticks 1 (2 ^ 60) (ne_jiffies env d) (ne_jiffies env (ne_sleep env d).2);
}.

Lemma ticks_trans a b c l1 h1 l2 h2 :
  ticks l1 h1 a b → ticks l2 h2 b c → ticks (l1 + l2) (h1 + h2) a c.
Proof.
  intros (k1&H1&->) (k2&H2&->). exists (k1 + k2). split; [lia|]. unfold u64.
  rewrite Zplus_mod_idemp_l. f_equal. lia.
Qed.

(** Ticks bring the deadline closer or pass it. *)
Lemma ticks_deadline a b ms k :
  ticks 1 (5 * 2 ^ 60) a b → 0 ≤ ms ≤ 2 ^ 62 → u64 (k - a) = ms →
  time_before b k = true → 0 ≤ u64 (k - b) < ms.
Proof.
  intros (j&Hj&->) Hms Hk. unfold time_before, time_after_eq, u64 in *.
  rewrite negb_true_iff, Z.ltb_ge. rewrite Zminus_mod_idemp_l, Zminus_mod_idemp_r.
  pose proof (Z.div_mod (k - a) (2 ^ 64)) as Hdiv.
  replace (a + j - k) with (j - ms + (- ((k - a) / 2 ^ 64)) * 2 ^ 64) by lia.
  replace (k - (a + j)) with (ms - j + ((k - a) / 2 ^ 64) * 2 ^ 64) by lia.
  rewrite !Z.mod_add by lia. intros H. destruct (Z.lt_ge_cases j ms).
  - rewrite Z.mod_small by lia. lia.
  - rewrite Z.mod_small in H by lia. lia.
Qed.

Section waits.
Context {D : Type} (approved : Z) (env : native_env D) (Hc : clock_runs env).
Abbreviation time w := (ne_jiffies env (nw_dev w)).

(** At most [n] calls go by. *)
Definition calls (n : Z) (w w' : nworld D) : Prop := ticks 0 (n * 2 ^ 60) (time w) (time w').

Lemma calls_refl n w : 0 ≤ n → calls n w w.
Proof.
  intros Hn. exists 0. split; [lia|]. unfold u64. rewrite Z.add_0_r, Z.mod_small; [done|apply Hc].
Qed.
Lemma calls_trans n m w1 w2 w3 : calls n w1 w2 → calls m w2 w3 → calls (n + m) w1 w3.
Proof. intros H1 H2. unfold calls. rewrite Z.mul_add_distr_r. by apply (ticks_trans _ _ _ 0 _ 0 _ H1 H2). Qed.
Lemma calls_mono n m w w' : n ≤ m → calls n w w' → calls m w w'.
Proof. intros Hn (k&Hk&E). exists k. split; [lia|done]. Qed.

Lemma calls_own f : keeps (calls 0) (own f).
Proof. apply keeps_modify. intros w. by apply (calls_refl 0 w). Qed.
Lemma calls_reports l : keeps (calls 0) (reports l).
Proof.
  induction l as [|s l IH]; intros w; simpl; [by apply calls_refl|].
  apply (IH (NWorld (scan_recorded s <$> nw_owner w) (nw_dev w))).
Qed.
Lemma calls_ask {A} (f : D → A * D) :
  (∀ d, ticks 0 (2 ^ 60) (ne_jiffies env d) (ne_jiffies env (f d).2)) → keeps (calls 1) (nask f).
Proof. intros Hf w. unfold nask, calls. specialize (Hf (nw_dev w)). by destruct (f (nw_dev w)). Qed.
Lemma calls_bind {A B} n m (c : M (nworld D) A) (k : A → M (nworld D) B) :
  0 ≤ m → keeps (calls n) c → (∀ a, keeps (calls m) (k a)) → keeps (calls (n + m)) (bind c k).
Proof.
  intros Hm H1 H2 w. unfold bind. specialize (H1 w). destruct (c w) as [[a|e|] w1]; simpl in *.
  - specialize (H2 a w1). by eapply calls_trans.
  - eapply calls_mono; [|done]. lia.
  - eapply calls_mono; [|done]. lia.
Qed.
Lemma calls_ret {A} n (a : A) : 0 ≤ n → keeps (calls n) (ret a).
Proof. intros Hn w. by apply calls_refl. Qed.
Lemma calls_look {A} n (f : nworld D → A) : 0 ≤ n → keeps (calls n) (λ w, (Ok (f w), w)).
Proof. intros Hn w. by apply calls_refl. Qed.

Lemma safe_ask {A} (f : D → A * D) : safe (nask f).
Proof. intros w. unfold nask. by destruct (f (nw_dev w)). Qed.
Lemma safe_reports l : safe (reports (D := D) l).
Proof. apply safe_for_each. intros s _. apply safe_modify. Qed.

Lemma calls_valid : keeps (calls 1) (still_valid env).
Proof.
  apply (calls_bind 1 0); [done|apply calls_ask, Hc|]. intros v.
  destruct v; [by apply calls_ret|]. intros w. by apply calls_refl.
Qed.

Lemma calls_locked n deadline r : keeps (calls 2) (locked_pass approved env n deadline r).
Proof.
  unfold locked_pass. destruct (terminal_scan n); [by apply calls_ret|].
  apply (calls_bind 0 2); [done|by apply calls_look|]. intros sw.
  destruct sw; [by apply calls_ret|]. apply (calls_bind 0 2); [done|by apply calls_look|]. intros t.
  destruct (_ && _); [|by apply calls_ret].
  apply (calls_bind 1 1); [done|apply calls_ask, Hc|]. intros v.
  destruct (negb v); [by apply calls_ret|].
  apply (calls_bind 1 0); [done|apply calls_ask, Hc|]. intros s.
  apply (calls_bind 0 0); [done|apply calls_reports|]. intros ?. by apply calls_ret.
Qed.

Lemma safe_locked n deadline r : safe (locked_pass approved env n deadline r).
Proof.
  unfold locked_pass.
  assert (∀ (A : Type) (f : nworld D → A), safe (λ w, (Ok (f w), w))) as Hask by by intros A f w.
  safe_auto; try apply Hask; try apply safe_reports; apply safe_ask.
Qed.

Lemma safe_valid : safe (still_valid env).
Proof. unfold still_valid. safe_auto; apply safe_ask. Qed.

(** Sequencing on the clock. *)
Lemma no_fault_bind {A B} n (m : M (nworld D) A) (k : A → M (nworld D) B) w :
  safe m → keeps (calls n) m → (∀ a w', calls n w w' → (k a w').1 ≠ Fault) →
  (bind m k w).1 ≠ Fault.
Proof.
  intros Hs Hk Hn. unfold bind. specialize (Hs w). specialize (Hk w).
  destruct (m w) as [[a|e|] w']; [by apply Hn|done|done].
Qed.

Lemma wait_returns deadline fuel r w ms :
  u64 (deadline - time w) = ms → 0 ≤ ms ≤ 2 ^ 62 → ms < Z.of_nat fuel →
  (connect_wait approved env fuel deadline r w).1 ≠ Fault.
Proof.
  revert r w ms. induction fuel as [|fuel IH]; intros r w ms Hd Hms Hf; [lia|]. simpl.
  apply (no_fault_bind 1); [apply safe_valid|apply calls_valid|]. intros [] w1 H1.
  apply (no_fault_bind 1); [apply safe_ask|apply calls_ask, Hc|]. intros l w2 H2.
  apply (no_fault_bind 0); [apply safe_reports|apply calls_reports|]. intros [] w3 H3.
  apply (no_fault_bind 0); [by intros w'|by apply calls_look|]. intros n w4 H4.
  apply (no_fault_bind 2).
  { destruct l.1; [apply safe_locked|apply safe_ret]. }
  { destruct l.1; [apply calls_locked|by apply calls_ret]. }
  intros [|e|r'] w5 H5; [done|done|]. unfold bind at 1, nask at 1.
  pose proof (clock_sleep env Hc (nw_dev w5)) as Hs. destruct (ne_sleep env (nw_dev w5)) as [s d].
  apply (no_fault_bind 0); [apply safe_reports|apply calls_reports|]. intros [] w6 H6.
  unfold bind, now. destruct (time_before (time w6) deadline) eqn:Eb; [|done].
  assert (calls 4 w w5) as H15.
  { apply (calls_trans 1 3 w w1 w5 H1), (calls_trans 1 2 w1 w2 w5 H2), (calls_trans 0 2 w2 w3 w5 H3),
      (calls_trans 0 2 w3 w4 w5 H4), H5. }
  assert (ticks 1 (5 * 2 ^ 60) (time w) (time w6)) as Ht.
  { apply (ticks_trans _ _ _ 1 _ 0 0 (ticks_trans _ _ _ 0 (4 * 2 ^ 60) 1 _ H15 Hs) H6). }
  destruct (ticks_deadline _ _ ms deadline Ht Hms Hd Eb) as [H0 Hlt].
  eapply IH; [done|lia|lia].
Qed.

Lemma storage_safe : safe (x1_native_prepare_storage approved env).
Proof.
  assert (∀ (A : Type) (f : nworld D → A), safe (λ w, (Ok (f w), w))) as Hask by by intros A f w.
  assert (∀ f, safe (ncall (D := D) f)) as Hcall by (intros f; unfold ncall; safe_auto; apply safe_ask).
  assert (∀ f, safe (own (D := D) f)) as Hown by (intros f; apply safe_modify).
  unfold x1_native_prepare_storage, approve_tunnel, ntell.
  safe_auto; first [apply safe_valid|apply Hcall|apply safe_ask|apply safe_reports
    |apply Hask|apply Hown|apply safe_modify].
Qed.
End waits.

(** A connect call always returns: with a clock on which every sleep takes
    at least one tick, as many passes of the wait loop as the twenty seconds have
    ticks, and one more, are enough. *)
Theorem native_connect_returns {D} approved (env : native_env D) fuel word valid w :
  clock_runs env → 0 ≤ ne_msecs env 20000 ≤ 2 ^ 62 → ne_msecs env 20000 < Z.of_nat fuel →
  (x1_native_connect approved env fuel word valid w).1 ≠ Fault.
Proof.
  intros Hc Hm Hf. unfold x1_native_connect. cbv zeta.
  destruct (_ !=? 0); [done|]. destruct (negb valid); [done|].
  destruct (nw_owner w); [|done]. destruct (_ || _); [done|]. unfold connect_body.
  apply (no_fault_bind env 0); [apply safe_modify|by apply calls_own|]. intros [] w1 H1.
  apply (no_fault_bind env 1); [apply safe_valid|by apply calls_valid|]. intros [] w2 H2.
  unfold bind at 1, nask at 1. destruct (ne_connect env word (nw_dev w2)) as [r d].
  apply (no_fault_bind env 0); [apply safe_reports|by apply calls_reports|]. intros [] w3 H3.
  destruct (_ !=? 0); [done|]. unfold bind at 1, now.
  unfold bind. pose proof (wait_returns approved env Hc
    (u64 (ne_jiffies env (nw_dev w3) + ne_msecs env 20000)) fuel false w3 (ne_msecs env 20000)) as Hwait.
  assert (u64 (u64 (ne_jiffies env (nw_dev w3) + ne_msecs env 20000) - ne_jiffies env (nw_dev w3))
    = ne_msecs env 20000) as Hu.
  { unfold u64. rewrite Zminus_mod_idemp_l. rewrite Z.mod_small; lia. }
  specialize (Hwait Hu Hm Hf).
  destruct (connect_wait _ _ _ _ _ _) as [[[]|e|] w4]; [apply storage_safe|done|done].
Qed.

(** ** A connection manager that finds the approved device *)

Definition lacie : tb_switch := Switch 0x1234 false true false true.

(** The device shows up after three ticks; [D] is the tick count. *)
Definition good_native : native_env Z := {|
  ne_jiffies := u64; ne_msecs ms := ms; ne_alloc d := (true, d); ne_node := true;
  ne_caps d := (3, d); ne_ring_enabled _ d := (false, d); ne_prepare d := (0, d);
  ne_prepared _ := true; ne_init_interrupts d := (0, d); ne_disable_interrupts d := d;
  ne_tb_probe d := (true, d); ne_domain_add d := (0, d); ne_ctl_stop d := d;
  ne_uid_read d := (0, (0x1234, 0), d); ne_valid d := (true, d);
  ne_connect _ d := (0, [], d); ne_trylock d := (true, [], d); ne_lock d := ([], d);
  ne_find d := if d <? 3 then None else Some lacie; ne_rescan d := (0, [], d);
  ne_sleep d := ([], d + 1); ne_approve _ d := (0, d); ne_authorize d := d;
  ne_pcie_start d := (0, d); ne_pcie_train d := (0, d); ne_pcie_scan d := (0, d) |}.

Definition nboot : nworld (Z * list native_event) := NWorld None (0, []).
Definition nstarted := (x1_native_start (logging_native good_native) true true 5 nboot).2.
Definition nregistered := (x1_native_register_connect true true nstarted).2.
Definition nconnected (approved : Z) :=
  (x1_native_connect approved (logging_native good_native) 100 0x2501 true nregistered).2.

(** With its device approved the attempt runs through; the snapshot's build
    stops at the identity check. *)
Example native_runs :
  nlog (nconnected 0x1234) = attempt_log 0x2501 false lacie 4 ∧
  nlog (nconnected X1_NATIVE_LACIE_UID) = [NConnect 0x2501].
Proof. by vm_compute. Qed.

Lemma native_one_attempt_witness : allowed_log 0x1234 (nlog (nconnected 0x1234)).
Proof.
  apply (native_one_attempt 0x1234 0 (nconnected 0x1234)).
  apply (rtc_l _ _ nstarted); [apply native_start|].
  apply (rtc_l _ _ nregistered); [apply native_register|].
  apply (rtc_l _ _ (nconnected 0x1234)); [apply native_connect|]. apply rtc_refl.
Defined.

Lemma good_clock : clock_runs good_native.
Proof.
  assert (∀ d, ticks 0 (2 ^ 60) (u64 d) (u64 d)) as H0.
  { intros d. exists 0. split; [lia|]. unfold u64. by rewrite Z.add_0_r, Zmod_mod. }
  split; try done.
  - intros d. simpl. unfold u64. by apply Z.mod_pos_bound.
  - intros d. exists 1. split; [lia|]. simpl. unfold u64. by rewrite Zplus_mod_idemp_l.
Qed.

Lemma native_connect_returns_witness :
  (x1_native_connect 0x1234 good_native (Z.to_nat 20001) 0x2501 true (NWorld None 0)).1 ≠ Fault.
Proof.
  apply (native_connect_returns 0x1234 good_native); [exact good_clock|simpl; lia|].
  rewrite Z2Nat.id by lia. simpl. lia.
Defined.
