(* ===== verification/Board.v ===== *)
(** * The board gate (snapshot/kernel/include/linux/soc/qcom/x1-usb4-diag.h)

    Every entry point of the experiment asks [x1_diag_board_allowed] first.
    The kernel configuration and the device tree are arguments: [config] gives
    the value of an option, [tree] what the tree says. *)

From S2P Require Import Prelude.

(** A Kconfig option is off, a module, or built in. *)
Inductive tristate := N | M_ | Y.
#[export] Instance tristate_eq_dec : EqDecision tristate.
Proof. solve_decision. Defined.

Definition IS_ENABLED (o : tristate) : bool := bool_decide (o ≠ N).
Definition IS_MODULE (o : tristate) : bool := bool_decide (o = M_).

Inductive x1_diag_gcc_op :=
| X1_GCC_RX_REFERENCE | X1_GCC_RX_PHY
| X1_GCC_MISC_ASSERT | X1_GCC_MISC_CLEAR
| X1_GCC_EXTRA_ASSERT | X1_GCC_EXTRA_CLEAR
| X1_GCC_PIPE_ASSERT | X1_GCC_PIPE_CLEAR
| X1_GCC_SYS_READY | X1_GCC_MEMORY_FORCE | X1_GCC_HWCG_OFF.

Inductive x1_diag_phy_op :=
| X1_DIAG_PHY_PREPARE | X1_DIAG_PHY_DP_ASSERT | X1_DIAG_PHY_DP_CLEAR.

(** What the device tree answers: boolean properties of the root node, nodes
    that are present, nodes that are available, machine compatibles. *)
Record tree := {
  of_root_bool : string → bool;
  of_node_present : string → bool;
  of_node_available : string → bool;
  of_machine_is_compatible : string → bool;
}.

Section board.
Context (config : string → tristate) (dt : tree).

Definition x1_diag_disabled (path : string) : bool :=
  of_node_present dt path && negb (of_node_available dt path).

Definition x1_diag_board_allowed : bool :=
  let enabled o := IS_ENABLED (config o) in
  let prop := of_root_bool dt in
  if enabled "USB4_X1_NATIVE" && negb (prop "birk,usb4-native-cm-test") then false else
  if enabled "USB_DWC3" || enabled "DRM_MSM" ||
     (enabled "QCOM_PMIC_GLINK" &&
      (negb (enabled "USB4_X1_TYPEC_DIAG") || negb (prop "birk,usb4-typec-observer"))) ||
     (enabled "TYPEC_MUX_PS883X" &&
      (negb (IS_MODULE (config "TYPEC_MUX_PS883X")) ||
       negb (enabled "USB4_X1_TYPEC_DIAG") ||
       negb (prop "birk,usb4-retimer-test"))) ||
     enabled "TYPEC_UCSI" ||
     enabled "USB_XHCI_HCD" ||
     (enabled "USB4" && negb (enabled "USB4_X1_DIAG")) ||
     enabled "USB4_QCOM" ||
     (enabled "BLK_DEV_NVME" &&
      (negb (enabled "USB4_X1_NATIVE") || negb (IS_MODULE (config "BLK_DEV_NVME")) ||
       negb (prop "birk,usb4-pci0-test") ||
       negb (prop "birk,usb4-pci0-init-v23") ||
       negb (x1_diag_disabled "/soc@0/pcie@1bf8000") ||
       negb (x1_diag_disabled "/soc@0/pcie@1c08000"))) ||
     enabled "SCSI" || enabled "ATA" ||
     enabled "MMC" || enabled "MTD" ||
     enabled "USB_STORAGE" || enabled "USB_UAS"
  then false else
  of_machine_is_compatible dt "lenovo,yoga-slim7x" &&
  prop "birk,usb4-mcu-ram-probe" &&
  x1_diag_disabled "/soc@0/usb@a600000" &&
  x1_diag_disabled "/soc@0/display-subsystem@ae00000".

(** A board that passes can reach no disk: every storage stack is compiled out,
    except an NVMe module on the isolated tunnel with both native PCIe hosts
    disabled. *)
Lemma board_no_storage :
  x1_diag_board_allowed = true →
  (∀ o, o ∈ ["SCSI"; "ATA"; "MMC"; "MTD"; "USB_STORAGE"; "USB_UAS"; "USB_XHCI_HCD"] →
     config o = N) ∧
  (config "BLK_DEV_NVME" = N ∨
   config "BLK_DEV_NVME" = M_ ∧
   x1_diag_disabled "/soc@0/pcie@1bf8000" = true ∧
   x1_diag_disabled "/soc@0/pcie@1c08000" = true).
Proof.
  unfold x1_diag_board_allowed. destruct (_ && negb _); [done|].
  if_case E; [done|]. intros _. rewrite !orb_false_iff in E. destruct_and!.
  assert (∀ o, IS_ENABLED (config o) = false → config o = N) as Hn.
  { intros o Ho. apply bool_decide_eq_false in Ho. by destruct (config o) eqn:Ec; [|destruct Ho..]. }
  split.
  - intros o Ho. apply Hn. repeat (apply elem_of_cons in Ho as [->|Ho]; [done|]).
    by apply not_elem_of_nil in Ho.
  - destruct (IS_ENABLED (config "BLK_DEV_NVME")) eqn:En; [|left; by apply Hn].
    right. repeat match goal with H : true && _ = false |- _ => simpl in H end.
    repeat match goal with H : _ || _ = false |- _ => apply orb_false_iff in H as [? ?] end.
    repeat match goal with H : negb _ = false |- _ => apply negb_false_iff in H end.
    split_and!; [|done..]. by eapply bool_decide_eq_true.
Qed.
End board.
