(* ===== verification/Providers.v ===== *)
(** * The clock and PHY providers of the cold start

    snapshot/kernel/drivers/clk/qcom/x1-usb4-diag.inc, the reset and clock
    operations the GCC driver lends to one owner, and
    snapshot/kernel/drivers/phy/qualcomm/x1-usb4-diag.inc, the staged
    preparation of the PHY.

    The register map, the power services and the PHY registers are kernel
    code and hardware: the classes [Regmap], [PhyServices] and [Mmio phy_reg]
    stand for them.  Log messages are left out. *)

From S2P Require Import Prelude Board.

(** [regmap_update_bits] returns an errno, [regmap_read] an errno and a word. *)
Class Regmap (D : Type) := {
  regmap_update_bits : Z → Z → Z → D → Z * D;
  regmap_read : Z → D → Z * Z * D;
}.

Inductive phy_call :=
| pm_runtime_resume_and_get | regulator_bulk_enable | clk_bulk_prepare_enable
| pipe_clk_enable | p2rr2p_clk_enable
| common_reset_assert | common_reset_deassert.
Class PhyServices (D : Type) := phy_service : phy_call → D → Z * D.

(** [qmp->com + QPHY_V3_DP_COM_PHY_MODE_CTRL] and
    [qmp->pcs_aon + QPHY_V6_PCS_AON_USB4_CLAMP_ENABLE]. *)
Inductive phy_reg := PHY_MODE_CTRL | USB4_CLAMP_ENABLE.

Definition DP_TUNNELING_CLOCK_GEN_EN : Z := BIT 3.
Definition CLAMP_EN : Z := BIT 0.

(** ** The clock provider *)

(** [x1_diag_gcc_map] is set or NULL; a device is its identity. *)
Record gcc := Gcc { gcc_map : bool; gcc_owner : option nat }.
Record gowner := GOwner { ow_id : nat; ow_compatible : bool }.

Section gcc.
Context (board_allowed : bool) (polls : nat).
Context {D : Type} `{Regmap D}.

Definition rm_read (off : Z) : M D Z := λ d,
  let '(r, v, d) := regmap_read off d in
  ((if r =? 0 then Ok (u32 v) else Err r), d).

Definition x1_diag_gcc_write (offset mask value : Z) : M D unit :=
  do! try_ (regmap_update_bits offset mask value) in
  let! actual := rm_read offset in
  if actual .& mask =? value then ret tt else fail (-EIO).

Definition gates : list Z := [0x9f0b0; 0x9f0c0].
Definition muxes : list Z := [0x9f0ac; 0x9f0bc].

Definition x1_diag_gcc_rx (phy : bool) : M D unit :=
  let want := if phy then 0 else 2 in
  do! for_each gates (λ g, x1_diag_gcc_write g (BIT 0) 0) in
  do! for_each muxes (λ m, x1_diag_gcc_write m 3 want) in
  for_each gates (λ g, x1_diag_gcc_write g (BIT 0) (BIT 0)).

(** [regmap_read_poll_timeout]: a failed read ends the poll too. *)
Fixpoint regmap_read_poll_timeout (iters : nat) (off : Z) (cond : Z → bool) : M D unit :=
  let! v := rm_read off in
  if cond v then ret tt else
  match iters with
  | O => let! v := rm_read off in if cond v then ret tt else fail (-ETIMEDOUT)
  | S iters => regmap_read_poll_timeout iters off cond
  end.

Definition gcc_switch (op : x1_diag_gcc_op) : M D unit :=
  match op with
  | X1_GCC_RX_REFERENCE => x1_diag_gcc_rx false
  | X1_GCC_RX_PHY => x1_diag_gcc_rx true
  | X1_GCC_MISC_ASSERT => x1_diag_gcc_write 0xad0f8 0x7ff 0x7ff
  | X1_GCC_MISC_CLEAR => x1_diag_gcc_write 0xad0f8 0x7ff 0
  | X1_GCC_EXTRA_ASSERT => x1_diag_gcc_write 0x5001c (BIT 0) (BIT 0)
  | X1_GCC_EXTRA_CLEAR => x1_diag_gcc_write 0x5001c (BIT 0) 0
  | X1_GCC_PIPE_ASSERT => x1_diag_gcc_write 0xad0f8 (BIT 3) (BIT 3)
  | X1_GCC_PIPE_CLEAR => x1_diag_gcc_write 0xad0f8 (BIT 3) 0
  | X1_GCC_SYS_READY =>
      regmap_read_poll_timeout polls 0x9f054 (λ value, negb (tst value (BIT 31)))
  | X1_GCC_MEMORY_FORCE => x1_diag_gcc_write 0x9f054 (BIT 14) (BIT 14)
  | X1_GCC_HWCG_OFF => x1_diag_gcc_write 0x9f0a4 (BIT 1) 0
  end.

Definition x1_diag_gcc_claim (owner : option gowner) : M (gcc * D) unit := λ '(g, d),
  match owner with
  | Some o =>
      if negb board_allowed || negb (ow_compatible o) then (Err (-EPERM), (g, d)) else
      if negb (gcc_map g) then (Err (-ENODEV), (g, d)) else
      if gcc_owner g then (Err (-EBUSY), (g, d)) else
      (Ok tt, (Gcc (gcc_map g) (Some (ow_id o)), d))
  | None => (Err (-EPERM), (g, d))
  end.

(** The [default:] of the C switch is for values outside the enumeration. *)
Definition x1_diag_gcc_apply (owner : option gowner) (op : x1_diag_gcc_op)
    : M (gcc * D) unit := λ '(g, d),
  match owner with
  | Some o =>
      if negb board_allowed || negb (gcc_map g) ||
         bool_decide (gcc_owner g ≠ Some (ow_id o)) then (Err (-EPERM), (g, d)) else
      let (r, d) := gcc_switch op d in (r, (g, d))
  | None => (Err (-EPERM), (g, d))
  end.

Definition x1_diag_gcc_forget : M (gcc * D) unit := modify (λ '(_, d), (Gcc false None, d)).
End gcc.

(** ** The PHY provider *)

Record qmp_combo := Qmp {
  q_cfg_x1 : bool;
  q_usb4_phy : nat;
  q_at_node : bool;
  q_usb4_rx_eq : Z;
  q_usb4_dp_aux : bool;
  q_p2rr2p_pipe_clk : bool;
  q_num_resets : Z;
  q_usb_init_count : Z;
  q_dp_init_count : Z;
  q_usb4_init_count : Z;
  q_init_count : Z;
  q_com_powered_on : bool;
  q_x1_diag_attempted : bool;
  q_x1_diag_prepared : bool;
}.
#[export] Instance qmp_eta : Eta qmp_combo := λ q,
  Qmp (q_cfg_x1 q) (q_usb4_phy q) (q_at_node q) (q_usb4_rx_eq q) (q_usb4_dp_aux q)
    (q_p2rr2p_pipe_clk q) (q_num_resets q) (q_usb_init_count q) (q_dp_init_count q)
    (q_usb4_init_count q) (q_init_count q) (q_com_powered_on q)
    (q_x1_diag_attempted q) (q_x1_diag_prepared q).

Section phy.
Context (board_allowed : bool).
Context {D : Type} `{PhyServices D} `{Mmio phy_reg D}.
Abbreviation Q := (M (qmp_combo * D)).

Definition qnote (f : qmp_combo → qmp_combo) : Q unit := modify (λ '(q, d), (f q, d)).
Definition qdev {A} (m : M D A) : Q A := λ '(q, d), let (r, d) := m d in (r, (q, d)).
Definition qcall (c : phy_call) : Q unit := qdev (try_ (phy_service c)).

(** [if (ret < 0) return ret;]: runtime PM may return a positive value. *)
Definition qresume : Q unit := qdev (λ d,
  let (r, d) := phy_service pm_runtime_resume_and_get d in
  ((if r <? 0 then Err r else Ok tt), d)).

Definition phy_prepare (q : qmp_combo) : Q unit :=
  if q_x1_diag_attempted q then fail (-EALREADY) else
  do! qnote (λ q, q <| q_x1_diag_attempted := true |>) in
  do! qresume in
  do! qcall regulator_bulk_enable in
  do! qcall clk_bulk_prepare_enable in
  do! qcall pipe_clk_enable in
  do! qcall p2rr2p_clk_enable in
  let! mode := qdev (readl PHY_MODE_CTRL) in
  if tst mode DP_TUNNELING_CLOCK_GEN_EN then fail (-EBUSY) else
  do! qdev (writel CLAMP_EN USB4_CLAMP_ENABLE) in
  let! clamp := qdev (readl USB4_CLAMP_ENABLE) in
  if clamp .& CLAMP_EN !=? CLAMP_EN then fail (-EIO) else
  qnote (λ q, q <| q_x1_diag_prepared := true |>).

(** [phy]: NULL, or a handle with its driver data present or not. *)
Definition x1_diag_phy_apply (phy : option (nat * bool)) (op : x1_diag_phy_op) : Q unit := λ '(q, d),
  match phy with
  | None => (Err (-EPERM), (q, d))
  | Some (p, drvdata) =>
      if negb board_allowed then (Err (-EPERM), (q, d)) else
      if negb drvdata || negb (q_cfg_x1 q) || bool_decide (p ≠ q_usb4_phy q)
      then (Err (-EINVAL), (q, d)) else
      if negb (q_at_node q) || (q_usb4_rx_eq q !=? 0x6f) || negb (q_usb4_dp_aux q) ||
         negb (q_p2rr2p_pipe_clk q) || (q_num_resets q !=? 2)
      then (Err (-EINVAL), (q, d)) else
      if (q_usb_init_count q !=? 0) || (q_dp_init_count q !=? 0) ||
         (q_usb4_init_count q !=? 0) || (q_init_count q !=? 0) || q_com_powered_on q
      then (Err (-EBUSY), (q, d)) else
      match op with
      | X1_DIAG_PHY_DP_ASSERT =>
          if negb (q_x1_diag_prepared q) then (Err (-EPERM), (q, d))
          else qcall common_reset_assert (q, d)
      | X1_DIAG_PHY_DP_CLEAR =>
          if negb (q_x1_diag_prepared q) then (Err (-EPERM), (q, d))
          else qcall common_reset_deassert (q, d)
      | X1_DIAG_PHY_PREPARE => phy_prepare q (q, d)
      end
  end.
End phy.

(** ** What the providers do to the hardware

    Every service call and register access, in order, with its result. *)

Inductive pevent :=
| GUpdate (off mask value ret : Z)
| GRead (off ret value : Z)
| PCall (c : phy_call) (ret : Z)
| PReg (a : access phy_reg).

Record plogged (D : Type) := PLogged { pl_dev : D; pl_log : list pevent }.
Arguments PLogged {_} _ _.
Arguments pl_dev {_} _.
Arguments pl_log {_} _.
#[export] Instance plogged_logged D : Logged (plogged D) pevent := pl_log.
#[export] Instance plogged_regmap {D} `{Regmap D} : Regmap (plogged D) := {|
  regmap_update_bits off mask v s :=
    let (r, d) := regmap_update_bits off mask v (pl_dev s) in
    (r, PLogged d (pl_log s ++ [GUpdate off mask v r]));
  regmap_read off s :=
    let '(r, v, d) := regmap_read off (pl_dev s) in
    (r, v, PLogged d (pl_log s ++ [GRead off r (u32 v)]));
|}.
#[export] Instance plogged_phy {D} `{PhyServices D} : PhyServices (plogged D) := λ c s,
  let (r, d) := phy_service c (pl_dev s) in (r, PLogged d (pl_log s ++ [PCall c r])).
#[export] Instance plogged_mmio {D} `{Mmio phy_reg D} : Mmio phy_reg (plogged D) := {|
  dev_read a s := let (v, d) := dev_read a (pl_dev s) in
                  (v, PLogged d (pl_log s ++ [PReg (Rd a (u32 v))]));
  dev_write a v s := PLogged (dev_write a v (pl_dev s)) (pl_log s ++ [PReg (Wr a v)]);
|}.

(** ** Scripts

    Reads of 0x9f054, which SYS_READY polls an unknown number of times, are
    not part of a script. *)

Definition pvis (e : pevent) : bool :=
  match e with GRead off _ _ => off !=? 0x9f054 | _ => true end.

Definition updated (off mask v : Z) (e : pevent) : Prop := e = GUpdate off mask v 0.
Definition verified (off mask v : Z) (e : pevent) : Prop :=
  ∃ w, e = GRead off 0 w ∧ w .& mask = v.
Definition set_field_script (off mask v : Z) : list (pevent → Prop) :=
  [updated off mask v; verified off mask v].

(** The receiver clocks: both gates closed and seen closed, then both
    selectors, then both gates open. *)
Definition rx_script (want : Z) : list (pevent → Prop) :=
  set_field_script 0x9f0b0 1 0 ++ set_field_script 0x9f0c0 1 0 ++
  set_field_script 0x9f0ac 3 want ++ set_field_script 0x9f0bc 3 want ++
  set_field_script 0x9f0b0 1 1 ++ set_field_script 0x9f0c0 1 1.

Definition gcc_script (op : x1_diag_gcc_op) : list (pevent → Prop) :=
  match op with
  | X1_GCC_RX_REFERENCE => rx_script 2
  | X1_GCC_RX_PHY => rx_script 0
  | X1_GCC_MISC_ASSERT => set_field_script 0xad0f8 0x7ff 0x7ff
  | X1_GCC_MISC_CLEAR => set_field_script 0xad0f8 0x7ff 0
  | X1_GCC_EXTRA_ASSERT => set_field_script 0x5001c 1 1
  | X1_GCC_EXTRA_CLEAR => set_field_script 0x5001c 1 0
  | X1_GCC_PIPE_ASSERT => set_field_script 0xad0f8 8 8
  | X1_GCC_PIPE_CLEAR => set_field_script 0xad0f8 8 0
  | X1_GCC_SYS_READY => []
  | X1_GCC_MEMORY_FORCE => [updated 0x9f054 0x4000 0x4000]
  | X1_GCC_HWCG_OFF => set_field_script 0x9f0a4 2 0
  end.

(** What the last read of a successful operation shows. *)
Definition gcc_goal (op : x1_diag_gcc_op) : pevent → Prop :=
  match op with
  | X1_GCC_RX_REFERENCE | X1_GCC_RX_PHY => verified 0x9f0c0 1 1
  | X1_GCC_MISC_ASSERT => verified 0xad0f8 0x7ff 0x7ff
  | X1_GCC_MISC_CLEAR => verified 0xad0f8 0x7ff 0
  | X1_GCC_EXTRA_ASSERT => verified 0x5001c 1 1
  | X1_GCC_EXTRA_CLEAR => verified 0x5001c 1 0
  | X1_GCC_PIPE_ASSERT => verified 0xad0f8 8 8
  | X1_GCC_PIPE_CLEAR => verified 0xad0f8 8 0
  | X1_GCC_SYS_READY => verified 0x9f054 0x80000000 0
  | X1_GCC_MEMORY_FORCE => verified 0x9f054 0x4000 0x4000
  | X1_GCC_HWCG_OFF => verified 0x9f0a4 2 0
  end.

Definition granted (c : phy_call) (e : pevent) : Prop := e = PCall c 0.
Definition phy_script (op : x1_diag_phy_op) : list (pevent → Prop) :=
  match op with
  | X1_DIAG_PHY_PREPARE =>
      [λ e, ∃ r, 0 ≤ r ∧ e = PCall pm_runtime_resume_and_get r;
       granted regulator_bulk_enable; granted clk_bulk_prepare_enable;
       granted pipe_clk_enable; granted p2rr2p_clk_enable;
       λ e, ∃ v, e = PReg (Rd PHY_MODE_CTRL v) ∧ tst v DP_TUNNELING_CLOCK_GEN_EN = false;
       λ e, e = PReg (Wr USB4_CLAMP_ENABLE CLAMP_EN);
       λ e, ∃ v, e = PReg (Rd USB4_CLAMP_ENABLE v) ∧ v .& CLAMP_EN = CLAMP_EN]
  | X1_DIAG_PHY_DP_ASSERT => [granted common_reset_assert]
  | X1_DIAG_PHY_DP_CLEAR => [granted common_reset_deassert]
  end.

(** The access an operation gives up at: a service that refused, or a read
    that did not show what was wanted; never a write. *)
Definition refused (e : pevent) : Prop :=
  match e with
  | GUpdate _ _ _ r | PCall _ r => r ≠ 0
  | GRead _ _ _ => True
  | PReg (Rd _ _) => True
  | PReg (Wr _ _) => False
  end.
Definition phalts : list (list (pevent → Prop)) := [[refused]].

(** One logged action that succeeds as [P] says or is refused. *)
Lemma does_or_one {S A} `{Logged S pevent} (P : pevent → Prop) (m : M S A) :
  (∀ s, ∃ e, get_log (m s).2 = get_log s ++ [e] ∧ pvis e = true ∧
     match (m s).1 with Ok _ => P e | Err _ => refused e | Fault => False end) →
  does_or pvis phalts [P] m.
Proof.
  intros Hm s. destruct (Hm s) as (e&Hl&Hv&Hr). exists [e]. split; [done|].
  destruct (m s).1; [by apply matches_one| |done].
  exists 0%nat, [refused]. split; [by apply matches_one|]. right. by left.
Qed.

Section gcc_spec.
Context {D : Type} `{Regmap D}.
Abbreviation world := (plogged D).
Abbreviation logs := (does_or (S:=world) pvis phalts).

Lemma update_logged off mask v : logs [updated off mask v] (try_ (regmap_update_bits off mask v)).
Proof.
  apply does_or_one. intros s. unfold try_. simpl. destruct (regmap_update_bits _ _ _ _) as [r d].
  exists (GUpdate off mask v r). destruct (Z.eqb_spec r 0) as [->|Hr]; done.
Qed.

(** The read and its comparison are one logged action. *)
Lemma rm_read_spec off (s : world) : ∃ d w,
  0 ≤ w < 2 ^ 32 ∧
  (rm_read off s = (Ok w, PLogged d (pl_log s ++ [GRead off 0 w])) ∨
   ∃ r, r ≠ 0 ∧ rm_read off s = (Err r, PLogged d (pl_log s ++ [GRead off r w]))).
Proof.
  unfold rm_read. simpl. destruct (regmap_read off (pl_dev s)) as [[r w] d].
  exists d, (u32 w). split; [apply u32_range|].
  destruct (Z.eqb_spec r 0) as [->|Hr]; [by left|right; eauto].
Qed.

Lemma gcc_write_spec off mask v (s : world) : ∃ t,
  pl_log (x1_diag_gcc_write off mask v s).2 = pl_log s ++ t ∧
  match (x1_diag_gcc_write off mask v s).1 with
  | Ok _ => ∃ w, w .& mask = v ∧ t = [GUpdate off mask v 0; GRead off 0 w]
  | Err e => e ≠ 0 ∧ ((∃ r, r ≠ 0 ∧ t = [GUpdate off mask v r]) ∨
                      ∃ r w, t = [GUpdate off mask v 0; GRead off r w])
  | Fault => False
  end.
Proof.
  unfold x1_diag_gcc_write, bind, try_. simpl.
  destruct (regmap_update_bits off mask v (pl_dev s)) as [r d]. simpl.
  destruct (Z.eqb_spec r 0) as [->|Hr]; [|by eexists; split; [done|]; simpl; eauto 6].
  destruct (rm_read_spec off (PLogged d (pl_log s ++ [GUpdate off mask v 0])))
    as (d'&w&_&[-> | (r&Hr&->)]); simpl; rewrite <- app_assoc; simpl;
    [|by eexists; split; [done|]; simpl; eauto 6].
  destruct (Z.eqb_spec (w .& mask) v); eexists; (split; [done|]); simpl; [by eauto|].
  split; [done|]. eauto.
Qed.

Lemma gcc_write_logged off mask v :
  off ≠ 0x9f054 → logs (set_field_script off mask v) (x1_diag_gcc_write off mask v).
Proof.
  intros Ho s. destruct (gcc_write_spec off mask v s) as (t&Ht&Hr). exists t. split; [done|].
  assert (∀ r w, pvis (GRead off r w) = true) as Hv
    by (intros r w; simpl; by rewrite (proj2 (Z.eqb_neq _ _) Ho)).
  destruct (x1_diag_gcc_write off mask v s).1 as [[]|e|]; [| |done].
  - destruct Hr as (w&Hw&->). apply (matches_app _ [_] [_] [_] [_]); apply matches_one; try done.
    by exists w.
  - destruct Hr as (_&[(r&Hr&->)|(r&w&->)]).
    + exists 0%nat, [refused]. split; [by apply matches_one|]. right. by left.
    + exists 1%nat, [refused]. split; [|right; by left].
      apply (matches_app _ [_] [_] [_] [_]); by apply matches_one.
Qed.

Lemma memory_force_logged mask v :
  logs [updated 0x9f054 mask v] (x1_diag_gcc_write 0x9f054 mask v).
Proof.
  intros s. destruct (gcc_write_spec 0x9f054 mask v s) as (t&Ht&Hr). exists t. split; [done|].
  destruct (x1_diag_gcc_write _ _ _ _).1 as [[]|e|]; [| |done].
  - destruct Hr as (w&Hw&->). unfold matches. by repeat constructor.
  - destruct Hr as (_&[(r&Hr&->)|(r&w&->)]).
    + exists 0%nat, [refused]. split; [by apply matches_one|]. right. by left.
    + exists 1%nat, []. split; [|by left]. unfold matches. by repeat constructor.
Qed.

Lemma rx_logged (phy : bool) : logs (rx_script (if phy then 0 else 2)) (x1_diag_gcc_rx phy).
Proof.
  unfold rx_script. rewrite !(app_assoc (set_field_script 0x9f0b0 1 0)).
  set (w := if phy then 0 else 2).
  change (logs (flat_map (λ g : Z, set_field_script g 1 0) gates ++
                flat_map (λ m : Z, set_field_script m 3 w) muxes ++
                flat_map (λ g : Z, set_field_script g 1 1) gates) (x1_diag_gcc_rx phy)).
  assert (∀ (mask v : Z) (l : list Z), 0x9f054 ∉ l →
    logs (flat_map (λ g : Z, set_field_script g mask v) l) (for_each l (λ g, x1_diag_gcc_write g mask v)))
    as Hl.
  { intros mask v l Hn. apply does_or_for_each. intros x Hx. apply gcc_write_logged.
    intros ->. done. }
  apply does_or_bind; [apply Hl|intros _; apply does_or_bind; [apply Hl|intros _; apply Hl]];
    by apply (bool_decide_unpack _).
Qed.

Lemma poll_spec n off cond (s : world) : ∃ t,
  pl_log (regmap_read_poll_timeout n off cond s).2 = pl_log s ++ t ∧
  Forall (λ e, ∃ r w, e = GRead off r w) t ∧
  match (regmap_read_poll_timeout n off cond s).1 with
  | Ok _ => ∃ w, 0 ≤ w < 2 ^ 32 ∧ last t = Some (GRead off 0 w) ∧ cond w = true
  | Err e => e ≠ 0
  | Fault => False
  end.
Proof.
  revert s. induction n as [|n IH]; intros s; simpl; unfold bind;
    destruct (rm_read_spec off s) as (d&w&Hw&[-> | (r&Hr&->)]); simpl;
    try (by eexists; split; [done|]; split; [repeat constructor; eauto|]);
    (destruct (cond w) eqn:Ec;
     [by eexists; split; [done|]; split; [repeat constructor; eauto|]; exists w|]).
  - destruct (rm_read_spec off (PLogged d (pl_log s ++ [GRead off 0 w])))
      as (d'&w'&Hw'&[-> | (r&Hr&->)]); simpl; rewrite <- app_assoc; simpl;
      [destruct (cond w') eqn:Ec'|]; (eexists; split; [done|]);
      (split; [repeat constructor; eauto|]); [by exists w'|done..].
  - destruct (IH (PLogged d (pl_log s ++ [GRead off 0 w]))) as (t&Ht&Hf&Hr). simpl in Ht.
    rewrite <- app_assoc in Ht. eexists. split; [exact Ht|].
    split; [constructor; eauto|].
    destruct (regmap_read_poll_timeout _ _ _ _).1; [|done..].
    destruct Hr as (w'&?&Hl&Hc). exists w'. split; [done|]. split; [|done].
    by destruct t.
Qed.

Lemma sys_ready_logged n cond : logs [] (regmap_read_poll_timeout n 0x9f054 cond).
Proof.
  intros s. destruct (poll_spec n 0x9f054 cond s) as (t&Ht&Hf&Hr). exists t. split; [done|].
  assert (matches pvis [] t) as Hm.
  { unfold matches. clear -Hf. induction Hf as [|e t (r&w&->) Hf IH]; [constructor|].
    by rewrite filter_cons_False. }
  destruct (regmap_read_poll_timeout _ _ _ _).1; [done| |done]. exists 0%nat, [].
  split; [done|by left].
Qed.

Lemma switch_logged n op : logs (gcc_script op) (gcc_switch n op).
Proof.
  destruct op; simpl; try by apply gcc_write_logged.
  - apply (rx_logged false).
  - apply (rx_logged true).
  - apply sys_ready_logged.
  - apply memory_force_logged.
Qed.

Lemma write_goal off mask v (s s' : world) :
  x1_diag_gcc_write off mask v s = (Ok tt, s') →
  ∃ e, last (pl_log s') = Some e ∧ verified off mask v e.
Proof.
  intros E. destruct (gcc_write_spec off mask v s) as (t&Ht&Hr). rewrite E in Ht, Hr.
  simpl in *. destruct Hr as (w&Hw&->). rewrite Ht, last_app. simpl. unfold verified. eauto.
Qed.

Lemma switch_goal n op (s s' : world) :
  gcc_switch n op s = (Ok tt, s') → ∃ e, last (pl_log s') = Some e ∧ gcc_goal op e.
Proof.
  assert (∀ b, x1_diag_gcc_rx b s = (Ok tt, s') →
    ∃ e, last (pl_log s') = Some e ∧ verified 0x9f0c0 1 1 e) as Hrx.
  { intros b E. do 3 (apply bind_ok_inv in E as ([]&?&_&E)).
    apply bind_ok_inv in E as ([]&s1&E&[= <-]).
    by eapply write_goal. }
  destruct op; simpl; try by apply write_goal.
  - apply (Hrx false).
  - apply (Hrx true).
  - intros E. destruct (poll_spec n 0x9f054 (λ v, negb (tst v (BIT 31))) s) as (t&Ht&_&Hr).
    rewrite E in Ht, Hr. simpl in *. destruct Hr as (w&Hw&Hl&Hc). rewrite Ht, last_app, Hl.
    exists (GRead 0x9f054 0 w). split; [done|]. exists w. split; [done|].
    unfold tst in Hc. rewrite negb_involutive in Hc. by apply Z.eqb_eq in Hc.
Qed.

Lemma errs_gcc_write off mask v : errs (λ e, e ≠ 0) (x1_diag_gcc_write (D:=world) off mask v).
Proof.
  intros s e s' E. destruct (gcc_write_spec off mask v s) as (t&_&Hr). rewrite E in Hr. apply Hr.
Qed.

Lemma errs_switch n op : errs (λ e, e ≠ 0) (gcc_switch (D:=world) n op).
Proof.
  assert (∀ b, errs (λ e, e ≠ 0) (x1_diag_gcc_rx (D:=world) b)) as Hrx.
  { intros b. unfold x1_diag_gcc_rx. apply errs_bind; [|intros _; apply errs_bind; [|intros _]];
      apply errs_for_each; intros x; apply errs_gcc_write. }
  destruct op; simpl; try apply errs_gcc_write; try apply Hrx.
  intros s e s' E. destruct (poll_spec n 0x9f054 (λ v, negb (tst v (BIT 31))) s) as (t&_&_&Hr).
  by rewrite E in Hr.
Qed.

(** Who may use the clock provider. *)
Definition may_apply (allowed : bool) (g : gcc) (owner : option gowner) : bool :=
  match owner with
  | Some o => allowed && gcc_map g && bool_decide (gcc_owner g = Some (ow_id o))
  | None => false
  end.

Lemma apply_unfold allowed n owner op g (s : world) :
  x1_diag_gcc_apply allowed n owner op (g, s) =
  if may_apply allowed g owner then let (r, s) := gcc_switch n op s in (r, (g, s))
  else (Err (-EPERM), (g, s)).
Proof.
  destruct owner as [o|]; [|done]. simpl.
  destruct allowed, (gcc_map g); try done. simpl.
  rewrite (bool_decide_not (gcc_owner g = Some (ow_id o))). by destruct (bool_decide _).
Qed.

(** One operation of the clock provider, for every register map.  A caller
    that is not the claimed owner, on another board or after the provider is
    gone, is refused with -EPERM and nothing is accessed.  The owner's
    operation makes the accesses of its script and no other: it succeeds
    exactly after the whole script, its last read showing the state asked for;
    it fails after a prefix, ended at most by the one access that was refused.
    In particular a receiver clock selector is changed only after both gates
    were read back closed. *)
Theorem gcc_apply_outcomes allowed n owner op g (s : world) :
  let out := x1_diag_gcc_apply allowed n owner op (g, s) in
  out.2.1 = g ∧
  if may_apply allowed g owner then
    ∃ t, pl_log out.2.2 = pl_log s ++ t ∧
      match out.1 with
      | Ok _ => matches pvis (gcc_script op) t ∧
                ∃ e, last (pl_log out.2.2) = Some e ∧ gcc_goal op e
      | Err e => e ≠ 0 ∧
                 ∃ k c, matches pvis (take k (gcc_script op) ++ c) t ∧ c ∈ [[]; [refused]]
      | Fault => False
      end
  else out.1 = Err (-EPERM) ∧ out.2.2 = s.
Proof.
  cbv zeta. rewrite apply_unfold. destruct (may_apply allowed g owner); [|done].
  destruct (switch_logged n op s) as (t&Ht&Hr). pose proof (errs_switch n op s) as He.
  pose proof (switch_goal n op s) as Hg.
  destruct (gcc_switch n op s) as [[[]|e|] s'] eqn:E; simpl in *; (split; [done|]); [| |done].
  - exists t. split; [done|]. split; [done|]. by apply Hg.
  - exists t. split; [done|]. split; [by eapply He|]. destruct Hr as (k&c&Hk&Hc). exists k, c.
    split; [done|]. destruct Hc as [->|Hc]; [by left|by right].
Qed.
End gcc_spec.

Section phy_spec.
Context {D : Type} `{PhyServices D} `{Mmio phy_reg D}.
Abbreviation world := (plogged D).
#[local] Instance qmp_logged : Logged (qmp_combo * world) pevent := λ s, pl_log s.2.
Abbreviation logs := (does_or (S:=qmp_combo * world) pvis phalts).

Lemma service_logged c (s : world) :
  phy_service c s = (let (r, d) := phy_service c (pl_dev s) in
                     (r, PLogged d (pl_log s ++ [PCall c r]))).
Proof. done. Qed.

Lemma qcall_logged c : logs [granted c] (qcall c).
Proof.
  apply does_or_one. intros [q s]. unfold qcall, qdev, try_. rewrite service_logged.
  destruct (phy_service c (pl_dev s)) as [r d]. exists (PCall c r).
  destruct (Z.eqb_spec r 0) as [->|Hr]; done.
Qed.

Lemma qresume_logged :
  logs [λ e, ∃ r, 0 ≤ r ∧ e = PCall pm_runtime_resume_and_get r] qresume.
Proof.
  apply does_or_one. intros [q s]. unfold qresume, qdev. rewrite service_logged.
  destruct (phy_service _ (pl_dev s)) as [r d]. exists (PCall pm_runtime_resume_and_get r).
  destruct (Z.ltb_spec r 0); cbn; (split; [done|]); (split; [done|]); [lia|eauto].
Qed.

Lemma qread_logged {A} a (P : Z → Prop) (k : Z → M (qmp_combo * world) A) Ps :
  (∀ v s, 0 ≤ v < 2 ^ 32 → (∃ e, k v s = (Err e, s)) ∨ P v) →
  (∀ v, P v → logs Ps (k v)) →
  logs ((λ e, ∃ v, e = PReg (Rd a v) ∧ P v) :: Ps) (bind (qdev (readl a)) k).
Proof.
  intros Hr Hk [q s]. unfold bind, qdev, readl. simpl.
  destruct (dev_read a (pl_dev s)) as [v d]. set (s1 := (q, PLogged d _)).
  destruct (Hr (u32 v) s1 (u32_range v)) as [[e Ee]|Hv].
  - rewrite Ee. exists [PReg (Rd a (u32 v))]. split; [done|]. exists 0%nat, [refused].
    split; [by apply matches_one|]. right. by left.
  - destruct (Hk _ Hv s1) as (t&Ht&Hr'). exists (PReg (Rd a (u32 v)) :: t).
    rewrite Ht. split; [by unfold get_log, qmp_logged; simpl; rewrite <- app_assoc|].
    assert (matches pvis [λ e, ∃ v, e = PReg (Rd a v) ∧ P v] [PReg (Rd a (u32 v))])
      as Hm by (apply matches_one; eauto).
    destruct (k (u32 v) s1).1; [by apply (matches_app _ [_] _ [_])| |done].
    destruct Hr' as (n&c&Hn&Hc). exists (S n), c. split; [|done].
    by apply (matches_app _ [_] _ [_]).
Qed.

Lemma qwrite_logged v a :
  0 ≤ v < 2 ^ 32 → logs [λ e, e = PReg (Wr a v)] (qdev (writel v a)).
Proof.
  intros Hv [q s]. exists [PReg (Wr a v)]. unfold qdev, writel. simpl.
  rewrite u32_small by done. split; [done|]. by apply matches_one.
Qed.

Lemma qnote_logged f : logs [] (qnote f).
Proof.
  intros [q s]. exists []. rewrite app_nil_r. split; [done|]. constructor.
Qed.

Lemma prepare_logged q : logs (phy_script X1_DIAG_PHY_PREPARE) (phy_prepare q).
Proof.
  unfold phy_prepare. destruct (q_x1_diag_attempted q); [apply does_does_or, does_fail|].
  apply (does_or_bind _ _ []); [apply qnote_logged|intros _].
  apply (does_or_bind _ _ [_]); [apply qresume_logged|intros _].
  do 4 (apply (does_or_bind _ _ [_]); [apply qcall_logged|intros _]).
  apply qread_logged.
  { intros v s _. destruct (tst v _) eqn:Ev; [left; by eexists|by right]. }
  intros v ->. apply (does_or_bind _ _ [_]); [by apply qwrite_logged|intros _].
  apply qread_logged.
  { intros w s _. destruct (Z.eqb_spec (w .& CLAMP_EN) CLAMP_EN); [by right|left; by eexists]. }
  intros w ->. apply qnote_logged.
Qed.

(** [m], started with the driver record [q0], ends with a result and a record
    related by [Q]; calls through the device leave the record alone. *)
Definition leaves {B} (q0 : qmp_combo) (Q : res B → qmp_combo → Prop)
    (m : M (qmp_combo * world) B) : Prop :=
  ∀ s, Q (m (q0, s)).1 (m (q0, s)).2.1.

Lemma leaves_dev {A B} q0 (Q : res B → qmp_combo → Prop) (m : M world A) k :
  (∀ e, Q (Err e) q0) → Q Fault q0 → (∀ a, leaves q0 Q (k a)) → leaves q0 Q (bind (qdev m) k).
Proof.
  intros He Hf Hk s. unfold bind, qdev. destruct (m s) as [[a|e|] s']; [apply Hk|apply He|apply Hf].
Qed.

Lemma leaves_note {B} q0 (Q : res B → qmp_combo → Prop) f k :
  leaves (f q0) Q (k tt) → leaves q0 Q (bind (qnote f) k).
Proof. intros Hk s. apply Hk. Qed.

(** PREPARE sets the attempt latch before anything else, the prepared latch at
    the very end, and no other field. *)
Definition phy_after (q : qmp_combo) (r : res unit) : qmp_combo :=
  if q_x1_diag_attempted q then q else
  q <| q_x1_diag_attempted := true |>
    <| q_x1_diag_prepared :=
         q_x1_diag_prepared q || match r with Ok _ => true | _ => false end |>.

Lemma prepare_latches q : leaves q (λ r q', q' = phy_after q r) (phy_prepare q).
Proof.
  unfold phy_prepare, phy_after. destruct (q_x1_diag_attempted q) eqn:Ea; [by intros s|].
  apply leaves_note. set (q1 := q <| q_x1_diag_attempted := true |>).
  assert (q1 = q1 <| q_x1_diag_prepared := q_x1_diag_prepared q || false |>) as Hq
    by (rewrite orb_false_r; by destruct q).
  do 5 (apply leaves_dev; [done|done|intros ?]).
  apply leaves_dev; [done|done|intros mode].
  destruct (tst mode _); [by intros ?|].
  do 2 (apply leaves_dev; [done|done|intros ?]).
  destruct (_ !=? _); [by intros ?|].
  intros s'. cbn. by rewrite orb_true_r.
Qed.

(** The handle is the USB4 PHY of the one X1 port with the expected resources,
    and nobody has initialised or powered it yet. *)
Definition phy_mine (p : nat) (q : qmp_combo) : bool :=
  q_cfg_x1 q && bool_decide (p = q_usb4_phy q) && q_at_node q && (q_usb4_rx_eq q =? 0x6f) &&
  q_usb4_dp_aux q && q_p2rr2p_pipe_clk q && (q_num_resets q =? 2).
Definition phy_idle (q : qmp_combo) : bool :=
  (q_usb_init_count q =? 0) && (q_dp_init_count q =? 0) && (q_usb4_init_count q =? 0) &&
  (q_init_count q =? 0) && negb (q_com_powered_on q).

(** The step that runs once the guards of [x1_diag_phy_apply] have passed. *)
Definition phy_granted (op : x1_diag_phy_op) (q : qmp_combo) : M (qmp_combo * world) unit :=
  match op with
  | X1_DIAG_PHY_PREPARE => phy_prepare q
  | X1_DIAG_PHY_DP_ASSERT =>
      if q_x1_diag_prepared q then qcall common_reset_assert else fail (-EPERM)
  | X1_DIAG_PHY_DP_CLEAR =>
      if q_x1_diag_prepared q then qcall common_reset_deassert else fail (-EPERM)
  end.

Lemma phy_apply_unfold allowed phy op q s :
  (∃ p, phy = Some (p, true) ∧ allowed = true ∧ phy_mine p q = true ∧ phy_idle q = true ∧
     x1_diag_phy_apply allowed phy op (q, s) = phy_granted op q (q, s)) ∨
  ∃ e, e ∈ [-EPERM; -EINVAL; -EBUSY] ∧
     x1_diag_phy_apply allowed phy op (q, s) = (Err e, (q, s)).
Proof.
  assert (∀ e, e ∈ [-EPERM; -EINVAL; -EBUSY] →
    ∃ e', e' ∈ [-EPERM; -EINVAL; -EBUSY] ∧ (Err e, (q, s)) = (Err e' : res unit, (q, s))) as He
    by eauto.
  destruct phy as [[p dv]|]; [|right; apply He; by left]. unfold x1_diag_phy_apply.
  destruct allowed; [|right; apply He; by left]. cbn [negb].
  if_case E1; [right; apply He; right; by left|].
  if_case E2; [right; apply He; right; by left|].
  if_case E3; [right; apply He; do 2 right; by left|].
  repeat match goal with
  | H : _ || _ = false |- _ => apply orb_false_iff in H as [? ?]
  | H : negb _ = false |- _ => apply negb_false_iff in H
  | H : bool_decide (_ ≠ _) = false |- _ => apply bool_decide_eq_false in H; apply dec_stable in H
  end.
  left. exists p. unfold phy_mine, phy_idle. subst.
  rewrite !andb_true_iff, negb_true_iff, bool_decide_eq_true. split_and!; try done.
  by destruct op; cbn [phy_granted]; destruct (q_x1_diag_prepared q).
Qed.

Lemma granted_logged op q : logs (phy_script op) (phy_granted op q).
Proof.
  destruct op; [apply prepare_logged|..]; simpl; destruct (q_x1_diag_prepared q);
    try apply qcall_logged; apply does_does_or, does_fail.
Qed.

Lemma errs_qdev {A} P (m : M world A) : errs P m → errs P (qdev m).
Proof.
  intros Hm [q s] e s'. unfold qdev. destruct (m s) as [r d] eqn:E. intros [= -> _]. by eapply Hm.
Qed.

Lemma errs_granted op q : errs (λ e, e ≠ 0) (phy_granted op q).
Proof.
  assert (∀ c, errs (λ e, e ≠ 0) (qcall (D:=world) c)) as Hc.
  { intros c. apply errs_qdev. intros s e s'. unfold try_. destruct (phy_service c s) as [r d].
    destruct (Z.eqb_spec r 0); [done|]. by intros [= <- _]. }
  assert (∀ a, errs (λ e, e ≠ 0) (qdev (readl (D:=world) a))) as Hr
    by (intros a; apply errs_qdev; intros s e s'; unfold readl; by destruct (dev_read a s)).
  assert (errs (λ e, e ≠ 0) (qresume (D:=world))) as Hp.
  { apply errs_qdev. intros s e s'. destruct (phy_service _ s) as [r d].
    destruct (Z.ltb_spec r 0); [|done]. intros [= <- _]. lia. }
  assert (∀ f, errs (λ e, e ≠ 0) (qnote (D:=world) f)) as Hn by by intros f [q' s] e s'.
  destruct op; simpl; unfold phy_prepare; errs_auto; try done.
  by intros [q' s] e s'.
Qed.

(** One operation of the PHY provider, for every behaviour of the power
    services and registers.  It either is refused with nothing accessed and
    nothing changed, or runs on the idle USB4 PHY of the right port.  There
    PREPARE runs at most once (the latch is set first, whatever follows) and
    grants the DP reset operations only when its whole script went through:
    power, regulators, clocks in order, the tunnelling clock seen off, and the
    clamp written and read back; a failure keeps what was enabled and
    touches nothing more, apart from the one call that was refused.  No
    other field of the driver changes. *)
Theorem phy_apply_outcomes allowed phy op q (s : world) :
  let out := x1_diag_phy_apply allowed phy op (q, s) in
  (∃ e, e < 0 ∧ out = (Err e, (q, s))) ∨
  ∃ p t, phy = Some (p, true) ∧ allowed = true ∧ phy_mine p q = true ∧ phy_idle q = true ∧
    pl_log out.2.2 = pl_log s ++ t ∧
    (match op with
     | X1_DIAG_PHY_PREPARE => q_x1_diag_attempted q = false ∧ out.2.1 = phy_after q out.1
     | _ => q_x1_diag_prepared q = true ∧ out.2.1 = q
     end) ∧
    match out.1 with
    | Ok _ => matches pvis (phy_script op) t
    | Err _ => ∃ k c, matches pvis (take k (phy_script op) ++ c) t ∧ c ∈ [[]; [refused]]
    | Fault => False
    end.
Proof.
  intros out. subst out.
  destruct (phy_apply_unfold allowed phy op q s) as [(p&->&->&Hm&Hi&E)|(e&He&E)].
  2: { left. exists e. split; [|exact E]. set_unfold. destruct He as [->|[->|[->|[]]]]; done. }
  rewrite E. destruct (granted_logged op q (q, s)) as (t&Ht&Hr).
  destruct (match op with X1_DIAG_PHY_PREPARE => negb (q_x1_diag_attempted q)
            | _ => q_x1_diag_prepared q end) eqn:Hd.
  - right. exists p, t. split_and!; [done..| |].
    + destruct op; simpl in *; [apply negb_true_iff in Hd; split; [done|]; apply prepare_latches|..];
        rewrite Hd; (split; [done|]); unfold qcall, qdev; by destruct (try_ _ _).
    + destruct (phy_granted op q (q, s)).1; [done| |done]. destruct Hr as (k&c&Hk&Hc).
      exists k, c. split; [done|]. destruct Hc as [->|Hc]; [by left|by right].
  - left. destruct op; simpl in *.
    + apply negb_false_iff in Hd. exists (-EALREADY). unfold phy_prepare. by rewrite Hd.
    + rewrite Hd. by exists (-EPERM).
    + rewrite Hd. by exists (-EPERM).
Qed.
End phy_spec.
