(* ===== verification/Frontend.v ===== *)
(** * The RAM-only MCU experiment driver (snapshot/module/frontend.c)

    The driver behind the cold-start sequencer: it implements the five
    callbacks of Startup.v on the router's register window with the helpers of
    Mcu.v, Drom.v and Typec.v, and owns the one attempt of a boot.

    Fields of [struct probe] that are set before the first hardware access and
    never written again ([mcu], [cfg], [fw]) are the record [probe]; those the
    callbacks write are the record [fe], beside the world [W].  Calls into
    other kernel subsystems are values of [kcall]; what they do to the world
    and return (an errno and an output word) is the class [Kernel]. *)

From S2P Require Import Prelude Fw Drom Mcu Startup Typec Board.

Inductive kcall :=
| KGccApply (op : x1_diag_gcc_op)
| KPhyApply (op : x1_diag_phy_op)
| KPinSelect (pin : Z)
| KRegmapUpdate (reg mask value : Z)
| KRegmapRead (reg : Z)
| KPhySetMode
| KPhyInit
| KUdelay (us : Z)
| KUsleepRange (lo hi : Z)
| KGccClaim
| KIccApps (mbps : Z)
| KIccDdr (mbps : Z)
| KPmEnable
| KPmResume
| KClkRate (i : Z)
| KClkEnable
| KNhiRun
| KLinkRegister
| KLinkStop
| KCreateFile (name : string).

Class Kernel (W : Type) := k_call : kcall → W → Z * Z * W.

(** The other subsystems have their own registers: the log of the router's
    window does not see them. *)
#[export] Instance traced_kernel {D} `{Kernel D} : Kernel (traced Z D) := λ c s,
  let '(r, v, d) := k_call c (hw s) in (r, v, Traced d (log s)).

Record probe := Probe {
  p_mcu : qcom_usb4_mcu;
  p_cfg : x1_config;
  p_fw : list Z;
}.

Record fe (W : Type) := Fe {
  fe_hw : W;
  fe_shared : Z;
  fe_stage : string;
  fe_reference_read_complete : bool;
}.
Arguments Fe {_} _ _ _ _.
Arguments fe_hw {_} _.
Arguments fe_shared {_} _.
Arguments fe_stage {_} _.
Arguments fe_reference_read_complete {_} _.
#[export] Instance fe_eta {W} : Eta (fe W) := λ f,
  Fe (fe_hw f) (fe_shared f) (fe_stage f) (fe_reference_read_complete f).

#[export] Instance x1_config_eq_dec : EqDecision x1_config.
Proof. solve_decision. Defined.

(** A computation used where C wants an [int]; [Fault] never reaches it, see
    [safe] below. *)
Definition as_int {S} (m : M S unit) : S → Z * S := λ s,
  let (r, s') := m s in (code r, s').

(** [a || b || ... ? -err : 0]: the first failing check decides. *)
Definition or_else {S} (e : Z) (m : M S unit) : M S unit := λ s,
  match m s with
  | (Err _, s') => (Err e, s')
  | r => r
  end.

Section frontend.
Context (crc32c : Z → list Z → Z).
Context (reference_only : bool).
Context (start_polls command_polls : nat).
Context {W : Type} `{Mmio Z W} `{Kernel W}.

(** Register accesses and kernel calls, on the world inside [fe]. *)
Definition on_hw {A} (m : M W A) : M (fe W) A := λ f,
  let (r, w) := m (fe_hw f) in (r, f <| fe_hw := w |>).

Definition kern (c : kcall) : M (fe W) Z := λ f,
  let '(r, v, w) := k_call c (fe_hw f) in
  ((if r =? 0 then Ok v else Err r), f <| fe_hw := w |>).

(** A call whose result the code ignores. *)
Definition kvoid (c : kcall) : M (fe W) unit := λ f,
  let '(_, _, w) := k_call c (fe_hw f) in (Ok tt, f <| fe_hw := w |>).

Definition read_router (offset : Z) : M (fe W) Z :=
  if tst offset 3 || (0x100000 - 4 <? offset) then fail (-EINVAL) else
  on_hw (readl offset).

Definition check_router (offset mask expected : Z) : M (fe W) unit :=
  let! actual := on_hw (readl offset) in
  if actual .& mask =? expected then ret tt else fail (-EIO).

Definition update_router (offset mask value : Z) : M (fe W) unit :=
  let! old_value := read_router offset in
  if tst value (not32 mask) then fail (-EINVAL) else
  do! on_hw (writel ((old_value .& not32 mask) .| value) offset) in
  if offset !=? 0x1200c then or_else (-EIO) (check_router offset mask value) else ret tt.

Definition delay_us (us : Z) : M (fe W) unit :=
  if us <? 20 then kvoid (KUdelay us) else kvoid (KUsleepRange us (us + us / 10 + 10)).

(** [cfg != &p->cfg] compares the records; the sequencer passes on the pointer
    it was given. *)
Definition owner (p : probe) (cfg : x1_config) : M (fe W) unit :=
  if bool_decide (cfg ≠ p_cfg p) || bool_decide (cfg_firmware cfg ≠ Some (p_fw p))
  then fail (-EINVAL) else
  or_else (-EBUSY)
    (do! check_router 0x78640 U32_MAX 3 in
     do! check_router 0x22000 U32_MAX 0 in
     do! check_router 0x18 U32_MAX 0 in
     do! check_router 0x22010 U32_MAX 0 in
     check_router 0x2201c U32_MAX 0).

(** [while (words--)] of the recheck; [offset] is a [u32]. *)
Fixpoint verify_words (data : list Z) (words : nat) (offset pos : Z) : M (fe W) Z :=
  match words with
  | O => ret pos
  | S words =>
      let! v := lift (get_unaligned_le32 data pos) in
      do! or_else (-EIO) (check_router (u32 (0x13000 + offset)) U32_MAX v) in
      verify_words data words (u32 (offset + 4)) (pos + 4)
  end.

(** [while (pos < p->fw->size)] *)
Fixpoint verify_records (data : list Z) (fuel : nat) (pos : Z) : M (fe W) unit :=
  match fuel with
  | O => fault
  | S fuel =>
      if pos <? Z.of_nat (length data) then
        let! offset := lift (get_unaligned_le32 data pos) in
        let! words := lift (get_unaligned_le32 data (pos + 4)) in
        let! pos := verify_words data (Z.to_nat words) offset (pos + 8) in
        verify_records data fuel pos
      else ret tt
  end.

Definition upload_checked (p : probe) : M (fe W) unit :=
  do! on_hw (qcom_usb4_mcu_upload (Some (p_mcu p)) (Some (p_fw p))
               (Z.of_nat (length (p_fw p)))) in
  do! verify_records (p_fw p) (S (length (p_fw p))) 0 in
  or_else (-EBUSY) (check_router 0x22000 U32_MAX 0).

(** [drom] is a local array of 116 bytes. *)
Definition store_drom (p : probe) : M (fe W) unit :=
  let! drom := lift (qcom_usb4_x1_drom_build crc32c (Some (replicate 116 0))
                       QCOM_USB4_DROM_SIZE (cfg_serial (p_cfg p)) 0) in
  if (drom_offset (p_mcu p) !=? 0xdf20) ||
     (u64 (ram_size (p_mcu p) - 0xdf20) <? QCOM_USB4_DROM_SIZE) then fail (-EINVAL) else
  let! control := on_hw (readl 0x22000) in
  if control !=? 0 then fail (-EINVAL) else
  let! hi := lift (get_unaligned_le32 drom 5) in
  let! lo := lift (get_unaligned_le32 drom 1) in
  do! on_hw (writel hi 0x801c) in
  do! on_hw (writel lo 0x8020) in
  do! or_else (-EIO) (do! check_router 0x801c U32_MAX hi in check_router 0x8020 U32_MAX lo) in
  do! for_each drom_words (λ i,
        let! v := lift (get_unaligned_le32 drom i) in on_hw (writel v (0x20f20 + i))) in
  for_each drom_words (λ i,
        let! v := lift (get_unaligned_le32 drom i) in
        or_else (-EIO) (check_router (0x20f20 + i) U32_MAX v)).

Definition mcu_snapshot (p : probe) : M (fe W) unit :=
  do! on_hw (readl (control_offset (p_mcu p))) in
  do! on_hw (readl 0x18) in
  do! on_hw (readl (shared_offset_reg (p_mcu p))) in
  do! on_hw (readl (control_offset (p_mcu p) + 0xc)) in
  ret tt.

(** [m; mcu_snapshot(); return ret], whatever [m] returned. *)
Definition with_snapshot (p : probe) (m : M (fe W) unit) : M (fe W) unit := λ f,
  match m f with
  | (Fault, f) => (Fault, f)
  | (r, f) => (r, (mcu_snapshot p f).2)
  end.

Definition select_rx_source : M (fe W) unit :=
  if negb reference_only then do! kern (KGccApply X1_GCC_RX_PHY) in ret tt else
  do! read_router 0x1200c in
  do! modify (λ f, f <| fe_reference_read_complete := true |>) in
  fail (-ECANCELED).

(** Six clocks; their rates are only reported. *)
Definition enable_clocks : M (fe W) unit :=
  do! for_each [0; 1; 2; 3; 4; 5] (λ i, kvoid (KClkRate i)) in
  do! kern KClkEnable in
  for_each [0; 1; 2; 3; 4; 5] (λ i, kvoid (KClkRate i)).

(** [qcom_usb4_mcu_start(&p->mcu, &p->shared)] *)
Definition mcu_start (p : probe) : M (fe W) unit := λ f,
  let '(r, sh, w) := qcom_usb4_mcu_start start_polls (Some (p_mcu p))
                       (Some (fe_shared f)) (fe_hw f) in
  (r, f <| fe_hw := w |> <| fe_shared := default (fe_shared f) sh |>).

(** [qcom_usb4_typec_preset_command(preset, &command)] *)
Definition preset_command (preset : Z) : res Z :=
  match qcom_usb4_typec_preset_command preset (Some 0) with
  | (Ok _, Some command) => Ok command
  | (Ok _, None) => Fault
  | (Err e, _) => Err e
  | (Fault, _) => Fault
  end.

Definition step_body (p : probe) (op : x1_step) (cfg : x1_config) : M (fe W) unit :=
  let G g := do! kern (KGccApply g) in ret tt in
  let pin n := do! kern (KPinSelect n) in ret tt in
  match op with
  | X1_PHY_PREPARE => do! kern (KPhyApply X1_DIAG_PHY_PREPARE) in ret tt
  | X1_RX_PREPARE => pin 0
  | X1_TXB_PREPARE => pin 1
  | X1_TXA_PREPARE => pin 2
  | X1_RX_ACTIVE => pin 3
  | X1_TXB_ACTIVE => pin 4
  | X1_TXA_ACTIVE => pin 5
  | X1_RX_CLOCK_REFERENCE => G X1_GCC_RX_REFERENCE
  | X1_RX_CLOCK_PHY => select_rx_source
  | X1_MISC_RESET_ASSERT => G X1_GCC_MISC_ASSERT
  | X1_MISC_RESET_CLEAR => G X1_GCC_MISC_CLEAR
  | X1_EXTRA_RESET_ASSERT => G X1_GCC_EXTRA_ASSERT
  | X1_EXTRA_RESET_CLEAR => G X1_GCC_EXTRA_CLEAR
  | X1_PIPE_RESET_ASSERT => G X1_GCC_PIPE_ASSERT
  | X1_PIPE_RESET_CLEAR => G X1_GCC_PIPE_CLEAR
  | X1_SYS_READY => G X1_GCC_SYS_READY
  | X1_SYS_MEMORY_FORCE => G X1_GCC_MEMORY_FORCE
  | X1_PIPE_HWCG_OFF => G X1_GCC_HWCG_OFF
  | X1_DP_RESET_ASSERT => do! kern (KPhyApply X1_DIAG_PHY_DP_ASSERT) in ret tt
  | X1_DP_RESET_CLEAR => do! kern (KPhyApply X1_DIAG_PHY_DP_CLEAR) in ret tt
  | X1_TCSR_ROUTE =>
      do! kern (KRegmapUpdate 0x1b000 (BIT 0) (BIT 0)) in
      let! route := kern (KRegmapRead 0x1b000) in
      if tst route (BIT 0) then ret tt else fail (-EIO)
  | X1_UPLOAD => upload_checked p
  | X1_DROM => store_drom p
  | X1_PHY_COMPOSITE => do! kern KPhySetMode in do! kern KPhyInit in ret tt
  | X1_MCU_START => with_snapshot p (mcu_start p)
  | X1_PRESET =>
      with_snapshot p
        (let! command := lift (preset_command (cfg_mcu_preset cfg)) in
         on_hw (qcom_usb4_mcu_command command_polls (Some (p_mcu p)) command 10000))
  | _ => fail (-EINVAL)
  end.

Definition step (p : probe) (op : x1_step) (cfg : x1_config) : M (fe W) unit :=
  do! modify (λ f, f <| fe_stage := x1_step_name op |>) in
  step_body p op cfg.

(** [static const struct x1_ops ops] *)
Definition ops (p : probe) : x1_ops (fe W) := {|
  ops_owner cfg := as_int (owner p cfg);
  ops_step op cfg := as_int (step p op cfg);
  ops_read off f := match read_router off f with
                    | (Ok v, f) => (0, v, f)
                    | (r, f) => (code r, 0, f)
                    end;
  ops_update o m v := as_int (update_router o m v);
  ops_delay_us us f := (delay_us us f).2;
|}.
End frontend.

(** ** Identity and the one attempt *)

(** What the lookups of [identity] and [probe] find.  A lookup that returns an
    error pointer is [inl]; a NULL result is [false]. *)
Definition ptr {A} (r : Z + A) : res A := match r with inl e => Err e | inr a => Ok a end.

Record facts := {
  f_run : bool;
  f_config : string → tristate;
  f_tree : tree;
  f_empty_phyc : bool;
  (** [phys] phandle: error, or (is it phy@fd5000, count, first argument). *)
  f_phys : Z + (bool * Z * Z);
  f_phy_available : bool;
  f_phy_compatible : bool;
  f_rx_eq : option Z;
  (** [qcom,tcsr]: compatible, and its first resource (start, size). *)
  f_tcsr : option (bool * option (Z * Z));
  f_resource : option (Z * Z);
  f_zalloc : bool;
  f_ioremap : Z + Z;
  f_phy_get : Z + unit;
  f_syscon : Z + unit;
  f_icc_apps : Z + bool;
  f_pm_domain : bool;
  f_icc_ddr : Z + bool;
  f_clk_bulk_get : Z + unit;
  f_pinctrl : Z + unit;
  f_pins : list (Z + unit);
  (** SMEM socinfo: its size, and the serial number word in it. *)
  f_smem : Z + (Z * Z);
  f_serial_end : Z;
  f_firmware : Z + list Z;
}.

(** [qmp_usb4] is the binding constant QMP_USB43DP_USB4_PHY. *)
Definition identity (qmp_usb4 : Z) (f : facts) : res unit :=
  if negb (f_run f) || negb (x1_diag_board_allowed (f_config f) (f_tree f)) ||
     negb (f_empty_phyc f) then Err (-EPERM) else
  let? args := ptr (f_phys f) in
  let '(expected, count, arg) := args in
  if negb (expected && (count =? 1) && (arg =? qmp_usb4) && f_phy_available f &&
           f_phy_compatible f && bool_decide (f_rx_eq f = Some 0x6f))
  then Err (-EINVAL) else
  match f_tcsr f with
  | Some (true, Some (start, size)) =>
      if (start =? 0x1fc0000) && (size =? 0x30000) then Ok tt else Err (-EINVAL)
  | _ => Err (-EINVAL)
  end.

Definition firmware_sha256 : list Z := [
  0xcd;0x4f;0x59;0x29;0xb5;0x1f;0x2d;0xbb;0x0b;0x58;0x36;0x93;0xff;0x8d;0x02;0x45;
  0x21;0xc8;0x7f;0x0d;0x2e;0x45;0xc7;0xad;0xc1;0x42;0xfe;0xd9;0x76;0x65;0x0b;0x99 ].

(** [qcom_usb4_mcu_init(&p->mcu, ...)] on the zeroed allocation. *)
Definition init_mcu (base : Z) : res qcom_usb4_mcu :=
  match qcom_usb4_mcu_init base 0x100000 0xf000 QCOM_USB4_MCU_LEGACY (Some mcu_zero) with
  | (Ok _, Some m) => Ok m
  | (Ok _, None) => Fault
  | (Err e, _) => Err e
  | (Fault, _) => Fault
  end.

(** [probe] from the resource check to [qcom_usb4_mcu_init]: no hardware is
    touched.  A released firmware leaves nothing behind. *)
Definition probe_setup (sha256 : list Z → list Z) (f : facts) : res probe :=
  if negb (bool_decide (f_resource f = Some (0x15600000, 0x100000))) then Err (-EINVAL) else
  if negb (f_zalloc f) then Err (-ENOMEM) else
  let? base := ptr (f_ioremap f) in
  let? _ := ptr (f_phy_get f) in
  let? _ := ptr (f_syscon f) in
  let? apps := ptr (f_icc_apps f) in
  if negb apps || negb (f_pm_domain f) then Err (-ENODEV) else
  let? ddr := ptr (f_icc_ddr f) in
  if negb ddr then Err (-ENODEV) else
  let? _ := ptr (f_clk_bulk_get f) in
  let? _ := ptr (f_pinctrl f) in
  let? _ := rmap ptr (f_pins f) in
  let? info := ptr (f_smem f) in
  let '(size, serial) := info in
  if (size <? f_serial_end f) || (serial =? 0) then Err (-ENODEV) else
  let? fw := ptr (f_firmware f) in
  if (Z.of_nat (length fw) !=? 40816) || negb (bool_decide (sha256 fw = firmware_sha256))
  then Err (-EKEYREJECTED) else
  let? _ := qcom_usb4_fw_validate (Some fw) (Z.of_nat (length fw)) 0xf000 in
  let? mcu := init_mcu base in
  Ok (Probe mcu {| cfg_firmware := Some fw; cfg_firmware_size := Z.of_nat (length fw);
                   cfg_serial := serial; cfg_router := 0; cfg_phy_rx_eq := 0x6f;
                   cfg_mcu_preset := 0x0c63; cfg_reset_release_us := 100 |} fw).

Section module.
Context (crc32c : Z → list Z → Z) (sha256 : list Z → list Z) (qmp_usb4 : Z).
Context (reference_only : bool) (start_polls command_polls : nat).
Context {W : Type} `{Mmio Z W} `{Kernel W}.

(** The hardware part of [probe], up to [finish:]. *)
Definition at_stage (name : string) : M (x1_state * fe W) unit :=
  modify (λ '(st, f), (st, f <| fe_stage := name |>)).
Definition on_fe {A} (m : M (fe W) A) : M (x1_state * fe W) A := λ '(st, f),
  let (r, f) := m f in (r, (st, f)).

(** [pm_runtime_resume_and_get]: only a negative result stops. *)
Definition pm_resume : M (fe W) unit := λ f,
  let '(r, _, w) := k_call KPmResume (fe_hw f) in
  ((if r <? 0 then Err r else Ok tt), f <| fe_hw := w |>).

Definition probe_sequence (p : probe) : M (x1_state * fe W) unit :=
  do! at_stage "interconnect" in
  do! on_fe (kern (KIccApps 40)) in
  do! on_fe (kvoid KPmEnable) in
  do! at_stage "router-power" in
  do! on_fe pm_resume in
  do! at_stage "router-clocks" in
  do! on_fe enable_clocks in
  do! at_stage "sequence" in
  do! x1_startup_run crc32c (Some (p_cfg p))
        (Some (ops crc32c reference_only start_polls command_polls p)) in
  do! at_stage "ddr-interconnect" in
  do! on_fe (kern (KIccDdr 40)) in
  do! at_stage "NHI_CONTROL" in
  on_error (do! on_fe (kern KNhiRun) in do! on_fe (kern KLinkRegister) in ret tt)
    (on_fe (kvoid KLinkStop)).

(** [p->error = ret < 0 ? ret : ret ? -EPROTO : 0] *)
Definition settle (ret : Z) : Z := if ret <? 0 then ret else if ret !=? 0 then -EPROTO else 0.

(** Module state: the latch, and what a probe left in its driver data. *)
Record bound := Bound {
  b_probe : probe;
  b_state : x1_state;
  b_shared : Z;
  b_stage : string;
  b_reference_read_complete : bool;
  b_error : Z;
}.
Record module := Module { attempted : bool; drvdata : option bound; world : W }.

(** From [__module_get] on: the result files and the final [return 0]. *)
Definition probe_attempt (p : probe) (m : module) : module :=
  let f0 := Fe (world m) 0 "" false in
  let '(r, (st, f)) := probe_sequence p (X1State X1_NEW X1_NONE X1_NONE 0, f0) in
  let error := settle (code r) in
  let '(_, _, w) := k_call (KCreateFile "result") (fe_hw f) in
  let '(r2, _, w) := k_call (KCreateFile "control_stop") w in
  let w := if r2 =? 0 then w else (k_call KLinkStop w).2 in
  Module (attempted m)
    (Some (Bound p st (fe_shared f) (fe_stage f) (fe_reference_read_complete f) error)) w.

Definition probe_run (f : facts) : M module unit := λ m,
  match identity qmp_usb4 f with
  | Err e => (Err e, m)
  | Fault => (Fault, m)
  | Ok _ =>
      if attempted m then (Err (-EALREADY), m) else
      let m := Module true (drvdata m) (world m) in
      match probe_setup sha256 f with
      | Err e => (Err e, m)
      | Fault => (Fault, m)
      | Ok p =>
          let '(r, _, w) := k_call KGccClaim (world m) in
          let m := Module (attempted m) (drvdata m) w in
          if r =? 0 then (Ok tt, probe_attempt p m) else (Err r, m)
      end
  end.

(** [link_connect]: the callback registered with the NHI part. *)
Definition link_connect (b : bound) (nhi_complete allowed link_test : bool) (word : Z)
    : M (fe W) unit :=
  if (b_error b !=? 0) || negb nhi_complete || negb allowed || negb link_test ||
     ((word !=? 0x2501) && (word !=? 0x2701)) then fail (-EPERM) else
  with_snapshot (b_probe b)
    (on_hw (qcom_usb4_mcu_command command_polls (Some (p_mcu (b_probe b))) word 10000)).

(** The [result] attribute: which of the two lines it prints, and its fields. *)
Inductive result_line :=
| REFERENCE_READ_COMPLETE
| CONTROL (failed : bool) (stage active completed : string) (errno shared : Z).

Definition result_show (b : bound) : result_line :=
  if reference_only && b_reference_read_complete b && (b_error b =? -ECANCELED)
  then REFERENCE_READ_COMPLETE
  else CONTROL (b_error b !=? 0) (b_stage b) (x1_step_name (st_active (b_state b)))
         (x1_step_name (st_completed (b_state b))) (b_error b) (b_shared b).

Definition newline : string := String.String (Ascii.ascii_of_nat 10) EmptyString.

(** [control_stop]: only "1" (sysfs_streq accepts a trailing newline) stops. *)
Definition control_stop_store (buf : string) : M module Z := λ m,
  if bool_decide (buf = "1") || bool_decide (buf = ("1" +:+ newline))
  then (Ok (Z.of_nat (String.length buf)),
        Module (attempted m) (drvdata m) (k_call KLinkStop (world m)).2)
  else (Err (-EINVAL), m).
End module.

(** ** The script

    The abstract specification of a cold start: the writes it makes to the
    router window in order, with the read-backs of MCU RAM between them.
    Writes to the self-clearing 0x1200c, whose number the hardware decides,
    and reads elsewhere are not part of it. *)

Definition scripted (e : access Z) : bool :=
  match e with
  | Wr a _ => a !=? 0x1200c
  | Rd a _ => (0x13000 <=? a) && (a <? 0x22000)
  end.

Definition field (offset mask value : Z) (e : access Z) : Prop :=
  ∃ w, e = Wr offset w ∧ w .& mask = value.

(** How a failing run may end beyond a prefix of the script: with the one
    read-back that differed, or with the MCU being stopped. *)
Definition mismatch : list (access Z → Prop) := [λ e, ∃ a v, e = Rd a v].
Definition mcu_halt : list (access Z → Prop) :=
  [field 0x22000 QCOM_USB4_MCU_RUN 0; field QCOM_USB4_MCU_HOST_CONTROL QCOM_USB4_MCU_READY 0].

Section script.
Context (crc32c : Z → list Z → Z) (rs : list record) (serial : Z).

Definition x1_drom : list Z := descriptor crc32c x1_table serial 0.

Definition upload_script : list (access Z → Prop) :=
  eq (Wr 0x22000 0) ::
  ((λ p, eq (Wr (0x13000 + p.1) p.2)) <$> image_writes rs) ++
  ((λ p, eq (Rd (0x13000 + p.1) p.2)) <$> image_writes rs).

Definition drom_script : list (access Z → Prop) :=
  eq (Wr 0x801c (word_at x1_drom 5)) :: eq (Wr 0x8020 (word_at x1_drom 1)) ::
  ((λ i, eq (Wr (0x20f20 + i) (word_at x1_drom i))) <$> drom_words) ++
  ((λ i, eq (Rd (0x20f20 + i) (word_at x1_drom i))) <$> drom_words).

Definition row_script (op : operation) : list (access Z → Prop) :=
  match o_kind op with
  | UPDATE => [field (o_offset op) (o_mask op) (o_value op)]
  | PROVIDER =>
      match o_step op with
      | X1_UPLOAD => upload_script
      | X1_DROM => drom_script
      | X1_MCU_START => [field QCOM_USB4_MCU_HOST_CONTROL QCOM_USB4_MCU_READY 0;
                         field 0x22000 QCOM_USB4_MCU_RUN QCOM_USB4_MCU_RUN]
      | X1_PRESET => [eq (Wr 0x2200c 0x0c6302)]
      | _ => []
      end
  | _ => []
  end.

Definition startup_script : list (access Z → Prop) := flat_map row_script operations.

Definition run_config : x1_config :=
  {| cfg_firmware := Some (enc_image rs);
     cfg_firmware_size := Z.of_nat (length (enc_image rs));
     cfg_serial := serial; cfg_router := 0; cfg_phy_rx_eq := 0x6f;
     cfg_mcu_preset := 0x0c63; cfg_reset_release_us := 100 |}.
End script.

#[export] Instance fe_logged D : Logged (fe (traced Z D)) (access Z) := λ f, log (fe_hw f).
#[export] Instance run_logged D : Logged (x1_state * fe (traced Z D)) (access Z) :=
  λ s, log (fe_hw s.2).

Lemma try_as_int {S} (m : M S unit) s :
  (m s).1 ≠ Fault → (∀ e, (m s).1 = Err e → e ≠ 0) → try_ (as_int m) s = m s.
Proof.
  unfold try_, as_int. destruct (m s) as [[[]|e|] s']; simpl; intros Hs He; [done| |done].
  by destruct (Z.eqb_spec e 0) as [->|]; [destruct (He 0)|].
Qed.

Section follows.
Context {D : Type} `{Mmio Z D} `{Kernel D}.
Abbreviation world := (traced Z D).
Abbreviation vis := scripted.
Abbreviation halts := [mismatch; mcu_halt].

(** [m] follows the script [Ps], and never reports a zero errno. *)
Definition follows (Ps : list (access Z → Prop)) (m : M (fe world) unit) : Prop :=
  does_or vis halts Ps m ∧ errs (λ e, e ≠ 0) m.

Lemma follows_try Ps m : follows Ps m → does_or vis halts Ps (try_ (as_int m)).
Proof.
  intros [Hd He]. eapply does_or_ext; [|exact Hd]. intros s. apply try_as_int.
  - destruct (Hd s) as (t&_&Hr). by destruct (m s).1.
  - intros e E. destruct (m s) as [r s'] eqn:Em. simpl in E. subst. by eapply He.
Qed.

Lemma does_hw {A} Ps (m : M world A) : does vis Ps m → does vis Ps (on_hw m).
Proof.
  intros Hm f. destruct (Hm (fe_hw f)) as (t&Ht&Hr). exists t. unfold on_hw.
  destruct (m (fe_hw f)) as [r w]. done.
Qed.

Lemma does_readl a : (∀ v, vis (Rd a v) = false) → does (S:=world) vis [] (readl a).
Proof.
  intros Hv. apply does_silent; [|by apply emits_readl].
  intros s. destruct (readl_traced a s) as (v&d&->&_). done.
Qed.

Lemma does_writel a v :
  a ≠ 0x1200c → does (S:=world) vis [eq (Wr a (u32 v))] (writel v a).
Proof.
  intros Ha s. exists [Wr a (u32 v)]. rewrite writel_traced. split; [done|]. simpl.
  unfold matches. rewrite filter_cons_True by (simpl; by destruct (Z.eqb_spec a 0x1200c)).
  by repeat constructor.
Qed.

Lemma does_kern c : does vis [] (kern (W:=world) c).
Proof.
  apply does_silent.
  - intros f. unfold kern. destruct (k_call c (fe_hw f)) as [[r v] w]. by destruct (r =? 0).
  - intros f. exists []. unfold kern. rewrite app_nil_r. split; [|constructor].
    unfold k_call, traced_kernel. by destruct (k_call c (hw (fe_hw f))) as [[r v] d].
Qed.

Lemma errs_kern c : errs (λ e, e ≠ 0) (kern (W:=world) c).
Proof.
  intros f e f'. unfold kern. destruct (k_call c (fe_hw f)) as [[r v] w].
  destruct (Z.eqb_spec r 0); [done|]. by intros [= <- _].
Qed.

Lemma does_kvoid c : does vis [] (kvoid (W:=world) c).
Proof.
  apply does_silent.
  - intros f. unfold kvoid. by destruct (k_call c (fe_hw f)) as [[r v] w].
  - intros f. exists []. unfold kvoid. rewrite app_nil_r. split; [|constructor].
    unfold k_call, traced_kernel. by destruct (k_call c (hw (fe_hw f))) as [[r v] d].
Qed.

Lemma follows_or_else Ps e m : e ≠ 0 → does_or vis halts Ps m → follows Ps (or_else e m).
Proof.
  intros He Hm. split.
  - intros s. destruct (Hm s) as (t&Ht&Hr). exists t. unfold or_else.
    by destruct (m s) as [[a|e'|] s'].
  - intros s e' s'. unfold or_else. destruct (m s) as [[a|e0|] s1]; [done| |done].
    by intros [= <- _].
Qed.

Lemma follows_bind {A} Ps Qs (m : M (fe world) A) k :
  does_or vis halts Ps m → errs (λ e, e ≠ 0) m → (∀ a, follows Qs (k a)) →
  follows (Ps ++ Qs) (bind m k).
Proof.
  intros Hm He Hk. split.
  - apply does_or_bind; [done|]. intros a. apply Hk.
  - apply errs_bind; [done|]. intros a. apply Hk.
Qed.

Lemma follows_ret : follows [] (ret tt).
Proof. split; [apply does_does_or, does_ret|by intros ???]. Qed.

Lemma follows_fail Ps e : e ≠ 0 → follows Ps (fail e).
Proof.
  intros He. split; [apply does_does_or, does_fail|]. intros ??? E. unfold fail in E. congruence.
Qed.

Lemma follows_if Ps (b : bool) m n :
  (b = true → follows Ps m) → (b = false → follows Ps n) → follows Ps (if b then m else n).
Proof. destruct b; auto. Qed.

Lemma follows_ext Ps (m m' : M (fe world) unit) :
  (∀ s, m s = m' s) → follows Ps m' → follows Ps m.
Proof.
  intros Em [Hd He]. split; [by eapply does_or_ext|]. intros s e s' E. rewrite Em in E.
  by eapply He.
Qed.

Lemma follows_for_each {X} (f : X → list (access Z → Prop)) l body :
  (∀ x, x ∈ l → follows (f x) (body x)) → follows (flat_map f l) (for_each l body).
Proof.
  induction l as [|x l IH]; intros Hb; [apply follows_ret|]. cbn [for_each flat_map].
  destruct (Hb x) as [H1 H2]; [by left|]. apply follows_bind; [done..|]. intros _.
  apply IH. intros y Hy. apply Hb. by right.
Qed.

Lemma follows_lift {A} Ps (r : res A) a k :
  r = Ok a → follows Ps (k a) → follows Ps (bind (lift r) k).
Proof. by intros ->. Qed.

(** A register access that the code always gets. *)
Lemma follows_hw {A} Ps Qs (m : M world A) k :
  does vis Ps m → errs (λ e, e ≠ 0) m → (∀ a, follows Qs (k a)) →
  follows (Ps ++ Qs) (bind (on_hw m) k).
Proof.
  intros Hm He Hk. apply follows_bind; [by apply does_does_or, does_hw| |done].
  intros s e s'. unfold on_hw. destruct (m (fe_hw s)) as [r w] eqn:E. intros [= -> _].
  by eapply He.
Qed.

Lemma errs_reg_read P a : errs P (readl (D:=world) a).
Proof. intros s e s'. by destruct (readl_traced a s) as (v&d&->&_). Qed.
Lemma errs_writel P a v : errs P (writel (D:=world) v a).
Proof. by intros s e s'. Qed.

Lemma follows_read Ps a k :
  (∀ v, vis (Rd a v) = false) → (∀ v, follows Ps (k v)) →
  follows Ps (bind (on_hw (readl (D:=world) a)) k).
Proof.
  intros Ha Hk. apply (follows_hw []); [by apply does_readl|apply errs_reg_read|done].
Qed.

Lemma follows_write P Ps v a k :
  does (S:=world) vis [P] (writel v a) → follows Ps (k tt) →
  follows (P :: Ps) (bind (on_hw (writel (D:=world) v a)) k).
Proof.
  intros Hw Hk. apply (follows_hw [P]); [done|apply errs_writel|]. by intros [].
Qed.

Lemma follows_seq Ps (m : M (fe world) unit) k :
  follows [] m → (∀ a, follows Ps (k a)) → follows Ps (bind m k).
Proof. intros [Hd He]. by apply (follows_bind []). Qed.

Lemma follows_modify g : (∀ f, fe_hw (g f) = fe_hw f) → follows [] (modify g).
Proof.
  intros Hg. split; [|by intros ???]. apply does_does_or, does_silent; [done|].
  intros f. exists []. rewrite app_nil_r. unfold get_log, fe_logged. simpl. rewrite Hg.
  split; [done|constructor].
Qed.

Lemma u32_max_land v : 0 ≤ v < 2 ^ 32 → v .& U32_MAX = v.
Proof.
  intros Hv. change U32_MAX with (Z.ones 32). rewrite Z.land_ones by lia. by apply Z.mod_small.
Qed.

(** A check outside MCU RAM leaves no mark; one inside reads the expected
    word, or ends the run on the word that differed. *)
Lemma does_check_quiet a mask v :
  (∀ v, vis (Rd a v) = false) → does_or vis halts [] (check_router (W:=world) a mask v).
Proof.
  intros Ha. apply does_does_or. apply (does_bind _ [] []).
  - by apply does_hw, does_readl.
  - intros x. apply does_if; [apply does_ret|apply does_fail].
Qed.

Lemma does_check_word a v :
  (∀ v, vis (Rd a v) = true) →
  does_or vis halts [eq (Rd a v)] (check_router (W:=world) a U32_MAX v).
Proof.
  intros Ha f. unfold check_router, bind, on_hw.
  destruct (readl_traced a (fe_hw f)) as (x&d&->&Hx). exists [Rd a x].
  rewrite u32_max_land by done. destruct (Z.eqb_spec x v) as [->|]; simpl.
  - split; [done|]. unfold matches. rewrite filter_cons_True by apply Ha. by repeat constructor.
  - split; [done|]. exists 0%nat, mismatch. split; [|right; by left]. unfold matches.
    rewrite filter_cons_True by apply Ha. constructor; [by eexists _, _|constructor].
Qed.

Lemma follows_check_quiet e a mask v :
  e ≠ 0 → (∀ v, vis (Rd a v) = false) →
  follows [] (or_else e (check_router (W:=world) a mask v)).
Proof. intros. by apply follows_or_else, does_check_quiet. Qed.

Lemma follows_check e a v :
  e ≠ 0 → (∀ v, vis (Rd a v) = true) →
  follows [eq (Rd a v)] (or_else e (check_router (W:=world) a U32_MAX v)).
Proof. intros. by apply follows_or_else, does_check_word. Qed.

Lemma does_field a mask v x :
  a ≠ 0x1200c → 0 ≤ mask < 2 ^ 32 → v .& mask = v →
  does (S:=world) vis [field a mask v] (writel ((x .& not32 mask) .| v) a).
Proof.
  intros Ha Hm Hv s. exists [Wr a (u32 ((x .& not32 mask) .| v))]. rewrite writel_traced.
  split; [done|]. simpl. unfold matches.
  rewrite filter_cons_True by (simpl; by destruct (Z.eqb_spec a 0x1200c)).
  constructor; [|constructor]. eexists. split; [done|]. by apply field_set.
Qed.

(** The update callback: the offsets, masks and values of the table. *)
Lemma follows_update o mask v :
  o mod 4 = 0 → o ≤ 0x100000 - 4 → (∀ v, vis (Rd o v) = false) → o ≠ 0x1200c →
  0 ≤ mask < 2 ^ 32 → v .& mask = v →
  follows [field o mask v] (update_router (W:=world) o mask v).
Proof.
  intros Ho Hb Hr Hn Hm Hv. unfold update_router, read_router.
  assert (tst o 3 = false) as ->.
  { unfold tst. change 3 with (Z.ones 2). rewrite Z.land_ones by lia. change (2 ^ 2) with 4. by rewrite Ho. }
  destruct (Z.ltb_spec (0x100000 - 4) o); [lia|]. cbn [orb]. cbv iota.
  apply follows_read; [done|]. intros x.
  apply follows_if; [by intros _; apply follows_fail|]. intros _.
  apply follows_write; [by apply does_field|].
  destruct (Z.eqb_spec o 0x1200c); [done|]. by apply follows_check_quiet.
Qed.

(** The polled register is written out of sight. *)
Lemma follows_update_1200c v mask : follows [] (update_router (W:=world) 0x1200c mask v).
Proof.
  unfold update_router, read_router. cbn [tst].
  change (tst 0x1200c 3 || (0x100000 - 4 <? 0x1200c)) with false. cbv iota.
  apply follows_read; [done|]. intros x.
  apply follows_if; [by intros _; apply follows_fail|]. intros _.
  apply (follows_hw []); [|apply errs_writel|intros _; apply follows_ret].
  apply does_silent; [done|]. by apply emits_writel.
Qed.

Lemma follows_kern Ps c k :
  (∀ v, follows Ps (k v)) → follows Ps (bind (kern (W:=world) c) k).
Proof.
  intros Hk. apply (follows_bind []); [apply does_does_or, does_kern|apply errs_kern|done].
Qed.

(** ** The providers *)

Context (crc32c : Z → list Z → Z) (reference_only : bool) (start_polls command_polls : nat).
Context (base0 : Z) (Hbase : base0 ≠ 0).
Context (rs : list record) (Hne : rs ≠ []) (Hrs : Forall (record_ok 0xf000) rs).
Context (serial : Z).

Abbreviation mcu := {| base := base0; ram_size := 0xf000; ram_offset := 0x13000;
  control_offset := 0x22000; shared_offset_reg := 0x22010; drom_offset := 0xdf20 |}.
Abbreviation pr := (Probe mcu (run_config rs serial) (enc_image rs)).

Lemma image_window p : p ∈ image_writes rs → 0 ≤ p.1 ∧ p.1 + 4 ≤ 0xf000.
Proof.
  destruct p as [o v]. intros Hp. destruct (image_writes_bounds rs 0xf000 o v Hrs Hp) as (_&?&?).
  simpl. lia.
Qed.

Lemma image_word p : p ∈ image_writes rs → 0 ≤ p.2 < 2 ^ 32.
Proof.
  unfold image_writes. intros ([off ws]&Hr&Hp)%list_elem_of_In%in_flat_map.
  assert (Forall (λ w, 0 ≤ w < 2 ^ 32) ws) as Hw.
  { rewrite Forall_forall in Hrs. apply (Hrs (off, ws)). by apply list_elem_of_In. }
  clear Hr. simpl in Hp. revert off Hp. induction Hw as [|w ws Hw _ IH]; intros off; [done|].
  intros [<-|Hp]; [done|]. by apply IH in Hp.
Qed.

Lemma does_mcu_upload :
  does (S:=world) vis
    (eq (Wr 0x22000 0) :: ((λ p, eq (Wr (0x13000 + p.1) p.2)) <$> image_writes rs))
    (qcom_usb4_mcu_upload (Some mcu) (Some (enc_image rs)) (Z.of_nat (length (enc_image rs)))).
Proof.
  unfold qcom_usb4_mcu_upload. cbn [base]. destruct (Z.eqb_spec base0 0); [done|].
  assert (qcom_usb4_fw_validate (Some (enc_image rs)) (Z.of_nat (length (enc_image rs)))
    0xf000 = Ok tt) as Ev.
  { apply fw_validate_iff_aux; [apply enc_image_bytes|by apply enc_image_ne|eauto]. }
  cbn [ram_size]. rewrite Ev. apply (does_bind _ []); [apply does_ret|intros _].
  cbn [control_offset]. apply (does_bind _ []); [by apply does_readl|intros c].
  apply does_if; [apply does_fail|].
  apply (does_bind _ [_]); [by apply does_writel|intros _].
  rewrite <- (app_nil_r (_ <$> _)). apply does_bind.
  - apply does_or_nil. eapply does_or_ext.
    { intros s. by apply upload_accepted. }
    replace ((λ p, eq (Wr (0x13000 + p.1) p.2)) <$> image_writes rs)
      with (flat_map (λ p : Z * Z, [eq (Wr (0x13000 + p.1) p.2)]) (image_writes rs))
      by (clear; by induction (image_writes rs) as [|p l IH]; [|simpl; rewrite IH]).
    apply does_or_for_each. intros p Hp. apply does_does_or.
    pose proof (image_window p Hp). pose proof (image_word p Hp).
    intros s. exists [Wr (0x13000 + p.1) p.2]. unfold try_. rewrite write_word_traced.
    rewrite u32_small by done. split; [done|]. simpl. unfold matches.
    rewrite filter_cons_True by (simpl; destruct (Z.eqb_spec (0x13000 + p.1) 0x1200c); [lia|done]).
    by repeat constructor.
  - intros _. apply (does_bind _ [] []); [by apply does_readl|]. intros _. apply does_ret.
Qed.

Lemma errs_mcu_upload :
  errs (λ e, e ≠ 0) (qcom_usb4_mcu_upload (D:=world) (Some mcu) (Some (enc_image rs))
    (Z.of_nat (length (enc_image rs)))).
Proof.
  intros s e s' E.
  pose proof (upload_paths mcu (enc_image rs) s Hbase (enc_image_bytes rs)
    (enc_image_ne rs Hne)) as Hu. rewrite E in Hu. destruct Hu as [He _].
  intros ->. revert He. rewrite !elem_of_cons, elem_of_nil. unfold EINVAL, EOVERFLOW, EFBIG, EBUSY. lia.
Qed.

(** The recheck walks the image the way the upload did. *)
Abbreviation recheck := (λ off v, or_else (-EIO)
  (check_router (W:=world) (u32 (0x13000 + off)) U32_MAX v)).

Lemma recheck_try off v s : try_ (as_int (recheck off v)) s = recheck off v s.
Proof.
  apply try_as_int; unfold or_else, check_router, bind, on_hw;
    destruct (readl_traced (u32 (0x13000 + off)) (fe_hw s)) as (x&d&->&_);
    destruct (_ =? _); try done. by intros e [= <-].
Qed.

Lemma verify_words_upload data n off pos s :
  verify_words data n off pos s = fw_upload_words data (λ o v, as_int (recheck o v)) n off pos s.
Proof.
  revert off pos s. induction n as [|n IH]; intros off pos s; [done|]. cbn [verify_words fw_upload_words].
  apply bind_ext; [done|]. intros v s1 _. apply bind_ext; [by rewrite recheck_try|].
  intros _ s2 _. apply IH.
Qed.

Lemma verify_records_upload data fuel pos s :
  verify_records data fuel pos s =
  fw_upload_loop data (Z.of_nat (length data)) (λ o v, as_int (recheck o v)) fuel pos s.
Proof.
  revert pos s. induction fuel as [|fuel IH]; intros pos s; [done|].
  cbn [verify_records fw_upload_loop]. destruct (_ <? _); [|done].
  apply bind_ext; [done|]. intros o s1 _. apply bind_ext; [done|]. intros w s2 _.
  apply bind_ext; [apply verify_words_upload|]. intros q s3 _. apply IH.
Qed.

Lemma fmap_flat {X} (f : X → access Z → Prop) l : f <$> l = flat_map (λ x, [f x]) l.
Proof. induction l as [|x l IH]; [done|]. by rewrite fmap_cons, IH. Qed.

Lemma follows_verify :
  follows ((λ p, eq (Rd (0x13000 + p.1) p.2)) <$> image_writes rs)
    (verify_records (W:=world) (enc_image rs) (S (length (enc_image rs))) 0).
Proof.
  eapply follows_ext.
  { intros s. rewrite verify_records_upload.
    apply (upload_loop_spec _ _ [] rs s 0xf000 Hrs). lia. }
  rewrite fmap_flat. apply follows_for_each. intros p Hp.
  eapply follows_ext; [intros s; apply recheck_try|].
  pose proof (image_window p Hp) as Hw. rewrite u32_small by lia.
  apply follows_check; [done|]. intros v. unfold scripted.
  apply andb_true_iff. rewrite Z.leb_le, Z.ltb_lt. lia.
Qed.

Lemma follows_upload : follows (upload_script rs) (upload_checked (W:=world) pr).
Proof.
  unfold upload_checked, upload_script. cbn [p_mcu p_fw].
  rewrite (app_comm_cons _ _ (eq (Wr 0x22000 0))).
  apply follows_hw; [apply does_mcu_upload|apply errs_mcu_upload|]. intros _.
  rewrite <- (app_nil_r (_ <$> _)). destruct follows_verify as [Hd He].
  apply follows_bind; [done..|]. intros _. by apply follows_check_quiet.
Qed.

Lemma follows_drom : follows (drom_script crc32c serial) (store_drom (W:=world) crc32c pr).
Proof.
  unfold store_drom, drom_script. change (cfg_serial (p_cfg pr)) with serial.
  set (d := x1_drom crc32c serial).
  assert (length d = 116%nat) as Hd by done.
  rewrite x1_drom_build_ok by (unfold QCOM_USB4_DROM_SIZE; simpl; lia).
  rewrite drop_ge, app_nil_r by done. fold (x1_drom crc32c serial). fold d.
  eapply follows_lift; [done|]. cbn [p_mcu drom_offset ram_size].
  change ((0xdf20 !=? 0xdf20) || (u64 (0xf000 - 0xdf20) <? QCOM_USB4_DROM_SIZE)) with false.
  cbv iota. apply follows_read; [done|]. intros c.
  apply follows_if; [by intros _; apply follows_fail|]. intros _.
  destruct (word_at_ok d 5) as [E5 R5]; [lia..|]. destruct (word_at_ok d 1) as [E1 R1]; [lia..|].
  eapply follows_lift; [exact E5|]. eapply follows_lift; [exact E1|].
  apply follows_write; [rewrite <- R5 at 1; by apply does_writel|].
  apply follows_write; [rewrite <- R1 at 1; by apply does_writel|].
  assert (follows [] (or_else (-EIO) (do! check_router (W:=world) 0x801c U32_MAX (word_at d 5) in
    check_router 0x8020 U32_MAX (word_at d 1)))) as Hc.
  { apply follows_or_else; [done|]. apply (does_or_bind _ _ [] []); [by apply does_check_quiet|].
    intros _. by apply does_check_quiet. }
  apply follows_seq; [done|]. intros _. rewrite !fmap_flat.
  assert (∀ i, i ∈ drom_words → get_unaligned_le32 d i = Ok (word_at d i) ∧
    u32 (word_at d i) = word_at d i ∧ 0 ≤ i ≤ 112) as Hw.
  { intros i [Hi _]%drom_words_bound. destruct (word_at_ok d i); [lia..|]. done. }
  assert (follows (flat_map (λ i, [eq (Wr (0x20f20 + i) (word_at d i))]) drom_words)
    (for_each drom_words (λ i, let! v := lift (get_unaligned_le32 d i) in
       on_hw (W:=world) (writel v (0x20f20 + i))))) as [H3 H4].
  { apply follows_for_each. intros i Hi. destruct (Hw i Hi) as (Ei&Ri&Hi').
    eapply follows_lift; [exact Ei|]. split; [|by intros ???].
    apply does_does_or, does_hw. rewrite <- Ri at 1. apply does_writel. lia. }
  apply follows_bind; [done..|].
  intros _. apply follows_for_each. intros i Hi. destruct (Hw i Hi) as (Ei&Ri&Hi').
  eapply follows_lift; [exact Ei|]. apply follows_check; [done|]. intros v. unfold scripted.
  apply andb_true_iff. rewrite Z.leb_le, Z.ltb_lt. lia.
Qed.

(** ** Starting the MCU *)

Lemma does_mcu_update off mask v :
  (∀ v, vis (Rd off v) = false) → off ≠ 0x1200c → 0 ≤ mask < 2 ^ 32 →
  does (S:=world) vis [field off mask (v .& mask)] (qcom_usb4_mcu_update off mask v).
Proof.
  intros Hr Hn Hm. apply (does_bind _ []); [by apply does_readl|]. intros x.
  apply does_field; [done..|]. by rewrite <- Z.land_assoc, Z.land_diag.
Qed.

Lemma does_on_error {A} Ps c (m : M world A) (h : M world unit) :
  c ∈ halts → does vis Ps m → does vis c h → (∀ s, (h s).1 = Ok tt) →
  does_or vis halts Ps (on_error m h).
Proof.
  intros Hc Hm Hh Hok s. destruct (Hm s) as (t&Ht&Hr). unfold on_error.
  destruct (m s) as [[a|e|] s1]; cbn [fst snd] in *; [by exists t| |done].
  destruct (Hh s1) as (u&Hu&Hr'). rewrite Hok in Hr'. destruct Hr as (k&Hk).
  exists (t ++ u). rewrite Hu, Ht, app_assoc. split; [done|]. exists k, c.
  split; [by apply matches_app|by right].
Qed.

Lemma does_mcu_stop : does (S:=world) vis mcu_halt (qcom_usb4_mcu_stop (Some mcu)).
Proof.
  unfold qcom_usb4_mcu_stop. cbn [base]. destruct (Z.eqb_spec base0 0); [done|].
  apply (does_bind _ [_] [_]); [by apply (does_mcu_update 0x22000 QCOM_USB4_MCU_RUN 0), run_ready_range|]. intros _.
  apply (does_bind _ [_] []).
  { by apply (does_mcu_update QCOM_USB4_MCU_HOST_CONTROL QCOM_USB4_MCU_READY 0), run_ready_range. }
  intros _. apply (does_bind _ [] []); [by apply does_readl|]. intros _. apply does_ret.
Qed.

Lemma does_mcu_await polls : does (S:=world) vis [] (mcu_await_shared polls mcu).
Proof.
  apply does_silent.
  - intros s. pose proof (await_result polls mcu s) as Ha. by destruct (mcu_await_shared _ _ s) as [[]].
  - unfold mcu_await_shared, emits. keeps_auto.
    + by apply emits_poll.
    + by apply emits_readl.
Qed.

Lemma does_mcu_start polls :
  does_or (S:=world) vis halts (row_script crc32c rs serial (P_ X1_MCU_START "MCU_START"))
    (mcu_start_run polls mcu).
Proof.
  unfold mcu_start_run. cbn [control_offset].
  apply (does_or_bind _ _ []); [by apply does_does_or, does_readl|]. intros c.
  apply does_or_if; intros _; [apply does_does_or, does_fail|].
  apply (does_or_bind _ _ [_] [_]).
  { by apply does_does_or, (does_mcu_update QCOM_USB4_MCU_HOST_CONTROL QCOM_USB4_MCU_READY 0), run_ready_range. }
  intros _. apply (does_or_bind _ _ [_] []).
  { by apply does_does_or, (does_mcu_update 0x22000 QCOM_USB4_MCU_RUN QCOM_USB4_MCU_RUN), run_ready_range. }
  intros _. apply (does_on_error _ mcu_halt); [right; by left|apply does_mcu_await|apply does_mcu_stop|].
  intros s. by destruct (stop_traced mcu s Hbase) as (d&t&c'&h&->&_).
Qed.

Lemma errs_mcu_start polls : errs (λ e, e ≠ 0) (mcu_start_run (D:=world) polls mcu).
Proof.
  unfold mcu_start_run. apply errs_bind; [apply errs_reg_read|]. intros c.
  if_case E; [intros ???; by intros [= <- _]|].
  apply errs_bind; [|intros _; apply errs_bind; [|intros _]].
  1, 2: unfold qcom_usb4_mcu_update; apply errs_bind; [apply errs_reg_read|intros; apply errs_writel].
  intros s e s'. unfold on_error. pose proof (await_result polls mcu s) as Ha.
  destruct (mcu_await_shared polls mcu s) as [[off|e0|] s1]; [done| |done].
  intros [= <- _] ->. revert Ha. rewrite !elem_of_cons, elem_of_nil.
  unfold ETIMEDOUT, EPROTO. lia.
Qed.

Lemma does_mcu_command polls :
  does (S:=world) vis [eq (Wr 0x2200c 0x0c6302)]
    (qcom_usb4_mcu_command polls (Some mcu) 0x0c6302 10000).
Proof.
  unfold qcom_usb4_mcu_command. apply does_if; [apply does_fail|]. cbn [control_offset].
  apply (does_bind _ []); [by apply does_readl|]. intros c. apply does_if; [apply does_fail|].
  apply (does_bind _ []); [by apply does_readl|]. intros st. apply does_if; [apply does_fail|].
  apply (does_bind _ []); [by apply does_readl|]. intros pend. apply does_if; [apply does_fail|].
  apply (does_bind _ [_] []); [by apply (does_writel 0x2200c 0x0c6302)|]. intros _.
  apply does_silent; [|by apply emits_poll]. intros s.
  by destruct (poll_result (0x22000 + QCOM_USB4_MCU_COMMAND_RELATIVE) (λ v, v =? 0) polls s)
    as [(s1&->&_)|(s1&->&_)].
Qed.

Lemma errs_mcu_command polls c : errs (λ e, e ≠ 0) (qcom_usb4_mcu_command (D:=world) polls (Some mcu) c 10000).
Proof.
  unfold qcom_usb4_mcu_command. cbv zeta. if_case E; [by intros ??? [= <- _]|].
  do 3 (apply errs_bind; [apply errs_reg_read|intros ?]; if_case E'; [by intros ??? [= <- _]|]; clear E').
  apply errs_bind; [apply errs_writel|]. intros _ s e s'.
  by destruct (poll_result (control_offset mcu + QCOM_USB4_MCU_COMMAND_RELATIVE) (λ v, v =? 0) polls s)
    as [(s1&->&_)|(s1&->&_)]; intros [= <- _].
Qed.

Lemma does_snapshot : does vis [] (mcu_snapshot (W:=world) pr).
Proof.
  unfold mcu_snapshot. cbn [p_mcu control_offset shared_offset_reg].
  do 4 (apply (does_bind _ [] []); [by apply does_hw, does_readl|intros _]). apply does_ret.
Qed.

Lemma follows_snapshot Ps m : follows Ps m → follows Ps (with_snapshot pr m).
Proof.
  intros [Hd He]. split.
  - intros f. destruct (Hd f) as (t&Ht&Hr). unfold with_snapshot.
    destruct (m f) as [r f1]. cbn [fst snd] in *.
    destruct (does_snapshot f1) as (u&Hu&Hs).
    assert (filter (λ e, vis e = true) u = []) as Eu.
    { destruct (mcu_snapshot pr f1).1; [|destruct Hs as (k&Hs)|done];
        unfold matches in Hs; rewrite ?take_nil in Hs; by inversion Hs. }
    assert (∀ Qs, matches vis Qs t → matches vis Qs (t ++ u)) as Hm.
    { intros Qs. unfold matches. by rewrite filter_app, Eu, app_nil_r. }
    exists (t ++ u). destruct r as [a|e|]; cbn [fst snd]; [| |done].
    all: rewrite Hu, Ht, app_assoc; split; [done|].
    + by apply Hm.
    + destruct Hr as (k&c&Hk&Hc). exists k, c. auto.
  - intros f e f'. unfold with_snapshot. destruct (m f) as [[a|e0|] f1] eqn:E; [done| |done].
    intros [= <- _]. by eapply He.
Qed.

Lemma follows_mcu_start :
  follows (row_script crc32c rs serial (P_ X1_MCU_START "MCU_START"))
    (with_snapshot pr (mcu_start (W:=world) start_polls pr)).
Proof.
  apply follows_snapshot. split.
  - intros f. destruct (does_mcu_start start_polls (fe_hw f)) as (t&Ht&Hr). exists t.
    unfold mcu_start, qcom_usb4_mcu_start. cbn [p_mcu base].
    destruct (Z.eqb_spec base0 0); [done|].
    by destruct (mcu_start_run start_polls mcu (fe_hw f)) as [[o|e|] w].
  - intros f e f'. unfold mcu_start, qcom_usb4_mcu_start. cbn [p_mcu base].
    destruct (Z.eqb_spec base0 0); [done|].
    destruct (mcu_start_run start_polls mcu (fe_hw f)) as [[o|e0|] w] eqn:E; [done| |done].
    intros [= <- _]. by eapply errs_mcu_start.
Qed.

Lemma follows_preset :
  follows [eq (Wr 0x2200c 0x0c6302)]
    (with_snapshot pr (let! command := lift (preset_command 0x0c63) in
       on_hw (W:=world) (qcom_usb4_mcu_command command_polls (Some mcu) command 10000))).
Proof.
  apply follows_snapshot. eapply follows_lift; [reflexivity|]. split.
  - apply does_does_or, does_hw, does_mcu_command.
  - intros f e f'. unfold on_hw.
    destruct (qcom_usb4_mcu_command _ _ _ _ (fe_hw f)) as [r w] eqn:E.
    intros [= -> _]. by eapply errs_mcu_command.
Qed.

Lemma follows_step op :
  follows (row_script crc32c rs serial (P_ op "")) (step crc32c reference_only
    start_polls command_polls pr op (run_config rs serial) : M (fe world) unit).
Proof.
  unfold step. apply follows_seq; [by apply follows_modify|].
  intros _. destruct op; cbn [step_body row_script P_ o_kind o_step];
    try (by apply follows_fail);
    repeat (apply follows_kern; intros ?); try apply follows_ret.
  - unfold select_rx_source. apply follows_if; intros _.
    { apply follows_kern. intros _. apply follows_ret. }
    change (read_router (W:=world) 0x1200c) with (on_hw (W:=world) (readl 0x1200c)).
    apply follows_read; [done|]. intros _.
    apply follows_seq; [by apply follows_modify|]. intros _. by apply follows_fail.
  - apply follows_upload.
  - apply follows_if; intros _; [apply follows_ret|by apply follows_fail].
  - apply follows_drom.
  - apply follows_mcu_start.
  - apply follows_preset.
Qed.

(** ** The sequencer over these callbacks *)

Abbreviation fops := (ops crc32c reference_only start_polls command_polls pr : x1_ops (fe world)).
Abbreviation cfg0 := (run_config rs serial).

Lemma does_pause us : does vis [] (modify (ops_delay_us fops us)).
Proof.
  intros f. unfold modify, delay_us, ops, ops_delay_us, delay_us. destruct (us <? 20);
    match goal with |- context [kvoid ?c] => destruct (does_kvoid c f) as (t&Ht&Hr) end;
    exists t; split; try done; unfold kvoid in *;
    by destruct (k_call _ (fe_hw f)) as [[r v] w].
Qed.

Lemma does_call_read : does vis [] (call_read fops 0x1200c).
Proof.
  intros f. unfold call_read. cbn [ops ops_read].
  change (read_router (W:=world) 0x1200c f) with (on_hw (W:=world) (readl 0x1200c) f).
  unfold on_hw. destruct (readl_traced 0x1200c (fe_hw f)) as (v&d&->&_).
  exists [Rd 0x1200c v]. split; [done|]. constructor.
Qed.

Lemma does_clear_1200c n : does_or vis halts [] (clear_1200c_loop fops n).
Proof.
  induction n as [|n IH]; cbn [clear_1200c_loop];
    apply (does_or_bind _ _ [] []); try apply does_does_or, does_call_read; intros v;
    apply does_or_if; intros _; try apply does_does_or, does_ret.
  - apply does_does_or, does_fail.
  - apply (does_or_bind _ _ [] []); [apply follows_try, follows_update_1200c|]. intros _.
    apply (does_or_bind _ _ [] []); [apply does_does_or, does_pause|]. intros _. apply IH.
Qed.

(** The updates of the table are in range, outside MCU RAM, and write only
    bits of their mask. *)
Definition update_row (op : operation) : bool :=
  match o_kind op with
  | UPDATE => (o_offset op mod 4 =? 0) && (o_offset op <=? 0x100000 - 4) &&
      negb (scripted (Rd (o_offset op) 0)) && (o_offset op !=? 0x1200c) &&
      (0 <=? o_mask op) && (o_mask op <? 2 ^ 32) && (o_value op .& o_mask op =? o_value op)
  | _ => true
  end.

Lemma operations_update_rows : forallb update_row operations = true.
Proof. vm_compute. reflexivity. Qed.

Lemma does_execute op :
  op ∈ operations → does_or vis halts (row_script crc32c rs serial op) (execute op cfg0 fops).
Proof.
  intros Hop. assert (update_row op = true) as Hu.
  { pose proof operations_update_rows as Hf. rewrite forallb_forall in Hf.
    by apply Hf, list_elem_of_In. }
  unfold execute, row_script, update_row in *. destruct (o_kind op).
  - apply (follows_try _ _ (follows_step (o_step op))).
  - rewrite !andb_true_iff, !negb_true_iff, !Z.leb_le, !Z.ltb_lt, !Z.eqb_eq, Z.eqb_neq in Hu.
    destruct Hu as [[[[[[H1 H2] H3] H4] H5] H6] H7].
    apply follows_try, follows_update; try done.
  - apply does_does_or, does_pause.
  - apply does_does_or, does_pause.
  - apply (does_or_bind _ _ [] []); [apply does_clear_1200c|]. intros _.
    apply does_does_or, does_pause.
Qed.

Lemma does_stage Ps s m :
  does_or vis halts Ps m → does_or vis halts Ps (stage (S:=fe world) s m).
Proof.
  intros Hm [st f]. destruct (Hm f) as (t&Ht&Hr). exists t. unfold stage.
  by destruct (m f) as [[[]|e|] f'].
Qed.

Lemma follows_owner : follows [] (owner (W:=world) pr cfg0).
Proof.
  unfold owner. apply follows_if; intros _; [by apply follows_fail|].
  apply follows_or_else; [done|].
  do 4 (apply (does_or_bind _ _ [] []); [by apply does_check_quiet|intros _]).
  by apply does_check_quiet.
Qed.

Lemma does_seq {T A B} `{Logged T (access Z)} Ps (m : M T A) (k : A → M T B) :
  does_or vis halts [] m → (∀ a, does_or vis halts Ps (k a)) → does_or vis halts Ps (bind m k).
Proof. apply (does_or_bind _ _ []). Qed.

Lemma startup_does :
  does_or vis halts (startup_script crc32c rs serial)
    (startup_body crc32c operations (Some cfg0) (Some fops)).
Proof.
  unfold startup_body. apply does_seq.
  { apply does_stage, does_does_or. intros f. exists []. rewrite app_nil_r. split; [done|].
    unfold lift. cbn [fst]. destruct (validate _ _ _) as [[]|e|] eqn:E.
    - constructor.
    - exists 0%nat. constructor.
    - exfalso. revert E. apply validate_total. cbn. lia. }
  intros _. apply does_seq.
  { apply does_stage. apply (follows_try _ _ follows_owner). }
  intros _. apply does_or_for_each. intros op Hop. by apply does_stage, does_execute.
Qed.

Lemma startup_run_does :
  does_or vis halts (startup_script crc32c rs serial)
    (x1_startup_run crc32c (Some cfg0) (Some fops)).
Proof.
  intros [st f]. unfold x1_startup_run. destruct (decide _).
  { exists []. rewrite app_nil_r. split; [done|]. exists 0%nat, []. split; [constructor|by left]. }
  destruct (startup_does (X1State X1_RUNNING (st_active st) X1_NONE 0, f)) as (t&Ht&Hr).
  exists t. by destruct (startup_body _ _ _ _ _) as [[[]|e|] [st' f']].
Qed.

(** What one attempt leaves in the log of the router window. *)
Definition attempt_trace (done_ : bool) (l l' : list (access Z)) : Prop :=
  ∃ t k tail, l' = l ++ t ∧ matches vis (take k (startup_script crc32c rs serial) ++ tail) t ∧
    tail ∈ [[]; mismatch; mcu_halt] ∧
    (done_ = true → tail = [] ∧ k = length (startup_script crc32c rs serial)).

Lemma attempt_trace_of {T A} `{Logged T (access Z)} (m : M T A) s :
  does_or vis halts (startup_script crc32c rs serial) m →
  (m s).1 ≠ Fault ∧
  attempt_trace (match (m s).1 with Ok _ => true | _ => false end) (get_log s) (get_log (m s).2).
Proof.
  intros Hm. destruct (Hm s) as (t&Ht&Hr). destruct (m s).1 as [a|e|]; [| |done].
  - split; [done|]. exists t, (length (startup_script crc32c rs serial)), [].
    rewrite take_ge, app_nil_r by done. split_and!; [done..|by left|done].
  - split; [done|]. destruct Hr as (k&c&Hk&Hc). exists t, k, c. split_and!; [done..| |done].
    destruct Hc as [-> | Hc]; [by left|by right].
Qed.

(** C20. The cold start over the driver's callbacks refines the script, for
    every device and every behaviour of the other kernel subsystems: a run that
    completes has written exactly the script to the router window, in order,
    so RUN is set only after every image word and every descriptor word was
    read back equal; a run that fails has written a prefix of it, followed at
    most by the read-back that differed or by RUN and READY being cleared. *)
Theorem startup_refines_script (s : world) sh st0 rc a d0 e0 :
  let r := x1_startup_run crc32c (Some cfg0) (Some fops)
             (X1State X1_NEW a d0 e0, Fe s sh st0 rc) in
  match r with
  | (Ok _, (_, f)) => attempt_trace true (log s) (log (fe_hw f))
  | (Err _, (_, f)) => attempt_trace false (log s) (log (fe_hw f))
  | (Fault, _) => False
  end.
Proof.
  intros r. destruct (attempt_trace_of _ (X1State X1_NEW a d0 e0, Fe s sh st0 rc) startup_run_does)
    as [Hf Hl]. fold r in Hf, Hl. by destruct r as [[[]|e|] [st f]].
Qed.

(** ** The whole attempt *)

Lemma does_on_fe {A} Ps (m : M (fe world) A) :
  does_or vis halts Ps m → does_or vis halts Ps (on_fe m).
Proof.
  intros Hm [st f]. destruct (Hm f) as (t&Ht&Hr). exists t. unfold on_fe.
  by destruct (m f) as [r f'].
Qed.

Lemma does_at_stage n : does_or vis halts [] (at_stage (W:=world) n).
Proof.
  intros [st f]. exists []. rewrite app_nil_r. split; [done|]. constructor.
Qed.

Lemma does_pm_resume : does vis [] (pm_resume (W:=world)).
Proof.
  apply does_silent.
  - intros f. unfold pm_resume. destruct (k_call _ (fe_hw f)) as [[r v] w]. by destruct (r <? 0).
  - intros f. exists []. unfold pm_resume. rewrite app_nil_r. split; [|constructor].
    unfold k_call, traced_kernel. by destruct (k_call KPmResume (hw (fe_hw f))) as [[r v] d].
Qed.

Lemma does_enable_clocks : does_or vis halts [] (enable_clocks (W:=world)).
Proof.
  apply does_does_or. unfold enable_clocks.
  assert (does vis [] (for_each [0; 1; 2; 3; 4; 5] (λ i, kvoid (W:=world) (KClkRate i)))) as Hr.
  { apply (does_for_each vis (λ _, []) [0; 1; 2; 3; 4; 5]). intros i _. apply does_kvoid. }
  apply (does_bind _ [] []); [exact Hr|]. intros _.
  apply (does_bind _ [] []); [apply does_kern|]. intros _. exact Hr.
Qed.

Lemma does_quiet_end {T A} `{Logged T (access Z)} Ps (m : M T A) h :
  does_or vis halts Ps m → (∀ s, get_log (h s).2 = get_log s) →
  does_or vis halts Ps (on_error m h).
Proof.
  intros Hm Hh s. destruct (Hm s) as (t&Ht&Hr). exists t. unfold on_error.
  destruct (m s) as [[a|e|] s1]; cbn [fst snd] in *; [done| |done]. by rewrite Hh.
Qed.

Ltac quiet_step :=
  apply does_seq;
  [first [apply does_at_stage
         |apply does_on_fe, does_does_or, does_kern
         |apply does_on_fe, does_does_or, does_kvoid
         |apply does_on_fe, does_does_or, does_pm_resume
         |apply does_on_fe, does_enable_clocks]
  |intros _].

Lemma does_probe_sequence :
  does_or vis halts (startup_script crc32c rs serial)
    (probe_sequence (W:=world) crc32c reference_only start_polls command_polls pr).
Proof.
  unfold probe_sequence. do 8 quiet_step. rewrite <- (app_nil_r (startup_script _ _ _)).
  apply does_or_bind; [apply startup_run_does|]. intros _. do 3 quiet_step.
  apply does_quiet_end; [do 2 quiet_step; apply does_does_or, does_ret|].
  intros [st f]. unfold on_fe, kvoid, k_call, traced_kernel.
  by destruct (k_call KLinkStop (hw (fe_hw f))) as [[r v] d].
Qed.
End follows.

Lemma rbind_ok {A B} (m : res A) (k : A → res B) b :
  rbind m k = Ok b → ∃ a, m = Ok a ∧ k a = Ok b.
Proof. destruct m as [a|e|]; [by eauto|done..]. Qed.

Lemma init_mcu_ok base m :
  init_mcu base = Ok m →
  base ≠ 0 ∧ m = {| base := base; ram_size := 0xf000; ram_offset := 0x13000;
    control_offset := 0x22000; shared_offset_reg := 0x22010; drom_offset := 0xdf20 |}.
Proof.
  unfold init_mcu, qcom_usb4_mcu_init, bind, get, modify, fail. if_case E; [done|].
  intros E'. simpl in E'. simplify_eq. rewrite !orb_false_iff, Z.eqb_neq in E. by destruct_and!.
Qed.

(** What passes the checks before the hardware is touched. *)
Lemma probe_setup_ok sha256 f p :
  probe_setup sha256 f = Ok p →
  ∃ base serial, base ≠ 0 ∧ serial ≠ 0 ∧ f_firmware f = inr (p_fw p) ∧
    sha256 (p_fw p) = firmware_sha256 ∧ Z.of_nat (length (p_fw p)) = 40816 ∧
    qcom_usb4_fw_validate (Some (p_fw p)) (Z.of_nat (length (p_fw p))) 0xf000 = Ok tt ∧
    p_mcu p = {| base := base; ram_size := 0xf000; ram_offset := 0x13000;
      control_offset := 0x22000; shared_offset_reg := 0x22010; drom_offset := 0xdf20 |} ∧
    p_cfg p = {| cfg_firmware := Some (p_fw p);
      cfg_firmware_size := Z.of_nat (length (p_fw p)); cfg_serial := serial; cfg_router := 0;
      cfg_phy_rx_eq := 0x6f; cfg_mcu_preset := 0x0c63; cfg_reset_release_us := 100 |}.
Proof.
  unfold probe_setup. if_case E1; [done|]. if_case E2; [done|].
  intros (base&Hb&Hk)%rbind_ok.
  repeat match goal with
  | H : (if ?b then _ else _) = Ok _ |- _ => destruct b eqn:?; [done|]
  | H : (let '(_, _) := ?x in _) = Ok _ |- _ => destruct x as [size serial]
  | H : rbind _ _ = Ok _ |- _ => apply rbind_ok in H as (?&?&H)
  end.
  simplify_eq. cbn [p_fw p_mcu p_cfg].
  match goal with H : init_mcu base = Ok _ |- _ => apply init_mcu_ok in H as [Hb0 ->] end.
  exists base, serial. rewrite !orb_false_iff, !negb_false_iff, ?bool_decide_eq_true, ?Z.eqb_eq,
    ?Z.eqb_neq in *. destruct_and!.
  match goal with H : ptr (f_firmware f) = Ok _ |- _ => rename H into Hw end.
  match goal with H : qcom_usb4_fw_validate _ _ _ = Ok ?u |- _ => destruct u end.
  split_and!; try done. by destruct (f_firmware f) as [e|w]; simplify_eq/=.
Qed.

Section attempt.
Context (crc32c : Z → list Z → Z) (sha256 : list Z → list Z) (qmp_usb4 : Z).
Context (reference_only : bool) (start_polls command_polls : nat).
Context {D : Type} `{Mmio Z D} `{Kernel D}.
Abbreviation world_ := (traced Z D).

Lemma k_call_log c (w : world_) : log (k_call c w).2 = log w.
Proof. unfold k_call, traced_kernel. by destruct (k_call c (hw w)) as [[r v] d]. Qed.

Lemma identity_total f : identity qmp_usb4 f ≠ Fault.
Proof.
  unfold identity, ptr. if_case E; [done|]. destruct (f_phys f) as [e|[[x c] g]]; [done|].
  cbn [rbind]. if_case E2; [done|]. destruct (f_tcsr f) as [[[] [[st sz]|]]|]; try done.
  by if_case E3.
Qed.

Lemma rbind_total {A B} (r : res A) (k : A → res B) :
  r ≠ Fault → (∀ a, k a ≠ Fault) → rbind r k ≠ Fault.
Proof. intros Hr Hk. destruct r as [a|e|]; [apply Hk|done|done]. Qed.

Lemma ptr_total {A} (r : Z + A) : ptr r ≠ Fault.
Proof. by destruct r. Qed.

Lemma rmap_ptr_total {A} (l : list (Z + A)) : rmap ptr l ≠ Fault.
Proof.
  induction l as [|r l IH]; [done|]. cbn [rmap].
  apply rbind_total; [apply ptr_total|intros a]. by apply rbind_total.
Qed.

Lemma init_mcu_total base : init_mcu base ≠ Fault.
Proof.
  unfold init_mcu, qcom_usb4_mcu_init, bind, get, modify, fail. by if_case E.
Qed.

Lemma probe_setup_total f : probe_setup sha256 f ≠ Fault.
Proof.
  unfold probe_setup.
  repeat match goal with
  | |- (if ?b then _ else _) ≠ Fault => destruct b; [done|]
  | |- (let '(_, _) := ?x in _) ≠ Fault => destruct x
  | |- rbind _ _ ≠ Fault => apply rbind_total; [|intros ?]
  end; try apply ptr_total; try apply rmap_ptr_total; try apply init_mcu_total; try done.
  apply validate_never_faults. lia.
Qed.

Abbreviation sequence :=
  (probe_sequence (W:=world_) crc32c reference_only start_polls command_polls).

Lemma errs_on_fe {A} P (m : M (fe world_) A) : errs P m → errs P (on_fe m).
Proof.
  intros Hm [st f] e s'. unfold on_fe. destruct (m f) as [r f'] eqn:E. intros [= -> _].
  by eapply Hm.
Qed.

Lemma errs_startup cfg (o : x1_ops (fe world_)) :
  errs (λ e, e ≠ 0) (x1_startup_run crc32c cfg (Some o)).
Proof.
  intros [st f] e s'. unfold x1_startup_run. destruct (decide _).
  { intros [= <- _]. by destruct (decide _). }
  destruct (startup_body _ _ _ _ _) as [[[]|e0|] [st1 f1]]; [done| |done].
  intros [= <- _]. unfold EPROTO. destruct (Z.ltb_spec e0 0); lia.
Qed.

Lemma errs_sequence p : errs (λ e, e ≠ 0) (sequence p).
Proof.
  assert (∀ c, errs (λ e, e ≠ 0) (on_fe (kern (W:=world_) c))) as Hk
    by (intros c; apply errs_on_fe, errs_kern).
  assert (∀ c, errs (λ e, e ≠ 0) (on_fe (kvoid (W:=world_) c))) as Hv.
  { intros c. apply errs_on_fe. intros f e f'. unfold kvoid.
    by destruct (k_call c (fe_hw f)) as [[r v] w]. }
  assert (∀ n, errs (λ e, e ≠ 0) (at_stage (W:=world_) n)) as Ha by (by intros n [] ? ?).
  unfold probe_sequence. repeat (apply errs_bind; [first [apply Ha|apply Hk|apply Hv|idtac]|intros _]).
  - apply errs_on_fe. intros f e f'. unfold pm_resume.
    destruct (k_call KPmResume (fe_hw f)) as [[r v] w]. destruct (Z.ltb_spec r 0); [|done].
    intros [= <- _]. lia.
  - apply errs_on_fe. unfold enable_clocks.
    assert (errs (λ e, e ≠ 0) (for_each [0; 1; 2; 3; 4; 5] (λ i, kvoid (W:=world_) (KClkRate i))))
      as Hr.
    { apply errs_for_each. intros i f e f'. unfold kvoid.
      by destruct (k_call _ (fe_hw f)) as [[r v] w]. }
    apply errs_bind; [exact Hr|intros _]. apply errs_bind; [apply errs_kern|intros _]. exact Hr.
  - apply errs_startup.
  - assert (errs (λ e, e ≠ 0) (do! on_fe (kern (W:=world_) KNhiRun) in
      do! on_fe (kern KLinkRegister) in ret tt)) as Hn.
    { do 2 (apply errs_bind; [apply Hk|intros _]). by intros ???. }
    intros s e s'. unfold on_error.
    match goal with |- context [match ?m s with _ => _ end] => destruct (m s) as [[[]|e0|] s1] eqn:E end;
      [done| |done]. intros [= <- _]. by eapply Hn.
Qed.

(** The attempt ends with what its sequence ended with. *)
Lemma probe_attempt_result p (m : module (W:=world_)) :
  let s := sequence p (X1State X1_NEW X1_NONE X1_NONE 0, Fe (world m) 0 "" false) in
  let m' := probe_attempt crc32c reference_only start_polls command_polls p m in
  ∃ b, drvdata m' = Some b ∧ attempted m' = attempted m ∧ b_probe b = p ∧
    b_error b = settle (code s.1) ∧ log (world m') = log (fe_hw s.2.2).
Proof.
  cbv zeta. unfold probe_attempt. destruct (sequence p _) as [r [st f]].
  pose proof (k_call_log (KCreateFile "result") (fe_hw f)) as H1.
  destruct (k_call (KCreateFile "result") (fe_hw f)) as [[r1 v1] w1].
  pose proof (k_call_log (KCreateFile "control_stop") w1) as H2.
  destruct (k_call (KCreateFile "control_stop") w1) as [[r2 v2] w2]. cbn [snd] in *.
  eexists. split; [done|]. split_and!; [done..|]. cbn [world].
  destruct (r2 =? 0); [|rewrite k_call_log]; congruence.
Qed.

Lemma settle_zero {A} (r : res A) :
  r ≠ Fault → (∀ e, r = Err e → e ≠ 0) →
  (settle (code r) =? 0) = match r with Ok _ => true | _ => false end.
Proof.
  intros Hf He. unfold settle, EPROTO. destruct r as [a|e|]; [done| |done].
  specialize (He e eq_refl). simpl.
  destruct (Z.ltb_spec e 0), (Z.eqb_spec e 0); simpl; try lia; apply Z.eqb_neq; lia.
Qed.

End attempt.

(** ** Witness: a board that comes up

    Registers hold what is written, except that the firmware reports READY
    while RUN is set and empties its mailbox at once; every other subsystem
    succeeds. *)

Record sim := Sim { cells : regs Z }.
#[export] Instance sim_mmio : Mmio Z sim := {|
  dev_read a d :=
    (if a =? 0x18 then (if tst (cells d 0x22000) 1 then BIT 24 else 0) else cells d a, d);
  dev_write a v d :=
    if a =? 0x2200c then d else Sim (dev_write a v (cells d));
|}.
#[export] Instance sim_kernel : Kernel sim := λ _ d, (0, 1, d).

Definition cold_board : traced Z sim := Traced (Sim (λ a, if a =? 0x78640 then 3 else 0)) [].

Lemma sample_image_fits : Forall (record_ok 0xf000) sample_image.
Proof. repeat constructor; simpl; unfold U32_MAX; try lia; vm_compute; try done. Qed.

Lemma startup_refines_script_witness :
  ∃ st f, x1_startup_run castagnoli (Some (run_config sample_image 7))
      (Some (ops castagnoli false 3 3
        (Probe legacy_mcu (run_config sample_image 7) (enc_image sample_image))))
      (fresh_state, Fe cold_board 0 EmptyString false) = (Ok tt, (st, f)) ∧
    attempt_trace castagnoli sample_image 7 true [] (log (fe_hw f)).
Proof.
  pose proof (startup_refines_script castagnoli false 3 3 0x15600000 ltac:(discriminate)
    sample_image ltac:(discriminate) sample_image_fits 7 cold_board 0 EmptyString false
    X1_NONE X1_NONE 0) as Hr.
  cbv zeta in Hr. fold fresh_state legacy_mcu in Hr. change (log cold_board) with (@nil (access Z)) in Hr.
  assert ((x1_startup_run castagnoli (Some (run_config sample_image 7))
      (Some (ops castagnoli false 3 3
        (Probe legacy_mcu (run_config sample_image 7) (enc_image sample_image))))
      (fresh_state, Fe cold_board 0 EmptyString false)).1 = Ok tt) as E
    by (vm_compute; reflexivity).
  destruct (x1_startup_run _ _ _ _) as [r [st f]]. cbn [fst] in E. subst r.
  exists st, f. split; [reflexivity|exact Hr].
Defined.
