(* ===== verification/ColdStart.v ===== *)
(** * The cold start over its providers

    Frontend.v takes the other kernel subsystems as an environment.  Here the
    clock and PHY calls of that environment are the providers of Providers.v,
    so that the sequencer, the driver's callbacks and the providers run as one
    system: the script of everything the cold start does to clocks, resets and
    PHY power. *)

From S2P Require Import Prelude Fw Drom Mcu Startup Typec Board Providers Frontend.

(** The router window [R], the providers' own state, and the services [D]
    behind them with the record of what was asked of them. *)
Record board (R D : Type) := BoardW {
  bw_router : R;
  bw_gcc : gcc;
  bw_qmp : qmp_combo;
  bw_svc : plogged D;
}.
Arguments BoardW {_ _} _ _ _ _.
Arguments bw_router {_ _} _.
Arguments bw_gcc {_ _} _.
Arguments bw_qmp {_ _} _.
Arguments bw_svc {_ _} _.

#[export] Instance board_mmio {R D} `{Mmio Z R} : Mmio Z (board R D) := {|
  dev_read a b := let (v, r) := dev_read a (bw_router b) in
                  (v, BoardW r (bw_gcc b) (bw_qmp b) (bw_svc b));
  dev_write a v b := BoardW (dev_write a v (bw_router b)) (bw_gcc b) (bw_qmp b) (bw_svc b);
|}.

(** Calls with no provider here: they may change the router's world, the PHY
    driver's counters and the devices, but go through other interfaces. *)
Class Others (R D : Type) := other_call : kcall → R * qmp_combo * D → Z * Z * (R * qmp_combo * D).

Section kernel.
Context (allowed : bool) (polls : nat) (me : option gowner) (handle : option (nat * bool)).
Context {R D : Type} `{Mmio Z R} `{Regmap D} `{PhyServices D} `{Mmio phy_reg D} `{Others R D}.

Definition via_gcc (m : M (gcc * plogged D) unit) (b : board R D) : Z * Z * board R D :=
  let '(r, (g, s)) := m (bw_gcc b, bw_svc b) in
  (code r, 0, BoardW (bw_router b) g (bw_qmp b) s).
Definition via_phy (m : M (qmp_combo * plogged D) unit) (b : board R D) : Z * Z * board R D :=
  let '(r, (q, s)) := m (bw_qmp b, bw_svc b) in
  (code r, 0, BoardW (bw_router b) (bw_gcc b) q s).
Definition via_other (c : kcall) (b : board R D) : Z * Z * board R D :=
  let '(r, v, (x, q, d)) := other_call c (bw_router b, bw_qmp b, pl_dev (bw_svc b)) in
  (r, v, BoardW x (bw_gcc b) q (PLogged d (pl_log (bw_svc b)))).

#[local] Instance board_kernel : Kernel (board R D) := λ c,
  match c with
  | KGccClaim => via_gcc (x1_diag_gcc_claim allowed me)
  | KGccApply op => via_gcc (x1_diag_gcc_apply allowed polls me op)
  | KPhyApply op => via_phy (x1_diag_phy_apply allowed handle op)
  | c => via_other c
  end.
End kernel.

(** ** The script *)

Definition power_row (op : operation) : list (pevent → Prop) :=
  match o_kind op with
  | PROVIDER =>
      match o_step op with
      | X1_PHY_PREPARE => phy_script X1_DIAG_PHY_PREPARE
      | X1_RX_CLOCK_REFERENCE => gcc_script X1_GCC_RX_REFERENCE
      | X1_RX_CLOCK_PHY => gcc_script X1_GCC_RX_PHY
      | X1_MISC_RESET_ASSERT => gcc_script X1_GCC_MISC_ASSERT
      | X1_MISC_RESET_CLEAR => gcc_script X1_GCC_MISC_CLEAR
      | X1_EXTRA_RESET_ASSERT => gcc_script X1_GCC_EXTRA_ASSERT
      | X1_EXTRA_RESET_CLEAR => gcc_script X1_GCC_EXTRA_CLEAR
      | X1_PIPE_RESET_ASSERT => gcc_script X1_GCC_PIPE_ASSERT
      | X1_PIPE_RESET_CLEAR => gcc_script X1_GCC_PIPE_CLEAR
      | X1_SYS_READY => gcc_script X1_GCC_SYS_READY
      | X1_SYS_MEMORY_FORCE => gcc_script X1_GCC_MEMORY_FORCE
      | X1_PIPE_HWCG_OFF => gcc_script X1_GCC_HWCG_OFF
      | X1_DP_RESET_ASSERT => phy_script X1_DIAG_PHY_DP_ASSERT
      | X1_DP_RESET_CLEAR => phy_script X1_DIAG_PHY_DP_CLEAR
      | _ => []
      end
  | _ => []
  end.
Definition power_script : list (pevent → Prop) := flat_map power_row operations.

(** ** Code that asks nothing of the providers *)

Section quiet.
Context {R D : Type} `{Mmio Z R}.
Abbreviation world := (traced Z (board R D)).
Definition plog (w : world) : list pevent := pl_log (bw_svc (hw w)).
Definition same_plog : relation world := λ w w', plog w' = plog w.
#[export] Instance same_plog_preorder : PreOrder same_plog.
Proof. split; [by intros w|]. intros w1 w2 w3 E1 E2. unfold same_plog in *. congruence. Qed.

Lemma quiet_readl a : keeps same_plog (readl (D:=world) a).
Proof.
  intros w. unfold same_plog, plog, readl. simpl. by destruct (dev_read a (bw_router (hw w))).
Qed.
Lemma quiet_writel v a : keeps same_plog (writel (D:=world) v a).
Proof. by intros w. Qed.
#[local] Hint Resolve quiet_readl quiet_writel : km.

Lemma quiet_poll n a cond : keeps same_plog (readl_poll_timeout (D:=world) n a cond).
Proof. induction n as [|n IH]; cbn [readl_poll_timeout]; keeps_auto. Qed.
#[local] Hint Resolve quiet_poll : km.

Lemma quiet_fw data size ram (w : Z → Z → world → Z * world) :
  (∀ o v s, same_plog s (w o v s).2) →
  keeps same_plog (qcom_usb4_fw_upload data size ram (Some w)).
Proof.
  intros Hw.
  assert (∀ d n o p, keeps same_plog (fw_upload_words d w n o p)) as Hws.
  { intros d. induction n as [|n IH]; intros o p; cbn [fw_upload_words]; keeps_auto.
    apply keeps_try. intros s. apply Hw. }
  assert (∀ d sz n p, keeps same_plog (fw_upload_loop d sz w n p)) as Hl.
  { intros d sz. induction n as [|n IH]; intros p; cbn [fw_upload_loop]; keeps_auto. }
  unfold qcom_usb4_fw_upload. keeps_auto.
Qed.

Lemma quiet_write_word m o v s : same_plog s (qcom_usb4_mcu_write_word (D:=world) m o v s).2.
Proof. done. Qed.

Lemma quiet_mcu_upload m data size :
  keeps same_plog (qcom_usb4_mcu_upload (D:=world) m data size).
Proof.
  unfold qcom_usb4_mcu_upload. keeps_auto. apply quiet_fw. intros. apply quiet_write_word.
Qed.

Lemma quiet_mcu_start n m : keeps same_plog (mcu_start_run (D:=world) n m).
Proof.
  unfold mcu_start_run, qcom_usb4_mcu_update. keeps_auto.
  apply keeps_on_error; [apply _| |].
  - unfold mcu_await_shared. keeps_auto.
  - unfold qcom_usb4_mcu_stop, qcom_usb4_mcu_update. keeps_auto.
Qed.

Lemma quiet_mcu_command n m c t : keeps same_plog (qcom_usb4_mcu_command (D:=world) n m c t).
Proof. unfold qcom_usb4_mcu_command. keeps_auto. Qed.
End quiet.

Lemma does_or_safe {S E A} `{Logged S E} vis halts Ps (m : M S A) :
  does_or vis halts Ps m → safe m.
Proof. intros Hm s E'. destruct (Hm s) as (t&_&Hr). by rewrite E' in Hr. Qed.

Section power.
Context (allowed : bool) (polls : nat) (me : option gowner) (handle : option (nat * bool)).
Context {R D : Type} `{Mmio Z R} `{Regmap D} `{PhyServices D} `{Mmio phy_reg D} `{Others R D}.
#[local] Instance providers : Kernel (board R D) := board_kernel allowed polls me handle.
Context (crc32c : Z → list Z → Z) (reference_only : bool) (start_polls command_polls : nat).
Context (base0 : Z) (Hbase : base0 ≠ 0).
Context (rs : list record) (Hne : rs ≠ []) (Hrs : Forall (record_ok 0xf000) rs).
Context (serial : Z).

Abbreviation world := (traced Z (board R D)).
Abbreviation mcu := {| base := base0; ram_size := 0xf000; ram_offset := 0x13000;
  control_offset := 0x22000; shared_offset_reg := 0x22010; drom_offset := 0xdf20 |}.
Abbreviation pr := (Probe mcu (run_config rs serial) (enc_image rs)).
Abbreviation fops := (ops crc32c reference_only start_polls command_polls pr : x1_ops (fe world)).
Abbreviation cfg0 := (run_config rs serial).

#[local] Instance fe_plog : Logged (fe world) pevent := λ f, plog (fe_hw f).
#[local] Instance run_plog : Logged (x1_state * fe world) pevent := λ s, plog (fe_hw s.2).
Definition same_fe : relation (fe world) := λ f f', plog (fe_hw f') = plog (fe_hw f).
#[local] Instance same_fe_preorder : PreOrder same_fe.
Proof. split; [by intros f|]. intros f1 f2 f3 E1 E2. unfold same_fe in *. congruence. Qed.
Abbreviation powers := (does_or pvis phalts).

Lemma powers_quiet {A} (m : M (fe world) A) : safe m → keeps same_fe m → powers [] m.
Proof.
  intros Hs Hk. apply does_does_or, does_silent; [done|]. intros f. exists [].
  rewrite app_nil_r. split; [apply Hk|constructor].
Qed.

Lemma quiet_hw {A} (m : M world A) : keeps same_plog m → keeps same_fe (on_hw m).
Proof.
  intros Hm f. unfold on_hw. specialize (Hm (fe_hw f)). by destruct (m (fe_hw f)) as [r w].
Qed.
Lemma quiet_or_else e (m : M (fe world) unit) : keeps same_fe m → keeps same_fe (or_else e m).
Proof. intros Hm f. specialize (Hm f). unfold or_else. by destruct (m f) as [[?|?|] ?]. Qed.
Lemma quiet_as_int (m : M (fe world) unit) : keeps same_fe m → keeps same_fe (try_ (as_int m)).
Proof.
  intros Hm. apply keeps_try. intros f. specialize (Hm f). unfold as_int.
  by destruct (m f) as [r f'].
Qed.

(** A call with no provider here. *)
Definition unprovided (c : kcall) : bool :=
  match c with KGccClaim | KGccApply _ | KPhyApply _ => false | _ => true end.

Lemma other_quiet c (w : world) : unprovided c = true → plog (k_call c w).2 = plog w.
Proof.
  intros Hc. unfold k_call, traced_kernel, k_call, providers.
  assert (board_kernel allowed polls me handle c (hw w) = via_other c (hw w)) as -> by by destruct c.
  unfold via_other. by destruct (other_call c _) as [[r v] [[x q] d]].
Qed.

Lemma quiet_kern c : unprovided c = true → keeps same_fe (kern (W:=world) c).
Proof.
  intros Hc f. unfold same_fe, kern. pose proof (other_quiet c (fe_hw f) Hc) as E.
  by destruct (k_call c (fe_hw f)) as [[r v] w].
Qed.
Lemma quiet_kvoid c : unprovided c = true → keeps same_fe (kvoid (W:=world) c).
Proof.
  intros Hc f. unfold same_fe, kvoid. pose proof (other_quiet c (fe_hw f) Hc) as E.
  by destruct (k_call c (fe_hw f)) as [[r v] w].
Qed.
#[local] Hint Resolve quiet_hw quiet_readl quiet_writel quiet_mcu_upload quiet_mcu_command
  quiet_or_else quiet_kern quiet_kvoid : km.

Lemma quiet_check a mask v : keeps same_fe (check_router (W:=world) a mask v).
Proof. unfold check_router. keeps_auto. Qed.
Lemma quiet_read a : keeps same_fe (read_router (W:=world) a).
Proof. unfold read_router. keeps_auto. Qed.
#[local] Hint Resolve quiet_check quiet_read : km.
Lemma quiet_update a mask v : keeps same_fe (update_router (W:=world) a mask v).
Proof. unfold update_router. keeps_auto. Qed.
#[local] Hint Resolve quiet_update : km.

Lemma quiet_delay us f : plog (fe_hw (ops_delay_us fops us f)) = plog (fe_hw f).
Proof.
  cbn [ops ops_delay_us]. unfold delay_us.
  destruct (us <? 20); [apply (quiet_kvoid (KUdelay us))|apply (quiet_kvoid (KUsleepRange us _))];
    done.
Qed.

Lemma quiet_verify data n pos : keeps same_fe (verify_records (W:=world) data n pos).
Proof.
  assert (∀ k o p, keeps same_fe (verify_words (W:=world) data k o p)) as Hw.
  { induction k as [|k IH]; intros o p; cbn [verify_words]; keeps_auto. }
  revert pos. induction n as [|n IH]; intros pos; cbn [verify_records]; keeps_auto.
Qed.
#[local] Hint Resolve quiet_verify : km.

Lemma quiet_upload p : keeps same_fe (upload_checked (W:=world) p).
Proof. unfold upload_checked. keeps_auto. Qed.

Lemma quiet_drom p : keeps same_fe (store_drom (W:=world) crc32c p).
Proof.
  unfold store_drom. keeps_auto; try (apply quiet_or_else; keeps_auto);
    apply keeps_for_each; try apply _; intros i _; keeps_auto.
Qed.

Lemma quiet_snapshot p m : keeps same_fe m → keeps same_fe (with_snapshot (W:=world) p m).
Proof.
  intros Hm f. unfold with_snapshot. specialize (Hm f).
  assert (keeps same_fe (mcu_snapshot (W:=world) p)) as Hs by (unfold mcu_snapshot; keeps_auto).
  destruct (m f) as [[[]|e|] f']; cbn [fst snd] in *; [| |done]; etransitivity; eauto.
Qed.

Lemma quiet_start p : keeps same_fe (mcu_start (W:=world) start_polls p).
Proof.
  intros f. unfold same_fe, mcu_start, qcom_usb4_mcu_start.
  destruct (base (p_mcu p) =? 0); [done|].
  pose proof (quiet_mcu_start start_polls (p_mcu p) (fe_hw f)) as E.
  by destruct (mcu_start_run start_polls (p_mcu p) (fe_hw f)) as [[o|e|] w].
Qed.
#[local] Hint Resolve quiet_upload quiet_drom quiet_snapshot quiet_start : km.

(** ** Steps that do *)

(** A provider's operation, as the driver's callback sees it. *)
Lemma powers_call c Ps (go : world → res unit * list pevent) :
  (∀ w, ∃ v, (k_call c w).1 = (code (go w).1, v)) →
  (∀ w, plog (k_call c w).2 = plog w ++ (go w).2) →
  (∀ w, match (go w).1 with
        | Ok _ => matches pvis Ps (go w).2
        | Err e => e ≠ 0 ∧ ∃ k c, matches pvis (take k Ps ++ c) (go w).2 ∧ (c = [] ∨ c ∈ phalts)
        | Fault => False
        end) →
  powers Ps (do! kern (W:=world) c in ret tt).
Proof.
  intros Hr Hl Hg f. exists (go (fe_hw f)).2. unfold bind, kern.
  specialize (Hl (fe_hw f)). specialize (Hg (fe_hw f)).
  destruct (Hr (fe_hw f)) as [v Ev]. destruct (k_call c (fe_hw f)) as [rv w]. simpl in *. subst rv.
  destruct (go (fe_hw f)) as [[a|e|] t]; cbn [fst snd code] in *; [..|done].
  - done.
  - destruct Hg as [He Hg]. by destruct (Z.eqb_spec e 0).
Qed.

Lemma powers_gcc op : powers (gcc_script op) (do! kern (W:=world) (KGccApply op) in ret tt).
Proof.
  pose (go (w : world) := let out := x1_diag_gcc_apply allowed polls me op
    (bw_gcc (hw w), bw_svc (hw w)) in (out.1, drop (length (plog w)) (pl_log out.2.2))).
  apply (powers_call _ _ go).
  - intros w. exists 0. unfold k_call, traced_kernel, k_call, providers, board_kernel, via_gcc, go.
    by destruct (x1_diag_gcc_apply _ _ _ _ _) as [r [g s]].
  - intros w. unfold k_call, traced_kernel, k_call, providers, board_kernel, via_gcc, go, plog.
    rewrite apply_unfold. destruct (may_apply _ _ _); cbn [fst snd]; [|by rewrite drop_all, app_nil_r].
    destruct (switch_logged polls op (bw_svc (hw w))) as (t&Ht&_). unfold get_log, plogged_logged in Ht.
    destruct (gcc_switch polls op (bw_svc (hw w))) as [r s]. cbn [fst snd hw bw_svc] in *.
    by rewrite Ht, drop_app_length.
  - intros w. unfold go, plog. rewrite apply_unfold. destruct (may_apply _ _ _); cbn [fst snd].
    2: { rewrite drop_all. split; [done|]. exists 0%nat, []. split; [constructor|by left]. }
    destruct (switch_logged polls op (bw_svc (hw w))) as (t&Ht&Hr).
    pose proof (errs_switch polls op (bw_svc (hw w))) as He. unfold get_log, plogged_logged in Ht.
    destruct (gcc_switch polls op (bw_svc (hw w))) as [[[]|e|] s]; cbn [fst snd] in *; [..|done];
      rewrite Ht, drop_app_length; [done|]. split; [by eapply He|done].
Qed.

Lemma powers_phy op : powers (phy_script op) (do! kern (W:=world) (KPhyApply op) in ret tt).
Proof.
  pose (go (w : world) := let out := x1_diag_phy_apply allowed handle op
    (bw_qmp (hw w), bw_svc (hw w)) in (out.1, drop (length (plog w)) (pl_log out.2.2))).
  apply (powers_call _ _ go).
  - intros w. exists 0. unfold k_call, traced_kernel, k_call, providers, board_kernel, via_phy, go.
    by destruct (x1_diag_phy_apply _ _ _ _) as [r [q s]].
  - intros w. unfold k_call, traced_kernel, k_call, providers, board_kernel, via_phy, go, plog.
    destruct (phy_apply_unfold allowed handle op (bw_qmp (hw w)) (bw_svc (hw w)))
      as [(p&_&_&_&_&->)|(e&_&->)]; cbn [fst snd]; [|by rewrite drop_all, app_nil_r].
    destruct (granted_logged op (bw_qmp (hw w)) (bw_qmp (hw w), bw_svc (hw w))) as (t&Ht&_).
    unfold get_log, qmp_logged in Ht.
    destruct (phy_granted _ _ _) as [r [q s]]. cbn [fst snd hw bw_svc] in *.
    by rewrite Ht, drop_app_length.
  - intros w. unfold go, plog.
    destruct (phy_apply_unfold allowed handle op (bw_qmp (hw w)) (bw_svc (hw w)))
      as [(p&_&_&_&_&->)|(e&He&->)]; cbn [fst snd].
    2: { rewrite drop_all. split; [set_unfold; destruct He as [->|[->|[->|[]]]]; done|].
         exists 0%nat, []. split; [constructor|by left]. }
    destruct (granted_logged op (bw_qmp (hw w)) (bw_qmp (hw w), bw_svc (hw w))) as (t&Ht&Hr).
    unfold get_log, qmp_logged in Ht.
    pose proof (errs_granted op (bw_qmp (hw w)) (bw_qmp (hw w), bw_svc (hw w))) as He.
    destruct (phy_granted _ _ _) as [[[]|e|] [q s]]; cbn [fst snd] in *; [..|done];
      rewrite Ht, drop_app_length; [done|]. split; [by eapply He|done].
Qed.

(** ** The sequencer *)

Lemma powers_note {A} Ps g (k : unit → M (fe world) A) :
  (∀ f, fe_hw (g f) = fe_hw f) → powers Ps (k tt) → powers Ps (bind (modify g) k).
Proof.
  intros Hg Hk f. unfold bind, modify. destruct (Hk (g f)) as (t&Ht&Hr).
  exists t. split; [|done]. rewrite Ht. unfold get_log, fe_plog. by rewrite Hg.
Qed.

Lemma powers_step op :
  powers (power_row (P_ op "")) (step crc32c reference_only start_polls command_polls pr op cfg0).
Proof.
  assert (safe (step (W:=world) crc32c reference_only start_polls command_polls pr op cfg0)) as Hs.
  { destruct (follows_step (D:=board R D) crc32c reference_only start_polls command_polls
      base0 Hbase rs Hne Hrs serial op) as [Hd _].
    exact (does_or_safe (E:=access Z) _ _ _ _ Hd). }
  destruct op;
    try (unfold step; apply powers_note; [done|]; cbn [step_body];
         first [apply powers_gcc | apply powers_phy]);
    try (apply powers_quiet; [exact Hs|]; unfold step;
         apply keeps_bind; [apply _|by intros f|]; intros _; cbn [step_body]; keeps_auto; done).
  - unfold step. apply powers_note; [done|]. cbn [step_body]. unfold select_rx_source.
    destruct reference_only; [|apply powers_gcc].
    apply (does_or_bind _ _ []).
    + apply powers_quiet; [|apply quiet_read]. intros f. unfold read_router. simpl. unfold on_hw, readl.
      by destruct (dev_read _ (fe_hw f)).
    + intros _. apply powers_note; [done|]. apply does_does_or, does_fail.
  - apply powers_quiet; [exact Hs|]. unfold step. apply keeps_bind; [apply _|by intros f|].
    intros _. cbn [step_body]. apply quiet_snapshot. keeps_auto.
Qed.

Lemma powers_execute op :
  op ∈ operations → powers (power_row op) (execute op cfg0 fops).
Proof.
  intros Hop.
  pose proof (does_or_safe (E:=access Z) _ _ _ _ (does_execute (D:=board R D) crc32c reference_only
    start_polls command_polls base0 Hbase rs Hne Hrs serial op Hop)) as Hs.
  unfold execute, power_row in *. destruct (o_kind op).
  - eapply does_or_ext; [|apply (powers_step (o_step op))]. intros f. apply try_as_int.
    + destruct (follows_step (D:=board R D) crc32c reference_only start_polls command_polls
        base0 Hbase rs Hne Hrs serial (o_step op)) as [Hd _].
      apply (does_or_safe (E:=access Z) _ _ _ _ Hd).
    + destruct (follows_step (D:=board R D) crc32c reference_only start_polls command_polls
        base0 Hbase rs Hne Hrs serial (o_step op)) as [_ He].
      intros e E. destruct (step _ _ _ _ _ _ _ f) as [r f'] eqn:Ef. simpl in E. subst.
      by eapply He.
  - apply powers_quiet; [exact Hs|]. apply quiet_as_int, quiet_update.
  - apply powers_quiet; [exact Hs|]. intros f. apply quiet_delay.
  - apply powers_quiet; [exact Hs|]. intros f. apply quiet_delay.
  - apply powers_quiet; [exact Hs|].
    assert (keeps same_fe (call_read fops 0x1200c)) as Hr.
    { intros f. pose proof (quiet_read 0x1200c f) as E. unfold call_read. cbn [ops ops_read].
      destruct (read_router (W:=world) 0x1200c f) as [r f']. cbn [snd] in E.
      destruct r as [v|e|]; cbn [code]; [done| |done]. by destruct (e =? 0). }
    assert (∀ us, keeps same_fe (modify (ops_delay_us fops us))) as Hp
      by (intros us f; apply quiet_delay).
    assert (∀ n, keeps same_fe (clear_1200c_loop fops n)) as Hl.
    { induction n as [|n IH]; cbn [clear_1200c_loop]; keeps_auto; try apply Hr; try apply Hp;
        try done. apply quiet_as_int, quiet_update. }
    unfold clear_1200c. keeps_auto.
Qed.

Lemma powers_stage Ps s m : powers Ps m → powers Ps (stage (S:=fe world) s m).
Proof.
  intros Hm [st f]. destruct (Hm f) as (t&Ht&Hr). exists t. unfold stage.
  by destruct (m f) as [[[]|e|] f'].
Qed.

Lemma powers_seq {T A B} `{Logged T pevent} Ps (m : M T A) (k : A → M T B) :
  powers [] m → (∀ a, powers Ps (k a)) → powers Ps (bind m k).
Proof. apply (does_or_bind _ _ []). Qed.

Lemma powers_body : powers power_script (startup_body crc32c operations (Some cfg0) (Some fops)).
Proof.
  unfold startup_body. apply powers_seq.
  { apply powers_stage, powers_quiet; [|by intros f]. apply safe_lift. apply validate_total.
    cbn. lia. }
  intros _. apply powers_seq.
  { apply powers_stage, powers_quiet.
    - eapply (does_or_safe (E:=access Z)). apply follows_try. apply follows_owner.
    - apply quiet_as_int. unfold owner. keeps_auto. apply quiet_or_else. keeps_auto. }
  intros _. apply does_or_for_each. intros op Hop. by apply powers_stage, powers_execute.
Qed.

End power.

(** ** Witness: services that succeed, registers that hold what is written *)

#[export] Instance phy_reg_eq_dec : EqDecision phy_reg.
Proof. solve_decision. Defined.

Record services := Services { sv_gcc : regs Z; sv_phy : regs phy_reg }.
#[export] Instance services_regmap : Regmap services := {|
  regmap_update_bits off mask v d :=
    let old := sv_gcc d off in
    (0, Services (dev_write off ((old .& not32 mask) .| v) (sv_gcc d)) (sv_phy d));
  regmap_read off d := (0, sv_gcc d off, d);
|}.
#[export] Instance services_phy : PhyServices services := λ _ d, (0, d).
#[export] Instance services_mmio : Mmio phy_reg services := {|
  dev_read a d := (sv_phy d a, d);
  dev_write a v d := Services (sv_gcc d) (dev_write a v (sv_phy d));
|}.
#[export] Instance sim_others : Others sim services := λ _ s, (0, 1, s).

Definition x1_qmp : qmp_combo :=
  Qmp true 3 true 0x6f true true 2 0 0 0 0 false false false.
Definition mcu_device : gowner := GOwner 5 true.
Definition cold_system : traced Z (board sim services) :=
  Traced (BoardW (hw cold_board) (Gcc true (Some 5%nat)) x1_qmp
            (PLogged (Services (λ _, 0) (λ _, 0)) [])) [].
#[local] Instance sample_providers : Kernel (board sim services) :=
  board_kernel true 2 (Some mcu_device) (Some (3%nat, true)).

Abbreviation sample_run := (x1_startup_run castagnoli (Some (run_config sample_image 7))
  (Some (ops castagnoli false 3 3
    (Probe legacy_mcu (run_config sample_image 7) (enc_image sample_image))))
  (fresh_state, Fe cold_system 0 EmptyString false)).

Lemma sample_run_ok :
  sample_run.1 = Ok tt ∧ sample_run.2.1 = X1State X1_COMPLETE X1_NONE X1_PRESET 0.
Proof. split; vm_compute; reflexivity. Qed.

