(* ===== verification/Observer.v ===== *)
(** * The Type-C observer (snapshot/kernel/drivers/soc/qcom/yoga_typec_observer.c)

    One driver record is shared by four parties: the notification callback and
    the service-state callback, which arrive at any time; the work item, which
    applies and acknowledges each notification; and the two sysfs stores,
    serialised by [control_lock].  Every access to the shared record, the store
    of [link_result] apart, is in a section under the spinlock, so a section is
    one step and the parties interleave between them: [step] below, with the
    answer of each outside call in its label.

    Type-C values are kept as the macros that build them, whose encoding is
    another subsystem's.  Logging and the formatting attribute are left out. *)

From S2P Require Import Prelude Typec Board.

Definition PAN_LIMIT : nat := 32.

Record observer := Observer {
  o_ack : nat;
  o_events : list yoga_pan;
  o_count : nat;
  o_processed : nat;
  o_ack_len : Z;
  o_error : Z;
  o_service_up : bool;
  o_active : bool;
  o_attempted : bool;
  o_awaiting : bool;
  o_sw : bool;
  o_retimer : bool;
  o_configured : Z;
  o_tunneling : Z;
  o_link_attempted : bool;
  o_link_result : Z;
  o_link_count : nat;
}.
#[export] Instance observer_eta : Eta observer := λ o,
  Observer (o_ack o) (o_events o) (o_count o) (o_processed o) (o_ack_len o) (o_error o)
    (o_service_up o) (o_active o) (o_attempted o) (o_awaiting o) (o_sw o) (o_retimer o)
    (o_configured o) (o_tunneling o) (o_link_attempted o) (o_link_result o) (o_link_count o).

(** ** What the driver asks of other subsystems *)

Inductive orientation :=
| TYPEC_ORIENTATION_NONE | TYPEC_ORIENTATION_NORMAL | TYPEC_ORIENTATION_REVERSE.
Inductive usb4_speed := EUDO_CABLE_SPEED_USB4_GEN2 | EUDO_CABLE_SPEED_USB4_GEN3.
Inductive tbt_speed := TBT_CABLE_USB3_PASSIVE | TBT_CABLE_10_AND_20GBPS.

(** [struct typec_retimer_state]: an EUDO of mode USB4 with this speed and cable
    type, or the three Thunderbolt words for a speed and, with an active cable,
    its rounded bit. *)
Inductive retimer_state :=
| TYPEC_STATE_SAFE
| TYPEC_STATE_USB
| TYPEC_MODE_USB4 (speed : usb4_speed) (cable_type : Z)
| TYPEC_TBT_MODE (speed : tbt_speed) (active : option Z).

Inductive effect :=
| ESwitch (o : orientation)
| ERetimer (s : retimer_state)
| ESend (packet : list Z)
| ELink (word : Z)
| ELinkStop.

(** ** [configure_port] *)

Definition plan_orientation (p : yoga_port_plan) : orientation :=
  if pp_orientation p =? 2 then TYPEC_ORIENTATION_NONE else
  if pp_orientation p =? 1 then TYPEC_ORIENTATION_REVERSE else TYPEC_ORIENTATION_NORMAL.

Definition plan_state (p : yoga_port_plan) : option retimer_state :=
  if pp_mode p =? YOGA_SAFE then Some TYPEC_STATE_SAFE else
  if pp_mode p =? YOGA_USB3 then Some TYPEC_STATE_USB else
  if pp_mode p =? YOGA_USB4 then
    Some (TYPEC_MODE_USB4 (if pp_speed p =? 0 then EUDO_CABLE_SPEED_USB4_GEN2
                           else EUDO_CABLE_SPEED_USB4_GEN3) (pp_cable_type p)) else
  if pp_mode p =? YOGA_TBT then
    Some (TYPEC_TBT_MODE (if pp_speed p =? 0 then TBT_CABLE_USB3_PASSIVE
                          else TBT_CABLE_10_AND_20GBPS)
            (if pp_cable_type p =? 0 then None else Some (pp_rounded p)))
  else None.

(** The observer and the record of its calls. *)
Definition obs : Type := observer * list effect.
Definition calls_ (e : effect) (ret : Z) : M obs unit := λ '(o, l),
  ((if ret =? 0 then Ok tt else Err ret), (o, l ++ [e])).

(** [nhi], [sw], [rt]: what [x1_diag_nhi_complete], [typec_switch_set] and
    [typec_retimer_set] return.  Before its last section it reads only fields
    that never change, so the whole is one step. *)
Definition configure_port (nhi : bool) (sw rt : Z) (e : yoga_pan) : M obs unit :=
  if yp_port e !=? 0 then ret tt else
  let! plan := lift (yoga_plan e) in
  let! s := get in
  if negb nhi || negb (o_sw s.1) || negb (o_retimer s.1) then fail (-EPERM) else
  do! calls_ (ESwitch (plan_orientation plan)) sw in
  match plan_state plan with
  | None => fail (-EINVAL)
  | Some st =>
      do! calls_ (ERetimer st) rt in
      modify (λ '(o, l),
        (o <| o_configured := u32 (o_configured o + 1) |>
           <| o_tunneling := if pp_connect_word plan =? 0 then o_tunneling o
                             else u32 (o_tunneling o + 1) |>, l))
  end.

(** ** [request], section by section *)

Definition request_packet (cmd arg : Z) : list Z :=
  le32 32780 ++ le32 1 ++ le32 0x15 ++ le32 cmd ++ le32 arg ++ le32 0.

Definition request_begin (o : observer) : Z * observer :=
  if negb (o_active o) || negb (o_service_up o) || (o_error o !=? 0) then
    ((if o_error o =? 0 then -ENOTCONN else o_error o), o)
  else (0, o <| o_ack := 0%nat |> <| o_awaiting := true |>).

Definition request_end (ret : Z) (o : observer) : Z * observer :=
  let o := o <| o_awaiting := false |> in
  let ret := if negb (o_service_up o) then -ENOTCONN else ret in
  let ret := if o_error o !=? 0 then o_error o else ret in
  (ret, if ret =? 0 then o else o <| o_error := ret |> <| o_active := false |>).

(** ** The notification callbacks *)

(** The flag says whether the work item is scheduled. *)
Definition callback (data : list Z) (o : observer) : res (observer * bool) :=
  let len := Z.of_nat (length data) in
  if len <? 12 then Ok (o, false) else
  let? owner := get_unaligned_le32 data 0 in
  if owner !=? 32780 then Ok (o, false) else
  let? opcode := get_unaligned_le32 data 8 in
  let? type := get_unaligned_le32 data 4 in
  if (opcode =? 0x15) && (type =? 1) then
    Ok ((if o_awaiting o && (len <=? 64)
         then o <| o_ack_len := len |> <| o_ack := S (o_ack o) |> else o), false)
  else if (opcode .& 0xff !=? 0x16) || negb (o_active o) then Ok (o, false) else
  let stop e := Ok (o <| o_error := e |> <| o_active := false |>, false) in
  match yoga_pan_decode (Some data) len with
  | Fault => Fault
  | Err e => stop e
  | Ok e =>
      if bool_decide (o_count o = PAN_LIMIT) then stop (-ENOSPC) else
      Ok (o <| o_events := <[o_count o := e]> (o_events o) |>
            <| o_count := S (o_count o) |>, true)
  end.

Definition pdr_notify (up : bool) (o : observer) : observer :=
  let o := o <| o_service_up := up |> in
  if negb up && o_active o then
    let o := o <| o_error := -ENOTCONN |> <| o_active := false |> in
    if o_awaiting o then o <| o_ack := S (o_ack o) |> else o
  else o.

(** ** The stores, up to the calls outside the lock *)

Definition observe_begin (enable nhi : bool) (o : observer) : Z * observer :=
  if enable && negb nhi then (-EPERM, o) else
  if enable && (o_attempted o || negb (o_service_up o)) then
    ((if o_attempted o then -EPERM else -ENOTCONN), o) else
  if enable then (0, o <| o_attempted := true |> <| o_active := true |>)
  else (0, o <| o_active := false |>).

Definition link_begin (o : observer) : res Z * observer :=
  if o_link_attempted o || negb (o_active o) || negb (o_service_up o) || (o_error o !=? 0)
  then (Err (-EPERM), o)
  else (yoga_link_word (o_events o) (Z.of_nat (o_count o)) (Z.of_nat (o_processed o)),
        o <| o_link_attempted := true |> <| o_link_count := o_count o |>).

(** [link_valid], asked by the link owner while it runs; [n] is the token. *)
Definition link_valid (n : nat) (o : observer) : bool :=
  o_active o && o_service_up o && (o_error o =? 0) && bool_decide (o_count o = n) &&
  bool_decide (o_count o = o_processed o).

Definition current_word (o : observer) : res Z :=
  yoga_link_word (o_events o) (Z.of_nat (o_count o)) (Z.of_nat (o_processed o)).

(** The two attributes that report readiness. *)
Definition link_ready_show (o : observer) : res Z :=
  if o_active o && o_service_up o && (o_error o =? 0) && negb (o_link_attempted o)
  then current_word o else Err (-EPERM).
Definition connection_valid_show (o : observer) : bool :=
  o_active o && o_service_up o && (o_error o =? 0) && o_link_attempted o &&
  (o_link_result o =? 0) && bool_decide (o_count o = o_link_count o) &&
  match current_word o with Ok _ => true | _ => false end.

(** ** [observer_probe] *)

Record observer_facts := {
  of_allowed : bool;
  of_property : bool;
  of_kzalloc : bool;
  of_connector : bool;
  (** error pointer, or NULL ([false]) *)
  of_switch : Z + bool;
  of_retimer : Z + bool;
  of_action : Z;
  of_client : Z + unit;
  of_group : Z;
}.

Definition pan_zero : yoga_pan := YogaPan 0 0 0 (replicate 8 0) 0 0 0.
Definition observer_zero : observer :=
  Observer 0 (replicate PAN_LIMIT pan_zero) 0 0 0 0 false false false false true true 0 0
    false 0 0.

Definition observer_probe (f : observer_facts) : res observer :=
  if negb (of_allowed f) || negb (of_property f) then Err (-EPERM) else
  if negb (of_kzalloc f) then Err (-ENOMEM) else
  if negb (of_connector f) then Err (-ENODEV) else
  match of_switch f, of_retimer f with
  | inl e, _ => Err e
  | _, inl e => Err e
  | inr true, inr true =>
      if of_action f !=? 0 then Err (of_action f) else
      match of_client f with
      | inl e => Err e
      | inr _ => if of_group f !=? 0 then Err (of_group f) else Ok observer_zero
      end
  | _, _ => Err (-ENODEV)
  end.

(** ** The parties

    Where a thread is inside [request]. *)
Inductive rpc := RLock | RSend | RWait | REnd (ret : Z) | RDone (ret : Z).

(** The work item: at the top of its loop, with event [e] taken, about to
    report a failure, inside [request] for [e], or about to count it. *)
Inductive wpc :=
| WIdle
| WTop
| WApply (e : yoga_pan)
| WFail (ret : Z)
| WRequest (e : yoga_pan) (pc : rpc)
| WAdvance.

(** The holder of [control_lock]: inside [request] of [observe_store], at
    [cancel_work_sync], waiting for the link owner with a word and a token, or
    at the end of [link_store]. *)
Inductive cpc :=
| CIdle
| CRequest (pc : rpc)
| CCancel
| CLink (word : Z) (token : nat)
| CClose (ret : Z).

Inductive thread := Worker | Control.
#[export] Instance thread_eq_dec : EqDecision thread.
Proof. solve_decision. Defined.

Record sys := Sys {
  s_o : observer;
  s_pending : bool;
  s_worker : wpc;
  s_control : cpc;
  s_lock : option thread;
  s_log : list effect;
}.
#[export] Instance sys_eta : Eta sys := λ s,
  Sys (s_o s) (s_pending s) (s_worker s) (s_control s) (s_lock s) (s_log s).

(** The answers of outside calls are in the labels. *)
Inductive rlabel :=
| AtLock
| AtSend (ret : Z)
| AtWait (timeout : bool)
| AtEnd.
Inductive label :=
| LCallback (data : list Z)
| LPdr (up : bool)
| LObserve (enable nhi : bool)
| LLink
| LLinkDone (ret : Z)
| LLinkClose
| LRequest (t : thread) (l : rlabel)
| LObserved
| LCancel
| LWorkStart
| LWorkPeek
| LWorkApply (nhi : bool) (sw rt : Z)
| LWorkFail
| LWorkAcked
| LWorkAdvance.

(** One step of [request] by the thread [t] for [cmd], [arg]. *)
Definition request_step (t : thread) (cmd arg : Z) (l : rlabel) (pc : rpc) (s : sys)
    : option (rpc * sys) :=
  match l, pc with
  | AtLock, RLock =>
      if s_lock s then None else
      let (ret, o) := request_begin (s_o s) in
      if ret =? 0 then Some (RSend, s <| s_o := o |> <| s_lock := Some t |>)
      else Some (RDone ret, s)
  | AtSend ret, RSend =>
      let s := s <| s_log := s_log s ++ [ESend (request_packet cmd arg)] |> in
      Some ((if ret =? 0 then RWait else REnd ret), s)
  | AtWait timeout, RWait =>
      match timeout, o_ack (s_o s) with
      | false, S n => Some (REnd 0, s <| s_o := (s_o s) <| o_ack := n |> |>)
      | true, O => Some (REnd (-ETIMEDOUT), s)
      | _, _ => None
      end
  | AtEnd, REnd ret =>
      let (ret, o) := request_end ret (s_o s) in
      Some (RDone ret, s <| s_o := o |> <| s_lock := None |>)
  | _, _ => None
  end.

Definition fail_observer (ret : Z) (o : observer) : observer :=
  o <| o_error := ret |> <| o_active := false |>.

Section system.
(** [IS_ENABLED(CONFIG_USB4_X1_NATIVE)] *)
Context (native : bool).

Definition step (l : label) (s : sys) : option sys :=
  match l, s_control s, s_worker s with
  | LCallback data, _, _ =>
      match callback data (s_o s) with
      | Ok (o, sched) => Some (s <| s_o := o |> <| s_pending := s_pending s || sched |>)
      | _ => None
      end
  | LPdr up, _, _ => Some (s <| s_o := pdr_notify up (s_o s) |>)
  | LObserve enable nhi, CIdle, _ =>
      let (ret, o) := observe_begin enable nhi (s_o s) in
      Some (s <| s_o := o |>
              <| s_control := if (ret =? 0) && enable then CRequest RLock else CCancel |>)
  | LRequest Control l, CRequest pc, _ =>
      '(pc, s) ← request_step Control 0x10 0 l pc s; Some (s <| s_control := CRequest pc |>)
  | LObserved, CRequest (RDone ret), _ =>
      Some (s <| s_control := if ret =? 0 then CIdle else CCancel |>)
  | LCancel, CCancel, WIdle => Some (s <| s_pending := false |> <| s_control := CIdle |>)
  | LLink, CIdle, _ =>
      match link_begin (s_o s) with
      | (Ok word, o) =>
          Some (s <| s_o := o |> <| s_control := CLink word (o_count o) |>
                  <| s_log := s_log s ++ [ELink word] |>)
      | (Err e, o) => Some (s <| s_o := o |> <| s_control := CClose e |>)
      | (Fault, _) => None
      end
  | LLinkDone ret, CLink _ _, _ => Some (s <| s_control := CClose ret |>)
  | LLinkClose, CClose ret, _ =>
      Some (s <| s_log := if (ret !=? 0) || negb native then s_log s ++ [ELinkStop] else s_log s |>
              <| s_o := (s_o s) <| o_link_result := ret |> |> <| s_control := CIdle |>)
  | LWorkStart, _, WIdle =>
      if s_pending s then Some (s <| s_pending := false |> <| s_worker := WTop |>) else None
  | LWorkPeek, _, WTop =>
      let o := s_o s in
      if negb (o_active o) || (o_error o !=? 0) || bool_decide (o_processed o = o_count o)
      then Some (s <| s_worker := WIdle |>)
      else e ← o_events o !! o_processed o; Some (s <| s_worker := WApply e |>)
  | LWorkApply nhi sw rt, _, WApply e =>
      let '(r, (o, l)) := configure_port nhi sw rt e (s_o s, s_log s) in
      let s := s <| s_o := o |> <| s_log := l |> in
      match r with
      | Ok _ => Some (s <| s_worker := WRequest e RLock |>)
      | Err ret => Some (s <| s_worker := WFail ret |>)
      | Fault => None
      end
  | LWorkFail, _, WFail ret =>
      Some (s <| s_o := fail_observer ret (s_o s) |> <| s_worker := WIdle |>)
  | LRequest Worker l, _, WRequest e pc =>
      '(pc, s) ← request_step Worker 0x11 (yp_port e) l pc s;
      Some (s <| s_worker := WRequest e pc |>)
  | LWorkAcked, _, WRequest e (RDone ret) =>
      Some (s <| s_worker := if ret =? 0 then WAdvance else WIdle |>)
  | LWorkAdvance, _, WAdvance =>
      Some (s <| s_o := (s_o s) <| o_processed := S (o_processed (s_o s)) |> |>
              <| s_worker := WTop |>)
  | _, _, _ => None
  end.

Fixpoint run (ls : list label) (s : sys) : option sys :=
  match ls with
  | [] => Some s
  | l :: ls => s' ← step l s; run ls s'
  end.
End system.

(** After a successful probe. *)
Definition boot : sys := Sys observer_zero false WIdle CIdle None [].
Definition reachable (native : bool) (s : sys) : Prop := ∃ ls, run native ls boot = Some s.

(** ** A complete run: one notification applied, acknowledged and linked *)

Definition ack_packet : list Z := le32 32780 ++ le32 1 ++ le32 0x15.
Definition request_labels (t : thread) : list label :=
  [LRequest t AtLock; LRequest t (AtSend 0); LCallback ack_packet; LRequest t (AtWait false);
   LRequest t AtEnd].
Definition observe_labels : list label :=
  [LPdr true; LObserve true true] ++ request_labels Control ++ [LObserved].
Definition pan_labels (e : yoga_pan) : list label :=
  [LCallback (pan_encode e 0xaa [1; 2; 3; 4]); LWorkStart; LWorkPeek; LWorkApply true 0 0] ++
  request_labels Worker ++ [LWorkAcked; LWorkAdvance; LWorkPeek].
Definition linked_labels : list label := observe_labels ++ pan_labels lacie_event ++ [LLink].

Example linked_run :
  option_map (λ s, (s_control s, s_worker s, s_log s)) (run true linked_labels boot) =
  Some (CLink 0x2701 1, WIdle,
        [ESend (request_packet 0x10 0);
         ESwitch TYPEC_ORIENTATION_REVERSE;
         ERetimer (TYPEC_MODE_USB4 EUDO_CABLE_SPEED_USB4_GEN3 0);
         ESend (request_packet 0x11 0);
         ELink 0x2701]).
Proof. vm_compute. reflexivity. Qed.

(** ** The driver record *)

Definition seen (o : observer) : list yoga_pan := take (o_count o) (o_events o).

Record obs_ok (o : observer) : Prop := {
  ok_len : length (o_events o) = PAN_LIMIT;
  ok_count : (o_count o ≤ PAN_LIMIT)%nat;
  ok_processed : (o_processed o ≤ o_count o)%nat;
  ok_active : o_active o = true → o_attempted o = true ∧ o_error o = 0 ∧ o_service_up o = true;
  ok_fresh : o_attempted o = false → o_error o = 0;
}.

(** What the record may become: notifications are appended, the attempt latch
    stays, and an attempt that stopped stays stopped. *)
Definition later (o o' : observer) : Prop :=
  (∃ l, seen o' = seen o ++ l ∧ Forall (λ e, yp_ext e ≠ []) l ∧
     (o_active o = false → o_attempted o = true → l = [])) ∧
  (o_attempted o = true → o_attempted o' = true) ∧
  (o_attempted o = true → o_active o = false → o_active o' = false) ∧
  (o_link_attempted o = true → o_link_attempted o' = true ∧ o_link_count o' = o_link_count o).

Lemma seen_length o : obs_ok o → length (seen o) = o_count o.
Proof. intros [Hl Hc _ _ _]. unfold seen. rewrite length_take. lia. Qed.

(** Changes that leave the notifications alone. *)
Lemma later_same o o' :
  o_events o' = o_events o → o_count o' = o_count o →
  (o_attempted o = true → o_attempted o' = true) →
  (o_attempted o = true → o_active o = false → o_active o' = false) →
  (o_link_attempted o = true → o_link_attempted o' = true ∧ o_link_count o' = o_link_count o) →
  later o o'.
Proof.
  intros E1 E2 H1 H2 H3. split_and!; try done. exists []. rewrite app_nil_r. unfold seen.
  by rewrite E1, E2.
Qed.

#[export] Instance later_preorder : PreOrder later.
Proof.
  split.
  - intros o. by apply later_same.
  - intros o1 o2 o3 ((l&El&Fl&Hl)&A&B&C) ((m&Em&Fm&Hm)&A'&B'&C'). split_and!.
    + exists (l ++ m). rewrite Em, El, app_assoc. split; [done|].
      split; [by apply Forall_app|]. intros Hi Ha.
      rewrite (Hl Hi Ha), (Hm (B Ha Hi) (A Ha)). done.
    + auto.
    + auto.
    + intros H. destruct (C H) as [H1 H2]. destruct (C' H1) as [H3 H4]. split; congruence.
Qed.

Lemma ok_same o o' :
  obs_ok o → o_events o' = o_events o → o_count o' = o_count o →
  o_processed o' = o_processed o →
  (o_active o' = true → o_attempted o' = true ∧ o_error o' = 0 ∧ o_service_up o' = true) →
  (o_attempted o' = false → o_error o' = 0) →
  obs_ok o'.
Proof. intros [Hl Hc Hp _ _] E1 E2 E3 Ha. split; rewrite ?E1, ?E2, ?E3; done. Qed.

Lemma decode_ext p len e : yoga_pan_decode p len = Ok e → yp_ext e ≠ [].
Proof.
  unfold yoga_pan_decode, rbind. destruct p; [|done].
  repeat (case_match; try done). intros [= <-]. done.
Qed.

(** The callback decodes only buffers it checked the length of. *)
Lemma callback_total data o : ∃ out, callback data o = Ok out.
Proof.
  unfold callback. destruct (Z.ltb_spec (Z.of_nat (length data)) 12); [eauto|].
  destruct (get_le32_ok data 0) as (a&->&_); [lia..|].
  destruct (get_le32_ok data 8) as (b&->&_); [lia..|].
  destruct (get_le32_ok data 4) as (c&->&_); [lia..|]. cbn [rbind].
  destruct (a !=? _); [eauto|]. destruct (_ && _); [eauto|]. destruct (_ || _); [eauto|].
  destruct (yoga_pan_decode (Some data) (Z.of_nat (length data))) eqn:E;
    cbv iota beta; [destruct (bool_decide (o_count o = PAN_LIMIT)); by eexists|by eexists|].
  exfalso. destruct (decide (Z.of_nat (length data) = 32)) as [E32|E32].
  - rewrite E32 in E. revert E. apply pan_decode_total. lia.
  - unfold yoga_pan_decode in E. by rewrite (proj2 (Z.eqb_neq _ _) E32) in E.
Qed.

Lemma callback_ok data o o' b :
  callback data o = Ok (o', b) → obs_ok o →
  obs_ok o' ∧ later o o' ∧ o_processed o' = o_processed o ∧ o_awaiting o' = o_awaiting o ∧
  o_attempted o' = o_attempted o ∧ (b = true → o_active o = true).
Proof.
  intros E Hok. pose proof Hok as [Hl Hc Hp Ha Hfr].
  assert (∀ x, o_active o = true →
    obs_ok (fail_observer x o) ∧ later o (fail_observer x o)) as Hf.
  { intros x Hx. split; [|by apply later_same]. apply (ok_same o); try done. cbn.
    by rewrite (proj1 (Ha Hx)). }
  assert (obs_ok o ∧ later o o ∧ o_processed o = o_processed o ∧ o_awaiting o = o_awaiting o ∧
    o_attempted o = o_attempted o ∧ (false = true → o_active o = true)) as Hn.
  { by split_and!. }
  revert E. unfold callback. if_case E1; [by intros [= <- <-]|].
  destruct (get_unaligned_le32 data 0); [cbn [rbind]|done..]. if_case E2; [by intros [= <- <-]|].
  destruct (get_unaligned_le32 data 8); [cbn [rbind]|done..].
  destruct (get_unaligned_le32 data 4); [cbn [rbind]|done..]. if_case E3.
  { destruct (o_awaiting o && _); intros [= <- <-]; [|done].
    split; [by apply (ok_same o); try exact Ha; try exact Hfr|].
    split; [by apply later_same|done]. }
  if_case E4; [by intros [= <- <-]|].
  apply orb_false_iff in E4 as [_ E4%negb_false_iff].
  destruct (yoga_pan_decode _ _) as [e|e|] eqn:Ed;
    [|by intros [= <- <-]; destruct (Hf e)|done].
  if_case E5; [by intros [= <- <-]; destruct (Hf (-ENOSPC))|]. apply bool_decide_eq_false in E5.
  intros [= <- <-]. split_and!; try done.
  - split; cbn; [by rewrite length_insert|lia|lia|done..].
  - split_and!; try done. exists [e].
    split; [|split; [by repeat constructor; eapply decode_ext|by rewrite E4]]. unfold seen. cbn.
    rewrite (take_S_r _ _ e) by (apply list_lookup_insert_eq; lia).
    f_equal. apply take_insert_ge. lia.
Qed.

(** One section of a party: the record stays well formed, develops as [later]
    says, and only the work item moves [o_processed]. *)
Definition section_ok (o o' : observer) : Prop :=
  obs_ok o → obs_ok o' ∧ later o o' ∧ o_processed o' = o_processed o.

Lemma section_same o o' :
  o_events o' = o_events o → o_count o' = o_count o → o_processed o' = o_processed o →
  (o_attempted o = true → o_attempted o' = true) →
  (o_attempted o = true → o_active o = false → o_active o' = false) →
  (o_link_attempted o = true → o_link_attempted o' = true ∧ o_link_count o' = o_link_count o) →
  (obs_ok o → o_active o' = true →
     o_attempted o' = true ∧ o_error o' = 0 ∧ o_service_up o' = true) →
  (obs_ok o → o_attempted o' = false → o_error o' = 0) →
  section_ok o o'.
Proof.
  intros. intros Hok. split; [by apply (ok_same o); auto|]. split; [by apply later_same|done].
Qed.

Ltac section_tac :=
  apply section_same; cbn; try done; try (intros [??? Hact Hfr]; cbn; solve [auto|congruence]).

Lemma request_begin_ok o : section_ok o (request_begin o).2.
Proof. unfold request_begin. destruct (_ || _); section_tac. Qed.

Lemma request_end_ok ret o : o_attempted o = true → section_ok o (request_end ret o).2.
Proof.
  intros Ha. unfold request_end. cbn.
  match goal with |- context [if ?b =? 0 then _ else _] => destruct (b =? 0) end; section_tac.
Qed.

Lemma fail_ok ret o : o_attempted o = true → section_ok o (fail_observer ret o).
Proof. intros Ha. unfold fail_observer. section_tac. Qed.

Lemma pdr_ok up o : section_ok o (pdr_notify up o).
Proof.
  unfold pdr_notify. cbn. destruct up; simpl.
  - section_tac. intros [??? Hact]. intros Ha. by destruct (Hact Ha) as (?&?&?).
  - destruct (o_active o) eqn:Ea; [destruct (o_awaiting o)|]; section_tac;
      intros [??? Hact Hfr]; cbn; rewrite ?Ea in *; try done; destruct (Hact eq_refl); congruence.
Qed.

Lemma observe_ok enable nhi o : section_ok o (observe_begin enable nhi o).2.
Proof.
  unfold observe_begin. destruct enable, nhi; simpl; [| |section_tac|section_tac];
    [|section_tac].
  destruct (o_attempted o) eqn:Ea; simpl; [section_tac|].
  destruct (o_service_up o) eqn:Es; simpl; section_tac. by rewrite Ea.
Qed.

Lemma link_ok o : section_ok o (link_begin o).2.
Proof.
  unfold link_begin. destruct (o_link_attempted o) eqn:El; simpl; [section_tac|].
  destruct (_ || _); section_tac. by rewrite El.
Qed.

Lemma configure_ok nhi sw rt e o l :
  section_ok o (configure_port nhi sw rt e (o, l)).2.1.
Proof.
  assert (section_ok o o) as Hr by section_tac.
  unfold configure_port. destruct (_ !=? 0); [done|]. unfold bind, lift, get.
  destruct (yoga_plan e); [|done..]. cbn [fst]. destruct (_ || _); [done|].
  unfold calls_. destruct (sw =? 0); [|done]. destruct (plan_state _); [|done].
  destruct (rt =? 0); [|done]. section_tac.
Qed.

(** ** What the system has done *)

(** Everything one notification causes: for port 0 the retimer is set up as
    planned; then, for every port, the acknowledgement. *)
Definition applied_effects (e : yoga_pan) : list effect :=
  if yp_port e !=? 0 then [] else
  match yoga_plan e with
  | Ok p => ESwitch (plan_orientation p) ::
            match plan_state p with Some st => [ERetimer st] | None => [] end
  | _ => []
  end.
Definition event_effects (e : yoga_pan) : list effect :=
  applied_effects e ++ [ESend (request_packet 0x11 (yp_port e))].

Definition is_observe (e : effect) : bool :=
  match e with ESend p => bool_decide (p = request_packet 0x10 0) | _ => false end.
Definition is_work (e : effect) : bool :=
  match e with ESwitch _ | ERetimer _ => true | ESend _ => negb (is_observe e) | _ => false end.
Definition is_link (e : effect) : bool :=
  match e with ELink _ | ELinkStop => true | _ => false end.
Definition wlog (l : list effect) : list effect := filter (λ e, is_work e = true) l.
Definition olog (l : list effect) : list effect := filter (λ e, is_observe e = true) l.
Definition llog (l : list effect) : list effect := filter (λ e, is_link e = true) l.
Definition links (l : list effect) : list Z :=
  omap (λ e, match e with ELink w => Some w | _ => None end) l.

(** Work on the notifications already counted, and on the next one. *)
Definition finished (o : observer) : list effect :=
  flat_map event_effects (take (o_processed o) (seen o)).
Definition next (o : observer) : list effect :=
  default [] (event_effects <$> seen o !! o_processed o).
Definition stopped (o : observer) : Prop := o_attempted o = true ∧ o_active o = false.

Definition worker_ok (o : observer) (w : wpc) (wl : list effect) : Prop :=
  let cur e := seen o !! o_processed o = Some e in
  let part := ∃ k, wl = finished o ++ take k (next o) in
  match w with
  | WIdle | WTop => wl = finished o ∨ stopped o ∧ part
  | WApply e => cur e ∧ wl = finished o
  | WFail _ => (∃ e, cur e) ∧ part
  | WRequest e pc =>
      cur e ∧
      match pc with
      | RLock | RSend => wl = finished o ++ applied_effects e
      | RWait | REnd _ => wl = finished o ++ event_effects e
      | RDone ret => if ret =? 0 then wl = finished o ++ event_effects e else stopped o ∧ part
      end
  | WAdvance => ∃ e, cur e ∧ wl = finished o ++ event_effects e
  end.

Definition observe_sent_ok (o : observer) (c : cpc) (ol : list effect) : Prop :=
  (length ol ≤ 1)%nat ∧ (o_attempted o = false → ol = []) ∧
  (c = CRequest RLock ∨ c = CRequest RSend → ol = []).

(** The word of the first [n] notifications, all of them applied. *)
Definition word_at_ (o : observer) (n : nat) : res Z :=
  yoga_link_word (take n (seen o)) (Z.of_nat n) (Z.of_nat n).

Definition link_sent_ok (o : observer) (c : cpc) (l : list effect) : Prop :=
  (length (links l) ≤ 1)%nat ∧
  (o_link_attempted o = false → links l = []) ∧
  (∀ w, links l = [w] → (o_link_count o ≤ o_count o)%nat ∧ word_at_ o (o_link_count o) = Ok w) ∧
  (∀ w n, c = CLink w n → links l = [w] ∧ n = o_link_count o) ∧
  (match c with CLink _ _ | CClose _ => True | _ =>
     o_link_result o ≠ 0 → last (llog l) = Some ELinkStop end).

Definition flight (pc : rpc) : bool :=
  match pc with RSend | RWait | REnd _ => true | _ => false end.
Definition wflight (w : wpc) : bool := match w with WRequest _ pc => flight pc | _ => false end.
Definition cflight (c : cpc) : bool := match c with CRequest pc => flight pc | _ => false end.
Definition lock_ok (s : sys) : Prop :=
  wflight (s_worker s) && cflight (s_control s) = false ∧
  s_lock s = (if wflight (s_worker s) then Some Worker else
              if cflight (s_control s) then Some Control else None) ∧
  o_awaiting (s_o s) = wflight (s_worker s) || cflight (s_control s).

Definition busy (s : sys) : bool :=
  s_pending s || match s_worker s with WIdle => false | _ => true end ||
  match s_control s with CRequest _ => true | _ => false end.

Record sys_ok (s : sys) : Prop := {
  so_obs : obs_ok (s_o s);
  so_busy : busy s = true → o_attempted (s_o s) = true;
  so_worker : worker_ok (s_o s) (s_worker s) (wlog (s_log s));
  so_observe : observe_sent_ok (s_o s) (s_control s) (olog (s_log s));
  so_link : link_sent_ok (s_o s) (s_control s) (s_log s);
  so_lock : lock_ok s;
}.

(** *** What a section keeps *)

Lemma finished_later o o' :
  obs_ok o → later o o' → o_processed o' = o_processed o → finished o' = finished o.
Proof.
  intros Hok ((l&El&_)&_) Ep. unfold finished. rewrite El, Ep, take_app_le; [done|].
  rewrite seen_length by done. apply Hok.
Qed.

Lemma current_later o o' e :
  later o o' → o_processed o' = o_processed o →
  seen o !! o_processed o = Some e → seen o' !! o_processed o' = Some e.
Proof. intros ((l&El&_)&_) Ep He. rewrite El, Ep. by apply lookup_app_l_Some. Qed.

Lemma next_current o e : seen o !! o_processed o = Some e → next o = event_effects e.
Proof. intros He. unfold next. by rewrite He. Qed.

Lemma stopped_later o o' : later o o' → stopped o → stopped o'.
Proof. intros (_&A&B&_) [Ha Hi]. split; auto. Qed.

Lemma worker_later o o' w wl :
  obs_ok o → later o o' → o_processed o' = o_processed o → worker_ok o w wl → worker_ok o' w wl.
Proof.
  intros Hok Hl Ep. unfold worker_ok. rewrite (finished_later o o' Hok Hl Ep).
  assert (∀ e, seen o !! o_processed o = Some e → seen o' !! o_processed o' = Some e) as Hc
    by (intros e; by apply current_later).
  assert (∀ e, seen o !! o_processed o = Some e → next o' = next o) as Hn.
  { intros e He. by rewrite (next_current o e), (next_current o' e) by auto. }
  assert (stopped o → stopped o' ∧ next o' = next o) as Hs.
  { intros Hs. split; [by eapply stopped_later|]. destruct Hl as ((l&El&_&Hl)&_).
    destruct Hs as [Ha Hi]. rewrite (Hl Hi Ha), app_nil_r in El. unfold next. by rewrite El, Ep. }
  destruct w as [| |e|r|e pc|].
  1,2: intros [?|(Hst&k&Hk)]; [by left|right; destruct (Hs Hst) as [? ->]; eauto].
  - intros [? ?]. auto.
  - intros [[e He] Hk]. rewrite (Hn e He). eauto.
  - intros [He Hpc]. split; [auto|]. destruct pc as [| | |r|r]; try done.
    destruct (r =? 0); [done|]. destruct Hpc as [Hst Hk]. destruct (Hs Hst) as [? ->]. done.
  - intros (e&He&?). eauto.
Qed.

Lemma word_later o o' n :
  obs_ok o → later o o' → (n ≤ o_count o)%nat → word_at_ o' n = word_at_ o n.
Proof.
  intros Hok ((l&El&_)&_) Hn. unfold word_at_. rewrite El, take_app_le; [done|].
  by rewrite seen_length.
Qed.

Lemma count_later o o' : obs_ok o → obs_ok o' → later o o' → (o_count o ≤ o_count o')%nat.
Proof.
  intros H1 H2 ((l&El&_)&_). rewrite <- (seen_length o), <- (seen_length o'), El, length_app by done.
  lia.
Qed.

Lemma observe_later o o' c ol : later o o' → observe_sent_ok o c ol → observe_sent_ok o' c ol.
Proof.
  intros (_&A&_) (H1&H2&H3). split; [done|]. split; [|done]. intros Hf. apply H2.
  destruct (o_attempted o); [|done]. by rewrite A in Hf.
Qed.

Lemma link_later o o' c l :
  obs_ok o → obs_ok o' → later o o' → o_link_attempted o' = o_link_attempted o →
  o_link_count o' = o_link_count o → o_link_result o' = o_link_result o →
  link_sent_ok o c l → link_sent_ok o' c l.
Proof.
  intros Hok Hok' Hl Ea Ec Er (H1&H2&H3&H4&H5).
  split; [done|]. rewrite Ea, Er, Ec. split; [done|]. split; [|done].
  intros w Hw. destruct (H3 w Hw) as [Hn Ew]. split.
  - etransitivity; [exact Hn|by apply count_later].
  - by rewrite (word_later o o').
Qed.

(** A step, party by party: the section, then what changes hands. *)
Lemma step_build s s' :
  sys_ok s → section_ok (s_o s) (s_o s') →
  (busy s' = true → o_attempted (s_o s') = true) →
  (worker_ok (s_o s') (s_worker s) (wlog (s_log s)) →
     worker_ok (s_o s') (s_worker s') (wlog (s_log s'))) →
  (observe_sent_ok (s_o s') (s_control s) (olog (s_log s)) →
     observe_sent_ok (s_o s') (s_control s') (olog (s_log s'))) →
  (obs_ok (s_o s') → later (s_o s) (s_o s') →
     link_sent_ok (s_o s') (s_control s') (s_log s')) →
  lock_ok s' → sys_ok s'.
Proof.
  intros [Ho Hb Hw Hs Hl Hk] Hsec Hb' Hw' Hs' Hl' Hk'.
  destruct (Hsec Ho) as (Ho'&Hla&Ep). split; auto.
  - apply Hw'. by apply (worker_later (s_o s)).
  - apply Hs'. by apply (observe_later (s_o s)).
Qed.

(** Steps of the callbacks. *)
Lemma step_notify s o' p' :
  sys_ok s → section_ok (s_o s) o' → o_awaiting o' = o_awaiting (s_o s) →
  o_link_attempted o' = o_link_attempted (s_o s) → o_link_count o' = o_link_count (s_o s) →
  o_link_result o' = o_link_result (s_o s) →
  (p' = true → s_pending s = true ∨ o_attempted o' = true) →
  sys_ok (s <| s_o := o' |> <| s_pending := p' |>).
Proof.
  intros Hok Hsec Ew E1 E2 E3 Hp. destruct (Hsec (so_obs _ Hok)) as (Ho'&Hla&_).
  apply (step_build s); try done; cbn.
  - pose proof (so_busy _ Hok) as Hb. unfold busy in *. cbn.
    destruct p'; cbn; intros Hb'.
    + destruct (Hp eq_refl) as [Hp'|?]; [|done]. apply Hla, Hb. by rewrite Hp'.
    + apply Hla, Hb. rewrite <- orb_assoc, Hb'. by destruct (s_pending s).
  - intros Ho _. apply (link_later (s_o s)); try done; apply Hok.
  - destruct (so_lock _ Hok) as (A&B&C). split_and!; cbn; try done. by rewrite Ew.
Qed.

Lemma step_callback native data s s' :
  sys_ok s → step native (LCallback data) s = Some s' → sys_ok s'.
Proof.
  intros Hok E. cbn in E. destruct (callback data (s_o s)) as [[o' b]|e|] eqn:Ec; [|done..].
  injection E as <-. destruct (callback_ok _ _ _ _ Ec (so_obs _ Hok)) as (H1&H2&H3&H4&H5&H6).
  assert (o_link_attempted o' = o_link_attempted (s_o s) ∧ o_link_count o' = o_link_count (s_o s) ∧
    o_link_result o' = o_link_result (s_o s)) as (E1&E2&E3).
  { clear -Ec. revert Ec. unfold callback, rbind.
    repeat (case_match; try done); intros; simplify_eq; done. }
  apply step_notify; try done.
  intros [?|Hb]%orb_true_iff; [by left|right]. rewrite H5. by apply Hok, H6.
Qed.

Lemma step_pdr native up s s' : sys_ok s → step native (LPdr up) s = Some s' → sys_ok s'.
Proof.
  intros Hok [= <-].
  apply (step_notify s (pdr_notify up (s_o s)) (s_pending s) Hok).
  - apply pdr_ok.
  - unfold pdr_notify. cbn. by destruct up, (o_active (s_o s)), (o_awaiting (s_o s)) eqn:E.
  - unfold pdr_notify. cbn. by destruct up, (o_active (s_o s)), (o_awaiting (s_o s)).
  - unfold pdr_notify. cbn. by destruct up, (o_active (s_o s)), (o_awaiting (s_o s)).
  - unfold pdr_notify. cbn. by destruct up, (o_active (s_o s)), (o_awaiting (s_o s)).
  - by left.
Qed.

(** *** [request] as a relation *)

Inductive rstep (t : thread) (cmd arg : Z) : rpc → sys → rpc → sys → Prop :=
| rs_refused s ret :
    ret ≠ 0 → (obs_ok (s_o s) → o_active (s_o s) = false) →
    rstep t cmd arg RLock s (RDone ret) s
| rs_locked s o' :
    s_lock s = None → section_ok (s_o s) o' → o_awaiting o' = true →
    o_attempted o' = o_attempted (s_o s) → o_link_attempted o' = o_link_attempted (s_o s) →
    o_link_count o' = o_link_count (s_o s) → o_link_result o' = o_link_result (s_o s) →
    rstep t cmd arg RLock s RSend (s <| s_o := o' |> <| s_lock := Some t |>)
| rs_sent s pc :
    pc = RWait ∨ (∃ ret, pc = REnd ret) →
    rstep t cmd arg RSend s pc
      (s <| s_log := s_log s ++ [ESend (request_packet cmd arg)] |>)
| rs_waited s ret n :
    rstep t cmd arg RWait s (REnd ret) (s <| s_o := (s_o s) <| o_ack := n |> |>)
| rs_ended s r r' o' :
    (o_attempted (s_o s) = true → section_ok (s_o s) o') → o_awaiting o' = false →
    (r' ≠ 0 → o_active o' = false) →
    o_attempted o' = o_attempted (s_o s) → o_link_attempted o' = o_link_attempted (s_o s) →
    o_link_count o' = o_link_count (s_o s) → o_link_result o' = o_link_result (s_o s) →
    rstep t cmd arg (REnd r) s (RDone r') (s <| s_o := o' |> <| s_lock := None |>).

Lemma request_begin_refused o : (request_begin o).1 ≠ 0 → obs_ok o → o_active o = false.
Proof.
  intros Hr Hok. destruct (o_active o) eqn:Ea; [|done]. destruct (ok_active _ Hok Ea) as (_&He&Hs).
  exfalso. apply Hr. unfold request_begin. by rewrite Ea, He, Hs.
Qed.

Lemma request_step_rel t cmd arg l pc s pc' s' :
  request_step t cmd arg l pc s = Some (pc', s') → rstep t cmd arg pc s pc' s'.
Proof.
  destruct l as [|ret|timeout|], pc as [| | |r|r]; try done; simpl.
  - destruct (s_lock s) eqn:El; [done|]. destruct (request_begin (s_o s)) as [ret o'] eqn:Er.
    pose proof (request_begin_ok (s_o s)) as Hs. pose proof (request_begin_refused (s_o s)) as Hf.
    rewrite Er in Hs, Hf. simpl in Hs, Hf. revert Er.
    destruct (Z.eqb_spec ret 0) as [->|Hret]; intros Er [= <- <-]; [|by constructor; auto].
    revert Er. unfold request_begin. destruct (_ || _).
    + destruct (Z.eqb_spec (o_error (s_o s)) 0); intros [= ? <-]; done.
    + intros [= <-]. by constructor.
  - intros [= <- <-]. constructor. destruct (ret =? 0); eauto.
  - destruct timeout, (o_ack (s_o s)) as [|n] eqn:Ea; try done; intros [= <- <-].
    + assert (s = s <| s_o := (s_o s) <| o_ack := 0%nat |> |>) as E.
      { rewrite <- Ea. by destruct s as [[] ? ? ? ? ?]. }
      rewrite E at 2. constructor.
    + constructor.
  - pose proof (request_end_ok r (s_o s)) as Hs. unfold request_end in *. cbn in *.
    set (x := if o_error (s_o s) !=? 0 then _ else _) in *.
    destruct (Z.eqb_spec x 0) as [Ex|Ex]; intros [= <- <-]; by constructor.
Qed.

Lemma packets_differ p : request_packet 0x11 p ≠ request_packet 0x10 0.
Proof. intros E. apply (f_equal (λ l, l !! 12%nat)) in E. by vm_compute in E. Qed.

Lemma wlog_app l1 l2 : wlog (l1 ++ l2) = wlog l1 ++ wlog l2.
Proof. apply filter_app. Qed.
Lemma olog_app l1 l2 : olog (l1 ++ l2) = olog l1 ++ olog l2.
Proof. apply filter_app. Qed.
Lemma llog_app l1 l2 : llog (l1 ++ l2) = llog l1 ++ llog l2.
Proof. apply filter_app. Qed.
Lemma links_app l1 l2 : links (l1 ++ l2) = links l1 ++ links l2.
Proof. apply omap_app. Qed.
Lemma links_work l : Forall (λ e, is_link e = false) l → links l = [] ∧ llog l = [].
Proof.
  induction 1 as [|e l He Hl [IH1 IH2]]; [done|]. unfold links, llog in *. simpl.
  destruct e; simpl in *; try done; by rewrite ?filter_cons_False.
Qed.
Lemma ack_logs p :
  wlog [ESend (request_packet 0x11 p)] = [ESend (request_packet 0x11 p)] ∧
  olog [ESend (request_packet 0x11 p)] = [].
Proof.
  assert (is_observe (ESend (request_packet 0x11 p)) = false) as E
    by (apply bool_decide_eq_false, packets_differ).
  unfold wlog, olog. split.
  - rewrite filter_cons_True; [done|]. unfold is_work. by rewrite E.
  - rewrite filter_cons_False; [done|]. by rewrite E.
Qed.

(** Appending effects of another party changes nothing for the link. *)
Lemma link_append o c l l' :
  Forall (λ e, is_link e = false) l' → link_sent_ok o c l → link_sent_ok o c (l ++ l').
Proof.
  intros Hl. destruct (links_work l' Hl) as [E1 E2]. unfold link_sent_ok.
  by rewrite links_app, llog_app, E1, E2, !app_nil_r.
Qed.

Lemma busy_of s : sys_ok s →
  s_worker s ≠ WIdle ∨ (∃ pc, s_control s = CRequest pc) → o_attempted (s_o s) = true.
Proof.
  intros Hok Hb. apply (so_busy _ Hok). unfold busy.
  destruct Hb as [Hw|(pc&->)]; [by destruct (s_worker s), (s_pending s)|by rewrite orb_true_r].
Qed.

(** The link's state does not depend on where a party is inside [request]. *)
Lemma link_elsewhere o c c' l :
  match c with CLink _ _ | CClose _ => False | _ => True end →
  match c' with CLink _ _ | CClose _ => False | _ => True end →
  link_sent_ok o c l → link_sent_ok o c' l.
Proof.
  intros Hc Hc' (H1&H2&H3&H4&H5). split_and!; try done.
  - by intros w n ->.
  - by destruct c, c'.
Qed.

Lemma section_ack o n : section_ok o (o <| o_ack := n |>).
Proof. section_tac. Qed.
Lemma section_refl o : section_ok o o.
Proof. section_tac. Qed.

Ltac sysimpl := cbn [set_field s_o s_worker s_control s_log s_lock s_pending] in *.

Lemma step_request_worker native l s s' :
  sys_ok s → step native (LRequest Worker l) s = Some s' → sys_ok s'.
Proof.
  intros Hok E. cbn in E. destruct (s_worker s) as [| | | |e pc|] eqn:Ew; try (by destruct l).
  destruct (request_step _ _ _ _ _ _) as [[pc' s1]|] eqn:Er; [|done]. injection E as <-.
  apply request_step_rel in Er.
  assert (o_attempted (s_o s) = true) as Hatt by (apply busy_of; [done|left; by rewrite Ew]).
  pose proof (so_lock _ Hok) as (K1&K2&K3). rewrite Ew in K1, K2, K3.
  pose proof (so_link _ Hok) as HL. pose proof (so_obs _ Hok) as HO.
  revert Hok Ew Hatt K1 K2 K3 HL HO. destruct Er as [s ret Hret Hin|s o' Hlk Hsec A1 A2 A3 A4 A5
    |s pc' Hpc|s ret n|s r r' o' Hsec A1 Hin A2 A3 A4 A5]; intros;
    apply (step_build s); try done; sysimpl; rewrite ?Ew; unfold worker_ok;
    try exact (λ H, H).
  - intros [He Hw]. split; [done|]. rewrite (proj2 (Z.eqb_neq _ _) Hret).
    split; [by split; auto|]. exists (length (applied_effects e)).
    rewrite (next_current _ _ He). unfold event_effects. by rewrite take_app_length.
  - by rewrite A2.
  - intros Ho' Hla. by apply (link_later (s_o s)).
  - rewrite Hlk in K2. unfold lock_ok. sysimpl. cbn in *. destruct (cflight (s_control s)); done.
  - intros [He Hw]. split; [done|]. rewrite wlog_app, (proj1 (ack_logs _)), Hw, <- app_assoc.
    by destruct Hpc as [->|(r&->)].
  - by rewrite olog_app, (proj2 (ack_logs _)), app_nil_r.
  - intros _ _. apply link_append; [by repeat constructor|done].
  - unfold lock_ok. sysimpl. destruct Hpc as [->|(r&->)]; done.
  - apply section_ack.
  - auto.
  - by rewrite A2.
  - intros [He Hw]. split; [done|]. destruct (Z.eqb_spec r' 0) as [->|Hr]; [done|].
    split; [by split; [rewrite A2|auto]|]. exists (length (event_effects e)).
    rewrite (next_current _ _ He). by rewrite take_ge.
  - intros Ho' Hla. by apply (link_later (s_o s)).
  - unfold lock_ok. sysimpl. cbn in *. by destruct (cflight (s_control s)).
Qed.

Lemma observe_logs :
  wlog [ESend (request_packet 0x10 0)] = [] ∧
  olog [ESend (request_packet 0x10 0)] = [ESend (request_packet 0x10 0)].
Proof. by vm_compute. Qed.

Lemma observe_elsewhere o c c' ol :
  (c' ≠ CRequest RLock ∧ c' ≠ CRequest RSend) → observe_sent_ok o c ol → observe_sent_ok o c' ol.
Proof. intros [N1 N2] (H1&H2&_). split_and!; try done. by intros [?|?]. Qed.

Lemma step_request_control native l s s' :
  sys_ok s → step native (LRequest Control l) s = Some s' → sys_ok s'.
Proof.
  intros Hok E. cbn in E. destruct (s_control s) as [|pc| | |] eqn:Ec; try (by destruct l).
  destruct (request_step _ _ _ _ _ _) as [[pc' s1]|] eqn:Er; [|done]. injection E as <-.
  apply request_step_rel in Er.
  assert (o_attempted (s_o s) = true) as Hatt by (apply busy_of; [done|right; eauto]).
  pose proof (so_lock _ Hok) as (K1&K2&K3). rewrite Ec in K1, K2, K3.
  pose proof (so_link _ Hok) as HL. rewrite Ec in HL. pose proof (so_obs _ Hok) as HO.
  assert (∀ pc' l, link_sent_ok (s_o s) (CRequest pc) l → link_sent_ok (s_o s) (CRequest pc') l)
    as Hlc by (intros ? ?; by apply link_elsewhere).
  assert (wflight (s_worker s) = true → flight pc = false) as Hwf
    by (intros Hf; rewrite Hf in K1; done).
  revert Hok Ec Hatt K1 K2 K3 HL HO Hlc Hwf.
  destruct Er as [s ret Hret Hin|s o' Hlk Hsec A1 A2 A3 A4 A5
    |s pc' Hpc|s ret n|s r r' o' Hsec A1 Hin A2 A3 A4 A5]; intros;
    apply (step_build s); try done; sysimpl; rewrite ?Ec; try exact (λ H, H).
  - by apply observe_elsewhere.
  - intros _ _. by apply Hlc.
  - by rewrite A2.
  - intros (H1&H2&H3). split_and!; try done. intros _. apply H3. by left.
  - intros Ho' Hla. apply (link_later (s_o s)); auto.
  - rewrite Hlk in K2. unfold lock_ok. sysimpl. cbn in *. by destruct (wflight (s_worker s)).
  - by rewrite wlog_app, (proj1 observe_logs), app_nil_r.
  - intros (H1&H2&H3). rewrite olog_app, (proj2 observe_logs), H3 by by right.
    split_and!; [simpl; lia|by rewrite Hatt|]. by destruct Hpc as [->|(r&->)]; intros [?|?].
  - intros _ _. apply link_append; [by repeat constructor|]. by apply Hlc.
  - destruct (wflight (s_worker s)) eqn:Ef; [by specialize (Hwf eq_refl)|].
    unfold lock_ok. sysimpl. rewrite Ef. destruct Hpc as [->|(r&->)]; done.
  - apply section_ack.
  - by apply observe_elsewhere.
  - intros Ho' Hla. apply (link_later (s_o s)); auto.
  - auto.
  - by rewrite A2.
  - by apply observe_elsewhere.
  - intros Ho' Hla. apply (link_later (s_o s)); auto.
  - destruct (wflight (s_worker s)) eqn:Ef; [by specialize (Hwf eq_refl)|].
    unfold lock_ok. sysimpl. rewrite Ef. cbn in *. done.
Qed.

(** *** The stores *)

Lemma step_observe native enable nhi s s' :
  sys_ok s → step native (LObserve enable nhi) s = Some s' → sys_ok s'.
Proof.
  intros Hok E. cbn in E. destruct (s_control s) eqn:Ec; try done.
  pose proof (observe_ok enable nhi (s_o s)) as Hsec.
  assert ((observe_begin enable nhi (s_o s)).1 = 0 → enable = true →
    o_attempted (s_o s) = false ∧ o_attempted (observe_begin enable nhi (s_o s)).2 = true) as Hen.
  { unfold observe_begin. destruct enable, nhi, (o_attempted (s_o s)), (o_service_up (s_o s)); done. }
  assert (∀ b : bool, o_awaiting (observe_begin enable nhi (s_o s)).2 = o_awaiting (s_o s) ∧
    o_link_attempted (observe_begin enable nhi (s_o s)).2 = o_link_attempted (s_o s) ∧
    o_link_count (observe_begin enable nhi (s_o s)).2 = o_link_count (s_o s) ∧
    o_link_result (observe_begin enable nhi (s_o s)).2 = o_link_result (s_o s)) as Hsame.
  { intros _. unfold observe_begin.
    by destruct enable, nhi, (o_attempted (s_o s)), (o_service_up (s_o s)). }
  destruct (Hsame true) as (A1&A2&A3&A4). destruct (observe_begin enable nhi (s_o s)) as [ret o'].
  cbn [fst snd] in *. injection E as <-. destruct (Hsec (so_obs _ Hok)) as (Ho'&Hla&_).
  pose proof (so_busy _ Hok) as Hb. destruct (so_lock _ Hok) as (K1&K2&K3).
  pose proof (so_link _ Hok) as HL. rewrite Ec in *.
  destruct ((ret =? 0) && enable) eqn:Er; apply (step_build s); try done; sysimpl; rewrite ?Ec.
  - apply andb_true_iff in Er as [Er%Z.eqb_eq ->]. intros _. by apply Hen.
  - apply andb_true_iff in Er as [Er%Z.eqb_eq ->]. pose proof (so_observe _ Hok) as (_&H2&_).
    intros _. rewrite H2 by (by apply Hen). split_and!; [simpl; lia|done..].
  - intros _ _. apply (link_elsewhere _ CIdle); [done..|]. apply (link_later (s_o s)); try done.
    apply Hok.
  - unfold lock_ok. sysimpl. rewrite A1. done.
  - unfold busy. sysimpl. rewrite orb_false_r. intros H1. apply Hla, Hb. unfold busy. by rewrite H1.
  - by apply observe_elsewhere.
  - intros _ _. apply (link_elsewhere _ CIdle); [done..|]. apply (link_later (s_o s)); try done.
    apply Hok.
  - unfold lock_ok. sysimpl. rewrite A1. done.
Qed.

Lemma step_observed native s s' : sys_ok s → step native LObserved s = Some s' → sys_ok s'.
Proof.
  intros Hok E. cbn in E. destruct (s_control s) as [|[| | | |ret]| | |] eqn:Ec; try done.
  assert (o_attempted (s_o s) = true) as Hatt by (apply busy_of; [done|right; eauto]).
  pose proof (so_lock _ Hok) as (K1&K2&K3). rewrite Ec in K1, K2, K3.
  pose proof (so_link _ Hok) as HL. rewrite Ec in HL.
  injection E as <-. destruct (ret =? 0); apply (step_build s); try done; sysimpl; rewrite ?Ec;
    try (by apply section_refl); try (by apply observe_elsewhere);
    try (intros _ _; by eapply link_elsewhere; [| |exact HL]); done.
Qed.

Lemma step_cancel native s s' : sys_ok s → step native LCancel s = Some s' → sys_ok s'.
Proof.
  intros Hok E. cbn in E. destruct (s_control s) eqn:Ec, (s_worker s) eqn:Ew; try done.
  injection E as <-. pose proof (so_lock _ Hok) as (K1&K2&K3). rewrite Ec, Ew in K1, K2, K3.
  pose proof (so_link _ Hok) as HL. rewrite Ec in HL.
  apply (step_build s); try done; sysimpl; rewrite ?Ec, ?Ew; try exact (λ H, H).
  - unfold busy. sysimpl. by rewrite Ew.
  - by apply observe_elsewhere.
  - intros _ _. by eapply link_elsewhere; [| |exact HL].
  - unfold lock_ok. sysimpl. by rewrite Ew.
Qed.

Lemma link_word_seen o w :
  obs_ok o → current_word o = Ok w → o_processed o = o_count o ∧ word_at_ o (o_count o) = Ok w.
Proof.
  intros Hok. unfold current_word, word_at_, yoga_link_word.
  destruct (_ || _) eqn:Eg; [done|]. apply orb_false_iff in Eg as [Eg Ep%negb_false_iff%Z.eqb_eq].
  assert (o_processed o = o_count o) as Ep' by lia.
  rewrite orb_false_iff in Eg. destruct Eg as [-> ->]. rewrite Z.eqb_refl. simpl.
  assert (length (seen o) = o_count o) as El by by apply seen_length.
  rewrite (take_ge (seen o)), El, Nat2Z.id, (take_ge (seen o)) by lia.
  destruct (Z.ltb_spec (Z.of_nat (o_count o)) (Z.of_nat (o_count o))); [lia|].
  destruct (_ <? _); [done|]. done.
Qed.

Lemma link_begin_same o r o' :
  link_begin o = (r, o') → o_awaiting o' = o_awaiting o ∧ o_attempted o' = o_attempted o.
Proof. unfold link_begin. destruct (_ || _); intros [= _ <-]; done. Qed.

Lemma link_begin_inv o r o' :
  link_begin o = (r, o') →
  r = Err (-EPERM) ∧ o' = o ∨
  o_link_attempted o = false ∧ r = current_word o ∧
  o' = o <| o_link_attempted := true |> <| o_link_count := o_count o |>.
Proof.
  unfold link_begin. destruct (o_link_attempted o); [intros [= <- <-]; by left|].
  destruct (_ || _); intros [= <- <-]; [by left|by right].
Qed.

Lemma step_link native s s' : sys_ok s → step native LLink s = Some s' → sys_ok s'.
Proof.
  intros Hok E. cbn in E. destruct (s_control s) eqn:Ec; try done.
  pose proof (link_ok (s_o s)) as Hsec. pose proof (so_lock _ Hok) as (K1&K2&K3).
  pose proof (so_link _ Hok) as (L1&L2&L3&_). pose proof (so_busy _ Hok) as Hb. rewrite Ec in *.
  assert (∀ r o' s2, link_begin (s_o s) = (r, o') → s_worker s2 = s_worker s → s_lock s2 = s_lock s →
    s_o s2 = o' → cflight (s_control s2) = false → lock_ok s2) as Hlock.
  { intros r o' s2 El E1 E2 E3 E4. unfold lock_ok. rewrite E1, E2, E3, E4.
    by rewrite (proj1 (link_begin_same _ _ _ El)). }
  pose proof (link_begin_same (s_o s)) as Hatt.
  destruct (link_begin (s_o s)) as [[w|e|] o'] eqn:El; [..|done]; injection E as <-;
    destruct (Hsec (so_obs _ Hok)) as (Ho'&Hla&_); cbn [snd] in *;
    apply (step_build s); try done; sysimpl; rewrite ?Ec.
  - rewrite (proj2 (Hatt _ _ eq_refl)). intros H1. apply Hb. unfold busy. rewrite Ec. exact H1.
  - by rewrite wlog_app, app_nil_r.
  - rewrite olog_app, app_nil_r. by apply observe_elsewhere.
  - intros _ _. destruct (link_begin_inv _ _ _ El) as [[? _]|(Ela&Ew&->)]; [done|].
    destruct (link_word_seen (s_o s) w) as [_ Hw]; [apply Hok|done|].
    unfold link_sent_ok. rewrite links_app, L2 by done.
    split; [simpl; lia|]. split; [done|]. split; [by intros w' [= <-]|].
    split; [by intros w' n [= <- <-]|done].
  - by eapply Hlock.
  - rewrite (proj2 (Hatt _ _ eq_refl)). intros H1. apply Hb. unfold busy. rewrite Ec. exact H1.
  - by apply observe_elsewhere.
  - intros _ _. destruct (link_begin_inv _ _ _ El) as [[_ ->]|(Ela&_&->)]; [by split_and!|].
    unfold link_sent_ok. rewrite L2 by done. split_and!; [simpl; lia|done..].
  - by eapply Hlock.
Qed.

Lemma step_link_done native ret s s' :
  sys_ok s → step native (LLinkDone ret) s = Some s' → sys_ok s'.
Proof.
  intros Hok E. cbn in E. destruct (s_control s) as [| | |w n|] eqn:Ec; try done. injection E as <-.
  pose proof (so_lock _ Hok) as (K1&K2&K3). pose proof (so_link _ Hok) as (L1&L2&L3&_).
  pose proof (so_busy _ Hok) as Hb. rewrite Ec in *.
  apply (step_build s); try done; sysimpl; rewrite ?Ec.
  - intros H1. apply Hb. unfold busy. rewrite Ec. exact H1.
  - by apply observe_elsewhere.
Qed.

Lemma step_link_close native s s' : sys_ok s → step native LLinkClose s = Some s' → sys_ok s'.
Proof.
  intros Hok E. cbn in E. destruct (s_control s) as [| | | |ret] eqn:Ec; try done. injection E as <-.
  pose proof (so_lock _ Hok) as (K1&K2&K3). pose proof (so_link _ Hok) as (L1&L2&L3&_).
  pose proof (so_busy _ Hok) as Hb. rewrite Ec in *.
  assert (section_ok (s_o s) (s_o s) <| o_link_result := ret |>) as Hsec by section_tac.
  apply (step_build s); try done; sysimpl; rewrite ?Ec.
  - intros H1. apply Hb. unfold busy. rewrite Ec. exact H1.
  - destruct ((ret !=? 0) || negb native); [by rewrite wlog_app, app_nil_r|exact (λ H, H)].
  - destruct ((ret !=? 0) || negb native); [rewrite olog_app, app_nil_r|]; by apply observe_elsewhere.
  - intros _ _. destruct (ret =? 0) eqn:Er; simpl.
    + assert (∀ l, links l = links (s_log s) →
        link_sent_ok (s_o s) <| o_link_result := ret |> CIdle l) as Hl.
      { intros l El. unfold link_sent_ok. rewrite El. split_and!; try done.
        intros Hn. exfalso. apply Hn. by apply Z.eqb_eq. }
      destruct native; simpl; apply Hl; [done|by rewrite links_app, app_nil_r].
    + unfold link_sent_ok. rewrite links_app, llog_app, app_nil_r. split_and!; try done.
      intros _. by rewrite last_app.
Qed.

(** *** The work item *)

Lemma step_work_start native s s' : sys_ok s → step native LWorkStart s = Some s' → sys_ok s'.
Proof.
  intros Hok E. cbn in E. destruct (s_worker s) eqn:Ew; try done.
  destruct (s_pending s) eqn:Ep; [|done]. injection E as <-.
  pose proof (so_busy _ Hok) as Hb. pose proof (so_lock _ Hok) as K. unfold lock_ok in K.
  apply (step_build s); try done; sysimpl; rewrite ?Ew in *; try done.
  - intros _. apply Hb. unfold busy. by rewrite Ep.
  - intros _ _. apply Hok.
Qed.

Lemma step_work_peek native s s' : sys_ok s → step native LWorkPeek s = Some s' → sys_ok s'.
Proof.
  intros Hok E. cbn in E. destruct (s_worker s) eqn:Ew; try done.
  assert (o_attempted (s_o s) = true) as Hatt by (apply busy_of; [done|left; by rewrite Ew]).
  pose proof (so_lock _ Hok) as K. unfold lock_ok in K.
  destruct (_ || _) eqn:Eg; [injection E as <-|].
  { apply (step_build s); try done; sysimpl; rewrite ?Ew in *; try done. intros _ _. apply Hok. }
  rewrite !orb_false_iff, negb_false_iff in Eg. destruct Eg as [[Ha _] Hp%bool_decide_eq_false].
  destruct (o_events (s_o s) !! o_processed (s_o s)) as [e|] eqn:Ee; [|done]. injection E as <-.
  apply (step_build s); try done; sysimpl; rewrite ?Ew in *; try done.
  - intros Hw. split.
    + unfold seen. rewrite lookup_take_lt; [done|]. pose proof (ok_processed _ (so_obs _ Hok)). lia.
    + destruct Hw as [Hw|[[_ Hi] _]]; [done|congruence].
  - intros _ _. apply Hok.
Qed.

Lemma configure_effects nhi sw rt e o l :
  let out := configure_port nhi sw rt e (o, l) in
  ∃ t, out.2.2 = l ++ t ∧
    match out.1 with
    | Ok _ => t = applied_effects e
    | _ => ∃ k, (k ≤ length (applied_effects e))%nat ∧ t = take k (applied_effects e)
    end.
Proof.
  assert (∀ A, ∃ t, l = l ++ t ∧ (∃ k, (k ≤ length (applied_effects e))%nat ∧
    t = take k (applied_effects e)) ∧ A = A :> Prop) as H0.
  { intros A. exists []. rewrite app_nil_r. split; [done|]. split; [|done].
    exists 0%nat. split; [lia|done]. }
  destruct (H0 True) as (t0&Et0&Hk0&_). cbv zeta.
  unfold configure_port, bind, lift, get, applied_effects in *.
  destruct (yp_port e !=? 0); [exists []; by rewrite app_nil_r|].
  destruct (yoga_plan e) as [p|z|]; [|by exists t0..]. cbn [fst].
  destruct (_ || _); [by exists t0|]. unfold calls_.
  destruct (sw =? 0).
  2: { exists [ESwitch (plan_orientation p)]. split; [done|]. exists 1%nat. split; [simpl; lia|done]. }
  destruct (plan_state p) as [st|].
  2: { exists [ESwitch (plan_orientation p)]. split; [done|]. exists 1%nat. split; [simpl; lia|done]. }
  exists [ESwitch (plan_orientation p); ERetimer st].
  destruct (rt =? 0); simpl; rewrite <- app_assoc; (split; [done|]); [done|].
  exists 2%nat. split; [lia|done].
Qed.

Lemma applied_kinds e :
  Forall (λ x, is_link x = false) (applied_effects e) ∧
  wlog (applied_effects e) = applied_effects e ∧ olog (applied_effects e) = [].
Proof.
  unfold applied_effects. destruct (_ !=? 0); [done|]. destruct (yoga_plan e) as [p| |]; [|done..].
  destruct (plan_state p); by repeat constructor.
Qed.

Lemma applied_prefix e k :
  Forall (λ x, is_link x = false) (take k (applied_effects e)) ∧
  wlog (take k (applied_effects e)) = take k (applied_effects e) ∧
  olog (take k (applied_effects e)) = [].
Proof.
  destruct (applied_kinds e) as (H1&H2&H3). rewrite <- (take_drop k (applied_effects e)) in H1, H2, H3.
  apply Forall_app in H1 as [H1 _]. rewrite olog_app in H3. apply app_eq_nil in H3 as [H3 _].
  split; [done|]. split; [|done]. rewrite wlog_app in H2.
  assert (∀ l, length (wlog l) ≤ length l)%nat as Hl by (intros l; apply length_filter).
  apply app_inj_1 in H2 as [H2 _]; [done|].
  pose proof (Hl (take k (applied_effects e))). pose proof (Hl (drop k (applied_effects e))).
  apply (f_equal length) in H2. rewrite !length_app in H2. lia.
Qed.

Lemma configure_same nhi sw rt e o l o' l' r :
  configure_port nhi sw rt e (o, l) = (r, (o', l')) →
  o_awaiting o' = o_awaiting o ∧ o_attempted o' = o_attempted o ∧
  o_link_attempted o' = o_link_attempted o ∧ o_link_count o' = o_link_count o ∧
  o_link_result o' = o_link_result o ∧ seen o' = seen o ∧ o_processed o' = o_processed o.
Proof.
  unfold configure_port, bind, lift, get. destruct (_ !=? 0); [by intros [= _ <- _]|].
  destruct (yoga_plan e); [|by intros [= _ <- _]..]. cbn [fst].
  destruct (_ || _); [by intros [= _ <- _]|].
  unfold calls_. destruct (sw =? 0); [|by intros [= _ <- _]].
  destruct (plan_state _); [|by intros [= _ <- _]].
  destruct (rt =? 0); [|by intros [= _ <- _]]. by intros [= _ <- _].
Qed.

Lemma step_work_apply native nhi sw rt s s' :
  sys_ok s → step native (LWorkApply nhi sw rt) s = Some s' → sys_ok s'.
Proof.
  intros Hok E. cbn in E. destruct (s_worker s) as [| |e| | |] eqn:Ew; try done.
  assert (o_attempted (s_o s) = true) as Hatt by (apply busy_of; [done|left; by rewrite Ew]).
  pose proof (configure_ok nhi sw rt e (s_o s) (s_log s)) as Hsec.
  destruct (configure_effects nhi sw rt e (s_o s) (s_log s)) as (t&Et&Hr).
  pose proof (so_lock _ Hok) as K. unfold lock_ok in K. rewrite Ew in K.
  assert (∃ k, (k ≤ length (applied_effects e))%nat ∧ t = take k (applied_effects e)) as (k&Hk&Etk).
  { destruct (configure_port _ _ _ _ _).1; [|done..]. exists (length (applied_effects e)).
    by rewrite take_ge. }
  destruct (configure_port nhi sw rt e (s_o s, s_log s)) as [r [o' l']] eqn:Ecf.
  cbn [fst snd] in *. pose proof (configure_same _ _ _ _ _ _ _ _ _ Ecf) as (A1&A2&A3&A4&A5&A6&A7).
  destruct (applied_prefix e k) as (P1&P2&P3). rewrite <- Etk in P1, P2, P3.
  assert (∀ w, sys_ok s → (worker_ok o' (WApply e) (wlog (s_log s)) → worker_ok o' w (wlog l')) →
    w ≠ WIdle → wflight w = false → sys_ok (s <| s_o := o' |> <| s_log := l' |> <| s_worker := w |>)) as Hgo.
  { intros w _ Hw Hi Hf. apply (step_build s); try done; sysimpl; rewrite ?Ew; try done.
    - by rewrite A2.
    - rewrite Et, olog_app, P3, app_nil_r. exact (λ H, H).
    - intros Ho' Hla. rewrite Et. apply link_append; [done|].
      apply (link_later (s_o s)); try done; apply Hok.
    - unfold lock_ok. sysimpl. by rewrite Hf, A1. }
  destruct r as [[]|ret|]; [| |done]; injection E as <-; apply Hgo; try done; intros [Hc Hw].
  - split; [done|]. rewrite Et, wlog_app, P2, Hw. by rewrite Hr.
  - split; [by eauto|]. exists k. rewrite Et, wlog_app, P2, Hw, Etk, (next_current _ _ Hc).
    unfold event_effects. by rewrite take_app_le.
Qed.

Lemma step_work_fail native s s' : sys_ok s → step native LWorkFail s = Some s' → sys_ok s'.
Proof.
  intros Hok E. cbn in E. destruct (s_worker s) as [| | |ret| |] eqn:Ew; try done. injection E as <-.
  assert (o_attempted (s_o s) = true) as Hatt by (apply busy_of; [done|left; by rewrite Ew]).
  pose proof (so_lock _ Hok) as K. unfold lock_ok in K. rewrite Ew in K.
  apply (step_build s); try done; sysimpl; rewrite ?Ew.
  - by apply fail_ok.
  - intros [_ Hk]. right. split; [by split|done].
  - intros Ho' Hla. apply (link_later (s_o s)); try done; apply Hok.
Qed.

Lemma step_work_acked native s s' : sys_ok s → step native LWorkAcked s = Some s' → sys_ok s'.
Proof.
  intros Hok E. cbn in E. destruct (s_worker s) as [| | | |e [| | | |ret]|] eqn:Ew; try done.
  injection E as <-.
  assert (o_attempted (s_o s) = true) as Hatt by (apply busy_of; [done|left; by rewrite Ew]).
  pose proof (so_lock _ Hok) as K. unfold lock_ok in K. rewrite Ew in K.
  destruct (ret =? 0) eqn:Er; apply (step_build s); try done; sysimpl; rewrite ?Ew;
    try (intros _ _; apply Hok); unfold worker_ok; rewrite Er; intros [Hc Hw].
  - by exists e.
  - right. exact Hw.
Qed.

Lemma step_work_advance native s s' : sys_ok s → step native LWorkAdvance s = Some s' → sys_ok s'.
Proof.
  intros Hok E. cbn in E. destruct (s_worker s) eqn:Ew; try done. injection E as <-.
  assert (o_attempted (s_o s) = true) as Hatt by (apply busy_of; [done|left; by rewrite Ew]).
  destruct Hok as [Ho Hb Hw Hs Hl Hk]. unfold lock_ok in Hk. rewrite Ew in Hk, Hw.
  destruct Hw as (e&Hc&Hw).
  assert (o_processed (s_o s) < o_count (s_o s))%nat as Hlt.
  { rewrite <- (seen_length _ Ho). by eapply lookup_lt_Some. }
  split; sysimpl; try done.
  - destruct Ho as [H1 H2 H3 H4 H5]. split; cbn; try done.
  - left. rewrite Hw. unfold finished. cbn [o_processed set_field].
    change (seen _) with (seen (s_o s)) at 2. rewrite (take_S_r _ _ _ Hc), flat_map_app. simpl.
    by rewrite app_nil_r.
Qed.

Lemma step_ok native l s s' : sys_ok s → step native l s = Some s' → sys_ok s'.
Proof.
  destruct l as [data|up|en nhi| |ret| |t l| | | | |nhi sw rt| | |].
  - apply step_callback.
  - apply step_pdr.
  - apply step_observe.
  - apply step_link.
  - apply step_link_done.
  - apply step_link_close.
  - destruct t; [apply step_request_worker|apply step_request_control].
  - apply step_observed.
  - apply step_cancel.
  - apply step_work_start.
  - apply step_work_peek.
  - apply step_work_apply.
  - apply step_work_fail.
  - apply step_work_acked.
  - apply step_work_advance.
Qed.

Lemma boot_ok : sys_ok boot.
Proof.
  split; cbn; try done.
  - split; cbn; try done; lia.
  - by left.
  - split_and!; cbn; try done. lia.
  - split_and!; cbn; try done. lia.
Qed.

Lemma run_ok native ls s s' : sys_ok s → run native ls s = Some s' → sys_ok s'.
Proof.
  revert s. induction ls as [|l ls IH]; intros s Hs; cbn [run]; [by intros [= <-]|].
  destruct (step native l s) as [s1|] eqn:E; [|done]. simpl. apply IH. by eapply step_ok.
Qed.

Lemma reachable_ok native s : reachable native s → sys_ok s.
Proof. intros [ls E]. eapply run_ok; [apply boot_ok|done]. Qed.

(** ** Development over a run *)

Lemma later_of o o' : obs_ok o → section_ok o o' → later o o'.
Proof. intros Hok Hs. by apply Hs. Qed.

Lemma rstep_later t cmd arg pc s pc' s' :
  obs_ok (s_o s) → o_attempted (s_o s) = true → rstep t cmd arg pc s pc' s' →
  later (s_o s) (s_o s').
Proof.
  intros Ho Ha Hr. destruct Hr; cbn [set_field s_o]; try reflexivity.
  - by apply later_of.
  - apply later_of; [done|]. apply section_ack.
  - apply later_of; auto.
Qed.

Lemma step_later native l s s' :
  sys_ok s → step native l s = Some s' → later (s_o s) (s_o s').
Proof.
  intros Hok E. pose proof (so_obs _ Hok) as Ho. revert E.
  destruct l as [data|up|en nhi| |ret| |t l| | | | |nhi sw rt| | |]; cbn [step].
  - destruct (callback data (s_o s)) as [[o' b]|e|] eqn:Ec; [|done..]. intros [= <-].
    by apply (callback_ok data (s_o s) o' b).
  - intros [= <-]. apply later_of; [done|apply pdr_ok].
  - destruct (s_control s); try done. pose proof (observe_ok en nhi (s_o s)) as Hs.
    destruct (observe_begin en nhi (s_o s)). intros [= <-]. by apply later_of.
  - destruct (s_control s); try done. pose proof (link_ok (s_o s)) as Hs.
    destruct (link_begin (s_o s)) as [[w|e|] o']; [..|done]; intros [= <-]; by apply later_of.
  - destruct (s_control s); try done. by intros [= <-].
  - destruct (s_control s); try done. intros [= <-]. apply later_of; [done|]. section_tac.
  - destruct t.
    + destruct (s_worker s) as [| | | |e pc|] eqn:Ew; try (by destruct l, (s_control s)).
      destruct (request_step _ _ _ _ _ _) as [[pc' s1]|] eqn:Er; [|by destruct (s_control s)].
      intros E. assert (s_o s' = s_o s1) as -> by (destruct (s_control s); by injection E as <-).
      eapply rstep_later; [done| |by apply request_step_rel in Er].
      apply busy_of; [done|left; by rewrite Ew].
    + destruct (s_control s) as [|pc| | |] eqn:Ec; try (by destruct l).
      destruct (request_step _ _ _ _ _ _) as [[pc' s1]|] eqn:Er; [|done]. intros [= <-].
      change (later (s_o s) (s_o s1)). apply request_step_rel in Er.
      eapply rstep_later; [done| |exact Er].
      apply busy_of; [done|right; eauto].
  - destruct (s_control s) as [|[]| | |]; try done. by intros [= <-].
  - destruct (s_control s), (s_worker s); try done. by intros [= <-].
  - destruct (s_worker s), (s_pending s); try done. all: by intros [= <-].
  - destruct (s_worker s); try done. destruct (_ || _); [by intros [= <-]|].
    destruct (_ !! _); [|done]. by intros [= <-].
  - destruct (s_worker s) as [| |e| | |]; try done.
    pose proof (configure_ok nhi sw rt e (s_o s) (s_log s)) as Hs.
    destruct (configure_port _ _ _ _ _) as [[[]|r|] [o' l']]; [..|done]; intros [= <-];
      by apply later_of.
  - destruct (s_worker s) eqn:Ew; try done. intros [= <-]. apply later_of; [done|].
    apply fail_ok. apply busy_of; [done|left; by rewrite Ew].
  - destruct (s_worker s) as [| | | |e []|]; try done. by intros [= <-].
  - destruct (s_worker s); try done. intros [= <-]. by apply later_same.
Qed.

Lemma run_later native ls s s' :
  sys_ok s → run native ls s = Some s' → later (s_o s) (s_o s').
Proof.
  revert s. induction ls as [|l ls IH]; intros s Hs; cbn [run]; [by intros [= <-]|].
  destruct (step native l s) as [s1|] eqn:E; [|done]. simpl. intros Er.
  transitivity (s_o s1); [by eapply step_later|]. apply IH; [|done]. by eapply step_ok.
Qed.

(** ** No access outside the buffers *)

Definition events_wf (o : observer) : Prop := Forall (λ e, yp_ext e ≠ []) (seen o).

Lemma events_later o o' : later o o' → events_wf o → events_wf o'.
Proof. intros ((l&El&Fl&_)&_) Hwf. unfold events_wf. rewrite El. by apply Forall_app. Qed.

Lemma byte_front e : yp_ext e ≠ [] → ∃ b, byte_at (yp_ext e) 0 = Ok b.
Proof. destruct (yp_ext e) as [|x xs]; [done|]. intros _. by eexists. Qed.

Lemma plan_total e : yp_ext e ≠ [] → yoga_plan e ≠ Fault.
Proof.
  intros He. destruct (byte_front e He) as [b Hb]. unfold yoga_plan. rewrite Hb.
  unfold rbind. by repeat case_match.
Qed.

Lemma link_word_total o : obs_ok o → events_wf o → current_word o ≠ Fault.
Proof.
  intros Hok Hwf. unfold current_word, yoga_link_word. destruct (_ || _); [done|].
  pose proof (ok_len _ Hok). pose proof (ok_count _ Hok).
  destruct (Z.ltb_spec (Z.of_nat (length (o_events o))) (Z.of_nat (o_count o))); [lia|].
  destruct (last _) as [e|] eqn:El; [|done].
  apply last_Some_elem_of, list_elem_of_filter in El as [_ El]. rewrite Nat2Z.id in El.
  assert (yp_ext e ≠ []) as He.
  { unfold events_wf in Hwf. rewrite Forall_forall in Hwf. by apply Hwf. }
  destruct (byte_front e He) as [b ->]. cbn [rbind]. pose proof (plan_total e He).
  destruct (_ || _); [done|]. destruct (yoga_plan e); [by destruct (_ || _)|done..].
Qed.

Lemma configure_total nhi sw rt e s :
  yp_ext e ≠ [] → (configure_port nhi sw rt e s).1 ≠ Fault.
Proof.
  intros He. pose proof (plan_total e He). destruct s as [o l].
  unfold configure_port, bind, lift, get, calls_. destruct (_ !=? 0); [done|].
  destruct (yoga_plan e); [|done..]. cbn [fst]. destruct (_ || _); [done|].
  destruct (sw =? 0); [|done]. destruct (plan_state _); [|done]. by destruct (rt =? 0).
Qed.

Lemma reachable_events native s : reachable native s → events_wf (s_o s).
Proof.
  intros [ls E]. eapply events_later; [eapply run_later; [apply boot_ok|exact E]|]. constructor.
Qed.

(** ** The properties *)

Lemma worker_prefix o w wl : worker_ok o w wl → ∃ k, wl = finished o ++ take k (next o).
Proof.
  assert (wl = finished o → ∃ k, wl = finished o ++ take k (next o)) as H0
    by (intros ->; exists 0%nat; by rewrite app_nil_r).
  assert (∀ e l, seen o !! o_processed o = Some e → l `prefix_of` event_effects e →
    wl = finished o ++ l → ∃ k, wl = finished o ++ take k (next o)) as Hp.
  { intros e l He [l' El] ->. exists (length l). by rewrite (next_current _ _ He), El, take_app_length. }
  destruct w as [| |e|r|e pc|]; unfold worker_ok.
  1,2: intros [?|[_ ?]]; auto.
  - intros [_ ?]. auto.
  - by intros [_ ?].
  - intros [He Hpc]. destruct pc as [| | |r|r].
    1,2: apply (Hp e (applied_effects e)); [done| |done]; by eexists.
    1,2: by apply (Hp e (event_effects e)).
    destruct (r =? 0); [by apply (Hp e (event_effects e))|by destruct Hpc].
  - intros (e&He&?). by apply (Hp e (event_effects e)).
Qed.

Lemma seen_word o w :
  obs_ok o → o_processed o = o_count o → word_at_ o (o_count o) = Ok w → current_word o = Ok w.
Proof.
  intros Hok Ep. unfold current_word, word_at_, yoga_link_word. rewrite Ep.
  destruct (_ || _); [done|]. pose proof (ok_len _ Hok). pose proof (ok_count _ Hok).
  rewrite (take_ge (seen o)), seen_length, Nat2Z.id, (take_ge (seen o)) by
    (rewrite ?seen_length by done; first [done|lia]).
  destruct (_ <? _); [done|]. destruct (Z.ltb_spec (Z.of_nat (length (o_events o))) (Z.of_nat (o_count o)));
    [lia|done].
Qed.


(** An attempt that has stopped, by an error, a lost service or the user,
    stays stopped: whatever happens afterwards, no notification is accepted
    any more and the observer never becomes active again in this boot. *)
Theorem observer_stays_stopped native s ls s' :
  reachable native s → o_attempted (s_o s) = true → o_active (s_o s) = false →
  run native ls s = Some s' →
  o_attempted (s_o s') = true ∧ o_active (s_o s') = false ∧ seen (s_o s') = seen (s_o s).
Proof.
  intros Hre Ha Hi Er. destruct (run_later native ls s s') as ((l&El&_&Hl)&A&B&_);
    [by eapply reachable_ok|done|]. rewrite (Hl Hi Ha), app_nil_r in El. auto.
Qed.

(** The link owner is asked at most once per boot.  While it runs, and
    whenever it asks whether to go on, a positive answer means that nothing
    has arrived since and that the word it was given is still the word of the
    notifications, all of them acknowledged.  A link request that ends with an
    error has been followed by a stop. *)
Theorem observer_link_once native s :
  reachable native s →
  (length (links (s_log s)) ≤ 1)%nat ∧
  (∀ w n, s_control s = CLink w n → links (s_log s) = [w] ∧
     (link_valid n (s_o s) = true → current_word (s_o s) = Ok w)) ∧
  (s_control s = CIdle → o_link_result (s_o s) ≠ 0 → last (llog (s_log s)) = Some ELinkStop).
Proof.
  intros Hre. pose proof (reachable_ok _ _ Hre) as Hok. pose proof (so_obs _ Hok) as Ho.
  destruct (so_link _ Hok) as (L1&L2&L3&L4&L5). split; [done|]. split.
  - intros w n Ec. destruct (L4 w n Ec) as [El ->]. split; [done|].
    unfold link_valid. rewrite !andb_true_iff, !bool_decide_eq_true. intros [[_ En] Ep].
    destruct (L3 w El) as [_ Hw]. rewrite <- En in Hw. by apply seen_word.
  - intros Ec. by rewrite Ec in L5.
Qed.

Definition linked : sys := default boot (run true linked_labels boot).
Lemma linked_reachable : reachable true linked.
Proof. exists linked_labels. vm_compute. reflexivity. Qed.

(** The two attributes a client polls for success can be read while the link
    owner is still running: [link_result] is then still its initial zero, and
    both already report success. *)
Lemma connection_valid_early :
  ∃ s, reachable true s ∧ s_control s = CLink 0x2701 1 ∧
    o_link_attempted (s_o s) = true ∧ o_link_result (s_o s) = 0 ∧
    connection_valid_show (s_o s) = true.
Proof.
  exists linked. split; [apply linked_reachable|]. repeat split; vm_compute; reflexivity.
Qed.

(** ** Witnesses *)


Definition disabled : sys := default boot (run true (observe_labels ++ [LObserve false true]) boot).
Lemma disabled_reachable : reachable true disabled.
Proof. exists (observe_labels ++ [LObserve false true]). vm_compute. reflexivity. Qed.

Definition after_disable : list label :=
  [LCallback (pan_encode lacie_event 0xaa [1; 2; 3; 4]); LCancel; LObserve true true].
Definition retried : sys := default boot (run true after_disable disabled).

Lemma observer_stays_stopped_witness :
  run true after_disable disabled = Some retried ∧
  o_active (s_o retried) = false ∧ seen (s_o retried) = seen (s_o disabled).
Proof.
  assert (run true after_disable disabled = Some retried) as E by (vm_compute; reflexivity).
  split; [exact E|].
  apply (observer_stays_stopped true disabled after_disable retried disabled_reachable eq_refl eq_refl E).
Defined.

Lemma observer_link_once_witness :
  link_valid 1 (s_o linked) = true ∧ current_word (s_o linked) = Ok 0x2701.
Proof.
  assert (s_control linked = CLink 0x2701 1) as Ec by (vm_compute; reflexivity).
  assert (link_valid 1 (s_o linked) = true) as Ev by (vm_compute; reflexivity).
  split; [exact Ev|].
  apply (proj2 (proj1 (proj2 (observer_link_once true linked linked_reachable)) _ _ Ec) Ev).
Defined.
