(* ===== verification/NhiLink.v ===== *)
(** * The one-shot link checkpoint
    (snapshot/kernel/drivers/thunderbolt/qcom-x1-nhi-diag.c, link part)

    One enumeration over the control rings: requests and replies of Packets.v,
    the inventory of Topology.v, bounded transmit and receive budgets, and one
    stop at the end.  The rings, the clock, the caller's validity callback and
    the MCU connect callback are the environment.

    A DMA buffer has TB_FRAME_SIZE bytes whatever the hardware wrote to it;
    transmit buffers are zeroed and used once. *)

From S2P Require Import Prelude Drom Packets Topology.

Definition X1_RX_COUNT : Z := 384.
Definition X1_TX_COUNT : Z := 256.
Definition X1_EVENT_LIMIT : Z := 16.

(** A received frame as the completion left it; [fr_bad] is
    [flags & (RING_DESC_CRC_ERROR | RING_DESC_BUFFER_OVERRUN)]. *)
Record frame := {
  fr_data : list Z;
  fr_size : Z;
  fr_sof : Z;
  fr_eof : Z;
  fr_bad : bool;
  fr_canceled : bool;
}.

(** The fields of [struct x1_control] the link part reads and writes;
    [c_connect] is whether the callback is registered. *)
Record x1_control := Control {
  c_rings_started : bool;
  c_stopped : bool;
  c_link_attempted : bool;
  c_next_tx : Z;
  c_next_rx : Z;
  c_connect : bool;
}.
#[export] Instance control_eta : Eta x1_control := λ c,
  Control (c_rings_started c) (c_stopped c) (c_link_attempted c) (c_next_tx c)
    (c_next_rx c) (c_connect c).

Record link_env (D : Type) := {
  le_jiffies : D → Z * D;
  le_valid : D → bool * D;                      (* valid(ctx) *)
  le_tx : list Z → Z → Z → Z → D → Z * D;       (* tb_ring_tx: bytes, size, sof, eof *)
  le_wait_rx : Z → D → option frame * D;        (* the next receive completion *)
  le_wait_tx : Z → D → option bool * D;         (* the transmit completion, canceled *)
  le_msleep : Z → D → D;
  le_connect : Z → D → Z * D;                   (* ctl->connect(ctx, word) *)
  le_quiesce : bool → D → D;                    (* interrupts off, rings stopped *)
  le_report : string → Z → Z → Z → list Z → D → D;
}.
Arguments le_jiffies {_} _ _.
Arguments le_valid {_} _ _.
Arguments le_tx {_} _ _ _ _ _ _.
Arguments le_wait_rx {_} _ _ _.
Arguments le_wait_tx {_} _ _ _.
Arguments le_msleep {_} _ _ _.
Arguments le_connect {_} _ _ _.
Arguments le_quiesce {_} _ _ _.
Arguments le_report {_} _ _ _ _ _ _ _.

(** The session beside the control block it uses and the world. *)
Record lk (D : Type) := Lk {
  k_ctl : x1_control;
  k_deadline : Z;
  k_events : Z;
  k_dev : D;
}.
Arguments Lk {_} _ _ _ _.
Arguments k_ctl {_} _.
Arguments k_deadline {_} _.
Arguments k_events {_} _.
Arguments k_dev {_} _.
#[export] Instance lk_eta {D} : Eta (lk D) := λ k,
  Lk (k_ctl k) (k_deadline k) (k_events k) (k_dev k).

Section link.
Context (crc32c : Z → list Z → Z) (HZ : Z) (msecs_to_jiffies : Z → Z) (frame_size : nat).
Context {D : Type} (env : link_env D).
Abbreviation L := (M (lk D)).

Definition ask {A} (f : D → A * D) : L A := λ k,
  let (x, d) := f (k_dev k) in (Ok x, k <| k_dev := d |>).
Definition on_ctl (f : x1_control → x1_control) : L unit :=
  modify (λ k, k <| k_ctl := f (k_ctl k) |>).
(** [ret = f(); if (ret) return ret;] *)
Definition invoke (f : D → Z * D) : L unit :=
  let! r := ask f in if r !=? 0 then fail r else ret tt.
Definition require_valid : L unit :=
  let! v := ask (le_valid env) in if v : bool then ret tt else fail (-ENOTCONN).

(** [tx = &ctl->send[ctl->next_tx++]] *)
Definition take_tx : L unit := on_ctl (λ c, c <| c_next_tx := c_next_tx c + 1 |>).
Definition tx_buffer : list Z := replicate frame_size 0.
Definition rx_buffer (f : frame) : list Z :=
  take frame_size (fr_data f ++ replicate frame_size 0).

(** [now = jiffies; if (time_after_eq(now, deadline) ||
    !wait_for_completion_timeout(&tx->done, deadline - now)) ...]: the
    completion, or nothing. *)
Definition tx_done (deadline : Z) : L (option bool) :=
  let! now := ask (le_jiffies env) in
  if time_after_eq now deadline then ret None else ask (le_wait_tx env (u64 (deadline - now))).

Definition link_event (rx : frame) (deadline : Z) : L unit :=
  let! event := lift (x1_event_decode crc32c (Some (rx_buffer rx)) (fr_size rx)
                        (fr_sof rx) (fr_eof rx)) in
  let! k := get in
  if (X1_EVENT_LIMIT <=? k_events k) || (X1_TX_COUNT <=? c_next_tx (k_ctl k))
  then fail (-ENOSPC) else
  do! require_valid in
  let! now := ask (le_jiffies env) in
  if time_after_eq now deadline then fail (-ETIMEDOUT) else
  do! modify (λ k, k <| k_events := k_events k + 1 |>) in
  do! take_tx in
  let! wire := lift (x1_event_ack crc32c (Some tx_buffer) event) in
  do! invoke (le_tx env wire 16 3 3) in
  let! done_ := tx_done deadline in
  match done_ with
  | None => fail (-ETIMEDOUT)
  | Some true => fail (-ESHUTDOWN)
  | Some false => if ev_unplug event then fail (-ENOTCONN) else require_valid
  end.

(** What a transfer asks for: [read] or [write] of the C function, exactly one
    of which is non-NULL at its three callers. *)
Inductive request := RRead (s : x1_read_spec) | RWrite (s : x1_write_spec).

Definition with_seq (r : request) (seq : Z) : request :=
  match r with
  | RRead s => RRead (ReadSpec (rs_route s) (rs_port s) (rs_space s) (rs_offset s) (rs_words s) seq)
  | RWrite s => RWrite (WriteSpec (ws_port s) (ws_space s) (ws_offset s) (ws_words s) seq
                          (ws_before s) (ws_after s) (ws_route s))
  end.

(** The frame of a request: its bytes, size, and start and end marks. *)
Definition encode (r : request) : res (list Z) * Z * Z :=
  match r with
  | RRead s => (x1_read_request crc32c (Some tx_buffer) s, 16, 1)
  | RWrite s => (x1_write_request crc32c (Some tx_buffer) s, 16 + 4 * ws_words s, 2)
  end.

Definition decode (r : request) (rx : frame) : res (list Z) :=
  match r with
  | RRead s => x1_read_reply crc32c (Some (rx_buffer rx)) (fr_size rx) (fr_sof rx) (fr_eof rx) s
  | RWrite s => let? _ := x1_write_reply crc32c (Some (rx_buffer rx)) (fr_size rx) (fr_sof rx)
                            (fr_eof rx) s in Ok []
  end.

(** The [while (ctl->next_rx < X1_RX_COUNT)] loop. *)
Fixpoint await_reply (fuel : nat) (r : request) (deadline : Z) : L (list Z) :=
  match fuel with
  | O => fault
  | S fuel =>
      let! k := get in
      if c_next_rx (k_ctl k) <? X1_RX_COUNT then
        let! now := ask (le_jiffies env) in
        if time_after_eq now deadline then fail (-ETIMEDOUT) else
        let! rx := ask (le_wait_rx env (u64 (deadline - now))) in
        match rx with
        | None => fail (-ETIMEDOUT)
        | Some rx =>
            do! on_ctl (λ c, c <| c_next_rx := c_next_rx c + 1 |>) in
            if fr_canceled rx then fail (-ESHUTDOWN) else
            if fr_bad rx then fail (-EBADMSG) else
            if fr_eof rx =? 5 then
              do! link_event rx deadline in
              await_reply fuel r deadline
            else lift (decode r rx)
        end
      else fail (-ETIMEDOUT)
  end.

Definition link_transfer (r : request) : L (list Z) :=
  let! k := get in
  if c_next_tx (k_ctl k) =? X1_TX_COUNT then fail (-ENOSPC) else
  do! require_valid in
  let! now := ask (le_jiffies env) in
  if time_after_eq now (k_deadline k) then fail (-ETIME) else
  do! take_tx in
  let! k := get in
  let r := with_seq r (u32 (c_next_tx (k_ctl k) - 1) .& 3) in
  let '(wire, size, mark) := encode r in
  let! wire := lift wire in
  do! invoke (le_tx env wire size mark mark) in
  let! now := ask (le_jiffies env) in
  let deadline := Z.min (k_deadline k) (u64 (now + msecs_to_jiffies 1000)) in
  let! out := await_reply (S (Z.to_nat X1_RX_COUNT)) r deadline in
  let! done_ := tx_done deadline in
  match done_ with
  | Some false => do! require_valid in ret out
  | _ => fail (-ETIMEDOUT)
  end.

Definition link_read (route port space offset words : Z) : L (list Z) :=
  link_transfer (RRead (ReadSpec route port space offset words 0)).

Definition link_write (port space offset words : Z) (before after : list Z) : L unit :=
  do! link_transfer (RWrite (WriteSpec port space offset words 0 before after 0)) in ret tt.

Definition link_external_write (offset words : Z) (before after : list Z) : L unit :=
  do! link_transfer (RWrite (WriteSpec 0 2 offset words 0 before after 2)) in ret tt.

(** ** The external router *)

(** One of the eleven polls: [None] to sleep and go on. *)
Fixpoint external_ready (n : nat) : L unit :=
  match n with
  | O => fail (-ETIMEDOUT)
  | S n =>
      let! now := ask (le_jiffies env) in
      let! k := get in
      if time_after_eq now (k_deadline k) then fail (-ETIMEDOUT) else
      let! got := link_read 2 0 2 6 1 in
      let! w := lift (word_of got 0) in
      if tst w 0x02000001 then fail (-EPERM) else
      if tst w 0x01000000 then ret tt else
      do! modify (λ k, k <| k_dev := le_msleep env 50 (k_dev k) |>) in
      external_ready n
  end.

(** The polls run under a shorter deadline that is restored afterwards. *)
Definition with_deadline (f : Z → Z) (m : L unit) : L unit := λ k,
  let (r, k') := m (k <| k_deadline := f (k_deadline k) |>) in
  (r, k' <| k_deadline := k_deadline k |>).

(** [true ||] is in the source: this public snapshot refuses here. *)
Definition link_external_init (header : list Z) : L (list Z) :=
  let! plan := lift (x1_external_plan header) in
  let! state := link_read 2 0 2 5 4 in
  let! s0 := lift (word_of state 0) in let! s1 := lift (word_of state 1) in
  let! s2 := lift (word_of state 2) in let! s3 := lift (word_of state 3) in
  if true || (s2 !=? 0) || (s3 !=? 0) || tst s1 0x02000001 then fail (-EPERM) else
  do! lift (x1_external_setup_plan s0) in
  do! link_external_write 1 4 (drop 1 header) plan in
  let! configured := link_read 2 0 2 0 5 in
  if bool_decide (configured ≠ take 1 header ++ plan) then fail (-EIO) else
  let! before := link_read 2 0 2 5 1 in
  let! b := lift (word_of before 0) in
  let! after := lift (x1_external_setup_plan b) in
  do! link_external_write 5 1 before [after] in
  let! got := link_read 2 0 2 5 1 in
  let! g := lift (word_of got 0) in
  if g !=? after then fail (-EIO) else
  let! now := ask (le_jiffies env) in
  do! with_deadline (λ d, Z.min d (u64 (now + msecs_to_jiffies 500))) (external_ready 11) in
  ret configured.

(** ** The root router *)

(** [for (i = 0; cap && i < 16; i++)]: the first capability with id 1. *)
Fixpoint lane_cap (n : nat) (seen : list Z) (port cap : Z) : L (option Z) :=
  if cap =? 0 then ret None else
  match n with
  | O => ret None
  | S n =>
      if (cap <? 8) || (254 <? cap) || bool_decide (cap ∈ seen) then fail (-EPROTO) else
      let! data := link_read 0 port 1 cap 2 in
      let! d0 := lift (word_of data 0) in
      if (d0 >> 8) .& 0xff =? 1 then ret (Some cap)
      else lane_cap n (cap :: seen) port (d0 .& 0xff)
  end.

(** [caps[port] = cap] of [u8 caps[8]]. *)
Definition set_cap (caps : list Z) (port cap : Z) : res (list Z) :=
  if (port <? 0) || (Z.of_nat (length caps) <=? port) then Fault
  else Ok (<[Z.to_nat port := u8 cap]> caps).
Definition get_cap (caps : list Z) (port : Z) : res Z := word_of caps (Z.to_nat port).

(** The discovery loop over the ports, and [lanes]. *)
Fixpoint discover (ports : list Z) (caps : list Z) (lanes : Z) : L (list Z * Z) :=
  match ports with
  | [] => ret (caps, lanes)
  | port :: ports =>
      let! data := link_read 0 port 1 0 8 in
      let! d1 := lift (word_of data 1) in
      let! d2 := lift (word_of data 2) in
      if d2 .& 0xffffff !=? 1 then discover ports caps lanes else
      let! cap := lane_cap 16 [] port (d1 .& 0xff) in
      match cap with
      | None => fail (-EOPNOTSUPP)
      | Some cap =>
          let! caps := lift (set_cap caps port cap) in
          discover ports caps (lanes + 1)
      end
  end.

(** One pass over the lanes: the ports that are up, as a bit set. *)
Fixpoint poll_lanes (ports : list Z) (caps : list Z) (up : Z) : L Z :=
  match ports with
  | [] => ret up
  | port :: ports =>
      let! cap := lift (get_cap caps port) in
      if cap =? 0 then poll_lanes ports caps up else
      let! data := link_read 0 port 1 cap 2 in
      let! d1 := lift (word_of data 1) in
      let state := (d1 >> 26) .& 0xf in
      poll_lanes ports caps
        (if (2 <=? state) && (state <=? 6) && negb (tst d1 (BIT 14)) then up .| BIT port else up)
  end.

(** [for (i = 0; i < 20; i++)]: the last pass, or the first with port 2 up. *)
Fixpoint wait_lanes (n : nat) (ports caps : list Z) (up : Z) : L Z :=
  match n with
  | O => ret up
  | S n =>
      let! up := poll_lanes ports caps 0 in
      if tst up (BIT 2) then ret up else
      do! modify (λ k, k <| k_dev := le_msleep env 100 (k_dev k) |>) in
      wait_lanes n ports caps up
  end.

(** Clear the lock bit of port 2 when it is set. *)
Definition unlock_primary : L unit :=
  let! before := link_read 0 2 1 4 1 in
  let! b := lift (word_of before 0) in
  let after := b .& not32 (BIT 31) in
  if b =? after then ret tt else
  do! link_write 2 1 4 1 before [after] in
  let! data := link_read 0 2 1 4 1 in
  let! d := lift (word_of data 0) in
  if d !=? after then fail (-EIO) else ret tt.

(** Root configuration: read, plan, write, verify; the planned words and the
    header read first. *)
Definition configure_root : L (list Z * list Z) :=
  let! host := link_read 0 0 2 0 5 in
  let! plan := lift (x1_root_plan host) in
  do! link_write 0 2 1 4 (drop 1 host) plan in
  let! data := link_read 0 0 2 0 5 in
  if bool_decide (data ≠ take 1 host ++ plan) then fail (-EIO) else
  ret (host, plan).

Definition ports_to (max_port : Z) : list Z := (λ i, 1 + Z.of_nat i) <$> seq 0 (Z.to_nat max_port).

(** From the word check to the external header. *)
Definition bring_up (word : Z) : L (list Z * list Z) :=
  let! host_plan := configure_root in
  let '(host, plan) := host_plan in
  let! h1 := lift (word_of host 1) in
  let ports := ports_to ((h1 >> 14) .& 0x3f) in
  let! found := discover ports (replicate 8 0) 0 in
  let '(caps, lanes) := found in
  if lanes =? 0 then fail (-ENODEV) else
  let! c2 := lift (get_cap caps 2) in
  let! c3 := lift (get_cap caps 3) in
  if (lanes !=? 2) || (c2 =? 0) || (c3 =? 0) then fail (-ENODEV) else
  do! require_valid in
  do! invoke (le_connect env word) in
  let! up := wait_lanes 20 ports caps 0 in
  if up =? 0 then fail (-ENOLINK) else
  if negb (tst up (BIT 2)) then fail (-ENOLINK) else
  do! unlock_primary in
  let! external := link_read 2 0 2 0 5 in
  ret (take 3 host ++ drop 2 plan, external).

(** The callbacks handed to the inventory. *)
Definition topology_read (s : x1_read_spec) (k : lk D) : Z * (nat → Z) * lk D :=
  match link_read (rs_route s) (rs_port s) (rs_space s) (rs_offset s) (rs_words s) k with
  | (Ok ws, k) => (0, λ i, default 0 (ws !! i), k)
  | (r, k) => (code r, λ _, 0, k)
  end.
Definition topology_report (what : string) (route port offset : Z) (d : list Z) (k : lk D) : lk D :=
  k <| k_dev := le_report env what route port offset d (k_dev k) |>.

Definition on_link {A} (m : L A) : M (x1_topology * lk D) A := λ '(t, k),
  let (r, k) := m k in (r, (t, k)).

(** Everything between the guard and [stop_link:]. *)
Definition link_body (word : Z) : M (x1_topology * lk D) unit :=
  if (word !=? 0x2501) && (word !=? 0x2701) then fail (-EPERM) else
  let! v := on_link (ask (le_valid env)) in
  if negb v then fail (-EPERM) else
  let! now := on_link (ask (le_jiffies env)) in
  do! on_link (modify (λ k, k <| k_deadline := u64 (now + 20 * HZ) |> <| k_events := 0 |>)) in
  let! headers := on_link (bring_up word) in
  do! x1_topology_router topology_read topology_report 0 (Some headers.1) in
  let! configured := on_link (link_external_init headers.2) in
  x1_topology_router topology_read topology_report 2 (Some configured).

(** Caller holds [link_lock]. *)
Definition link_stop_locked : L unit :=
  let! k := get in
  if c_stopped (k_ctl k) then ret tt else
  do! on_ctl (λ c, c <| c_stopped := true |>) in
  modify (λ k, k <| k_dev := le_quiesce env (c_rings_started (k_ctl k)) (k_dev k) |>).

(** [stop_link:] *)
Definition finally_stop {A} (m : M (x1_topology * lk D) A) : M (x1_topology * lk D) A := λ s,
  let (r, s) := m s in (r, (on_link link_stop_locked s).2).

(** [link_ctl] may be NULL; [valid] and the board tests are the caller's facts. *)
Definition x1_diag_link_run (word : Z) (valid board : bool) (ctl : option x1_control) (d : D)
    : res unit * option x1_control * D :=
  match ctl with
  | None => (Err (-EPERM), None, d)
  | Some c =>
      if c_stopped c || c_link_attempted c || negb (c_connect c) || negb valid || negb board
      then (Err (-EPERM), Some c, d) else
      let '(r, (_, k)) := finally_stop (link_body word)
        (Topo 0 0 0 0 0 0 0, Lk (c <| c_link_attempted := true |>) 0 0 d) in
      (r, Some (k_ctl k), k_dev k)
  end.

Definition x1_diag_link_stop (ctl : option x1_control) (d : D) : option x1_control * D :=
  match ctl with
  | None => (None, d)
  | Some c => let '(_, k) := link_stop_locked (Lk c 0 0 d) in (Some (k_ctl k), k_dev k)
  end.

(** The watchdog. *)
Definition link_expire := x1_diag_link_stop.

Definition x1_diag_link_register (connect ctx : bool) (ctl : option x1_control)
    : res unit * option x1_control :=
  match ctl with
  | Some c =>
      if negb connect || negb ctx || c_stopped c || c_connect c then (Err (-EPERM), ctl)
      else (Ok tt, Some (c <| c_connect := true |>))
  | None => (Err (-EPERM), None)
  end.
End link.

(** ** The packet layer never reads or writes outside these buffers *)

Lemma rmap_total {A B} (f : A → res B) l : (∀ x, x ∈ l → f x ≠ Fault) → rmap f l ≠ Fault.
Proof.
  induction l as [|x l IH]; intros Hf; [done|]. cbn [rmap].
  pose proof (Hf x ltac:(by left)) as Hx. destruct (f x) as [y|e|]; [|done|done]. cbn [rbind].
  assert (rmap f l ≠ Fault) as Hl by (apply IH; intros y' Hy; apply Hf; by right).
  by destruct (rmap f l).
Qed.

Lemma rmap_length {A B} (f : A → res B) l ys : rmap f l = Ok ys → length ys = length l.
Proof.
  revert ys. induction l as [|x l IH]; intros ys; cbn [rmap]; [by intros [= <-]|].
  destruct (f x) as [y|e|]; [|done|done]. cbn [rbind].
  destruct (rmap f l) as [zs|e|]; [|done|done]. intros [= <-]. simpl. by rewrite (IH zs).
Qed.

Section buffers.
Context (crc32c : Z → list Z → Z).

Lemma event_decode_total wire size sof eof :
  (16 ≤ length wire)%nat → x1_event_decode crc32c (Some wire) size sof eof ≠ Fault.
Proof. intros Hl. unfold x1_event_decode. in_bounds. by repeat case_match. Qed.

Lemma event_decode_port wire size sof eof e :
  x1_event_decode crc32c (Some wire) size sof eof = Ok e → ev_port e = 2 ∨ ev_port e = 3.
Proof.
  unfold x1_event_decode, rbind. intros E. repeat (case_match; try discriminate).
  simplify_eq. simpl. lia.
Qed.

Lemma read_request_total s buf :
  (16 ≤ length buf)%nat → x1_read_request crc32c (Some buf) s ≠ Fault.
Proof.
  intros Hl. destruct (x1_read_address s) as [a|e|] eqn:Ea.
  - by rewrite (read_request_wire crc32c s a buf Ea Hl).
  - unfold x1_read_request. by rewrite Ea.
  - unfold x1_read_address in Ea. by case_match.
Qed.

Lemma read_reply_total s wire size sof eof :
  (48 ≤ length wire)%nat →
  match x1_read_reply crc32c (Some wire) size sof eof s with
  | Ok ws => length ws = Z.to_nat (rs_words s)
  | Err _ => True
  | Fault => False
  end.
Proof.
  intros Hl. unfold x1_read_reply.
  assert (x1_read_address s ≠ Fault ∧ ∀ a, x1_read_address s = Ok a → rs_words s ≤ 8) as [Ha Hw].
  { unfold x1_read_address. if_case E; [done|]. split; [done|]. intros _ _. lia. }
  destruct (x1_read_address s) as [a|e|]; [|done|done]. specialize (Hw a eq_refl). cbn [rbind].
  if_case E; [done|]. in_bounds. if_case E1; [done|]. if_case E2; [by if_case E3|].
  if_case E3; [done|]. if_case E4; [done|]. if_case E5; [done|]. if_case E6; [done|].
  match goal with |- context [rmap ?f ?l] =>
    assert (rmap f l ≠ Fault) as Hf; [apply rmap_total|
      destruct (rmap f l) as [ws|e|] eqn:Er; [|done|done];
      apply rmap_length in Er; by rewrite Er, length_seq] end.
  intros i Hi. apply elem_of_seq in Hi.
  destruct (get_be32_ok wire (12 + 4 * Z.of_nat i)) as (v&->&_); [lia..|done].
Qed.

Lemma write_guard_root_total s :
  (Z.to_nat (ws_words s) ≤ length (ws_before s))%nat →
  (Z.to_nat (ws_words s) ≤ length (ws_after s))%nat → write_guard_root s ≠ Fault.
Proof.
  intros Hb Ha. unfold write_guard_root, word_of.
  if_case E1; [|if_case E2; [|done]].
  all: assert (ws_words s = 4 ∨ ws_words s = 1) as Hw by lia.
  - assert (ws_words s = 4) as Hw4 by lia. rewrite Hw4 in *.
    destruct (ws_before s) as [|b0 [|b1 [|b2 [|b3 ?]]]]; simpl in Hb; try lia.
    destruct (ws_after s) as [|a0 [|a1 [|a2 [|a3 ?]]]]; simpl in Ha; try lia.
    simpl. by if_case E3.
  - assert (ws_words s = 1) as Hw1 by lia. rewrite Hw1 in *.
    destruct (ws_before s) as [|b0 ?]; simpl in Hb; [lia|].
    destruct (ws_after s) as [|a0 ?]; simpl in Ha; [lia|]. simpl. by if_case E3.
Qed.

Lemma write_address_root s a :
  ws_route s = 0 → x1_write_address s = Ok a → write_allowed s.
Proof.
  intros Hr. unfold x1_write_address. if_case E; [done|]. rewrite Hr. simpl.
  destruct (write_guard_root s) as [[]|e|] eqn:Eg; [|done|done]. intros _.
  by apply guard_root_ok.
Qed.

Lemma write_request_total s buf :
  ws_route s = 0 → ws_words s = 4 ∨ ws_words s = 1 →
  (Z.to_nat (ws_words s) ≤ length (ws_before s))%nat →
  (Z.to_nat (ws_words s) ≤ length (ws_after s))%nat → (32 ≤ length buf)%nat →
  match x1_write_request crc32c (Some buf) s with
  | Ok _ => write_allowed s
  | Err _ => True
  | Fault => False
  end.
Proof.
  intros Hr Hw Hb Ha Hl. pose proof (write_guard_root_total s Hb Ha) as Hg.
  assert (x1_write_address s ≠ Fault) as Hf.
  { unfold x1_write_address. if_case E; [done|]. rewrite Hr. simpl.
    by destruct (write_guard_root s). }
  destruct (x1_write_address s) as [x|e|] eqn:Ex; [| |done].
  - rewrite (write_request_bytes crc32c s x buf) by (done || lia).
    by eapply write_address_root.
  - unfold x1_write_request. by rewrite Ex.
Qed.

Lemma write_reply_total s wire size sof eof :
  ws_route s = 0 → (Z.to_nat (ws_words s) ≤ length (ws_before s))%nat →
  (Z.to_nat (ws_words s) ≤ length (ws_after s))%nat → (16 ≤ length wire)%nat →
  x1_write_reply crc32c (Some wire) size sof eof s ≠ Fault.
Proof.
  intros Hr Hb Ha Hl. unfold x1_write_reply.
  assert (x1_write_address s ≠ Fault) as Hf.
  { pose proof (write_guard_root_total s Hb Ha). unfold x1_write_address.
    if_case E; [done|]. rewrite Hr. simpl. by destruct (write_guard_root s). }
  destruct (x1_write_address s) as [x|e|]; [|done|done]. cbn [rbind].
  in_bounds. by repeat case_match.
Qed.
End buffers.

Lemma rx_buffer_length n rx : length (rx_buffer n rx) = n.
Proof. unfold rx_buffer. rewrite length_take, length_app, length_replicate. lia. Qed.
Lemma tx_buffer_length n : length (tx_buffer n) = n.
Proof. apply length_replicate. Qed.

(** ** What one run may send

    The environment with a record of the frames handed to the ring, of the
    connect command and of the final quiesce. *)

Inductive lev :=
| LTx (wire : list Z) (size sof eof : Z)
| LConnect (word : Z)
| LQuiesce.

Definition logged_link {D} (env : link_env D) : link_env (D * list lev) := {|
  le_jiffies d := let (x, d') := le_jiffies env d.1 in (x, (d', d.2));
  le_valid d := let (x, d') := le_valid env d.1 in (x, (d', d.2));
  le_tx w n a b d := let (x, d') := le_tx env w n a b d.1 in (x, (d', d.2 ++ [LTx w n a b]));
  le_wait_rx t d := let (x, d') := le_wait_rx env t d.1 in (x, (d', d.2));
  le_wait_tx t d := let (x, d') := le_wait_tx env t d.1 in (x, (d', d.2));
  le_msleep n d := (le_msleep env n d.1, d.2);
  le_connect w d := let (x, d') := le_connect env w d.1 in (x, (d', d.2 ++ [LConnect w]));
  le_quiesce b d := (le_quiesce env b d.1, d.2 ++ [LQuiesce]);
  le_report a b c e f d := (le_report env a b c e f d.1, d.2);
|}.

Definition is_tx (e : lev) : bool := match e with LTx _ _ _ _ => true | _ => false end.
Definition is_connect (e : lev) : bool := match e with LConnect _ => true | _ => false end.
Definition tally (f : lev → bool) (t : list lev) : Z := Z.of_nat (length (filter (λ e, f e = true) t)).

Lemma tally_app f t u : tally f (t ++ u) = tally f t + tally f u.
Proof. unfold tally. rewrite filter_app, length_app. lia. Qed.

Section run.
Context (crc32c : Z → list Z → Z) (HZ : Z) (msecs_to_jiffies : Z → Z) (frame_size : nat).
Context (Hfs : (48 ≤ frame_size)%nat).
Context {D : Type} (env0 : link_env D).
Abbreviation env := (logged_link env0).
Abbreviation st := (lk (D * list lev)).

(** Frames a run may send: reads the packet layer allows, acknowledgements of
    plug events, and writes to the root router that the allow list has. *)
Definition legit (e : lev) : Prop :=
  match e with
  | LTx wire size sof eof =>
      (∃ s, size = 16 ∧ sof = 1 ∧ eof = 1 ∧
         x1_read_request crc32c (Some (tx_buffer frame_size)) s = Ok wire) ∨
      (∃ s, size = 16 + 4 * ws_words s ∧ sof = 2 ∧ eof = 2 ∧ ws_route s = 0 ∧ write_allowed s ∧
         x1_write_request crc32c (Some (tx_buffer frame_size)) s = Ok wire) ∨
      (∃ ev, size = 16 ∧ sof = 3 ∧ eof = 3 ∧ (ev_port ev = 2 ∨ ev_port ev = 3) ∧
         x1_event_ack crc32c (Some (tx_buffer frame_size)) ev = Ok wire)
  | LConnect word => word = 0x2501 ∨ word = 0x2701
  | LQuiesce => False
  end.

Context (c0 : x1_control) (l0 : list lev).

(** [spare] transmit buffers taken and not yet sent, at most [n] connect
    commands, at least [m] receive buffers consumed. *)
Definition inv (spare n m : Z) (k : st) : Prop :=
  ∃ t, (k_dev k).2 = l0 ++ t ∧ Forall legit t ∧
    tally is_tx t + spare ≤ c_next_tx (k_ctl k) - c_next_tx c0 ∧ tally is_connect t ≤ n ∧
    c_next_tx (k_ctl k) ≤ X1_TX_COUNT ∧ 0 ≤ m ≤ c_next_rx (k_ctl k) ∧ c_next_rx (k_ctl k) ≤ X1_RX_COUNT ∧
    c_stopped (k_ctl k) = c_stopped c0 ∧ c_link_attempted (k_ctl k) = c_link_attempted c0 ∧
    c_rings_started (k_ctl k) = c_rings_started c0 ∧ c_connect (k_ctl k) = c_connect c0.

(** Predicates that do not look at the device itself. *)
Definition stable (P : st → Prop) : Prop :=
  ∀ k k', k_ctl k' = k_ctl k → (k_dev k').2 = (k_dev k).2 → P k → P k'.

Lemma inv_stable spare n m : stable (inv spare n m).
Proof. intros k k' Ec Ed (t&H). exists t. by rewrite Ec, Ed. Qed.

Lemma inv_weaken spare n m spare' n' m' k :
  spare' ≤ spare → n ≤ n' → 0 ≤ m' ≤ m → inv spare n m k → inv spare' n' m' k.
Proof.
  intros Hs Hn Hm (t&H1&H2&H3&H4&H5&H6&H7). exists t. split; [done|]. split; [done|].
  split; [lia|]. split; [lia|]. split; [done|]. split; [lia|exact H7].
Qed.

Lemma sound_ask {A} (f : D * list lev → A * (D * list lev)) P E :
  stable P → (∀ k, P k → E k) → (∀ d, (f d).2.2 = d.2) →
  sound P (ask f) (λ _, P) E.
Proof.
  intros Hst HE Hf k Hk. unfold ask. pose proof (Hf (k_dev k)) as Hd.
  destruct (f (k_dev k)) as [x d]. by apply (Hst k).
Qed.

Lemma quiet_jiffies d : (le_jiffies env d).2.2 = d.2.
Proof. simpl. by destruct (le_jiffies env0 d.1). Qed.
Lemma quiet_valid d : (le_valid env d).2.2 = d.2.
Proof. simpl. by destruct (le_valid env0 d.1). Qed.
Lemma quiet_wait_rx t d : (le_wait_rx env t d).2.2 = d.2.
Proof. simpl. by destruct (le_wait_rx env0 t d.1). Qed.
Lemma quiet_wait_tx t d : (le_wait_tx env t d).2.2 = d.2.
Proof. simpl. by destruct (le_wait_tx env0 t d.1). Qed.
Hint Resolve quiet_jiffies quiet_valid quiet_wait_rx quiet_wait_tx inv_stable : core.

Lemma sound_valid P E :
  stable P → (∀ k, P k → E k) → sound P (require_valid env) (λ _, P) E.
Proof.
  intros Hst HE. unfold require_valid. eapply sound_bind; [by apply sound_ask|].
  intros v. cbv beta. apply sound_if; intros _; [by apply sound_ret|by apply sound_fail].
Qed.

Lemma sound_tx_done P E dl :
  stable P → (∀ k, P k → E k) → sound P (tx_done env dl) (λ _, P) E.
Proof.
  intros Hst HE. unfold tx_done. eapply sound_bind; [by apply sound_ask|].
  intros now. cbv beta. apply sound_if; intros _; [by apply sound_ret|by apply sound_ask].
Qed.

(** Taking a buffer, then sending one legitimate frame from it. *)
Lemma sound_take n m : sound (λ k, inv 0 n m k ∧ c_next_tx (k_ctl k) < X1_TX_COUNT) take_tx
  (λ _, inv 1 n m) (inv 0 n m).
Proof.
  apply sound_modify. intros k [(t&H1&H2&H3&H4&H5&H6) Hlt]. exists t. simpl.
  split; [done|]. split; [done|]. split; [lia|]. split; [lia|]. split; [lia|exact H6].
Qed.

Lemma sound_send n m w size a b :
  legit (LTx w size a b) →
  sound (inv 1 n m) (invoke (le_tx env w size a b)) (λ _, inv 0 n m) (inv 0 n m).
Proof.
  intros Hl. unfold invoke. eapply (sound_bind _ _ _ _ (λ _, inv 0 n m)).
  - intros k (t&H1&H2&H3&H4&H5&H6). unfold ask. simpl.
    destruct (le_tx env0 w size a b (k_dev k).1) as [r d]. exists (t ++ [LTx w size a b]). simpl.
    rewrite H1, <- app_assoc, !tally_app. change (tally is_tx [LTx w size a b]) with 1.
    change (tally is_connect [LTx w size a b]) with 0. split; [done|].
    split; [apply Forall_app; split; [done|by apply Forall_singleton]|].
    split; [lia|]. split; [lia|]. by split.
  - intros r. cbv beta. apply sound_if; intros _; [by apply sound_fail|by apply sound_ret].
Qed.


Lemma sound_event n m rx dl :
  sound (inv 0 n m) (link_event crc32c frame_size env rx dl) (λ _, inv 0 n m) (inv 0 n m).
Proof.
  unfold link_event. eapply sound_bind.
  { apply (sound_lift _ _ _ (λ e, ev_port e = 2 ∨ ev_port e = 3)); [|apply event_decode_port|done].
    apply event_decode_total. rewrite rx_buffer_length. lia. }
  intros ev. cbv beta. apply sound_pure. intros Hp.
  eapply sound_bind; [apply sound_get|]. intros k. cbv beta.
  apply sound_if; intros Hk; [apply sound_fail; by intros k' [? _]|].
  set (P := λ k', inv 0 n m k' ∧ c_next_tx (k_ctl k') < X1_TX_COUNT).
  eapply (sound_conseq P _ (inv 0 n m) _ _ (λ _, inv 0 n m)); [| |done|done].
  2: { intros k' [Hk' ->]. split; [done|]. lia. }
  assert (stable P) as HP.
  { intros k1 k2 Ec Ed [Hi Hn]. split; [by eapply inv_stable|]. by rewrite Ec. }
  assert (∀ k, P k → inv 0 n m k) as HPE by (by intros ? []).
  eapply sound_bind; [by apply sound_valid|]. intros ?. cbv beta.
  eapply sound_bind; [by apply sound_ask|]. intros now. cbv beta.
  apply sound_if; intros _; [by apply sound_fail|].
  eapply sound_bind.
  { apply (sound_modify _ _ _ (λ _, P)). intros k1 H1. by apply (HP k1). }
  intros ?. cbv beta. eapply sound_bind; [apply sound_take|]. intros ?. cbv beta.
  eapply sound_bind.
  { apply (sound_lift _ _ _ (λ w, x1_event_ack crc32c (Some (tx_buffer frame_size)) ev = Ok w));
      [|done|by intros k1 H1; eapply inv_weaken; [| |by destruct H1 as (t&_&_&_&_&_&[? _]&_)|exact H1]].
    rewrite event_ack_wire; [done|done|rewrite tx_buffer_length; lia]. }
  intros w. cbv beta. apply sound_pure. intros Hw.
  eapply sound_bind; [apply sound_send; right; right; by exists ev|]. intros ?. cbv beta.
  eapply sound_bind; [by apply sound_tx_done|]. intros [[]|]; cbv beta; try by apply sound_fail.
  apply sound_if; intros _; [by apply sound_fail|by apply sound_valid].
Qed.

(** Requests this run makes: any read, and root writes whose words are there. *)
Definition req_ok (r : request) : Prop :=
  match r with
  | RRead _ => True
  | RWrite s => ws_route s = 0 ∧ (ws_words s = 4 ∨ ws_words s = 1) ∧
      (Z.to_nat (ws_words s) ≤ length (ws_before s))%nat ∧
      (Z.to_nat (ws_words s) ≤ length (ws_after s))%nat
  end.
Definition req_words (r : request) : nat :=
  match r with RRead s => Z.to_nat (rs_words s) | RWrite _ => 0%nat end.

Lemma decode_total r rx :
  req_ok r →
  match decode crc32c frame_size r rx with
  | Ok ws => length ws = req_words r
  | Err _ => True
  | Fault => False
  end.
Proof.
  destruct r as [s|s]; cbn [req_ok req_words decode].
  - intros _. apply read_reply_total. rewrite rx_buffer_length. lia.
  - intros (Hr&_&Hb&Ha). pose proof (write_reply_total crc32c s (rx_buffer frame_size rx)
      (fr_size rx) (fr_sof rx) (fr_eof rx) Hr Hb Ha) as Ht.
    rewrite rx_buffer_length in Ht. specialize (Ht ltac:(lia)).
    by destruct (x1_write_reply _ _ _ _ _ _) as [[]|e|].
Qed.

Lemma sound_await n m r dl fuel :
  req_ok r → X1_RX_COUNT - m < Z.of_nat fuel →
  sound (inv 0 n m) (await_reply crc32c frame_size env fuel r dl)
    (λ ws k, inv 0 n 0 k ∧ length ws = req_words r) (inv 0 n 0).
Proof.
  intros Hr. revert m. induction fuel as [|fuel IH]; intros m Hm; cbn [await_reply].
  { intros k (t&_&_&_&_&_&Hx&Hy&_). lia. }
  assert (∀ m k, inv 0 n m k → inv 0 n 0 k) as HE.
  { intros m' k Hk. eapply inv_weaken; [| | |exact Hk]; [lia..|].
    destruct Hk as (t&_&_&_&_&_&?&_). lia. }
  eapply sound_bind; [apply sound_get|]. intros k. cbv beta.
  apply sound_if; intros Hk; [|apply sound_fail; intros k' [? _]; by eapply HE].
  set (Q := λ k', inv 0 n m k' ∧ c_next_rx (k_ctl k') < X1_RX_COUNT).
  eapply (sound_conseq Q _ (inv 0 n 0) _ _ (λ ws k, inv 0 n 0 k ∧ length ws = req_words r));
    [| |done|done].
  2: { intros k' [Hk' <-]. split; [done|]. lia. }
  assert (stable Q) as HQ.
  { intros k1 k2 Ec Ed [Hi Hx]. split; [by eapply inv_stable|by rewrite Ec]. }
  assert (∀ k, Q k → inv 0 n 0 k) as HQE by (intros ? []; by eapply HE).
  eapply sound_bind; [by apply sound_ask|]. intros now. cbv beta.
  apply sound_if; intros _; [by apply sound_fail|].
  eapply sound_bind; [by apply sound_ask|]. intros [rx|]; cbv beta; [|by apply sound_fail].
  eapply sound_bind.
  { apply (sound_modify _ _ _ (λ _, inv 0 n (m + 1))).
    intros k1 [(t&H1&H2&H3&H4&H5&H6&H7) Hx]. exists t. simpl.
    split; [done|]. split; [done|]. split; [done|]. split; [done|]. split; [done|].
    split; [lia|]. split; [lia|]. exact (proj2 H7). }
  intros ?. cbv beta. do 2 (apply sound_if; intros _; [apply sound_fail; apply HE|]).
  apply sound_if; intros _.
  - eapply (sound_bind _ _ _ _ (λ _, inv 0 n (m + 1))); [|intros ?; cbv beta; apply IH; lia].
    eapply sound_conseq; [apply sound_event|done|done|apply HE].
  - pose proof (decode_total r rx Hr) as Hd.
    intros k1 H1. unfold lift. destruct (decode _ _ r rx) as [ws|e|]; [|by eapply HE|done].
    split; [by eapply HE|done].
Qed.

Lemma with_seq_ok r q : req_ok r → req_ok (with_seq r q) ∧ req_words (with_seq r q) = req_words r.
Proof. by destruct r. Qed.

Lemma encode_legit r :
  req_ok r →
  let '(wire, size, mark) := encode crc32c frame_size r in
  match wire with
  | Ok w => legit (LTx w size mark mark)
  | Err _ => True
  | Fault => False
  end.
Proof.
  destruct r as [s|s]; cbn [req_ok encode].
  - intros _. pose proof (read_request_total crc32c s (tx_buffer frame_size)) as Ht.
    rewrite tx_buffer_length in Ht. specialize (Ht ltac:(lia)).
    destruct (x1_read_request _ _ _) as [w|e|] eqn:E; [|done|done]. left. by exists s.
  - intros (Hr&Hw&Hb&Ha).
    pose proof (write_request_total crc32c s (tx_buffer frame_size) Hr Hw Hb Ha) as Ht.
    rewrite tx_buffer_length in Ht. specialize (Ht ltac:(lia)).
    destruct (x1_write_request _ _ _) as [w|e|] eqn:E; [|done|done]. right. left. by exists s.
Qed.

(** Where most of a run happens: nothing spare, [n] connects so far. *)
Abbreviation calm n := (inv 0 n 0).

Lemma sound_transfer n r :
  req_ok r →
  sound (calm n) (link_transfer crc32c msecs_to_jiffies frame_size env r)
    (λ ws k, calm n k ∧ length ws = req_words r) (calm n).
Proof.
  intros Hr. unfold link_transfer. eapply sound_bind; [apply sound_get|]. intros k. cbv beta.
  apply sound_if; intros Hk; [apply sound_fail; by intros ? [? _]|].
  set (P := λ k', calm n k' ∧ c_next_tx (k_ctl k') < X1_TX_COUNT).
  eapply (sound_conseq P _ (calm n) _ _ (λ ws k, calm n k ∧ length ws = req_words r)); [| |done|done].
  2: { intros k' [Hk' ->]. split; [done|]. destruct Hk' as (t&_&_&_&_&?&_). lia. }
  assert (stable P) as HP.
  { intros k1 k2 Ec Ed [Hi Hn]. split; [by eapply inv_stable|]. by rewrite Ec. }
  assert (∀ k, P k → calm n k) as HPE by (by intros ? []).
  eapply sound_bind; [by apply sound_valid|]. intros ?. cbv beta.
  eapply sound_bind; [by apply sound_ask|]. intros now. cbv beta.
  apply sound_if; intros _; [by apply sound_fail|].
  eapply sound_bind; [apply sound_take|]. intros ?. cbv beta.
  eapply sound_bind; [apply sound_get|]. intros k1. cbv beta zeta.
  eapply (sound_conseq (inv 1 n 0) _ (calm n) _ _ (λ ws k, calm n k ∧ length ws = req_words r));
    [|by intros ? []|done|done].
  destruct (with_seq_ok r (u32 (c_next_tx (k_ctl k1) - 1) .& 3) Hr) as [Hr' Hn'].
  rewrite <- Hn'. revert Hr'. generalize (with_seq r (u32 (c_next_tx (k_ctl k1) - 1) .& 3)).
  clear r Hr Hn'. intros r Hr. pose proof (encode_legit r Hr) as He.
  destruct (encode crc32c frame_size r) as [[wire size] mark].
  destruct wire as [w|e|]; [| |done].
  2: { intros k2 H2. cbn. eapply inv_weaken; [| | |exact H2]; lia. }
  eapply (sound_bind _ _ _ _ (λ w', λ k, inv 1 n 0 k ∧ w' = w)); [by intros k2 H2|].
  intros w'. cbv beta. apply sound_pure. intros ->.
  eapply sound_bind; [by apply sound_send|]. intros ?. cbv beta.
  eapply sound_bind; [by apply sound_ask|]. intros now2. cbv beta zeta.
  eapply sound_bind; [apply sound_await; [done|]|].
  { unfold X1_RX_COUNT. lia. }
  intros ws. cbv beta. apply sound_pure. intros Hl.
  eapply sound_bind; [by apply sound_tx_done|]. intros [[]|]; cbv beta; try by apply sound_fail.
  eapply sound_bind; [by apply sound_valid|]. intros ?. cbv beta. by apply sound_ret.
Qed.

Lemma sound_read n route port space off words :
  sound (calm n) (link_read crc32c msecs_to_jiffies frame_size env route port space off words)
    (λ ws k, calm n k ∧ length ws = Z.to_nat words) (calm n).
Proof. by apply (sound_transfer n (RRead (ReadSpec route port space off words 0))). Qed.

Lemma sound_write n port space off words before after :
  words = 4 ∨ words = 1 → (Z.to_nat words ≤ length before)%nat →
  (Z.to_nat words ≤ length after)%nat →
  sound (calm n) (link_write crc32c msecs_to_jiffies frame_size env port space off words before after)
    (λ _, calm n) (calm n).
Proof.
  intros. unfold link_write. eapply sound_bind; [by apply (sound_transfer n
    (RWrite (WriteSpec port space off words 0 before after 0)))|].
  intros ws. cbv beta. apply sound_ret. by intros ? [].
Qed.

(** A word of a reply that has it. *)
Lemma sound_word n (l : list Z) (i : nat) :
  (i < length l)%nat →
  sound (calm n) (lift (word_of l i)) (λ w k, calm n k ∧ l !! i = Some w) (calm n).
Proof.
  intros Hi. unfold word_of. destruct (lookup_lt_is_Some_2 l i Hi) as [w ->].
  intros k Hk. done.
Qed.

Ltac snext := first
  [eapply sound_bind; [by apply sound_read|]
  |eapply sound_bind; [apply sound_word; simpl in *; lia|]
  |eapply sound_bind; [by apply sound_valid|]
  |eapply sound_bind; [by apply sound_ask|]
  |eapply sound_bind; [by apply sound_write|]];
  let x := fresh "w" in intros x; cbv beta; try (apply sound_pure; intros ?).
Ltac scase := apply sound_if; let E := fresh "E" in intros E; try by apply sound_fail.

Lemma sound_lane_cap n fuel seen port cap :
  sound (calm n) (lane_cap crc32c msecs_to_jiffies frame_size env fuel seen port cap)
    (λ _, calm n) (calm n).
Proof.
  revert seen cap. induction fuel as [|fuel IH]; intros seen cap; cbn [lane_cap];
    scase; try by apply sound_ret.
  scase. snext. snext. scase; [by apply sound_ret|apply IH].
Qed.

Lemma sound_discover n ports caps lanes :
  (∀ p, p ∈ ports → 0 ≤ p < 8) → length caps = 8%nat →
  sound (calm n) (discover crc32c msecs_to_jiffies frame_size env ports caps lanes)
    (λ r k, calm n k ∧ length r.1 = 8%nat) (calm n).
Proof.
  revert caps lanes. induction ports as [|p ports IH]; intros caps lanes Hp Hc; cbn [discover].
  { by apply sound_ret. }
  assert (∀ q, q ∈ ports → 0 ≤ q < 8) as Hp' by (intros q Hq; apply Hp; by right).
  do 3 snext. scase; [by apply IH|]. eapply sound_bind; [apply sound_lane_cap|].
  intros [cap|]; cbv beta; [|by apply sound_fail].
  assert (set_cap caps p cap = Ok (<[Z.to_nat p:=u8 cap]> caps)) as ->.
  { unfold set_cap. specialize (Hp p ltac:(by left)). if_case E1; [lia|done]. }
  apply IH; [done|]. by rewrite length_insert.
Qed.

Lemma sound_poll_lanes n ports caps up :
  (∀ p, p ∈ ports → 0 ≤ p < 8) → length caps = 8%nat →
  sound (calm n) (poll_lanes crc32c msecs_to_jiffies frame_size env ports caps up)
    (λ _, calm n) (calm n).
Proof.
  intros Hp Hc. revert up Hp. induction ports as [|p ports IH]; intros up Hp; cbn [poll_lanes].
  { by apply sound_ret. }
  assert (∀ q, q ∈ ports → 0 ≤ q < 8) as Hp' by (intros q Hq; apply Hp; by right).
  specialize (Hp p ltac:(by left)). unfold get_cap.
  eapply sound_bind; [apply sound_word; lia|]. intros cap. cbv beta. apply sound_pure. intros _.
  scase; [by apply IH|]. do 2 snext. by apply IH.
Qed.

Lemma sound_sleep n ms :
  sound (calm n) (modify (λ k : st, k <| k_dev := le_msleep env ms (k_dev k) |>)) (λ _, calm n) (calm n).
Proof. apply sound_modify. intros k Hk. by apply (inv_stable 0 n 0 k). Qed.

Lemma sound_wait_lanes n fuel ports caps up :
  (∀ p, p ∈ ports → 0 ≤ p < 8) → length caps = 8%nat →
  sound (calm n) (wait_lanes crc32c msecs_to_jiffies frame_size env fuel ports caps up)
    (λ _, calm n) (calm n).
Proof.
  intros Hp Hc. revert up. induction fuel as [|fuel IH]; intros up; cbn [wait_lanes].
  { by apply sound_ret. }
  eapply sound_bind; [by apply sound_poll_lanes|]. intros up'. cbv beta.
  scase; [by apply sound_ret|]. eapply sound_bind; [apply sound_sleep|]. intros ?. cbv beta.
  apply IH.
Qed.

Lemma sound_unlock n :
  sound (calm n) (unlock_primary crc32c msecs_to_jiffies frame_size env) (λ _, calm n) (calm n).
Proof.
  unfold unlock_primary. do 2 snext. cbv zeta. scase; [by apply sound_ret|].
  eapply sound_bind; [apply sound_write; [by right|simpl in *; lia|simpl; lia]|]. intros ?. cbv beta.
  do 2 snext. scase. by apply sound_ret.
Qed.

(** The root router is the one known model, with seven adapters. *)
Definition is_root (host plan : list Z) : Prop :=
  length host = 5%nat ∧ host !! 1%nat = Some 0x0101c11c ∧ length plan = 4%nat.

Lemma root_plan_total host :
  length host = 5%nat →
  match x1_root_plan host with Ok plan => is_root host plan | Err _ => True | Fault => False end.
Proof.
  intros Hl. destruct host as [|h0 [|h1 [|h2 [|h3 [|h4 [|]]]]]]; try done.
  unfold x1_root_plan. cbn [word_of lookup list_lookup rbind]. if_case E; [done|].
  rewrite !orb_false_iff, !negb_false_iff, !Z.eqb_eq in E. destruct_and!. subst. done.
Qed.

Lemma sound_configure n :
  sound (calm n) (configure_root crc32c msecs_to_jiffies frame_size env)
    (λ r k, calm n k ∧ is_root r.1 r.2) (calm n).
Proof.
  unfold configure_root. snext. pose proof (root_plan_total w) as Hp.
  specialize (Hp ltac:(done)). destruct (x1_root_plan w) as [plan|e|]; [|by intros k Hk|done].
  change (bind (lift (Ok plan)) ?k) with (k plan).
  destruct Hp as (Hl&H1&H2).
  eapply sound_bind; [apply sound_write; [by left|rewrite length_drop; simpl; lia|simpl; lia]|].
  intros ?. cbv beta. snext. scase. by apply sound_ret.
Qed.

Lemma ports_to_bound p : p ∈ ports_to 7 → 0 ≤ p < 8.
Proof.
  unfold ports_to. intros (i&->&Hi)%list_elem_of_fmap. apply elem_of_seq in Hi. simpl in Hi. lia.
Qed.

Lemma sound_connect word :
  word = 0x2501 ∨ word = 0x2701 →
  sound (calm 0) (invoke (le_connect env word)) (λ _, calm 1) (calm 1).
Proof.
  intros Hw. unfold invoke. eapply (sound_bind _ _ _ _ (λ _, calm 1)).
  - intros k (t&H1&H2&H3&H4&H5). unfold ask. simpl.
    destruct (le_connect env0 word (k_dev k).1) as [r d]. exists (t ++ [LConnect word]). simpl.
    rewrite H1, <- app_assoc, !tally_app. change (tally is_tx [LConnect word]) with 0.
    change (tally is_connect [LConnect word]) with 1. split; [done|].
    split; [apply Forall_app; split; [done|by apply Forall_singleton]|].
    split; [lia|]. split; [lia|exact H5].
  - intros r. cbv beta. scase. by apply sound_ret.
Qed.

Lemma sound_weaken {A} (m : M st A) P (Q : A → st → Prop) : sound P m Q (calm 0) → sound P m Q (calm 1).
Proof.
  intros Hm. eapply sound_conseq; [exact Hm|done|done|]. intros k Hk.
  eapply inv_weaken; [| | |exact Hk]; lia.
Qed.

Lemma sound_bring_up word :
  word = 0x2501 ∨ word = 0x2701 →
  sound (calm 0) (bring_up crc32c msecs_to_jiffies frame_size env word)
    (λ r k, calm 1 k ∧ length r.2 = 5%nat) (calm 1).
Proof.
  intros Hword. unfold bring_up.
  eapply sound_bind; [apply sound_weaken, sound_configure|]. intros [host plan]. cbv beta.
  apply sound_pure. intros (Hl&H1&H2). cbn [fst snd] in *.
  unfold word_of at 1. rewrite H1. change (bind (lift (Ok ?x)) ?k) with (k x). cbv beta zeta.
  change (ports_to _) with (ports_to 7).
  eapply sound_bind; [apply sound_weaken, sound_discover; [apply ports_to_bound|done]|].
  intros [caps lanes]. cbv beta. apply sound_pure. intros Hc. cbn [fst] in Hc.
  assert (∀ k, calm 0 k → calm 1 k) as H01.
  { intros k Hk. eapply inv_weaken; [| | |exact Hk]; lia. }
  scase. unfold get_cap.
  eapply sound_bind; [apply sound_weaken, sound_word; simpl; lia|]. intros c2. cbv beta.
  apply sound_pure. intros _.
  eapply sound_bind; [apply sound_weaken, sound_word; simpl; lia|]. intros c3. cbv beta.
  apply sound_pure. intros _. scase.
  eapply sound_bind; [by apply sound_valid|]. intros ?. cbv beta.
  eapply sound_bind; [by apply sound_connect|]. intros ?. cbv beta.
  eapply sound_bind; [apply sound_wait_lanes; [apply ports_to_bound|done]|]. intros up. cbv beta.
  scase. scase. eapply sound_bind; [apply sound_unlock|]. intros ?. cbv beta.
  snext. by apply sound_ret.
Qed.

(** The external router is read once and then refused. *)
Lemma sound_external header :
  length header = 5%nat →
  sound (calm 1) (link_external_init crc32c msecs_to_jiffies frame_size env header)
    (λ _ _, False) (calm 1).
Proof.
  intros Hl. unfold link_external_init.
  assert (x1_external_plan header ≠ Fault) as Hp.
  { destruct header as [|h0 [|h1 [|h2 [|h3 [|h4 [|]]]]]]; try done.
    unfold x1_external_plan. cbn [word_of lookup list_lookup rbind]. by if_case E. }
  eapply sound_bind; [by apply (sound_lift _ _ _ (λ _, True))|]. intros plan. cbv beta.
  apply sound_pure. intros _. do 5 snext. by apply sound_fail.
Qed.

Lemma topology_read_calm s k :
  calm 1 k → calm 1 (topology_read crc32c msecs_to_jiffies frame_size env s k).2.
Proof.
  intros Hk. unfold topology_read.
  pose proof (sound_read 1 (rs_route s) (rs_port s) (rs_space s) (rs_offset s) (rs_words s) k Hk) as Hs.
  destruct (link_read _ _ _ _ _ _ _ _ _ k) as [[ws|e|] k']; [apply Hs|done|done].
Qed.

Lemma sound_on_link {A} (m : M st A) P Q E :
  sound P m Q E → sound (λ w : x1_topology * st, P w.2) (on_link m) (λ a w, Q a w.2) (λ w, E w.2).
Proof.
  intros Hm [t k] Hk. specialize (Hm k Hk). unfold on_link.
  by destruct (m k) as [[a|e|] k'].
Qed.

Lemma sound_topology route header :
  sound (λ w : x1_topology * st, calm 1 w.2)
    (x1_topology_router (topology_read crc32c msecs_to_jiffies frame_size env)
       (topology_report env) route header) (λ _ w, calm 1 w.2) (λ w, calm 1 w.2).
Proof.
  intros w Hw.
  pose proof (safe_topology_router (topology_read crc32c msecs_to_jiffies frame_size env)
    (topology_report env) route header w) as Hs.
  pose proof (preserves_topology_router (topology_read crc32c msecs_to_jiffies frame_size env)
    (topology_report env) (calm 1) topology_read_calm
    (λ _ _ _ _ _ k Hk, inv_stable 0 1 0 k _ eq_refl eq_refl Hk) route header w) as Hk.
  specialize (Hk Hw). by destruct (x1_topology_router _ _ _ _ w) as [[a|e|] w'].
Qed.

Lemma sound_body word :
  sound (λ w : x1_topology * st, calm 0 w.2)
    (link_body crc32c HZ msecs_to_jiffies frame_size env word)
    (λ _ _, False) (λ w, calm 1 w.2).
Proof.
  assert (∀ k, calm 0 k → calm 1 k) as H01.
  { intros k Hk. eapply inv_weaken; [| | |exact Hk]; lia. }
  unfold link_body. apply sound_if; intros Ew; [apply sound_fail; auto|].
  eapply sound_bind; [by apply sound_on_link, sound_ask|]. intros v. cbv beta.
  apply sound_if; intros _; [apply sound_fail; auto|].
  eapply sound_bind; [by apply sound_on_link, sound_ask|]. intros now. cbv beta.
  eapply sound_bind.
  { apply (sound_on_link _ _ (λ _, calm 0)), sound_modify. intros k Hk. by apply (inv_stable 0 0 0 k). }
  intros ?. cbv beta. eapply sound_bind; [apply sound_on_link, sound_bring_up; lia|].
  intros [h1 h2]. cbv beta. cbn [fst snd]. apply sound_pure. intros Hl.
  eapply sound_bind; [apply sound_topology|]. intros ?. cbv beta.
  eapply sound_bind; [by apply sound_on_link, sound_external|]. intros conf. cbv beta.
  by intros w [].
Qed.
End run.

Section claims.
Context (crc32c : Z → list Z → Z) (HZ : Z) (msecs_to_jiffies : Z → Z) (frame_size : nat).
Context {D : Type} (env0 : link_env D).
Abbreviation run := (x1_diag_link_run crc32c HZ msecs_to_jiffies frame_size (logged_link env0)).

End claims.

(** ** Witness: a peer that answers every request from a register file

    Root router with lane adapters 2 and 3 (port 2 locked), and an external
    router behind route 2. *)

Definition peer_reg (route space port off : Z) : Z :=
  if route =? 2 then nth (Z.to_nat off) [0x113b059f; 0x00014120; 0; 0; 0x2000000a] 0 else
  if space =? 2 then nth (Z.to_nat off) [0x093805c6; 0x0101c11c; 0; 0; 0x2000000a] 0 else
  if (port =? 2) || (port =? 3) then
    if off =? 1 then 16 else if off =? 2 then 1 else
    if off =? 4 then 0x80000000 else
    if off =? 16 then 0x100 else if off =? 17 then 2 << 26 else 0
  else 0.

Record peer := Peer { pe_answer : option frame; pe_mem : list (Z * Z * Z * Z * Z) }.

Definition peer_read (p : peer) (route space port off : Z) : Z :=
  match list_find (λ e : Z * Z * Z * Z * Z, e.1 = (route, space, port, off)) (pe_mem p) with
  | Some (_, e) => e.2
  | None => peer_reg route space port off
  end.

Definition peer_word (w : list Z) (i : Z) : Z :=
  match get_unaligned_be32 w i with Ok v => v | _ => 0 end.

Definition peer_tx (w : list Z) (size sof eof : Z) (p : peer) : Z * peer :=
  let route := peer_word w 4 in let addr := peer_word w 8 in
  let off := addr .& 0x1fff in let n := Z.to_nat ((addr >> 13) .& 0x3f) in
  let port := (addr >> 19) .& 0x3f in let space := (addr >> 25) .& 3 in
  let data := if sof =? 1 then (λ i, peer_read p route space port (off + Z.of_nat i)) <$> seq 0 n
              else [] in
  let bytes := be_words (sealed castagnoli ([0x80000000; route; addr] ++ data)) in
  let mem := if sof =? 2 then
      ((λ i, (route, space, port, off + Z.of_nat i, peer_word w (12 + 4 * Z.of_nat i))) <$> seq 0 n)
      ++ pe_mem p else pe_mem p in
  (0, Peer (Some {| fr_data := bytes; fr_size := Z.of_nat (length bytes); fr_sof := 0;
                    fr_eof := sof; fr_bad := false; fr_canceled := false |}) mem).

Definition peer_env : link_env peer := {|
  le_jiffies p := (1000, p); le_valid p := (true, p); le_tx := peer_tx;
  le_wait_rx _ p := (pe_answer p, Peer None (pe_mem p)); le_wait_tx _ p := (Some false, p);
  le_msleep _ p := p; le_connect _ p := (0, p); le_quiesce _ p := p;
  le_report _ _ _ _ _ p := p |}.

Definition armed_control : x1_control := Control true false false 2 2 true.

