(* ===== verification/NhiRun.v ===== *)
(** * The control-ring owner (snapshot/kernel/drivers/thunderbolt/qcom-x1-nhi-diag.c,
    isolation, buffers and [x1_diag_nhi_run])

    Takes the host interface once per boot, after checking that its DMA is
    translated and private: two rings, 640 single-use buffers, two reads of the
    root router, and on success the control block that NhiLink.v works on.
    Every other kernel service and the registers are the environment. *)

From S2P Require Import Prelude Drom Packets NhiLink.

(** What the device tree and the IOMMU say of the device. *)
Record iso_facts := {
  if_board_allowed : bool;
  if_enumeration_test : bool;
  if_link_test : bool;
  if_ram_probe : bool;
  if_compatible : bool;
  if_resource : option (Z * Z);           (* start, size *)
  if_iommus : Z + (list Z * bool);        (* arguments, SMMU compatible *)
  if_iommus_count : Z;
  if_domain_dma : option bool;            (* NULL, or type DMA / DMA_FQ *)
  if_group : option (list bool);          (* NULL, or "is it ours" per device *)
}.

(** [iommu_group_for_each_dev(group, dev, only_device)] *)
Definition only_device (same : bool) : Z := if same then 0 else -EBUSY.
Fixpoint for_each_dev (l : list bool) : Z :=
  match l with
  | [] => 0
  | b :: l => let r := only_device b in if r !=? 0 then r else for_each_dev l
  end.

Record nhi_env (D : Type) := {
  ne_iso : iso_facts;
  ne_dma_mask : D → Z * D;                (* dma_set_mask_and_coherent *)
  ne_irq_spec : option bool;              (* of_irq_parse_one, then SPI 472 level high *)
  ne_irq : Z;                             (* platform_get_irq *)
  ne_native : bool;                       (* CONFIG_USB4_X1_NATIVE *)
  ne_native_start : D → Z * D;
  ne_zalloc : D → bool * D;
  ne_caps : D → Z * D;                    (* readl(REG_CAPS) *)
  ne_ring_live : nat → D → bool * D;      (* either ring of hop i enabled *)
  ne_prepare : D → Z * D;
  ne_init_interrupts : D → Z * D;
  ne_alloc_ring : D → option Z * D;       (* descriptors_dma *)
  ne_ring_bytes : Z;
  ne_mapped : Z → D → bool;               (* iommu_iova_to_phys *)
  ne_alloc_buffer : D → option Z * D;     (* dma_alloc_coherent: buffer_phy *)
  ne_start_rings : D → D;
  ne_queue_rx : D → Z * D;                (* tb_ring_rx *)
  ne_queue_tx : list Z → D → Z * D;       (* tb_ring_tx of a 16-byte request *)
  ne_jiffies : D → Z * D;
  ne_wait_rx : Z → D → option frame * D;
  ne_wait_tx : Z → D → option bool * D;
  ne_disable_interrupts : D → D;
  ne_snapshot : D → D;                    (* nine register reads *)
  ne_stop_rings : D → D;
  ne_watchdog : D → D;
}.
Arguments ne_iso {_} _.
Arguments ne_dma_mask {_} _ _.
Arguments ne_irq_spec {_} _.
Arguments ne_irq {_} _.
Arguments ne_native {_} _.
Arguments ne_native_start {_} _ _.
Arguments ne_zalloc {_} _ _.
Arguments ne_caps {_} _ _.
Arguments ne_ring_live {_} _ _ _.
Arguments ne_prepare {_} _ _.
Arguments ne_init_interrupts {_} _ _.
Arguments ne_alloc_ring {_} _ _.
Arguments ne_ring_bytes {_} _.
Arguments ne_mapped {_} _ _ _.
Arguments ne_alloc_buffer {_} _ _.
Arguments ne_start_rings {_} _ _.
Arguments ne_queue_rx {_} _ _.
Arguments ne_queue_tx {_} _ _ _.
Arguments ne_jiffies {_} _ _.
Arguments ne_wait_rx {_} _ _ _.
Arguments ne_wait_tx {_} _ _ _.
Arguments ne_disable_interrupts {_} _ _.
Arguments ne_snapshot {_} _ _.
Arguments ne_stop_rings {_} _ _.
Arguments ne_watchdog {_} _ _.

(** File-scope state: the two latches and the published control block. *)
Record nhi (D : Type) := Nhi {
  n_attempted : bool;
  n_baseline : bool;
  n_link_ctl : option x1_control;
  n_rings_started : bool;                 (* ctl->rings_started while it runs *)
  n_dev : D;
}.
Arguments Nhi {_} _ _ _ _ _.
Arguments n_attempted {_} _.
Arguments n_baseline {_} _.
Arguments n_link_ctl {_} _.
Arguments n_rings_started {_} _.
Arguments n_dev {_} _.
#[export] Instance nhi_eta {D} : Eta (nhi D) := λ n,
  Nhi (n_attempted n) (n_baseline n) (n_link_ctl n) (n_rings_started n) (n_dev n).

Section nhi.
Context (crc32c : Z → list Z → Z) (msecs_to_jiffies : Z → Z) (frame_size : nat).
Context {D : Type} (env : nhi_env D).
Abbreviation H := (M (nhi D)).

Definition nq {A} (f : D → A * D) : H A := λ n,
  let (x, d) := f (n_dev n) in (Ok x, n <| n_dev := d |>).
Definition nv (f : D → D) : H unit := modify (λ n, n <| n_dev := f (n_dev n) |>).
Definition nc (f : D → Z * D) : H unit := let! r := nq f in if r !=? 0 then fail r else ret tt.
Definition mapped (a : Z) : H bool := λ n, (Ok (ne_mapped env a (n_dev n)), n).

Definition isolation : H unit :=
  let f := ne_iso env in
  if negb (if_board_allowed f) || negb (if_enumeration_test f) || negb (if_link_test f) ||
     negb (if_ram_probe f) || negb (if_compatible f) ||
     negb (bool_decide (if_resource f = Some (0x15600000, 0x100000))) then fail (-EPERM) else
  match if_iommus f with
  | inl e => fail e
  | inr (args, smmu) =>
      if negb (bool_decide (args = [0x1440; 0]) && smmu) || (if_iommus_count f !=? 1)
      then fail (-EINVAL) else
      match if_domain_dma f with
      | Some true =>
          match if_group f with
          | None => fail (-ENODEV)
          | Some devs =>
              let r := for_each_dev devs in
              if r !=? 0 then fail r else nc (ne_dma_mask env)
          end
      | _ => fail (-EPERM)
      end
  end.

(** [packet_alloc]: the buffer must be translated at both ends and below 4 GiB. *)
Definition packet_alloc : H unit :=
  let! phy := nq (ne_alloc_buffer env) in
  match phy with
  | None => fail (-ENOMEM)
  | Some phy =>
      if U32_MAX - (Z.of_nat frame_size - 1) <? phy then fail (-EFAULT) else
      let! a := mapped phy in
      if negb a then fail (-EFAULT) else
      let! b := mapped (phy + Z.of_nat frame_size - 1) in
      if negb b then fail (-EFAULT) else ret tt
  end.

Definition ring_mapping_valid (dma : Z) : H bool :=
  let bytes := ne_ring_bytes env in
  if U32_MAX - (bytes - 1) <? dma then ret false else
  let! a := mapped dma in
  if negb a then ret false else mapped (dma + bytes - 1).

(** The [while] of one read: the number of receive buffers consumed so far is
    the loop's state; [Some ws] is the accepted reply. *)
Fixpoint await_root (fuel : nat) (seq deadline next_rx : Z) : H (Z * list Z) :=
  match fuel with
  | O => fault
  | S fuel =>
      if next_rx <? X1_RX_COUNT then
        let! now := nq (ne_jiffies env) in
        if negb (time_before now deadline) then fail (-ETIMEDOUT) else
        let! now := nq (ne_jiffies env) in
        if time_after_eq now deadline then fail (-ETIMEDOUT) else
        let! rx := nq (ne_wait_rx env (u64 (deadline - now))) in
        match rx with
        | None => fail (-ETIMEDOUT)
        | Some rx =>
            let next_rx := next_rx + 1 in
            if fr_canceled rx then fail (-ESHUTDOWN) else
            if (fr_eof rx !=? 1) && (fr_eof rx !=? 3) then await_root fuel seq deadline next_rx else
            let! ws := lift (x1_packet_reply crc32c (rx_buffer frame_size rx) (fr_size rx)
                               (fr_sof rx) (fr_eof rx) seq) in
            ret (next_rx, ws)
        end
      else fail (-ETIMEDOUT)
  end.

(** One of the two reads of the root router.  The C code encodes both requests
    when it allocates their buffers. *)
Definition root_read (seq next_rx : Z) : H Z :=
  let! wire := lift (x1_packet_request crc32c (tx_buffer frame_size) seq) in
  do! nc (ne_queue_tx env wire) in
  let! now := nq (ne_jiffies env) in
  let deadline := u64 (now + msecs_to_jiffies 3000) in
  let! r := await_root (S (Z.to_nat (X1_RX_COUNT - next_rx))) seq deadline next_rx in
  let! done_ := nq (ne_wait_tx env (msecs_to_jiffies 1000)) in
  match done_ with
  | Some false => ret r.1
  | _ => fail (-ETIMEDOUT)
  end.

(** Between [qcom_usb4_nhi_init_interrupts] and the publication; every failure
    is a [goto stop]. *)
Definition control_session : H Z :=
  do! nc (ne_init_interrupts env) in
  let! tx := nq (ne_alloc_ring env) in
  let! rx := nq (ne_alloc_ring env) in
  match tx, rx with
  | Some tx, Some rx =>
      let! a := ring_mapping_valid tx in
      if negb a then fail (-EFAULT) else
      let! b := ring_mapping_valid rx in
      if negb b then fail (-EFAULT) else
      do! for_each (replicate (Z.to_nat X1_TX_COUNT) tt) (λ _, packet_alloc) in
      do! for_each (replicate (Z.to_nat X1_RX_COUNT) tt) (λ _, packet_alloc) in
      do! nv (ne_start_rings env) in
      do! modify (λ n, n <| n_rings_started := true |>) in
      do! for_each (replicate (Z.to_nat X1_RX_COUNT) tt) (λ _, nc (ne_queue_rx env)) in
      let! next_rx := root_read 0 0 in
      root_read 1 next_rx
  | _, _ => fail (-ENOMEM)
  end.

(** [stop:].  The final ring check cannot change an errno that is already set. *)
Definition control_stop : H unit :=
  do! nv (ne_disable_interrupts env) in
  do! nv (ne_snapshot env) in
  let! n := get in
  do! (if n_rings_started n then nv (ne_stop_rings env) else ret tt) in
  nv (ne_snapshot env).

Definition publish (next_rx : Z) : H unit :=
  do! modify (λ n, n <| n_link_ctl := Some (Control true false false 2 next_rx false) |>
                     <| n_baseline := true |>) in
  nv (ne_watchdog env).

Definition x1_diag_nhi_run (router : bool) : H unit :=
  let! n := get in
  if negb router || n_attempted n then fail (-EPERM) else
  do! isolation in
  match ne_irq_spec env with
  | None | Some false => fail (-EINVAL)
  | Some true =>
      if ne_irq env <=? 0 then
        fail (if ne_irq env !=? 0 then ne_irq env else -EINVAL) else
      do! modify (λ n, n <| n_attempted := true |>) in
      if ne_native env then
        do! nc (ne_native_start env) in
        modify (λ n, n <| n_baseline := true |>)
      else
        let! ctl := nq (ne_zalloc env) in
        if negb ctl then fail (-ENOMEM) else
        let! tx := nq (ne_zalloc env) in
        let! rx := nq (ne_zalloc env) in
        if negb tx || negb rx then fail (-ENOMEM) else
        let! caps := nq (ne_caps env) in
        if caps !=? 3 then fail (-EINVAL) else
        do! for_each [0; 1; 2]%nat (λ i,
              let! live := nq (ne_ring_live env i) in
              if live : bool then fail (-EBUSY) else ret tt) in
        do! nc (ne_prepare env) in
        let! next_rx := on_error control_session control_stop in
        publish next_rx
  end.

Definition x1_diag_nhi_complete (n : nhi D) : bool := n_baseline n.
End nhi.

(** ** One owner, and what it leaves behind *)

Inductive nev := NvInit | NvStart | NvTx (wire : list Z) | NvDisable | NvStop | NvWatchdog.

Definition logged_nhi {D} (e : nhi_env D) : nhi_env (D * list nev) :=
  let q {A} (f : D → A * D) : D * list nev → A * (D * list nev) :=
    λ d, let (x, d') := f d.1 in (x, (d', d.2)) in
  let q1 {A} (v : nev) (f : D → A * D) : D * list nev → A * (D * list nev) :=
    λ d, let (x, d') := f d.1 in (x, (d', d.2 ++ [v])) in
  {| ne_iso := ne_iso e;
     ne_dma_mask := q (ne_dma_mask e);
     ne_irq_spec := ne_irq_spec e;
     ne_irq := ne_irq e;
     ne_native := ne_native e;
     ne_native_start := q (ne_native_start e);
     ne_zalloc := q (ne_zalloc e);
     ne_caps := q (ne_caps e);
     ne_ring_live i := q (ne_ring_live e i);
     ne_prepare := q (ne_prepare e);
     ne_init_interrupts := q1 NvInit (ne_init_interrupts e);
     ne_alloc_ring := q (ne_alloc_ring e);
     ne_ring_bytes := ne_ring_bytes e;
     ne_mapped a d := ne_mapped e a d.1;
     ne_alloc_buffer := q (ne_alloc_buffer e);
     ne_start_rings d := (ne_start_rings e d.1, d.2 ++ [NvStart]);
     ne_queue_rx := q (ne_queue_rx e);
     ne_queue_tx w := q1 (NvTx w) (ne_queue_tx e w);
     ne_jiffies := q (ne_jiffies e);
     ne_wait_rx t := q (ne_wait_rx e t);
     ne_wait_tx t := q (ne_wait_tx e t);
     ne_disable_interrupts d := (ne_disable_interrupts e d.1, d.2 ++ [NvDisable]);
     ne_snapshot d := (ne_snapshot e d.1, d.2);
     ne_stop_rings d := (ne_stop_rings e d.1, d.2 ++ [NvStop]);
     ne_watchdog d := (ne_watchdog e d.1, d.2 ++ [NvWatchdog]) |}.

(** The request for word 0 to 4 of the root router, with sequence [sq]. *)
Definition root_request (crc32c : Z → list Z → Z) (frame_size : nat) (sq : Z) : list Z :=
  match x1_packet_request crc32c (tx_buffer frame_size) sq with Ok w => w | _ => [] end.

Section owner.
Context (crc32c : Z → list Z → Z) (msecs_to_jiffies : Z → Z) (frame_size : nat).
Context (Hfs : (36 ≤ frame_size)%nat).
Context {D : Type} (env0 : nhi_env D).
Abbreviation env := (logged_nhi env0).
Abbreviation st := (nhi (D * list nev)).
Abbreviation req := (root_request crc32c frame_size).

(** The session's visible acts, in order. *)
Definition session_script : list nev := [NvInit; NvStart; NvTx (req 0); NvTx (req 1)].

Context (a bl : bool) (lc : option x1_control) (l0 : list nev).

Definition at_ (k : nat) (n : st) : Prop :=
  (n_dev n).2 = l0 ++ take k session_script ∧ n_rings_started n = (2 <=? k)%nat ∧
  n_attempted n = a ∧ n_baseline n = bl ∧ n_link_ctl n = lc.
Definition somewhere (n : st) : Prop := ∃ k, at_ k n.

Lemma sound_nq {A} k E (f : D * list nev → A * (D * list nev)) :
  (∀ d, (f d).2.2 = d.2) → sound (at_ k) (nq f) (λ _, at_ k) E.
Proof.
  intros Hf n (H1&H2). unfold nq. specialize (Hf (n_dev n)).
  destruct (f (n_dev n)) as [x d]. split; [|exact H2]. simpl in *. by rewrite Hf.
Qed.

Lemma at_somewhere k n : at_ k n → somewhere n.
Proof. by exists k. Qed.
Hint Resolve at_somewhere : core.

Lemma sound_nc k (E : st → Prop) f :
  (∀ d, (f d).2.2 = d.2) → (∀ n, at_ k n → E n) → sound (at_ k) (nc f) (λ _, at_ k) E.
Proof.
  intros Hf HE. unfold nc. eapply sound_bind; [by apply sound_nq|]. intros r. cbv beta.
  apply sound_if; intros _; [by apply sound_fail|by apply sound_ret].
Qed.

Lemma sound_isolation : sound (at_ 0) (isolation env) (λ _, at_ 0) (at_ 0).
Proof.
  unfold isolation. cbv zeta. apply sound_if; intros _; [by apply sound_fail|].
  destruct (if_iommus _) as [e|[args smmu]]; [by apply sound_fail|].
  apply sound_if; intros _; [by apply sound_fail|].
  destruct (if_domain_dma _) as [[]|]; try by apply sound_fail.
  destruct (if_group _) as [devs|]; [|by apply sound_fail].
  apply sound_if; intros _; [by apply sound_fail|]. apply sound_nc; [|done].
  intros d. simpl. by destruct (ne_dma_mask _ _).
Qed.

(** A call that is the next act of the script. *)
Lemma sound_act k v f :
  session_script !! k = Some v → (2 <=? k)%nat = (2 <=? S k)%nat →
  (∀ d, (f d).2.2 = d.2 ++ [v]) → sound (at_ k) (nc f) (λ _, at_ (S k)) somewhere.
Proof.
  intros Hv Hk Hf. unfold nc. eapply (sound_bind _ _ _ _ (λ _, at_ (S k))).
  - intros n (H1&H2&H3). unfold nq. specialize (Hf (n_dev n)).
    destruct (f (n_dev n)) as [x d]. cbn [snd] in Hf. split; [|split; [|exact H3]].
    + change (d.2 = l0 ++ take (S k) session_script).
      by rewrite Hf, H1, (take_S_r _ _ v Hv), app_assoc.
    + change (n_rings_started n = (2 <=? S k)%nat). congruence.
  - intros r. cbv beta. apply sound_if; intros _; [apply sound_fail; eauto|by apply sound_ret].
Qed.

Lemma sound_mapped k x : sound (at_ k) (mapped env x) (λ _, at_ k) somewhere.
Proof. by intros n Hn. Qed.

Lemma sound_packet_alloc k : sound (at_ k) (packet_alloc frame_size env) (λ _, at_ k) somewhere.
Proof.
  unfold packet_alloc. eapply sound_bind; [apply sound_nq; intros d; simpl; by destruct (ne_alloc_buffer _ _)|].
  intros [phy|]; cbv beta; [|apply sound_fail; eauto].
  apply sound_if; intros _; [apply sound_fail; eauto|].
  eapply sound_bind; [apply sound_mapped|]. intros x. cbv beta.
  apply sound_if; intros _; [apply sound_fail; eauto|].
  eapply sound_bind; [apply sound_mapped|]. intros y. cbv beta.
  apply sound_if; intros _; [apply sound_fail; eauto|by apply sound_ret].
Qed.

Lemma sound_ring_mapping k dma : sound (at_ k) (ring_mapping_valid env dma) (λ _, at_ k) somewhere.
Proof.
  unfold ring_mapping_valid. cbv zeta. apply sound_if; intros _; [by apply sound_ret|].
  eapply sound_bind; [apply sound_mapped|]. intros x. cbv beta.
  apply sound_if; intros _; [by apply sound_ret|apply sound_mapped].
Qed.

Lemma sound_each {X} k (l : list X) body :
  (∀ x, sound (at_ k) (body x) (λ _, at_ k) somewhere) →
  sound (at_ k) (for_each l body) (λ _, at_ k) somewhere.
Proof.
  intros Hb. induction l as [|x l IH]; cbn [for_each]; [by apply sound_ret|].
  eapply sound_bind; [apply Hb|]. intros ?. cbv beta. apply IH.
Qed.

Lemma packet_reply_total wire size sof eof sq :
  (36 ≤ length wire)%nat → x1_packet_reply crc32c wire size sof eof sq ≠ Fault.
Proof.
  intros Hl. unfold x1_packet_reply. if_case E; [done|].
  assert (size = 36) as -> by (unfold X1_REPLY_BYTES, X1_READ_WORDS in E; lia). in_bounds.
  repeat (if_case E'; [done|]; clear E'). apply rmap_total. intros i Hi.
  apply elem_of_seq in Hi. destruct (get_be32_ok wire (12 + 4 * Z.of_nat i)) as (v&->&_);
    [lia|unfold X1_READ_WORDS in Hi; lia|done].
Qed.

Lemma sound_await_root k fuel sq dl next :
  (Z.to_nat (X1_RX_COUNT - next) < fuel)%nat →
  sound (at_ k) (await_root crc32c frame_size env fuel sq dl next)
    (λ r n, at_ k n ∧ next < r.1 ≤ X1_RX_COUNT) somewhere.
Proof.
  revert next. induction fuel as [|fuel IH]; intros next Hf; cbn [await_root]; [lia|].
  destruct (Z.ltb_spec next X1_RX_COUNT); [|apply sound_fail; eauto].
  assert (∀ d, (ne_jiffies env d).2.2 = d.2) as Hj by (intros d; simpl; by destruct (ne_jiffies _ _)).
  eapply sound_bind; [by apply sound_nq|]. intros now. cbv beta.
  apply sound_if; intros _; [apply sound_fail; eauto|].
  eapply sound_bind; [by apply sound_nq|]. intros now2. cbv beta.
  apply sound_if; intros _; [apply sound_fail; eauto|].
  eapply sound_bind; [apply sound_nq; intros d; simpl; by destruct (ne_wait_rx _ _ _)|].
  intros [rx|]; cbv beta; [|apply sound_fail; eauto]. cbv zeta.
  apply sound_if; intros _; [apply sound_fail; eauto|]. apply sound_if; intros _.
  - eapply sound_conseq; [apply IH; lia|done| |done]. intros r n [H1 H2]. split; [done|lia].
  - eapply sound_bind.
    + apply (sound_lift _ _ _ (λ _, True)); [|done|eauto]. apply packet_reply_total.
      rewrite rx_buffer_length. lia.
    + intros ws. cbv beta. apply sound_pure. intros _. apply sound_ret. intros n Hn.
      split; [done|simpl; lia].
Qed.

Lemma root_request_ok sq :
  x1_packet_request crc32c (tx_buffer frame_size) sq = Ok (req sq).
Proof.
  unfold root_request, x1_packet_request.
  pose proof (put_frame crc32c 0 0 (u32 ((X1_READ_WORDS << 13) .| (2 << 25) .| (sq << 27)))
    (tx_buffer frame_size)) as Hp. rewrite tx_buffer_length in Hp. specialize (Hp ltac:(lia)).
  by rewrite Hp.
Qed.

Lemma sound_root_read k sq next :
  session_script !! k = Some (NvTx (req sq)) → (2 ≤ k)%nat →
  sound (at_ k) (root_read crc32c msecs_to_jiffies frame_size env sq next)
    (λ r n, at_ (S k) n ∧ next < r ≤ X1_RX_COUNT) somewhere.
Proof.
  intros Hk H2. unfold root_read. rewrite root_request_ok.
  change (bind (lift (Ok ?x)) ?k) with (k x). cbv beta.
  eapply sound_bind.
  { apply (sound_act k (NvTx (req sq))); [done| |].
    - destruct k as [|[|k]]; [lia|lia|done].
    - intros d. simpl. by destruct (ne_queue_tx _ _ _). }
  intros ?. cbv beta.
  eapply sound_bind; [apply sound_nq; intros d; simpl; by destruct (ne_jiffies _ _)|].
  intros now. cbv beta zeta. eapply sound_bind; [apply sound_await_root; lia|].
  intros [nx ws]. cbv beta. apply sound_pure. intros Hn. cbn [fst] in Hn.
  eapply sound_bind; [apply sound_nq; intros d; simpl; by destruct (ne_wait_tx _ _ _)|].
  intros [[]|]; cbv beta; try (apply sound_fail; eauto). by apply sound_ret.
Qed.

Lemma sound_start :
  sound (at_ 1) (nv (ne_start_rings env)) (λ _ n, at_ 2 (n <| n_rings_started := true |>)) somewhere.
Proof.
  intros n (H1&H2&H3). cbn. split; [|split; [done|exact H3]].
  change ((n_dev n).2 ++ [NvStart] = l0 ++ [NvInit; NvStart]). by rewrite H1, <- app_assoc.
Qed.

Lemma sound_session :
  sound (at_ 0) (control_session crc32c msecs_to_jiffies frame_size env)
    (λ r n, at_ 4 n ∧ 2 ≤ r ≤ X1_RX_COUNT) somewhere.
Proof.
  unfold control_session.
  eapply sound_bind.
  { apply (sound_act 0 NvInit); [done..|]. intros d. simpl. by destruct (ne_init_interrupts _ _). }
  intros ?. cbv beta.
  assert (∀ d, (ne_alloc_ring env d).2.2 = d.2) as Hr by (intros d; simpl; by destruct (ne_alloc_ring _ _)).
  eapply sound_bind; [by apply sound_nq|]. intros tx. cbv beta.
  eapply sound_bind; [by apply sound_nq|]. intros rx. cbv beta.
  destruct tx as [tx|]; [|apply sound_fail; eauto]. destruct rx as [rx|]; [|apply sound_fail; eauto].
  eapply sound_bind; [apply sound_ring_mapping|]. intros x. cbv beta.
  apply sound_if; intros _; [apply sound_fail; eauto|].
  eapply sound_bind; [apply sound_ring_mapping|]. intros y. cbv beta.
  apply sound_if; intros _; [apply sound_fail; eauto|].
  eapply sound_bind; [apply sound_each; intros; apply sound_packet_alloc|]. intros ?. cbv beta.
  eapply sound_bind; [apply sound_each; intros; apply sound_packet_alloc|]. intros ?. cbv beta.
  eapply sound_bind; [apply sound_start|]. intros ?. cbv beta.
  eapply sound_bind; [by apply (sound_modify _ _ _ (λ _, at_ 2))|]. intros ?. cbv beta.
  eapply sound_bind.
  { apply sound_each. intros _. apply sound_nc; [|eauto]. intros d. simpl. by destruct (ne_queue_rx _ _). }
  intros ?. cbv beta. eapply sound_bind; [apply sound_root_read; [done|lia]|]. intros nx. cbv beta.
  apply sound_pure. intros Hn. eapply sound_conseq; [apply (sound_root_read 3); [done|lia]|done| |done].
  intros r n [H1 H2]. split; [done|lia].
Qed.

(** [stop:] masks the interrupts and stops the rings that were started. *)
Lemma control_stop_effect k n :
  at_ k n → ∃ n', control_stop env n = (Ok tt, n') ∧ n_attempted n' = a ∧ n_baseline n' = bl ∧
    n_link_ctl n' = lc ∧
    (n_dev n').2 = l0 ++ take k session_script ++ NvDisable :: (if (2 <=? k)%nat then [NvStop] else []).
Proof.
  intros (H1&H2&H3&H4&H5). revert H1 H2.
  generalize (take k session_script), (2 <=? k)%nat. intros t b H1 H2.
  unfold control_stop, nv, bind, modify, get. cbn. rewrite H2.
  destruct b; cbn; (eexists; split; [reflexivity|]); cbn; split_and!; try done;
    by rewrite H1, <- ?app_assoc.
Qed.
End owner.

Section claims.
Context (crc32c : Z → list Z → Z) (msecs_to_jiffies : Z → Z) (frame_size : nat).
Context {D : Type} (env0 : nhi_env D).
Abbreviation env := (logged_nhi env0).
Abbreviation st := (nhi (D * list nev)).

(** Success: the native owner took over, or the control block is published. *)
Definition published (n n' : st) : Prop :=
  n_attempted n' = true ∧ x1_diag_nhi_complete n' = true ∧
  (ne_native env0 = true ∧ (n_dev n').2 = (n_dev n).2 ∧ n_link_ctl n' = n_link_ctl n ∨
   ne_native env0 = false ∧
   (n_dev n').2 = (n_dev n).2 ++ session_script crc32c frame_size ++ [NvWatchdog] ∧
   ∃ next_rx, n_link_ctl n' = Some (Control true false false 2 next_rx false) ∧
     2 ≤ next_rx ≤ X1_RX_COUNT).

(** Failure: nothing is published, and a session that began was shut down. *)
Definition abandoned (n n' : st) : Prop :=
  n_link_ctl n' = n_link_ctl n ∧ x1_diag_nhi_complete n' = x1_diag_nhi_complete n ∧
  ((n_dev n').2 = (n_dev n).2 ∨ n_attempted n' = true ∧ ∃ k,
     (n_dev n').2 = (n_dev n).2 ++ take k (session_script crc32c frame_size) ++
       NvDisable :: (if (2 <=? k)%nat then [NvStop] else [])).

Section from.
Context (Hfs : (36 ≤ frame_size)%nat) (n : st) (Hn : n_rings_started n = false).
Abbreviation here a := (at_ crc32c frame_size (D:=D) a (n_baseline n) (n_link_ctl n) (n_dev n).2 0).

Lemma here_abandoned a n' : here a n' → abandoned n n'.
Proof.
  intros (Hl&_&_&Hb&Hc). split; [done|]. split; [done|]. left. by rewrite Hl, app_nil_r.
Qed.

Lemma sound_session_stop :
  sound (here true) (on_error (control_session crc32c msecs_to_jiffies frame_size env)
      (control_stop env))
    (λ r n', at_ crc32c frame_size (D:=D) true (n_baseline n) (n_link_ctl n) (n_dev n).2 4 n' ∧
       2 ≤ r ≤ X1_RX_COUNT) (abandoned n).
Proof.
  intros s Hs. unfold on_error.
  pose proof (sound_session crc32c msecs_to_jiffies frame_size Hfs env0 true (n_baseline n)
    (n_link_ctl n) (n_dev n).2 s Hs) as Hc.
  destruct (control_session _ _ _ _ s) as [[r|e|] s1]; [done| |done].
  destruct Hc as (k&Hk).
  destruct (control_stop_effect crc32c frame_size env0 true (n_baseline n) (n_link_ctl n)
    (n_dev n).2 k s1 Hk) as (s2&->&Ha&Hb&Hc&Hl).
  cbn [snd]. split; [done|]. split; [done|]. right. split; [done|]. by exists k.
Qed.

Lemma sound_publish r :
  2 ≤ r ≤ X1_RX_COUNT → ne_native env0 = false →
  sound (at_ crc32c frame_size (D:=D) true (n_baseline n) (n_link_ctl n) (n_dev n).2 4)
    (publish env r) (λ _, published n) (abandoned n).
Proof.
  intros Hr Hnat s (Hl&_&Ha&_). cbn. split; [done|]. split; [done|]. right.
  split; [done|]. split; [|by exists r]. change ((n_dev s).2 ++ [NvWatchdog] =
    (n_dev n).2 ++ session_script crc32c frame_size ++ [NvWatchdog]).
  by rewrite Hl, <- app_assoc.
Qed.

Lemma sound_nhi_run :
  n_attempted n = false →
  sound (here false) (x1_diag_nhi_run crc32c msecs_to_jiffies frame_size env true)
    (λ _, published n) (abandoned n).
Proof.
  intros Ha. unfold x1_diag_nhi_run.
  eapply (sound_bind _ _ _ _ (λ x s, here false s ∧ n_attempted x = false)).
  { intros s Hs. split; [done|]. apply Hs. }
  intros x. cbv beta. apply sound_pure. intros ->. cbn [negb orb]. cbv iota.
  eapply sound_bind.
  { eapply sound_conseq; [apply sound_isolation|done|done|apply here_abandoned]. }
  intros ?. cbv beta. destruct (ne_irq_spec env) as [[]|]; try (apply sound_fail, here_abandoned).
  apply sound_if; intros _; [apply sound_fail, here_abandoned|].
  eapply sound_bind.
  { apply (sound_modify _ _ _ (λ _, here true)). intros s (H1&H2&H3&H4).
    split; [exact H1|]. split; [exact H2|]. split; [done|exact H4]. }
  intros ?. cbv beta. apply sound_if; intros Hnat.
  - eapply sound_bind.
    { apply sound_nc; [intros d; simpl; by destruct (ne_native_start _ _)|apply here_abandoned]. }
    intros ?. cbv beta. apply sound_modify. intros s (H1&H2&H3&H4&H5). split; [done|].
    split; [done|]. left. split; [done|]. split; [|done]. by rewrite <- (app_nil_r (n_dev n).2).
  - assert (∀ d, (ne_zalloc env d).2.2 = d.2) as Hz by (intros d; simpl; by destruct (ne_zalloc _ _)).
    eapply sound_bind; [by apply sound_nq|]. intros ctl. cbv beta.
    apply sound_if; intros _; [apply sound_fail, here_abandoned|].
    eapply sound_bind; [by apply sound_nq|]. intros tx. cbv beta.
    eapply sound_bind; [by apply sound_nq|]. intros rx. cbv beta.
    apply sound_if; intros _; [apply sound_fail, here_abandoned|].
    eapply sound_bind; [apply sound_nq; intros d; simpl; by destruct (ne_caps _ _)|].
    intros caps. cbv beta. apply sound_if; intros _; [apply sound_fail, here_abandoned|].
    eapply (sound_bind _ _ _ _ (λ _, here true)).
    { generalize [0; 1; 2]%nat. intros l. induction l as [|i l IH]; cbn [for_each]; [by apply sound_ret|].
      eapply sound_bind; [|intros ?; exact IH].
      eapply sound_bind; [apply sound_nq; intros d; simpl; by destruct (ne_ring_live _ _ _)|].
      intros live. cbv beta. apply sound_if; intros _; [apply sound_fail, here_abandoned|by apply sound_ret]. }
    intros ?. cbv beta. eapply sound_bind.
    { apply sound_nc; [intros d; simpl; by destruct (ne_prepare _ _)|apply here_abandoned]. }
    intros ?. cbv beta. eapply sound_bind; [apply sound_session_stop|]. intros r. cbv beta.
    apply sound_pure. intros Hr. by apply sound_publish.
Qed.
End from.

End claims.

(** ** Witness: a root router that answers both reads *)

Definition root_answer (sq : Z) : frame :=
  let bytes := be_words (sealed castagnoli
    [0x80000000; 0; (X1_READ_WORDS << 13) .| (2 << 25) .| (sq << 27);
     0x093805c6; 0x0101c11c; 0; 0; 0x2000000a]) in
  {| fr_data := bytes; fr_size := 36; fr_sof := 0; fr_eof := 1; fr_bad := false;
     fr_canceled := false |}.

(** The device counts the requests it was sent. *)
Definition answering_env : nhi_env Z := {|
  ne_iso := {| if_board_allowed := true; if_enumeration_test := true; if_link_test := true;
    if_ram_probe := true; if_compatible := true; if_resource := Some (0x15600000, 0x100000);
    if_iommus := inr ([0x1440; 0], true); if_iommus_count := 1; if_domain_dma := Some true;
    if_group := Some [true] |};
  ne_dma_mask d := (0, d); ne_irq_spec := Some true; ne_irq := 55; ne_native := false;
  ne_native_start d := (0, d); ne_zalloc d := (true, d); ne_caps d := (3, d);
  ne_ring_live _ d := (false, d); ne_prepare d := (0, d); ne_init_interrupts d := (0, d);
  ne_alloc_ring d := (Some 0x1000, d); ne_ring_bytes := 160; ne_mapped _ _ := true;
  ne_alloc_buffer d := (Some 0x2000, d); ne_start_rings d := d; ne_queue_rx d := (0, d);
  ne_queue_tx _ d := (0, d + 1); ne_jiffies d := (1000, d);
  ne_wait_rx _ d := (Some (root_answer (d - 1)), d); ne_wait_tx _ d := (Some false, d);
  ne_disable_interrupts d := d; ne_snapshot d := d; ne_stop_rings d := d; ne_watchdog d := d |}.

Definition fresh_nhi : nhi (Z * list nev) := Nhi false false None false (0, []).

