(* ===== verification/Pcie.v ===== *)
(** * The private PCI0 bridge (snapshot/kernel/drivers/thunderbolt/qcom-x1-pcie.c)

    The owner of the tunnelled root port: it is registered once, powered and
    switched to root-complex mode by the routines of Pci0Init.v, identified by
    its header and capability list, trained once and scanned once; only then
    may a storage driver bind, and only to the one endpoint found.

    The driver core, clocks, interconnect and the PCI core are an environment;
    the bridge lock makes each entry point one step.  Log messages and the two
    formatting attributes are left out. *)

From S2P Require Import Prelude Board Pci0Init.

(** linux/pci_regs.h, linux/pci_ids.h *)
Definition PCI_CLASS_BRIDGE_PCI : Z := 0x0604.
Definition PCI_CLASS_BRIDGE_PCI_NORMAL : Z := 0x060400.
Definition PCI_CLASS_STORAGE_EXPRESS : Z := 0x010802.
Definition PCI_HEADER_TYPE_BRIDGE : Z := 1.
Definition PCI_STATUS_CAP_LIST : Z := 0x10.
Definition PCI_CAP_ID_EXP : Z := 0x10.
Definition PCI_EXP_FLAGS_VERS : Z := 0xf.
Definition PCI_EXP_FLAGS_TYPE : Z := 0xf0.
Definition PCI_EXP_TYPE_ROOT_PORT : Z := 4.

Record x1_bridge := Bridge {
  b_attempted : bool;
  b_powered : bool;
  b_downstream : bool;
  b_ready : bool;
  b_error : Z;
  b_enabled : Z;
  b_endpoint : option nat;
  b_endpoint_validated : bool;
  b_root_cfg : bool;
  b_root_validated : bool;
  b_root_fixup_done : bool;
  b_root_class : Z;
  b_trained : bool;
  b_train_attempted : bool;
}.
#[export] Instance bridge_eta : Eta x1_bridge := λ b,
  Bridge (b_attempted b) (b_powered b) (b_downstream b) (b_ready b) (b_error b) (b_enabled b)
    (b_endpoint b) (b_endpoint_validated b) (b_root_cfg b) (b_root_validated b)
    (b_root_fixup_done b) (b_root_class b) (b_trained b) (b_train_attempted b).

(** [devm_kzalloc] *)
Definition bridge_zero : x1_bridge :=
  Bridge false false false false 0 0 None false false false false 0 false false.

(** What the PCI core knows of a function; [pd_id] is its identity,
    [pd_ours] whether its bus belongs to the bridge's configuration window. *)
Record pci_dev := PciDev {
  pd_id : nat;
  pd_root_bus : bool;
  pd_ours : bool;
  pd_domain : Z;
  pd_bus : Z;
  pd_devfn : Z;
  pd_vendor : Z;
  pd_device : Z;
  pd_hdr_type : Z;
  pd_multifunction : bool;
  pd_is_pcie : bool;
  pd_pcie_type : Z;
  pd_class : Z;
  pd_revision : Z;
  pd_driver : bool;
}.

(** What the lookups of [x1_bridge_probe] and [x1_bridge_init_resources] find. *)
Record bridge_facts := {
  bf_resource0 : option (Z * Z);
  bf_domain : option Z;
  bf_smmu_reserved : bool;
  bf_kzalloc : bool;
  bf_resource1 : option (Z * Z);
  bf_clock_names : Z;
  bf_clock_count : Z;
  bf_clock_parse : Z;
  (** the clock is the USB4 PCIe pipe clock of the clock controller *)
  bf_clock_valid : bool;
  bf_reset_parse : Z;
  bf_reset_valid : bool;
  bf_parf : Z + unit;
  bf_tunnel_reset : Z + unit;
  bf_clocks : list (Z + unit);
  bf_icc_mem : Z + bool;
  bf_icc_cfg : Z + bool;
}.

(** The kernel configuration the entry points ask for. *)
Record gates := {
  gt_hyp_mode : bool;
  gt_board_allowed : bool;
  gt_nhi_complete : bool;
  gt_tree : tree;
}.

Record bridge_env (D : Type) := {
  be_io : x1_pci0_io D;
  (** [platform_driver_register]: the matching devices, and what it returns *)
  be_register : D → list bridge_facts * Z * D;
  be_pm_resume : D → Z * D;
  be_clk_enable : Z → D → Z * D;
  be_icc_mem : D → Z * D;
  be_icc_cfg : D → Z * D;
  be_alloc_bridge : D → bool * D;
  be_ecam_create : D → (Z + unit) * D;
  (** functions that went through the early fixups, and the result *)
  be_host_probe : D → list pci_dev * Z * D;
  (** functions fixed up by the rescan, then the functions of the bus walk *)
  be_rescan : D → list pci_dev * list pci_dev * D;
}.
Arguments be_io {_} _.
Arguments be_register {_} _ _.
Arguments be_pm_resume {_} _ _.
Arguments be_clk_enable {_} _ _ _.
Arguments be_icc_mem {_} _ _.
Arguments be_icc_cfg {_} _ _.
Arguments be_alloc_bridge {_} _ _.
Arguments be_ecam_create {_} _ _.
Arguments be_host_probe {_} _ _.
Arguments be_rescan {_} _ _.

(** ** The identity of the root port *)

Section validate.
Context {S : Type} (io : x1_pci0_io S).

(** [for (i = 0; i < ARRAY_SIZE(h); i++) h[i] = readl(cfg->win + 4 * i);] *)
Fixpoint header_words (offs : list Z) : M S (list Z) :=
  match offs with
  | [] => ret []
  | off :: offs =>
      let! v := x1_pr io X1_ROOT off in
      let! h := header_words offs in
      ret (v :: h)
  end.
Definition header_offsets : list Z := (λ i, 4 * Z.of_nat i) <$> seq 0 16.

Definition header_ok (h : list Z) : bool :=
  let w i := default 0 (h !! i) in
  (w 0%nat =? 0x011117cb) &&
  ((w 2%nat >> 8 =? PCI_CLASS_BRIDGE_PCI_NORMAL) || (w 2%nat =? 0xff000001)) &&
  ((w 3%nat >> 16) .& 0xff =? PCI_HEADER_TYPE_BRIDGE) &&
  tst (w 1%nat) (PCI_STATUS_CAP_LIST << 16).

(** A capability word: its identifier is refused, it is an acceptable PCIe
    root-port capability, or any other. *)
Definition cap_id_bad (cap : Z) : bool := (cap .& 0xff =? 0) || (cap .& 0xff =? 0xff).
Definition cap_is_exp (cap : Z) : bool := cap .& 0xff =? PCI_CAP_ID_EXP.
Definition exp_bad (cap ptr : Z) : bool :=
  let flags := cap >> 16 in
  (flags .& PCI_EXP_FLAGS_TYPE !=? PCI_EXP_TYPE_ROOT_PORT << 4) ||
  (flags .& PCI_EXP_FLAGS_VERS =? 0) || (2 <? flags .& PCI_EXP_FLAGS_VERS) || (0xc4 <? ptr).
Definition ptr_bad (ptr : Z) : bool := (ptr <? 0x40) || (0xfc <? ptr) || tst ptr 3.

(** [for (i = 0; ptr && i < 48; i++)] and the check after it; [more] is
    [48 - i], [seen] the bitmap of slots, [pcie] the capability found. *)
Fixpoint cap_walk (more : nat) (ptr seen pcie : Z) : M S Z :=
  if ptr =? 0 then (if pcie =? 0 then fail (-ENODEV) else ret pcie) else
  match more with
  | O => fail (-ENODEV)
  | Datatypes.S more =>
      if ptr_bad ptr || Z.testbit seen (ptr / 4 - 16) then fail (-EPROTO) else
      let! cap := x1_pr io X1_ROOT ptr in
      if cap_id_bad cap then fail (-EPROTO) else
      let next := (cap >> 8) .& 0xff in
      let seen := Z.setbit seen (ptr / 4 - 16) in
      if cap_is_exp cap then
        if (pcie !=? 0) || exp_bad cap ptr then fail (-ENODEV)
        else cap_walk more next seen ptr
      else cap_walk more next seen pcie
  end.

(** The class word of the validated header. *)
Definition root_identity : M S Z :=
  let! h := header_words header_offsets in
  if negb (header_ok h) then fail (-ENODEV) else
  do! cap_walk 48 (default 0 (h !! 13%nat) .& 0xff) 0 0 in
  ret (default 0 (h !! 2%nat)).
End validate.

(** ** The bridge *)

Record bworld (D : Type) := BWorld {
  registered : bool;
  registration_window : bool;
  registration_router : bool;
  bridge_owner : option x1_bridge;
  bw_dev : D;
}.
Arguments BWorld {_} _ _ _ _ _.
Arguments registered {_} _.
Arguments registration_window {_} _.
Arguments registration_router {_} _.
Arguments bridge_owner {_} _.
Arguments bw_dev {_} _.
#[export] Instance bworld_eta {D} : Eta (bworld D) := λ w,
  BWorld (registered w) (registration_window w) (registration_router w) (bridge_owner w) (bw_dev w).

Definition x1_root_fixup_class (pdev : pci_dev) (b : x1_bridge) : x1_bridge :=
  if negb (b_root_validated b) || negb (b_powered b) || (b_error b !=? 0) ||
     negb (pd_root_bus pdev) || negb (pd_ours pdev) ||
     (pd_domain pdev !=? 0) || (pd_bus pdev !=? 0) || (pd_devfn pdev !=? 0) ||
     (pd_vendor pdev !=? 0x17cb) || (pd_device pdev !=? 0x0111) ||
     (pd_hdr_type pdev !=? PCI_HEADER_TYPE_BRIDGE) || pd_multifunction pdev ||
     negb (pd_is_pcie pdev) || (pd_pcie_type pdev !=? PCI_EXP_TYPE_ROOT_PORT) ||
     (pd_class pdev !=? b_root_class b >> 8) || (pd_revision pdev !=? b_root_class b .& 0xff)
  then b else
  let class := if b_root_class b =? 0xff000001 then PCI_CLASS_BRIDGE_PCI_NORMAL
               else pd_class pdev in
  b <| b_root_fixup_done := class =? PCI_CLASS_BRIDGE_PCI_NORMAL |>.

Definition x1_native_nvme_allowed {D} (w : bworld D) (pdev : nat) : bool :=
  match bridge_owner w with
  | Some b => b_endpoint_validated b && bool_decide (b_endpoint b = Some pdev)
  | None => false
  end.

(** Whether a configuration access goes through: [root_bus] when the bus is the
    first of the window. *)
Definition x1_ecam_map {D} (w : bworld D) (root_bus : bool) (devfn where_ : Z) : bool :=
  match bridge_owner w with
  | None => false
  | Some b =>
      if negb (b_powered b) || (where_ <? 0) || (4096 <=? where_) then false else
      if root_bus then devfn =? 0 else b_downstream b
  end.

(** The functions of the bus walk, in order: NVMe functions, others, and the
    first NVMe function as the endpoint unless there is one. *)
Definition find_endpoint (s : Z * Z * option nat) (pdev : pci_dev) : Z * Z * option nat :=
  let '(nvmes, other, endpoint) := s in
  if pd_class pdev >> 8 =? PCI_CLASS_BRIDGE_PCI then s else
  if (pd_class pdev !=? PCI_CLASS_STORAGE_EXPRESS) || pd_driver pdev || (pd_domain pdev !=? 0)
  then (nvmes, u32 (other + 1), endpoint)
  else (u32 (nvmes + 1), other,
        match endpoint with None => Some (pd_id pdev) | _ => endpoint end).

Definition entry_allowed (g : gates) : bool :=
  negb (gt_hyp_mode g) && gt_board_allowed g && gt_nhi_complete g &&
  of_root_bool (gt_tree g) "birk,usb4-pci0-test" &&
  of_root_bool (gt_tree g) "birk,usb4-pci0-init-v23" &&
  x1_diag_disabled (gt_tree g) "/soc@0/pcie@1bf8000" &&
  x1_diag_disabled (gt_tree g) "/soc@0/pcie@1c08000".

Definition perr {A} (r : Z + A) : res A := match r with inl e => Err e | inr a => Ok a end.
Definition zerr (r : Z) : res unit := if r =? 0 then Ok tt else Err r.

Definition x1_bridge_init_resources (g : gates) (router : bool) (f : bridge_facts) : res unit :=
  if negb router || negb (bool_decide (bf_resource1 f = Some (0x1c28000, 0x8000))) ||
     negb (of_root_bool (gt_tree g) "birk,usb4-pci0-init-v23") then Err (-EPERM) else
  if (bf_clock_names f !=? 0) || (bf_clock_count f !=? 8) then Err (-EPERM) else
  let? _ := zerr (bf_clock_parse f) in
  if negb (bf_clock_valid f) then Err (-EPERM) else
  let? _ := zerr (bf_reset_parse f) in
  if negb (bf_reset_valid f) then Err (-EPERM) else
  let? _ := perr (bf_parf f) in
  let? _ := perr (bf_tunnel_reset f) in
  Ok tt.

(** Up to [bridge_owner = b]: nothing is powered. *)
Definition probe_checks (g : gates) (window router owned : bool) (f : bridge_facts) : res unit :=
  if negb window || negb (entry_allowed g) then Err (-EPERM) else
  if negb (bool_decide (bf_resource0 f = Some (0x400000000, 0x10000000))) ||
     negb (bool_decide (bf_domain f = Some 0)) then Err (-EINVAL) else
  if negb (bf_smmu_reserved f) then Err (-EPERM) else
  if owned then Err (-EBUSY) else
  if negb (bf_kzalloc f) then Err (-ENOMEM) else
  let? _ := x1_bridge_init_resources g router f in
  let? _ := rmap perr (bf_clocks f) in
  let? mem := perr (bf_icc_mem f) in
  let? cfg := perr (bf_icc_cfg f) in
  if negb mem || negb cfg then Err (-ENODEV) else Ok tt.

Section bridge.
Context {D : Type} (env : bridge_env D) (g : gates).
Abbreviation P := (M (x1_bridge * D)).

Definition bset (f : x1_bridge → x1_bridge) : P unit := modify (λ '(b, d), (f b, d)).
Definition bdev {A} (m : M D A) : P A := λ '(b, d), let (r, d) := m d in (r, (b, d)).
Definition bcall (f : D → Z * D) : P unit := bdev (try_ f).

Definition x1_root_validate : P unit :=
  let! class := bdev (root_identity (be_io env)) in
  bset (λ b, b <| b_root_cfg := true |> <| b_root_class := class |>
               <| b_root_validated := true |>).

(** [if (ret < 0) goto failed;] *)
Definition power_resume : P unit := bdev (λ d,
  let (r, d) := be_pm_resume env d in ((if r <? 0 then Err r else Ok tt), d)).

(** The PCI core runs the early fixup on each function it finds. *)
Definition host_probe : P unit := λ '(b, d),
  let '(devs, r, d) := be_host_probe env d in
  ((if r =? 0 then Ok tt else Err r), (foldl (λ b p, x1_root_fixup_class p b) b devs, d)).

(** From [b->attempted = true] to [return 0] or [failed:]. *)
Definition bridge_bring_up : P unit :=
  do! power_resume in
  do! for_each [0; 1; 2; 3; 4; 5; 6; 7] (λ i,
        do! bcall (be_clk_enable env i) in
        bset (λ b, b <| b_enabled := u32 (b_enabled b + 1) |>)) in
  do! bcall (be_icc_mem env) in
  do! bcall (be_icc_cfg env) in
  do! bset (λ b, b <| b_powered := true |>) in
  let! alloc := bdev (λ d, let (a, d) := be_alloc_bridge env d in (Ok a, d)) in
  if negb alloc then fail (-ENOMEM) else
  do! bdev (λ d, let (c, d) := be_ecam_create env d in (perr c, d)) in
  do! bset (λ b, b <| b_root_cfg := true |>) in
  do! bdev (x1_pci0_mode (be_io env)) in
  do! x1_root_validate in
  do! bdev (x1_pci0_setup (be_io env)) in
  do! x1_root_validate in
  do! host_probe in
  let! s := get in
  if negb (b_root_fixup_done s.1) then fail (-ENODEV) else
  bset (λ b, b <| b_ready := true |>).

(** [failed: b->error = ret; return 0;] *)
Definition x1_bridge_probe (f : bridge_facts) (w : bworld D) : bworld D :=
  match probe_checks g (registration_window w) (registration_router w)
          (match bridge_owner w with Some _ => true | None => false end) f with
  | Ok _ =>
      let '(r, (b, d)) := recording bridge_bring_up
                            (λ e '(b, d), (if e =? 0 then b else b <| b_error := e |>, d))
                            (bridge_zero <| b_attempted := true |>, bw_dev w) in
      w <| bridge_owner := Some b |> <| bw_dev := d |>
  | _ => w
  end.

(** The synchronous probes of [platform_driver_register] run inside it. *)
Definition x1_pcie_start (router : bool) : M (bworld D) unit := λ w,
  if negb router || negb (entry_allowed g) then (Err (-EPERM), w) else
  if registered w then (Err (-EALREADY), w) else
  let w := w <| registered := true |> <| registration_router := router |>
             <| registration_window := true |> in
  let '(devs, ret, d) := be_register env (bw_dev w) in
  let w := foldl (λ w f, x1_bridge_probe f w) (w <| bw_dev := d |>) devs in
  let w := w <| registration_window := false |> in
  if ret =? 0 then
    match bridge_owner w with
    | None => (Err (-ENODEV), w)
    | Some b => if b_ready b then (Ok tt, w) else
                if b_error b =? 0 then (Ok tt, w) else (Err (b_error b), w)
    end
  else (Err ret, w).

(** An entry point of the owner: the lock, then [b = bridge_owner]. *)
Definition with_owner (m : x1_bridge → P unit) : M (bworld D) unit := λ w,
  match bridge_owner w with
  | None => (Err (-EPERM), w)
  | Some b => let '(r, (b, d)) := m b (b, bw_dev w) in
              (r, w <| bridge_owner := Some b |> <| bw_dev := d |>)
  end.

(** [if (ret) b->error = ret;] *)
Definition keep_error (m : P unit) : P unit :=
  recording m (λ e '(b, d), (if e =? 0 then b else b <| b_error := e |>, d)).

Definition x1_pcie_train : M (bworld D) unit := with_owner (λ b,
  if negb (b_ready b) || (b_error b !=? 0) || b_train_attempted b || b_downstream b
  then fail (-EPERM) else
  do! bset (λ b, b <| b_train_attempted := true |>) in
  keep_error (
    do! bdev (x1_pci0_train (be_io env)) in
    do! bdev (x1_pci0_windows (be_io env)) in
    bset (λ b, b <| b_trained := true |>))).

Definition x1_bridge_msi_audit : P unit := bdev (do! x1_pci0_msi_audit (be_io env) in ret tt).

(** The rescan and the walk; the counts of the walk are local to the call. *)
Definition rescan : P (Z * Z) := λ '(b, d),
  let '(fixed, found, d) := be_rescan env d in
  let b := foldl (λ b p, x1_root_fixup_class p b) b fixed in
  let '(nvmes, other, endpoint) := foldl find_endpoint (0, 0, b_endpoint b) found in
  (Ok (nvmes, other), (b <| b_endpoint := endpoint |>, d)).

Definition x1_pcie_scan : M (bworld D) unit := with_owner (λ b,
  if negb (b_ready b) || negb (b_trained b) || (b_error b !=? 0) || b_downstream b
  then fail (-EPERM) else
  do! bset (λ b, b <| b_downstream := true |>) in
  keep_error (
    let! n := rescan in
    if (n.1 =? 1) && (n.2 =? 0) then
      do! x1_bridge_msi_audit in
      bset (λ b, b <| b_endpoint_validated := true |>)
    else fail (-ENODEV))).
End bridge.

(** ** The capability list as a data structure *)

Section chain.
Context (mem : Z → Z).

(** The list of slots a well-formed chain from [ptr] goes through. *)
Inductive chain : Z → list Z → Prop :=
| chain_end : chain 0 []
| chain_cap ptr l :
    ptr_bad ptr = false → cap_id_bad (mem ptr) = false →
    chain ((mem ptr >> 8) .& 0xff) l → chain ptr (ptr :: l).

(** A chain that visits no slot twice, with one PCIe capability, and that one
    a root port's. *)
Definition root_chain (ptr pcie : Z) : Prop := ∃ l,
  chain ptr l ∧ NoDup l ∧ filter (λ p, cap_is_exp (mem p) = true) l = [pcie] ∧
  exp_bad (mem pcie) pcie = false.

Definition slots : list Z := (λ i, 0x40 + 4 * Z.of_nat i) <$> seq 0 48.

Lemma ptr_slot p : ptr_bad p = false → p ∈ slots.
Proof.
  unfold ptr_bad. rewrite !orb_false_iff, !Z.ltb_ge. intros [[H1 H2] H3].
  unfold tst in H3. apply negb_false_iff, Z.eqb_eq in H3.
  assert (p mod 4 = 0) as Hm.
  { change (p mod 2 ^ 2 = 0). by rewrite <- Z.land_ones by lia. }
  apply list_elem_of_fmap. exists (Z.to_nat (p / 4 - 16)). split.
  - pose proof (Z.div_mod p 4). rewrite Z2Nat.id; [lia|].
    pose proof (Z.div_le_lower_bound p 4 16). lia.
  - apply elem_of_seq. pose proof (Z.div_le_lower_bound p 4 16).
    pose proof (Z.div_le_upper_bound p 4 63). lia.
Qed.

Lemma chain_slots ptr l : chain ptr l → Forall (λ p, ptr_bad p = false) l.
Proof. induction 1; by constructor. Qed.

(** There are 48 slots, so the loop's bound never cuts a chain short. *)
Lemma chain_bound ptr l : chain ptr l → NoDup l → (length l ≤ 48)%nat.
Proof.
  intros Hc Hn. change 48%nat with (length slots). apply submseteq_length, NoDup_submseteq; [done|].
  intros p Hp. apply ptr_slot. pose proof (chain_slots _ _ Hc) as Hs.
  rewrite Forall_forall in Hs. by apply Hs.
Qed.

Lemma slot_inj p q :
  ptr_bad p = false → ptr_bad q = false → p / 4 - 16 = q / 4 - 16 → p = q.
Proof.
  intros (i&->&_)%ptr_slot%list_elem_of_fmap (j&->&_)%ptr_slot%list_elem_of_fmap.
  rewrite !(Z.mul_comm 4), !Z.div_add by lia. change (0x40 / 4) with 16. lia.
Qed.

Context {S : Type} (io : x1_pci0_io S).
Context (Hmem : ∀ p, 0 ≤ mem p < 2 ^ 32) (Hio : ∀ off s, io_read io X1_ROOT off s = (mem off, s)).

Lemma static_read off (s : S) : x1_pr io X1_ROOT off s = (Ok (mem off), s).
Proof. unfold x1_pr. by rewrite Hio, u32_small. Qed.

Lemma fresh_after seen p l :
  ptr_bad p = false → Forall (λ q, ptr_bad q = false) l →
  (Forall (λ q, Z.testbit (Z.setbit seen (p / 4 - 16)) (q / 4 - 16) = false) l ↔
   p ∉ l ∧ Forall (λ q, Z.testbit seen (q / 4 - 16) = false) l).
Proof.
  intros Hp Hl. assert (0 ≤ p / 4 - 16) as Hpos.
  { apply ptr_slot, list_elem_of_fmap in Hp as (i&->&_).
    rewrite (Z.mul_comm 4), Z.div_add by lia. change (0x40 / 4) with 16. lia. }
  induction Hl as [|q l Hq Hl IH].
  { split; [|by constructor]. intros _. split; [apply not_elem_of_nil|constructor]. }
  rewrite !Forall_cons, IH, not_elem_of_cons, Z.setbit_eqb by done.
  destruct (Z.eqb_spec (p / 4 - 16) (q / 4 - 16)) as [E|E]; simpl.
  - apply slot_inj in E as ->; [|done..]. split; [by intros [? _]|by intros [[? _] _]].
  - assert (p ≠ q) by (intros ->; done). tauto.
Qed.

Definition is_exp (p : Z) : Prop := cap_is_exp (mem p) = true.
#[local] Instance is_exp_dec p : Decision (is_exp p).
Proof. unfold is_exp. apply _. Defined.

(** What the walk accepts from a state of the loop. *)
Definition walk_ok (more : nat) (ptr seen pcie p : Z) : Prop := ∃ l,
  chain ptr l ∧ NoDup l ∧ Forall (λ q, Z.testbit seen (q / 4 - 16) = false) l ∧
  (length l ≤ more)%nat ∧
  if pcie =? 0 then filter is_exp l = [p] ∧ exp_bad (mem p) p = false
  else filter is_exp l = [] ∧ p = pcie.

Lemma chain_zero l : chain 0 l → l = [].
Proof. by inversion 1. Qed.
Lemma chain_inv ptr l :
  chain ptr l → ptr ≠ 0 → ∃ l', l = ptr :: l' ∧ ptr_bad ptr = false ∧
    cap_id_bad (mem ptr) = false ∧ chain ((mem ptr >> 8) .& 0xff) l'.
Proof. inversion 1; [done|]. eauto. Qed.

Lemma walk_ok_zero more seen pcie p :
  walk_ok more 0 seen pcie p ↔ pcie ≠ 0 ∧ p = pcie.
Proof.
  split.
  - intros (l&->%chain_zero&_&_&_&H). destruct (Z.eqb_spec pcie 0); [by destruct H|by destruct H].
  - intros [Hn ->]. exists []. apply Z.eqb_neq in Hn. rewrite Hn.
    split_and!; try done; [constructor..|simpl; lia].
Qed.

(** One capability further. *)
Lemma walk_ok_cap more ptr seen pcie p :
  ptr ≠ 0 → ptr_bad ptr = false → Z.testbit seen (ptr / 4 - 16) = false →
  cap_id_bad (mem ptr) = false →
  (cap_is_exp (mem ptr) = true → pcie = 0 ∧ exp_bad (mem ptr) ptr = false) →
  walk_ok (Datatypes.S more) ptr seen pcie p ↔
  walk_ok more ((mem ptr >> 8) .& 0xff) (Z.setbit seen (ptr / 4 - 16))
    (if cap_is_exp (mem ptr) then ptr else pcie) p.
Proof.
  intros Hp Hb Hs Hi He. pose proof (proj2 (Z.eqb_neq _ _) Hp) as Hp0.
  assert (∀ l, filter is_exp (ptr :: l) =
    if cap_is_exp (mem ptr) then ptr :: filter is_exp l else filter is_exp l) as Hf.
  { intros l. destruct (cap_is_exp (mem ptr)) eqn:Ee;
      [by rewrite filter_cons_True|rewrite filter_cons_False; [done|]].
    unfold is_exp. by rewrite Ee. }
  split.
  - intros (l&Hc&Hn&Hd&Hl&Hr). apply chain_inv in Hc as (l'&->&_&_&Hc); [|done].
    apply NoDup_cons in Hn as [Hn1 Hn2]. apply Forall_cons in Hd as [_ Hd].
    exists l'. split; [done|]. split; [done|]. split; [|split; [simpl in Hl; lia|]].
    + apply fresh_after; [done|by eapply chain_slots|done].
    + rewrite Hf in Hr. destruct (cap_is_exp (mem ptr)); [|done].
      destruct (He eq_refl) as [-> He']. rewrite Hp0. simpl in Hr.
      destruct Hr as [[= -> Hr] _]. done.
  - intros (l&Hc&Hn&Hd&Hl&Hr). apply fresh_after in Hd as [Hn1 Hd]; [|done|by eapply chain_slots].
    exists (ptr :: l). split; [by constructor|]. split; [by constructor|].
    split; [by constructor|]. split; [simpl; lia|]. rewrite Hf.
    destruct (cap_is_exp (mem ptr)); [|done]. destruct (He eq_refl) as [-> He'].
    rewrite Hp0 in Hr. destruct Hr as [-> ->]. done.
Qed.

Lemma cap_walk_chain more ptr seen pcie p s :
  cap_walk io more ptr seen pcie s = (Ok p, s) ↔ walk_ok more ptr seen pcie p.
Proof.
  revert ptr seen pcie. induction more as [|more IH]; intros ptr seen pcie; cbn [cap_walk];
    destruct (Z.eqb_spec ptr 0) as [->|Hp].
  1,3: rewrite walk_ok_zero; destruct (Z.eqb_spec pcie 0);
    (split; [by intros [=]|by intros [? ->]]).
  - split; [done|]. intros (l&Hc&_&_&Hl&_). apply chain_inv in Hc as (l'&->&_); [|done].
    simpl in Hl. lia.
  - assert (∀ A : Prop, ¬ A → ((Err (-EPROTO) : res Z, s) = (Ok p, s) ↔ A)) as Hno
      by (intros A HA; split; [done|by intros ?]).
    assert (∀ A : Prop, ¬ A → ((Err (-ENODEV) : res Z, s) = (Ok p, s) ↔ A)) as Hno'
      by (intros A HA; split; [done|by intros ?]).
    destruct (ptr_bad ptr || Z.testbit seen (ptr / 4 - 16)) eqn:Eb.
    { apply Hno. intros (l&Hc&_&Hd&_). apply chain_inv in Hc as (l'&->&Hb&_); [|done].
      apply Forall_cons in Hd as [Hd _]. by rewrite Hb, Hd in Eb. }
    apply orb_false_iff in Eb as [Hb Hs]. unfold bind. rewrite static_read.
    destruct (cap_id_bad (mem ptr)) eqn:Ei.
    { apply Hno. intros (l&Hc&_). apply chain_inv in Hc as (l'&_&_&?&_); [congruence|done]. }
    destruct (cap_is_exp (mem ptr)) eqn:Ee.
    + destruct ((pcie !=? 0) || exp_bad (mem ptr) ptr) eqn:Ex.
      * apply Hno'. intros (l&Hc&_&_&_&Hr). apply chain_inv in Hc as (l'&->&_); [|done].
        rewrite filter_cons_True in Hr by done. destruct (Z.eqb_spec pcie 0); [|by destruct Hr].
        destruct Hr as [[= -> _] Hr]. by rewrite Hr in Ex.
      * apply orb_false_iff in Ex as [Ex1%negb_false_iff%Z.eqb_eq Ex2].
        rewrite IH, (walk_ok_cap more ptr seen pcie p) by auto. by rewrite Ee.
    + rewrite IH, (walk_ok_cap more ptr seen pcie p) by (try done; congruence). by rewrite Ee.
Qed.
End chain.

(** Reading the identity writes nothing, whatever the device answers, and
    cannot run outside the configuration header and capability space. *)
Definition identity_read (e : pci_event) : Prop :=
  match e with PRead X1_ROOT off _ => 0 ≤ off ≤ 0xfc ∧ off mod 4 = 0 | _ => False end.

Lemma emits_identity {S} (io : x1_pci0_io S) : emits identity_read (root_identity (logging_io io)).
Proof.
  assert (∀ offs, Forall (λ o, 0 ≤ o ≤ 0xfc ∧ o mod 4 = 0) offs →
    emits identity_read (header_words (logging_io io) offs)) as Hh.
  { induction 1 as [|o l Ho Hl IH]; cbn [header_words]; unfold emits in *; keeps_auto.
    by apply emits_pr. }
  assert (∀ n p sn c, emits identity_read (cap_walk (logging_io io) n p sn c)) as Hw.
  { induction n as [|n IH]; intros p sn c; cbn [cap_walk]; unfold emits in *; keeps_auto;
      try apply IH.
    apply emits_pr. intros v.
    match goal with H : _ || _ = false |- _ => apply orb_false_iff in H as [Hb _] end.
    apply ptr_slot, list_elem_of_fmap in Hb as (i&->&Hi%elem_of_seq). simpl.
    split; [lia|]. rewrite (Z.mul_comm 4), Z.mod_add by lia. done. }
  unfold root_identity. apply keeps_bind; [apply _|apply Hh|].
  { apply (bool_decide_unpack _). vm_compute. done. }
  intros h. destruct (negb _); [apply keeps_fail, _|].
  apply keeps_bind; [apply _|apply Hw|]. intros _. apply keeps_ret, _.
Qed.

Section identity.
Context (mem : Z → Z) {S : Type} (io : x1_pci0_io S).
Context (Hmem : ∀ p, 0 ≤ mem p < 2 ^ 32) (Hio : ∀ off s, io_read io X1_ROOT off s = (mem off, s)).

Lemma header_static offs s : header_words io offs s = (Ok (mem <$> offs), s).
Proof.
  induction offs as [|o l IH]; [done|]. cbn [header_words fmap list_fmap]. unfold bind.
  rewrite (static_read mem io Hmem Hio), IH. done.
Qed.

Lemma cap_walk_static n p sn c s : (cap_walk io n p sn c s).2 = s.
Proof.
  revert p sn c. induction n as [|n IH]; intros p sn c; cbn [cap_walk];
    (destruct (p =? 0); [by destruct (c =? 0)|]); [done|].
  destruct (_ || _); [done|]. unfold bind. rewrite (static_read mem io Hmem Hio).
  destruct (cap_id_bad _); [done|]. destruct (cap_is_exp _); [destruct (_ || _); [done|]|]; apply IH.
Qed.

(** C35. The identity check of the root port, on every configuration space that
    stays as it is while it is read: it succeeds exactly for vendor and device
    17cb:0111 with a type 1 header, a bridge class (or the one raw class this
    board shows), and a capability list that is a proper list — every pointer
    aligned and in range, no slot visited twice, no reserved identifier — with
    exactly one PCI Express capability, and that one a root port's of version 1
    or 2.  The bound of 48 steps cuts off no such list.  On any device at all
    the check only reads, and only the first 256 bytes. *)
Theorem root_identity_exact class s c :
  (root_identity io s = (Ok class, s) ↔
     mem 0 = 0x011117cb ∧
     (mem 8 >> 8 = PCI_CLASS_BRIDGE_PCI_NORMAL ∨ mem 8 = 0xff000001) ∧
     (mem 12 >> 16) .& 0xff = PCI_HEADER_TYPE_BRIDGE ∧
     tst (mem 4) 0x100000 = true ∧ class = mem 8 ∧
     ∃ pcie, root_chain mem (mem 0x34 .& 0xff) pcie) ∧
  (∃ t, (root_identity (logging_io io) c).2.2 = c.2 ++ t ∧ Forall identity_read t).
Proof.
  split; [|apply (emits_identity io c)].
  unfold root_identity. remember 48%nat as n eqn:Hn48. unfold bind. rewrite header_static.
  assert (∀ p, (∃ q, walk_ok mem n p 0 0 q) ↔ ∃ q, root_chain mem p q) as Hw.
  { intros p. split.
    - intros (q&l&Hc&Hn&_&_&Hr). exists q, l. split; [done|]. split; [done|]. exact Hr.
    - intros (q&l&Hc&Hn&Hr). exists q, l. split; [done|]. split; [done|].
      split; [apply Forall_true; intros; apply Z.bits_0|].
      split; [subst n; by eapply chain_bound|exact Hr]. }
  clear Hn48.
  change (mem <$> header_offsets) with
    [mem 0; mem 4; mem 8; mem 12; mem 16; mem 20; mem 24; mem 28; mem 32; mem 36; mem 40; mem 44;
     mem 48; mem 52; mem 56; mem 60].
  unfold header_ok. cbn [lookup list_lookup default from_option id].
  change (PCI_STATUS_CAP_LIST << 16) with 0x100000. change 0x34 with 52. change 0xff with 255.
  rewrite <- Hw. destruct (negb _) eqn:Eh; simpl.
  - split; [done|]. intros (H0&H2&H3&H1&_). apply negb_true_iff in Eh.
    rewrite H0, H1, H3 in Eh. simpl in Eh.
    rewrite !andb_true_r in Eh. apply orb_false_iff in Eh as [E1%Z.eqb_neq E2%Z.eqb_neq].
    by destruct H2.
  - apply negb_false_iff in Eh. rewrite !andb_true_iff, orb_true_iff, !Z.eqb_eq in Eh.
    destruct Eh as [[[H0 H2] H3] H1].
    pose proof (cap_walk_static n (mem 52 .& 255) 0 0 s) as Es.
    pose proof (λ q, cap_walk_chain mem io Hmem Hio n (mem 52 .& 255) 0 0 q s) as Hq.
    destruct (cap_walk io n (mem 52 .& 255) 0 0 s) as [r s'] eqn:Ew. simpl in Es. subst s'.
    destruct r as [q|e|]; simpl.
    + split; [intros [= <-]|by intros (_&_&_&_&->&_)].
      split_and!; try done. exists q. by apply Hq.
    + split; [done|]. intros (_&_&_&_&_&q&Hwk). by apply Hq in Hwk.
    + split; [done|]. intros (_&_&_&_&_&q&Hwk). by apply Hq in Hwk.
Qed.
End identity.

(** ** The life of the bridge *)

Definition class_ok (c : Z) : Prop := c >> 8 = PCI_CLASS_BRIDGE_PCI_NORMAL ∨ c = 0xff000001.

Record bridge_ok (b : x1_bridge) : Prop := {
  bi_ready : b_ready b = true → b_attempted b = true ∧ b_powered b = true ∧
    b_root_validated b = true ∧ b_root_fixup_done b = true ∧ b_enabled b = 8;
  bi_class : b_root_validated b = true → class_ok (b_root_class b);
  bi_attempt : b_train_attempted b = true → b_ready b = true;
  bi_trained : b_trained b = true → b_train_attempted b = true;
  bi_downstream : b_downstream b = true → b_trained b = true;
  bi_endpoint : b_endpoint b ≠ None → b_downstream b = true;
  bi_validated : b_endpoint_validated b = true →
    b_downstream b = true ∧ b_error b = 0 ∧ b_endpoint b ≠ None;
}.

Lemma identity_class {S} (io : x1_pci0_io S) s class s' :
  root_identity io s = (Ok class, s') → class_ok class.
Proof.
  unfold root_identity. intros E. apply bind_ok_inv in E as (h&s1&_&E).
  destruct (negb (header_ok h)) eqn:Eh; [done|]. apply bind_ok_inv in E as (p&s2&_&E).
  injection E as <- _. apply negb_false_iff in Eh. unfold header_ok in Eh.
  rewrite !andb_true_iff, orb_true_iff, !Z.eqb_eq in Eh. apply Eh.
Qed.

(** With a validated class the fixup can only set its flag. *)
Lemma fixup_cases p b :
  bridge_ok b → x1_root_fixup_class p b = b ∨
    b_root_validated b = true ∧ x1_root_fixup_class p b = b <| b_root_fixup_done := true |>.
Proof.
  intros Hb. unfold x1_root_fixup_class. destruct (_ || _) eqn:E; [by left|right].
  repeat match goal with
  | H : _ || _ = false |- _ => apply orb_false_iff in H as [? ?]
  | H : negb _ = false |- _ => apply negb_false_iff in H
  | H : (_ =? _) = true |- _ => apply Z.eqb_eq in H
  end.
  split; [done|]. destruct (bi_class b Hb) as [Hc|Hc]; [done|..].
  - destruct (b_root_class b =? 0xff000001); [done|].
    assert (pd_class p = PCI_CLASS_BRIDGE_PCI_NORMAL) as -> by congruence. done.
  - by rewrite Hc.
Qed.

Definition fixups (devs : list pci_dev) (b : x1_bridge) : x1_bridge :=
  foldl (λ b p, x1_root_fixup_class p b) b devs.

Lemma fixups_cases devs b :
  bridge_ok b → fixups devs b = b ∨
    b_root_validated b = true ∧ fixups devs b = b <| b_root_fixup_done := true |>.
Proof.
  unfold fixups. revert b. induction devs as [|p devs IH]; intros b Hb; [by left|]. simpl.
  destruct (fixup_cases p b Hb) as [->|[Hv ->]]; [by apply IH|].
  assert (bridge_ok (b <| b_root_fixup_done := true |>)) as Hb'.
  { destruct Hb as [H1 H2 H3 H4 H5 H6 H7]. split; cbn; try done.
    intros Hr. destruct (H1 Hr) as (?&?&?&?&?). done. }
  destruct (IH _ Hb') as [->|[_ ->]]; right; done.
Qed.

(** Before the bridge is ready. *)
Definition cold (b : x1_bridge) : Prop :=
  b_attempted b = true ∧ b_ready b = false ∧ b_trained b = false ∧ b_train_attempted b = false ∧
  b_downstream b = false ∧ b_endpoint b = None ∧ b_endpoint_validated b = false ∧
  (b_root_validated b = true → class_ok (b_root_class b)).

Lemma cold_ok b e : cold b → bridge_ok (b <| b_error := e |>) ∧ bridge_ok b.
Proof.
  intros (H1&H2&H3&H4&H5&H6&H7&H8). split; split; cbn; rewrite ?H2, ?H3, ?H4, ?H5, ?H6, ?H7; done.
Qed.

Definition staged (n : Z) (powered valid : bool) (b : x1_bridge) : Prop :=
  cold b ∧ b_enabled b = n ∧ (powered = true → b_powered b = true) ∧
  (valid = true → b_root_validated b = true).

Section life.
Context {D : Type} (env : bridge_env D).
Definition on_b (P : x1_bridge → Prop) (s : x1_bridge * D) : Prop := P s.1.
Abbreviation up P m Q := (spec (on_b P) m (λ _, on_b Q) (on_b cold)).

Lemma up_dev {A} (P : x1_bridge → Prop) (m : M D A) :
  (∀ b, P b → cold b) → up P (bdev m) P.
Proof.
  intros Hc [b d] Hp. unfold bdev. destruct (m d) as [[a|e|] d']; [done|by apply Hc..].
Qed.

Lemma up_set (P Q : x1_bridge → Prop) f :
  (∀ b, P b → Q (f b)) → up P (bset (D:=D) f) Q.
Proof. intros Hf [b d] Hp. by apply Hf. Qed.

Lemma up_seq {A B} (P R Q : x1_bridge → Prop) (m : M (x1_bridge * D) A)
    (k : A → M (x1_bridge * D) B) :
  up P m R → (∀ a, up R (k a) Q) → up P (bind m k) Q.
Proof. intros Hm Hk. eapply spec_bind; [exact Hm|]. intros a. apply Hk. Qed.

Lemma staged_cold n p v b : staged n p v b → cold b.
Proof. by intros [? _]. Qed.

Lemma up_clocks n l : 0 ≤ n → n + Z.of_nat (length l) < 2 ^ 32 →
  up (staged n false false)
    (for_each l (λ i, do! bcall (be_clk_enable env i) in
                      bset (λ b, b <| b_enabled := u32 (b_enabled b + 1) |>)))
    (staged (n + Z.of_nat (length l)) false false).
Proof.
  revert n. induction l as [|i l IH]; intros n Hn Hl; cbn [for_each].
  - intros s Hs. cbn. by rewrite Z.add_0_r.
  - cbn [length] in *. apply (up_seq _ (staged (n + 1) false false)).
    + eapply up_seq; [apply up_dev, staged_cold|]. intros _. apply up_set.
      intros b (Hc&He&H1&H2). split; [exact Hc|]. cbn. rewrite He, u32_small by lia. done.
    + intros _. replace (n + Z.of_nat (S (length l))) with (n + 1 + Z.of_nat (length l)) by lia.
      apply IH; lia.
Qed.

Lemma up_validate p :
  up (staged 8 p false) (x1_root_validate env) (staged 8 p true).
Proof.
  intros [b d] (Hc&He&Hp&_). unfold x1_root_validate, bind, bdev.
  destruct (root_identity (be_io env) d) as [[class|e|] d'] eqn:E; [|done..].
  apply identity_class in E. unfold bset, modify, on_b. cbn [fst].
  destruct Hc as (H1&H2&H3&H4&H5&H6&H7&H8).
  split; [|done]. unfold cold. cbn. split_and!; done.
Qed.

Lemma up_bring_up :
  spec (on_b (staged 0 false false)) (bridge_bring_up env)
    (λ _, on_b (λ b, bridge_ok b ∧ b_train_attempted b = false)) (on_b cold).
Proof.
  unfold bridge_bring_up.
  assert (∀ n p v b, staged n p v b → cold b) as Hcold by (intros *; apply staged_cold).
  eapply (up_seq _ (staged 0 false false)); [by apply up_dev, Hcold|intros _].
  eapply (up_seq _ (staged 8 false false)); [apply (up_clocks 0); simpl; lia|intros _].
  do 2 (eapply (up_seq _ (staged 8 false false)); [by apply up_dev, Hcold|intros _]).
  eapply (up_seq _ (staged 8 true false)).
  { apply up_set. by intros b (Hc&He&_&Hv). }
  intros _. eapply (up_seq _ (staged 8 true false)); [by apply up_dev, Hcold|intros alloc].
  destruct (negb alloc); [intros s Hs; by eapply Hcold|].
  eapply (up_seq _ (staged 8 true false)); [by apply up_dev, Hcold|intros _].
  eapply (up_seq _ (staged 8 true false)); [by apply up_set|intros _].
  eapply (up_seq _ (staged 8 true false)); [by apply up_dev, Hcold|intros _].
  eapply (up_seq _ (staged 8 true true)); [apply up_validate|intros _].
  eapply (up_seq _ (staged 8 true false)).
  { intros s (Hc&He&Hp&_). eapply (up_dev (staged 8 true false)); [apply Hcold|]. by split. }
  intros _. eapply (up_seq _ (staged 8 true true)); [apply up_validate|intros _].
  eapply (up_seq _ (staged 8 true true)).
  { intros [b d] Hs. unfold host_probe. destruct (be_host_probe env d) as [[devs r] d'].
    fold (fixups devs b). pose proof (proj2 (cold_ok b 0 (staged_cold _ _ _ _ Hs))) as Hok.
    assert (staged 8 true true (fixups devs b)) as Hf.
    { destruct (fixups_cases devs b Hok) as [->|[_ ->]]; done. }
    destruct (r =? 0); [exact Hf|]. by eapply Hcold. }
  intros _ [b d] Hs. unfold bind, get. cbn [fst].
  destruct (b_root_fixup_done b) eqn:Ef; [|by eapply Hcold]. unfold bset, modify, on_b. cbn.
  destruct Hs as ((H1&H2&H3&H4&H5&H6&H7&H8)&He&Hp&Hv).
  cbn [fst] in *. split; [|done]. split; cbn; rewrite ?H3, ?H4, ?H5, ?H6, ?H7; try done.
  intros _. auto.
Qed.

(** Once registered, never again; the owner's record is well formed. *)
Definition world_ok (w : bworld D) : Prop :=
  match bridge_owner w with Some b => bridge_ok b ∧ registered w = true | None => True end.

(** No bridge, or one that nobody has tried to train. *)
Definition untrained (w : bworld D) : Prop :=
  ∀ b, bridge_owner w = Some b → b_train_attempted b = false.

Lemma probe_ok g f w :
  world_ok w → registered w = true → world_ok (x1_bridge_probe env g f w) ∧
  registered (x1_bridge_probe env g f w) = true ∧
  (untrained w → untrained (x1_bridge_probe env g f w)).
Proof.
  intros Hw Hr. unfold x1_bridge_probe. destruct (probe_checks _ _ _ _ _); [|done..].
  pose proof (up_bring_up (bridge_zero <| b_attempted := true |>, bw_dev w)) as Hu.
  unfold recording.
  assert (∀ b : x1_bridge, bridge_ok b ∧ b_train_attempted b = false → ∀ d,
    let w' := w <| bridge_owner := Some b |> <| bw_dev := d |> in
    world_ok w' ∧ registered w' = true ∧ (untrained w → untrained w')) as Hdone.
  { intros b [Hb Ht] d. split; [done|]. split; [done|]. by intros _ ? [= <-]. }
  assert (∀ b e, cold b → let b' := if e =? 0 then b else b <| b_error := e |> in
    bridge_ok b' ∧ b_train_attempted b' = false) as Hcold.
  { intros b e Hc. destruct (cold_ok b e Hc). destruct Hc as (_&_&_&?&_). by destruct (e =? 0). }
  destruct (bridge_bring_up env _) as [[[]|e|] [b d]]; apply Hdone; [by apply Hu|..].
  - apply Hcold. by apply Hu.
  - apply (Hcold b 0). by apply Hu.
Qed.

Lemma pcie_start_ok g router w :
  world_ok w → world_ok (x1_pcie_start env g router w).2 ∧
  (untrained w → untrained (x1_pcie_start env g router w).2).
Proof.
  intros Hw. unfold x1_pcie_start. destruct (_ || _); [done|].
  destruct (registered w) eqn:Er; [done|]. cbn [bw_dev set_field].
  destruct (be_register env (bw_dev w)) as [[devs r] d].
  set (w1 := w <| registered := true |> <| registration_router := router |>
               <| registration_window := true |> <| bw_dev := d |>).
  assert (world_ok w1 ∧ registered w1 = true) as H1.
  { unfold world_ok, w1 in *. cbn. destruct (bridge_owner w); [|done]. destruct Hw. congruence. }
  assert (world_ok (foldl (λ w f, x1_bridge_probe env g f w) w1 devs) ∧
    (untrained w1 → untrained (foldl (λ w f, x1_bridge_probe env g f w) w1 devs))) as H2.
  { clearbody w1. revert w1 H1. induction devs as [|f devs IH]; intros w1 [H1 H1']; [done|].
    cbn [foldl]. destruct (probe_ok g f w1 H1 H1') as (P1&P2&P3).
    destruct (IH _ (conj P1 P2)) as [I1 I2]. auto. }
  assert (untrained w1 ↔ untrained w) as Hu by done. rewrite Hu in H2. clearbody w1.
  destruct (foldl _ w1 devs) as [rg rw rr o dv]. unfold world_ok, untrained in *. cbn in *.
  destruct (r =? 0); [|done]. destruct o as [b|]; [|done].
  destruct (b_ready b); [done|]. by destruct (b_error b =? 0).
Qed.

Lemma owner_ok m w :
  (∀ b d, bridge_ok b → bridge_ok (m b (b, d)).2.1) →
  world_ok w → world_ok (with_owner (D:=D) m w).2.
Proof.
  intros Hm Hw. unfold with_owner, world_ok in *. destruct (bridge_owner w) as [b|] eqn:Eo; [|cbn; by rewrite Eo].
  destruct Hw as [Hb Hr]. specialize (Hm b (bw_dev w) Hb).
  destruct (m b (b, bw_dev w)) as [r [b' d']]. done.
Qed.

Lemma train_ok w : world_ok w → world_ok (x1_pcie_train env w).2.
Proof.
  apply owner_ok. intros b d Hb. destruct (_ || _) eqn:Eg; [done|].
  rewrite !orb_false_iff, !negb_false_iff in Eg. destruct Eg as [[[Hr He] Ha] Hd].
  unfold bind at 1. unfold bset at 1, modify at 1, keep_error, recording, bind, bdev.
  destruct Hb as [H1 H2 H3 H4 H5 H6 H7].
  destruct (x1_pci0_train _ _) as [[[]|e|] d1]; cbn [snd fst].
  - destruct (x1_pci0_windows _ _) as [[[]|e|] d2]; cbn [snd fst code].
    + split; cbn; done.
    + destruct (e =? 0); split; cbn; try done; intros Hv; destruct (H7 Hv); congruence.
    + split; cbn; try done.
  - cbn [code]. destruct (e =? 0); split; cbn; try done; intros Hv; destruct (H7 Hv); congruence.
  - split; cbn; done.
Qed.

(** *** The scan *)

Definition is_nvme (p : pci_dev) : bool :=
  (pd_class p =? PCI_CLASS_STORAGE_EXPRESS) && negb (pd_driver p) && (pd_domain p =? 0).
Definition is_bridge (p : pci_dev) : bool := pd_class p >> 8 =? PCI_CLASS_BRIDGE_PCI.

(** An NVMe class is not a bridge class. *)
Lemma nvme_not_bridge p : is_nvme p = true → is_bridge p = false.
Proof.
  unfold is_nvme, is_bridge. rewrite !andb_true_iff, !Z.eqb_eq. by intros [[-> _] _].
Qed.

Lemma find_step n o e p :
  find_endpoint (n, o, e) p =
  if is_bridge p then (n, o, e) else
  if is_nvme p then (u32 (n + 1), o, match e with None => Some (pd_id p) | _ => e end)
  else (n, u32 (o + 1), e).
Proof.
  unfold find_endpoint, is_bridge, is_nvme. destruct (_ =? PCI_CLASS_BRIDGE_PCI); [done|].
  destruct (pd_class p =? _), (pd_driver p), (pd_domain p =? 0); done.
Qed.

(** No endpoint means that no NVMe function was counted. *)
Lemma find_none l n o e :
  (foldl find_endpoint (n, o, e) l).2 = None → (foldl find_endpoint (n, o, e) l).1.1 = n ∧ e = None.
Proof.
  revert n o e. induction l as [|p l IH]; intros n o e; [done|]. cbn [foldl]. rewrite find_step.
  destruct (is_bridge p); [apply IH|]. destruct (is_nvme p); [|apply IH].
  intros H. apply IH in H as [_ H]. by destruct e.
Qed.

(** Counting without wrap-around. *)
Lemma find_counts l n o e :
  0 ≤ n → 0 ≤ o → n + o + Z.of_nat (length l) < 2 ^ 32 →
  let nv := filter (λ p, is_nvme p = true) l in
  let ot := filter (λ p, is_nvme p = false ∧ is_bridge p = false) l in
  foldl find_endpoint (n, o, e) l =
    (n + Z.of_nat (length nv), o + Z.of_nat (length ot),
     match e with None => pd_id <$> head nv | _ => e end).
Proof.
  cbv zeta. revert n o e. induction l as [|p l IH]; intros n o e Hn Ho Hl.
  { simpl. rewrite !Z.add_0_r. by destruct e. }
  cbn [foldl length] in *. rewrite find_step. destruct (is_bridge p) eqn:Eb.
  - assert (is_nvme p = false) as En
      by (destruct (is_nvme p) eqn:En; [apply nvme_not_bridge in En; congruence|done]).
    rewrite IH by lia. rewrite !filter_cons_False by (rewrite ?En, ?Eb; naive_solver). done.
  - destruct (is_nvme p) eqn:En.
    + rewrite u32_small by lia. rewrite IH by lia. rewrite filter_cons_True by done.
      rewrite filter_cons_False by (rewrite En; naive_solver). cbn [length].
      f_equal; [f_equal; lia|]. by destruct e.
    + rewrite u32_small by lia. rewrite IH by lia. rewrite filter_cons_False by (rewrite En; done).
      rewrite filter_cons_True by done. cbn [length]. f_equal. f_equal; lia.
Qed.

Lemma scan_ok w : world_ok w → world_ok (x1_pcie_scan env w).2.
Proof.
  apply owner_ok. intros b d Hb. destruct (_ || _) eqn:Eg; [done|].
  rewrite !orb_false_iff, !negb_false_iff in Eg. destruct Eg as [[[Hr Ht] He%Z.eqb_eq] Hd].
  assert (b_endpoint b = None) as Hen
    by (destruct (b_endpoint b) eqn:E; [|done]; rewrite (bi_endpoint b Hb) in Hd by (by rewrite E); done).
  assert (bridge_ok (b <| b_downstream := true |>)) as Hb1.
  { destruct Hb as [H1 H2 H3 H4 H5 H6 H7]. split; cbn; try done.
    intros Hv. destruct (H7 Hv) as (?&?&?). done. }
  unfold bind at 1. unfold bset at 1, modify at 1. set (b1 := b <| b_downstream := true |>) in *.
  unfold keep_error, recording, bind, rescan. destruct (be_rescan env d) as [[fixed found] d1].
  fold (fixups fixed b1).
  assert (bridge_ok (fixups fixed b1) ∧ b_endpoint (fixups fixed b1) = None ∧
    b_downstream (fixups fixed b1) = true ∧ b_error (fixups fixed b1) = 0) as (Hb2&He2&Hd2&Hr2).
  { destruct (fixups_cases fixed b1 Hb1) as [->|[_ E]]; [done|]. rewrite E.
    split; [|done]. destruct Hb1 as [H1 H2 H3 H4 H5 H6 H7]. split; cbn; try done.
    intros Hy. by destruct (H1 Hy) as (?&?&?&?&?). }
  set (b2 := fixups fixed b1) in *. rewrite He2.
  pose proof (find_none found 0 0 None) as Hf.
  destruct (foldl find_endpoint (0, 0, None) found) as [[nv ot] en]. cbn [fst snd] in *.
  clearbody b2. destruct Hb2 as [H1 H2 H3 H4 H5 H6 H7].
  destruct ((nv =? 1) && (ot =? 0)) eqn:Ec.
  - apply andb_true_iff in Ec as [->%Z.eqb_eq _].
    assert (en ≠ None) as Hn by (intros ->; by destruct (Hf eq_refl)).
    unfold x1_bridge_msi_audit, bdev, bind, bset, modify, ret.
    destruct (x1_pci0_msi_audit _ _) as [[v|e|] d2]; cbn [fst snd code].
    + split; cbn; done.
    + destruct (e =? 0); split; cbn; try done; intros Hv; destruct (H7 Hv) as (?&?&?); done.
    + split; cbn; try done; intros Hv; destruct (H7 Hv) as (?&?&?); done.
  - cbn [fst snd code fail]. split; cbn; try done; intros Hv; destruct (H7 Hv) as (?&?&?); done.
Qed.
End life.

(** ** The properties *)

Inductive bop := BStart (g : gates) (router : bool) | BTrain | BScan.

Section gated.
Context {D : Type} (env : bridge_env D).

Definition bstep (op : bop) : M (bworld D) unit :=
  match op with
  | BStart g router => x1_pcie_start env g router
  | BTrain => x1_pcie_train env
  | BScan => x1_pcie_scan env
  end.
Definition brun (ops : list bop) (w : bworld D) : bworld D := foldl (λ w op, (bstep op w).2) w ops.
Definition bboot (d : D) : bworld D := BWorld false false false None d.

Lemma brun_ok ops w : world_ok w → world_ok (brun ops w).
Proof.
  revert w. induction ops as [|op ops IH]; intros w Hw; [done|]. cbn [brun foldl]. apply IH.
  destruct op; cbn [bstep]; [by apply pcie_start_ok|by apply train_ok|by apply scan_ok].
Qed.

Lemma settled b w op :
  bridge_owner w = Some b → registered w = true → b_train_attempted b = true →
  b_downstream b = true → (bstep op w).2 = w.
Proof.
  intros Eo Er Ha Hd. destruct w as [rg rw rr o d]. cbn in *. subst.
  destruct op as [g router| |]; cbn [bstep].
  - unfold x1_pcie_start. by destruct (_ || _).
  - unfold x1_pcie_train, with_owner. cbn. by rewrite Ha, orb_true_r.
  - unfold x1_pcie_scan, with_owner. cbn. by rewrite Hd, orb_true_r.
Qed.

Lemma settled_run b w ops :
  bridge_owner w = Some b → registered w = true → b_train_attempted b = true →
  b_downstream b = true → brun ops w = w.
Proof.
  intros Eo Er Ha Hd. induction ops as [|op ops IH]; [done|]. cbn [brun foldl].
  by rewrite (settled b w op).
Qed.


Lemma audit_ok (d : D) : ∃ vs d', x1_pci0_msi_audit (be_io env) d = (Ok vs, d').
Proof.
  unfold x1_pci0_msi_audit. generalize msi_audit_regs. intros l. revert d.
  induction l as [|[r off] l IH]; intros d; cbn [msi_audit_loop]; [by eexists _, _|].
  unfold bind, x1_pr. destruct (io_read (be_io env) r off d) as [v d1].
  destruct (IH d1) as (vs&d2&->). by eexists _, _.
Qed.

Definition sole_nvme (found : list pci_dev) (e : pci_dev) : Prop :=
  ∃ pre post, found = pre ++ e :: post ∧ is_nvme e = true ∧
    Forall (λ p, is_bridge p = true) (pre ++ post).

Lemma sole_counts found e :
  filter (λ p, is_nvme p = true) found = [e] →
  filter (λ p, is_nvme p = false ∧ is_bridge p = false) found = [] → sole_nvme found e.
Proof.
  induction found as [|p l IH]; [done|]. intros Hn Ho.
  destruct (is_nvme p) eqn:En.
  - rewrite filter_cons_True in Hn by done. injection Hn as <- Hn.
    exists [], l. split; [done|]. split; [done|]. simpl. rewrite Forall_forall. intros q Hq.
    rewrite filter_cons_False in Ho by (rewrite En; naive_solver).
    destruct (is_bridge q) eqn:Eb; [done|]. exfalso.
    destruct (is_nvme q) eqn:Eq;
      [apply (not_elem_of_nil q); rewrite <- Hn|apply (not_elem_of_nil q); rewrite <- Ho];
      apply list_elem_of_filter; split; done.
  - rewrite filter_cons_False in Hn by (rewrite En; done).
    destruct (is_bridge p) eqn:Eb.
    + rewrite filter_cons_False in Ho by (rewrite Eb; naive_solver).
      destruct (IH Hn Ho) as (pre&post&->&He&Hf). exists (p :: pre), post.
      split; [done|]. split; [done|]. by constructor.
    + by rewrite filter_cons_True in Ho.
Qed.

Lemma counts_sole found e :
  sole_nvme found e → filter (λ p, is_nvme p = true) found = [e] ∧
  filter (λ p, is_nvme p = false ∧ is_bridge p = false) found = [].
Proof.
  intros (pre&post&->&He&Hf).
  assert (∀ l, Forall (λ p, is_bridge p = true) l →
    filter (λ p, is_nvme p = true) l = [] ∧
    filter (λ p, is_nvme p = false ∧ is_bridge p = false) l = []) as Hl.
  { induction 1 as [|p l Hp Hl [IH1 IH2]]; [done|].
    assert (is_nvme p = false)
      by (destruct (is_nvme p) eqn:En; [apply nvme_not_bridge in En; congruence|done]).
    rewrite !filter_cons_False; [done|intros [? ?]; congruence|congruence]. }
  apply Forall_app in Hf as [F1 F2]. destruct (Hl pre F1) as [E1 E2], (Hl post F2) as [E3 E4].
  rewrite !filter_app, E1, E2, filter_cons_True, E3 by done. split; [done|].
  rewrite filter_cons_False by (rewrite He; naive_solver). by rewrite E4.
Qed.

(** The scan of a trained bridge: it succeeds exactly when the bus holds,
    besides PCI bridges, one single function, an NVMe controller of segment 0
    without a driver; and then a storage driver may bind to that function and
    to no other.  Otherwise the error is kept and nothing may bind. *)
Theorem scan_exact w b fixed found d' :
  world_ok w → bridge_owner w = Some b →
  b_ready b = true → b_trained b = true → b_error b = 0 → b_downstream b = false →
  be_rescan env (bw_dev w) = (fixed, found, d') → Z.of_nat (length found) < 2 ^ 32 →
  let out := x1_pcie_scan env w in
  (out.1 = Ok tt ↔ ∃ e, sole_nvme found e) ∧
  (∀ p, x1_native_nvme_allowed out.2 p = true ↔ ∃ e, sole_nvme found e ∧ p = pd_id e).
Proof.
  intros Hw Eo Hr Ht He Hd Es Hl. unfold world_ok in Hw. rewrite Eo in Hw. destruct Hw as [Hb Hreg].
  assert (b_endpoint b = None) as Hen
    by (destruct (b_endpoint b) eqn:E; [|done]; rewrite (bi_endpoint b Hb) in Hd by (by rewrite E); done).
  assert (b_endpoint_validated b = false) as Hnv.
  { destruct (b_endpoint_validated b) eqn:E; [|done]. destruct (bi_validated b Hb E). congruence. }
  enough (∃ r w', x1_pcie_scan env w = (r, w') ∧ (r = Ok tt ↔ ∃ e, sole_nvme found e) ∧
    ∀ p, x1_native_nvme_allowed w' p = true ↔ ∃ e, sole_nvme found e ∧ p = pd_id e)
    as (r&w'&E&H1&H2) by (cbv zeta; by rewrite E).
  unfold x1_pcie_scan, with_owner. rewrite Eo, Hr, Ht, He, Hd. cbn [negb orb Z.eqb].
  unfold bind at 1. unfold bset at 1, modify at 1. set (b1 := b <| b_downstream := true |>) in *.
  assert (bridge_ok b1) as Hb1.
  { destruct Hb as [H1 H2 H3 H4 H5 H6 H7]. split; cbn; try done.
    intros Hv. destruct (H7 Hv) as (?&?&?). done. }
  unfold keep_error, recording, bind, rescan. rewrite Es. fold (fixups fixed b1).
  assert (b_endpoint (fixups fixed b1) = None ∧ b_endpoint_validated (fixups fixed b1) = false)
    as (He2&Hv2) by (destruct (fixups_cases fixed b1 Hb1) as [->|[_ ->]]; done).
  rewrite He2, find_counts by lia. generalize dependent (fixups fixed b1). intros b2 He2 Hv2.
  destruct (_ && _) eqn:Ec; rewrite !Z.add_0_l in Ec.
  - apply andb_true_iff in Ec as [E1%Z.eqb_eq E2%Z.eqb_eq]. cbn [fst snd] in E1, E2.
    assert (∃ e, filter (λ p, is_nvme p = true) found = [e]) as [e Ee].
    { destruct (filter (λ p, is_nvme p = true) found) as [|e [|? ?]]; simpl in *; try lia. eauto. }
    assert (filter (λ p, is_nvme p = false ∧ is_bridge p = false) found = []) as Eo2.
    { apply length_zero_iff_nil. lia. }
    pose proof (sole_counts _ _ Ee Eo2) as Hs.
    unfold x1_bridge_msi_audit, bdev, bind, bset, modify, ret.
    destruct (audit_ok d') as (vs&d2&->). rewrite Ee. cbn. eexists _, _. split; [reflexivity|].
    unfold x1_native_nvme_allowed. cbn. split; [by split; eauto|]. intros p. rewrite bool_decide_eq_true. split.
    + intros [= <-]. eauto.
    + intros (e'&Hs'&->). apply counts_sole in Hs' as [E' _]. congruence.
  - assert (¬ ∃ e, sole_nvme found e) as Hno.
    { intros [e Hs]. apply counts_sole in Hs as [E1 E2]. by rewrite E1, E2 in Ec. }
    cbn. eexists _, _. split; [reflexivity|].
    change (- ENODEV =? 0) with false.
    unfold x1_native_nvme_allowed. cbn. rewrite Hv2. split; [by split|].
    intros p. split; [done|]. intros (e&Hs&_). by destruct Hno; eauto.
Qed.
End gated.

(** ** A root port with an NVMe drive behind it *)

Definition sample_mem (p : Z) : Z :=
  if p =? 0 then 0x011117cb else if p =? 4 then 0x100000 else if p =? 8 then 0xff000001 else
  if p =? 12 then 0x10000 else if p =? 0x34 then 0x40 else
  if p =? 0x40 then 0x5001 else if p =? 0x50 then 0x00420010 else 0.

Definition sample_io : x1_pci0_io unit := {|
  io_read _ off s := (sample_mem off, s);
  io_write _ _ _ s := s;
  io_reset _ s := (0, s);
  io_delay _ s := s;
|}.

Lemma sample_chain : root_chain sample_mem 0x40 0x50.
Proof.
  exists [0x40; 0x50]. split_and!; [|by apply (bool_decide_unpack _)|reflexivity|reflexivity].
  apply chain_cap; [reflexivity..|]. apply chain_cap; [reflexivity..|]. apply chain_end.
Qed.

Lemma root_identity_exact_witness :
  (root_identity sample_io tt = (Ok 0xff000001, tt)) ∧
  (∃ t, (root_identity (logging_io sample_io) (tt, [])).2.2 = t ∧ Forall identity_read t).
Proof.
  destruct (λ Hm Hi, root_identity_exact sample_mem sample_io Hm Hi 0xff000001 tt (tt, []))
    as [H1 H2].
  - intros p. unfold sample_mem. repeat case_match; lia.
  - done.
  - split; [|exact H2]. apply H1. split_and!; [reflexivity|by right|reflexivity..|].
    exists 0x50. exact sample_chain.
Defined.

Definition sample_bridge_fn : pci_dev :=
  PciDev 1 false true 0 1 0 0x8086 0x15ef 1 false true 5 0x060400 0 false.
Definition sample_nvme_fn : pci_dev :=
  PciDev 7 false true 0 3 0 0x144d 0xa80a 0 false true 0 0x010802 0 false.

Definition sample_env : bridge_env unit := {|
  be_io := sample_io;
  be_register d := ([], 0, d);
  be_pm_resume d := (0, d);
  be_clk_enable _ d := (0, d);
  be_icc_mem d := (0, d);
  be_icc_cfg d := (0, d);
  be_alloc_bridge d := (true, d);
  be_ecam_create d := (inr tt, d);
  be_host_probe d := ([], 0, d);
  be_rescan d := ([], [sample_bridge_fn; sample_nvme_fn], d);
|}.

Definition sample_trained : x1_bridge :=
  Bridge true true false true 0 8 None false true true true 0xff000001 true true.
Definition sample_world : bworld unit := BWorld true false true (Some sample_trained) tt.

Lemma scan_exact_witness :
  (x1_pcie_scan sample_env sample_world).1 = Ok tt ∧
  x1_native_nvme_allowed (x1_pcie_scan sample_env sample_world).2 7 = true ∧
  x1_native_nvme_allowed (x1_pcie_scan sample_env sample_world).2 1 ≠ true.
Proof.
  assert (sole_nvme [sample_bridge_fn; sample_nvme_fn] sample_nvme_fn) as Hs.
  { exists [sample_bridge_fn], []. split_and!; [done..|]. by repeat constructor. }
  destruct (scan_exact sample_env sample_world sample_trained [] [sample_bridge_fn; sample_nvme_fn] tt)
    as [H1 H2]; [|done..|].
  - split; [|done]. split; cbn; try done. intros _. by right.
  - split; [by apply H1; eauto|]. split; [by apply H2; eauto|].
    intros (e&Hs'&Hp)%H2. apply counts_sole in Hs' as [E _]. apply counts_sole in Hs as [E' _].
    rewrite E' in E. injection E as <-. discriminate Hp.
Defined.
