(* ===== verification/Storage.v ===== *)
(** * From the connection to the drive

    Native.v takes the PCI0 bridge as an environment and Pcie.v the calls of
    the connection manager's owner as an arbitrary sequence.  Here the owner's
    three calls are the bridge's operations
    ([x1_native_prepare_storage] of qcom-x1-native.c calls [x1_pcie_start],
    [x1_pcie_train] and [x1_pcie_scan] of qcom-x1-pcie.c), so that both run as
    one system, and the question whether a storage driver may bind becomes a
    question about the connection attempt. *)

From S2P Require Import Prelude Native Board Pci0Init Pcie.

Section bridged.
Context {E F : Type}.
Implicit Types w : bworld F.

(** The rest of the kernel acts on the first component only. *)
Definition on_rest {A} (f : E → A * E) (d : E * bworld F) : A * (E * bworld F) :=
  let (x, e) := f d.1 in (x, (e, d.2)).
Definition on_bridge (m : M (bworld F) unit) (d : E * bworld F) : Z * (E * bworld F) :=
  let (r, b) := m d.2 in (code r, (d.1, b)).

Definition bridged (nenv : native_env E) (benv : bridge_env F) (g : gates)
    : native_env (E * bworld F) := {|
  ne_jiffies d := ne_jiffies nenv d.1; ne_msecs := ne_msecs nenv; ne_node := ne_node nenv;
  ne_prepared d := ne_prepared nenv d.1; ne_find d := ne_find nenv d.1;
  ne_alloc := on_rest (ne_alloc nenv); ne_caps := on_rest (ne_caps nenv);
  ne_ring_enabled i := on_rest (ne_ring_enabled nenv i); ne_prepare := on_rest (ne_prepare nenv);
  ne_init_interrupts := on_rest (ne_init_interrupts nenv);
  ne_disable_interrupts d := (ne_disable_interrupts nenv d.1, d.2);
  ne_tb_probe := on_rest (ne_tb_probe nenv); ne_domain_add := on_rest (ne_domain_add nenv);
  ne_ctl_stop d := (ne_ctl_stop nenv d.1, d.2); ne_uid_read := on_rest (ne_uid_read nenv);
  ne_valid := on_rest (ne_valid nenv); ne_trylock := on_rest (ne_trylock nenv);
  ne_lock := on_rest (ne_lock nenv); ne_sleep := on_rest (ne_sleep nenv);
  ne_authorize d := (ne_authorize nenv d.1, d.2);
  ne_connect word := on_rest (ne_connect nenv word);
  ne_rescan := on_rest (ne_rescan nenv);
  ne_approve sw := on_rest (ne_approve nenv sw);
  ne_pcie_start := on_bridge (x1_pcie_start benv g true);
  ne_pcie_train := on_bridge (x1_pcie_train benv);
  ne_pcie_scan := on_bridge (x1_pcie_scan benv) |}.

(** ** What the bridge can have become after the calls of a log *)

Inductive bridge_by : list native_event → bworld F → bworld F → Prop :=
| by_nothing b : bridge_by [] b b
| by_start benv g l b b' :
    bridge_by l (x1_pcie_start benv g true b).2 b' → bridge_by (NStart :: l) b b'
| by_train benv l b b' :
    bridge_by l (x1_pcie_train benv b).2 b' → bridge_by (NTrain :: l) b b'
| by_scan benv l b b' :
    bridge_by l (x1_pcie_scan benv b).2 b' → bridge_by (NScan :: l) b b'
| by_other e l b b' :
    e ≠ NStart → e ≠ NTrain → e ≠ NScan → bridge_by l b b' → bridge_by (e :: l) b b'
| by_time d l b b' : bridge_by l (b <| bw_dev := d |>) b' → bridge_by l b b'.

Lemma by_app l1 l2 a b c : bridge_by l1 a b → bridge_by l2 b c → bridge_by (l1 ++ l2) a c.
Proof. intros H1 H2. induction H1; simpl; eauto using bridge_by. Qed.

(** *** Each call needs the one before it *)

Definition reached (l : list native_event) (w : bworld F) : Prop :=
  world_ok w ∧ (NStart ∉ l → bridge_owner w = None ∧ registered w = false) ∧
  (NTrain ∉ l → untrained w) ∧
  (NScan ∉ l → ∀ b, bridge_owner w = Some b → b_downstream b = false).

Lemma untrained_closed w b :
  world_ok w → untrained w → bridge_owner w = Some b → b_downstream b = false ∧ b_trained b = false.
Proof.
  intros Hw Hu Eo. unfold world_ok in Hw. rewrite Eo in Hw. destruct Hw as [Hb _].
  specialize (Hu b Eo). destruct (b_trained b) eqn:Et; [by rewrite (bi_trained b Hb Et) in Hu|].
  destruct (b_downstream b) eqn:Ed; [|done]. rewrite (bi_downstream b Hb Ed) in Et. done.
Qed.

Lemma start_registered benv g router w :
  registered w = true → (x1_pcie_start (D:=F) benv g router w).2 = w.
Proof. intros Hr. unfold x1_pcie_start. rewrite Hr. by destruct (_ || _). Qed.

Lemma reached_start benv g l w :
  reached l w → reached (l ++ [NStart]) (x1_pcie_start benv g true w).2.
Proof.
  intros (Hw&H1&H2&H3). destruct (pcie_start_ok benv g true w Hw) as [Hw' Hu].
  split; [done|]. split; [set_solver|].
  split; [intros Hn; apply Hu, H2; set_solver|]. intros Hn b Eb.
  destruct (registered w) eqn:Er.
  - rewrite start_registered in Eb by done. apply (H3 ltac:(set_solver) b Eb).
  - refine (proj1 (untrained_closed _ b Hw' _ Eb)). apply Hu. intros b0 E0.
    unfold world_ok in Hw. rewrite E0 in Hw. destruct Hw. congruence.
Qed.

(** The training leaves [downstream] alone. *)
Lemma train_downstream benv w b' :
  bridge_owner (x1_pcie_train (D:=F) benv w).2 = Some b' →
  ∃ b, bridge_owner w = Some b ∧ b_downstream b' = b_downstream b.
Proof.
  unfold x1_pcie_train, with_owner. destruct (bridge_owner w) as [b|] eqn:Eo; [|cbn; congruence].
  intros Hb. exists b. split; [done|]. revert Hb.
  unfold keep_error, recording, bind, bset, modify, bdev, fail.
  destruct (_ || _); [by intros [= <-]|].
  destruct (x1_pci0_train _ _) as [[[]|e|] d1]; cbn;
    [destruct (x1_pci0_windows _ _) as [[[]|e|] d2]; cbn| |];
    try destruct (e =? 0); by intros [= <-].
Qed.

Lemma reached_train benv l w :
  reached l w → reached (l ++ [NTrain]) (x1_pcie_train benv w).2.
Proof.
  intros (Hw&H1&H2&H3). split; [by apply train_ok|]. split_and!.
  - intros Hn. destruct (H1 ltac:(set_solver)) as [Eo Er].
    unfold x1_pcie_train, with_owner. by rewrite Eo.
  - set_solver.
  - intros Hn b' Eb. apply train_downstream in Eb as (b&Eo&->). apply H3; [set_solver|done].
Qed.

Lemma reached_scan benv l w :
  reached l w → reached (l ++ [NScan]) (x1_pcie_scan benv w).2.
Proof.
  intros (Hw&H1&H2&H3). split; [by apply scan_ok|]. split_and!.
  - intros Hn. destruct (H1 ltac:(set_solver)) as [Eo Er].
    unfold x1_pcie_scan, with_owner. by rewrite Eo.
  - intros Hn. specialize (H2 ltac:(set_solver)).
    unfold x1_pcie_scan, with_owner. destruct (bridge_owner w) as [b|] eqn:Eo; [|done].
    destruct (untrained_closed w b Hw H2 Eo) as [Hd Ht]. rewrite Ht, orb_true_r.
    intros b' [= <-]. by apply H2.
  - set_solver.
Qed.

Lemma reached_by l0 l w w' : bridge_by l w w' → reached l0 w → reached (l0 ++ l) w'.
Proof.
  intros H. revert l0. induction H as [|benv g l b b' _ IH|benv l b b' _ IH|benv l b b' _ IH
    |e l b b' N1 N2 N3 _ IH|d l b b' _ IH]; intros l0 H0; [by rewrite app_nil_r|..].
  - rewrite cons_middle, app_assoc. by apply IH, reached_start.
  - rewrite cons_middle, app_assoc. by apply IH, reached_train.
  - rewrite cons_middle, app_assoc. by apply IH, reached_scan.
  - rewrite cons_middle, app_assoc. apply IH. destruct H0 as (Hw&H1&H2&H3).
    split; [done|]. set_solver.
  - apply IH. done.
Qed.
End bridged.

(** ** The owner over the bridge *)

Section owner.
Context {E F : Type}.
Abbreviation dev := (E * bworld F * list native_event)%type.
Abbreviation world := (nworld dev).

Definition bridge_of (w : world) : bworld F := (nw_dev w).1.2.

(** The log grew, and the bridge moved as the new entries say. *)
Definition dev_follows : relation dev := λ d d', ∃ t, d'.2 = d.2 ++ t ∧ bridge_by t d.1.2 d'.1.2.
Definition follows : relation world := λ w w', dev_follows (nw_dev w) (nw_dev w').

#[local] Instance follows_preorder : PreOrder follows.
Proof.
  split.
  - intros w. exists []. rewrite app_nil_r. split; [done|constructor].
  - intros w1 w2 w3 (t1&E1&B1) (t2&E2&B2). exists (t1 ++ t2).
    rewrite E2, E1, app_assoc. split; [done|]. by eapply by_app.
Qed.

Definition calm {A} (f : dev → A * dev) : Prop := ∀ d, dev_follows d (f d).2.

Lemma calm_quiet {A} (f : E → A * E) : calm (quietly (on_rest f)).
Proof.
  intros [[e b] l]. unfold quietly, on_rest. simpl. destruct (f e). exists [].
  rewrite app_nil_r. split; [done|constructor].
Qed.
Lemma calm_loud {A} ev (f : E → A * E) :
  ev ≠ NStart → ev ≠ NTrain → ev ≠ NScan → calm (loudly ev (on_rest f)).
Proof.
  intros N1 N2 N3 [[e b] l]. unfold loudly, on_rest. simpl. destruct (f e). exists [ev].
  split; [done|]. apply by_other; [done..|constructor].
Qed.
Lemma calm_bridge ev (m : M (bworld F) unit) :
  (∀ b, bridge_by [ev] b (m b).2) → calm (loudly ev (on_bridge (E:=E) m)).
Proof.
  intros Hm [[e b] l]. unfold loudly, on_bridge. simpl. specialize (Hm b).
  destruct (m b) as [r b']. by exists [ev].
Qed.
Lemma calm_start benv g : calm (loudly NStart (on_bridge (E:=E) (x1_pcie_start benv g true))).
Proof. apply calm_bridge. intros b. eapply by_start. constructor. Qed.
Lemma calm_train benv : calm (loudly NTrain (on_bridge (E:=E) (x1_pcie_train benv))).
Proof. apply calm_bridge. intros b. eapply by_train. constructor. Qed.
Lemma calm_scan benv : calm (loudly NScan (on_bridge (E:=E) (x1_pcie_scan benv))).
Proof. apply calm_bridge. intros b. eapply by_scan. constructor. Qed.

Lemma keeps_nask {A} (f : dev → A * dev) : calm f → keeps follows (nask f).
Proof. intros Hf w. unfold nask. specialize (Hf (nw_dev w)). by destruct (f (nw_dev w)). Qed.
Lemma keeps_ncall (f : dev → Z * dev) : calm f → keeps follows (ncall f).
Proof. intros Hf. unfold ncall. keeps_auto. by apply keeps_nask. Qed.
Lemma keeps_ntell (f : E → E) : keeps follows (ntell (λ d : dev, (f d.1.1, d.1.2, d.2))).
Proof.
  intros w. exists []. rewrite app_nil_r. split; [done|constructor].
Qed.
Lemma keeps_own f : keeps follows (own f).
Proof. intros w. change (follows w w). reflexivity. Qed.
Lemma keeps_read {A} (f : world → A) : keeps follows (λ w, (Ok (f w), w)).
Proof. intros w. change (follows w w). reflexivity. Qed.
Lemma keeps_reports l : keeps follows (reports l).
Proof. apply keeps_for_each; [apply _|]. intros s _. apply keeps_own. Qed.

Context (approved : Z) (nenv : native_env E) (benv : bridge_env F) (g : gates).
Abbreviation env := (logging_native (bridged nenv benv g)).

Ltac calm_env :=
  first [apply calm_quiet|apply calm_start|apply calm_train|apply calm_scan|by apply calm_loud].
Ltac follow :=
  repeat first
    [ apply keeps_own | apply keeps_reports | apply keeps_ntell
    | apply keeps_nask; calm_env | apply keeps_ncall; calm_env
    | apply keeps_read | keeps_step | progress cbv zeta ].

Lemma follows_valid : keeps follows (still_valid env).
Proof. unfold still_valid. follow. Qed.
Lemma follows_storage : keeps follows (x1_native_prepare_storage approved env).
Proof.
  pose proof follows_valid. unfold x1_native_prepare_storage, approve_tunnel. follow.
Qed.
Lemma follows_wait fuel deadline r : keeps follows (connect_wait approved env fuel deadline r).
Proof.
  pose proof follows_valid as Hv. revert r. induction fuel as [|fuel IH]; intros r;
    cbn [connect_wait]; [apply keeps_fault; apply _|].
  unfold locked_pass, now. follow.
Qed.
Lemma follows_connect fuel word valid : keeps follows (x1_native_connect approved env fuel word valid).
Proof.
  intros w. unfold x1_native_connect. cbv zeta. destruct (negb _); [reflexivity|].
  destruct (negb valid); [reflexivity|]. destruct (nw_owner w); [|reflexivity].
  destruct (_ || _); [reflexivity|]. revert w. change (keeps follows (connect_body approved env fuel word)).
  pose proof follows_valid. pose proof (follows_wait fuel). pose proof follows_storage.
  unfold connect_body, now. follow.
Qed.
Lemma follows_start dv router irq : keeps follows (x1_native_start env dv router irq).
Proof.
  intros w. unfold x1_native_start. destruct (_ || _); [reflexivity|].
  destruct (nw_owner w); [reflexivity|]. revert w.
  match goal with |- ∀ w, follows w (?m w).2 => change (keeps follows m) end.
  unfold rings_idle, start_domain. follow.
  all: match goal with
       | |- keeps _ (modify _) => intros w; change (follows w w); reflexivity
       | |- keeps _ (for_each _ _) => apply keeps_for_each; [apply _|]; intros i _; follow
       | |- keeps _ (on_error _ _) => apply keeps_on_error; [apply _|follow..]
       end.
Qed.
Lemma follows_stop : keeps follows (x1_native_stop env).
Proof.
  intros w. unfold x1_native_stop. destruct (nw_owner w) as [n|]; [|reflexivity].
  destruct (n_stopped n); [reflexivity|]. revert w.
  match goal with |- ∀ w, follows w (?m w).2 => change (keeps follows m) end. follow.
Qed.
End owner.

(** ** The system: any interleaving of the owner's entry points, scan reports
    and changes outside, each step with an environment of its own *)

Section storage.
Context {E F : Type} (approved : Z).
Abbreviation world := (nworld (E * bworld F * list native_event)).

Inductive storage_step : world → world → Prop :=
| storage_start nenv benv g dev router irq w :
    storage_step w (x1_native_start (logging_native (bridged nenv benv g)) dev router irq w).2
| storage_register connect ctx w : storage_step w (x1_native_register_connect connect ctx w).2
| storage_connect nenv benv g fuel word valid w :
    storage_step w
      (x1_native_connect approved (logging_native (bridged nenv benv g)) fuel word valid w).2
| storage_stop nenv benv g w :
    storage_step w (x1_native_stop (logging_native (bridged nenv benv g)) w).2
| storage_scan s w : storage_step w (x1_native_scan_result s w).2
| storage_time e d w :
    storage_step w (NWorld (nw_owner w) ((e, (bridge_of w) <| bw_dev := d |>), nlog w)).

Lemma storage_is_native w w' : storage_step w w' → native_step approved w w'.
Proof.
  destruct 1; [apply native_start|apply native_register|apply native_connect|
    apply native_stop|apply native_scan|apply native_time].
Qed.

Lemma storage_follows w w' : storage_step w w' → follows w w'.
Proof.
  pose proof (@follows_preorder E F) as Hp. destruct 1.
  - apply follows_start.
  - unfold x1_native_register_connect. destruct (nw_owner w) as [n|]; [|reflexivity].
    destruct (_ || _); [reflexivity|]. apply keeps_own.
  - apply follows_connect.
  - apply follows_stop.
  - apply keeps_own.
  - exists []. rewrite app_nil_r. split; [done|]. eapply by_time. constructor.
Qed.

Definition storage_boot (e : E) (d : F) : world := NWorld None ((e, bboot d), []).

Lemma storage_reached e d w :
  rtc storage_step (storage_boot e d) w →
  allowed_log approved (nlog w) ∧ reached (nlog w) (bridge_of w).
Proof.
  intros Hs. split.
  - refine (proj2 (native_reachable approved (e, bboot d) w _)).
    fold (storage_boot e d). revert Hs. generalize (storage_boot e d). intros w0 Hs.
    induction Hs as [|w1 w2 w3 H _ IH]; [apply rtc_refl|].
    eapply rtc_l; [by apply storage_is_native|done].
  - assert (follows (storage_boot e d) w) as (t&El&Hb).
    { pose proof (@follows_preorder E F). revert Hs. generalize (storage_boot e d). intros w0 Hs.
      induction Hs as [|w1 w2 w3 H1 _ IH]; [reflexivity|].
      etrans; [by apply storage_follows|done]. }
    unfold nlog. rewrite El. apply (reached_by [] t _ _ Hb). split; [done|]. split; [done|].
    split; by intros _ ?.
Qed.

(** The calls of an attempt in their order. *)
Lemma attempt_calls word r sw k :
  ((k < 1)%nat → NStart ∉ attempt_log word r sw k) ∧
  ((k < 3)%nat → NTrain ∉ attempt_log word r sw k) ∧
  ((k < 4)%nat → NScan ∉ attempt_log word r sw k) ∧
  ((2 ≤ k)%nat → NApprove sw ∈ attempt_log word r sw k) ∧
  ((4 ≤ k)%nat → attempt_log word r sw k = attempt_log word r sw 4).
Proof.
  unfold attempt_log. destruct k as [|[|[|[|k]]]]; destruct r; cbn; rewrite ?take_nil;
    rewrite ?elem_of_cons, ?elem_of_nil; split_and!; intros; try lia; naive_solver.
Qed.

(** How far an allowed log got. *)
Lemma allowed_stage l : allowed_log approved l → ∃ k sw,
  ((k < 1)%nat → NStart ∉ l) ∧ ((k < 3)%nat → NTrain ∉ l) ∧ ((k < 4)%nat → NScan ∉ l) ∧
  ((1 ≤ k)%nat → approved ≠ 0) ∧
  ((2 ≤ k)%nat → NApprove sw ∈ l ∧ approved_device approved sw) ∧
  ((4 ≤ k)%nat → ∃ word r, l = attempt_log word r sw 4).
Proof.
  intros [->|(word&r&sw&k&->&_&Hk&Hsw)].
  - exists 0%nat, (Switch 0 false false false false).
    split_and!; intros; try lia; apply not_elem_of_nil.
  - exists k, sw. destruct (attempt_calls word r sw k) as (A1&A2&A3&A4&A5). split_and!; eauto.
Qed.

End storage.

(** ** A root port that trains, with one drive behind it *)

Abbreviation regfile := (x1_pci0_region * Z → Z).

Definition put (r : x1_pci0_region) (off v : Z) (s : regfile) : regfile :=
  λ a, if decide (a = (r, off)) then v else s a.

(** Registers hold what is written, except that a reset request is taken at
    once, leaving reset shows the type 1 header, and enabling the link
    controller brings the link up. *)
Definition port_write (r : x1_pci0_region) (off v : Z) (s : regfile) : regfile :=
  match r with
  | X1_ROUTER => put r off (if off =? 0xe008 then v .& not32 3 else v) s
  | X1_PARF =>
      if (off =? 0x1b0) && tst v 0x100 then put r off (v .| 0x11) (put X1_ROOT 0xf48 0x400 s)
      else put r off v s
  | X1_ROOT => put r off v s
  end.
Definition port_io : x1_pci0_io regfile := {|
  io_read r off s := (s (r, off), s);
  io_write := port_write;
  io_reset asserted s := (0, if asserted : bool then s else put X1_ROOT 12 0x10000 s);
  io_delay _ s := s;
|}.
Definition port_reset : regfile :=
  λ '(r, off), match r with
  | X1_ROOT => if off =? 12 then 0 else sample_mem off
  | _ => 0
  end.

Definition sample_root_fn : pci_dev :=
  PciDev 0 true true 0 0 0 0x17cb 0x0111 1 false true 4 0x060400 1 false.
Definition sample_facts : bridge_facts := {|
  bf_resource0 := Some (0x400000000, 0x10000000); bf_domain := Some 0; bf_smmu_reserved := true;
  bf_kzalloc := true; bf_resource1 := Some (0x1c28000, 0x8000); bf_clock_names := 0;
  bf_clock_count := 8; bf_clock_parse := 0; bf_clock_valid := true; bf_reset_parse := 0;
  bf_reset_valid := true; bf_parf := inr tt; bf_tunnel_reset := inr tt;
  bf_clocks := replicate 8 (inr tt); bf_icc_mem := inr true; bf_icc_cfg := inr true;
|}.
Definition port_env : bridge_env regfile := {|
  be_io := port_io;
  be_register d := ([sample_facts], 0, d);
  be_pm_resume d := (0, d);
  be_clk_enable _ d := (0, d);
  be_icc_mem d := (0, d);
  be_icc_cfg d := (0, d);
  be_alloc_bridge d := (true, d);
  be_ecam_create d := (inr tt, d);
  be_host_probe d := ([sample_root_fn], 0, d);
  be_rescan d := ([], [sample_bridge_fn; sample_nvme_fn], d);
|}.
Definition port_gates : gates := {|
  gt_hyp_mode := false; gt_board_allowed := true; gt_nhi_complete := true;
  gt_tree := {| of_root_bool _ := true; of_node_present _ := true;
                of_node_available _ := false; of_machine_is_compatible _ := true |};
|}.

Abbreviation sample_owner := (logging_native (bridged good_native port_env port_gates)).
Definition sboot : nworld (Z * bworld regfile * list native_event) := storage_boot 0 port_reset.
Definition sstarted := (x1_native_start sample_owner true true 5 sboot).2.
Definition sregistered := (x1_native_register_connect true true sstarted).2.
Definition sconnected := (x1_native_connect 0x1234 sample_owner 100 0x2501 true sregistered).2.

Lemma sconnected_reachable : rtc (storage_step 0x1234) sboot sconnected.
Proof.
  apply (rtc_l _ _ sstarted); [apply storage_start|].
  apply (rtc_l _ _ sregistered); [apply storage_register|].
  apply (rtc_l _ _ sconnected); [apply storage_connect|]. apply rtc_refl.
Qed.

Lemma sconnected_allowed : x1_native_nvme_allowed (bridge_of sconnected) 7 = true.
Proof. vm_compute. reflexivity. Qed.

