(* ===== verification/NvmeSession.v ===== *)
(** * Tickets of the private NVMe read test
    (experiments/omarchy1/kernel/drivers/nvme/host/x1-private-read.h)

    The host opens one session for one admitted device, the NVMe driver claims
    it once, retires it once its resources are released, and the host closes it
    when the device is gone; only then can another be opened.  Every operation
    holds [x1_nvme_session_lock], so each is one step.  What the device tree,
    the driver core and the PCI core report are arguments; a device is its
    [pd_id]. *)

From stdpp Require Import gmultiset.
From S2P Require Import Prelude Pcie.

(** ** Admission *)

(** [host->dev.parent]: its node, and the property of that device. *)
Record host_dev := { hd_of_node : option nat; hd_property : bool }.
(** The node at /soc@0/pcie-imsi@400000000. *)
Record imsi_node := { in_id : nat; in_compatible : bool; in_property : bool }.

Record topology := {
  (** the host bridge, if any, and its parent, if any *)
  tp_host : option (option host_dev);
  tp_machine : bool;
  tp_node : option imsi_node;
  tp_root : option pci_dev;
}.

Definition x1_nvme_private_host (t : topology) : bool :=
  match tp_host t with
  | Some (Some h) =>
      if negb (tp_machine t) then false else
      match tp_node t with
      | Some n => bool_decide (hd_of_node h = Some (in_id n)) && in_compatible n && in_property n
      | None => false
      end
  | _ => false
  end.

Definition host_property (t : topology) : bool :=
  match tp_host t with Some (Some h) => hd_property h | _ => false end.

Definition x1_nvme_read_admitted (t : topology) (pdev : pci_dev) : bool :=
  x1_nvme_private_host t && host_property t &&
  (pd_domain pdev =? 0) && (pd_bus pdev =? 1) && (pd_devfn pdev =? 0) &&
  (pd_vendor pdev =? 0x1c19) && (pd_device pdev =? 0x102b) &&
  (pd_class pdev =? PCI_CLASS_STORAGE_EXPRESS) &&
  match tp_root t with
  | Some root =>
      pd_root_bus root && (pd_bus root =? 0) && (pd_devfn root =? 0) &&
      (pd_vendor root =? 0x17cb) && (pd_device root =? 0x0111) &&
      (pd_pcie_type root =? PCI_EXP_TYPE_ROOT_PORT)
  | None => false
  end.

(** ** Sessions *)

Record x1_nvme_session := Session {
  xs_pdev : nat;
  xs_id : Z;
  xs_consumed : bool;
  xs_retired : bool;
}.
#[export] Instance session_eta : Eta x1_nvme_session := λ x,
  Session (xs_pdev x) (xs_id x) (xs_consumed x) (xs_retired x).

(** The two globals, and the device references taken and not yet put. *)
Record nvme := Nvme {
  nv_session : option x1_nvme_session;
  nv_sequence : Z;
  nv_refs : gmultiset nat;
}.
#[export] Instance nvme_eta : Eta nvme := λ s, Nvme (nv_session s) (nv_sequence s) (nv_refs s).

(** What the driver core says of the device at the time of the call. *)
Record bound_facts := {
  bd_driver : bool;
  bd_drvdata : bool;
  bd_msi_data : bool;
  bd_registered : bool;
}.

(** [pdev], [id]: the pointers, NULL or not; the result is [*id]. *)
Definition nvme_x1_open_session (t : topology) (pdev : option pci_dev) (id : bool)
    (f : bound_facts) (kzalloc : bool) : M nvme Z := λ s,
  match pdev with
  | None => (Err (-EINVAL), s)
  | Some pdev =>
      if negb id || negb (x1_nvme_read_admitted t pdev) then (Err (-EINVAL), s) else
      if (if nv_session s then true else false) || bd_driver f || bd_drvdata f ||
         negb (bd_registered f) || (nv_sequence s =? U64_MAX) then (Err (-EPERM), s) else
      if negb kzalloc then (Err (-ENOMEM), s) else
      let seq := u64 (nv_sequence s + 1) in
      (Ok seq, Nvme (Some (Session (pd_id pdev) seq false false)) seq
                 ({[+ pd_id pdev +]} ⊎ nv_refs s))
  end.

Definition x1_nvme_claim_session (pdev : nat) (s : nvme) : bool * nvme :=
  match nv_session s with
  | Some x =>
      if bool_decide (xs_pdev x = pdev) && negb (xs_consumed x) && negb (xs_retired x)
      then (true, s <| nv_session := Some (x <| xs_consumed := true |>) |>)
      else (false, s)
  | None => (false, s)
  end.

Definition x1_nvme_session_resources_retired (pdev : nat) : M nvme unit := λ s,
  match nv_session s with
  | Some x =>
      if bool_decide (xs_pdev x = pdev) && xs_consumed x && negb (xs_retired x)
      then (Ok tt, s <| nv_session := Some (x <| xs_retired := true |>) |>)
      else (Err (-ESTALE), s)
  | None => (Err (-ESTALE), s)
  end.

Definition nvme_x1_close_session (pdev : option nat) (id : Z) (f : bound_facts) : M nvme unit := λ s,
  match pdev with
  | None => (Err (-EINVAL), s)
  | Some pdev =>
      if id =? 0 then (Err (-EINVAL), s) else
      match nv_session s with
      | None => (Err (-EPERM), s)
      | Some x =>
          if bool_decide (xs_pdev x ≠ pdev) || (xs_id x !=? id) ||
             negb (xs_consumed x) || negb (xs_retired x) ||
             bd_driver f || bd_drvdata f || bd_msi_data f || bd_registered f
          then (Err (-EPERM), s)
          else (Ok tt, s <| nv_session := None |> <| nv_refs := nv_refs s ∖ {[+ xs_pdev x +]} |>)
      end
  end.

(** [x1_nvme_read_stop]: [test] is the controller's flag, [terminal] its cell. *)
Definition x1_nvme_read_stop (test : bool) (error terminal : Z) : Z :=
  if test then
    if terminal =? 0 then (if error <? 0 then error else -EIO) else terminal
  else terminal.

(** The first error persists, whatever is reported later, and it is an errno. *)
Lemma read_stop_first e es :
  let t := x1_nvme_read_stop true e 0 in
  t < 0 ∧ (e < 0 → t = e) ∧ foldl (λ t e, x1_nvme_read_stop true e t) t es = t.
Proof.
  intros t. assert (t = if e <? 0 then e else -EIO) as Et by done. clearbody t.
  assert (t < 0) as Ht by (subst t; unfold EIO; destruct (Z.ltb_spec e 0); lia).
  split; [done|]. split; [intros He; subst t; destruct (Z.ltb_spec e 0); lia|].
  clear Et. induction es as [|e' es IH]; [done|]. cbn [foldl]. unfold x1_nvme_read_stop at 2.
  destruct (Z.eqb_spec t 0); [lia|done].
Qed.

(** ** Any sequence of calls *)

Inductive nvme_op :=
| OpOpen (t : topology) (pdev : option pci_dev) (id : bool) (f : bound_facts) (kzalloc : bool)
| OpClaim (pdev : nat)
| OpRetired (pdev : nat)
| OpClose (pdev : option nat) (id : Z) (f : bound_facts).

(** The calls that succeeded. *)
Inductive nvme_event := Opened (d : nat) (id : Z) | Claimed (d : nat) | Retired (d : nat)
| Closed (d : nat) (id : Z).

Definition nvme_step (op : nvme_op) (s : nvme) : list nvme_event * nvme :=
  match op with
  | OpOpen t pdev id f kz =>
      let (r, s) := nvme_x1_open_session t pdev id f kz s in
      (match r, pdev with Ok i, Some p => [Opened (pd_id p) i] | _, _ => [] end, s)
  | OpClaim d => let (r, s) := x1_nvme_claim_session d s in (if r : bool then [Claimed d] else [], s)
  | OpRetired d =>
      let (r, s) := x1_nvme_session_resources_retired d s in
      (match r with Ok _ => [Retired d] | _ => [] end, s)
  | OpClose pdev id f =>
      let (r, s) := nvme_x1_close_session pdev id f s in
      (match r, pdev with Ok _, Some d => [Closed d id] | _, _ => [] end, s)
  end.

Fixpoint nvme_run (ops : list nvme_op) (l : list nvme_event) (s : nvme) : list nvme_event * nvme :=
  match ops with
  | [] => (l, s)
  | op :: ops => let (e, s) := nvme_step op s in nvme_run ops (l ++ e) s
  end.
Definition nvme_boot : nvme := Nvme None 0 ∅.

(** *** The contract: complete generations, one after the other *)

Definition generation (d : nat) (i : Z) : list nvme_event := [Opened d i; Claimed d; Retired d; Closed d i].
Fixpoint generations (i : Z) (ds : list nat) : list nvme_event :=
  match ds with
  | [] => []
  | d :: ds => generation d i ++ generations (i + 1) ds
  end.

Lemma generations_app i ds d :
  generations i (ds ++ [d]) = generations i ds ++ generation d (i + Z.of_nat (length ds)).
Proof.
  revert i. induction ds as [|d' ds IH]; intros i; cbn [generations app length].
  - by rewrite app_nil_r, Z.add_0_r.
  - rewrite IH, <- app_assoc. do 3 f_equal. lia.
Qed.

(** How far the generation of a session has got. *)
Definition session_stage (x : x1_nvme_session) : nat :=
  if xs_retired x then 3 else if xs_consumed x then 2 else 1.

Record ticket_ok (l : list nvme_event) (ds : list nat) (s : nvme) : Prop := {
  tk_sequence : 0 ≤ nv_sequence s ≤ U64_MAX;
  tk_count : nv_sequence s = Z.of_nat (length ds) + (if nv_session s then 1 else 0);
  tk_log : l = generations 1 ds ++
    match nv_session s with
    | Some x => take (session_stage x) (generation (xs_pdev x) (xs_id x))
    | None => []
    end;
  tk_session : ∀ x, nv_session s = Some x →
    xs_id x = nv_sequence s ∧ (xs_retired x = true → xs_consumed x = true);
  tk_refs : nv_refs s = match nv_session s with Some x => {[+ xs_pdev x +]} | None => ∅ end;
}.

Lemma ticket_step op l ds s :
  ticket_ok l ds s → ∃ ds', ticket_ok (l ++ (nvme_step op s).1) ds' (nvme_step op s).2.
Proof.
  intros Hk. assert (∃ ds', ticket_ok (l ++ []) ds' s) as Hskip by (exists ds; by rewrite app_nil_r).
  destruct Hk as [Hq Hc Hl Hs Hr]. destruct s as [[x|] q refs]; cbn in *.
  - destruct (Hs x eq_refl) as [Hid Hcon]. destruct x as [d i c r]. cbn in *. subst i refs l.
    destruct op as [t p id f kz|d'|d'|p i f]; unfold nvme_step, nvme_x1_open_session,
      x1_nvme_claim_session, x1_nvme_session_resources_retired, nvme_x1_close_session;
      cbn [nv_session nv_sequence nv_refs xs_pdev xs_id xs_consumed xs_retired].
    + destruct p as [p|]; [|done]. by destruct (_ || _).
    + case_bool_decide as Hd; [subst d'|done]. destruct c; [done|]. destruct r; [naive_solver|]. cbn.
      exists ds. split; cbn; try done; [by rewrite <- app_assoc|]. by intros ? [= <-].
    + case_bool_decide as Hd; [subst d'|done]. destruct c; [|done]. destruct r; [done|]. cbn.
      exists ds. split; cbn; try done; [by rewrite <- app_assoc|]. by intros ? [= <-].
    + destruct p as [d'|]; [|done]. destruct (i =? 0); [done|].
      case_bool_decide as Hd; [done|subst d']. cbn [orb].
      destruct (Z.eqb_spec q i) as [->|]; [|done]. destruct c; [|done]. destruct r; [|done]. cbn -[difference orb].
      destruct (_ || _); [done|]. exists (ds ++ [d]). split; cbn -[difference]; try done.
      * rewrite length_app. simpl. lia.
      * rewrite generations_app, app_nil_r, <- app_assoc. f_equal.
        by replace (1 + Z.of_nat (length ds)) with i by lia.
      * apply gmultiset_difference_diag.
  - subst refs l. rewrite app_nil_r in *.
    destruct op as [t p id f kz|d'|d'|p i f]; unfold nvme_step, nvme_x1_open_session,
      x1_nvme_claim_session, x1_nvme_session_resources_retired, nvme_x1_close_session;
      cbn [nv_session nv_sequence nv_refs xs_pdev xs_id xs_consumed xs_retired]; [|done..|].
    + destruct p as [p|]; [|done]. destruct (_ || _); [done|]. cbn [orb].
      destruct (bd_driver f); [done|]. destruct (bd_drvdata f); [done|].
      destruct (bd_registered f); [|done]. cbn [negb orb]. destruct (Z.eqb_spec q U64_MAX); [done|].
      destruct kz; [|done]. cbn -[disj_union]. assert (u64 (q + 1) = q + 1) as ->.
      { unfold u64, U64_MAX in *. apply Z.mod_small. lia. }
      exists ds. split; cbn -[disj_union]; try done; [unfold U64_MAX in *; lia|lia| |multiset_solver].
      by intros ? [= <-].
    + destruct p as [d'|]; [|done]. by destruct (i =? 0).
Qed.

(** The call behind an event, and what held of the device then. *)
Definition called (ops : list nvme_op) (e : nvme_event) : Prop :=
  match e with
  | Opened d i => ∃ t p f, OpOpen t (Some p) true f true ∈ ops ∧ pd_id p = d ∧
      x1_nvme_read_admitted t p = true ∧ bd_driver f = false ∧ bd_drvdata f = false ∧
      bd_registered f = true
  | Claimed d => OpClaim d ∈ ops
  | Retired d => OpRetired d ∈ ops
  | Closed d i => ∃ f, OpClose (Some d) i f ∈ ops ∧ bd_driver f = false ∧
      bd_drvdata f = false ∧ bd_msi_data f = false ∧ bd_registered f = false
  end.

Lemma called_mono ops ops' e : ops ⊆ ops' → called ops e → called ops' e.
Proof. intros Hs. destruct e; cbn; [intros (t&p&f&H&?)|..|intros (f&H&?)]; eauto 10. Qed.

Lemma called_step op s : Forall (called [op]) (nvme_step op s).1.
Proof.
  destruct op as [t p id f kz|d|d|p i f]; unfold nvme_step.
  - unfold nvme_x1_open_session. destruct p as [p|]; [|by constructor].
    destruct (negb id || _) eqn:E1; [by constructor|]. destruct (_ || (nv_sequence s =? U64_MAX)) eqn:E2; [by constructor|].
    destruct kz; [|by constructor]. cbn. constructor; [|by constructor].
    rewrite !orb_false_iff, !negb_false_iff in E1. rewrite !orb_false_iff, negb_false_iff in E2. destruct E1 as [-> E1], E2 as [[[[_ ?] ?] ?] _].
    exists t, p, f. split; [set_solver|done].
  - destruct (x1_nvme_claim_session d s) as [[] ?]; cbn; [|by constructor]. constructor; [set_solver|by constructor].
  - destruct (x1_nvme_session_resources_retired d s) as [[[]| |] ?]; cbn; [|by constructor..].
    constructor; [set_solver|by constructor].
  - unfold nvme_x1_close_session. destruct p as [d|]; [|by constructor]. destruct (i =? 0); [by constructor|].
    destruct (nv_session s) as [x|]; [|by constructor]. destruct (_ || _) eqn:E; [by constructor|]. cbn.
    rewrite !orb_false_iff in E. constructor; [|by constructor]. exists f. split; [set_solver|]. tauto.
Qed.

Lemma run_called ops l s (P : nvme_event → Prop) :
  Forall P l → (∀ e, called ops e → P e) → Forall P (nvme_run ops l s).1.
Proof.
  revert l s. induction ops as [|op ops IH]; intros l s Hl HP; [done|]. cbn [nvme_run].
  pose proof (called_step op s) as Hc. destruct (nvme_step op s) as [e s']. apply IH.
  - apply Forall_app. split; [done|]. eapply Forall_impl; [exact Hc|]. intros ev Hev.
    apply HP. eapply called_mono; [|exact Hev]. set_solver.
  - intros ev Hev. apply HP. eapply called_mono; [|exact Hev]. set_solver.
Qed.

Lemma run_ticket ops l ds s :
  ticket_ok l ds s → ∃ ds', ticket_ok (nvme_run ops l s).1 ds' (nvme_run ops l s).2.
Proof.
  revert l ds s. induction ops as [|op ops IH]; intros l ds s Hk; [by exists ds|]. cbn [nvme_run].
  destruct (ticket_step op l ds s Hk) as [ds' Hk']. destruct (nvme_step op s) as [e s']. by eapply IH.
Qed.

(** C36. Over any sequence of opens, claims, retirements and closes, by anyone
    and for any devices, the calls that succeed form complete generations
    — opened, claimed, retired, closed, for one device — one after the other,
    numbered 1, 2, 3 and so on without wrap-around, and the last one possibly
    unfinished: no device gets a second session before the first is closed, a
    failed generation blocks every later one, and no number is used twice.
    Exactly the device of the unfinished generation is referenced.  A session
    was opened only for an admitted, registered, unbound device, and closed only
    for one that is unbound, unregistered and has no MSI data left. *)
Theorem session_generations ops :
  let out := nvme_run ops [] nvme_boot in
  ∃ ds d k, (k < 4)%nat ∧
    out.1 = generations 1 ds ++ take k (generation d (Z.of_nat (length ds) + 1)) ∧
    (nv_session out.2 = None ↔ k = 0%nat) ∧
    nv_sequence out.2 = Z.of_nat (length ds) + (if decide (k = 0%nat) then 0 else 1) ∧
    nv_sequence out.2 ≤ U64_MAX ∧
    nv_refs out.2 = (if decide (k = 0%nat) then ∅ else {[+ d +]}) ∧
    Forall (called ops) out.1.
Proof.
  intros out. assert (Forall (called ops) out.1) as Hc by by apply run_called.
  destruct (run_ticket ops [] [] nvme_boot) as [ds [Hq Hn Hl Hs Hr]]; [by split|].
  fold out in Hq, Hn, Hl, Hs, Hr. exists ds. destruct (nv_session out.2) as [x|].
  - exists (xs_pdev x), (session_stage x). destruct (Hs x eq_refl) as [Hid _].
    assert (session_stage x ≠ 0 ∧ session_stage x < 4)%nat as [H0 H4]
      by (unfold session_stage; destruct (xs_retired x), (xs_consumed x); lia).
    rewrite Hid, Hn in Hl. rewrite !decide_False by done.
    split; [done|]. split; [done|]. split; [by split|]. split; [done|]. split; [apply Hq|done].
  - exists 0%nat, 0%nat. cbn in *. split; [lia|]. split; [done|]. split; [done|].
    split; [done|]. split; [apply Hq|done].
Qed.

(** One generation runs through; the next one waits for its end. *)
Definition sample_topology : topology := {|
  tp_host := Some (Some {| hd_of_node := Some 3%nat; hd_property := true |});
  tp_machine := true;
  tp_node := Some {| in_id := 3; in_compatible := true; in_property := true |};
  tp_root := Some (PciDev 0 true true 0 0 0 0x17cb 0x0111 1 false true 4 0x060400 1 false);
|}.
Definition sample_drive : pci_dev :=
  PciDev 7 false true 0 1 0 0x1c19 0x102b 0 false true 0 0x010802 0 false.
Definition plugged : bound_facts := {|
  bd_driver := false; bd_drvdata := false; bd_msi_data := false; bd_registered := true |}.
Definition unplugged : bound_facts := {|
  bd_driver := false; bd_drvdata := false; bd_msi_data := false; bd_registered := false |}.
Example one_generation :
  (nvme_run [OpOpen sample_topology (Some sample_drive) true plugged true; OpClaim 7; OpClaim 7;
     OpOpen sample_topology (Some sample_drive) true plugged true; OpRetired 7;
     OpClose (Some 7%nat) 1 unplugged;
     OpOpen sample_topology (Some sample_drive) true plugged true] [] nvme_boot).1 =
  generation 7 1 ++ [Opened 7 2].
Proof. vm_compute. reflexivity. Qed.
