(* ===== verification/NvmeIrq.v ===== *)
(** * Interrupt evidence of the private drive
    (snapshot/kernel/drivers/nvme/host/x1-nvme-irq.h, x1-nvme-irq-evidence.h,
    x1-nvme-irq-timeout.h and drivers/irqchip/irq-gic-v3-its-x1-audit.h)

    Read-only snapshots of the interrupt path of the one admitted drive: when
    its vectors are requested, and on the first timeout of each queue.  What the
    PCI and interrupt cores know is the record [irq_facts] of a call; every read
    of configuration space, of a mapped table or of the ITS goes through
    [answer], an arbitrary device.  Log lines are left out; the verdicts they
    print are the results. *)

From S2P Require Import Prelude Pcie.

(** uapi/linux/pci_regs.h *)
Definition PCI_COMMAND : Z := 4.
Definition PCI_STATUS : Z := 6.
Definition PCI_MSIX_FLAGS : Z := 2.
Definition PCI_MSIX_TABLE : Z := 4.
Definition PCI_MSIX_PBA : Z := 8.
Definition PCI_MSIX_FLAGS_QSIZE : Z := 0x7ff.
Definition PCI_MSIX_FLAGS_MASKALL : Z := 0x4000.
Definition PCI_MSIX_FLAGS_ENABLE : Z := 0x8000.
Definition PCI_MSIX_ENTRY_SIZE : Z := 16.
Definition PCI_MSIX_ENTRY_LOWER_ADDR : Z := 0.
Definition PCI_MSIX_ENTRY_UPPER_ADDR : Z := 4.
Definition PCI_MSIX_ENTRY_DATA : Z := 8.
Definition PCI_MSIX_ENTRY_VECTOR_CTRL : Z := 12.
Definition PCI_MSIX_ENTRY_CTRL_MASKBIT : Z := 1.
Definition PCI_EXP_DEVSTA : Z := 10.
Definition PCI_ERR_UNCOR_STATUS : Z := 4.
Definition PCI_ERR_UNCOR_MASK : Z := 8.
Definition PCI_ERR_COR_STATUS : Z := 0x10.
Definition PCI_ERR_COR_MASK : Z := 0x14.
Definition PCI_ERR_CAP : Z := 0x18.
Definition PCI_ERR_HEADER_LOG : Z := 0x1c.

(** ** What the cores know *)

Inductive role := Endpoint | Root.

Record msi_desc := {
  (** [desc->dev == &pdev->dev] *)
  ds_ours : bool;
  ds_is_msix : bool;
  ds_is_virtual : bool;
  ds_index : Z;
  ds_mask_base : bool;
}.

Record its_device := {
  (** [idev->its] with a mapped base *)
  iv_its_base : bool;
  iv_phys_base : Z;
  iv_device_id : Z;
  iv_nr_ites : Z;
  (** the ITS is the node at msi-controller@17040000 *)
  iv_node : bool;
  iv_typer : Z;
}.

(** One level of the irq_data hierarchy. *)
Record irq_level := {
  (** a chip named ITS that can set its state *)
  lv_named_its : bool;
  (** [&its_irq_chip] *)
  lv_its_chip : bool;
  lv_hwirq : Z;
  lv_forwarded : bool;
  lv_device : option its_device;
  lv_event : Z;
}.

Record irq_data := { id_desc : option msi_desc; id_levels : list irq_level }.
Record msi_msg := { address_hi : Z; address_lo : Z; msg_data : Z }.

Record irq_facts := {
  (** [x1_nvme_irq_test]'s two halves *)
  if_native : bool;
  if_allowed : bool;
  if_msi_enabled : bool;
  if_msix_enabled : bool;
  if_msix_cap : Z;
  if_aer_cap : role → Z;
  if_vector : Z → Z;
  if_irq_data : Z → option irq_data;
  if_msg : Z → msi_msg;
  (** [of_msi_xlate]: the identifier and the controller's node, and the expected node *)
  if_xlate : Z * option nat;
  if_its_node : option nat;
  (** BAR 0: memory, start, length; and whether mapping four bytes succeeds *)
  if_bar0_mem : bool;
  if_bar0_start : Z;
  if_bar0_len : Z;
  if_iomap : bool;
  if_root : option pci_dev;
}.

(** Everything that is read. *)
Inductive access :=
| CfgWord (who : role) (off : Z)
| CfgDword (who : role) (off : Z)
| ExpWord (who : role) (off : Z)
| TableWord (index off : Z)
| PendingWord
| ItsWord (off : Z)
| ItsQuad (off : Z).

Record irqs (D : Type) := Irqs {
  x1_irq_entries : list Z;
  x1_irq_timeouts : list Z;
  x1_its_audit_seen : Z;
  ir_dev : D;
  ir_log : list access;
}.
Arguments Irqs {_} _ _ _ _ _.
Arguments x1_irq_entries {_} _.
Arguments x1_irq_timeouts {_} _.
Arguments x1_its_audit_seen {_} _.
Arguments ir_dev {_} _.
Arguments ir_log {_} _.
#[export] Instance irqs_eta {D} : Eta (irqs D) := λ s,
  Irqs (x1_irq_entries s) (x1_irq_timeouts s) (x1_its_audit_seen s) (ir_dev s) (ir_log s).

Definition x1_nvme_irq_controller (np expected : option nat) : bool :=
  match np, expected with
  | Some n, Some e => bool_decide (n = e)
  | _, _ => false
  end.

Definition x1_nvme_irq_test (f : irq_facts) : bool := if_native f && if_allowed f.

(** Interrupt-type flags and vector count asked of the PCI core. *)
Definition PCI_IRQ_MSIX : Z := 4.
Definition PCI_IRQ_AFFINITY : Z := 8.
Definition x1_nvme_irq_flags (f : irq_facts) (normal : Z) : Z :=
  if x1_nvme_irq_test f then PCI_IRQ_MSIX .| (normal .& PCI_IRQ_AFFINITY) else normal.
Definition x1_nvme_irq_count (f : irq_facts) (normal : Z) : Z :=
  if x1_nvme_irq_test f then Z.min normal 2 else normal.

(** The descriptor checks shared by the three readers, up to their extra
    conditions. *)
Definition usable_desc (d : msi_desc) : bool := ds_ours d && ds_is_msix d && negb (ds_is_virtual d).

Section evidence.
Context {D : Type} (answer : access → D → Z * Z * D).
Abbreviation I := (M (irqs D)).

(** A read: what it returns and the value. *)
Definition acc (a : access) : I (Z * Z) := λ s,
  let '(r, v, d) := answer a (ir_dev s) in
  (Ok (r, v), s <| ir_dev := d |> <| ir_log := ir_log s ++ [a] |>).
Definition mmio (a : access) : I Z := let! rv := acc a in ret (u32 rv.2).

(** [ret = read(..); if (!ret) ret = read(..); ...]; what is not read is 0. *)
Fixpoint cfg_reads (l : list access) : I (Z * list Z) :=
  match l with
  | [] => ret (0, [])
  | a :: l =>
      let! rv := acc a in
      if rv.1 !=? 0 then ret (rv.1, rv.2 :: replicate (length l) 0) else
      let! rest := cfg_reads l in
      ret (rest.1, rv.2 :: rest.2)
  end.

Definition x1_nvme_irq_enter (f : irq_facts) (qid : Z) : I unit := modify (λ s,
  if x1_nvme_irq_test f && (qid <? 2)
  then s <| x1_irq_entries := alter (λ n, u32 (n + 1)) (Z.to_nat qid) (x1_irq_entries s) |>
  else s).

(** [irq_get_irq_data] and [irq_data_get_msi_desc] of a vector, checked. *)
Definition vector_desc (f : irq_facts) (vector : Z) : option (Z * irq_data * msi_desc) :=
  let irq := if_vector f vector in
  if irq <=? 0 then None else
  d ← if_irq_data f irq; desc ← id_desc d;
  if usable_desc desc then Some (irq, d, desc) else None.

Definition msix_words (f : irq_facts) : list access :=
  let pos := if_msix_cap f in
  [CfgWord Endpoint (pos + PCI_MSIX_FLAGS); CfgDword Endpoint (pos + PCI_MSIX_TABLE);
   CfgDword Endpoint (pos + PCI_MSIX_PBA)].

(** The four words of a table entry: low, high, data, control. *)
Definition table_entry (index : Z) : I (Z * Z * Z * Z) :=
  let! lo := mmio (TableWord index PCI_MSIX_ENTRY_LOWER_ADDR) in
  let! hi := mmio (TableWord index PCI_MSIX_ENTRY_UPPER_ADDR) in
  let! data := mmio (TableWord index PCI_MSIX_ENTRY_DATA) in
  let! mask := mmio (TableWord index PCI_MSIX_ENTRY_VECTOR_CTRL) in
  ret (lo, hi, data, mask).

Definition word0 (l : list Z) (i : nat) : Z := default 0 (l !! i).

(** The verdict of the last two lines: route and ITS, if it got there. *)
Definition x1_nvme_irq_snapshot (f : irq_facts) (qid vector result : Z) : I (option (bool * bool)) :=
  if negb (x1_nvme_irq_test f) then ret None else
  if (result !=? 0) || if_msi_enabled f || negb (if_msix_enabled f) || (1 <? vector) || (1 <? qid)
  then ret None else
  match vector_desc f vector with
  | None => ret None
  | Some (irq, d, desc) =>
      let msg := if_msg f irq in
      let node_ok := x1_nvme_irq_controller (if_xlate f).2 (if_its_node f) in
      let route_ok := node_ok && ((if_xlate f).1 =? 0x80100) && (address_hi msg =? 0) &&
                      (address_lo msg =? 0x17050040) && (msg_data msg =? vector) in
      let its_chip := existsb (λ v, lv_named_its v && (8192 <=? lv_hwirq v))
                        (take 4 (id_levels d)) in
      if if_msix_cap f =? 0 then ret None else
      let! r := cfg_reads (msix_words f) in
      let ctrl := word0 r.2 0 in
      if (r.1 !=? 0) || negb (tst ctrl PCI_MSIX_FLAGS_ENABLE) || negb (ds_mask_base desc) ||
         (ctrl .& PCI_MSIX_FLAGS_QSIZE <? ds_index desc) then ret None else
      do! table_entry (ds_index desc) in
      ret (Some (route_ok, its_chip))
  end.

(** *** x1-nvme-irq-evidence.h *)

(** The status words read, if every read succeeded. *)
Definition x1_nvme_irq_errors (f : irq_facts) (who : role) : I unit :=
  let pos := if_aer_cap f who in
  let aer_valid := (0x100 <=? pos) && (pos <=? 0xfc0) && negb (tst pos 3) in
  let! r := cfg_reads [CfgWord who PCI_COMMAND; CfgWord who PCI_STATUS; ExpWord who PCI_EXP_DEVSTA] in
  if (r.1 =? 0) && aer_valid then
    let! r := cfg_reads ((λ off, CfgDword who (pos + off)) <$>
                [PCI_ERR_UNCOR_STATUS; PCI_ERR_UNCOR_MASK; PCI_ERR_COR_STATUS;
                 PCI_ERR_COR_MASK; PCI_ERR_CAP]) in
    let unc := word0 r.2 0 in
    if (r.1 =? 0) && (unc !=? 0) && (unc !=? 0xffffffff) then
      do! cfg_reads ((λ i, CfgDword who (pos + PCI_ERR_HEADER_LOG + 4 * Z.of_nat i)) <$> seq 0 4) in
      ret tt
    else ret tt
  else ret tt.

(** *** irq-gic-v3-its-x1-audit.h *)

(** The first of the four innermost levels whose chip is the ITS's. *)
Definition its_level (l : list irq_level) : option irq_level := head (filter (λ v, lv_its_chip v = true) (take 4 l)).

(** The event of the ITS this interrupt is routed to, after every check. *)
Definition audit_event (f : irq_facts) (irq : Z) : option (Z * its_device) :=
  if negb (if_allowed f) || if_msi_enabled f || negb (if_msix_enabled f) then None else
  d ← if_irq_data f irq; desc ← id_desc d;
  if negb (usable_desc desc) || (1 <? ds_index desc) then None else
  v ← its_level (id_levels d);
  if lv_forwarded v then None else
  idev ← lv_device v;
  if negb (iv_its_base idev) || (iv_phys_base idev !=? 0x17040000) ||
     (iv_device_id idev !=? 0x80100) then None else
  let event := u32 (lv_event v) in
  if (1 <? event) || (event !=? ds_index desc) || (iv_nr_ites idev <=? event) then None else
  if negb (iv_node idev) then None else
  let msg := if_msg f irq in
  if (address_hi msg !=? 0) || (address_lo msg !=? 0x17050040) || (msg_data msg !=? event)
  then None else Some (event, idev).

Definition audit_bit (event : Z) (timeout : bool) : Z := event + (if timeout then 2 else 0).

(** Whether a stable report was seen. *)
Definition its_report (idev : its_device) : I (option bool) :=
  if negb (Z.testbit (iv_typer idev) 44) then ret None else
  let! before := mmio (ItsWord 0x40) in
  if before =? 0xffffffff then ret None else
  if negb (tst before (BIT 4)) then ret None else
  do! acc (ItsQuad 0x48) in
  let! after := mmio (ItsWord 0x40) in
  ret (Some ((after !=? 0xffffffff) && tst after (BIT 4) && (before =? after))).

Definition x1_its_msi_audit (f : irq_facts) (irq : Z) (timeout : bool) : I (option bool) :=
  match audit_event f irq with
  | None => ret None
  | Some (event, idev) =>
      let! s := get in
      let seen := x1_its_audit_seen s in
      do! modify (λ s, s <| x1_its_audit_seen := Z.setbit seen (audit_bit event timeout) |>) in
      if Z.testbit seen (audit_bit event timeout) then ret None else its_report idev
  end.

Definition root_identity_ok (f : irq_facts) : bool :=
  match if_root f with
  | Some r => (pd_domain r =? 0) && (pd_bus r =? 0) && (pd_devfn r =? 0) &&
              (pd_vendor r =? 0x17cb) && (pd_device r =? 0x0111) &&
              (pd_pcie_type r =? PCI_EXP_TYPE_ROOT_PORT)
  | None => false
  end.

Definition pba_known (f : irq_facts) (table pba : Z) : bool :=
  (table =? 0x2000) && (pba =? 0x3000) && if_bar0_mem f && (if_bar0_start f !=? 0) &&
  (0x3004 <=? if_bar0_len f).

Definition x1_nvme_irq_state (f : irq_facts) (qid vector : Z) (timeout : bool) : I unit :=
  if negb (x1_nvme_irq_test f) || (1 <? qid) || (qid !=? vector) || if_msi_enabled f ||
     negb (if_msix_enabled f) || (if_msix_cap f =? 0) then ret tt else
  match vector_desc f vector with
  | None => ret tt
  | Some (irq, d, desc) =>
      if (ds_index desc !=? vector) || negb (ds_mask_base desc) then ret tt else
      do! x1_its_msi_audit f irq timeout in
      let! r := cfg_reads (msix_words f) in
      let ctrl := word0 r.2 0 in
      if (r.1 !=? 0) || negb (tst ctrl PCI_MSIX_FLAGS_ENABLE) ||
         (ctrl .& PCI_MSIX_FLAGS_QSIZE <? ds_index desc) then ret tt else
      do! table_entry (ds_index desc) in
      do! (if pba_known f (word0 r.2 1) (word0 r.2 2) && if_iomap f
           then let! _ := mmio PendingWord in ret tt else ret tt) in
      do! x1_nvme_irq_errors f Endpoint in
      if root_identity_ok f then x1_nvme_irq_errors f Root else ret tt
  end.

Definition x1_nvme_irq_setup (f : irq_facts) (qid vector result : Z) : I unit :=
  do! x1_nvme_irq_snapshot f qid vector result in
  if result =? 0 then x1_nvme_irq_state f qid vector false else ret tt.

(** *** x1-nvme-irq-timeout.h *)

Record nvme_queue := {
  nq_qid : Z;
  nq_trylock : bool;
  nq_enabled : bool;
  nq_polled : bool;
  (** the status words of the completion queue, if it is allocated *)
  nq_cqes : option (list Z);
  nq_cq_vector : Z;
  nq_cq_head : Z;
  nq_q_depth : Z;
  nq_bar_mapped : Z;
}.

Definition x1_nvme_irq_timeout (f : irq_facts) (q : nvme_queue) : I unit :=
  if negb (x1_nvme_irq_test f) || (1 <? nq_qid q) then ret tt else
  let! s := get in
  let i := Z.to_nat (nq_qid q) in
  if word0 (x1_irq_timeouts s) i !=? 0 then ret tt else
  do! modify (λ s, s <| x1_irq_timeouts := <[i := 1]> (x1_irq_timeouts s) |>) in
  if negb (nq_trylock q) then ret tt else
  match nq_cqes q with
  | None => ret tt
  | Some cqes =>
      if negb (nq_enabled q) || nq_polled q || (nq_cq_vector q !=? nq_qid q) ||
         (nq_bar_mapped q =? 0) then ret tt else
      if nq_q_depth q <=? nq_cq_head q then ret tt else
      let! _ := lift (word_of cqes (Z.to_nat (nq_cq_head q))) in
      x1_nvme_irq_state f (nq_qid q) (nq_cq_vector q) true
  end.
End evidence.

(** ** Any sequence of interrupts, vector requests and timeouts *)

Inductive irq_op :=
| IEnter (f : irq_facts) (qid : Z)
| ISetup (f : irq_facts) (qid vector result : Z)
| ITimeout (f : irq_facts) (q : nvme_queue).

Definition op_facts (op : irq_op) : irq_facts :=
  match op with IEnter f _ | ISetup f _ _ _ | ITimeout f _ => f end.

(** The offsets of configuration space that may be read: the MSI-X capability,
    the two status words, and a valid AER capability. *)
Definition aer_word (pos off : Z) : Prop := 0x100 ≤ pos ≤ 0xfc0 ∧ pos + 4 ≤ off ≤ pos + 0x28.
Definition read_ok (f : irq_facts) (a : access) : Prop :=
  match a with
  | CfgWord who off =>
      off = PCI_COMMAND ∨ off = PCI_STATUS ∨
      who = Endpoint ∧ if_msix_cap f ≠ 0 ∧ off = if_msix_cap f + PCI_MSIX_FLAGS
  | CfgDword who off =>
      aer_word (if_aer_cap f who) off ∨
      who = Endpoint ∧ if_msix_cap f ≠ 0 ∧
        (off = if_msix_cap f + PCI_MSIX_TABLE ∨ off = if_msix_cap f + PCI_MSIX_PBA)
  | ExpWord _ off => off = PCI_EXP_DEVSTA
  | TableWord index off => index ≤ PCI_MSIX_FLAGS_QSIZE ∧ 0 ≤ off < PCI_MSIX_ENTRY_SIZE
  | PendingWord => if_bar0_mem f = true ∧ 0x3004 ≤ if_bar0_len f
  | ItsWord off => off = 0x40
  | ItsQuad off => off = 0x48
  end.
Definition is_its (a : access) : bool := match a with ItsWord _ | ItsQuad _ => true | _ => false end.
Definition its_reads (t : list access) : nat := length (filter (λ a, is_its a = true) t).

Section bounds.
Context {D : Type} (answer : access → D → Z * Z * D).
Implicit Types s : irqs D.

(** How many of the four (event, stage) pairs have been audited. *)
Definition marks s : nat :=
  length (filter (λ i, Z.testbit (x1_its_audit_seen s) i = true) [0; 1; 2; 3]).

(** At most [n] reads, all allowed, the timeout latches as they were, and ITS
    reads paid for by newly marked pairs, up to [k] that are not. *)
Definition within (f : irq_facts) (n k : nat) s s' : Prop := ∃ t,
  ir_log s' = ir_log s ++ t ∧ (length t ≤ n)%nat ∧ Forall (read_ok f) t ∧
  x1_irq_timeouts s' = x1_irq_timeouts s ∧ (its_reads t + 3 * marks s ≤ 3 * marks s' + k)%nat.
Definition credit {A} (f : irq_facts) (n k : nat) (m : M (irqs D) A) : Prop :=
  ∀ s, within f n k s (m s).2 ∧ (m s).1 ≠ Fault.
Definition bounded {A} (f : irq_facts) (n : nat) (m : M (irqs D) A) : Prop := credit f n 0 m.

Lemma within_refl f n k s : within f n k s s.
Proof. exists []. rewrite app_nil_r. split_and!; try done; simpl; lia. Qed.
Lemma within_trans f n m k l s1 s2 s3 :
  within f n k s1 s2 → within f m l s2 s3 → within f (n + m) (k + l) s1 s3.
Proof.
  intros (t&E1&L1&F1&T1&I1) (u&E2&L2&F2&T2&I2). exists (t ++ u).
  rewrite E2, E1, app_assoc, length_app, T2, T1. split_and!; try done; [lia|by apply Forall_app|].
  unfold its_reads in *. rewrite filter_app, length_app. lia.
Qed.
Lemma within_le f n m k l s s' :
  (n ≤ m)%nat → (k ≤ l)%nat → within f n k s s' → within f m l s s'.
Proof. intros Hn Hk (t&?&?&?&?&?). exists t. split_and!; try done; lia. Qed.

Lemma credit_ret {A} f n k (a : A) : credit f n k (ret a).
Proof. intros s. split; [apply within_refl|done]. Qed.
Lemma credit_bind {A B} f n m k l (c : M (irqs D) A) (h : A → M (irqs D) B) :
  credit f n k c → (∀ a, credit f m l (h a)) → credit f (n + m) (k + l) (bind c h).
Proof.
  intros Hc Hk s. unfold bind. specialize (Hc s). destruct (c s) as [[a|e|] s1]; cbn in *.
  - destruct Hc as [Hc _], (Hk a s1) as [Hk1 Hk2]. split; [by eapply within_trans|done].
  - destruct Hc as [Hc _]. split; [eapply within_le, Hc; lia|done].
  - by destruct Hc.
Qed.
Lemma credit_if {A} f n k (b : bool) (c d : M (irqs D) A) :
  credit f n k c → credit f n k d → credit f n k (if b then c else d).
Proof. by destruct b. Qed.
Lemma credit_acc f a : read_ok f a → credit f 1 (Nat.b2n (is_its a)) (acc answer a).
Proof.
  intros Ha s. unfold acc. destruct (answer a (ir_dev s)) as [[r v] d]. split; [|done].
  exists [a]. split_and!; try done; [by constructor|]. unfold its_reads, marks. cbn [set_field].
  destruct (is_its a) eqn:Ei; [rewrite filter_cons_True by done|
    rewrite filter_cons_False by (by rewrite Ei)]; cbn -[Nat.mul]; lia.
Qed.

Lemma bounded_ret {A} f n (a : A) : bounded f n (ret a).
Proof. apply credit_ret. Qed.
Lemma bounded_bind {A B} f n m (c : M (irqs D) A) (h : A → M (irqs D) B) :
  bounded f n c → (∀ a, bounded f m (h a)) → bounded f (n + m) (bind c h).
Proof. apply (credit_bind f n m 0 0). Qed.
Lemma bounded_if {A} f n (b : bool) (c d : M (irqs D) A) :
  bounded f n c → bounded f n d → bounded f n (if b then c else d).
Proof. apply credit_if. Qed.
Lemma bounded_le {A} f n m (c : M (irqs D) A) : (n ≤ m)%nat → bounded f n c → bounded f m c.
Proof. intros Hn Hc s. destruct (Hc s) as [Hw Hf]. split; [by eapply within_le|done]. Qed.

Lemma bounded_acc f a : read_ok f a → is_its a = false → bounded f 1 (acc answer a).
Proof. intros Ha Hi. pose proof (credit_acc f a Ha) as Hc. by rewrite Hi in Hc. Qed.
Lemma bounded_mmio f a : read_ok f a → is_its a = false → bounded f 1 (mmio answer a).
Proof. intros Ha Hi. apply (bounded_bind f 1 0); [by apply bounded_acc|]. intros. apply bounded_ret. Qed.

Lemma bounded_reads f l :
  Forall (λ a, read_ok f a ∧ is_its a = false) l → bounded f (length l) (cfg_reads answer l).
Proof.
  induction 1 as [|a l [Ha Hi] _ IH]; cbn [cfg_reads length]; [apply bounded_ret|].
  apply (bounded_bind f 1); [by apply bounded_acc|]. intros rv. apply bounded_if; [apply bounded_ret|].
  rewrite <- (Nat.add_0_r (length l)). apply bounded_bind; [done|]. intros. apply bounded_ret.
Qed.

Lemma bounded_entry f i :
  i ≤ PCI_MSIX_FLAGS_QSIZE → bounded f 4 (table_entry answer i).
Proof.
  intros Hi. unfold table_entry.
  do 4 (apply (bounded_bind f 1); [apply bounded_mmio; [split; [done|]|done];
    unfold PCI_MSIX_ENTRY_LOWER_ADDR, PCI_MSIX_ENTRY_UPPER_ADDR, PCI_MSIX_ENTRY_DATA,
      PCI_MSIX_ENTRY_VECTOR_CTRL, PCI_MSIX_ENTRY_SIZE; lia|intros ?]).
  apply bounded_ret.
Qed.

Lemma msix_ok f :
  if_msix_cap f ≠ 0 → Forall (λ a, read_ok f a ∧ is_its a = false) (msix_words f).
Proof. intros Hm. unfold msix_words. cbv zeta. repeat constructor; cbn; tauto. Qed.

Lemma qsize_bound ctrl i : (ctrl .& PCI_MSIX_FLAGS_QSIZE <? i) = false → i ≤ PCI_MSIX_FLAGS_QSIZE.
Proof.
  intros Hi%Z.ltb_ge. etrans; [exact Hi|]. unfold PCI_MSIX_FLAGS_QSIZE.
  change 0x7ff with (Z.ones 11). rewrite Z.land_ones by lia.
  pose proof (Z.mod_pos_bound ctrl (2 ^ 11)). change (Z.ones 11) with (2 ^ 11 - 1). lia.
Qed.

Lemma bounded_snapshot f qid vector result :
  bounded f 7 (x1_nvme_irq_snapshot answer f qid vector result).
Proof.
  unfold x1_nvme_irq_snapshot. do 2 (apply bounded_if; [apply bounded_ret|]).
  destruct (vector_desc f vector) as [[[irq d] desc]|]; [|apply bounded_ret]. cbv zeta.
  destruct (Z.eqb_spec (if_msix_cap f) 0) as [|Hm]; [apply bounded_ret|].
  apply (bounded_bind f 3 4); [by apply (bounded_reads f (msix_words f)), msix_ok|]. intros r.
  destruct (_ || (_ <? ds_index desc)) eqn:Eg; [apply bounded_ret|].
  apply orb_false_iff in Eg as [_ Hi%qsize_bound].
  apply (bounded_bind f 4 0); [by apply bounded_entry|]. intros. apply bounded_ret.
Qed.

Lemma bounded_errors f who : bounded f 12 (x1_nvme_irq_errors answer f who).
Proof.
  unfold x1_nvme_irq_errors. cbv zeta. apply (bounded_bind f 3 9).
  { apply (bounded_reads f [_; _; _]). repeat constructor; cbn; tauto. }
  intros r. destruct (_ && _) eqn:Ea; [|apply bounded_ret].
  apply andb_true_iff in Ea as [_ Ha]. rewrite !andb_true_iff, !Z.leb_le in Ha. destruct Ha as [[H1 H2] _].
  apply (bounded_bind f 5 4).
  { refine (bounded_reads f _ _). apply Forall_fmap, Forall_forall. intros off Hoff.
    split; [|done]. left. split; [done|].
    unfold PCI_ERR_UNCOR_STATUS, PCI_ERR_UNCOR_MASK, PCI_ERR_COR_STATUS, PCI_ERR_COR_MASK, PCI_ERR_CAP in Hoff.
    set_solver by lia. }
  intros r2. apply bounded_if; [|apply bounded_ret].
  apply (bounded_bind f 4 0); [|intros; apply bounded_ret].
  refine (bounded_reads f _ _). apply Forall_fmap, Forall_forall. intros i [_ Hi]%elem_of_seq.
  split; [|done]. left. split; [done|]. unfold PCI_ERR_HEADER_LOG. lia.
Qed.

Lemma marks_bits s :
  let b i := Nat.b2n (Z.testbit (x1_its_audit_seen s) i) in (marks s = b 0%Z + b 1%Z + b 2%Z + b 3%Z)%nat.
Proof.
  cbv zeta. unfold marks. set (n := x1_its_audit_seen s). clearbody n.
  assert (∀ i l, length (filter (λ i, Z.testbit n i = true) (i :: l)) =
    Nat.b2n (Z.testbit n i) + length (filter (λ i, Z.testbit n i = true) l))%nat as Hc.
  { intros i l. destruct (Z.testbit n i) eqn:E;
      [by rewrite filter_cons_True|by rewrite filter_cons_False by (by rewrite E)]. }
  rewrite !Hc. cbn. lia.
Qed.

(** Marking a pair counts once. *)
Lemma marks_set s b :
  0 ≤ b ≤ 3 →
  marks (s <| x1_its_audit_seen := Z.setbit (x1_its_audit_seen s) b |>) =
    (marks s + Nat.b2n (negb (Z.testbit (x1_its_audit_seen s) b)))%nat.
Proof.
  intros Hb. rewrite !marks_bits. cbv zeta.
  change (x1_its_audit_seen (s <| x1_its_audit_seen := ?n |>)) with n.
  set (n := x1_its_audit_seen s). clearbody n. rewrite !Z.setbit_eqb by lia.
  assert (b = 0 ∨ b = 1 ∨ b = 2 ∨ b = 3) as [-> | [-> | [-> | ->]]] by lia;
    destruct (Z.testbit n 0), (Z.testbit n 1), (Z.testbit n 2), (Z.testbit n 3); done.
Qed.

Lemma audit_event_range f irq event idev :
  audit_event f irq = Some (event, idev) → 0 ≤ event ≤ 1.
Proof.
  unfold audit_event. destruct (_ || _); [done|].
  intros (d&_&(desc&_&E)%bind_Some)%bind_Some. revert E. destruct (_ || _); [done|].
  intros (v&_&E)%bind_Some. revert E. destruct (lv_forwarded v); [done|].
  intros (iv&_&E)%bind_Some. revert E. destruct (_ || _); [done|].
  destruct ((1 <? u32 (lv_event v)) || _ || _) eqn:Ee; [done|].
  destruct (negb (iv_node iv)); [done|]. cbv zeta.
  destruct ((address_hi _ !=? 0) || _ || _); [done|]. intros [= <- _].
  rewrite !orb_false_iff, Z.ltb_ge in Ee. pose proof (u32_range (lv_event v)). lia.
Qed.

Lemma credit_its f off : off = 0x40 → credit f 1 1 (mmio answer (ItsWord off)).
Proof.
  intros ->. apply (credit_bind f 1 0 1 0); [by apply (credit_acc f (ItsWord 0x40))|].
  intros. apply credit_ret.
Qed.

Lemma credit_report f idev : credit f 3 3 (its_report answer idev).
Proof.
  apply credit_if; [apply credit_ret|].
  apply (credit_bind f 1 2 1 2); [by apply credit_its|]. intros before.
  do 2 (apply credit_if; [apply credit_ret|]).
  apply (credit_bind f 1 1 1 1); [by apply (credit_acc f (ItsQuad 0x48))|]. intros _.
  apply (credit_bind f 1 0 1 0); [by apply credit_its|]. intros. apply credit_ret.
Qed.

(** Up to three reads of the ITS, paid for by the pair that is marked. *)
Lemma bounded_audit f irq timeout : bounded f 3 (x1_its_msi_audit answer f irq timeout).
Proof.
  unfold x1_its_msi_audit. destruct (audit_event f irq) as [[event idev]|] eqn:Ee; [|apply bounded_ret].
  apply audit_event_range in Ee. assert (0 ≤ audit_bit event timeout ≤ 3) as Hb
    by (unfold audit_bit; destruct timeout; lia).
  intros s. pose proof (marks_set s _ Hb) as Hm. unfold bind, get, modify. cbv zeta.
  set (s1 := s <| x1_its_audit_seen := _ |>) in *.
  assert (ir_log s1 = ir_log s ∧ x1_irq_timeouts s1 = x1_irq_timeouts s) as [L1 T1] by done.
  clearbody s1. destruct (Z.testbit _ (audit_bit event timeout)); cbn [negb Nat.b2n] in Hm.
  { split; [|done]. exists []. rewrite app_nil_r. split_and!; try done; simpl; lia. }
  destruct (credit_report f idev s1) as [(t&E&L&F&T&I) Hf]. split; [|done].
  exists t. rewrite E, L1, T, T1. split_and!; try done. lia.
Qed.

Lemma bounded_state f qid vector timeout :
  bounded f 35 (x1_nvme_irq_state answer f qid vector timeout).
Proof.
  unfold x1_nvme_irq_state. destruct (_ || (if_msix_cap f =? 0)) eqn:Eg; [apply bounded_ret|].
  apply orb_false_iff in Eg as [_ Hm%Z.eqb_neq].
  destruct (vector_desc f vector) as [[[irq d] desc]|]; [|apply bounded_ret].
  apply bounded_if; [apply bounded_ret|].
  apply (bounded_bind f 3 32); [apply bounded_audit|]. intros _.
  apply (bounded_bind f 3 29); [by apply (bounded_reads f (msix_words f)), msix_ok|]. intros r. cbv zeta.
  destruct (_ || (_ <? ds_index desc)) eqn:Eg; [apply bounded_ret|].
  apply orb_false_iff in Eg as [_ Hi%qsize_bound].
  apply (bounded_bind f 4 25); [by apply bounded_entry|]. intros _.
  apply (bounded_bind f 1 24).
  { destruct (_ && if_iomap f) eqn:Ep; [|apply bounded_ret].
    apply (bounded_bind f 1 0); [|intros; apply bounded_ret]. apply bounded_mmio; [|done].
    apply andb_true_iff in Ep as [Hp _]. unfold pba_known in Hp.
    rewrite !andb_true_iff, Z.leb_le in Hp. cbn. tauto. }
  intros _. apply (bounded_bind f 12 12); [apply bounded_errors|]. intros _.
  apply bounded_if; [apply bounded_errors|apply bounded_ret].
Qed.

Lemma bounded_setup f qid vector result : bounded f 42 (x1_nvme_irq_setup answer f qid vector result).
Proof.
  apply (bounded_bind f 7 35); [apply bounded_snapshot|]. intros _.
  apply bounded_if; [apply bounded_state|apply bounded_ret].
Qed.

(** The completion queue is as deep as it says. *)
Definition queue_ok (q : nvme_queue) : Prop :=
  0 ≤ nq_qid q ∧ 0 ≤ nq_cq_head q ∧
  ∀ cqes, nq_cqes q = Some cqes → nq_q_depth q ≤ Z.of_nat (length cqes).

(** Each of the two latches pays for one snapshot. *)
Definition latches s : nat :=
  length (filter (λ i, word0 (x1_irq_timeouts s) i ≠ 0) [0; 1]%nat).

Lemma latches_le s : (latches s ≤ 2)%nat.
Proof. unfold latches. etrans; [apply length_filter|]. done. Qed.

Lemma latches_same s s' : x1_irq_timeouts s' = x1_irq_timeouts s → latches s' = latches s.
Proof. intros E. unfold latches. by rewrite E. Qed.

Lemma latches_set s i :
  (i < 2)%nat → length (x1_irq_timeouts s) = 2%nat → word0 (x1_irq_timeouts s) i = 0 →
  latches (s <| x1_irq_timeouts := <[i := 1]> (x1_irq_timeouts s) |>) = S (latches s).
Proof.
  intros Hi Hl Hz. unfold latches. change (x1_irq_timeouts (s <| x1_irq_timeouts := ?l |>)) with l.
  destruct (x1_irq_timeouts s) as [|a [|b [|? ?]]]; try done. unfold word0 in *.
  assert (i = 0 ∨ i = 1)%nat as [-> | ->] by lia; cbn in Hz; subst.
  - destruct (decide (b = 0)) as [->|Hb]; [done|]. unfold filter, list_filter. cbn.
    repeat case_decide; cbn in *; congruence || done.
  - destruct (decide (a = 0)) as [->|Hb]; [done|]. unfold filter, list_filter. cbn.
    repeat case_decide; cbn in *; congruence || done.
Qed.
End bounds.

Section run.
Context {D : Type} (answer : access → D → Z * Z * D).
Implicit Types s : irqs D.

Definition irq_step (op : irq_op) : M (irqs D) unit :=
  match op with
  | IEnter f qid => x1_nvme_irq_enter f qid
  | ISetup f qid vector result => x1_nvme_irq_setup answer f qid vector result
  | ITimeout f q => x1_nvme_irq_timeout answer f q
  end.
Definition irq_run (ops : list irq_op) (s : irqs D) : irqs D := foldl (λ s op, (irq_step op s).2) s ops.
Definition irq_boot (d : D) : irqs D := Irqs [0; 0] [0; 0] 0 d [].

Definition op_cost (op : irq_op) : nat := match op with ISetup _ _ _ _ => 42 | _ => 0 end.
Definition op_ok (op : irq_op) : Prop := match op with ITimeout _ q => queue_ok q | _ => True end.

(** What one call may have done. *)
Definition stepped (op : irq_op) s s' : Prop := ∃ t,
  ir_log s' = ir_log s ++ t ∧ Forall (read_ok (op_facts op)) t ∧
  (x1_nvme_irq_test (op_facts op) = false → t = []) ∧
  (its_reads t + 3 * marks s ≤ 3 * marks s')%nat ∧
  (length t + 35 * latches s ≤ op_cost op + 35 * latches s')%nat ∧
  length (x1_irq_timeouts s') = 2%nat.

Lemma stepped_refl op s : length (x1_irq_timeouts s) = 2%nat → stepped op s s.
Proof. intros Hl. exists []. rewrite app_nil_r. split_and!; try done; simpl; lia. Qed.

Lemma setup_off f qid vector result s :
  x1_nvme_irq_test f = false → (x1_nvme_irq_setup answer f qid vector result s).2 = s.
Proof.
  intros Ht. unfold x1_nvme_irq_setup, x1_nvme_irq_snapshot, x1_nvme_irq_state, bind.
  rewrite Ht. cbn. by destruct (result =? 0).
Qed.

Lemma step_stepped op s :
  op_ok op → length (x1_irq_timeouts s) = 2%nat →
  stepped op s (irq_step op s).2 ∧ (irq_step op s).1 ≠ Fault.
Proof.
  intros Hop Hl. destruct op as [f qid|f qid vector result|f q]; cbn [irq_step].
  - split; [|done]. unfold x1_nvme_irq_enter, modify. cbn [snd].
    destruct (_ && _); [|by apply stepped_refl].
    exists []. rewrite app_nil_r. unfold marks, latches. split_and!; try done; simpl; lia.
  - destruct (bounded_setup answer f qid vector result s) as [(t&E&L&F&T&I) Hf]. split; [|done].
    destruct (x1_nvme_irq_test f) eqn:Ht;
      [|rewrite setup_off by done; by apply stepped_refl].
    exists t. cbn [op_facts op_cost]. rewrite T, (latches_same _ _ T). split_and!; try done; [congruence|lia..].
  - destruct Hop as (Hq0&Hh0&Hc). unfold x1_nvme_irq_timeout.
    destruct (negb (x1_nvme_irq_test f) || _) eqn:Eg; [split; [by apply stepped_refl|done]|].
    apply orb_false_iff in Eg as [Ht%negb_false_iff Hq%Z.ltb_ge].
    unfold bind at 1 4, get. cbv zeta.
    destruct (Z.eqb_spec (word0 (x1_irq_timeouts s) (Z.to_nat (nq_qid q))) 0) as [Hz|];
      [|split; [by apply stepped_refl|done]]. cbn [negb].
    unfold bind, modify. pose proof (latches_set s (Z.to_nat (nq_qid q)) ltac:(lia) Hl Hz) as Hla.
    set (s1 := s <| x1_irq_timeouts := _ |>) in *.
    assert (ir_log s1 = ir_log s ∧ marks s1 = marks s ∧ length (x1_irq_timeouts s1) = 2%nat)
      as (L1&M1&T1) by (split_and!; [done..|]; cbn; by rewrite length_insert).
    clearbody s1. assert (∀ s2, within f 35 0 s1 s2 → stepped (ITimeout f q) s s2) as Hend.
    { intros s2 (t&E&L&F&T&I). exists t. cbn [op_facts op_cost].
      rewrite E, L1, T, (latches_same _ _ T). split_and!; try done; [congruence|lia..]. }
    pose proof (Hend s1 (within_refl f 35 0 s1)) as Hs1.
    destruct (negb (nq_trylock q)); [done|]. destruct (nq_cqes q) as [cqes|]; [|done].
    destruct (_ || _); [done|]. destruct (Z.leb_spec (nq_q_depth q) (nq_cq_head q)); [done|].
    specialize (Hc cqes eq_refl). unfold lift, word_of.
    destruct (lookup_lt_is_Some_2 cqes (Z.to_nat (nq_cq_head q))) as [w ->]; [lia|].
    destruct (bounded_state answer f (nq_qid q) (nq_cq_vector q) true s1) as [Hw Hf].
    split; [by apply Hend|done].
Qed.

Definition setups (ops : list irq_op) : nat := length (filter (λ op, op_cost op ≠ 0%nat) ops).

Lemma setups_cons op ops : (42 * setups (op :: ops) = op_cost op + 42 * setups ops)%nat.
Proof.
  unfold setups. destruct op; cbn [op_cost];
    [rewrite filter_cons_False by (cbn; lia)|rewrite filter_cons_True by (cbn; lia)|
     rewrite filter_cons_False by (cbn; lia)]; cbn [length]; lia.
Qed.

Lemma run_bound ops s :
  Forall op_ok ops → length (x1_irq_timeouts s) = 2%nat →
  ∃ t, ir_log (irq_run ops s) = ir_log s ++ t ∧
    Forall (λ a, ∃ op, op ∈ ops ∧ x1_nvme_irq_test (op_facts op) = true ∧ read_ok (op_facts op) a) t ∧
    (its_reads t + 3 * marks s ≤ 3 * marks (irq_run ops s))%nat ∧
    (length t + 35 * latches s ≤ 42 * setups ops + 35 * latches (irq_run ops s))%nat ∧
    length (x1_irq_timeouts (irq_run ops s)) = 2%nat.
Proof.
  intros Ho. revert s. induction Ho as [|op ops Hop _ IH]; intros s Hl.
  { exists []. rewrite app_nil_r. split_and!; try done; simpl; lia. }
  destruct (step_stepped op s Hop Hl) as [(t&E1&F1&H1&I1&L1&T1) _].
  change (irq_run (op :: ops) s) with (irq_run ops (irq_step op s).2).
  destruct (IH _ T1) as (u&E2&F2&I2&L2&T2). exists (t ++ u).
  rewrite E2, E1, app_assoc, length_app. unfold its_reads in *. rewrite filter_app, length_app.
  split; [done|]. split; [apply Forall_app; split|].
  - destruct (x1_nvme_irq_test (op_facts op)) eqn:Et; [|rewrite H1 by done; constructor].
    eapply Forall_impl; [exact F1|]. intros a Ha. exists op. split; [set_solver|done].
  - eapply Forall_impl; [exact F2|]. intros a (op'&Hin&?). exists op'. split; [set_solver|done].
  - split; [lia|]. split; [|done]. rewrite setups_cons. lia.
Qed.

(** Over any number of interrupts, vector requests and timeouts, with any
    answers of the hardware: evidence is read only while the drive is the
    admitted one, and only from the listed words of its configuration space and
    its root port's, its MSI-X table and pending word, and two registers of the
    interrupt controller.  Timeouts cost at most one snapshot per queue and
    boot, so that the number of reads is bounded by the vector requests however
    many timeouts there are; the interrupt controller is read at most twelve
    times per boot; and no completion entry is read out of bounds. *)
Theorem irq_evidence_bounded ops d :
  Forall op_ok ops →
  let s := irq_run ops (irq_boot d) in
  Forall (λ a, ∃ op, op ∈ ops ∧ x1_nvme_irq_test (op_facts op) = true ∧
                     read_ok (op_facts op) a) (ir_log s) ∧
  (length (ir_log s) ≤ 42 * setups ops + 70)%nat ∧
  (its_reads (ir_log s) ≤ 12)%nat ∧
  (∀ op, op_ok op → (irq_step op s).1 ≠ Fault).
Proof.
  intros Ho s. destruct (run_bound ops (irq_boot d) Ho) as (t&E&F&I&L&T); [done|].
  fold s in E, I, L, T. cbn [ir_log irq_boot app] in E. rewrite E.
  pose proof (latches_le s) as Hla. split; [done|].
  assert (marks s ≤ 4)%nat by (unfold marks; etrans; [apply length_filter|done]).
  split; [lia|]. split; [lia|]. intros op Hop. by apply step_stepped.
Qed.
End run.

(** ** The drive of the experiment *)

Definition sample_level : irq_level := {|
  lv_named_its := true; lv_its_chip := true; lv_hwirq := 8192; lv_forwarded := false;
  lv_device := Some {| iv_its_base := true; iv_phys_base := 0x17040000; iv_device_id := 0x80100;
                       iv_nr_ites := 2; iv_node := true; iv_typer := 2 ^ 44 |};
  lv_event := 0 |}.
Definition sample_desc : msi_desc := {|
  ds_ours := true; ds_is_msix := true; ds_is_virtual := false; ds_index := 0; ds_mask_base := true |}.
Definition sample_irq : irq_facts := {|
  if_native := true; if_allowed := true; if_msi_enabled := false; if_msix_enabled := true;
  if_msix_cap := 0xb0; if_aer_cap _ := 0x100; if_vector v := 40 + v;
  if_irq_data _ := Some {| id_desc := Some sample_desc; id_levels := [sample_level] |};
  if_msg _ := {| address_hi := 0; address_lo := 0x17050040; msg_data := 0 |};
  if_xlate := (0x80100, Some 9%nat); if_its_node := Some 9%nat;
  if_bar0_mem := true; if_bar0_start := 0x400100000; if_bar0_len := 0x4000; if_iomap := true;
  if_root := Some (PciDev 0 true true 0 0 0 0x17cb 0x0111 1 false true 4 0x060400 1 false) |}.
Definition sample_answer (a : access) (d : unit) : Z * Z * unit :=
  match a with
  | CfgWord _ off => (0, if off =? 0xb2 then 0x8001 else 0, d)
  | CfgDword _ off => (0, if off =? 0xb4 then 0x2000 else if off =? 0xb8 then 0x3000 else 0, d)
  | ItsWord _ => (0, 0x10, d)
  | _ => (0, 0, d)
  end.
Definition sample_queue : nvme_queue := {|
  nq_qid := 0; nq_trylock := true; nq_enabled := true; nq_polled := false;
  nq_cqes := Some [1; 1; 0; 0]; nq_cq_vector := 0; nq_cq_head := 2; nq_q_depth := 4;
  nq_bar_mapped := 0x4000 |}.
Definition sample_ops : list irq_op :=
  [ISetup sample_irq 0 0 0; IEnter sample_irq 0; ITimeout sample_irq sample_queue;
   ITimeout sample_irq sample_queue; ITimeout sample_irq sample_queue].

(** Two audits of three reads, one snapshot for three timeouts. *)
Example sample_reads :
  let s := irq_run sample_answer sample_ops (irq_boot tt) in
  its_reads (ir_log s) = 6%nat ∧ length (ir_log s) = 61%nat ∧
  x1_irq_entries s = [1; 0] ∧ x1_irq_timeouts s = [1; 0] ∧ x1_its_audit_seen s = 5.
Proof. vm_compute. split_and!; reflexivity. Qed.

Lemma irq_evidence_bounded_witness :
  (length (ir_log (irq_run sample_answer sample_ops (irq_boot tt))) ≤ 112)%nat ∧
  (its_reads (ir_log (irq_run sample_answer sample_ops (irq_boot tt))) ≤ 12)%nat.
Proof.
  destruct (irq_evidence_bounded sample_answer sample_ops tt) as (_&H1&H2&_).
  - assert (queue_ok sample_queue) as Hq.
    { split; [done|]. split; [done|]. by intros ? [= <-]. }
    apply Forall_forall. intros op Hop. unfold sample_ops in Hop. set_unfold in Hop.
    destruct_or? Hop; by subst op.
  - exact (conj H1 H2).
Defined.
