(* ===== verification/Lease.v ===== *)
(** * The clock controller's router lease

    The part of the production clock driver that belongs to this port
    (clk/qcom/gcc-x1e80100.c under experiments/omarchy1/kernel/drivers): the
    exclusive lease of the router's two receive clocks with its operations, and
    the power-off of the router's domain.  The clock framework, the register
    map and the allocator answer arbitrarily. *)

From S2P Require Import Prelude Wp.

(** ** Data *)

(** Lanes and parent slots are numbered 0 ([false]) and 1 ([true]). *)
Inductive selector := SelSys | SelDp0 | SelDp1 | SelPipe.
#[export] Instance selector_eq_dec : EqDecision selector.
Proof. solve_decision. Defined.

Inductive clk_hw :=
| HRx (i : bool) | HMux (i : bool) | HParent (i j : bool) | HSel (s : selector).

(** Calls out of the driver. *)
Inductive gcall :=
| ModGet | ModPut | Kzalloc | Kfree | DevGet | DevPut | LinkAdd | LinkDel
| Prepared (h : clk_hw) | ClkGet (h : clk_hw) | ClkPut (h : clk_hw)
| ParentOf (i j : bool) | FixedReg (i : bool) | FixedUnreg (i : bool)
| RateGet (i : bool) | RatePut (i : bool) | ClkOn (i : bool) | ClkOff (i : bool)
| SetParent (i j : bool) | RegRead (off : Z) | RegBits (off mask value : Z)
| SelEnabled (s : selector) | SelOn (s : selector) | SelOff (s : selector) | DomainOff.

(** A call returns an [int] (or a pointer) and a word. *)
Definition gevent : Type := gcall * (Z * Z).

(** [struct x1_gcc_usb4]: which pointers are set, and the flags. *)
Record x1_gcc_usb4 := GccLease {
  l_rx : bool → bool; l_mux : bool → bool; l_parent : bool → bool → bool;
  l_unknown : bool → bool; l_exclusive : bool → bool; l_enabled : bool → bool;
  l_link : bool;
}.
#[export] Instance x1_gcc_usb4_eta : Eta x1_gcc_usb4 := λ l,
  GccLease (l_rx l) (l_mux l) (l_parent l) (l_unknown l) (l_exclusive l) (l_enabled l) (l_link l).
Definition lease_zero : x1_gcc_usb4 :=
  GccLease (λ _, false) (λ _, false) (λ _ _, false) (λ _, false) (λ _, false) (λ _, false) false.

(** [x1_usb4_gcc_regmap] (set or NULL), [x1_usb4_gcc_lease] and the allocated
    leases. *)
Record gcc_state (W : Type) := Gcc {
  g_regmap : bool; g_lease : option Z; g_heap : gmap Z x1_gcc_usb4;
  g_log : list gevent; g_w : W;
}.
Arguments Gcc {_} _ _ _ _ _.
Arguments g_regmap {_} _.
Arguments g_lease {_} _.
Arguments g_heap {_} _.
Arguments g_log {_} _.
Arguments g_w {_} _.
#[export] Instance gcc_eta {W} : Eta (gcc_state W) := λ s,
  Gcc (g_regmap s) (g_lease s) (g_heap s) (g_log s) (g_w s).

Class GccEnv (W : Type) := gcc_answer : gcall → W → Z * Z * W.

Section lease.
Context {W : Type} `{GccEnv W}.
Notation MG := (M (gcc_state W)).

Definition gcall2 (c : gcall) : MG (Z * Z) := λ s,
  let '(r, v, w) := gcc_answer c (g_w s) in
  (Ok (r, u32 v), s <| g_w := w |> <| g_log := g_log s ++ [(c, (r, u32 v))] |>).
Definition gcall1 (c : gcall) : MG Z := let! p := gcall2 c in ret p.1.
Definition gcall0 (c : gcall) : MG unit := do! gcall2 c in ret tt.
Definition when (b : bool) (m : MG unit) : MG unit := if b then m else ret tt.

(** [lease->field]: undefined once the lease is freed. *)
Definition lget (p : Z) : MG x1_gcc_usb4 := λ s,
  match g_heap s !! p with Some l => (Ok l, s) | None => (Fault, s) end.
Definition lset (p : Z) (f : x1_gcc_usb4 → x1_gcc_usb4) : MG unit := λ s,
  match g_heap s !! p with
  | Some l => (Ok tt, s <| g_heap := <[p := f l]> (g_heap s) |>)
  | None => (Fault, s)
  end.

Definition on (i : bool) (f : bool → bool) : bool → bool := λ k, if eqb k i then true else f k.
Definition off_ (i : bool) (f : bool → bool) : bool → bool := λ k, if eqb k i then false else f k.
Definition on2 (i j : bool) (f : bool → bool → bool) : bool → bool → bool :=
  λ a b, if eqb a i && eqb b j then true else f a b.

Definition x1_usb4_gcc_valid (p : Z) : MG bool := λ s,
  (Ok ((p !=? 0) && bool_decide (g_lease s = Some p) && g_regmap s), s).

(** [clk_put(NULL)] does nothing. *)
Definition release_lane (l : x1_gcc_usb4) (i : bool) : MG unit :=
  do! when (l_enabled l i) (gcall0 (ClkOff i)) in
  do! when (l_exclusive l i) (gcall0 (RatePut i)) in
  do! for_each [false; true] (λ j, when (l_parent l i j) (gcall0 (ClkPut (HParent i j)))) in
  do! when (l_mux l i) (gcall0 (ClkPut (HMux i))) in
  when (l_rx l i) (gcall0 (ClkPut (HRx i))).

Definition x1_usb4_gcc_release (p : Z) : MG unit :=
  let! l := lget p in
  do! for_each [true; false] (release_lane l) in
  do! for_each [true; false] (λ i, when (l_unknown l i) (gcall0 (FixedUnreg i))) in
  do! when (l_link l) (gcall0 LinkDel) in
  do! gcall0 DevPut in
  do! gcall0 Kfree in
  modify (λ s, s <| g_heap := delete p (g_heap s) |>).

(** [clk = ...; if (IS_ERR(clk)) goto fail; lease->field = clk;] *)
Definition obtain (p : Z) (c : gcall) (f : x1_gcc_usb4 → x1_gcc_usb4) : MG unit :=
  let! r := gcall1 c in
  if r !=? 0 then fail r else lset p f.

Definition get_parent (p : Z) (i j : bool) : MG unit :=
  let! parent := gcall1 (ParentOf i j) in
  let! parent := (if (parent =? 0) && negb j then
                    do! obtain p (FixedReg i) (λ l, l <| l_unknown := on i (l_unknown l) |>) in
                    gcall1 (ParentOf i j)
                  else ret parent) in
  if parent =? 0 then fail (-EPROBE_DEFER) else
  obtain p (ClkGet (HParent i j)) (λ l, l <| l_parent := on2 i j (l_parent l) |>).

(** [if (clk_hw_is_prepared(rx) || clk_hw_is_prepared(mux))] *)
Definition lane_prepared (i : bool) : MG bool :=
  let! a := gcall1 (Prepared (HRx i)) in
  if a !=? 0 then ret true else
  let! b := gcall1 (Prepared (HMux i)) in ret (b !=? 0).

Definition get_lane (p : Z) (i : bool) : MG unit :=
  let! busy := lane_prepared i in
  if busy : bool then fail (-EBUSY) else
  do! obtain p (ClkGet (HRx i)) (λ l, l <| l_rx := on i (l_rx l) |>) in
  do! obtain p (ClkGet (HMux i)) (λ l, l <| l_mux := on i (l_mux l) |>) in
  do! for_each [false; true] (get_parent p i) in
  obtain p (RateGet i) (λ l, l <| l_exclusive := on i (l_exclusive l) |>).

Definition get_all (p : Z) : MG unit :=
  do! for_each [false; true] (get_lane p) in
  let! link := gcall1 LinkAdd in
  if link =? 0 then fail (-ENOMEM) else lset p (λ l, l <| l_link := true |>).

(** [consumer]: neither it nor its node is NULL. *)
Definition x1_gcc_usb4_get (consumer : bool) (port : Z) : MG Z :=
  if negb consumer then fail (-EINVAL) else
  if port !=? 0 then fail (-EOPNOTSUPP) else
  let! s := get in
  if negb (g_regmap s) then fail (-EPROBE_DEFER) else
  if bool_decide (is_Some (g_lease s)) then fail (-EBUSY) else
  let! module := gcall1 ModGet in
  if module =? 0 then fail (-ENODEV) else
  let! p := gcall1 Kzalloc in
  if p =? 0 then do! gcall0 ModPut in fail (-ENOMEM) else
  do! modify (λ s, s <| g_heap := <[p := lease_zero]> (g_heap s) |>) in
  do! gcall0 DevGet in
  do! on_error (get_all p) (do! x1_usb4_gcc_release p in gcall0 ModPut) in
  do! modify (λ s, s <| g_lease := Some p |>) in
  ret p.

Definition x1_gcc_usb4_put (p : Z) : MG unit :=
  let! s := get in
  if (p =? 0) || negb (bool_decide (g_lease s = Some p)) then ret tt else
  do! modify (λ s, s <| g_lease := None |>) in
  do! x1_usb4_gcc_release p in
  gcall0 ModPut.

Definition x1_usb4_rx_mux_regs (i : bool) : Z := if i then 0x9f0bc else 0x9f0ac.

Definition enable_rx (p : Z) (i : bool) : MG unit :=
  obtain p (ClkOn i) (λ l, l <| l_enabled := on i (l_enabled l) |>).

(** The four passes over the lanes. *)
Definition rx_check (p : Z) (i : bool) : MG unit :=
  let! r := gcall2 (RegRead (x1_usb4_rx_mux_regs i)) in
  if r.1 !=? 0 then fail r.1 else
  if ((r.2 .& 3) !=? 0) && ((r.2 .& 3) !=? 2) then fail (-EIO) else
  let! l := lget p in
  if l_enabled l i then ret tt else
  let! busy := lane_prepared i in
  if busy : bool then fail (-EBUSY) else ret tt.
Definition rx_account (p : Z) (i : bool) : MG unit :=
  let! l := lget p in
  if l_enabled l i then ret tt else enable_rx p i.
Definition rx_gate (p : Z) (i : bool) : MG unit :=
  do! gcall0 (ClkOff i) in lset p (λ l, l <| l_enabled := off_ i (l_enabled l) |>).
Definition rx_switch (phy : bool) (i : bool) : MG unit :=
  let! busy := gcall1 (Prepared (HMux i)) in
  if busy !=? 0 then fail (-EBUSY) else
  let! r := gcall1 (SetParent i (negb phy)) in
  if r !=? 0 then fail r else
  let! r := gcall2 (RegRead (x1_usb4_rx_mux_regs i)) in
  if (r.1 !=? 0) || ((r.2 .& 3) !=? (if phy then 0 else 2)) then fail (elvis r.1 (-EIO))
  else ret tt.

Definition x1_gcc_usb4_rx_select (p : Z) (phy : bool) : MG unit :=
  let! valid := x1_usb4_gcc_valid p in
  if negb valid then fail (-EPERM) else
  do! for_each [false; true] (rx_check p) in
  do! for_each [false; true] (rx_account p) in
  do! for_each [false; true] (rx_gate p) in
  do! for_each [false; true] (rx_switch phy) in
  for_each [false; true] (enable_rx p).

(** [regmap_read_poll_timeout]: at most [polls] reads. *)
Fixpoint poll_sys_ready (polls : nat) : MG unit :=
  match polls with
  | O => fail (-ETIMEDOUT)
  | S polls =>
      let! r := gcall2 (RegRead 0x9f054) in
      if r.1 !=? 0 then fail r.1 else
      if negb (tst r.2 (BIT 31)) then ret tt else poll_sys_ready polls
  end.

Definition x1_gcc_usb4_sys_ready (polls : nat) (p timeout_us : Z) : MG unit :=
  let! valid := x1_usb4_gcc_valid p in
  if negb valid then fail (-EPERM) else
  if (timeout_us =? 0) || (100000 <? timeout_us) then fail (-EINVAL) else
  poll_sys_ready polls.

Definition update_bit (p off bit : Z) (on : bool) : MG unit :=
  let! valid := x1_usb4_gcc_valid p in
  if negb valid then fail (-EPERM) else
  let! r := gcall1 (RegBits off bit (if on then bit else 0)) in ok_or_fail r.
Definition x1_gcc_usb4_sys_force_mem (p : Z) (on : bool) : MG unit :=
  update_bit p 0x9f054 (BIT 14) on.
Definition x1_gcc_usb4_pipe_hwcg (p : Z) (enable : bool) : MG unit :=
  update_bit p 0x9f0a4 (BIT 1) enable.
Definition x1_gcc_usb4_ctrl_bit (p : Z) (set : bool) : MG unit :=
  update_bit p 0x5001c (BIT 0) set.

(** [state]: it is not NULL. *)
Definition x1_gcc_usb4_reset_state (p : Z) (state : bool) : MG Z :=
  let! valid := x1_usb4_gcc_valid p in
  if negb valid || negb state then fail (-EPERM) else
  let! r := gcall2 (RegRead 0xad0f8) in
  if r.1 !=? 0 then fail r.1 else ret (r.2 .& 0x7ff).

Definition gcc_usb4_0_gdscr : Z := 0x9f004.

Definition x1_gcc_usb4_power_on (p : Z) : MG unit :=
  let! valid := x1_usb4_gcc_valid p in
  if negb valid then fail (-EPERM) else
  let! gdscr := gcall2 (RegRead gcc_usb4_0_gdscr) in
  if gdscr.1 !=? 0 then fail gdscr.1 else
  let! cfg := gcall2 (RegRead (gcc_usb4_0_gdscr + 4)) in
  if cfg.1 !=? 0 then fail cfg.1 else
  if tst gdscr.2 (BIT 31) && tst cfg.2 (BIT 16) then ret tt else fail (-ENODEV).

(** [gcc_x1e80100_probe] publishes the register map, its action takes it back. *)
Definition gcc_publish : MG unit := modify (λ s, s <| g_regmap := true |>).
Definition x1_usb4_gcc_forget : MG unit := modify (λ s, s <| g_regmap := false |>).

(** ** Power-off of the domain *)

Definition x1_usb4_0_selectors : list (selector * bool) :=
  [(SelSys, true); (SelDp0, true); (SelDp1, true); (SelPipe, false)].

Definition sel_enabled (s : selector) : MG bool :=
  let! r := gcall1 (SelEnabled s) in ret (r !=? 0).

Definition x1_usb4_0_select (s : selector) (zero : bool) : MG unit :=
  gcall0 (if zero then SelOn s else SelOff s).

Definition selector_held (x : selector * bool) : MG unit :=
  let! e := sel_enabled x.1 in
  if eqb e x.2 then ret tt else
  let! r := gcall1 (Prepared (HSel x.1)) in
  if r !=? 0 then fail (-EBUSY) else ret tt.

(** Moves what is not in place; the result is the error and what was moved. *)
Fixpoint move_selectors (l moved : list (selector * bool)) : MG (Z * list (selector * bool)) :=
  match l with
  | [] => ret (0, moved)
  | x :: l =>
      let! e := sel_enabled x.1 in
      if eqb e x.2 then move_selectors l moved else
      do! x1_usb4_0_select x.1 x.2 in
      let moved := moved ++ [x] in
      let! e := sel_enabled x.1 in
      if eqb e x.2 then move_selectors l moved else ret (-EIO, moved)
  end.

Definition x1_usb4_0_gdsc_power_off : MG Z :=
  let! held := attempt (for_each x1_usb4_0_selectors selector_held) in
  if held !=? 0 then ret held else
  let! m := move_selectors x1_usb4_0_selectors [] in
  let! r := (if m.1 =? 0 then gcall1 DomainOff else ret m.1) in
  do! (if r =? 0 then ret tt
       else for_each m.2 (λ x, x1_usb4_0_select x.1 (negb x.2))) in
  ret r.

(** ** Histories *)

Inductive gop :=
| OGet (consumer : bool) (port : Z) | OPut (p : Z) | ORxSelect (p : Z) (phy : bool)
| OSysReady (p timeout_us : Z) | OForceMem (p : Z) (b : bool) | OPipeHwcg (p : Z) (b : bool)
| OCtrlBit (p : Z) (b : bool) | OResetState (p : Z) (state : bool) | OPowerOn (p : Z)
| OPublish | OForget | OPowerOff.

Definition run_gop (polls : nat) (o : gop) : MG unit :=
  match o with
  | OGet c port => do! x1_gcc_usb4_get c port in ret tt
  | OPut p => x1_gcc_usb4_put p
  | ORxSelect p phy => x1_gcc_usb4_rx_select p phy
  | OSysReady p t => x1_gcc_usb4_sys_ready polls p t
  | OForceMem p b => x1_gcc_usb4_sys_force_mem p b
  | OPipeHwcg p b => x1_gcc_usb4_pipe_hwcg p b
  | OCtrlBit p b => x1_gcc_usb4_ctrl_bit p b
  | OResetState p b => do! x1_gcc_usb4_reset_state p b in ret tt
  | OPowerOn p => x1_gcc_usb4_power_on p
  | OPublish => gcc_publish
  | OForget => x1_usb4_gcc_forget
  | OPowerOff => do! x1_usb4_0_gdsc_power_off in ret tt
  end.

Definition gcc_run (polls : nat) (l : list gop) : MG unit :=
  for_each l (λ o, do! attempt (run_gop polls o) in ret tt).

Definition gcc_boot (w : W) : gcc_state W := Gcc false None ∅ [] w.
End lease.
