(* ===== verification/LeaseProof.v ===== *)
(** * The clock controller's router lease: accounting

    Whatever the clock framework answers, every reference the lease driver
    takes is in the record of the one published lease, each call is allowed by
    the calls before it, and nothing is left when there is no lease. *)

From S2P Require Import Prelude Wp Lease.

(** ** Resources *)

Inductive rsc :=
| RModule | RMem | RDevice | RLink
| RRx (i : bool) | RMux (i : bool) | RParent (i j : bool) | RFixed (i : bool)
| RRate (i : bool) | REnabled (i : bool).
#[export] Instance rsc_eq_dec : EqDecision rsc.
Proof. solve_decision. Defined.

(** What a call may take, and when it has. *)
Definition may_take (c : gcall) : option rsc :=
  match c with
  | ModGet => Some RModule | Kzalloc => Some RMem | DevGet => Some RDevice
  | LinkAdd => Some RLink
  | ClkGet (HRx i) => Some (RRx i) | ClkGet (HMux i) => Some (RMux i)
  | ClkGet (HParent i j) => Some (RParent i j)
  | FixedReg i => Some (RFixed i) | RateGet i => Some (RRate i) | ClkOn i => Some (REnabled i)
  | _ => None
  end.
Definition succeeded (c : gcall) (r : Z) : bool :=
  match c with
  | ModGet | Kzalloc | LinkAdd => r !=? 0
  | DevGet => true
  | _ => r =? 0
  end.
Definition drops (c : gcall) : option rsc :=
  match c with
  | ModPut => Some RModule | Kfree => Some RMem | DevPut => Some RDevice | LinkDel => Some RLink
  | ClkPut (HRx i) => Some (RRx i) | ClkPut (HMux i) => Some (RMux i)
  | ClkPut (HParent i j) => Some (RParent i j)
  | FixedUnreg i => Some (RFixed i) | RatePut i => Some (RRate i) | ClkOff i => Some (REnabled i)
  | _ => None
  end.

Definition delta (e : gevent) (r : rsc) : Z :=
  Z.b2z (bool_decide (may_take e.1 = Some r) && succeeded e.1 e.2.1) -
  Z.b2z (bool_decide (drops e.1 = Some r)).
Definition balance (r : rsc) (L : list gevent) : Z := foldr (λ e n, delta e r + n) 0 L.

#[global] Arguments delta : simpl never.

Lemma balance_snoc r L e : balance r (L ++ [e]) = balance r L + delta e r.
Proof. unfold balance. induction L as [|x L IH]; cbn in *; [lia|rewrite IH; lia]. Qed.

#[global] Arguments balance : simpl never.

(** Calls are allowed by what is held: each resource is taken when it is free
    and given back when it is held; a receive clock changes its parent only
    while both are gated, under exclusive rate control; registers are touched
    only under a complete lease. *)
Definition allowed (held : rsc → Z) (c : gcall) : Prop :=
  (∀ r, may_take c = Some r → held r = 0) ∧
  (∀ r, drops c = Some r → held r = 1) ∧
  match c with
  | SetParent i j => held (RMux i) = 1 ∧ held (RParent i j) = 1 ∧ held (RRate i) = 1 ∧
                     held (REnabled false) = 0 ∧ held (REnabled true) = 0
  | ClkOn i => held (RRx i) = 1 ∧ held RLink = 1
  | RegRead _ | RegBits _ _ _ => held RLink = 1
  | RateGet i => held (RMux i) = 1
  | _ => True
  end.

Definition orderly (L : list gevent) : Prop :=
  ∀ L1 e L2, L = L1 ++ e :: L2 → allowed (λ r, balance r L1) e.1.

Lemma orderly_snoc L e : orderly L → allowed (λ r, balance r L) e.1 → orderly (L ++ [e]).
Proof.
  intros HL He L1 x L2 E. destruct (decide (L2 = [])) as [->|Hne].
  - apply app_inj_tail in E as [-> ->]. done.
  - destruct (exists_last Hne) as (L3&z&->). rewrite app_comm_cons, app_assoc in E.
    apply app_inj_tail in E as [E _]. by eapply HL.
Qed.

(** What a record says is held. *)
Definition holds (l : x1_gcc_usb4) (r : rsc) : bool :=
  match r with
  | RModule | RMem | RDevice => true
  | RLink => l_link l
  | RRx i => l_rx l i | RMux i => l_mux l i | RParent i j => l_parent l i j
  | RFixed i => l_unknown l i | RRate i => l_exclusive l i | REnabled i => l_enabled l i
  end.

Definition more (x : rsc) (h : rsc → bool) : rsc → bool := λ r, bool_decide (r = x) || h r.
Definition less (x : rsc) (h : rsc → bool) : rsc → bool := λ r, negb (bool_decide (r = x)) && h r.

Create HintDb lease.

Section accounting.
Context {W : Type} `{GccEnv W}.
Implicit Types (s : gcc_state W) (h : rsc → bool).

(** The ledger agrees with [h]; the other components of the state are as given. *)
Definition St h (reg : bool) (lp : option Z) (hp : gmap Z x1_gcc_usb4) s : Prop :=
  (∀ r, balance r (g_log s) = Z.b2z (h r)) ∧ orderly (g_log s) ∧
  g_regmap s = reg ∧ g_lease s = lp ∧ g_heap s = hp.

Lemma St_ext h h' reg lp hp s : St h reg lp hp s → (∀ r, h r = h' r) → St h' reg lp hp s.
Proof. intros (A&B) E. split; [|done]. intros r. by rewrite A, E. Qed.

Definition after h (c : gcall) (r : Z) : rsc → bool := λ x,
  (bool_decide (may_take c = Some x) && succeeded c r) ||
  (h x && negb (bool_decide (drops c = Some x))).

Lemma St_event h reg lp hp s c r v w :
  St h reg lp hp s → allowed (λ r, Z.b2z (h r)) c →
  St (after h c r) reg lp hp (s <| g_w := w |> <| g_log := g_log s ++ [(c, (r, v))] |>).
Proof.
  intros (A&B&C) (P1&P2&P3). split_and!; [|apply orderly_snoc; [done|]|apply C..].
  - intros x. cbn. rewrite balance_snoc, A. unfold delta, after. cbn [fst snd].
    specialize (P1 x). specialize (P2 x).
    assert (may_take c = Some x → drops c = Some x → False) as Hno.
    { intros T D. specialize (P1 T). specialize (P2 D). lia. }
    destruct (decide (may_take c = Some x)) as [T|T], (decide (drops c = Some x)) as [D|D];
      rewrite ?(bool_decide_true _ T), ?(bool_decide_false _ T), ?(bool_decide_true _ D), ?(bool_decide_false _ D);
      try (by destruct (Hno T D)).
    + specialize (P1 T). destruct (h x); [done|]. by destruct (succeeded c r).
    + specialize (P2 D). by destruct (h x).
    + destruct (h x); cbn; lia.
  - cbn. split_and!; [intros x Hx; rewrite A; by apply P1|intros x Hx; rewrite A; by apply P2|].
    destruct c; rewrite ?A; done.
Qed.

Lemma wp_gcall2 h reg lp hp s c (Q : Z * Z → gcc_state W → Prop) E :
  St h reg lp hp s → allowed (λ r, Z.b2z (h r)) c →
  (∀ r v s', St (after h c r) reg lp hp s' → Q (r, v) s') → wp (gcall2 c) Q E s.
Proof.
  intros HS Hc HQ. unfold wp, gcall2. destruct (gcc_answer c (g_w s)) as [[r v] w].
  apply HQ. by apply St_event.
Qed.

(** A call that neither takes nor drops. *)
Lemma after_neutral h c r x : may_take c = None → drops c = None → after h c r x = h x.
Proof.
  intros A B. unfold after. rewrite A, B. rewrite !bool_decide_false by done. cbn. by rewrite andb_true_r.
Qed.
Lemma wp_ask h reg lp hp s c (Q : Z * Z → gcc_state W → Prop) E :
  St h reg lp hp s → may_take c = None → drops c = None → allowed (λ r, Z.b2z (h r)) c →
  (∀ r v s', St h reg lp hp s' → Q (r, v) s') → wp (gcall2 c) Q E s.
Proof.
  intros HS A B Hc HQ. eapply wp_gcall2; [done..|]. intros r v s' HS'. apply HQ.
  eapply St_ext; [done|]. intros x. by apply after_neutral.
Qed.

Lemma wp_drop h reg lp hp s c x (Q : unit → gcc_state W → Prop) E :
  St h reg lp hp s → drops c = Some x → may_take c = None → h x = true →
  (∀ s', St (less x h) reg lp hp s' → Q tt s') → wp (gcall0 c) Q E s.
Proof.
  intros HS A B Hx HQ. unfold gcall0. apply wp_bind. eapply wp_gcall2; [done| |].
  - split_and!; [congruence|intros r; rewrite A; intros [= <-]; by rewrite Hx|by destruct c].
  - intros r v s' HS'. apply wp_ret, HQ. eapply St_ext; [done|]. intros y. unfold after, less.
    rewrite B, A, (bool_decide_false (None = Some y)) by done. cbn.
    destruct (decide (y = x)) as [->|Hne].
    + rewrite !bool_decide_true by done. by rewrite andb_false_r.
    + rewrite !bool_decide_false by congruence. by rewrite andb_true_r.
Qed.

(** A field that is set is given back. *)
Lemma wp_when h reg lp hp s b c x (Q : unit → gcc_state W → Prop) E :
  St h reg lp hp s → drops c = Some x → may_take c = None → h x = b →
  (∀ s', St (less x h) reg lp hp s' → Q tt s') → wp (when b (gcall0 c)) Q E s.
Proof.
  intros HS A B Hx HQ. destruct b; cbn [when]; [by eapply wp_drop|]. apply wp_ret, HQ.
  eapply St_ext; [done|]. intros y. unfold less. destruct (decide (y = x)) as [->|Hne].
  - by rewrite bool_decide_true, Hx by done.
  - by rewrite bool_decide_false by done.
Qed.

Lemma wp_lget reg lp hp h s p l (Q : x1_gcc_usb4 → gcc_state W → Prop) E :
  St h reg lp hp s → hp !! p = Some l → Q l s → wp (lget p) Q E s.
Proof. intros (_&_&_&_&Hh) Hp HQ. unfold wp, lget. by rewrite Hh, Hp. Qed.
Lemma wp_lset reg lp hp h s p l f (Q : unit → gcc_state W → Prop) E :
  St h reg lp hp s → hp !! p = Some l →
  (∀ s', St h reg lp (<[p := f l]> hp) s' → Q tt s') → wp (lset p f) Q E s.
Proof.
  intros HS Hp HQ. destruct HS as (A&B&C&D&Hh). unfold wp, lset. rewrite Hh, Hp. apply HQ.
  by split_and!.
Qed.

(** ** Giving a lease back *)

Lemma wp_release reg s p l (Q : unit → gcc_state W → Prop) E :
  St (holds l) reg None {[p := l]} s →
  (∀ s', St (λ r, bool_decide (r = RModule)) reg None ∅ s' → Q tt s') →
  wp (x1_usb4_gcc_release p) Q E s.
Proof.
  intros HS HQ. unfold x1_usb4_gcc_release. apply wp_bind.
  eapply wp_lget; [exact HS|apply lookup_singleton_eq|]. cbn [for_each]. unfold release_lane. cbn [for_each].
  repeat lazymatch goal with
  | |- wp (bind _ _) _ _ _ => apply wp_bind
  | |- wp (ret _) _ _ _ => apply wp_ret
  | HS : St _ _ _ _ ?s |- wp (when _ _) _ _ ?s =>
      eapply wp_when; [exact HS|reflexivity|reflexivity|vm_compute; reflexivity|];
      let s' := fresh "s" in let HS' := fresh "HS" in intros s' HS'; clear HS
  | HS : St _ _ _ _ ?s |- wp (gcall0 _) _ _ ?s =>
      eapply wp_drop; [exact HS|reflexivity|reflexivity|vm_compute; reflexivity|];
      let s' := fresh "s" in let HS' := fresh "HS" in intros s' HS'; clear HS
  end.
  apply wp_modify, HQ.
  match goal with HS : St _ _ _ _ _ |- _ => destruct HS as (A&B&C&D&F) end.
  split_and!; [|done..|cbn; rewrite F; apply delete_singleton_eq].
  intros r. cbn. rewrite A. f_equal. by destruct r as [| | | |[]|[]|[] []|[]|[]|[]]; vm_compute.
Qed.

(** ** Taking a lease *)

(** A lease in the making, its record [l] at [p]. *)
Definition making reg p l s : Prop := St (holds l) reg None {[p := l]} s.
Definition made reg p s : Prop := ∃ l, making reg p l s.

Lemma wp_obtain reg lp p l s c x f (Q : unit → gcc_state W → Prop) (E : Z → gcc_state W → Prop) :
  St (holds l) reg lp {[p := l]} s → may_take c = Some x → drops c = None →
  (∀ r, succeeded c r = (r =? 0)) → holds l x = false →
  (∀ r, holds (f l) r = more x (holds l) r) →
  allowed (λ r, Z.b2z (holds l r)) c →
  (∀ s', St (holds (f l)) reg lp {[p := f l]} s' → Q tt s') →
  (∀ e s', St (holds l) reg lp {[p := l]} s' → E e s') → wp (obtain p c f) Q E s.
Proof.
  intros HS T D Hs Hx Hf Hal HQ HE. unfold obtain, gcall1. apply wp_bind, wp_bind.
  eapply wp_gcall2; [done..|]. intros r v s' HS'. apply wp_ret. cbn [fst].
  assert (∀ y, after (holds l) c r y = if r =? 0 then more x (holds l) y else holds l y) as Ha.
  { intros y. unfold after, more. rewrite T, D, Hs, (bool_decide_false (None = _)) by done. cbn.
    rewrite andb_true_r. destruct (decide (y = x)) as [->|Hne].
    - rewrite !bool_decide_true by done. rewrite Hx. by destruct (r =? 0).
    - rewrite !bool_decide_false by congruence. by destruct (r =? 0). }
  destruct (Z.eqb_spec r 0) as [Hr|Hr]; cbn [negb].
  - eapply wp_lset; [exact HS'|apply lookup_singleton_eq|]. rewrite insert_singleton_eq.
    intros s2 HS2. apply HQ. eapply St_ext; [exact HS2|]. intros y. by rewrite Ha, Hf.
  - apply wp_fail, HE. by eapply St_ext.
Qed.

Definition lane_empty l (i : bool) : Prop :=
  l_rx l i = false ∧ l_mux l i = false ∧ l_parent l i false = false ∧
  l_parent l i true = false ∧ l_unknown l i = false ∧ l_exclusive l i = false ∧
  l_enabled l i = false.
Definition lane_full l (i : bool) : Prop :=
  l_rx l i = true ∧ l_mux l i = true ∧ l_parent l i false = true ∧
  l_parent l i true = true ∧ l_exclusive l i = true.
(** Only lane [i] differs. *)
Definition others_same (i : bool) l l' : Prop :=
  l_link l' = l_link l ∧ (lane_empty l (negb i) → lane_empty l' (negb i)) ∧
  (lane_full l (negb i) → lane_full l' (negb i)).

Ltac lanes := unfold lane_empty, lane_full, others_same, more, on, on2, off_ in *; cbn in *.

Lemma more_field l l' x :
  (∀ r, r ≠ x → holds l' r = holds l r) → holds l' x = true → ∀ r, holds l' r = more x (holds l) r.
Proof.
  intros Hr Hx r. unfold more. destruct (decide (r = x)) as [->|Hne].
  - by rewrite bool_decide_true.
  - by rewrite bool_decide_false, Hr by done.
Qed.

Lemma others_set i l f :
  (∀ r, match r with RRx k | RMux k | RParent k _ | RFixed k | RRate k | REnabled k => k ≠ i
                   | _ => True end → holds (f l) r = holds l r) → others_same i l (f l).
Proof.
  intros Hf. unfold others_same, lane_empty, lane_full.
  assert (negb i ≠ i) as Hn by by destruct i.
  pose proof (Hf RLink I) as E0. pose proof (Hf (RRx (negb i)) Hn) as E1.
  pose proof (Hf (RMux (negb i)) Hn) as E2. pose proof (Hf (RParent (negb i) false) Hn) as E3.
  pose proof (Hf (RParent (negb i) true) Hn) as E4. pose proof (Hf (RFixed (negb i)) Hn) as E5.
  pose proof (Hf (RRate (negb i)) Hn) as E6. pose proof (Hf (REnabled (negb i)) Hn) as E7.
  cbn [holds] in *. rewrite E0, E1, E2, E3, E4, E5, E6, E7. done.
Qed.
Lemma others_trans i l1 l2 l3 : others_same i l1 l2 → others_same i l2 l3 → others_same i l1 l3.
Proof. intros (A1&A2&A3) (B1&B2&B3). split_and!; [congruence|auto..]. Qed.

(** The allowance of a call that only takes. *)
Lemma allowed_take h c x :
  may_take c = Some x → drops c = None → h x = false →
  match c with ClkOn i => h (RRx i) = true ∧ h RLink = true | RateGet i => h (RMux i) = true | _ => True end →
  allowed (λ r, Z.b2z (h r)) c.
Proof.
  intros T D Hx Hm. split_and!; [intros r; rewrite T; intros [= <-]; by rewrite Hx|by rewrite D|].
  destruct c; try done; [by rewrite Hm|destruct Hm as [-> ->]; done].
Qed.

(** Setting field [x] of the record; every later field is looked up by
    computation. *)
Ltac obtain_step :=
  eapply wp_obtain; [eassumption|reflexivity|reflexivity|done| | | | |];
  [..|intros ? ?|intros ? ? ?].

Lemma more_rx l i r : holds (l <| l_rx := on i (l_rx l) |>) r = more (RRx i) (holds l) r.
Proof. apply more_field; [|cbn; unfold on; by rewrite eqb_reflx]. intros [] Hne; cbn; unfold on; try done.
  destruct (eqb_spec i0 i); naive_solver. Qed.
Lemma more_mux l i r : holds (l <| l_mux := on i (l_mux l) |>) r = more (RMux i) (holds l) r.
Proof. apply more_field; [|cbn; unfold on; by rewrite eqb_reflx]. intros [] Hne; cbn; unfold on; try done.
  destruct (eqb_spec i0 i); naive_solver. Qed.
Lemma more_fixed l i r : holds (l <| l_unknown := on i (l_unknown l) |>) r = more (RFixed i) (holds l) r.
Proof. apply more_field; [|cbn; unfold on; by rewrite eqb_reflx]. intros [] Hne; cbn; unfold on; try done.
  destruct (eqb_spec i0 i); naive_solver. Qed.
Lemma more_rate l i r : holds (l <| l_exclusive := on i (l_exclusive l) |>) r = more (RRate i) (holds l) r.
Proof. apply more_field; [|cbn; unfold on; by rewrite eqb_reflx]. intros [] Hne; cbn; unfold on; try done.
  destruct (eqb_spec i0 i); naive_solver. Qed.
Lemma more_enabled l i r : holds (l <| l_enabled := on i (l_enabled l) |>) r = more (REnabled i) (holds l) r.
Proof. apply more_field; [|cbn; unfold on; by rewrite eqb_reflx]. intros [] Hne; cbn; unfold on; try done.
  destruct (eqb_spec i0 i); naive_solver. Qed.
Lemma more_parent l i j r :
  holds (l <| l_parent := on2 i j (l_parent l) |>) r = more (RParent i j) (holds l) r.
Proof. apply more_field; [|cbn; unfold on2; by rewrite !eqb_reflx]. intros [] Hne; cbn; unfold on2; try done.
  destruct (eqb_spec i0 i), (eqb_spec j0 j); naive_solver. Qed.
Hint Resolve more_rx more_mux more_fixed more_rate more_enabled more_parent : lease.

Definition same_but_parents l l' : Prop :=
  l_rx l' = l_rx l ∧ l_mux l' = l_mux l ∧ l_exclusive l' = l_exclusive l ∧
  l_enabled l' = l_enabled l ∧ l_link l' = l_link l.

Lemma wp_get_parent reg p l s i j (Q : unit → gcc_state W → Prop) E :
  making reg p l s → l_parent l i j = false → (j = false → l_unknown l i = false) →
  (∀ l' s', making reg p l' s' → same_but_parents l l' → l_parent l' = on2 i j (l_parent l) →
     (∀ k, k ≠ i → l_unknown l' k = l_unknown l k) → Q tt s') →
  (∀ e s', made reg p s' → E e s') → wp (get_parent p i j) Q E s.
Proof.
  intros HS Hp Hu HQ HE. unfold get_parent, gcall1. apply wp_bind, wp_bind.
  eapply wp_ask; [exact HS|done..|]. intros r v s1 HS1. apply wp_ret, wp_bind. cbn [fst].
  assert (∀ l1 s1, making reg p l1 s1 → same_but_parents l l1 → l_parent l1 = l_parent l →
    (∀ k, k ≠ i → l_unknown l1 k = l_unknown l k) → ∀ par,
    wp (if par =? 0 then fail (-EPROBE_DEFER) else
        obtain p (ClkGet (HParent i j)) (λ l, l <| l_parent := on2 i j (l_parent l) |>)) Q E s1) as Hk.
  { intros l1 s2 HS2 Hsame Hpar Hunk par. destruct (par =? 0); [apply wp_fail, HE; by exists l1|].
    obtain_step.
    - cbn. by rewrite Hpar.
    - auto with lease.
    - apply (allowed_take _ _ (RParent i j)); try done. cbn. by rewrite Hpar.
    - eapply HQ; [eassumption|done| |done]. cbn. by rewrite Hpar.
    - apply HE. by exists l1. }
  destruct ((r =? 0) && negb j) eqn:Eb; [|apply wp_ret; by apply (Hk l)].
  apply andb_true_iff in Eb as [_ Hj]. destruct j; [done|]. specialize (Hu eq_refl).
  apply wp_bind. obtain_step.
  - done.
  - auto with lease.
  - by apply (allowed_take _ _ (RFixed i)).
  - apply wp_bind. eapply wp_ask; [eassumption|done..|]. intros r2 v2 s3 HS3. apply wp_ret.
    eapply Hk; [exact HS3|done|done|]. intros k Hk'. cbn. unfold on.
    by rewrite (proj2 (eqb_false_iff k i)).
  - apply HE. by exists l.
Qed.

Lemma wp_lane_prepared h reg lp hp s i (Q : bool → gcc_state W → Prop) E :
  St h reg lp hp s → (∀ b s', St h reg lp hp s' → Q b s') → wp (lane_prepared i) Q E s.
Proof.
  intros HS HQ. unfold lane_prepared, gcall1. apply wp_bind, wp_bind.
  eapply wp_ask; [exact HS|done..|]. intros a v s1 HS1. apply wp_ret. cbn [fst].
  destruct (a !=? 0); [by apply wp_ret, HQ|]. apply wp_bind, wp_bind.
  eapply wp_ask; [exact HS1|done..|]. intros b v2 s2 HS2. by apply wp_ret, wp_ret, HQ.
Qed.

Lemma wp_get_lane reg p l s i (Q : unit → gcc_state W → Prop) E :
  making reg p l s → lane_empty l i →
  (∀ l' s', making reg p l' s' → lane_full l' i → l_enabled l' i = false → others_same i l l' → Q tt s') →
  (∀ e s', made reg p s' → E e s') → wp (get_lane p i) Q E s.
Proof.
  intros HS (F1&F2&F3&F4&F5&F6&F7) HQ HE. unfold get_lane. apply wp_bind.
  eapply wp_lane_prepared; [exact HS|]. intros b s1 HS1. destruct b; [apply wp_fail, HE; by exists l|].
  apply wp_bind. obtain_step; [done|auto with lease|by apply (allowed_take _ _ (RRx i))| |apply HE; by exists l].
  match goal with HS : St _ _ _ {[p := ?x]} _ |- _ => set (l1 := x) in * end.
  apply wp_bind. obtain_step; [done|auto with lease|by apply (allowed_take _ _ (RMux i))| |apply HE; by exists l1].
  match goal with HS : St _ _ _ {[p := ?x]} ?s |- wp _ _ _ ?s => set (l2 := x) in * end.
  apply wp_bind. cbn [for_each]. apply wp_bind. eapply (wp_get_parent _ _ l2); [eassumption|done|done| |exact HE].
  intros l3 s3 HS3 (A1&A2&A3&A4&A5) A6 A7. apply wp_bind.
  eapply (wp_get_parent _ _ l3); [eassumption| |done| |exact HE].
  { rewrite A6. unfold on2. rewrite eqb_reflx. cbn. done. }
  intros l4 s4 HS4 (B1&B2&B3&B4&B5) B6 B7. apply wp_ret.
  obtain_step; [cbn; rewrite B3, A3; done|auto with lease| | |apply HE; by exists l4].
  { apply (allowed_take _ _ (RRate i)); cbn; [done..|by rewrite B3, A3|]. rewrite B2, A2. cbn. unfold on. by rewrite eqb_reflx. }
  eapply HQ; [eassumption|..].
  - lanes. rewrite B1, A1, B2, A2, B6, A6. cbn. unfold on, on2. rewrite !eqb_reflx. cbn. by destruct i.
  - cbn. rewrite B4, A4. done.
  - apply (others_set i l (λ _, l4 <| l_exclusive := on i (l_exclusive l4) |>)). intros r Hr.
    destruct r; cbn; rewrite ?B1, ?A1, ?B2, ?A2, ?B3, ?A3, ?B4, ?A4, ?B5, ?A5, ?B6, ?A6, ?B7, ?A7; try done;
      cbn; unfold on, on2; rewrite ?(proj2 (eqb_false_iff _ i) Hr); done.
Qed.

Definition complete l : Prop := l_link l = true ∧ ∀ i, lane_full l i.

Lemma wp_get_all reg p s (Q : unit → gcc_state W → Prop) E :
  making reg p lease_zero s →
  (∀ l' s', making reg p l' s' → complete l' → Q tt s') →
  (∀ e s', made reg p s' → E e s') → wp (get_all p) Q E s.
Proof.
  intros HS HQ HE. unfold get_all. apply wp_bind. cbn [for_each]. apply wp_bind.
  eapply wp_get_lane; [exact HS|done| |exact HE]. intros l1 s1 HS1 F1 N1 (L1&E1&_). apply wp_bind.
  eapply wp_get_lane; [exact HS1|by apply E1| |exact HE]. intros l2 s2 HS2 F2 N2 (L2&_&G2). apply wp_ret.
  apply wp_bind. unfold gcall1. apply wp_bind. eapply wp_gcall2; [exact HS2| |].
  { apply (allowed_take _ _ RLink); try done. cbn. by rewrite L2, L1. }
  intros r v s3 HS3. apply wp_ret. cbn [fst].
  assert (∀ y, after (holds l2) LinkAdd r y = if r =? 0 then holds l2 y else more RLink (holds l2) y) as Ha.
  { intros y. unfold after, more. cbn. rewrite (bool_decide_false (None = _)) by done. rewrite andb_true_r.
    destruct (decide (y = RLink)) as [->|Hne].
    - rewrite !bool_decide_true by done. cbn. rewrite L2, L1. by destruct (r =? 0).
    - rewrite !bool_decide_false by congruence. by destruct (r =? 0). }
  destruct (r =? 0).
  - apply wp_fail, HE. exists l2. by eapply St_ext.
  - eapply wp_lset; [exact HS3|apply lookup_singleton_eq|]. rewrite insert_singleton_eq. intros s4 HS4.
    apply (HQ (l2 <| l_link := true |>)).
    + eapply St_ext; [exact HS4|]. intros y. rewrite Ha. symmetry. apply more_field; [|done].
      by intros [].
    + split; [done|]. intros i. destruct i; [exact F2|exact (G2 F1)].
Qed.

(** ** The invariant *)

Definition gcc_inv s : Prop :=
  match g_lease s with
  | None => St (λ _, false) (g_regmap s) None ∅ s
  | Some p => ∃ l, p ≠ 0 ∧ St (holds l) (g_regmap s) (Some p) {[p := l]} s ∧ complete l
  end.

Lemma inv_free reg s : St (λ _, false) reg None ∅ s → gcc_inv s.
Proof. intros HS. pose proof HS as (_&_&E&F&_). unfold gcc_inv. by rewrite F, E. Qed.
Lemma inv_leased reg p l s :
  p ≠ 0 → St (holds l) reg (Some p) {[p := l]} s → complete l → gcc_inv s.
Proof. intros Hp HS Hc. pose proof HS as (_&_&E&F&_). unfold gcc_inv. rewrite F, E. eauto. Qed.

Lemma wp_put_module reg s (Q : unit → gcc_state W → Prop) E :
  St (λ r, bool_decide (r = RModule)) reg None ∅ s → (∀ s', gcc_inv s' → Q tt s') →
  wp (gcall0 ModPut) Q E s.
Proof.
  intros HS HQ. eapply wp_drop; [exact HS|done..|]. intros s' HS'. apply HQ. eapply inv_free, St_ext; [exact HS'|].
  intros r. unfold less. by case_bool_decide.
Qed.

Lemma wp_lease_get c port s :
  gcc_inv s → wp (x1_gcc_usb4_get c port) (λ _, gcc_inv) (λ _, gcc_inv) s.
Proof.
  intros HI. unfold x1_gcc_usb4_get. destruct (negb c); [done|]. destruct (port !=? 0); [done|].
  apply wp_bind, wp_get. destruct (negb (g_regmap s)); [done|].
  destruct (g_lease s) as [p0|] eqn:El; [by rewrite bool_decide_true by eauto|].
  rewrite bool_decide_false by (by intros []). pose proof HI as HS. unfold gcc_inv in HS. rewrite El in HS.
  unfold gcall1. apply wp_bind, wp_bind. eapply wp_gcall2; [exact HS|by apply (allowed_take _ _ RModule)|].
  intros m v s1 HS1. apply wp_ret. cbn [fst]. destruct (m =? 0) eqn:Em.
  { apply wp_fail. eapply inv_free, St_ext; [exact HS1|]. intros r. unfold after. cbn. rewrite Em. cbn.
    by rewrite andb_false_r. }
  assert (St (λ r, bool_decide (r = RModule)) (g_regmap s) None ∅ s1) as HM.
  { eapply St_ext; [exact HS1|]. intros r. unfold after. cbn. rewrite Em. cbn. rewrite andb_true_r, orb_false_r.
    apply bool_decide_ext. naive_solver. }
  clear HS1. apply wp_bind, wp_bind. eapply wp_gcall2; [exact HM|by apply (allowed_take _ _ RMem)|].
  intros p v1 s2 HS2. apply wp_ret. cbn [fst]. destruct (p =? 0) eqn:Ep.
  { apply wp_bind. eapply wp_put_module; [|intros s3 HI3; by apply wp_fail].
    eapply St_ext; [exact HS2|]. intros r. unfold after. cbn. rewrite Ep. cbn. rewrite andb_false_r. cbn.
    by rewrite andb_true_r. }
  apply Z.eqb_neq in Ep as Hp. apply wp_bind, wp_modify, wp_bind. unfold gcall0. apply wp_bind.
  assert (St (λ r, bool_decide (r = RModule) || bool_decide (r = RMem)) (g_regmap s) None {[p := lease_zero]}
    (s2 <| g_heap := <[p:=lease_zero]> (g_heap s2) |>)) as HS3.
  { assert (St (λ r, bool_decide (r = RModule) || bool_decide (r = RMem)) (g_regmap s) None ∅ s2)
      as (A&B&C&D&F).
    { eapply St_ext; [exact HS2|]. intros r. unfold after. cbn. rewrite Ep. cbn. rewrite !andb_true_r.
      rewrite orb_comm. f_equal. apply bool_decide_ext. naive_solver. }
    split_and!; try done. cbn. by rewrite F. }
  eapply wp_gcall2; [exact HS3|by apply (allowed_take _ _ RDevice)|]. intros d v2 s4 HS4.
  apply wp_ret, wp_bind. apply wp_on_error. eapply (wp_get_all (g_regmap s) p).
  - eapply St_ext; [exact HS4|]. by intros [].
  - intros l s5 HS5 Hc. apply wp_bind, wp_modify, wp_ret. eapply (inv_leased (g_regmap s) p l); [done| |done].
    destruct HS5 as (A&B&C&D&F). by split_and!.
  - intros e s5 (l&HS5). apply wp_bind. eapply wp_release; [exact HS5|]. intros s6 HS6.
    eapply wp_put_module; [exact HS6|done].
Qed.

Lemma wp_lease_put p s : gcc_inv s → wp (x1_gcc_usb4_put p) (λ _, gcc_inv) (λ _, gcc_inv) s.
Proof.
  intros HI. unfold x1_gcc_usb4_put. apply wp_bind, wp_get.
  destruct (decide (g_lease s = Some p)) as [El|El].
  2:{ rewrite (bool_decide_false _ El), orb_true_r. done. }
  rewrite (bool_decide_true _ El). cbn [negb]. rewrite orb_false_r.
  unfold gcc_inv in HI. rewrite El in HI. destruct HI as (l&Hp&HS&_).
  rewrite (proj2 (Z.eqb_neq p 0) Hp). apply wp_bind, wp_modify, wp_bind.
  eapply (wp_release (g_regmap s) _ p l).
  - destruct HS as (A&B&C&D&F). by split_and!.
  - intros s1 HS1. eapply wp_put_module; [exact HS1|done].
Qed.

(** ** Under a published lease *)

(** The lease [p] is published, complete, and has enabled the lanes [e]. *)
Definition leased reg p (e : bool → bool) s : Prop :=
  ∃ l, p ≠ 0 ∧ St (holds l) reg (Some p) {[p := l]} s ∧ complete l ∧ ∀ k, l_enabled l k = e k.

Lemma leased_inv reg p e s : leased reg p e s → gcc_inv s.
Proof. intros (l&Hp&HS&Hc&_). by eapply inv_leased. Qed.

Lemma wp_valid p s (Q : bool → gcc_state W → Prop) E :
  gcc_inv s → (Q false s) → (∀ reg e, reg = true → leased reg p e s → Q true s) → wp (x1_usb4_gcc_valid p) Q E s.
Proof.
  intros HI HF HT. unfold wp, x1_usb4_gcc_valid. destruct (Z.eqb_spec p 0) as [->|Hp]; [done|].
  destruct (decide (g_lease s = Some p)) as [El|El]; [|by rewrite bool_decide_false].
  rewrite bool_decide_true by done. destruct (g_regmap s) eqn:Er; [|done]. unfold gcc_inv in HI.
  rewrite El, Er in HI. destruct HI as (l&_&HS&Hc). apply (HT true (l_enabled l)); [done|]. by exists l.
Qed.

(** A call that changes nothing the lease holds. *)
Lemma wp_leased_ask reg p e s c (Q : Z * Z → gcc_state W → Prop) E :
  leased reg p e s → may_take c = None → drops c = None →
  match c with SetParent _ _ => ∀ k, e k = false | _ => True end →
  (∀ r v s', leased reg p e s' → Q (r, v) s') → wp (gcall2 c) Q E s.
Proof.
  intros (l&Hp&HS&[Hl Hc]&He) A B Hm HQ. eapply wp_ask; [exact HS|done|done| |].
  - split_and!; [by rewrite A|by rewrite B|]. destruct c; try done; cbn; rewrite ?Hl; try done.
    destruct (Hc i) as (_&->&F3&F4&->), j; rewrite ?F3, ?F4, !He, !Hm; done.
  - intros r v s' HS'. apply HQ. by exists l.
Qed.

Lemma wp_leased_prepared reg p e s i (Q : bool → gcc_state W → Prop) E :
  leased reg p e s → (∀ b s', leased reg p e s' → Q b s') → wp (lane_prepared i) Q E s.
Proof.
  intros (l&Hp&HS&Hc&He) HQ. eapply wp_lane_prepared; [exact HS|]. intros b s' HS'. apply HQ. by exists l.
Qed.

Lemma wp_enable_rx reg p e s i (Q : unit → gcc_state W → Prop) (E : Z → gcc_state W → Prop) :
  leased reg p e s → e i = false → (∀ s', leased reg p (on i e) s' → Q tt s') →
  (∀ r s', leased reg p e s' → E r s') → wp (enable_rx p i) Q E s.
Proof.
  intros (l&Hp&HS&Hc&He) Hi HQ HE. unfold enable_rx.
  eapply wp_obtain; [exact HS|reflexivity|reflexivity|done|cbn; by rewrite He|auto with lease| | |].
  - apply (allowed_take _ _ (REnabled i)); [done|done|cbn; by rewrite He|]. split; [apply Hc|apply Hc].
  - intros s' HS'. apply HQ. eexists. split_and!; [done|exact HS'|exact Hc|]. intros k. cbn. unfold on.
    by destruct (eqb k i).
  - intros r s' HS'. apply HE. by exists l.
Qed.

Lemma wp_rx_gate reg p e s i (Q : unit → gcc_state W → Prop) E :
  leased reg p e s → e i = true → (∀ s', leased reg p (off_ i e) s' → Q tt s') →
  wp (rx_gate p i) Q E s.
Proof.
  intros (l&Hp&HS&Hc&He) Hi HQ. unfold rx_gate. apply wp_bind.
  eapply wp_drop; [exact HS|reflexivity|reflexivity|cbn; by rewrite He|]. intros s1 HS1.
  eapply wp_lset; [exact HS1|apply lookup_singleton_eq|]. rewrite insert_singleton_eq. intros s2 HS2.
  apply HQ. exists (l <| l_enabled := off_ i (l_enabled l) |>). split_and!; [done| |exact Hc|].
  - eapply St_ext; [exact HS2|]. intros r. unfold less. destruct (decide (r = REnabled i)) as [->|Hne].
    + rewrite bool_decide_true by done. cbn. unfold off_. by rewrite eqb_reflx.
    + rewrite bool_decide_false by done. destruct r; cbn; try done. unfold off_.
      destruct (eqb_spec i0 i); [by subst|done].
  - intros k. cbn. unfold off_. by destruct (eqb k i).
Qed.

Lemma wp_leased_lget reg p e s (Q : x1_gcc_usb4 → gcc_state W → Prop) E :
  leased reg p e s → (∀ l, (∀ k, l_enabled l k = e k) → Q l s) → wp (lget p) Q E s.
Proof. intros (l&Hp&HS&Hc&He) HQ. eapply wp_lget; [exact HS|apply lookup_singleton_eq|by apply HQ]. Qed.

Lemma wp_rx_check reg p e s i (Q : unit → gcc_state W → Prop) (E : Z → gcc_state W → Prop) :
  leased reg p e s → (∀ s', leased reg p e s' → Q tt s') → (∀ r s', leased reg p e s' → E r s') →
  wp (rx_check p i) Q E s.
Proof.
  intros HL HQ HE. unfold rx_check. apply wp_bind. eapply wp_leased_ask; [exact HL|done..|].
  intros r v s1 HL1. cbn [fst snd]. destruct (r !=? 0); [by apply wp_fail, HE|].
  destruct (_ && _); [by apply wp_fail, HE|]. apply wp_bind. eapply wp_leased_lget; [exact HL1|].
  intros l He. destruct (l_enabled l i); [by apply wp_ret, HQ|]. apply wp_bind.
  eapply wp_leased_prepared; [exact HL1|]. intros b s2 HL2. destruct b; [by apply wp_fail, HE|by apply wp_ret, HQ].
Qed.

Lemma wp_rx_account reg p e s i (Q : unit → gcc_state W → Prop) (E : Z → gcc_state W → Prop) :
  leased reg p e s → (∀ s', leased reg p (on i e) s' → Q tt s') → (∀ r s', leased reg p e s' → E r s') →
  wp (rx_account p i) Q E s.
Proof.
  intros HL HQ HE. unfold rx_account. apply wp_bind. eapply wp_leased_lget; [exact HL|].
  intros l He. rewrite He. destruct (e i) eqn:Ei; [|by eapply wp_enable_rx].
  apply wp_ret, HQ. destruct HL as (l'&Hp&HS&Hc&He'). exists l'. split_and!; [done..|]. intros k. unfold on.
  destruct (eqb_spec k i) as [->|]; [by rewrite He'|done].
Qed.

Lemma wp_rx_switch reg p e s phy i (Q : unit → gcc_state W → Prop) (E : Z → gcc_state W → Prop) :
  leased reg p e s → (∀ k, e k = false) → (∀ s', leased reg p e s' → Q tt s') →
  (∀ r s', leased reg p e s' → E r s') → wp (rx_switch phy i) Q E s.
Proof.
  intros HL He HQ HE. unfold rx_switch, gcall1. apply wp_bind, wp_bind.
  eapply wp_leased_ask; [exact HL|done..|]. intros b v s1 HL1. apply wp_ret. cbn [fst].
  destruct (b !=? 0); [by apply wp_fail, HE|]. apply wp_bind, wp_bind.
  eapply wp_leased_ask; [exact HL1|done..|]. intros r v1 s2 HL2. apply wp_ret. cbn [fst].
  destruct (r !=? 0); [by apply wp_fail, HE|]. apply wp_bind.
  eapply wp_leased_ask; [exact HL2|done..|]. intros r' v2 s3 HL3. cbn [fst snd].
  destruct (_ || _); [by apply wp_fail, HE|by apply wp_ret, HQ].
Qed.

Lemma wp_rx_select p phy s :
  gcc_inv s → wp (x1_gcc_usb4_rx_select p phy) (λ _, gcc_inv) (λ _, gcc_inv) s.
Proof.
  intros HI. unfold x1_gcc_usb4_rx_select. apply wp_bind. eapply wp_valid; [exact HI|done|].
  intros reg e _ HL. cbn [negb for_each]. pose proof (leased_inv reg p) as Hinv.
  do 2 (apply wp_bind). eapply wp_rx_check; [exact HL| |intros; by eapply Hinv]. clear s HI HL. intros s HL.
  apply wp_bind. eapply wp_rx_check; [exact HL| |intros; by eapply Hinv]. clear s HL. intros s HL. apply wp_ret.
  do 2 (apply wp_bind). eapply wp_rx_account; [exact HL| |intros; by eapply Hinv]. clear s HL. intros s HL.
  apply wp_bind. eapply wp_rx_account; [exact HL| |intros; by eapply Hinv]. clear s HL. intros s HL. apply wp_ret.
  do 2 (apply wp_bind). eapply wp_rx_gate; [exact HL|done|]. clear s HL. intros s HL.
  apply wp_bind. eapply wp_rx_gate; [exact HL|done|]. clear s HL. intros s HL. apply wp_ret.
  match type of HL with leased _ _ ?e' _ => assert (∀ k, e' k = false) as He by by intros [] end.
  do 2 (apply wp_bind). eapply wp_rx_switch; [exact HL|done| |intros; by eapply Hinv]. clear s HL. intros s HL.
  apply wp_bind. eapply wp_rx_switch; [exact HL|done| |intros; by eapply Hinv]. clear s HL. intros s HL. apply wp_ret.
  apply wp_bind. eapply wp_enable_rx; [exact HL|done| |intros; by eapply Hinv]. clear s HL. intros s HL.
  apply wp_bind. eapply wp_enable_rx; [exact HL|done| |intros; by eapply Hinv]. clear s HL. intros s HL.
  by apply wp_ret, (Hinv _ _ HL).
Qed.

Lemma wp_inv_ask s c (Q : Z * Z → gcc_state W → Prop) E :
  gcc_inv s → may_take c = None → drops c = None → (∀ f, allowed f c) →
  (∀ r v s', gcc_inv s' → Q (r, v) s') → wp (gcall2 c) Q E s.
Proof.
  intros HI A B Hal HQ. unfold gcc_inv in HI. destruct (g_lease s) as [p|].
  - destruct HI as (l&Hp&HS&Hc). eapply wp_ask; [exact HS|done..|]. intros r v s' HS'. apply HQ.
    by eapply inv_leased.
  - eapply wp_ask; [exact HI|done..|]. intros r v s' HS'. apply HQ. by eapply inv_free.
Qed.

Lemma wp_update_bit p off bit b s : gcc_inv s → wp (update_bit p off bit b) (λ _, gcc_inv) (λ _, gcc_inv) s.
Proof.
  intros HI. unfold update_bit, gcall1. apply wp_bind. eapply wp_valid; [exact HI|done|]. intros reg e _ HL.
  cbn [negb]. apply wp_bind, wp_bind. eapply wp_leased_ask; [exact HL|done..|]. intros r v s1 HL1.
  apply wp_ret, wp_ok_or_fail; intros _; by eapply leased_inv.
Qed.

Lemma wp_poll reg p e n s : leased reg p e s → wp (poll_sys_ready n) (λ _, gcc_inv) (λ _, gcc_inv) s.
Proof.
  revert s. induction n as [|n IH]; intros s HL; cbn [poll_sys_ready]; [by apply wp_fail; eapply leased_inv|].
  apply wp_bind. eapply wp_leased_ask; [exact HL|done..|]. intros r v s1 HL1. cbn [fst snd].
  destruct (r !=? 0); [by apply wp_fail; eapply leased_inv|].
  destruct (negb _); [by apply wp_ret; eapply leased_inv|by apply IH].
Qed.

Lemma wp_sel_enabled x s (Q : bool → gcc_state W → Prop) E :
  gcc_inv s → (∀ b s', gcc_inv s' → Q b s') → wp (sel_enabled x) Q E s.
Proof.
  intros HI HQ. unfold sel_enabled, gcall1. apply wp_bind, wp_bind. eapply wp_inv_ask; [exact HI|done..|].
  intros r v s1 HI1. by apply wp_ret, wp_ret, HQ.
Qed.
Lemma wp_select x z s (Q : unit → gcc_state W → Prop) E :
  gcc_inv s → (∀ s', gcc_inv s' → Q tt s') → wp (x1_usb4_0_select x z) Q E s.
Proof.
  intros HI HQ. unfold x1_usb4_0_select, gcall0. apply wp_bind.
  eapply wp_inv_ask; [exact HI|by destruct z..|]. intros r v s1 HI1. by apply wp_ret, HQ.
Qed.
Lemma wp_move l moved s : gcc_inv s → wp (move_selectors l moved) (λ _, gcc_inv) (λ _, gcc_inv) s.
Proof.
  revert moved s. induction l as [|x l IH]; intros moved s HI; cbn [move_selectors]; [done|].
  apply wp_bind, wp_sel_enabled; [done|]. intros b s1 HI1. destruct (eqb b x.2); [by apply IH|].
  apply wp_bind, wp_select; [done|]. intros s2 HI2. cbv zeta. apply wp_bind, wp_sel_enabled; [done|].
  intros b' s3 HI3. destruct (eqb b' x.2); [by apply IH|done].
Qed.

Lemma wp_power_off s :
  gcc_inv s → wp x1_usb4_0_gdsc_power_off (λ _, gcc_inv) (λ _, gcc_inv) s.
Proof.
  intros HI. unfold x1_usb4_0_gdsc_power_off. apply wp_bind, wp_attempt.
  eapply (wp_mono _ (λ _, gcc_inv) _ (λ e s, e ≠ 0 ∧ gcc_inv s)); [apply wp_for_each; [exact HI|]| |].
  - intros x t _ HIt. unfold selector_held, gcall1. apply wp_bind, wp_sel_enabled; [done|]. intros b s1 HI1.
    destruct (eqb b x.2); [done|]. apply wp_bind, wp_bind. eapply wp_inv_ask; [exact HI1|done..|].
    intros r v s2 HI2. apply wp_ret. cbn [fst]. destruct (r !=? 0); [apply wp_fail; by split|done].
  - intros [] s1 HI1. cbn [Z.eqb negb]. apply wp_bind. eapply wp_mono; [by apply wp_move| |done].
    intros m s2 HI2. apply wp_bind. eapply (wp_mono _ (λ _, gcc_inv) _ (λ _, gcc_inv)); [| |done].
    + destruct (m.1 =? 0); [|done]. unfold gcall1. apply wp_bind. eapply wp_inv_ask; [exact HI2|done..|].
      intros r v s3 HI3. by apply wp_ret.
    + intros r s3 HI3. apply wp_bind. destruct (r =? 0); [by apply wp_ret, wp_ret|].
      eapply (wp_mono _ (λ _, gcc_inv) _ (λ _, gcc_inv)); [|by intros [] ??|done].
      apply wp_for_each; [exact HI3|]. intros x t _ HIt. by apply wp_select.
  - intros e s1 [He HI1]. cbn beta. by rewrite (proj2 (Z.eqb_neq e 0) He).
Qed.

Lemma wp_gop polls o s : gcc_inv s → wp (run_gop polls o) (λ _, gcc_inv) (λ _, gcc_inv) s.
Proof.
  intros HI. destruct o; cbn [run_gop].
  - apply wp_bind. eapply wp_mono; [by apply wp_lease_get|done..].
  - by apply wp_lease_put.
  - by apply wp_rx_select.
  - unfold x1_gcc_usb4_sys_ready. apply wp_bind. eapply wp_valid; [exact HI|done|]. intros reg e _ HL.
    cbn [negb]. destruct (_ || _); [done|by eapply wp_poll].
  - by apply wp_update_bit.
  - by apply wp_update_bit.
  - by apply wp_update_bit.
  - unfold x1_gcc_usb4_reset_state. apply wp_bind, wp_bind. eapply wp_valid; [exact HI|done|]. intros reg e _ HL.
    cbn [negb]. destruct (_ || _); [done|]. apply wp_bind. eapply wp_leased_ask; [exact HL|done..|].
    intros r v s1 HL1. cbn [fst snd]. destruct (r !=? 0); by eapply leased_inv.
  - unfold x1_gcc_usb4_power_on. apply wp_bind. eapply wp_valid; [exact HI|done|]. intros reg e _ HL.
    cbn [negb]. apply wp_bind. eapply wp_leased_ask; [exact HL|done..|]. intros r v s1 HL1. cbn [fst snd].
    destruct (r !=? 0); [by eapply leased_inv|]. apply wp_bind. eapply wp_leased_ask; [exact HL1|done..|].
    intros r2 v2 s2 HL2. cbn [fst snd]. destruct (r2 !=? 0); [by eapply leased_inv|].
    destruct (_ && _); by eapply leased_inv.
  - apply wp_modify. unfold gcc_inv in *. cbn. destruct (g_lease s) as [p|].
    + destruct HI as (l&Hp&(A&B&C&D&F)&Hc). exists l. by split_and!.
    + destruct HI as (A&B&C&D&F). by split_and!.
  - apply wp_modify. unfold gcc_inv in *. cbn. destruct (g_lease s) as [p|].
    + destruct HI as (l&Hp&(A&B&C&D&F)&Hc). exists l. by split_and!.
    + destruct HI as (A&B&C&D&F). by split_and!.
  - apply wp_bind. eapply wp_mono; [by apply wp_power_off|done..].
Qed.

Lemma gcc_run_inv polls l (w : W) :
  wp (gcc_run polls l) (λ _, gcc_inv) (λ _ _, False) (gcc_boot w).
Proof.
  apply wp_for_each.
  - eapply inv_free. split_and!; try done. intros L1 e L2 E. by destruct L1.
  - intros o s _ HI. apply wp_bind, wp_attempt. eapply wp_mono; [by apply wp_gop|..].
    + intros [] s' HI'. by apply wp_ret.
    + intros e s' HI'. by apply wp_ret.
Qed.

(** C18. Every reference is accounted for: after any sequence of calls of the
    lease interface, with any pointers and any answers of the clock framework,
    no freed lease was touched, each call was allowed by the ones before it (a
    resource is taken when free and given back when held, a receive clock
    changes its parent only while both clocks are gated, registers are touched
    only under a complete lease), and what is outstanding is exactly what the
    one published lease records, nothing without one; a get that failed half
    way has given everything back. *)
Theorem lease_accounting polls l (w : W) :
  match gcc_run polls l (gcc_boot w) with
  | (Ok _, s) =>
      orderly (g_log s) ∧
      match g_lease s with
      | None => g_heap s = ∅ ∧ ∀ r, balance r (g_log s) = 0
      | Some p => p ≠ 0 ∧ ∃ x, g_heap s = {[p := x]} ∧ complete x ∧
          ∀ r, balance r (g_log s) = Z.b2z (holds x r)
      end
  | _ => False
  end.
Proof.
  pose proof (gcc_run_inv polls l w) as Hr. unfold wp in Hr.
  destruct (gcc_run polls l (gcc_boot w)) as [[[]|e|] s]; [|done..]. unfold gcc_inv in Hr.
  destruct (g_lease s) as [p|].
  - destruct Hr as (x&Hp&(A&B&_&_&F)&Hc). eauto 10.
  - destruct Hr as (A&B&_&_&F). done.
Qed.

(** ** Switching the receive clocks *)

(** The tail of a successful switch: both selectors set and read back, then
    both clocks enabled. *)
Definition switch_events (phy : bool) (v0 v1 : Z) (a : nat → Z) : list gevent :=
  [(Prepared (HMux false), (0, a 0%nat)); (SetParent false (negb phy), (0, a 1%nat));
   (RegRead (x1_usb4_rx_mux_regs false), (0, v0));
   (Prepared (HMux true), (0, a 2%nat)); (SetParent true (negb phy), (0, a 3%nat));
   (RegRead (x1_usb4_rx_mux_regs true), (0, v1));
   (ClkOn false, (0, a 4%nat)); (ClkOn true, (0, a 5%nat))].

Lemma gcall2_log c s r v s' : gcall2 c s = (Ok (r, v), s') → g_log s' = g_log s ++ [(c, (r, v))].
Proof.
  unfold gcall2. destruct (gcc_answer c (g_w s)) as [[r' v'] w']. intros E. by simplify_eq.
Qed.

Definition longer (s s' : gcc_state W) : Prop := ∃ t, g_log s' = g_log s ++ t.
#[local] Instance longer_preorder : PreOrder longer.
Proof.
  split; [intros s; exists []; by rewrite app_nil_r|]. intros s1 s2 s3 [t1 E1] [t2 E2].
  exists (t1 ++ t2). by rewrite E2, E1, app_assoc.
Qed.
Lemma longer_gcall2 c : keeps longer (gcall2 c).
Proof. intros s. unfold gcall2. destruct (gcc_answer c (g_w s)) as [[r v] w]. by eexists. Qed.
Lemma longer_lget p : keeps longer (lget p).
Proof. intros s. unfold lget. by destruct (g_heap s !! p). Qed.
Lemma longer_lset p f : keeps longer (lset p f).
Proof. intros s. unfold lset. destruct (g_heap s !! p); [|done]. exists []. by rewrite app_nil_r. Qed.
Lemma longer_valid p : keeps longer (x1_usb4_gcc_valid p).
Proof. by intros s. Qed.
Hint Resolve longer_gcall2 longer_lget longer_lset longer_valid : km.
Lemma longer_passes p :
  keeps longer (do! for_each [false; true] (rx_check p) in do! for_each [false; true] (rx_account p) in
                for_each [false; true] (rx_gate p)).
Proof.
  cbn [for_each]. unfold rx_check, rx_account, rx_gate, enable_rx, obtain, lane_prepared, gcall1, gcall0.
  keeps_auto.
Qed.

Lemma rx_switch_log phy i s s' :
  rx_switch phy i s = (Ok tt, s') → ∃ a b v, v .& 3 = (if phy then 0 else 2) ∧
    g_log s' = g_log s ++ [(Prepared (HMux i), (0, a)); (SetParent i (negb phy), (0, b));
                           (RegRead (x1_usb4_rx_mux_regs i), (0, v))].
Proof.
  unfold rx_switch, gcall1. intros E. ok_inv.
  repeat match goal with H : (gcall2 _ _) = (Ok ?x, _) |- _ => destruct x; apply gcall2_log in H end.
  cbn [fst snd] in *. rewrite negb_false_iff, Z.eqb_eq in *.
  match goal with H : _ || _ = false |- _ => apply orb_false_iff in H as [? ?] end.
  rewrite negb_false_iff, Z.eqb_eq in *. subst.
  eexists _, _, _. split; [eassumption|].
  repeat match goal with H : g_log _ = _ |- _ => rewrite H; clear H end. by rewrite <- !app_assoc.
Qed.

Lemma enable_rx_log p i s s' :
  enable_rx p i s = (Ok tt, s') → ∃ a, g_log s' = g_log s ++ [(ClkOn i, (0, a))].
Proof.
  unfold enable_rx, obtain, gcall1, lset. intros E. ok_inv.
  repeat match goal with H : (gcall2 _ _) = (Ok ?x, _) |- _ => destruct x; apply gcall2_log in H end.
  cbn [fst snd] in *. rewrite negb_false_iff, Z.eqb_eq in *. subst.
  destruct (g_heap _ !! p); simplify_eq. cbn. eauto.
Qed.

(** C37. A switch of the receive clocks that reports success ended with both
    selectors set to the wanted parent while their clocks were gated, both read
    back on the wanted source, and both clocks enabled, in this order. *)
Theorem rx_select_exact p phy s s' :
  x1_gcc_usb4_rx_select p phy s = (Ok tt, s') →
  ∃ t v0 v1 a, g_log s' = g_log s ++ t ++ switch_events phy v0 v1 a ∧
    v0 .& 3 = (if phy then 0 else 2) ∧ v1 .& 3 = (if phy then 0 else 2).
Proof.
  unfold x1_gcc_usb4_rx_select. intros E. apply bind_ok_inv in E as (valid&s0&E0&E).
  injection E0 as <- <-. destruct (negb _); [done|].
  assert (∃ s1, longer s s1 ∧ (do! for_each [false; true] (rx_switch phy) in for_each [false; true] (enable_rx p)) s1 = (Ok tt, s'))
    as (s1&[t Ht]&E1).
  { apply bind_ok_inv in E as ([]&s1&E1&E). apply bind_ok_inv in E as ([]&s2&E2&E).
    apply bind_ok_inv in E as ([]&s3&E3&E). exists s3. split; [|done].
    pose proof (longer_passes p s) as Hl. by rewrite (bind_ok _ _ _ _ _ E1), (bind_ok _ _ _ _ _ E2), E3 in Hl. }
  clear E. cbn [for_each] in E1. ok_inv.
  repeat match goal with
  | H : enable_rx _ _ _ = (Ok ?u, _) |- _ => destruct u; apply enable_rx_log in H as (?a&?L)
  | H : rx_switch _ _ _ = (Ok ?u, _) |- _ => destruct u; apply rx_switch_log in H as (?a&?b&?v&?V&?L)
  end.
  match goal with
  | L0 : g_log ?u = g_log s1 ++ [(_, (_, ?x0)); (_, (_, ?x1)); (_, (_, ?y0))],
    L1 : g_log ?v = g_log ?u ++ [(_, (_, ?x2)); (_, (_, ?x3)); (_, (_, ?y1))],
    L2 : g_log ?w = g_log ?v ++ [(_, (_, ?x4))], L3 : g_log s' = g_log ?w ++ [(_, (_, ?x5))] |- _ =>
      exists t, y0, y1, (λ n, nth n [x0; x1; x2; x3; x4; x5] 0);
      rewrite L3, L2, L1, L0, Ht, <- !app_assoc
  end. done.
Qed.
End accounting.

(** ** Powering the domain off *)

(** The selectors as a register: a selector is on its internal source or not;
    one that is stuck does not move.  No other call moves one. *)
Class Selectors {W} `{GccEnv W} (pos : W → selector → bool) (stuck : selector → bool) : Prop := {
  se_read x w : (gcc_answer (SelEnabled x) w).1.1 ≠ 0 ↔ pos w x = true;
  se_on x w y : pos (gcc_answer (SelOn x) w).2 y =
    if bool_decide (y = x) && negb (stuck x) then true else pos w y;
  se_off x w y : pos (gcc_answer (SelOff x) w).2 y =
    if bool_decide (y = x) && negb (stuck x) then false else pos w y;
  se_other c w y : (∀ x, c ≠ SelOn x) → (∀ x, c ≠ SelOff x) → pos (gcc_answer c w).2 y = pos w y;
}.

Section power.
Context {W : Type} `{GccEnv W} (pos : W → selector → bool) (stuck : selector → bool).
Context `{!Selectors pos stuck}.
Implicit Types s : gcc_state W.
Notation at_ s := (pos (g_w s)).

Lemma gcall2_run c s : ∃ r v s', gcall2 c s = (Ok (r, v), s') ∧
  g_w s' = (gcc_answer c (g_w s)).2 ∧ r = (gcc_answer c (g_w s)).1.1 ∧ g_log s' = g_log s ++ [(c, (r, v))].
Proof.
  unfold gcall2. destruct (gcc_answer c (g_w s)) as [[r v] w]. by eexists _, _, _.
Qed.

Lemma sel_enabled_run x s : ∃ s', sel_enabled x s = (Ok (at_ s x), s') ∧ (∀ y, at_ s' y = at_ s y).
Proof.
  destruct (gcall2_run (SelEnabled x) s) as (r&v&s'&E&Ew&Er&_). exists s'.
  unfold sel_enabled, gcall1, bind, ret. rewrite E. cbn. split; [|intros y; rewrite Ew; by apply se_other].
  do 2 f_equal. pose proof (se_read x (g_w s)) as Hr. rewrite <- Er in Hr.
  destruct (Z.eqb_spec r 0), (at_ s x); cbn; naive_solver.
Qed.

Lemma select_run x z s : ∃ s', x1_usb4_0_select x z s = (Ok tt, s') ∧
  ∀ y, at_ s' y = if bool_decide (y = x) && negb (stuck x) then z else at_ s y.
Proof.
  unfold x1_usb4_0_select, gcall0. destruct (gcall2_run (if z then SelOn x else SelOff x) s) as (r&v&s'&E&Ew&_).
  exists s'. unfold bind, ret. rewrite E. split; [done|]. intros y. rewrite Ew.
  destruct z; [apply se_on|apply se_off].
Qed.

Lemma other_run c s : (∀ x, c ≠ SelOn x) → (∀ x, c ≠ SelOff x) →
  ∃ r v s', gcall1 c s = (Ok r, s') ∧ (∀ y, at_ s' y = at_ s y) ∧ g_log s' = g_log s ++ [(c, (r, v))].
Proof.
  intros A B. destruct (gcall2_run c s) as (r&v&s'&E&Ew&_&El). exists r, v, s'. unfold gcall1, bind, ret. rewrite E.
  split_and!; [done| |done]. intros y. rewrite Ew. by apply se_other.
Qed.

(** Where the selectors are once those of [m] were told to move. *)
Definition displaced (P0 : selector → bool) (m : list (selector * bool)) (y : selector) : bool :=
  match list_find (λ x, x.1 = y) m with
  | Some (_, x) => if stuck y then P0 y else x.2
  | None => P0 y
  end.

Definition movable (P0 : selector → bool) (m : list (selector * bool)) : Prop :=
  NoDup m.*1 ∧ ∀ x, x ∈ m → P0 x.1 = negb x.2.

Lemma displaced_in P0 m x : NoDup m.*1 → x ∈ m → displaced P0 m x.1 = if stuck x.1 then P0 x.1 else x.2.
Proof.
  intros Hn Hx. unfold displaced. destruct (list_find (λ y, y.1 = x.1) m) as [[i z]|] eqn:Ef.
  - apply list_find_Some in Ef as (Hi&Hz&_). apply list_elem_of_lookup in Hx as [j Hj].
    assert (i = j) as <-. { eapply (NoDup_lookup m.*1); [done|rewrite list_lookup_fmap, Hi; cbn; by rewrite Hz|by rewrite list_lookup_fmap, Hj]. }
    by simplify_eq.
  - apply list_find_None in Ef. rewrite Forall_forall in Ef. by destruct (Ef x Hx).
Qed.
Lemma displaced_out P0 m y : y ∉ m.*1 → displaced P0 m y = P0 y.
Proof.
  intros Hy. unfold displaced. destruct (list_find _ m) as [[i z]|] eqn:Ef; [|done].
  apply list_find_Some in Ef as (Hi&Hz&_). destruct Hy. apply list_elem_of_fmap. exists z.
  split; [done|by eapply list_elem_of_lookup_2].
Qed.

Lemma displaced_app P0 m x y : NoDup (m ++ [x]).*1 →
  displaced P0 (m ++ [x]) y = if bool_decide (y = x.1) && negb (stuck x.1) then x.2 else displaced P0 m y.
Proof.
  intros Hn. pose proof Hn as Hn'. rewrite fmap_app in Hn'. apply NoDup_app in Hn' as (Hm&Hd&_).
  destruct (decide (y = x.1)) as [->|Hne].
  - rewrite bool_decide_true, (displaced_in P0 (m ++ [x]) x Hn) by (done || set_solver). cbn.
    rewrite displaced_out by (intros Hx; apply (Hd _ Hx); cbn; set_solver). by destruct (stuck x.1).
  - rewrite bool_decide_false by done. cbn. destruct (decide (y ∈ m.*1)) as [Hy|Hy].
    + apply list_elem_of_fmap in Hy as (z&->&Hz).
      rewrite (displaced_in P0 (m ++ [x]) z), (displaced_in P0 m z) by (done || set_solver). done.
    + rewrite !displaced_out; [done|done|]. rewrite fmap_app. cbn. set_solver.
Qed.

Lemma move_run P0 l moved s :
  NoDup (moved ++ l).*1 → movable P0 moved → (∀ y, at_ s y = displaced P0 moved y) →
  (∀ x, x ∈ moved → stuck x.1 = false) →
  ∃ r m s', move_selectors l moved s = (Ok (r, m), s') ∧ movable P0 m ∧
    (∀ y, at_ s' y = displaced P0 m y) ∧ (∀ x, x ∈ m → x ∈ moved ∨ x ∈ l) ∧
    (r = 0 → ∀ x, x ∈ moved ++ l → at_ s' x.1 = x.2).
Proof.
  revert moved s. induction l as [|x l IH]; intros moved s Hn Hm Hp Hs; cbn [move_selectors].
  { eexists 0, moved, s. split_and!; [done..|auto|]. intros _ x Hx. rewrite app_nil_r in *.
    by rewrite Hp, displaced_in, Hs by (done || apply Hm). }
  assert (moved ++ x :: l = (moved ++ [x]) ++ l) as Eapp by by rewrite <- app_assoc.
  assert (NoDup (moved ++ [x]).*1) as Hn1.
  { rewrite Eapp, fmap_app in Hn. by apply NoDup_app in Hn as (?&_). }
  assert (x.1 ∉ moved.*1) as Hx.
  { rewrite fmap_app in Hn1. apply NoDup_app in Hn1 as (_&Hd&_). intros Hin. apply (Hd _ Hin). cbn. set_solver. }
  destruct (sel_enabled_run x.1 s) as (s1&E1&P1). rewrite (bind_ok _ _ _ _ _ E1).
  destruct (eqb_spec (at_ s x.1) x.2) as [Hin|Hout].
  { destruct (IH moved s1) as (r&m&s'&E&Hm'&Hp'&Hsub&Hr); [|done|intros y; by rewrite P1|done|].
    { eapply sublist_NoDup; [exact Hn|]. rewrite !fmap_app. apply sublist_app; [done|]. by apply sublist_cons. }
    exists r, m, s'. split_and!; [done..|set_solver|]. intros H0 z Hz.
    rewrite Eapp, elem_of_app, elem_of_app in Hz.
    destruct Hz as [[Hz|Hz]|Hz]; [apply Hr; [done|set_solver]| |apply Hr; [done|set_solver]].
    apply list_elem_of_singleton in Hz as ->. rewrite Hp', displaced_out, <- Hin, Hp, displaced_out; [done|done|].
    intros Hxm. apply list_elem_of_fmap in Hxm as (z&Ez&Hz). destruct (Hsub z Hz) as [?|Hzl].
    - apply Hx. rewrite Ez. apply list_elem_of_fmap. eauto.
    - rewrite fmap_app in Hn. apply NoDup_app in Hn as (_&_&Hl). cbn in Hl. apply NoDup_cons in Hl as [Hnl _].
      apply Hnl. rewrite Ez. apply list_elem_of_fmap. eauto. }
  destruct (select_run x.1 x.2 s1) as (s2&E2&P2). rewrite (bind_ok _ _ _ _ _ E2). cbv zeta.
  assert (movable P0 (moved ++ [x])) as Hm1.
  { split; [done|]. intros z Hz. apply elem_of_app in Hz as [Hz|Hz]; [by apply Hm|].
    apply list_elem_of_singleton in Hz as ->. rewrite Hp, displaced_out in Hout by done.
    destruct (P0 x.1), x.2; naive_solver. }
  assert (∀ y, at_ s2 y = displaced P0 (moved ++ [x]) y) as Hp2.
  { intros y. by rewrite P2, displaced_app, P1, Hp. }
  destruct (sel_enabled_run x.1 s2) as (s3&E3&P3). rewrite (bind_ok _ _ _ _ _ E3).
  destruct (eqb_spec (at_ s2 x.1) x.2) as [Hin2|Hout2].
  - destruct (IH (moved ++ [x]) s3) as (r&m&s'&E&Hm'&Hp'&Hsub&Hr); [by rewrite <- Eapp|done|intros y; by rewrite P3| |].
    { intros z Hz. apply elem_of_app in Hz as [Hz|Hz]; [by apply Hs|]. apply list_elem_of_singleton in Hz as ->.
      rewrite P2, bool_decide_true in Hin2 by done. destruct (stuck x.1); [|done]. cbn in Hin2.
      by rewrite P1 in Hin2. }
    exists r, m, s'. split_and!; [done..| |by rewrite Eapp]. intros z Hz. destruct (Hsub z Hz) as [Hz'|]; set_solver.
  - eexists _, _, s3. split_and!; [done..|intros y; by rewrite P3| |done]. set_solver.
Qed.

Lemma displaced_cons P0 x m y :
  displaced P0 (x :: m) y = if bool_decide (y = x.1) then (if stuck y then P0 y else x.2) else displaced P0 m y.
Proof.
  unfold displaced. cbn [list_find]. destruct (decide (y = x.1)) as [->|Hne].
  - by rewrite bool_decide_true, decide_True by done.
  - rewrite bool_decide_false, decide_False by congruence. by destruct (list_find _ m) as [[]|].
Qed.

Lemma restore_run P0 m s :
  movable P0 m → (∀ y, at_ s y = displaced P0 m y) →
  ∃ s', for_each m (λ x, x1_usb4_0_select x.1 (negb x.2)) s = (Ok tt, s') ∧ ∀ y, at_ s' y = P0 y.
Proof.
  revert s. induction m as [|x m IH]; intros s [Hn Hm] Hp; cbn [for_each]; [by exists s|].
  cbn in Hn. apply NoDup_cons in Hn as [Hx Hn].
  destruct (select_run x.1 (negb x.2) s) as (s1&E1&P1). rewrite (bind_ok _ _ _ _ _ E1). apply IH.
  - split; [done|]. intros z Hz. apply Hm. by right.
  - intros y. rewrite P1, Hp, displaced_cons. destruct (decide (y = x.1)) as [->|Hne].
    + rewrite !bool_decide_true by done. rewrite displaced_out by done. cbn.
      destruct (stuck x.1); cbn; [done|]. symmetry. apply Hm. by left.
    + by rewrite !bool_decide_false by done.
Qed.

(** C19. Powering the router's domain off is all or nothing: it always returns;
    with 0 the domain was switched off as the last thing, when every selector
    was on its required source, and with an error every selector is back where
    it was found, also when one of them does not move or the domain refuses. *)
Theorem power_off_restores s :
  match x1_usb4_0_gdsc_power_off s with
  | (Ok r, s') =>
      if r =? 0
      then (∀ x, x ∈ x1_usb4_0_selectors → pos (g_w s') x.1 = x.2) ∧
           ∃ t v, g_log s' = t ++ [(DomainOff, (0, v))]
      else ∀ x, pos (g_w s') x = pos (g_w s) x
  | _ => False
  end.
Proof.
  assert (∀ l s, ∃ r s1, attempt (for_each l selector_held) s = (Ok r, s1) ∧ ∀ y, at_ s1 y = at_ s y) as Hheld.
  { induction l as [|x l IH]; intros t; [by exists 0, t|]. cbn [for_each].
    unfold attempt, selector_held. rewrite bind_assoc.
    destruct (sel_enabled_run x.1 t) as (t1&E1&P1). rewrite (bind_ok _ _ _ _ _ E1).
    destruct (eqb (at_ t x.1) x.2).
    - destruct (IH t1) as (r&t2&E2&P2). exists r, t2. split; [exact E2|]. intros y. by rewrite P2.
    - rewrite bind_assoc. destruct (other_run (Prepared (HSel x.1)) t1) as (r&v&t2&E2&P2&_); [done..|].
      rewrite (bind_ok _ _ _ _ _ E2). destruct (r !=? 0).
      + eexists _, t2. split; [done|]. intros y. by rewrite P2.
      + destruct (IH t2) as (r'&t3&E3&P3). exists r', t3. split; [exact E3|]. intros y. by rewrite P3, P2. }
  unfold x1_usb4_0_gdsc_power_off. destruct (Hheld x1_usb4_0_selectors s) as (held&s1&E1&P1).
  rewrite (bind_ok _ _ _ _ _ E1). destruct (Z.eqb_spec held 0) as [->|Hh]; cbn [negb].
  2:{ unfold ret. rewrite (proj2 (Z.eqb_neq _ _) Hh). done. }
  destruct (move_run (at_ s1) x1_usb4_0_selectors [] s1) as (r&m&s2&E2&Hm&Hp2&_&Hr).
  { cbn. repeat constructor; set_solver. }
  { split; [constructor|]. set_solver. }
  { done. }
  { set_solver. }
  rewrite (bind_ok _ _ _ _ _ E2). cbn [fst snd].
  assert (∀ e s3, e ≠ 0 → (∀ y, at_ s3 y = at_ s2 y) →
    match (do! (if e =? 0 then ret tt else for_each m (λ x, x1_usb4_0_select x.1 (negb x.2))) in ret e) s3 with
    | (Ok r, s') => r = e ∧ ∀ x, at_ s' x = at_ s x
    | _ => False
    end) as Hback.
  { intros e s3 He P3. rewrite (proj2 (Z.eqb_neq _ _) He).
    destruct (restore_run (at_ s1) m s3) as (s4&E4&P4); [done|intros y; by rewrite P3, Hp2|].
    rewrite (bind_ok _ _ _ _ _ E4). split; [done|]. intros y. by rewrite P4, P1. }
  destruct (Z.eqb_spec r 0) as [->|Hr0].
  - destruct (other_run DomainOff s2) as (e&v&s3&E3&P3&L3); [done..|]. rewrite (bind_ok _ _ _ _ _ E3).
    destruct (Z.eqb_spec e 0) as [->|He].
    + unfold bind, ret. cbn. split; [|eauto]. intros x Hx. rewrite P3. by apply Hr.
    + specialize (Hback e s3 He P3). rewrite (proj2 (Z.eqb_neq _ _) He) in Hback.
      match goal with |- match ?t with _ => _ end => destruct t as [[r'|e'|] s']; [|done..] end.
      destruct Hback as [-> Hb]. by rewrite (proj2 (Z.eqb_neq _ _) He).
  - rewrite (bind_ok _ _ s2 r s2) by done. specialize (Hback r s2 Hr0 ltac:(done)).
    rewrite (proj2 (Z.eqb_neq _ _) Hr0) in *.
    match goal with |- match ?t with _ => _ end => destruct t as [[r'|e'|] s']; [|done..] end.
    destruct Hback as [-> Hb]. by rewrite (proj2 (Z.eqb_neq _ _) Hr0).
Qed.
End power.

(** ** A clock framework on which every call succeeds *)

Definition demo_sel (x : selector) (b : bool) (w : selector → bool) : selector → bool :=
  λ y, if bool_decide (y = x) then b else w y.

#[local] Instance demo_gcc : GccEnv (selector → bool) := λ c w,
  match c with
  | ModGet | Kzalloc | LinkAdd | ParentOf _ _ => (1, 0, w)
  | SelEnabled x => (Z.b2z (w x), 0, w)
  | SelOn x => (0, 0, demo_sel x true w)
  | SelOff x => (0, 0, demo_sel x false w)
  | _ => (0, 0, w)
  end.

#[local] Instance demo_selectors : Selectors (λ w x, w x) (λ _, false).
Proof.
  split.
  - intros x w. cbn. by destruct (w x).
  - intros x w y. cbn. unfold demo_sel. by rewrite andb_true_r.
  - intros x w y. cbn. unfold demo_sel. by rewrite andb_true_r.
  - intros c w y A B. destruct c; try done; naive_solver.
Qed.

Lemma rx_select_exact_witness :
  let s := (gcc_run 1 [OPublish; OGet true 0] (gcc_boot (λ _, false))).2 in
  let s' := (x1_gcc_usb4_rx_select 1 true s).2 in
  (x1_gcc_usb4_rx_select 1 true s).1 = Ok tt ∧
  ∃ t v0 v1 a, g_log s' = g_log s ++ t ++ switch_events true v0 v1 a ∧ v0 .& 3 = 0 ∧ v1 .& 3 = 0.
Proof.
  intros s s'. assert ((x1_gcc_usb4_rx_select 1 true s).1 = Ok tt) as E by (vm_compute; reflexivity).
  split; [exact E|]. apply (rx_select_exact 1 true s s'). rewrite <- E. apply surjective_pairing.
Defined.

(** The system clock's selector is moved to its internal source. *)
Lemma power_off_restores_witness :
  let s := gcc_boot (λ _, false) in
  (x1_usb4_0_gdsc_power_off s).1 = Ok 0 ∧
  ∀ x, x ∈ x1_usb4_0_selectors → g_w (x1_usb4_0_gdsc_power_off s).2 x.1 = x.2.
Proof.
  intros s. assert ((x1_usb4_0_gdsc_power_off s).1 = Ok 0) as E by (vm_compute; reflexivity).
  split; [exact E|]. pose proof (power_off_restores (λ w x, w x) (λ _, false) s) as Hp.
  destruct (x1_usb4_0_gdsc_power_off s) as [r s']. cbn [fst snd] in *. rewrite E in Hp. apply Hp.
Defined.
