(* ===== verification/HostData.v ===== *)
(** * The production host driver: data, environment and primitives

    experiments/omarchy1/kernel/drivers/thunderbolt/qcom-usb4-x1-host.c owns
    the router of one Type-C port.  A persistent [x1_port] publishes one
    reference-counted session ([x1_host]) per attachment; sysfs stores drive
    the session through its life and Type-C callbacks run against it at any
    time.  This file has the structs of the driver, the calls it makes to the
    rest of the kernel, the state of the whole driver (port, sessions by
    generation, work in flight) and the primitives the handlers are written
    with.  A session that has been freed is absent from the map, and touching
    it is [Fault].

    The fields of the flat C struct [x1_host] that one lock or one phase owns
    are grouped into sub-records here; a field that is only handed to another
    subsystem or only printed is left out. *)

From S2P Require Import Prelude Wp Mcu Startup Typec.

(** [struct x1_power_stop]; a NULL stage is the empty string. *)
Record x1_power_stop := PowerStop {
  ps_attempted : bool; ps_finished : bool; ps_mcu_request_cleared : bool;
  ps_rx_reference : bool; ps_phy_off : bool; ps_phy_exited : bool;
  ps_route_cleared : bool; ps_memory_force_cleared : bool; ps_icc_released : bool;
  ps_gcc_released : bool; ps_clocks_released : bool; ps_runtime_released : bool;
  ps_mcu_control : Z; ps_host_control : Z; ps_reset_requests : Z;
  ps_resets_asserted : Z; ps_release_requests : Z; ps_resets_released : Z;
  ps_stage : string; ps_error : Z;
}.
#[export] Instance power_stop_eta : Eta x1_power_stop := λ s,
  PowerStop (ps_attempted s) (ps_finished s) (ps_mcu_request_cleared s)
    (ps_rx_reference s) (ps_phy_off s) (ps_phy_exited s) (ps_route_cleared s)
    (ps_memory_force_cleared s) (ps_icc_released s) (ps_gcc_released s)
    (ps_clocks_released s) (ps_runtime_released s) (ps_mcu_control s)
    (ps_host_control s) (ps_reset_requests s) (ps_resets_asserted s)
    (ps_release_requests s) (ps_resets_released s) (ps_stage s) (ps_error s).
Definition power_stop_zero : x1_power_stop :=
  PowerStop false false false false false false false false false false false
    false 0 0 0 0 0 0 "" 0.

(** [struct qcom_usb4_nhi_stop], the receipt of the control-ring stop. *)
Record qcom_usb4_nhi_stop := NhiStop {
  hs_attempted : bool; hs_finished : bool; hs_ctl_closed : bool;
  hs_irq_disabled : bool; hs_callbacks_drained : bool;
  hs_rings_disabled : Z; hs_rx_options : Z; hs_tx_options : Z;
  hs_stage : string; hs_error : Z;
}.
#[export] Instance nhi_stop_eta : Eta qcom_usb4_nhi_stop := λ s,
  NhiStop (hs_attempted s) (hs_finished s) (hs_ctl_closed s) (hs_irq_disabled s)
    (hs_callbacks_drained s) (hs_rings_disabled s) (hs_rx_options s) (hs_tx_options s)
    (hs_stage s) (hs_error s).
Definition nhi_stop_zero : qcom_usb4_nhi_stop :=
  NhiStop false false false false false 0 0 0 "" 0.

(** [struct qcom_usb4_nhi] with its embedded [tb_nhi]: [n_rings] says whether
    the ring arrays are allocated. *)
Record qcom_usb4_nhi := Nhi {
  n_prepared : bool; n_retained_stop_attempted : bool; n_retained_irq_disabled : bool;
  n_accept_rearm : bool; n_released : bool; n_irq_requested : bool;
  n_going_away : bool; n_rings : bool;
}.
#[export] Instance nhi_eta : Eta qcom_usb4_nhi := λ n,
  Nhi (n_prepared n) (n_retained_stop_attempted n) (n_retained_irq_disabled n)
    (n_accept_rearm n) (n_released n) (n_irq_requested n) (n_going_away n) (n_rings n).
Definition nhi_zero : qcom_usb4_nhi := Nhi false false false false false false false false.

(** [struct tb_x1_tunnel_stop], [struct qcom_usb4_nhi_retire] and
    [struct tb_x1_cm_retire]. *)
Record tb_x1_tunnel_stop := TunnelStop {
  ts_attempted : bool; ts_finished : bool; ts_error : Z; ts_adapters : Z; ts_hops : Z;
}.
Definition tunnel_stop_zero : tb_x1_tunnel_stop := TunnelStop false false 0 0 0.

Record qcom_usb4_nhi_retire := NhiRetire {
  nr_attempted : bool; nr_finished : bool; nr_error : Z; nr_irq_released : bool;
  nr_rings_detached : bool; nr_rings_freed : Z; nr_packets_freed : Z; nr_pool_released : bool;
}.
Definition nhi_retire_zero : qcom_usb4_nhi_retire := NhiRetire false false 0 false false 0 0 false.

Record tb_x1_cm_retire := CmRetire { cr_attempted : bool; cr_finished : bool; cr_error : Z }.
Definition cm_retire_zero : tb_x1_cm_retire := CmRetire false false 0.

(** The part of [struct x1_imsi_receipt] the driver looks at. *)
Record receiver := Receiver {
  rc_attempted : bool; rc_ready : bool; rc_associated : bool; rc_domain_ready : bool;
  rc_target_reserved : bool; rc_release_attempted : bool; rc_released : bool;
  rc_release_error : Z; rc_stop_finished : bool; rc_stop_error : Z;
  rc_banks_disabled : Z; rc_parents_detached : Z;
}.

(** The part of [struct x1_pcie_state] the driver looks at. *)
Record x1_pcie_state := PcieState {
  p_attempted : bool; p_prepared : bool; p_error : Z; p_inspect_requested : bool;
  p_cfg0_requested : bool; p_inventory_attempted : bool; p_receiver_requested : bool;
  p_receiver : receiver; p_nvme_requested : bool; p_host_attempted : bool;
  p_host_published : bool; p_host_prepared : bool; p_nvme_bind_attempted : bool;
  p_nvme_bound : bool; p_general : bool; p_endpoint_removed : bool; p_pulled : bool;
  p_config_fenced : bool; p_namespace_retired : bool; p_nvme_resources_retired : bool;
  p_pci_retire_attempted : bool; p_pci_retire_error : Z; p_pci_retired : bool;
  p_platform_retired : bool; p_platform_retire_error : Z;
}.
#[export] Instance pcie_state_eta : Eta x1_pcie_state := λ p,
  PcieState (p_attempted p) (p_prepared p) (p_error p) (p_inspect_requested p)
    (p_cfg0_requested p) (p_inventory_attempted p) (p_receiver_requested p)
    (p_receiver p) (p_nvme_requested p) (p_host_attempted p) (p_host_published p)
    (p_host_prepared p) (p_nvme_bind_attempted p) (p_nvme_bound p) (p_general p)
    (p_endpoint_removed p) (p_pulled p) (p_config_fenced p) (p_namespace_retired p)
    (p_nvme_resources_retired p) (p_pci_retire_attempted p) (p_pci_retire_error p)
    (p_pci_retired p) (p_platform_retired p) (p_platform_retire_error p).
Definition receiver_zero : receiver :=
  Receiver false false false false false false false 0 false 0 0 0.
Definition pcie_zero : x1_pcie_state :=
  PcieState false false 0 false false false false receiver_zero false false false false
    false false false false false false false false false 0 false false 0.

(** What the short Type-C lock protects: the callbacks write these. *)
Record typec_part := TypecPart {
  t_orientation : typec_orientation; t_batch_orientation : typec_orientation;
  t_pending_command : Z; t_connected_command : Z; t_error : Z;
  t_command_attempted : bool; t_negotiation_rearm : bool;
}.
#[export] Instance typec_part_eta : Eta typec_part := λ t,
  TypecPart (t_orientation t) (t_batch_orientation t) (t_pending_command t)
    (t_connected_command t) (t_error t) (t_command_attempted t) (t_negotiation_rearm t).
Definition typec_zero : typec_part :=
  TypecPart TYPEC_ORIENTATION_NONE TYPEC_ORIENTATION_NONE 0 0 0 false false.

(** What the session holds of its providers. *)
Record provider_part := ProviderPart {
  v_gcc : option Z; v_runtime_held : bool; v_clocks_on : bool;
  v_phy_initialized : bool; v_phy_on : bool;
}.
#[export] Instance provider_part_eta : Eta provider_part := λ v,
  ProviderPart (v_gcc v) (v_runtime_held v) (v_clocks_on v) (v_phy_initialized v) (v_phy_on v).
Definition provider_zero : provider_part := ProviderPart None false false false false.

(** Reset restoration of a renewed session. *)
Record restore_part := RestorePart {
  r_attempted : bool; r_complete : bool; r_state : Z; r_error : Z; r_hold_error : Z;
}.
#[export] Instance restore_part_eta : Eta restore_part := λ r,
  RestorePart (r_attempted r) (r_complete r) (r_state r) (r_error r) (r_hold_error r).
Definition restore_zero : restore_part := RestorePart false false 0 0 0.

(** The one-shot batch ([batch_*] and [negotiation_*]). *)
Record batch_part := BatchPart {
  b_attempted : bool; b_waiting : bool; b_terminal : bool; b_complete : bool;
  b_deadline : Z; b_step : string; b_error : Z; b_uid : Z; b_vendor : Z; b_device : Z;
  b_switch : option Z; b_negotiation_deadline : Z; b_negotiation_failures : Z;
  b_negotiation_error : Z;
}.
#[export] Instance batch_part_eta : Eta batch_part := λ b,
  BatchPart (b_attempted b) (b_waiting b) (b_terminal b) (b_complete b) (b_deadline b)
    (b_step b) (b_error b) (b_uid b) (b_vendor b) (b_device b) (b_switch b)
    (b_negotiation_deadline b) (b_negotiation_failures b) (b_negotiation_error b).
Definition batch_zero : batch_part :=
  BatchPart false false false false 0 "" 0 0 0 0 None 0 0 0.

(** Retained teardown ([tunnel_*], [host_stop*], [domain_*]). *)
Record stop_part := StopPart {
  s_tunnel_held : bool; s_tunnel_stop_attempted : bool; s_tunnel_stop_complete : bool;
  s_retained_tb : option Z; s_tunnel_stop_error : Z; s_tunnel_stop : tb_x1_tunnel_stop;
  s_host_stop_attempted : bool; s_host_stop : qcom_usb4_nhi_stop;
  s_control_retire : qcom_usb4_nhi_retire; s_cm_retire : tb_x1_cm_retire;
  s_domain_retire_attempted : bool; s_domain_unpublished : bool;
  s_domain_unregistered : bool; s_domain_retired : bool; s_domain_retire_error : Z;
}.
#[export] Instance stop_part_eta : Eta stop_part := λ s,
  StopPart (s_tunnel_held s) (s_tunnel_stop_attempted s) (s_tunnel_stop_complete s)
    (s_retained_tb s) (s_tunnel_stop_error s) (s_tunnel_stop s) (s_host_stop_attempted s)
    (s_host_stop s) (s_control_retire s) (s_cm_retire s) (s_domain_retire_attempted s)
    (s_domain_unpublished s) (s_domain_unregistered s) (s_domain_retired s)
    (s_domain_retire_error s).
Definition stop_part_zero : stop_part :=
  StopPart false false false None 0 tunnel_stop_zero false nhi_stop_zero nhi_retire_zero
    cm_retire_zero false false false false 0.

(** The two Omarchy retirements ([idle_*], [pulled*]). *)
Record retire_part := RetirePart {
  e_idle_attempted : bool; e_idle_retired : bool; e_idle_error : Z; e_idle_stage : string;
  e_pulled : bool; e_pulled_attempted : bool; e_pulled_retired : bool;
  e_pulled_error : Z; e_pulled_stage : string;
}.
#[export] Instance retire_part_eta : Eta retire_part := λ e,
  RetirePart (e_idle_attempted e) (e_idle_retired e) (e_idle_error e) (e_idle_stage e)
    (e_pulled e) (e_pulled_attempted e) (e_pulled_retired e) (e_pulled_error e)
    (e_pulled_stage e).
Definition retire_zero : retire_part := RetirePart false false 0 "" false false false 0 "".

(** [struct x1_host] *)
Record x1_host := Host {
  h_ref : Z; h_generation : Z; h_initial_event_sequence : Z; h_fully_retired : bool;
  h_router : Z; h_mcu : qcom_usb4_mcu; h_qnhi : qcom_usb4_nhi; h_tb : option Z;
  h_state : x1_state; h_pcie : x1_pcie_state; h_fw : option (list Z);
  h_serial : Z; h_shared : Z; h_irq : Z;
  h_activated : bool; h_cold_owned : bool; h_ready : bool; h_stopping : bool;
  h_startup_attempted : bool; h_suspended : bool;
  h_training_attempted : bool; h_inventory_attempted : bool;
  h_t : typec_part; h_v : provider_part; h_r : restore_part; h_b : batch_part;
  h_s : stop_part; h_p : x1_power_stop; h_e : retire_part;
}.
#[export] Instance host_eta : Eta x1_host := λ h,
  Host (h_ref h) (h_generation h) (h_initial_event_sequence h) (h_fully_retired h)
    (h_router h) (h_mcu h) (h_qnhi h) (h_tb h) (h_state h) (h_pcie h) (h_fw h)
    (h_serial h) (h_shared h) (h_irq h) (h_activated h) (h_cold_owned h) (h_ready h)
    (h_stopping h) (h_startup_attempted h) (h_suspended h) (h_training_attempted h)
    (h_inventory_attempted h) (h_t h) (h_v h) (h_r h) (h_b h) (h_s h) (h_p h) (h_e h).

(** [kzalloc(sizeof( *host))] *)
Definition host_zero : x1_host :=
  Host 0 0 0 false 0 mcu_zero nhi_zero None (X1State X1_NEW X1_NONE X1_NONE 0) pcie_zero
    None 0 0 0 false false false false false false false false typec_zero provider_zero
    restore_zero batch_zero stop_part_zero power_stop_zero retire_zero.

(** [struct x1_port]; a session is known by its generation. *)
Record x1_port := Port {
  q_session : option Z; q_orientation : typec_orientation; q_event_sequence : Z;
  q_disconnect_sequence : Z; q_next_generation : Z; q_module_held : bool;
  q_runtime_enabled : bool; q_baseline_released : bool;
}.
#[export] Instance port_eta : Eta x1_port := λ p,
  Port (q_session p) (q_orientation p) (q_event_sequence p) (q_disconnect_sequence p)
    (q_next_generation p) (q_module_held p) (q_runtime_enabled p) (q_baseline_released p).
Definition port_zero : x1_port := Port None TYPEC_ORIENTATION_NONE 0 0 0 false false false.

#[export] Instance orientation_eq_dec : EqDecision typec_orientation.
Proof. solve_decision. Defined.

(** The module parameters; all are read-only once the module is loaded. *)
Record params := Params {
  x1_startup : bool; x1_runtime_startup : bool; x1_pcie_prepare : bool;
  x1_pcie_inspect : bool; x1_pcie_cfg0 : bool; x1_inventory_batch : bool;
  x1_imsi_receiver : bool; x1_nvme_read : bool; x1_tunnel_quiesce : bool;
  x1_host_quiesce : bool; x1_power_quiesce : bool; x1_namespace_retire : bool;
  x1_pci_retire : bool; x1_control_retire : bool; x1_cm_retire : bool;
  x1_managed : bool; x1_general : bool;
}.

(** ** Calls to the rest of the kernel

    Each is recorded in the log of the session with the [int] it returned. *)

Inductive hcall :=
| TryModuleGet | IommuDomain | IommuGroupGet | IommuGroupEach | IommuGroupPut | DmaSetMask
| RequestFirmware | ReleaseFirmware
| PmRuntimeEnable | PmResumeAndGet | PmPutSync | PmGetNoresume | PmForbid
| GccGet | GccPut | GccResetState | GccRxSelect (phy : bool) | GccSysReady (us : Z)
| GccForceMem (on : bool) | GccPipeHwcg (enable : bool) | GccCtrlBit (set : bool) | GccPowerOn
| ResetAssert (i : Z) | ResetDeassert (i : Z) | ResetBulkAssert | ResetBulkDeassert
| Udelay (us : Z) | Usleep (lo hi : Z) | Msleep (ms : Z)
| IccApps (bw : Z) | IccDdr (bw : Z) | ClkBulkEnable | ClkBulkDisable
| PhySetMode | PhyInit | PhyPowerOn | PhyPowerOff | PhyExit | PhyDpReset (assert : bool)
| PinSelect (n : Z) | TcsrUpdate (value : Z) | TcsrRead
| StartupRun | McuConnect (word : Z) | McuStop
| RingsAlloc | RingsFree | NhiPrepare | NhiInitInterrupts | NhiShutdown
| TbProbe | TbDomainAdd | TbDomainPut | TbDomainRemove | TbWaitReleased
| TbWaitReleasedTimeout (ms : Z)
| TbSwitchFind (route : Z) | TbSwitchUid | TbSwitchPut | TbGetDevice
| TbApprove (uid : Z) | TbValidate (uid : Z) | TbEventsPending | TbHold (uid : Z)
| TbStopRetained (uid : Z) | TbStopPulled (uid : Z) | TbPcieStopped (uid : Z)
| TbInvalidate | TbIdleFreeze | TbRetireCm (uid : Z) | TbIdleRetireCm
| CtlStopRetained | CtlIdle | CtlRetire | CtlRetired
| PciePrepare | BatchPrepare | BatchInventory (vendor device : Z) | NvmeBind | GeneralRemove
| MarkPulled | PulledRemove | FenceAndQuiesce (pulled : bool) | RetireNamespaces | RetirePci
| RetirePlatform | IdleRetirePlatform | ReleaseRetiredReset
| Jiffies | SessionAlloc | NhiCaps | NhiRingEnabled (i : Z).

#[export] Instance hcall_eq_dec : EqDecision hcall.
Proof. solve_decision. Defined.

(** A function that may call back into the driver between the steps it takes
    on the struct it was handed: any finite strategy. *)
Inductive helper (W X : Type) :=
| Finish (f : X → W → Z * X * W)
| Callback (f : X → W → X * W) (k : Z → helper W X).
Arguments Finish {_ _} _.
Arguments Callback {_ _} _ _.

(** What [x1_pcie_empty_domain] looks at. *)
Record tb_view := TbView {
  tv_nopcie : bool; tv_root : option bool; tv_ports : list (bool * bool);
}.

(** A mux notification: [state->alt], [state->mode == TYPEC_MODE_USB4] and
    [state->data]. *)
Record typec_mux_state := MuxState {
  ms_alt : bool; ms_usb4 : bool; ms_data : option enter_usb_data;
}.

(** The sysfs stores, with [capable(CAP_SYS_ADMIN)] and the written bytes. *)
Inductive attr :=
| activate_once | pcie_prepare_once | inventory_once | endpoint_remove_once
| tunnel_quiesce_once | host_quiesce_once | power_quiesce_once | idle_retire_once
| pulled_retire_once | renew_session.

(** A piece of work that has pinned a session.  [TBind] is the tail of the
    inventory store, which runs without the device lock. *)
Inductive task :=
| TSwitch (o : typec_orientation) | TMux (st : typec_mux_state)
| TStore (a : attr) (capable : bool) (buf : string)
| TBind | TShutdown | TSuspend | TComplete.

(** What other threads do while a handler runs: start some work, or let the
    [i]-th piece in flight go on. *)
Inductive arrival := Begin (t : task) | Resume (i : nat).

(** Everything outside the driver, as an arbitrary machine over [W]. *)
Class HostEnv (W : Type) := {
  e_call : hcall → W → Z * Z * W;
  e_firmware : W → Z * list Z * W;
  e_nhi : hcall → qcom_usb4_nhi → W → Z * qcom_usb4_nhi * W;
  e_ctl_stop : qcom_usb4_nhi * qcom_usb4_nhi_stop → W →
               Z * (qcom_usb4_nhi * qcom_usb4_nhi_stop) * W;
  e_tunnel : hcall → tb_x1_tunnel_stop → W → Z * tb_x1_tunnel_stop * W;
  e_pcie : hcall → W → helper W (x1_pcie_state * bool * bool);
  e_ctl_retire : W → helper W (qcom_usb4_nhi * qcom_usb4_nhi_retire);
  e_cm_retire : hcall → W → helper W tb_x1_cm_retire;
  e_tb : W → tb_view;
  e_arrivals : W → list arrival * W;
}.

(** ** The driver's state *)

Record hsys (W : Type) := Sys {
  y_port : x1_port;
  y_sessions : gmap Z x1_host;
  y_flight : list (Z * task);
  y_log : list (Z * (hcall * Z));
  y_w : W;
}.
Arguments Sys {_} _ _ _ _ _.
Arguments y_port {_} _.
Arguments y_sessions {_} _.
Arguments y_flight {_} _.
Arguments y_log {_} _.
Arguments y_w {_} _.
#[export] Instance sys_eta {W} : Eta (hsys W) := λ y,
  Sys (y_port y) (y_sessions y) (y_flight y) (y_log y) (y_w y).

Section primitives.
Context {W : Type} `{Mmio Z W} `{HostEnv W}.

(** [host->field]: undefined once the session is freed. *)
Definition hget (g : Z) : M (hsys W) x1_host := λ y,
  match y_sessions y !! g with
  | Some h => (Ok h, y)
  | None => (Fault, y)
  end.

Definition hset (g : Z) (f : x1_host → x1_host) : M (hsys W) unit := λ y,
  match y_sessions y !! g with
  | Some h => (Ok tt, y <| y_sessions := <[g := f h]> (y_sessions y) |>)
  | None => (Fault, y)
  end.

Definition pget : M (hsys W) x1_port := λ y, (Ok (y_port y), y).
Definition pset (f : x1_port → x1_port) : M (hsys W) unit :=
  modify (λ y, y <| y_port := f (y_port y) |>).

Definition note (g : Z) (c : hcall) (r : Z) : M (hsys W) unit :=
  modify (λ y, y <| y_log := y_log y ++ [(g, (c, r))] |>).

(** A call and the [int] it returns; [call2] also has its output word. *)
Definition call2 (g : Z) (c : hcall) : M (hsys W) (Z * Z) := λ y,
  let '(r, v, w) := e_call c (y_w y) in
  (Ok (r, v), y <| y_w := w |> <| y_log := y_log y ++ [(g, (c, r))] |>).
Definition call (g : Z) (c : hcall) : M (hsys W) Z :=
  let! p := call2 g c in ret p.1.
Definition call_ (g : Z) (c : hcall) : M (hsys W) unit :=
  do! call2 g c in ret tt.

(** [ret = f(); if (ret) goto fail;] *)
Definition must (g : Z) (c : hcall) : M (hsys W) unit :=
  let! r := call g c in ok_or_fail r.

(** Reads of the clock and of state that other code keeps; they are not
    effects and are not logged. *)
Definition read_out (c : hcall) : M (hsys W) Z := λ y,
  let '(_, v, w) := e_call c (y_w y) in (Ok v, y <| y_w := w |>).
Definition jiffies : M (hsys W) Z := let! v := read_out Jiffies in ret (u64 v).

(** The router's registers and the MCU behind them. *)
Definition on_router {A} (m : M W A) : M (hsys W) A := λ y,
  let (r, w) := m (y_w y) in (r, y <| y_w := w |>).

(** A call that is handed a struct of the session to fill in. *)
Definition struct_call {X} (g : Z) (c : hcall) (get_x : x1_host → X)
    (set_x : X → x1_host → x1_host) (f : X → W → Z * X * W) : M (hsys W) Z :=
  let! h := hget g in
  let! p := (λ y, let '(r, x, w) := f (get_x h) (y_w y) in
                  (Ok (r, x), y <| y_w := w |>)) in
  do! hset g (set_x p.2) in
  do! note g c p.1 in
  ret p.1.

Fixpoint run_helper {X} (g : Z) (get_x : x1_host → X) (set_x : X → x1_host → x1_host)
    (cb : M (hsys W) Z) (t : helper W X) : M (hsys W) Z :=
  match t with
  | Finish f =>
      let! h := hget g in
      let! p := (λ y, let '(r, x, w) := f (get_x h) (y_w y) in
                      (Ok (r, x), y <| y_w := w |>)) in
      do! hset g (set_x p.2) in ret p.1
  | Callback f k =>
      let! h := hget g in
      let! x := (λ y, let '(x, w) := f (get_x h) (y_w y) in (Ok x, y <| y_w := w |>)) in
      do! hset g (set_x x) in
      let! r := cb in
      run_helper g get_x set_x cb (k r)
  end.

(** A call with a callback into the driver. *)
Definition helper_call {X} (g : Z) (c : hcall) (get_x : x1_host → X)
    (set_x : X → x1_host → x1_host) (cb : M (hsys W) Z) (t : W → helper W X) : M (hsys W) Z :=
  let! h := (λ y, (Ok (t (y_w y)), y)) in
  let! r := run_helper g get_x set_x cb h in
  do! note g c r in
  ret r.

(** The functions of qcom-usb4-x1-pcie.c that are handed [&host->pcie] and,
    for the inventory, the training and inventory records. *)
Definition pcie_args (h : x1_host) : x1_pcie_state * bool * bool :=
  (h_pcie h, h_training_attempted h, h_inventory_attempted h).
Definition set_pcie_args (x : x1_pcie_state * bool * bool) (h : x1_host) : x1_host :=
  h <| h_pcie := x.1.1 |> <| h_training_attempted := x.1.2 |>
    <| h_inventory_attempted := x.2 |>.
Definition set_pcie_only (x : x1_pcie_state * bool * bool) (h : x1_host) : x1_host :=
  h <| h_pcie := x.1.1 |>.

Definition pcie_call (g : Z) (c : hcall) (cb : M (hsys W) Z) : M (hsys W) Z :=
  helper_call g c pcie_args set_pcie_only cb (e_pcie c).

(** The functions of the control interface that are handed [&host->qnhi]. *)
Definition set_nhi (n : qcom_usb4_nhi) (h : x1_host) : x1_host := h <| h_qnhi := n |>.
Definition nhi_call (g : Z) (c : hcall) : M (hsys W) Z :=
  struct_call g c h_qnhi set_nhi (e_nhi c).
End primitives.
