(* ===== verification/HostStart.v ===== *)
(** * The production host driver: sessions, Type-C callbacks, startup

    The first half of qcom-usb4-x1-host.c (under
    experiments/omarchy1/kernel/drivers/thunderbolt): session references, the
    two Type-C callbacks, the callbacks of the startup sequencer, activation
    with its rollback, and the point where other threads run: each time a
    handler takes the Type-C lock of its session. *)

From S2P Require Import Prelude Wp Fw Drom Mcu Startup Typec HostData.

Definition X1_ROUTER_SIZE : Z := 0x100000.
Definition X1_RAM_SIZE : Z := 0xf000.
Definition X1_COMMAND_TIMEOUT_US : Z := 10000.
Definition X1_RESETS : list Z := [0; 1; 2; 3; 4; 5; 6; 7; 8; 9; 10].
Definition X1_ALL_RESETS : Z := 0x7ff.
Definition MBps_to_icc (x : Z) : Z := x * 1000.

(** The pinned image ([expected] of [x1_firmware]). *)
Definition expected_sha256 : list Z := [
  0xcd;0x4f;0x59;0x29;0xb5;0x1f;0x2d;0xbb;0x0b;0x58;0x36;0x93;0xff;0x8d;0x02;0x45;
  0x21;0xc8;0x7f;0x0d;0x2e;0x45;0xc7;0xad;0xc1;0x42;0xfe;0xd9;0x76;0x65;0x0b;0x99 ].

Section host.
Context (P : params).
Context (crc32c : Z → list Z → Z) (sha256 : list Z → list Z).
Context (start_polls command_polls : nat).
Context `{TypecAbi}.
Context {W : Type} `{Mmio Z W} `{HostEnv W}.

Notation MS := (M (hsys W)).

(** ** Session references *)

Definition x1_session_release (g : Z) : MS unit :=
  let! h := hget g in
  if h_startup_attempted h && negb (h_fully_retired h) then ret tt else
  do! (match h_fw h with Some _ => call_ g ReleaseFirmware | None => ret tt end) in
  modify (λ y, y <| y_sessions := delete g (y_sessions y) |>).

(** [kref_put] *)
Definition x1_session_put (g : Z) : MS unit :=
  let! h := hget g in
  do! hset g (λ h, h <| h_ref := h_ref h - 1 |>) in
  if h_ref h - 1 =? 0 then x1_session_release g else ret tt.

(** [kref_get_unless_zero] *)
Definition get_unless_zero (g : Z) : MS (option Z) :=
  let! h := hget g in
  if h_ref h =? 0 then ret None else
  do! hset g (λ h, h <| h_ref := h_ref h + 1 |>) in ret (Some g).

Definition x1_session_get : MS (option Z) :=
  let! p := pget in
  match q_session p with None => ret None | Some g => get_unless_zero g end.

Definition record_orientation (o : typec_orientation) (p : x1_port) : x1_port :=
  let seq := u64 (q_event_sequence p + 1) in
  let p := p <| q_orientation := o |> <| q_event_sequence := seq |> in
  if bool_decide (o = TYPEC_ORIENTATION_NONE) then p <| q_disconnect_sequence := seq |> else p.

Definition x1_orientation_session (o : typec_orientation) : MS (option Z) :=
  let! host := x1_session_get in
  do! pset (record_orientation o) in
  ret host.

(** [kzalloc] may fail. *)
Definition x1_session_alloc : MS (option Z) :=
  let! p := pget in
  let g := u64 (q_next_generation p + 1) in
  let! ok := call g SessionAlloc in
  if ok !=? 0 then ret None else
  do! pset (λ p, p <| q_next_generation := g |>) in
  do! modify (λ y, y <| y_sessions :=
        <[g := host_zero <| h_generation := g |> <| h_ref := 1 |>]> (y_sessions y) |>) in
  ret (Some g).

(** ** Type-C callbacks *)

Definition x1_attach_untouched (h : x1_host) : bool :=
  x1_managed P && b_attempted (h_b h) && b_waiting (h_b h) &&
  negb (b_terminal (h_b h)) && (t_error (h_t h) =? 0) && negb (h_stopping h) &&
  negb (t_command_attempted (h_t h)) && (t_connected_command (h_t h) =? 0) &&
  (t_pending_command (h_t h) =? 0) && bool_decide (b_switch (h_b h) = None) &&
  negb (h_training_attempted h) && negb (h_inventory_attempted h) &&
  negb (rc_attempted (p_receiver (h_pcie h))) && negb (p_host_attempted (h_pcie h)) &&
  negb (p_nvme_bind_attempted (h_pcie h)).

(** Writing the fields of the Type-C part. *)
Definition tset (g : Z) (f : typec_part → typec_part) : MS unit :=
  hset g (λ h, h <| h_t := f (h_t h) |>).

Definition x1_batch_orientation (g : Z) (o : typec_orientation) : MS Z :=
  let! h := hget g in
  let t := h_t h in
  if negb (b_attempted (h_b h)) then ret 0 else
  if b_terminal (h_b h) || (t_error t !=? 0) then ret (elvis (t_error t) (-ESHUTDOWN)) else
  if bool_decide (o = t_orientation t) then ret 0 else
  if bool_decide (o = TYPEC_ORIENTATION_NONE) &&
     bool_decide (t_batch_orientation t ≠ TYPEC_ORIENTATION_NONE) && x1_attach_untouched h
  then
    do! tset g (λ t, t <| t_batch_orientation := TYPEC_ORIENTATION_NONE |>
                       <| t_negotiation_rearm := false |>) in ret 0
  else
  if negb (b_waiting (h_b h)) || bool_decide (t_batch_orientation t ≠ TYPEC_ORIENTATION_NONE) ||
     bool_decide (o = TYPEC_ORIENTATION_NONE)
  then do! tset g (λ t, t <| t_error := -ESHUTDOWN |>) in ret (-ESHUTDOWN)
  else do! tset g (λ t, t <| t_batch_orientation := o |>) in ret 0.

Definition x1_apply_link (g : Z) : MS Z :=
  let! h := hget g in
  let t := h_t h in
  if negb (h_ready h) || (t_pending_command t =? 0) || h_stopping h then ret 0 else
  if t_error t !=? 0 then ret (t_error t) else
  if t_pending_command t =? t_connected_command t then ret 0 else
  if t_command_attempted t then
    do! tset g (λ t, t <| t_error := -EOPNOTSUPP |>) in ret (-EOPNOTSUPP)
  else
  do! tset g (λ t, t <| t_command_attempted := true |>) in
  let! r := attempt (on_router (qcom_usb4_mcu_command command_polls (Some (h_mcu h))
                                  (t_pending_command t) X1_COMMAND_TIMEOUT_US)) in
  do! note g (McuConnect (t_pending_command t)) r in
  do! (if r !=? 0 then tset g (λ t, t <| t_error := r |>)
       else tset g (λ t, t <| t_connected_command := t_pending_command t |>)) in
  ret r.

Definition x1_invalidate_retained (g : Z) : MS unit :=
  let! h := hget g in
  match s_retained_tb (h_s h) with Some _ => call_ g TbInvalidate | None => ret tt end.

(** qcom-usb4-x1-pcie.c: whether this driver's context still has an endpoint
    is not the host's business. *)
Definition qcom_usb4_x1_mark_pulled (g : Z) : MS unit :=
  let! h := hget g in
  let! r := call2 g MarkPulled in
  if (r.2 !=? 0) && p_general (h_pcie h) && negb (p_pci_retire_attempted (h_pcie h))
  then hset g (λ h, h <| h_pcie := (h_pcie h) <| p_pulled := true |> |>)
  else ret tt.

(** [x1_switch_set] after [x1_orientation_session]: the session is pinned and
    its Type-C lock free. *)
Definition x1_switch_set (g : Z) (o : typec_orientation) : MS Z :=
  do! x1_invalidate_retained g in
  do! x1_invalidate_retained g in
  let! h := hget g in
  if h_stopping h then ret 0 else
  do! (if x1_general P && bool_decide (o = TYPEC_ORIENTATION_NONE)
       then qcom_usb4_x1_mark_pulled g else ret tt) in
  let! r := x1_batch_orientation g o in
  if r !=? 0 then ret r else
  let! h := hget g in
  do! (if bool_decide (t_orientation (h_t h) ≠ o) || bool_decide (o = TYPEC_ORIENTATION_NONE)
       then do! tset g (λ t, t <| t_pending_command := 0 |>) in
            if t_command_attempted (h_t h)
            then tset g (λ t, t <| t_error := -ESHUTDOWN |>) else ret tt
       else ret tt) in
  do! tset g (λ t, t <| t_orientation := o |>) in
  ret 0.

(** [qcom_usb4_typec_usb4_command(state->data, host->orientation, 1, &command)] *)
Definition usb4_command (data : option enter_usb_data) (o : typec_orientation) : res Z :=
  match qcom_usb4_typec_usb4_command data o 1 (Some 0) with
  | (Ok _, Some command) => Ok command
  | (Ok _, None) => Fault
  | (Err e, _) => Err e
  | (Fault, _) => Fault
  end.

Definition x1_mux_set (g : Z) (st : typec_mux_state) : MS Z :=
  do! x1_invalidate_retained g in
  do! x1_invalidate_retained g in
  let! h := hget g in
  let t := h_t h in
  if h_stopping h then ret 0 else
  if b_attempted (h_b h) && (b_terminal (h_b h) || (t_error t !=? 0))
  then ret (elvis (t_error t) (-ESHUTDOWN)) else
  if negb (ms_alt st) && ms_usb4 st && bool_decide (is_Some (ms_data st)) then
    if b_attempted (h_b h) && negb (b_waiting (h_b h))
    then do! tset g (λ t, t <| t_error := -ESHUTDOWN |>) in ret (-ESHUTDOWN) else
    do! tset g (λ t, t <| t_pending_command := 0 |>) in
    if t_negotiation_rearm t then ret 0 else
    match usb4_command (ms_data st) (t_orientation t) with
    | Ok command =>
        do! tset g (λ t, t <| t_pending_command := command |>) in
        x1_apply_link g
    | Err e =>
        do! (if t_command_attempted t || b_attempted (h_b h)
             then tset g (λ t, t <| t_error := e |>) else ret tt) in
        ret e
    | Fault => fault
    end
  else
    do! tset g (λ t, t <| t_pending_command := 0 |>) in
    do! (if t_command_attempted t then tset g (λ t, t <| t_error := -ESHUTDOWN |>)
         else ret tt) in
    ret 0.

(** ** Work in flight

    Starting a piece of work pins the published session.  The sysfs files and
    the power callbacks exist only while a session is published; a Type-C
    callback without one returns -ENODEV. *)

Definition push (g : Z) (t : task) : MS unit :=
  modify (λ y, y <| y_flight := y_flight y ++ [(g, t)] |>).

Definition begin_task (t : task) : MS unit :=
  match t with
  | TSwitch o =>
      let! s := x1_orientation_session o in
      match s with Some g => push g t | None => ret tt end
  | TMux _ | TShutdown =>
      let! s := x1_session_get in
      match s with Some g => push g t | None => ret tt end
  | TBind => ret tt
  | TStore _ _ _ | TSuspend | TComplete =>
      let! p := pget in
      match q_session p with
      | None => ret tt
      | Some _ => let! s := x1_session_get in
                  match s with Some g => push g t | None => fault end
      end
  end.

(** A callback that gets its turn while a store holds the device lock; another
    store finds [device_trylock] taken and gives up, everything else waits. *)
Definition resume_callback (i : nat) : MS unit :=
  let! y := get in
  match y_flight y !! i with
  | Some (g, TSwitch o) =>
      do! modify (λ y, y <| y_flight := delete i (y_flight y) |>) in
      do! x1_switch_set g o in x1_session_put g
  | Some (g, TMux st) =>
      do! modify (λ y, y <| y_flight := delete i (y_flight y) |>) in
      do! x1_mux_set g st in x1_session_put g
  | Some (g, TStore _ _ _) =>
      do! modify (λ y, y <| y_flight := delete i (y_flight y) |>) in
      x1_session_put g
  | _ => ret tt
  end.

Definition arrive (a : arrival) : MS unit :=
  match a with Begin t => begin_task t | Resume i => resume_callback i end.

Definition next_arrivals : MS (list arrival) := λ y,
  let (l, w) := e_arrivals (y_w y) in (Ok l, y <| y_w := w |>).

(** [mutex_lock(&host->lock)] in a handler: whoever was there before has run. *)
Definition lock : MS unit :=
  let! l := next_arrivals in for_each l arrive.

(** [spin_lock_irqsave(&port->event_lock, flags)] with [host->lock] held:
    notifications are recorded, their callbacks wait. *)
Definition event_lock : MS unit :=
  let! l := next_arrivals in
  for_each l (λ a, match a with Begin t => begin_task t | Resume _ => ret tt end).

(** ** Callbacks of the startup sequencer *)

Definition router_read (off : Z) : MS Z :=
  if tst off 3 || (X1_ROUTER_SIZE - 4 <? off) then fail (-EINVAL) else
  on_router (readl off).

Definition x1_read (off : Z) : hsys W → Z * Z * hsys W := λ y,
  match router_read off y with
  | (Ok v, y) => (0, v, y)
  | (r, y) => (code r, 0, y)
  end.

Definition router_update (off mask value : Z) : MS unit :=
  let! before := router_read off in
  on_router (writel ((before .& not32 mask) .| (value .& mask)) off).

Definition x1_delay (g us : Z) : MS unit :=
  if us <? 20 then call_ g (Udelay us) else call_ g (Usleep us (us + us / 10 + 10)).

Definition x1_owner (g : Z) (cfg : x1_config) : MS unit :=
  let! h := hget g in
  match h_fw h with
  | None => fault
  | Some data =>
      if bool_decide (cfg_firmware cfg ≠ Some data) || v_phy_initialized (h_v h)
      then fail (-EINVAL) else
      do! for_each [0x22000; 0x18; 0x22010; 0x2201c] (λ off,
            let! v := on_router (readl off) in
            if v !=? 0 then fail (-EBUSY) else ret tt) in
      let! v := on_router (readl 0x78640) in
      if v !=? 3 then fail (-ENODEV) else
      hset g (λ h, h <| h_cold_owned := true |>)
  end.

Definition x1_store_drom (g : Z) : MS unit :=
  let! h := hget g in
  let! drom := lift (qcom_usb4_x1_drom_build crc32c (Some (replicate 116 0))
                       QCOM_USB4_DROM_SIZE (h_serial h) 0) in
  if (drom_offset (h_mcu h) !=? 0xdf20) ||
     (u64 (ram_size (h_mcu h) - 0xdf20) <? QCOM_USB4_DROM_SIZE) then fail (-EINVAL) else
  let! control := on_router (readl (control_offset (h_mcu h))) in
  if control !=? 0 then fail (-EINVAL) else
  let! hi := lift (get_unaligned_le32 drom 5) in
  do! on_router (writel hi 0x801c) in
  let! lo := lift (get_unaligned_le32 drom 1) in
  do! on_router (writel lo 0x8020) in
  do! for_each drom_words (λ i,
        let! v := lift (get_unaligned_le32 drom i) in on_router (writel v (0x20f20 + i))) in
  for_each drom_words (λ i,
        let! r := on_router (readl (0x20f20 + i)) in
        let! v := lift (get_unaligned_le32 drom i) in
        if r !=? v then fail (-EIO) else ret tt).

(** Writing the fields of the provider part. *)
Definition vset (g : Z) (f : provider_part → provider_part) : MS unit :=
  hset g (λ h, h <| h_v := f (h_v h) |>).

(** [ret = phy_init(host->phy); host->phy_initialized = !ret;] and the same
    for the power-on of the composite PHY. *)
Definition phy_init (g : Z) : MS unit :=
  let! r := call g PhyInit in
  do! vset g (λ v, v <| v_phy_initialized := r =? 0 |>) in ok_or_fail r.
Definition phy_power_on (g : Z) : MS unit :=
  let! r := call g PhyPowerOn in
  do! vset g (λ v, v <| v_phy_on := r =? 0 |>) in ok_or_fail r.

(** [qcom_usb4_mcu_start(&host->mcu, &host->shared)] *)
Definition router_mcu_start (g : Z) : MS unit :=
  let! h := hget g in
  let! r := (λ y, let '(r, sh, w) := qcom_usb4_mcu_start start_polls (Some (h_mcu h))
                                       (Some (h_shared h)) (y_w y) in
                  (Ok (r, default (h_shared h) sh), y <| y_w := w |>)) in
  do! hset g (λ h, h <| h_shared := r.2 |>) in
  lift r.1.

Definition preset_word (preset : Z) : res Z :=
  match qcom_usb4_typec_preset_command preset (Some 0) with
  | (Ok _, Some command) => Ok command
  | (Ok _, None) => Fault
  | (Err e, _) => Err e
  | (Fault, _) => Fault
  end.

(** [x1_step]; [host->gcc] is handed to the lease functions. *)
Definition x1_step_run (g : Z) (step : x1_step) (cfg : x1_config) : MS unit :=
  match step with
  | X1_PHY_PREPARE => do! must g PhySetMode in phy_init g
  | X1_RX_PREPARE => must g (PinSelect 0)
  | X1_TXB_PREPARE => must g (PinSelect 1)
  | X1_TXA_PREPARE => must g (PinSelect 2)
  | X1_RX_ACTIVE => must g (PinSelect 3)
  | X1_TXB_ACTIVE => must g (PinSelect 4)
  | X1_TXA_ACTIVE => must g (PinSelect 5)
  | X1_RX_CLOCK_REFERENCE => must g (GccRxSelect false)
  | X1_RX_CLOCK_PHY => must g (GccRxSelect true)
  | X1_MISC_RESET_ASSERT => must g ResetBulkAssert
  | X1_MISC_RESET_CLEAR => must g ResetBulkDeassert
  | X1_EXTRA_RESET_ASSERT => must g (GccCtrlBit true)
  | X1_EXTRA_RESET_CLEAR => must g (GccCtrlBit false)
  | X1_DP_RESET_ASSERT => must g (PhyDpReset true)
  | X1_DP_RESET_CLEAR => must g (PhyDpReset false)
  | X1_PIPE_RESET_ASSERT => must g (ResetAssert 3)
  | X1_PIPE_RESET_CLEAR => must g (ResetDeassert 3)
  | X1_SYS_READY => must g (GccSysReady 100000)
  | X1_UPLOAD =>
      let! h := hget g in
      on_router (qcom_usb4_mcu_upload (Some (h_mcu h)) (cfg_firmware cfg)
                   (cfg_firmware_size cfg))
  | X1_SYS_MEMORY_FORCE => must g (GccForceMem true)
  | X1_TCSR_ROUTE => must g (TcsrUpdate (BIT 0))
  | X1_PIPE_HWCG_OFF => must g (GccPipeHwcg false)
  | X1_DROM => x1_store_drom g
  | X1_PHY_COMPOSITE => phy_power_on g
  | X1_MCU_START => router_mcu_start g
  | X1_PRESET =>
      let! command := lift (preset_word (cfg_mcu_preset cfg)) in
      let! h := hget g in
      on_router (qcom_usb4_mcu_command command_polls (Some (h_mcu h)) command
                   X1_COMMAND_TIMEOUT_US)
  | _ => fail (-EINVAL)
  end.

(** A computation where C wants an [int]; none of them faults, see
    HostInv.v. *)
Definition int_of (m : MS unit) : hsys W → Z * hsys W := λ y,
  let (r, y') := m y in (code r, y').

Definition x1_start_ops (g : Z) : x1_ops (hsys W) := {|
  ops_owner cfg := int_of (x1_owner g cfg);
  ops_step step cfg := int_of (x1_step_run g step cfg);
  ops_read := x1_read;
  ops_update off mask value := int_of (router_update off mask value);
  ops_delay_us us y := (x1_delay g us y).2;
|}.

(** [x1_startup_run(&host->state, &cfg, &x1_start_ops, host)] *)
Definition startup_run (g : Z) (cfg : x1_config) : MS Z :=
  let! h := hget g in
  let! r := (λ y, match x1_startup_run crc32c (Some cfg) (Some (x1_start_ops g))
                          (h_state h, y) with
                  | (Fault, (_, y)) => (Fault, y)
                  | (r, (st, y)) => (Ok (code r, st), y)
                  end) in
  do! hset g (λ h, h <| h_state := r.2 |>) in
  do! note g StartupRun r.1 in
  ret r.1.

(** ** The control domain *)

(** [devm_kcalloc] of the two arrays; a failure leaves nothing that is used. *)
Definition alloc_rings (g : Z) : MS unit :=
  let! r := call g RingsAlloc in
  if r !=? 0 then fail (-ENOMEM) else
  hset g (λ h, h <| h_qnhi := (h_qnhi h) <| n_rings := true |> |>).

Definition domain_body (g : Z) : MS unit :=
  let! r := nhi_call g NhiInitInterrupts in
  do! ok_or_fail r in
  let! tb := call2 g TbProbe in
  if tb.2 =? 0 then fail (-ENOMEM) else
  do! hset g (λ h, h <| h_tb := Some tb.2 |>) in
  let! r := call g TbDomainAdd in
  if r !=? 0 then
    do! call_ g TbDomainPut in
    do! call_ g TbWaitReleased in
    do! hset g (λ h, h <| h_tb := None |>) in fail r
  else call_ g PmForbid.

Definition x1_start_domain (g : Z) : MS unit :=
  let! caps := read_out NhiCaps in
  if caps !=? 3 then fail (-ENODEV) else
  do! for_each [0; 1; 2] (λ i,
        let! on := read_out (NhiRingEnabled i) in
        if on !=? 0 then fail (-EBUSY) else ret tt) in
  do! alloc_rings g in
  let! r := nhi_call g NhiPrepare in
  do! ok_or_fail r in
  on_error (domain_body g) (do! nhi_call g NhiShutdown in ret tt).

(** ** Activation *)

(** The domain type: 1 is IOMMU_DOMAIN_DMA, 2 is IOMMU_DOMAIN_DMA_FQ, 0 none. *)
Definition x1_dma_check (g : Z) : MS unit :=
  let! domain := read_out IommuDomain in
  if (domain !=? 1) && (domain !=? 2) then fail (-EPERM) else
  let! group := read_out IommuGroupGet in
  if group =? 0 then fail (-EPERM) else
  let! r := call g IommuGroupEach in
  do! call_ g IommuGroupPut in
  do! ok_or_fail r in
  must g DmaSetMask.

(** [request_firmware(&host->fw, ...)]: the image is a buffer of bytes. *)
Definition request_firmware (g : Z) : MS (list Z) := λ y,
  let '(r, data, w) := e_firmware (y_w y) in
  let y := y <| y_w := w |> <| y_log := y_log y ++ [(g, (RequestFirmware, r))] |> in
  if r !=? 0 then (Err r, y) else (Ok (u8 <$> data), y).

Definition x1_firmware (g : Z) : MS unit :=
  let! data := request_firmware g in
  do! hset g (λ h, h <| h_fw := Some data |>) in
  if Z.of_nat (length data) !=? 40816 then fail (-EINVAL) else
  if negb (bool_decide (sha256 data = expected_sha256)) then fail (-EKEYREJECTED) else
  lift (qcom_usb4_fw_validate (Some data) (Z.of_nat (length data)) X1_RAM_SIZE).

(** [x1_gcc_usb4_put(host->gcc); host->gcc = NULL;], and the clocks and the
    runtime vote likewise: the three releases every teardown path is made of. *)
Definition drop_gcc (g : Z) : MS unit :=
  do! call_ g GccPut in vset g (λ v, v <| v_gcc := None |>).
Definition drop_clocks (g : Z) : MS unit :=
  do! call_ g ClkBulkDisable in vset g (λ v, v <| v_clocks_on := false |>).
Definition drop_runtime (g : Z) : MS Z :=
  let! r := call g PmPutSync in
  do! vset g (λ v, v <| v_runtime_held := false |>) in ret r.

Definition x1_release_power (g : Z) : MS unit :=
  let! h := hget g in
  do! (match v_gcc (h_v h) with Some _ => drop_gcc g | None => ret tt end) in
  do! (if v_clocks_on (h_v h) then drop_clocks g else ret tt) in
  do! call_ g (IccApps 0) in
  do! call_ g (IccDdr 0) in
  if v_runtime_held (h_v h) then do! drop_runtime g in ret tt else ret tt.

(** [x1_gcc_usb4_reset_state(host->gcc, &state)]: the word is written on
    success only. *)
Definition gcc_reset_state (g old : Z) : MS (Z * Z) :=
  let! r := call2 g GccResetState in
  ret (r.1, if r.1 =? 0 then r.2 .& X1_ALL_RESETS else old).

Definition rset (g : Z) (f : restore_part → restore_part) : MS unit :=
  hset g (λ h, h <| h_r := f (h_r h) |>).

Definition read_restore_state (g : Z) : MS (Z * Z) :=
  let! h := hget g in
  let! r := gcc_reset_state g (r_state (h_r h)) in
  do! rset g (λ x, x <| r_state := r.2 |>) in ret r.

(** [x1_restore_resets] from the first readback on; its errors are the
    [goto fail]s. *)
Definition restore_body (g : Z) : MS unit :=
  let! r := read_restore_state g in
  let! p := pget in
  if (r.1 =? 0) && x1_general P && (r.2 =? 0) && q_baseline_released p then
    do! pset (λ p, p <| q_baseline_released := false |>) in
    rset g (λ x, x <| r_complete := true |>)
  else
  if (r.1 !=? 0) || (r.2 !=? X1_ALL_RESETS) then fail (elvis r.1 (-EIO)) else
  do! rset g (λ x, x <| r_attempted := true |>) in
  do! for_each X1_RESETS (λ i, must g (ResetDeassert i)) in
  do! call_ g (Usleep 100 120) in
  let! r := read_restore_state g in
  if (r.1 !=? 0) || (r.2 !=? 0) then fail (elvis r.1 (-EIO)) else
  rset g (λ x, x <| r_complete := true |>).

Definition x1_restore_resets (g : Z) : MS unit :=
  let! h := hget g in
  if negb (x1_managed P) || (h_generation h <=? 1) || bool_decide (v_gcc (h_v h) = None) ||
     eqb (v_runtime_held (h_v h)) (x1_general P) || v_clocks_on (h_v h) || h_activated h ||
     r_attempted (h_r h)
  then fail (-EPERM) else
  let! r := attempt (restore_body g) in
  if r =? 0 then ret tt else
  do! rset g (λ x, x <| r_error := r |>) in fail r.

(** Every reset is asserted once; the first error is kept. *)
Fixpoint assert_each (g : Z) (l : list Z) (first : Z) : MS Z :=
  match l with
  | [] => ret first
  | i :: l =>
      let! r := call g (ResetAssert i) in
      assert_each g l (if (r !=? 0) && (first =? 0) then r else first)
  end.

Definition x1_rehold_resets (g : Z) : MS Z :=
  let! first := assert_each g X1_RESETS 0 in
  do! call_ g (Usleep 100 120) in
  let! r := read_restore_state g in
  let first := if first =? 0 then
                 elvis r.1 (if r.2 !=? X1_ALL_RESETS then -EIO else 0) else first in
  do! rset g (λ x, x <| r_hold_error := first |>) in
  ret first.

(** [host->gcc = x1_gcc_usb4_get(dev, 0); if (IS_ERR(host->gcc)) ...] *)
Definition take_gcc (g : Z) : MS unit :=
  let! r := call2 g GccGet in
  if r.1 !=? 0 then fail r.1 else vset g (λ v, v <| v_gcc := Some r.2 |>).

(** Up to the first provider that could be held: a failure goes to
    [stopped]. *)
Definition activate_admit (g : Z) : MS unit :=
  let! p := pget in
  do! (if q_module_held p then ret tt else
       let! r := call g TryModuleGet in if r =? 0 then fail (-ENODEV) else ret tt) in
  do! pset (λ p, p <| q_module_held := true |>) in
  do! x1_dma_check g in
  do! x1_firmware g in
  let! p := pget in
  if q_runtime_enabled p then ret tt else
  do! must g PmRuntimeEnable in
  pset (λ p, p <| q_runtime_enabled := true |>).

(** [if (x1_general && host->generation > 1)] after the lease was taken. *)
Definition activate_early (g : Z) : MS unit :=
  do! x1_restore_resets g in
  let! r := call g ReleaseRetiredReset in
  ok_or_fail r.

(** From the first interconnect vote to [host->activated]; a failure goes to
    [release]. *)
Definition activate_votes (g : Z) : MS unit :=
  do! must g (IccApps (MBps_to_icc 40)) in
  do! must g (IccDdr (MBps_to_icc 5000)) in
  let! h := hget g in
  do! (if negb (x1_general P) && (1 <? h_generation h) then
         do! take_gcc g in x1_restore_resets g
       else ret tt) in
  do! must g ClkBulkEnable in
  do! vset g (λ v, v <| v_clocks_on := true |>) in
  let! h := hget g in
  do! (match v_gcc (h_v h) with None => take_gcc g | Some _ => ret tt end) in
  if x1_general P then must g GccPowerOn else ret tt.

Definition activate_stopped (g r : Z) : MS Z :=
  do! lock in
  do! tset g (λ t, t <| t_error := r |>) in
  let! h := hget g in
  do! (match h_fw h with
       | Some _ => do! call_ g ReleaseFirmware in hset g (λ h, h <| h_fw := None |>)
       | None => ret tt
       end) in
  ret r.

Definition activate_release (g r : Z) : MS Z :=
  let! h := hget g in
  let! held := (if r_attempted (h_r h) then x1_rehold_resets g else ret 0) in
  do! (if held !=? 0 then ret tt else x1_release_power g) in
  activate_stopped g r.

Definition x1_config_of (h : x1_host) : x1_config := {|
  cfg_firmware := h_fw h;
  cfg_firmware_size := match h_fw h with Some d => Z.of_nat (length d) | None => 0 end;
  cfg_serial := h_serial h; cfg_router := 0; cfg_phy_rx_eq := 0x6f;
  cfg_mcu_preset := 0x0c63; cfg_reset_release_us := 100 |}.

(** The startup itself: from [host->activated = true] on. *)
Definition activate_start (g : Z) : MS Z :=
  let! h := hget g in
  match h_fw h with
  | None => fault
  | Some _ =>
      do! hset g (λ h, h <| h_activated := true |>) in
      let! r := startup_run g (x1_config_of h) in
      if r !=? 0 then activate_stopped g r else
      let! r := attempt (x1_start_domain g) in
      if r !=? 0 then activate_stopped g r else
      do! lock in
      do! hset g (λ h, h <| h_ready := true |>) in
      let! r := x1_apply_link g in
      if r !=? 0 then activate_stopped g r else ret 0
  end.

Definition x1_activate (g : Z) : MS Z :=
  let! h := hget g in
  if h_startup_attempted h then ret (-EALREADY) else
  if h_stopping h then ret (-ESHUTDOWN) else
  if h_suspended h then ret (-EBUSY) else
  do! hset g (λ h, h <| h_startup_attempted := true |>) in
  let! r := attempt (activate_admit g) in
  if r !=? 0 then activate_stopped g r else
  let early := x1_general P && (1 <? h_generation h) in
  let! r := (if early then attempt (take_gcc g) else ret 0) in
  if r !=? 0 then activate_stopped g r else
  let! r := (if early then attempt (activate_early g) else ret 0) in
  if r !=? 0 then activate_release g r else
  let! r := call g PmResumeAndGet in
  if r <? 0 then
    let! h := hget g in
    match v_gcc (h_v h) with Some _ => activate_release g r | None => activate_stopped g r end
  else
  do! vset g (λ v, v <| v_runtime_held := true |>) in
  let! r := attempt (activate_votes g) in
  if r !=? 0 then activate_release g r else
  activate_start g.
End host.
