(* ===== verification/HostStop.v ===== *)
(** * The production host driver: power stop and retirement

    The second part of qcom-usb4-x1-host.c: the two power stops with their
    receipts, the checks that read the receipts, and the retirement of the
    connection manager's domain and of the session. *)

From S2P Require Import Prelude Wp Mcu Startup Typec HostData HostStart.

Section host.
Context (P : params) (command_polls : nat).
Context `{TypecAbi}.
Context {W : Type} `{Mmio Z W} `{HostEnv W}.

Notation MS := (M (hsys W)).

(** Writing the fields of the sub-records used here. *)
Definition psset (g : Z) (f : x1_power_stop → x1_power_stop) : MS unit :=
  hset g (λ h, h <| h_p := f (h_p h) |>).
Definition sset (g : Z) (f : stop_part → stop_part) : MS unit :=
  hset g (λ h, h <| h_s := f (h_s h) |>).
Definition stage_ (g : Z) (name : string) : MS unit :=
  psset g (λ s, s <| ps_stage := name |>).

(** [reset_control_deassert] of each reset, counted; then the readback. *)
Definition release_each (g : Z) : MS unit :=
  do! for_each X1_RESETS (λ i,
        do! must g (ResetDeassert i) in
        psset g (λ s, s <| ps_resets_released := ps_resets_released s + 1 |>)) in
  do! call_ g (Usleep 100 120) in
  let! h := hget g in
  let! r := gcc_reset_state g (ps_release_requests (h_p h)) in
  do! psset g (λ s, s <| ps_release_requests := r.2 |>) in
  do! ok_or_fail r.1 in
  if r.2 !=? 0 then fail (-EIO) else ret tt.

Definition x1_stop_release_resets (g : Z) : MS Z :=
  let! h := hget g in
  if bool_decide (is_Some (v_gcc (h_v h))) || v_clocks_on (h_v h) ||
     negb (v_runtime_held (h_v h)) || (ps_resets_asserted (h_p h) !=? 11) ||
     (ps_resets_released (h_p h) !=? 0) then ret (-EPERM) else
  let! lease := call g GccGet in
  if lease !=? 0 then ret lease else
  let! r := attempt (release_each g) in
  do! call_ g GccPut in
  do! (if r =? 0 then pset (λ p, p <| q_baseline_released := true |>) else ret tt) in
  ret r.

(** The receipts of the stopped control rings, asked for in several places. *)
Definition rings_stopped (h : x1_host) : bool :=
  let s := s_host_stop (h_s h) in
  s_host_stop_attempted (h_s h) && hs_finished s && (hs_error s =? 0) && hs_ctl_closed s &&
  hs_irq_disabled s && hs_callbacks_drained s && (hs_rings_disabled s =? 2) &&
  (hs_rx_options s =? 0) && (hs_tx_options s =? 0) &&
  n_retained_stop_attempted (h_qnhi h) && n_retained_irq_disabled (h_qnhi h) &&
  negb (n_accept_rearm (h_qnhi h)).

(** ... of the fenced configuration space and the stopped receiver ... *)
Definition receiver_stopped (h : x1_host) : bool :=
  let r := p_receiver (h_pcie h) in
  p_config_fenced (h_pcie h) && rc_stop_finished r && (rc_stop_error r =? 0) &&
  (rc_banks_disabled r =? 8) && (rc_parents_detached r =? 8).

(** ... and that every provider is still held. *)
Definition providers_held (h : x1_host) : bool :=
  bool_decide (is_Some (v_gcc (h_v h))) && v_clocks_on (h_v h) && v_runtime_held (h_v h) &&
  v_phy_on (h_v h) && v_phy_initialized (h_v h).

(** The sequence both power stops have in common, from "reset-baseline" to the
    clock votes; its errors are the [goto fail]s. *)
Definition stop_mcu (g : Z) : MS unit :=
  do! stage_ g "mcu-stop-request" in
  let! h := hget g in
  do! on_router (qcom_usb4_mcu_stop (Some (h_mcu h))) in
  do! note g McuStop 0 in
  let! mcu := on_router (readl 0x22000) in
  do! psset g (λ s, s <| ps_mcu_control := mcu |>) in
  let! host := on_router (readl 0x8018) in
  do! psset g (λ s, s <| ps_host_control := host |>) in
  if tst mcu (BIT 0) || tst host (BIT 24) then fail (-EIO) else
  psset g (λ s, s <| ps_mcu_request_cleared := true |>).

Definition read_reset_requests (g : Z) : MS (Z * Z) :=
  let! h := hget g in
  let! r := gcc_reset_state g (ps_reset_requests (h_p h)) in
  do! psset g (λ s, s <| ps_reset_requests := r.2 |>) in ret r.

Definition stop_resets (g : Z) : MS unit :=
  do! stage_ g "router-reset" in
  do! for_each X1_RESETS (λ i,
        do! must g (ResetAssert i) in
        psset g (λ s, s <| ps_resets_asserted := ps_resets_asserted s + 1 |>)) in
  do! call_ g (Usleep 100 120) in
  let! r := read_reset_requests g in
  if (r.1 !=? 0) || (r.2 !=? X1_ALL_RESETS) then fail (elvis r.1 (-EIO)) else ret tt.

Definition stop_phy (g : Z) : MS unit :=
  do! stage_ g "rx-reference" in
  do! must g (GccRxSelect false) in
  do! psset g (λ s, s <| ps_rx_reference := true |>) in
  do! stage_ g "phy-power-off" in
  do! must g PhyPowerOff in
  do! vset g (λ v, v <| v_phy_on := false |>) in
  do! psset g (λ s, s <| ps_phy_off := true |>) in
  do! stage_ g "phy-exit" in
  do! must g PhyExit in
  do! vset g (λ v, v <| v_phy_initialized := false |>) in
  psset g (λ s, s <| ps_phy_exited := true |>).

Definition stop_route (g : Z) : MS unit :=
  do! stage_ g "route-clear" in
  do! must g (TcsrUpdate 0) in
  let! r := call2 g TcsrRead in
  if (r.1 !=? 0) || tst r.2 (BIT 0) then fail (elvis r.1 (-EIO)) else
  do! psset g (λ s, s <| ps_route_cleared := true |>) in
  do! stage_ g "memory-force-clear" in
  do! must g (GccForceMem false) in
  psset g (λ s, s <| ps_memory_force_cleared := true |>).

Definition stop_votes (g : Z) : MS unit :=
  do! stage_ g "icc-votes-release" in
  do! must g (IccApps 0) in
  do! must g (IccDdr 0) in
  do! psset g (λ s, s <| ps_icc_released := true |>) in
  do! stage_ g "clock-votes-release" in
  do! drop_gcc g in
  do! psset g (λ s, s <| ps_gcc_released := true |>) in
  do! drop_clocks g in
  psset g (λ s, s <| ps_clocks_released := true |>).

Definition stop_hardware (g : Z) : MS unit :=
  do! stage_ g "reset-baseline" in
  let! r := read_reset_requests g in
  if (r.1 !=? 0) || (r.2 !=? 0) then fail (elvis r.1 (-EIO)) else
  do! stop_mcu g in
  do! stop_resets g in
  do! stop_phy g in
  do! stop_route g in
  stop_votes g.

(** [fail: s->error = ret; return ret;] *)
Definition stop_result (g : Z) (m : MS unit) : MS Z :=
  let! r := attempt m in
  do! (if r =? 0 then ret tt else psset g (λ s, s <| ps_error := r |>)) in
  ret r.

Definition x1_power_stop_run (g : Z) : MS Z :=
  let! h := hget g in
  if ps_attempted (h_p h) then ret (-EALREADY) else
  if negb (h_cold_owned h) || negb (h_activated h) || negb (receiver_stopped h) ||
     h_ready h || h_stopping h || h_suspended h || negb (providers_held h) ||
     negb (rings_stopped h) || (control_offset (h_mcu h) !=? 0x22000) ||
     (base (h_mcu h) !=? h_router h) then ret (-EPERM) else
  do! psset g (λ s, s <| ps_attempted := true |>) in
  do! hset g (λ h, h <| h_stopping := true |>) in
  stop_result g
    (do! stop_hardware g in
     do! stage_ g "runtime-vote-release" in
     let! r := drop_runtime g in
     do! psset g (λ s, s <| ps_runtime_released := true |>) in
     if r <? 0 then fail r else
     do! stage_ g "provider-votes-released-retained" in
     psset g (λ s, s <| ps_finished := true |>)).

(** ** Receipt checks *)

Definition x1_tunnel_stopped (h : x1_host) : bool :=
  let t := s_tunnel_stop (h_s h) in
  if negb (s_tunnel_held (h_s h)) || negb (s_tunnel_stop_complete (h_s h)) ||
     (s_tunnel_stop_error (h_s h) !=? 0) || negb (ts_finished t) || (ts_error t !=? 0)
  then false else
  if e_pulled (h_e h) then
    x1_general P && p_pulled (h_pcie h) && (ts_adapters t =? 0) && (ts_hops t =? 0)
  else (ts_adapters t =? 2) && (ts_hops t =? 4).

(** The receipts of a finished power stop, with nothing held any more. *)
Definition power_stopped (h : x1_host) : bool :=
  let s := h_p h in
  ps_attempted s && ps_finished s && (ps_error s =? 0) && ps_mcu_request_cleared s &&
  (ps_resets_asserted s =? 11) && (ps_reset_requests s =? X1_ALL_RESETS) &&
  ps_rx_reference s && ps_phy_off s && ps_phy_exited s && ps_route_cleared s &&
  ps_memory_force_cleared s && ps_icc_released s && ps_gcc_released s &&
  ps_clocks_released s && ps_runtime_released s &&
  bool_decide (v_gcc (h_v h) = None) && negb (v_clocks_on (h_v h)) &&
  negb (v_phy_on (h_v h)) && negb (v_phy_initialized (h_v h)) &&
  negb (v_runtime_held (h_v h)).

Definition namespace_owner_ok (h : x1_host) : bool :=
  h_stopping h && negb (h_ready h) && negb (h_suspended h) && h_cold_owned h &&
  h_activated h && receiver_stopped h && x1_tunnel_stopped h && rings_stopped h &&
  power_stopped h.

Definition x1_namespace_owner_stopped (g : Z) : MS Z :=
  let! h := hget g in ret (if namespace_owner_ok h then 0 else -EPERM).

(** [tb->ctl] is part of the domain. *)
Definition control_owner_ok (h : x1_host) : bool :=
  let p := h_pcie h in
  let r := p_receiver p in
  namespace_owner_ok h &&
  bool_decide (is_Some (h_tb h)) && bool_decide (h_tb h = s_retained_tb (h_s h)) &&
  p_namespace_retired p && p_nvme_resources_retired p && p_pci_retire_attempted p &&
  (p_pci_retire_error p =? 0) && p_pci_retired p && negb (p_host_prepared p) &&
  negb (p_host_published p) && negb (p_nvme_bound p) && rc_release_attempted r &&
  rc_released r && (rc_release_error r =? 0) && negb (rc_ready r) &&
  negb (rc_associated r) && negb (rc_domain_ready r) && negb (rc_target_reserved r).

Definition x1_control_owner_stopped (g : Z) : MS Z :=
  let! h := hget g in ret (if control_owner_ok h then 0 else -EPERM).

Definition control_retired (h : x1_host) : bool :=
  let c := s_control_retire (h_s h) in
  nr_attempted c && nr_finished c && (nr_error c =? 0) && nr_irq_released c &&
  nr_rings_detached c && (nr_rings_freed c =? 2) && (nr_packets_freed c =? 10) &&
  nr_pool_released c && n_released (h_qnhi h) && negb (n_irq_requested (h_qnhi h)) &&
  n_going_away (h_qnhi h).

(** [tb_ctl_x1_retired] is asked last. *)
Definition ask_ctl_retired (ok : bool) : MS Z :=
  if negb ok then ret (-EPERM) else
  let! r := read_out CtlRetired in
  ret (if r !=? 0 then 0 else -EPERM).

Definition x1_cm_owner_stopped (g : Z) : MS Z :=
  let! h := hget g in ask_ctl_retired (control_owner_ok h && control_retired h).

Definition domain_gone (h : x1_host) : bool :=
  let s := h_s h in
  s_domain_retired s && (s_domain_retire_error s =? 0) && s_domain_unregistered s &&
  s_domain_unpublished s && bool_decide (h_tb h = None) &&
  bool_decide (s_retained_tb s = None) && cr_finished (s_cm_retire s) &&
  (cr_error (s_cm_retire s) =? 0) && nr_finished (s_control_retire s) &&
  (nr_error (s_control_retire s) =? 0) && n_released (h_qnhi h) &&
  negb (n_irq_requested (h_qnhi h)) && negb (n_accept_rearm (h_qnhi h)) &&
  n_going_away (h_qnhi h).

Definition platform_owner_ok (h : x1_host) : bool := namespace_owner_ok h && domain_gone h.

Definition x1_platform_owner_stopped (g : Z) : MS Z :=
  let! h := hget g in ret (if platform_owner_ok h then 0 else -EPERM).

(** ** Retirement of the domain and of the session *)

Definition set_cm_retire (c : tb_x1_cm_retire) (h : x1_host) : x1_host :=
  h <| h_s := (h_s h) <| s_cm_retire := c |> |>.

(** [if (ret) goto fail; ... fail: host->domain_retire_error = ret;] *)
Definition domain_result (g : Z) (m : MS unit) : MS Z :=
  let! r := attempt m in
  do! (if r =? 0 then ret tt else sset g (λ s, s <| s_domain_retire_error := r |>)) in
  ret r.

(** [tb_domain_remove], the extra reference of the hold if there is one, and
    the wait for the final release; [synchronize_rcu] waits for readers. *)
Definition remove_domain (g : Z) (held : bool) : MS unit :=
  do! call_ g TbDomainRemove in
  do! sset g (λ s, s <| s_domain_unregistered := true |>) in
  do! (if held then call_ g TbDomainPut else ret tt) in
  let! remaining := call g (TbWaitReleasedTimeout 5000) in
  if remaining =? 0 then fail (-ETIMEDOUT) else
  sset g (λ s, s <| s_domain_retired := true |>).

Definition x1_retire_domain (g : Z) : MS Z :=
  let! h := hget g in
  if s_domain_retire_attempted (h_s h) then ret (-EALREADY) else
  let! r := x1_cm_owner_stopped g in
  if r !=? 0 then ret r else
  do! sset g (λ s, s <| s_domain_retire_attempted := true |>) in
  let tb := h_tb h in
  domain_result g
    (let! r := helper_call g (TbRetireCm (b_uid (h_b h))) (λ h, s_cm_retire (h_s h))
                 set_cm_retire (x1_cm_owner_stopped g)
                 (e_cm_retire (TbRetireCm (b_uid (h_b h)))) in
     do! ok_or_fail r in
     do! lock P command_polls in
     let! h := hget g in
     if negb (bool_decide (h_tb h = tb)) || negb (bool_decide (s_retained_tb (h_s h) = tb))
     then fail (-ESTALE) else
     do! hset g (λ h, h <| h_tb := None |>
           <| h_s := (h_s h) <| s_retained_tb := None |> <| s_domain_unpublished := true |> |>) in
     remove_domain g true).

Definition x1_retired_release (g : Z) : MS Z :=
  do! vset g (λ v, v <| v_runtime_held := true |>) in
  let! r := x1_stop_release_resets g in
  if r !=? 0 then ret r else
  let! r := call g ReleaseRetiredReset in
  if r !=? 0 then ret r else
  do! drop_runtime g in
  ret 0.

(** [devm_kfree] of the ring arrays. *)
Definition free_rings (g : Z) : MS unit :=
  do! call_ g RingsFree in
  hset g (λ h, h <| h_qnhi := (h_qnhi h) <| n_rings := false |> |>).

Definition x1_retire_session (g : Z) : MS Z :=
  let! r := x1_platform_owner_stopped g in
  if r !=? 0 then ret r else
  do! (if x1_general P then call_ g PmGetNoresume else ret tt) in
  let! r := pcie_call g RetirePlatform (x1_platform_owner_stopped g) in
  let! r := (if (r =? 0) && x1_general P then x1_retired_release g else ret r) in
  if r !=? 0 then ret r else
  do! free_rings g in
  do! hset g (λ h, h <| h_fully_retired := true |>) in
  ret 0.

(** ** The idle power-down *)

Definition x1_idle_session (h : x1_host) : bool :=
  x1_general P && e_idle_attempted (h_e h) && h_cold_owned h && h_activated h &&
  negb (t_command_attempted (h_t h)) && (t_connected_command (h_t h) =? 0) &&
  negb (s_tunnel_held (h_s h)) && negb (s_tunnel_stop_attempted (h_s h)) &&
  negb (h_training_attempted h) && negb (h_inventory_attempted h) &&
  negb (p_inventory_attempted (h_pcie h)) && negb (p_host_attempted (h_pcie h)).

Definition x1_idle_power_stop_run (g : Z) : MS Z :=
  let! h := hget g in
  if ps_attempted (h_p h) then ret (-EALREADY) else
  if negb (x1_idle_session h) || h_ready h || negb (h_stopping h) || h_suspended h ||
     negb (providers_held h) || negb (rings_stopped h) ||
     (control_offset (h_mcu h) !=? 0x22000) || (base (h_mcu h) !=? h_router h)
  then ret (-EPERM) else
  do! psset g (λ s, s <| ps_attempted := true |>) in
  stop_result g
    (do! stop_hardware g in
     do! stage_ g "reset-release" in
     let! r := x1_stop_release_resets g in
     do! ok_or_fail r in
     do! stage_ g "runtime-vote-release" in
     let! r := drop_runtime g in
     do! psset g (λ s, s <| ps_runtime_released := true |>) in
     if (r <? 0) && (r !=? -EBUSY) && (r !=? -EAGAIN) then fail r else
     do! stage_ g "provider-votes-released-idle" in
     psset g (λ s, s <| ps_finished := true |>)).

Definition idle_owner_ok (h : x1_host) : bool :=
  x1_idle_session h && h_stopping h && negb (h_ready h) && negb (h_suspended h) &&
  rings_stopped h && power_stopped h && (ps_resets_released (h_p h) =? 11) &&
  (ps_release_requests (h_p h) =? 0).

Definition x1_idle_owner_stopped (g : Z) : MS Z :=
  let! h := hget g in ret (if idle_owner_ok h then 0 else -EPERM).

Definition x1_idle_cm_owner_stopped (g : Z) : MS Z :=
  let! h := hget g in
  ask_ctl_retired (idle_owner_ok h && bool_decide (is_Some (h_tb h)) &&
                   bool_decide (s_retained_tb (h_s h) = None) && control_retired h).

Definition idle_platform_owner_ok (h : x1_host) : bool := idle_owner_ok h && domain_gone h.

Definition x1_idle_platform_owner_stopped (g : Z) : MS Z :=
  let! h := hget g in ret (if idle_platform_owner_ok h then 0 else -EPERM).

Definition x1_idle_retire_domain (g : Z) : MS Z :=
  let! h := hget g in
  if s_domain_retire_attempted (h_s h) then ret (-EALREADY) else
  let! r := x1_idle_cm_owner_stopped g in
  if r !=? 0 then ret r else
  do! sset g (λ s, s <| s_domain_retire_attempted := true |>) in
  let tb := h_tb h in
  domain_result g
    (let! r := helper_call g TbIdleRetireCm (λ h, s_cm_retire (h_s h)) set_cm_retire
                 (x1_idle_cm_owner_stopped g) (e_cm_retire TbIdleRetireCm) in
     do! ok_or_fail r in
     do! lock P command_polls in
     let! h := hget g in
     if negb (bool_decide (h_tb h = tb)) then fail (-ESTALE) else
     do! hset g (λ h, h <| h_tb := None |>
           <| h_s := (h_s h) <| s_domain_unpublished := true |> |>) in
     remove_domain g false).
End host.
