(* ===== verification/HostStores.v ===== *)
(** * The production host driver: sysfs stores, probe, shutdown, power

    The last part of qcom-usb4-x1-host.c: the text the stores accept, the
    one-shot inventory batch with its waits, the stop and retirement stores,
    renewal of the session, and the callbacks of the driver core.  At the end,
    one step of the whole driver. *)

From S2P Require Import Prelude Wp Fw Mcu Startup Typec HostData HostStart HostStop.

(** ** What the stores accept *)

(** The written bytes; the buffer is followed by a NUL. *)
Definition chars (s : string) : list Z :=
  (λ c, Z.of_N (Ascii.N_of_ascii c)) <$> String.list_ascii_of_string s.

Fixpoint text_of (l : list Z) : list Z :=
  match l with [] => [] | c :: l => if c =? 0 then [] else c :: text_of l end.

(** [sysfs_streq]: equal, up to one trailing newline. *)
Definition sysfs_streq (buf : list Z) (s : string) : bool :=
  let a := text_of buf in
  let b := chars s in
  bool_decide (a = b) || bool_decide (a = b ++ [10]) || bool_decide (a ++ [10] = b).

(** [(count == n && !memcmp(buf, s, n)) || (count == n + 1 && !memcmp(buf, s "\n", n + 1))] *)
Definition exact_text (buf : list Z) (s : string) : bool :=
  bool_decide (buf = chars s) || bool_decide (buf = chars s ++ [10]).

Definition hex_to_bin (c : Z) : option Z :=
  if (48 <=? c) && (c <=? 57) then Some (c - 48)
  else if (97 <=? c) && (c <=? 102) then Some (c - 87)
  else if (65 <=? c) && (c <=? 70) then Some (c - 55)
  else None.

(** [hex2bin], read as one big-endian number of [n] bytes. *)
Fixpoint hex2bin (n : nat) (l : list Z) (acc : Z) : option Z :=
  match n, l with
  | O, _ => Some acc
  | S n, a :: b :: l =>
      match hex_to_bin a, hex_to_bin b with
      | Some hi, Some lo => hex2bin n l (acc * 256 + (hi * 16 + lo))
      | _, _ => None
      end
  | _, _ => None
  end.

Definition U16_MAX : Z := 0xffff.

Definition x1_batch_parse (general : bool) (buf : list Z) : res (Z * Z * Z) :=
  if general then
    if sysfs_streq buf "inventory any" then Ok (0, 0, 0) else Err (-EINVAL)
  else
  let count := Z.of_nat (length buf) in
  if ((count !=? 36) && ((count !=? 37) || negb (bool_decide (buf !! 36%nat = Some 10)))) ||
     negb (bool_decide (take 10 buf = chars "inventory ")) ||
     negb (bool_decide (buf !! 26%nat = Some 32)) ||
     negb (bool_decide (buf !! 31%nat = Some 58))
  then Err (-EINVAL) else
  match hex2bin 8 (drop 10 buf) 0, hex2bin 2 (drop 27 buf) 0, hex2bin 2 (drop 32 buf) 0 with
  | Some uid, Some vendor, Some device =>
      if (uid =? 0) || (uid =? U64_MAX) || (vendor =? 0) || (vendor =? U16_MAX) ||
         (device =? 0) || (device =? U16_MAX) then Err (-EINVAL)
      else Ok (uid, vendor, device)
  | _, _, _ => Err (-EINVAL)
  end.

(** [kstrtou64(buf, 10, &generation)]: an optional plus sign, digits, an
    optional newline. *)
Fixpoint parse_decimal (l : list Z) (acc : Z) : Z * list Z :=
  match l with
  | c :: l' => if (48 <=? c) && (c <=? 57) then parse_decimal l' (acc * 10 + (c - 48))
               else (acc, l)
  | [] => (acc, [])
  end.

Definition is_digit (o : option Z) : bool :=
  match o with Some c => (48 <=? c) && (c <=? 57) | None => false end.

Definition kstrtou64 (buf : list Z) : res Z :=
  let s := text_of buf in
  let s := match s with 43 :: s' => s' | _ => s end in
  if negb (is_digit (head s)) then Err (-EINVAL) else
  let (v, rest) := parse_decimal s 0 in
  if U64_MAX <? v then Err (-ERANGE) else
  match rest with
  | [] | [10] => Ok v
  | _ => Err (-EINVAL)
  end.

(** ** The stores *)

Definition X1_NEGOTIATION_ATTEMPTS : Z := 16.

(** Where the long store goes next. *)
Inductive flow := Out (r : Z) | Terminal (r : Z) | WaitAttachment.

Section host.
Context (P : params).
Context (crc32c : Z → list Z → Z) (sha256 : list Z → list Z).
Context (start_polls command_polls : nat) (HZ : Z) (fuel : nat).
Context `{TypecAbi}.
Context {W : Type} `{Mmio Z W} `{HostEnv W}.

Notation MS := (M (hsys W)).
Notation lock := (lock P command_polls).
Notation x1_activate := (x1_activate P crc32c sha256 start_polls command_polls).

Definition bset (g : Z) (f : batch_part → batch_part) : MS unit :=
  hset g (λ h, h <| h_b := f (h_b h) |>).
Definition eset (g : Z) (f : retire_part → retire_part) : MS unit :=
  hset g (λ h, h <| h_e := f (h_e h) |>).
Definition pcset (g : Z) (f : x1_pcie_state → x1_pcie_state) : MS unit :=
  hset g (λ h, h <| h_pcie := f (h_pcie h) |>).

(** A loop that sleeps between its rounds has not returned when [fuel] rounds
    are over; that is the only use of a bare [Err] below. *)
Definition still_waiting {A} : MS A := fail ETIME.

Definition orientation_none (h : x1_host) : bool :=
  bool_decide (t_orientation (h_t h) = TYPEC_ORIENTATION_NONE).

(** [host->orientation != NONE || host->pending_command || ...] *)
Definition connection_seen (h : x1_host) : bool :=
  negb (orientation_none h) || (t_pending_command (h_t h) !=? 0) ||
  (t_connected_command (h_t h) !=? 0) || t_command_attempted (h_t h).

Definition activate_once_store (g : Z) (capable : bool) (buf : list Z) : MS Z :=
  if negb capable || negb (x1_runtime_startup P) then ret (-EPERM) else
  if negb (exact_text buf "cold-start") then ret (-EINVAL) else
  do! lock in
  let! h := hget g in
  let r := if b_attempted (h_b h) then -EALREADY else
           if negb (orientation_none h) || (t_pending_command (h_t h) !=? 0)
           then -EBUSY else 0 in
  if r =? 0 then x1_activate g else ret r.

Definition x1_pcie_empty_domain (v : tb_view) : bool :=
  match tv_root v with
  | None | Some true => false
  | Some false => forallb (λ p, negb (p.1 || p.2)) (tv_ports v)
  end.

(** The policy and the empty root router, under the domain lock. *)
Definition domain_admits : MS bool := λ y,
  let v := e_tb (y_w y) in (Ok (tv_nopcie v && x1_pcie_empty_domain v), y).

Definition no_callback : MS Z := ret 0.

Definition pcie_prepare_once_store (g : Z) (capable : bool) (buf : list Z) : MS Z :=
  if negb capable || negb (x1_pcie_prepare P) then ret (-EPERM) else
  let inspect := exact_text buf "root-inspect" in
  let cfg0 := exact_text buf "root-cfg0" in
  if negb inspect && negb cfg0 && negb (exact_text buf "root-mode") then ret (-EINVAL) else
  if ((inspect || cfg0) && negb (x1_pcie_inspect P)) || (cfg0 && negb (x1_pcie_cfg0 P))
  then ret (-EPERM) else
  do! lock in
  let! h := hget g in
  if p_attempted (h_pcie h) || b_attempted (h_b h) then ret (-EALREADY) else
  if negb (h_startup_attempted h) || negb (h_activated h) || negb (h_cold_owned h) ||
     negb (h_ready h) || bool_decide (h_tb h = None) || (t_error (h_t h) !=? 0) ||
     h_stopping h || h_suspended h then ret (-EPERM) else
  if connection_seen h then ret (-EBUSY) else
  let! ok := domain_admits in
  if negb ok then ret (-EPERM) else
  do! pcset g (λ p, p <| p_inspect_requested := inspect || cfg0 |>
                      <| p_cfg0_requested := cfg0 |>) in
  let! r := pcie_call g PciePrepare no_callback in
  let! h := hget g in
  do! (if p_attempted (h_pcie h)
       then tset g (λ t, t <| t_error := elvis r (-ESHUTDOWN) |>) else ret tt) in
  ret r.

(** ** The batch *)

Definition find_switch (g : Z) : MS Z :=
  let! r := call2 g (TbSwitchFind 2) in
  do! bset g (λ b, b <| b_switch := if r.2 =? 0 then None else Some r.2 |>) in
  let! r := (if r.2 =? 0 then ret 0 else
     let! uid := read_out TbSwitchUid in
     let! h := hget g in
     let! r := (if x1_general P && (b_uid (h_b h) =? 0) then
                  if (uid =? 0) || (uid =? U64_MAX) then ret (-ENODEV) else
                  do! bset g (λ b, b <| b_uid := uid |>) in ret 0
                else ret 0) in
     let! h := hget g in
     ret (if uid !=? b_uid (h_b h) then -ENODEV else r)) in
  if r !=? 0 then ret r else
  let! now := jiffies in
  let! h := hget g in
  ret (if time_after_eq now (b_deadline (h_b h)) then -ETIMEDOUT else 0).

(** One round of [x1_batch_wait], with the lock held. *)
Definition batch_observe (g : Z) : MS Z :=
  let! h := hget g in
  let b := h_b h in
  let t := h_t h in
  let! r := (if t_error t !=? 0 then ret (t_error t) else
             let! now := jiffies in
             ret (if time_after_eq now (b_deadline b) then -ETIMEDOUT else 0)) in
  if r !=? 0 then ret r else
  if h_stopping h || h_suspended h || negb (h_ready h) || bool_decide (h_tb h = None)
  then ret (-ESHUTDOWN) else
  let! r := (if x1_attach_untouched P h then
               if bool_decide (t_batch_orientation t = TYPEC_ORIENTATION_NONE)
               then ret (-ENOTCONN) else
               let! now := jiffies in
               ret (if time_after_eq now (b_negotiation_deadline b) then -ETIMEDOUT else 0)
             else ret 0) in
  if r !=? 0 then ret r else
  if t_connected_command t =? 0 then ret 0 else
  if negb (b_waiting b) || negb (t_command_attempted t) || orientation_none h ||
     bool_decide (t_orientation t ≠ t_batch_orientation t) ||
     (t_pending_command t !=? t_connected_command t) then ret (-ENOLINK) else
  find_switch g.

Fixpoint batch_wait (n : nat) (g : Z) : MS Z :=
  match n with
  | O => still_waiting
  | S n =>
      do! lock in
      let! r := batch_observe g in
      let! h := hget g in
      if (r !=? 0) || bool_decide (is_Some (b_switch (h_b h))) then ret r else
      do! call_ g (Msleep 50) in
      batch_wait n g
  end.
Definition x1_batch_wait (g : Z) : MS Z := batch_wait fuel g.

Definition x1_batch_live (g : Z) : MS Z :=
  let! h := hget g in
  let b := h_b h in
  let t := h_t h in
  if (t_error t !=? 0) || h_stopping h || h_suspended h || negb (h_ready h) ||
     negb (h_cold_owned h) || negb (b_attempted b) || b_terminal b || b_waiting b ||
     bool_decide (b_switch b = None) || negb (t_command_attempted t) ||
     (t_connected_command t =? 0) || (t_pending_command t !=? t_connected_command t) ||
     orientation_none h || bool_decide (t_orientation t ≠ t_batch_orientation t)
  then ret (elvis (t_error t) (-ESHUTDOWN)) else
  let! now := jiffies in
  if time_after_eq now (b_deadline b) then ret (-ETIMEDOUT) else
  let! r := call g (TbValidate (b_uid b)) in
  if r !=? 0 then ret r else
  let! now := jiffies in
  ret (if time_after_eq now (b_deadline b) then -ETIMEDOUT else 0).

Fixpoint drain_events (n : nat) (g deadline : Z) : MS Z :=
  match n with
  | O => still_waiting
  | S n =>
      let! pending := read_out TbEventsPending in
      if pending =? 0 then x1_batch_live g else
      let! now := jiffies in
      if time_after now deadline then ret (-EBUSY) else
      do! call_ g (Msleep 20) in
      drain_events n g deadline
  end.
Definition x1_general_drain_events (g : Z) : MS Z :=
  let! now := jiffies in drain_events fuel g (u64 (now + 5 * HZ)).

(** The guard of [inventory_once_store]: the arms that must and must not be
    set. *)
Definition inventory_armed : bool :=
  x1_inventory_batch P && x1_imsi_receiver P && negb (x1_startup P) &&
  negb (x1_runtime_startup P) && negb (x1_pcie_prepare P) && negb (x1_pcie_inspect P) &&
  negb (x1_pcie_cfg0 P) && negb (x1_tunnel_quiesce P && negb (x1_nvme_read P)) &&
  negb (x1_general P && (negb (x1_managed P) || negb (x1_nvme_read P))).

(** After the attempt has been consumed: startup and local preparation. *)
Definition inventory_prepare (g : Z) : MS flow :=
  let! r := x1_activate g in
  do! lock in
  if r !=? 0 then ret (Terminal r) else
  let! h := hget g in
  if (t_error (h_t h) !=? 0) || connection_seen h
  then ret (Terminal (elvis (t_error (h_t h)) (-EBUSY))) else
  do! bset g (λ b, b <| b_step := "local-preparation" |>) in
  do! pcset g (λ p, p <| p_receiver_requested := true |>
                      <| p_nvme_requested := x1_nvme_read P |>
                      <| p_general := x1_general P |>) in
  let! ok := domain_admits in
  let! r := (if ok then pcie_call g BatchPrepare no_callback else ret (-EPERM)) in
  if r !=? 0 then ret (Terminal r) else
  let! now := jiffies in
  do! bset g (λ b, b <| b_step := "connect-once" |> <| b_waiting := true |>
                     <| b_deadline := if x1_managed P then 0 else u64 (now + 120 * HZ) |>) in
  ret (if x1_managed P then Out 0 else WaitAttachment).

Definition inventory_admit (g uid vendor device : Z) : MS flow :=
  do! lock in
  let! h := hget g in
  let b := h_b h in
  if x1_managed P && b_attempted b && b_waiting b && negb (b_terminal b) &&
     (t_error (h_t h) =? 0) && h_ready h && p_prepared (h_pcie h) && negb (h_stopping h) &&
     negb (h_suspended h) && (uid =? b_uid b) && (vendor =? b_vendor b) &&
     (device =? b_device b)
  then
    if orientation_none h || t_negotiation_rearm (h_t h) then ret (Out (-EAGAIN)) else
    let! now := jiffies in
    let! now' := jiffies in
    do! bset g (λ b, b <| b_deadline := u64 (now + 120 * HZ) |>
                       <| b_negotiation_deadline := u64 (now' + 30 * HZ) |>) in
    ret WaitAttachment
  else
  if h_startup_attempted h || p_attempted (h_pcie h) || b_attempted b
  then ret (Out (-EALREADY)) else
  if h_stopping h || h_suspended h || (t_error (h_t h) !=? 0) || connection_seen h
  then ret (Out (-EBUSY)) else
  do! bset g (λ b, b <| b_attempted := true |> <| b_uid := uid |> <| b_vendor := vendor |>
                     <| b_device := device |> <| b_step := "startup" |>) in
  inventory_prepare g.

(** Approval, training and inventory, and the hold of the tunnel, all under
    the domain lock. *)
Definition hold_tunnel (g : Z) : MS Z :=
  let! r := (if x1_general P then x1_general_drain_events g else ret 0) in
  let! h := hget g in
  let! r := (if r =? 0 then call g (TbHold (b_uid (h_b h))) else ret r) in
  do! sset g (λ s, s <| s_tunnel_held := r =? 0 |>) in
  do! (if r =? 0 then
         do! call_ g TbGetDevice in
         hset g (λ h, h <| h_s := (h_s h) <| s_retained_tb := h_tb h |> |>)
       else ret tt) in
  ret r.

Definition inventory_tunnel (g vendor device : Z) : MS Z :=
  let! h := hget g in
  let! r := call g (TbApprove (b_uid (h_b h))) in
  let! r := (if r =? 0 then x1_batch_live g else ret r) in
  let! r := (if r =? 0 then
               do! bset g (λ b, b <| b_step := "training-inventory-and-masked-receiver" |>) in
               helper_call g (BatchInventory vendor device) pcie_args set_pcie_args
                 (x1_batch_live g) (e_pcie (BatchInventory vendor device))
             else ret r) in
  if (r =? 0) && x1_tunnel_quiesce P then hold_tunnel g else ret r.

(** The attachment that was waited for. *)
Definition inventory_attached (g vendor device : Z) : MS flow :=
  let! now := jiffies in
  let! h := hget g in
  let b := h_b h in
  let t := h_t h in
  if time_after_eq now (b_deadline b) then ret (Terminal (-ETIMEDOUT)) else
  if (t_error t !=? 0) || bool_decide (b_switch b = None) || h_stopping h ||
     h_suspended h || bool_decide (t_orientation t ≠ t_batch_orientation t) ||
     (t_connected_command t =? 0) || (t_pending_command t !=? t_connected_command t)
  then ret (Terminal (elvis (t_error t) (-ENOLINK))) else
  let! now := jiffies in
  do! bset g (λ b, b <| b_step := "approve-tunnel" |>
                     <| b_deadline := u64 (now + 60 * HZ) |>) in
  let! r := inventory_tunnel g vendor device in
  ret (Terminal r).

Definition inventory_wait (g vendor device : Z) : MS flow :=
  let! r := x1_batch_wait g in
  do! lock in
  let! h := hget g in
  let untouched := ((r =? -ENOTCONN) || (r =? -ETIMEDOUT)) && x1_attach_untouched P h in
  let failures := b_negotiation_failures (h_b h) + 1 in
  do! (if untouched then bset g (λ b, b <| b_negotiation_failures := u32 failures |>
                                        <| b_negotiation_error := r |>) else ret tt) in
  if untouched && (u32 failures <? X1_NEGOTIATION_ATTEMPTS) then
    do! tset g (λ t, t <| t_negotiation_rearm :=
          bool_decide (t_batch_orientation t ≠ TYPEC_ORIENTATION_NONE) |>) in
    ret (Out (-ENOTCONN))
  else
  do! bset g (λ b, b <| b_waiting := false |>) in
  if r !=? 0 then ret (Terminal r) else inventory_attached g vendor device.

(** [terminal:]; the second result says that the bind follows. *)
Definition inventory_terminal (g r : Z) : MS (Z * bool) :=
  let! h := hget g in
  let bind := (r =? 0) && x1_nvme_read P && p_host_published (h_pcie h) in
  do! bset g (λ b, b <| b_waiting := false |> <| b_terminal := true |>
                     <| b_complete := (r =? 0) && negb bind |> <| b_error := r |>) in
  do! tset g (λ t, t <| t_error := elvis r (-ESHUTDOWN) |>) in
  do! (if r =? 0 then bset g (λ b, b <| b_step :=
         if bind then "nvme-bind-pending" else "receiver-complete-no-endpoint-dma" |>)
       else ret tt) in
  do! (match b_switch (h_b h) with
       | Some _ => do! call_ g TbSwitchPut in bset g (λ b, b <| b_switch := None |>)
       | None => ret tt
       end) in
  ret (r, bind).

Definition inventory_finish (g : Z) (f : flow) : MS (Z * bool) :=
  match f with
  | Out r => ret (r, false)
  | Terminal r => inventory_terminal g r
  | WaitAttachment => fault
  end.

Definition inventory_once_store (g : Z) (capable : bool) (buf : list Z) : MS (Z * bool) :=
  if negb capable || negb inventory_armed then ret (-EPERM, false) else
  match x1_batch_parse (x1_general P) buf with
  | Fault => fault
  | Err e => ret (e, false)
  | Ok (uid, vendor, device) =>
      let! f := inventory_admit g uid vendor device in
      let! f := (match f with
                 | WaitAttachment => inventory_wait g vendor device
                 | f => ret f
                 end) in
      inventory_finish g f
  end.

(** The tail of the store, under [bind_lock] only. *)
Definition inventory_bind (g : Z) : MS Z :=
  do! lock in
  let! h := hget g in
  let! r := (if h_stopping h || h_suspended h || negb (h_ready h) then ret (-ESHUTDOWN)
             else pcie_call g NvmeBind no_callback) in
  do! lock in
  do! bset g (λ b, b <| b_error := r |> <| b_complete := r =? 0 |>
                     <| b_step := if r !=? 0 then "nvme-bind-failed"
                                  else "nvme-bound-read-not-proven" |>) in
  ret r.

(** ** Stop and retirement stores *)

(** The completed session whose tunnel is held, as the stop stores want it;
    [error] is then -ESHUTDOWN. *)
Definition held_session (h : x1_host) : bool :=
  bool_decide (is_Some (h_tb h)) && s_tunnel_held (h_s h) && h_cold_owned h && h_ready h &&
  negb (h_stopping h) && negb (h_suspended h) && b_attempted (h_b h) &&
  b_terminal (h_b h) && b_complete (h_b h) && negb (b_waiting (h_b h)) &&
  (b_error (h_b h) =? 0) && (t_error (h_t h) =? -ESHUTDOWN) && t_command_attempted (h_t h) &&
  (t_connected_command (h_t h) !=? 0).

(** The cable is still as it was connected. *)
Definition still_attached (h : x1_host) : bool :=
  (t_connected_command (h_t h) !=? 0) &&
  (t_pending_command (h_t h) =? t_connected_command (h_t h)) &&
  negb (orientation_none h) &&
  bool_decide (t_orientation (h_t h) = t_batch_orientation (h_t h)).

Definition endpoint_remove_once_store (g : Z) (capable : bool) (buf : list Z) : MS Z :=
  if negb capable || negb (x1_general P) || negb (x1_managed P) ||
     negb (x1_tunnel_quiesce P) || negb (sysfs_streq buf "remove-endpoint-v1")
  then ret (-EPERM) else
  do! lock in
  let! h := hget g in
  if negb (held_session h) || negb (still_attached h) || s_tunnel_stop_attempted (h_s h)
  then ret (-EPERM) else
  pcie_call g GeneralRemove no_callback.

Definition set_tunnel_stop (t : tb_x1_tunnel_stop) (h : x1_host) : x1_host :=
  h <| h_s := (h_s h) <| s_tunnel_stop := t |> |>.

(** [x1_stop_tunnel_action] and [x1_pulled_tunnel_action] *)
Definition x1_stop_tunnel_action (pulled : bool) (g : Z) : MS Z :=
  let! h := hget g in
  let c := if pulled then TbStopPulled (b_uid (h_b h)) else TbStopRetained (b_uid (h_b h)) in
  struct_call g c (λ h, s_tunnel_stop (h_s h)) set_tunnel_stop (e_tunnel c).

(** [ret = qcom_usb4_x1_fence_and_quiesce(...)] and the two results of it. *)
Definition stop_tunnel (pulled : bool) (g : Z) : MS Z :=
  let! r := pcie_call g (FenceAndQuiesce pulled) (x1_stop_tunnel_action pulled g) in
  do! sset g (λ s, s <| s_tunnel_stop_error := r |> <| s_tunnel_stop_complete := r =? 0 |>) in
  ret r.

Definition tunnel_quiesce_once_store (g : Z) (capable : bool) (buf : list Z) : MS Z :=
  if negb capable || negb (x1_tunnel_quiesce P) || negb (sysfs_streq buf "stop-retain-v1")
  then ret (-EPERM) else
  do! lock in
  let! h := hget g in
  if s_tunnel_stop_attempted (h_s h) then ret (-EALREADY) else
  if negb (held_session h) || negb (still_attached h) then ret (-EPERM) else
  do! sset g (λ s, s <| s_tunnel_stop_attempted := true |>) in
  stop_tunnel false g.

(** [tb_ctl_stop_x1_retained(host->tb->ctl, &host->qnhi, s)] *)
Definition control_args (h : x1_host) : qcom_usb4_nhi * qcom_usb4_nhi_stop :=
  (h_qnhi h, s_host_stop (h_s h)).
Definition set_control_args (x : qcom_usb4_nhi * qcom_usb4_nhi_stop) (h : x1_host) : x1_host :=
  h <| h_qnhi := x.1 |> <| h_s := (h_s h) <| s_host_stop := x.2 |> |>.
Definition stop_control (g : Z) : MS Z :=
  struct_call g CtlStopRetained control_args set_control_args e_ctl_stop.

Definition hsset (g : Z) (f : qcom_usb4_nhi_stop → qcom_usb4_nhi_stop) : MS unit :=
  sset g (λ s, s <| s_host_stop := f (s_host_stop s) |>).

(** [if (!ret && (!s->attempted || ...)) ret = -EIO; s->error = ret; s->finished = !ret;] *)
Definition control_receipt (g r : Z) : MS Z :=
  let! h := hget g in
  let s := s_host_stop (h_s h) in
  let ok := hs_attempted s && hs_ctl_closed s && hs_irq_disabled s && hs_callbacks_drained s &&
            (hs_rings_disabled s =? 2) && (hs_rx_options s =? 0) && (hs_tx_options s =? 0) in
  let r := if (r =? 0) && negb ok then -EIO else r in
  do! hsset g (λ s, s <| hs_error := r |> <| hs_finished := r =? 0 |>) in
  ret r.

(** The receipt of a tunnel stopped on the hardware. *)
Definition tunnel_receipt (h : x1_host) : bool :=
  s_tunnel_stop_complete (h_s h) && (s_tunnel_stop_error (h_s h) =? 0) &&
  ts_finished (s_tunnel_stop (h_s h)) && (ts_error (s_tunnel_stop (h_s h)) =? 0) &&
  (ts_adapters (s_tunnel_stop (h_s h)) =? 2) && (ts_hops (s_tunnel_stop (h_s h)) =? 4).

(** [batch_complete], [batch_terminal] and the rest of the completed batch. *)
Definition batch_done (h : x1_host) : bool :=
  b_complete (h_b h) && b_terminal (h_b h) && negb (b_waiting (h_b h)) &&
  (b_error (h_b h) =? 0) && (t_error (h_t h) =? -ESHUTDOWN).

Definition host_quiesce_once_store (g : Z) (capable : bool) (buf : list Z) : MS Z :=
  if negb capable || negb (x1_host_quiesce P) || negb (x1_tunnel_quiesce P) ||
     negb (sysfs_streq buf "stop-host-retain-v1") then ret (-EPERM) else
  do! lock in
  let! h := hget g in
  if s_host_stop_attempted (h_s h) then ret (-EALREADY) else
  if bool_decide (h_tb h = None) || negb (s_tunnel_held (h_s h)) ||
     negb (receiver_stopped h) || negb (s_tunnel_stop_attempted (h_s h)) ||
     negb (tunnel_receipt h) || negb (h_cold_owned h) || negb (h_ready h) ||
     h_stopping h || h_suspended h || negb (batch_done h) || negb (still_attached h)
  then ret (-EPERM) else
  do! sset g (λ s, s <| s_host_stop_attempted := true |>) in
  do! hsset g (λ s, s <| hs_stage := "cm-before-host-stop" |>) in
  let uid := b_uid (h_b h) in
  let! r := call g (TbPcieStopped uid) in
  let! r := (if r =? 0 then stop_control g else ret r) in
  let! r := (if r =? 0 then
               do! hsset g (λ s, s <| hs_stage := "cm-after-host-stop" |>) in
               call g (TbPcieStopped uid)
             else ret r) in
  let! r := control_receipt g r in
  do! (if r =? 0 then
         do! hsset g (λ s, s <| hs_stage := "control-stopped-retained" |>) in
         hset g (λ h, h <| h_ready := false |>)
       else ret tt) in
  ret r.

(** [tb_ctl_retire_x1_stopped] with the check the caller chooses. *)
Definition retire_args (h : x1_host) : qcom_usb4_nhi * qcom_usb4_nhi_retire :=
  (h_qnhi h, s_control_retire (h_s h)).
Definition set_retire_args (x : qcom_usb4_nhi * qcom_usb4_nhi_retire) (h : x1_host) : x1_host :=
  h <| h_qnhi := x.1 |> <| h_s := (h_s h) <| s_control_retire := x.2 |> |>.
Definition retire_control (g : Z) (check : MS Z) : MS Z :=
  helper_call g CtlRetire retire_args set_retire_args check e_ctl_retire.

(** [x1_idle_freeze_cm]; the domain lock is dropped while it sleeps. *)
Fixpoint freeze_cm (n : nat) (g deadline : Z) : MS Z :=
  match n with
  | O => still_waiting
  | S n =>
      let! pending := read_out TbEventsPending in
      let! idle := (if pending =? 0 then read_out CtlIdle else ret 0) in
      let! r := (if idle !=? 0 then call g TbIdleFreeze else ret (-EBUSY)) in
      if r !=? -EBUSY then ret r else
      let! now := jiffies in
      if time_after now deadline then ret r else
      do! call_ g (Msleep 20) in
      freeze_cm n g deadline
  end.
Definition x1_idle_freeze_cm (g : Z) : MS Z :=
  let! now := jiffies in freeze_cm fuel g (u64 (now + 3 * HZ)).

(** What may be powered down idle: prepared, waiting, never connected. *)
Definition idle_admissible (h : x1_host) : bool :=
  bool_decide (is_Some (h_tb h)) && h_activated h && h_cold_owned h && h_ready h &&
  negb (h_stopping h) && negb (h_suspended h) && (t_error (h_t h) =? 0) &&
  b_attempted (h_b h) && b_waiting (h_b h) && negb (b_terminal (h_b h)) &&
  negb (t_command_attempted (h_t h)) && (t_connected_command (h_t h) =? 0) &&
  (t_pending_command (h_t h) =? 0) && bool_decide (b_switch (h_b h) = None) &&
  negb (s_tunnel_held (h_s h)) && negb (h_training_attempted h) &&
  negb (h_inventory_attempted h) && p_prepared (h_pcie h) && (p_error (h_pcie h) =? 0) &&
  negb (p_inventory_attempted (h_pcie h)) && negb (p_host_attempted (h_pcie h)) &&
  negb (s_host_stop_attempted (h_s h)).

Definition idle_stage (g : Z) (name : string) : MS unit :=
  eset g (λ e, e <| e_idle_stage := name |>).

(** Under the Type-C lock: from the terminal point to the power stop. *)
Definition idle_stop (g : Z) : MS Z :=
  do! hset g (λ h, h <| h_stopping := true |> <| h_ready := false |>
        <| h_e := (h_e h) <| e_idle_attempted := true |> |>) in
  do! call_ g PmGetNoresume in
  do! bset g (λ b, b <| b_waiting := false |> <| b_terminal := true |>
                     <| b_step := "idle-power-down" |>) in
  do! tset g (λ t, t <| t_error := -ESHUTDOWN |>) in
  do! idle_stage g "stop-control" in
  do! sset g (λ s, s <| s_host_stop_attempted := true |>) in
  let! r := stop_control g in
  let! r := control_receipt g r in
  if r !=? 0 then ret r else
  do! hsset g (λ s, s <| hs_stage := "control-stopped-idle" |>) in
  do! idle_stage g "power-stop" in
  x1_idle_power_stop_run P g.

(** After the lock is dropped; errors are the [goto done]s. *)
Definition idle_release (g : Z) : MS unit :=
  do! idle_stage g "control-retire" in
  let! r := retire_control g (x1_idle_owner_stopped P g) in
  do! ok_or_fail r in
  do! idle_stage g "domain-retire" in
  let! r := x1_idle_retire_domain P command_polls g in
  do! ok_or_fail r in
  do! idle_stage g "platform-retire" in
  let! r := pcie_call g IdleRetirePlatform (x1_idle_platform_owner_stopped P g) in
  do! ok_or_fail r in
  do! idle_stage g "tunnel-reset-release" in
  do! must g ReleaseRetiredReset in
  do! free_rings g in
  do! call_ g PmPutSync in
  hset g (λ h, h <| h_fully_retired := true |>
        <| h_e := (h_e h) <| e_idle_retired := true |> <| e_idle_stage := "idle-retired" |> |>).

Definition idle_retire_once_store (g : Z) (capable : bool) (buf : list Z) : MS Z :=
  if negb capable || negb (x1_general P) || negb (x1_managed P) || negb (x1_host_quiesce P) ||
     negb (x1_power_quiesce P) || negb (x1_control_retire P) || negb (x1_cm_retire P) ||
     negb (sysfs_streq buf "retire-idle-v1") then ret (-EPERM) else
  do! lock in
  let! h := hget g in
  if e_idle_attempted (h_e h) then ret (-EALREADY) else
  if negb (idle_admissible h) then ret (-EPERM) else
  let! r := x1_idle_freeze_cm g in
  if r !=? 0 then
    do! eset g (λ e, e <| e_idle_error := r |> <| e_idle_stage := "refused-session-kept" |>) in
    ret r
  else
  let! r := idle_stop g in
  let! r := (if r =? 0 then attempt (idle_release g) else ret r) in
  do! eset g (λ e, e <| e_idle_error := r |>) in
  ret r.

Definition x1_port_pulled (g : Z) : MS bool :=
  do! event_lock in
  let! p := pget in
  let! h := hget g in
  ret (bool_decide (q_orientation p = TYPEC_ORIENTATION_NONE) &&
       (h_initial_event_sequence h <? q_disconnect_sequence p)).

Definition pulled_stage (g : Z) (name : string) : MS unit :=
  eset g (λ e, e <| e_pulled_stage := name |>).

(** The connected session an Eject would stop. *)
Definition pulled_admissible (h : x1_host) : bool :=
  held_session h && bool_decide (is_Some (s_retained_tb (h_s h))) &&
  negb (s_tunnel_stop_attempted (h_s h)) && negb (s_host_stop_attempted (h_s h)) &&
  negb (ps_attempted (h_p h)) && p_nvme_bound (h_pcie h).

(** Tunnel, control rings and power, under the Type-C lock taken again. *)
Definition pulled_stop (g : Z) : MS unit :=
  do! lock in
  do! pulled_stage g "stop-tunnel" in
  do! sset g (λ s, s <| s_tunnel_stop_attempted := true |>) in
  let! r := stop_tunnel true g in
  do! ok_or_fail r in
  do! pulled_stage g "stop-control" in
  do! sset g (λ s, s <| s_host_stop_attempted := true |>) in
  let! r := stop_control g in
  let! r := control_receipt g r in
  do! ok_or_fail r in
  do! hsset g (λ s, s <| hs_stage := "control-stopped-pulled" |>) in
  do! hset g (λ h, h <| h_ready := false |>) in
  do! pulled_stage g "power-stop" in
  let! r := x1_power_stop_run g in
  ok_or_fail r.

(** The same retirement as after an Eject. *)
Definition pulled_release (g : Z) : MS unit :=
  do! pulled_stage g "retire-namespaces" in
  let! r := pcie_call g RetireNamespaces (x1_namespace_owner_stopped P g) in
  do! ok_or_fail r in
  do! pulled_stage g "retire-pci" in
  let! r := pcie_call g RetirePci (x1_namespace_owner_stopped P g) in
  do! ok_or_fail r in
  do! pulled_stage g "retire-control" in
  let! r := retire_control g (x1_control_owner_stopped P g) in
  do! ok_or_fail r in
  do! pulled_stage g "retire-domain" in
  let! r := x1_retire_domain P command_polls g in
  do! ok_or_fail r in
  do! pulled_stage g "retire-platform" in
  let! r := x1_retire_session P g in
  do! ok_or_fail r in
  eset g (λ e, e <| e_pulled_retired := true |> <| e_pulled_stage := "pulled-retired" |>).

Definition pulled_body (g : Z) : MS unit :=
  do! pulled_stage g "remove-endpoint" in
  let! h := hget g in
  let! r := (if p_endpoint_removed (h_pcie h) then ret 0
             else pcie_call g PulledRemove no_callback) in
  do! ok_or_fail r in
  do! pulled_stop g in
  pulled_release g.

Definition pulled_retire_once_store (g : Z) (capable : bool) (buf : list Z) : MS Z :=
  if negb capable || negb (x1_general P) || negb (x1_managed P) || negb (x1_tunnel_quiesce P) ||
     negb (x1_host_quiesce P) || negb (x1_power_quiesce P) || negb (x1_namespace_retire P) ||
     negb (x1_pci_retire P) || negb (x1_control_retire P) || negb (x1_cm_retire P) ||
     negb (sysfs_streq buf "retire-pulled-v1") then ret (-EPERM) else
  do! lock in
  let! h := hget g in
  if e_pulled_attempted (h_e h) then ret (-EALREADY) else
  if negb (pulled_admissible h) then ret (-EPERM) else
  let! gone := x1_port_pulled g in
  if negb gone then ret (-EPERM) else
  do! eset g (λ e, e <| e_pulled_attempted := true |> <| e_pulled := true |>
                     <| e_pulled_stage := "mark-disconnected" |>) in
  do! qcom_usb4_x1_mark_pulled g in
  let! r := attempt (pulled_body g) in
  do! eset g (λ e, e <| e_pulled_error := r |>) in
  ret r.

(** The chain of retirements after a power stop, each behind its arm. *)
Definition retire_chain (g : Z) : MS Z :=
  let! r := pcie_call g RetireNamespaces (x1_namespace_owner_stopped P g) in
  if (r !=? 0) || negb (x1_pci_retire P) then ret r else
  let! r := pcie_call g RetirePci (x1_namespace_owner_stopped P g) in
  if (r !=? 0) || negb (x1_control_retire P) then ret r else
  let! r := retire_control g (x1_control_owner_stopped P g) in
  if (r !=? 0) || negb (x1_cm_retire P) then ret r else
  let! r := x1_retire_domain P command_polls g in
  if (r !=? 0) || negb (x1_managed P) then ret r else
  x1_retire_session P g.

Definition power_quiesce_once_store (g : Z) (capable : bool) (buf : list Z) : MS Z :=
  if negb capable || negb (x1_power_quiesce P) || negb (x1_host_quiesce P) ||
     negb (x1_tunnel_quiesce P) || negb (sysfs_streq buf "stop-power-retain-v1")
  then ret (-EPERM) else
  do! lock in
  let! h := hget g in
  if ps_attempted (h_p h) then ret (-EALREADY) else
  if bool_decide (h_tb h = None) || negb (s_tunnel_held (h_s h)) || negb (tunnel_receipt h) ||
     negb (batch_done h) || negb (still_attached h) then ret (-EPERM) else
  let uid := b_uid (h_b h) in
  let! r := call g (TbPcieStopped uid) in
  let! r := (if r =? 0 then x1_power_stop_run g else ret r) in
  let! r := (if r =? 0 then call g (TbPcieStopped uid) else ret r) in
  let! h := hget g in
  do! (if (r !=? 0) && ps_attempted (h_p h)
       then psset g (λ s, s <| ps_error := r |> <| ps_finished := false |>) else ret tt) in
  if (r =? 0) && x1_namespace_retire P then retire_chain g else ret r.

(** ** Renewal *)

Definition x1_session_providers (next old : x1_host) : x1_host :=
  next <| h_router := h_router old |> <| h_mcu := h_mcu old |>
       <| h_serial := h_serial old |> <| h_irq := h_irq old |>.

Definition renewable (p : x1_port) (g generation : Z) (old : x1_host) : bool :=
  bool_decide (q_session p = Some g) && (generation =? h_generation old) &&
  h_fully_retired old && p_platform_retired (h_pcie old) &&
  (p_platform_retire_error (h_pcie old) =? 0) &&
  (if e_idle_retired (h_e old) then idle_platform_owner_ok P old
   else platform_owner_ok P old) &&
  (q_next_generation p !=? U64_MAX).

(** Publication under [event_lock]; the caller has pinned the old session. *)
Definition renew_publish (g next : Z) : MS bool :=
  do! lock in
  let! p := pget in
  let! old := hget g in
  if bool_decide (q_orientation p ≠ TYPEC_ORIENTATION_NONE) ||
     (negb (e_idle_retired (h_e old)) &&
      (q_disconnect_sequence p <=? h_initial_event_sequence old))
  then ret false else
  do! hset next (λ h, h <| h_initial_event_sequence := q_event_sequence p |>) in
  do! pset (λ p, p <| q_session := Some next |>) in
  ret true.

Definition renew_session_store (g : Z) (capable : bool) (buf : list Z) : MS Z :=
  if negb capable || negb (x1_managed P) then ret (-EPERM) else
  match kstrtou64 buf with
  | Fault => fault
  | Err e => ret e
  | Ok generation =>
      let! p := pget in
      let! old := hget g in
      if negb (renewable p g generation old) then ret (-EPERM) else
      let! next := x1_session_alloc in
      match next with
      | None => ret (-ENOMEM)
      | Some next =>
          do! hset next (λ h, x1_session_providers h old) in
          let! published := renew_publish g next in
          if published then do! x1_session_put g in ret 0
          else do! x1_session_put next in ret (-EBUSY)
      end
  end.

(** ** The driver core *)

Definition x1_port_release : MS unit :=
  let! p := pget in
  do! pset (λ p, p <| q_session := None |>) in
  match q_session p with
  | None => ret tt
  | Some g =>
      let! h := hget g in
      if negb (h_startup_attempted h) || h_fully_retired h then x1_session_put g else ret tt
  end.

(** What the lookups of [x1_resources] find: an errno is a nonzero number. *)
Record hw_facts := HwFacts {
  f_machine : bool; f_router_index : option Z; f_firmware_name : bool;
  f_resource : option (Z * Z); f_ioremap : Z + Z; f_nhi_irq : Z; f_hwirq : option Z;
  f_level_high : bool; f_clk_bulk : Z; f_reset_bulk : Z; f_phy : Z; f_pinctrl : Z;
  f_pins : list Z; f_tcsr : Z; f_ddr : Z; f_apps : Z; f_smem : Z + (Z * Z);
  f_serial_end : Z; f_alloc_port : bool; f_add_action : Z; f_switch_register : Z;
  f_mux_register : Z; f_typec_action : Z;
}.

Definition zero_or (r : Z) : res unit := if r =? 0 then Ok tt else Err r.

Definition init_router_mcu (base : Z) : res qcom_usb4_mcu :=
  match qcom_usb4_mcu_init base X1_ROUTER_SIZE X1_RAM_SIZE QCOM_USB4_MCU_LEGACY
          (Some mcu_zero) with
  | (Ok _, Some m) => Ok m
  | (Ok _, None) => Fault
  | (Err e, _) => Err e
  | (Fault, _) => Fault
  end.

Fixpoint first_error (l : list Z) : res unit :=
  match l with [] => Ok tt | r :: l => if r =? 0 then first_error l else Err r end.

(** The fields it fills in: router, irq, serial number, MCU. *)
Definition x1_resources (f : hw_facts) : res (Z * Z * Z * qcom_usb4_mcu) :=
  if negb (f_machine f) then Err (-ENODEV) else
  if negb (bool_decide (f_router_index f = Some 0)) then Err (-EINVAL) else
  if negb (f_firmware_name f) then Err (-EINVAL) else
  if negb (bool_decide (f_resource f = Some (0x15600000, X1_ROUTER_SIZE)))
  then Err (-EINVAL) else
  let? router := match f_ioremap f with inl e => Err e | inr b => Ok b end in
  if f_nhi_irq f <? 0 then Err (f_nhi_irq f) else
  if negb (bool_decide (f_hwirq f = Some 504)) || negb (f_level_high f)
  then Err (-EINVAL) else
  let? _ := zero_or (f_clk_bulk f) in
  let? _ := zero_or (f_reset_bulk f) in
  let? _ := zero_or (f_phy f) in
  let? _ := zero_or (f_pinctrl f) in
  let? _ := first_error (f_pins f) in
  let? _ := zero_or (f_tcsr f) in
  let? _ := zero_or (f_ddr f) in
  let? _ := zero_or (f_apps f) in
  let? info := match f_smem f with inl e => Err e | inr i => Ok i end in
  if info.1 <? f_serial_end f then Err (-ENODEV) else
  if info.2 =? 0 then Err (-ENODEV) else
  let? mcu := init_router_mcu router in
  Ok (router, f_nhi_irq f, info.2, mcu).

(** [x1_typec_register]; a failing step undoes the ones before it. *)
Definition x1_typec_register (f : hw_facts) : res unit :=
  let? _ := zero_or (f_switch_register f) in
  let? _ := zero_or (f_mux_register f) in
  zero_or (f_typec_action f).

(** After a failed probe the driver core runs the release action. *)
Definition probe_failed (r : Z) : MS Z := do! x1_port_release in ret r.

Definition x1_probe (f : hw_facts) : MS Z :=
  if negb (f_alloc_port f) then ret (-ENOMEM) else
  let! s := x1_session_alloc in
  match s with
  | None => ret (-ENOMEM)
  | Some g =>
      do! pset (λ p, p <| q_session := Some g |>) in
      if f_add_action f !=? 0 then probe_failed (f_add_action f) else
      match x1_resources f with
      | Fault => fault
      | Err e => probe_failed e
      | Ok (router, irq, serial, mcu) =>
          do! hset g (λ h, h <| h_router := router |> <| h_irq := irq |>
                             <| h_serial := serial |> <| h_mcu := mcu |>) in
          match x1_typec_register f with
          | Fault => fault
          | Err e => probe_failed e
          | Ok _ => do! (if x1_startup P then do! x1_activate g in ret tt else ret tt) in ret 0
          end
      end
  end.

(** [goto out] leaves the firmware, [goto firmware] releases it. *)
Definition shutdown_firmware (g : Z) : MS unit :=
  let! h := hget g in
  match h_fw h with
  | Some _ => do! call_ g ReleaseFirmware in hset g (λ h, h <| h_fw := None |>)
  | None => ret tt
  end.

(** Resets, PHY and providers; an error is a [goto out]. *)
Definition shutdown_power (g : Z) : MS unit :=
  do! must g ResetBulkAssert in
  let! h := hget g in
  do! (if v_phy_on (h_v h) then
         do! must g PhyPowerOff in vset g (λ v, v <| v_phy_on := false |>) else ret tt) in
  do! (if v_phy_initialized (h_v h) then
         do! must g PhyExit in vset g (λ v, v <| v_phy_initialized := false |>) else ret tt) in
  x1_release_power g.

Definition shutdown_owned (g : Z) : MS unit :=
  let! h := hget g in
  do! (match h_tb h with
       | Some _ =>
           do! call_ g TbDomainRemove in
           do! call_ g TbWaitReleased in
           hset g (λ h, h <| h_tb := None |>)
       | None => ret tt
       end) in
  do! (if n_prepared (h_qnhi h) then do! nhi_call g NhiShutdown in ret tt else ret tt) in
  do! on_router (qcom_usb4_mcu_stop (Some (h_mcu h))) in
  do! note g McuStop 0 in
  if p_attempted (h_pcie h) then shutdown_firmware g else
  let! r := attempt (shutdown_power g) in
  if r =? 0 then shutdown_firmware g else ret tt.

Definition x1_shutdown (g : Z) : MS unit :=
  let! h := hget g in
  if h_stopping h then ret tt else
  do! lock in
  do! hset g (λ h, h <| h_stopping := true |> <| h_ready := false |>) in
  let! h := hget g in
  if negb (h_activated h) then shutdown_firmware g else
  if negb (h_cold_owned h) then do! x1_release_power g in shutdown_firmware g else
  if p_nvme_requested (h_pcie h) && p_host_attempted (h_pcie h) then shutdown_firmware g else
  shutdown_owned g.

Definition x1_suspend (g : Z) : MS Z :=
  let! h := hget g in
  if h_startup_attempted h && negb (x1_general P && h_fully_retired h) then ret (-EBUSY) else
  do! hset g (λ h, h <| h_suspended := true |>) in ret 0.

Definition x1_pm_complete (g : Z) : MS unit :=
  hset g (λ h, h <| h_suspended := false |>).

(** ** Steps of the driver *)

Definition run_store (g : Z) (a : attr) (capable : bool) (buf : list Z) : MS (Z * bool) :=
  let plain (m : MS Z) : MS (Z * bool) := let! r := m in ret (r, false) in
  match a with
  | activate_once => plain (activate_once_store g capable buf)
  | pcie_prepare_once => plain (pcie_prepare_once_store g capable buf)
  | inventory_once => inventory_once_store g capable buf
  | endpoint_remove_once => plain (endpoint_remove_once_store g capable buf)
  | tunnel_quiesce_once => plain (tunnel_quiesce_once_store g capable buf)
  | host_quiesce_once => plain (host_quiesce_once_store g capable buf)
  | power_quiesce_once => plain (power_quiesce_once_store g capable buf)
  | idle_retire_once => plain (idle_retire_once_store g capable buf)
  | pulled_retire_once => plain (pulled_retire_once_store g capable buf)
  | renew_session => plain (renew_session_store g capable buf)
  end.

(** A piece of work that gets the device lock runs to its end and drops its
    reference; the bind tail of the inventory store keeps it. *)
Definition run_task (g : Z) (t : task) : MS unit :=
  match t with
  | TSwitch o => do! x1_switch_set P g o in x1_session_put g
  | TMux st => do! x1_mux_set command_polls g st in x1_session_put g
  | TStore a capable buf =>
      let! r := run_store g a capable (chars buf) in
      if r.2 then push g TBind else x1_session_put g
  | TBind => do! inventory_bind g in x1_session_put g
  | TShutdown => do! x1_shutdown g in x1_session_put g
  | TSuspend => do! x1_suspend g in x1_session_put g
  | TComplete => do! x1_pm_complete g in x1_session_put g
  end.

(** Unbinding first drains the work in flight, then calls [remove] and runs
    the release action. *)
Inductive move := Probe (f : hw_facts) | Start (t : task) | Run (i : nat) | Unbind.

Definition step_ (m : move) : MS unit :=
  let! y := get in
  match m with
  | Probe f => if q_next_generation (y_port y) =? 0 then do! x1_probe f in ret tt else ret tt
  | Start t => begin_task t
  | Run i =>
      match y_flight y !! i with
      | Some (g, t) =>
          do! modify (λ y, y <| y_flight := delete i (y_flight y) |>) in run_task g t
      | None => ret tt
      end
  | Unbind =>
      match y_flight y, q_session (y_port y) with
      | [], Some g =>
          let! s := x1_session_get in
          do! (match s with Some g => do! x1_shutdown g in x1_session_put g | None => ret tt end) in
          x1_port_release
      | _, _ => ret tt
      end
  end.

(** A history of the driver. *)
Definition run (l : list move) : MS unit := for_each l step_.

Definition boot (w : W) : hsys W := Sys port_zero ∅ [] [] w.
End host.
