(* ===== verification/HostLogic.v ===== *)
(** * The production host driver: the protocol and the invariant

    What a session may ask of the rest of the kernel, as a predicate on the
    sequence of its calls; the invariant that ties the flags of a session to
    what it has asked for; the invariant of the whole driver; and the rules by
    which a handler is walked through. *)

From S2P Require Import Prelude Wp Fw Drom Mcu Startup Typec HostData HostStart HostStop HostStores.

(** ** What a session may call

    Each provider is taken when it is not held and put back when it is; the
    router and its control domain are touched only in the order startup,
    connect, approve, hold, stop, retire. *)

Inductive resource := Lease | Clocks | Votes | PhyInits | PhyPowers.

Definition b2z (b : bool) : Z := if b then 1 else 0.

Notation event := (hcall * Z)%type.

Definition weigh (x : resource) (e : event) : Z :=
  match x, e.1 with
  | Lease, GccGet => b2z (e.2 =? 0)
  | Lease, GccPut => -1
  | Clocks, ClkBulkEnable => b2z (e.2 =? 0)
  | Clocks, ClkBulkDisable => -1
  | Votes, PmResumeAndGet => b2z (0 <=? e.2)
  | Votes, PmGetNoresume => 1
  | Votes, PmPutSync => -1
  | PhyInits, PhyInit => b2z (e.2 =? 0)
  | PhyInits, PhyExit => - b2z (e.2 =? 0)
  | PhyPowers, PhyPowerOn => b2z (e.2 =? 0)
  | PhyPowers, PhyPowerOff => - b2z (e.2 =? 0)
  | _, _ => 0
  end.

(** Taken minus put back. *)
Definition held (x : resource) (L : list event) : Z := foldr (λ e n, weigh x e + n) 0 L.

(** The call was made and returned 0. *)
Definition did (p : hcall → bool) (L : list event) : Prop :=
  ∃ e, e ∈ L ∧ p e.1 = true ∧ e.2 = 0.
Definition never (p : hcall → bool) (L : list event) : Prop := Forall (λ e, p e.1 = false) L.

Definition is_start (c : hcall) : bool := match c with StartupRun => true | _ => false end.
Definition is_connect (c : hcall) : bool := match c with McuConnect _ => true | _ => false end.
Definition is_approve (c : hcall) : bool := match c with TbApprove _ => true | _ => false end.
Definition is_hold (c : hcall) : bool := match c with TbHold _ => true | _ => false end.
Definition is_fence (c : hcall) : bool := match c with FenceAndQuiesce _ => true | _ => false end.
Definition is_freeze (c : hcall) : bool := match c with TbIdleFreeze => true | _ => false end.
Definition is_ctl_stop (c : hcall) : bool := match c with CtlStopRetained => true | _ => false end.
Definition is_mcu_stop (c : hcall) : bool := match c with McuStop => true | _ => false end.
Definition is_pci_retire (c : hcall) : bool := match c with RetirePci => true | _ => false end.
Definition is_namespaces (c : hcall) : bool := match c with RetireNamespaces => true | _ => false end.
Definition is_ctl_retire (c : hcall) : bool := match c with CtlRetire => true | _ => false end.
Definition is_cm_retire (c : hcall) : bool :=
  match c with TbRetireCm _ | TbIdleRetireCm => true | _ => false end.
Definition is_platform (c : hcall) : bool :=
  match c with RetirePlatform | IdleRetirePlatform => true | _ => false end.

(** The domain's release completed within the wait. *)
Definition domain_released (L : list event) : Prop :=
  ∃ r, (TbWaitReleasedTimeout 5000, r) ∈ L ∧ r ≠ 0.

(** Every provider the router needs is held. *)
Definition powered (L : list event) : Prop :=
  held Lease L = 1 ∧ held Clocks L = 1 ∧ 1 ≤ held Votes L.
(** The router was reset and nothing of it is held. *)
Definition unpowered (L : list event) : Prop :=
  did is_ctl_stop L ∧ did is_mcu_stop L ∧ held Lease L = 0 ∧ held Clocks L = 0 ∧
  held PhyInits L = 0 ∧ held PhyPowers L = 0.

Definition permitted (L : list event) (e : event) : Prop :=
  match e.1 with
  | GccGet => held Lease L = 0
  | GccPut => held Lease L = 1
  | ClkBulkEnable => held Clocks L = 0
  | ClkBulkDisable => held Clocks L = 1
  | PmResumeAndGet => held Votes L = 0
  | PmGetNoresume => held Votes L ≤ 1
  | PmPutSync => 1 ≤ held Votes L
  | PhyInit => held PhyInits L = 0
  | PhyExit => held PhyInits L = 1
  | PhyPowerOn => held PhyPowers L = 0
  | PhyPowerOff => held PhyPowers L = 1
  | StartupRun => powered L ∧ never is_start L
  | McuConnect _ => powered L ∧ did is_start L ∧ never is_connect L
  | McuStop => powered L
  | TbApprove _ => did is_connect L
  | TbHold _ => did is_approve L
  | FenceAndQuiesce _ => did is_hold L
  | CtlStopRetained => powered L ∧ (did is_fence L ∨ did is_freeze L)
  | RetireNamespaces => unpowered L
  | RetirePci => unpowered L ∧ did is_namespaces L
  | CtlRetire => unpowered L ∧ (did is_pci_retire L ∨ did is_freeze L)
  | TbRetireCm _ | TbIdleRetireCm => unpowered L ∧ did is_ctl_retire L
  | TbDomainRemove => powered L ∨ did is_cm_retire L
  | RetirePlatform | IdleRetirePlatform => unpowered L ∧ domain_released L
  | RingsFree => did is_platform L
  | _ => True
  end.

(** Every call was permitted by the ones before it. *)
Definition protocol (L : list event) : Prop :=
  ∀ i e, L !! i = Some e → permitted (take i L) e.

Lemma held_app x L L' : held x (L ++ L') = held x L + held x L'.
Proof. induction L as [|e L IH]; [done|]. unfold held in *. cbn [app foldr]. rewrite IH. lia. Qed.
Lemma held_snoc x L e : held x (L ++ [e]) = held x L + weigh x e.
Proof. rewrite held_app. unfold held. cbn [foldr]. lia. Qed.

Lemma did_app p L L' : did p (L ++ L') ↔ did p L ∨ did p L'.
Proof.
  unfold did. setoid_rewrite elem_of_app. split.
  - intros (e&[He|He]&Hp); [left|right]; eauto.
  - intros [(e&He&Hp)|(e&He&Hp)]; exists e; auto.
Qed.
Lemma did_mono p L e : did p L → did p (L ++ [e]).
Proof. rewrite did_app. auto. Qed.
Lemma did_here p L c : p c = true → did p (L ++ [(c, 0)]).
Proof. intros Hp. apply did_app. right. exists (c, 0). split; [by left|done]. Qed.
Lemma never_snoc p L e : never p L → p e.1 = false → never p (L ++ [e]).
Proof. intros HL He. apply Forall_app. split; [done|]. by constructor. Qed.
Lemma released_mono L e : domain_released L → domain_released (L ++ [e]).
Proof. intros (r&Hr&?). exists r. split; [|done]. apply elem_of_app. by left. Qed.

Lemma protocol_nil : protocol [].
Proof. intros i e. rewrite lookup_nil. done. Qed.
Lemma protocol_snoc L e : protocol L → permitted L e → protocol (L ++ [e]).
Proof.
  intros HL He i e' Hi. apply lookup_app_Some in Hi as [Hi|[Hlen Hi]].
  - rewrite take_app_le by (apply lookup_lt_Some in Hi; lia). by apply HL.
  - destruct (i - length L)%nat eqn:Ei; [|done]. simpl in Hi. simplify_eq.
    replace i with (length L) by lia. by rewrite take_app_length.
Qed.

(** Calls that neither take nor put back anything and are always permitted. *)
Definition neutral (c : hcall) : bool :=
  match c with
  | GccGet | GccPut | ClkBulkEnable | ClkBulkDisable | PmResumeAndGet | PmGetNoresume
  | PmPutSync | PhyInit | PhyExit | PhyPowerOn | PhyPowerOff | StartupRun | McuConnect _
  | McuStop | TbApprove _ | TbHold _ | FenceAndQuiesce _ | CtlStopRetained
  | RetireNamespaces | RetirePci | CtlRetire | TbRetireCm _ | TbIdleRetireCm
  | TbDomainRemove | RetirePlatform | IdleRetirePlatform | RingsFree => false
  | _ => true
  end.

Lemma neutral_weigh x c r : neutral c = true → weigh x (c, r) = 0.
Proof. by destruct x, c. Qed.
Lemma neutral_permitted L c r : neutral c = true → permitted L (c, r).
Proof. by destruct c. Qed.

(** ** The invariant of one session *)

(** The fields it is about. *)
Record sview := SView {
  w_startup : bool; w_retired : bool; w_stopping : bool; w_ready : bool; w_activated : bool;
  w_phase : x1_phase; w_v : provider_part; w_command : bool; w_connected : Z;
  w_held : bool; w_tunnel : bool; w_rings : bool; w_mcu : bool; w_released : bool;
  w_fw : bool;
}.
#[export] Instance sview_eta : Eta sview := λ v,
  SView (w_startup v) (w_retired v) (w_stopping v) (w_ready v) (w_activated v) (w_phase v)
    (w_v v) (w_command v) (w_connected v) (w_held v) (w_tunnel v) (w_rings v) (w_mcu v)
    (w_released v) (w_fw v).

(** An image that can be walked. *)
Definition fw_ok (fw : option (list Z)) : bool :=
  match fw with
  | Some (b :: d) => forallb (λ b, (0 <=? b) && (b <? 256)) (b :: d)
  | _ => false
  end.

Definition view (h : x1_host) : sview :=
  SView (h_startup_attempted h) (h_fully_retired h) (h_stopping h) (h_ready h) (h_activated h)
    (st_phase (h_state h)) (h_v h) (t_command_attempted (h_t h)) (t_connected_command (h_t h))
    (s_tunnel_held (h_s h)) (s_tunnel_stop_complete (h_s h))
    (hs_finished (s_host_stop (h_s h))) (ps_mcu_request_cleared (h_p h))
    (s_domain_retired (h_s h)) (fw_ok (h_fw h)).

Record SI (v : sview) (L : list event) : Prop := {
  si_lease : held Lease L = b2z (bool_decide (is_Some (v_gcc (w_v v))));
  si_clocks : held Clocks L = b2z (v_clocks_on (w_v v));
  si_inits : held PhyInits L = b2z (v_phy_initialized (w_v v));
  si_powers : held PhyPowers L = b2z (v_phy_on (w_v v));
  si_votes : 0 ≤ held Votes L - b2z (v_runtime_held (w_v v)) ≤ 1;
  si_votes_live : w_stopping v = false → held Votes L = b2z (v_runtime_held (w_v v));
  si_protocol : protocol L;
  si_pristine : w_startup v = false →
    w_v v = provider_zero ∧ w_activated v = false ∧ w_phase v = X1_NEW ∧ held Votes L = 0;
  si_start : w_phase v = X1_NEW → never is_start L;
  si_active : w_activated v = true → w_stopping v = false →
    is_Some (v_gcc (w_v v)) ∧ v_clocks_on (w_v v) = true ∧ v_runtime_held (w_v v) = true;
  si_ready : w_ready v = true → w_activated v = true ∧ w_stopping v = false ∧ did is_start L;
  si_command : w_command v = false → never is_connect L;
  si_connected : w_connected v ≠ 0 → did is_connect L;
  si_held : w_held v = true → did is_hold L;
  si_tunnel : w_tunnel v = true → did is_fence L;
  si_rings : w_rings v = true → did is_ctl_stop L;
  si_mcu : w_mcu v = true → did is_mcu_stop L;
  si_released : w_released v = true → domain_released L;
  si_retired : w_retired v = true →
    w_startup v = true ∧ w_stopping v = true ∧ w_v v = provider_zero ∧ held Votes L = 0;
}.

(** What a call adds to the log of a session keeps the invariant, if the call
    is permitted and changes no balance, and the flag that is set before the
    calls that are made once has been set. *)
Lemma SI_log v L e :
  (∀ x, weigh x e = 0) → permitted L e → (is_start e.1 = true → w_phase v ≠ X1_NEW) →
  (is_connect e.1 = true → w_command v = true) → SI v L → SI v (L ++ [e]).
Proof.
  intros Hw Hp Hs Hc []. constructor; try done.
  all: rewrite ?held_snoc, ?Hw, ?Z.add_0_r; try done.
  - by apply protocol_snoc.
  - intros ?. apply never_snoc; [auto|]. destruct (is_start e.1); [|done]. by destruct Hs.
  - intros Hr. destruct (si_ready0 Hr) as (?&?&?). split_and!; [done..|by apply did_mono].
  - intros ?. apply never_snoc; [auto|]. destruct (is_connect e.1); [|done].
    specialize (Hc eq_refl). congruence.
  - intros ?. apply did_mono. auto.
  - intros ?. apply did_mono. auto.
  - intros ?. apply did_mono. auto.
  - intros ?. apply did_mono. auto.
  - intros ?. apply did_mono. auto.
  - intros ?. apply released_mono. auto.
Qed.

Lemma SI_call v L e :
  (∀ x, weigh x e = 0) → permitted L e → is_start e.1 = false → is_connect e.1 = false →
  SI v L → SI v (L ++ [e]).
Proof. intros Hw Hp Hs Hc. apply SI_log; [done..|congruence|congruence]. Qed.

Lemma SI_neutral v L c r : neutral c = true → SI v L → SI v (L ++ [(c, r)]).
Proof.
  intros Hc. apply SI_call; [|by apply neutral_permitted|by destruct c..].
  intros x. by apply neutral_weigh.
Qed.

(** What happens between two points of a handler besides its own calls: calls
    that change no balance, and the connect command of a callback. *)
Definition quiet (L L' : list event) : Prop :=
  ∃ l, L' = L ++ l ∧ Forall (λ e, neutral e.1 = true ∨ is_connect e.1 = true) l.

#[export] Instance quiet_preorder : PreOrder quiet.
Proof.
  split.
  - intros L. exists []. by rewrite app_nil_r.
  - intros L1 L2 L3 (l&->&Hl) (l'&->&Hl'). exists (l ++ l'). rewrite app_assoc.
    split; [done|]. by apply Forall_app.
Qed.
Lemma quiet_snoc L L' c r : neutral c = true → quiet L L' → quiet L (L' ++ [(c, r)]).
Proof.
  intros Hc H. etrans; [exact H|]. exists [(c, r)]. split; [done|]. constructor; auto.
Qed.
Lemma quiet_held x L L' : quiet L L' → held x L' = held x L.
Proof.
  intros (l&->&Hl). rewrite held_app. assert (held x l = 0) as ->; [|lia].
  induction Hl as [|[c r] l [Hn|Hn] Hl IH]; [done| |]; unfold held in *; cbn [foldr]; rewrite IH.
  - by rewrite neutral_weigh.
  - destruct c; try done; by destruct x.
Qed.
Lemma quiet_did p L L' : quiet L L' → did p L → did p L'.
Proof. intros (l&->&_) Hd. apply did_app. by left. Qed.
Lemma quiet_released L L' : quiet L L' → domain_released L → domain_released L'.
Proof. intros (l&->&_) (r&Hr&?). exists r. split; [|done]. apply elem_of_app. by left. Qed.
Lemma quiet_powered L L' : quiet L L' → powered L → powered L'.
Proof. intros Hq. unfold powered. by rewrite !(quiet_held _ _ _ Hq). Qed.
Lemma quiet_unpowered L L' : quiet L L' → unpowered L → unpowered L'.
Proof.
  intros Hq (?&?&?). unfold unpowered. rewrite !(quiet_held _ _ _ Hq).
  split; [by eapply quiet_did|]. split; [by eapply quiet_did|done].
Qed.

(** ** The invariant of the driver

    [pins] lists the sessions that running work has pinned, one entry per
    reference; the port and the work in flight account for the others. *)

Fixpoint occ (g : Z) (l : list Z) : Z :=
  match l with [] => 0 | x :: l => b2z (x =? g) + occ g l end.

Lemma occ_app g l l' : occ g (l ++ l') = occ g l + occ g l'.
Proof. induction l as [|x l IH]; simpl; [done|]. rewrite IH. lia. Qed.
Lemma occ_nonneg g l : 0 ≤ occ g l.
Proof. induction l as [|x l IH]; simpl; [done|]. destruct (x =? g); simpl; lia. Qed.
Lemma occ_elem g l : g ∈ l → 1 ≤ occ g l.
Proof.
  induction 1 as [x l|x y l ? IH]; simpl.
  - rewrite Z.eqb_refl. pose proof (occ_nonneg x l). simpl. lia.
  - destruct (y =? x); simpl; lia.
Qed.
Lemma occ_delete g l i x : l !! i = Some x → occ g (delete i l) = occ g l - b2z (x =? g).
Proof.
  revert i. induction l as [|y l IH]; intros [|i] Hi; simplify_eq/=; [lia|].
  change (delete (S i) (y :: l)) with (y :: delete i l). simpl. rewrite (IH i Hi). lia.
Qed.

Definition own (g : Z) (l : list (Z * event)) : list event :=
  snd <$> filter (λ e, e.1 = g) l.

Lemma own_snoc g l e : own g (l ++ [(g, e)]) = own g l ++ [e].
Proof. unfold own. rewrite filter_app, fmap_app, (filter_cons_True _ (g, e)) by done. done. Qed.
Lemma own_other g g' l e : g' ≠ g → own g' (l ++ [(g, e)]) = own g' l.
Proof.
  intros Hg. unfold own. rewrite filter_app, fmap_app, (filter_cons_False _ (g, e)) by (simpl; congruence).
  by rewrite app_nil_r.
Qed.

Lemma own_app g l l' : own g (l ++ l') = own g l ++ own g l'.
Proof. unfold own. by rewrite filter_app, fmap_app. Qed.
Lemma own_tagged g l : own g (pair g <$> l) = l.
Proof.
  induction l as [|e l IH]; [done|]. change (pair g <$> e :: l) with ((g, e) :: (pair g <$> l)).
  unfold own in *. rewrite filter_cons_True by done.
  change (snd <$> ?x :: ?m) with (x.2 :: (snd <$> m)). by rewrite IH.
Qed.
Lemma own_untagged g g' l : g' ≠ g → own g' (pair g <$> l) = [].
Proof.
  intros Hg. induction l as [|e l IH]; [done|].
  change (pair g <$> e :: l) with ((g, e) :: (pair g <$> l)).
  unfold own in *. by rewrite filter_cons_False by (simpl; congruence).
Qed.

Definition live (h : x1_host) : Prop :=
  h_startup_attempted h = true ∧ h_fully_retired h = false.

Section invariant.
Context {W : Type}.

Definition flying (y : hsys W) : list Z := fst <$> y_flight y.
Definition published (y : hsys W) (g : Z) : bool := bool_decide (q_session (y_port y) = Some g).
Definition refs (pins : list Z) (y : hsys W) (g : Z) : Z :=
  b2z (published y g) + occ g (flying y) + occ g pins.

(** Work runs for the published session, for one that has retired, or after
    the driver was unbound; never for a session not yet published. *)
Definition session_usable (g : Z) (retired : bool) (y : hsys W) : Prop :=
  q_session (y_port y) = Some g ∨ retired = true ∨ q_session (y_port y) = None.

Record GR (pins : list Z) (y : hsys W) : Prop := {
  gr_none : ∀ g, y_sessions y !! g = None →
    protocol (own g (y_log y)) ∧ ∀ x, held x (own g (y_log y)) = 0;
  gr_gen : ∀ g h, y_sessions y !! g = Some h → h_generation h = g;
  gr_ref : ∀ g h, y_sessions y !! g = Some h →
    refs pins y g ≤ h_ref h ∧ (is_Some (q_session (y_port y)) → h_ref h = refs pins y g) ∧
    (h_ref h = 0 → live h);
  gr_live : ∀ g h, y_sessions y !! g = Some h → live h →
    q_session (y_port y) = Some g ∨ q_session (y_port y) = None;
  gr_pin : ∀ g, g ∈ pins → is_Some (y_sessions y !! g);
  gr_fly : ∀ g, g ∈ flying y → ∃ h, y_sessions y !! g = Some h ∧ session_usable g (h_fully_retired h) y;
  gr_cur : ∀ g, q_session (y_port y) = Some g → is_Some (y_sessions y !! g);
  gr_fresh : ∀ g h, y_sessions y !! g = Some h → 1 ≤ g ≤ q_next_generation (y_port y);
  gr_next : 0 ≤ q_next_generation (y_port y) ≤ U64_MAX;
  gr_unborn : ∀ g, q_next_generation (y_port y) < g →
    Forall (λ e, e.1 = SessionAlloc) (own g (y_log y));
}.

Definition GI (pins : list Z) (y : hsys W) : Prop :=
  (∀ g h, y_sessions y !! g = Some h → SI (view h) (own g (y_log y))) ∧ GR pins y.

(** A handler runs for a session that it has pinned or that is published. *)
Definition pinned (pins : list Z) (g : Z) (v : sview) (y : hsys W) : Prop :=
  (g ∈ pins ∨ q_session (y_port y) = Some g) ∧ session_usable g (w_retired v) y.

(** A handler's view: its session [g] has a record that looks like [v], and
    its calls so far are [L]. *)
Definition B (pins : list Z) (g : Z) (v : sview) (L : list event) (y : hsys W) : Prop :=
  GI pins y ∧ pinned pins g v y ∧ (∃ h, y_sessions y !! g = Some h ∧ view h = v) ∧
  own g (y_log y) = L.

Lemma B_si pins g v L y : B pins g v L y → SI v L.
Proof. intros ([HS _]&_&(h&Hh&<-)&<-). by apply HS. Qed.

(** The record and the calls of the pinned session change together. *)
Definition upd (g : Z) (h : x1_host) (e : option event) (w : W) (y : hsys W) : hsys W :=
  Sys (y_port y) (<[g := h]> (y_sessions y)) (y_flight y)
    (y_log y ++ match e with Some e => [(g, e)] | None => [] end) w.

Definition snoc (L : list event) (e : option event) : list event :=
  L ++ match e with Some e => [e] | None => [] end.

Lemma own_upd g h e w y : own g (y_log (upd g h e w y)) = snoc (own g (y_log y)) e.
Proof. unfold upd, snoc. simpl. destruct e; [apply own_snoc|by rewrite !app_nil_r]. Qed.
Lemma own_upd_ne g g' h e w y : g' ≠ g → own g' (y_log (upd g h e w y)) = own g' (y_log y).
Proof. unfold upd. simpl. destruct e; [apply own_other|by rewrite app_nil_r]. Qed.

Lemma pinned_lookup pins g v y : GR pins y → pinned pins g v y → is_Some (y_sessions y !! g).
Proof. intros HR [[Hin|Hq] _]; [by apply (gr_pin _ _ HR)|by apply (gr_cur _ _ HR)]. Qed.

(** In between, the record and the calls of the session need not agree. *)
Definition Own (pins : list Z) (g : Z) (h : x1_host) (L : list event) (y : hsys W) : Prop :=
  ∃ y0 h0, GI pins y0 ∧ pinned pins g (view h0) y0 ∧ y_sessions y0 !! g = Some h0 ∧
    y_port y = y_port y0 ∧ y_flight y = y_flight y0 ∧ y_sessions y = <[g := h]> (y_sessions y0) ∧
    h_ref h = h_ref h0 ∧ h_generation h = h_generation h0 ∧
    (h_fully_retired h0 = true → h_fully_retired h = true) ∧
    (∀ g', g' ≠ g → own g' (y_log y) = own g' (y_log y0)) ∧ own g (y_log y) = L.

Lemma B_Own pins g v L y : B pins g v L y → ∃ h, view h = v ∧ Own pins g h L y.
Proof.
  intros (HG&Hp&(h&Hh&Hv)&HL). subst v. exists h. split; [done|]. exists y, h. by rewrite insert_id.
Qed.

Lemma Own_upd pins g h h' L e w y :
  Own pins g h L y → h_ref h' = h_ref h → h_generation h' = h_generation h →
  (h_fully_retired h = true → h_fully_retired h' = true) →
  Own pins g h' (snoc L e) (upd g h' e w y).
Proof.
  intros (y0&h0&HG&Hp&Hh0&E1&E2&E3&E4&E5&E6&E7&<-) R1 R2 R3. exists y0, h0.
  rewrite own_upd. split_and!; try done; try congruence; auto.
  - cbn. by rewrite E3, insert_insert_eq.
  - intros g' Hg. rewrite own_upd_ne by done. auto.
Qed.

Lemma Own_GR pins g h L y : Own pins g h L y → GR pins y.
Proof.
  intros (y0&h0&[_ HR]&Hp&Hh0&E1&E2&E3&Href&Hgen&Hfr&Ho&HL).
  assert (∀ g', refs pins y g' = refs pins y0 g') as Hrefs
    by (intros g'; unfold refs, published, flying; by rewrite E1, E2).
  assert (flying y = flying y0) as Hfly by (unfold flying; by rewrite E2).
  destruct Hp as [Hp Hc].
  assert (1 ≤ h_ref h0) as Hpos.
  { destruct (gr_ref _ _ HR _ _ Hh0) as (R1&_). revert R1. unfold refs, published.
    pose proof (occ_nonneg g (flying y0)). pose proof (occ_nonneg g pins). destruct Hp as [Hin|Hq].
    - pose proof (occ_elem g pins Hin). destruct (bool_decide _); cbn; lia.
    - rewrite bool_decide_eq_true_2 by done. cbn. lia. }
  constructor; rewrite ?E1.
  - intros g' Hg'. rewrite E3 in Hg'. apply lookup_insert_None in Hg' as [Hg' Hne].
    rewrite Ho by done. by apply HR.
  - intros g' k Hk. rewrite E3 in Hk.
    apply lookup_insert_Some in Hk as [[<- <-]|[Hne Hk]]; [rewrite Hgen|]; by apply (gr_gen _ _ HR).
  - intros g' k Hk. rewrite E3 in Hk. rewrite Hrefs.
    apply lookup_insert_Some in Hk as [[<- <-]|[Hne Hk]]; [|by apply HR].
    destruct (gr_ref _ _ HR _ _ Hh0) as (H1&H2&_). rewrite Href. split_and!; [done..|lia].
  - intros g' k Hk Hl. rewrite E3 in Hk.
    apply lookup_insert_Some in Hk as [[<- <-]|[Hne Hk]]; [|by apply (gr_live _ _ HR g' k)].
    destruct Hc as [?|[Hr|?]]; [by left| |by right].
    destruct Hl as [_ Hl]. rewrite Hfr in Hl by done. done.
  - intros g' Hg'. rewrite E3. apply lookup_insert_is_Some.
    destruct (decide (g = g')); [by left|right]. split; [done|]. by apply (gr_pin _ _ HR).
  - intros g' Hg'. rewrite Hfly in Hg'. destruct (gr_fly _ _ HR g' Hg') as (k&Hk&Hc'). rewrite E3.
    unfold session_usable in *. rewrite E1. destruct (decide (g' = g)) as [->|Hne].
    + simplify_eq. exists h. rewrite lookup_insert_eq. split; [done|].
      destruct Hc' as [?|[?|?]]; auto.
    + exists k. by rewrite lookup_insert_ne.
  - intros g' Hg'. rewrite E3. apply lookup_insert_is_Some.
    destruct (decide (g = g')); [by left|right]. split; [done|]. by apply (gr_cur _ _ HR).
  - intros g' k Hk. rewrite E3 in Hk.
    apply lookup_insert_Some in Hk as [[<- <-]|[Hne Hk]]; [by apply (gr_fresh _ _ HR g h0)|].
    by apply (gr_fresh _ _ HR g' k).
  - by apply HR.
  - intros g' Hg'. destruct (decide (g' = g)) as [->|Hne].
    + pose proof (gr_fresh _ _ HR _ _ Hh0). lia.
    + rewrite Ho by done. by apply HR.
Qed.

Lemma Own_B pins g h L y : Own pins g h L y → SI (view h) L → B pins g (view h) L y.
Proof.
  intros HO HS. pose proof (Own_GR _ _ _ _ _ HO) as HR.
  destruct HO as (y0&h0&[HI _]&Hp&Hh0&E1&E2&E3&Href&Hgen&Hfr&Ho&HL). split_and!.
  - split; [|done]. intros g' k Hk. rewrite E3 in Hk.
    apply lookup_insert_Some in Hk as [[<- <-]|[Hne Hk]]; [by rewrite HL|].
    rewrite Ho by done. by apply HI.
  - unfold pinned, session_usable in *. rewrite E1. destruct Hp as [Hp [?|[Hr|?]]]; auto.
  - exists h. by rewrite E3, lookup_insert_eq.
  - done.
Qed.

Lemma B_upd pins g h h' v L e w y :
  B pins g v L y → y_sessions y !! g = Some h →
  h_ref h' = h_ref h → h_generation h' = h_generation h →
  (w_retired v = true → h_fully_retired h' = true) →
  SI (view h') (snoc L e) → B pins g (view h') (snoc L e) (upd g h' e w y).
Proof.
  intros HB Hh Href Hgen Hfr HS. apply Own_B; [|done].
  pose proof HB as (HG&Hp&(h0&Hh0&Hv)&HL). assert (h0 = h) as -> by congruence. subst v.
  apply (Own_upd _ _ h); try done. exists y, h. by rewrite insert_id.
Qed.

(** Nothing but the outside world changed. *)
Lemma B_w pins g v L w y : B pins g v L y → B pins g v L (y <| y_w := w |>).
Proof. intros ([HI []]&?&?&?). split_and!; [split; [done|by constructor]|done..]. Qed.

(** Port fields that no session depends on. *)
Lemma B_port pins g v L f y :
  B pins g v L y → q_session (f (y_port y)) = q_session (y_port y) →
  q_next_generation (f (y_port y)) = q_next_generation (y_port y) →
  B pins g v L (y <| y_port := f (y_port y) |>).
Proof.
  intros ([HI HR]&Hin&Hh&HL) E1 E2.
  split_and!; [split; [done|]|unfold pinned, session_usable in *; cbn; by rewrite E1|done..].
  destruct HR. constructor; unfold refs, published, flying, session_usable in *; simpl; rewrite ?E1, ?E2; done.
Qed.
End invariant.

(** ** Walking a handler *)

Section rules.
Context {W : Type} `{Mmio Z W} `{HostEnv W}.
Implicit Types (pins : list Z) (g : Z) (v : sview) (L : list event) (y : hsys W).

Lemma B_in pins g v L y : B pins g v L y → GI pins y.
Proof. by intros []. Qed.

Lemma wp_hget pins g v L (Q : x1_host → hsys W → Prop) E y :
  B pins g v L y → (∀ h, view h = v → Q h y) → wp (hget g) Q E y.
Proof.
  intros (_&_&(h&Hh&Hv)&_) HQ. unfold wp, hget. rewrite Hh. by apply HQ.
Qed.

Lemma wp_hset_dep pins g v L f (Q : unit → hsys W → Prop) E y :
  B pins g v L y →
  (∀ h, h_ref (f h) = h_ref h ∧ h_generation (f h) = h_generation h) →
  (∀ h, view h = v → (w_retired v = true → h_fully_retired (f h) = true) ∧ SI (view (f h)) L) →
  (∀ h y', view h = v → B pins g (view (f h)) L y' → Q tt y') → wp (hset g f) Q E y.
Proof.
  intros HB Hr HS HQ. pose proof HB as (_&_&(h&Hh&Hv)&_).
  unfold wp, hset. rewrite Hh. apply (HQ h); [done|]. destruct (Hr h), (HS h Hv).
  assert (y <| y_sessions := <[g:=f h]> (y_sessions y) |> = upd g (f h) None (y_w y) y) as ->.
  { unfold upd. by rewrite app_nil_r. }
  replace L with (snoc L None) by (unfold snoc; by rewrite app_nil_r).
  eapply B_upd; try done. unfold snoc. by rewrite app_nil_r.
Qed.

Lemma wp_hset pins g v v' L f (Q : unit → hsys W → Prop) E y :
  B pins g v L y → (∀ h, view h = v → view (f h) = v') →
  (∀ h, h_ref (f h) = h_ref h ∧ h_generation (f h) = h_generation h) →
  (w_retired v = true → w_retired v' = true) → SI v' L →
  (∀ y', B pins g v' L y' → Q tt y') → wp (hset g f) Q E y.
Proof.
  intros HB Hf Hr Hret HS HQ. eapply wp_hset_dep; [done..| |].
  - intros h Hv. split; [|by rewrite (Hf h Hv)]. intros Hw.
    change (w_retired (view (f h)) = true). rewrite (Hf h Hv). auto.
  - intros h y' Hv HB'. apply HQ. by rewrite (Hf h Hv) in HB'.
Qed.

Lemma wp_hset0 pins g v L f (Q : unit → hsys W → Prop) E y :
  B pins g v L y → (∀ h, view (f h) = view h) →
  (∀ h, h_ref (f h) = h_ref h ∧ h_generation (f h) = h_generation h) →
  (∀ y', B pins g v L y' → Q tt y') → wp (hset g f) Q E y.
Proof.
  intros HB Hf Hr HQ. pose proof (B_si _ _ _ _ _ HB).
  eapply (wp_hset _ _ v v); [done|intros h Hv; by rewrite Hf|done..].
Qed.

Lemma wp_note pins g v L c r (Q : unit → hsys W → Prop) E y :
  B pins g v L y → SI v (L ++ [(c, r)]) →
  (∀ y', B pins g v (L ++ [(c, r)]) y' → Q tt y') → wp (note g c r) Q E y.
Proof.
  intros HB HS HQ. apply HQ. pose proof HB as (_&_&(h&Hh&Hv)&_). subst v.
  assert (y <| y_log := y_log y ++ [(g, (c, r))] |> = upd g h (Some (c, r)) (y_w y) y) as ->.
  { unfold upd. by rewrite insert_id. }
  by eapply (B_upd _ _ h h _ _ (Some (c, r))).
Qed.

(** A call whose effect on the invariant is known. *)
Lemma wp_call2' pins g v L c (Q : Z * Z → hsys W → Prop) E y :
  B pins g v L y → (∀ r, SI v (L ++ [(c, r)])) →
  (∀ r x y', B pins g v (L ++ [(c, r)]) y' → Q (r, x) y') → wp (call2 g c) Q E y.
Proof.
  intros HB HS HQ. unfold wp, call2. destruct (e_call c (y_w y)) as [[r x] w]. apply HQ.
  pose proof HB as (_&_&(h&Hh&Hv)&_). subst v.
  assert (y <| y_w := w |> <| y_log := y_log y ++ [(g, (c, r))] |>
          = upd g h (Some (c, r)) w y) as ->.
  { unfold upd. by rewrite insert_id. }
  eapply (B_upd _ _ h h _ _ (Some (c, r))); try done. apply HS.
Qed.

Lemma wp_call2 pins g v L c (Q : Z * Z → hsys W → Prop) E y :
  B pins g v L y → neutral c = true →
  (∀ r x y', B pins g v (L ++ [(c, r)]) y' → Q (r, x) y') → wp (call2 g c) Q E y.
Proof.
  intros HB Hc. apply wp_call2'; [done|]. intros r. apply SI_neutral; [done|].
  by eapply B_si.
Qed.

Lemma wp_call pins g v L c (Q : Z → hsys W → Prop) E y :
  B pins g v L y → neutral c = true →
  (∀ r y', B pins g v (L ++ [(c, r)]) y' → Q r y') → wp (call g c) Q E y.
Proof.
  intros HB Hc HQ. apply wp_bind. eapply wp_call2; [done..|]. intros r x y' HB'. by apply HQ.
Qed.

Lemma wp_call' pins g v L c (Q : Z → hsys W → Prop) E y :
  B pins g v L y → (∀ r, SI v (L ++ [(c, r)])) →
  (∀ r y', B pins g v (L ++ [(c, r)]) y' → Q r y') → wp (call g c) Q E y.
Proof.
  intros HB Hc HQ. apply wp_bind. eapply wp_call2'; [done..|]. intros r x y' HB'. by apply HQ.
Qed.

Lemma wp_call_ pins g v L c (Q : unit → hsys W → Prop) E y :
  B pins g v L y → neutral c = true →
  (∀ r y', B pins g v (L ++ [(c, r)]) y' → Q tt y') → wp (call_ g c) Q E y.
Proof.
  intros HB Hc HQ. apply wp_bind. eapply wp_call2; [done..|]. intros r x y' HB'. by eapply HQ.
Qed.

Lemma wp_call_' pins g v L c (Q : unit → hsys W → Prop) E y :
  B pins g v L y → (∀ r, SI v (L ++ [(c, r)])) →
  (∀ r y', B pins g v (L ++ [(c, r)]) y' → Q tt y') → wp (call_ g c) Q E y.
Proof.
  intros HB Hc HQ. apply wp_bind. eapply wp_call2'; [done..|]. intros r x y' HB'. by eapply HQ.
Qed.

Lemma wp_must pins g v L c (Q : unit → hsys W → Prop) (E : Z → hsys W → Prop) y :
  B pins g v L y → neutral c = true →
  (∀ y', B pins g v (L ++ [(c, 0)]) y' → Q tt y') →
  (∀ r y', r ≠ 0 → B pins g v (L ++ [(c, r)]) y' → E r y') → wp (must g c) Q E y.
Proof.
  intros HB Hc HQ HE. apply wp_bind. eapply wp_call; [done..|]. intros r y' HB'.
  apply wp_ok_or_fail; [intros ->; by apply HQ|intros Hr; by apply HE].
Qed.

Lemma wp_query pins g v L c (Q : Z → hsys W → Prop) E y :
  B pins g v L y → (∀ r y', B pins g v L y' → Q r y') → wp (read_out c) Q E y.
Proof.
  intros HB HQ. unfold wp, read_out. destruct (e_call c (y_w y)) as [[r x] w]. apply HQ. by apply B_w.
Qed.

Lemma wp_jiffies pins g v L (Q : Z → hsys W → Prop) E y :
  B pins g v L y → (∀ r y', B pins g v L y' → Q r y') → wp jiffies Q E y.
Proof.
  intros HB HQ. apply wp_bind. eapply wp_query; [done|]. intros r y' HB'. apply wp_ret. by apply HQ.
Qed.

Lemma wp_router {A} pins g v L (m : M W A) (Q : A → hsys W → Prop) (E : Z → hsys W → Prop) y :
  B pins g v L y → safe m → (∀ a y', B pins g v L y' → Q a y') →
  (∀ e y', B pins g v L y' → E e y') → wp (on_router m) Q E y.
Proof.
  intros HB Hm HQ HE. unfold wp, on_router. specialize (Hm (y_w y)).
  destruct (m (y_w y)) as [[a|e|] w]; [apply HQ|apply HE|done]; by apply B_w.
Qed.

(** Register accesses do not fail. *)
Lemma wp_readl pins g v L a (Q : Z → hsys W → Prop) E y :
  B pins g v L y → (∀ x y', B pins g v L y' → Q x y') → wp (on_router (readl a)) Q E y.
Proof.
  intros HB HQ. unfold wp, on_router, readl. destruct (dev_read a (y_w y)) as [x w].
  apply HQ. by apply B_w.
Qed.
Lemma wp_writel pins g v L x a (Q : unit → hsys W → Prop) E y :
  B pins g v L y → (∀ y', B pins g v L y' → Q tt y') → wp (on_router (writel x a)) Q E y.
Proof. intros HB HQ. unfold wp, on_router, writel. apply HQ. by apply B_w. Qed.

Lemma wp_pset pins g v L f (Q : unit → hsys W → Prop) E y :
  B pins g v L y → (∀ p, q_session (f p) = q_session p) →
  (∀ p, q_next_generation (f p) = q_next_generation p) →
  (∀ y', B pins g v L y' → Q tt y') → wp (pset f) Q E y.
Proof. intros HB H1 H2 HQ. apply HQ. by apply B_port. Qed.

Lemma wp_pget (Q : x1_port → hsys W → Prop) E y : (∀ p, Q p y) → wp pget Q E y.
Proof. intros HQ. apply HQ. Qed.

(** A call that fills in a struct outside the view. *)
Lemma wp_struct pins g v L c {X} (get_x : x1_host → X) set_x f (Q : Z → hsys W → Prop) E y :
  B pins g v L y → (∀ r, SI v (L ++ [(c, r)])) → (∀ x h, view (set_x x h) = view h) →
  (∀ x h, h_ref (set_x x h) = h_ref h ∧ h_generation (set_x x h) = h_generation h) →
  (∀ r y', B pins g v (L ++ [(c, r)]) y' → Q r y') →
  wp (struct_call g c get_x set_x f) Q E y.
Proof.
  intros HB Hc Hs Hr HQ. unfold struct_call. apply wp_bind.
  eapply wp_hget; [done|]. intros h Hv. apply wp_bind.
  unfold wp at 1. destruct (f (get_x h) (y_w y)) as [[r x] w].
  apply wp_bind. eapply wp_hset0; [by apply B_w|apply Hs|apply Hr|]. intros y1 HB1.
  apply wp_bind. eapply wp_note; [done|apply Hc|]. intros y2 HB2. apply wp_ret. by apply HQ.
Qed.

(** A call with callbacks: [I] is what the callback may have added. *)
Lemma wp_run_helper {X} pins g v (I : list event → Prop) (get_x : x1_host → X) set_x cb t
    (E : Z → hsys W → Prop) :
  (∀ x h, view (set_x x h) = view h) →
  (∀ x h, h_ref (set_x x h) = h_ref h ∧ h_generation (set_x x h) = h_generation h) →
  (∀ L y, B pins g v L y → I L → wp cb (λ _ y', ∃ L', B pins g v L' y' ∧ I L') E y) →
  ∀ L y, B pins g v L y → I L →
  wp (run_helper g get_x set_x cb t) (λ _ y', ∃ L', B pins g v L' y' ∧ I L') E y.
Proof.
  intros Hs Hr Hcb. induction t as [f|f k IH]; intros L y HB HI; cbn [run_helper].
  - apply wp_bind. eapply wp_hget; [done|]. intros h Hv. apply wp_bind.
    unfold wp at 1. destruct (f (get_x h) (y_w y)) as [[r x] w].
    apply wp_bind. eapply wp_hset0; [by apply B_w|apply Hs|apply Hr|]. intros y1 HB1.
    apply wp_ret. eauto.
  - apply wp_bind. eapply wp_hget; [done|]. intros h Hv. apply wp_bind.
    unfold wp at 1. destruct (f (get_x h) (y_w y)) as [x w].
    apply wp_bind. eapply wp_hset0; [by apply B_w|apply Hs|apply Hr|]. intros y1 HB1.
    apply wp_bind. eapply wp_mono; [by eapply Hcb| |done].
    intros r y2 (L2&HB2&HI2). by eapply IH.
Qed.

Lemma wp_helper {X} pins g v L (I : list event → Prop) c (get_x : x1_host → X) set_x cb t
    (Q : Z → hsys W → Prop) E y :
  B pins g v L y → I L → (∀ x h, view (set_x x h) = view h) →
  (∀ x h, h_ref (set_x x h) = h_ref h ∧ h_generation (set_x x h) = h_generation h) →
  (∀ L y, B pins g v L y → I L → wp cb (λ _ y', ∃ L', B pins g v L' y' ∧ I L') E y) →
  (∀ L' r, SI v L' → I L' → SI v (L' ++ [(c, r)])) →
  (∀ L' r y', B pins g v (L' ++ [(c, r)]) y' → I L' → Q r y') →
  wp (helper_call g c get_x set_x cb t) Q E y.
Proof.
  intros HB HI Hs Hr Hcb Hc HQ. unfold helper_call. apply wp_bind. unfold wp at 1.
  apply wp_bind. eapply wp_mono; [by eapply wp_run_helper| |done].
  intros r y1 (L1&HB1&HI1). pose proof (B_si _ _ _ _ _ HB1).
  apply wp_bind. eapply wp_note; [done|by apply Hc|]. intros y2 HB2. apply wp_ret. by eapply HQ.
Qed.
End rules.

(** One step of the walk: sequencing, branching, and the primitives that leave
    the view alone.  The hypothesis that describes the state is replaced. *)
Ltac wnext H := let y := fresh "st" in clear H; intros y H.
Ltac wstep :=
  lazymatch goal with
  | |- wp (bind _ _) _ _ _ => apply wp_bind
  | |- wp (ret _) _ _ _ => apply wp_ret
  | |- wp (fail _) _ _ _ => apply wp_fail
  | |- wp (attempt _) _ _ _ => apply wp_attempt
  | |- wp (ok_or_fail _) _ _ _ => apply wp_ok_or_fail; intros ?
  | |- wp pget _ _ _ => apply wp_pget; intros ?
  | |- wp (tset _ _) _ _ _ => unfold tset at 1
  | |- wp (rset _ _) _ _ _ => unfold rset at 1
  | |- wp (psset _ _) _ _ _ => unfold psset at 1
  | |- wp (sset _ _) _ _ _ => unfold sset at 1
  | |- wp (bset _ _) _ _ _ => unfold bset at 1
  | |- wp (eset _ _) _ _ _ => unfold eset at 1
  | |- wp (pcset _ _) _ _ _ => unfold pcset at 1
  | |- wp (stage_ _ _) _ _ _ => unfold stage_ at 1
  | |- wp (idle_stage _ _) _ _ _ => unfold idle_stage at 1
  | |- wp (pulled_stage _ _) _ _ _ => unfold pulled_stage at 1
  | |- wp (if ?b then _ else _) _ _ _ => destruct b eqn:?
  | |- wp (match ?x with _ => _ end) _ _ _ => destruct x eqn:?
  | H : B _ ?g _ _ ?y |- wp (hget ?g) _ _ ?y =>
      eapply (wp_hget _ _ _ _ _ _ _ H); let h := fresh "h" in let Hv := fresh "Hv" in
      intros h Hv
  | H : B _ ?g _ _ ?y |- wp (hset ?g _) _ _ ?y =>
      eapply (wp_hset0 _ _ _ _ _ _ _ _ H);
        [intros; reflexivity|intros; split; reflexivity|wnext H]
  | H : B _ ?g _ _ ?y |- wp (call2 ?g _) _ _ ?y =>
      eapply (wp_call2 _ _ _ _ _ _ _ _ H); [reflexivity|intros ? ?; wnext H]
  | H : B _ ?g _ _ ?y |- wp (call ?g _) _ _ ?y =>
      eapply (wp_call _ _ _ _ _ _ _ _ H); [reflexivity|intros ?; wnext H]
  | H : B _ ?g _ _ ?y |- wp (call_ ?g _) _ _ ?y =>
      eapply (wp_call_ _ _ _ _ _ _ _ _ H); [reflexivity|intros ?; wnext H]
  | H : B _ ?g _ _ ?y |- wp (must ?g _) _ _ ?y =>
      eapply (wp_must _ _ _ _ _ _ _ _ H);
        [reflexivity|wnext H|let r := fresh "r" in intros r; let y' := fresh "st" in
         let Hr := fresh "Hr" in clear H; intros y' Hr H]
  | H : B _ _ _ _ ?y |- wp (read_out _) _ _ ?y =>
      eapply (wp_query _ _ _ _ _ _ _ _ H); intros ?; wnext H
  | H : B _ _ _ _ ?y |- wp jiffies _ _ ?y =>
      eapply (wp_jiffies _ _ _ _ _ _ _ H); intros ?; wnext H
  | H : B _ _ _ _ ?y |- wp (on_router (readl _)) _ _ ?y =>
      eapply (wp_readl _ _ _ _ _ _ _ _ H); intros ?; wnext H
  | H : B _ _ _ _ ?y |- wp (on_router (writel _ _)) _ _ ?y =>
      eapply (wp_writel _ _ _ _ _ _ _ _ _ H); wnext H
  | H : B _ _ _ _ ?y |- wp (pset _) _ _ ?y =>
      eapply (wp_pset _ _ _ _ _ _ _ _ H); [intros; reflexivity|intros; reflexivity|wnext H]
  end; cbv beta iota zeta.
Ltac wsteps := repeat wstep.
