(* ===== verification/HostInv.v ===== *)
(** * The production host driver: every handler keeps the invariant

    The libraries do not fault; taking and putting back a provider moves a
    flag and a balance together; callbacks, references and work in flight; the
    handlers one by one. *)

From S2P Require Import Prelude Wp Fw Drom Mcu Startup Typec HostData HostStart HostStop HostStores.
From S2P Require Import HostLogic.

(** ** The libraries *)

Section libraries.
Context {D : Type} `{Mmio Z D}.

Lemma readl_safe a : safe (S:=D) (readl a).
Proof. intros d. unfold readl. by destruct (dev_read a d). Qed.
Lemma writel_safe x a : safe (S:=D) (writel x a).
Proof. done. Qed.
Hint Resolve readl_safe writel_safe : km.

Lemma poll_safe n a cond : safe (S:=D) (readl_poll_timeout n a cond).
Proof. induction n as [|n IH]; simpl; safe_auto. Qed.
Hint Resolve poll_safe : km.

Lemma update_safe off m x : safe (S:=D) (qcom_usb4_mcu_update off m x).
Proof. unfold qcom_usb4_mcu_update. safe_auto. Qed.
Hint Resolve update_safe : km.

Lemma mcu_stop_safe m : safe (S:=D) (qcom_usb4_mcu_stop m).
Proof. unfold qcom_usb4_mcu_stop. safe_auto. Qed.
Hint Resolve mcu_stop_safe : km.

Lemma mcu_command_safe n m c t : safe (S:=D) (qcom_usb4_mcu_command n m c t).
Proof. unfold qcom_usb4_mcu_command. safe_auto. Qed.

Lemma mcu_start_safe n m x d : (qcom_usb4_mcu_start n (Some m) (Some x) d).1.1 ≠ Fault.
Proof.
  unfold qcom_usb4_mcu_start. destruct (base m =? 0); [done|].
  assert (safe (S:=D) (mcu_start_run n m)) as Hs.
  { unfold mcu_start_run. safe_auto. apply safe_on_error. unfold mcu_await_shared. safe_auto. }
  specialize (Hs d). destruct (mcu_start_run n m d) as [[a|e|] d']; done.
Qed.

Lemma upload_safe m data :
  Forall is_byte data → data ≠ [] →
  safe (S:=D) (qcom_usb4_mcu_upload (Some m) (Some data) (Z.of_nat (length data))).
Proof.
  intros Hb Hne d. unfold qcom_usb4_mcu_upload. destruct (base m =? 0); [done|].
  unfold bind at 1, lift. destruct (qcom_usb4_fw_validate _ _ _) as [[]|e|] eqn:E; [|done|].
  2: { by apply validate_never_faults in E; [|lia]. }
  apply fw_validate_iff_aux in E as (rs&->&Hrs); [|done..].
  revert d. change (safe (S:=D) (let! control := readl (control_offset m) in
    if tst control QCOM_USB4_MCU_RUN then fail (-EBUSY) else
    do! writel 0 (control_offset m) in
    do! qcom_usb4_fw_upload (Some (enc_image rs)) (Z.of_nat (length (enc_image rs))) (ram_size m)
          (Some (qcom_usb4_mcu_write_word m)) in
    do! readl (control_offset m) in ret tt)).
  safe_auto. intros d. rewrite upload_accepted with (rs := rs) by (done || by intros ->).
  apply safe_for_each. intros x _. apply safe_try.
Qed.
End libraries.

Lemma usb4_command_total `{TypecAbi} data o : usb4_command data o ≠ Fault.
Proof.
  unfold usb4_command, qcom_usb4_typec_usb4_command. destruct data as [data|]; [|done].
  destruct (_ !=? _); [done|]. destruct (active_link_training data); [done|].
  unfold bind, lift. destruct (pan_orientation o) as [a|e|] eqn:E1; [|done|by destruct o].
  unfold eudo_speed. destruct (_ =? _); [|destruct (_ =? _); [|done]];
    unfold qcom_usb4_typec_connect_command; repeat (case_match; try done).
Qed.

Lemma fw_ok_bytes fw : fw_ok fw = true → ∃ d, fw = Some d ∧ Forall is_byte d ∧ d ≠ [].
Proof.
  unfold fw_ok. destruct fw as [[|b d]|]; [done| |done]. intros Hb. exists (b :: d).
  split_and!; [done| |done].
  apply Forall_forall. intros x Hx. rewrite forallb_forall in Hb.
  specialize (Hb x ltac:(by apply list_elem_of_In)). unfold is_byte. lia.
Qed.

(** ** Taking and putting back a provider *)

Lemma SI_provider v p L e :
  SI v L → permitted L e → is_start e.1 = false → is_connect e.1 = false →
  held Lease L + weigh Lease e = b2z (bool_decide (is_Some (v_gcc p))) →
  held Clocks L + weigh Clocks e = b2z (v_clocks_on p) →
  held PhyInits L + weigh PhyInits e = b2z (v_phy_initialized p) →
  held PhyPowers L + weigh PhyPowers e = b2z (v_phy_on p) →
  0 ≤ held Votes L + weigh Votes e - b2z (v_runtime_held p) ≤ 1 →
  (w_stopping v = false → held Votes L + weigh Votes e = b2z (v_runtime_held p)) →
  w_startup v = true → w_retired v = false →
  (w_activated v = true → w_stopping v = false →
     is_Some (v_gcc p) ∧ v_clocks_on p = true ∧ v_runtime_held p = true) →
  SI (v <| w_v := p |>) (L ++ [e]).
Proof.
  intros HS Hp Hs Hc H1 H2 H3 H4 H5 H6 H7 H8 H9.
  constructor; cbn; rewrite ?held_snoc; auto; try (by apply HS); try congruence.
  - apply protocol_snoc; [apply HS|done].
  - intros Hph. apply never_snoc; [by apply (si_start _ _ HS)|done].
  - intros Hr. destruct (si_ready _ _ HS Hr) as (?&?&?). split_and!; [done..|by apply did_mono].
  - intros Hph. apply never_snoc; [by apply (si_command _ _ HS)|done].
  - intros ?. by apply did_mono, (si_connected _ _ HS).
  - intros ?. by apply did_mono, (si_held _ _ HS).
  - intros ?. by apply did_mono, (si_tunnel _ _ HS).
  - intros ?. by apply did_mono, (si_rings _ _ HS).
  - intros ?. by apply did_mono, (si_mcu _ _ HS).
  - intros ?. by apply released_mono, (si_released _ _ HS).
Qed.

(** The session has been started, has not retired, and is [v] otherwise. *)
Definition running (v : sview) : Prop := w_startup v = true ∧ w_retired v = false.

Section providers.
Context {W : Type} `{Mmio Z W} `{HostEnv W}.
Implicit Types (pins : list Z) (g : Z) (v : sview) (L : list event) (y : hsys W).

(** Between a call and the flag that records it, the log is one call ahead. *)
Definition Ahead (pins : list Z) (g : Z) (v : sview) (L : list event) (e : event) (y : hsys W) : Prop :=
  ∃ y0 w, B pins g v L y0 ∧ y = y0 <| y_w := w |> <| y_log := y_log y0 ++ [(g, e)] |>.

Lemma wp_call2_ahead pins g v L c (Q : Z * Z → hsys W → Prop) E y :
  B pins g v L y → (∀ r x y', Ahead pins g v L (c, r) y' → Q (r, x) y') → wp (call2 g c) Q E y.
Proof.
  intros HB HQ. unfold wp, call2. destruct (e_call c (y_w y)) as [[r x] w].
  apply HQ. exists y, w. done.
Qed.
Lemma wp_call_ahead pins g v L c (Q : Z → hsys W → Prop) E y :
  B pins g v L y → (∀ r y', Ahead pins g v L (c, r) y' → Q r y') → wp (call g c) Q E y.
Proof.
  intros HB HQ. apply wp_bind. eapply wp_call2_ahead; [done|]. intros r x y' HA. by apply HQ.
Qed.

Lemma Ahead_B pins g v L e y : Ahead pins g v L e y → SI v (L ++ [e]) → B pins g v (L ++ [e]) y.
Proof.
  intros (y0&w&HB&->) HS. pose proof HB as (_&_&(h&Hh&Hv)&_). subst v.
  pose proof (B_upd _ _ h h _ _ (Some e) w _ HB Hh eq_refl eq_refl (λ x, x) HS) as HU.
  unfold upd in HU. by rewrite insert_id in HU.
Qed.

Lemma wp_hset_ahead pins g v v' L e f (Q : unit → hsys W → Prop) E y :
  Ahead pins g v L e y → (∀ h, view h = v → view (f h) = v') →
  (∀ h, h_ref (f h) = h_ref h ∧ h_generation (f h) = h_generation h) →
  (w_retired v = true → w_retired v' = true) → SI v' (L ++ [e]) →
  (∀ y', B pins g v' (L ++ [e]) y' → Q tt y') → wp (hset g f) Q E y.
Proof.
  intros (y0&w&HB&->) Hf Hr Hret HS HQ. pose proof HB as (_&_&(h&Hh&Hv)&_).
  unfold wp, hset. cbn [y_sessions set_field]. rewrite Hh. apply HQ. destruct (Hr h).
  rewrite <- (Hf h Hv) in *.
  apply (B_upd _ _ h (f h) _ _ (Some e) w _ HB Hh); done.
Qed.

(** The same for the provider flags. *)
Lemma wp_vset_ahead pins g v L e f (Q : unit → hsys W → Prop) E y :
  Ahead pins g v L e y → running v → SI (v <| w_v := f (w_v v) |>) (L ++ [e]) →
  (∀ y', B pins g (v <| w_v := f (w_v v) |>) (L ++ [e]) y' → Q tt y') → wp (vset g f) Q E y.
Proof.
  intros HA [_ Hr] HS HQ. eapply (wp_hset_ahead _ _ v (v <| w_v := f (w_v v) |>)); try done.
  intros h <-. done.
Qed.

Lemma wp_take_gcc pins g v L (Q : unit → hsys W → Prop) (E : Z → hsys W → Prop) y :
  B pins g v L y → running v → v_gcc (w_v v) = None → w_activated v = false →
  (∀ x y', B pins g (v <| w_v := (w_v v) <| v_gcc := Some x |> |>) (L ++ [(GccGet, 0)]) y' → Q tt y') →
  (∀ r y', r ≠ 0 → B pins g v (L ++ [(GccGet, r)]) y' → E r y') →
  wp (take_gcc g) Q E y.
Proof.
  intros HB Hrun Hg Ha HQ HE. pose proof (B_si _ _ _ _ _ HB) as HS. unfold take_gcc.
  assert (held Lease L = 0) as Hl by (by rewrite (si_lease _ _ HS), Hg).
  wstep. eapply wp_call2_ahead; [done|]. intros r x y' HA. cbn [fst snd].
  destruct (Z.eqb_spec r 0) as [->|Hr]; cbn [negb].
  - eapply wp_vset_ahead; [done..| |by apply HQ].
    apply SI_provider; try done; try apply Hrun; cbn; rewrite ?Z.add_0_r; try apply HS.
    + by rewrite Hl.
    + intros ?. congruence.
  - apply HE; [done|]. apply Ahead_B; [done|].
    apply SI_call; try done. intros []; try done. cbn. by destruct (Z.eqb_spec r 0).
Qed.

(** Dropping a provider needs the router out of use. *)
Definition unused (v : sview) : Prop := running v ∧ (w_activated v = true → w_stopping v = true).

Ltac provider HS :=
  apply SI_provider; try done; try (match goal with H : running _ |- _ => apply H end);
  cbn; rewrite ?Z.add_0_r; try apply HS.

Lemma wp_drop_gcc pins g v L (Q : unit → hsys W → Prop) (E : Z → hsys W → Prop) y :
  B pins g v L y → unused v → is_Some (v_gcc (w_v v)) →
  (∀ r y', B pins g (v <| w_v := (w_v v) <| v_gcc := None |> |>) (L ++ [(GccPut, r)]) y' → Q tt y') →
  wp (drop_gcc g) Q E y.
Proof.
  intros HB [Hrun Hst] Hg HQ. pose proof (B_si _ _ _ _ _ HB) as HS. unfold drop_gcc, call_.
  assert (held Lease L = 1) as Hl by (by rewrite (si_lease _ _ HS), bool_decide_eq_true_2).
  wstep. wstep. eapply wp_call2_ahead; [done|]. intros r x y' HA. wstep.
  eapply wp_vset_ahead; [done..| |by apply HQ]. provider HS.
  - by rewrite Hl.
  - intros Ha Hs. rewrite Hst in Hs by done. done.
Qed.

Lemma wp_drop_clocks pins g v L (Q : unit → hsys W → Prop) (E : Z → hsys W → Prop) y :
  B pins g v L y → unused v → v_clocks_on (w_v v) = true →
  (∀ r y', B pins g (v <| w_v := (w_v v) <| v_clocks_on := false |> |>) (L ++ [(ClkBulkDisable, r)]) y' →
     Q tt y') → wp (drop_clocks g) Q E y.
Proof.
  intros HB [Hrun Hst] Hg HQ. pose proof (B_si _ _ _ _ _ HB) as HS. unfold drop_clocks, call_.
  assert (held Clocks L = 1) as Hl by (by rewrite (si_clocks _ _ HS), Hg).
  wstep. wstep. eapply wp_call2_ahead; [done|]. intros r x y' HA. wstep.
  eapply wp_vset_ahead; [done..| |by apply HQ]. provider HS.
  - by rewrite Hl.
  - intros Ha Hs. rewrite Hst in Hs by done. done.
Qed.

Lemma wp_drop_runtime pins g v L (Q : Z → hsys W → Prop) (E : Z → hsys W → Prop) y :
  B pins g v L y → unused v → v_runtime_held (w_v v) = true →
  (∀ r y', B pins g (v <| w_v := (w_v v) <| v_runtime_held := false |> |>) (L ++ [(PmPutSync, r)]) y' →
     Q r y') → wp (drop_runtime g) Q E y.
Proof.
  intros HB [Hrun Hst] Hg HQ. pose proof (B_si _ _ _ _ _ HB) as HS. unfold drop_runtime.
  pose proof (si_votes _ _ HS) as Hl. rewrite Hg in Hl. cbn in Hl.
  wstep. eapply wp_call_ahead; [done|]. intros r y' HA. wstep.
  eapply wp_vset_ahead; [done..| |intros y2 HB2; apply wp_ret; by apply HQ]. provider HS.
  - cbn. lia.
  - lia.
  - intros Hs. pose proof (si_votes_live _ _ HS Hs) as Hlv. rewrite Hg in Hlv. cbn in Hlv. lia.
  - intros Ha Hs. rewrite Hst in Hs by done. done.
Qed.

Lemma wp_release_power pins g v L (Q : unit → hsys W → Prop) (E : Z → hsys W → Prop) y :
  B pins g v L y → unused v →
  (∀ L' y', B pins g (v <| w_v := ProviderPart None false false (v_phy_initialized (w_v v))
                                   (v_phy_on (w_v v)) |>) L' y' → Q tt y') →
  wp (x1_release_power g) Q E y.
Proof.
  intros HB Hu HQ. unfold x1_release_power. wstep. wstep. wstep. rewrite <- Hv in *.
  set (fin := λ p : provider_part, ProviderPart None false false (v_phy_initialized p) (v_phy_on p)).
  assert (∀ p L y, B pins g ((view h) <| w_v := p |>) L y → v_gcc p = None → v_clocks_on p = false →
    fin p = fin (w_v (view h)) → v_runtime_held p = v_runtime_held (h_v h) →
    wp (do! call_ g (IccApps 0) in do! call_ g (IccDdr 0) in
        if v_runtime_held (h_v h) then do! drop_runtime g in ret tt else ret tt) Q E y) as Hend.
  { intros p L1 y1 HB1 E1 E2 E3 E4. wstep. wstep. wstep. wstep.
    destruct (v_runtime_held (h_v h)) eqn:Ert.
    - wstep. eapply wp_drop_runtime; [done|done|done|]. intros ? y2 HB2. wstep.
      eapply HQ. revert HB2. cbn. unfold fin in E3. destruct p; simplify_eq/=. done.
    - wstep. eapply HQ. revert HB1. unfold fin in E3. destruct p; simplify_eq/=. done. }
  assert (∀ p L y, B pins g ((view h) <| w_v := p |>) L y → v_gcc p = None →
    v_clocks_on p = v_clocks_on (h_v h) →
    fin p = fin (w_v (view h)) → v_runtime_held p = v_runtime_held (h_v h) →
    wp (do! (if v_clocks_on (h_v h) then drop_clocks g else ret tt) in
        do! call_ g (IccApps 0) in do! call_ g (IccDdr 0) in
        if v_runtime_held (h_v h) then do! drop_runtime g in ret tt else ret tt) Q E y) as Hclk.
  { intros p L1 y1 HB1 E1 E2 E3 E4. wstep. destruct (v_clocks_on (h_v h)) eqn:Ec.
    - eapply wp_drop_clocks; [done|done|done|]. intros r y2 HB2.
      apply (Hend (p <| v_clocks_on := false |>) _ _ HB2); try done.
    - wstep. by eapply Hend. }
  destruct (v_gcc (h_v h)) eqn:Eg.
  - eapply wp_drop_gcc; [done|done|cbn; by rewrite Eg|]. intros r y2 HB2.
    by apply (Hclk ((h_v h) <| v_gcc := None |>) _ _ HB2).
  - wstep. by apply (Hclk (h_v h) _ _ HB).
Qed.

(** PHY. *)
Lemma wp_phy_init pins g v L (Q : unit → hsys W → Prop) (E : Z → hsys W → Prop) y :
  B pins g v L y → running v → v_phy_initialized (w_v v) = false →
  (∀ y', B pins g (v <| w_v := (w_v v) <| v_phy_initialized := true |> |>) (L ++ [(PhyInit, 0)]) y' →
     Q tt y') →
  (∀ r y', r ≠ 0 → B pins g v (L ++ [(PhyInit, r)]) y' → E r y') → wp (phy_init g) Q E y.
Proof.
  intros HB Hrun Hg HQ HE. pose proof (B_si _ _ _ _ _ HB) as HS. unfold phy_init.
  assert (held PhyInits L = 0) as Hl by (by rewrite (si_inits _ _ HS), Hg).
  wstep. eapply wp_call_ahead; [done|]. intros r y' HA. wstep.
  eapply wp_vset_ahead; [done..| |].
  - provider HS. cbn. rewrite Hl. by destruct (r =? 0).
  - intros y2 HB2. wstep; [subst r; by apply HQ|]. apply HE; [done|].
    revert HB2. destruct (Z.eqb_spec r 0); [done|]. rewrite <- Hg. destruct v as [?????? [] ????????]. done.
Qed.

Lemma wp_phy_power_on pins g v L (Q : unit → hsys W → Prop) (E : Z → hsys W → Prop) y :
  B pins g v L y → running v → v_phy_on (w_v v) = false →
  (∀ y', B pins g (v <| w_v := (w_v v) <| v_phy_on := true |> |>) (L ++ [(PhyPowerOn, 0)]) y' →
     Q tt y') →
  (∀ r y', r ≠ 0 → B pins g v (L ++ [(PhyPowerOn, r)]) y' → E r y') → wp (phy_power_on g) Q E y.
Proof.
  intros HB Hrun Hg HQ HE. pose proof (B_si _ _ _ _ _ HB) as HS. unfold phy_power_on.
  assert (held PhyPowers L = 0) as Hl by (by rewrite (si_powers _ _ HS), Hg).
  wstep. eapply wp_call_ahead; [done|]. intros r y' HA. wstep.
  eapply wp_vset_ahead; [done..| |].
  - provider HS. cbn. rewrite Hl. by destruct (r =? 0).
  - intros y2 HB2. wstep; [subst r; by apply HQ|]. apply HE; [done|].
    revert HB2. destruct (Z.eqb_spec r 0); [done|]. rewrite <- Hg. destruct v as [?????? [] ????????]. done.
Qed.

(** [ret = phy_power_off(host->phy); if (ret) goto fail; host->phy_on = false;] and
    the same for [phy_exit]. *)
Lemma wp_phy_off pins g v L (Q : unit → hsys W → Prop) (E : Z → hsys W → Prop) y :
  B pins g v L y → running v → v_phy_on (w_v v) = true →
  (∀ y', B pins g (v <| w_v := (w_v v) <| v_phy_on := false |> |>) (L ++ [(PhyPowerOff, 0)]) y' →
     Q tt y') →
  (∀ r y', r ≠ 0 → B pins g v (L ++ [(PhyPowerOff, r)]) y' → E r y') →
  wp (do! must g PhyPowerOff in vset g (λ p, p <| v_phy_on := false |>)) Q E y.
Proof.
  intros HB Hrun Hg HQ HE. pose proof (B_si _ _ _ _ _ HB) as HS. unfold must.
  assert (held PhyPowers L = 1) as Hl by (by rewrite (si_powers _ _ HS), Hg).
  wstep. wstep. eapply wp_call_ahead; [done|]. intros r y' HA. apply wp_ok_or_fail.
  - intros ->. eapply wp_vset_ahead; [done..| |by apply HQ]. provider HS. by rewrite Hl.
  - intros Hr. apply HE; [done|]. apply Ahead_B; [done|]. apply SI_call; try done.
    intros []; try done. cbn. by destruct (Z.eqb_spec r 0).
Qed.

Lemma wp_phy_exit pins g v L (Q : unit → hsys W → Prop) (E : Z → hsys W → Prop) y :
  B pins g v L y → running v → v_phy_initialized (w_v v) = true →
  (∀ y', B pins g (v <| w_v := (w_v v) <| v_phy_initialized := false |> |>) (L ++ [(PhyExit, 0)]) y' →
     Q tt y') →
  (∀ r y', r ≠ 0 → B pins g v (L ++ [(PhyExit, r)]) y' → E r y') →
  wp (do! must g PhyExit in vset g (λ p, p <| v_phy_initialized := false |>)) Q E y.
Proof.
  intros HB Hrun Hg HQ HE. pose proof (B_si _ _ _ _ _ HB) as HS. unfold must.
  assert (held PhyInits L = 1) as Hl by (by rewrite (si_inits _ _ HS), Hg).
  wstep. wstep. eapply wp_call_ahead; [done|]. intros r y' HA. apply wp_ok_or_fail.
  - intros ->. eapply wp_vset_ahead; [done..| |by apply HQ]. provider HS. by rewrite Hl.
  - intros Hr. apply HE; [done|]. apply Ahead_B; [done|]. apply SI_call; try done.
    intros []; try done. cbn. by destruct (Z.eqb_spec r 0).
Qed.
End providers.

(** ** The Type-C callbacks *)

(** What a callback may do to the view of its session. *)
Definition called (v v' : sview) : Prop :=
  v' = v <| w_command := w_command v' |> <| w_connected := w_connected v' |> ∧
  (w_command v = true → w_command v' = true) ∧ (w_stopping v = true → v' = v).

#[export] Instance called_preorder : PreOrder called.
Proof.
  split.
  - intros []. done.
  - intros v1 v2 v3 (E1&C1&S1) (E2&C2&S2). split_and!; [|auto|].
    + destruct v1, v2, v3. unfold set_field in E1, E2 |- *. cbn in *.
      injection E1 as. injection E2 as. by subst.
    + intros Hs. specialize (S1 Hs). subst v2. auto.
Qed.

Lemma called_inv v v' :
  called v v' → ∃ c k, v' = v <| w_command := c |> <| w_connected := k |>.
Proof. intros (E&_). eauto. Qed.

Lemma SI_connect v L w r :
  SI v L → w_command v = true → permitted L (McuConnect w, r) → SI v (L ++ [(McuConnect w, r)]).
Proof. intros HS Hc Hp. apply SI_log; try done. by intros []. Qed.

Lemma SI_ready_powered v L : SI v L → w_ready v = true → powered L.
Proof.
  intros HS Hr. destruct (si_ready _ _ HS Hr) as (Ha&Hs&_).
  destruct (si_active _ _ HS Ha Hs) as (H1&H2&H3). unfold powered.
  rewrite (si_lease _ _ HS), (si_clocks _ _ HS), (si_votes_live _ _ HS Hs), H2, H3.
  by rewrite bool_decide_eq_true_2.
Qed.

Section callbacks.
Context (P : params) (command_polls : nat).
Context `{TypecAbi}.
Context {W : Type} `{Mmio Z W} `{HostEnv W}.
Implicit Types (pins : list Z) (g : Z) (v : sview) (L : list event) (y : hsys W).

(** The result of a callback. *)
Definition after_callback pins g v L (y : hsys W) : Prop :=
  ∃ v' L', B pins g v' L' y ∧ called v v' ∧ quiet L L'.

Lemma after_same pins g v L L' y : B pins g v L' y → quiet L L' → after_callback pins g v L y.
Proof. intros HB HL. by exists v, L'. Qed.

Lemma wp_apply_link pins g v L E y :
  B pins g v L y → wp (x1_apply_link command_polls g) (λ _, after_callback pins g v L) E y.
Proof.
  intros HB. pose proof (B_si _ _ _ _ _ HB) as HS. unfold x1_apply_link.
  wstep. wstep. cbv zeta. destruct (negb (h_ready h) || _ || _) eqn:E1.
  { wstep. by eapply after_same. }
  apply orb_false_iff in E1 as [E1 Est]. apply orb_false_iff in E1 as [Erd _].
  apply negb_false_iff in Erd.
  wstep. { wstep. by eapply after_same. }
  wstep. { wstep. by eapply after_same. }
  wstep. { do 3 wstep. by eapply after_same. }
  rename Heqb1 into Ecmd. assert (w_command v = false) as Ec by (by rewrite <- Hv).
  assert (w_ready v = true) as Er by (by rewrite <- Hv).
  assert (w_stopping v = false) as Es by (by rewrite <- Hv).
  set (v1 := v <| w_command := true |>).
  assert (SI v1 L) as HS1 by (destruct HS; constructor; done).
  wstep. eapply (wp_hset _ _ v v1); [done|by intros k <-|done..|]. clear HB. intros y1 HB.
  wstep. wstep.
  set (w := t_pending_command (h_t h)).
  assert (∀ r, SI v1 (L ++ [(McuConnect w, r)])) as HC.
  { intros r. apply SI_connect; [done..|]. split_and!.
    - by apply (SI_ready_powered v).
    - by apply (si_ready _ _ HS).
    - by apply (si_command _ _ HS). }
  assert (∀ r, quiet L (L ++ [(McuConnect w, r)])) as Hq.
  { intros r. exists [(McuConnect w, r)]. split; [done|]. constructor; auto. }
  assert (∀ k, called v (v1 <| w_connected := k |>)) as Hcl.
  { intros k. split_and!; [by destruct v|done|congruence]. }
  assert (called v v1) as Hcl1 by (split_and!; [by destruct v|done|congruence]).
  assert (∀ r y2, B pins g v1 L y2 → wp (do! note g (McuConnect w) r in
    do! (if r !=? 0 then tset g (λ t, t <| t_error := r |>)
         else tset g (λ t, t <| t_connected_command := t_pending_command t |>)) in
    ret r) (λ _, after_callback pins g v L) E y2) as Htail.
  { clear HB. intros r y2 HB. wstep. eapply wp_note; [done|apply HC|].
    clear HB. intros y3 HB. wstep. destruct (Z.eqb_spec r 0) as [->|Hr]; cbn [negb]; unfold tset.
    - eapply wp_hset_dep; [done|done| |].
      + intros k Hk. split; [by rewrite <- Hk|].
        assert (view (k <| h_t := (h_t k) <| t_connected_command := t_pending_command (h_t k) |> |>)
                = v1 <| w_connected := t_pending_command (h_t k) |>) as -> by (by rewrite <- Hk).
        pose proof (HC 0) as []. constructor; try done. intros _. by apply did_here.
      + intros k y4 Hk HB4. wstep. eexists _, _. split_and!; [done| |apply Hq].
        assert (view (k <| h_t := (h_t k) <| t_connected_command := t_pending_command (h_t k) |> |>)
                = v1 <| w_connected := t_pending_command (h_t k) |>) as -> by (by rewrite <- Hk).
        apply Hcl.
    - do 2 wstep. eexists _, _. eauto. }
  eapply wp_router; [done|apply mcu_command_safe|intros ?; apply Htail|apply Htail].
Qed.

Lemma wp_invalidate pins g v L (Q : unit → hsys W → Prop) E y :
  B pins g v L y → (∀ L' y', B pins g v L' y' → quiet L L' → Q tt y') →
  wp (x1_invalidate_retained g) Q E y.
Proof.
  intros HB HQ. unfold x1_invalidate_retained. wstep. wstep. wstep.
  - wstep. eapply HQ; [done|]. by apply quiet_snoc.
  - wstep. by eapply HQ.
Qed.

Lemma wp_mark_pulled pins g v L (Q : unit → hsys W → Prop) E y :
  B pins g v L y → (∀ L' y', B pins g v L' y' → quiet L L' → Q tt y') →
  wp (qcom_usb4_x1_mark_pulled g) Q E y.
Proof.
  intros HB HQ. unfold qcom_usb4_x1_mark_pulled. do 4 wstep.
  wstep; wstep; (eapply HQ; [done|by apply quiet_snoc]).
Qed.

Lemma wp_batch_orientation pins g v L o (Q : Z → hsys W → Prop) E y :
  B pins g v L y → (∀ r y', B pins g v L y' → Q r y') → wp (x1_batch_orientation P g o) Q E y.
Proof. intros HB HQ. unfold x1_batch_orientation. wsteps; by apply HQ. Qed.

Lemma wp_switch_set pins g v L o E y :
  B pins g v L y → wp (x1_switch_set P g o) (λ _, after_callback pins g v L) E y.
Proof.
  intros HB. unfold x1_switch_set.
  wstep. eapply wp_invalidate; [done|]. clear HB. intros L1 y1 HB Hq1.
  wstep. eapply wp_invalidate; [done|]. clear HB. intros L2 y2 HB Hq2.
  assert (quiet L L2) as Hq by (by etrans). clear L1 Hq1 Hq2.
  do 2 wstep. wstep. { wstep. by eapply after_same. }
  wstep.
  assert (∀ L' y', B pins g v L' y' → quiet L L' → wp (
    let! r := x1_batch_orientation P g o in
    if r !=? 0 then ret r else
    let! h := hget g in
    do! (if bool_decide (t_orientation (h_t h) ≠ o) || bool_decide (o = TYPEC_ORIENTATION_NONE)
         then do! tset g (λ t, t <| t_pending_command := 0 |>) in
              if t_command_attempted (h_t h)
              then tset g (λ t, t <| t_error := -ESHUTDOWN |>) else ret tt
         else ret tt) in
    do! tset g (λ t, t <| t_orientation := o |>) in
    ret 0) (λ _, after_callback pins g v L) E y') as Htail.
  { clear HB. intros L' y' HB Hq'. wstep. eapply wp_batch_orientation; [done|].
    clear HB. intros r y3 HB. wsteps; by eapply after_same. }
  wstep.
  - eapply wp_mark_pulled; [done|]. intros L' y' HB' Hq'. apply (Htail L'); [done|by etrans].
  - wstep. by apply (Htail L2).
Qed.

Lemma wp_mux_set pins g v L ms E y :
  B pins g v L y → wp (x1_mux_set command_polls g ms) (λ _, after_callback pins g v L) E y.
Proof.
  intros HB. unfold x1_mux_set.
  wstep. eapply wp_invalidate; [done|]. clear HB. intros L1 y1 HB Hq1.
  wstep. eapply wp_invalidate; [done|]. clear HB. intros L2 y2 HB Hq2.
  assert (quiet L L2) as Hq by (by etrans). clear L1 Hq1 Hq2.
  do 2 wstep. cbv zeta.
  wstep. { wstep. by eapply after_same. }
  wstep. { wstep. by eapply after_same. }
  wstep; [|wsteps; by eapply after_same].
  wstep. { wsteps. by eapply after_same. }
  do 3 wstep. wstep. { wstep. by eapply after_same. }
  destruct (usb4_command (ms_data ms) (t_orientation (h_t h))) as [c|e|] eqn:Ec.
  - do 3 wstep. eapply wp_mono; [by apply wp_apply_link| |done].
    intros r y3 (v'&L'&HB'&Hc&Hq'). exists v', L'. split_and!; [done..|by etrans].
  - wsteps; by eapply after_same.
  - by apply usb4_command_total in Ec.
Qed.
End callbacks.

(** ** References and work in flight *)

Section flight.
Context {W : Type} `{Mmio Z W} `{HostEnv W}.
Implicit Types (pins : list Z) (g : Z) (y : hsys W).

(** A callback touches its own session only. *)
Definition only (g : Z) (y y' : hsys W) : Prop :=
  y_port y' = y_port y ∧ y_flight y' = y_flight y ∧
  ∀ g', g' ≠ g → y_sessions y' !! g' = y_sessions y !! g' ∧
                 own g' (y_log y') = own g' (y_log y).

#[export] Instance only_preorder g : PreOrder (only g).
Proof.
  split; [done|]. intros y1 y2 y3 (A1&A2&A3) (B1&B2&B3).
  split_and!; [congruence..|]. intros g' Hg. destruct (A3 g' Hg), (B3 g' Hg). split; congruence.
Qed.

Lemma only_hget g : keeps (only g) (hget g).
Proof. intros y. unfold hget. by destruct (y_sessions y !! g). Qed.
Lemma only_hset g f : keeps (only g) (hset g f).
Proof.
  intros y. unfold hset. destruct (y_sessions y !! g); [|done]. split_and!; [done..|].
  intros g' Hg. cbn. by rewrite lookup_insert_ne.
Qed.
Lemma only_note g c r : keeps (only g) (note g c r).
Proof. intros y. split_and!; [done..|]. intros g' Hg. split; [done|by apply own_other]. Qed.
Lemma only_call2 g c : keeps (only g) (call2 g c).
Proof.
  intros y. unfold call2. destruct (e_call c (y_w y)) as [[r x] w]. split_and!; [done..|].
  intros g' Hg. split; [done|by apply own_other].
Qed.
Lemma only_router {A} g (m : M W A) : keeps (only g) (on_router m).
Proof. intros y. unfold on_router. by destruct (m (y_w y)). Qed.
Lemma only_attempt g (m : M (hsys W) unit) : keeps (only g) m → keeps (only g) (attempt m).
Proof. intros Hm y. specialize (Hm y). unfold attempt. by destruct (m y) as [[]]. Qed.
End flight.
#[export] Hint Resolve only_hget only_hset only_note only_call2 only_router only_attempt : km.

Section callbacks_only.
Context (P : params) (command_polls : nat).
Context `{TypecAbi}.
Context {W : Type} `{Mmio Z W} `{HostEnv W}.

Lemma only_switch_set g o : keeps (S:=hsys W) (only g) (x1_switch_set P g o).
Proof.
  unfold x1_switch_set, x1_invalidate_retained, x1_batch_orientation, qcom_usb4_x1_mark_pulled,
    call_, tset. keeps_auto.
Qed.
Lemma only_mux_set g ms : keeps (S:=hsys W) (only g) (x1_mux_set command_polls g ms).
Proof.
  unfold x1_mux_set, x1_invalidate_retained, x1_apply_link, call_, tset. keeps_auto.
Qed.
End callbacks_only.

Section references.
Context {W : Type} `{Mmio Z W} `{HostEnv W}.
Implicit Types (pins : list Z) (g : Z) (y : hsys W).

(** What may have happened to the rest of the driver while a handler waited. *)
Record drift (y y' : hsys W) : Prop := {
  dr_session : q_session (y_port y') = q_session (y_port y);
  dr_next : q_next_generation (y_port y') = q_next_generation (y_port y);
  dr_none : ∀ g, y_sessions y !! g = None → y_sessions y' !! g = None;
  dr_some : ∀ g h h', y_sessions y !! g = Some h → y_sessions y' !! g = Some h' →
    called (view h) (view h') ∧ quiet (own g (y_log y)) (own g (y_log y'));
}.

#[export] Instance drift_preorder : PreOrder drift.
Proof.
  split.
  - intros y. constructor; try done. intros g h h' E1 E2. by simplify_eq.
  - intros y1 y2 y3 [] []. constructor; try congruence; [auto|].
    intros g h1 h3 E1 E3. destruct (y_sessions y2 !! g) as [h2|] eqn:E2.
    + destruct (dr_some0 g h1 h2 E1 E2), (dr_some1 g h2 h3 E2 E3). split; by etrans.
    + rewrite dr_none1 in E3 by done. done.
Qed.

(** Moving a reference between the port, the work in flight and the pins. *)
Lemma GI_move pins pins' y y' :
  y_port y' = y_port y → y_sessions y' = y_sessions y → y_log y' = y_log y →
  (∀ g, refs pins' y' g = refs pins y g) → (∀ g, g ∈ pins' → is_Some (y_sessions y !! g)) →
  (∀ g, g ∈ flying y' → g ∈ flying y ∨
     ∃ h, y_sessions y !! g = Some h ∧ session_usable g (h_fully_retired h) y) → GI pins y → GI pins' y'.
Proof.
  intros E1 E2 E3 Hr Hin Hfl [HI HR]. split; [by rewrite E2, E3|].
  constructor; unfold session_usable; rewrite ?E1, ?E2, ?E3; try apply HR; auto.
  - intros g h Hh. rewrite Hr. by apply (gr_ref _ _ HR).
  - intros g Hg. destruct (Hfl g Hg); [by apply (gr_fly _ _ HR)|done].
Qed.

Lemma GI_unflight pins y i g t :
  GI pins y → y_flight y !! i = Some (g, t) →
  GI (g :: pins) (y <| y_flight := delete i (y_flight y) |>).
Proof.
  intros HG Hi. assert (flying y !! i = Some g) as Hf.
  { unfold flying. by rewrite list_lookup_fmap, Hi. }
  assert (flying (y <| y_flight := delete i (y_flight y) |>) = delete i (flying y)) as Hd.
  { unfold flying. cbn. clear. generalize i. induction (y_flight y) as [|x l IH]; intros [|j];
      simpl; [done..|]. f_equal. apply IH. }
  apply (GI_move pins _ y); [done|done|done| | | |exact HG].
  - intros g'. unfold refs. rewrite Hd, (occ_delete g' _ _ _ Hf). cbn [occ].
    change (published _ g') with (published y g'). lia.
  - intros g' Hg. apply elem_of_cons in Hg as [->|Hg]; [|by apply (gr_pin _ _ (proj2 HG))].
    destruct (gr_fly _ _ (proj2 HG) g) as (h&Hh&_); [by eapply list_elem_of_lookup_2|by exists h].
  - intros g' Hg. rewrite Hd in Hg. left. revert Hg. rewrite delete_take_drop, elem_of_app.
    intros [Hg|Hg]; [by eapply elem_of_take in Hg as (j&?&?); eapply list_elem_of_lookup_2|].
    apply list_elem_of_lookup in Hg as (j&Hj). rewrite lookup_drop in Hj.
    by eapply list_elem_of_lookup_2.
Qed.

Lemma GI_push pins y g t :
  GI (g :: pins) y → (∃ h, y_sessions y !! g = Some h ∧ session_usable g (h_fully_retired h) y) →
  GI pins (y <| y_flight := y_flight y ++ [(g, t)] |>).
Proof.
  intros HG Hu.
  assert (flying (y <| y_flight := y_flight y ++ [(g, t)] |>) = flying y ++ [g]) as Hd.
  { unfold flying. cbn. by rewrite fmap_app. }
  apply (GI_move (g :: pins) _ y); [done|done|done| | | |exact HG].
  - intros g'. unfold refs. rewrite Hd, occ_app. cbn [occ].
    change (published _ g') with (published y g'). lia.
  - intros g' Hg. apply (gr_pin _ _ (proj2 HG)). by right.
  - intros g' Hg. rewrite Hd in Hg. apply elem_of_app in Hg as [Hg|Hg]; [by left|right].
    apply list_elem_of_singleton in Hg. by subst.
Qed.

Lemma GI_port pins y f :
  (∀ p, q_session (f p) = q_session p) → (∀ p, q_next_generation (f p) = q_next_generation p) →
  GI pins y → GI pins (y <| y_port := f (y_port y) |>).
Proof.
  intros E1 E2 [HI []]. split; [done|].
  constructor; unfold refs, published, flying, session_usable in *; cbn; rewrite ?E1, ?E2; done.
Qed.

Lemma drift_port y f :
  (∀ p, q_session (f p) = q_session p) → (∀ p, q_next_generation (f p) = q_next_generation p) →
  drift y (y <| y_port := f (y_port y) |>).
Proof. intros E1 E2. constructor; cbn; auto. intros g h h' Hh Hh'. by simplify_eq. Qed.

Lemma drift_flight y l : drift y (y <| y_flight := l |>).
Proof. constructor; try done. intros g h h' Hh Hh'. cbn in Hh'. by simplify_eq. Qed.

(** A counter moves with the references it counts; the rest of the record may
    change where the view does not look. *)
Lemma GI_record pins pins' y g h h' :
  GI pins y → y_sessions y !! g = Some h → view h' = view h → h_generation h' = h_generation h →
  (∀ g', occ g' pins' = occ g' pins + (if g =? g' then h_ref h' - h_ref h else 0)) →
  (∀ g', g' ∈ pins' → g' ∈ pins ∨ q_session (y_port y) = Some g') → (h_ref h' = 0 → live h) →
  GI pins' (y <| y_sessions := <[g := h']> (y_sessions y) |>).
Proof.
  intros [HI HR] Hh Hview Hgen Hocc Hin Hz.
  assert (live h' ↔ live h) as Hlive.
  { change (live h') with (w_startup (view h') = true ∧ w_retired (view h') = false). by rewrite Hview. }
  assert (h_fully_retired h' = h_fully_retired h) as Hret
    by (change (w_retired (view h') = w_retired (view h)); by rewrite Hview).
  split.
  - intros g' k Hk. cbn in Hk. apply lookup_insert_Some in Hk as [[<- <-]|[_ Hk]];
      [rewrite Hview; by apply HI|by apply HI].
  - constructor; cbn; try apply HR.
    + intros g' Hg'. apply lookup_insert_None in Hg' as [Hg' _]. by apply (gr_none _ _ HR).
    + intros g' k Hk. apply lookup_insert_Some in Hk as [[<- <-]|[_ Hk]];
        [rewrite Hgen|]; by apply (gr_gen _ _ HR).
    + intros g' k Hk. unfold refs, published, flying in *. cbn. rewrite Hocc.
      apply lookup_insert_Some in Hk as [[<- <-]|[Hne Hk]].
      * destruct (gr_ref _ _ HR g h Hh) as (R1&R2&_). unfold refs, published, flying in *.
        rewrite Z.eqb_refl. split_and!; [lia|intros Hs; specialize (R2 Hs); lia|].
        intros E0. by apply Hlive, Hz.
      * destruct (Z.eqb_spec g g'); [done|]. rewrite Z.add_0_r. by apply (gr_ref _ _ HR).
    + intros g' k Hk Hl. apply lookup_insert_Some in Hk as [[<- <-]|[Hne Hk]];
        [by apply (gr_live _ _ HR g h Hh), Hlive|by apply (gr_live _ _ HR g' k)].
    + intros g' Hg'. apply lookup_insert_is_Some. destruct (decide (g = g')); [by left|right].
      split; [done|]. destruct (Hin g' Hg'); [by apply (gr_pin _ _ HR)|by apply (gr_cur _ _ HR)].
    + intros g' Hg'. destruct (gr_fly _ _ HR g' Hg') as (k&Hk&Hc).
      destruct (decide (g = g')) as [<-|Hne].
      * exists h'. rewrite lookup_insert_eq, Hret. simplify_eq. done.
      * exists k. by rewrite lookup_insert_ne.
    + intros g' Hg'. apply lookup_insert_is_Some. destruct (decide (g = g')); [by left|right].
      split; [done|]. by apply (gr_cur _ _ HR).
    + intros g' k Hk. apply lookup_insert_Some in Hk as [[<- <-]|[Hne Hk]];
        [by apply (gr_fresh _ _ HR g h)|by apply (gr_fresh _ _ HR g' k)].
Qed.

Lemma GI_ref pins pins' y g h n :
  GI pins y → y_sessions y !! g = Some h →
  (∀ g', occ g' pins' = occ g' pins + (if g =? g' then n - h_ref h else 0)) →
  (∀ g', g' ∈ pins' → g' ∈ pins ∨ q_session (y_port y) = Some g') → (n = 0 → live h) →
  GI pins' (y <| y_sessions := <[g := h <| h_ref := n |>]> (y_sessions y) |>).
Proof. intros. by eapply GI_record. Qed.

Lemma drift_ref y g h n :
  y_sessions y !! g = Some h → drift y (y <| y_sessions := <[g := h <| h_ref := n |>]> (y_sessions y) |>).
Proof.
  intros Hh. constructor; try done.
  - intros g' Hg'. cbn. rewrite lookup_insert_ne by congruence. done.
  - intros g' k k' Hk Hk'. cbn in Hk'. apply lookup_insert_Some in Hk' as [[<- <-]|[_ Hk']];
      simplify_eq; split; reflexivity.
Qed.

(** [kref_get_unless_zero] on the published session always succeeds. *)
Lemma wp_session_get pins y (Q : option Z → hsys W → Prop) E :
  GI pins y →
  (∀ g y', q_session (y_port y) = Some g → GI (g :: pins) y' → drift y y' →
     y_flight y' = y_flight y → Q (Some g) y') →
  (q_session (y_port y) = None → Q None y) → wp x1_session_get Q E y.
Proof.
  intros HG HS HN. pose proof HG as [_ HR]. unfold x1_session_get, get_unless_zero. apply wp_bind.
  change (wp (match q_session (y_port y) with
    | Some g => get_unless_zero g | None => ret None end) Q E y).
  destruct (q_session (y_port y)) as [g|] eqn:Eq; [|by apply HN].
  destruct (gr_cur _ _ HR g Eq) as [h Hh]. destruct (gr_ref _ _ HR g h Hh) as (R1&R2&_).
  assert (1 ≤ h_ref h) as Hpos.
  { revert R1. unfold refs, published. rewrite Eq, bool_decide_eq_true_2 by done.
    pose proof (occ_nonneg g (flying y)). pose proof (occ_nonneg g pins). cbn. lia. }
  unfold get_unless_zero, wp, bind, hget, hset. rewrite Hh.
  destruct (Z.eqb_spec (h_ref h) 0); [lia|]. rewrite Hh. unfold ret.
  apply HS; [done| |by apply drift_ref|done]. apply (GI_ref pins); [done..| | |lia].
  - intros g'. cbn [occ]. destruct (g =? g'); cbn; lia.
  - intros g' Hg'. apply elem_of_cons in Hg' as [->|Hg']; auto.
Qed.

(** A session that ends holds nothing. *)
Lemma SI_ended v L : SI v L → ¬ (w_startup v = true ∧ w_retired v = false) → ∀ x, held x L = 0.
Proof.
  intros HS Hl x.
  assert (w_v v = provider_zero ∧ held Votes L = 0) as [Hv HV].
  { destruct (w_startup v) eqn:E1.
    - destruct (w_retired v) eqn:E2; [|naive_solver]. by destruct (si_retired _ _ HS E2) as (_&_&?&?).
    - by destruct (si_pristine _ _ HS E1) as (?&_&_&?). }
  destruct x; [rewrite (si_lease _ _ HS)|rewrite (si_clocks _ _ HS)|done|
    rewrite (si_inits _ _ HS)|rewrite (si_powers _ _ HS)]; by rewrite Hv.
Qed.

(** Dropping a reference frees the session when it was the last one. *)
Lemma GI_free pins y g h (w : W) (l : list event) :
  GI (g :: pins) y → y_sessions y !! g = Some h → h_ref h = 1 → ¬ live h →
  Forall (λ e, neutral e.1 = true) l →
  GI pins (Sys (y_port y) (delete g (y_sessions y)) (y_flight y) (y_log y ++ (pair g <$> l)) w).
Proof.
  intros [HI HR] Hh Hr Hl Hn. set (y' := Sys _ _ _ _ _).
  assert (refs pins y g = 0 ∧ ∀ g', g' ≠ g → refs pins y' g' = refs (g :: pins) y g') as [Hz Ho].
  { split.
    - destruct (gr_ref _ _ HR g h Hh) as (R1&_). revert R1. unfold refs. cbn [occ].
      rewrite Z.eqb_refl. pose proof (occ_nonneg g (flying y)). pose proof (occ_nonneg g pins).
      destruct (published y g); cbn; lia.
    - intros g' Hne. unfold refs, y', published, flying. cbn. destruct (Z.eqb_spec g g'); [done|]. done. }
  assert (∀ g', own g' (y_log y') = if decide (g' = g) then own g (y_log y) ++ l else own g' (y_log y))
    as Hown.
  { intros g'. unfold y'. cbn [y_log]. rewrite own_app. case_decide as Hd.
    - subst g'. by rewrite own_tagged.
    - by rewrite own_untagged, app_nil_r. }
  assert (quiet (own g (y_log y)) (own g (y_log y) ++ l)) as Hq.
  { exists l. split; [done|]. eapply Forall_impl; [done|]. auto. }
  assert (protocol (own g (y_log y) ++ l)) as Hp.
  { clear -HI Hh Hn. specialize (si_protocol _ _ (HI g h Hh)). generalize (own g (y_log y)).
    induction Hn as [|[c r] l Hc Hn IH]; intros L HL; [by rewrite app_nil_r|].
    rewrite (cons_middle (c, r)), app_assoc. apply IH. by apply protocol_snoc, neutral_permitted. }
  assert (∀ g', g' ∈ pins ++ flying y → g' ≠ g) as Hnot.
  { intros g' Hin ->. apply elem_of_app in Hin as [Hin|Hin]; apply occ_elem in Hin;
      unfold refs in Hz; pose proof (occ_nonneg g pins); pose proof (occ_nonneg g (flying y));
      destruct (published y g); cbn in Hz; lia. }
  assert (q_session (y_port y) ≠ Some g) as Hcur.
  { intros Eq. unfold refs, published in Hz. rewrite Eq, bool_decide_eq_true_2 in Hz by done.
    pose proof (occ_nonneg g pins). pose proof (occ_nonneg g (flying y)). cbn in Hz. lia. }
  split.
  - intros g' k Hk. cbn in Hk. apply lookup_delete_Some in Hk as [Hne Hk].
    rewrite Hown. rewrite decide_False by done. by apply HI.
  - constructor; cbn [y_port y_sessions].
    + intros g' Hg'. cbn in Hg'. rewrite Hown. case_decide as Hd.
      * subst. split; [done|]. intros x. rewrite (quiet_held _ _ _ Hq).
        eapply SI_ended; [by apply HI|]. intros [? ?]. by apply Hl.
      * apply lookup_delete_None in Hg' as [?|?]; [congruence|]. by apply HR.
    + intros g' k Hk. cbn in Hk. apply lookup_delete_Some in Hk as [Hne Hk]. by apply (gr_gen _ _ HR).
    + intros g' k Hk. cbn in Hk. apply lookup_delete_Some in Hk as [Hne Hk]. rewrite Ho by done.
      by apply (gr_ref _ _ HR).
    + intros g' k Hk. cbn in Hk. apply lookup_delete_Some in Hk as [Hne Hk]. by apply (gr_live _ _ HR g' k).
    + intros g' Hg'. cbn. rewrite lookup_delete_ne; [apply (gr_pin _ _ HR); by right|].
      intros <-. apply (Hnot g); [apply elem_of_app; by left|done].
    + intros g' Hg'. destruct (gr_fly _ _ HR g' Hg') as (k&Hk&?).
      exists k. cbn. rewrite lookup_delete_ne; [done|].
      intros <-. apply (Hnot g); [apply elem_of_app; by right|done].
    + intros g' Hg'. cbn in *. rewrite lookup_delete_ne by congruence. by apply (gr_cur _ _ HR).
    + intros g' k Hk. cbn in Hk. apply lookup_delete_Some in Hk as [Hne Hk]. by apply (gr_fresh _ _ HR g' k).
    + apply HR.
    + intros g' Hg'. cbn in Hg'. rewrite Hown, decide_False; [by apply HR|].
      intros ->. pose proof (gr_fresh _ _ HR g h Hh). lia.
Qed.

Lemma drift_free y g (w : W) l :
  drift y (Sys (y_port y) (delete g (y_sessions y)) (y_flight y) (y_log y ++ (pair g <$> l)) w).
Proof.
  constructor; try done; cbn [y_sessions y_log].
  - intros g' Hg'. apply lookup_delete_None. by right.
  - intros g' k k' Hk Hk'. apply lookup_delete_Some in Hk' as [Hne Hk']. simplify_eq.
    split; [done|]. by rewrite own_app, own_untagged, app_nil_r.
Qed.

(** [kref_put] *)
Lemma wp_session_put pins g y E :
  GI (g :: pins) y →
  wp (x1_session_put g) (λ _ y', GI pins y' ∧ drift y y' ∧ y_flight y' = y_flight y ∧
    y_port y' = y_port y) E y.
Proof.
  intros HG. pose proof HG as [HI HR].
  destruct (gr_pin _ _ HR g) as [h Hh]; [by left|].
  destruct (gr_ref _ _ HR g h Hh) as (R1&R2&_).
  assert (∀ n, n = h_ref h - 1 → (n = 0 → live h) →
    GI pins (y <| y_sessions := <[g := h <| h_ref := n |>]> (y_sessions y) |>)) as Hput.
  { intros n Hn Hz. apply (GI_ref (g :: pins)); [done..| | |done].
    - intros g'. cbn [occ]. destruct (g =? g'); cbn; lia.
    - intros g' Hg'. left. by right. }
  unfold x1_session_put, wp, bind, hget, hset. rewrite Hh, Hh.
  destruct (Z.eqb_spec (h_ref h - 1) 0) as [Hz|Hz].
  2: { split_and!; [by apply Hput|by apply drift_ref|done|done]. }
  unfold x1_session_release, bind, hget. cbn [y_sessions set_field]. rewrite lookup_insert_eq.
  destruct (h_startup_attempted (h <| h_ref := h_ref h - 1 |>) && _) eqn:Elive.
  { apply andb_true_iff in Elive as [L1 L2]. apply negb_true_iff in L2.
    split_and!; [by apply Hput|by apply drift_ref|done|done]. }
  assert (¬ live h) as Hnl.
  { intros [L1 L2]. cbn in Elive. rewrite L1, L2 in Elive. done. }
  assert (∀ w l, Forall (λ e : event, neutral e.1 = true) l →
    GI pins (Sys (y_port y) (delete g (y_sessions y)) (y_flight y) (y_log y ++ (pair g <$> l)) w))
    as Hfree by (intros w l; apply (GI_free pins y g h w l); [done..|lia|done]).
  assert (∀ h', delete g (<[g:=h']> (y_sessions y)) = delete g (y_sessions y)) as Hdel
    by (intros h'; apply delete_insert_eq).
  unfold call_, call2, bind, modify, ret. destruct (h_fw _); cbn.
  - destruct (e_call ReleaseFirmware (y_w y)) as [[r x] w]. cbn. rewrite Hdel.
    specialize (Hfree w [(ReleaseFirmware, r)]). split_and!; [apply Hfree; by constructor| |done|done].
    apply (drift_free y g w [(ReleaseFirmware, r)]).
  - rewrite Hdel. specialize (Hfree (y_w y) []). rewrite app_nil_r in Hfree.
    split_and!; [by apply Hfree| |done|done].
    pose proof (drift_free y g (y_w y) []) as Hd. by rewrite app_nil_r in Hd.
Qed.
End references.

(** ** The point where other threads run *)

Section locks.
Context (P : params) (command_polls : nat).
Context `{TypecAbi}.
Context {W : Type} `{Mmio Z W} `{HostEnv W}.
Implicit Types (pins : list Z) (g : Z) (v : sview) (L : list event) (y : hsys W).

Lemma wp_callback {A} pins g (m : M (hsys W) A) E y :
  GI (g :: pins) y → keeps (only g) m →
  (∃ h, y_sessions y !! g = Some h ∧ session_usable g (h_fully_retired h) y) →
  (∀ v L, B (g :: pins) g v L y → wp m (λ _, after_callback (g :: pins) g v L) E y) →
  wp m (λ _ y', GI (g :: pins) y' ∧ drift y y') E y.
Proof.
  intros HG Ho (h&Hh&Hu) Hm.
  assert (B (g :: pins) g (view h) (own g (y_log y)) y) as HB.
  { split_and!; [done|split; [left; by left|done]|by exists h|done]. }
  specialize (Hm _ _ HB). specialize (Ho y). unfold wp in *. destruct (m y) as [[a|e|] y']; [|done..].
  destruct Hm as (v'&L'&(HG'&_&(h'&Hh'&Hv')&HL')&Hc&Hq). destruct Ho as (O1&O2&O3). cbn in *.
  split; [done|]. constructor; [by rewrite O1..| |].
  - intros g' Hg'. destruct (decide (g' = g)) as [->|Hne]; [congruence|]. by rewrite (proj1 (O3 _ Hne)).
  - intros g' k k' Hk Hk'. destruct (decide (g' = g)) as [->|Hne].
    + simplify_eq. done.
    + destruct (O3 _ Hne) as [E1 E2]. rewrite E2. assert (k' = k) as -> by congruence. done.
Qed.

Lemma usable_cur pins g y :
  GI pins y → q_session (y_port y) = Some g →
  ∃ h, y_sessions y !! g = Some h ∧ session_usable g (h_fully_retired h) y.
Proof. intros [_ HR] Hq. destruct (gr_cur _ _ HR g Hq) as [h Hh]. exists h. split; [done|by left]. Qed.

Lemma wp_begin pins t y E :
  GI pins y → wp (begin_task t) (λ _ y', GI pins y' ∧ drift y y') E y.
Proof.
  intros HG.
  assert (∀ tk y1 (k : M (hsys W) unit), GI pins y1 → drift y y1 →
    (q_session (y_port y1) = None → wp k (λ _ y', GI pins y' ∧ drift y y') E y1) →
    wp (let! s := x1_session_get in match s with Some g => push g tk | None => k end)
       (λ _ y', GI pins y' ∧ drift y y') E y1) as Hpush.
  { intros tk y1 k HG1 Hd Hk. apply wp_bind. eapply wp_session_get; [done| |done].
    intros g y' Hg HG' Hd' _. apply wp_modify. rewrite <- (dr_session _ _ Hd') in Hg.
    split; [by apply GI_push; [|by eapply usable_cur]|].
    etrans; [exact Hd|]. etrans; [exact Hd'|]. apply drift_flight. }
  destruct t; cbn [begin_task]; try (by apply wp_ret); try (apply Hpush; [done..|by intros _; apply wp_ret]).
  - unfold x1_orientation_session. apply wp_bind, wp_bind. eapply wp_session_get; [done|..].
    + intros g y' Hg HG' Hd _. apply wp_bind, wp_modify, wp_ret, wp_modify.
      rewrite <- (dr_session _ _ Hd) in Hg.
      assert (∀ p, q_session (record_orientation o p) = q_session p) as E1
        by (intros p; unfold record_orientation; by case_bool_decide).
      assert (∀ p, q_next_generation (record_orientation o p) = q_next_generation p) as E2
        by (intros p; unfold record_orientation; by case_bool_decide).
      assert (GI (g :: pins) (y' <| y_port := record_orientation o (y_port y') |>)) as HG2
        by (by apply GI_port).
      split; [apply GI_push; [done|]; eapply usable_cur; [done|]; cbn; by rewrite E1|].
      etrans; [exact Hd|]. etrans; [by apply (drift_port y' (record_orientation o))|]. apply drift_flight.
    + intros _. apply wp_bind, wp_modify, wp_ret, wp_ret.
      assert (∀ p, q_session (record_orientation o p) = q_session p) as E1
        by (intros p; unfold record_orientation; by case_bool_decide).
      assert (∀ p, q_next_generation (record_orientation o p) = q_next_generation p) as E2
        by (intros p; unfold record_orientation; by case_bool_decide).
      split; [by apply GI_port|by apply (drift_port y (record_orientation o))].
  - apply wp_bind. unfold pget, wp at 1. destruct (q_session (y_port y)) eqn:Eq; [|by apply wp_ret].
    apply Hpush; [done..|congruence].
  - apply wp_bind. unfold pget, wp at 1. destruct (q_session (y_port y)) eqn:Eq; [|by apply wp_ret].
    apply Hpush; [done..|congruence].
  - apply wp_bind. unfold pget, wp at 1. destruct (q_session (y_port y)) eqn:Eq; [|by apply wp_ret].
    apply Hpush; [done..|congruence].
Qed.

Lemma wp_resume pins i y E :
  GI pins y → wp (resume_callback P command_polls i) (λ _ y', GI pins y' ∧ drift y y') E y.
Proof.
  intros HG. unfold resume_callback. apply wp_bind, wp_get.
  assert (∀ g t, y_flight y !! i = Some (g, t) →
    ∀ (m : M (hsys W) Z), keeps (only g) m →
    (∀ v L y1, B (g :: pins) g v L y1 → wp m (λ _, after_callback (g :: pins) g v L) E y1) →
    wp (do! modify (λ y, y <| y_flight := delete i (y_flight y) |>) in do! m in x1_session_put g)
       (λ _ y', GI pins y' ∧ drift y y') E y) as Hrun.
  { intros g t Hi m Ho Hm. apply wp_bind, wp_modify, wp_bind.
    pose proof (GI_unflight _ _ _ _ _ HG Hi) as HG1.
    eapply wp_mono; [eapply wp_callback; [done|done| |]; [|intros; by apply Hm]| |done].
    { destruct (gr_fly _ _ (proj2 HG) g) as (h&Hh&Hu); [|by exists h].
      unfold flying. apply list_elem_of_fmap. exists (g, t). split; [done|by eapply list_elem_of_lookup_2]. }
    cbn. intros _ y1 [HG2 Hd]. eapply wp_mono; [by apply wp_session_put| |done].
    cbn. intros _ y2 (HG3&Hd'&_). split; [done|].
    etrans; [apply (drift_flight y (delete i (y_flight y)))|]. by etrans. }
  destruct (y_flight y !! i) as [[g []]|] eqn:Hi; try (by apply wp_ret).
  - apply (Hrun g _ eq_refl); [apply only_switch_set|intros; by apply wp_switch_set].
  - apply (Hrun g _ eq_refl); [apply only_mux_set|intros; by apply wp_mux_set].
  - apply wp_bind, wp_modify. pose proof (GI_unflight _ _ _ _ _ HG Hi) as HG1.
    eapply wp_mono; [by apply wp_session_put| |done].
    cbn. intros _ y2 (HG3&Hd'&_). split; [done|].
    etrans; [apply (drift_flight y (delete i (y_flight y)))|done].
Qed.

(** Whatever runs in between keeps the invariant and drifts. *)
Lemma wp_arrivals pins (body : arrival → M (hsys W) unit) E y :
  GI pins y →
  (∀ a y, GI pins y → wp (body a) (λ _ y', GI pins y' ∧ drift y y') E y) →
  wp (let! l := next_arrivals in for_each l body) (λ _ y', GI pins y' ∧ drift y y') E y.
Proof.
  intros HG Hb. apply wp_bind. unfold next_arrivals, wp at 1.
  destruct (e_arrivals (y_w y)) as [l w].
  assert (GI pins (y <| y_w := w |>) ∧ drift y (y <| y_w := w |>)) as [HG1 Hd1].
  { destruct HG as [HI []]. split; [split; [done|by constructor]|].
    constructor; try done. cbn. intros g h h' E1 E2. by simplify_eq. }
  apply (wp_for_each l body (λ y', GI pins y' ∧ drift y y')); [done|].
  intros a y1 _ [HG2 Hd2]. eapply wp_mono; [by apply Hb| |done].
  cbn. intros _ y2 [HG3 Hd3]. split; [done|by etrans].
Qed.

Lemma B_drift pins g v L y y' :
  B pins g v L y → GI pins y' → drift y y' → ∃ v' L', B pins g v' L' y' ∧ called v v' ∧ quiet L L'.
Proof.
  intros (HG&Hin&(h&Hh&<-)&<-) HG' Hd.
  assert (is_Some (y_sessions y' !! g)) as [h' Hh'].
  { destruct Hin as [[Hin|Hq] _]; [by apply (gr_pin _ _ (proj2 HG'))|].
    apply (gr_cur _ _ (proj2 HG')). by rewrite (dr_session _ _ Hd). }
  exists (view h'), (own g (y_log y')). destruct (dr_some _ _ Hd g h h' Hh Hh') as [Hc Hq].
  split; [|done]. split_and!; [done| |by exists h'|done].
  destruct (called_inv _ _ Hc) as (c&k&Ev). unfold pinned, session_usable in *. rewrite (dr_session _ _ Hd), Ev. done.
Qed.

Lemma wp_lock_GI pins E y :
  GI pins y → wp (lock P command_polls) (λ _ y', GI pins y' ∧ drift y y') E y.
Proof.
  intros HG. apply wp_arrivals; [done|]. intros [t|i] y1 HG1; [by apply wp_begin|by apply wp_resume].
Qed.

Lemma wp_lock pins g v L (Q : unit → hsys W → Prop) E y :
  B pins g v L y → (∀ v' L' y', B pins g v' L' y' → called v v' → quiet L L' → Q tt y') →
  wp (lock P command_polls) Q E y.
Proof.
  intros HB HQ. eapply wp_mono; [by apply wp_lock_GI, (B_in _ _ _ _ _ HB)| |done].
  intros [] y' [HG Hd]. destruct (B_drift _ _ _ _ _ _ HB HG Hd) as (v'&L'&?&?&?). by eapply HQ.
Qed.

Lemma wp_event_lock pins g v L (Q : unit → hsys W → Prop) E y :
  B pins g v L y → (∀ v' L' y', B pins g v' L' y' → called v v' → quiet L L' → Q tt y') →
  wp event_lock Q E y.
Proof.
  intros HB HQ. eapply wp_mono; [apply wp_arrivals; [by apply (B_in _ _ _ _ _ HB)|]| |done].
  - intros [t|i] y1 HG1; [by apply wp_begin|by apply wp_ret].
  - intros [] y' [HG Hd]. destruct (B_drift _ _ _ _ _ _ HB HG Hd) as (v'&L'&?&?&?). by eapply HQ.
Qed.
End locks.
