(* ===== verification/HostCold.v ===== *)
(** * The production host driver: activation keeps the invariant

    The callbacks of the startup sequencer, the run of its table, the start of
    the control domain, reset restoration and the rollback of a failed
    activation. *)

From S2P Require Import Prelude Wp Fw Drom Mcu Startup Typec HostData HostStart HostStop HostStores.
From S2P Require Import HostLogic HostInv.

(** A run of calls that leave the view alone. *)
Definition Same {W} (pins : list Z) (g : Z) (v : sview) (L : list event) (y : hsys W) : Prop :=
  ∃ L', B pins g v L' y ∧ quiet L L'.

Lemma quiet_never_start L L' : quiet L L' → never is_start L → never is_start L'.
Proof.
  intros (l&->&Hl) HL. apply Forall_app. split; [done|]. eapply Forall_impl; [done|].
  intros [c r] [Hc|Hc]; by destruct c.
Qed.

Ltac quiet_done :=
  lazymatch goal with
  | |- quiet ?L ?L => reflexivity
  | |- quiet _ (_ ++ [_]) => apply quiet_snoc; [reflexivity|quiet_done]
  | H : quiet _ ?L |- quiet _ ?L => etrans; [|exact H]; quiet_done
  end.
(** At the end of a walk. *)
Ltac wsame := cbv beta; lazymatch goal with
  | H : B _ _ _ _ ?y |- Same _ _ _ _ ?y => eexists; split; [exact H|quiet_done]
  end.
Ltac wcalm := wsteps; try wsame.

(** A loop, and what follows it. *)
Lemma wp_loop {S X A} (l : list X) (body : X → M S unit) (k : M S A) (I : S → Prop)
    (Q : A → S → Prop) (E : Z → S → Prop) s :
  I s → (∀ x s, x ∈ l → I s → wp (body x) (λ _, I) E s) → (∀ s, I s → wp k Q E s) →
  wp (do! for_each l body in k) Q E s.
Proof.
  intros Hs Hb Hk. apply wp_bind. eapply wp_mono; [by apply (wp_for_each _ _ I)|..]; [|done].
  intros []. apply Hk.
Qed.
Lemma wp_loop_end {S X} (l : list X) (body : X → M S unit) (I : S → Prop)
    (Q : unit → S → Prop) (E : Z → S → Prop) s :
  I s → (∀ x s, x ∈ l → I s → wp (body x) (λ _, I) E s) → (∀ s, I s → Q tt s) →
  wp (for_each l body) Q E s.
Proof.
  intros Hs Hb Hk. eapply wp_mono; [by apply (wp_for_each _ _ I)|..]; [|done].
  intros []. apply Hk.
Qed.

(** An [int] of a callback is an errno or success. *)
Section try_.
Context {W : Type} `{Mmio Z W} `{HostEnv W}.

Lemma wp_try (m : M (hsys W) unit) (Q : unit → hsys W → Prop) (E : Z → hsys W → Prop) y :
  wp m Q (λ e y', if decide (e = 0) then Q tt y' else E e y') y → wp (try_ (int_of m)) Q E y.
Proof.
  unfold wp, try_, int_of. destruct (m y) as [[[]|e|] y']; cbn; [done| |done].
  intros He. destruct (Z.eqb_spec e 0); by case_decide.
Qed.

Lemma wp_try_same (m : M (hsys W) unit) (I : hsys W → Prop) y :
  wp m (λ _, I) (λ _, I) y → wp (try_ (int_of m)) (λ _, I) (λ _, I) y.
Proof.
  intros Hm. apply wp_try. eapply wp_mono; [exact Hm|done|]. intros e y' HI. by case_decide.
Qed.
End try_.

Section steps.
Context (crc32c : Z → list Z → Z) (start_polls command_polls : nat).
Context `{TypecAbi}.
Context {W : Type} `{Mmio Z W} `{HostEnv W}.
Implicit Types (pins : list Z) (g : Z) (v : sview) (L : list event) (y : hsys W).

Lemma wp_router_read pins g v L off (Q : Z → hsys W → Prop) (E : Z → hsys W → Prop) y :
  B pins g v L y → (∀ x y', B pins g v L y' → Q x y') →
  (∀ y', B pins g v L y' → E (-EINVAL) y') → wp (router_read off) Q E y.
Proof.
  intros HB HQ HE. unfold router_read. wstep; [wstep; by apply HE|].
  eapply wp_readl; [done|]. apply HQ.
Qed.

Lemma wp_router_update pins g v L off mask x y :
  B pins g v L y →
  wp (router_update off mask x) (λ _, Same pins g v L) (λ _, Same pins g v L) y.
Proof.
  intros HB. unfold router_update. wstep. eapply wp_router_read; [done|..].
  - clear HB. intros b y' HB. wcalm.
  - clear HB. intros y' HB. wsame.
Qed.

Lemma wp_delay pins g v L us E y :
  B pins g v L y → wp (x1_delay g us) (λ _, Same pins g v L) E y.
Proof. intros HB. unfold x1_delay. wcalm. Qed.

Lemma wp_owner pins g v L cfg y :
  B pins g v L y → w_fw v = true → wp (x1_owner g cfg) (λ _, Same pins g v L) (λ _, Same pins g v L) y.
Proof.
  intros HB Hfw. unfold x1_owner. wstep. wstep.
  assert (fw_ok (h_fw h) = true) as (d&Ed&_)%fw_ok_bytes by (by rewrite <- Hfw, <- Hv).
  rewrite Ed. wstep; [wcalm|]. apply (wp_loop _ _ _ (B pins g v L)); [done|..]; clear HB.
  - intros off y' _ HB. wsteps; [wsame|done].
  - intros y' HB. wcalm.
Qed.

Lemma wp_store_drom pins g v L y :
  B pins g v L y → wp (x1_store_drom crc32c g) (λ _, Same pins g v L) (λ _, Same pins g v L) y.
Proof.
  intros HB. unfold x1_store_drom. wstep. wstep. wstep.
  rewrite x1_drom_build_ok by (unfold QCOM_USB4_DROM_SIZE; rewrite ?length_replicate; lia).
  set (d := descriptor _ _ _ _ ++ _). apply wp_ret. wstep; [wcalm|].
  assert (length d = 116%nat) as Hd by done.
  assert (∀ i A (k : Z → M (hsys W) A) Q E y', 0 ≤ i ≤ 112 → wp (k (word_at d i)) Q E y' →
    wp (bind (lift (get_unaligned_le32 d i)) k) Q E y') as Hlift.
  { intros i A k Q E y' Hi Hk. destruct (word_at_ok d i) as [-> _]; [lia..|]. by apply wp_bind, wp_ret. }
  do 3 wstep; [wcalm|].
  apply Hlift; [lia|]. do 2 wstep. apply Hlift; [lia|]. do 2 wstep.
  apply (wp_loop _ _ _ (B pins g v L)); [done|..]; clear HB.
  - intros i y' [Hi _]%drom_words_bound HB. apply Hlift; [done|]. by wsteps.
  - intros y' HB. apply wp_loop_end with (I := B pins g v L); [done|..]; clear HB.
    + intros i y1 [Hi _]%drom_words_bound HB. wstep. wstep. apply Hlift; [done|].
      wsteps; [wsame|done].
    + intros y1 HB. wsame.
Qed.

Lemma wp_mcu_start pins g v L y :
  B pins g v L y → wp (router_mcu_start start_polls g) (λ _, Same pins g v L) (λ _, Same pins g v L) y.
Proof.
  intros HB. unfold router_mcu_start. wstep. wstep. wstep.
  pose proof (mcu_start_safe start_polls (h_mcu h) (h_shared h) (y_w y)) as Hs.
  unfold wp at 1. destruct (qcom_usb4_mcu_start _ _ _ _) as [[r sh] w]. cbn in Hs.
  apply (B_w _ _ _ _ w) in HB. wstep. eapply wp_hset0; [exact HB|done|done|].
  clear HB. intros y' HB. apply wp_lift; [done|..]; intros ? ?; wsame.
Qed.

(** Every step but the two that take the PHY leaves the view alone. *)
Lemma wp_step_same pins g v L s h y :
  B pins g v L y → fw_ok (h_fw h) = true → s ≠ X1_PHY_PREPARE → s ≠ X1_PHY_COMPOSITE →
  wp (x1_step_run crc32c start_polls command_polls g s (x1_config_of h))
     (λ _, Same pins g v L) (λ _, Same pins g v L) y.
Proof.
  intros HB Hfw Hn1 Hn2. destruct s; try done; cbn [x1_step_run]; try (by wcalm).
  - wstep. wstep. destruct (fw_ok_bytes _ Hfw) as (d&Ed&Hb&Hne). unfold x1_config_of. cbn. rewrite Ed.
    eapply wp_router; [done|by apply upload_safe|intros ? ? ?; wsame..].
  - by apply wp_store_drom.
  - by apply wp_mcu_start.
  - wstep. apply wp_lift; [done|intros c _|intros e _; wsame]. wstep. wstep.
    eapply wp_router; [done|apply mcu_command_safe|intros ? ? ?; wsame..].
Qed.
End steps.

(** ** The run of the table *)

Section table.
Context (crc32c : Z → list Z → Z) (start_polls command_polls : nat).
Context `{TypecAbi}.
Context {W : Type} `{Mmio Z W} `{HostEnv W}.
Context (pins : list Z) (g : Z) (v : sview) (h : x1_host).
Context (Hrun : running v) (Hfw : fw_ok (h_fw h) = true) (Hw : w_fw v = true).
Implicit Types (L : list event) (y : hsys W).

Let ops := x1_start_ops (W:=W) crc32c start_polls command_polls g.
Let cfg := x1_config_of h.

(** How far the PHY has come. *)
Definition at_phy (a b : bool) : sview :=
  v <| w_v := (w_v v) <| v_phy_initialized := a |> <| v_phy_on := b |> |>.
Definition At (a b : bool) (y : hsys W) : Prop :=
  ∃ L, B pins g (at_phy a b) L y ∧ never is_start L.
Definition Somewhere (y : hsys W) : Prop := ∃ a b, At a b y.

(** The table takes each half of the PHY once. *)
Fixpoint fits (a b : bool) (table : list operation) : bool :=
  match table with
  | [] => true
  | op :: table =>
      match o_kind op, o_step op with
      | PROVIDER, X1_PHY_PREPARE => negb a && fits true b table
      | PROVIDER, X1_PHY_COMPOSITE => negb b && fits a true table
      | _, _ => fits a b table
      end
  end.

Lemma At_same {A} (m : M (hsys W) A) a b y :
  (∀ L, B pins g (at_phy a b) L y →
        wp m (λ _, Same pins g (at_phy a b) L) (λ _, Same pins g (at_phy a b) L) y) →
  At a b y → wp m (λ _, At a b) (λ _, At a b) y.
Proof.
  intros Hm (L&HB&HL).
  eapply wp_mono; [by apply Hm|..]; intros ? y' (L'&HB'&Hq); exists L'; split; try done;
    by eapply quiet_never_start.
Qed.

Lemma wp_stage s (m : M (hsys W) unit) Q E st y :
  wp m (λ _, Q) (λ _, E) y → wp (stage s m) (λ _ s', Q s'.2) (λ _ s', E s'.2) (st, y).
Proof. unfold wp, stage. by destruct (m y) as [[[]|e|] y']. Qed.

Lemma At_delay us a b y : At a b y → At a b (ops_delay_us ops us y).
Proof.
  intros HA. cbn. assert (wp (x1_delay g us) (λ _, At a b) (λ _, At a b) y) as Hd.
  { apply At_same; [|done]. intros L HB. by apply wp_delay. }
  unfold wp in Hd. by destruct (x1_delay g us y) as [[[]|e|] y'].
Qed.

Lemma At_update off mask x a b y :
  At a b y → wp (try_ (ops_update ops off mask x)) (λ _, At a b) (λ _, At a b) y.
Proof.
  intros HA. apply wp_try_same, At_same; [|done]. intros L HB. by apply wp_router_update.
Qed.

Lemma At_read off a b y :
  At a b y → wp (call_read ops off) (λ _, At a b) (λ _, At a b) y.
Proof.
  intros (L&HB&HL). unfold wp, call_read. cbn. unfold x1_read.
  assert (wp (router_read off) (λ _, B pins g (at_phy a b) L) (λ _, B pins g (at_phy a b) L) y) as Hr
    by (eapply wp_router_read; done).
  unfold wp in Hr. destruct (router_read off y) as [[x|e|] y']; [| |done]; cbn.
  - by exists L.
  - destruct (e =? 0); by exists L.
Qed.

Lemma At_clear n a b y :
  At a b y → wp (clear_1200c_loop ops n) (λ _, At a b) (λ _, At a b) y.
Proof.
  revert y. induction n as [|n IH]; intros y HA; cbn [clear_1200c_loop]; apply wp_bind;
    (eapply wp_mono; [by apply At_read| |done]); clear HA; intros x y1 HA;
    (destruct (negb _); [done|]); [done|].
  apply wp_bind. eapply wp_mono; [apply At_update, HA| |done]. clear HA. intros [] y2 HA.
  apply wp_bind, wp_modify, IH. by apply At_delay.
Qed.

(** One row. *)
Lemma At_row op a b y (Q : hsys W → Prop) :
  At a b y →
  match o_kind op, o_step op with
  | PROVIDER, X1_PHY_PREPARE => a = false ∧ ∀ y', At true b y' → Q y'
  | PROVIDER, X1_PHY_COMPOSITE => b = false ∧ ∀ y', At a true y' → Q y'
  | _, _ => ∀ y', At a b y' → Q y'
  end → wp (execute op cfg ops) (λ _, Q) (λ _, Somewhere) y.
Proof.
  intros HA HQ. unfold execute.
  assert (∀ m : M (hsys W) unit, wp m (λ _, At a b) (λ _, At a b) y → (∀ y', At a b y' → Q y') →
    wp m (λ _, Q) (λ _, Somewhere) y) as Hkeep.
  { intros m Hm HQ'. eapply wp_mono; [exact Hm|auto|]. intros e y' HA'. by exists a, b. }
  destruct (o_kind op).
  - destruct (decide (o_step op = X1_PHY_PREPARE)) as [E1|N1];
      [|destruct (decide (o_step op = X1_PHY_COMPOSITE)) as [E2|N2]].
    + rewrite E1 in *. destruct HQ as [-> HQ]. destruct HA as (L&HB&HL). apply wp_try.
      cbn [x1_step_run]. wstep. wstep.
      * eapply wp_phy_init; [done|done|done|..].
        -- clear HB. intros y' HB. apply HQ. exists ((L ++ [(PhySetMode, 0)]) ++ [(PhyInit, 0)]).
           split; [done|]. by do 2 (apply never_snoc; [|done]).
        -- clear HB. intros r y' Hr HB. rewrite decide_False by done. exists false, b.
           eexists. split; [exact HB|]. by do 2 (apply never_snoc; [|done]).
      * rewrite decide_False by done. exists false, b. eexists. split; [exact HB|].
        by apply never_snoc.
    + rewrite E2 in *. destruct HQ as [-> HQ]. destruct HA as (L&HB&HL). apply wp_try.
      cbn [x1_step_run]. eapply wp_phy_power_on; [done|done|done|..].
      * clear HB. intros y' HB. apply HQ. exists (L ++ [(PhyPowerOn, 0)]).
        split; [done|]. by apply never_snoc.
      * clear HB. intros r y' Hr HB. rewrite decide_False by done. exists a, false.
        eexists. split; [exact HB|]. by apply never_snoc.
    + apply Hkeep; [|by destruct (o_step op)]. apply wp_try_same, At_same; [|done].
      intros L HB. by apply wp_step_same.
  - apply Hkeep; [by apply At_update|by destruct (o_step op)].
  - apply Hkeep; [by apply wp_modify, At_delay|by destruct (o_step op)].
  - apply Hkeep; [by apply wp_modify, At_delay|by destruct (o_step op)].
  - apply Hkeep; [|by destruct (o_step op)]. unfold clear_1200c. apply wp_bind.
    eapply wp_mono; [by apply At_clear| |done]. intros [] y' HA'. by apply wp_modify, At_delay.
Qed.

Lemma At_table table a b st y :
  fits a b table = true → At a b y →
  wp (for_each table (λ op, stage (o_step op) (execute op cfg ops)))
     (λ _ s, Somewhere s.2) (λ _ s, Somewhere s.2) (st, y).
Proof.
  revert a b st y. induction table as [|op table IH]; intros a b st y Hf HA; cbn [for_each].
  { apply wp_ret. by exists a, b. }
  set (Q := λ y', ∃ a b, fits a b table = true ∧ At a b y').
  apply wp_bind. apply (wp_mono _ (λ _ s, Q s.2) _ (λ _ s, Somewhere s.2)); [| |done].
  - apply wp_stage, (At_row _ a b); [done|]. cbn [fits] in Hf.
    destruct (o_kind op), (o_step op); try (by intros y' HA'; exists a, b);
      (apply andb_true_iff in Hf as [Hf1 Hf2]; apply negb_true_iff in Hf1; split; [done|];
       intros y' HA'; eexists _, _; done).
  - intros [] [st' y'] (a'&b'&Hf'&HA'). by apply (IH a' b').
Qed.

Lemma At_startup st y :
  st_phase st = X1_NEW → At false false y →
  match x1_startup_run crc32c (Some cfg) (Some ops) (st, y) with
  | (Fault, _) => False
  | (_, (st', y')) => st_phase st' ≠ X1_NEW ∧ Somewhere y'
  end.
Proof.
  intros Hst HA. unfold x1_startup_run. rewrite decide_False by (by intros []).
  assert (wp (startup_body crc32c operations (Some cfg) (Some ops)) (λ _ s, Somewhere s.2)
    (λ _ s, Somewhere s.2) (X1State X1_RUNNING (st_active st) X1_NONE 0, y)) as Hb.
  { unfold startup_body. apply wp_bind.
    apply (wp_mono _ (λ _ s, At false false s.2) _ (λ _ s, At false false s.2)).
    - apply wp_stage. apply wp_lift; [|done..]. apply validate_total. cbn.
      destruct (fw_ok_bytes _ Hfw) as (d&->&_). cbn. lia.
    - intros [] [st1 y1] HA1. apply wp_bind.
      apply (wp_mono _ (λ _ s, At false false s.2) _ (λ _ s, At false false s.2)).
      + apply wp_stage, wp_try_same, At_same; [|done]. intros L HB. by apply wp_owner.
      + intros [] [st2 y2] HA2. apply (At_table operations false false); [by vm_compute|done].
      + intros e [st2 y2] HA2. by exists false, false.
    - intros e [st1 y1] HA1. by exists false, false. }
  unfold wp in Hb. destruct (startup_body _ _ _ _ _) as [[[]|e|] [st' y']]; done.
Qed.
End table.

(** ** The startup, and the control domain *)

Section start.
Context (P : params) (crc32c : Z → list Z → Z) (sha256 : list Z → list Z).
Context (start_polls command_polls : nat).
Context `{TypecAbi}.
Context {W : Type} `{Mmio Z W} `{HostEnv W}.
Implicit Types (pins : list Z) (g : Z) (v : sview) (L : list event) (y : hsys W).

Lemma SI_powered v L :
  SI v L → is_Some (v_gcc (w_v v)) → v_clocks_on (w_v v) = true → v_runtime_held (w_v v) = true →
  powered L.
Proof.
  intros HS Hg Hc Hr. unfold powered. pose proof (si_votes _ _ HS) as Hv. rewrite Hr in Hv. cbn in Hv.
  rewrite (si_lease _ _ HS), (si_clocks _ _ HS), Hc, bool_decide_eq_true_2 by done. cbn. lia.
Qed.

Lemma wp_startup_run pins g v L h (Q : Z → hsys W → Prop) E y :
  B pins g v L y → fw_ok (h_fw h) = true → running v → w_fw v = true →
  w_activated v = true → w_stopping v = false → w_phase v = X1_NEW →
  v_phy_initialized (w_v v) = false → v_phy_on (w_v v) = false →
  (∀ r a b ph L' y', B pins g ((at_phy v a b) <| w_phase := ph |>) L' y' →
     (r = 0 → did is_start L') → Q r y') →
  wp (startup_run crc32c start_polls command_polls g (x1_config_of h)) Q E y.
Proof.
  intros HB Hfw Hrun Hw Ha Hs Hph Hi Ho HQ. unfold startup_run. wstep. wstep. wstep.
  pose proof (B_si _ _ _ _ _ HB) as HS. destruct (si_active _ _ HS Ha Hs) as (Hg&Hc&Hr).
  assert (At pins g v false false y) as HA.
  { exists L. split; [|by apply (si_start _ _ HS)].
    replace (at_phy v false false) with v; [done|].
    destruct v as [?????? [] ????????]. cbn in *. by subst. }
  pose proof (At_startup crc32c start_polls command_polls pins g v h Hrun Hfw Hw (h_state h0) y) as Hrn.
  specialize (Hrn ltac:(by rewrite <- Hph, <- Hv) HA). unfold wp at 1.
  assert (∀ r st y1, st_phase st ≠ X1_NEW → Somewhere pins g v y1 →
    wp (do! hset g (λ h, h <| h_state := st |>) in do! note g StartupRun r in ret r) Q E y1) as Hend.
  { intros r st y1 Hst (a&b&L1&HB1&HL1). wstep.
    pose proof (B_si _ _ _ _ _ HB1) as HS1.
    assert (SI ((at_phy v a b) <| w_phase := st_phase st |>) L1) as HS2.
    { destruct HS1. constructor; try done. cbn. destruct Hrun. congruence. }
    eapply (wp_hset _ _ _ ((at_phy v a b) <| w_phase := st_phase st |>)); [done|by intros ? <-|done..|].
    intros y2 HB2. wstep. eapply wp_note; [done| |].
    - apply SI_log; try done; [by intros []|]. split; [|done]. by apply (SI_powered _ _ HS2).
    - intros y3 HB3. wstep. eapply HQ; [done|]. intros ->. by apply did_here. }
  destruct (x1_startup_run _ _ _ _) as [[[]|e|] [st y1]]; [| |done]; apply Hend; apply Hrn.
Qed.

Lemma wp_start_domain pins g v L y :
  B pins g v L y →
  wp (x1_start_domain g) (λ _, Same pins g v L) (λ _, Same pins g v L) y.
Proof.
  intros HB. unfold x1_start_domain. wstep. wstep. wstep; [wcalm|].
  apply (wp_loop _ _ _ (B pins g v L)); [done|..]; clear HB.
  { intros i y1 _ HB. wsteps; [wsame|done]. }
  intros y1 HB. unfold alloc_rings. do 3 wstep. wstep; [wcalm|]. wstep.
  assert (∀ c v L y (Q : Z → hsys W → Prop) E, neutral c = true → B pins g v L y →
    (∀ r y', B pins g v (L ++ [(c, r)]) y' → Q r y') → wp (nhi_call g c) Q E y) as Hnhi.
  { intros c v' L' y' Q E Hc HB' HQ. eapply wp_struct; [done|..|done]; [|done..].
    intros rr. apply SI_neutral; [done|]. by eapply B_si. }
  wstep. eapply Hnhi; [done..|]. clear HB. intros r2 y2 HB. wstep. wstep; [|wsame].
  apply wp_on_error. unfold domain_body. wstep. eapply Hnhi; [done..|]. clear HB. intros r1 y3 HB.
  wsteps; try wsame; (eapply Hnhi; [done..|]; clear HB; intros ? ? HB; wcalm).
Qed.
End start.

(** ** Activation *)

(** The handler has its session pinned, whatever it looks like. *)
Definition Alive {W} (pins : list Z) (g : Z) (y : hsys W) : Prop := ∃ v L, B pins g v L y.
(** Started, but the router is not in use yet. *)
Definition Idle {W} (pins : list Z) (g : Z) (y : hsys W) : Prop :=
  ∃ v L, B pins g v L y ∧ running v ∧ w_activated v = false.

Lemma SI_fw v L b : SI v L → SI (v <| w_fw := b |>) L.
Proof. intros []. by constructor. Qed.

Section activate.
Context (P : params) (crc32c : Z → list Z → Z) (sha256 : list Z → list Z).
Context (start_polls command_polls : nat).
Context `{TypecAbi}.
Context {W : Type} `{Mmio Z W} `{HostEnv W}.
Implicit Types (pins : list Z) (g : Z) (v : sview) (L : list event) (y : hsys W).

(** Sequencing after a calm computation. *)
Lemma wp_then {A} pins g v L (m : M (hsys W) A) (Q : A → hsys W → Prop) (E : Z → hsys W → Prop) y :
  wp m (λ _, Same pins g v L) (λ _, Same pins g v L) y →
  (∀ a L' y', B pins g v L' y' → quiet L L' → Q a y') →
  (∀ e L' y', B pins g v L' y' → quiet L L' → E e y') → wp m Q E y.
Proof.
  intros Hm HQ HE. eapply wp_mono; [exact Hm|..]; intros ? y' (L'&HB&Hq); [by eapply HQ|by eapply HE].
Qed.

Lemma wp_attempt_then pins g v L (m : M (hsys W) unit) (Q : Z → hsys W → Prop) E y :
  wp m (λ _, Same pins g v L) (λ _, Same pins g v L) y →
  (∀ r L' y', B pins g v L' y' → quiet L L' → Q r y') → wp (attempt m) Q E y.
Proof.
  intros Hm HQ. apply wp_attempt.
  eapply wp_mono; [exact Hm|..]; intros ? y' (L'&HB&Hq); by eapply HQ.
Qed.

Lemma wp_each {X} pins g v L (l : list X) body y :
  B pins g v L y →
  (∀ x L y, B pins g v L y → wp (body x) (λ _, Same pins g v L) (λ _, Same pins g v L) y) →
  wp (for_each l body) (λ _, Same pins g v L) (λ _, Same pins g v L) y.
Proof.
  intros HB Hb. apply (wp_for_each l body (Same pins g v L)); [by exists L|].
  intros x y1 _ (L1&HB1&Hq). eapply wp_then; [by apply Hb|..]; intros ? L2 y2 HB2 Hq2;
    (exists L2; split; [done|by etrans]).
Qed.

Lemma wp_dma_check pins g v L y :
  B pins g v L y →
  wp (x1_dma_check g) (λ _, Same pins g v L) (λ e y', e ≠ 0 ∧ Same pins g v L y') y.
Proof. intros HB. unfold x1_dma_check. wcalm; (split; [done|wsame]). Qed.

Lemma wp_firmware pins g v L (Q : unit → hsys W → Prop) (E : Z → hsys W → Prop) y :
  B pins g v L y →
  (∀ L' y', B pins g (v <| w_fw := true |>) L' y' → quiet L L' → Q tt y') →
  (∀ e b L' y', B pins g (v <| w_fw := b |>) L' y' → quiet L L' → (e = 0 → b = true) → E e y') →
  wp (x1_firmware sha256 g) Q E y.
Proof.
  intros HB HQ HE. pose proof (B_si _ _ _ _ _ HB) as HS. unfold x1_firmware. wstep.
  unfold request_firmware, wp at 1. destruct (e_firmware (y_w y)) as [[r data] w].
  assert (B pins g v (L ++ [(RequestFirmware, r)])
    (y <| y_w := w |> <| y_log := y_log y ++ [(g, (RequestFirmware, r))] |>)) as HB1.
  { apply Ahead_B; [by exists y, w|by apply SI_neutral]. }
  cbv zeta. destruct (Z.eqb_spec r 0) as [->|Hr]; cbn [negb].
  2: { eapply (HE r (w_fw v)); [destruct v; exact HB1|quiet_done|done]. }
  set (bytes := u8 <$> data). wstep.
  eapply (wp_hset _ _ _ (v <| w_fw := fw_ok (Some bytes) |>)); [exact HB1|by intros ? <-|done|done| |].
  { by apply SI_fw, SI_neutral. }
  clear HB1. intros y2 HB2.
  wstep; [wstep; eapply HE; [exact HB2|quiet_done|done]|].
  wstep; [wstep; eapply HE; [exact HB2|quiet_done|done]|].
  assert (fw_ok (Some bytes) = true) as Hok.
  { unfold fw_ok. destruct bytes as [|b d] eqn:Eb; [done|]. rewrite <- Eb. apply forallb_forall.
    intros x Hx. apply list_elem_of_In in Hx. unfold bytes in Hx.
    apply list_elem_of_fmap in Hx as (z&->&_). pose proof (u8_range z). unfold is_byte in *. lia. }
  rewrite Hok in HB2. apply wp_lift; [apply validate_never_faults; lia| |];
    [intros [] _; eapply HQ|intros ? _; eapply HE]; try exact HB2; try quiet_done; done.
Qed.

Lemma wp_admit pins g v L (Q : unit → hsys W → Prop) (E : Z → hsys W → Prop) y :
  B pins g v L y →
  (∀ L' y', B pins g (v <| w_fw := true |>) L' y' → quiet L L' → Q tt y') →
  (∀ e b L' y', B pins g (v <| w_fw := b |>) L' y' → quiet L L' → (e = 0 → b = true) → E e y') →
  wp (activate_admit sha256 g) Q E y.
Proof.
  intros HB HQ HE. unfold activate_admit. wstep. wstep. wstep.
  assert (∀ b, v <| w_fw := b |> <| w_fw := w_fw v |> = v) as Hid by (by intros b; destruct v).
  assert (∀ L1 y1, B pins g v L1 y1 → quiet L L1 →
    wp (do! pset (λ p, p <| q_module_held := true |>) in
        do! x1_dma_check g in
        do! x1_firmware sha256 g in
        let! p := pget in
        if q_runtime_enabled p then ret tt else
        do! must g PmRuntimeEnable in
        pset (λ p, p <| q_runtime_enabled := true |>)) Q E y1) as Hrest.
  { clear HB. intros L1 y1 HB Hq. wstep. wstep. wstep.
    eapply wp_mono; [by apply wp_dma_check|..]; clear HB.
    - intros ? y2 (L2&HB&Hq2). wstep. eapply wp_firmware; [exact HB|..]; clear HB.
      + intros L3 y3 HB Hq3. wsteps; first [eapply HQ|eapply HE]; try exact HB; try quiet_done; done.
      + intros e b L3 y3 HB Hq3 He. eapply HE; [exact HB|quiet_done|done].
    - intros e y2 (He&L2&HB&Hq2). apply (HE _ (w_fw v) L2); [destruct v; exact HB|quiet_done|done]. }
  wstep; [wstep; by eapply Hrest|]. wstep. wstep. wstep.
  - wstep. eapply (HE _ (w_fw v)); [destruct v; exact HB|quiet_done|done].
  - wstep. eapply Hrest; [exact HB|quiet_done].
Qed.

Lemma wp_reset_state pins g v L old y E :
  B pins g v L y → wp (gcc_reset_state g old) (λ _, Same pins g v L) E y.
Proof. intros HB. unfold gcc_reset_state. wcalm. Qed.

Lemma wp_read_restore pins g v L y E :
  B pins g v L y → wp (read_restore_state g) (λ _, Same pins g v L) E y.
Proof. intros HB. unfold read_restore_state, gcc_reset_state. wcalm. Qed.

Lemma wp_restore_resets pins g v L y :
  B pins g v L y →
  wp (x1_restore_resets P g) (λ _, Same pins g v L) (λ e y', e ≠ 0 ∧ Same pins g v L y') y.
Proof.
  intros HB. unfold x1_restore_resets. do 2 wstep. wstep; [wstep; split; [done|wsame]|].
  assert (wp (restore_body P g) (λ _, Same pins g v L) (λ _, Same pins g v L) y) as Hbody.
  { unfold restore_body, gcc_reset_state. wstep.
    eapply wp_then; [by apply wp_read_restore|..]; clear HB; intros ? L1 y1 HB Hq1; cbv beta; [|wcalm].
    wstep. wstep. wstep; [wcalm|]. wstep; [wcalm|].
    do 4 wstep. eapply wp_then; [apply wp_each; [exact HB|]|..]; clear HB.
    - intros i L2 y2 HB. wcalm.
    - intros ? L2 y2 HB Hq2. cbv beta. wstep. wstep. wstep.
      eapply wp_then; [by apply wp_read_restore|..]; clear HB; intros ? L3 y3 HB Hq3; cbv beta; wcalm.
    - intros e L2 y2 HB Hq2. wsame. }
  wstep. eapply wp_attempt_then; [exact Hbody|]. clear HB. intros r L' y' HB Hq. cbv beta.
  destruct (Z.eqb_spec r 0); wcalm. split; [done|wsame].
Qed.

Lemma wp_assert_each pins g v l first L y E :
  B pins g v L y → wp (assert_each g l first) (λ _, Same pins g v L) E y.
Proof.
  revert first L y. induction l as [|i l IH]; intros first L y HB; cbn [assert_each]; [wcalm|].
  wstep. wstep. eapply wp_mono; [by apply IH| |done].
  intros ? y' (L'&HB'&Hq). exists L'. split; [done|]. etrans; [|exact Hq]. quiet_done.
Qed.

Lemma wp_rehold pins g v L y E :
  B pins g v L y → wp (x1_rehold_resets g) (λ _, Same pins g v L) E y.
Proof.
  intros HB. unfold x1_rehold_resets. wstep.
  eapply wp_mono; [by apply wp_assert_each| |done]. clear HB. intros ? y1 (L1&HB&Hq). wstep. wstep.
  wstep. eapply wp_mono; [by apply wp_read_restore| |done]. clear HB. intros ? y2 (L2&HB&Hq2). wcalm.
Qed.

Lemma wp_clk_enable pins g v L (Q : unit → hsys W → Prop) (E : Z → hsys W → Prop) y :
  B pins g v L y → running v → v_clocks_on (w_v v) = false →
  (∀ y', B pins g (v <| w_v := (w_v v) <| v_clocks_on := true |> |>) (L ++ [(ClkBulkEnable, 0)]) y' →
     Q tt y') →
  (∀ r y', r ≠ 0 → B pins g v (L ++ [(ClkBulkEnable, r)]) y' → E r y') →
  wp (do! must g ClkBulkEnable in vset g (λ p, p <| v_clocks_on := true |>)) Q E y.
Proof.
  intros HB Hrun Hg HQ HE. pose proof (B_si _ _ _ _ _ HB) as HS. unfold must.
  assert (held Clocks L = 0) as Hl by (by rewrite (si_clocks _ _ HS), Hg).
  wstep. wstep. eapply wp_call_ahead; [done|]. intros r y' HA. apply wp_ok_or_fail.
  - intros ->. eapply wp_vset_ahead; [done..| |by apply HQ].
    apply SI_provider; try done; try apply Hrun; cbn; rewrite ?Z.add_0_r; try apply HS.
    + by rewrite Hl.
    + intros Ha Hs. by destruct (si_active _ _ HS Ha Hs) as (?&?&?).
  - intros Hr. apply HE; [done|]. apply Ahead_B; [done|]. apply SI_call; try done.
    intros []; try done. cbn. by destruct (Z.eqb_spec r 0).
Qed.

(** [ret = pm_runtime_resume_and_get(dev); if (ret < 0) ...; host->runtime_held = true;] *)
Lemma wp_resume_and_get pins g v L (k : Z → M (hsys W) Z) (k' : M (hsys W) Z) Q E y :
  B pins g v L y → running v → w_stopping v = false → v_runtime_held (w_v v) = false →
  (∀ r y', r < 0 → B pins g v (L ++ [(PmResumeAndGet, r)]) y' → wp (k r) Q E y') →
  (∀ r y', 0 ≤ r →
     B pins g (v <| w_v := (w_v v) <| v_runtime_held := true |> |>) (L ++ [(PmResumeAndGet, r)]) y' →
     wp k' Q E y') →
  wp (let! r := call g PmResumeAndGet in
      if r <? 0 then k r else do! vset g (λ p, p <| v_runtime_held := true |>) in k') Q E y.
Proof.
  intros HB Hrun Hst Hg HQ HE. pose proof (B_si _ _ _ _ _ HB) as HS.
  assert (held Votes L = 0) as Hl by (by rewrite (si_votes_live _ _ HS Hst), Hg).
  wstep. eapply wp_call_ahead; [done|]. intros r y' HA. destruct (Z.ltb_spec r 0).
  - apply HQ; [done|]. apply Ahead_B; [done|]. apply SI_call; try done.
    intros []; try done. cbn. by destruct (Z.leb_spec 0 r); [lia|].
  - wstep. eapply wp_vset_ahead; [done..| |intros y2 HB2; by eapply HE].
    apply SI_provider; try done; try apply Hrun; cbn; rewrite ?Z.add_0_r; try apply HS.
    + destruct (Z.leb_spec 0 r); [|lia]. cbn. lia.
    + destruct (Z.leb_spec 0 r); [|lia]. cbn. lia.
    + intros Ha Hs. by destruct (si_active _ _ HS Ha Hs) as (?&?&?).
Qed.

Lemma wp_activate_stopped pins g r y E :
  Alive pins g y → wp (activate_stopped P command_polls g r) (λ _, Alive pins g) E y.
Proof.
  intros (v&L&HB). unfold activate_stopped. wstep. eapply wp_lock; [exact HB|].
  clear HB. intros v1 L1 y1 HB _ _. do 6 wstep. wstep.
  - wstep. wstep. pose proof (B_si _ _ _ _ _ HB).
    eapply (wp_hset _ _ _ (v1 <| w_fw := false |>)); [exact HB|by intros ? <-|done|done|by apply SI_fw|].
    clear HB. intros y2 HB. wstep. eexists _, _. exact HB.
  - wstep. wstep. eexists _, _. exact HB.
Qed.

Lemma wp_activate_release pins g r y E :
  Idle pins g y → wp (activate_release P command_polls g r) (λ _, Alive pins g) E y.
Proof.
  intros (v&L&HB&Hrun&Ha). unfold activate_release. wstep. wstep. wstep.
  assert (∀ held L' y', B pins g v L' y' →
    wp (do! (if held !=? 0 then ret tt else x1_release_power g) in
        activate_stopped P command_polls g r) (λ _, Alive pins g) E y') as Hrest.
  { clear HB. intros held L' y' HB. wstep. wstep.
    - wstep. apply wp_activate_stopped. eexists _, _. exact HB.
    - eapply wp_release_power; [exact HB|split; [done|congruence]|]. intros L2 y2 HB2.
      apply wp_activate_stopped. eexists _, _. exact HB2. }
  wstep; [|wstep; by eapply Hrest].
  eapply wp_mono; [by apply wp_rehold| |done]. intros held y1 (L1&HB1&_). by eapply Hrest.
Qed.

(** Every provider of the router has been taken. *)
Definition ready_to_start (v : sview) : Prop :=
  running v ∧ w_activated v = false ∧ w_stopping v = false ∧ w_phase v = X1_NEW ∧
  is_Some (v_gcc (w_v v)) ∧ v_clocks_on (w_v v) = true ∧ v_runtime_held (w_v v) = true ∧
  v_phy_initialized (w_v v) = false ∧ v_phy_on (w_v v) = false ∧ w_fw v = true.

Lemma wp_activate_start pins g v L y E :
  B pins g v L y → ready_to_start v →
  wp (activate_start P crc32c start_polls command_polls g) (λ _, Alive pins g) E y.
Proof.
  intros HB (Hrun&Ha&Hs&Hph&Hg&Hc&Hr&Hi&Ho&Hw). pose proof (B_si _ _ _ _ _ HB) as HS.
  unfold activate_start. wstep. wstep.
  assert (fw_ok (h_fw h) = true) as Hfw by (by rewrite <- Hw, <- Hv).
  destruct (fw_ok_bytes _ Hfw) as (d&Ed&_). rewrite Ed.
  set (v1 := v <| w_activated := true |>).
  assert (SI v1 L) as HS1.
  { destruct HS. constructor; try done; cbn.
    - destruct Hrun. congruence.
    - intros Hrd. by destruct (si_ready Hrd). }
  wstep. eapply (wp_hset _ _ _ v1); [exact HB|by intros ? <-|done..|]. clear HB. intros y1 HB.
  wstep. eapply wp_startup_run; [exact HB|done..|]. clear HB. intros r a b ph L2 y2 HB Hdid.
  wstep; [apply wp_activate_stopped; eexists _, _; exact HB|].
  apply negb_false_iff, Z.eqb_eq in Heqb0. specialize (Hdid Heqb0).
  wstep. eapply wp_attempt_then; [by apply wp_start_domain|]. clear HB. intros e L3 y3 HB Hq3.
  cbv beta. wstep; [apply wp_activate_stopped; eexists _, _; exact HB|].
  wstep. eapply wp_lock; [exact HB|]. clear HB. intros v4 L4 y4 HB Hcl Hq4.
  pose proof (B_si _ _ _ _ _ HB) as HS4. destruct (called_inv _ _ Hcl) as (c&k&->).
  match type of HB with B _ _ ?v _ _ => set (v5 := v <| w_ready := true |>) end.
  assert (SI v5 L4) as HS5.
  { destruct HS4. constructor; try done. cbn. intros _. split_and!; [done..|].
    by eapply quiet_did, quiet_did. }
  wstep. eapply (wp_hset _ _ _ v5); [exact HB|intros ? Hk; unfold v5; by rewrite <- Hk|done..|]. clear HB. intros y5 HB.
  wstep. eapply wp_mono; [by apply wp_apply_link| |done]. clear HB.
  intros r' y6 (v6&L6&HB&_). cbv beta. wstep.
  - apply wp_activate_stopped. eexists _, _. exact HB.
  - wstep. eexists _, _. exact HB.
Qed.

Lemma Idle_intro pins g v L y : B pins g v L y → running v → w_activated v = false → Idle pins g y.
Proof. intros. by exists v, L. Qed.
Lemma Idle_Alive pins g y : Idle pins g y → Alive pins g y.
Proof. intros (v&L&HB&_). by exists v, L. Qed.

(** The votes and the clocks; the lease may have been taken before. *)
Lemma wp_votes pins g v L (Q : unit → hsys W → Prop) (E : Z → hsys W → Prop) y :
  B pins g v L y → running v → w_activated v = false → v_clocks_on (w_v v) = false →
  (x1_general P = false → v_gcc (w_v v) = None) →
  (∀ x L' y', B pins g (v <| w_v := (w_v v) <| v_gcc := Some x |> <| v_clocks_on := true |> |>) L' y' →
     Q tt y') →
  (∀ e y', e ≠ 0 → Idle pins g y' → E e y') → wp (activate_votes P g) Q E y.
Proof.
  intros HB Hrun Ha Hc Hgen HQ HE0. unfold activate_votes.
  assert (∀ e p L1 y1, e ≠ 0 → B pins g (v <| w_v := p |>) L1 y1 → E e y1) as HE.
  { intros e p L1 y1 He HB1. apply HE0; [done|]. by eapply Idle_intro. }
  assert (B pins g (v <| w_v := w_v v |>) L y) as HB0 by (by destruct v). clear HB. rename HB0 into HB.
  wstep. wstep; [|by eapply HE]. wstep. wstep; [|by eapply HE]. wstep. wstep. wstep.
  assert (∀ p x L3 y3, B pins g (v <| w_v := p |>) L3 y3 →
    p = (w_v v) <| v_gcc := Some x |> <| v_clocks_on := true |> →
    wp (if x1_general P then must g GccPowerOn else ret tt) Q E y3) as Hend.
  { clear HB. intros p x L3 y3 HB ->. wsteps; [by eapply HQ|by eapply HE|by eapply HQ]. }
  assert (∀ p L1 y1, B pins g (v <| w_v := p |>) L1 y1 →
    p = w_v v ∨ (∃ x, p = (w_v v) <| v_gcc := Some x |>) →
    wp (do! must g ClkBulkEnable in
        do! vset g (λ p, p <| v_clocks_on := true |>) in
        let! h := hget g in
        do! (match v_gcc (h_v h) with None => take_gcc g | Some _ => ret tt end) in
        if x1_general P then must g GccPowerOn else ret tt) Q E y1) as Hrest.
  { clear HB. intros p L1 y1 HB Hp.
    assert (v_clocks_on p = false) as Hpc by (destruct Hp as [->|(x&->)]; done).
    apply wp_assoc, wp_bind. eapply wp_clk_enable; [exact HB|done|done|..]; clear HB.
    2: { intros r y2 Hr HB. by eapply HE. }
    intros y2 HB. wstep. wstep. wstep.
    assert (v_gcc (h_v h0) = v_gcc p) as -> by (change (h_v h0) with (w_v (view h0)); by rewrite Hv0).
    destruct (v_gcc p) as [z|] eqn:Eg.
    - wstep. apply (Hend (p <| v_clocks_on := true |>) z _ _ HB).
      destruct Hp as [->|(x&->)]; destruct (w_v v); cbn in Eg; by simplify_eq.
    - eapply wp_take_gcc; [exact HB|done|done|done|..]; clear HB.
      + intros x y3 HB. apply (Hend (p <| v_clocks_on := true |> <| v_gcc := Some x |>) x _ _ HB).
        destruct Hp as [->|(x'&->)]; by destruct (w_v v).
      + intros r y3 Hr HB. by apply (HE _ (p <| v_clocks_on := true |>) _ _ Hr HB). }
  wstep.
  - apply andb_true_iff in Heqb as [Hng _]. apply negb_true_iff in Hng. wstep.
    eapply wp_take_gcc; [exact HB|done|by apply Hgen|done|..]; clear HB.
    + intros x y1 HB. eapply wp_mono; [by apply wp_restore_resets|..]; clear HB.
      * intros [] y2 (L2&HB&Hq2). eapply Hrest; [exact HB|]. right. by exists x.
      * intros e y2 (He&L2&HB&Hq2). by eapply (HE _ ((w_v v) <| v_gcc := Some x |>)).
    + intros r y1 Hr HB. by eapply HE.
  - wstep. apply (Hrest (w_v v) _ _ HB). by left.
Qed.

Lemma wp_early pins g v L y :
  B pins g v L y → wp (activate_early P g) (λ _, Same pins g v L) (λ _, Same pins g v L) y.
Proof.
  intros HB. unfold activate_early. wstep.
  eapply wp_mono; [by apply wp_restore_resets|..]; clear HB.
  - intros ? y1 (L1&HB&Hq). wcalm.
  - intros ? y1 (_&L1&HB&Hq). wsame.
Qed.

(** From the lease on. *)
Lemma wp_activate_tail pins g v L y E :
  B pins g v L y → running v → w_activated v = false → w_stopping v = false →
  w_phase v = X1_NEW → v_clocks_on (w_v v) = false → v_runtime_held (w_v v) = false →
  v_phy_initialized (w_v v) = false → v_phy_on (w_v v) = false → w_fw v = true →
  (x1_general P = false → v_gcc (w_v v) = None) →
  wp (let! r := call g PmResumeAndGet in
      if r <? 0 then
        let! h := hget g in
        match v_gcc (h_v h) with
        | Some _ => activate_release P command_polls g r
        | None => activate_stopped P command_polls g r
        end
      else
      do! vset g (λ p, p <| v_runtime_held := true |>) in
      let! r := attempt (activate_votes P g) in
      if r !=? 0 then activate_release P command_polls g r else
      activate_start P crc32c start_polls command_polls g) (λ _, Alive pins g) E y.
Proof.
  intros HB Hrun Ha Hst Hph Hc Hr Hi Ho Hw Hg. eapply wp_resume_and_get; [exact HB|done..| |]; clear HB.
  - intros r y1 Hneg HB. wstep. wstep. wstep.
    + apply wp_activate_release. by eapply Idle_intro.
    + apply wp_activate_stopped. by eexists _, _.
  - intros r y1 _ HB. wstep. apply wp_attempt. eapply wp_votes; [exact HB|done..| |]; clear HB.
    + intros x L2 y2 HB. cbn [negb Z.eqb]. by eapply wp_activate_start.
    + intros e y2 He HI. destruct (Z.eqb_spec e 0); [done|]. by apply wp_activate_release.
Qed.

Lemma wp_activate pins g y E :
  Alive pins g y →
  wp (x1_activate P crc32c sha256 start_polls command_polls g) (λ _, Alive pins g) E y.
Proof.
  intros (v&L&HB). pose proof (B_si _ _ _ _ _ HB) as HS. unfold x1_activate. wstep. wstep.
  wstep; [wstep; by exists v, L|]. wstep; [wstep; by exists v, L|]. wstep; [wstep; by exists v, L|].
  assert (w_startup v = false) as Hst by (by rewrite <- Hv).
  assert (w_stopping v = false) as Hstop by (by rewrite <- Hv).
  destruct (si_pristine _ _ HS Hst) as (Hv0&Hact&Hph&HV).
  assert (w_retired v = false) as Hret.
  { destruct (w_retired v) eqn:Er; [|done]. destruct (si_retired _ _ HS Er). congruence. }
  set (v1 := v <| w_startup := true |>).
  assert (SI v1 L) as HS1.
  { destruct HS. constructor; try done. cbn. congruence. }
  wstep. eapply (wp_hset _ _ _ v1); [exact HB|by intros ? <-|done..|]. clear HB. intros y1 HB.
  assert (running v1) as Hrun by done.
  wstep. apply wp_attempt. set (early := x1_general P && (1 <? h_generation h)).
  assert (∀ L2 y2, B pins g (v1 <| w_fw := true |>) L2 y2 →
    wp (let! r := (if early then attempt (take_gcc g) else ret 0) in
        if r !=? 0 then activate_stopped P command_polls g r else
        let! r := (if early then attempt (activate_early P g) else ret 0) in
        if r !=? 0 then activate_release P command_polls g r else
        let! r := call g PmResumeAndGet in
        if r <? 0 then
          let! h := hget g in
          match v_gcc (h_v h) with
          | Some _ => activate_release P command_polls g r
          | None => activate_stopped P command_polls g r
          end
        else
        do! vset g (λ p, p <| v_runtime_held := true |>) in
        let! r := attempt (activate_votes P g) in
        if r !=? 0 then activate_release P command_polls g r else
        activate_start P crc32c start_polls command_polls g) (λ _, Alive pins g) E y2) as Hrest.
  { clear HB. intros L2 y2 HB. wstep. destruct early eqn:Ee.
    - wstep. eapply wp_take_gcc; [exact HB|done|cbn; by rewrite Hv0|done|..]; clear HB.
      + intros x y3 HB. cbn [negb Z.eqb]. wstep.
        eapply wp_attempt_then; [by apply wp_early|]. clear HB. intros r L4 y4 HB _. cbv beta.
        destruct (r =? 0); cbn [negb].
        * eapply wp_activate_tail; [exact HB|done|done|done|done|cbn; by rewrite Hv0..|done|].
          intros Hg. unfold early in Ee. by rewrite Hg in Ee.
        * apply wp_activate_release. by eapply Idle_intro.
      + intros r y3 Hr HB. destruct (Z.eqb_spec r 0); [done|]. apply wp_activate_stopped. by eexists _, _.
    - wstep. cbn [negb Z.eqb]. wstep. wstep. cbn [negb Z.eqb].
      eapply wp_activate_tail; [exact HB|done|done|done|done|cbn; by rewrite Hv0..|done|].
      intros _. cbn. by rewrite Hv0. }
  eapply wp_admit; [exact HB|..]; clear HB.
  - intros L2 y2 HB _. cbn [negb Z.eqb]. by eapply Hrest.
  - intros e b L2 y2 HB _ He. destruct (Z.eqb_spec e 0) as [->|Hne]; cbn [negb].
    + rewrite He in HB by done. by eapply Hrest.
    + apply wp_activate_stopped. by eexists _, _.
Qed.
End activate.
