(* ===== verification/HostDown.v ===== *)
(** * The production host driver: stopping and retiring keep the invariant

    The lease that is borrowed to release the resets, the receipts of the
    control rings, the two power stops, and the retirement of the domain and
    of the session. *)

From S2P Require Import Prelude Wp Fw Drom Mcu Startup Typec HostData HostStart HostStop HostStores.
From S2P Require Import HostLogic HostInv HostCold.

(** ** Calls that balance *)

Definition flat (L L' : list event) : Prop := ∃ l, L' = L ++ l ∧ ∀ x, held x l = 0.

#[export] Instance flat_preorder : PreOrder flat.
Proof.
  split.
  - intros L. exists []. by rewrite app_nil_r.
  - intros L1 L2 L3 (l&->&Hl) (l'&->&Hl'). exists (l ++ l'). rewrite app_assoc.
    split; [done|]. intros x. by rewrite held_app, Hl, Hl'.
Qed.
Lemma flat_snoc L L' c r : neutral c = true → flat L L' → flat L (L' ++ [(c, r)]).
Proof.
  intros Hc (l&->&Hl). exists (l ++ [(c, r)]). rewrite app_assoc. split; [done|].
  intros x. by rewrite held_snoc, Hl, neutral_weigh.
Qed.
Lemma flat_log L L' e : (∀ x, weigh x e = 0) → flat L L' → flat L (L' ++ [e]).
Proof.
  intros Hc (l&->&Hl). exists (l ++ [e]). rewrite app_assoc. split; [done|].
  intros x. by rewrite held_snoc, Hl, Hc.
Qed.
Lemma quiet_flat L L' : quiet L L' → flat L L'.
Proof.
  intros Hq. pose proof (λ x, quiet_held x _ _ Hq) as Hh. destruct Hq as (l&->&_). exists l.
  split; [done|]. intros x. specialize (Hh x). rewrite held_app in Hh. lia.
Qed.
Lemma flat_held x L L' : flat L L' → held x L' = held x L.
Proof. intros (l&->&Hl). rewrite held_app, Hl. lia. Qed.

(** The log only grows. *)
Definition grows (L L' : list event) : Prop := ∃ l, L' = L ++ l.
#[export] Instance grows_preorder : PreOrder grows.
Proof.
  split; [intros L; exists []; by rewrite app_nil_r|].
  intros L1 L2 L3 (l&->) (l'&->). exists (l ++ l'). by rewrite app_assoc.
Qed.
Lemma flat_grows L L' : flat L L' → grows L L'.
Proof. intros (l&->&_). by exists l. Qed.
Lemma quiet_grows L L' : quiet L L' → grows L L'.
Proof. intros (l&->&_). by exists l. Qed.
Lemma grows_snoc L L' e : grows L L' → grows L (L' ++ [e]).
Proof. intros (l&->). exists (l ++ [e]). by rewrite app_assoc. Qed.
Lemma grows_did p L L' : grows L L' → did p L → did p L'.
Proof. intros (l&->) Hd. apply did_app. by left. Qed.
Lemma grows_released L L' : grows L L' → domain_released L → domain_released L'.
Proof. intros (l&->) (r&Hr&?). exists r. split; [|done]. apply elem_of_app. by left. Qed.

Lemma protocol_neutral L l :
  protocol L → Forall (λ e : event, neutral e.1 = true) l → protocol (L ++ l).
Proof.
  intros HL Hl. revert L HL. induction Hl as [|[c r] l Hc Hl IH]; intros L HL; [by rewrite app_nil_r|].
  rewrite (cons_middle (c, r)), app_assoc. apply IH. by apply protocol_snoc, neutral_permitted.
Qed.
Lemma held_neutral x l : Forall (λ e : event, neutral e.1 = true) l → held x l = 0.
Proof.
  induction 1 as [|[c r] l Hc Hl IH]; [done|]. unfold held in *. cbn [foldr].
  rewrite IH, neutral_weigh; done.
Qed.

Lemma SI_extend v L l :
  SI v L → (∀ x, held x l = 0) → protocol (L ++ l) → never is_start l → never is_connect l →
  SI v (L ++ l).
Proof.
  intros HS Hh Hp Hs Hc. assert (grows L (L ++ l)) as Hg by (by exists l).
  pose proof HS as []. constructor; rewrite ?held_app, ?Hh, ?Z.add_0_r; auto.
  - intros Hx. apply Forall_app. split; [by apply HS|done].
  - intros Hr. destruct (si_ready Hr) as (?&?&?). split_and!; [done..|by eapply grows_did].
  - intros Hx. apply Forall_app. split; [by apply HS|done].
  - intros ?. eapply grows_did; eauto.
  - intros ?. eapply grows_did; eauto.
  - intros ?. eapply grows_did; eauto.
  - intros ?. eapply grows_did; eauto.
  - intros ?. eapply grows_did; eauto.
  - intros ?. eapply grows_released; eauto.
Qed.

(** ** Between a call and the receipt that records it *)

Section own.
Context {W : Type} `{Mmio Z W} `{HostEnv W}.
Implicit Types (pins : list Z) (g : Z) (h : x1_host) (v : sview) (L : list event) (y : hsys W).

Lemma Own_lookup pins g h L y : Own pins g h L y → y_sessions y !! g = Some h.
Proof. intros (y0&h0&_&_&_&_&_&->&_). apply lookup_insert_eq. Qed.

Lemma wp_own_hget pins g h L (Q : x1_host → hsys W → Prop) E y :
  Own pins g h L y → Q h y → wp (hget g) Q E y.
Proof. intros HO HQ. unfold wp, hget. by rewrite (Own_lookup _ _ _ _ _ HO). Qed.

Lemma wp_own_hset pins g h L f (Q : unit → hsys W → Prop) E y :
  Own pins g h L y → h_ref (f h) = h_ref h → h_generation (f h) = h_generation h →
  (h_fully_retired h = true → h_fully_retired (f h) = true) →
  (∀ y', Own pins g (f h) L y' → Q tt y') → wp (hset g f) Q E y.
Proof.
  intros HO R1 R2 R3 HQ. unfold wp, hset. rewrite (Own_lookup _ _ _ _ _ HO). apply HQ.
  pose proof (Own_upd _ _ _ (f h) _ None (y_w y) _ HO R1 R2 R3) as HU.
  unfold upd, snoc in HU. rewrite !app_nil_r in HU. exact HU.
Qed.

Lemma wp_own_call2 pins g h L c (Q : Z * Z → hsys W → Prop) E y :
  Own pins g h L y → (∀ r x y', Own pins g h (L ++ [(c, r)]) y' → Q (r, x) y') → wp (call2 g c) Q E y.
Proof.
  intros HO HQ. unfold wp, call2. destruct (e_call c (y_w y)) as [[r x] w]. apply HQ.
  pose proof (Own_upd _ _ _ h _ (Some (c, r)) w _ HO eq_refl eq_refl (λ x, x)) as HU.
  unfold upd in HU. rewrite insert_id in HU by (by apply (Own_lookup _ _ _ _ _ HO)). exact HU.
Qed.
Lemma wp_own_call pins g h L c (Q : Z → hsys W → Prop) E y :
  Own pins g h L y → (∀ r y', Own pins g h (L ++ [(c, r)]) y' → Q r y') → wp (call g c) Q E y.
Proof.
  intros HO HQ. apply wp_bind. eapply wp_own_call2; [exact HO|]. intros r x y' HO'. by apply HQ.
Qed.
Lemma wp_own_note pins g h L c r (Q : unit → hsys W → Prop) E y :
  Own pins g h L y → (∀ y', Own pins g h (L ++ [(c, r)]) y' → Q tt y') → wp (note g c r) Q E y.
Proof.
  intros HO HQ. apply HQ.
  pose proof (Own_upd _ _ _ h _ (Some (c, r)) (y_w y) _ HO eq_refl eq_refl (λ x, x)) as HU.
  unfold upd in HU. rewrite insert_id in HU by (by apply (Own_lookup _ _ _ _ _ HO)). exact HU.
Qed.

(** *** The borrowed lease *)

Definition Borrow pins g v L y : Prop :=
  ∃ h l, Own pins g h (L ++ (GccGet, 0) :: l) y ∧ view h = v ∧
         Forall (λ e : event, neutral e.1 = true) l.

Lemma wp_borrow_call2 pins g v L c (Q : Z * Z → hsys W → Prop) E y :
  Borrow pins g v L y → neutral c = true →
  (∀ r x y', Borrow pins g v L y' → Q (r, x) y') → wp (call2 g c) Q E y.
Proof.
  intros (h&l&HO&Hv&Hl) Hc HQ. eapply wp_own_call2; [exact HO|]. intros r x y' HO'. apply HQ.
  exists h, (l ++ [(c, r)]). split_and!; [|done|by apply Forall_app; auto].
  by rewrite app_comm_cons, app_assoc.
Qed.

Lemma wp_borrow_hset pins g v L f (Q : unit → hsys W → Prop) E y :
  Borrow pins g v L y → (∀ h, view (f h) = view h) →
  (∀ h, h_ref (f h) = h_ref h ∧ h_generation (f h) = h_generation h) →
  (∀ y', Borrow pins g v L y' → Q tt y') → wp (hset g f) Q E y.
Proof.
  intros (h&l&HO&Hv&Hl) Hf Hr HQ. eapply wp_own_hset; [exact HO|apply Hr|apply Hr|..].
  - change (w_retired (view h) = true → w_retired (view (f h)) = true). by rewrite Hf.
  - intros y' HO'. apply HQ. exists (f h), l. split_and!; [done|by rewrite Hf|done].
Qed.

Lemma wp_release_each pins g v L y :
  Borrow pins g v L y → wp (release_each g) (λ _, Borrow pins g v L) (λ _, Borrow pins g v L) y.
Proof.
  intros HB. unfold release_each. apply (wp_loop _ _ _ (Borrow pins g v L)); [done|..]; clear HB.
  - intros i y1 _ HB. unfold must, call. do 3 wstep. eapply wp_borrow_call2; [exact HB|done|].
    clear HB. intros r x y2 HB. wstep. wstep; [|done]. unfold psset.
    by eapply wp_borrow_hset.
  - intros y1 HB. unfold call_. do 2 wstep. eapply wp_borrow_call2; [exact HB|done|]. clear HB.
    intros r x y2 HB. do 2 wstep. pose proof HB as (h&l&HO&_).
    eapply wp_own_hget; [exact HO|]. clear HO. unfold gcc_reset_state. do 2 wstep.
    eapply wp_borrow_call2; [exact HB|done|]. clear HB. intros r' x' y3 HB. do 3 wstep.
    eapply wp_borrow_hset; [exact HB|done|done|]. clear HB. intros y4 HB. wsteps; done.
Qed.

Lemma wp_stop_release pins g v L (Q : Z → hsys W → Prop) E y :
  B pins g v L y →
  (∀ r L' y', B pins g v L' y' → flat L L' → Q r y') → wp (x1_stop_release_resets g) Q E y.
Proof.
  intros HB HQ. pose proof (B_si _ _ _ _ _ HB) as HS. unfold x1_stop_release_resets.
  wstep. wstep. wstep; [wstep; by eapply HQ|].
  rewrite !orb_false_iff in Heqb. destruct Heqb as ((((Hg&_)&_)&_)&_). apply bool_decide_eq_false in Hg.
  assert (held Lease L = 0) as Hl.
  { rewrite (si_lease _ _ HS), <- Hv. by rewrite bool_decide_eq_false_2. }
  destruct (B_Own _ _ _ _ _ HB) as (h1&Hv1&HO). wstep.
  eapply wp_own_call; [exact HO|]. clear HB HO. intros r y1 HO.
  destruct (Z.eqb_spec r 0) as [->|Hr]; cbn [negb].
  2: { wstep. apply (HQ _ (L ++ [(GccGet, r)])).
       - rewrite <- Hv1. apply Own_B; [done|]. rewrite Hv1. apply SI_call; try done.
         intros []; try done. cbn. by destruct (Z.eqb_spec r 0).
       - apply flat_log; [|done]. intros []; try done. cbn. by destruct (Z.eqb_spec r 0). }
  assert (Borrow pins g v L y1) as HB by (exists h1, []; done). clear HO.
  assert (∀ r y2, Borrow pins g v L y2 →
    wp (do! call_ g GccPut in
        do! (if r =? 0 then pset (λ p, p <| q_baseline_released := true |>) else ret tt) in
        ret r) Q E y2) as Hend.
  { clear HB. intros r y2 (h2&l&HO&Hv2&Hl2). unfold call_. do 2 wstep.
    eapply wp_own_call2; [exact HO|]. clear HO. intros r' x y3 HO. wstep.
    rewrite <- app_assoc in HO. set (l' := ((GccGet, 0) :: l) ++ [(GccPut, r')]) in *.
    assert (∀ x, held x l' = 0) as Hh.
    { intros z. unfold l'. rewrite held_snoc. change (held z ((GccGet, 0) :: l)) with
        (weigh z (GccGet, 0) + held z l). rewrite (held_neutral _ _ Hl2). by destruct z. }
    assert (protocol (L ++ l')) as Hp.
    { unfold l'. rewrite app_assoc. apply protocol_snoc.
      - rewrite (cons_middle (GccGet, 0)), app_assoc. apply protocol_neutral; [|done].
        apply protocol_snoc; [apply HS|done].
      - cbn [permitted fst]. rewrite held_app. change (held Lease ((GccGet, 0) :: l)) with
          (1 + held Lease l). rewrite (held_neutral _ _ Hl2). lia. }
    assert (∀ p : hcall → bool, p GccGet = false → p GccPut = false →
      (∀ c, neutral c = true → p c = false) → never p l') as Hnv.
    { intros p H1' H2' H3'. unfold l'. apply never_snoc; [|done]. constructor; [done|].
      eapply Forall_impl; [exact Hl2|]. intros [c ?] Hc. by apply H3'. }
    assert (B pins g v (L ++ l') y3) as HB.
    { rewrite <- Hv2. apply Own_B; [done|]. rewrite Hv2. apply SI_extend; [done..| |];
        (apply Hnv; [done|done|by intros []]). }
    clear HO. wsteps; (eapply HQ; [exact HB|by exists l']). }
  wstep. apply wp_attempt.
  eapply wp_mono; [by apply wp_release_each|..]; intros ? y2 HB2; by apply Hend.
Qed.
End own.

(** [host->stopping = true; host->ready = false;] *)
Lemma SI_stop v L : SI v L → SI (v <| w_stopping := true |> <| w_ready := false |>) L.
Proof. intros []. constructor; try done; cbn; try congruence. naive_solver. Qed.

(** ** The power stop *)

(** [do! set a field in ...] *)
Ltac wopen := repeat lazymatch goal with
  | |- wp (stage_ _ _) _ _ _ => unfold stage_ at 1
  | |- wp (idle_stage _ _) _ _ _ => unfold idle_stage at 1
  | |- wp (pulled_stage _ _) _ _ _ => unfold pulled_stage at 1
  | |- wp (hsset _ _) _ _ _ => unfold hsset at 1
  | |- wp (psset _ _) _ _ _ => unfold psset at 1
  | |- wp (sset _ _) _ _ _ => unfold sset at 1
  | |- wp (eset _ _) _ _ _ => unfold eset at 1
  | |- wp (bset _ _) _ _ _ => unfold bset at 1
  | |- wp (tset _ _) _ _ _ => unfold tset at 1
  end.
Ltac wset := apply wp_bind; wopen; wstep.

(** After an error: it is not 0, and the session is still there. *)
Definition Failed {W} (pins : list Z) (g e : Z) (y : hsys W) : Prop := e ≠ 0 ∧ Alive pins g y.

Lemma elvis_nonzero a : elvis a (-EIO) ≠ 0.
Proof. unfold elvis. by destruct (Z.eqb_spec a 0). Qed.

Ltac walive := match goal with HB : B _ _ _ _ ?y |- Alive _ _ ?y => eexists _, _; exact HB end.
Ltac wfail := split; [first [done | lia | by apply elvis_nonzero]|walive].

Section power.
Context (P : params) (command_polls : nat).
Context `{TypecAbi}.
Context {W : Type} `{Mmio Z W} `{HostEnv W}.
Implicit Types (pins : list Z) (g : Z) (v : sview) (L : list event) (y : hsys W).

(** [qcom_usb4_mcu_stop] is void. *)
Lemma wp_mcu_stop pins g v L m (Q : unit → hsys W → Prop) E y :
  B pins g v L y → (∀ y', B pins g v L y' → Q tt y') → wp (on_router (qcom_usb4_mcu_stop m)) Q E y.
Proof.
  intros HB HQ. assert (∀ d : W, ∃ d', qcom_usb4_mcu_stop m d = (Ok tt, d')) as Hok.
  { intros d. unfold qcom_usb4_mcu_stop, qcom_usb4_mcu_update, bind, readl, writel, ret.
    destruct m as [m|]; [|eauto]. destruct (base m =? 0); [eauto|].
    repeat match goal with |- context [dev_read ?a ?d] => destruct (dev_read a d) end. eauto. }
  unfold wp, on_router. destruct (Hok (y_w y)) as [w ->]. apply HQ. by apply B_w.
Qed.

Lemma SI_in_use v L : SI v L → is_Some (v_gcc (w_v v)) → running v.
Proof.
  intros HS [x Hg]. split.
  - destruct (w_startup v) eqn:E; [done|]. destruct (si_pristine _ _ HS E) as (Hz&_). by rewrite Hz in Hg.
  - destruct (w_retired v) eqn:E; [|done]. destruct (si_retired _ _ HS E) as (_&_&Hz&_).
    by rewrite Hz in Hg.
Qed.

(** Every provider held, for a session that has been told to stop. *)
Definition stoppable (v : sview) : Prop :=
  w_stopping v = true ∧ is_Some (v_gcc (w_v v)) ∧ v_clocks_on (w_v v) = true ∧
  v_runtime_held (w_v v) = true ∧ v_phy_initialized (w_v v) = true ∧ v_phy_on (w_v v) = true.

(** Only the runtime vote left. *)
Definition votes_dropped (v : sview) : sview :=
  v <| w_v := ProviderPart None (v_runtime_held (w_v v)) false false false |> <| w_mcu := true |>.

Lemma SI_mcu v L : SI v L → did is_mcu_stop L → SI (v <| w_mcu := true |>) L.
Proof. intros [] Hd. by constructor. Qed.

Lemma wp_stop_mcu pins g v L (Q : unit → hsys W → Prop) y :
  B pins g v L y → stoppable v →
  (∀ L' y', B pins g (v <| w_mcu := true |>) L' y' → flat L L' → Q tt y') →
  wp (stop_mcu g) Q (Failed pins g) y.
Proof.
  intros HB (Hs&Hg&Hc&Hr&_) HQ. unfold stop_mcu. wset. do 3 wstep.
  eapply wp_mcu_stop; [exact HB|]. clear HB. intros y1 HB. wstep.
  pose proof (B_si _ _ _ _ _ HB) as HS.
  eapply wp_note; [exact HB|apply SI_call; try done|].
  { by intros []. }
  { by apply (SI_powered v). }
  clear HB. intros y2 HB. do 2 wstep. wset. do 2 wstep. wset. wstep; [wstep; wfail|].
  unfold psset. eapply (wp_hset _ _ _ (v <| w_mcu := true |>)); [exact HB|by intros ? <-|done|done| |].
  - apply SI_mcu; [by eapply B_si|by apply did_here].
  - clear HB. intros y3 HB. eapply HQ; [exact HB|]. apply flat_log; [by intros []|done].
Qed.

Lemma wp_read_requests pins g v L y E :
  B pins g v L y → wp (read_reset_requests g) (λ _, Same pins g v L) E y.
Proof. intros HB. unfold read_reset_requests, gcc_reset_state. wcalm. Qed.

Lemma wp_stop_resets pins g v L (Q : unit → hsys W → Prop) y :
  B pins g v L y → (∀ L' y', B pins g v L' y' → flat L L' → Q tt y') →
  wp (stop_resets g) Q (Failed pins g) y.
Proof.
  intros HB HQ. unfold stop_resets. wset.
  apply (wp_loop _ _ _ (Same pins g v L)); [wsame|..]; clear HB.
  - intros i y1 _ (L1&HB&Hq). wstep. wstep; [|wfail]. wsteps. wsame.
  - intros y1 (L1&HB&Hq). do 3 wstep.
    eapply wp_mono; [by apply wp_read_requests| |done]. clear HB. intros r2 y2 (L2&HB&Hq2).
    wstep; [wstep; wfail|]. wstep. eapply HQ; [exact HB|]. apply quiet_flat. quiet_done.
Qed.

Lemma wp_stop_phy pins g v L (Q : unit → hsys W → Prop) y :
  B pins g v L y → stoppable v →
  (∀ L' y', B pins g (v <| w_v := (w_v v) <| v_phy_on := false |> <| v_phy_initialized := false |> |>) L' y' →
     held Votes L' = held Votes L → grows L L' → Q tt y') →
  wp (stop_phy g) Q (Failed pins g) y.
Proof.
  intros HB (Hs&Hg&Hc&Hr&Hi&Ho) HQ. pose proof (B_si _ _ _ _ _ HB) as HS.
  pose proof (SI_in_use _ _ HS Hg) as Hrun. unfold stop_phy.
  wset. wstep. wstep; [|wfail]. wset. wset.
  apply wp_assoc, wp_bind. eapply wp_phy_off; [exact HB|done|done|..]; clear HB.
  2: { intros r y1 Hne HB. wfail. }
  intros y1 HB. wset. wset.
  apply wp_assoc, wp_bind. eapply wp_phy_exit; [exact HB|done|done|..]; clear HB.
  2: { intros r y2 Hne HB. wfail. }
  intros y2 HB. wopen. wstep. eapply HQ; [exact HB|..].
  - rewrite !held_snoc. cbn. lia.
  - by do 3 apply grows_snoc.
Qed.

Lemma wp_stop_route pins g v L (Q : unit → hsys W → Prop) y :
  B pins g v L y → (∀ L' y', B pins g v L' y' → flat L L' → Q tt y') →
  wp (stop_route g) Q (Failed pins g) y.
Proof.
  intros HB HQ. unfold stop_route. wsteps; try wfail.
  eapply HQ; [exact HB|]. apply quiet_flat. quiet_done.
Qed.

Lemma wp_stop_votes pins g v L (Q : unit → hsys W → Prop) y :
  B pins g v L y → w_stopping v = true → is_Some (v_gcc (w_v v)) → v_clocks_on (w_v v) = true →
  (∀ L' y', B pins g (v <| w_v := (w_v v) <| v_gcc := None |> <| v_clocks_on := false |> |>) L' y' →
     held Votes L' = held Votes L → grows L L' → Q tt y') →
  wp (stop_votes g) Q (Failed pins g) y.
Proof.
  intros HB Hs Hg Hc HQ. pose proof (B_si _ _ _ _ _ HB) as HS.
  pose proof (SI_in_use _ _ HS Hg) as Hrun. unfold stop_votes.
  wset. wstep. wstep; [|wfail]. wstep. wstep; [|wfail]. wset. wset. wstep.
  eapply wp_drop_gcc; [exact HB|done|done|]. clear HB. intros r1 y1 HB. wset. wstep.
  eapply wp_drop_clocks; [exact HB|done|done|]. clear HB. intros r2 y2 HB. wopen. wstep.
  eapply HQ; [exact HB|..].
  - rewrite !held_snoc. cbn. lia.
  - by do 4 apply grows_snoc.
Qed.

Lemma wp_stop_hardware pins g v L (Q : unit → hsys W → Prop) y :
  B pins g v L y → stoppable v →
  (∀ L' y', B pins g (votes_dropped v) L' y' → held Votes L' = held Votes L → grows L L' → Q tt y') →
  wp (stop_hardware g) Q (Failed pins g) y.
Proof.
  intros HB Hst HQ. pose proof Hst as (Hs&Hg&Hc&Hr&Hi&Ho). unfold stop_hardware.
  wset. wstep. eapply wp_mono; [by apply wp_read_requests| |done]. clear HB. intros r y1 (L1&HB&Hq1).
  wstep; [wstep; wfail|]. wstep.
  eapply wp_stop_mcu; [exact HB|done|]. clear HB. intros L2 y2 HB Hf2. wstep.
  eapply wp_stop_resets; [exact HB|]. clear HB. intros L3 y3 HB Hf3. wstep.
  eapply wp_stop_phy; [exact HB|done|]. clear HB. intros L4 y4 HB Hv4 Hg4. wstep.
  eapply wp_stop_route; [exact HB|]. clear HB. intros L5 y5 HB Hf5.
  eapply wp_stop_votes; [exact HB|done|done|done|]. clear HB. intros L6 y6 HB Hv6 Hg6.
  eapply HQ; [exact HB|..].
  - rewrite Hv6, (flat_held _ _ _ Hf5), Hv4, (flat_held _ _ _ Hf3), (flat_held _ _ _ Hf2).
    by apply quiet_held.
  - etrans; [by apply quiet_grows|]. etrans; [by apply flat_grows|]. etrans; [by apply flat_grows|].
    etrans; [exact Hg4|]. etrans; [by apply flat_grows|done].
Qed.

(** Nothing is held and the receipts of the rings and of the MCU are there. *)
Definition down (v : sview) : Prop :=
  running v ∧ w_stopping v = true ∧ w_ready v = false ∧ w_rings v = true ∧ w_mcu v = true ∧
  w_v v = provider_zero.

Lemma down_unpowered v L : SI v L → down v → unpowered L.
Proof.
  intros HS (_&_&_&Hr&Hm&Hv). unfold unpowered.
  rewrite (si_lease _ _ HS), (si_clocks _ _ HS), (si_inits _ _ HS), (si_powers _ _ HS), Hv.
  split_and!; [by apply (si_rings _ _ HS)|by apply (si_mcu _ _ HS)|done..].
Qed.

Lemma rings_stopped_view h : rings_stopped h = true → w_rings (view h) = true.
Proof. unfold rings_stopped. rewrite !andb_true_iff. naive_solver. Qed.

Lemma providers_held_view h v :
  providers_held h = true → w_stopping v = true → w_v v = h_v h → stoppable v.
Proof.
  unfold providers_held, stoppable. rewrite !andb_true_iff, bool_decide_eq_true.
  intros ((((?&?)&?)&?)&?) ? ->. done.
Qed.

Lemma SI_stopping v L : SI v L → w_ready v = false → SI (v <| w_stopping := true |>) L.
Proof. intros [] Hr. constructor; try done; cbn; [congruence|naive_solver]. Qed.

(** [fail: s->error = ret; return ret;] *)
Lemma wp_stop_result pins g (m : M (hsys W) unit) (Q : Z → hsys W → Prop) E y :
  wp m (λ _, Q 0) (Failed pins g) y → (∀ r y', r ≠ 0 → Alive pins g y' → Q r y') →
  wp (stop_result g m) Q E y.
Proof.
  intros Hm HQ. unfold stop_result. wstep. wstep. eapply wp_mono; [exact Hm|..].
  - intros [] y1 HQ1. cbn [Z.eqb]. by do 3 wstep.
  - intros e y1 (He&v&L&HB). destruct (Z.eqb_spec e 0); [done|]. wset. wstep.
    apply HQ; [done|]. eexists _, _. exact HB.
Qed.

Lemma wp_power_stop_run pins g v L (Q : Z → hsys W → Prop) E y :
  B pins g v L y → (∀ r y', r ≠ 0 → Alive pins g y' → Q r y') →
  (∀ v' L' y', B pins g v' L' y' → down v' → held Votes L' = 0 → grows L L' → Q 0 y') →
  wp (x1_power_stop_run g) Q E y.
Proof.
  intros HB HE HQ. pose proof (B_si _ _ _ _ _ HB) as HS. unfold x1_power_stop_run. wstep. wstep.
  assert (∀ r, r ≠ 0 → Q r y) as Hout by (intros r Hr; apply HE; [done|by exists v, L]).
  wstep; [wstep; by apply Hout|]. wstep; [wstep; by apply Hout|].
  rewrite !orb_false_iff, !negb_false_iff in Heqb0.
  destruct Heqb0 as (((((((((_&_)&_)&Hrd)&Hst)&_)&Hp)&Hr)&_)&_).
  set (v1 := v <| w_stopping := true |>).
  assert (w_stopping v = false) as Hs0 by (by rewrite <- Hv).
  assert (w_ready v1 = false) as Hrd1 by (unfold v1; by rewrite <- Hv).
  assert (SI v1 L) as HS1 by (by apply SI_stopping).
  assert (stoppable v1) as Hstop.
  { apply (providers_held_view h); [done|done|]. unfold v1. by rewrite <- Hv. }
  pose proof Hstop as (_&Hg&_&Hrt&_).
  assert (w_rings v1 = true) as Hrings by (pose proof (rings_stopped_view h Hr); unfold v1; by rewrite <- Hv).
  pose proof (SI_in_use _ _ HS1 Hg) as Hrun.
  assert (held Votes L = 1) as HV by (rewrite (si_votes_live _ _ HS Hs0); change (w_v v) with (w_v v1); by rewrite Hrt).
  wset. wstep. eapply (wp_hset _ _ _ v1); [exact HB|by intros ? <-|done..|]. clear HB. intros y1 HB.
  apply (wp_stop_result pins); [|done]. wstep.
  eapply wp_stop_hardware; [exact HB|done|]. clear HB. intros L2 y2 HB HV2 Hg2. wset. wstep.
  eapply wp_drop_runtime; [exact HB|done|done|]. clear HB. intros r y3 HB. wset.
  destruct (Z.ltb_spec r 0); [wstep; split; [lia|eexists _, _; exact HB]|]. wset. wopen. wstep.
  eapply HQ; [exact HB|split; [exact Hrun|by split_and!]| |by apply grows_snoc].
  rewrite held_snoc. cbn. lia.
Qed.

Lemma wp_idle_power_stop_run pins g v L (Q : Z → hsys W → Prop) E y :
  B pins g v L y → (∀ r y', r ≠ 0 → Alive pins g y' → Q r y') →
  (∀ v' L' y', B pins g v' L' y' → down v' → held Votes L' = held Votes L - 1 → grows L L' → Q 0 y') →
  wp (x1_idle_power_stop_run P g) Q E y.
Proof.
  intros HB HE HQ. pose proof (B_si _ _ _ _ _ HB) as HS. unfold x1_idle_power_stop_run. wstep. wstep.
  assert (∀ r, r ≠ 0 → Q r y) as Hout by (intros r Hr; apply HE; [done|by exists v, L]).
  wstep; [wstep; by apply Hout|]. wstep; [wstep; by apply Hout|].
  rewrite !orb_false_iff, !negb_false_iff in Heqb0.
  destruct Heqb0 as (((((((_&Hrd)&Hst)&_)&Hp)&Hr)&_)&_).
  assert (stoppable v) as Hstop.
  { apply (providers_held_view h); [done|by rewrite <- Hv..]. }
  assert (w_ready v = false) as Hrdy by (by rewrite <- Hv).
  assert (w_stopping v = true) as Hs by (by rewrite <- Hv).
  pose proof Hstop as (_&Hg&_&Hrt&_).
  assert (w_rings v = true) as Hrings by (rewrite <- Hv; by apply rings_stopped_view).
  pose proof (SI_in_use _ _ HS Hg) as Hrun.
  wset. apply (wp_stop_result pins); [|done]. wstep.
  eapply wp_stop_hardware; [exact HB|done|]. clear HB. intros L2 y2 HB HV2 Hg2. wset. wstep.
  eapply wp_stop_release; [exact HB|]. clear HB. intros r3 L3 y3 HB Hf3. wstep.
  wstep; [|split; [done|eexists _, _; exact HB]]. wset. wstep.
  eapply wp_drop_runtime; [exact HB|done|done|]. clear HB. intros r4 y4 HB. wset.
  wstep; [wstep; split; [|eexists _, _; exact HB]|].
  { intros ->. done. }
  wset. wopen. wstep.
  eapply HQ; [exact HB|split; [exact Hrun|by split_and!]| |].
  - rewrite held_snoc, (flat_held _ _ _ Hf3), HV2. cbn. lia.
  - apply grows_snoc. etrans; [exact Hg2|by apply flat_grows].
Qed.

(** ** The control rings *)

Lemma SI_rings v L b : SI v L → (b = true → did is_ctl_stop L) → SI (v <| w_rings := b |>) L.
Proof. intros [] Hb. by constructor. Qed.

Lemma wp_stop_control pins g v L (Q : Z → hsys W → Prop) E y :
  B pins g v L y → powered L → did is_fence L ∨ did is_freeze L →
  (∀ r h y', Own pins g h (L ++ [(CtlStopRetained, r)]) y' →
     (view h) <| w_rings := false |> = v <| w_rings := false |> →
     SI (v <| w_rings := false |>) (L ++ [(CtlStopRetained, r)]) → Q r y') →
  wp (stop_control g) Q E y.
Proof.
  intros HB Hpw Hd HQ. pose proof (B_si _ _ _ _ _ HB) as HS.
  assert (∀ r, SI (v <| w_rings := false |>) (L ++ [(CtlStopRetained, r)])) as HS'.
  { intros r. apply SI_rings; [|done]. apply SI_call; try done. by intros []. }
  destruct (B_Own _ _ _ _ _ HB) as (h&Hv&HO). unfold stop_control, struct_call. wstep.
  eapply wp_own_hget; [exact HO|]. wstep. unfold wp at 1.
  destruct (e_ctl_stop (control_args h) (y_w y)) as [[r x] w]. wstep.
  assert (Own pins g h L (y <| y_w := w |>)) as HO'.
  { pose proof (Own_upd _ _ _ h _ None w _ HO eq_refl eq_refl (λ x, x)) as HU.
    unfold upd, snoc in HU. rewrite !app_nil_r in HU.
    rewrite insert_id in HU by (by apply (Own_lookup _ _ _ _ _ HO)). exact HU. }
  eapply wp_own_hset; [exact HO'|done..|]. clear HO HO'. intros y1 HO. wstep.
  eapply wp_own_note; [exact HO|]. clear HO. intros y2 HO. wstep. eapply HQ; [exact HO| |done].
  by rewrite <- Hv.
Qed.

Lemma wp_control_receipt pins g h v L r0 (Q : Z → hsys W → Prop) E y :
  Own pins g h L y → (view h) <| w_rings := false |> = v <| w_rings := false |> →
  SI (v <| w_rings := false |>) L → (r0 = 0 → did is_ctl_stop L) →
  (∀ r y', (r = 0 → r0 = 0) → B pins g (v <| w_rings := r =? 0 |>) L y' → Q r y') →
  wp (control_receipt g r0) Q E y.
Proof.
  intros HO Hv HS Hd HQ. unfold control_receipt. wstep. eapply wp_own_hget; [exact HO|]. cbv zeta.
  set (r := if (r0 =? 0) && _ then -EIO else r0). wstep. wopen.
  eapply wp_own_hset; [exact HO|done..|]. clear HO. intros y1 HO. wstep. apply HQ.
  - unfold r. destruct (Z.eqb_spec r0 0); [done|]. cbn. done.
  - replace (v <| w_rings := r =? 0 |>) with (view (h <| h_s := (h_s h) <| s_host_stop :=
      (s_host_stop (h_s h)) <| hs_error := r |> <| hs_finished := r =? 0 |> |> |>)).
    + apply Own_B; [done|].
      replace (view _) with (v <| w_rings := false |> <| w_rings := r =? 0 |>).
      * apply SI_rings; [done|]. intros Hr. apply Hd. apply Z.eqb_eq in Hr. revert Hr. unfold r.
        destruct (Z.eqb_spec r0 0); [done|]. cbn. done.
      * transitivity ((view h) <| w_rings := false |> <| w_rings := r =? 0 |>); [by rewrite Hv|done].
    + transitivity ((view h) <| w_rings := false |> <| w_rings := r =? 0 |>); [done|].
      rewrite Hv. by destruct v.
Qed.

Lemma wp_stop_control_receipt {A} pins g v L (k : Z → M (hsys W) A) Q E y :
  B pins g v L y → powered L → did is_fence L ∨ did is_freeze L →
  (∀ r0 r y', B pins g (v <| w_rings := r =? 0 |>) (L ++ [(CtlStopRetained, r0)]) y' →
     wp (k r) Q E y') →
  wp (let! r := stop_control g in let! r := control_receipt g r in k r) Q E y.
Proof.
  intros HB Hpw Hd HQ. wstep. eapply wp_stop_control; [exact HB|done..|]. clear HB.
  intros r h y1 HO Hv HS. wstep. eapply wp_control_receipt; [exact HO|exact Hv|exact HS|..].
  - intros ->. by apply did_here.
  - intros r' y2 _ HB. by eapply HQ.
Qed.
End power.

(** ** Retirement *)

Section retire.
Context (P : params) (command_polls : nat).
Context `{TypecAbi}.
Context {W : Type} `{Mmio Z W} `{HostEnv W}.
Implicit Types (pins : list Z) (g : Z) (v : sview) (L : list event) (y : hsys W).

(** The checks that are handed out as callbacks only read. *)
Definition reads_only (g : Z) (cb : M (hsys W) Z) : Prop :=
  ∀ pins v L E y, B pins g v L y → wp cb (λ _, B pins g v L) E y.

Lemma ro_namespace g : reads_only g (x1_namespace_owner_stopped P g).
Proof. intros pins v L E y HB. unfold x1_namespace_owner_stopped. by wsteps. Qed.
Lemma ro_control g : reads_only g (x1_control_owner_stopped P g).
Proof. intros pins v L E y HB. unfold x1_control_owner_stopped. by wsteps. Qed.
Lemma ro_cm g : reads_only g (x1_cm_owner_stopped P g).
Proof. intros pins v L E y HB. unfold x1_cm_owner_stopped, ask_ctl_retired. by wsteps. Qed.
Lemma ro_platform g : reads_only g (x1_platform_owner_stopped P g).
Proof. intros pins v L E y HB. unfold x1_platform_owner_stopped. by wsteps. Qed.
Lemma ro_idle g : reads_only g (x1_idle_owner_stopped P g).
Proof. intros pins v L E y HB. unfold x1_idle_owner_stopped. by wsteps. Qed.
Lemma ro_idle_cm g : reads_only g (x1_idle_cm_owner_stopped P g).
Proof. intros pins v L E y HB. unfold x1_idle_cm_owner_stopped, ask_ctl_retired. by wsteps. Qed.
Lemma ro_idle_platform g : reads_only g (x1_idle_platform_owner_stopped P g).
Proof. intros pins v L E y HB. unfold x1_idle_platform_owner_stopped. by wsteps. Qed.
Lemma ro_none g : reads_only g no_callback.
Proof. intros pins v L E y HB. by wsteps. Qed.

Lemma wp_helper_ro {X} pins g v L c (get_x : x1_host → X) set_x cb t (Q : Z → hsys W → Prop) E y :
  B pins g v L y → reads_only g cb → (∀ x h, view (set_x x h) = view h) →
  (∀ x h, h_ref (set_x x h) = h_ref h ∧ h_generation (set_x x h) = h_generation h) →
  (∀ r, SI v (L ++ [(c, r)])) → (∀ r y', B pins g v (L ++ [(c, r)]) y' → Q r y') →
  wp (helper_call g c get_x set_x cb t) Q E y.
Proof.
  intros HB Hcb Hs Hr Hc HQ. eapply (wp_helper _ _ _ _ (λ L', L' = L)); [exact HB|done|done|done|..].
  - intros L' y' HB' ->. eapply wp_mono; [by apply Hcb| |done].
    intros ? y2 HB2. eexists. split; [exact HB2|done].
  - intros L' r _ ->. apply Hc.
  - intros L' r y' HB' ->. by apply HQ.
Qed.

Lemma wp_pcie pins g v L c cb (Q : Z → hsys W → Prop) E y :
  B pins g v L y → reads_only g cb → (∀ x, weigh x (c, 0) = 0) → (∀ x r, weigh x (c, r) = weigh x (c, 0)) →
  is_start c = false → is_connect c = false → permitted L (c, 0) → (∀ r, permitted L (c, r) = permitted L (c, 0)) →
  (∀ r y', B pins g v (L ++ [(c, r)]) y' → Q r y') → wp (pcie_call g c cb) Q E y.
Proof.
  intros HB Hcb Hw Hw' Hs Hc Hp Hp' HQ. eapply wp_helper_ro; [exact HB|done|done|done| |done].
  intros r. apply SI_call; [intros x; by rewrite Hw'|by rewrite Hp'|done..|by eapply B_si].
Qed.

Lemma wp_pcie_neutral pins g v L c cb (Q : Z → hsys W → Prop) E y :
  B pins g v L y → reads_only g cb → neutral c = true →
  (∀ r y', B pins g v (L ++ [(c, r)]) y' → Q r y') → wp (pcie_call g c cb) Q E y.
Proof.
  intros HB Hcb Hn HQ. eapply wp_helper_ro; [exact HB|done|done|done| |done].
  intros r. apply SI_neutral; [done|by eapply B_si].
Qed.

Lemma wp_retire_control pins g v L check (Q : Z → hsys W → Prop) E y :
  B pins g v L y → reads_only g check → down v → did is_pci_retire L ∨ did is_freeze L →
  (∀ r y', B pins g v (L ++ [(CtlRetire, r)]) y' → Q r y') → wp (retire_control g check) Q E y.
Proof.
  intros HB Hcb Hd Hp HQ. pose proof (B_si _ _ _ _ _ HB) as HS.
  eapply wp_helper_ro; [exact HB|done|done|done| |done].
  intros r. apply SI_call; try done; [by intros []|]. split; [by eapply down_unpowered|done].
Qed.

Lemma SI_released v L : SI v L → domain_released L → SI (v <| w_released := true |>) L.
Proof. intros [] Hd. by constructor. Qed.

(** The wait for the last reference of the domain. *)
Lemma wp_remove_domain pins g v L held (Q : unit → hsys W → Prop) y :
  B pins g v L y → did is_cm_retire L →
  (∀ L' y', B pins g (v <| w_released := true |>) L' y' → flat L L' → Q tt y') →
  wp (remove_domain g held) Q (Failed pins g) y.
Proof.
  intros HB Hd HQ. pose proof (B_si _ _ _ _ _ HB) as HS. unfold remove_domain. wstep.
  eapply wp_call_'; [exact HB|..].
  { intros r. apply SI_call; try done; [by intros []|by right]. }
  clear HB. intros r y1 HB. wset. wstep.
  assert (∀ L2 y2, B pins g v L2 y2 → flat L L2 →
    wp (let! remaining := call g (TbWaitReleasedTimeout 5000) in
        if remaining =? 0 then fail (-ETIMEDOUT) else sset g (λ s, s <| s_domain_retired := true |>))
       Q (Failed pins g) y2) as Hend.
  { clear HB. intros L2 y2 HB Hf. wstep. wstep. destruct (Z.eqb_spec r0 0) as [->|Hr0].
    - wstep. split; [done|eexists _, _; exact HB].
    - wopen. eapply (wp_hset _ _ _ (v <| w_released := true |>)); [exact HB|by intros ? <-|done|done|..].
      + apply SI_released; [by eapply B_si|]. exists r0. split; [|done]. apply elem_of_app. right. by left.
      + clear HB. intros y3 HB. eapply HQ; [exact HB|by apply flat_snoc]. }
  destruct held; wstep; eapply Hend; try exact HB.
  - apply flat_snoc; [done|]. by apply flat_log; [intros []|].
  - by apply flat_log; [intros []|].
Qed.

Lemma wp_domain_result pins g (m : M (hsys W) unit) (Q : Z → hsys W → Prop) E y :
  wp m (λ _, Q 0) (Failed pins g) y → (∀ r y', r ≠ 0 → Alive pins g y' → Q r y') →
  wp (domain_result g m) Q E y.
Proof.
  intros Hm HQ. unfold domain_result. wstep. wstep. eapply wp_mono; [exact Hm|..].
  - intros [] y1 HQ1. cbn [Z.eqb]. by do 3 wstep.
  - intros e y1 (He&v&L&HB). destruct (Z.eqb_spec e 0); [done|]. wset. wstep.
    apply HQ; [done|]. eexists _, _. exact HB.
Qed.

(** While a stopping session waits for its lock nothing happens to it. *)
Lemma wp_lock_stopping pins g v L (Q : unit → hsys W → Prop) E y :
  B pins g v L y → w_stopping v = true →
  (∀ L' y', B pins g v L' y' → quiet L L' → Q tt y') → wp (lock P command_polls) Q E y.
Proof.
  intros HB Hs HQ. eapply wp_lock; [exact HB|]. clear HB. intros v' L' y' HB (_&_&Hc) Hq.
  rewrite (Hc Hs) in HB. by eapply HQ.
Qed.

(** Both retirements of the domain, from the helper on. *)
Lemma wp_retire_cm pins g v L c check (test : x1_host → bool) f held
    (Q : unit → hsys W → Prop) y :
  B pins g v L y → reads_only g check → down v → did is_ctl_retire L → is_cm_retire c = true →
  (∀ h, view (f h) = view h ∧ h_ref (f h) = h_ref h ∧ h_generation (f h) = h_generation h) →
  (∀ L' y', B pins g (v <| w_released := true |>) L' y' → flat L L' → Q tt y') →
  wp (let! r := helper_call g c (λ h, s_cm_retire (h_s h)) set_cm_retire check (e_cm_retire c) in
      do! ok_or_fail r in
      do! lock P command_polls in
      let! h := hget g in
      if test h then fail (-ESTALE) else
      do! hset g f in remove_domain g held) Q (Failed pins g) y.
Proof.
  intros HB Hck Hd Hc Hcm Hf HQ. pose proof (B_si _ _ _ _ _ HB) as HS.
  assert (∀ x r, weigh x (c, r) = 0) as Hw by (intros x r; destruct c; try done; by destruct x).
  wstep. eapply wp_helper_ro; [exact HB|done|done|done|..].
  { intros r. apply SI_call; [done| |by destruct c..].
    pose proof (down_unpowered _ _ HS Hd). by destruct c. }
  clear HB. intros r y1 HB. wstep. wstep; [|split; [done|eexists _, _; exact HB]]. subst r. wstep.
  eapply wp_lock_stopping; [exact HB|apply Hd|]. clear HB. intros L2 y2 HB Hq2. do 2 wstep.
  wstep; [wstep; split; [done|eexists _, _; exact HB]|]. wstep.
  eapply wp_hset0; [exact HB|intros k; apply Hf|intros k; split; apply Hf|].
  clear HB. intros y3 HB. eapply wp_remove_domain; [exact HB| |].
  - eapply quiet_did; [exact Hq2|]. by apply did_here.
  - clear HB. intros L4 y4 HB Hf4. eapply HQ; [exact HB|]. etrans; [|exact Hf4].
    etrans; [|by apply quiet_flat]. apply flat_log; [by intros x|done].
Qed.

Lemma wp_retire_domain pins g v L (Q : Z → hsys W → Prop) E y :
  B pins g v L y → down v → did is_ctl_retire L → (∀ r y', r ≠ 0 → Alive pins g y' → Q r y') →
  (∀ L' y', B pins g (v <| w_released := true |>) L' y' → flat L L' → Q 0 y') →
  wp (x1_retire_domain P command_polls g) Q E y.
Proof.
  intros HB Hd Hc HE HQ. unfold x1_retire_domain. do 2 wstep.
  assert (∀ r y', r ≠ 0 → B pins g v L y' → Q r y') as Hout.
  { intros r y' Hr HB'. apply HE; [done|by exists v, L]. }
  wstep; [wstep; by apply Hout|]. wstep. eapply wp_mono; [by apply ro_cm| |done].
  clear HB. intros r y1 HB. cbv beta in HB. destruct (Z.eqb_spec r 0) as [->|Hr]; cbn [negb].
  2: { wstep. by apply Hout. }
  wset. apply (wp_domain_result pins); [|done].
  eapply (wp_retire_cm _ _ _ _ (TbRetireCm (b_uid (h_b h))) _
    (λ k, negb (bool_decide (h_tb k = h_tb h)) || negb (bool_decide (s_retained_tb (h_s k) = h_tb h))));
    [exact HB|apply ro_cm|done|done|done|done|done].
Qed.

Lemma wp_idle_retire_domain pins g v L (Q : Z → hsys W → Prop) E y :
  B pins g v L y → down v → did is_ctl_retire L → (∀ r y', r ≠ 0 → Alive pins g y' → Q r y') →
  (∀ L' y', B pins g (v <| w_released := true |>) L' y' → flat L L' → Q 0 y') →
  wp (x1_idle_retire_domain P command_polls g) Q E y.
Proof.
  intros HB Hd Hc HE HQ. unfold x1_idle_retire_domain. do 2 wstep.
  assert (∀ r y', r ≠ 0 → B pins g v L y' → Q r y') as Hout.
  { intros r y' Hr HB'. apply HE; [done|by exists v, L]. }
  wstep; [wstep; by apply Hout|]. wstep. eapply wp_mono; [by apply ro_idle_cm| |done].
  clear HB. intros r y1 HB. cbv beta in HB. destruct (Z.eqb_spec r 0) as [->|Hr]; cbn [negb].
  2: { wstep. by apply Hout. }
  wset. apply (wp_domain_result pins); [|done].
  eapply (wp_retire_cm _ _ _ _ TbIdleRetireCm _ (λ k, negb (bool_decide (h_tb k = h_tb h))));
    [exact HB|apply ro_idle_cm|done|done|done|done|done].
Qed.

(** A vote that no flag of the session records. *)
Lemma SI_vote v L e :
  SI v L → permitted L e → (∀ x, x ≠ Votes → weigh x e = 0) → running v → w_stopping v = true →
  is_start e.1 = false → is_connect e.1 = false →
  0 ≤ held Votes L + weigh Votes e - b2z (v_runtime_held (w_v v)) ≤ 1 → SI v (L ++ [e]).
Proof.
  intros HS Hp Hw [Hr1 Hr2] Hst Hs Hc HV.
  replace v with (v <| w_v := w_v v |>) by (by destruct v).
  apply SI_provider; try done; rewrite ?Hw, ?Z.add_0_r by done; try apply HS; congruence.
Qed.

Lemma wp_retired_release pins g v L (Q : Z → hsys W → Prop) E y :
  B pins g v L y → down v → held Votes L = 1 → (∀ r y', r ≠ 0 → Alive pins g y' → Q r y') →
  (∀ L' y', B pins g v L' y' → held Votes L' = 0 → grows L L' → Q 0 y') →
  wp (x1_retired_release g) Q E y.
Proof.
  intros HB Hd HV HE HQ. pose proof (B_si _ _ _ _ _ HB) as HS.
  pose proof Hd as (Hrun&Hst&_&_&_&Hz). unfold x1_retired_release, vset.
  set (v1 := v <| w_v := (w_v v) <| v_runtime_held := true |> |>).
  assert (SI v1 L) as HS1.
  { destruct Hrun as [Hr1 Hr2]. pose proof HS as []. constructor; try done; cbn; try congruence. lia. }
  wstep. eapply (wp_hset _ _ _ v1); [exact HB|by intros ? <-|done..|]. clear HB. intros y1 HB. wstep.
  eapply wp_stop_release; [exact HB|]. clear HB. intros r L2 y2 HB Hf2.
  destruct (Z.eqb_spec r 0) as [->|Hr]; cbn [negb]; [|wstep; apply HE; [done|walive]].
  do 2 wstep. destruct (Z.eqb_spec r 0) as [->|Hr]; cbn [negb]; [|wstep; apply HE; [done|walive]].
  wstep. eapply wp_drop_runtime; [exact HB|done|done|]. clear HB. intros r' y4 HB. wstep.
  apply (HQ ((L2 ++ [(ReleaseRetiredReset, 0)]) ++ [(PmPutSync, r')])).
  - replace v with (v1 <| w_v := (w_v v1) <| v_runtime_held := false |> |>); [exact HB|].
    unfold v1. destruct v. cbn in *. by subst.
  - rewrite !held_snoc, (flat_held _ _ _ Hf2). cbn. lia.
  - do 2 apply grows_snoc. by apply flat_grows.
Qed.

Lemma SI_retire v L :
  SI v L → down v → held Votes L = 0 → SI (v <| w_retired := true |>) L.
Proof.
  intros HS (Hrun&Hst&_&_&_&Hz) HV. pose proof Hrun as [??]. pose proof HS as []. by constructor.
Qed.

(** The rings are freed and the session is done. *)
Lemma wp_free_rings pins g v L (Q : unit → hsys W → Prop) E y :
  B pins g v L y → did is_platform L →
  (∀ r y', B pins g v (L ++ [(RingsFree, r)]) y' → Q tt y') → wp (free_rings g) Q E y.
Proof.
  intros HB Hp HQ. pose proof (B_si _ _ _ _ _ HB) as HS. unfold free_rings. wstep.
  eapply wp_call_'; [exact HB|..].
  { intros r. apply SI_call; try done. by intros []. }
  clear HB. intros r y1 HB. wstep. by eapply HQ.
Qed.

Lemma wp_retire_session pins g v L (Q : Z → hsys W → Prop) E y :
  B pins g v L y → down v → w_released v = true → held Votes L = 0 →
  (∀ r y', Alive pins g y' → Q r y') → wp (x1_retire_session P g) Q E y.
Proof.
  intros HB Hd Hrel HV HE. pose proof (B_si _ _ _ _ _ HB) as HS. pose proof Hd as (Hrun&Hst&_&_&_&Hz).
  unfold x1_retire_session. wstep. eapply wp_mono; [by apply ro_platform| |done].
  clear HB. intros r y1 HB. cbv beta in HB. destruct (r =? 0); cbn [negb]; [|wstep; apply HE; walive].
  assert (∀ extra L2 y2, B pins g v L2 y2 → grows L L2 → held Votes L2 = b2z extra → extra = x1_general P →
    wp (let! r := pcie_call g RetirePlatform (x1_platform_owner_stopped P g) in
        let! r := (if (r =? 0) && x1_general P then x1_retired_release g else ret r) in
        if r !=? 0 then ret r else
        do! free_rings g in
        do! hset g (λ h, h <| h_fully_retired := true |>) in
        ret 0) Q E y2) as Hrest.
  { clear HB. intros extra L2 y2 HB Hg HV2 Hx. pose proof (B_si _ _ _ _ _ HB) as HS2. wstep.
    assert (∀ r, SI v (L2 ++ [(RetirePlatform, r)])) as HS3.
    { intros r'. apply SI_call; try done; [by intros []|].
      split; [by eapply down_unpowered|by apply (si_released _ _ HS2)]. }
    eapply wp_helper_ro; [exact HB|apply ro_platform|done|done|done|].
    clear HB. intros r3 y3 HB. wstep.
    assert (∀ L4 y4, B pins g v L4 y4 → did is_platform L4 → held Votes L4 = 0 →
      wp (do! free_rings g in do! hset g (λ h, h <| h_fully_retired := true |>) in ret 0) Q E y4) as Hend.
    { clear HB. intros L4 y4 HB Hp4 HV4. wstep. eapply wp_free_rings; [exact HB|done|].
      clear HB. intros r5 y5 HB. wstep.
      eapply (wp_hset _ _ _ (v <| w_retired := true |>)); [exact HB|by intros ? <-|done|done|..].
      - apply SI_retire; [by eapply B_si|done|]. rewrite held_snoc. cbn. lia.
      - clear HB. intros y6 HB. wstep. apply HE. walive. }
    destruct (Z.eqb_spec r3 0) as [->|Hr3]; cbn [andb].
    - assert (did is_platform (L2 ++ [(RetirePlatform, 0)])) as Hpl by (by apply did_here).
      destruct (x1_general P); subst extra.
      + eapply wp_retired_release; [exact HB|done|rewrite held_snoc; cbn in *; lia|..]; clear HB.
        * intros r4 y4 Hr4 HA. destruct (Z.eqb_spec r4 0); [done|]. cbn [negb]. wstep. by apply HE.
        * intros L4 y4 HB HV4 Hg4. cbn [negb Z.eqb]. eapply Hend; [exact HB|by eapply grows_did|done].
      + wstep. cbn [negb Z.eqb]. eapply Hend; [exact HB|done|]. rewrite held_snoc. cbn in *. lia.
    - wstep. destruct (Z.eqb_spec r3 0); [done|]. cbn [negb]. wstep. apply HE. walive. }
  wstep. destruct (x1_general P) eqn:Eg.
  - eapply wp_call_'; [exact HB|..].
    + intros r'. apply SI_vote; try done; [cbn; lia|by intros [] ?|].
      rewrite Hz, HV. cbn. lia.
    + clear HB. intros r' y2 HB. apply (Hrest true _ _ HB); [by apply grows_snoc| |done].
      rewrite held_snoc, HV. done.
  - wstep. by apply (Hrest false _ _ HB).
Qed.
End retire.
