(* ===== verification/HostSteps.v ===== *)
(** * The production host driver: every step keeps the invariant

    The sysfs stores one by one, renewal of the session, and the callbacks of
    the driver core; at the end, one step of the whole driver. *)

From S2P Require Import Prelude Wp Fw Drom Mcu Startup Typec HostData HostStart HostStop HostStores.
From S2P Require Import HostLogic HostInv HostCold HostDown.

(** To the end of a handler that has nothing more to prove. *)
Ltac wend := wsteps; try walive.

Lemma held_session_view h :
  held_session h = true → w_held (view h) = true ∧ w_ready (view h) = true.
Proof. unfold held_session. rewrite !andb_true_iff. naive_solver. Qed.

Lemma idle_admissible_view h : idle_admissible h = true → w_ready (view h) = true.
Proof. unfold idle_admissible. rewrite !andb_true_iff. naive_solver. Qed.

Section stores.
Context (P : params).
Context (crc32c : Z → list Z → Z) (sha256 : list Z → list Z).
Context (start_polls command_polls : nat) (HZ : Z) (fuel : nat).
Context `{TypecAbi}.
Context {W : Type} `{Mmio Z W} `{HostEnv W}.
Implicit Types (pins : list Z) (g : Z) (v : sview) (L : list event) (y : hsys W).

(** A store leaves the session alive whether it returns or still waits. *)
Definition stays {A} (pins : list Z) (g : Z) (m : M (hsys W) A) : Prop :=
  ∀ y, Alive pins g y → wp m (λ _, Alive pins g) (λ _, Alive pins g) y.

Lemma wp_next {A} pins g v L (m : M (hsys W) A) (Q : A → hsys W → Prop) E y :
  wp m (λ _, Same pins g v L) E y → (∀ a L' y', B pins g v L' y' → quiet L L' → Q a y') → wp m Q E y.
Proof. intros Hm HQ. eapply wp_mono; [exact Hm| |done]. intros a y' (L'&HB&Hq). by eapply HQ. Qed.

Lemma wp_admits (Q : bool → hsys W → Prop) E y : (∀ b, Q b y) → wp domain_admits Q E y.
Proof. intros HQ. apply HQ. Qed.

Lemma wp_lock_alive {A} pins g (k : M (hsys W) A) Q E y :
  Alive pins g y → (∀ v L y', B pins g v L y' → wp k Q E y') →
  wp (do! lock P command_polls in k) Q E y.
Proof.
  intros (v&L&HB) Hk. wstep. eapply wp_lock; [exact HB|]. intros v' L' y' HB' _ _. by eapply Hk.
Qed.

Lemma stays_activate pins g : stays pins g (x1_activate P crc32c sha256 start_polls command_polls g).
Proof. intros y HA. by apply wp_activate. Qed.

Lemma stays_activate_once pins g capable buf :
  stays pins g (activate_once_store P crc32c sha256 start_polls command_polls g capable buf).
Proof.
  intros y HA. unfold activate_once_store. wstep; [by wstep|]. wstep; [by wstep|].
  eapply wp_lock_alive; [done|]. clear HA. intros v L y1 HB. do 2 wstep.
  destruct (_ =? 0); [|wend]. apply stays_activate. walive.
Qed.

Lemma stays_pcie_prepare pins g capable buf :
  stays pins g (pcie_prepare_once_store P command_polls g capable buf).
Proof.
  intros y HA. unfold pcie_prepare_once_store. wstep; [by wstep|]. wstep; [by wstep|].
  wstep; [by wstep|]. eapply wp_lock_alive; [done|]. clear HA. intros v L y1 HB. do 2 wstep.
  wstep; [wend|]. wstep; [wend|]. wstep; [wend|]. wstep. apply wp_admits. intros b.
  destruct (negb b); [wend|]. do 3 wstep. wstep.
  eapply wp_pcie_neutral; [exact HB|apply ro_none|done|]. clear HB. intros r y2 HB. wend.
Qed.

(** *** The batch *)

Lemma wp_find_switch pins g v L y E :
  B pins g v L y → wp (find_switch P g) (λ _, Same pins g v L) E y.
Proof. intros HB. unfold find_switch. wcalm. Qed.

Lemma wp_batch_observe pins g v L y E :
  B pins g v L y → wp (batch_observe P g) (λ _, Same pins g v L) E y.
Proof.
  intros HB. unfold batch_observe.
  assert (∀ L' y', B pins g v L' y' → quiet L L' → wp (find_switch P g) (λ _, Same pins g v L) E y') as Hf.
  { intros L' y' HB' Hq. eapply wp_next; [by apply wp_find_switch|].
    intros ? L2 y2 HB2 Hq2. exists L2. split; [done|by etrans]. }
  do 3 wstep. wsteps; try wsame; (eapply Hf; [exact HB|quiet_done]).
Qed.

Lemma stays_batch_wait pins n g : stays pins g (batch_wait P command_polls n g).
Proof.
  induction n as [|n IH]; intros y HA; cbn [batch_wait]; [done|].
  eapply wp_lock_alive; [done|]. clear HA. intros v L y1 HB. wstep.
  eapply wp_next; [by apply wp_batch_observe|]. clear HB. intros r L2 y2 HB _. do 2 wstep.
  wstep; [wend|]. do 2 wstep. apply IH. walive.
Qed.

Lemma wp_batch_live pins g v L y E :
  B pins g v L y → wp (x1_batch_live g) (λ _, Same pins g v L) E y.
Proof. intros HB. unfold x1_batch_live. wcalm. Qed.

Lemma wp_drain pins n g d v L y :
  B pins g v L y → wp (drain_events n g d) (λ _, Same pins g v L) (λ _, Same pins g v L) y.
Proof.
  revert L y. induction n as [|n IH]; intros L y HB; cbn [drain_events]; [apply wp_fail; wsame|].
  do 2 wstep. wstep; [by apply wp_batch_live|]. do 2 wstep. wstep; [wcalm|]. do 2 wstep.
  eapply wp_then; [by apply IH|..]; intros ? L' y' HB' Hq; (exists L'; split; [done|quiet_done]).
Qed.

Lemma SI_hold v L b : SI v L → (b = true → did is_hold L) → SI (v <| w_held := b |>) L.
Proof. intros [] Hb. by constructor. Qed.

Lemma wp_hold_tunnel pins g v L y :
  B pins g v L y → did is_approve L →
  wp (hold_tunnel P HZ fuel g) (λ _, Alive pins g) (λ _, Alive pins g) y.
Proof.
  intros HB Ha. unfold hold_tunnel. wstep.
  assert (∀ r L1 y1, B pins g v L1 y1 → did is_approve L1 →
    wp (let! h := hget g in
        let! r := (if r =? 0 then call g (TbHold (b_uid (h_b h))) else ret r) in
        do! sset g (λ s, s <| s_tunnel_held := r =? 0 |>) in
        do! (if r =? 0 then
               do! call_ g TbGetDevice in
               hset g (λ h, h <| h_s := (h_s h) <| s_retained_tb := h_tb h |> |>)
             else ret tt) in
        ret r) (λ _, Alive pins g) (λ _, Alive pins g) y1) as Hrest.
  { clear HB. intros r L1 y1 HB Ha1. do 3 wstep.
    assert (∀ r L2 y2, B pins g v L2 y2 → (r = 0 → did is_hold L2) →
      wp (do! sset g (λ s, s <| s_tunnel_held := r =? 0 |>) in
          do! (if r =? 0 then
                 do! call_ g TbGetDevice in
                 hset g (λ h, h <| h_s := (h_s h) <| s_retained_tb := h_tb h |> |>)
               else ret tt) in
          ret r) (λ _, Alive pins g) (λ _, Alive pins g) y2) as Hend.
    { clear HB. intros r2 L2 y2 HB Hd. wstep. wopen.
      eapply (wp_hset _ _ _ (v <| w_held := r2 =? 0 |>)); [exact HB|by intros ? <-|done|done|..].
      - apply SI_hold; [by eapply B_si|]. intros Hr. by apply Hd, Z.eqb_eq.
      - clear HB. intros y3 HB. wend. }
    destruct (Z.eqb_spec r 0) as [->|Hr].
    - eapply wp_call'; [exact HB|..].
      + intros r'. apply SI_call; try done; [by intros []|by eapply B_si].
      + clear HB. intros r' y2 HB. eapply Hend; [exact HB|]. intros ->. by apply did_here.
    - wstep. by eapply Hend. }
  destruct (x1_general P).
  - unfold x1_general_drain_events. wstep. wstep.
    eapply wp_then; [by apply wp_drain|..]; clear HB; intros ? L1 y1 HB Hq1.
    + eapply Hrest; [exact HB|by eapply quiet_did].
    + walive.
  - wstep. by eapply Hrest.
Qed.

Lemma wp_inventory_tunnel pins g v L vendor device y :
  B pins g v L y → did is_connect L →
  wp (inventory_tunnel P HZ fuel g vendor device) (λ _, Alive pins g) (λ _, Alive pins g) y.
Proof.
  intros HB Hd. pose proof (B_si _ _ _ _ _ HB) as HS. unfold inventory_tunnel. do 3 wstep.
  eapply wp_call'; [exact HB|..].
  { intros r. apply SI_call; try done. by intros []. }
  clear HB. intros r y1 HB. wstep.
  set (L1 := L ++ [(TbApprove (b_uid (h_b h)), r)]) in *.
  assert (∀ L2 y2, B pins g v L2 y2 → did is_approve L2 →
    wp (hold_tunnel P HZ fuel g) (λ _, Alive pins g) (λ _, Alive pins g) y2) as Hhold
    by (intros; by eapply wp_hold_tunnel).
  assert (∀ r' L2 y2, B pins g v L2 y2 → (r = 0 → did is_approve L2) → (r' = 0 → r = 0) →
    wp (let! r := (if r' =? 0 then
               do! bset g (λ b, b <| b_step := "training-inventory-and-masked-receiver" |>) in
               helper_call g (BatchInventory vendor device) pcie_args set_pcie_args
                 (x1_batch_live g) (e_pcie (BatchInventory vendor device))
             else ret r') in
        if (r =? 0) && x1_tunnel_quiesce P then hold_tunnel P HZ fuel g else ret r)
       (λ _, Alive pins g) (λ _, Alive pins g) y2) as Hrest.
  { clear HB. intros r' L2 y2 HB Ha Hr'. wstep. destruct (Z.eqb_spec r' 0) as [->|Hne].
    - specialize (Ha (Hr' eq_refl)). wset.
      eapply (wp_helper _ _ _ _ (quiet L2)); [exact HB|done|done|done|..]; clear HB.
      + intros L3 y3 HB Hq. eapply wp_next; [by apply wp_batch_live|].
        intros ? L4 y4 HB4 Hq4. exists L4. split; [done|by etrans].
      + intros L3 r3 HS3 _. by apply SI_neutral.
      + intros L3 r3 y3 HB Hq. wstep; [|wend]. eapply Hhold; [exact HB|].
        by apply did_mono; eapply quiet_did.
    - wstep. destruct (Z.eqb_spec r' 0); [done|]. cbn [andb]. wend. }
  destruct (Z.eqb_spec r 0) as [->|Hr].
  - eapply wp_next; [by apply wp_batch_live|]. clear HB. intros r' L2 y2 HB Hq.
    eapply Hrest; [exact HB| |done]. intros _. eapply quiet_did; [exact Hq|]. by apply did_here.
  - wstep. by eapply Hrest.
Qed.

(** A [flow] that has left the wait. *)
Definition left pins g (f : flow) (y : hsys W) : Prop := Alive pins g y ∧ f ≠ WaitAttachment.
Ltac wleft := try (split; [walive|done]).

Lemma wp_inventory_attached pins g v L vendor device y :
  B pins g v L y →
  wp (inventory_attached P HZ fuel g vendor device) (left pins g) (λ _, Alive pins g) y.
Proof.
  intros HB. pose proof (B_si _ _ _ _ _ HB) as HS. unfold inventory_attached. do 4 wstep.
  wstep; [wstep; wleft|]. wstep; [wstep; wleft|]. do 2 wstep. wset. wstep.
  rewrite !orb_false_iff in Heqb0. destruct Heqb0 as ((_&Hc)&_). apply Z.eqb_neq in Hc.
  eapply wp_mono; [eapply wp_inventory_tunnel; [exact HB|]|..].
  - apply (si_connected _ _ HS). by rewrite <- Hv.
  - intros r' y1 HA. wstep. by split.
  - done.
Qed.

Lemma wp_inventory_wait pins g vendor device y :
  Alive pins g y →
  wp (inventory_wait P command_polls HZ fuel g vendor device) (left pins g) (λ _, Alive pins g) y.
Proof.
  intros HA. unfold inventory_wait. wstep.
  eapply wp_mono; [by apply stays_batch_wait| |done]. clear HA. intros r y1 HA. cbv beta in HA.
  eapply wp_lock_alive; [done|]. clear HA. intros v L y2 HB. do 2 wstep.
  set (untouched := ((r =? -ENOTCONN) || (r =? -ETIMEDOUT)) && x1_attach_untouched P h).
  wstep.
  assert (∀ y3, B pins g v L y3 →
    wp (if untouched && (u32 (b_negotiation_failures (h_b h) + 1) <? X1_NEGOTIATION_ATTEMPTS) then
          do! tset g (λ t, t <| t_negotiation_rearm :=
            bool_decide (t_batch_orientation t ≠ TYPEC_ORIENTATION_NONE) |>) in
          ret (Out (-ENOTCONN))
        else
        do! bset g (λ b, b <| b_waiting := false |>) in
        if r !=? 0 then ret (Terminal r) else inventory_attached P HZ fuel g vendor device)
       (left pins g) (λ _, Alive pins g) y3) as Hrest.
  { clear HB. intros y3 HB. wstep; [wset; wstep; wleft|]. wset. wstep; [wstep; wleft|].
    by eapply wp_inventory_attached. }
  destruct untouched; [wopen; wstep|wstep]; by apply Hrest.
Qed.

Lemma wp_inventory_prepare pins g y :
  Alive pins g y →
  wp (inventory_prepare P crc32c sha256 start_polls command_polls HZ g)
     (λ _, Alive pins g) (λ _, Alive pins g) y.
Proof.
  intros HA. unfold inventory_prepare. wstep.
  eapply wp_mono; [by apply stays_activate| |done]. clear HA. intros r y1 HA. cbv beta in HA.
  eapply wp_lock_alive; [done|]. clear HA. intros v L y2 HB.
  wstep; [wend|]. do 2 wstep. wstep; [wend|]. wset. wstep. unfold pcset. wstep. wstep.
  apply wp_admits. intros b. wstep. destruct b; [|wend].
  eapply wp_pcie_neutral; [exact HB|apply ro_none|done|]. clear HB. intros r' y3 HB. wend.
Qed.

Lemma wp_inventory_admit pins g uid vendor device y :
  Alive pins g y →
  wp (inventory_admit P crc32c sha256 start_polls command_polls HZ g uid vendor device)
     (λ _, Alive pins g) (λ _, Alive pins g) y.
Proof.
  intros HA. unfold inventory_admit. eapply wp_lock_alive; [done|]. clear HA. intros v L y1 HB.
  do 2 wstep. wstep; [wend|]. wstep; [wend|]. wstep; [wend|]. wset.
  apply wp_inventory_prepare. walive.
Qed.

Lemma stays_inventory_terminal pins g r : stays pins g (inventory_terminal P g r).
Proof. intros y (v&L&HB). unfold inventory_terminal. wend. Qed.

Lemma stays_inventory pins g capable buf :
  stays pins g (inventory_once_store P crc32c sha256 start_polls command_polls HZ fuel g capable buf).
Proof.
  intros y HA. unfold inventory_once_store. wstep; [by wstep|].
  assert (x1_batch_parse (x1_general P) buf ≠ Fault) as Hp.
  { unfold x1_batch_parse. repeat (case_match; try done). }
  destruct (x1_batch_parse (x1_general P) buf) as [[[uid vendor] device]|e|]; [|by wstep|done].
  wstep. eapply wp_mono; [by apply wp_inventory_admit| |done]. clear HA. intros f y1 HA. cbv beta in HA.
  assert (∀ f y2, left pins g f y2 →
    wp (inventory_finish P g f) (λ _, Alive pins g) (λ _, Alive pins g) y2) as Hfin.
  { intros f' y2 [HA2 Hf]. unfold inventory_finish. destruct f'; [by wstep|by apply stays_inventory_terminal|done]. }
  wstep. destruct f; [wstep; by apply Hfin..|].
  eapply wp_mono; [by apply wp_inventory_wait|apply Hfin|done].
Qed.

Lemma stays_bind pins g : stays pins g (inventory_bind P command_polls g).
Proof.
  intros y HA. unfold inventory_bind. eapply wp_lock_alive; [done|]. clear HA. intros v L y1 HB.
  do 3 wstep.
  assert (∀ r y2, Alive pins g y2 →
    wp (do! lock P command_polls in
        do! bset g (λ b, b <| b_error := r |> <| b_complete := r =? 0 |>
                           <| b_step := if r !=? 0 then "nvme-bind-failed"
                                        else "nvme-bound-read-not-proven" |>) in
        ret r) (λ _, Alive pins g) (λ _, Alive pins g) y2) as Hrest.
  { clear HB. intros r y2 HA. eapply wp_lock_alive; [done|]. clear HA. intros v2 L2 y3 HB. wend. }
  wstep; [wstep; apply Hrest; walive|].
  eapply wp_pcie_neutral; [exact HB|apply ro_none|done|]. clear HB. intros r y2 HB.
  apply Hrest. walive.
Qed.

Lemma stays_endpoint_remove pins g capable buf :
  stays pins g (endpoint_remove_once_store P command_polls g capable buf).
Proof.
  intros y HA. unfold endpoint_remove_once_store. wstep; [by wstep|].
  eapply wp_lock_alive; [done|]. clear HA. intros v L y1 HB. do 2 wstep. wstep; [wend|].
  eapply wp_pcie_neutral; [exact HB|apply ro_none|done|]. clear HB. intros r y2 HB. walive.
Qed.

(** *** Stopping the tunnel and the rings *)

Lemma SI_tunnel v L b : SI v L → (b = true → did is_fence L) → SI (v <| w_tunnel := b |>) L.
Proof. intros [] Hb. by constructor. Qed.

Lemma wp_stop_tunnel pins g pulled v L (Q : Z → hsys W → Prop) E y :
  B pins g v L y → w_held v = true →
  (∀ r L' y', B pins g (v <| w_tunnel := r =? 0 |>) L' y' → flat L L' → Q r y') →
  wp (stop_tunnel pulled g) Q E y.
Proof.
  intros HB Hh HQ. pose proof (B_si _ _ _ _ _ HB) as HS. unfold stop_tunnel. wstep.
  eapply (wp_helper _ _ _ _ (quiet L)); [exact HB|done|done|done|..]; clear HB.
  - intros L1 y1 HB Hq. unfold x1_stop_tunnel_action. do 2 wstep.
    eapply wp_struct; [exact HB| |done|done|].
    + intros r. apply SI_neutral; [by destruct pulled|by eapply B_si].
    + intros r y2 HB2. eexists. split; [exact HB2|]. apply quiet_snoc; [by destruct pulled|done].
  - intros L1 r HS1 Hq. apply SI_call; try done; [by intros []|].
    cbn. eapply quiet_did; [exact Hq|by apply (si_held _ _ HS)].
  - intros L1 r y1 HB Hq. wstep. wopen.
    eapply (wp_hset _ _ _ (v <| w_tunnel := r =? 0 |>)); [exact HB|by intros ? <-|done|done|..].
    + apply SI_tunnel; [by eapply B_si|]. intros Hr. apply Z.eqb_eq in Hr. subst r. by apply did_here.
    + clear HB. intros y2 HB. wstep. eapply HQ; [exact HB|].
      apply flat_log; [by intros []|by apply quiet_flat].
Qed.

Lemma stays_tunnel_quiesce pins g capable buf :
  stays pins g (tunnel_quiesce_once_store P command_polls g capable buf).
Proof.
  intros y HA. unfold tunnel_quiesce_once_store. wstep; [by wstep|].
  eapply wp_lock_alive; [done|]. clear HA. intros v L y1 HB. do 2 wstep.
  wstep; [wend|]. wstep; [wend|]. apply orb_false_iff in Heqb1 as [Hh _].
  apply negb_false_iff, held_session_view in Hh as [Hh _]. rewrite Hv in Hh. wset.
  eapply wp_stop_tunnel; [exact HB|done|]. clear HB. intros r L2 y2 HB _. walive.
Qed.

Lemma stays_host_quiesce pins g capable buf :
  stays pins g (host_quiesce_once_store P command_polls g capable buf).
Proof.
  intros y HA. unfold host_quiesce_once_store. wstep; [by wstep|].
  eapply wp_lock_alive; [done|]. clear HA. intros v L y1 HB. do 2 wstep.
  wstep; [wend|]. wstep; [wend|]. rewrite !orb_false_iff, !negb_false_iff in Heqb1.
  destruct Heqb1 as ((((((((((_&_)&_)&_)&Ht)&_)&Hr)&_)&_)&_)&_).
  pose proof (B_si _ _ _ _ _ HB) as HS.
  assert (powered L) as Hpw by (apply (SI_ready_powered v); [done|by rewrite <- Hv]).
  assert (did is_fence L) as Hf.
  { apply (si_tunnel _ _ HS). rewrite <- Hv. cbn. unfold tunnel_receipt in Ht.
    rewrite !andb_true_iff in Ht. naive_solver. }
  wset. wset. do 2 wstep.
  assert (∀ r y2, Alive pins g y2 →
    wp (do! (if r =? 0 then
           do! hsset g (λ s, s <| hs_stage := "control-stopped-retained" |>) in
           hset g (λ h, h <| h_ready := false |>)
         else ret tt) in
        ret r) (λ _, Alive pins g) (λ _, Alive pins g) y2) as Hend.
  { clear. intros r y2 (v2&L2&HB). wstep. wstep; [|wend]. wset.
    eapply (wp_hset _ _ _ (v2 <| w_ready := false |>)); [exact HB|by intros ? <-|done|done|..].
    - pose proof (B_si _ _ _ _ _ HB) as []. by constructor.
    - clear HB. intros y3 HB. wend. }
  assert (∀ h' L2 r2 y2, Own pins g h' L2 y2 → (view h') <| w_rings := false |> = v <| w_rings := false |> →
    SI (v <| w_rings := false |>) L2 → (r2 = 0 → did is_ctl_stop L2) →
    wp (let! r := control_receipt g r2 in
        do! (if r =? 0 then
           do! hsset g (λ s, s <| hs_stage := "control-stopped-retained" |>) in
           hset g (λ h, h <| h_ready := false |>)
         else ret tt) in
        ret r) (λ _, Alive pins g) (λ _, Alive pins g) y2) as Hrec.
  { intros h' L2 r2 y2 HO Hv2 HS2 Hd. wstep. eapply wp_control_receipt; [exact HO|done..|].
    intros r' y3 _ HB'. apply Hend. eexists _, _. exact HB'. }
  assert (SI (v <| w_rings := false |>) (L ++ [(TbPcieStopped (b_uid (h_b h)), r)])) as HS1
    by (by apply SI_rings; [apply SI_neutral|]).
  wstep. destruct (Z.eqb_spec r 0) as [->|Hne].
  2: { wstep. wstep. destruct (Z.eqb_spec r 0); [done|]. wstep.
       destruct (B_Own _ _ _ _ _ HB) as (h'&Hv'&HO). by eapply Hrec; [exact HO|rewrite Hv'|..]. }
  eapply wp_stop_control; [exact HB| |left; by apply did_mono|].
  { eapply quiet_powered; [|exact Hpw]. by apply quiet_snoc. }
  clear HB. intros r1 h1 y2 HO Hv1 HS2. wstep. destruct (Z.eqb_spec r1 0) as [->|Hr1].
  2: { wstep. by eapply Hrec. }
  wstep. wopen. eapply wp_own_hset; [exact HO|done..|]. clear HO. intros y3 HO.
  eapply wp_own_call; [exact HO|]. clear HO. intros r3 y4 HO.
  eapply Hrec; [exact HO|exact Hv1|by apply SI_neutral|].
  intros _. by apply did_mono, did_here.
Qed.

(** *** Retirement *)

Lemma wp_retire_namespaces pins g v L (Q : Z → hsys W → Prop) E y :
  B pins g v L y → down v → (∀ r y', B pins g v (L ++ [(RetireNamespaces, r)]) y' → Q r y') →
  wp (pcie_call g RetireNamespaces (x1_namespace_owner_stopped P g)) Q E y.
Proof.
  intros HB Hd HQ. pose proof (B_si _ _ _ _ _ HB) as HS.
  eapply wp_pcie; [exact HB|apply ro_namespace|by intros []|by intros []|done|done| |done|done].
  by eapply down_unpowered.
Qed.

Lemma wp_retire_pci pins g v L (Q : Z → hsys W → Prop) E y :
  B pins g v L y → down v → did is_namespaces L →
  (∀ r y', B pins g v (L ++ [(RetirePci, r)]) y' → Q r y') →
  wp (pcie_call g RetirePci (x1_namespace_owner_stopped P g)) Q E y.
Proof.
  intros HB Hd Hn HQ. pose proof (B_si _ _ _ _ _ HB) as HS.
  eapply wp_pcie; [exact HB|apply ro_namespace|by intros []|by intros []|done|done| |done|done].
  split; [by eapply down_unpowered|done].
Qed.

Ltac wchain HE := match goal with |- wp (if (?r !=? 0) || _ then _ else _) _ _ _ =>
  destruct (Z.eqb_spec r 0) as [->|?]; cbn [negb orb]; [|wstep; by apply HE; walive];
  wstep; [wstep; by apply HE; walive|] end.

Lemma wp_retire_chain pins g v L (Q : Z → hsys W → Prop) E y :
  B pins g v L y → down v → held Votes L = 0 → (∀ r y', Alive pins g y' → Q r y') →
  wp (retire_chain P command_polls g) Q E y.
Proof.
  intros HB Hd HV HE. unfold retire_chain. wstep.
  eapply wp_retire_namespaces; [exact HB|done|]. clear HB. intros r1 y1 HB. wchain HE. wstep.
  eapply wp_retire_pci; [exact HB|done|by apply did_here|]. clear HB. intros r2 y2 HB. wchain HE. wstep.
  eapply wp_retire_control; [exact HB|apply ro_control|done|left; by apply did_here|].
  clear HB. intros r3 y3 HB. wchain HE. wstep.
  eapply wp_retire_domain; [exact HB|done|by apply did_here|..]; clear HB.
  { intros r4 y4 Hr4 HA. destruct (Z.eqb_spec r4 0); [done|]. cbn [negb orb]. wstep. by apply HE. }
  intros L4 y4 HB Hf4. cbn [Z.eqb negb orb]. wstep; [wstep; apply HE; walive|].
  eapply wp_retire_session; [exact HB|done|done| |done].
  rewrite (flat_held _ _ _ Hf4), !held_snoc. cbn. lia.
Qed.

Lemma stays_power_quiesce pins g capable buf :
  stays pins g (power_quiesce_once_store P command_polls g capable buf).
Proof.
  intros y HA. unfold power_quiesce_once_store. wstep; [by wstep|].
  eapply wp_lock_alive; [done|]. clear HA. intros v L y1 HB. do 2 wstep.
  wstep; [wend|]. wstep; [wend|]. do 2 wstep. wstep.
  (* a failed stop *)
  assert (∀ r y2, r ≠ 0 → Alive pins g y2 →
    wp (let! h := hget g in
        do! (if (r !=? 0) && ps_attempted (h_p h)
             then psset g (λ s, s <| ps_error := r |> <| ps_finished := false |>) else ret tt) in
        if (r =? 0) && x1_namespace_retire P then retire_chain P command_polls g else ret r)
       (λ _, Alive pins g) (λ _, Alive pins g) y2) as Hbad.
  { clear HB. intros r' y2 Hr (v2&L2&HB). do 3 wstep. destruct (Z.eqb_spec r' 0); [done|].
    cbn [negb andb]. wend. }
  assert (∀ r y2, r ≠ 0 → Alive pins g y2 →
    wp (let! r := (if r =? 0 then call g (TbPcieStopped (b_uid (h_b h))) else ret r) in
        let! h := hget g in
        do! (if (r !=? 0) && ps_attempted (h_p h)
             then psset g (λ s, s <| ps_error := r |> <| ps_finished := false |>) else ret tt) in
        if (r =? 0) && x1_namespace_retire P then retire_chain P command_polls g else ret r)
       (λ _, Alive pins g) (λ _, Alive pins g) y2) as Hbad'.
  { intros r' y2 Hr HA. wstep. destruct (Z.eqb_spec r' 0); [done|]. wstep. by apply Hbad. }
  destruct (Z.eqb_spec r 0) as [->|Hr]; [|wstep; apply Hbad'; [done|walive]].
  eapply wp_power_stop_run; [exact HB|exact Hbad'|]. clear HB. intros v2 L2 y2 HB Hd HV Hg.
  cbn [Z.eqb]. do 2 wstep. destruct (decide (r = 0)) as [->|Hr]; [|apply Hbad; [done|walive]].
  do 3 wstep. cbn [negb andb Z.eqb]. wstep. wstep; [|wend].
  eapply wp_retire_chain; [exact HB|done| |done]. rewrite held_snoc. cbn. lia.
Qed.

(** *** The idle power-down *)

Lemma wp_freeze pins n g d v L (Q : Z → hsys W → Prop) y :
  B pins g v L y →
  (∀ r L' y', B pins g v L' y' → quiet L L' → (r = 0 → did is_freeze L') → Q r y') →
  wp (freeze_cm n g d) Q (λ _, Alive pins g) y.
Proof.
  revert L y. induction n as [|n IH]; intros L y HB HQ; cbn [freeze_cm]; [apply wp_fail; walive|].
  do 3 wstep.
  assert (∀ idle y1, B pins g v L y1 → wp (
    let! r := (if idle !=? 0 then call g TbIdleFreeze else ret (-EBUSY)) in
      if r !=? -EBUSY then ret r else
      let! now := jiffies in
      if time_after now d then ret r else
      do! call_ g (Msleep 20) in freeze_cm n g d) Q (λ _, Alive pins g) y1) as Hrest.
  { clear HB. intros idle y1 HB. wstep. wstep.
    - wstep. wstep; [wstep|].
      + eapply HQ; [exact HB|quiet_done|]. intros ->. by apply did_here.
      + apply negb_false_iff, Z.eqb_eq in Heqb0. subst. do 2 wstep.
        wstep; [wstep; eapply HQ; [exact HB|quiet_done|done]|]. do 2 wstep.
        eapply IH; [exact HB|]. intros r' L' y' HB' Hq'. eapply HQ; [exact HB'|quiet_done].
    - wstep. rewrite Z.eqb_refl. cbn [negb]. do 2 wstep.
      wstep; [wstep; eapply HQ; [exact HB|quiet_done|done]|]. do 2 wstep.
      eapply IH; [exact HB|]. intros r' L' y' HB' Hq'. eapply HQ; [exact HB'|quiet_done]. }
  wstep; wstep; by apply Hrest.
Qed.

Lemma wp_idle_stop pins g v L (Q : Z → hsys W → Prop) E y :
  B pins g v L y → w_ready v = true → did is_freeze L →
  (∀ r y', r ≠ 0 → Alive pins g y' → Q r y') →
  (∀ v' L' y', B pins g v' L' y' → down v' → held Votes L' = 1 → did is_freeze L' → Q 0 y') →
  wp (idle_stop P g) Q E y.
Proof.
  intros HB Hrd Hfz HE HQ. pose proof (B_si _ _ _ _ _ HB) as HS. unfold idle_stop.
  destruct (si_ready _ _ HS Hrd) as (Ha&Hs&_). destruct (si_active _ _ HS Ha Hs) as (Hg&Hc&Hrt).
  pose proof (SI_in_use _ _ HS Hg) as Hrun.
  assert (held Votes L = 1) as HV by (by rewrite (si_votes_live _ _ HS Hs), Hrt).
  assert (powered L) as Hpw by (by apply (SI_ready_powered v)).
  set (v1 := v <| w_stopping := true |> <| w_ready := false |>).
  assert (SI v1 L) as HS1 by (by apply SI_stop).
  wstep. eapply (wp_hset _ _ _ v1); [exact HB|by intros ? <-|done..|]. clear HB. intros y1 HB. wstep.
  eapply wp_call_'; [exact HB|..].
  { intros r. apply SI_vote; try done; [cbn; lia|by intros [] ?|]. rewrite HV. unfold v1. cbn.
    rewrite Hrt. cbn. lia. }
  clear HB. intros r y2 HB. do 4 wset.
  eapply wp_stop_control_receipt; [exact HB| |right; by apply did_mono|].
  { destruct Hpw as (?&?&?). unfold powered. rewrite !held_snoc. cbn. lia. }
  clear HB. intros r0 r' y3 HB. destruct (Z.eqb_spec r' 0) as [->|Hne]; cbn [negb].
  2: { wstep. apply HE; [done|walive]. }
  do 2 wset. eapply wp_idle_power_stop_run; [exact HB|done|]. clear HB. intros v4 L4 y4 HB Hd HV4 Hg4.
  eapply HQ; [exact HB|done|..].
  - rewrite HV4, !held_snoc. cbn. lia.
  - eapply grows_did; [exact Hg4|]. by do 2 apply did_mono.
Qed.

Lemma wp_idle_release pins g v L y :
  B pins g v L y → down v → held Votes L = 1 → did is_freeze L →
  wp (idle_release P command_polls g) (λ _, Alive pins g) (λ _, Alive pins g) y.
Proof.
  intros HB Hd HV Hf. unfold idle_release. wset. wstep.
  eapply wp_retire_control; [exact HB|apply ro_idle|done|by right|]. clear HB. intros r1 y1 HB. wstep.
  wstep; [|walive]. subst r1. wset. wstep.
  eapply wp_idle_retire_domain; [exact HB|done|by apply did_here|..]; clear HB.
  { intros r2 y2 Hr2 HA. wstep. by wstep. }
  intros L2 y2 HB Hf2. wstep. wstep; [|done]. wset. wstep. pose proof (B_si _ _ _ _ _ HB) as HS2.
  eapply wp_helper_ro; [exact HB|apply ro_idle_platform|done|done|..].
  { intros r. apply SI_call; try done; [by intros []|].
    split; [by eapply down_unpowered|by apply (si_released _ _ HS2)]. }
  clear HB. intros r3 y3 HB. wstep. wstep; [|walive]. subst r3. wset. wstep. wstep; [|walive]. wstep.
  eapply wp_free_rings; [exact HB|by apply did_mono, did_here|]. clear HB. intros r4 y4 HB. wstep.
  assert (held Votes ((L2 ++ [(IdleRetirePlatform, 0)]) ++ [(ReleaseRetiredReset, 0)]) = 1) as HV2.
  { rewrite !held_snoc, (flat_held _ _ _ Hf2), held_snoc. cbn. lia. }
  pose proof Hd as (Hrun&Hst&_&_&_&Hz).
  eapply wp_call_'; [exact HB|..].
  { intros r. apply SI_vote; [by eapply B_si| |by intros [] ?|done|done|done|done|].
    - cbn [permitted fst]. rewrite held_snoc, HV2. done.
    - rewrite held_snoc, HV2. change (w_v (v <| w_released := true |>)) with (w_v v). rewrite Hz. done. }
  clear HB. intros r5 y5 HB.
  eapply (wp_hset _ _ _ (v <| w_released := true |> <| w_retired := true |>));
    [exact HB|by intros ? <-|done|done|..].
  - apply SI_retire; [by eapply B_si|done|]. rewrite !held_snoc in *. cbn in *. lia.
  - clear HB. intros y6 HB. walive.
Qed.

Lemma stays_idle_retire pins g capable buf :
  stays pins g (idle_retire_once_store P command_polls HZ fuel g capable buf).
Proof.
  intros y HA. unfold idle_retire_once_store. wstep; [by wstep|].
  eapply wp_lock_alive; [done|]. clear HA. intros v L y1 HB. do 2 wstep.
  wstep; [wend|]. wstep; [wend|]. apply negb_false_iff in Heqb1.
  assert (w_ready v = true) as Hrd.
  { rewrite <- Hv. by apply idle_admissible_view. }
  unfold x1_idle_freeze_cm. do 3 wstep.
  eapply wp_freeze; [exact HB|]. clear HB. intros r2 L2 y2 HB Hq Hfz.
  destruct (Z.eqb_spec r2 0) as [->|Hr]; cbn [negb]; [|wend]. wstep.
  assert (∀ r y3, Alive pins g y3 → wp (do! eset g (λ e, e <| e_idle_error := r |>) in ret r)
    (λ _, Alive pins g) (λ _, Alive pins g) y3) as Hend.
  { clear HB. intros r3 y3 (v3&L3&HB). wend. }
  eapply wp_idle_stop; [exact HB|done|by apply Hfz|..]; clear HB.
  - intros r3 y3 Hr HA. wstep. destruct (Z.eqb_spec r3 0); [done|]. wstep. by apply Hend.
  - intros v3 L3 y3 HB Hd HV Hf. wstep. cbn [Z.eqb]. wstep.
    eapply wp_mono; [by eapply wp_idle_release|..]; intros ? y4 HA; by apply Hend.
Qed.

(** *** The pulled cable *)

Lemma wp_pulled_release pins g v L y :
  B pins g v L y → down v → held Votes L = 0 →
  wp (pulled_release P command_polls g) (λ _, Alive pins g) (λ _, Alive pins g) y.
Proof.
  intros HB Hd HV. unfold pulled_release. wset. wstep.
  eapply wp_retire_namespaces; [exact HB|done|]. clear HB. intros r1 y1 HB. wstep.
  wstep; [|walive]. subst r1. wset. wstep.
  eapply wp_retire_pci; [exact HB|done|by apply did_here|]. clear HB. intros r2 y2 HB. wstep.
  wstep; [|walive]. subst r2. wset. wstep.
  eapply wp_retire_control; [exact HB|apply ro_control|done|left; by apply did_here|].
  clear HB. intros r3 y3 HB. wstep. wstep; [|walive]. subst r3. wset. wstep.
  eapply wp_retire_domain; [exact HB|done|by apply did_here|..]; clear HB.
  { intros r4 y4 Hr4 HA. wstep. by wstep. }
  intros L4 y4 HB Hf4. wstep. wstep; [|done]. wset. wstep.
  eapply wp_retire_session; [exact HB|done|done| |].
  - rewrite (flat_held _ _ _ Hf4), !held_snoc. cbn. lia.
  - clear HB. intros r5 y5 (v5&L5&HB). wstep. wstep; [|walive]. wopen. wstep. walive.
Qed.

Lemma wp_pulled_stop pins g v L y (Q : unit → hsys W → Prop) (E : Z → hsys W → Prop) :
  B pins g v L y → w_ready v = true → w_held v = true →
  (∀ v' L' y', B pins g v' L' y' → down v' → held Votes L' = 0 → Q tt y') →
  (∀ e y', Alive pins g y' → E e y') → wp (pulled_stop P command_polls g) Q E y.
Proof.
  intros HB Hr Hh HQ HE. unfold pulled_stop. wstep. eapply wp_lock; [exact HB|].
  clear HB. intros v1 L1 y1 HB Hcl _. destruct (called_inv _ _ Hcl) as (c&k&->). clear Hcl.
  do 2 wset. wstep. eapply wp_stop_tunnel; [exact HB|done|]. clear HB. intros r L2 y2 HB Hf2. wstep.
  wstep; [|apply HE; walive]. subst r. do 2 wset. pose proof (B_si _ _ _ _ _ HB) as HS2.
  eapply wp_stop_control_receipt; [exact HB|by eapply SI_ready_powered|left; by apply (si_tunnel _ _ HS2)|].
  clear HB. intros r0 r y3 HB. wstep. wstep; [|apply HE; walive]. subst r. wset. wstep.
  match type of HB with B _ _ ?v _ _ =>
    eapply (wp_hset _ _ v (v <| w_ready := false |>)); [exact HB|by intros ? <-|done|done|..] end.
  { pose proof (B_si _ _ _ _ _ HB) as []. by constructor. }
  clear HB. intros y4 HB. wset. wstep.
  eapply wp_power_stop_run; [exact HB|..]; clear HB.
  - intros r y5 Hr5 HA. wstep; [done|by apply HE].
  - intros v5 L5 y5 HB Hd HV Hg. wstep; [|done]. by eapply HQ.
Qed.

Lemma stays_pulled_retire pins g capable buf :
  stays pins g (pulled_retire_once_store P command_polls g capable buf).
Proof.
  intros y HA. unfold pulled_retire_once_store. wstep; [by wstep|].
  eapply wp_lock_alive; [done|]. clear HA. intros v L y1 HB. do 2 wstep.
  wstep; [wend|]. wstep; [wend|]. apply negb_false_iff in Heqb1. unfold pulled_admissible in Heqb1.
  rewrite !andb_true_iff in Heqb1. destruct Heqb1 as (((((Hh&_)&_)&_)&_)&_).
  apply held_session_view in Hh as [Hh Hr]. rewrite Hv in Hh, Hr.
  unfold x1_port_pulled. do 2 wstep. eapply wp_event_lock; [exact HB|]. clear HB Hv.
  intros v1 L1 y2 HB Hcl _. destruct (called_inv _ _ Hcl) as (c&k&->). clear Hcl.
  do 5 wstep. wstep; [wend|]. wset. wstep. eapply wp_mark_pulled; [exact HB|]. clear HB.
  intros L2 y3 HB _. wstep.
  assert (∀ r y4, Alive pins g y4 → wp (do! eset g (λ e, e <| e_pulled_error := r |>) in ret r)
    (λ _, Alive pins g) (λ _, Alive pins g) y4) as Hend.
  { clear HB. intros r y4 (v3&L3&HB). wend. }
  wstep. unfold pulled_body. wset. do 3 wstep.
  assert (∀ r L3 y4, B pins g (v <| w_command := c |> <| w_connected := k |>) L3 y4 →
    wp (do! ok_or_fail r in do! pulled_stop P command_polls g in pulled_release P command_polls g)
       (λ _, wp (do! eset g (λ e, e <| e_pulled_error := 0 |>) in ret 0) (λ _, Alive pins g) (λ _, Alive pins g))
       (λ r, wp (do! eset g (λ e, e <| e_pulled_error := r |>) in ret r) (λ _, Alive pins g) (λ _, Alive pins g))
       y4) as Hrest.
  { clear HB. intros r L3 y4 HB. wstep. wstep; [|apply Hend; walive]. wstep.
    eapply wp_pulled_stop; [exact HB|done|done|..].
    - intros v5 L5 y5 HB5 Hd HV.
      eapply wp_mono; [by eapply wp_pulled_release|..]; intros ? y6 HA; by apply Hend.
    - intros e y5 HA. by apply Hend. }
  wstep; [wstep; by eapply Hrest|].
  eapply wp_pcie_neutral; [exact HB|apply ro_none|done|]. clear HB. intros r y4 HB. by eapply Hrest.
Qed.
End stores.
