(* ===== verification/HostFrame.v ===== *)
(** * The production host driver: what a handler leaves alone

    A relation between states that every primitive respects is respected by
    every handler.  Two instances are used: no handler but renewal, probe and
    unbinding changes the published session, and the clock does not run
    backwards. *)

From S2P Require Import Prelude Wp Fw Drom Mcu Startup Typec HostData HostStart HostStop HostStores.
From S2P Require Import HostLogic HostInv.

(** The steps a helper takes on its own. *)
Inductive helper_steps {W X} (T : relation W) : helper W X → Prop :=
| hs_finish f : (∀ x w, T w (f x w).2) → helper_steps T (Finish f)
| hs_callback f k : (∀ x w, T w (f x w).2) → (∀ r, helper_steps T (k r)) →
    helper_steps T (Callback f k).

(** Every way in which the outside world moves on. *)
Class Flows {W} `{Mmio Z W} `{HostEnv W} (T : relation W) : Prop := {
  fl_pre : PreOrder T;
  fl_call c w : T w (e_call c w).2;
  fl_firmware w : T w (e_firmware w).2;
  fl_nhi c x w : T w (e_nhi c x w).2;
  fl_ctl_stop x w : T w (e_ctl_stop x w).2;
  fl_tunnel c x w : T w (e_tunnel c x w).2;
  fl_pcie c w : helper_steps T (e_pcie c w);
  fl_ctl_retire w : helper_steps T (e_ctl_retire w);
  fl_cm_retire c w : helper_steps T (e_cm_retire c w);
  fl_arrivals w : T w (e_arrivals w).2;
  fl_read (a : Z) w : T w (dev_read a w).2;
  fl_write (a v : Z) w : T w (dev_write a v w);
}.
#[export] Existing Instance fl_pre.

(** A startup run whose callbacks respect [R] respects it. *)
Section sequencer.
Context {S : Type} (R : relation S) `{!PreOrder R}.

Record ops_keep (ops : x1_ops S) : Prop := {
  ok_owner cfg s : R s (ops_owner ops cfg s).2;
  ok_step st cfg s : R s (ops_step ops st cfg s).2;
  ok_read off s : R s (ops_read ops off s).2;
  ok_update off m v s : R s (ops_update ops off m v s).2;
  ok_delay us s : R s (ops_delay_us ops us s);
}.

Lemma keeps_execute ops op cfg : ops_keep ops → keeps R (execute op cfg ops).
Proof.
  intros K.
  assert (∀ us, keeps R (modify (ops_delay_us ops us))) as Hd by (intros us; apply keeps_modify, ok_delay, K).
  assert (∀ off m v, keeps R (try_ (ops_update ops off m v))) as Hu
    by (intros; apply keeps_try, ok_update, K).
  unfold execute. destruct (o_kind op); auto; [apply keeps_try, ok_step, K|].
  unfold clear_1200c. apply keeps_bind; [done| |by intros; apply Hd].
  generalize 11%nat. intros n. induction n as [|n IH]; cbn [clear_1200c_loop];
    (apply keeps_bind; [done| |intros v; destruct (negb _); keeps_auto; auto]);
    intros s; unfold call_read; pose proof (ok_read _ K 0x1200c s) as Hr;
    destruct (ops_read ops 0x1200c s) as [[r x] s1]; by destruct (r =? 0).
Qed.

Lemma keeps_stage st (m : M S unit) : keeps R m → keeps (λ a b, R a.2 b.2) (stage st m).
Proof. intros Hm [x s]. unfold stage. specialize (Hm s). by destruct (m s) as [[]]. Qed.

Lemma keeps_startup_run crc32c cfg ops x s :
  (∀ o, ops = Some o → ops_keep o) → R s (x1_startup_run crc32c cfg ops (x, s)).2.2.
Proof.
  intros K. unfold x1_startup_run. destruct (decide _); [done|].
  assert (PreOrder (λ a b : x1_state * S, R a.2 b.2)) as HP.
  { split; [intros a; cbn; reflexivity|]. intros a b c A B. by etrans. }
  assert (keeps (λ a b, R a.2 b.2) (startup_body crc32c operations cfg ops)) as Hb.
  { unfold startup_body. keeps_auto; try apply keeps_stage.
    - by apply keeps_lift.
    - by apply keeps_try, ok_owner, K.
    - apply keeps_for_each; [done|]. intros op _. by apply keeps_stage, keeps_execute, K. }
  match goal with |- context [startup_body _ _ _ _ ?a] => specialize (Hb a); destruct (startup_body _ _ _ _ a) as [[] []] end;
    done.
Qed.
End sequencer.

Section frame.
Context (P : params).
Context (crc32c : Z → list Z → Z) (sha256 : list Z → list Z).
Context (start_polls command_polls : nat) (HZ : Z) (fuel : nat).
Context `{TypecAbi}.
Context {W : Type} `{Mmio Z W} `{HostEnv W} (T : relation W) `{!Flows T}.
Implicit Types (g : Z) (y : hsys W).

(** The published session stays and the world moves on. *)
Definition steady (y y' : hsys W) : Prop :=
  q_session (y_port y') = q_session (y_port y) ∧ T (y_w y) (y_w y').

#[export] Instance steady_preorder : PreOrder steady.
Proof.
  split; [intros y; split; [done|reflexivity]|].
  intros y1 y2 y3 [A1 A2] [B1 B2]. split; [congruence|by etrans].
Qed.

Lemma steady_w y w : T (y_w y) w → steady y (y <| y_w := w |>).
Proof. by split. Qed.

Lemma st_hget g : keeps steady (hget g).
Proof. intros y. unfold hget. by destruct (y_sessions y !! g). Qed.
Lemma st_hset g f : keeps steady (hset g f).
Proof. intros y. unfold hset. destruct (y_sessions y !! g); [|done]. by split; [|cbn]. Qed.
Lemma st_pget : keeps steady pget.
Proof. intros y. done. Qed.
Lemma st_pset f : (∀ p, q_session (f p) = q_session p) → keeps steady (pset f).
Proof. intros Hf y. split; [apply Hf|cbn; reflexivity]. Qed.
Lemma st_note g c r : keeps steady (note g c r).
Proof. intros y. by split; [|cbn]. Qed.
Lemma st_call2 g c : keeps steady (call2 g c).
Proof.
  intros y. unfold call2. pose proof (fl_call c (y_w y)) as Hw.
  destruct (e_call c (y_w y)) as [[r x] w]. by split.
Qed.
Lemma st_query c : keeps steady (read_out c).
Proof.
  intros y. unfold read_out. pose proof (fl_call c (y_w y)) as Hw.
  destruct (e_call c (y_w y)) as [[r x] w]. by split.
Qed.
Lemma st_router {A} (m : M W A) : keeps T m → keeps steady (on_router m).
Proof. intros Hm y. unfold on_router. specialize (Hm (y_w y)). destruct (m (y_w y)). by split. Qed.
Lemma st_attempt (m : M (hsys W) unit) : keeps steady m → keeps steady (attempt m).
Proof. intros Hm y. specialize (Hm y). unfold attempt. by destruct (m y) as [[]]. Qed.
Lemma st_on_error {A} (m : M (hsys W) A) c : keeps steady m → keeps steady c → keeps steady (on_error m c).
Proof. intros. apply keeps_on_error; [typeclasses eauto|done..]. Qed.
Lemma st_for_each {X} (l : list X) body :
  (∀ x, keeps steady (body x)) → keeps steady (for_each l body).
Proof. intros Hb. apply keeps_for_each; [typeclasses eauto|done]. Qed.
Lemma st_ok_or_fail r : keeps steady (ok_or_fail r).
Proof. unfold ok_or_fail. by destruct (r =? 0). Qed.

Hint Resolve st_hget st_hset st_pget st_note st_call2 st_query st_attempt st_on_error st_for_each
  st_ok_or_fail : km.
Hint Extern 1 (keeps steady (pset _)) => apply st_pset; done : km.

(** Registers. *)
Lemma T_readl a : keeps T (readl a).
Proof. intros w. unfold readl. pose proof (fl_read a w) as Hr. by destruct (dev_read a w). Qed.
Lemma T_writel v a : keeps T (writel v a).
Proof. intros w. apply fl_write. Qed.
Hint Resolve T_readl T_writel : km.
Lemma T_poll n a c : keeps T (readl_poll_timeout n a c).
Proof. induction n as [|n IH]; simpl; keeps_auto. Qed.
Hint Resolve T_poll : km.
Lemma T_update off m x : keeps T (qcom_usb4_mcu_update off m x).
Proof. unfold qcom_usb4_mcu_update. keeps_auto. Qed.
Hint Resolve T_update : km.
Lemma T_mcu_stop m : keeps T (qcom_usb4_mcu_stop m).
Proof. unfold qcom_usb4_mcu_stop. keeps_auto. Qed.
Lemma T_command n m c t : keeps T (qcom_usb4_mcu_command n m c t).
Proof. unfold qcom_usb4_mcu_command. keeps_auto. Qed.
Lemma T_start n m x w : T w (qcom_usb4_mcu_start n m x w).2.
Proof.
  unfold qcom_usb4_mcu_start. destruct x; [|done]. destruct m as [m|]; [|done].
  destruct (base m =? 0); [done|].
  assert (keeps T (mcu_start_run n m)) as Hm.
  { unfold mcu_start_run, mcu_await_shared. keeps_auto; apply keeps_on_error; try typeclasses eauto;
      [keeps_auto|apply T_mcu_stop]. }
  specialize (Hm w). by destruct (mcu_start_run n m w) as [[]].
Qed.
Hint Resolve T_mcu_stop T_command : km.
Hint Extern 1 (keeps steady (on_router _)) => apply st_router : km.

Lemma T_words d m n off pos : keeps T (fw_upload_words d (qcom_usb4_mcu_write_word m) n off pos).
Proof.
  revert off pos. induction n as [|n IH]; intros off pos; cbn [fw_upload_words]; keeps_auto; try apply IH.
  apply keeps_try. intros w. apply (T_writel _ _ w).
Qed.
Hint Resolve T_words : km.
Lemma T_upload_loop d size m n pos : keeps T (fw_upload_loop d size (qcom_usb4_mcu_write_word m) n pos).
Proof. revert pos. induction n as [|n IH]; intros pos; cbn [fw_upload_loop]; keeps_auto; apply IH. Qed.
Hint Resolve T_upload_loop : km.
Lemma T_upload m data size : keeps T (qcom_usb4_mcu_upload m data size).
Proof. unfold qcom_usb4_mcu_upload, qcom_usb4_fw_upload. keeps_auto. Qed.
Hint Resolve T_upload : km.

(** Plain code: unfold a definition and walk it. *)
Lemma st_modify (f : hsys W → hsys W) :
  (∀ y, y_port (f y) = y_port y) → (∀ y, y_w (f y) = y_w y) → keeps steady (modify f).
Proof. intros Hp Hw y. split; cbn; [by rewrite Hp|by rewrite Hw]. Qed.
Hint Extern 1 (keeps steady (modify _)) => apply st_modify; done : km.
Lemma st_world {A} (f : W → A * W) :
  (∀ w, T w (f w).2) → keeps steady (λ y, let (a, w) := f (y_w y) in (Ok a, y <| y_w := w |>)).
Proof. intros Hf y. specialize (Hf (y_w y)). destruct (f (y_w y)). by split. Qed.
Lemma st_fill {X} (f : W → Z * X * W) :
  (∀ w, T w (f w).2) →
  keeps steady (λ y, let '(r, x, w) := f (y_w y) in (Ok (r, x), y <| y_w := w |>)).
Proof. intros Hf y. specialize (Hf (y_w y)). destruct (f (y_w y)) as [[r x] w]. by split. Qed.

Lemma st_call g c : keeps steady (call g c).
Proof. unfold call. keeps_auto. Qed.
Lemma st_call_ g c : keeps steady (call_ g c).
Proof. unfold call_. keeps_auto. Qed.
Hint Resolve st_call st_call_ : km.
Lemma st_must g c : keeps steady (must g c).
Proof. unfold must. keeps_auto. Qed.
Lemma st_jiffies : keeps steady jiffies.
Proof. unfold jiffies. keeps_auto. Qed.
Hint Resolve st_must st_jiffies : km.

Lemma st_struct {X} g c (gx : x1_host → X) sx f :
  (∀ x w, T w (f x w).2) → keeps steady (struct_call g c gx sx f).
Proof. intros Hf. unfold struct_call. keeps_auto. apply st_fill. intros. apply Hf. Qed.
Lemma st_nhi g c : keeps steady (nhi_call g c).
Proof. apply st_struct. intros. apply fl_nhi. Qed.
Hint Resolve st_nhi : km.

Lemma st_run_helper {X} g (gx : x1_host → X) sx cb t :
  helper_steps T t → keeps steady cb → keeps steady (run_helper g gx sx cb t).
Proof.
  intros Ht Hcb. induction Ht as [f Hf|f k Hf Hk IH]; cbn [run_helper]; keeps_auto; auto.
  - apply st_fill. intros. apply Hf.
  - apply st_world. intros. apply Hf.
Qed.
Lemma st_helper {X} g c (gx : x1_host → X) sx cb t :
  (∀ w, helper_steps T (t w)) → keeps steady cb → keeps steady (helper_call g c gx sx cb t).
Proof.
  intros Ht Hcb y. unfold helper_call, bind.
  pose proof (st_run_helper g gx sx cb (t (y_w y)) (Ht _) Hcb y) as Hr.
  destruct (run_helper _ _ _ _ _ y) as [[r|e|] y1]; [|done..].
  unfold note. cbn. done.
Qed.
Lemma st_pcie g c cb : keeps steady cb → keeps steady (pcie_call g c cb).
Proof. apply st_helper, fl_pcie. Qed.
Hint Resolve st_pcie : km.

(** Walk code, opening the definitions that have no lemma of their own. *)
Ltac head_of m := lazymatch m with ?f _ => head_of f | ?f => f end.
Ltac open_auto := repeat first
  [ match goal with
    | |- keeps steady (attempt _) => apply st_attempt
    | |- keeps steady (on_error _ _) => apply st_on_error
    | |- keeps steady (for_each _ _) => apply st_for_each; intros ?
    | |- keeps steady (helper_call _ _ _ _ _ _) => apply st_helper;
        [first [apply fl_pcie|apply fl_cm_retire|apply fl_ctl_retire]|]
    | |- keeps steady (struct_call _ _ _ _ _) => apply st_struct;
        first [apply fl_tunnel|apply fl_ctl_stop|apply fl_nhi]
    end
  | keeps_step
  | progress cbv zeta
  | match goal with |- keeps _ ?m => let f := head_of m in unfold f end ].

(** ** Type-C callbacks and arrivals *)

Lemma st_put g : keeps steady (x1_session_put g).
Proof. open_auto. Qed.
Lemma st_get : keeps steady x1_session_get.
Proof. open_auto. Qed.
Hint Resolve st_put st_get : km.
Lemma st_orientation o : keeps steady (x1_orientation_session o).
Proof.
  unfold x1_orientation_session. keeps_auto. apply st_pset. intros p. unfold record_orientation.
  by case_bool_decide.
Qed.
Hint Resolve st_orientation : km.
Lemma st_begin t : keeps steady (begin_task t).
Proof. open_auto. Qed.
Lemma st_apply_link g : keeps steady (x1_apply_link command_polls g).
Proof. open_auto. Qed.
Hint Resolve st_begin st_apply_link : km.
Lemma st_switch_set g o : keeps steady (x1_switch_set P g o).
Proof. open_auto. Qed.
Lemma st_mux_set g st : keeps steady (x1_mux_set command_polls g st).
Proof. open_auto. Qed.
Hint Resolve st_switch_set st_mux_set : km.
Lemma st_resume i : keeps steady (resume_callback P command_polls i).
Proof. open_auto. Qed.
Hint Resolve st_resume : km.
Lemma st_next_arrivals : keeps steady next_arrivals.
Proof. apply st_world, fl_arrivals. Qed.
Hint Resolve st_next_arrivals : km.
Lemma st_lock : keeps steady (lock P command_polls).
Proof. unfold lock. keeps_auto. apply st_for_each. intros []; cbn; keeps_auto. Qed.
Lemma st_event_lock : keeps steady (event_lock).
Proof. unfold event_lock. keeps_auto. apply st_for_each. intros []; cbn; keeps_auto. Qed.
Hint Resolve st_lock st_event_lock : km.

(** ** Activation *)

Lemma st_drom g : keeps steady (x1_store_drom crc32c g).
Proof. open_auto. Qed.
Lemma st_mcu_start g : keeps steady (router_mcu_start start_polls g).
Proof.
  unfold router_mcu_start. keeps_auto. intros y.
  match goal with |- context [qcom_usb4_mcu_start ?n ?m ?x ?w] =>
    pose proof (T_start n m x w) as Hs; destruct (qcom_usb4_mcu_start n m x w) as [[] ?] end.
  by split.
Qed.
Hint Resolve st_drom st_mcu_start : km.
Lemma st_step g st cfg : keeps steady (x1_step_run crc32c start_polls command_polls g st cfg).
Proof. unfold x1_step_run. destruct st; open_auto. Qed.
Lemma st_int_of (m : M (hsys W) unit) y : keeps steady m → steady y (int_of m y).2.
Proof. intros Hm. specialize (Hm y). unfold int_of. by destruct (m y). Qed.
Lemma st_start_ops g : ops_keep steady (x1_start_ops crc32c start_polls command_polls g).
Proof.
  split; cbn [x1_start_ops ops_owner ops_step ops_read ops_update ops_delay_us].
  - intros. apply st_int_of. open_auto.
  - intros. apply st_int_of, st_step.
  - intros off y. unfold x1_read. assert (keeps steady (router_read off)) as Hr by open_auto.
    specialize (Hr y). by destruct (router_read off y) as [[]].
  - intros. apply st_int_of. open_auto.
  - intros us y. assert (keeps steady (x1_delay g us)) as Hd by open_auto. apply Hd.
Qed.
Lemma st_startup_run g cfg : keeps steady (startup_run crc32c start_polls command_polls g cfg).
Proof.
  unfold startup_run. keeps_auto. intros y.
  match goal with |- context [x1_startup_run ?c ?cf ?o ?s] =>
    pose proof (keeps_startup_run steady c cf o s.1 s.2) as Hs; cbn [fst snd] in Hs;
    destruct (x1_startup_run c cf o s) as [[] []] end;
    (apply Hs; intros ? [= <-]; apply st_start_ops).
Qed.
Hint Resolve st_startup_run : km.
Lemma st_request_firmware g : keeps steady (request_firmware g).
Proof.
  intros y. unfold request_firmware. pose proof (fl_firmware (y_w y)) as Hf.
  destruct (e_firmware (y_w y)) as [[r d] w]. by destruct (r !=? 0).
Qed.
Hint Resolve st_request_firmware : km.
Lemma st_release_power g : keeps steady (x1_release_power g).
Proof. open_auto. Qed.
Lemma st_read_restore g : keeps steady (read_restore_state g).
Proof. open_auto. Qed.
Hint Resolve st_release_power st_read_restore : km.
Lemma st_restore g : keeps steady (x1_restore_resets P g).
Proof. open_auto. Qed.
Hint Resolve st_restore : km.
Lemma st_assert_each g l first : keeps steady (assert_each g l first).
Proof. revert first. induction l as [|i l IH]; intros first; cbn [assert_each]; keeps_auto; try apply IH. Qed.
Hint Resolve st_assert_each : km.
Lemma st_stopped g r : keeps steady (activate_stopped P command_polls g r).
Proof. open_auto. Qed.
Hint Resolve st_stopped : km.
Lemma st_release g r : keeps steady (activate_release P command_polls g r).
Proof. open_auto. Qed.
Hint Resolve st_release : km.
Lemma st_activate g : keeps steady (x1_activate P crc32c sha256 start_polls command_polls g).
Proof. open_auto. Qed.
Hint Resolve st_activate : km.

(** ** Stops and retirement *)

Lemma st_stop_release g : keeps steady (x1_stop_release_resets g).
Proof. open_auto. Qed.
Hint Resolve st_stop_release : km.
Lemma st_stop_hardware g : keeps steady (stop_hardware g).
Proof. open_auto. Qed.
Hint Resolve st_stop_hardware : km.
Lemma st_power_stop g : keeps steady (x1_power_stop_run g).
Proof. open_auto. Qed.
Lemma st_idle_power_stop g : keeps steady (x1_idle_power_stop_run P g).
Proof. open_auto. Qed.
Lemma st_cm_owner g : keeps steady (x1_cm_owner_stopped P g).
Proof. open_auto. Qed.
Lemma st_idle_cm_owner g : keeps steady (x1_idle_cm_owner_stopped P g).
Proof. open_auto. Qed.
Hint Resolve st_power_stop st_idle_power_stop st_cm_owner st_idle_cm_owner : km.
Lemma st_retire_domain g : keeps steady (x1_retire_domain P command_polls g).
Proof. open_auto. Qed.
Lemma st_idle_retire_domain g : keeps steady (x1_idle_retire_domain P command_polls g).
Proof. open_auto. Qed.
Lemma st_retire_session g : keeps steady (x1_retire_session P g).
Proof. open_auto. Qed.
Hint Resolve st_retire_domain st_idle_retire_domain st_retire_session : km.
Lemma st_stop_tunnel pulled g : keeps steady (stop_tunnel pulled g).
Proof. open_auto. Qed.
Hint Resolve st_stop_tunnel : km.

(** ** Stores *)

Lemma st_batch_live g : keeps steady (x1_batch_live g).
Proof. open_auto. Qed.
Hint Resolve st_batch_live : km.
Lemma st_drain n g d : keeps steady (drain_events n g d).
Proof. induction n as [|n IH]; cbn [drain_events]; open_auto. Qed.
Lemma st_freeze n g d : keeps steady (freeze_cm n g d).
Proof. induction n as [|n IH]; cbn [freeze_cm]; open_auto. Qed.
Lemma st_batch_wait n g : keeps steady (batch_wait P command_polls n g).
Proof. induction n as [|n IH]; cbn [batch_wait]; open_auto. Qed.
Hint Resolve st_drain st_freeze st_batch_wait : km.
Lemma st_inventory_admit g uid vendor device :
  keeps steady (inventory_admit P crc32c sha256 start_polls command_polls HZ g uid vendor device).
Proof. open_auto. Qed.
Lemma st_inventory_wait g vendor device :
  keeps steady (inventory_wait P command_polls HZ fuel g vendor device).
Proof. open_auto. Qed.
Hint Resolve st_inventory_admit st_inventory_wait : km.
Lemma st_idle_retire g capable buf :
  keeps steady (idle_retire_once_store P command_polls HZ fuel g capable buf).
Proof. open_auto. Qed.
Lemma st_pulled_retire g capable buf :
  keeps steady (pulled_retire_once_store P command_polls g capable buf).
Proof. open_auto. Qed.
Lemma st_power_quiesce g capable buf :
  keeps steady (power_quiesce_once_store P command_polls g capable buf).
Proof. open_auto. Qed.
Hint Resolve st_idle_retire st_pulled_retire st_power_quiesce : km.

Lemma st_run_store g a capable buf :
  a ≠ renew_session →
  keeps steady (run_store P crc32c sha256 start_polls command_polls HZ fuel g a capable buf).
Proof. intros Ha. unfold run_store. destruct a; try done; open_auto. Qed.

(** Every piece of work but the renewal. *)
Lemma st_run_task g t :
  (∀ capable buf, t ≠ TStore renew_session capable buf) →
  keeps steady (run_task P crc32c sha256 start_polls command_polls HZ fuel g t).
Proof.
  intros Ht. unfold run_task. destruct t as [| |a capable buf| | | |]; [open_auto..| |open_auto|open_auto|open_auto|open_auto].
  apply keeps_bind; [typeclasses eauto| |intros; open_auto].
  apply st_run_store. intros ->. by apply (Ht capable buf).
Qed.
End frame.
