(* ===== verification/HostRun.v ===== *)
(** * The production host driver: the driver core and whole runs

    Shutdown, suspend, allocation, renewal and probe keep the invariant; so
    does every step, from any reachable state and whatever the rest of the
    kernel answers. *)

From S2P Require Import Prelude Wp Fw Drom Mcu Startup Typec HostData HostStart HostStop HostStores.
From S2P Require Import HostLogic HostInv HostCold HostDown HostSteps HostFrame.

Section core.
Context (P : params).
Context (crc32c : Z → list Z → Z) (sha256 : list Z → list Z).
Context (start_polls command_polls : nat) (HZ : Z) (fuel : nat).
Context `{TypecAbi}.
Context {W : Type} `{Mmio Z W} `{HostEnv W}.
Implicit Types (pins : list Z) (g : Z) (v : sview) (L : list event) (y : hsys W).

Notation stays := (stays (W:=W)).

(** ** Shutdown and power management *)

Lemma wp_nhi pins g v L c (Q : Z → hsys W → Prop) E y :
  B pins g v L y → neutral c = true → (∀ r y', B pins g v (L ++ [(c, r)]) y' → Q r y') →
  wp (nhi_call g c) Q E y.
Proof.
  intros HB Hc HQ. eapply wp_struct; [exact HB|..|done]; [|done..].
  intros r. apply SI_neutral; [done|by eapply B_si].
Qed.

Lemma stays_shutdown_firmware pins g : stays pins g (shutdown_firmware g).
Proof.
  intros y (v&L&HB). unfold shutdown_firmware. do 2 wstep. wstep; [|wend]. do 2 wstep.
  eapply (wp_hset _ _ _ (v <| w_fw := false |>)); [exact HB|by intros ? <-|done|done|..].
  - apply SI_fw. by eapply B_si.
  - clear HB. intros y1 HB. walive.
Qed.

Lemma wp_shutdown_power pins g v L y :
  B pins g v L y → unused v →
  wp (shutdown_power g) (λ _, Alive pins g) (λ _, Alive pins g) y.
Proof.
  intros HB Hu. pose proof Hu as [Hrun _]. unfold shutdown_power. wstep. wstep; [|walive]. do 3 wstep.
  rewrite <- Hv in *.
  assert (∀ v1 L1 y1, B pins g v1 L1 y1 → unused v1 → v_phy_initialized (w_v v1) = v_phy_initialized (h_v h) →
    wp (do! (if v_phy_initialized (h_v h) then
           do! must g PhyExit in vset g (λ p, p <| v_phy_initialized := false |>) else ret tt) in
        x1_release_power g) (λ _, Alive pins g) (λ _, Alive pins g) y1) as Hrest.
  { clear. intros v1 L1 y1 HB Hu Hi. wstep.
    assert (∀ v2 L2 y2, B pins g v2 L2 y2 → unused v2 →
      wp (x1_release_power g) (λ _, Alive pins g) (λ _, Alive pins g) y2) as Hrel.
    { intros v2 L2 y2 HB2 Hu2. eapply wp_release_power; [exact HB2|done|]. intros L3 y3 HB3. walive. }
    destruct (v_phy_initialized (h_v h)); [|wstep; by eapply Hrel].
    eapply wp_phy_exit; [exact HB|apply Hu|done|..]; clear HB.
    - intros y2 HB. eapply Hrel; [exact HB|]. destruct Hu. by split.
    - intros r y2 Hr HB. walive. }
  destruct (v_phy_on (h_v h)) eqn:Eon; [|wstep; by eapply Hrest].
  eapply wp_phy_off; [exact HB|done|done|..]; clear HB.
  - intros y1 HB. eapply Hrest; [exact HB| |done]. destruct Hu. by split.
  - intros r y1 Hr HB. walive.
Qed.

Lemma wp_shutdown_owned pins g v L y :
  B pins g v L y → unused v → powered L →
  wp (shutdown_owned g) (λ _, Alive pins g) (λ _, Alive pins g) y.
Proof.
  intros HB Hu Hpw. unfold shutdown_owned. do 3 wstep.
  assert (∀ L1 y1, B pins g v L1 y1 → powered L1 →
    wp (do! on_router (qcom_usb4_mcu_stop (Some (h_mcu h))) in
        do! note g McuStop 0 in
        if p_attempted (h_pcie h) then shutdown_firmware g else
        let! r := attempt (shutdown_power g) in
        if r =? 0 then shutdown_firmware g else ret tt) (λ _, Alive pins g) (λ _, Alive pins g) y1) as Hmcu.
  { clear HB. intros L1 y1 HB Hpw1. wstep. eapply wp_mcu_stop; [exact HB|]. clear HB. intros y2 HB. wstep.
    eapply wp_note; [exact HB|apply SI_call; try done; [by intros []|by eapply B_si]|].
    clear HB. intros y3 HB. wstep; [apply stays_shutdown_firmware; walive|]. do 2 wstep.
    eapply wp_mono; [by eapply wp_shutdown_power|..]; intros ? y4 HA;
      (destruct (_ =? 0); [by apply stays_shutdown_firmware|by wstep]). }
  assert (∀ L1 y1, B pins g v L1 y1 → powered L1 →
    wp (do! (if n_prepared (h_qnhi h) then do! nhi_call g NhiShutdown in ret tt else ret tt) in
        do! on_router (qcom_usb4_mcu_stop (Some (h_mcu h))) in
        do! note g McuStop 0 in
        if p_attempted (h_pcie h) then shutdown_firmware g else
        let! r := attempt (shutdown_power g) in
        if r =? 0 then shutdown_firmware g else ret tt) (λ _, Alive pins g) (λ _, Alive pins g) y1) as Hnhi.
  { clear HB. intros L1 y1 HB Hpw1. wstep. wstep; [|wstep; by eapply Hmcu]. wstep.
    eapply wp_nhi; [exact HB|done|]. clear HB. intros r y2 HB. wstep. eapply Hmcu; [exact HB|].
    eapply quiet_powered; [by apply quiet_snoc|done]. }
  wstep; [|wstep; by eapply Hnhi]. wstep. pose proof (B_si _ _ _ _ _ HB) as HS.
  eapply wp_call_'; [exact HB|..].
  { intros r. apply SI_call; try done; [by intros []|by left]. }
  clear HB. intros r y1 HB. do 3 wstep. eapply Hnhi; [exact HB|].
  destruct Hpw as (?&?&?). unfold powered. rewrite !held_snoc. cbn. lia.
Qed.

Lemma stays_shutdown pins g : stays pins g (x1_shutdown P command_polls g).
Proof.
  intros y (v&L&HB). unfold x1_shutdown. do 2 wstep. wstep; [wend|]. rename Heqb into Hst.
  assert (w_stopping v = false) as Hs0 by (by rewrite <- Hv). clear Hv Hst.
  wstep. eapply wp_lock; [exact HB|]. clear HB. intros v1 L1 y1 HB Hcl _.
  assert (w_stopping v1 = false) as Hs1 by (destruct (called_inv _ _ Hcl) as (c&k&->); done).
  pose proof (B_si _ _ _ _ _ HB) as HS. set (v2 := v1 <| w_stopping := true |> <| w_ready := false |>).
  assert (SI v2 L1) as HS2 by (by apply SI_stop).
  wstep. eapply (wp_hset _ _ _ v2); [exact HB|by intros ? <-|done..|]. clear HB. intros y2 HB. do 2 wstep.
  wstep; [apply stays_shutdown_firmware; walive|]. apply negb_false_iff in Heqb.
  assert (w_activated v1 = true) as Ha by (change (w_activated v2 = true); by rewrite <- Hv).
  destruct (si_active _ _ HS Ha Hs1) as (Hg&Hc&Hr).
  assert (unused v2) as Hu by (split; [by apply (SI_in_use _ _ HS2)|done]).
  wstep.
  - wstep. eapply wp_release_power; [exact HB|done|]. clear HB. intros L3 y3 HB.
    apply stays_shutdown_firmware. walive.
  - wstep; [apply stays_shutdown_firmware; walive|].
    eapply wp_shutdown_owned; [exact HB|done|by apply (SI_powered v2)].
Qed.

Lemma stays_suspend pins g : stays pins g (x1_suspend P g).
Proof. intros y (v&L&HB). unfold x1_suspend. wend. Qed.
Lemma stays_complete pins g : stays pins g (x1_pm_complete g).
Proof. intros y (v&L&HB). unfold x1_pm_complete. wend. Qed.

(** ** A new session *)

(** Attempts to allocate a session that does not exist yet. *)
Lemma unborn_log l :
  Forall (λ e : event, e.1 = SessionAlloc) l →
  (∀ x, held x l = 0) ∧ protocol l ∧ ∀ p : hcall → bool, p SessionAlloc = false → never p l.
Proof.
  intros Hl. assert (Forall (λ e : event, neutral e.1 = true) l) as Hn
    by (eapply Forall_impl; [exact Hl|]; by intros [c r] ->).
  split_and!.
  - intros x. by apply held_neutral.
  - apply (protocol_neutral [] l); [apply protocol_nil|done].
  - intros p Hp. eapply Forall_impl; [exact Hl|]. by intros [c r] ->.
Qed.

Lemma SI_new l : Forall (λ e : event, e.1 = SessionAlloc) l → SI (view host_zero) l.
Proof.
  intros (Hh&Hp&Hn)%unborn_log. constructor; rewrite ?Hh; try done; intros _; by apply Hn.
Qed.

Lemma GI_alloc_log pins y r w :
  GI pins y → let g := q_next_generation (y_port y) + 1 in
  let y' := y <| y_w := w |> <| y_log := y_log y ++ [(g, (SessionAlloc, r))] |> in
  GI pins y' ∧ drift y y'.
Proof.
  intros [HI HR] g y'.
  assert (∀ g', is_Some (y_sessions y !! g') → g' ≠ g) as Hold.
  { intros g' [h Hh]. pose proof (gr_fresh _ _ HR g' h Hh). unfold g. lia. }
  assert (∀ g', g' ≠ g → own g' (y_log y') = own g' (y_log y)) as Ho by (intros; by apply own_other).
  assert (own g (y_log y') = own g (y_log y) ++ [(SessionAlloc, r)]) as Hg by apply own_snoc.
  split; [split|].
  - intros g' h Hh. rewrite Ho by eauto. by apply HI.
  - constructor; try apply HR.
    + intros g' Hg'. destruct (decide (g' = g)) as [->|Hne].
      * rewrite Hg. destruct (gr_none _ _ HR g Hg') as [Hp Hh].
        split; [by apply protocol_snoc|]. intros x. rewrite held_snoc, Hh. by destruct x.
      * rewrite Ho by done. by apply HR.
    + intros g' Hg'. destruct (decide (g' = g)) as [->|Hne].
      * rewrite Hg. apply Forall_app. split; [by apply HR|by constructor].
      * rewrite Ho by done. by apply HR.
  - constructor; try done. intros g' h h' Hh Hh'. cbn in Hh'. simplify_eq. rewrite Ho by eauto. done.
Qed.

Definition fresh_session (g : Z) : x1_host := host_zero <| h_generation := g |> <| h_ref := 1 |>.

Lemma GI_alloc pins y :
  GI pins y → q_next_generation (y_port y) < U64_MAX →
  let g := q_next_generation (y_port y) + 1 in
  y_sessions y !! g = None ∧
  GI (g :: pins) (y <| y_port := (y_port y) <| q_next_generation := g |> |>
                    <| y_sessions := <[g := fresh_session g]> (y_sessions y) |>).
Proof.
  intros [HI HR] Hmax g. pose proof (gr_next _ _ HR) as Hnext.
  assert (∀ g', is_Some (y_sessions y !! g') → g' ≠ g) as Hold.
  { intros g' [h Hh]. pose proof (gr_fresh _ _ HR g' h Hh). unfold g. lia. }
  assert (y_sessions y !! g = None) as Hnone.
  { destruct (y_sessions y !! g) eqn:E; [|done]. exfalso. by apply (Hold g). }
  split; [done|]. set (y' := y <| y_port := _ |> <| y_sessions := _ |>).
  assert (Forall (λ e : event, e.1 = SessionAlloc) (own g (y_log y))) as Hlog.
  { apply HR. unfold g. lia. }
  assert (occ g pins = 0 ∧ occ g (flying y) = 0 ∧ published y g = false) as (Hz1&Hz2&Hz3).
  { assert (∀ l, (∀ x, x ∈ l → is_Some (y_sessions y !! x)) → occ g l = 0) as Hocc.
    { induction l as [|x l IH]; intros Hl; [done|]. cbn. rewrite IH by (intros; apply Hl; by right).
      destruct (Z.eqb_spec x g); [|done]. destruct (Hold x); [apply Hl; by left|done]. }
    split_and!.
    - apply Hocc. apply HR.
    - apply Hocc. intros x Hx. destruct (gr_fly _ _ HR x Hx) as (h&->&_). done.
    - unfold published. apply bool_decide_eq_false. intros Hq. destruct (gr_cur _ _ HR g Hq). congruence. }
  assert (∀ g', refs (g :: pins) y' g' = refs pins y g' + b2z (g =? g')) as Hrefs.
  { intros g'. unfold refs. cbn [occ]. change (published y' g') with (published y g').
    change (flying y') with (flying y). lia. }
  split.
  - intros g' h Hh. cbn in Hh. apply lookup_insert_Some in Hh as [[<- <-]|[Hne Hh]].
    + change (view (fresh_session g)) with (view host_zero). by apply SI_new.
    + by apply HI.
  - constructor; cbn [y' y_port y_sessions set_field q_session q_next_generation].
    + intros g' Hg'. cbn in Hg'. apply lookup_insert_None in Hg' as [Hg' _]. by apply HR.
    + intros g' h Hh. cbn in Hh. apply lookup_insert_Some in Hh as [[<- <-]|[Hne Hh]]; [done|].
      by apply (gr_gen _ _ HR).
    + intros g' h Hh. rewrite Hrefs. cbn in Hh. apply lookup_insert_Some in Hh as [[<- <-]|[Hne Hh]].
      * rewrite Z.eqb_refl. unfold refs. rewrite Hz1, Hz2, Hz3. cbn. split_and!; [lia|done|done].
      * destruct (Z.eqb_spec g g'); [done|]. cbn. rewrite Z.add_0_r. by apply (gr_ref _ _ HR).
    + intros g' h Hh Hl. cbn in Hh. apply lookup_insert_Some in Hh as [[<- <-]|[Hne Hh]].
      * by destruct Hl.
      * by apply (gr_live _ _ HR g' h).
    + intros g' Hg'. apply lookup_insert_is_Some. destruct (decide (g = g')); [by left|right].
      split; [done|]. apply elem_of_cons in Hg' as [->|Hg']; [done|]. by apply (gr_pin _ _ HR).
    + intros g' Hg'. destruct (gr_fly _ _ HR g' Hg') as (h&Hh&Hu). exists h. cbn.
      rewrite lookup_insert_ne; [done|]. intros <-. congruence.
    + intros g' Hg'. apply lookup_insert_is_Some. destruct (decide (g = g')); [by left|right].
      split; [done|]. by apply (gr_cur _ _ HR).
    + intros g' h Hh. cbn in Hh. cbn. apply lookup_insert_Some in Hh as [[<- <-]|[Hne Hh]]; [lia|].
      pose proof (gr_fresh _ _ HR g' h Hh). lia.
    + cbn. lia.
    + intros g' Hg'. cbn in Hg'. apply HR. lia.
Qed.

(** [port->session = s] *)
Lemma GI_repoint pins pins' y s :
  GI pins y →
  (∀ g h, y_sessions y !! g = Some h →
     let n := b2z (bool_decide (s = Some g)) + occ g (flying y) + occ g pins' in
     n ≤ h_ref h ∧ (is_Some s → h_ref h = n)) →
  (∀ g h, y_sessions y !! g = Some h → live h → s = Some g ∨ s = None) →
  (∀ g, g ∈ pins' → is_Some (y_sessions y !! g)) →
  (∀ g h, y_sessions y !! g = Some h → session_usable g (h_fully_retired h) y →
     s = Some g ∨ h_fully_retired h = true ∨ s = None) →
  (∀ g, s = Some g → is_Some (y_sessions y !! g)) →
  GI pins' (y <| y_port := (y_port y) <| q_session := s |> |>).
Proof.
  intros [HI HR] Href Hlive Hpin Huse Hcur. split; [done|].
  constructor; cbn; try apply HR; try done.
  - intros g h Hh. destruct (Href g h Hh) as (R1&R2). split_and!; [done|done|].
    apply (gr_ref _ _ HR g h Hh).
  - intros g Hg. destruct (gr_fly _ _ HR g Hg) as (h&Hh&Hu). exists h. split; [done|].
    by apply Huse.
Qed.

Lemma wp_session_alloc pins y (Q : option Z → hsys W → Prop) E :
  GI pins y → q_next_generation (y_port y) < U64_MAX →
  (∀ y', GI pins y' → q_session (y_port y') = q_session (y_port y) → Q None y') →
  (let n := q_next_generation (y_port y) + 1 in
   ∀ y', GI (n :: pins) y' → q_session (y_port y') = q_session (y_port y) →
     y_flight y' = y_flight y →
     y_sessions y' = <[n := fresh_session n]> (y_sessions y) → y_sessions y !! n = None → Q (Some n) y') →
  wp x1_session_alloc Q E y.
Proof.
  intros HG Hmax HN HS. pose proof (gr_next _ _ (proj2 HG)) as Hnext. unfold x1_session_alloc.
  apply wp_bind. unfold pget, wp at 1. set (n := q_next_generation (y_port y) + 1) in *.
  assert (u64 n = n) as -> by (apply Z.mod_small; unfold n, U64_MAX in *; lia).
  apply wp_bind, wp_bind. unfold call2, wp at 1. destruct (e_call SessionAlloc (y_w y)) as [[r x] w].
  apply wp_ret. destruct (GI_alloc_log pins y r w HG) as [HG1 Hd1]. cbn in HG1, Hd1. fold n in HG1, Hd1.
  destruct (r !=? 0) eqn:Er; cbn [fst]; rewrite Er; [apply wp_ret, HN; [done|exact (dr_session _ _ Hd1)]|].
  apply wp_bind, wp_modify, wp_bind, wp_modify, wp_ret.
  destruct (GI_alloc pins _ HG1) as [Hn HG2]; [done|]. by apply HS.
Qed.

Lemma wp_port_release pins y E :
  GI pins y → wp x1_port_release (λ _, GI pins) E y.
Proof.
  intros HG. pose proof HG as [_ HR]. unfold x1_port_release. apply wp_bind. unfold pget, wp at 1.
  apply wp_bind, wp_modify.
  assert (∀ pins', (∀ g, occ g pins' ≤ occ g pins + b2z (published y g)) →
    (∀ g, g ∈ pins' → g ∈ pins ∨ q_session (y_port y) = Some g) →
    GI pins' (y <| y_port := (y_port y) <| q_session := None |> |>)) as Hgi.
  { intros pins' Hocc Hin. apply (GI_repoint pins); [done|..]; try done; auto.
    - intros g h Hh. destruct (gr_ref _ _ HR g h Hh) as (R1&_). specialize (Hocc g).
      unfold refs in R1. cbv zeta. rewrite bool_decide_eq_false_2 by done. cbn [b2z].
      split; [lia|by intros []].
    - intros g Hg. destruct (Hin g Hg); [by apply (gr_pin _ _ HR)|by apply (gr_cur _ _ HR)]. }
  destruct (q_session (y_port y)) as [g|] eqn:Eq.
  - destruct (gr_cur _ _ HR g Eq) as [h Hh]. apply wp_bind. unfold hget, wp at 1. cbn. rewrite Hh.
    destruct (_ || _).
    + eapply wp_mono; [apply (wp_session_put pins); apply Hgi| |done].
      * intros g'. cbn. unfold published. rewrite Eq. destruct (Z.eqb_spec g g').
        -- subst. rewrite bool_decide_eq_true_2 by done. cbn. lia.
        -- rewrite bool_decide_eq_false_2 by congruence. cbn. lia.
      * intros g' Hg'. apply elem_of_cons in Hg' as [->|Hg']; auto.
      * intros [] y1 (HG1&_). done.
    + apply wp_ret, Hgi; auto. intros g'. destruct (published y g'); cbn; lia.
  - apply wp_ret, Hgi; auto. intros g'. destruct (published y g'); cbn; lia.
Qed.

(** ** Renewal *)

Lemma GI_same pins y g h h' :
  GI pins y → y_sessions y !! g = Some h → view h' = view h → h_generation h' = h_generation h →
  h_ref h' = h_ref h → h_ref h ≠ 0 → GI pins (y <| y_sessions := <[g := h']> (y_sessions y) |>).
Proof.
  intros HG Hh Hv Hgen Hr Hz. apply (GI_record pins pins y g h h'); auto; [|congruence].
  intros g'. rewrite Hr. destruct (g =? g'); lia.
Qed.

Lemma GI_publish pins y old h n :
  GI (n :: pins) y → q_session (y_port y) = Some old → y_sessions y !! old = Some h →
  h_fully_retired h = true →
  GI (old :: pins) (y <| y_port := (y_port y) <| q_session := Some n |> |>).
Proof.
  intros HG Hq Ho Hr. pose proof HG as [_ HR].
  apply (GI_repoint (n :: pins)); [done|..].
  - intros g k Hk. destruct (gr_ref _ _ HR g k Hk) as (_&R2&_).
    specialize (R2 ltac:(rewrite Hq; by eexists)). rewrite R2. unfold refs, published. rewrite Hq. cbn [occ].
    assert (∀ a b : Z, bool_decide (Some a = Some b) = (a =? b)) as Hb.
    { intros a b. destruct (Z.eqb_spec a b); case_bool_decide; congruence. }
    rewrite !Hb. split; [lia|intros _; lia].
  - intros g k Hk Hl. destruct (gr_live _ _ HR g k Hk Hl) as [E|E]; [|congruence].
    assert (g = old) as -> by congruence. destruct Hl. congruence.
  - intros g Hg. apply elem_of_cons in Hg as [->|Hg]; [by exists h|]. apply (gr_pin _ _ HR). by right.
  - intros g k Hk [E|[E|E]]; [|by right; left|congruence]. right. left.
    assert (g = old) as -> by congruence. congruence.
  - intros g Hg. simplify_eq. apply (gr_pin _ _ HR). by left.
Qed.

Lemma wp_renew_publish pins g h n y (Q : bool → hsys W → Prop) E :
  GI (n :: pins) y → q_session (y_port y) = Some g → y_sessions y !! g = Some h →
  h_fully_retired h = true → g ∈ pins → n ≠ g →
  (∀ y', GI (g :: pins) y' → q_session (y_port y') = Some n →
     q_orientation (y_port y') = TYPEC_ORIENTATION_NONE → Q true y') →
  (∀ y', GI (n :: pins) y' → q_session (y_port y') = Some g → Q false y') →
  wp (renew_publish P command_polls g n) Q E y.
Proof.
  intros HG Hq Hh Hr Hin Hne HT HF. unfold renew_publish. apply wp_bind.
  eapply wp_mono; [by apply (wp_lock_GI P command_polls (n :: pins))| |done].
  intros [] y1 [HG1 Hd]. destruct (gr_pin _ _ (proj2 HG1) g) as [h1 Hh1]; [by right|].
  assert (h_fully_retired h1 = true) as Hr1.
  { destruct (dr_some _ _ Hd g h h1 Hh Hh1) as [Hc _]. destruct (called_inv _ _ Hc) as (c&k&Ev).
    change (w_retired (view h1) = true). by rewrite Ev. }
  apply wp_bind. unfold pget, wp at 1. apply wp_bind. unfold hget, wp at 1. rewrite Hh1.
  destruct (bool_decide _ || _) eqn:Eor; [apply wp_ret, HF; [done|by rewrite (dr_session _ _ Hd)]|].
  apply orb_false_iff in Eor as [Eor _]. apply bool_decide_eq_false, dec_stable in Eor.
  destruct (gr_pin _ _ (proj2 HG1) n) as [k Hk]; [by left|].
  apply wp_bind. unfold hset, wp at 1. rewrite Hk. apply wp_bind, wp_modify, wp_ret. apply HT.
  assert (h_ref k ≠ 0) as Hnz.
  { destruct (gr_ref _ _ (proj2 HG1) n k Hk) as (R1&_). revert R1. unfold refs. cbn [occ].
    rewrite Z.eqb_refl. pose proof (occ_nonneg n (flying y1)). pose proof (occ_nonneg n pins).
    destruct (published y1 n); cbn; lia. }
  set (k' := k <| h_initial_event_sequence := q_event_sequence (y_port y1) |>).
  pose proof (GI_same (n :: pins) y1 n k k' HG1 Hk eq_refl eq_refl eq_refl Hnz) as HG2.
  2, 3: done.
  apply (GI_publish pins _ g h1 n HG2); [|cbn; by rewrite lookup_insert_ne|done].
  cbn. by rewrite (dr_session _ _ Hd).
Qed.

(** What a renewal has found, and what it leaves behind. *)
Definition renewed (g : Z) (y y' : hsys W) : Prop :=
  ∃ h n, q_session (y_port y) = Some g ∧ y_sessions y !! g = Some h ∧ h_fully_retired h = true ∧
    q_session (y_port y') = Some n ∧ n = q_next_generation (y_port y) + 1 ∧
    y_sessions y !! n = None ∧ q_orientation (y_port y') = TYPEC_ORIENTATION_NONE.

Lemma wp_renew pins g capable buf y E :
  Alive pins g y → g ∈ pins →
  wp (renew_session_store P command_polls g capable buf)
     (λ _ y', GI pins y' ∧ (q_session (y_port y') = q_session (y_port y) ∨ renewed g y y')) E y.
Proof.
  intros (v&L&HB) Hin. pose proof HB as (HG&_&(h&Hh&Hv)&_). unfold renew_session_store.
  destruct (_ || _); [by apply wp_ret; auto|].
  assert (kstrtou64 buf ≠ Fault) as Hk by (unfold kstrtou64; repeat (case_match; try done)).
  destruct (kstrtou64 buf) as [generation|e|]; [|by apply wp_ret; auto|done].
  apply wp_bind. unfold pget, wp at 1. apply wp_bind. unfold hget, wp at 1. rewrite Hh.
  destruct (renewable P (y_port y) g generation h) eqn:Er; cbn [negb]; [|by apply wp_ret; auto].
  unfold renewable in Er. rewrite !andb_true_iff in Er.
  destruct Er as ((((((Hq&_)&Hret)&_)&_)&_)&Hn). apply bool_decide_eq_true in Hq.
  apply negb_true_iff, Z.eqb_neq in Hn. pose proof (gr_next _ _ (proj2 HG)) as Hnext.
  apply wp_bind. eapply wp_session_alloc; [exact HG|lia|intros y1 HG1 Eq1; apply wp_ret; auto|].
  intros n y1 HG1 Eq1 _ Es Hnone. assert (n ≠ g) as Hne by congruence.
  apply wp_bind. unfold hset, wp at 1. rewrite Es, lookup_insert_eq.
  set (y2 := y1 <| y_sessions := _ |>).
  assert (GI (n :: pins) y2) as HG2.
  { unfold y2. rewrite <- Es.
    apply (GI_same (n :: pins) y1 n (fresh_session n)); [done|by rewrite Es, lookup_insert_eq|done..]. }
  assert (y_sessions y2 !! g = Some h) as Hh2 by (cbn; by rewrite !lookup_insert_ne).
  apply wp_bind. eapply (wp_renew_publish pins g h n); [exact HG2|cbn; by rewrite Eq1|done..| |].
  - intros y3 HG3 Eq3 Eo3. apply wp_bind.
    eapply wp_mono; [by apply (wp_session_put pins g y3 E)| |done].
    intros [] y4 (HG4&_&_&Ep). apply wp_ret. split; [done|]. right. exists h, n. rewrite Ep. by split_and!.
  - intros y3 HG3 Eq3. apply wp_bind.
    eapply wp_mono; [by apply (wp_session_put pins n y3 E)| |done].
    intros [] y4 (HG4&_&_&Ep). apply wp_ret. split; [done|]. left. by rewrite Ep, Eq3.
Qed.

(** ** Probe *)

Lemma resources_total f : x1_resources f ≠ Fault.
Proof.
  assert (∀ b, init_router_mcu b ≠ Fault) as Hm.
  { intros b. unfold init_router_mcu, qcom_usb4_mcu_init, bind, get, modify, fail, ret.
    repeat (case_match; simplify_eq; try done). }
  assert (∀ l, first_error l ≠ Fault) as Hp by (induction l as [|r l IH]; cbn; [done|by case_match]).
  assert (∀ r, zero_or r ≠ Fault) as Hz by (intros r; unfold zero_or; by case_match).
  assert (∀ A B (r : res A) (k : A → res B), r ≠ Fault → (∀ a, k a ≠ Fault) → rbind r k ≠ Fault) as Hb
    by (intros A B []; cbn; auto).
  unfold x1_resources. repeat (case_match; try done); repeat (apply Hb; auto; intros);
    repeat (case_match; try done); auto; repeat (apply Hb; auto; intros); try done;
    repeat (case_match; try done).
Qed.

Lemma Alive_GI pins g y : Alive pins g y → GI pins y.
Proof. intros (v&L&HB). apply HB. Qed.

Lemma Alive_cur pins g y : GI pins y → q_session (y_port y) = Some g → Alive pins g y.
Proof.
  intros HG Hq. destruct (gr_cur _ _ (proj2 HG) g Hq) as [h Hh].
  exists (view h), (own g (y_log y)). split_and!; [done|by split; [right|left]|by exists h|done].
Qed.

Lemma wp_probe f y E :
  GI [] y → q_next_generation (y_port y) = 0 →
  wp (x1_probe P crc32c sha256 start_polls command_polls f) (λ _, GI []) E y.
Proof.
  intros HG H0'. unfold x1_probe. destruct (negb _); [by apply wp_ret|]. apply wp_bind.
  eapply wp_session_alloc; [exact HG|by rewrite H0'|intros y1 HG1 _; by apply wp_ret|].
  rewrite H0'. intros n y1 HG1 Eq1 Ef1 Es Hnone.
  assert (y_sessions y = ∅) as Hemp.
  { apply map_empty. intros g. destruct (y_sessions y !! g) as [h|] eqn:E1; [|done].
    pose proof (gr_fresh _ _ (proj2 HG) g h E1). lia. }
  assert (y_flight y = []) as Hfl.
  { destruct (y_flight y) as [|[g t] l] eqn:E1; [done|].
    destruct (gr_fly _ _ (proj2 HG) g) as (h&Hh&_); [unfold flying; rewrite E1; by left|].
    by rewrite Hemp in Hh. }
  assert (∀ g h, y_sessions y1 !! g = Some h → g = n ∧ h = fresh_session n) as Honly.
  { intros g h. rewrite Es, Hemp. intros [[-> <-]|[_ Hx]]%lookup_insert_Some; [done|].
    by rewrite lookup_empty in Hx. }
  apply wp_bind, wp_modify.
  assert (GI [] (y1 <| y_port := (y_port y1) <| q_session := Some n |> |>)) as HG2.
  { apply (GI_repoint [n]); [done|..].
    - intros g h [-> ->]%Honly. cbv zeta. rewrite bool_decide_eq_true_2 by done.
      unfold flying. rewrite Ef1, Hfl. cbn. split; [lia|done].
    - intros g h [-> ->]%Honly. by intros [].
    - intros g Hg. by apply elem_of_nil in Hg.
    - intros g h [-> ->]%Honly _. by left.
    - intros g Hg. simplify_eq. rewrite Es, lookup_insert_eq. by eexists. }
  clear HG1. set (y2 := y1 <| y_port := _ |>) in *.
  assert (∀ r y3, GI [] y3 → wp (probe_failed r) (λ _, GI []) E y3) as Hfail.
  { intros r y3 HG3. unfold probe_failed. apply wp_bind.
    eapply wp_mono; [by apply wp_port_release| |done]. intros [] y4 HG4. by apply wp_ret. }
  destruct (_ !=? 0); [by apply Hfail|].
  pose proof (resources_total f). destruct (x1_resources f) as [[[[router irq] serial] mcu]|e|]; [|by apply Hfail|done].
  destruct (Alive_cur [] n y2 HG2 eq_refl) as (v&L&HB). wstep. wstep.
  assert (x1_typec_register f ≠ Fault) as Ht.
  { unfold x1_typec_register, zero_or. repeat (case_match; simplify_eq/=; try done). }
  destruct (x1_typec_register f) as [[]|e|]; [|by apply Hfail; apply (Alive_GI _ n); walive|done].
  wstep. wstep; [|wstep; wstep; apply (Alive_GI _ n); walive]. wstep.
  eapply wp_mono; [apply wp_activate; walive| |done]. intros r y4 HA. wstep. wstep.
  by apply (Alive_GI _ n).
Qed.

(** ** Steps *)

(** In every state something is accounted for. *)
Definition Good (y : hsys W) : Prop := ∃ pins, GI pins y.

Lemma Alive_Good pins g y : Alive pins g y → Good y.
Proof. intros HA. exists pins. by apply (Alive_GI _ g). Qed.

Lemma wp_run_store g a capable buf y :
  Alive [g] g y →
  wp (run_store P crc32c sha256 start_polls command_polls HZ fuel g a capable buf)
     (λ r y', GI [g] y' ∧ (r.2 = true → Alive [g] g y')) (λ _, Good) y.
Proof.
  intros HA. unfold run_store.
  assert (∀ m : M (hsys W) Z, stays [g] g m →
    wp (let! r := m in ret (r, false)) (λ r y', GI [g] y' ∧ (r.2 = true → Alive [g] g y')) (λ _, Good) y)
    as Hplain.
  { intros m Hm. apply wp_bind. eapply wp_mono; [by apply Hm|..].
    - intros r y1 HA1. apply wp_ret. split; [by apply (Alive_GI _ g)|done].
    - intros e y1 HA1. exact (Alive_Good _ _ _ HA1). }
  destruct a.
  - apply Hplain, stays_activate_once.
  - apply Hplain, stays_pcie_prepare.
  - eapply wp_mono; [by apply stays_inventory|..].
    + intros r y1 HA1. split; [by apply (Alive_GI _ g)|done].
    + intros e y1 HA1. exact (Alive_Good _ _ _ HA1).
  - apply Hplain, stays_endpoint_remove.
  - apply Hplain, stays_tunnel_quiesce.
  - apply Hplain, stays_host_quiesce.
  - apply Hplain, stays_power_quiesce.
  - apply Hplain, stays_idle_retire.
  - apply Hplain, stays_pulled_retire.
  - apply wp_bind. eapply wp_mono; [apply (wp_renew [g] g capable buf y (λ _, Good)); [done|by left]| |done].
    intros r y1 [HG1 _]. apply wp_ret. split; done.
Qed.

Lemma wp_run_task g t y :
  Alive [g] g y →
  wp (run_task P crc32c sha256 start_polls command_polls HZ fuel g t) (λ _, GI []) (λ _, Good) y.
Proof.
  intros HA.
  assert (∀ y1, GI [g] y1 → wp (x1_session_put g) (λ _, GI []) (λ _, Good) y1) as Hput.
  { intros y1 HG. eapply wp_mono; [by apply (wp_session_put [] g y1 (λ _, Good))| |done]. intros [] y2 (HG2&_). done. }
  assert (∀ {A} (m : M (hsys W) A), stays [g] g m →
    wp (do! m in x1_session_put g) (λ _, GI []) (λ _, Good) y) as Hrun.
  { intros A m Hm. apply wp_bind. eapply wp_mono; [by apply Hm|..].
    - intros r y1 HA1. by apply Hput, (Alive_GI _ g).
    - intros e y1 HA1. exact (Alive_Good _ _ _ HA1). }
  assert (∀ {A} (m : M (hsys W) A), (∀ v L y E, B [g] g v L y → wp m (λ _, after_callback [g] g v L) E y) →
    stays [g] g m) as Hcb.
  { intros A m Hm y1 (v&L&HB). eapply wp_mono; [by apply (Hm v L y1 (λ _, Alive [g] g))|..]; [|done].
    intros r y2 (v'&L'&HB'&_). by exists v', L'. }
  destruct t; cbn [run_task].
  - apply Hrun, Hcb. intros; by apply wp_switch_set.
  - apply Hrun, Hcb. intros; by apply wp_mux_set.
  - apply wp_bind. eapply wp_mono; [by apply wp_run_store| |done].
    intros [r b] y1 [HG1 Hb]. cbn [snd] in *. destruct b; [|by apply Hput].
    destruct (Hb eq_refl) as (v&L&_&[_ Hu]&(h&Hh&Hv)&_). apply wp_modify, GI_push; [done|].
    exists h. split; [done|]. by rewrite <- Hv in Hu.
  - apply Hrun, stays_bind.
  - apply Hrun, stays_shutdown.
  - apply Hrun, stays_suspend.
  - apply Hrun, stays_complete.
Qed.

Lemma wp_step m y :
  GI [] y → wp (step_ P crc32c sha256 start_polls command_polls HZ fuel m) (λ _, GI []) (λ _, Good) y.
Proof.
  intros HG. unfold step_. apply wp_bind, wp_get. destruct m as [f|t|i|].
  - destruct (Z.eqb_spec (q_next_generation (y_port y)) 0) as [E|E]; [|by apply wp_ret].
    apply wp_bind. eapply wp_mono; [by apply (wp_probe f y (λ _, Good))| |done].
    intros r y1 HG1. by apply wp_ret.
  - eapply wp_mono; [by apply (wp_begin [] t y (λ _, Good))| |done]. by intros [] y1 [HG1 _].
  - destruct (y_flight y !! i) as [[g t]|] eqn:Ei; [|by apply wp_ret].
    apply wp_bind, wp_modify. pose proof (GI_unflight _ _ _ _ _ HG Ei) as HG1.
    destruct (gr_fly _ _ (proj2 HG) g) as (h&Hh&Hu).
    { unfold flying. apply list_elem_of_fmap. exists (g, t). split; [done|by eapply list_elem_of_lookup_2]. }
    apply wp_run_task. exists (view h), (own g (y_log y)).
    split_and!; [done|split; [left; by left|done]|by exists h|done].
  - destruct (y_flight y) as [|[g t] l] eqn:Ef; [|by apply wp_ret].
    destruct (q_session (y_port y)) as [g|] eqn:Eq; [|by apply wp_ret].
    apply wp_bind. eapply wp_session_get; [exact HG|..]; [|congruence].
    intros g' y1 Eq1 HG1 Hd1 _. assert (g' = g) as -> by congruence.
    apply wp_bind, wp_bind. eapply wp_mono; [apply (stays_shutdown [g])|..].
    + apply Alive_cur; [done|]. by rewrite (dr_session _ _ Hd1).
    + intros [] y2 HA2. eapply wp_mono; [apply (wp_session_put [] g y2 (λ _, Good)), (Alive_GI _ g), HA2| |done].
      intros [] y3 (HG3&_). by apply wp_port_release.
    + intros e y2 HA2. exact (Alive_Good _ _ _ HA2).
Qed.

Lemma GI_boot (w : W) : GI [] (boot w).
Proof.
  assert (∀ g h, y_sessions (boot w) !! g = Some h → False) as Hno.
  { intros g h Hh. cbn in Hh. by rewrite lookup_empty in Hh. }
  split; [intros g h Hh; by apply Hno in Hh|].
  constructor; try (intros g h Hh; by apply Hno in Hh); try done.
  - intros g Hg. by apply elem_of_nil in Hg.
  - intros g Hg. by apply elem_of_nil in Hg.
Qed.

Lemma wp_run l y :
  GI [] y → wp (run P crc32c sha256 start_polls command_polls HZ fuel l) (λ _, GI []) (λ _, Good) y.
Proof. intros HG. apply wp_for_each; [done|]. intros m y1 _ HG1. by apply wp_step. Qed.

(** ** What a step does to the published session *)

#[local] Instance flows_any : Flows (W:=W) (λ _ _, True).
Proof.
  assert (∀ X (t : helper W X), helper_steps (λ _ _, True) t) as Ht.
  { intros X t. induction t as [f|f k IH]; by constructor. }
  split; auto. by split.
Qed.

Lemma steady_session {A} (m : M (hsys W) A) y :
  keeps (steady (λ _ _, True)) m → q_session (y_port (m y).2) = q_session (y_port y).
Proof. intros Hm. apply (Hm y). Qed.

Lemma renew_step g capable buf i y y' :
  GI [] y → y_flight y !! i = Some (g, TStore renew_session capable buf) →
  step_ P crc32c sha256 start_polls command_polls HZ fuel (Run i) y = (Ok tt, y') →
  q_session (y_port y') = q_session (y_port y) ∨ renewed g y y'.
Proof.
  intros HG Ei Hm. pose proof (GI_unflight _ _ _ _ _ HG Ei) as HG1.
  destruct (gr_fly _ _ (proj2 HG) g) as (h&Hh&Hu).
  { unfold flying. apply list_elem_of_fmap. eexists (g, _). split; [done|by eapply list_elem_of_lookup_2]. }
  set (y1 := y <| y_flight := delete i (y_flight y) |>) in *.
  assert (Alive [g] g y1) as HA.
  { exists (view h), (own g (y_log y)). split_and!; [done|split; [left; by left|done]|by exists h|done]. }
  pose proof (wp_renew [g] g capable (chars buf) y1 (λ _ _, True) HA ltac:(by left)) as Hr.
  unfold step_, bind, get in Hm. rewrite Ei in Hm. unfold modify in Hm. cbn [run_task] in Hm.
  cbv beta iota in Hm. fold y1 in Hm. unfold run_store, bind, ret in Hm. unfold wp in Hr.
  destruct (renew_session_store P command_polls g capable (chars buf) y1) as [[r|e|] y2]; [|done..].
  destruct Hr as [HG2 Hr]. cbn [snd] in Hm.
  pose proof (wp_session_put [] g y2 (λ _ _, True) HG2) as Hp. unfold wp in Hp. rewrite Hm in Hp.
  destruct Hp as (_&_&_&Hport). rewrite Hport. destruct Hr as [Hr|(h'&n&Hr)]; [by left|right].
  exists h', n. by rewrite Hport.
Qed.

Lemma port_release_session (y y' : hsys W) :
  x1_port_release y = (Ok tt, y') → q_session (y_port y') = None.
Proof.
  intros Hm. assert (∀ g, keeps (steady (λ _ _, True)) (let! h := hget (W:=W) g in
    if negb (h_startup_attempted h) || h_fully_retired h then x1_session_put g else ret tt)) as Hk.
  { intros g. keeps_auto; [apply st_hget|apply st_put]; typeclasses eauto. }
  unfold x1_port_release, pset, modify in Hm. unfold bind at 1, pget in Hm. unfold bind at 1 in Hm.
  destruct (q_session (y_port y)) as [g|]; [|by injection Hm as <-].
  match type of Hm with _ ?y1 = _ => specialize (Hk g y1); rewrite Hm in Hk end. apply Hk.
Qed.

(** The published session stays, is unpublished, or is renewed. *)
Lemma step_session m y y' g :
  GI [] y → step_ P crc32c sha256 start_polls command_polls HZ fuel m y = (Ok tt, y') →
  q_session (y_port y) = Some g →
  q_session (y_port y') = Some g ∨ q_session (y_port y') = None ∨ renewed g y y'.
Proof.
  intros HG Hm Hg. destruct m as [f|t|i|].
  - destruct (gr_cur _ _ (proj2 HG) g Hg) as [h Hh]. pose proof (gr_fresh _ _ (proj2 HG) g h Hh).
    unfold step_, bind, get in Hm. destruct (Z.eqb_spec (q_next_generation (y_port y)) 0); [lia|].
    injection Hm as <-. by left.
  - left. rewrite <- Hg. cbn in Hm. pose proof (steady_session (begin_task t) y) as Hs.
    rewrite Hm in Hs. apply Hs, st_begin. typeclasses eauto.
  - destruct (y_flight y !! i) as [[g' t]|] eqn:Ei.
    2:{ unfold step_, bind, get in Hm. rewrite Ei in Hm. injection Hm as <-. by left. }
    assert ((∃ capable buf, t = TStore renew_session capable buf) ∨
            ∀ capable buf, t ≠ TStore renew_session capable buf) as [(capable&buf&->)|Ht]
      by (destruct t as [| |[]| | | |]; first [left; by eexists _, _|by right]).
    + destruct (renew_step g' capable buf i y y' HG Ei Hm) as [->|Hr]; [by left|].
      pose proof Hr as (h&n&Hq&_). right. right. assert (g' = g) as -> by congruence. done.
    + left. rewrite <- Hg. unfold step_, bind, get in Hm. rewrite Ei in Hm. unfold modify in Hm.
      match type of Hm with run_task _ _ _ _ _ _ _ _ _ ?y1 = _ =>
        pose proof (steady_session (run_task P crc32c sha256 start_polls command_polls HZ fuel g' t) y1) as Hs end.
      rewrite Hm in Hs. by apply Hs, st_run_task; [typeclasses eauto|].
  - unfold step_, bind, get in Hm. destruct (y_flight y) as [|x l]; [|injection Hm as <-; by left].
    rewrite Hg in Hm. right. left.
    destruct (x1_session_get y) as [[[g'|]|e|] y1]; [| |done..].
    + destruct (x1_shutdown P command_polls g' y1) as [[[]|e|] y2]; [|done..].
      destruct (x1_session_put g' y2) as [[[]|e|] y3]; [|done..]. by eapply port_release_session.
    + unfold ret in Hm. by eapply port_release_session.
Qed.
End core.
