(* ===== verification/HostWait.v ===== *)
(** * The production host driver: every handler returns

    Three loops of the driver sleep and look at the clock.  With a clock that
    does not run backwards and that [msleep] moves on, they give up at their
    deadline; nothing else can keep a handler from returning. *)

From S2P Require Import Prelude Wp Fw Drom Mcu Startup Typec HostData HostStart HostStop HostStores.
From S2P Require Import HostLogic HostInv HostCold HostDown HostSteps HostFrame HostRun.

(** [jiffies] as a number that is not reduced to 64 bits. *)
Class Clock {W} `{Mmio Z W} `{HostEnv W} (now : W → Z) : Prop := {
  ck_flows : Flows (λ w w', now w ≤ now w');
  ck_pos w : 0 ≤ now w;
  ck_read w : (e_call Jiffies w).1.2 = now w;
  ck_sleep ms w : 0 < ms → now w < now (e_call (Msleep ms) w).2;
}.
#[export] Existing Instance ck_flows.

Ltac head_of m := lazymatch m with ?f _ => head_of f | ?f => f end.

(** A time that no machine reaches: the counter is far from wrapping. *)
Definition LIMIT : Z := 2 ^ 62.

Lemma u64_minus a b : u64 (u64 a - u64 b) = u64 (a - b).
Proof. unfold u64. by rewrite <- Zminus_mod. Qed.

Lemma time_after_eq_false a b :
  Z.abs (a - b) < 2 ^ 63 → time_after_eq (u64 a) (u64 b) = false → a < b.
Proof.
  intros Hd Ht. unfold time_after_eq in Ht. rewrite u64_minus in Ht. apply Z.ltb_ge in Ht.
  destruct (decide (a < b)); [done|]. unfold u64 in Ht. rewrite Z.mod_small in Ht; lia.
Qed.

Lemma time_after_false a b :
  Z.abs (a - b) < 2 ^ 63 → time_after (u64 a) (u64 b) = false → a ≤ b.
Proof.
  intros Hd Ht. unfold time_after, time_before in Ht. apply negb_false_iff in Ht.
  unfold time_after_eq in Ht. rewrite u64_minus in Ht. apply Z.ltb_lt in Ht.
  destruct (decide (a ≤ b)); [done|]. unfold u64 in Ht.
  rewrite <- (Z.mod_add _ 1), Z.mod_small in Ht; lia.
Qed.

Section wait.
Context (P : params).
Context (crc32c : Z → list Z → Z) (sha256 : list Z → list Z).
Context (start_polls command_polls : nat) (HZ : Z) (fuel : nat).
Context `{TypecAbi}.
Context {W : Type} `{Mmio Z W} `{HostEnv W} (now : W → Z) `{!Clock now}.
Context (HZ_range : 0 < HZ ≤ 100000) (fuel_enough : 120 * HZ + 1 < Z.of_nat fuel).
Implicit Types (g : Z) (y : hsys W).

Notation clock y := (now (y_w y)).

(** [m] returns, unless the end of time is reached. *)
Definition finishes {A} (m : M (hsys W) A) : Prop :=
  ∀ y, match m y with (Err _, y') => LIMIT ≤ clock y' | _ => True end.

Lemma fin_ret {A} (a : A) : finishes (ret a).
Proof. done. Qed.
Lemma fin_fault {A} : finishes (@fault _ A).
Proof. done. Qed.
Lemma fin_bind {A B} (m : M (hsys W) A) (k : A → M (hsys W) B) :
  finishes m → (∀ a, finishes (k a)) → finishes (bind m k).
Proof. intros Hm Hk y. specialize (Hm y). unfold bind. destruct (m y) as [[a|e|] y']; [apply Hk|done..]. Qed.
Lemma fin_attempt (m : M (hsys W) unit) : finishes (attempt m).
Proof. intros y. unfold attempt. by destruct (m y) as [[]]. Qed.
Lemma fin_hget g : finishes (hget g).
Proof. intros y. unfold hget. by destruct (y_sessions y !! g). Qed.
Lemma fin_hset g f : finishes (hset g f).
Proof. intros y. unfold hset. by destruct (y_sessions y !! g). Qed.
Lemma fin_pget : finishes pget.
Proof. done. Qed.
Lemma fin_get : finishes get.
Proof. done. Qed.
Lemma fin_modify f : finishes (modify f).
Proof. done. Qed.
Lemma fin_call2 g c : finishes (call2 g c).
Proof. intros y. unfold call2. by destruct (e_call c (y_w y)) as [[]]. Qed.
Lemma fin_query c : finishes (read_out c).
Proof. intros y. unfold read_out. by destruct (e_call c (y_w y)) as [[]]. Qed.
Lemma fin_mcu_stop m : finishes (on_router (qcom_usb4_mcu_stop m)).
Proof.
  intros y. unfold on_router, qcom_usb4_mcu_stop, qcom_usb4_mcu_update, readl, writel, bind.
  destruct m as [m|]; [|done]. destruct (base m =? 0); [done|].
  do 3 (destruct (dev_read _ _) as [? ?]; cbn). done.
Qed.
Lemma fin_for_each {X} (l : list X) body : (∀ x, finishes (body x)) → finishes (for_each l body).
Proof. intros Hb. induction l as [|x l IH]; cbn [for_each]; [done|]. apply fin_bind; auto. Qed.
Lemma fin_arrivals : finishes next_arrivals.
Proof. intros y. unfold next_arrivals. by destruct (e_arrivals (y_w y)). Qed.
Lemma fin_fill {A} (f : W → A * W) :
  finishes (λ y, let (a, w) := f (y_w y) in (Ok a, y <| y_w := w |>)).
Proof. intros y. by destruct (f (y_w y)). Qed.
Lemma fin_fill2 {X} (f : W → Z * X * W) :
  finishes (λ y, let '(r, x, w) := f (y_w y) in (Ok (r, x), y <| y_w := w |>)).
Proof. intros y. by destruct (f (y_w y)) as [[]]. Qed.
Lemma fin_helper {X} g c (gx : x1_host → X) sx cb t :
  finishes cb → finishes (helper_call g c gx sx cb t).
Proof.
  intros Hcb. unfold helper_call. apply fin_bind; [done|]. intros x. apply fin_bind; [|done].
  induction x as [f|f k IH]; cbn [run_helper]; (apply fin_bind; [apply fin_hget|intros h]);
    (apply fin_bind; [first [apply fin_fill|apply fin_fill2]|intros p]);
    (apply fin_bind; [apply fin_hset|intros _]); [done|].
  by apply fin_bind.
Qed.

Create HintDb fin.
Hint Resolve fin_ret fin_fault fin_attempt fin_hget fin_hset fin_pget fin_get fin_modify fin_call2
  fin_query fin_mcu_stop fin_arrivals : fin.

Ltac fin_step :=
  lazymatch goal with
  | |- finishes (bind _ _) => apply fin_bind; [|intros ?]
  | |- finishes (for_each _ _) => apply fin_for_each; intros ?
  | |- finishes (helper_call _ _ _ _ _ _) => apply fin_helper
  | |- finishes (λ _, _) => first [apply fin_fill|apply fin_fill2|intros ?; repeat case_match; done]
  | |- finishes (if ?b then _ else _) => destruct b
  | |- finishes (match ?x with _ => _ end) => destruct x
  | |- finishes ?m => first [solve [eauto with fin] | let f := head_of m in unfold f]
  end.
Ltac fin := repeat first [fin_step | progress cbv zeta].

Lemma fin_put g : finishes (x1_session_put g).
Proof. fin. Qed.
Lemma fin_begin t : finishes (begin_task t).
Proof. fin. Qed.
Hint Resolve fin_put fin_begin : fin.
Lemma fin_switch_set g o : finishes (x1_switch_set P g o).
Proof. fin. Qed.
Lemma fin_mux_set g st : finishes (x1_mux_set command_polls g st).
Proof. fin. Qed.
Hint Resolve fin_switch_set fin_mux_set : fin.
Lemma fin_lock : finishes (lock P command_polls).
Proof. fin. Qed.
Lemma fin_event_lock : finishes (event_lock).
Proof. fin. Qed.
Hint Resolve fin_lock fin_event_lock : fin.
Lemma fin_assert_each g l first : finishes (assert_each g l first).
Proof. revert first. induction l as [|i l IH]; intros first; cbn [assert_each]; fin. Qed.
Hint Resolve fin_assert_each : fin.
Lemma fin_activate g : finishes (x1_activate P crc32c sha256 start_polls command_polls g).
Proof. fin. Qed.
Lemma fin_batch_live g : finishes (x1_batch_live g).
Proof. fin. Qed.
Lemma fin_batch_observe g : finishes (batch_observe P g).
Proof. fin. Qed.
Hint Resolve fin_activate fin_batch_live fin_batch_observe : fin.

(** ** Deadlines

    While a handler waits, no session's deadline moves. *)

Definition paced (y y' : hsys W) : Prop :=
  clock y ≤ clock y' ∧ ∀ g h', y_sessions y' !! g = Some h' →
    ∃ h, y_sessions y !! g = Some h ∧ b_deadline (h_b h') = b_deadline (h_b h).

#[local] Instance paced_preorder : PreOrder paced.
Proof.
  split; [intros y; split; [done|eauto]|]. intros y1 y2 y3 [A1 A2] [B1 B2]. split; [lia|].
  intros g h Hh. destruct (B2 _ _ Hh) as (h2&Hh2&E2). destruct (A2 _ _ Hh2) as (h1&Hh1&E1).
  exists h1. split; [done|congruence].
Qed.

Lemma paced_same y y' : clock y ≤ clock y' → y_sessions y' = y_sessions y → paced y y'.
Proof. intros Hc Hs. split; [done|]. rewrite Hs. eauto. Qed.

Lemma pc_hget g : keeps paced (hget g).
Proof. intros y. unfold hget. by destruct (y_sessions y !! g). Qed.
Lemma pc_hset g f : (∀ h, b_deadline (h_b (f h)) = b_deadline (h_b h)) → keeps paced (hset g f).
Proof.
  intros Hf y. unfold hset. destruct (y_sessions y !! g) as [h|] eqn:Eh; [|done]. split; [done|].
  intros g' h'. cbn. rewrite lookup_insert_Some. intros [[-> <-]|[_ Hh']]; eauto.
Qed.
Lemma pc_modify f : (∀ y, clock (f y) = clock y) → (∀ y, y_sessions (f y) = y_sessions y) →
  keeps paced (modify f).
Proof. intros Hc Hs y. apply paced_same; [by cbn; rewrite Hc|apply Hs]. Qed.
Lemma pc_pget : keeps paced pget.
Proof. by intros y. Qed.
Lemma pc_free g : keeps paced (modify (λ y, y <| y_sessions := delete g (y_sessions y) |>)).
Proof.
  intros y. split; [done|]. intros g' h'. cbn. rewrite lookup_delete_Some. intros [_ ?]. eauto.
Qed.
Lemma pc_call2 g c : keeps paced (call2 g c).
Proof.
  intros y. unfold call2. pose proof (fl_call (T:=λ w w', now w ≤ now w') c (y_w y)) as Hw.
  destruct (e_call c (y_w y)) as [[r x] w]. by apply paced_same.
Qed.
Lemma pc_query c : keeps paced (read_out c).
Proof.
  intros y. unfold read_out. pose proof (fl_call (T:=λ w w', now w ≤ now w') c (y_w y)) as Hw.
  destruct (e_call c (y_w y)) as [[r x] w]. by apply paced_same.
Qed.
Lemma pc_attempt (m : M (hsys W) unit) : keeps paced m → keeps paced (attempt m).
Proof. intros Hm y. specialize (Hm y). unfold attempt. by destruct (m y) as [[]]. Qed.
Lemma pc_command m c t : keeps paced (on_router (qcom_usb4_mcu_command command_polls m c t)).
Proof.
  intros y. unfold on_router.
  pose proof (T_command (λ w w', now w ≤ now w') command_polls m c t (y_w y)) as Hc.
  destruct (qcom_usb4_mcu_command _ _ _ _ _) as [r w]. by apply paced_same.
Qed.
Lemma pc_arrivals : keeps paced next_arrivals.
Proof.
  intros y. unfold next_arrivals. pose proof (fl_arrivals (T:=λ w w', now w ≤ now w') (y_w y)) as Hw.
  destruct (e_arrivals (y_w y)) as [l w]. by apply paced_same.
Qed.
Hint Resolve pc_hget pc_pget pc_free pc_call2 pc_query pc_attempt pc_command pc_arrivals : km.
Hint Extern 1 (keeps paced (hset _ _)) => apply pc_hset; done : km.
Hint Extern 1 (keeps paced (modify _)) => apply pc_modify; done : km.

Ltac paced := repeat first
  [ match goal with |- keeps paced (attempt _) => apply pc_attempt end
  | keeps_step
  | progress cbv zeta
  | match goal with |- keeps _ ?m => let f := head_of m in unfold f end ].

Lemma pc_put g : keeps paced (x1_session_put g).
Proof. paced. Qed.
Lemma pc_begin t : keeps paced (begin_task t).
Proof. paced. Qed.
Hint Resolve pc_put pc_begin : km.
Lemma pc_switch_set g o : keeps paced (x1_switch_set P g o).
Proof. paced. Qed.
Lemma pc_mux_set g st : keeps paced (x1_mux_set command_polls g st).
Proof. paced. Qed.
Hint Resolve pc_switch_set pc_mux_set : km.
Lemma pc_lock : keeps paced (lock P command_polls).
Proof. unfold lock. keeps_auto. apply keeps_for_each; [typeclasses eauto|]. intros ar _. paced. Qed.
Hint Resolve pc_lock : km.
Lemma pc_find_switch g : keeps paced (find_switch P g).
Proof. paced. Qed.
Lemma pc_batch_live g : keeps paced (x1_batch_live g).
Proof. paced. Qed.
Hint Resolve pc_find_switch pc_batch_live : km.
Lemma pc_batch_observe g : keeps paced (batch_observe P g).
Proof. paced. Qed.
Hint Resolve pc_batch_observe : km.
Lemma pc_batch_wait n g : keeps paced (batch_wait P command_polls n g).
Proof. induction n as [|n IH]; cbn [batch_wait]; paced. Qed.
Lemma pc_drain n g d : keeps paced (drain_events n g d).
Proof. induction n as [|n IH]; cbn [drain_events]; paced. Qed.
Lemma pc_freeze n g d : keeps paced (freeze_cm n g d).
Proof. induction n as [|n IH]; cbn [freeze_cm]; paced. Qed.

(** ** Loops that look at the clock *)

(** A round of [loop (S n)]: it returns, or the deadline [d] was still ahead
    at some time [t] of it and it goes on with [loop n], later. *)
Definition round {A} (I : hsys W → Prop) (loop : nat → M (hsys W) A) (d : Z) (n : nat) (y : hsys W) : Prop :=
  match loop (S n) y with (Err _, y') => LIMIT ≤ clock y' | _ => True end ∨
  ∃ t y', clock y ≤ t < clock y' ∧ (Z.abs (t - d) < 2 ^ 63 → t ≤ d) ∧ I y' ∧
    loop (S n) y = loop n y'.

Lemma waits_end {A} (I : hsys W → Prop) (loop : nat → M (hsys W) A) d t0 :
  (∀ n, keeps paced (loop n)) → (∀ n y, I y → round I loop d n y) →
  t0 < LIMIT → d = t0 + 120 * HZ ∨ d = t0 + 5 * HZ ∨ d = t0 + 3 * HZ → 0 ≤ t0 →
  ∀ n y, I y →
  match loop n y with
  | (Err _, y') => LIMIT ≤ clock y' ∨ n = 0%nat ∨ clock y + Z.of_nat n ≤ d + 1
  | _ => True
  end.
Proof.
  intros Hk Hr Ht0 Hd Hp n. induction n as [|n IH]; intros y HI; [destruct (loop 0%nat y) as [[]]; auto|].
  destruct (Hr n y HI) as [He|(t&y1&Ht&Hlate&HI1&E)].
  { destruct (loop (S n) y) as [[]]; auto. }
  rewrite E. specialize (IH y1 HI1). pose proof (Hk n y1) as [Hc _].
  destruct (loop n y1) as [[a|e|] y']; try done. cbn in Hc.
  destruct (decide (LIMIT ≤ clock y')) as [|HL]; [by left|]. right. right.
  unfold LIMIT in *. pose proof (ck_pos (y_w y)). specialize (Hlate ltac:(lia)). lia.
Qed.

Lemma waits_finish {A} (I : hsys W → Prop) (loop : nat → M (hsys W) A) d t0 y :
  (∀ n, keeps paced (loop n)) → (∀ n y, I y → round I loop d n y) →
  d = t0 + 120 * HZ ∨ d = t0 + 5 * HZ ∨ d = t0 + 3 * HZ → 0 ≤ t0 ≤ clock y → I y →
  match loop fuel y with (Err _, y') => LIMIT ≤ clock y' | _ => True end.
Proof.
  intros Hk Hr Hd Ht HI. destruct (decide (t0 < LIMIT)) as [HL|HL].
  - pose proof (waits_end I loop d t0 Hk Hr HL Hd ltac:(lia) fuel y HI) as He.
    destruct (loop fuel y) as [[a|e|] y']; try done. destruct He as [He|[He|He]]; [done|lia..].
  - pose proof (Hk fuel y) as [Hc _]. destruct (loop fuel y) as [[a|e|] y']; try done. cbn in Hc. lia.
Qed.

Lemma jiffies_eq y : ∃ y', jiffies y = (Ok (u64 (clock y)), y') ∧ paced y y'.
Proof.
  pose proof (pc_query Jiffies y) as Hp. unfold jiffies, bind. unfold read_out in *.
  pose proof (ck_read (y_w y)) as Hr. destruct (e_call Jiffies (y_w y)) as [[r v] w].
  cbn in Hr. subst v. by eexists.
Qed.

Lemma query_eq c y : ∃ v y', read_out c y = (Ok v, y') ∧ paced y y'.
Proof.
  pose proof (pc_query c y) as Hp. unfold read_out in *.
  destruct (e_call c (y_w y)) as [[r v] w]. by eexists _, _.
Qed.

Lemma sleep_eq g ms y : 0 < ms → ∃ y', call_ g (Msleep ms) y = (Ok tt, y') ∧ paced y y' ∧ clock y < clock y'.
Proof.
  intros Hms. pose proof (pc_call2 g (Msleep ms) y) as Hp. unfold call_, bind. unfold call2 in *.
  pose proof (ck_sleep ms (y_w y) Hms) as Hs. destruct (e_call (Msleep ms) (y_w y)) as [[r v] w].
  by eexists.
Qed.

Lemma drain_round g d n y : round (λ _, True) (λ n, drain_events n g (u64 d)) d n y.
Proof.
  unfold round. cbn [drain_events]. destruct (query_eq TbEventsPending y) as (p&y1&E1&[C1 _]).
  rewrite (bind_ok _ _ _ _ _ E1). destruct (p =? 0).
  { left. apply (fin_batch_live g y1). }
  destruct (jiffies_eq y1) as (y2&E2&[C2 _]). rewrite (bind_ok _ _ _ _ _ E2).
  destruct (time_after _ _) eqn:Et; [by left|]. right.
  destruct (sleep_eq g 20 y2) as (y3&E3&_&C3); [done|]. rewrite (bind_ok _ _ _ _ _ E3).
  exists (clock y1), y3. split_and!; [lia|lia| |done|done]. intros Hd. by apply time_after_false.
Qed.

Lemma freeze_round g d n y : round (λ _, True) (λ n, freeze_cm n g (u64 d)) d n y.
Proof.
  unfold round. cbn [freeze_cm]. destruct (query_eq TbEventsPending y) as (p&y1&E1&[C1 _]).
  rewrite (bind_ok _ _ _ _ _ E1).
  assert (∃ i y2, (if p =? 0 then read_out CtlIdle else ret 0) y1 = (Ok i, y2) ∧ paced y1 y2) as (i&y2&E2&[C2 _]).
  { destruct (p =? 0); [apply query_eq|by eexists _, _]. }
  rewrite (bind_ok _ _ _ _ _ E2).
  assert (∃ r y3, (if i !=? 0 then call g TbIdleFreeze else ret (-EBUSY)) y2 = (Ok r, y3) ∧ paced y2 y3)
    as (r&y3&E3&[C3 _]).
  { destruct (i !=? 0); [|by eexists _, _]. pose proof (pc_call2 g TbIdleFreeze y2) as Hp.
    unfold call, bind. unfold call2 in *. destruct (e_call _ _) as [[r v] w]. by eexists _, _. }
  rewrite (bind_ok _ _ _ _ _ E3). destruct (r !=? -EBUSY); [by left|].
  destruct (jiffies_eq y3) as (y4&E4&[C4 _]). rewrite (bind_ok _ _ _ _ _ E4).
  destruct (time_after _ _) eqn:Et; [by left|]. right.
  destruct (sleep_eq g 20 y4) as (y5&E5&_&C5); [done|]. rewrite (bind_ok _ _ _ _ _ E5).
  exists (clock y3), y5. split_and!; [lia|lia| |done|done]. intros Hd. by apply time_after_false.
Qed.

(** The deadline of session [g] is [d]. *)
Definition due g d y : Prop := ∀ h, y_sessions y !! g = Some h → b_deadline (h_b h) = u64 d.

Lemma due_paced g d y y' : due g d y → paced y y' → due g d y'.
Proof. intros Hd [_ Hp] h' Hh'. destruct (Hp g h' Hh') as (h&Hh&->). by apply Hd. Qed.

(** A round without a verdict was before the deadline. *)
Lemma observe_time g d y y' :
  due g d y → batch_observe P g y = (Ok 0, y') →
  ∃ t, clock y ≤ t ≤ clock y' ∧ (Z.abs (t - d) < 2 ^ 63 → t ≤ d).
Proof.
  intros Hd. unfold batch_observe. unfold bind at 1, hget at 1.
  destruct (y_sessions y !! g) as [h|] eqn:Eh; [|done]. cbv zeta. rewrite (Hd h Eh).
  destruct (t_error (h_t h) !=? 0) eqn:Ee.
  { unfold bind at 1, ret at 1. rewrite Ee. intros [= E _]. by rewrite E in Ee. }
  destruct (jiffies_eq y) as (y1&E1&[C1 _]).
  rewrite (bind_ok _ _ y (if time_after_eq (u64 (clock y)) (u64 d) then -ETIMEDOUT else 0) y1)
    by (by rewrite (bind_ok _ _ _ _ _ E1)).
  destruct (time_after_eq _ _) eqn:Et; [by intros [=]|]. cbn [Z.eqb negb].
  match goal with |- ?m y1 = _ → _ => assert (keeps paced m) as Hk; [paced|pose proof (Hk y1) as [C2 _]] end.
  intros E. rewrite E in C2. cbn in C2. exists (clock y). split; [lia|]. intros Hab.
  apply time_after_eq_false in Et; lia.
Qed.

Lemma batch_round g d n y : due g d y → round (due g d) (λ n, batch_wait P command_polls n g) d n y.
Proof.
  intros Hd. unfold round. cbn [batch_wait]. pose proof (pc_lock y) as Hp. pose proof (fin_lock y) as Hf.
  destruct (lock P command_polls y) as [[[]|e|] y1] eqn:E0; [|left; unfold bind; by rewrite E0..].
  rewrite (bind_ok _ _ _ _ _ E0). pose proof (due_paced _ _ _ _ Hd Hp) as Hd1.
  pose proof (pc_batch_observe g y1) as Hp2. pose proof (fin_batch_observe g y1) as Hf2.
  destruct (batch_observe P g y1) as [[r|e|] y2] eqn:E2; [|left; unfold bind; by rewrite E2..].
  rewrite (bind_ok _ _ _ _ _ E2). pose proof (due_paced _ _ _ _ Hd1 Hp2) as Hd2.
  destruct (y_sessions y2 !! g) as [h|] eqn:Eh; [|left; unfold bind, hget; by rewrite Eh].
  assert (hget g y2 = (Ok h, y2)) as E4 by (unfold hget; by rewrite Eh).
  rewrite (bind_ok _ _ _ _ _ E4).
  destruct (r !=? 0) eqn:Er; [by left|]. destruct (bool_decide _); [by left|]. cbn [orb].
  apply negb_false_iff, Z.eqb_eq in Er as ->. right.
  destruct (observe_time g d y1 y2 Hd1 E2) as (t&Ht&Hlate).
  destruct (sleep_eq g 50 y2) as (y3&E3&Hp3&C3); [done|]. rewrite (bind_ok _ _ _ _ _ E3).
  exists t, y3. destruct Hp as [C1 _]. cbn in C1.
  split_and!; [lia|lia|done|by eapply due_paced|done].
Qed.

Lemma u64_plus a b : u64 (u64 a + b) = u64 (a + b).
Proof. unfold u64. by rewrite Zplus_mod_idemp_l. Qed.

Lemma fin_drain g : finishes (x1_general_drain_events HZ fuel g).
Proof.
  intros y. unfold x1_general_drain_events. destruct (jiffies_eq y) as (y1&E1&[C1 _]).
  rewrite (bind_ok _ _ _ _ _ E1), u64_plus. pose proof (ck_pos (y_w y)).
  apply (waits_finish (λ _, True) (λ n, drain_events n g (u64 (clock y + 5 * HZ)))
           (clock y + 5 * HZ) (clock y)); auto using pc_drain, drain_round.
Qed.
Lemma fin_freeze g : finishes (x1_idle_freeze_cm HZ fuel g).
Proof.
  intros y. unfold x1_idle_freeze_cm. destruct (jiffies_eq y) as (y1&E1&[C1 _]).
  rewrite (bind_ok _ _ _ _ _ E1), u64_plus. pose proof (ck_pos (y_w y)).
  apply (waits_finish (λ _, True) (λ n, freeze_cm n g (u64 (clock y + 3 * HZ)))
           (clock y + 3 * HZ) (clock y)); auto using pc_freeze, freeze_round.
Qed.
Hint Resolve fin_drain fin_freeze : fin.

(** ** The batch

    Its deadline is 120 seconds after the wait was admitted. *)

Definition armed g y : Prop := ∃ t, 0 ≤ t ≤ clock y ∧ due g (t + 120 * HZ) y.

Lemma fin_batch_wait g y : armed g y →
  match x1_batch_wait P command_polls fuel g y with (Err _, y') => LIMIT ≤ clock y' | _ => True end.
Proof.
  intros (t&Ht&Hd).
  apply (waits_finish (due g (t + 120 * HZ)) (λ n, batch_wait P command_polls n g) (t + 120 * HZ) t);
    auto using pc_batch_wait, batch_round.
Qed.

Definition waits_armed g (m : M (hsys W) flow) : Prop :=
  ∀ y y', m y = (Ok WaitAttachment, y') → armed g y'.
Lemma armed_bind {A} g (m : M (hsys W) A) k : (∀ a, waits_armed g (k a)) → waits_armed g (bind m k).
Proof. intros Hk y y' E. apply bind_ok_inv in E as (a&y1&_&E). by eapply Hk. Qed.
Lemma armed_ret g f : f ≠ WaitAttachment → waits_armed g (ret f).
Proof. intros Hf y y' [= ? _]. congruence. Qed.
Lemma due_set g (f : batch_part → batch_part) d y y' :
  bset g f y = (Ok tt, y') → (∀ b, b_deadline (f b) = u64 d) → due g d y' ∧ clock y' = clock y.
Proof.
  unfold bset, hset. destruct (y_sessions y !! g) as [h|]; [|done]. intros [= <-] Hf. split; [|done].
  intros h'. cbn. rewrite lookup_insert_Some. intros [[_ <-]|[]]; [apply Hf|done].
Qed.

Lemma armed_prepare g :
  waits_armed g (inventory_prepare P crc32c sha256 start_polls command_polls HZ g).
Proof.
  unfold inventory_prepare. apply armed_bind; intros r. apply armed_bind; intros [].
  destruct (_ !=? 0); [by apply armed_ret|]. apply armed_bind; intros h.
  destruct (_ || _); [by apply armed_ret|]. apply armed_bind; intros []. apply armed_bind; intros [].
  apply armed_bind; intros ok. apply armed_bind; intros r'. destruct (_ !=? 0); [by apply armed_ret|].
  intros y y' E. destruct (jiffies_eq y) as (y1&E1&[C1 _]). rewrite (bind_ok _ _ _ _ _ E1) in E.
  apply bind_ok_inv in E as ([]&y2&E2&E). destruct (x1_managed P); [by injection E|].
  injection E as <-. pose proof (ck_pos (y_w y)).
  destruct (due_set _ _ (clock y + 120 * HZ) _ _ E2) as [Hd Hc].
  { intros b. cbn. by rewrite u64_plus. }
  exists (clock y). rewrite Hc. split; [lia|done].
Qed.

Lemma armed_admit g uid vendor device :
  waits_armed g (inventory_admit P crc32c sha256 start_polls command_polls HZ g uid vendor device).
Proof.
  unfold inventory_admit. apply armed_bind; intros []. apply armed_bind; intros h. cbv zeta.
  match goal with |- waits_armed _ (if ?b then _ else _) => destruct b end.
  - destruct (_ || _); [by apply armed_ret|]. intros y y' E.
    destruct (jiffies_eq y) as (y1&E1&[C1 _]). rewrite (bind_ok _ _ _ _ _ E1) in E.
    destruct (jiffies_eq y1) as (y2&E2&[C2 _]). rewrite (bind_ok _ _ _ _ _ E2) in E.
    apply bind_ok_inv in E as ([]&y3&E3&E). injection E as <-. pose proof (ck_pos (y_w y)).
    destruct (due_set _ _ (clock y + 120 * HZ) _ _ E3) as [Hd Hc].
    { intros b. cbn. by rewrite u64_plus. }
    exists (clock y). rewrite Hc. split; [lia|done].
  - destruct (_ || _); [by apply armed_ret|]. destruct (_ || _); [by apply armed_ret|].
    apply armed_bind; intros []. apply armed_prepare.
Qed.

Lemma fin_inventory_wait g vendor device y : armed g y →
  match inventory_wait P command_polls HZ fuel g vendor device y with
  | (Err _, y') => LIMIT ≤ clock y' | _ => True end.
Proof.
  intros Ha. pose proof (fin_batch_wait g y Ha) as Hw. unfold inventory_wait. unfold bind at 1.
  destruct (x1_batch_wait P command_polls fuel g y) as [[r|e|] y1]; [|done..].
  match goal with |- match ?m y1 with _ => _ end => assert (finishes m) as Hf; [|apply (Hf y1)] end. fin.
Qed.

Lemma fin_inventory g capable buf :
  finishes (inventory_once_store P crc32c sha256 start_polls command_polls HZ fuel g capable buf).
Proof.
  unfold inventory_once_store. destruct (_ || _); [done|].
  assert (x1_batch_parse (x1_general P) buf ≠ Fault) as Hp by (unfold x1_batch_parse; repeat (case_match; try done)).
  destruct (x1_batch_parse _ _) as [[[uid vendor] device]|e|]; [|done..]. intros y.
  assert (finishes (inventory_admit P crc32c sha256 start_polls command_polls HZ g uid vendor device)) as Hf by fin.
  specialize (Hf y). unfold bind at 1. pose proof (armed_admit g uid vendor device y) as Ha.
  destruct (inventory_admit _ _ _ _ _ _ _ _ _ _ y) as [[f|e|] y1]; [|done..].
  assert (∀ f, finishes (inventory_finish (W:=W) P g f)) as Hfin by (intros; fin).
  destruct f as [r|r|]; [apply Hfin|apply Hfin|].
  pose proof (fin_inventory_wait g vendor device y1 (Ha y1 eq_refl)) as Hw. unfold bind at 1.
  destruct (inventory_wait _ _ _ _ _ _ _ y1) as [[f|e|] y2]; [apply Hfin|done..].
Qed.
Hint Resolve fin_inventory : fin.

Lemma fin_run_task g t :
  finishes (run_task P crc32c sha256 start_polls command_polls HZ fuel g t).
Proof. fin. Qed.
Hint Resolve fin_run_task : fin.

Lemma fin_run l : finishes (run P crc32c sha256 start_polls command_polls HZ fuel l).
Proof. fin. Qed.
End wait.
