(* ===== verification/HostSafety.v ===== *)
(** * The production host driver: what holds in every history

    The theorems about runs of the whole driver, for every behaviour of the
    rest of the kernel and of the hardware, every order of stores and Type-C
    callbacks, and every setting of the module parameters. *)

From S2P Require Import Prelude Wp Fw Drom Mcu Startup Typec HostData HostStart HostStop HostStores.
From S2P Require Import HostLogic HostInv HostCold HostDown HostSteps HostFrame HostRun HostWait.

Section histories.
Context (P : params).
Context (crc32c : Z → list Z → Z) (sha256 : list Z → list Z).
Context (start_polls command_polls : nat) (HZ : Z) (fuel : nat).
Context `{TypecAbi}.
Context {W : Type} `{Mmio Z W} `{HostEnv W}.

(** The moves [l] from boot, and one more move. *)
Definition history (l : list move) (w : W) : res unit * hsys W :=
  run P crc32c sha256 start_polls command_polls HZ fuel l (boot w).
Definition one (m : move) : M (hsys W) unit :=
  step_ P crc32c sha256 start_polls command_polls HZ fuel m.

Lemma history_good l (w : W) :
  (history l w).1 ≠ Fault ∧ Good (history l w).2 ∧
  ((history l w).1 = Ok tt → GI [] (history l w).2).
Proof.
  pose proof (wp_run P crc32c sha256 start_polls command_polls HZ fuel l _ (GI_boot w)) as Hr.
  unfold wp in Hr. fold (history l w) in Hr. destruct (history l w) as [[[]|e|] y]; cbn; [| |done].
  - split_and!; [done|by exists []|done].
  - split_and!; [done|done|congruence].
Qed.

(** C1. Every call a session makes is permitted by the calls it made before:
    each lease, clock, vote and PHY state is taken when not held and put back
    when held; the router is started once, while powered, and told to connect
    at most once, after startup; approval follows connection, the hold follows
    approval, the fence follows the hold; control rings are stopped while
    powered and after the fence or the idle freeze; namespaces, PCI bus,
    control interface, domain and platform are retired in that order and only
    once the MCU was stopped and nothing of the router is held; the ring
    arrays are freed after the platform.  It holds in every history. *)
Theorem host_protocol l (w : W) g : protocol (own g (y_log (history l w).2)).
Proof.
  destruct (history_good l w) as (_&(pins&HI&HR)&_).
  destruct (y_sessions (history l w).2 !! g) as [h|] eqn:Eh.
  - exact (si_protocol _ _ (HI g h Eh)).
  - apply (gr_none _ _ HR g Eh).
Qed.


(** C2. What a session holds is what its flags say: the lease, the clocks and
    both PHY states as taken and put back in its calls agree with its record,
    the runtime votes too until it is told to stop; a session that is fully
    retired and one that has been freed hold nothing. *)
Theorem host_holdings l (w : W) g :
  let y := (history l w).2 in
  let L := own g (y_log y) in
  match y_sessions y !! g with
  | Some h =>
      held Lease L = b2z (bool_decide (is_Some (v_gcc (h_v h)))) ∧
      held Clocks L = b2z (v_clocks_on (h_v h)) ∧
      held PhyInits L = b2z (v_phy_initialized (h_v h)) ∧
      held PhyPowers L = b2z (v_phy_on (h_v h)) ∧
      b2z (v_runtime_held (h_v h)) ≤ held Votes L ≤ b2z (v_runtime_held (h_v h)) + 1 ∧
      (h_stopping h = false → held Votes L = b2z (v_runtime_held (h_v h))) ∧
      (h_fully_retired h = true → ∀ x, held x L = 0)
  | None => ∀ x, held x L = 0
  end.
Proof.
  cbv zeta. destruct (history_good l w) as (_&(pins&HI&HR)&_).
  destruct (y_sessions (history l w).2 !! g) as [h|] eqn:Eh; [|by apply (gr_none _ _ HR g Eh)].
  pose proof (HI g h Eh) as HS. split_and!; try apply HS.
  - pose proof (si_votes _ _ HS) as Hv. cbn in Hv. lia.
  - pose proof (si_votes _ _ HS) as Hv. cbn in Hv. lia.
  - intros Hr. apply (SI_ended _ _ HS). cbn. intros [_ ?]. congruence.
Qed.

(** C3. While a session is published its references are exactly those of the
    port and of the work in flight, only it can have been started and not
    retired, every piece of work in flight finds its session, and a session
    that is neither published nor worked on is gone. *)
Theorem host_sessions l (w : W) :
  match history l w with
  | (Ok _, y) => ∀ c, q_session (y_port y) = Some c →
      (∀ g h, y_sessions y !! g = Some h →
         h_ref h = b2z (g =? c) + Z.of_nat (length (filter (λ t, t.1 = g) (y_flight y))) ∧
         (h_startup_attempted h = true → h_fully_retired h = false → g = c) ∧
         (g = c ∨ ∃ t, (g, t) ∈ y_flight y)) ∧
      (∀ g t, (g, t) ∈ y_flight y → is_Some (y_sessions y !! g)) ∧ is_Some (y_sessions y !! c)
  | _ => True
  end.
Proof.
  destruct (history_good l w) as (_&_&HG). destruct (history l w) as [[[]|e|] y]; [|done..].
  specialize (HG eq_refl). cbn in HG. destruct HG as [HI HR]. intros c Hc.
  assert (∀ g, occ g (flying y) = Z.of_nat (length (filter (λ t, t.1 = g) (y_flight y)))) as Hocc.
  { intros g. unfold flying. induction (y_flight y) as [|[x t] fl IH]; [done|].
    change (fst <$> (x, t) :: fl) with (x :: (fst <$> fl)). cbn [occ]. rewrite IH.
    destruct (Z.eqb_spec x g) as [->|Hne].
    - rewrite filter_cons_True by done. cbn. lia.
    - rewrite filter_cons_False by done. cbn. lia. }
  assert (∀ g, published y g = (g =? c)) as Hpub.
  { intros g. unfold published. rewrite Hc. destruct (Z.eqb_spec g c); case_bool_decide; congruence. }
  split_and!.
  - intros g h Hh. destruct (gr_ref _ _ HR g h Hh) as (_&R2&R3).
    specialize (R2 ltac:(rewrite Hc; by eexists)). unfold refs in R2. rewrite Hpub, Hocc in R2.
    cbn [occ] in R2. split_and!; [lia| |].
    + intros L1 L2. destruct (gr_live _ _ HR g h Hh); [done|congruence..].
    + destruct (Z.eqb_spec g c) as [->|Hne]; [by left|right].
      destruct (filter (λ t, t.1 = g) (y_flight y)) as [|[g' t] fl] eqn:Ef.
      * cbn in R2. destruct (gr_live _ _ HR g h Hh); [apply R3; lia|congruence..].
      * exists t. assert ((g', t) ∈ filter (λ t, t.1 = g) (y_flight y)) as Hin by (rewrite Ef; by left).
        apply list_elem_of_filter in Hin as [Hg Hin]. cbn in Hg. by subst.
  - intros g t Hin. destruct (gr_fly _ _ HR g) as (h&->&_); [|done].
    unfold flying. apply list_elem_of_fmap. by exists (g, t).
  - by apply (gr_cur _ _ HR).
Qed.

(** C7. The system is let into suspend only for a session that holds nothing:
    no lease, clock, vote or PHY state is outstanding when the callback
    returns 0. *)
Theorem host_suspend l (w : W) g y y' :
  history l w = (Ok tt, y) → x1_suspend P g y = (Ok 0, y') →
  ∀ x, held x (own g (y_log y)) = 0.
Proof.
  intros Hr Hs. destruct (history_good l w) as (_&_&HG). rewrite Hr in HG.
  destruct (HG eq_refl) as [HI _]. cbn in HI. unfold x1_suspend, bind, hget in Hs.
  destruct (y_sessions y !! g) as [h|] eqn:Eh; [|done].
  apply (SI_ended _ _ (HI g h Eh)). cbn. intros [L1 L2]. rewrite L1, L2, andb_false_r in Hs. done.
Qed.

(** C6. A step leaves the published session, unpublishes it, or renews it; a
    renewed session was fully retired and holds nothing, the cable is detached
    when its successor appears, and the successor has a generation that no
    session had. *)
Theorem host_renewal l (w : W) m :
  match history l w with
  | (Ok _, y) =>
      match one m y with
      | (Ok _, y') =>
          match q_session (y_port y), q_session (y_port y') with
          | Some g, Some g' =>
              g' = g ∨ ∃ h, y_sessions y !! g = Some h ∧ h_fully_retired h = true ∧
                (∀ x, held x (own g (y_log y)) = 0) ∧
                g' = q_next_generation (y_port y) + 1 ∧ y_sessions y !! g' = None ∧
                q_orientation (y_port y') = TYPEC_ORIENTATION_NONE
          | _, _ => True
          end
      | _ => True
      end
  | _ => True
  end.
Proof.
  destruct (history_good l w) as (_&_&HG). destruct (history l w) as [[[]|e|] y]; [|done..].
  specialize (HG eq_refl). cbn in HG. destruct (one m y) as [[[]|e|] y'] eqn:Hm; [|done..].
  destruct (q_session (y_port y)) as [g|] eqn:Hg; [|done].
  destruct (q_session (y_port y')) as [g'|] eqn:Hg'; [|done].
  destruct (step_session P crc32c sha256 start_polls command_polls HZ fuel m y y' g HG Hm Hg)
    as [E|[E|(h&n&_&Eh&Er&Eq'&En&Eu&Eo)]]; [left; congruence|congruence|right].
  assert (n = g') as -> by congruence. exists h. split_and!; try done.
  apply (SI_ended _ _ (proj1 HG g h Eh)). cbn. intros [_ ?]. congruence.
Qed.

(** C5. Every handler returns: with a clock that does not run backwards and
    that [msleep] moves on, and as many rounds as there are ticks in the
    longest wait, no history gets stuck in one of the waiting loops, and none
    ends in an error; the only assumption on the hardware and on the rest of
    the kernel is that their own calls return. *)
Theorem host_returns (now : W → Z) `{!Clock now} l (w : W) :
  0 < HZ ≤ 100000 → 120 * HZ + 1 < Z.of_nat fuel →
  now (y_w (history l w).2) < LIMIT → (history l w).1 = Ok tt.
Proof.
  intros Hz Hf Hnow. pose proof (fin_run P crc32c sha256 start_polls command_polls HZ fuel now Hz Hf l (boot w)) as He. fold (history l w) in He.
  destruct (history_good l w) as (Hnf&_). destruct (history l w) as [[[]|e|] y]; cbn in *; [done|lia|done].
Qed.
End histories.

(** ** A machine on which every call succeeds *)

#[local] Instance demo_mmio : Mmio Z N := {|
  dev_read _ w := (0, w); dev_write _ _ w := w |}.
#[local] Instance demo_env : HostEnv N := {|
  e_call c w := match c with
                | Jiffies => (0, Z.of_N w, w)
                | Msleep _ => (0, 0, N.succ w)
                | _ => (0, 0, w)
                end;
  e_firmware w := (-ENOENT, [], w);
  e_nhi _ x w := (0, x, w); e_ctl_stop x w := (0, x, w); e_tunnel _ x w := (0, x, w);
  e_pcie _ _ := Finish (λ x w, (0, x, w)); e_ctl_retire _ := Finish (λ x w, (0, x, w));
  e_cm_retire _ _ := Finish (λ x w, (0, x, w));
  e_tb _ := TbView true None []; e_arrivals w := ([], w) |}.

#[local] Instance demo_clock : Clock Z.of_N.
Proof.
  split; [|lia|done|cbn; lia]. split; try (cbn; lia); try (intros; constructor; cbn; lia).
  - split; [intros w; lia|intros w1 w2 w3; lia].
  - intros c w. destruct c; cbn; lia.
Qed.

Definition demo_params : params :=
  Params false false false false false true true true true true true true true true true true true.

Definition demo_hw : hw_facts := {|
  f_machine := true; f_router_index := Some 0; f_firmware_name := true;
  f_resource := Some (0x15600000, X1_ROUTER_SIZE); f_ioremap := inr 0x15600000;
  f_nhi_irq := 7; f_hwirq := Some 504; f_level_high := true; f_clk_bulk := 0;
  f_reset_bulk := 0; f_phy := 0; f_pinctrl := 0; f_pins := [0; 0; 0; 0; 0; 0]; f_tcsr := 0;
  f_ddr := 0; f_apps := 0; f_smem := inr (100, 12345); f_serial_end := 100;
  f_alloc_port := true; f_add_action := 0; f_switch_register := 0; f_mux_register := 0;
  f_typec_action := 0 |}.

Lemma host_suspend_witness :
  ∃ y y', history demo_params (λ _ _, 0) (λ _, []) 1 1 250 1 [Probe demo_hw] 0%N = (Ok tt, y) ∧
    q_session (y_port y) = Some 1 ∧ x1_suspend demo_params 1 y = (Ok 0, y') ∧
    ∀ x, held x (own 1 (y_log y)) = 0.
Proof.
  eexists _, _. split; [vm_compute; reflexivity|]. split; [vm_compute; reflexivity|].
  split; [vm_compute; reflexivity|].
  eapply (host_suspend demo_params (λ _ _, 0) (λ _, []) 1 1 250 1 [Probe demo_hw] 0%N 1);
    vm_compute; reflexivity.
Defined.

Lemma host_returns_witness :
  (history demo_params (λ _ _, 0) (λ _, []) 1 1 1 200
     [Probe demo_hw; Start (TStore inventory_once true "inventory any"); Run 0;
      Start (TSwitch TYPEC_ORIENTATION_NORMAL); Start TSuspend; Run 1; Run 0; Unbind]
     0%N).1 = Ok tt.
Proof.
  apply (host_returns demo_params (λ _ _, 0) (λ _, []) 1 1 1 200 Z.of_N); vm_compute; try done; lia.
Defined.
