(* ===== verification/Ctl.v ===== *)
(** * The control channel

    experiments/omarchy1/kernel/drivers/thunderbolt/ctl.c: the channel's
    memory (two rings, a DMA pool, ten receive packets, the transmit packets in
    flight), admission of requests, transmission and reception, start and stop,
    and the private retirement of a channel whose rings were stopped for good.

    The rings and the interrupt side (nhi.c) are an environment.  A call that
    sleeps lets other threads run first ([k_during]): transmitters, ring
    callbacks, requests.  Misuse of memory is [Fault]: a packet or buffer freed
    twice or used after it was freed, a pool destroyed with buffers out, a ring
    used or freed when it is gone or still holds frames. *)

From S2P Require Import Prelude Wp Drom HostData.

(** ** Data *)

Inductive pkg_type :=
| TB_CFG_PKG_READ | TB_CFG_PKG_WRITE | TB_CFG_PKG_ERROR | TB_CFG_PKG_NOTIFY_ACK
| TB_CFG_PKG_EVENT | TB_CFG_PKG_XDOMAIN_REQ | TB_CFG_PKG_XDOMAIN_RESP
| TB_CFG_PKG_OVERRIDE | TB_CFG_PKG_RESET | TB_CFG_PKG_ICM_EVENT | PKG_UNKNOWN.
#[export] Instance pkg_type_eq_dec : EqDecision pkg_type.
Proof. solve_decision. Defined.

(** The codes of an error packet. *)
Inductive cfg_error :=
| TB_CFG_ERROR_LINK_ERROR | TB_CFG_ERROR_HEC_ERROR_DETECTED
| TB_CFG_ERROR_FLOW_CONTROL_ERROR | TB_CFG_ERROR_DP_BW | TB_CFG_ERROR_ROP_CMPLT
| TB_CFG_ERROR_POP_CMPLT | TB_CFG_ERROR_PCIE_WAKE | TB_CFG_ERROR_DP_CON_CHANGE
| TB_CFG_ERROR_DPTX_DISCOVERY | TB_CFG_ERROR_LINK_RECOVERY | TB_CFG_ERROR_ASYM_LINK
| ERROR_REPLY.

(** [struct ctl_pkg]: its buffer, and which callback its frame has. *)
Record ctl_pkg := CtlPkg { pk_buffer : Z; pk_rx : bool }.

(** [struct tb_ctl]: which of the rings and the pool are set, the packets, the
    request queue and the flags. *)
Record tb_ctl := Channel {
  kc_tx : bool; kc_rx : bool; kc_pool : bool; kc_packets : list (option Z);
  kc_queue : list Z; kc_running : bool;
  kc_stop_attempted : bool; kc_retire_attempted : bool; kc_retired : bool;
}.
#[export] Instance tb_ctl_eta : Eta tb_ctl := λ c,
  Channel (kc_tx c) (kc_rx c) (kc_pool c) (kc_packets c) (kc_queue c) (kc_running c)
    (kc_stop_attempted c) (kc_retire_attempted c) (kc_retired c).

Definition TB_CTL_RX_PKG_COUNT : nat := 10.
Definition TB_FRAME_SIZE : Z := 0x100.

(** A received frame: descriptor fields and the contents of the buffer. *)
Record rx_frame := RxFrame { fr_size : Z; fr_eof : pkg_type; fr_bytes : list Z }.

(** Calls out of the channel; [CloseControl] and [Enqueued] only mark where
    admission is closed and a request admitted. *)
Inductive kcall :=
| CtlAlloc | CtlKfree | PoolCreate | PoolDestroy | RingAlloc (tx : bool) | RingFree (tx : bool)
| RingStart (tx : bool) | RingStop (tx : bool)
| PkgAlloc | PoolAlloc | PoolFree (buffer : Z) | PkgKfree (p : Z)
| RingTx (p size : Z) (ty : pkg_type) (bytes : list Z) | RingRx (p : Z)
| CloseControl | RingFlush (ms : Z) | FlushWork | NhiStopRetained | NhiDetachStopped
| Enqueued (r : Z) | EventCb (ty : pkg_type) (words : list Z)
| FindRequest (ty : pkg_type) (words : list Z) | CopyReply | ScheduleWork.
Definition kevent : Type := kcall * Z.

(** What the rings look like from here: the transmit frames they hold, whether
    the transmit ring runs, and the receipt of the private stop. *)
Record ring_view := RingView { rv_flight : list Z; rv_on : bool; rv_stop : qcom_usb4_nhi_stop }.

(** What other threads do while a call sleeps. *)
Inductive karrival :=
| ATx (data : list Z) (len : nat) (ty : pkg_type) | ATxDone (p : Z)
| AFrame (i : nat) (canceled : bool) (f : rx_frame) | AEnqueue (r : Z) | ADequeue (r : Z).

Class CtlEnv (W : Type) := {
  k_answer : kcall → ring_view → W → Z * W;
  k_during : kcall → ring_view → W → list karrival * W;
  k_canceled : ring_view → W → list Z;
  k_stop_receipt : qcom_usb4_nhi_stop → W → qcom_usb4_nhi_stop;
  k_detach_receipt : qcom_usb4_nhi_retire → W → qcom_usb4_nhi_retire;
  k_error : list Z → cfg_error;
  k_crc32c : Z → list Z → Z;
}.

(** [nhi.c] as the channel relies on it: a stopped ring takes no frame,
    [tb_ring_stop] calls back every frame it still holds, [tb_ring_flush] is
    true only of an empty ring; the private stop fills in its own part of the
    receipt and succeeds with a finished one, and only a finished stop can be
    detached. *)
Class CtlLaws (W : Type) `{CtlEnv W} := {
  ring_off : ∀ p n ty bs v w, rv_on v = false → (k_answer (RingTx p n ty bs) v w).1 ≠ 0;
  ring_cancels : ∀ v w p, p ∈ rv_flight v → p ∈ k_canceled v w;
  ring_drained : ∀ ms v w, rv_flight v ≠ [] → (k_answer (RingFlush ms) v w).1 = 0;
  stop_finishes : ∀ v w, (k_answer NhiStopRetained v w).1 = 0 → hs_finished (rv_stop v) = true;
  detach_stopped : ∀ v w, (k_answer NhiDetachStopped v w).1 = 0 → hs_finished (rv_stop v) = true;
}.

(** The channel, live packets and buffers, frames handed to the transmit ring
    and not called back, and the caller's two receipts. *)
Record chan_state (W : Type) := Chan {
  ks_ctl : option tb_ctl; ks_heap : gmap Z ctl_pkg; ks_bufs : gset Z;
  ks_flight : list Z; ks_on : bool;
  ks_stop : qcom_usb4_nhi_stop; ks_retire : qcom_usb4_nhi_retire;
  ks_log : list kevent; ks_w : W;
}.
Arguments Chan {_} _ _ _ _ _ _ _ _ _.
Arguments ks_ctl {_} _.
Arguments ks_heap {_} _.
Arguments ks_bufs {_} _.
Arguments ks_flight {_} _.
Arguments ks_on {_} _.
Arguments ks_stop {_} _.
Arguments ks_retire {_} _.
Arguments ks_log {_} _.
Arguments ks_w {_} _.
#[export] Instance chan_eta {W} : Eta (chan_state W) := λ s,
  Chan (ks_ctl s) (ks_heap s) (ks_bufs s) (ks_flight s) (ks_on s) (ks_stop s) (ks_retire s)
    (ks_log s) (ks_w s).
#[export] Instance nhi_retire_eta : Eta qcom_usb4_nhi_retire := λ r,
  NhiRetire (nr_attempted r) (nr_finished r) (nr_error r) (nr_irq_released r)
    (nr_rings_detached r) (nr_rings_freed r) (nr_packets_freed r) (nr_pool_released r).

Section channel.
Context {W : Type} `{CtlEnv W}.
Notation MC := (M (chan_state W)).
Implicit Types s : chan_state W.

Definition view s : ring_view := RingView (ks_flight s) (ks_on s) (ks_stop s).

Definition kcall1 (c : kcall) : MC Z := λ s,
  let '(r, w) := k_answer c (view s) (ks_w s) in
  (Ok r, s <| ks_w := w |> <| ks_log := ks_log s ++ [(c, r)] |>).
Definition kcall0 (c : kcall) : MC unit := do! kcall1 c in ret tt.

(** [ctl->field] *)
Definition kget : MC tb_ctl := λ s,
  match ks_ctl s with Some c => (Ok c, s) | None => (Fault, s) end.
Definition kset (f : tb_ctl → tb_ctl) : MC unit := λ s,
  match ks_ctl s with Some c => (Ok tt, s <| ks_ctl := Some (f c) |>) | None => (Fault, s) end.
Definition require (b : bool) : MC unit := if b then ret tt else fault.

(** ** Packets *)

Definition tb_ctl_pkg_free (p : Z) : MC unit :=
  let! s := get in
  let! c := kget in
  match ks_heap s !! p with
  | None => fault
  | Some pkg =>
      do! require (kc_pool c && bool_decide (pk_buffer pkg ∈ ks_bufs s)) in
      do! kcall0 (PoolFree (pk_buffer pkg)) in
      do! kcall0 (PkgKfree p) in
      modify (λ s, s <| ks_bufs := ks_bufs s ∖ {[pk_buffer pkg]} |>
                     <| ks_heap := delete p (ks_heap s) |>)
  end.

(** NULL is [None]; a fresh address stands for what the allocator returns. *)
Definition tb_ctl_pkg_alloc (rx : bool) : MC (option Z) :=
  let! c := kget in
  let! ok := kcall1 PkgAlloc in
  if ok =? 0 then ret None else
  do! require (kc_pool c) in
  let! s := get in
  let p := fresh (dom (ks_heap s)) in
  let! ok := kcall1 PoolAlloc in
  if ok =? 0 then do! kcall0 (PkgKfree p) in ret None else
  let! s := get in
  let b := fresh (ks_bufs s) in
  do! modify (λ s, s <| ks_bufs := {[b]} ∪ ks_bufs s |>
                     <| ks_heap := <[p := CtlPkg b rx]> (ks_heap s) |>) in
  ret (Some p).

Definition tb_ctl_tx_callback (p : Z) : MC unit :=
  do! tb_ctl_pkg_free p in
  modify (λ s, s <| ks_flight := filter (λ q, q ≠ p) (ks_flight s) |>).

Definition tb_crc (bytes : list Z) : Z := crc_field k_crc32c bytes.

(** [data]: at least [len] bytes, as words.  [trace_tb_tx] is left out. *)
Definition tb_ctl_tx (data : list Z) (len : nat) (ty : pkg_type) : MC unit :=
  if (Z.of_nat len mod 4 !=? 0) then fail (-EINVAL) else
  if TB_FRAME_SIZE - 4 <? Z.of_nat len then fail (-EINVAL) else
  let! c := kget in
  if kc_stop_attempted c then fail (-ESHUTDOWN) else
  let! pkg := tb_ctl_pkg_alloc false in
  match pkg with
  | None => fail (-ENOMEM)
  | Some p =>
      do! require (kc_tx c) in
      let wire := be_words (take (len / 4) data) in
      let! r := kcall1 (RingTx p (Z.of_nat len + 4) ty (wire ++ be32 (tb_crc wire))) in
      if r =? 0 then modify (λ s, s <| ks_flight := p :: ks_flight s |>) else
      do! tb_ctl_pkg_free p in fail r
  end.

Definition tb_ctl_rx_submit (p : Z) : MC unit :=
  let! c := kget in
  do! require (kc_rx c) in
  kcall0 (RingRx p).

Definition tb_async_error (ty : pkg_type) (words : list Z) : bool :=
  bool_decide (ty = TB_CFG_PKG_ERROR) &&
  match k_error words with ERROR_REPLY => false | _ => true end.

(** What a frame is checked for before it is looked at. *)
Definition checksummed (ty : pkg_type) : bool :=
  match ty with
  | TB_CFG_PKG_READ | TB_CFG_PKG_WRITE | TB_CFG_PKG_ERROR | TB_CFG_PKG_OVERRIDE
  | TB_CFG_PKG_RESET | TB_CFG_PKG_EVENT | TB_CFG_PKG_XDOMAIN_RESP | TB_CFG_PKG_XDOMAIN_REQ => true
  | _ => false
  end.
Definition notifies (ty : pkg_type) : bool :=
  match ty with
  | TB_CFG_PKG_EVENT | TB_CFG_PKG_XDOMAIN_RESP | TB_CFG_PKG_XDOMAIN_REQ | TB_CFG_PKG_ICM_EVENT => true
  | _ => false
  end.

Fixpoint words_of (bytes : list Z) : list Z :=
  match bytes with
  | a :: b :: c :: d :: bytes => ((a << 24) .| (b << 16) .| (c << 8) .| d) :: words_of bytes
  | _ => []
  end.

(** [tb_cfg_request_find], [req->copy] *)
Definition rx_reply (ty : pkg_type) (words : list Z) : MC unit :=
  let! c := kget in
  if bool_decide (kc_queue c = []) then ret tt else
  let! req := kcall1 (FindRequest ty words) in
  if req =? 0 then ret tt else
  let! done := kcall1 CopyReply in
  if done =? 0 then ret tt else kcall0 ScheduleWork.

Definition rx_checked (ty : pkg_type) (words : list Z) : MC unit :=
  if tb_async_error ty words then kcall0 (EventCb ty words) else
  if notifies ty then
    let! handled := kcall1 (EventCb ty words) in
    if handled !=? 0 then ret tt else rx_reply ty words
  else rx_reply ty words.

Definition tb_ctl_rx_callback (p : Z) (canceled : bool) (f : rx_frame) : MC unit :=
  if canceled then ret tt else
  if (fr_size f <? 4) || (fr_size f mod 4 !=? 0) then tb_ctl_rx_submit p else
  let size := fr_size f - 4 in
  let body := take (Z.to_nat size) (fr_bytes f) in
  do! require (size <=? Z.of_nat (length (fr_bytes f))) in
  let! good := (if checksummed (fr_eof f) then
                  let! sum := lift (get_unaligned_be32 (fr_bytes f) size) in
                  ret (sum =? tb_crc body)
                else ret true) in
  do! (if good : bool then rx_checked (fr_eof f) (words_of body) else ret tt) in
  tb_ctl_rx_submit p.

(** ** Requests *)

Definition tb_cfg_request_enqueue (r : Z) : MC unit :=
  let! c := kget in
  if negb (kc_running c) then fail (-ENOTCONN) else
  do! kset (λ c, c <| kc_queue := kc_queue c ++ [r] |>) in
  kcall0 (Enqueued r).
Definition tb_cfg_request_dequeue (r : Z) : MC unit :=
  kset (λ c, c <| kc_queue := filter (λ q, q ≠ r) (kc_queue c) |>).

(** [tb_cfg_request]: without [response] it completes at once. *)
Definition tb_cfg_request (r : Z) (data : list Z) (len : nat) (ty : pkg_type) (response : bool) : MC unit :=
  do! tb_cfg_request_enqueue r in
  let! e := attempt (tb_ctl_tx data len ty) in
  if e !=? 0 then do! tb_cfg_request_dequeue r in fail e else
  if response then ret tt else kcall0 ScheduleWork.

(** ** Other threads

    The ring calls back a frame it holds, and delivers into a receive packet
    while it exists, within the packet's buffer. *)
Definition deliverable (f : rx_frame) : bool :=
  (fr_size f <=? TB_FRAME_SIZE) && (Z.of_nat (length (fr_bytes f)) =? TB_FRAME_SIZE) &&
  bool_decide (Forall is_byte (fr_bytes f)).

Definition run_arrival (a : karrival) : MC unit :=
  match a with
  | ATx data len ty => do! attempt (tb_ctl_tx data len ty) in ret tt
  | ATxDone p =>
      let! s := get in
      if bool_decide (p ∈ ks_flight s) then tb_ctl_tx_callback p else ret tt
  | AFrame i canceled f =>
      let! c := kget in
      match kc_rx c, kc_packets c !! i with
      | true, Some (Some p) => if deliverable f then tb_ctl_rx_callback p canceled f else ret tt
      | _, _ => ret tt
      end
  | AEnqueue r => do! attempt (tb_cfg_request_enqueue r) in ret tt
  | ADequeue r => tb_cfg_request_dequeue r
  end.

Definition meanwhile (c : kcall) : MC unit :=
  let! l := (λ s, let '(l, w) := k_during c (view s) (ks_w s) in (Ok l, s <| ks_w := w |>)) in
  for_each l run_arrival.

(** A call that sleeps. *)
Definition kwait (c : kcall) : MC Z := do! meanwhile c in kcall1 c.

Definition tb_ring_start (tx : bool) : MC unit :=
  do! kwait (RingStart tx) in
  if tx then modify (λ s, s <| ks_on := true |>) else ret tt.
Definition tb_ring_stop (tx : bool) : MC unit :=
  do! kwait (RingStop tx) in
  if negb tx then ret tt else
  do! modify (λ s, s <| ks_on := false |>) in
  let! s := get in
  for_each (filter (λ p, p ∈ k_canceled (view s) (ks_w s)) (ks_flight s)) tb_ctl_tx_callback.
Definition tb_ring_free (tx : bool) : MC unit :=
  let! s := get in
  do! require (negb tx || bool_decide (ks_flight s = [])) in
  kcall0 (RingFree tx).
Definition dma_pool_destroy : MC unit :=
  let! s := get in
  do! require (bool_decide (ks_bufs s = ∅)) in
  kcall0 PoolDestroy.

(** ** Life of the channel *)

Definition free_packet (p : option Z) : MC unit :=
  match p with Some p => tb_ctl_pkg_free p | None => ret tt end.

Definition ctl_gone : MC unit :=
  do! kcall0 CtlKfree in modify (λ s, s <| ks_ctl := None |>).

Definition tb_ctl_free : MC unit :=
  let! c := kget in
  if kc_stop_attempted c then (if kc_retired c then ctl_gone else ret tt) else
  do! (if kc_rx c then tb_ring_free false else ret tt) in
  do! (if kc_tx c then tb_ring_free true else ret tt) in
  do! for_each (kc_packets c) free_packet in
  do! (if kc_pool c then dma_pool_destroy else ret tt) in
  ctl_gone.

(** [x = alloc(); if (!x) goto err;] *)
Definition take_ring (call : kcall) (f : tb_ctl → tb_ctl) : MC unit :=
  let! ok := kcall1 call in
  if ok =? 0 then fail (-ENOMEM) else kset f.
Definition take_packet (i : nat) : MC unit :=
  let! p := tb_ctl_pkg_alloc true in
  match p with
  | None => fail (-ENOMEM)
  | Some _ => kset (λ c, c <| kc_packets := <[i := p]> (kc_packets c) |>)
  end.

Definition ctl_zero : tb_ctl :=
  Channel false false false (replicate TB_CTL_RX_PKG_COUNT None) [] false false false false.

(** Errors are the NULL result. *)
Definition tb_ctl_alloc : MC unit :=
  let! ok := kcall1 CtlAlloc in
  if ok =? 0 then fail (-ENOMEM) else
  do! modify (λ s, s <| ks_ctl := Some ctl_zero |>) in
  on_error
    (do! take_ring PoolCreate (λ c, c <| kc_pool := true |>) in
     do! take_ring (RingAlloc true) (λ c, c <| kc_tx := true |>) in
     do! take_ring (RingAlloc false) (λ c, c <| kc_rx := true |>) in
     for_each (seq 0 TB_CTL_RX_PKG_COUNT) take_packet)
    tb_ctl_free.

(** [tb_ctl_rx_submit(ctl->rx_packets[i])] *)
Definition submit_packet (p : option Z) : MC unit :=
  match p with Some p => tb_ctl_rx_submit p | None => fault end.

Definition tb_ctl_start : MC unit :=
  let! c := kget in
  if kc_stop_attempted c then ret tt else
  do! tb_ring_start true in
  do! tb_ring_start false in
  let! c := kget in
  do! for_each (kc_packets c) submit_packet in
  kset (λ c, c <| kc_running := true |>).

Definition tb_ctl_stop : MC unit :=
  let! c := kget in
  if kc_stop_attempted c then ret tt else
  do! kset (λ c, c <| kc_running := false |>) in
  do! tb_ring_stop false in
  do! tb_ring_stop true in
  kset (λ c, c <| kc_queue := [] |>).

(** ** The private stop and retirement *)

Definition rstop (f : qcom_usb4_nhi_stop → qcom_usb4_nhi_stop) : MC unit :=
  modify (λ s, s <| ks_stop := f (ks_stop s) |>).
Definition rretire (f : qcom_usb4_nhi_retire → qcom_usb4_nhi_retire) : MC unit :=
  modify (λ s, s <| ks_retire := f (ks_retire s) |>).

(** [qcom_usb4_nhi_stop_retained]: writes its part of the receipt, then
    answers. *)
Definition nhi_stop_retained : MC unit :=
  do! meanwhile NhiStopRetained in
  do! modify (λ s, s <| ks_stop := k_stop_receipt (ks_stop s) (ks_w s) |>) in
  let! r := kcall1 NhiStopRetained in ok_or_fail r.

(** [args]: no pointer is NULL; [ours]: [ctl->nhi == &qnhi->nhi]. *)
Definition tb_ctl_stop_x1_retained (args ours : bool) : MC unit :=
  if negb args then fail (-EINVAL) else
  let! s := get in
  let! c := kget in
  let t := ks_stop s in
  if negb (kc_tx c) || negb (kc_rx c) || negb ours || hs_attempted t || (hs_error t !=? 0) ||
     hs_finished t then fail (-EINVAL) else
  if kc_stop_attempted c then fail (-EALREADY) else
  do! kset (λ c, c <| kc_stop_attempted := true |>) in
  do! kcall0 CloseControl in
  do! rstop (λ t, t <| hs_attempted := true |> <| hs_stage := "close-control" |>) in
  let busy := negb (kc_running c && bool_decide (kc_queue c = [])) in
  do! kset (λ c, c <| kc_running := false |>) in
  do! rstop (λ t, t <| hs_ctl_closed := true |>) in
  recording
    (if busy then fail (-EBUSY) else
     do! rstop (λ t, t <| hs_stage := "drain-transmit" |>) in
     let! flushed := kwait (RingFlush 1000) in
     if flushed =? 0 then fail (-ETIMEDOUT) else
     do! kwait FlushWork in
     nhi_stop_retained)
    (λ r s, s <| ks_stop := (ks_stop s) <| hs_error := r |> |>).

(** Every receive packet is there, ours, with a buffer of its own. *)
Fixpoint packets_ok (heap : gmap Z ctl_pkg) (seen : list (Z * Z)) (l : list (option Z)) : bool :=
  match l with
  | [] => true
  | None :: _ => false
  | Some p :: l =>
      match heap !! p with
      | None => false
      | Some pkg =>
          pk_rx pkg && forallb (λ x, (x.1 !=? p) && (x.2 !=? pk_buffer pkg)) seen &&
          packets_ok heap ((p, pk_buffer pkg) :: seen) l
      end
  end.

Definition detach_stopped_call : MC unit :=
  do! meanwhile NhiDetachStopped in
  do! modify (λ s, s <| ks_retire := k_detach_receipt (ks_retire s) (ks_w s) |>) in
  let! r := kcall1 NhiDetachStopped in ok_or_fail r.

Definition retire_packet (i : nat) : MC unit :=
  let! c := kget in
  match kc_packets c !! i with
  | None => fault
  | Some p =>
      do! free_packet p in
      do! kset (λ c, c <| kc_packets := <[i := None]> (kc_packets c) |>) in
      rretire (λ r, r <| nr_packets_freed := nr_packets_freed r + 1 |>)
  end.

Definition release_dma : MC unit :=
  do! tb_ring_free false in
  do! kset (λ c, c <| kc_rx := false |>) in
  do! rretire (λ r, r <| nr_rings_freed := nr_rings_freed r + 1 |>) in
  do! tb_ring_free true in
  do! kset (λ c, c <| kc_tx := false |>) in
  do! rretire (λ r, r <| nr_rings_freed := nr_rings_freed r + 1 |>) in
  do! for_each (seq 0 TB_CTL_RX_PKG_COUNT) retire_packet in
  do! dma_pool_destroy in
  do! kset (λ c, c <| kc_pool := false |>) in
  do! rretire (λ r, r <| nr_pool_released := true |>) in
  do! kset (λ c, c <| kc_retired := true |>) in
  rretire (λ r, r <| nr_finished := true |>).

Definition retire_pristine (r : qcom_usb4_nhi_retire) : bool :=
  (nr_error r =? 0) && negb (nr_finished r) && negb (nr_irq_released r) &&
  negb (nr_rings_detached r) && (nr_rings_freed r =? 0) && (nr_packets_freed r =? 0) &&
  negb (nr_pool_released r).

Definition tb_ctl_retire_x1_stopped (args ours : bool) : MC unit :=
  if negb args then fail (-EINVAL) else
  let! s := get in
  let! c := kget in
  if kc_retire_attempted c || nr_attempted (ks_retire s) then fail (-EALREADY) else
  if negb (kc_stop_attempted c) || kc_running c || negb (bool_decide (kc_queue c = [])) ||
     negb ours || negb (kc_tx c) || negb (kc_rx c) || negb (kc_pool c) ||
     negb (retire_pristine (ks_retire s)) then fail (-EPERM) else
  if negb (packets_ok (ks_heap s) [] (kc_packets c)) then fail (-EPERM) else
  do! kset (λ c, c <| kc_retire_attempted := true |>) in
  do! rretire (λ r, r <| nr_attempted := true |>) in
  let! e := attempt detach_stopped_call in
  if e !=? 0 then do! rretire (λ r, r <| nr_error := e |>) in fail e else
  release_dma.

(** [ctl == NULL] is [None]; [ours]: [ctl->nhi == nhi]. *)
Definition tb_ctl_x1_retired (c : option tb_ctl) (ours : bool) : bool :=
  match c with Some c => ours && kc_retired c | None => false end.
Definition tb_ctl_x1_idle (c : option tb_ctl) : bool :=
  match c with
  | Some c => kc_running c && negb (kc_stop_attempted c) && bool_decide (kc_queue c = [])
  | None => false
  end.

(** ** Histories

    The owner allocates the channel, starts and stops it, and at the end frees
    it: after [tb_ctl_stop], as the header asks, or after a private stop. *)
Inductive kop :=
| KStart | KStop | KStopRetained (args ours : bool) | KRetire (args ours : bool)
| KRequest (r : Z) (data : list Z) (len : nat) (ty : pkg_type) (response : bool) | KArrival (a : karrival).

Definition run_kop (o : kop) : MC unit :=
  match o with
  | KStart => tb_ctl_start
  | KStop => tb_ctl_stop
  | KStopRetained a b => tb_ctl_stop_x1_retained a b
  | KRetire a b => tb_ctl_retire_x1_stopped a b
  | KRequest r d n ty b => tb_cfg_request r d n ty b
  | KArrival a => run_arrival a
  end.
Definition run_kops (l : list kop) : MC unit :=
  for_each l (λ o, do! attempt (run_kop o) in ret tt).

Definition channel_life (l : list kop) (free : bool) : MC unit :=
  do! tb_ctl_alloc in
  do! run_kops l in
  let! s := get in
  let! c := kget in
  if free && (kc_stop_attempted c || negb (ks_on s)) then tb_ctl_free else ret tt.

Definition chan_boot (w : W) : chan_state W :=
  Chan None ∅ ∅ [] false nhi_stop_zero nhi_retire_zero [] w.
End channel.
