(* ===== verification/CtlProof.v ===== *)
(** * The control channel: memory and closing

    Over any history of the channel and any rings that keep to their contract,
    packets, buffers, pool and rings are used and given back exactly while they
    are held, and a channel that was closed for retirement stays closed. *)

From S2P Require Import Prelude Wp Drom HostData Ctl.

#[local] Instance kcall_eq_dec : EqDecision kcall.
Proof. solve_decision. Defined.

(** ** Closing as a monitor of the calls *)

Inductive phase := Open | Closed | Detached.
#[export] Instance phase_eq_dec : EqDecision phase.
Proof. solve_decision. Defined.

Definition sends (c : kcall) : bool :=
  match c with
  | RingTx _ _ _ _ | RingStart _ | RingStop _ | Enqueued _ | PkgAlloc | PoolAlloc
  | CtlAlloc | PoolCreate | RingAlloc _ | CloseControl => true
  | _ => false
  end.
Definition releases (c : kcall) : bool :=
  match c with RingFree _ | PoolDestroy | CtlKfree => true | _ => false end.
Definition handles (c : kcall) : bool :=
  match c with
  | NhiStopRetained | NhiDetachStopped | RingFlush _ | FlushWork | RingRx _
  | EventCb _ _ | FindRequest _ _ | CopyReply | ScheduleWork => true
  | _ => false
  end.

(** Closed: nothing is sent, started, admitted or allocated, and rings and pool
    stay until the interrupt side has been detached; after that they are only
    given back. *)
Definition monitor1 (ph : phase) (e : kevent) : option phase :=
  match ph with
  | Open =>
      match e.1 with
      | CloseControl => Some Closed
      | NhiStopRetained | NhiDetachStopped => None
      | _ => Some Open
      end
  | Closed =>
      if sends e.1 || releases e.1 then None
      else match e.1 with
           | NhiDetachStopped => if e.2 =? 0 then Some Detached else Some Closed
           | _ => Some Closed
           end
  | Detached => if sends e.1 || handles e.1 then None else Some Detached
  end.
Definition monitor (L : list kevent) : option phase :=
  foldl (λ ph e, ph ≫= λ ph, monitor1 ph e) (Some Open) L.

Lemma monitor_snoc L e ph : monitor L = Some ph → monitor (L ++ [e]) = monitor1 ph e.
Proof. unfold monitor. intros E. by rewrite foldl_app, E. Qed.

(** ** Memory *)

(** The live packets are those of [l], each with a buffer of its own. *)
Definition Mem (l : list Z) (heap : gmap Z ctl_pkg) (bufs : gset Z) : Prop :=
  NoDup l ∧ (∀ p, p ∈ l ↔ is_Some (heap !! p)) ∧
  (∀ p q a b, heap !! p = Some a → heap !! q = Some b → pk_buffer a = pk_buffer b → p = q) ∧
  (∀ b, b ∈ bufs ↔ ∃ p a, heap !! p = Some a ∧ pk_buffer a = b).

#[export] Instance Mem_perm : Proper ((≡ₚ) ==> (=) ==> (=) ==> iff) Mem.
Proof.
  assert (∀ l l' h b, l ≡ₚ l' → Mem l h b → Mem l' h b) as G.
  { intros l l2 h b P (A&B&C&D). split_and!; [by rewrite <- P| |done..].
    intros p. by rewrite <- P. }
  intros l l2 P h ? <- b ? <-. split; intros Hm; [by apply (G l)|]. apply (G l2); [by symmetry|done].
Qed.

Lemma Mem_nil h b : Mem [] h b → h = ∅ ∧ b = ∅.
Proof.
  intros (_&A&_&B). assert (h = ∅) as ->.
  { apply map_empty. intros p. destruct (h !! p) eqn:E; [|done].
    assert (p ∈ []) as Hp by (apply A; by eexists). by apply elem_of_nil in Hp. }
  split; [done|]. apply leibniz_equiv. intros x. rewrite B. split; [|set_solver].
  intros (p&a&E&_). by rewrite lookup_empty in E.
Qed.

Lemma Mem_empty : Mem [] ∅ ∅.
Proof.
  split_and!; [constructor| | |].
  - intros p. rewrite lookup_empty. split; [intros Hp; by apply elem_of_nil in Hp|by intros []].
  - intros p q a b E. by rewrite lookup_empty in E.
  - intros x. split; [set_solver|]. intros (p&a&E&_). by rewrite lookup_empty in E.
Qed.

Lemma Mem_insert l h b p x rx :
  Mem l h b → p ∉ dom h → x ∉ b → Mem (p :: l) (<[p := CtlPkg x rx]> h) ({[x]} ∪ b).
Proof.
  intros (A&B&C&D) Hp Hx. apply not_elem_of_dom in Hp. split_and!.
  - constructor; [|done]. rewrite B, Hp. by intros [].
  - intros q. rewrite elem_of_cons, B, lookup_insert_is_Some'. naive_solver.
  - assert (∀ q a, h !! q = Some a → pk_buffer a ≠ x) as N.
    { intros q a E1 E2. apply Hx, D. eauto. }
    intros q r a c. rewrite !lookup_insert_Some. intros [[<- <-]|[? E1]] [[<- <-]|[? E2]]; [done|..]; cbn; intros Eq.
    + by destruct (N r c).
    + by destruct (N q a).
    + by eapply C.
  - intros y. rewrite elem_of_union, elem_of_singleton, D. setoid_rewrite lookup_insert_Some. split.
    + intros [->|(q&a&E1&E2)]; [by exists p, (CtlPkg x rx); split; [left|]|].
      exists q, a. split; [right; split; [|done]|done]. intros ->. congruence.
    + intros (q&a&[[<- <-]|[? E1]]&E2); [by left|right]. eauto.
Qed.

Lemma Mem_delete l h b p a :
  Mem (p :: l) h b → h !! p = Some a → Mem l (delete p h) (b ∖ {[pk_buffer a]}) ∧ pk_buffer a ∈ b.
Proof.
  intros (A&B&C&D) Hp. apply NoDup_cons in A as [Hl A]. split; [split_and!|].
  - done.
  - intros q. rewrite lookup_delete_is_Some, <- B, elem_of_cons. naive_solver.
  - intros q r x y. rewrite !lookup_delete_Some. intros [_ ?] [_ ?]. by apply C.
  - intros y. rewrite elem_of_difference, elem_of_singleton, D. setoid_rewrite lookup_delete_Some. split.
    + intros [(q&x&E1&E2) Hy]. exists q, x. split; [split; [|done]|done]. intros <-. congruence.
    + intros (q&x&[Hq E1]&E2). split; [eauto|]. intros ->. by apply Hq, (C _ _ _ _ Hp E1).
  - apply D. eauto.
Qed.

(** ** Walking through the code *)

Definition without (p : Z) (l : list Z) : list Z := filter (λ q, q ≠ p) l.
Lemma elem_of_without p l q : q ∈ without p l ↔ q ≠ p ∧ q ∈ l.
Proof. unfold without. by rewrite list_elem_of_filter. Qed.
Lemma without_app p l1 l2 : without p (l1 ++ l2) = without p l1 ++ without p l2.
Proof. apply filter_app. Qed.
Lemma without_fresh p l : p ∉ l → without p l = l.
Proof.
  induction l as [|q l IH]; [done|]. intros Hp. apply not_elem_of_cons in Hp as [Hq Hl].
  unfold without. rewrite filter_cons_True by done. f_equal. by apply IH.
Qed.
Lemma without_cons p l : p ∉ l → without p (p :: l) = l.
Proof. intros Hp. unfold without. rewrite filter_cons_False by auto. by apply without_fresh. Qed.
Lemma without_perm p l : NoDup l → p ∈ l → l ≡ₚ p :: without p l.
Proof.
  intros Hn Hp. apply NoDup_Permutation; [done| |].
  - constructor; [rewrite elem_of_without; naive_solver|by apply NoDup_filter].
  - intros q. rewrite elem_of_cons, elem_of_without. destruct (decide (q = p)); naive_solver.
Qed.
Lemma without_sub p l : without p l ⊆ l.
Proof. intros q. rewrite elem_of_without. naive_solver. Qed.

Section proof.
Context {W : Type} `{CtlLaws W}.
Implicit Types (s : chan_state W) (rxs l fl : list Z).

(** The channel, its receive packets [rxs], all live packets [l], the frames in
    flight and the receipt of the private stop. *)
Definition St (ph : phase) (c : option tb_ctl) (rxs l fl : list Z) (on : bool)
    (st : qcom_usb4_nhi_stop) s : Prop :=
  ks_ctl s = c ∧ Mem l (ks_heap s) (ks_bufs s) ∧
  (∀ p, p ∈ rxs → ∃ b, ks_heap s !! p = Some (CtlPkg b true)) ∧
  ks_flight s = fl ∧ ks_on s = on ∧ ks_stop s = st ∧ monitor (ks_log s) = Some ph.

Definition neutral (ph : phase) (c : kcall) : Prop := ∀ r, monitor1 ph (c, r) = Some ph.

Lemma wp_phase_call ph ph' c rxs l fl on st s call (Q : Z → chan_state W → Prop) E :
  St ph c rxs l fl on st s → (∀ r, monitor1 ph (call, r) = Some (ph' r)) →
  (∀ r w s', (k_answer call (RingView fl on st) w).1 = r → St (ph' r) c rxs l fl on st s' → Q r s') →
  wp (kcall1 call) Q E s.
Proof.
  intros (A&B&C&D&F&G&I) Hn HQ. unfold wp, kcall1, view. rewrite D, F, G.
  destruct (k_answer call _ (ks_w s)) as [r w] eqn:Ek.
  apply (HQ r (ks_w s)); [by rewrite Ek|]. split_and!; try done. cbn. by erewrite monitor_snoc.
Qed.
Lemma wp_kcall1 ph c rxs l fl on st s call (Q : Z → chan_state W → Prop) E :
  St ph c rxs l fl on st s → neutral ph call →
  (∀ r w s', (k_answer call (RingView fl on st) w).1 = r → St ph c rxs l fl on st s' → Q r s') →
  wp (kcall1 call) Q E s.
Proof. intros HS Hn HQ. eapply (wp_phase_call _ (λ _, ph)); [done..|]. exact HQ. Qed.
Lemma wp_kcall0 ph c rxs l fl on st s call (Q : unit → chan_state W → Prop) E :
  St ph c rxs l fl on st s → neutral ph call →
  (∀ s', St ph c rxs l fl on st s' → Q tt s') → wp (kcall0 call) Q E s.
Proof. intros HS Hn HQ. apply wp_bind. eapply wp_kcall1; [done..|]. intros. by apply wp_ret, HQ. Qed.

Lemma wp_kget ph c rxs l fl on st s (Q : tb_ctl → chan_state W → Prop) E :
  St ph (Some c) rxs l fl on st s → Q c s → wp kget Q E s.
Proof. intros (A&_) HQ. unfold wp, kget. by rewrite A. Qed.
Lemma wp_kset ph c rxs l fl on st s f (Q : unit → chan_state W → Prop) E :
  St ph (Some c) rxs l fl on st s →
  (∀ s', St ph (Some (f c)) rxs l fl on st s' → Q tt s') → wp (kset f) Q E s.
Proof.
  intros HS HQ. destruct HS as (A&B). unfold wp, kset. rewrite A. apply HQ. by split.
Qed.
Lemma wp_require b s (Q : unit → chan_state W → Prop) E :
  b = true → Q tt s → wp (require b) Q E s.
Proof. by intros -> HQ. Qed.

(** *** Packets *)

Lemma wp_pkg_alloc c rxs l fl on st (rx : bool) s (Q : option Z → chan_state W → Prop) E :
  St Open (Some c) rxs l fl on st s → kc_pool c = true →
  (∀ s', St Open (Some c) rxs l fl on st s' → Q None s') →
  (∀ (p : Z) s2, p ∉ l → St Open (Some c) (if rx then p :: rxs else rxs) (p :: l) fl on st s2 → Q (Some p) s2) →
  wp (tb_ctl_pkg_alloc rx) Q E s.
Proof.
  intros HS Hp Hnone Hsome. unfold tb_ctl_pkg_alloc. apply wp_bind. eapply wp_kget; [done|].
  apply wp_bind. eapply wp_kcall1; [done..|]. intros ok _ s1 _ HS1.
  destruct (ok =? 0); [by apply wp_ret, Hnone|]. apply wp_bind, wp_require; [done|].
  apply wp_bind, wp_get, wp_bind. eapply wp_kcall1; [done..|]. intros ok2 _ s2 _ HS2.
  destruct (ok2 =? 0).
  { apply wp_bind. eapply wp_kcall0; [done..|]. intros. by apply wp_ret, Hnone. }
  apply wp_bind, wp_get, wp_bind, wp_modify, wp_ret.
  destruct HS1 as (_&M1&_), HS2 as (A&M2&C&D).
  assert (dom (ks_heap s1) = dom (ks_heap s2)) as Ed.
  { apply set_eq. intros q. rewrite !elem_of_dom. destruct M1 as (_&B1&_), M2 as (_&B2&_). by rewrite <- B1, B2. }
  rewrite Ed. assert (fresh (dom (ks_heap s2)) ∉ l) as Hl.
  { destruct M2 as (_&B2&_). rewrite B2, <- elem_of_dom. apply is_fresh. }
  apply Hsome; [done|]. split_and!; [done| |..|apply D|apply D|apply D|apply D].
  - apply Mem_insert; [done|apply is_fresh..].
  - intros q Hq. cbn. destruct (decide (q = fresh (dom (ks_heap s2)))) as [->|Hne].
    + destruct rx; [rewrite lookup_insert_eq; eauto|]. destruct (C _ Hq) as [b E1].
      destruct (is_fresh (dom (ks_heap s2))). by apply elem_of_dom_2 in E1.
    + rewrite lookup_insert_ne by done. apply C. destruct rx; [set_solver|done].
Qed.

Lemma wp_pkg_free ph c rxs l fl on st p s (Q : unit → chan_state W → Prop) E :
  St ph (Some c) rxs l fl on st s → p ∈ l → kc_pool c = true →
  (∀ s', St ph (Some c) (without p rxs) (without p l) fl on st s' → Q tt s') →
  wp (tb_ctl_pkg_free p) Q E s.
Proof.
  intros HS Hp Hpool HQ. unfold tb_ctl_pkg_free. apply wp_bind, wp_get, wp_bind. eapply wp_kget; [done|].
  pose proof HS as (_&M1&_). pose proof M1 as (_&B1&_). destruct (ks_heap s !! p) as [a|] eqn:Ea;
    [|apply B1 in Hp as [? ?]; congruence].
  rewrite (without_perm p l) in M1 by (done || apply M1).
  destruct (Mem_delete _ _ _ _ _ M1 Ea) as [M2 Hb]. apply wp_bind, wp_require.
  { rewrite Hpool. by apply bool_decide_eq_true. }
  apply wp_bind. unfold kcall0 at 1. apply wp_bind. unfold wp at 1, kcall1 at 1.
  destruct (k_answer _ _ _) as [r w]. apply wp_ret, wp_bind. unfold kcall0. apply wp_bind. unfold wp at 1, kcall1.
  destruct (k_answer _ _ _) as [r2 w2]. apply wp_ret, wp_modify. apply HQ.
  destruct HS as (A&_&C&D&F&G&I). split_and!; try done.
  - intros q. rewrite elem_of_without. intros [Hq Hin]. cbn. rewrite lookup_delete_ne by done. by apply C.
  - cbn. rewrite <- app_assoc. unfold monitor in *. rewrite foldl_app, I. by destruct ph.
Qed.

Lemma wp_tx_callback ph c rxs l fl on st p s (Q : unit → chan_state W → Prop) E :
  St ph (Some c) rxs l fl on st s → p ∈ l → kc_pool c = true →
  (∀ s', St ph (Some c) (without p rxs) (without p l) (without p fl) on st s' → Q tt s') →
  wp (tb_ctl_tx_callback p) Q E s.
Proof.
  intros HS Hp Hpool HQ. apply wp_bind. eapply wp_pkg_free; [done..|].
  intros s' (A&B&C&D&F). apply wp_modify, HQ. split_and!; try done; [cbn; by rewrite D|apply F..].
Qed.

Lemma St_perm ph c rxs l l2 fl on st s :
  St ph c rxs l fl on st s → l ≡ₚ l2 → St ph c rxs l2 fl on st s.
Proof. intros (A&B&C) P. split_and!; [done|by rewrite <- P|apply C..]. Qed.

(** *** A channel with all its memory *)

Definition phase_of (c : tb_ctl) : phase := if kc_stop_attempted c then Closed else Open.

Definition equipped (c : tb_ctl) (ps : list Z) : Prop :=
  kc_tx c = true ∧ kc_rx c = true ∧ kc_pool c = true ∧ kc_packets c = Some <$> ps ∧
  length ps = TB_CTL_RX_PKG_COUNT ∧ kc_retired c = false ∧
  (kc_stop_attempted c = true → kc_running c = false).

Lemma equipped_halt c ps : equipped c ps → equipped (c <| kc_running := false |>) ps.
Proof. by intros (?&?&?&?&?&?&?). Qed.
Lemma equipped_close c ps :
  equipped c ps → equipped (c <| kc_stop_attempted := true |> <| kc_running := false |>) ps.
Proof. by intros (?&?&?&?&?&?&?). Qed.

Definition Live (c : tb_ctl) ps (on : bool) st fl s : Prop :=
  St (phase_of c) (Some c) ps (ps ++ fl) fl on st s ∧ equipped c ps ∧
  (on = false → fl = []) ∧ (hs_finished st = true → kc_stop_attempted c = true ∧ fl = []).

(** What other threads leave: requests come and go; once the channel is closed,
    frames only leave. *)
Definition After (c : tb_ctl) ps on st fl s : Prop :=
  ∃ q fl2, Live (c <| kc_queue := q |>) ps on st fl2 s ∧ (kc_stop_attempted c = true → fl2 ⊆ fl).

Lemma after_here c ps on st fl s : Live c ps on st fl s → After c ps on st fl s.
Proof. intros HL. exists (kc_queue c), fl. by destruct c. Qed.
Lemma after_trans c q ps on st fl fl2 s :
  (kc_stop_attempted c = true → fl2 ⊆ fl) → After (c <| kc_queue := q |>) ps on st fl2 s →
  After c ps on st fl s.
Proof. intros Hf (q2&fl3&HL&Hs). exists q2, fl3. split; [done|]. cbn in Hs. intros Ht. etrans; auto. Qed.

Lemma live_nodup c ps on st fl s : Live c ps on st fl s → NoDup (ps ++ fl).
Proof. by intros ((_&(A&_)&_)&_). Qed.

Lemma live_done c ps on st fl p s (Q : unit → chan_state W → Prop) E :
  Live c ps on st fl s → p ∈ fl →
  (∀ s', Live c ps on st (without p fl) s' → Q tt s') → wp (tb_ctl_tx_callback p) Q E s.
Proof.
  intros HL Hp HQ. pose proof (live_nodup _ _ _ _ _ _ HL) as (N1&N2&N3)%NoDup_app.
  destruct HL as (HS&Heq&Hon&Hfin). eapply wp_tx_callback; [done|set_solver|apply Heq|].
  intros s' HS2. apply HQ. rewrite without_app, (without_fresh p ps) in HS2 by (intros ?; by apply (N2 p)).
  split_and!; try done; [intros Ho; by rewrite Hon|].
  intros Hf. destruct (Hfin Hf) as [? ->]. done.
Qed.

Lemma live_tx c ps on st fl data len ty s (Q : Z → chan_state W → Prop) E :
  Live c ps on st fl s → (∀ r s', After c ps on st fl s' → Q r s') →
  wp (attempt (tb_ctl_tx data len ty)) Q E s.
Proof.
  intros HL HQ. apply wp_attempt. unfold tb_ctl_tx. assert (After c ps on st fl s) as HA by by apply after_here.
  destruct (_ !=? 0); [by apply wp_fail, HQ|]. destruct (_ <? _); [by apply wp_fail, HQ|].
  destruct HL as (HS&Heq&Hon&Hfin). apply wp_bind. eapply wp_kget; [done|].
  unfold phase_of in HS. destruct (kc_stop_attempted c) eqn:Es; [by apply wp_fail, HQ|].
  assert (∀ s', St Open (Some c) ps (ps ++ fl) fl on st s' → After c ps on st fl s') as Hback.
  { intros s' HS'. apply after_here. split_and!; try done; unfold phase_of; by rewrite Es. }
  apply wp_bind. eapply wp_pkg_alloc; [done|apply Heq|intros s' HS'; by apply wp_fail, HQ, Hback|].
  intros p s1 Hp HS1. apply wp_bind, wp_require; [apply Heq|]. apply wp_bind.
  eapply wp_kcall1; [done..|]. intros r w s2 Er HS2. destruct (Z.eqb_spec r 0) as [->|Hr].
  - apply wp_modify, HQ. exists (kc_queue c), (p :: fl). split; [|congruence].
    replace (c <| kc_queue := _ |>) with c by by destruct c. split_and!; try done.
    + unfold phase_of. rewrite Es. destruct HS2 as (A&B&C&D&F). split_and!; try done; [|cbn; by rewrite D|apply F..].
      by rewrite <- Permutation_middle.
    + intros ->. by destruct (ring_off p (Z.of_nat len + 4) ty
        (be_words (take (len / 4) data) ++ be32 (tb_crc (be_words (take (len / 4) data)))) (RingView fl false st) w).
    + intros Hf. destruct (Hfin Hf). congruence.
  - apply wp_bind. eapply wp_pkg_free; [done|set_solver|apply Heq|]. intros s3 HS3.
    apply wp_fail, HQ, Hback. rewrite without_cons, without_fresh in HS3; [done|set_solver..].
Qed.

(** *** Reception *)

Lemma live_call c ps on st fl call s (Q : Z → chan_state W → Prop) E :
  Live c ps on st fl s → neutral (phase_of c) call →
  (∀ r w s', (k_answer call (RingView fl on st) w).1 = r → Live c ps on st fl s' → Q r s') →
  wp (kcall1 call) Q E s.
Proof. intros (HS&HL) Hn HQ. eapply wp_kcall1; [done..|]. intros r w s' Er HS'. by eapply HQ. Qed.
Lemma live_call0 c ps on st fl call s (Q : unit → chan_state W → Prop) E :
  Live c ps on st fl s → neutral (phase_of c) call →
  (∀ s', Live c ps on st fl s' → Q tt s') → wp (kcall0 call) Q E s.
Proof. intros HL Hn HQ. apply wp_bind. eapply live_call; [done..|]. intros. by apply wp_ret, HQ. Qed.
Lemma live_get c ps on st fl s (Q : tb_ctl → chan_state W → Prop) E :
  Live c ps on st fl s → Q c s → wp kget Q E s.
Proof. intros (HS&_). by eapply wp_kget. Qed.

Lemma live_reply c ps on st fl ty ws s (Q : unit → chan_state W → Prop) E :
  Live c ps on st fl s → (∀ s', Live c ps on st fl s' → Q tt s') → wp (rx_reply ty ws) Q E s.
Proof.
  intros HL HQ. apply wp_bind. eapply live_get; [done|]. case_bool_decide; [by apply wp_ret, HQ|].
  apply wp_bind. eapply live_call; [done|by unfold phase_of; destruct (kc_stop_attempted c)|].
  intros r _ s1 _ HL1. destruct (r =? 0); [by apply wp_ret, HQ|].
  apply wp_bind. eapply live_call; [done|by unfold phase_of; destruct (kc_stop_attempted c)|].
  intros r2 _ s2 _ HL2. destruct (r2 =? 0); [by apply wp_ret, HQ|].
  by eapply live_call0; [done|unfold phase_of; destruct (kc_stop_attempted c)|].
Qed.

Lemma live_checked c ps on st fl ty ws s (Q : unit → chan_state W → Prop) E :
  Live c ps on st fl s → (∀ s', Live c ps on st fl s' → Q tt s') → wp (rx_checked ty ws) Q E s.
Proof.
  intros HL HQ. unfold rx_checked. destruct (tb_async_error ty ws).
  { by eapply live_call0; [done|unfold phase_of; destruct (kc_stop_attempted c)|]. }
  destruct (notifies ty); [|by eapply live_reply].
  apply wp_bind. eapply live_call; [done|by unfold phase_of; destruct (kc_stop_attempted c)|].
  intros r _ s1 _ HL1. destruct (r !=? 0); [by apply wp_ret, HQ|by eapply live_reply].
Qed.

Lemma live_submit c ps on st fl p s (Q : unit → chan_state W → Prop) E :
  Live c ps on st fl s → (∀ s', Live c ps on st fl s' → Q tt s') → wp (tb_ctl_rx_submit p) Q E s.
Proof.
  intros HL HQ. apply wp_bind. eapply live_get; [done|]. apply wp_bind, wp_require; [apply HL|].
  by eapply live_call0; [done|unfold phase_of; destruct (kc_stop_attempted c)|].
Qed.

Lemma live_rx c ps on st fl p canceled f s (Q : unit → chan_state W → Prop) E :
  Live c ps on st fl s → deliverable f = true → (∀ s', Live c ps on st fl s' → Q tt s') →
  wp (tb_ctl_rx_callback p canceled f) Q E s.
Proof.
  intros HL Hd HQ. unfold tb_ctl_rx_callback. destruct canceled; [by apply wp_ret, HQ|].
  unfold deliverable in Hd. apply andb_prop in Hd as [Hd Hb%bool_decide_eq_true].
  apply andb_prop in Hd as [Hs%Z.leb_le Hn%Z.eqb_eq]. unfold TB_FRAME_SIZE in *.
  destruct (Z.ltb_spec (fr_size f) 4); cbn [orb]; [by eapply live_submit|].
  destruct (fr_size f mod 4 !=? 0); [by eapply live_submit|].
  apply wp_bind, wp_require; [apply Z.leb_le; lia|]. apply wp_bind.
  assert (∀ good s, Live c ps on st fl s →
    wp (do! (if good : bool then rx_checked (fr_eof f) (words_of (take (Z.to_nat (fr_size f - 4)) (fr_bytes f)))
             else ret tt) in tb_ctl_rx_submit p) Q E s) as Hrest.
  { intros [] s1 HL1; apply wp_bind; [eapply live_checked; [done|]|apply wp_ret]; intros; by eapply live_submit. }
  destruct (checksummed (fr_eof f)); [|by apply wp_ret, (Hrest true)].
  apply wp_bind. destruct (get_be32_ok (fr_bytes f) (fr_size f - 4)) as (v&Ev&_); [lia..|].
  apply wp_lift; [by rewrite Ev| |]; intros ?; rewrite Ev; [intros [= <-]|done].
  by apply wp_ret, (Hrest (v =? _)).
Qed.

Lemma live_enqueue c ps on st fl r s (Q : Z → chan_state W → Prop) E :
  Live c ps on st fl s →
  (∀ e q s', Live (c <| kc_queue := q |>) ps on st fl s' → Q e s') →
  wp (attempt (tb_cfg_request_enqueue r)) Q E s.
Proof.
  intros HL HQ. apply wp_attempt, wp_bind. eapply live_get; [done|].
  destruct (kc_running c) eqn:Er; cbn [negb];
    [|apply wp_fail, (HQ _ (kc_queue c)); by replace (c <| kc_queue := _ |>) with c by by destruct c].
  destruct HL as (HS&Heq&HL). assert (kc_stop_attempted c = false) as Es.
  { destruct (kc_stop_attempted c) eqn:E1; [|done]. destruct Heq as (_&_&_&_&_&_&Hr). rewrite Hr in Er; done. }
  apply wp_bind. eapply wp_kset; [done|]. intros s1 HS1.
  eapply (live_call0 (c <| kc_queue := kc_queue c ++ [r] |>)); [by split|by unfold phase_of; cbn; rewrite Es|].
  intros s2 HL2. by eapply HQ.
Qed.

Lemma live_dequeue c ps on st fl r s (Q : unit → chan_state W → Prop) E :
  Live c ps on st fl s →
  (∀ q s', Live (c <| kc_queue := q |>) ps on st fl s' → Q tt s') → wp (tb_cfg_request_dequeue r) Q E s.
Proof. intros (HS&HL) HQ. eapply wp_kset; [done|]. intros s1 HS1. eapply HQ. by split. Qed.

(** *** Other threads *)

Lemma live_arrival a c ps on st fl s (Q : unit → chan_state W → Prop) E :
  Live c ps on st fl s → (∀ s', After c ps on st fl s' → Q tt s') → wp (run_arrival a) Q E s.
Proof.
  intros HL HQ. destruct a as [data len ty|p|i canceled f|r|r]; cbn [run_arrival].
  - apply wp_bind. eapply live_tx; [done|]. intros. by apply wp_ret, HQ.
  - apply wp_bind, wp_get. pose proof HL as ((_&_&_&Hf&_)&_). rewrite Hf.
    case_bool_decide; [|by apply wp_ret, HQ, after_here]. eapply live_done; [done..|]. intros s1 HL1.
    apply HQ. exists (kc_queue c), (without p fl). split; [by destruct c|]. intros _. apply without_sub.
  - apply wp_bind. eapply live_get; [done|]. destruct (kc_rx c), (kc_packets c !! i) as [[p|]|];
      try by apply wp_ret, HQ, after_here.
    destruct (deliverable f) eqn:Ed; [|by apply wp_ret, HQ, after_here].
    eapply live_rx; [done..|]. intros. by apply HQ, after_here.
  - apply wp_bind. eapply live_enqueue; [done|]. intros e q s1 HL1. apply wp_ret, HQ. by exists q, fl.
  - eapply live_dequeue; [done|]. intros q s1 HL1. apply HQ. by exists q, fl.
Qed.

Lemma live_meanwhile call c ps on st fl s (Q : unit → chan_state W → Prop) E :
  Live c ps on st fl s → (∀ s', After c ps on st fl s' → Q tt s') → wp (meanwhile call) Q E s.
Proof.
  intros HL HQ. apply wp_bind. unfold wp at 1. destruct (k_during _ _ _) as [la w].
  eapply wp_mono; [apply (wp_for_each _ _ (After c ps on st fl) E)|by intros [] s1 HA; apply HQ|done].
  - by apply after_here.
  - intros a s1 _ (q&fl2&HL2&Hs). eapply live_arrival; [done|]. intros s2. by apply after_trans.
Qed.

Lemma live_wait call c ps on st fl s (Q : Z → chan_state W → Prop) E :
  Live c ps on st fl s → neutral (phase_of c) call →
  (∀ q fl2 r w s', (k_answer call (RingView fl2 on st) w).1 = r →
     (kc_stop_attempted c = true → fl2 ⊆ fl) → Live (c <| kc_queue := q |>) ps on st fl2 s' → Q r s') →
  wp (kwait call) Q E s.
Proof.
  intros HL Hn HQ. apply wp_bind. eapply live_meanwhile; [done|]. intros s1 (q&fl2&HL2&Hs).
  eapply live_call; [done..|]. intros r w s2 Er HL3. by eapply HQ.
Qed.

(** *** Starting and stopping *)

(** Retired: an empty shell. *)
Definition Shell s : Prop :=
  ∃ c st, St Detached (Some c) [] [] [] (ks_on s) st s ∧
    kc_tx c = false ∧ kc_rx c = false ∧ kc_pool c = false ∧
    kc_packets c = replicate TB_CTL_RX_PKG_COUNT None ∧ kc_running c = false ∧
    kc_stop_attempted c = true ∧ kc_retire_attempted c = true ∧ kc_retired c = true.
Definition Alive s : Prop := ∃ c ps on st fl, Live c ps on st fl s.
Definition Held s : Prop := Alive s ∨ Shell s.

Lemma alive_held c ps on st fl s : Live c ps on st fl s → Held s.
Proof. left. by exists c, ps, on, st, fl. Qed.
Hint Resolve alive_held : core.

Lemma live_ring_start tx c ps on st fl s (Q : unit → chan_state W → Prop) E :
  Live c ps on st fl s → kc_stop_attempted c = false →
  (∀ q fl2 s', Live (c <| kc_queue := q |>) ps (tx || on) st fl2 s' → Q tt s') →
  wp (tb_ring_start tx) Q E s.
Proof.
  intros HL Hs HQ. apply wp_bind. eapply live_wait; [done|by unfold phase_of; rewrite Hs|].
  intros q fl2 _ _ s1 _ _ HL1. destruct tx; [|by eapply wp_ret, HQ].
  apply wp_modify. eapply HQ. destruct HL1 as ((A&B&C&D&F&G&I)&Heq&_&Hf). by split_and!.
Qed.

Lemma wp_cancel_all ph c ps fl on st s (Q : unit → chan_state W → Prop) E :
  St ph (Some c) ps (ps ++ fl) fl on st s → kc_pool c = true →
  (∀ s', St ph (Some c) ps ps [] on st s' → Q tt s') → wp (for_each fl tb_ctl_tx_callback) Q E s.
Proof.
  revert s. induction fl as [|p fl IH]; intros s HS Hp HQ.
  { apply wp_ret, HQ. by rewrite app_nil_r in HS. }
  assert (p ∉ ps ∧ p ∉ fl) as [N1 N2].
  { destruct HS as (_&(N&_)&_). apply NoDup_app in N as (_&N&Nf). apply NoDup_cons in Nf as [Nf _].
    split; [|done]. intros ?. by apply (N p); [|left]. }
  apply wp_bind. eapply wp_tx_callback; [done|set_solver|done|]. intros s1 HS1.
  rewrite without_app, without_cons, without_fresh in HS1 by done. by apply IH.
Qed.

Lemma live_ring_stop tx c ps on st fl s (Q : unit → chan_state W → Prop) E :
  Live c ps on st fl s → kc_stop_attempted c = false →
  (∀ q fl2 s', Live (c <| kc_queue := q |>) ps (negb tx && on) st fl2 s' → Q tt s') →
  wp (tb_ring_stop tx) Q E s.
Proof.
  intros HL Hs HQ. apply wp_bind. eapply live_wait; [done|by unfold phase_of; rewrite Hs|].
  intros q fl2 _ _ s1 _ _ HL1. destruct tx; cbn [negb]; [|by eapply wp_ret, HQ].
  apply wp_bind, wp_modify, wp_bind, wp_get. destruct HL1 as (HS&Heq&_&Hf).
  assert (St (phase_of c) (Some (c <| kc_queue := q |>)) ps (ps ++ fl2) fl2 false st (s1 <| ks_on := false |>)) as HS1.
  { destruct HS as (A&B&C&D&F&G&I). by split_and!. }
  pose proof HS1 as (_&_&_&Efl&_). rewrite Efl.
  replace (filter _ fl2) with fl2.
  2: { symmetry. clear -Efl H0. set (v := view _). assert (∀ p, p ∈ fl2 → p ∈ k_canceled v (ks_w (s1 <| ks_on := false |>))) as A.
       { intros p Hp. apply ring_cancels. change (p ∈ ks_flight (s1 <| ks_on := false |>)). by rewrite Efl. }
       revert A. generalize (k_canceled v (ks_w (s1 <| ks_on := false |>))). clear. intros l Hl.
       induction fl2 as [|p fl IH]; [done|]. rewrite filter_cons_True by set_solver. f_equal. apply IH. set_solver. }
  eapply wp_cancel_all; [done|apply Heq|]. intros s2 HS2. eapply (HQ q []). split_and!; try done.
  - by rewrite app_nil_r.
  - intros Hx. by destruct (Hf Hx).
Qed.

Lemma live_start c ps on st fl s : Live c ps on st fl s → wp tb_ctl_start (λ _, Held) (λ _, Held) s.
Proof.
  intros HL. apply wp_bind. eapply live_get; [done|].
  destruct (kc_stop_attempted c) eqn:Es; [by eapply wp_ret, alive_held|].
  apply wp_bind. eapply live_ring_start; [done..|]. intros q fl2 s1 HL1.
  apply wp_bind. eapply live_ring_start; [done..|]. intros q2 fl3 s2 HL2.
  apply wp_bind. eapply live_get; [done|]. set (c2 := c <| kc_queue := q |> <| kc_queue := q2 |>) in *.
  set (on2 := false || (true || on)) in *. apply wp_bind. pose proof HL2 as (_&(_&_&_&Ep&_)&_). rewrite Ep.
  eapply wp_mono; [apply (wp_for_each _ _ (Live c2 ps on2 st fl3) (λ _, Held)); [done|]| |done].
  - intros p s3 Hp HL3. apply list_elem_of_fmap in Hp as (x&->&_). by eapply live_submit.
  - intros [] s3 (HS&(A&B&C&D&F&G&_)&HL3). eapply wp_kset; [done|]. intros s4 HS4. eapply alive_held.
    split; [exact HS4|]. split; [split_and!; try done; intros Hx; cbn in Hx; congruence|done].
Qed.

Lemma live_stop c ps on st fl s : Live c ps on st fl s → wp tb_ctl_stop (λ _, Held) (λ _, Held) s.
Proof.
  intros HL. apply wp_bind. eapply live_get; [done|].
  destruct (kc_stop_attempted c) eqn:Es; [by eapply wp_ret, alive_held|].
  destruct HL as (HS&Heq&HL). apply wp_bind. eapply wp_kset; [done|]. intros s1 HS1.
  apply wp_bind. eapply (live_ring_stop _ (c <| kc_running := false |>)); [split; [exact HS1|split; [by apply equipped_halt|exact HL]]|done|].
  intros q fl2 s2 HL2. apply wp_bind. eapply live_ring_stop; [done..|]. intros q2 fl3 s3 (HS3&Heq3&HL3).
  eapply wp_kset; [done|]. intros s4 HS4. eapply alive_held. split; [exact HS4|]. split; [exact Heq3|exact HL3].
Qed.

(** *** The private stop *)

Lemma live_receipt c ps on st st2 fl s :
  Live c ps on st fl s → (hs_finished st2 = true → kc_stop_attempted c = true ∧ fl = []) →
  Live c ps on st2 fl (s <| ks_stop := st2 |>).
Proof.
  intros ((A&B&C&D&F&G&I)&Heq&Hon&_) Hfin. by split_and!.
Qed.
Lemma live_rstop c ps on st fl s (Q : unit → chan_state W → Prop) E f :
  Live c ps on st fl s → hs_finished (f st) = hs_finished st →
  (∀ s', Live c ps on (f st) fl s' → Q tt s') → wp (rstop f) Q E s.
Proof.
  intros HL Hf HQ. pose proof HL as ((_&_&_&_&_&G&_)&_&_&Hfin). apply wp_modify. rewrite G.
  apply HQ. eapply live_receipt; [done|]. by rewrite Hf.
Qed.

Lemma live_nhi_stop c ps on st s (Q : unit → chan_state W → Prop) (E : Z → chan_state W → Prop) :
  Live c ps on st [] s → kc_stop_attempted c = true →
  (∀ s', Alive s' → Q tt s') → (∀ e s', Alive s' → E e s') → wp nhi_stop_retained Q E s.
Proof.
  intros HL Hs HQ HE. apply wp_bind. eapply live_meanwhile; [done|]. intros s1 (q&fl2&HL1&Hsub).
  assert (fl2 = []) as -> by by apply list_nil_subseteq, Hsub.
  apply wp_bind, wp_modify, wp_bind. eapply live_call.
  - eapply live_receipt; [done|]. done.
  - by unfold phase_of; cbn; rewrite Hs.
  - intros r _ s2 _ HL2. apply wp_ok_or_fail; intros; [apply HQ|apply HE]; by eexists _, _, _, _, _.
Qed.

(** Recording the result keeps the channel whole. *)
Lemma alive_error s e : Alive s → Held (s <| ks_stop := (ks_stop s) <| hs_error := e |> |>).
Proof.
  intros (c&ps&on&st&fl&HL). left. exists c, ps, on, (st <| hs_error := e |>), fl.
  pose proof HL as ((_&_&_&_&_&G&_)&_&_&Hfin). rewrite G. by eapply live_receipt.
Qed.

Lemma live_stop_retained c ps on st fl args ours s :
  Live c ps on st fl s → wp (tb_ctl_stop_x1_retained args ours) (λ _, Held) (λ _, Held) s.
Proof.
  intros HL. unfold tb_ctl_stop_x1_retained. destruct (negb args); [by eapply wp_fail, alive_held|].
  apply wp_bind, wp_get, wp_bind. eapply live_get; [done|].
  destruct (_ || _); [by eapply wp_fail, alive_held|].
  destruct (kc_stop_attempted c) eqn:Es; [by eapply wp_fail, alive_held|].
  destruct HL as (HS&Heq&Hon&Hfin). unfold phase_of in HS. rewrite Es in HS. apply wp_bind. eapply wp_kset; [done|]. intros s1 HS1.
  apply wp_bind. unfold kcall0. apply wp_bind. eapply (wp_phase_call _ (λ _, Closed)); [done..|].
  intros _ _ s2 _ HS2. apply wp_ret, wp_bind. unfold rstop at 1. apply wp_modify.
  set (st2 := st <| hs_attempted := true |> <| hs_stage := "close-control" |>).
  assert (St Closed (Some (c <| kc_stop_attempted := true |>)) ps (ps ++ fl) fl on st2
    (s2 <| ks_stop := (ks_stop s2) <| hs_attempted := true |> <| hs_stage := "close-control" |> |>)) as HS3.
  { destruct HS2 as (A&B&C&D&F&G&I). rewrite G. by split_and!. }
  apply wp_bind. eapply wp_kset; [done|]. intros s3 HS4.
  assert (Live (c <| kc_stop_attempted := true |> <| kc_running := false |>) ps on st2 fl s3) as HL.
  { split; [done|]. split; [by apply equipped_close|]. split; [done|]. intros Hf. destruct (Hfin Hf). congruence. }
  apply wp_bind. eapply live_rstop; [done..|]. intros s4 HL4. apply wp_recording.
  destruct (negb _); [apply wp_fail, alive_error; by eexists _, _, _, _, _|].
  apply wp_bind. eapply live_rstop; [done..|]. intros s5 HL5.
  apply wp_bind. eapply live_wait; [done..|]. intros q fl2 r w s6 Er _ HL6.
  destruct (Z.eqb_spec r 0) as [->|Hr]; [apply wp_fail, alive_error; by eexists _, _, _, _, _|].
  assert (fl2 = []) as ->.
  { destruct fl2 as [|p fl2]; [done|]. destruct Hr. rewrite <- Er. by apply ring_drained. }
  apply wp_bind. eapply live_wait; [done..|]. intros q2 fl3 _ _ s7 _ Hsub HL7.
  assert (fl3 = []) as -> by by apply list_nil_subseteq, Hsub.
  eapply live_nhi_stop; [done..| |]; intros; by apply alive_error.
Qed.

(** *** Giving the memory back *)

Lemma replicate_mid {A} k (x y : A) (l : list A) : <[k := x]> (replicate k x ++ y :: l) = replicate (S k) x ++ l.
Proof.
  rewrite insert_app_r_alt by (rewrite length_replicate; lia).
  rewrite length_replicate, Nat.sub_diag. cbn [insert list_insert].
  rewrite replicate_S_end, <- app_assoc. done.
Qed.

Lemma wp_rretire ph c rxs l fl on st f s (Q : unit → chan_state W → Prop) E :
  St ph c rxs l fl on st s → (∀ s', St ph c rxs l fl on st s' → Q tt s') → wp (rretire f) Q E s.
Proof. intros (A&B&C&D&F&G&I) HQ. apply wp_modify, HQ. by split_and!. Qed.

Lemma wp_retire_packets rest : ∀ k c on st s (Q : unit → chan_state W → Prop) E,
  St Detached (Some c) rest rest [] on st s → kc_pool c = true →
  kc_packets c = replicate k None ++ (Some <$> rest) →
  (∀ s', St Detached (Some (c <| kc_packets := replicate (k + length rest) None |>)) [] [] [] on st s' →
    Q tt s') →
  wp (for_each (seq k (length rest)) retire_packet) Q E s.
Proof.
  induction rest as [|p rest IH]; intros k c on st s Q E HS Hp Epk HQ.
  { apply wp_ret, HQ. rewrite Nat.add_0_r. cbn in Epk. rewrite app_nil_r in Epk.
    replace (c <| kc_packets := _ |>) with c; [done|]. rewrite <- Epk. by destruct c. }
  assert (p ∉ rest) as Np by (destruct HS as (_&(N&_)&_); by apply NoDup_cons in N as [? _]).
  cbn [length seq for_each]. apply wp_bind. unfold retire_packet at 1. apply wp_bind. eapply wp_kget; [done|].
  rewrite Epk, lookup_app_r, length_replicate, Nat.sub_diag by (rewrite length_replicate; lia).
  cbn [lookup list_lookup fmap list_fmap].
  apply wp_bind. cbn [free_packet]. eapply wp_pkg_free; [done|set_solver|done|]. intros s1 HS1.
  rewrite without_cons in HS1 by done. apply wp_bind. eapply wp_kset; [done|]. intros s2 HS2.
  eapply wp_rretire; [done|]. intros s3 HS3. eapply IH; [exact HS3|done| |].
  - cbn. rewrite Epk. cbn. apply replicate_mid.
  - intros s4 HS4. apply HQ. cbn in HS4. cbn [length]. by rewrite Nat.add_succ_r.
Qed.

Lemma wp_ring_free ph c rxs l on st tx s (Q : unit → chan_state W → Prop) E :
  St ph c rxs l [] on st s → neutral ph (RingFree tx) →
  (∀ s', St ph c rxs l [] on st s' → Q tt s') → wp (tb_ring_free tx) Q E s.
Proof.
  intros HS Hn HQ. apply wp_bind, wp_get, wp_bind, wp_require.
  { destruct HS as (_&_&_&->&_). by destruct tx. }
  by eapply wp_kcall0.
Qed.
Lemma wp_pool_destroy ph c on st s (Q : unit → chan_state W → Prop) E :
  St ph c [] [] [] on st s → neutral ph PoolDestroy →
  (∀ s', St ph c [] [] [] on st s' → Q tt s') → wp dma_pool_destroy Q E s.
Proof.
  intros HS Hn HQ. apply wp_bind, wp_get, wp_bind, wp_require; [|by eapply wp_kcall0].
  apply bool_decide_eq_true. destruct HS as (_&HM&_). by apply Mem_nil in HM as [_ ->].
Qed.

Lemma wp_release_dma c ps on st s (Q : unit → chan_state W → Prop) E :
  St Detached (Some c) ps ps [] on st s → equipped c ps →
  kc_stop_attempted c = true → kc_retire_attempted c = true →
  (∀ s', Shell s' → Q tt s') → wp release_dma Q E s.
Proof.
  intros HS (A&B&C&Epk&Hl&F&G) Hst Hre HQ. unfold release_dma.
  apply wp_bind. eapply wp_ring_free; [done..|]. intros s1 HS1.
  apply wp_bind. eapply wp_kset; [done|]. intros s2 HS2. apply wp_bind. eapply wp_rretire; [done|]. intros s3 HS3.
  apply wp_bind. eapply wp_ring_free; [done..|]. intros s4 HS4.
  apply wp_bind. eapply wp_kset; [done|]. intros s5 HS5. apply wp_bind. eapply wp_rretire; [done|]. intros s6 HS6.
  apply wp_bind. rewrite <- Hl. eapply (wp_retire_packets ps 0); [done|exact C|exact Epk|]. intros s7 HS7.
  apply wp_bind. eapply wp_pool_destroy; [done..|]. intros s8 HS8.
  apply wp_bind. eapply wp_kset; [done|]. intros s9 HS9. apply wp_bind. eapply wp_rretire; [done|]. intros s10 HS10.
  apply wp_bind. eapply wp_kset; [done|]. intros s11 HS11. eapply wp_rretire; [done|]. intros s12 HS12. apply HQ.
  pose proof HS12 as (_&_&_&_&Eo&_). eexists _, st. rewrite Eo. split; [exact HS12|]. cbn. rewrite Hl.
  split_and!; try done. by apply G.
Qed.

Lemma live_retire c ps on st fl args ours s :
  Live c ps on st fl s → wp (tb_ctl_retire_x1_stopped args ours) (λ _, Held) (λ _, Held) s.
Proof.
  intros HL. unfold tb_ctl_retire_x1_stopped. destruct (negb args); [by eapply wp_fail, alive_held|].
  apply wp_bind, wp_get, wp_bind. eapply live_get; [done|].
  destruct (kc_retire_attempted c || _); [by eapply wp_fail, alive_held|].
  destruct (kc_stop_attempted c) eqn:Es; [|by eapply wp_fail, alive_held].
  destruct (_ || _); [by eapply wp_fail, alive_held|].
  destruct (negb _); [by eapply wp_fail, alive_held|].
  destruct HL as (HS&Heq&Hon&Hfin). unfold phase_of in HS. rewrite Es in HS.
  apply wp_bind. eapply wp_kset; [done|]. intros s1 HS1. apply wp_bind. eapply wp_rretire; [done|]. intros s2 HS2.
  set (c2 := c <| kc_retire_attempted := true |>) in *.
  assert (Live c2 ps on st fl s2) as HL.
  { split; [unfold phase_of; cbn; by rewrite Es|]. split; [exact Heq|]. split; [done|].
    intros Hf. cbn. destruct (Hfin Hf) as [? ->]. by rewrite Es. }
  apply wp_bind, wp_attempt. unfold detach_stopped_call. apply wp_bind.
  eapply live_meanwhile; [done|]. intros s3 (q&fl2&(HS3&Heq3&Hon3&Hfin3)&_). apply wp_bind, wp_modify, wp_bind.
  unfold phase_of in HS3. cbn [kc_stop_attempted] in HS3. change (kc_stop_attempted (c2 <| kc_queue := q |>)) with (kc_stop_attempted c) in HS3. rewrite Es in HS3.
  eapply (wp_phase_call Closed (λ r, if r =? 0 then Detached else Closed)).
  { destruct HS3 as (A&B&C&D&F&G&I). split_and!; [exact A|done..]. }
  { intros r. cbn. by destruct (r =? 0). }
  intros r w s4 Er HS4. apply wp_ok_or_fail.
  - intros ->. cbn. apply detach_stopped in Er as Hf. destruct (Hfin3 Hf) as [_ ->]. cbn in HS4.
    rewrite app_nil_r in HS4. eapply wp_release_dma; [done|exact Heq3|exact Es|done|]. by right.
  - intros Hr. destruct (Z.eqb_spec r 0) as [|_]; [done|]. cbn [negb]. apply wp_bind.
    eapply wp_rretire; [done|]. intros s5 HS5. apply wp_fail.
    apply (alive_held (c2 <| kc_queue := q |>) ps on st fl2).
    split; [unfold phase_of; cbn; by rewrite Es|]. by split.
Qed.

Lemma live_request c ps on st fl r data len ty response s :
  Live c ps on st fl s → wp (tb_cfg_request r data len ty response) (λ _, Held) (λ _, Held) s.
Proof.
  intros HL. unfold tb_cfg_request. apply wp_bind.
  assert (wp (attempt (tb_cfg_request_enqueue r)) (λ _ s', ∃ q, Live (c <| kc_queue := q |>) ps on st fl s') (λ _ _, False) s) as He.
  { eapply live_enqueue; [done|]. eauto. }
  unfold wp, attempt in He. unfold wp at 1. destruct (tb_cfg_request_enqueue r s) as [[[]|e|] s1]; [|destruct He as [q He]; eauto|done].
  destruct He as [q HL1]. apply wp_bind. eapply live_tx; [done|]. intros e s2 (q2&fl2&HL2&_).
  destruct (e !=? 0).
  - apply wp_bind. eapply live_dequeue; [done|]. intros q3 s3 HL3. by eapply wp_fail, alive_held.
  - destruct response; [by eapply wp_ret, alive_held|].
    eapply live_call0; [done|by unfold phase_of; cbn; destruct (kc_stop_attempted c)|]. intros s3 HL3. by eapply alive_held.
Qed.

(** *** Allocation and release *)

Definition Gone s : Prop :=
  ks_ctl s = None ∧ ks_heap s = ∅ ∧ ks_bufs s = ∅ ∧ ks_flight s = [] ∧ is_Some (monitor (ks_log s)).

Lemma wp_gone ph c on st s (Q : unit → chan_state W → Prop) E :
  St ph c [] [] [] on st s → neutral ph CtlKfree → (∀ s', Gone s' → Q tt s') → wp ctl_gone Q E s.
Proof.
  intros HS Hn HQ. apply wp_bind. eapply wp_kcall0; [done..|]. intros s1 (A&B&C&D&F&G&I).
  apply wp_modify, HQ. apply Mem_nil in B as [B1 B2]. by split_and!.
Qed.

Lemma wp_free_packets ps : ∀ k c on st s (Q : unit → chan_state W → Prop) E,
  St Open (Some c) ps ps [] on st s → (ps ≠ [] → kc_pool c = true) →
  (∀ s', St Open (Some c) [] [] [] on st s' → Q tt s') →
  wp (for_each ((Some <$> ps) ++ replicate k None) free_packet) Q E s.
Proof.
  induction ps as [|p ps IH]; intros k c on st s Q E HS Hp HQ.
  { cbn [fmap list_fmap app]. induction k as [|k IHk]; cbn; [by apply wp_ret, HQ|]. apply wp_bind, wp_ret, IHk. }
  assert (p ∉ ps) as Np by (destruct HS as (_&(N&_)&_); by apply NoDup_cons in N as [? _]).
  cbn [fmap list_fmap app for_each free_packet]. apply wp_bind.
  eapply wp_pkg_free; [done|set_solver|by apply Hp|]. intros s1 HS1. rewrite without_cons in HS1 by done.
  eapply IH; [done| |done]. intros _. by apply Hp.
Qed.

Lemma wp_free_open c ps k on st s (Q : unit → chan_state W → Prop) E :
  St Open (Some c) ps ps [] on st s → kc_stop_attempted c = false →
  kc_packets c = (Some <$> ps) ++ replicate k None → (ps ≠ [] → kc_pool c = true) →
  (∀ s', Gone s' → Q tt s') → wp tb_ctl_free Q E s.
Proof.
  intros HS Hs Epk Hp HQ. apply wp_bind. eapply wp_kget; [done|]. rewrite Hs.
  assert (∀ tx (b : bool) s (Q : unit → chan_state W → Prop), St Open (Some c) ps ps [] on st s →
    (∀ s', St Open (Some c) ps ps [] on st s' → Q tt s') → wp (if b then tb_ring_free tx else ret tt) Q E s) as Hfree.
  { intros tx [] s1 Q1 HS1 HQ1; [by eapply wp_ring_free|by apply wp_ret, HQ1]. }
  apply wp_bind, Hfree; [done|]. intros s1 HS1. apply wp_bind, Hfree; [done|]. intros s2 HS2.
  apply wp_bind. rewrite Epk. eapply wp_free_packets; [done..|]. intros s3 HS3. apply wp_bind.
  assert (∀ s, St Open (Some c) [] [] [] on st s → wp ctl_gone Q E s) as Hgone.
  { intros s4 HS4. by eapply wp_gone. }
  destruct (kc_pool c); [eapply wp_pool_destroy; [done..|]|apply wp_ret]; auto.
Qed.

Lemma St_rxs ph c rxs rxs2 l fl on st s :
  St ph c rxs l fl on st s → rxs2 ⊆ rxs → St ph c rxs2 l fl on st s.
Proof. intros (A&B&C&D) Hs. split_and!; [done|done| |apply D..]. intros p Hp. by apply C, Hs. Qed.

Lemma wp_take_packets k : ∀ c ps on st s (Q : unit → chan_state W → Prop) (E : Z → chan_state W → Prop),
  St Open (Some c) ps ps [] on st s → kc_pool c = true →
  kc_packets c = (Some <$> ps) ++ replicate k None →
  (∀ ps2 s', length ps2 = (length ps + k)%nat →
     St Open (Some (c <| kc_packets := Some <$> ps2 |>)) ps2 ps2 [] on st s' → Q tt s') →
  (∀ e ps2 j s', St Open (Some (c <| kc_packets := (Some <$> ps2) ++ replicate j None |>)) ps2 ps2 [] on st s' → E e s') →
  wp (for_each (seq (length ps) k) take_packet) Q E s.
Proof.
  induction k as [|k IH]; intros c ps on st s Q E HS Hp Epk HQ HE.
  { apply wp_ret, (HQ ps); [lia|]. rewrite app_nil_r in Epk. rewrite <- Epk. by destruct c. }
  cbn [seq for_each]. apply wp_bind. unfold take_packet at 1. apply wp_bind. eapply wp_pkg_alloc; [done..| |].
  - intros s1 HS1. apply wp_fail, (HE _ ps (S k)). rewrite <- Epk. by destruct c.
  - intros p s1 Hn HS1. eapply wp_kset; [done|]. intros s2 HS2.
    assert (length (ps ++ [p]) = S (length ps)) as El by (rewrite length_app; cbn; lia).
    rewrite <- El. eapply (IH (c <| kc_packets := <[length ps := Some p]> (kc_packets c) |>)).
    + eapply St_perm; [eapply St_rxs; [exact HS2|set_solver]|apply Permutation_cons_append].
    + done.
    + cbn. rewrite Epk, insert_app_r_alt by (rewrite length_fmap; lia).
      rewrite length_fmap, Nat.sub_diag, fmap_app, <- app_assoc. done.
    + intros ps2 s3 Hl HS3. apply (HQ ps2); [rewrite Hl, El; lia|done].
    + intros e ps2 j s3 HS3. by apply (HE _ ps2 j).
Qed.

Lemma wp_alloc w :
  wp tb_ctl_alloc (λ _, Alive) (λ _ s, Gone s) (chan_boot w).
Proof.
  assert (St Open None [] [] [] false nhi_stop_zero (chan_boot w)) as HS.
  { split_and!; try done; [apply Mem_empty|]. intros p Hp. by apply elem_of_nil in Hp. }
  unfold tb_ctl_alloc. apply wp_bind. eapply wp_kcall1; [done..|]. intros ok _ s1 _ HS1.
  destruct (ok =? 0).
  { apply wp_fail. destruct HS1 as (A&B&_&D&_&_&I). apply Mem_nil in B as [B1 B2]. by split_and!. }
  apply wp_bind, wp_modify, wp_on_error.
  assert (St Open (Some ctl_zero) [] [] [] false nhi_stop_zero (s1 <| ks_ctl := Some ctl_zero |>)) as HS2.
  { destruct HS1 as (A&B&C&D&F&G&I). by split_and!. }
  assert (∀ c s k, St Open (Some c) [] [] [] false nhi_stop_zero s → kc_stop_attempted c = false →
    kc_packets c = replicate k None → wp tb_ctl_free (λ _, Gone) (λ _, Gone) s) as Hundo.
  { intros c s k HSc Hc Epk. by eapply (wp_free_open c [] k). }
  assert (∀ call f c s (Q : unit → chan_state W → Prop), St Open (Some c) [] [] [] false nhi_stop_zero s →
    neutral Open call → kc_stop_attempted c = false → kc_packets c = replicate 10 None →
    (∀ s', St Open (Some (f c)) [] [] [] false nhi_stop_zero s' → Q tt s') →
    wp (take_ring call f) Q (λ _, wp tb_ctl_free (λ _, Gone) (λ _, Gone)) s) as Htake.
  { intros call f c s Q HSc Hn Hc Epk HQ. unfold take_ring. apply wp_bind. eapply wp_kcall1; [done..|].
    intros r _ s3 _ HS3. destruct (r =? 0); [by eapply wp_fail, Hundo|by eapply wp_kset]. }
  apply wp_bind. eapply Htake; [done..|]. intros s3 HS3. apply wp_bind. eapply Htake; [done..|]. intros s4 HS4.
  apply wp_bind. eapply Htake; [done..|]. intros s5 HS5.
  eapply (wp_take_packets 10 _ []); [done..| |].
  - intros ps s6 Hl HS6. eexists _, ps, false, nhi_stop_zero, [].
    split; [rewrite app_nil_r; exact HS6|]. by split_and!.
  - intros e ps j s6 HS6. by eapply (wp_free_open _ ps j).
Qed.

(** *** Histories *)

Lemma shell_step o s : Shell s → wp (run_kop o) (λ _, Shell) (λ _, Shell) s.
Proof.
  intros (c&st&HS&A&B&C&D&F&G&I&J).
  assert (Shell s) as HSh by (exists c, st; by split_and!).
  assert (∀ data len ty, wp (attempt (tb_ctl_tx data len ty)) (λ _, Shell) (λ _, Shell) s) as Htx.
  { intros data len ty. apply wp_attempt. unfold tb_ctl_tx. destruct (_ !=? 0); [by apply wp_fail|].
    destruct (_ <? _); [by apply wp_fail|]. apply wp_bind. eapply wp_kget; [done|]. rewrite G. by apply wp_fail. }
  assert (∀ r, wp (tb_cfg_request_enqueue r) (λ _ _, False) (λ _, Shell) s) as Henq.
  { intros r. apply wp_bind. eapply wp_kget; [done|]. rewrite F. by apply wp_fail. }
  destruct o as [| |args ours|args ours|r data len ty response|a]; cbn [run_kop].
  - apply wp_bind. eapply wp_kget; [done|]. rewrite G. by apply wp_ret.
  - apply wp_bind. eapply wp_kget; [done|]. rewrite G. by apply wp_ret.
  - unfold tb_ctl_stop_x1_retained. destruct (negb args); [by apply wp_fail|].
    apply wp_bind, wp_get, wp_bind. eapply wp_kget; [done|]. rewrite A. by apply wp_fail.
  - unfold tb_ctl_retire_x1_stopped. destruct (negb args); [by apply wp_fail|].
    apply wp_bind, wp_get, wp_bind. eapply wp_kget; [done|]. rewrite I. by apply wp_fail.
  - unfold tb_cfg_request. apply wp_bind. eapply wp_mono; [apply Henq|done..].
  - destruct a as [data len ty|p|i canceled f|r|r]; cbn [run_arrival].
    + apply wp_bind. eapply wp_mono; [apply Htx| |done]. intros. by apply wp_ret.
    + apply wp_bind, wp_get. pose proof HS as (_&_&_&->&_). by apply wp_ret.
    + apply wp_bind. eapply wp_kget; [done|]. rewrite B. by apply wp_ret.
    + apply wp_bind, wp_attempt. eapply wp_mono; [apply Henq|done|]. intros. by apply wp_ret.
    + eapply wp_kset; [done|]. intros s2 HS2. pose proof HS2 as (_&_&_&_&Eo&_).
      eexists _, st. rewrite Eo. split; [exact HS2|]. by split_and!.
Qed.

Lemma alive_step o s : Alive s → wp (run_kop o) (λ _, Held) (λ _, Held) s.
Proof.
  intros (c&ps&on&st&fl&HL). destruct o as [| |args ours|args ours|r data len ty response|a]; cbn [run_kop].
  - by eapply live_start.
  - by eapply live_stop.
  - by eapply live_stop_retained.
  - by eapply live_retire.
  - by eapply live_request.
  - eapply live_arrival; [done|]. intros s' (q&fl2&HL2&_). by eapply alive_held.
Qed.

Lemma wp_run_kops ops s : Held s → wp (run_kops ops) (λ _, Held) (λ _ _, False) s.
Proof.
  intros HH. apply wp_for_each; [done|]. intros o s1 _ HH1. apply wp_bind, wp_attempt.
  destruct HH1 as [HA|HS].
  - eapply wp_mono; [by apply alive_step|intros; by apply wp_ret..].
  - eapply wp_mono; [by apply shell_step|intros; apply wp_ret; by right..].
Qed.

Lemma wp_life ops free w :
  wp (channel_life ops free) (λ _ s, Held s ∨ Gone s) (λ _ s, Gone s) (chan_boot w).
Proof.
  apply wp_bind. eapply wp_mono; [apply wp_alloc| |done]. intros [] s1 HA.
  apply wp_bind. eapply wp_mono; [apply wp_run_kops; by left| |done]. intros [] s2 HH.
  apply wp_bind, wp_get, wp_bind. destruct HH as [(c&ps&on&st&fl&HL)|HS].
  - eapply live_get; [done|]. destruct (_ && _) eqn:Eb; [|apply wp_ret; left; by eapply alive_held].
    apply andb_prop in Eb as [_ Eb]. destruct (kc_stop_attempted c) eqn:Es.
    + apply wp_bind. eapply live_get; [done|]. rewrite Es.
      destruct HL as (HS&Heq&HL). pose proof Heq as (_&_&_&_&_&->&_). apply wp_ret. left. by eapply alive_held.
    + destruct HL as (HS&(A&B&C&D&F&G)&Hon&_). unfold phase_of in HS. rewrite Es in HS.
      pose proof HS as (_&_&_&_&Eo&_). rewrite Eo in Eb. destruct on; [done|]. rewrite Hon, app_nil_r in HS by done.
      eapply (wp_free_open c ps 0); [done..|by rewrite app_nil_r|done|]. by right.
  - pose proof HS as (c&st&HS1&_&_&_&_&_&Es&_&Er). eapply wp_kget; [done|].
    destruct (_ && _); [|apply wp_ret; left; by right]. apply wp_bind. eapply wp_kget; [done|]. rewrite Es, Er.
    eapply wp_gone; [done..|]. by right.
Qed.

Lemma held_monitor s : Held s → is_Some (monitor (ks_log s)).
Proof.
  intros [(c&ps&on&st&fl&((_&_&_&_&_&_&I)&_))|(c&st&(_&_&_&_&_&_&I)&_)]; by eexists.
Qed.

(** What is held when a history of the channel ends. *)
Definition settled s : Prop :=
  match ks_ctl s with
  | None => ks_heap s = ∅ ∧ ks_bufs s = ∅ ∧ ks_flight s = []
  | Some c =>
      if kc_retired c then
        ks_heap s = ∅ ∧ ks_bufs s = ∅ ∧ ks_flight s = [] ∧
        kc_rx c = false ∧ kc_tx c = false ∧ kc_pool c = false ∧
        kc_stop_attempted c = true
      else kc_rx c = true ∧ kc_tx c = true ∧ kc_pool c = true ∧
        ∃ ps, kc_packets c = Some <$> ps ∧ length ps = 10%nat ∧
          Mem (ps ++ ks_flight s) (ks_heap s) (ks_bufs s)
  end.

Lemma held_settled s : Held s → settled s.
Proof.
  unfold settled. intros [(c&ps&on&st&fl&(A&B&_&D&_)&(E1&E2&E3&E4&E5&E6&_)&_)|(c&st&(A&B&_&D&_)&E1&E2&E3&_&_&E4&_&E5)].
  - rewrite A, E6. split_and!; [done..|]. exists ps. by rewrite D.
  - rewrite A, E5. apply Mem_nil in B as [-> ->]. by split_and!.
Qed.
Lemma gone_settled s : Gone s → settled s.
Proof. unfold settled. by intros (->&?&?&?&_). Qed.

(** C15. Memory of the control channel.  Over any history of allocation, starts,
    stops, requests, transmissions, ring callbacks, private stops and
    retirements, interleaved with other threads wherever a call sleeps, and any
    rings that keep to their contract: no packet, buffer, ring or pool is used
    after it was given back, given back twice or given back while something
    still depends on it; at the end a freed channel holds nothing, a retired
    one is an empty shell that went through the private stop, and any other
    holds both rings, the pool and its ten receive packets, and besides those
    exactly the frames the ring still has. *)
Theorem channel_memory ops free w :
  let '(r, s) := channel_life ops free (chan_boot w) in r ≠ Fault ∧ settled s.
Proof.
  pose proof (wp_life ops free w) as Hw. unfold wp in Hw.
  destruct (channel_life ops free (chan_boot w)) as [[a|e|] s]; [|split; [done|by apply gone_settled]|done].
  split; [done|]. destruct Hw; [by apply held_settled|by apply gone_settled].
Qed.

(** C16. A closed channel stays closed.  In every history, once the private stop
    has closed admission, no frame is handed to the transmit ring, no request
    is admitted, no ring is started or stopped the ordinary way and nothing is
    allocated; rings, pool and channel are given back only after the interrupt
    side reported a successful detach, and after that nothing but giving back
    happens, no matter how often start, stop, request, retire or the receive
    path are entered again. *)
Theorem channel_closed ops free w :
  is_Some (monitor (ks_log (channel_life ops free (chan_boot w)).2)).
Proof.
  pose proof (wp_life ops free w) as Hw. unfold wp in Hw.
  destruct (channel_life ops free (chan_boot w)) as [[a|e|] s]; cbn; [|by destruct Hw as (_&_&_&_&?)|done].
  destruct Hw as [Hh|(_&_&_&_&?)]; [by apply held_monitor|done].
Qed.
End proof.

(** ** A concrete channel *)

Module Loopback.
Definition answer (c : kcall) (v : ring_view) (w : unit) : Z * unit :=
  (match c with
   | RingTx _ _ _ _ => if rv_on v then 0 else -ESHUTDOWN
   | RingFlush _ => if bool_decide (rv_flight v = []) then 1 else 0
   | NhiStopRetained | NhiDetachStopped => if hs_finished (rv_stop v) then 0 else -EIO
   | _ => 1
   end, w).
#[export] Instance env : CtlEnv unit := {
  k_answer := answer;
  k_during c v w :=
    (match c with
     | RingFlush _ => ATx [1; 2] 8 TB_CFG_PKG_READ :: (ATxDone <$> rv_flight v)
     | _ => []
     end, w);
  k_canceled v w := rv_flight v;
  k_stop_receipt t w := t <| hs_finished := true |>;
  k_detach_receipt t w := t <| nr_irq_released := true |> <| nr_rings_detached := true |>;
  k_error _ := ERROR_REPLY;
  k_crc32c c l := foldl (λ a x, a + x) c l;
}.
#[export] Instance laws : CtlLaws unit.
Proof.
  constructor.
  - intros p n ty bs v w Ho. cbn. by rewrite Ho.
  - done.
  - intros ms v w Hf. cbn. by rewrite bool_decide_false.
  - intros v w. cbn. by destruct (hs_finished (rv_stop v)).
  - intros v w. cbn. by destruct (hs_finished (rv_stop v)).
Qed.
Definition session : list kop :=
  [KStart; KArrival (ATx [1; 2; 3] 12 TB_CFG_PKG_READ); KArrival (AFrame 3 false (RxFrame 8 TB_CFG_PKG_EVENT (replicate 256 7)));
   KStopRetained true true; KArrival (ATx [4] 4 TB_CFG_PKG_WRITE); KRetire true true; KStart].
End Loopback.
Import Loopback.

Lemma channel_memory_witness :
  let '(r, s) := channel_life Loopback.session false (chan_boot tt) in
  r = Ok tt ∧ (kc_retired <$> ks_ctl s) = Some true ∧ settled s.
Proof.
  pose proof (channel_memory Loopback.session false tt) as Hm.
  assert ((channel_life Loopback.session false (chan_boot tt)).1 = Ok tt ∧
    (kc_retired <$> ks_ctl (channel_life Loopback.session false (chan_boot tt)).2) = Some true) as [A B]
    by (split; vm_compute; reflexivity).
  destruct (channel_life Loopback.session false (chan_boot tt)) as [r s]. cbn in A, B. destruct Hm as [_ Hs]. by split_and!.
Defined.

Lemma channel_closed_witness :
  let L := ks_log (channel_life Loopback.session true (chan_boot tt)).2 in
  is_Some (monitor L) ∧ monitor L = Some Detached ∧ length (filter (λ e, bool_decide (e.1 = CloseControl)) L) = 1%nat.
Proof.
  split; [exact (channel_closed Loopback.session true tt)|]. split; vm_compute; reflexivity.
Defined.
