(* ===== verification/Retained.v ===== *)
(** * The retained tunnel of the connection manager

    The private part of experiments/omarchy1/kernel/drivers/thunderbolt/tb.c:
    one PCIe tunnel is approved, held across the life of the storage device,
    stopped (checked, or in software only after a pull) and retired with its
    routers once the router is off; an empty domain can be frozen and retired
    instead.  While a domain is held or frozen the ordinary connection manager
    is blocked and only records what it sees.

    Objects live in a memory addressed by numbers; a port is an element of its
    router's array.  Code outside the repository (tunnels, paths, routers,
    device tree) is an environment.  Notifications arrive at every call out of
    the code, also while the domain lock is held; wherever the lock is dropped,
    ordinary handlers and queued work run too.  The body of an ordinary handler
    is any change of the objects: the bodies name none of the private fields. *)

From S2P Require Import Prelude Wp HostData Ctl.

(** ** Objects *)

Definition pref : Type := Z * nat.

Inductive port_type := TB_TYPE_PORT | TB_TYPE_PCIE_UP | TB_TYPE_PCIE_DOWN | TB_TYPE_OTHER.
#[export] Instance port_type_eq_dec : EqDecision port_type.
Proof. solve_decision. Defined.

Record tb_port := TbPort {
  po_sw : option Z; po_port : Z; po_type : port_type; po_disabled : bool; po_link_nr : Z;
  po_dual_link_port : option pref; po_remote : option pref; po_xdomain : bool; po_cap_adap : Z;
}.

(** [sw->dev.parent] *)
Inductive dev_parent := ParentDomain | ParentSwitch (sw : Z) | ParentOther.
#[export] Instance dev_parent_eq_dec : EqDecision dev_parent.
Proof. solve_decision. Defined.

(** [sw_tb]: [sw->tb == tb]; [sw_ports]: [sw->ports] is set; [sw_registered]:
    [device_is_registered(&sw->dev)]. *)
Record tb_switch := TbSwitch {
  sw_tb : bool; sw_parent : dev_parent; sw_ports : bool;
  sw_route_hi : Z; sw_route_lo : Z; sw_max_port_number : nat; sw_upstream_port_number : nat;
  sw_authorized : Z; sw_is_unplugged : bool; sw_safe_mode : bool; sw_boot : bool;
  sw_usb4 : bool; sw_link_usb4 : bool; sw_titan_ridge : bool; sw_alpine_ridge : bool;
  sw_uid : Z; sw_registered : bool;
}.
#[export] Instance tb_switch_eta : Eta tb_switch := λ s,
  TbSwitch (sw_tb s) (sw_parent s) (sw_ports s) (sw_route_hi s) (sw_route_lo s)
    (sw_max_port_number s) (sw_upstream_port_number s) (sw_authorized s) (sw_is_unplugged s)
    (sw_safe_mode s) (sw_boot s) (sw_usb4 s) (sw_link_usb4 s) (sw_titan_ridge s)
    (sw_alpine_ridge s) (sw_uid s) (sw_registered s).

Inductive tunnel_type := TB_TUNNEL_PCI | TB_TUNNEL_DP | TB_TUNNEL_DMA | TB_TUNNEL_USB3.
#[export] Instance tunnel_type_eq_dec : EqDecision tunnel_type.
Proof. solve_decision. Defined.
Inductive tunnel_state := TB_TUNNEL_INACTIVE | TB_TUNNEL_ACTIVATING | TB_TUNNEL_ACTIVE.
#[export] Instance tunnel_state_eq_dec : EqDecision tunnel_state.
Proof. solve_decision. Defined.

Record tb_tunnel := TbTunnel {
  tn_tb : bool; tn_type : tunnel_type; tn_src_port : option pref; tn_dst_port : option pref;
  tn_state : tunnel_state; tn_npaths : Z; tn_path0 : option Z; tn_path1 : option Z;
  tn_destroy : bool;
}.
#[export] Instance tb_tunnel_eta : Eta tb_tunnel := λ t,
  TbTunnel (tn_tb t) (tn_type t) (tn_src_port t) (tn_dst_port t) (tn_state t) (tn_npaths t)
    (tn_path0 t) (tn_path1 t) (tn_destroy t).

(** The objects of the domain: memory, [tb->root_switch], and the lists and the
    flag of [struct tb_cm] that the ordinary manager owns.  A path is its
    [activated] flag. *)
Record cm_objs := CmObjs {
  o_switch : Z → tb_switch; o_port : pref → tb_port; o_tunnel : Z → tb_tunnel;
  o_path : Z → bool; o_root : option Z; o_tunnel_list : list Z;
  o_dp_resources : list pref; o_groups : list (list pref); o_hotplug_active : bool;
}.
#[export] Instance cm_objs_eta : Eta cm_objs := λ o,
  CmObjs (o_switch o) (o_port o) (o_tunnel o) (o_path o) (o_root o) (o_tunnel_list o)
    (o_dp_resources o) (o_groups o) (o_hotplug_active o).

Definition upd {A} (k : Z) (f : A → A) (m : Z → A) : Z → A := λ j, if j =? k then f (m k) else m j.

(** [struct tb] and its [tb->nhi], as compared by the owner check. *)
Record tb_dom := TbDom {
  d_cm_ops : bool; d_nhi : bool; d_nhi_dev : bool; d_going_away : bool; d_nopcie : bool;
  d_driver : bool; d_dma_dev : bool; d_parent : bool; d_ctl_nhi : bool;
}.
#[export] Instance tb_dom_eta : Eta tb_dom := λ d,
  TbDom (d_cm_ops d) (d_nhi d) (d_nhi_dev d) (d_going_away d) (d_nopcie d) (d_driver d)
    (d_dma_dev d) (d_parent d) (d_ctl_nhi d).

(** The private fields of [struct tb_cm]. *)
Record x1_cm := X1Cm {
  x_pcie_attempted : bool; x_pcie_authorizing : bool;
  x_pcie_up : option pref; x_pcie_down : option pref; x_pcie_uid : Z;
  x_pcie_switch : option Z; x_pcie_tunnel : option Z;
  x_generation : Z; x_pending_events : Z;
  x_retained : bool; x_hold_attempted : bool; x_hold_ready : bool;
  x_stop_attempted : bool; x_stop_complete : bool;
  x_cm_retire_attempted : bool; x_cm_retired : bool; x_idle_frozen : bool;
  x_retained_generation : Z;
  x_held_root : option Z; x_held_switch : option Z; x_held_tunnel : option Z;
  x_held_path0 : option Z; x_held_path1 : option Z;
  x_held_up : option pref; x_held_down : option pref;
}.
#[export] Instance x1_cm_eta : Eta x1_cm := λ x,
  X1Cm (x_pcie_attempted x) (x_pcie_authorizing x) (x_pcie_up x) (x_pcie_down x) (x_pcie_uid x)
    (x_pcie_switch x) (x_pcie_tunnel x) (x_generation x) (x_pending_events x) (x_retained x)
    (x_hold_attempted x) (x_hold_ready x) (x_stop_attempted x) (x_stop_complete x)
    (x_cm_retire_attempted x) (x_cm_retired x) (x_idle_frozen x) (x_retained_generation x)
    (x_held_root x) (x_held_switch x) (x_held_tunnel x) (x_held_path0 x) (x_held_path1 x)
    (x_held_up x) (x_held_down x).
Definition x1_cm_zero : x1_cm :=
  X1Cm false false None None 0 None None 0 0 false false false false false false false false 0
    None None None None None None None.

(** [struct tb_x1_cm_retire]; NULL is the empty stage. *)
Record cm_receipt := CmReceipt {
  ct_attempted : bool; ct_workers_drained : bool; ct_tunnel_released : bool;
  ct_routers_removed : bool; ct_finished : bool; ct_error : Z; ct_stage : string;
}.
#[export] Instance cm_receipt_eta : Eta cm_receipt := λ r,
  CmReceipt (ct_attempted r) (ct_workers_drained r) (ct_tunnel_released r) (ct_routers_removed r)
    (ct_finished r) (ct_error r) (ct_stage r).
Definition cm_receipt_zero : cm_receipt := CmReceipt false false false false false 0 "".

#[export] Instance tunnel_stop_eta : Eta tb_x1_tunnel_stop := λ t,
  TunnelStop (ts_attempted t) (ts_finished t) (ts_error t) (ts_adapters t) (ts_hops t).

(** ** The environment *)

(** The handlers of the ordinary connection manager that start with
    [tb_x1_retained_block]; the queued ones are also work items. *)
Inductive handler :=
| QcomRetryDp | ScanPort | GroupReleaseWork | DpTunnelActive | HandleHotplug
| HandleDpBandwidth | CmStop | SuspendNoirq | ResumeNoirq | Complete
| RuntimeSuspend | RuntimeResume | RemoveWork | ApproveXdomain | DisconnectXdomain
| DisconnectPci | TunnelPci.

Inductive notice :=
| NInvalidate | NEvent (ty : pkg_type) (err : cfg_error) | NWorkerDone.

(** Calls out of the code.  The last row marks effects on the private state and
    on the pinned tunnel, so that a history shows them in order. *)
Inductive mcall :=
| OwnerNode | PortRead (p : pref) (off : Z) | TunnelInvalid (t : Z) | PathInvalid (p : Z)
| DomainApprove (sw : Z) | TunnelAllocPci (up down : pref) | TunnelActivate (t : Z)
| TunnelPut (t : Z) | TunnelGet (t : Z) | SwitchGet (sw : Z) | SwitchPut (sw : Z)
| PcieL1Enable (sw : Z) | XhciConnect (sw : Z)
| DeactivateRetained (t : Z) | CheckStopped | DrainWork
| RetireTunnel (t : Z) | RemovePoweredOff (sw : Z)
| KmallocEvent | AckPlug | AckNotification
| Notified | OrdinaryBody (h : handler) | Approving | Approved (sw t : Z)
| Pinned (root sw t : Z) | TunnelStopped (t : Z) | TunnelPulled (t : Z)
| FrozenIdle (root : Z) | Retiring | Retired.
Definition mevent : Type := mcall * Z.

(** What may run while the lock is dropped. *)
Inductive marrival := RunHandler (h : handler) | RunWork (i : nat) | RunNotice (n : notice).

Class CmEnv (W : Type) := {
  m_answer : mcall → cm_objs → W → Z * Z * W;
  m_notices : W → list notice * W;
  m_arrivals : W → list marrival * W;
  (** [usb4_switch_map_pcie_down(root, &root->ports[2])], from cached indices *)
  m_map_pcie_down : (Z → tb_switch) → (pref → tb_port) → Z → option pref;
  (** result, new objects, queued work *)
  m_ordinary : handler → cm_objs → W → Z * cm_objs * list handler * W;
  m_tunnel_alloc : cm_objs → W → Z * tb_tunnel * W;
  m_tunnel_activate : tb_tunnel → W → tb_tunnel * bool * bool * W;
  (** [tb_tunnel_deactivate_pcie_retained]: works on the tunnel's state, the
      flags of its paths and the receipt, and may call [check_live] *)
  m_deactivate : W → helper W (tunnel_state * bool * bool * tb_x1_tunnel_stop);
  m_retired_list : list Z → W → list Z;
  m_removed : Z → (Z → tb_switch) → W → Z → bool;
  m_adp_pcie_cs_0 : Z;
  m_adp_pcie_cs_0_pe : Z;
}.

(** The domain: [m_works] and [m_finishing] count the workers that are queued
    and those past their critical section; [m_live] says that the receipt of
    the stop points at the check; [m_chan] is [tb->ctl]. *)
Record cm_state (W V : Type) := CmState {
  m_dom : tb_dom; m_objs : cm_objs; m_x : x1_cm;
  m_works : list handler; m_finishing : nat;
  m_stop : tb_x1_tunnel_stop; m_stop_stage : string; m_live : bool; m_retire : cm_receipt;
  m_chan : chan_state V; m_log : list mevent; m_w : W;
}.
Arguments CmState {_ _} _ _ _ _ _ _ _ _ _ _ _ _.
Arguments m_dom {_ _} _.
Arguments m_objs {_ _} _.
Arguments m_x {_ _} _.
Arguments m_works {_ _} _.
Arguments m_finishing {_ _} _.
Arguments m_stop {_ _} _.
Arguments m_stop_stage {_ _} _.
Arguments m_live {_ _} _.
Arguments m_retire {_ _} _.
Arguments m_chan {_ _} _.
Arguments m_log {_ _} _.
Arguments m_w {_ _} _.
#[export] Instance cm_state_eta {W V} : Eta (cm_state W V) := λ s,
  CmState (m_dom s) (m_objs s) (m_x s) (m_works s) (m_finishing s) (m_stop s) (m_stop_stage s)
    (m_live s) (m_retire s) (m_chan s) (m_log s) (m_w s).

(** ** The shape of the domain *)

Section shape.
Implicit Types (o : cm_objs) (p : pref).

Definition tb_port_is_null (q : tb_port) : bool :=
  (po_port q !=? 0) && bool_decide (po_type q = TB_TYPE_PORT).
Definition tb_port_is_pcie_up (q : tb_port) : bool := bool_decide (po_type q = TB_TYPE_PCIE_UP).
Definition tb_port_is_pcie_down (q : tb_port) : bool := bool_decide (po_type q = TB_TYPE_PCIE_DOWN).
Definition tb_route (sw : tb_switch) : Z := (sw_route_hi sw << 32) .| sw_route_lo sw.
Definition tb_upstream_port o (sw : Z) : pref := (sw, sw_upstream_port_number (o_switch o sw)).
Definition tb_is_upstream_port o p : bool :=
  match po_sw (o_port o p) with
  | Some sw =>
      bool_decide (p = tb_upstream_port o sw) ||
      bool_decide (po_dual_link_port (o_port o p) = Some (tb_upstream_port o sw))
  | None => false
  end.
Definition tb_port_has_remote o p : bool :=
  negb (tb_is_upstream_port o p) && bool_decide (is_Some (po_remote (o_port o p))) &&
  negb (bool_decide (is_Some (po_dual_link_port (o_port o p))) && (po_link_nr (o_port o p) !=? 0)).

(** [tb_switch_for_each_port] *)
Definition ports_of o (sw : Z) : list pref :=
  (λ i, (sw, i)) <$> seq 1 (sw_max_port_number (o_switch o sw)).

Definition tb_x1_pcie_lane_pair o p : bool :=
  let q := o_port o p in
  if negb (tb_port_is_null q) || po_disabled q || (po_link_nr q !=? 0) then false else
  match po_dual_link_port q, po_sw q with
  | None, _ => true
  | Some d, Some sw =>
      let e := o_port o d in
      negb (bool_decide (d = p)) && bool_decide (po_sw e = Some sw) &&
      (po_port e <=? Z.of_nat (sw_max_port_number (o_switch o sw))) &&
      bool_decide (d = (sw, Z.to_nat (po_port e))) &&
      tb_port_is_null e && negb (po_disabled e) && (po_link_nr e =? 1) &&
      bool_decide (po_dual_link_port e = Some p)
  | Some _, None => false
  end.

Definition routers_ok o (root sw : Z) (authorized : bool) : bool :=
  let r := o_switch o root in
  let s := o_switch o sw in
  negb (root =? sw) && sw_tb r && sw_tb s &&
  bool_decide (sw_parent r = ParentDomain) && bool_decide (sw_parent s = ParentSwitch root) &&
  sw_ports r && sw_ports s && (tb_route r =? 0) && (tb_route s =? 2) &&
  (2 <=? sw_max_port_number r)%nat && (1 <=? sw_upstream_port_number s)%nat &&
  (sw_upstream_port_number s <=? sw_max_port_number s)%nat &&
  (sw_authorized r !=? 0) && (sw_authorized s =? Z.b2z authorized) &&
  negb (sw_is_unplugged r) && negb (sw_is_unplugged s) &&
  negb (sw_safe_mode r) && negb (sw_safe_mode s) && negb (sw_boot s) &&
  sw_usb4 r && sw_usb4 s && sw_link_usb4 s && negb (sw_titan_ridge s) && negb (sw_alpine_ridge s).

(** One port of router [this], whose lane towards router [that] is [near]. *)
Definition port_ok o (that : Z) (near far : pref) p : bool :=
  let q := o_port o p in
  negb (po_xdomain q) &&
  match po_remote q with
  | None => true
  | Some r =>
      (bool_decide (p = near) || bool_decide (po_dual_link_port (o_port o near) = Some p)) &&
      bool_decide (po_sw (o_port o r) = Some that) &&
      bool_decide (po_remote (o_port o r) = Some p) &&
      (bool_decide (p = near) || bool_decide (po_dual_link_port (o_port o far) = Some r))
  end.

Definition tb_x1_pcie_topology o (sw : Z) (authorized : bool) : bool :=
  match o_root o with
  | None => false
  | Some root =>
      routers_ok o root sw authorized &&
      let lane := (root, 2%nat) in
      let uplink := tb_upstream_port o sw in
      bool_decide (po_sw (o_port o lane) = Some root) &&
      bool_decide (po_sw (o_port o uplink) = Some sw) &&
      tb_x1_pcie_lane_pair o lane && tb_x1_pcie_lane_pair o uplink &&
      bool_decide (po_remote (o_port o lane) = Some uplink) &&
      bool_decide (po_remote (o_port o uplink) = Some lane) &&
      forallb (port_ok o sw lane uplink) (ports_of o root) &&
      forallb (port_ok o root uplink lane) (ports_of o sw)
  end.

Definition tb_x1_root_empty o : bool :=
  match o_root o with
  | None => false
  | Some root =>
      negb (sw_is_unplugged (o_switch o root)) &&
      forallb (λ p, negb (bool_decide (is_Some (po_remote (o_port o p)))) && negb (po_xdomain (o_port o p)))
        (ports_of o root)
  end.

(** The list that is left; [None] when the recursion is deeper than [fuel]. *)
Fixpoint tb_remove_dp_resources (fuel : nat) o (sw : Z) (l : list pref) : option (list pref) :=
  match fuel with
  | O => None
  | S fuel =>
      let children := omap (λ p, if tb_port_has_remote o p
                                 then po_remote (o_port o p) ≫= λ r, po_sw (o_port o r)
                                 else None) (ports_of o sw) in
      l ← foldl (λ l c, l ← l; tb_remove_dp_resources fuel o c l) (Some l) children;
      Some (filter (λ p, po_sw (o_port o p) ≠ Some sw) l)
  end.
End shape.

(** ** Operations *)

Section manager.
Context {W V : Type} `{CmEnv W} `{CtlEnv V}.
Notation MM := (M (cm_state W V)).
Implicit Types s : cm_state W V.

Definition mx (f : x1_cm → x1_cm) : MM unit := modify (λ s, s <| m_x := f (m_x s) |>).
Definition mobjs (f : cm_objs → cm_objs) : MM unit := modify (λ s, s <| m_objs := f (m_objs s) |>).
Definition mark (c : mcall) : MM unit := modify (λ s, s <| m_log := m_log s ++ [(c, 0)] |>).

(** A call during which nothing else happens. *)
Definition mleaf (c : mcall) : MM (Z * Z) := λ s,
  let '(r, v, w) := m_answer c (m_objs s) (m_w s) in
  (Ok (r, u32 v), s <| m_w := w |> <| m_log := m_log s ++ [(c, r)] |>).

(** *** Notifications *)

Definition tb_x1_invalidate_pcie : MM unit :=
  do! mx (λ x, x <| x_generation := u64 (x_generation x + 1) |>) in mark Notified.
Definition tb_x1_retained_mode : MM bool := let! s := get in ret (x_retained (m_x s)).
Definition tb_x1_retained_block : MM bool :=
  let! r := tb_x1_retained_mode in
  if negb r then ret false else do! tb_x1_invalidate_pcie in ret true.
Definition tb_x1_event_pending (queued : bool) : MM unit :=
  mx (λ x, x <| x_pending_events := u32 (x_pending_events x + if queued then 1 else -1) |>).

(** [tb_queue_hotplug], [tb_queue_dp_bandwidth_request] *)
Definition queue_event (h : handler) : MM unit :=
  let! ev := mleaf KmallocEvent in
  if ev.1 =? 0 then ret tt else
  do! tb_x1_event_pending true in
  modify (λ s, s <| m_works := m_works s ++ [h] |>).
Definition tb_queue_hotplug : MM unit := queue_event HandleHotplug.
Definition tb_queue_dp_bandwidth_request : MM unit := queue_event HandleDpBandwidth.

Definition tb_handle_notification (err : cfg_error) : MM unit :=
  match err with
  | TB_CFG_ERROR_PCIE_WAKE | TB_CFG_ERROR_DP_CON_CHANGE | TB_CFG_ERROR_DPTX_DISCOVERY =>
      do! mleaf AckNotification in ret tt
  | TB_CFG_ERROR_DP_BW => do! mleaf AckNotification in tb_queue_dp_bandwidth_request
  | _ => ret tt
  end.

Definition event_body (ty : pkg_type) (err : cfg_error) : MM unit :=
  do! (match ty with
       | TB_CFG_PKG_EVENT | TB_CFG_PKG_ERROR => tb_x1_invalidate_pcie
       | _ => ret tt
       end) in
  let! retained := tb_x1_retained_mode in
  if retained : bool then ret tt else
  match ty with
  | TB_CFG_PKG_ERROR => tb_handle_notification err
  | TB_CFG_PKG_EVENT => do! mleaf AckPlug in tb_queue_hotplug
  | _ => ret tt
  end.
Definition tb_handle_event (ty : pkg_type) (err : cfg_error) : MM unit :=
  do! tb_x1_event_pending true in
  do! event_body ty err in
  tb_x1_event_pending false.

(** The tail of a worker, after it has dropped the lock. *)
Definition worker_done : MM unit :=
  let! s := get in
  match m_finishing s with
  | O => ret tt
  | S n => do! modify (λ s, s <| m_finishing := n |>) in tb_x1_event_pending false
  end.

Definition run_notice (n : notice) : MM unit :=
  match n with
  | NInvalidate => tb_x1_invalidate_pcie
  | NEvent ty err => tb_handle_event ty err
  | NWorkerDone => worker_done
  end.
Definition notices : MM unit :=
  let! l := (λ s, let '(l, w) := m_notices (m_w s) in (Ok l, s <| m_w := w |>)) in
  for_each l run_notice.

(** A call out of the code. *)
Definition mcall2 (c : mcall) : MM (Z * Z) := do! notices in mleaf c.
Definition mcall1 (c : mcall) : MM Z := let! r := mcall2 c in ret r.1.
Definition mcall0 (c : mcall) : MM unit := do! mcall2 c in ret tt.

(** *** The ordinary connection manager *)

(** What a blocked handler returns. *)
Definition blocked_result (h : handler) : Z :=
  match h with
  | SuspendNoirq | ResumeNoirq | RuntimeSuspend | RuntimeResume => -EBUSY
  | ApproveXdomain | DisconnectXdomain | DisconnectPci | TunnelPci => -ESHUTDOWN
  | _ => 0
  end.
Definition needs_hotplug (h : handler) : bool :=
  match h with HandleHotplug | HandleDpBandwidth => true | _ => false end.

(** Past the guard: any change of the objects, and any work queued. *)
Definition ordinary_body (h : handler) : MM Z :=
  let! p := (λ s, let '(r, o, l, w) := m_ordinary h (m_objs s) (m_w s) in
                  (Ok (r, l), s <| m_objs := o |> <| m_w := w |>)) in
  do! mark (OrdinaryBody h) in
  do! for_each p.2 queue_event in
  ret p.1.

Definition run_handler (h : handler) : MM Z :=
  let! blocked := tb_x1_retained_block in
  if blocked : bool then ret (blocked_result h) else
  let! s := get in
  if needs_hotplug h && negb (o_hotplug_active (m_objs s)) then ret 0 else ordinary_body h.

Definition tb_freeze_noirq : MM Z :=
  let! blocked := tb_x1_retained_block in
  if blocked : bool then ret (-EBUSY) else
  do! mobjs (λ o, o <| o_hotplug_active := false |>) in ret 0.
Definition tb_thaw_noirq : MM Z :=
  let! blocked := tb_x1_retained_block in
  if blocked : bool then ret (-EBUSY) else
  do! mobjs (λ o, o <| o_hotplug_active := true |>) in ret 0.

(** The [i]-th queued worker runs its critical section. *)
Definition run_work (i : nat) : MM unit :=
  let! s := get in
  match m_works s !! i with
  | None => ret tt
  | Some h =>
      do! modify (λ s, s <| m_works := delete i (m_works s) |> <| m_finishing := S (m_finishing s) |>) in
      do! run_handler h in ret tt
  end.

Definition run_marrival (a : marrival) : MM unit :=
  match a with
  | RunHandler h => do! run_handler h in ret tt
  | RunWork i => run_work i
  | RunNotice n => run_notice n
  end.
(** [mutex_unlock(&tb->lock); ...; mutex_lock(&tb->lock);] *)
Definition unlocked : MM unit :=
  let! l := (λ s, let '(l, w) := m_arrivals (m_w s) in (Ok l, s <| m_w := w |>)) in
  for_each l run_marrival.

(** *** Checks *)

Definition tb_x1_pcie_owner : MM unit :=
  let! s := get in
  let d := m_dom s in
  if negb (d_cm_ops d) || negb (d_nhi d) || negb (d_nhi_dev d) || d_going_away d ||
     negb (d_nopcie d) then fail (-EPERM) else
  if negb (d_driver d) || negb (d_dma_dev d) || negb (d_parent d) then fail (-EPERM) else
  let! owner := mcall1 OwnerNode in
  if owner !=? 0 then ret tt else fail (-ENODEV).

Definition tb_x1_pcie_port_state (port : option pref) (enabled : bool) : MM unit :=
  match port with
  | None => fail (-ENODEV)
  | Some p =>
      let! s := get in
      let q := o_port (m_objs s) p in
      if (po_cap_adap q =? 0) || po_disabled q then fail (-ENODEV) else
      let! r := mcall2 (PortRead p (po_cap_adap q + m_adp_pcie_cs_0)) in
      if r.1 !=? 0 then fail r.1 else
      if r.2 =? U32_MAX then fail (-EIO) else
      if eqb (tst r.2 m_adp_pcie_cs_0_pe) enabled then ret tt else fail (-EBUSY)
  end.
Definition both_ports (up down : pref) (enabled : bool) : MM unit :=
  do! tb_x1_pcie_port_state (Some up) enabled in tb_x1_pcie_port_state (Some down) enabled.

(** The only PCIe upstream adapter of [sw], [None] if there is none or more. *)
Definition single_up (o : cm_objs) (sw : Z) : option pref :=
  match filter (λ p, tb_port_is_pcie_up (o_port o p)) (ports_of o sw) with
  | [p] => Some p
  | _ => None
  end.
Definition map_pcie_down (o : cm_objs) (root : Z) : option pref :=
  m_map_pcie_down (o_switch o) (o_port o) root.

Definition adapters (o : cm_objs) (sw : Z) : option (pref * pref) :=
  root ← o_root o;
  up ← single_up o sw;
  down ← map_pcie_down o root;
  if bool_decide (po_sw (o_port o up) = Some sw) && bool_decide (po_sw (o_port o down) = Some root) &&
     tb_port_is_pcie_down (o_port o down)
  then Some (up, down) else None.
Definition tb_x1_pcie_adapters (sw : Z) : MM (pref * pref) :=
  let! s := get in
  match adapters (m_objs s) sw with Some p => ret p | None => fail (-ENODEV) end.

Definition is_pci (o : cm_objs) (t : Z) : bool := bool_decide (tn_type (o_tunnel o t) = TB_TUNNEL_PCI).
Definition is_dma (o : cm_objs) (t : Z) : bool := bool_decide (tn_type (o_tunnel o t) = TB_TUNNEL_DMA).
Definition path_active (o : cm_objs) (p : option Z) : bool :=
  match p with Some p => o_path o p | None => false end.

(** [tunnel] runs between the two adapters over two paths, both activated. *)
Definition tunnel_active (o : cm_objs) (t : Z) (up down : pref) : bool :=
  let n := o_tunnel o t in
  tn_tb n && bool_decide (tn_src_port n = Some down) && bool_decide (tn_dst_port n = Some up) &&
  bool_decide (tn_state n = TB_TUNNEL_ACTIVE) && (tn_npaths n =? 2) &&
  bool_decide (is_Some (tn_path0 n)) && bool_decide (is_Some (tn_path1 n)) &&
  negb (bool_decide (tn_path0 n = tn_path1 n)) &&
  path_active o (tn_path0 n) && path_active o (tn_path1 n).

Definition tb_x1_pcie_active_tunnel (up down : pref) : MM Z :=
  let! s := get in
  let o := m_objs s in
  if existsb (is_dma o) (o_tunnel_list o) then fail (-EBUSY) else
  match filter (λ t, is_pci o t) (o_tunnel_list o) with
  | [t] =>
      if negb (tunnel_active o t up down) then fail (-EIO) else
      let! bad := mcall1 (TunnelInvalid t) in
      if bad !=? 0 then fail (-EIO) else ret t
  | _ => fail (-EIO)
  end.

(** *** Approval *)

(** [tb_tunnel_pci] inside the private window; elsewhere it is an ordinary
    handler. *)
Definition tunnel_pci_checks (sw : Z) : MM (pref * pref) :=
  let! s := get in
  let o := m_objs s in
  match x_pcie_up (m_x s), o_root o ≫= map_pcie_down o with
  | Some up, Some down =>
      if negb (bool_decide (po_sw (o_port o up) = Some sw)) || negb (tb_port_is_pcie_up (o_port o up)) ||
         negb (bool_decide (x_pcie_down (m_x s) = Some down)) ||
         negb (bool_decide (po_sw (o_port o down) = o_root o)) ||
         negb (tb_port_is_pcie_down (o_port o down))
      then fail (-EPERM) else
      do! both_ports up down false in ret (up, down)
  | _, _ => fail (-EPERM)
  end.
Definition tunnel_activate (t : Z) : MM unit :=
  let! s := get in
  let '(n, a0, a1, w) := m_tunnel_activate (o_tunnel (m_objs s) t) (m_w s) in
  modify (λ s, s <| m_w := w |> <| m_objs := (m_objs s)
    <| o_tunnel := upd t (λ _, n) (o_tunnel (m_objs s)) |>
    <| o_path := λ p, if bool_decide (tn_path0 n = Some p) then a0
                      else if bool_decide (tn_path1 n = Some p) then a1 else o_path (m_objs s) p |> |>).
Definition tb_tunnel_pci (sw : Z) : MM Z :=
  let! blocked := tb_x1_retained_block in
  if blocked : bool then ret (-ESHUTDOWN) else
  let! s := get in
  if negb (x_pcie_authorizing (m_x s)) then ordinary_body TunnelPci else
  attempt
    (let! p := tunnel_pci_checks sw in
     do! notices in
     let! t := (λ s, let '(t, n, w) := m_tunnel_alloc (m_objs s) (m_w s) in
                (Ok (t, n), s <| m_w := w |>)) in
     do! mark (TunnelAllocPci p.1 p.2) in
     let '(t, n) := t in
     if t =? 0 then fail (-ENOMEM) else
     do! mobjs (λ o, o <| o_tunnel := upd t (λ _, n) (o_tunnel o) |>) in
     let! r := mcall1 (TunnelActivate t) in
     do! tunnel_activate t in
     if r !=? 0 then do! mcall0 (TunnelPut t) in fail (-EIO) else
     do! mcall0 (PcieL1Enable sw) in
     do! mcall0 (XhciConnect sw) in
     mobjs (λ o, o <| o_tunnel_list := o_tunnel_list o ++ [t] |>)).

(** [tb_domain_approve_switch]: refuses, or hands the callback's result on. *)
Definition domain_approve (sw : Z) : MM Z :=
  let! r := mcall1 (DomainApprove sw) in
  if r !=? 0 then ret r else tb_tunnel_pci sw.

Definition topology_or (sw uid : Z) (authorized : bool) : MM unit :=
  let! s := get in
  if negb (sw_uid (o_switch (m_objs s) sw) =? uid) || negb (tb_x1_pcie_topology (m_objs s) sw authorized)
  then fail (-ENODEV) else ret tt.

(** [sw]: NULL is [None]. *)
Definition tb_x1_approve_pcie (sw : option Z) (uid : Z) : MM unit :=
  match sw with
  | None => fail (-EINVAL)
  | Some sw =>
      if uid =? 0 then fail (-EINVAL) else
      do! tb_x1_pcie_owner in
      do! topology_or sw uid false in
      let! s := get in
      if x_pcie_attempted (m_x s) then fail (-EALREADY) else
      if existsb (λ t, is_pci (m_objs s) t || is_dma (m_objs s) t) (o_tunnel_list (m_objs s))
      then fail (-EBUSY) else
      let! p := tb_x1_pcie_adapters sw in
      do! mx (λ x, x <| x_pcie_attempted := true |>) in
      do! mark Approving in
      do! both_ports p.1 p.2 false in
      do! mx (λ x, x <| x_pcie_up := Some p.1 |> <| x_pcie_down := Some p.2 |>
                     <| x_pcie_authorizing := true |>) in
      let! r := domain_approve sw in
      do! mx (λ x, x <| x_pcie_authorizing := false |> <| x_pcie_up := None |>
                     <| x_pcie_down := None |>) in
      if r !=? 0 then fail r else
      let! t := tb_x1_pcie_active_tunnel p.1 p.2 in
      do! both_ports p.1 p.2 true in
      do! topology_or sw uid false in
      do! mobjs (λ o, o <| o_switch := upd sw (λ k, k <| sw_authorized := 1 |>) (o_switch o) |>) in
      do! mx (λ x, x <| x_pcie_uid := uid |> <| x_pcie_switch := Some sw |>
                     <| x_pcie_tunnel := Some t |>) in
      mark (Approved sw t)
  end.

Definition tb_x1_pcie_approved (sw uid : Z) : MM (pref * pref) :=
  let! s := get in
  let x := m_x s in
  if negb (x_pcie_attempted x) || x_pcie_authorizing x || bool_decide (is_Some (x_pcie_up x)) ||
     bool_decide (is_Some (x_pcie_down x)) || negb (x_pcie_uid x =? uid) ||
     negb (bool_decide (x_pcie_switch x = Some sw)) || negb (bool_decide (is_Some (x_pcie_tunnel x)))
  then fail (-EPERM) else
  do! topology_or sw uid true in
  let! p := tb_x1_pcie_adapters sw in
  let! t := tb_x1_pcie_active_tunnel p.1 p.2 in
  let! s := get in
  if bool_decide (x_pcie_tunnel (m_x s) = Some t) then ret p else fail (-ENODEV).

Definition tb_x1_validate_pcie (sw : option Z) (uid : Z) : MM unit :=
  match sw with
  | None => fail (-EINVAL)
  | Some sw =>
      if uid =? 0 then fail (-EINVAL) else
      do! tb_x1_pcie_owner in
      let! p := tb_x1_pcie_approved sw uid in
      do! both_ports p.1 p.2 true in
      do! tb_x1_pcie_approved sw uid in ret tt
  end.

(** *** Hold *)

Definition stale (s : cm_state W V) : bool :=
  let x := m_x s in
  negb (x_retained x) || negb (x_hold_attempted x) || negb (x_hold_ready x) ||
  negb (bool_decide (is_Some (x_held_tunnel x))) || negb (bool_decide (is_Some (x_held_switch x))) ||
  negb (bool_decide (o_root (m_objs s) = x_held_root x)) ||
  negb (x_generation x =? x_retained_generation x) || (x_pending_events x !=? 0).

(** The pinned tunnel between the pinned adapters over the pinned paths. *)
Definition pinned_tunnel (s : cm_state W V) (t : Z) (p : pref * pref) : bool :=
  let n := o_tunnel (m_objs s) t in
  let x := m_x s in
  is_pci (m_objs s) t && bool_decide (x_held_up x = Some p.1) && bool_decide (x_held_down x = Some p.2) &&
  bool_decide (tn_src_port n = Some p.2) && bool_decide (tn_dst_port n = Some p.1) &&
  (tn_npaths n =? 2) && bool_decide (tn_path0 n = x_held_path0 x) &&
  bool_decide (tn_path1 n = x_held_path1 x).
Definition two_paths (s : cm_state W V) (t : Z) : bool :=
  let n := o_tunnel (m_objs s) t in
  bool_decide (is_Some (x_held_path0 (m_x s))) && bool_decide (is_Some (x_held_path1 (m_x s))) &&
  negb (bool_decide (tn_path0 n = tn_path1 n)).
(** [tb_path_is_invalid(paths[0]) || tb_path_is_invalid(paths[1])] *)
Definition paths_invalid (n : tb_tunnel) : MM bool :=
  match tn_path0 n, tn_path1 n with
  | Some p, Some q =>
      let! a := mcall1 (PathInvalid p) in
      if a !=? 0 then ret true else
      let! b := mcall1 (PathInvalid q) in ret (b !=? 0)
  | _, _ => fault
  end.
(** [list_for_each_entry(...) if (entry != tunnel) return -EBUSY;] *)
Definition foreign (s : cm_state W V) (t : Z) : bool :=
  existsb (λ e, negb (e =? t)) (o_tunnel_list (m_objs s)).

Definition held_identity (s : cm_state W V) (t sw uid : Z) (authorized : bool) : bool :=
  let x := m_x s in
  (x_pcie_uid x =? uid) && bool_decide (x_pcie_switch x = Some sw) &&
  bool_decide (x_pcie_tunnel x = Some t) && (sw_uid (o_switch (m_objs s) sw) =? uid) &&
  tb_x1_pcie_topology (m_objs s) sw authorized.

Definition tb_x1_retained_check (uid : Z) : MM unit :=
  let! s := get in
  if stale s then fail (-ESTALE) else
  match x_held_tunnel (m_x s), x_held_switch (m_x s) with
  | Some t, Some sw =>
      do! tb_x1_pcie_owner in
      let! s := get in
      if (uid =? 0) || negb (held_identity s t sw uid (negb (x_stop_complete (m_x s)))) then fail (-ENODEV) else
      let! p := tb_x1_pcie_adapters sw in
      let! s := get in
      if foreign s t then fail (-EBUSY) else
      if negb (length (o_tunnel_list (m_objs s)) =? 1)%nat || negb (tn_tb (o_tunnel (m_objs s) t)) ||
         negb (pinned_tunnel s t p) || negb (two_paths s t) then fail (-EIO) else
      let! bad := paths_invalid (o_tunnel (m_objs s) t) in
      if bad : bool then fail (-EIO) else
      let! s := get in
      if x_generation (m_x s) =? x_retained_generation (m_x s) then ret tt else fail (-ESTALE)
  | _, _ => fail (-ESTALE)
  end.

Definition hold_checks (uid : Z) (p : pref * pref) : MM unit :=
  do! tb_x1_retained_check uid in
  do! tb_x1_pcie_port_state (Some p.1) true in
  do! tb_x1_retained_check uid in
  do! tb_x1_pcie_port_state (Some p.2) true in
  tb_x1_retained_check uid.

(** [tb_switch_get], [tb_tunnel_get], then the pinned identities. *)
Definition pin (root sw t : Z) (p : pref * pref) (generation : Z) : MM unit :=
  do! mcall0 (SwitchGet root) in
  do! mcall0 (SwitchGet sw) in
  do! mcall0 (TunnelGet t) in
  do! modify (λ s, s <| m_x := (m_x s)
    <| x_hold_attempted := true |> <| x_held_root := Some root |> <| x_held_switch := Some sw |>
    <| x_held_tunnel := Some t |> <| x_held_path0 := tn_path0 (o_tunnel (m_objs s) t) |>
    <| x_held_path1 := tn_path1 (o_tunnel (m_objs s) t) |>
    <| x_held_up := Some p.1 |> <| x_held_down := Some p.2 |>
    <| x_retained_generation := generation |> <| x_retained := true |> |>) in
  do! mark (Pinned root sw t) in
  do! mobjs (λ o, o <| o_hotplug_active := false |>) in
  mx (λ x, x <| x_hold_ready := true |>).

Definition tb_x1_hold_pcie (sw : option Z) (uid : Z) : MM unit :=
  match sw with
  | None => fail (-EINVAL)
  | Some sw =>
      if uid =? 0 then fail (-EINVAL) else
      do! tb_x1_pcie_owner in
      let! s := get in
      if x_hold_attempted (m_x s) || x_retained (m_x s) then fail (-EALREADY) else
      let! p := tb_x1_pcie_approved sw uid in
      let! s := get in
      match x_pcie_tunnel (m_x s), o_root (m_objs s) with
      | Some t, Some root =>
          if foreign s t then fail (-EBUSY) else
          do! notices in
          let! s := get in
          if x_pending_events (m_x s) !=? 0 then fail (-EBUSY) else
          do! notices in
          let! s := get in
          do! pin root sw t p (x_generation (m_x s)) in
          on_error (hold_checks uid p) (mx (λ x, x <| x_hold_ready := false |>))
      | _, _ => fault
      end
  end.

(** *** Stop *)

Definition rcpt (f : tb_x1_tunnel_stop → tb_x1_tunnel_stop) : MM unit :=
  modify (λ s, s <| m_stop := f (m_stop s) |>).
Definition receipt_used (s : cm_state W V) : bool :=
  ts_attempted (m_stop s) || ts_finished (m_stop s) || (ts_error (m_stop s) !=? 0) || m_live s.
Definition set_path (p : option Z) (a : bool) (m : Z → bool) : Z → bool :=
  match p with Some p => upd p (λ _, a) m | None => m end.

(** What the deactivation works on. *)
Definition tunnel_part (s : cm_state W V) (t : Z) : tunnel_state * bool * bool * tb_x1_tunnel_stop :=
  let n := o_tunnel (m_objs s) t in
  (tn_state n, path_active (m_objs s) (tn_path0 n), path_active (m_objs s) (tn_path1 n), m_stop s).
Definition set_tunnel (o : cm_objs) (t : Z) (st : tunnel_state) (a0 a1 : bool) : cm_objs :=
  let n := o_tunnel o t in
  o <| o_tunnel := upd t (λ n, n <| tn_state := st |>) (o_tunnel o) |>
    <| o_path := set_path (tn_path1 n) a1 (set_path (tn_path0 n) a0 (o_path o)) |>.
Definition set_tunnel_part (t : Z) (x : tunnel_state * bool * bool * tb_x1_tunnel_stop) : MM unit :=
  modify (λ s, s <| m_objs := set_tunnel (m_objs s) t x.1.1.1 x.1.1.2 x.1.2 |> <| m_stop := x.2 |>).

Fixpoint run_deactivate (t uid : Z) (h : helper W (tunnel_state * bool * bool * tb_x1_tunnel_stop)) : MM Z :=
  match h with
  | Finish f =>
      do! notices in
      let! s := get in
      let '(r, x, w) := f (tunnel_part s t) (m_w s) in
      do! modify (λ s, s <| m_w := w |>) in
      do! set_tunnel_part t x in
      ret r
  | Callback f k =>
      do! notices in
      let! s := get in
      let '(x, w) := f (tunnel_part s t) (m_w s) in
      do! modify (λ s, s <| m_w := w |>) in
      do! set_tunnel_part t x in
      let! r := attempt (tb_x1_retained_check uid) in
      run_deactivate t uid (k r)
  end.

Definition tunnel_off (s : cm_state W V) (t : Z) : bool :=
  let n := o_tunnel (m_objs s) t in
  bool_decide (tn_state n = TB_TUNNEL_INACTIVE) && negb (path_active (m_objs s) (tn_path0 n)) &&
  negb (path_active (m_objs s) (tn_path1 n)).
Definition tunnel_on (s : cm_state W V) (t : Z) : bool :=
  let n := o_tunnel (m_objs s) t in
  bool_decide (tn_state n = TB_TUNNEL_ACTIVE) && path_active (m_objs s) (tn_path0 n) &&
  path_active (m_objs s) (tn_path1 n).

(** [tcm->x1_held_switch->authorized = 0; tcm->x1_stop_complete = true;] *)
Definition stop_done (sw : Z) : MM unit :=
  do! mobjs (λ o, o <| o_switch := upd sw (λ k, k <| sw_authorized := 0 |>) (o_switch o) |>) in
  mx (λ x, x <| x_stop_complete := true |>).

Definition tunnel_stop_body (uid : Z) : MM unit :=
  do! tb_x1_retained_check uid in
  let! s := get in
  match x_held_tunnel (m_x s), x_held_switch (m_x s) with
  | Some t, Some sw =>
      if negb (tunnel_on s t) then fail (-EIO) else
      do! modify (λ s, s <| m_live := true |>) in
      do! mark (DeactivateRetained t) in
      let! h := (λ s, (Ok (m_deactivate (m_w s)), s)) in
      let! r := run_deactivate t uid h in
      do! modify (λ s, s <| m_live := false |>) in
      do! ok_or_fail r in
      do! tb_x1_retained_check uid in
      let! s := get in
      if negb (ts_attempted (m_stop s)) || negb (ts_finished (m_stop s)) || (ts_error (m_stop s) !=? 0) ||
         negb (tunnel_off s t) then fail (-EIO) else
      do! stop_done sw in
      mark (TunnelStopped t)
  | _, _ => fault
  end.

(** [fail:], which returns what the receipt has. *)
Definition stop_failed (e : Z) : MM unit :=
  do! rcpt (λ t, t <| ts_attempted := true |> <| ts_finished := false |>) in
  do! rcpt (λ t, if ts_error t =? 0 then t <| ts_error := if e <? 0 then e else -EIO |> else t) in
  let! s := get in
  fail (ts_error (m_stop s)).

Definition tb_x1_stop_pcie_retained (uid : Z) : MM unit :=
  if uid =? 0 then fail (-EINVAL) else
  do! tb_x1_pcie_owner in
  let! s := get in
  if x_stop_attempted (m_x s) then fail (-EALREADY) else
  if receipt_used s then fail (-EINVAL) else
  do! mx (λ x, x <| x_stop_attempted := true |>) in
  do! modify (λ s, s <| m_stop_stage := "cm-admission" |>) in
  let! e := attempt (tunnel_stop_body uid) in
  if e !=? 0 then stop_failed e else ret tt.

Definition tunnel_pulled_body (uid : Z) : MM unit :=
  let! s := get in
  let x := m_x s in
  match x_held_tunnel x, x_held_switch x with
  | Some t, Some sw =>
      if negb (x_retained x) || negb (x_hold_attempted x) || negb (x_hold_ready x) ||
         negb (bool_decide (o_root (m_objs s) = x_held_root x)) || negb (held_identity s t sw uid true)
      then fail (-ENODEV) else
      let! p := tb_x1_pcie_adapters sw in
      if negb (pinned_tunnel s t p) || negb (tunnel_on s t) then fail (-EIO) else
      do! mobjs (λ o, set_tunnel o t TB_TUNNEL_INACTIVE false false) in
      do! stop_done sw in
      do! mark (TunnelPulled t) in
      do! rcpt (λ t, t <| ts_finished := true |>) in
      modify (λ s, s <| m_stop_stage := "pulled-inactive-host-reset-pending" |>)
  | _, _ => fail (-ENODEV)
  end.

Definition tb_x1_stop_pcie_pulled (uid : Z) : MM unit :=
  if uid =? 0 then fail (-EINVAL) else
  do! tb_x1_pcie_owner in
  let! s := get in
  if x_stop_attempted (m_x s) then fail (-EALREADY) else
  if receipt_used s then fail (-EINVAL) else
  do! mx (λ x, x <| x_stop_attempted := true |>) in
  do! rcpt (λ t, t <| ts_attempted := true |>) in
  do! modify (λ s, s <| m_stop_stage := "pulled-pinned-identity" |>) in
  let! e := attempt (tunnel_pulled_body uid) in
  if e !=? 0 then do! rcpt (λ t, t <| ts_error := e |>) in fail e else ret tt.

Definition tb_x1_pcie_stopped (uid : Z) : MM unit :=
  if uid =? 0 then fail (-EINVAL) else
  do! tb_x1_retained_check uid in
  let! s := get in
  match x_held_tunnel (m_x s), x_held_switch (m_x s) with
  | Some t, Some sw =>
      if negb (x_stop_attempted (m_x s)) || negb (x_stop_complete (m_x s)) ||
         negb (bool_decide (tn_state (o_tunnel (m_objs s) t) = TB_TUNNEL_INACTIVE)) ||
         path_active (m_objs s) (x_held_path0 (m_x s)) || path_active (m_objs s) (x_held_path1 (m_x s)) ||
         (sw_authorized (o_switch (m_objs s) sw) !=? 0) then fail (-EBUSY) else ret tt
  | _, _ => fault
  end.

(** *** Idle freeze *)

Definition tb_x1_idle_freeze : MM unit :=
  do! tb_x1_pcie_owner in
  let! s := get in
  let x := m_x s in
  if x_retained x || x_idle_frozen x || x_hold_attempted x || x_pcie_attempted x ||
     x_cm_retire_attempted x then fail (-EALREADY) else
  match o_root (m_objs s) with
  | None => fail (-EBUSY)
  | Some root =>
      if negb (tb_x1_root_empty (m_objs s)) || negb (bool_decide (o_tunnel_list (m_objs s) = [])) ||
         (x_pending_events x !=? 0) then fail (-EBUSY) else
      do! mx (λ x, x <| x_idle_frozen := true |>) in
      do! notices in
      do! mx (λ x, x <| x_retained := true |>) in
      do! mark (FrozenIdle root) in
      mobjs (λ o, o <| o_hotplug_active := false |>)
  end.

(** *** Retirement *)

Definition ctl_retired (s : cm_state W V) : bool :=
  tb_ctl_x1_retired (ks_ctl (m_chan s)) (d_ctl_nhi (m_dom s)).
Definition going_away (s : cm_state W V) : bool :=
  let d := m_dom s in
  d_cm_ops d && d_nhi d && d_going_away d && d_nopcie d && ctl_retired s && x_retained (m_x s).
Definition groups_empty (o : cm_objs) : bool := forallb (λ g, bool_decide (g = [])) (o_groups o).

Definition tb_x1_idle_cm_check : MM unit :=
  let! s := get in
  let x := m_x s in
  let o := m_objs s in
  if negb (going_away s) || negb (x_idle_frozen x) || o_hotplug_active o || x_hold_attempted x ||
     x_pcie_attempted x || x_cm_retired x || negb (bool_decide (o_tunnel_list o = [])) then fail (-EPERM) else
  if negb (tb_x1_root_empty o) then fail (-EBUSY) else
  if negb (groups_empty o) then fail (-EBUSY) else
  if existsb (λ p, negb (bool_decide (po_sw (o_port o p) = o_root o))) (o_dp_resources o)
  then fail (-EXDEV) else ret tt.

Definition tb_x1_cm_retire_check (uid : Z) : MM unit :=
  let! s := get in
  let x := m_x s in
  let o := m_objs s in
  match x_held_tunnel x, x_held_switch x, x_held_root x with
  | Some t, Some sw, Some root =>
      if negb (going_away s) || o_hotplug_active o || negb (x_hold_attempted x) || negb (x_hold_ready x) ||
         negb (x_stop_attempted x) || negb (x_stop_complete x) || x_cm_retired x ||
         negb (bool_decide (o_root o = Some root)) then fail (-EPERM) else
      if (uid =? 0) || negb (held_identity s t sw uid false) then fail (-ENODEV) else
      let! p := tb_x1_pcie_adapters sw in
      if foreign s t then fail (-EBUSY) else
      if negb (length (o_tunnel_list o) =? 1)%nat || negb (tn_tb (o_tunnel o t)) || negb (tunnel_off s t) ||
         tn_destroy (o_tunnel o t) || negb (pinned_tunnel s t p) || negb (two_paths s t) then fail (-EIO) else
      let! bad := paths_invalid (o_tunnel o t) in
      if bad : bool then fail (-EIO) else
      if negb (groups_empty o) then fail (-EBUSY) else
      if existsb (λ p, negb (bool_decide (po_sw (o_port o p) = Some root)) &&
                       negb (bool_decide (po_sw (o_port o p) = Some sw))) (o_dp_resources o)
      then fail (-EXDEV) else ret tt
  | _, _, _ => fail (-EPERM)
  end.

Definition rret (f : cm_receipt → cm_receipt) : MM unit := modify (λ s, s <| m_retire := f (m_retire s) |>).
Definition receipt_pristine (r : cm_receipt) : bool :=
  negb (ct_workers_drained r) && negb (ct_tunnel_released r) && negb (ct_routers_removed r) &&
  negb (ct_finished r) && (ct_error r =? 0) && bool_decide (ct_stage r = "").
(** [check_stopped(context)], then the check of the manager. *)
Definition both_checks (check : MM unit) : MM unit :=
  let! r := mcall1 CheckStopped in
  do! ok_or_fail r in check.
(** [goto fail;] *)
Definition retire_fail (m : MM unit) : MM unit :=
  let! e := attempt m in
  if e !=? 0 then do! rret (λ r, r <| ct_error := e |>) in fail e else ret tt.

Definition drain_and_check (check : MM unit) : MM unit :=
  do! mcall0 DrainWork in
  do! unlocked in
  do! rret (λ r, r <| ct_workers_drained := true |>) in
  do! both_checks check in
  let! s := get in
  if x_pending_events (m_x s) !=? 0 then fail (-EBUSY) else ret tt.

(** [tb_remove_dp_resources(root); tb->root_switch = NULL; ...unplugged...] *)
Definition hide_root (root : Z) (also : Z) : MM unit :=
  let! s := get in
  match tb_remove_dp_resources 3 (m_objs s) root (o_dp_resources (m_objs s)) with
  | None => fault
  | Some l =>
      mobjs (λ o, o <| o_dp_resources := l |> <| o_root := None |>
        <| o_switch := upd also (λ k, k <| sw_is_unplugged := true |>)
                        (upd root (λ k, k <| sw_is_unplugged := true |>) (o_switch o)) |>)
  end.
(** [tb_switch_remove_x1_powered_off(root)], with the lock dropped. *)
Definition remove_powered_off (root : Z) : MM unit :=
  do! mcall0 (RemovePoweredOff root) in
  do! modify (λ s, s <| m_objs := (m_objs s) <| o_switch := λ z,
      (o_switch (m_objs s) z) <| sw_registered := m_removed root (o_switch (m_objs s)) (m_w s) z |> |> |>) in
  unlocked.
Definition registered (z : Z) : MM bool := let! s := get in ret (sw_registered (o_switch (m_objs s) z)).

Definition retire_done : MM unit :=
  do! rret (λ r, r <| ct_routers_removed := true |>) in
  do! mx (λ x, x <| x_cm_retired := true |>) in
  do! mark Retired in
  rret (λ r, r <| ct_finished := true |> <| ct_stage := "cm-retired-domain-retained" |>).

Definition idle_retire_body : MM unit :=
  do! drain_and_check tb_x1_idle_cm_check in
  do! rret (λ r, r <| ct_tunnel_released := true |>) in
  let! s := get in
  match o_root (m_objs s) with
  | None => fault
  | Some root =>
      do! mcall0 (SwitchGet root) in
      do! hide_root root root in
      do! rret (λ r, r <| ct_stage := "remove-powered-off-root" |>) in
      do! remove_powered_off root in
      let! r := registered root in
      if r : bool then fail (-EBUSY) else
      do! retire_done in
      mcall0 (SwitchPut root)
  end.

Definition retire_body (uid : Z) : MM unit :=
  do! drain_and_check (tb_x1_cm_retire_check uid) in
  do! rret (λ r, r <| ct_stage := "release-stopped-tunnel" |>) in
  let! s := get in
  match x_held_tunnel (m_x s), x_held_switch (m_x s), x_held_root (m_x s) with
  | Some t, Some sw, Some root =>
      let! e := mcall1 (RetireTunnel t) in
      do! ok_or_fail e in
      do! modify (λ s, s <| m_objs := (m_objs s)
        <| o_tunnel_list := m_retired_list (o_tunnel_list (m_objs s)) (m_w s) |> |>) in
      do! rret (λ r, r <| ct_tunnel_released := true |>) in
      do! mx (λ x, x <| x_held_tunnel := None |> <| x_pcie_tunnel := None |>
        <| x_held_path0 := None |> <| x_held_path1 := None |> <| x_held_up := None |>
        <| x_held_down := None |> <| x_pcie_up := None |> <| x_pcie_down := None |>) in
      do! hide_root root sw in
      do! rret (λ r, r <| ct_stage := "remove-powered-off-routers" |>) in
      do! remove_powered_off root in
      let! a := registered root in
      let! b := registered sw in
      if (a : bool) || (b : bool) then fail (-EBUSY) else
      do! mx (λ x, x <| x_held_root := None |> <| x_held_switch := None |> <| x_pcie_switch := None |>) in
      do! retire_done in
      do! mcall0 (SwitchPut sw) in
      mcall0 (SwitchPut root)
  | _, _, _ => fault
  end.

(** The entry of both retirements. *)
Definition retire_entry (check body : MM unit) : MM unit :=
  let! s := get in
  if negb (d_cm_ops (m_dom s)) then fail (-EPERM) else
  if x_cm_retire_attempted (m_x s) || ct_attempted (m_retire s) then fail (-EALREADY) else
  if negb (receipt_pristine (m_retire s)) then fail (-EINVAL) else
  do! both_checks check in
  do! mx (λ x, x <| x_cm_retire_attempted := true |>) in
  do! mark Retiring in
  do! rret (λ r, r <| ct_attempted := true |> <| ct_stage := "drain-cm-work" |>) in
  retire_fail body.

Definition tb_x1_idle_retire_cm : MM unit := retire_entry tb_x1_idle_cm_check idle_retire_body.
Definition tb_x1_retire_cm (uid : Z) : MM unit := retire_entry (tb_x1_cm_retire_check uid) (retire_body uid).

(** ** Histories

    Everything that can happen to a domain: the private operations with any
    arguments, on the caller's receipts or on fresh ones; ordinary handlers,
    queued work and notifications; steps of its control channel; the interface
    going away. *)
Inductive mop :=
| MApprove (sw : option Z) (uid : Z) | MValidate (sw : option Z) (uid : Z)
| MHold (sw : option Z) (uid : Z) | MStopRetained (uid : Z) | MStopPulled (uid : Z)
| MStopped (uid : Z) | MIdleFreeze | MRetire (uid : Z) | MIdleRetire
| MFreezeNoirq | MThawNoirq | MArrival (a : marrival)
| MFreshStop | MFreshRetire | MGoingAway | MChannel (o : kop).

Definition on_channel (m : M (chan_state V) unit) : MM unit := λ s,
  let '(r, c) := m (m_chan s) in (r, s <| m_chan := c |>).

Definition run_mop (o : mop) : MM unit :=
  match o with
  | MApprove sw uid => tb_x1_approve_pcie sw uid
  | MValidate sw uid => tb_x1_validate_pcie sw uid
  | MHold sw uid => tb_x1_hold_pcie sw uid
  | MStopRetained uid => tb_x1_stop_pcie_retained uid
  | MStopPulled uid => tb_x1_stop_pcie_pulled uid
  | MStopped uid => tb_x1_pcie_stopped uid
  | MIdleFreeze => tb_x1_idle_freeze
  | MRetire uid => tb_x1_retire_cm uid
  | MIdleRetire => tb_x1_idle_retire_cm
  | MFreezeNoirq => do! tb_freeze_noirq in ret tt
  | MThawNoirq => do! tb_thaw_noirq in ret tt
  | MArrival a => run_marrival a
  | MFreshStop => modify (λ s, s <| m_stop := tunnel_stop_zero |> <| m_live := false |>)
  | MFreshRetire => modify (λ s, s <| m_retire := cm_receipt_zero |>)
  | MGoingAway => modify (λ s, s <| m_dom := (m_dom s) <| d_going_away := true |> |>)
  | MChannel o => on_channel (run_kop o)
  end.
Definition run_mops (l : list mop) : MM unit :=
  for_each l (λ o, do! attempt (run_mop o) in ret tt).

(** [tb_probe] zeroes the private fields; the objects are whatever the ordinary
    manager has made of the domain. *)
Definition cm_boot (d : tb_dom) (o : cm_objs) (c : chan_state V) (w : W) : cm_state W V :=
  CmState d o x1_cm_zero [] 0 tunnel_stop_zero "" false cm_receipt_zero c [] w.
End manager.
