(* ===== verification/RetainedLogic.v ===== *)
(** * The retained tunnel: what checks and notifications leave alone

    Checks, notifications and blocked handlers change nothing but the counters
    of events and the record of calls.  [Quiet] says so, [quietly] carries it
    through the code. *)

From S2P Require Import Prelude Wp HostData Ctl Retained.

(** ** Counting *)

(** Notifications in a record of calls. *)
Definition is_notified (e : mevent) : bool := match e.1 with Notified => true | _ => false end.
Definition notified (L : list mevent) : Z := Z.of_nat (length (filter is_notified L)).

Lemma notified_app L1 L2 : notified (L1 ++ L2) = notified L1 + notified L2.
Proof. unfold notified. rewrite filter_app, length_app. lia. Qed.
Lemma notified_one e : notified [e] = Z.b2z (is_notified e).
Proof. unfold notified. cbn. by destruct (is_notified e). Qed.

Lemma u32_add a b : u32 (u32 a + b) = u32 (a + b).
Proof. unfold u32. by rewrite Zplus_mod_idemp_l. Qed.
Lemma u64_add a b : u64 (u64 a + b) = u64 (a + b).
Proof. unfold u64. by rewrite Zplus_mod_idemp_l. Qed.

Section quiet.
Context {W V : Type} `{CmEnv W} `{CtlEnv V}.
Notation MM := (M (cm_state W V)).
Implicit Types (s : cm_state W V) (P : mcall → bool).

(** The pending events are the queued and finishing workers, and [k] more. *)
Definition Counted (k : Z) s : Prop :=
  x_pending_events (m_x s) = u32 (Z.of_nat (length (m_works s) + m_finishing s) + k).

(** Events that may go by: notifications; acknowledging and queueing only while
    the ordinary manager runs; calls of [P]. *)
Definition passing P (retained : bool) (e : mevent) : bool :=
  match e.1 with
  | Notified => true
  | KmallocEvent | AckPlug | AckNotification => negb retained
  | c => P c
  end.

Record Quiet P s s' : Prop := {
  q_dom : m_dom s' = m_dom s;
  q_objs : m_objs s' = m_objs s;
  q_x : m_x s' = (m_x s) <| x_generation := x_generation (m_x s') |>
                         <| x_pending_events := x_pending_events (m_x s') |>;
  q_stop : m_stop s' = m_stop s;
  q_live : m_live s' = m_live s;
  q_retire : m_retire s' = m_retire s;
  q_chan : m_chan s' = m_chan s;
  q_log : ∃ t, m_log s' = m_log s ++ t ∧ Forall (λ e, passing P (x_retained (m_x s)) e = true) t ∧
               u64 (x_generation (m_x s')) = u64 (x_generation (m_x s) + notified t);
  q_count : ∀ k, Counted k s → Counted k s';
}.

#[export] Instance Quiet_preorder P : PreOrder (Quiet P).
Proof.
  split.
  - intros s. constructor; try done; [by destruct (m_x s)|].
    exists []. rewrite app_nil_r. split_and!; [done|constructor|]. f_equal. unfold notified. cbn. lia.
  - intros a b c [A1 A2 A3 A4 A5 A6 A7 (t&A8&A9&A10) A11] [B1 B2 B3 B4 B5 B6 B7 (u&B8&B9&B10) B11].
    constructor; try congruence; [rewrite B3, A3; done| |auto].
    exists (t ++ u). split_and!; [by rewrite B8, A8, app_assoc| |].
    + apply Forall_app. split; [done|]. by rewrite A3 in B9.
    + rewrite B10, <- u64_add, A10, u64_add, notified_app. f_equal. lia.
Qed.

Lemma Quiet_mono P P' s s' : (∀ c, P c = true → P' c = true) → Quiet P s s' → Quiet P' s s'.
Proof.
  intros HP [A1 A2 A3 A4 A5 A6 A7 (t&A8&A9&A10) A11]. constructor; try done.
  exists t. split_and!; [done| |done]. eapply Forall_impl; [done|]. intros [c r] Hc. unfold passing in *.
  cbn in *. destruct c; auto.
Qed.

Definition quietly {A} P (m : MM A) s : Prop := wp m (λ _, Quiet P s) (λ _, Quiet P s) s.

Lemma quietly_bind {A B} P (m : MM A) (k : A → MM B) s :
  quietly P m s → (∀ a s', m s = (Ok a, s') → Quiet P s s' → quietly P (k a) s') →
  quietly P (bind m k) s.
Proof.
  unfold quietly, wp, bind. intros Hm Hk. destruct (m s) as [[a|e|] s1]; [|done|done].
  specialize (Hk a s1 eq_refl Hm). destruct (k a s1) as [[b|e|] s2]; [..|done]; by etrans.
Qed.
Lemma quietly_ret {A} P (a : A) s : quietly P (ret a) s.
Proof. unfold quietly, wp. cbn. reflexivity. Qed.
Lemma quietly_fail {A} P e s : quietly P (fail (A:=A) e) s.
Proof. unfold quietly, wp. cbn. reflexivity. Qed.
Lemma quietly_get P s : quietly P get s.
Proof. unfold quietly, wp. cbn. reflexivity. Qed.
Lemma quietly_attempt P (m : MM unit) s : quietly P m s → quietly P (attempt m) s.
Proof. unfold quietly. intros Hm. apply wp_attempt. eapply wp_mono; [done|done|done]. Qed.
Lemma quietly_mono {A} P P' (m : MM A) s :
  (∀ c, P c = true → P' c = true) → quietly P m s → quietly P' m s.
Proof. intros HP Hm. eapply wp_mono; [done|..]; intros; by eapply Quiet_mono. Qed.
(** The same for code that never fails. *)
Definition calm {A} P (m : MM A) s : Prop := wp m (λ _, Quiet P s) (λ _ _, False) s.

Lemma calm_quietly {A} P (m : MM A) s : calm P m s → quietly P m s.
Proof. intros Hm. by eapply wp_mono. Qed.
Lemma calm_bind {A B} P (m : MM A) (k : A → MM B) s :
  calm P m s → (∀ a s', m s = (Ok a, s') → Quiet P s s' → calm P (k a) s') → calm P (bind m k) s.
Proof.
  unfold calm, wp, bind. intros Hm Hk. destruct (m s) as [[a|e|] s1]; [|done|done].
  specialize (Hk a s1 eq_refl Hm). destruct (k a s1) as [[b|e|] s2]; [|done..]. by etrans.
Qed.
Lemma calm_ret {A} P (a : A) s : calm P (ret a) s.
Proof. unfold calm, wp. cbn. reflexivity. Qed.
Lemma calm_get P s : calm P get s.
Proof. unfold calm, wp. cbn. reflexivity. Qed.
Lemma calm_for_each {X} P (l : list X) (body : X → MM unit) s :
  (∀ x s', x ∈ l → Quiet P s s' → calm P (body x) s') → calm P (for_each l body) s.
Proof.
  revert s. induction l as [|x l IH]; intros s Hb; [apply (calm_ret P tt)|].
  apply calm_bind; [apply Hb; [set_solver|reflexivity]|]. intros [] s1 _ Hq.
  apply IH. intros y s2 Hy Hq2. apply Hb; [set_solver|by etrans].
Qed.

Lemma Quiet_retained P s s' : Quiet P s s' → x_retained (m_x s') = x_retained (m_x s).
Proof. intros Hq. by rewrite (q_x _ _ _ Hq). Qed.

(** ** Notifications *)

Lemma calm_mleaf P c s : passing P (x_retained (m_x s)) (c, 0) = true → is_notified (c, 0) = false →
  calm P (mleaf c) s.
Proof.
  intros Hp Hn. unfold calm, wp, mleaf. destruct (m_answer c (m_objs s) (m_w s)) as [[r v] w].
  constructor; try done; [cbn; by destruct (m_x s)|]. exists [(c, r)]. split_and!; [done|by repeat constructor|].
  rewrite notified_one. unfold is_notified in *. cbn in *. rewrite Hn. cbn. f_equal. lia.
Qed.

Lemma calm_invalidate P s : calm P tb_x1_invalidate_pcie s.
Proof.
  unfold calm, wp. cbn. constructor; try done. exists [(Notified, 0)].
  split_and!; [done|by repeat constructor|]. cbn. rewrite notified_one. cbn.
  unfold u64. by rewrite Zmod_mod.
Qed.

(** Only the counter and the queue. *)
Lemma Quiet_counter P s x w n :
  x = (m_x s) <| x_pending_events := x_pending_events x |> →
  (∀ k, Counted k s → x_pending_events x = u32 (Z.of_nat (length w + n) + k)) →
  Quiet P s (s <| m_x := x |> <| m_works := w |> <| m_finishing := n |>).
Proof.
  intros Hx Hk. constructor; try done; cbn.
  - rewrite Hx. done.
  - exists []. rewrite app_nil_r. split_and!; [done|constructor|]. rewrite Hx. cbn. f_equal. unfold notified. cbn. lia.
Qed.

Lemma calm_queue P h s : x_retained (m_x s) = false → calm P (queue_event h) s.
Proof.
  intros Hr. apply calm_bind; [apply calm_mleaf; [cbn; by rewrite Hr|done]|]. intros ev s1 _ Hq.
  destruct (ev.1 =? 0); [apply calm_ret|]. unfold calm, wp. cbn.
  eapply (Quiet_counter P s1 ((m_x s1) <| x_pending_events := _ |>) (m_works s1 ++ [h]) (m_finishing s1)); [done|].
  intros k. unfold Counted. cbn. intros ->. rewrite u32_add, length_app. f_equal. cbn. lia.
Qed.

Lemma calm_notification P err s : x_retained (m_x s) = false → calm P (tb_handle_notification err) s.
Proof.
  intros Hr. unfold tb_handle_notification. destruct err; try apply calm_ret;
    (apply calm_bind; [apply calm_mleaf; [cbn; by rewrite Hr|done]|]); intros ? s1 _ Hq;
    [apply calm_queue; by rewrite (Quiet_retained _ _ _ Hq)|apply calm_ret..].
Qed.

(** One more pending event, and one less again. *)
Lemma calm_bracket P (m : MM unit) s :
  (∀ s, calm P m s) →
  calm P (do! tb_x1_event_pending true in do! m in tb_x1_event_pending false) s.
Proof.
  intros Hm. apply wp_bind, wp_modify. set (s1 := s <| m_x := _ |>). apply wp_bind.
  eapply wp_mono; [apply Hm| |done].
  intros [] s2 [A1 A2 A3 A4 A5 A6 A7 (t&A8&A9&A10) A11]. apply wp_modify. constructor; try done; cbn.
  - rewrite A3. done.
  - exists t. by split_and!.
  - intros k Hk. assert (Counted (k + 1) s1) as H1.
    { unfold Counted in *. cbn. rewrite Hk, u32_add. f_equal. lia. }
    apply A11 in H1. unfold Counted in *. cbn. rewrite H1, u32_add. f_equal. lia.
Qed.

Lemma calm_event P ty err s : calm P (tb_handle_event ty err) s.
Proof.
  apply calm_bracket. clear s. intros s.
  apply calm_bind; [destruct ty; try apply calm_ret; apply calm_invalidate|]. intros _ s1 _ _.
  apply calm_bind; [apply calm_bind; [apply calm_get|intros; apply calm_ret]|].
  intros r s2 [= <- <-] _. destruct (x_retained (m_x s1)) eqn:Er; [apply calm_ret|].
  destruct ty; try apply calm_ret; [by apply calm_notification|].
  apply calm_bind; [apply calm_mleaf; [cbn; by rewrite Er|done]|]. intros _ s3 _ Hq.
  apply calm_queue. by rewrite (Quiet_retained _ _ _ Hq).
Qed.

Lemma calm_worker_done P s : calm P worker_done s.
Proof.
  apply calm_bind; [apply calm_get|]. intros ? s1 [= <- <-] _. destruct (m_finishing s) as [|n] eqn:En; [apply calm_ret|].
  unfold calm, wp. cbn.
  eapply (Quiet_counter P s ((m_x s) <| x_pending_events := _ |>) (m_works s) n); [done|].
  intros k. unfold Counted. cbn. intros ->. rewrite u32_add, En. f_equal. cbn. lia.
Qed.

Lemma calm_notice P n s : calm P (run_notice n) s.
Proof. destruct n; [apply calm_invalidate|apply calm_event|apply calm_worker_done]. Qed.

(** The world moves on. *)
Lemma Quiet_world P s w : Quiet P s (s <| m_w := w |>).
Proof.
  constructor; try done; [cbn; by destruct (m_x s)|]. exists []. rewrite app_nil_r.
  split_and!; [done|constructor|]. f_equal. unfold notified. cbn. lia.
Qed.

Lemma calm_notices P s : calm P notices s.
Proof.
  apply calm_bind; [unfold calm, wp; destruct (m_notices (m_w s)) as [l w]; apply Quiet_world|].
  intros l s1 _ _. apply calm_for_each. intros. apply calm_notice.
Qed.

Lemma calm_mcall2 P c s : P c = true → is_notified (c, 0) = false →
  match c with KmallocEvent | AckPlug | AckNotification => False | _ => True end → calm P (mcall2 c) s.
Proof.
  intros Hp Hn Hc. apply calm_bind; [apply calm_notices|]. intros _ s1 _ _. apply calm_mleaf; [|done].
  unfold passing. cbn. by destruct c.
Qed.
Lemma calm_mcall1 P c s : P c = true → is_notified (c, 0) = false →
  match c with KmallocEvent | AckPlug | AckNotification => False | _ => True end → calm P (mcall1 c) s.
Proof. intros. apply calm_bind; [by apply calm_mcall2|]. intros. apply calm_ret. Qed.
Lemma calm_mcall0 P c s : P c = true → is_notified (c, 0) = false →
  match c with KmallocEvent | AckPlug | AckNotification => False | _ => True end → calm P (mcall0 c) s.
Proof. intros. apply calm_bind; [by apply calm_mcall2|]. intros. apply calm_ret. Qed.

(** *** Blocked handlers *)

Lemma calm_blocked P s : x_retained (m_x s) = true →
  wp tb_x1_retained_block (λ b s', b = true ∧ Quiet P s s') (λ _ _, False) s.
Proof.
  intros Hr. apply wp_bind. unfold tb_x1_retained_mode. apply wp_bind, wp_get, wp_ret. rewrite Hr. cbn [negb].
  apply wp_bind. eapply wp_mono; [apply calm_invalidate| |done]. intros [] s1 Hq. by apply wp_ret.
Qed.
Lemma calm_handler P h s : x_retained (m_x s) = true → calm P (run_handler h) s.
Proof.
  intros Hr. apply wp_bind. eapply wp_mono; [by apply calm_blocked| |done].
  intros ? s1 [-> Hq]. by apply wp_ret.
Qed.
Lemma calm_work P i s : x_retained (m_x s) = true → calm P (run_work i) s.
Proof.
  intros Hr. apply calm_bind; [apply calm_get|]. intros ? s1 [= <- <-] _.
  destruct (m_works s !! i) as [h|] eqn:Ei; [|apply calm_ret].
  apply calm_bind.
  - unfold calm, wp. cbn. replace (s <| m_works := _ |> <| m_finishing := _ |>)
      with (s <| m_x := m_x s |> <| m_works := delete i (m_works s) |> <| m_finishing := S (m_finishing s) |>)
      by by destruct s.
    apply Quiet_counter; [by destruct (m_x s)|]. intros k Hk. rewrite Hk. f_equal.
    rewrite length_delete by eauto. apply lookup_lt_Some in Ei. lia.
  - intros [] s1 _ Hq. apply calm_bind; [apply calm_handler; by rewrite (Quiet_retained _ _ _ Hq)|].
    intros. apply calm_ret.
Qed.
Lemma calm_arrival P a s : x_retained (m_x s) = true → calm P (run_marrival a) s.
Proof.
  intros Hr. destruct a as [h|i|n]; cbn [run_marrival]; [|by apply calm_work|apply calm_notice].
  apply calm_bind; [by apply calm_handler|]. intros. apply calm_ret.
Qed.
Lemma calm_unlocked P s : x_retained (m_x s) = true → calm P unlocked s.
Proof.
  intros Hr. apply calm_bind; [unfold calm, wp; destruct (m_arrivals (m_w s)) as [l w]; apply Quiet_world|].
  intros l s1 _ Hq. apply calm_for_each. intros a s2 _ Hq2. apply calm_arrival.
  by rewrite (Quiet_retained _ _ _ Hq2), (Quiet_retained _ _ _ Hq).
Qed.

(** ** Checks *)

(** Walk a computation that only calls and decides. *)
Ltac quietly_auto :=
  repeat lazymatch goal with
  | |- quietly _ (bind _ _) _ => apply quietly_bind; [|intros ? ? _ _]
  | |- quietly _ (let _ := _ in _) _ => cbv zeta
  | |- quietly _ (if ?b then _ else _) _ => destruct b
  | |- quietly _ (match ?x with _ => _ end) _ => destruct x
  | |- quietly _ (ret _) _ => apply quietly_ret
  | |- quietly _ (fail _) _ => apply quietly_fail
  | |- quietly _ get _ => apply quietly_get
  | |- quietly _ (mcall1 _) _ => apply calm_quietly, calm_mcall1; done
  | |- quietly _ (mcall2 _) _ => apply calm_quietly, calm_mcall2; done
  | |- quietly _ (mcall0 _) _ => apply calm_quietly, calm_mcall0; done
  | |- quietly _ notices _ => apply calm_quietly, calm_notices
  end.

Definition asks (c : mcall) : bool :=
  match c with OwnerNode | TunnelInvalid _ | PathInvalid _ => true | _ => false end.
Definition looks (c : mcall) : bool := match c with PortRead _ _ => true | _ => asks c end.

Lemma wp_quiet {A} P (m : MM A) s (Q : A → cm_state W V → Prop) (E : Z → cm_state W V → Prop) :
  quietly P m s → (∀ a s', Quiet P s s' → Q a s') → (∀ e s', Quiet P s s' → E e s') → wp m Q E s.
Proof. intros Hm HQ HE. by eapply wp_mono. Qed.
Lemma wp_calm {A} P (m : MM A) s (Q : A → cm_state W V → Prop) E :
  calm P m s → (∀ a s', Quiet P s s' → Q a s') → wp m Q E s.
Proof. intros Hm HQ. by eapply wp_mono. Qed.
Lemma quiet_looks s s' : Quiet asks s s' → Quiet looks s s'.
Proof. apply Quiet_mono. by intros []. Qed.

Lemma quietly_owner s : quietly asks tb_x1_pcie_owner s.
Proof. unfold tb_x1_pcie_owner. quietly_auto. Qed.

Lemma quietly_port_state p b s : quietly looks (tb_x1_pcie_port_state p b) s.
Proof.
  unfold tb_x1_pcie_port_state. quietly_auto.
Qed.
Lemma quietly_both_ports up down b s : quietly looks (both_ports up down b) s.
Proof. apply quietly_bind; [apply quietly_port_state|]. intros. apply quietly_port_state. Qed.

Lemma wp_adapters sw s (Q : pref * pref → cm_state W V → Prop) (E : Z → cm_state W V → Prop) :
  (∀ p, adapters (m_objs s) sw = Some p → Q p s) → E (-ENODEV) s → wp (tb_x1_pcie_adapters sw) Q E s.
Proof.
  intros HQ HE. apply wp_bind, wp_get. destruct (adapters (m_objs s) sw) as [p|]; [by apply wp_ret, HQ|by apply wp_fail].
Qed.

Lemma wp_topology sw uid b s (Q : unit → cm_state W V → Prop) (E : Z → cm_state W V → Prop) :
  (sw_uid (o_switch (m_objs s) sw) = uid → tb_x1_pcie_topology (m_objs s) sw b = true → Q tt s) →
  E (-ENODEV) s → wp (topology_or sw uid b) Q E s.
Proof.
  intros HQ HE. apply wp_bind, wp_get. destruct (Z.eqb_spec (sw_uid (o_switch (m_objs s) sw)) uid); [|by apply wp_fail].
  destruct (tb_x1_pcie_topology (m_objs s) sw b); [by apply wp_ret, HQ|by apply wp_fail].
Qed.

Lemma wp_active_tunnel up down s (Q : Z → cm_state W V → Prop) (E : Z → cm_state W V → Prop) :
  (∀ t s', Quiet asks s s' → is_pci (m_objs s) t = true → tunnel_active (m_objs s) t up down = true →
     t ∈ o_tunnel_list (m_objs s) → Q t s') →
  (∀ e s', Quiet asks s s' → E e s') → wp (tb_x1_pcie_active_tunnel up down) Q E s.
Proof.
  intros HQ HE. assert (∀ e, E e s) as HE0 by (intros e; apply HE; reflexivity).
  apply wp_bind, wp_get. cbv zeta. destruct (existsb _ _); [by apply wp_fail|].
  destruct (filter _ _) as [|t [|]] eqn:Ef; try by apply wp_fail.
  assert (t ∈ filter (λ t, is_pci (m_objs s) t) (o_tunnel_list (m_objs s))) as Ht by (rewrite Ef; by left).
  apply list_elem_of_filter in Ht as [Hp Hin]. apply Is_true_true in Hp.
  destruct (tunnel_active _ _ _ _) eqn:Ea; [|by apply wp_fail]. cbn [negb].
  apply wp_bind. eapply (wp_calm asks); [by apply calm_mcall1|]. intros r s1 Hq.
  destruct (r !=? 0); [by apply wp_fail, HE|by apply wp_ret, HQ].
Qed.

(** What a successful check of the approval says. *)
Record approval_facts s (sw uid t : Z) (p : pref * pref) : Prop := {
  af_attempted : x_pcie_attempted (m_x s) = true;
  af_uid : x_pcie_uid (m_x s) = uid;
  af_switch : x_pcie_switch (m_x s) = Some sw;
  af_tunnel : x_pcie_tunnel (m_x s) = Some t;
  af_sw_uid : sw_uid (o_switch (m_objs s) sw) = uid;
  af_topology : tb_x1_pcie_topology (m_objs s) sw true = true;
  af_adapters : adapters (m_objs s) sw = Some p;
  af_pci : is_pci (m_objs s) t = true;
  af_active : tunnel_active (m_objs s) t p.1 p.2 = true;
  af_listed : t ∈ o_tunnel_list (m_objs s);
}.
Lemma q_view P s s' : Quiet P s s' →
  m_objs s' = m_objs s ∧ ∃ g n, m_x s' = (m_x s) <| x_generation := g |> <| x_pending_events := n |>.
Proof. intros Hq. split; [apply Hq|]. eexists _, _. apply Hq. Qed.

Lemma approval_quiet P s s' sw uid t p : Quiet P s s' → approval_facts s sw uid t p → approval_facts s' sw uid t p.
Proof. intros (Eo&g&n&Ex)%q_view [A1 A2 A3 A4 A5 A6 A7 A8 A9 A10]. constructor; by rewrite ?Ex, ?Eo. Qed.

Lemma wp_approved sw uid s (Q : pref * pref → cm_state W V → Prop) (E : Z → cm_state W V → Prop) :
  (∀ p t s', Quiet asks s s' → approval_facts s' sw uid t p → Q p s') →
  (∀ e s', Quiet asks s s' → E e s') → wp (tb_x1_pcie_approved sw uid) Q E s.
Proof.
  intros HQ HE. assert (∀ e, E e s) as HE0 by (intros e; apply HE; reflexivity).
  apply wp_bind, wp_get. cbv zeta. destruct (_ || _) eqn:Eb; [by apply wp_fail|].
  repeat (apply orb_false_elim in Eb as [Eb ?]). repeat match goal with
    | E1 : negb ?b = false |- _ => apply negb_false_iff in E1 end.
  apply wp_bind. eapply wp_topology; [|done]. intros Hu Ht.
  apply wp_bind. eapply wp_adapters; [|done]. intros p Hp.
  apply wp_bind. eapply wp_active_tunnel; [|done]. intros t s1 Hq Hpci Hact Hin.
  apply wp_bind, wp_get.
  destruct (bool_decide (x_pcie_tunnel (m_x s1) = Some t)) eqn:Ht1; [|by apply wp_fail, HE].
  apply bool_decide_eq_true in Ht1.
  apply wp_ret, (HQ _ t); [done|]. destruct (q_view _ _ _ Hq) as (Eo&g&n&Ex). rewrite Ex in Ht1.
  constructor; rewrite ?Eo, ?Ex; try done; [by apply Z.eqb_eq|by eapply bool_decide_eq_true].
Qed.

(** What a successful check of the held tunnel says. *)
Record held_facts s (uid t sw : Z) (p : pref * pref) : Prop := {
  hf_retained : x_retained (m_x s) = true;
  hf_hold : x_hold_attempted (m_x s) = true;
  hf_ready : x_hold_ready (m_x s) = true;
  hf_tunnel : x_held_tunnel (m_x s) = Some t;
  hf_switch : x_held_switch (m_x s) = Some sw;
  hf_root : o_root (m_objs s) = x_held_root (m_x s);
  hf_identity : held_identity s t sw uid (negb (x_stop_complete (m_x s))) = true;
  hf_adapters : adapters (m_objs s) sw = Some p;
  hf_pinned : pinned_tunnel s t p = true;
  hf_paths : two_paths s t = true;
  hf_generation : x_generation (m_x s) = x_retained_generation (m_x s);
}.

Lemma wp_paths_invalid s0 s t p (Q : bool → cm_state W V → Prop) E :
  two_paths s t = true → pinned_tunnel s t p = true →
  (∀ b s', Quiet asks s0 s' → Q b s') → wp (paths_invalid (o_tunnel (m_objs s) t)) Q E s0.
Proof.
  intros Ht Hp HQ. unfold two_paths, pinned_tunnel in *.
  repeat (apply andb_prop in Ht as [Ht ?]). repeat (apply andb_prop in Hp as [Hp ?]).
  repeat match goal with E1 : bool_decide _ = true |- _ => apply bool_decide_eq_true in E1 end.
  assert (is_Some (tn_path0 (o_tunnel (m_objs s) t)) ∧ is_Some (tn_path1 (o_tunnel (m_objs s) t))) as [[a Ea] [b Eb]]
    by (split; congruence).
  unfold paths_invalid. rewrite Ea, Eb.
  apply wp_bind. eapply (wp_calm asks); [by apply calm_mcall1|]. intros r s1 Hq.
  destruct (r !=? 0); [by apply wp_ret, HQ|]. apply wp_bind. eapply (wp_calm asks); [by apply calm_mcall1|].
  intros r2 s2 Hq2. apply wp_ret, HQ. by etrans.
Qed.

Lemma held_same P s s' uid t sw b p : Quiet P s s' →
  held_identity s' t sw uid b = held_identity s t sw uid b ∧
  pinned_tunnel s' t p = pinned_tunnel s t p ∧ two_paths s' t = two_paths s t.
Proof.
  intros (Eo&g&n&Ex)%q_view. unfold held_identity, pinned_tunnel, two_paths. by rewrite Eo, Ex.
Qed.

Lemma wp_retained_check uid s (Q : unit → cm_state W V → Prop) (E : Z → cm_state W V → Prop) :
  (∀ t sw p s', Quiet asks s s' → held_facts s' uid t sw p → Q tt s') →
  (∀ e s', Quiet asks s s' → E e s') → wp (tb_x1_retained_check uid) Q E s.
Proof.
  intros HQ HE. assert (∀ e, E e s) as HE0 by (intros e; apply HE; reflexivity).
  apply wp_bind, wp_get. destruct (stale s) eqn:Es; [by apply wp_fail|].
  unfold stale in Es. cbv zeta in Es. repeat (apply orb_false_elim in Es as [Es ?]).
  repeat match goal with E1 : negb ?b = false |- _ => apply negb_false_iff in E1 end.
  destruct (x_held_tunnel (m_x s)) as [t|] eqn:Et, (x_held_switch (m_x s)) as [sw|] eqn:Esw; try by apply wp_fail.
  apply wp_bind. eapply wp_quiet; [apply quietly_owner| |done]. intros [] s1 Hq.
  apply wp_bind, wp_get. destruct (_ || _) eqn:Ei; [by apply wp_fail, HE|].
  apply orb_false_elim in Ei as [_ Ei]. apply negb_false_iff in Ei.
  apply wp_bind. eapply wp_adapters; [|by apply HE]. intros p Hp. apply wp_bind, wp_get.
  destruct (foreign s1 t); [by apply wp_fail, HE|]. destruct (_ || _) eqn:Ep; [by apply wp_fail, HE|].
  repeat (apply orb_false_elim in Ep as [Ep ?]).
  repeat match goal with E1 : negb ?b = false |- _ => apply negb_false_iff in E1 end.
  apply wp_bind. eapply wp_paths_invalid; [done..|]. intros b s2 Hq2.
  assert (Quiet asks s s2) as Hq3 by by etrans. destruct b; [by apply wp_fail, HE|].
  apply wp_bind, wp_get. destruct (Z.eqb_spec (x_generation (m_x s2)) (x_retained_generation (m_x s2)));
    [|by apply wp_fail, HE].
  apply wp_ret, (HQ t sw p); [done|].
  destruct (held_same asks s1 s2 uid t sw (negb (x_stop_complete (m_x s2))) p Hq2) as (F1&F2&F3).
  destruct (q_view _ _ _ Hq) as (Eo&g&n&Ex), (q_view _ _ _ Hq2) as (Eo2&g2&n2&Ex2).
  constructor; [..|done]; rewrite ?F1, ?F2, ?F3, ?Ex2, ?Eo2; try done.
  all: rewrite ?Ex, ?Eo in *; try done.
  cbn. by eapply bool_decide_eq_true.
Qed.

(** ** Errors are errnos *)

Definition errno_only {A} (m : MM A) : Prop := ∀ s e s', m s = (Err e, s') → e ≠ 0.
Lemma errno_bind {A B} (m : MM A) (k : A → MM B) : errno_only m → (∀ a, errno_only (k a)) → errno_only (bind m k).
Proof.
  intros Hm Hk s e s'. unfold bind. destruct (m s) as [[a|e1|] s1] eqn:E; [apply Hk| |done].
  intros [= <- <-]. by eapply Hm.
Qed.
Lemma errno_calm {A} P (m : MM A) : (∀ s, calm P m s) → errno_only m.
Proof. intros Hm s e s' E. specialize (Hm s). unfold calm, wp in Hm. by rewrite E in Hm. Qed.
Lemma errno_fail {A} e : e ≠ 0 → errno_only (fail (A:=A) e).
Proof. by intros He s e' s' [= <- <-]. Qed.
Lemma errno_ret {A} (a : A) : errno_only (ret a).
Proof. by intros s e s'. Qed.
Lemma errno_modify f : errno_only (modify f).
Proof. by intros s e s'. Qed.
Lemma errno_get : errno_only get.
Proof. by intros s e s'. Qed.
Lemma errno_fault {A} : errno_only (fault (A:=A)).
Proof. by intros s e s'. Qed.
Lemma errno_ok_or_fail r : errno_only (ok_or_fail r).
Proof. unfold ok_or_fail. destruct (Z.eqb_spec r 0); [apply errno_ret|by apply errno_fail]. Qed.

Ltac errno_auto :=
  repeat lazymatch goal with
  | |- errno_only (bind _ _) => apply errno_bind; [|intros ?]
  | |- errno_only (let _ := _ in _) => cbv zeta
  | |- errno_only (if ?b then _ else _) => destruct b
  | |- errno_only (match ?x with _ => _ end) => destruct x
  | |- errno_only (ret _) => apply errno_ret
  | |- errno_only (fail _) => apply errno_fail; done
  | |- errno_only get => apply errno_get
  | |- errno_only fault => apply errno_fault
  | |- errno_only (modify _) => apply errno_modify
  | |- errno_only (ok_or_fail _) => apply errno_ok_or_fail
  | |- errno_only (mcall1 _) => apply (errno_calm asks); intros; by apply calm_mcall1
  | |- errno_only notices => apply (errno_calm asks), calm_notices
  end.

Lemma errno_retained_check uid : errno_only (tb_x1_retained_check uid).
Proof.
  unfold tb_x1_retained_check, tb_x1_pcie_owner, tb_x1_pcie_adapters, paths_invalid. errno_auto.
Qed.
Lemma errno_deactivate t uid h : errno_only (run_deactivate t uid h).
Proof.
  induction h as [f|f k IH]; cbn [run_deactivate]; unfold set_tunnel_part; errno_auto; [|apply IH].
  intros s e s'. unfold attempt. by destruct (tb_x1_retained_check uid s) as [[[]|e1|] s1].
Qed.
Lemma errno_stop_body uid : errno_only (tunnel_stop_body uid).
Proof.
  unfold tunnel_stop_body, stop_done, mx, mobjs, mark. errno_auto;
    try apply errno_retained_check; try apply errno_deactivate. by intros s e s'.
Qed.
Lemma errno_pulled_body uid : errno_only (tunnel_pulled_body uid).
Proof. unfold tunnel_pulled_body, stop_done, tb_x1_pcie_adapters, mx, mobjs, mark, rcpt. errno_auto. Qed.
End quiet.
