(* ===== verification/RetainedInv.v ===== *)
(** * The retained tunnel: phases and the invariant

    A domain goes through phases that its record of calls determines; each
    phase fixes the private latches and identities, the references taken, and
    what the pinned objects look like. *)

From S2P Require Import Prelude Wp HostData Ctl CtlProof Retained RetainedLogic.

(** ** Phases *)

Inductive cm_phase :=
| PStart | PTried | PApproved (sw t : Z) | PPinned (root sw t : Z) | PStopping (root sw t : Z)
| POff (root sw t : Z) | PRetiring (root sw t : Z) | PStuck (root sw t : Z)
| PReleased (root sw : Z) | PRemoved (root sw : Z)
| PFrozen (root : Z) | PIdle (root : Z) | PIdleRemoved (root : Z) | PDone (idle : bool).

(** One approval, one hold of the approved tunnel, one stop of the held tunnel,
    one retirement of the stopped tunnel and of the held routers; or one freeze
    and one removal of the frozen root.  The ordinary manager acts only before
    a hold or freeze; adapters are read only up to the stop. *)
Definition advance (ph : cm_phase) (e : mevent) : option cm_phase :=
  match e.1 with
  | Notified | OwnerNode | TunnelInvalid _ | PathInvalid _ | CheckStopped | DrainWork => Some ph
  | OrdinaryBody _ | KmallocEvent | AckPlug | AckNotification =>
      match ph with PStart | PTried | PApproved _ _ => Some ph | _ => None end
  | PortRead _ _ =>
      match ph with
      | PTried | PApproved _ _ | PPinned _ _ _ | PStopping _ _ _ => Some ph
      | _ => None
      end
  | DomainApprove _ | TunnelAllocPci _ _ | TunnelActivate _ | TunnelPut _ | PcieL1Enable _
  | XhciConnect _ => match ph with PTried => Some ph | _ => None end
  | SwitchGet z =>
      match ph with
      | PApproved _ _ => Some ph
      | PIdle root => if z =? root then Some ph else None
      | _ => None
      end
  | TunnelGet _ => match ph with PApproved _ _ => Some ph | _ => None end
  | SwitchPut _ => match ph with PDone _ => Some ph | _ => None end
  | Approving => match ph with PStart => Some PTried | _ => None end
  | Approved sw t => match ph with PTried => Some (PApproved sw t) | _ => None end
  | Pinned root sw t =>
      match ph with
      | PApproved sw' t' => if (sw =? sw') && (t =? t') then Some (PPinned root sw t) else None
      | _ => None
      end
  | DeactivateRetained t =>
      match ph with
      | PPinned root sw t' => if t =? t' then Some (PStopping root sw t) else None
      | _ => None
      end
  | TunnelStopped t =>
      match ph with
      | PStopping root sw t' => if t =? t' then Some (POff root sw t) else None
      | _ => None
      end
  | TunnelPulled t =>
      match ph with
      | PPinned root sw t' => if t =? t' then Some (POff root sw t) else None
      | _ => None
      end
  | FrozenIdle root => match ph with PStart => Some (PFrozen root) | _ => None end
  | Retiring =>
      match ph with
      | POff root sw t => Some (PRetiring root sw t)
      | PFrozen root => Some (PIdle root)
      | _ => None
      end
  | RetireTunnel t =>
      match ph with
      | PRetiring root sw t' =>
          if t =? t' then Some (if e.2 =? 0 then PReleased root sw else PStuck root sw t) else None
      | _ => None
      end
  | RemovePoweredOff z =>
      match ph with
      | PReleased root sw => if z =? root then Some (PRemoved root sw) else None
      | PIdle root => if z =? root then Some (PIdleRemoved root) else None
      | _ => None
      end
  | Retired =>
      match ph with
      | PRemoved _ _ => Some (PDone false)
      | PIdleRemoved _ => Some (PDone true)
      | _ => None
      end
  end.
Definition phase_at (L : list mevent) : option cm_phase :=
  foldl (λ ph e, ph ≫= λ ph, advance ph e) (Some PStart) L.

Lemma phase_snoc L e ph : phase_at L = Some ph → phase_at (L ++ [e]) = advance ph e.
Proof. unfold phase_at. intros E. by rewrite foldl_app, E. Qed.

(** ** References *)

Inductive pin_rsc := PinSwitch (z : Z) | PinTunnel (t : Z).
#[export] Instance pin_rsc_eq_dec : EqDecision pin_rsc.
Proof. solve_decision. Defined.

(** The retirement of the tunnel consumes the reference of the hold. *)
Definition pin_delta (e : mevent) (r : pin_rsc) : Z :=
  match e.1 with
  | SwitchGet z => Z.b2z (bool_decide (r = PinSwitch z))
  | SwitchPut z => - Z.b2z (bool_decide (r = PinSwitch z))
  | TunnelGet t => Z.b2z (bool_decide (r = PinTunnel t))
  | RetireTunnel t => if e.2 =? 0 then - Z.b2z (bool_decide (r = PinTunnel t)) else 0
  | _ => 0
  end.
Definition pins (L : list mevent) (r : pin_rsc) : Z := foldr (λ e n, pin_delta e r + n) 0 L.
Lemma pins_app L1 L2 r : pins (L1 ++ L2) r = pins L1 r + pins L2 r.
Proof. unfold pins. induction L1 as [|e L IH]; cbn in *; [lia|]. rewrite IH. lia. Qed.
Lemma pins_one e r : pins [e] r = pin_delta e r.
Proof. cbn. lia. Qed.

Definition one_if (r r' : pin_rsc) : Z := Z.b2z (bool_decide (r = r')).
(** What each phase holds. *)
Definition holding (ph : cm_phase) (r : pin_rsc) : Z :=
  match ph with
  | PPinned root sw t | PStopping root sw t | POff root sw t | PRetiring root sw t | PStuck root sw t =>
      one_if r (PinSwitch root) + one_if r (PinSwitch sw) + one_if r (PinTunnel t)
  | PReleased root sw | PRemoved root sw => one_if r (PinSwitch root) + one_if r (PinSwitch sw)
  | PIdleRemoved root => one_if r (PinSwitch root)
  | _ => 0
  end.

(** ** Latches and identities *)

Record latches := Latches {
  la_retained : bool; la_attempted : bool; la_hold : bool; la_complete : bool;
  la_retire : bool; la_done : bool;
  la_switch : option Z; la_tunnel : option Z;
  la_root : option Z; la_hswitch : option Z; la_htunnel : option Z;
}.
Definition latches_of (x : x1_cm) : latches :=
  Latches (x_retained x) (x_pcie_attempted x) (x_hold_attempted x) (x_stop_complete x)
    (x_cm_retire_attempted x) (x_cm_retired x) (x_pcie_switch x) (x_pcie_tunnel x)
    (x_held_root x) (x_held_switch x) (x_held_tunnel x).
Definition latched (ph : cm_phase) : latches :=
  match ph with
  | PStart => Latches false false false false false false None None None None None
  | PTried => Latches false true false false false false None None None None None
  | PApproved sw t => Latches false true false false false false (Some sw) (Some t) None None None
  | PPinned root sw t | PStopping root sw t =>
      Latches true true true false false false (Some sw) (Some t) (Some root) (Some sw) (Some t)
  | POff root sw t =>
      Latches true true true true false false (Some sw) (Some t) (Some root) (Some sw) (Some t)
  | PRetiring root sw t | PStuck root sw t =>
      Latches true true true true true false (Some sw) (Some t) (Some root) (Some sw) (Some t)
  | PReleased root sw | PRemoved root sw =>
      Latches true true true true true false (Some sw) None (Some root) (Some sw) None
  | PFrozen root => Latches true false false false false false None None None None None
  | PIdle root | PIdleRemoved root => Latches true false false false true false None None None None None
  | PDone true => Latches true false false false true true None None None None None
  | PDone false => Latches true true true true true true None None None None None
  end.
Definition stop_latched (ph : cm_phase) : bool :=
  match ph with
  | PStopping _ _ _ | POff _ _ _ | PRetiring _ _ _ | PStuck _ _ _ => true
  | _ => false
  end.

(** A generation read before the hold took effect. *)
Definition is_pinned (e : mevent) : bool := match e.1 with Pinned _ _ _ => true | _ => false end.
Definition Anchored (L : list mevent) (g : Z) : Prop :=
  ∃ L0 L1, L = L0 ++ L1 ∧ u64 g = u64 (notified L0) ∧ existsb is_pinned L1 = true.
Lemma Anchored_app L L2 g : Anchored L g → Anchored (L ++ L2) g.
Proof.
  intros (L0&L1&->&Hg&Hp). exists L0, (L1 ++ L2). rewrite app_assoc. split_and!; [done..|].
  by rewrite existsb_app, Hp.
Qed.

(** Nothing was notified after the hold, unless the counter has wrapped. *)
Lemma Anchored_same L g : Anchored L g → u64 g = u64 (notified L) →
  ∃ L0 root sw t r L1, L = L0 ++ (Pinned root sw t, r) :: L1 ∧ (notified L1 = 0 ∨ 2 ^ 64 ≤ notified L).
Proof.
  intros (L0&L1&->&Hg&Hp) Hn. rewrite Hg in Hn. apply existsb_exists in Hp as (e&Hin&Hc).
  apply list_elem_of_In, list_elem_of_split in Hin as (A&B&->).
  assert (∀ l, 0 ≤ notified l) as P by (intros; unfold notified; lia).
  assert (notified (L0 ++ A ++ e :: B) = notified L0 + (notified A + notified B)) as E1.
  { rewrite !notified_app. by destruct e as [[] ?]. }
  assert (notified B = 0 ∨ 2 ^ 64 ≤ notified (L0 ++ A ++ e :: B)) as HB.
  { rewrite E1 in *. pose proof (P L0); pose proof (P A); pose proof (P B).
    destruct (decide (2 ^ 64 ≤ notified L0 + (notified A + notified B))) as [|Hlt]; [by right|left].
    unfold u64 in Hn. rewrite !Z.mod_small in Hn by lia. lia. }
  destruct e as [[] r]; try done. eexists (L0 ++ A), _, _, _, _, B. split; [by rewrite <- app_assoc|done].
Qed.

Section invariant.
Context {W V : Type} `{CmEnv W} `{CtlLaws V}.
Implicit Types s : cm_state W V.

(** What the objects look like. *)
Definition settled_objs (ph : cm_phase) (o : cm_objs) : Prop :=
  match ph with
  | PPinned root sw t | PStopping root sw t => o_root o = Some root
  | POff root sw t | PRetiring root sw t | PStuck root sw t =>
      o_root o = Some root ∧ sw_authorized (o_switch o sw) = 0
  | PFrozen root => o_root o = Some root ∧ tb_x1_root_empty o = true
  | PIdle root => o_root o = None ∨ o_root o = Some root ∧ tb_x1_root_empty o = true
  | PReleased _ _ | PRemoved _ _ | PIdleRemoved _ | PDone _ => o_root o = None
  | _ => True
  end.

Record Full (k : pin_rsc → Z) (ph : cm_phase) s : Prop := {
  f_phase : phase_at (m_log s) = Some ph;
  f_latches : latches_of (m_x s) = latched ph;
  f_stop : stop_latched ph = true → x_stop_attempted (m_x s) = true;
  f_objs : settled_objs ph (m_objs s);
  f_channel : la_retire (latched ph) = true → ctl_retired s = true;
  f_pins : ∀ r, pins (m_log s) r = holding ph r + k r;
  f_count : Counted 0 s;
  f_generation : u64 (x_generation (m_x s)) = u64 (notified (m_log s));
  f_held : Held (m_chan s);
  f_anchor : la_hold (latched ph) = true → Anchored (m_log s) (x_retained_generation (m_x s));
}.
Definition none : pin_rsc → Z := λ _, 0.
Definition Inv s : Prop := ∃ ph, Full none ph s.

Lemma Full_ext k k' ph s : Full k ph s → (∀ r, k r = k' r) → Full k' ph s.
Proof. intros [A B C D E1 F G I J K] Hk. constructor; try done. intros r. by rewrite F, Hk. Qed.

Lemma latches_view x g n :
  latches_of (x <| x_generation := g |> <| x_pending_events := n |>) = latches_of x.
Proof. done. Qed.

Lemma Full_quiet P k ph s s' :
  (∀ c r, P c = true → advance ph (c, r) = Some ph) →
  (∀ c r, P c = true → ∀ q, pin_delta (c, r) q = 0) →
  Full k ph s → Quiet P s s' → Full k ph s'.
Proof.
  intros HP Hd [A B C D E1 F G I J K] [Q1 Q2 Q3 Q4 Q5 Q6 Q7 (t&Q8&Q9&Q10) Q11].
  assert (phase_at (m_log s') = Some ph ∧ ∀ r, pins t r = 0) as [Hp Ht].
  { rewrite Q8. clear Q8 Q10. revert A. generalize (m_log s). induction Q9 as [|[c v] t He _ IH]; intros L A.
    - rewrite app_nil_r. done.
    - assert (advance ph (c, v) = Some ph ∧ ∀ r, pin_delta (c, v) r = 0) as [Ha Hz].
      { unfold passing in He. cbn in He. destruct c; try (split; [by apply HP|by apply Hd]); try done.
        all: assert (x_retained (m_x s) = la_retained (latched ph)) as Hr by by rewrite <- B.
        all: rewrite Hr in He; destruct ph as [| | | | | | | | | | | | |[]]; done. }
      destruct (IH (L ++ [(c, v)])) as [IH1 IH2]; [by erewrite phase_snoc|]. rewrite <- app_assoc in IH1.
      split; [done|]. intros r. cbn. unfold pins in IH2. rewrite IH2, Hz. lia. }
  constructor; try done.
  - rewrite Q3. done.
  - rewrite Q3. done.
  - by rewrite Q2.
  - intros Hr. unfold ctl_retired. rewrite Q7, Q1. by apply E1.
  - intros r. rewrite Q8, pins_app, Ht, F. lia.
  - by apply Q11.
  - rewrite Q10, Q8, notified_app, <- u64_add, I, u64_add. done.
  - by rewrite Q7.
  - intros Hh. rewrite Q8, Q3. by apply Anchored_app, K.
Qed.

Lemma asks_neutral ph c r : asks c = true → advance ph (c, r) = Some ph.
Proof. by destruct c. Qed.
Lemma asks_pins c r q : asks c = true → pin_delta (c, r) q = 0.
Proof. by destruct c. Qed.
Lemma looks_pins c r q : looks c = true → pin_delta (c, r) q = 0.
Proof. by destruct c. Qed.
Lemma Full_asks k ph s s' : Full k ph s → Quiet asks s s' → Full k ph s'.
Proof. intros HF Hq. eapply Full_quiet; [..|done|done]; [intros; by apply asks_neutral|intros; by apply asks_pins]. Qed.

(** Adapters may be read. *)
Definition readable (ph : cm_phase) : bool :=
  match ph with PTried | PApproved _ _ | PPinned _ _ _ | PStopping _ _ _ => true | _ => false end.
Lemma Full_looks k ph s s' : readable ph = true → Full k ph s → Quiet looks s s' → Full k ph s'.
Proof.
  intros Hr HF Hq. eapply Full_quiet; [..|done|done]; [|intros; by apply looks_pins].
  intros c r Hc. destruct c; try done. by destruct ph.
Qed.

(** An event of the code: the phase advances with the state. *)
Lemma Full_advance k k' ph ph' s s' c r :
  Full k ph s → m_log s' = m_log s ++ [(c, r)] → advance ph (c, r) = Some ph' → is_notified (c, r) = false →
  (∀ q, holding ph q + k q + pin_delta (c, r) q = holding ph' q + k' q) →
  latches_of (m_x s') = latched ph' → (stop_latched ph' = true → x_stop_attempted (m_x s') = true) →
  settled_objs ph' (m_objs s') → (la_retire (latched ph') = true → ctl_retired s' = true) →
  x_generation (m_x s') = x_generation (m_x s) → Counted 0 s' → m_chan s' = m_chan s →
  (la_hold (latched ph') = true → Anchored (m_log s') (x_retained_generation (m_x s'))) → Full k' ph' s'.
Proof.
  intros [A B C D E1 F G I J K] El Ea En Ek Hl Hs Ho Hc Eg Hcnt Ech Hh. constructor; try done.
  - rewrite El. by erewrite phase_snoc.
  - intros q. rewrite El, pins_app, pins_one, F. apply Ek.
  - rewrite Eg, El, notified_app, notified_one, En, I. f_equal. cbn. lia.
  - by rewrite Ech.
Qed.

(** The same past the hold, or short of it. *)
Lemma Full_event k k' ph ph' s s' c r :
  Full k ph s → m_log s' = m_log s ++ [(c, r)] → advance ph (c, r) = Some ph' → is_notified (c, r) = false →
  (∀ q, holding ph q + k q + pin_delta (c, r) q = holding ph' q + k' q) →
  latches_of (m_x s') = latched ph' → (stop_latched ph' = true → x_stop_attempted (m_x s') = true) →
  settled_objs ph' (m_objs s') → (la_retire (latched ph') = true → ctl_retired s' = true) →
  x_generation (m_x s') = x_generation (m_x s) → Counted 0 s' → m_chan s' = m_chan s →
  (la_hold (latched ph') = true → la_hold (latched ph) = true) →
  x_retained_generation (m_x s') = x_retained_generation (m_x s) → Full k' ph' s'.
Proof.
  intros HF El Ea En Ek Hl Hs Ho Hc Eg Hcnt Ech Hh Er. eapply Full_advance; [done..|].
  intros Hl2. rewrite El, Er. by apply Anchored_app, (f_anchor _ _ _ HF), Hh.
Qed.

(** A change of the state between events. *)
Lemma Full_update k ph s s' :
  Full k ph s → m_log s' = m_log s → latches_of (m_x s') = latched ph →
  (stop_latched ph = true → x_stop_attempted (m_x s') = true) →
  settled_objs ph (m_objs s') → (la_retire (latched ph) = true → ctl_retired s' = true) →
  x_generation (m_x s') = x_generation (m_x s) → Counted 0 s' → m_chan s' = m_chan s →
  x_retained_generation (m_x s') = x_retained_generation (m_x s) → Full k ph s'.
Proof.
  intros [A B C D E1 F G I J K] El Hl Hs Ho Hc Eg Hcnt Ech Er. constructor; try done; rewrite ?El, ?Eg, ?Ech, ?Er; done.
Qed.
End invariant.
