(* ===== verification/RetainedProof.v ===== *)
(** * The retained tunnel: every operation keeps the invariant *)

From S2P Require Import Prelude Wp HostData Ctl CtlProof Retained RetainedLogic RetainedInv.

Ltac bools := repeat match goal with
  | H : _ && _ = true |- _ => apply andb_prop in H as [H ?]
  | H : _ || _ = false |- _ => apply orb_false_elim in H as [H ?]
  | H : negb _ = true |- _ => apply negb_true_iff in H
  | H : negb _ = false |- _ => apply negb_false_iff in H
  | H : bool_decide _ = true |- _ => apply bool_decide_eq_true in H
  | H : bool_decide _ = false |- _ => apply bool_decide_eq_false in H
  | H : (_ =? _) = true |- _ => apply Z.eqb_eq in H
  end.

(** The latches after an update of the private fields. *)
Ltac latch := unfold latches_of in *; cbn in *; congruence.

(** ** The shape of an accepted domain *)

Record accepted (o : cm_objs) (root sw : Z) (b : bool) : Prop := {
  ac_root : o_root o = Some root;
  ac_routers : routers_ok o root sw b = true;
  ac_lane_sw : po_sw (o_port o (root, 2%nat)) = Some root;
  ac_uplink_sw : po_sw (o_port o (tb_upstream_port o sw)) = Some sw;
  ac_lane : tb_x1_pcie_lane_pair o (root, 2%nat) = true;
  ac_uplink : tb_x1_pcie_lane_pair o (tb_upstream_port o sw) = true;
  ac_down : po_remote (o_port o (root, 2%nat)) = Some (tb_upstream_port o sw);
  ac_up : po_remote (o_port o (tb_upstream_port o sw)) = Some (root, 2%nat);
  ac_root_ports : ∀ p, p ∈ ports_of o root → port_ok o sw (root, 2%nat) (tb_upstream_port o sw) p = true;
  ac_sw_ports : ∀ p, p ∈ ports_of o sw → port_ok o root (tb_upstream_port o sw) (root, 2%nat) p = true;
}.

Lemma forallb_elem {A} (f : A → bool) (l : list A) : forallb f l = true ↔ ∀ x, x ∈ l → f x = true.
Proof. rewrite forallb_forall. by setoid_rewrite list_elem_of_In. Qed.

Lemma topology_accepted o sw b :
  tb_x1_pcie_topology o sw b = true ↔ ∃ root, accepted o root sw b.
Proof.
  unfold tb_x1_pcie_topology. split.
  - destruct (o_root o) as [root|] eqn:Er; [|done]. cbv zeta. intros Ht. bools.
    exists root. constructor; try done; by apply forallb_elem.
  - intros [root [A B C D E F G I J K]]. rewrite A. cbv zeta. rewrite B, E, F.
    rewrite !bool_decide_true by done. cbn [andb]. apply andb_true_intro. by split; apply forallb_elem.
Qed.

Lemma lane_listed o root sw b : accepted o root sw b → (root, 2%nat) ∈ ports_of o root.
Proof.
  intros [_ B _]. unfold routers_ok in B. cbv zeta in B. bools.
  unfold ports_of. apply list_elem_of_fmap. exists 2%nat. split; [done|].
  apply elem_of_seq. match goal with H : (2 <=? _)%nat = true |- _ => apply Nat.leb_le in H; lia end.
Qed.

Lemma empty_not_accepted o root sw b : tb_x1_root_empty o = true → ¬ accepted o root sw b.
Proof.
  intros He Ha. pose proof (lane_listed _ _ _ _ Ha) as Hl. unfold tb_x1_root_empty in He.
  rewrite (ac_root _ _ _ _ Ha) in He. bools. rewrite forallb_elem in H. specialize (H _ Hl). bools.
  rewrite (ac_down _ _ _ _ Ha) in H. apply H. by eexists.
Qed.

(** The recursion over the routers ends within the two of them. *)
Lemma uplink_is_upstream o root sw b p :
  accepted o root sw b → p ∈ ports_of o sw → tb_port_has_remote o p = false.
Proof.
  intros Ha Hp. unfold tb_port_has_remote. destruct (po_remote (o_port o p)) as [r|] eqn:Er;
    [|rewrite (bool_decide_false (is_Some None)) by (by intros []); by rewrite andb_false_r].
  pose proof (ac_sw_ports _ _ _ _ Ha p Hp) as Hok. unfold port_ok in Hok. cbv zeta in Hok. rewrite Er in Hok.
  bools. match goal with H : _ || bool_decide (po_dual_link_port _ = Some p) = true |- _ => rename H into Hnear end.
  assert (tb_is_upstream_port o p = true) as ->; [|done]. unfold tb_is_upstream_port.
  apply orb_true_iff in Hnear as [Hn|Hn]; bools.
  - subst p. rewrite (ac_uplink_sw _ _ _ _ Ha). by rewrite bool_decide_true.
  - pose proof (ac_uplink _ _ _ _ Ha) as Hu. unfold tb_x1_pcie_lane_pair in Hu. cbv zeta in Hu.
    destruct (_ || _) in Hu; [done|]. rewrite Hn, (ac_uplink_sw _ _ _ _ Ha) in Hu. bools.
    match goal with H : po_sw (o_port o p) = Some sw |- _ => rewrite H end.
    match goal with H : po_dual_link_port (o_port o p) = _ |- _ => rewrite H end.
    rewrite (bool_decide_true (Some _ = Some _)) by done. by rewrite orb_true_r.
Qed.

Lemma no_children o sw l fuel :
  (∀ p, p ∈ ports_of o sw → tb_port_has_remote o p = false) →
  is_Some (tb_remove_dp_resources (S fuel) o sw l).
Proof.
  intros Hp. cbn. replace (omap _ (ports_of o sw)) with (@nil Z); [by eexists|].
  induction (ports_of o sw) as [|p ps IH]; [done|]. cbn. rewrite Hp by set_solver. apply IH. set_solver.
Qed.

Definition children_of (o : cm_objs) (sw : Z) : list Z :=
  omap (λ p, if tb_port_has_remote o p then po_remote (o_port o p) ≫= λ r, po_sw (o_port o r) else None)
    (ports_of o sw).
Lemma remove_dp_S fuel o sw l :
  tb_remove_dp_resources (S fuel) o sw l =
    l ← foldl (λ l c, l ← l; tb_remove_dp_resources fuel o c l) (Some l) (children_of o sw);
    Some (filter (λ p, po_sw (o_port o p) ≠ Some sw) l).
Proof. done. Qed.

Lemma dp_resources_released o root sw b l :
  accepted o root sw b → is_Some (tb_remove_dp_resources 3 o root l).
Proof.
  intros Ha. rewrite (remove_dp_S 2). set (children := children_of o root).
  assert (∀ c, c ∈ children → c = sw) as Hc.
  { unfold children, children_of. intros c (p&Hp&Ec)%list_elem_of_omap. destruct (tb_port_has_remote o p); [|done].
    pose proof (ac_root_ports _ _ _ _ Ha p Hp) as Hok. unfold port_ok in Hok. cbv zeta in Hok.
    destruct (po_remote (o_port o p)) as [r|]; [|done]. bools. cbn in Ec. congruence. }
  assert (is_Some (foldl (λ l c, l ← l; tb_remove_dp_resources 2 o c l) (Some l) children)) as [l2 ->]; [|by eexists].
  generalize children Hc. clear children Hc. intros children. revert l.
  induction children as [|c cs IH]; intros l Hc; [by eexists|]. cbn [foldl].
  rewrite (Hc c) by set_solver. cbn [mbind option_bind].
  destruct (no_children o sw l 1) as [l2 E2].
  { intros p Hp. by eapply uplink_is_upstream. }
  rewrite E2. apply IH. set_solver.
Qed.
Lemma empty_dp_resources_released o root l :
  tb_x1_root_empty o = true → o_root o = Some root → is_Some (tb_remove_dp_resources 3 o root l).
Proof.
  intros He Er. apply (no_children o root l 2). intros p Hp. unfold tb_x1_root_empty in He. rewrite Er in He.
  bools. rewrite forallb_elem in H. specialize (H p Hp). bools. unfold tb_port_has_remote.
  rewrite (bool_decide_false (is_Some _)) by done. by rewrite andb_false_r.
Qed.

(** ** Operations *)

Section operations.
Context {W V : Type} `{CmEnv W} `{CtlLaws V}.
Implicit Types s : cm_state W V.
Notation MM := (M (cm_state W V)).

Lemma inv_of k ph s : Full k ph s → (∀ r, k r = 0) → Inv s.
Proof. intros HF Hk. exists ph. eapply Full_ext; [done|]. intros r. rewrite Hk. done. Qed.
Lemma inv_full ph s : Full none ph s → Inv s.
Proof. by exists ph. Qed.
Hint Resolve inv_full : core.

Lemma full_latch {A} (f : latches → A) k ph s : Full k ph s → f (latches_of (m_x s)) = f (latched ph).
Proof. intros HF. by rewrite (f_latches _ _ _ HF). Qed.

(** Quiet code. *)
Lemma wp_asking {A} (m : MM A) k ph s (Q : A → cm_state W V → Prop) (E : Z → cm_state W V → Prop) :
  Full k ph s → quietly asks m s → (∀ a s', Full k ph s' → Q a s') → (∀ e s', Full k ph s' → E e s') →
  wp m Q E s.
Proof. intros HF Hm HQ HE. eapply wp_quiet; [done|..]; intros; [apply HQ|apply HE]; by eapply Full_asks. Qed.
Lemma wp_looking {A} (m : MM A) k ph s (Q : A → cm_state W V → Prop) (E : Z → cm_state W V → Prop) :
  Full k ph s → readable ph = true → quietly looks m s →
  (∀ a s', Full k ph s' → Quiet looks s s' → Q a s') → (∀ e s', Full k ph s' → E e s') → wp m Q E s.
Proof. intros HF Hr Hm HQ HE. eapply wp_quiet; [done|..]; intros; [apply HQ|apply HE]; try done; by eapply Full_looks. Qed.

(** A change of the private state that no latch sees. *)
Lemma wp_mx k ph s f (Q : unit → cm_state W V → Prop) E :
  Full k ph s → latches_of (f (m_x s)) = latches_of (m_x s) →
  (x_stop_attempted (m_x s) = true → x_stop_attempted (f (m_x s)) = true) →
  x_generation (f (m_x s)) = x_generation (m_x s) → x_pending_events (f (m_x s)) = x_pending_events (m_x s) →
  x_retained_generation (f (m_x s)) = x_retained_generation (m_x s) → (∀ s', Full k ph s' → s' = s <| m_x := f (m_x s) |> → Q tt s') → wp (mx f) Q E s.
Proof.
  intros HF Hl Hs Hg Hp Hr HQ. apply wp_modify, HQ; [|done]. pose proof HF as [A B C D E1 F G I J K].
  eapply Full_update; try done; cbn; [by rewrite Hl|auto|]. unfold Counted in *. cbn. by rewrite Hp.
Qed.
(** Receipts. *)
Lemma Full_receipt k ph s s' :
  Full k ph s → m_log s' = m_log s → m_x s' = m_x s → m_objs s' = m_objs s → m_dom s' = m_dom s →
  m_chan s' = m_chan s → m_works s' = m_works s → m_finishing s' = m_finishing s → Full k ph s'.
Proof.
  intros HF El Ex Eo Ed Ec Ew Ef. pose proof HF as [A B C D E1 F G I J K]. apply (Full_update k ph s s'); rewrite ?Ex, ?Eo; try done.
  - intros Hr. unfold ctl_retired. rewrite Ec, Ed. by apply E1.
  - unfold Counted in *. by rewrite Ex, Ew, Ef.
Qed.

(** *** Approval *)

Definition tries (c : mcall) : bool :=
  match c with
  | DomainApprove _ | TunnelActivate _ | TunnelPut _ | PcieL1Enable _ | XhciConnect _ => true
  | _ => looks c
  end.
Lemma Full_tries k s s' : Full k PTried s → Quiet tries s s' → Full k PTried s'.
Proof. intros HF Hq. eapply Full_quiet; [..|done|done]; intros []; done. Qed.
Lemma wp_trying {A} (m : MM A) k s (Q : A → cm_state W V → Prop) E :
  Full k PTried s → calm tries m s → (∀ a s', Full k PTried s' → Quiet tries s s' → Q a s') → wp m Q E s.
Proof. intros HF Hm HQ. eapply wp_calm; [done|]. intros a s' Hq. apply HQ; [by eapply Full_tries|done]. Qed.

Lemma wp_mobjs_tried k s f (Q : unit → cm_state W V → Prop) E :
  Full k PTried s → (∀ s', Full k PTried s' → Q tt s') → wp (mobjs f) Q E s.
Proof. intros HF HQ. apply wp_modify, HQ. pose proof HF as [A B C D E1 F G I J K]. by eapply Full_update. Qed.

(** The ordinary manager, before a hold or freeze. *)
Lemma ordinary_full ph h s :
  la_retained (latched ph) = false → Full none ph s →
  wp (ordinary_body h) (λ _, Full none ph) (λ _ _, False) s.
Proof.
  intros Hr HF. apply wp_bind. unfold wp at 1. destruct (m_ordinary h (m_objs s) (m_w s)) as [[[r o] l] w].
  assert (Full none ph (s <| m_objs := o |> <| m_w := w |>)) as HF1.
  { pose proof HF as [A B C D E1 F G I J K]. eapply Full_update; try done. by destruct ph as [| | | | | | | | | | | | |[]]. }
  apply wp_bind, wp_modify. set (s1 := _ <| m_log := _ |>). assert (Full none ph s1) as HF2.
  { pose proof HF1 as [A B C D E1 F G I J K]. eapply (Full_event none none ph ph); try done.
    - by destruct ph as [| | | | | | | | | | | | |[]].
    - intros q. cbn. lia. }
  apply wp_bind. cbn [fst snd]. eapply wp_calm; [apply (calm_for_each asks)|].
  - intros x s2 _ Hq. apply calm_queue. rewrite (Quiet_retained _ _ _ Hq).
    rewrite <- Hr. apply (full_latch la_retained _ _ _ HF2).
  - intros [] s2 Hq. apply wp_ret. by eapply Full_asks.
Qed.

Lemma tunnel_pci_full sw s :
  Full none PTried s → wp (tb_tunnel_pci sw) (λ _, Full none PTried) (λ _, Full none PTried) s.
Proof.
  intros HF. apply wp_bind. unfold tb_x1_retained_block, tb_x1_retained_mode. apply wp_bind, wp_bind, wp_get, wp_ret.
  rewrite (full_latch la_retained _ _ _ HF : x_retained (m_x s) = false). cbn [negb]. apply wp_ret, wp_bind, wp_get.
  destruct (negb (x_pcie_authorizing (m_x s))).
  - eapply wp_mono; [by apply (ordinary_full PTried)|done|done].
  - apply wp_attempt. apply wp_bind. unfold tunnel_pci_checks. apply wp_bind, wp_get. cbv zeta.
    destruct (x_pcie_up (m_x s)) as [up|], (o_root (m_objs s) ≫= map_pcie_down (m_objs s)) as [down|]; try by apply wp_fail.
    destruct (_ || _); [by apply wp_fail|]. apply wp_bind. eapply wp_looking; [done|done|apply quietly_both_ports| |done].
    intros [] s1 HF1 _. apply wp_ret, wp_bind. eapply wp_trying; [done|apply calm_notices|]. intros [] s2 HF2 _.
    apply wp_bind. unfold wp at 1. destruct (m_tunnel_alloc (m_objs s2) (m_w s2)) as [[t n] w].
    apply wp_bind, wp_modify. set (s3 := _ <| m_log := _ |>). assert (Full none PTried s3) as HF3.
    { pose proof HF2 as [A B C D E1 F G I J K]. by eapply (Full_event none none PTried PTried). }
    destruct (t =? 0); [by apply wp_fail|]. apply wp_bind. eapply wp_mobjs_tried; [done|]. intros s4 HF4.
    apply wp_bind. eapply wp_trying; [done|by apply calm_mcall1|]. intros r s5 HF5 _.
    apply wp_bind. unfold tunnel_activate. apply wp_bind, wp_get. destruct (m_tunnel_activate _ _) as [[[n2 a0] a1] w2].
    apply wp_modify. set (s6 := s5 <| m_w := _ |> <| m_objs := _ |>). assert (Full none PTried s6) as HF6.
    { pose proof HF5 as [A B C D E1 F G I J K]. by eapply Full_update. }
    destruct (r !=? 0).
    + apply wp_bind. eapply wp_trying; [done|by apply calm_mcall0|]. intros [] s7 HF7 _. by apply wp_fail.
    + apply wp_bind. eapply wp_trying; [done|by apply calm_mcall0|]. intros [] s7 HF7 _.
      apply wp_bind. eapply wp_trying; [done|by apply calm_mcall0|]. intros [] s8 HF8 _.
      eapply wp_mobjs_tried; [done|]. done.
Qed.

Lemma domain_approve_full sw s :
  Full none PTried s → wp (domain_approve sw) (λ _, Full none PTried) (λ _, Full none PTried) s.
Proof.
  intros HF. apply wp_bind. eapply wp_trying; [done|by apply calm_mcall1|]. intros r s1 HF1 _.
  destruct (r !=? 0); [by apply wp_ret|by apply tunnel_pci_full].
Qed.

(** Approval is reachable only from the start: a frozen domain has no device. *)
Lemma approve_phase k ph s root sw :
  Full k ph s → x_pcie_attempted (m_x s) = false → accepted (m_objs s) root sw false → ph = PStart.
Proof.
  intros HF Ha Hac. rewrite (full_latch la_attempted _ _ _ HF : x_pcie_attempted (m_x s) = _) in Ha.
  pose proof (f_objs _ _ _ HF) as Ho. pose proof (ac_root _ _ _ _ Hac) as Hr.
  destruct ph as [| | | | | | | | | | | | |[]]; cbn in *; try done; try congruence;
    [|destruct Ho as [Ho|Ho]; [congruence|]]; destruct Ho as [_ Ho]; by destruct (empty_not_accepted _ _ _ _ Ho Hac).
Qed.

Lemma inv_approve sw uid s : Inv s → wp (tb_x1_approve_pcie sw uid) (λ _, Inv) (λ _, Inv) s.
Proof.
  intros [ph HF]. destruct sw as [sw|]; [|by eapply wp_fail, inv_full]. cbn [tb_x1_approve_pcie].
  destruct (uid =? 0); [by eapply wp_fail, inv_full|].
  apply wp_bind. eapply wp_asking; [done|apply quietly_owner| |eauto]. intros [] s1 HF1.
  apply wp_bind. eapply wp_topology; [|eauto]. intros Hu [root Hac]%topology_accepted. apply wp_bind, wp_get.
  destruct (x_pcie_attempted (m_x s1)) eqn:Ea; [by eapply wp_fail, inv_full|].
  assert (ph = PStart) as -> by by eapply approve_phase.
  destruct (existsb _ _); [by eapply wp_fail, inv_full|].
  apply wp_bind. eapply wp_adapters; [|eauto]. intros p Hp.
  apply wp_bind, wp_modify, wp_bind, wp_modify. set (s2 := _ <| m_log := _ |>).
  assert (Full none PTried s2) as HF2.
  { pose proof HF1 as [A B C D E1 F G I J K]. eapply (Full_event none none PStart PTried); try done. latch. }
  apply wp_bind. eapply wp_looking; [done|done|apply quietly_both_ports| |eauto]. intros [] s3 HF3 _.
  apply wp_bind. eapply wp_mx; [done..|]. intros s4 HF4 _.
  apply wp_bind. eapply wp_mono; [by apply domain_approve_full| |intros ? ? Hx; exact (inv_full _ _ Hx)]. cbn beta. intros r s5 HF5.
  apply wp_bind. eapply wp_mx; [done..|]. intros s6 HF6 _. destruct (r !=? 0); [by eapply wp_fail, inv_full|].
  apply wp_bind. eapply wp_active_tunnel; [|intros; eapply inv_full; by eapply Full_asks].
  intros t s7 Hq7 _ _ _. assert (Full none PTried s7) as HF7 by by eapply Full_asks.
  apply wp_bind. eapply wp_looking; [done|done|apply quietly_both_ports| |eauto]. intros [] s8 HF8 _.
  apply wp_bind. eapply wp_topology; [|eauto]. intros _ _.
  apply wp_bind. eapply wp_mobjs_tried; [done|]. intros s9 HF9. apply wp_bind, wp_modify, wp_modify.
  eapply (inv_full (PApproved sw t)). pose proof HF9 as [A B C D E1 F G I J K].
  eapply (Full_event none none PTried (PApproved sw t)); try done. latch.
Qed.

Lemma inv_validate sw uid s : Inv s → wp (tb_x1_validate_pcie sw uid) (λ _, Inv) (λ _, Inv) s.
Proof.
  intros [ph HF]. destruct sw as [sw|]; [|by eapply wp_fail, inv_full]. cbn [tb_x1_validate_pcie].
  destruct (uid =? 0); [by eapply wp_fail, inv_full|].
  apply wp_bind. eapply wp_asking; [done|apply quietly_owner| |eauto]. intros [] s1 HF1.
  apply wp_bind. eapply wp_approved; [|intros; eapply inv_full; by eapply Full_asks].
  intros p t s2 Hq Hf. assert (Full none ph s2) as HF2 by by eapply Full_asks.
  assert (readable ph = true) as Hr.
  { pose proof (f_objs _ _ _ HF2) as Ho. destruct Hf as [A1 A2 A3 A4 A5 [root Ac]%topology_accepted A7 A8 A9 A10].
    rewrite (full_latch la_switch _ _ _ HF2 : x_pcie_switch (m_x s2) = _) in A3.
    rewrite (full_latch la_tunnel _ _ _ HF2 : x_pcie_tunnel (m_x s2) = _) in A4.
    pose proof (ac_routers _ _ _ _ Ac) as Hro. unfold routers_ok in Hro. cbv zeta in Hro. bools.
    destruct ph as [| | | | | | | | | | | | |[]]; try done; cbn in A3, A4, Ho; simplify_eq;
      destruct Ho as [_ Ho]; rewrite Ho in *; done. }
  apply wp_bind. eapply wp_looking; [done|done|apply quietly_both_ports| |eauto]. intros [] s3 HF3 _.
  apply wp_bind. eapply wp_approved; [|intros; eapply inv_full; by eapply Full_asks].
  intros. apply wp_ret. eapply inv_full. by eapply Full_asks.
Qed.

(** *** Hold *)

Definition all (_ : mcall) : bool := true.
Lemma quiet_all P s s' : Quiet P s s' → Quiet all s s'.
Proof. by apply Quiet_mono. Qed.

(** A call that stays in the phase and may take or drop a reference. *)
Lemma wp_event_call c k ph s (Q : Z → cm_state W V → Prop) E :
  Full k ph s → is_notified (c, 0) = false → (∀ r, advance ph (c, r) = Some ph) →
  match c with KmallocEvent | AckPlug | AckNotification => False | _ => True end →
  (∀ r s', Full (λ q, k q + pin_delta (c, r) q) ph s' → Quiet all s s' → Q r s') → wp (mcall1 c) Q E s.
Proof.
  intros HF Hn Ha Hc HQ. apply wp_bind, wp_bind. eapply (wp_calm asks); [apply calm_notices|]. intros [] s1 Hq.
  assert (Full k ph s1) as HF1 by by eapply Full_asks. pose proof (calm_mleaf all c s1) as Hm.
  unfold calm, wp in Hm. unfold wp at 1. unfold mleaf in *. destruct (m_answer c (m_objs s1) (m_w s1)) as [[r v] w].
  apply wp_ret. cbn [fst]. assert (Quiet all s1 (s1 <| m_w := w |> <| m_log := m_log s1 ++ [(c, r)] |>)) as Hq1.
  { apply Hm; [by destruct c|done]. }
  apply HQ; [|etrans; [by eapply quiet_all|done]]. pose proof HF1 as [A B C D E1 F G I J K].
  eapply (Full_event k _ ph ph); try done; first [by apply Ha | by destruct c | intros q; cbn; lia].
Qed.
Lemma wp_event_call0 c k ph s (Q : unit → cm_state W V → Prop) E :
  Full k ph s → is_notified (c, 0) = false → (∀ r, advance ph (c, r) = Some ph) →
  match c with KmallocEvent | AckPlug | AckNotification => False | _ => True end →
  (∀ r s', Full (λ q, k q + pin_delta (c, r) q) ph s' → Quiet all s s' → Q tt s') → wp (mcall0 c) Q E s.
Proof.
  intros HF Hn Ha Hc HQ. pose proof (wp_event_call c k ph s (λ _, Q tt) E HF Hn Ha Hc HQ) as Hw.
  unfold mcall1 in Hw. unfold mcall0, wp, bind in *. by destruct (mcall2 c s) as [[a|e|] s'].
Qed.

Lemma hold_phase k ph s sw uid t p :
  Full k ph s → x_retained (m_x s) = false → approval_facts s sw uid t p → ph = PApproved sw t.
Proof.
  intros HF Hr [A1 A2 A3 A4 A5 A6 A7 A8 A9 A10].
  rewrite (full_latch la_retained _ _ _ HF : x_retained (m_x s) = _) in Hr.
  rewrite (full_latch la_switch _ _ _ HF : x_pcie_switch (m_x s) = _) in A3.
  rewrite (full_latch la_tunnel _ _ _ HF : x_pcie_tunnel (m_x s) = _) in A4.
  destruct ph as [| | | | | | | | | | | | |[]]; cbn in *; try done. by simplify_eq.
Qed.

Lemma pin_full root sw t p g s (Q : unit → cm_state W V → Prop) E :
  Full none (PApproved sw t) s → o_root (m_objs s) = Some root → g = x_generation (m_x s) →
  (∀ s', Full none (PPinned root sw t) s' → x_hold_ready (m_x s') = true →
     m_objs s' = (m_objs s) <| o_hotplug_active := false |> → Q tt s') →
  wp (pin root sw t p g) Q E s.
Proof.
  intros HF Hr Hg HQ. unfold pin. apply wp_bind. eapply wp_event_call0; [done..|]. intros r1 s1 HF1 Hq1.
  apply wp_bind. eapply wp_event_call0; [done..|]. intros r2 s2 HF2 Hq2.
  apply wp_bind. eapply wp_event_call0; [done..|]. intros r3 s3 HF3 Hq3.
  assert (Quiet all s s3) as Hq by (etrans; [done|by etrans]). destruct (q_view _ _ _ Hq) as (Eo&_).
  apply wp_bind, wp_modify, wp_bind, wp_modify, wp_bind, wp_modify, wp_modify. apply HQ; [|done|cbn; by rewrite Eo].
  pose proof HF3 as [A B C D E1 F G I J K].
  match goal with |- Full _ _ ?s4 => set (s' := s4) end.
  eapply (Full_advance _ none (PApproved sw t) (PPinned root sw t) s3 s'); try done.
  - cbn. by rewrite !Z.eqb_refl.
  - unfold s'. latch.
  - cbn. by rewrite Eo.
  - intros _. destruct (q_log _ _ _ Hq) as (u&Hu&_). exists (m_log s), (u ++ [(Pinned root sw t, 0)]).
    split_and!; [unfold s'; cbn; by rewrite Hu, app_assoc|unfold s'; cbn; rewrite Hg; apply HF|].
    by rewrite existsb_app, orb_true_r.
Qed.

Lemma inv_hold sw uid s : Inv s → wp (tb_x1_hold_pcie sw uid) (λ _, Inv) (λ _, Inv) s.
Proof.
  intros [ph HF]. destruct sw as [sw|]; [|by eapply wp_fail, inv_full]. cbn [tb_x1_hold_pcie].
  destruct (uid =? 0); [by eapply wp_fail, inv_full|].
  apply wp_bind. eapply wp_asking; [done|apply quietly_owner| |eauto]. intros [] s1 HF1.
  apply wp_bind, wp_get. destruct (_ || _) eqn:Eb; [by eapply wp_fail, inv_full|]. bools.
  apply wp_bind. eapply wp_approved; [|intros; eapply inv_full; by eapply Full_asks].
  intros p t s2 Hq2 Hf. assert (Full none ph s2) as HF2 by by eapply Full_asks.
  assert (ph = PApproved sw t) as -> by (eapply hold_phase; [done| |done]; by rewrite (Quiet_retained _ _ _ Hq2)).
  apply wp_bind, wp_get. rewrite (af_tunnel _ _ _ _ _ Hf). pose proof (af_topology _ _ _ _ _ Hf) as [root Hac]%topology_accepted.
  rewrite (ac_root _ _ _ _ Hac). destruct (foreign s2 t); [by eapply wp_fail, inv_full|].
  apply wp_bind. eapply (wp_calm asks); [apply calm_notices|]. intros [] s3 Hq3. assert (Full none (PApproved sw t) s3) as HF3 by by eapply Full_asks.
  apply wp_bind, wp_get. destruct (_ !=? 0); [by eapply wp_fail, inv_full|].
  apply wp_bind. eapply (wp_calm asks); [apply calm_notices|]. intros [] s4 Hq4. assert (Full none (PApproved sw t) s4) as HF4 by by eapply Full_asks.
  apply wp_bind, wp_get. apply wp_bind. eapply pin_full; [done| | |].
  { rewrite (q_objs _ _ _ Hq4), (q_objs _ _ _ Hq3). apply Hac. }
  { done. }
  intros s5 HF5 _ _. apply wp_on_error.
  assert (∀ s, Full none (PPinned root sw t) s →
    wp (mx (λ x, x <| x_hold_ready := false |>)) (λ _, Inv) (λ _, Inv) s) as Hfail.
  { intros s6 HF6. eapply wp_mx; [done..|]. intros s7 HF7 _. by eapply inv_full. }
  assert (∀ s, Full none (PPinned root sw t) s → Inv s) as Hi by (intros; by eapply inv_full).
  unfold hold_checks. apply wp_bind. eapply wp_retained_check; [|intros; apply Hfail; by eapply Full_asks].
  intros ? ? ? s6 Hq6 _. assert (Full none (PPinned root sw t) s6) as HF6 by by eapply Full_asks.
  apply wp_bind. eapply wp_looking; [done|done|apply quietly_port_state| |done]. intros [] s7 HF7 _.
  apply wp_bind. eapply wp_retained_check; [|intros; apply Hfail; by eapply Full_asks].
  intros ? ? ? s8 Hq8 _. assert (Full none (PPinned root sw t) s8) as HF8 by by eapply Full_asks.
  apply wp_bind. eapply wp_looking; [done|done|apply quietly_port_state| |done]. intros [] s9 HF9 _.
  eapply wp_retained_check; [|intros; apply Hfail; by eapply Full_asks].
  intros ? ? ? s10 Hq10 _. apply Hi. by eapply Full_asks.
Qed.

(** *** Stop *)

(** A successful check before the stop: the domain is pinned. *)
Lemma pinned_phase k ph s t sw :
  Full k ph s → stop_latched ph = false → x_held_tunnel (m_x s) = Some t → x_held_switch (m_x s) = Some sw →
  ∃ root, ph = PPinned root sw t.
Proof.
  intros HF Hs Ht Hw.
  rewrite (full_latch la_htunnel _ _ _ HF : x_held_tunnel (m_x s) = _) in Ht.
  rewrite (full_latch la_hswitch _ _ _ HF : x_held_switch (m_x s) = _) in Hw.
  destruct ph as [| | |root| | | | | | | | | |[]]; cbn in *; try done. simplify_eq. by exists root.
Qed.
Lemma not_stopped k ph s : Full k ph s → x_stop_attempted (m_x s) = false → stop_latched ph = false.
Proof. intros HF Hs. destruct (stop_latched ph) eqn:E; [|done]. by rewrite (f_stop _ _ _ HF E) in Hs. Qed.

Lemma run_deactivate_full root sw t uid h : ∀ s,
  Full none (PStopping root sw t) s →
  wp (run_deactivate t uid h) (λ _, Full none (PStopping root sw t)) (λ _, Full none (PStopping root sw t)) s.
Proof.
  assert (∀ s x w, Full none (PStopping root sw t) s → Full none (PStopping root sw t)
    (s <| m_w := w |> <| m_objs := set_tunnel (m_objs s) t x.1.1.1 x.1.1.2 x.1.2 |> <| m_stop := x.2 |>)) as Hset.
  { intros s x w HF. pose proof HF as [A B C D E1 F G I J K]. by eapply Full_update. }
  induction h as [f|f k IH]; intros s HF; cbn [run_deactivate].
  - apply wp_bind. eapply (wp_calm asks); [apply calm_notices|]. intros [] s1 Hq. apply (Full_asks _ _ _ _ HF) in Hq.
    apply wp_bind, wp_get. destruct (f (tunnel_part s1 t) (m_w s1)) as [[r x] w].
    apply wp_bind, wp_modify, wp_bind, wp_modify, wp_ret. exact (Hset s1 x w Hq).
  - apply wp_bind. eapply (wp_calm asks); [apply calm_notices|]. intros [] s1 Hq. apply (Full_asks _ _ _ _ HF) in Hq.
    apply wp_bind, wp_get. destruct (f (tunnel_part s1 t) (m_w s1)) as [x w].
    apply wp_bind, wp_modify, wp_bind, wp_modify, wp_bind, wp_attempt.
    pose proof (Hset s1 x w Hq) as HF2. eapply wp_retained_check.
    + intros ? ? ? s2 Hq2 _. apply IH. by eapply Full_asks.
    + intros e s2 Hq2. apply IH. by eapply Full_asks.
Qed.

(** The tunnel is off: the device is no longer authorized. *)
Lemma stop_done_full root sw t ph c s (Q : unit → cm_state W V → Prop) E :
  Full none ph s → latched ph = latched (PPinned root sw t) → advance ph (c, 0) = Some (POff root sw t) →
  is_notified (c, 0) = false → pin_delta (c, 0) = (λ _, 0) → holding ph = holding (POff root sw t) →
  o_root (m_objs s) = Some root → x_stop_attempted (m_x s) = true →
  (∀ s', Full none (POff root sw t) s' → m_x s' = (m_x s) <| x_stop_complete := true |> →
     (∀ z, tunnel_off s' z = tunnel_off s z) → Q tt s') → wp (do! stop_done sw in mark c) Q E s.
Proof.
  intros HF Hl Ha Hn Hd Hh Hr Hst HQ. apply wp_bind. unfold stop_done.
  apply wp_bind, wp_modify, wp_modify, wp_modify, HQ; [|done|done].
  pose proof HF as [A B C D E1 F G I J K]. rewrite Hl in B.
  eapply (Full_event none none ph (POff root sw t)); try done.
  - intros q. rewrite Hd, Hh. unfold none. lia.
  - latch.
  - cbn. split; [done|]. unfold upd. by rewrite Z.eqb_refl.
  - by rewrite Hl.
Qed.

Lemma inv_receipt s s' :
  Inv s → m_log s' = m_log s → m_x s' = m_x s → m_objs s' = m_objs s → m_dom s' = m_dom s →
  m_chan s' = m_chan s → m_works s' = m_works s → m_finishing s' = m_finishing s → Inv s'.
Proof. intros [ph HF] ???????. exists ph. by eapply Full_receipt. Qed.

(** A checked stop: the tunnel is off and nothing was notified since the hold. *)
Definition stopped_ok root sw t s : Prop :=
  Full none (POff root sw t) s ∧ tunnel_off s t = true ∧ x_generation (m_x s) = x_retained_generation (m_x s).

Lemma stop_body_full uid ph s :
  Full none ph s → stop_latched ph = false → x_stop_attempted (m_x s) = true →
  wp (tunnel_stop_body uid) (λ _ s', ∃ root sw t, stopped_ok root sw t s') (λ _, Inv) s.
Proof.
  intros HF Hs Hst. apply wp_bind. eapply wp_retained_check; [|intros; eapply inv_full; by eapply Full_asks].
  intros t sw p s1 Hq1 Hh. assert (Full none ph s1) as HF1 by by eapply Full_asks.
  destruct (pinned_phase none ph s1 t sw) as [root ->]; [done|done|apply Hh|apply Hh|].
  assert (x_stop_attempted (m_x s1) = true) as Hst1 by (by destruct (q_view _ _ _ Hq1) as (_&g&n&->)).
  apply wp_bind, wp_get. rewrite (hf_tunnel _ _ _ _ _ Hh), (hf_switch _ _ _ _ _ Hh).
  destruct (negb (tunnel_on s1 t)); [by eapply wp_fail, inv_full|].
  apply wp_bind, wp_modify, wp_bind, wp_modify. set (s2 := _ <| m_log := _ |>).
  assert (Full none (PStopping root sw t) s2) as HF2.
  { pose proof HF1 as [A B C D E1 F G I J K]. eapply (Full_event none none (PPinned root sw t)); try done;
      [cbn; by rewrite Z.eqb_refl|intros q; cbn; lia]. }
  apply wp_bind. unfold wp at 1. apply wp_bind.
  eapply wp_mono; [by apply (run_deactivate_full root sw)| |intros ? ? Hx; exact (inv_full _ _ Hx)].
  cbn beta. intros r s3 HF3. apply wp_bind, wp_modify. set (s4 := s3 <| m_live := _ |>).
  assert (Full none (PStopping root sw t) s4) as HF4 by by eapply Full_receipt.
  apply wp_bind, wp_ok_or_fail; intros Hr; [|by eapply inv_full].
  apply wp_bind. eapply wp_retained_check; [|intros; eapply inv_full; by eapply Full_asks].
  intros ? ? ? s5 Hq5 Hh5. assert (Full none (PStopping root sw t) s5) as HF5 by by eapply Full_asks.
  apply wp_bind, wp_get. destruct (_ || _) eqn:Eo; [by eapply wp_fail, inv_full|]. bools.
  eapply (stop_done_full root sw t (PStopping root sw t)); try done; [cbn; by rewrite Z.eqb_refl|apply HF5|by apply HF5|].
  intros s6 HF6 Ex Et. exists root, sw, t. split_and!; [done|by rewrite Et|]. rewrite Ex. apply Hh5.
Qed.

Lemma stop_retained_full uid s : Inv s →
  wp (tb_x1_stop_pcie_retained uid) (λ _ s', ∃ root sw t, stopped_ok root sw t s') (λ _, Inv) s.
Proof.
  intros [ph HF]. unfold tb_x1_stop_pcie_retained. destruct (uid =? 0); [by eapply wp_fail, inv_full|].
  apply wp_bind. eapply wp_asking; [done|apply quietly_owner| |eauto]. intros [] s1 HF1.
  apply wp_bind, wp_get. destruct (x_stop_attempted (m_x s1)) eqn:Es; [by eapply wp_fail, inv_full|].
  destruct (receipt_used s1); [by eapply wp_fail, inv_full|].
  apply wp_bind. eapply wp_mx; [done..|]. intros s2 HF2 ->. apply wp_bind, wp_modify, wp_bind.
  unfold wp at 1, attempt. pose proof (stop_body_full uid ph) as Hb. unfold wp in Hb.
  match goal with |- context [tunnel_stop_body uid ?x] => specialize (Hb x); destruct (tunnel_stop_body uid x) as [[[]|e|] s3] eqn:Eb end.
  - apply wp_ret, Hb; [by eapply Full_receipt|exact (not_stopped _ _ _ HF1 Es)|done].
  - assert (Inv s3) as Hi by (apply Hb; [by eapply Full_receipt|exact (not_stopped _ _ _ HF1 Es)|done]).
    apply errno_stop_body in Eb. rewrite (proj2 (Z.eqb_neq e 0)) by done. cbn [negb]. unfold stop_failed.
    apply wp_bind, wp_modify, wp_bind, wp_modify, wp_bind, wp_get, wp_fail.
    eapply inv_receipt; [exact Hi|done..].
  - exfalso. apply Hb; [by eapply Full_receipt|exact (not_stopped _ _ _ HF1 Es)|done].
Qed.
Lemma inv_stop_retained uid s : Inv s → wp (tb_x1_stop_pcie_retained uid) (λ _, Inv) (λ _, Inv) s.
Proof.
  intros HI. eapply wp_mono; [by apply stop_retained_full| |done]. intros [] s' (root&sw&t&HF&_). by eapply inv_full.
Qed.

Lemma pulled_body_inv uid ph s :
  Full none ph s → stop_latched ph = false → x_stop_attempted (m_x s) = true →
  wp (tunnel_pulled_body uid) (λ _, Inv) (λ _, Inv) s.
Proof.
  intros HF Hs Hst. apply wp_bind, wp_get. cbv zeta.
  destruct (x_held_tunnel (m_x s)) as [t|] eqn:Et, (x_held_switch (m_x s)) as [sw|] eqn:Esw; try by eapply wp_fail, inv_full.
  destruct (_ || _); [by eapply wp_fail, inv_full|]. apply wp_bind. eapply wp_adapters; [|by eapply inv_full].
  intros p Hp. destruct (_ || _); [by eapply wp_fail, inv_full|].
  destruct (pinned_phase none ph s t sw) as [root ->]; [done..|]. apply wp_bind, wp_modify.
  set (s1 := s <| m_objs := _ |>). assert (Full none (PPinned root sw t) s1) as HF1.
  { pose proof HF as [A B C D E1 F G I J K]. by eapply Full_update. }
  apply (wp_assoc (stop_done sw) (λ _, mark (TunnelPulled t))). apply wp_bind.
  eapply (stop_done_full root sw t (PPinned root sw t)); try done; [cbn; by rewrite Z.eqb_refl|apply HF1|].
  intros s2 HF2 _ _. apply wp_bind, wp_modify, wp_modify. eapply inv_receipt; [by eapply inv_full|done..].
Qed.

Lemma inv_stop_pulled uid s : Inv s → wp (tb_x1_stop_pcie_pulled uid) (λ _, Inv) (λ _, Inv) s.
Proof.
  intros [ph HF]. unfold tb_x1_stop_pcie_pulled. destruct (uid =? 0); [by eapply wp_fail, inv_full|].
  apply wp_bind. eapply wp_asking; [done|apply quietly_owner| |eauto]. intros [] s1 HF1.
  apply wp_bind, wp_get. destruct (x_stop_attempted (m_x s1)) eqn:Es; [by eapply wp_fail, inv_full|].
  destruct (receipt_used s1); [by eapply wp_fail, inv_full|].
  apply wp_bind. eapply wp_mx; [done..|]. intros s2 HF2 ->. apply wp_bind, wp_modify, wp_bind, wp_modify, wp_bind, wp_attempt.
  eapply wp_mono; [eapply (pulled_body_inv uid ph)|..].
  - by eapply Full_receipt.
  - exact (not_stopped _ _ _ HF1 Es).
  - done.
  - intros [] s3 Hi. by apply wp_ret.
  - intros e s3 Hi. cbn beta. destruct (e !=? 0); [|by apply wp_ret]. apply wp_bind, wp_modify, wp_fail. eapply inv_receipt; [exact Hi|done..].
Qed.

Lemma inv_stopped uid s : Inv s → wp (tb_x1_pcie_stopped uid) (λ _, Inv) (λ _, Inv) s.
Proof.
  intros [ph HF]. unfold tb_x1_pcie_stopped. destruct (uid =? 0); [by eapply wp_fail, inv_full|].
  apply wp_bind. eapply wp_retained_check; [|intros; eapply inv_full; by eapply Full_asks].
  intros t sw p s1 Hq Hh. assert (Full none ph s1) as HF1 by by eapply Full_asks. apply wp_bind, wp_get.
  rewrite (hf_tunnel _ _ _ _ _ Hh), (hf_switch _ _ _ _ _ Hh).
  destruct (_ || _); [by eapply wp_fail, inv_full|]. by eapply wp_ret, inv_full.
Qed.

(** *** Idle freeze *)

Lemma inv_idle_freeze s : Inv s → wp tb_x1_idle_freeze (λ _, Inv) (λ _, Inv) s.
Proof.
  intros [ph HF]. apply wp_bind. eapply wp_asking; [done|apply quietly_owner| |eauto]. intros [] s1 HF1.
  apply wp_bind, wp_get. cbv zeta. destruct (_ || _) eqn:Eb; [by eapply wp_fail, inv_full|]. bools.
  assert (ph = PStart) as ->.
  { match goal with H : x_pcie_attempted _ = false |- _ => rewrite (full_latch la_attempted _ _ _ HF1 : x_pcie_attempted (m_x s1) = _) in H end.
    rewrite (full_latch la_retained _ _ _ HF1 : x_retained (m_x s1) = _) in Eb. by destruct ph as [| | | | | | | | | | | | |[]]. }
  destruct (o_root (m_objs s1)) as [root|] eqn:Er; [|by eapply wp_fail, inv_full].
  destruct (_ || _) eqn:Ee; [by eapply wp_fail, inv_full|]. bools.
  apply wp_bind. eapply wp_mx; [done..|]. intros s2 HF2 ->. apply wp_bind.
  eapply (wp_calm asks); [apply calm_notices|]. intros [] s3 Hq. assert (Full none PStart s3) as HF3 by by eapply Full_asks.
  destruct (q_view _ _ _ Hq) as (Eo&_). cbn in Eo.
  apply wp_bind, wp_modify, wp_bind, wp_modify, wp_modify. eapply (inv_full (PFrozen root)).
  pose proof HF3 as [A B C D E1 F G I J K]. eapply (Full_event none none PStart); try done; [latch|].
  cbn. rewrite Eo. by split.
Qed.
End operations.
