(* ===== verification/RetainedRetire.v ===== *)
(** * The retained tunnel: retirement and histories *)

From S2P Require Import Prelude Wp HostData Ctl CtlProof Retained RetainedLogic RetainedInv RetainedProof.

Section retire.
Context {W V : Type} `{CmEnv W} `{CtlLaws V}.
Implicit Types s : cm_state W V.
Notation MM := (M (cm_state W V)).
Hint Resolve inv_full : core.

(** ** The checks *)

Definition checks (c : mcall) : bool := match c with CheckStopped | DrainWork => true | _ => asks c end.
Lemma quiet_checks s s' : Quiet asks s s' → Quiet checks s s'.
Proof. apply Quiet_mono. by intros []. Qed.
Lemma Full_checks k ph s s' : Full k ph s → Quiet checks s s' → Full k ph s'.
Proof. intros HF Hq. eapply Full_quiet; [..|done|done]; by intros []. Qed.

(** What a successful check before an idle retirement says. *)
Record idle_facts s : Prop := {
  if_away : going_away s = true;
  if_attempted : x_pcie_attempted (m_x s) = false;
  if_retired : x_cm_retired (m_x s) = false;
  if_empty : tb_x1_root_empty (m_objs s) = true;
}.
(** What a successful check before the retirement of the stopped tunnel says. *)
Record retire_facts s : Prop := {
  rf_away : going_away s = true;
  rf_complete : x_stop_complete (m_x s) = true;
  rf_retired : x_cm_retired (m_x s) = false;
  rf_accepted : ∃ t sw root, x_held_tunnel (m_x s) = Some t ∧ x_held_switch (m_x s) = Some sw ∧
    x_held_root (m_x s) = Some root ∧ accepted (m_objs s) root sw false;
}.

Definition checked (check : MM unit) (F : cm_state W V → Prop) : Prop :=
  ∀ s, wp check (λ _ s', Quiet asks s s' ∧ F s') (λ _, Quiet asks s) s.

Lemma idle_checked : checked tb_x1_idle_cm_check idle_facts.
Proof.
  intros s. apply wp_bind, wp_get. cbv zeta. destruct (_ || _) eqn:E1; [by apply wp_fail|]. bools.
  destruct (tb_x1_root_empty (m_objs s)) eqn:E2; [|by apply wp_fail]. cbn [negb].
  destruct (negb (groups_empty _)); [by apply wp_fail|]. destruct (existsb _ _); [by apply wp_fail|].
  apply wp_ret. split; [reflexivity|by constructor].
Qed.

Lemma away_quiet P s s' : Quiet P s s' → going_away s' = going_away s.
Proof.
  intros Hq. destruct (q_view _ _ _ Hq) as (_&g&n&Ex). unfold going_away, ctl_retired.
  by rewrite (q_dom _ _ _ Hq), (q_chan _ _ _ Hq), Ex.
Qed.

Lemma retire_facts_quiet P s s' : Quiet P s s' → retire_facts s → retire_facts s'.
Proof.
  intros Hq [A B C D]. destruct (q_view _ _ _ Hq) as (Eo&g&n&Ex).
  constructor; rewrite ?(away_quiet _ _ _ Hq), ?Ex, ?Eo; done.
Qed.

Lemma retire_checked uid : checked (tb_x1_cm_retire_check uid) retire_facts.
Proof.
  intros s. apply wp_bind, wp_get. cbv zeta.
  destruct (x_held_tunnel (m_x s)) as [t|] eqn:Et, (x_held_switch (m_x s)) as [sw|] eqn:Esw,
    (x_held_root (m_x s)) as [root|] eqn:Er; try by apply wp_fail.
  destruct (_ || _) eqn:E1; [by apply wp_fail|]. bools.
  destruct (_ || _) eqn:E2; [by apply wp_fail|]. bools.
  apply wp_bind. eapply wp_adapters; [|done]. intros p Hp. destruct (foreign s t); [by apply wp_fail|].
  destruct (_ || _) eqn:E3; [by apply wp_fail|]. bools.
  assert (retire_facts s) as Hf.
  { constructor; try done. exists t, sw, root. split_and!; [done..|].
    match goal with H : held_identity _ _ _ _ _ = true |- _ => unfold held_identity in H; cbv zeta in H end. bools.
    match goal with H : tb_x1_pcie_topology _ _ _ = true |- _ => apply topology_accepted in H as [root' Hac] end.
    pose proof (ac_root _ _ _ _ Hac) as Hr. assert (root' = root) as -> by congruence. done. }
  apply wp_bind. eapply wp_paths_invalid; [done..|]. intros b s1 Hq. destruct b; [by apply wp_fail|].
  destruct (negb (groups_empty _)); [by apply wp_fail|]. destruct (existsb _ _); [by apply wp_fail|].
  apply wp_ret. split; [done|]. by eapply retire_facts_quiet.
Qed.

Lemma wp_both_checks check F s (Q : unit → cm_state W V → Prop) (E : Z → cm_state W V → Prop) :
  checked check F → (∀ s', Quiet checks s s' → F s' → Q tt s') → (∀ e s', Quiet checks s s' → E e s') →
  wp (both_checks check) Q E s.
Proof.
  intros Hc HQ HE. apply wp_bind. eapply (wp_calm checks); [by apply calm_mcall1|]. intros r s1 Hq.
  apply wp_bind, wp_ok_or_fail; intros Hr; [|by apply HE]. eapply wp_mono; [apply Hc|..].
  - intros [] s2 [Hq2%quiet_checks HF]. apply HQ; [by etrans|done].
  - intros e s2 Hq2%quiet_checks. apply HE. by etrans.
Qed.

Lemma full_retained k ph s : Full k ph s → la_retained (latched ph) = true → x_retained (m_x s) = true.
Proof. intros HF. by rewrite (full_latch la_retained _ _ _ HF : x_retained (m_x s) = _). Qed.

Lemma wp_drain_and_check check F ph s (Q : unit → cm_state W V → Prop) (E : Z → cm_state W V → Prop) :
  checked check F → Full none ph s → la_retained (latched ph) = true →
  (∀ s', Full none ph s' → F s' → Q tt s') → (∀ e s', Full none ph s' → E e s') →
  wp (drain_and_check check) Q E s.
Proof.
  intros Hc HF Hr HQ HE. apply wp_bind. eapply (wp_calm checks); [by apply calm_mcall0|]. intros [] s1 Hq.
  apply (Full_checks _ _ _ _ HF) in Hq. apply wp_bind.
  eapply (wp_calm checks); [apply calm_unlocked; by eapply full_retained|]. intros [] s2 Hq2.
  apply (Full_checks _ _ _ _ Hq) in Hq2. apply wp_bind, wp_modify. set (s3 := s2 <| m_retire := _ |>).
  assert (Full none ph s3) as HF3 by by eapply Full_receipt.
  apply wp_bind. eapply wp_both_checks; [done| |intros; apply HE; by eapply Full_checks].
  intros s4 Hq4 Hf. assert (Full none ph s4) as HF4 by by eapply Full_checks.
  apply wp_bind, wp_get. destruct (_ !=? 0); [by apply wp_fail, HE|by apply wp_ret, HQ].
Qed.

(** ** The entry *)

Definition entered s : cm_state W V :=
  s <| m_x := (m_x s) <| x_cm_retire_attempted := true |> |> <| m_log := m_log s ++ [(Retiring, 0)] |>
    <| m_retire := (m_retire s) <| ct_attempted := true |> <| ct_stage := "drain-cm-work" |> |>.

Lemma inv_retire_entry check body F s :
  checked check F →
  (∀ ph s, Full none ph s → x_cm_retire_attempted (m_x s) = false → F s →
     wp body (λ _, Inv) (λ _, Inv) (entered s)) →
  Inv s → wp (retire_entry check body) (λ _, Inv) (λ _, Inv) s.
Proof.
  intros Hc Hb [ph HF]. apply wp_bind, wp_get. destruct (negb _); [by eapply wp_fail, inv_full|].
  destruct (_ || _) eqn:Ea; [by eapply wp_fail, inv_full|]. bools.
  destruct (negb _); [by eapply wp_fail, inv_full|].
  apply wp_bind. eapply wp_both_checks; [done| |intros; eapply inv_full; by eapply Full_checks].
  intros s1 Hq Hf. assert (Full none ph s1) as HF1 by by eapply Full_checks.
  destruct (q_view _ _ _ Hq) as (_&g&n&Ex).
  apply wp_bind, wp_modify, wp_bind, wp_modify, wp_bind, wp_modify. unfold retire_fail. apply wp_bind, wp_attempt.
  eapply wp_mono; [apply (Hb ph s1); [done|by rewrite Ex|done]|..].
  - intros [] s2 Hi. by apply wp_ret.
  - intros e s2 Hi. cbn beta. destruct (e !=? 0); [|by apply wp_ret]. apply wp_bind, wp_modify, wp_fail.
    eapply inv_receipt; [exact Hi|done..].
Qed.

Lemma away_retained s : going_away s = true → x_retained (m_x s) = true ∧ ctl_retired s = true.
Proof. unfold going_away. cbv zeta. intros. by bools. Qed.

(** *** The removal of the routers *)

Lemma wp_remove_call root ph ph' k k' s (Q : unit → cm_state W V → Prop) E :
  Full k ph s → (∀ r, advance ph (RemovePoweredOff root, r) = Some ph') →
  (∀ q, holding ph q + k q = holding ph' q + k' q) → latched ph' = latched ph → la_retained (latched ph) = true →
  stop_latched ph' = false → (∀ o, o_root o = None → settled_objs ph' o) → o_root (m_objs s) = None →
  (∀ s', Full k' ph' s' → Q tt s') → wp (remove_powered_off root) Q E s.
Proof.
  intros HF Ha Hk Hl Hr Hs Ho Hn HQ. apply wp_bind, wp_bind, wp_bind.
  eapply (wp_calm asks); [apply calm_notices|]. intros [] s1 Hq. apply (Full_asks _ _ _ _ HF) in Hq as HF1.
  apply q_objs in Hq as Eo. unfold wp at 1, mleaf. destruct (m_answer _ _ _) as [[r v] w].
  apply wp_ret, wp_bind, wp_modify. set (s2 := _ <| m_objs := _ |>). assert (Full k' ph' s2) as HF2.
  { pose proof HF1 as [A B C D E1 F G I J K]. eapply (Full_event k k' ph ph' s1); try done.
    - intros q. cbn. rewrite <- Hk. lia.
    - by rewrite Hl.
    - by rewrite Hs.
    - apply Ho. cbn. by rewrite Eo.
    - rewrite Hl. done.
    - by rewrite Hl. }
  eapply (wp_calm asks); [apply calm_unlocked; eapply full_retained; [done|by rewrite Hl]|].
  intros [] s3 Hq3. apply HQ. by eapply Full_asks.
Qed.

(** The last reference is given back when everything is done. *)
Lemma wp_put z k idle s (Q : unit → cm_state W V → Prop) E :
  Full (λ q, k q + one_if q (PinSwitch z)) (PDone idle) s →
  (∀ s', Full k (PDone idle) s' → Q tt s') → wp (mcall0 (SwitchPut z)) Q E s.
Proof.
  intros HF HQ. eapply wp_event_call0; [done..|]. intros r s1 HF1 _. apply HQ. eapply Full_ext; [done|].
  intros q. unfold one_if. cbn. lia.
Qed.

(** ** Idle retirement *)

Lemma entered_idle ph s :
  Full none ph s → x_cm_retire_attempted (m_x s) = false → idle_facts s →
  ∃ root, Full none (PIdle root) (entered s).
Proof.
  intros HF Hr [A1 A2 A3 A4]. destruct (away_retained _ A1) as [B1 B2].
  rewrite (full_latch la_retire _ _ _ HF : x_cm_retire_attempted (m_x s) = _) in Hr.
  rewrite (full_latch la_attempted _ _ _ HF : x_pcie_attempted (m_x s) = _) in A2.
  rewrite (full_latch la_retained _ _ _ HF : x_retained (m_x s) = _) in B1.
  destruct ph as [| | | | | | | | | |root| | |[]]; try done. exists root.
  pose proof HF as [A B C D E1 F G I J K]. eapply (Full_event none none (PFrozen root)); try done; [latch|].
  right. apply D.
Qed.

Lemma idle_body_inv root s : Full none (PIdle root) s → wp idle_retire_body (λ _, Inv) (λ _, Inv) s.
Proof.
  intros HF. apply wp_bind. eapply wp_drain_and_check; [apply idle_checked|done|done| |eauto].
  intros s1 HF1 Hf. apply wp_bind, wp_modify. set (s2 := s1 <| m_retire := _ |>).
  assert (Full none (PIdle root) s2) as HF2 by by eapply Full_receipt. apply wp_bind, wp_get.
  assert (o_root (m_objs s1) = Some root) as Er.
  { destruct Hf as [_ _ _ He]. pose proof (f_objs _ _ _ HF1) as [Ho|[Ho _]]; [|done].
    unfold tb_x1_root_empty in He. by rewrite Ho in He. }
  change (m_objs s2) with (m_objs s1). rewrite Er.
  apply wp_bind. eapply wp_event_call0; [done|done|intros; cbn; by rewrite Z.eqb_refl|done|]. intros r3 s3 HF3 Hq3.
  destruct (q_view _ _ _ Hq3) as (Eo&_). change (m_objs s2) with (m_objs s1) in Eo.
  apply wp_bind. unfold hide_root. apply wp_bind, wp_get. rewrite Eo.
  destruct (empty_dp_resources_released (m_objs s1) root (o_dp_resources (m_objs s1)) (if_empty _ Hf) Er) as [l ->].
  apply wp_modify, wp_bind, wp_modify. set (s4 := _ <| m_retire := _ |>).
  assert (Full (λ q, one_if q (PinSwitch root)) (PIdle root) s4) as HF4.
  { pose proof HF3 as [A B C D E1 F G I J K]. eapply Full_update; try done.
    by left. }
  apply wp_bind. eapply (wp_remove_call root (PIdle root) (PIdleRemoved root) _ none); try done.
  { intros r. cbn. by rewrite Z.eqb_refl. }
  { intros q. cbn. unfold none. lia. }
  intros s5 HF5. apply wp_bind, wp_bind, wp_get, wp_ret. destruct (sw_registered _); [by eapply wp_fail, inv_full|].
  apply wp_bind. unfold retire_done. apply wp_bind, wp_modify, wp_bind, wp_modify, wp_bind, wp_modify, wp_modify.
  match goal with |- wp _ _ _ ?x => set (s6 := x) end.
  apply (wp_put root none true); [|intros s7 HF7; by eapply inv_full].
  pose proof HF5 as [A B C D E1 F G I J K].
  eapply (Full_event none _ (PIdleRemoved root)); try done; [intros q; cbn; lia|latch].
Qed.

Lemma inv_idle_retire s : Inv s → wp tb_x1_idle_retire_cm (λ _, Inv) (λ _, Inv) s.
Proof.
  apply (inv_retire_entry _ _ idle_facts); [apply idle_checked|]. intros ph s1 HF Hr Hf.
  destruct (entered_idle ph s1 HF Hr Hf) as [root HF1]. by eapply idle_body_inv.
Qed.

(** ** Retirement of the stopped tunnel *)

Lemma entered_retiring ph s :
  Full none ph s → x_cm_retire_attempted (m_x s) = false → retire_facts s →
  ∃ root sw t, Full none (PRetiring root sw t) (entered s).
Proof.
  intros HF Hr [A1 A2 A3 A4]. destruct (away_retained _ A1) as [B1 B2].
  rewrite (full_latch la_retire _ _ _ HF : x_cm_retire_attempted (m_x s) = _) in Hr.
  rewrite (full_latch la_complete _ _ _ HF : x_stop_complete (m_x s) = _) in A2.
  destruct ph as [| | | | |root sw t| | | | | | | |[]]; try done. exists root, sw, t.
  pose proof HF as [A B C D E1 F G I J K]. eapply (Full_event none none (POff root sw t)); try done;
    [intros q; cbn; lia|latch].
Qed.

Lemma retiring_held root sw t s :
  Full none (PRetiring root sw t) s →
  x_held_tunnel (m_x s) = Some t ∧ x_held_switch (m_x s) = Some sw ∧ x_held_root (m_x s) = Some root.
Proof.
  intros HF. split_and!; [exact (full_latch la_htunnel _ _ _ HF)|exact (full_latch la_hswitch _ _ _ HF)|
    exact (full_latch la_root _ _ _ HF)].
Qed.

(** The released tunnel, its cleared identities and the hidden routers. *)
Definition released_objs (o : cm_objs) (root sw : Z) (tl : list Z) (l : list pref) : cm_objs :=
  o <| o_tunnel_list := tl |> <| o_dp_resources := l |> <| o_root := None |>
    <| o_switch := upd sw (λ k, k <| sw_is_unplugged := true |>)
                    (upd root (λ k, k <| sw_is_unplugged := true |>) (o_switch o)) |>.

Lemma accepted_list o root sw b l : accepted o root sw b → accepted (o <| o_tunnel_list := l |>) root sw b.
Proof. intros [A B C D E F G I J K]. by constructor. Qed.

Lemma retire_body_inv uid root sw t s :
  Full none (PRetiring root sw t) s → wp (retire_body uid) (λ _, Inv) (λ _, Inv) s.
Proof.
  intros HF. apply wp_bind. eapply wp_drain_and_check; [apply retire_checked|done|done| |eauto].
  intros s1 HF1 Hf. apply wp_bind, wp_modify. set (s2 := s1 <| m_retire := _ |>).
  assert (Full none (PRetiring root sw t) s2) as HF2 by by eapply Full_receipt. apply wp_bind, wp_get.
  destruct (retiring_held _ _ _ _ HF2) as (Et&Esw&Er). rewrite Et, Esw, Er.
  destruct (rf_accepted _ Hf) as (t'&sw'&root'&Et'&Esw'&Er'&Hac).
  change (m_x s2) with (m_x s1) in *. assert (sw' = sw ∧ root' = root) as [-> ->] by (split; congruence).
  apply wp_bind, wp_bind, wp_bind. eapply (wp_calm asks); [apply calm_notices|]. intros [] s3 Hq3.
  apply (Full_asks _ _ _ _ HF2) in Hq3 as HF3. apply q_objs in Hq3 as Eo. change (m_objs s2) with (m_objs s1) in Eo.
  unfold wp at 1, mleaf. destruct (m_answer _ _ _) as [[r v] w]. apply wp_ret. cbn [fst].
  apply wp_bind, wp_ok_or_fail; intros Hr.
  - subst r. apply wp_bind, wp_modify, wp_bind, wp_modify, wp_bind, wp_modify, wp_bind. unfold hide_root.
    apply wp_bind, wp_get. set (s4 := _ <| m_x := _ |>).
    destruct (dp_resources_released (m_objs s4) root sw false (o_dp_resources (m_objs s4))) as [l ->].
    { unfold s4. cbn. apply accepted_list. by rewrite Eo. }
    apply wp_modify, wp_bind, wp_modify. match goal with |- wp _ _ _ ?x => set (s5 := x) end.
    assert (Full none (PReleased root sw) s5) as HF5.
    { pose proof HF3 as [A B C D E1 F G I J K]. eapply (Full_event none none (PRetiring root sw t) _ s3 s5); try done.
      - cbn. by rewrite Z.eqb_refl.
      - intros q. cbn. unfold none, one_if. lia.
      - unfold s5, s4. latch. }
    apply wp_bind. eapply (wp_remove_call root (PReleased root sw) (PRemoved root sw) none none); try done.
    { intros r. cbn. by rewrite Z.eqb_refl. }
    intros s6 HF6. apply wp_bind, wp_bind, wp_get, wp_ret, wp_bind, wp_bind, wp_get, wp_ret.
    destruct (_ || _); [by eapply wp_fail, inv_full|]. apply wp_bind, wp_modify, wp_bind. unfold retire_done.
    apply wp_bind, wp_modify, wp_bind, wp_modify, wp_bind, wp_modify, wp_modify.
    match goal with |- wp _ _ _ ?x => set (s7 := x) end. apply wp_bind.
    apply (wp_put sw (λ q, none q + one_if q (PinSwitch root)) false).
    + pose proof HF6 as [A B C D E1 F G I J K].
      eapply (Full_event none _ (PRemoved root sw)); try done; [intros q; cbn; lia|unfold s7; latch].
    + intros s8 HF8. apply (wp_put root none false); [done|]. intros s9 HF9. by eapply inv_full.
  - eapply (inv_full (PStuck root sw t)). pose proof HF3 as [A B C D E1 F G I J K].
    eapply (Full_event none none (PRetiring root sw t)); try done.
    + cbn. rewrite Z.eqb_refl. by destruct (Z.eqb_spec r 0).
    + intros q. cbn. destruct (Z.eqb_spec r 0); [done|]. lia.
Qed.

Lemma inv_retire uid s : Inv s → wp (tb_x1_retire_cm uid) (λ _, Inv) (λ _, Inv) s.
Proof.
  apply (inv_retire_entry _ _ retire_facts); [apply retire_checked|]. intros ph s1 HF Hr Hf.
  destruct (entered_retiring ph s1 HF Hr Hf) as (root&sw&t&HF1). by eapply retire_body_inv.
Qed.

(** ** Everything else *)

Lemma full_block ph s (Q : bool → cm_state W V → Prop) E :
  Full none ph s → (∀ b s', Full none ph s' → b = la_retained (latched ph) → Q b s') →
  wp tb_x1_retained_block Q E s.
Proof.
  intros HF HQ. destruct (x_retained (m_x s)) eqn:Er.
  - eapply wp_mono; [by apply (calm_blocked asks)| |done]. intros b s1 [-> Hq]. apply HQ; [by eapply Full_asks|].
    by rewrite <- (full_latch la_retained _ _ _ HF).
  - apply wp_bind. unfold tb_x1_retained_mode. apply wp_bind, wp_get, wp_ret. rewrite Er. cbn [negb].
    apply wp_ret, HQ; [done|]. by rewrite <- (full_latch la_retained _ _ _ HF).
Qed.

Lemma full_handler ph h s : Full none ph s → wp (run_handler h) (λ _, Full none ph) (λ _ _, False) s.
Proof.
  intros HF. apply wp_bind. eapply full_block; [done|]. intros b s1 HF1 Hb. destruct b; [by apply wp_ret|].
  apply wp_bind, wp_get. destruct (_ && _); [by apply wp_ret|by apply ordinary_full].
Qed.

Lemma full_work ph i s : Full none ph s → wp (run_work i) (λ _, Full none ph) (λ _ _, False) s.
Proof.
  intros HF. apply wp_bind, wp_get. destruct (m_works s !! i) as [h|] eqn:Ei; [|by apply wp_ret].
  apply wp_bind, wp_modify, wp_bind. eapply wp_mono; [apply (full_handler ph)|intros; by apply wp_ret|done].
  pose proof HF as [A B C D E1 F G I J K]. eapply Full_update; try done. unfold Counted in *. cbn. rewrite G. f_equal.
  rewrite length_delete by eauto. apply lookup_lt_Some in Ei. lia.
Qed.

Lemma full_arrival ph a s : Full none ph s → wp (run_marrival a) (λ _, Full none ph) (λ _ _, False) s.
Proof.
  intros HF. destruct a as [h|i|n]; cbn [run_marrival]; [|by apply full_work|].
  - apply wp_bind. eapply wp_mono; [by apply full_handler|intros; by apply wp_ret|done].
  - eapply wp_mono; [apply (calm_notice asks)| |done]. intros. by eapply Full_asks.
Qed.

Lemma full_hotplug ph b s (Q : unit → cm_state W V → Prop) E :
  Full none ph s → la_retained (latched ph) = false →
  (∀ s', Full none ph s' → Q tt s') → wp (mobjs (λ o, o <| o_hotplug_active := b |>)) Q E s.
Proof.
  intros HF Hr HQ. apply wp_modify, HQ. pose proof HF as [A B C D E1 F G I J K]. by eapply Full_update.
Qed.

(** A retired channel stays retired. *)
Lemma channel_step o (c : chan_state V) ours :
  Held c → wp (run_kop o)
    (λ _ c', Held c' ∧ (tb_ctl_x1_retired (ks_ctl c) ours = true → tb_ctl_x1_retired (ks_ctl c') ours = true))
    (λ _ c', Held c' ∧ (tb_ctl_x1_retired (ks_ctl c) ours = true → tb_ctl_x1_retired (ks_ctl c') ours = true)) c.
Proof.
  intros [HA|HS].
  - assert (tb_ctl_x1_retired (ks_ctl c) ours = false) as ->.
    { destruct HA as (k&ps&on&st&fl&(A&_)&(_&_&_&_&_&E6&_)&_). rewrite A. cbn. rewrite E6. by destruct ours. }
    eapply wp_mono; [by apply alive_step|..]; done.
  - assert (∀ c' : chan_state V, Shell c' → tb_ctl_x1_retired (ks_ctl c') ours = ours) as Hs.
    { intros c' (k&st&(A&_)&_&_&_&_&_&_&_&E8). rewrite A. cbn. rewrite E8. by destruct ours. }
    rewrite (Hs c HS).
    eapply wp_mono; [by apply shell_step|..]; intros ? c' HS'; (split; [by right|]); by rewrite Hs.
Qed.

Lemma inv_mop o s : Inv s → wp (run_mop o) (λ _, Inv) (λ _, Inv) s.
Proof.
  intros HI. pose proof HI as [ph HF]. destruct o; cbn [run_mop].
  - by apply inv_approve.
  - by apply inv_validate.
  - by apply inv_hold.
  - by apply inv_stop_retained.
  - by apply inv_stop_pulled.
  - by apply inv_stopped.
  - by apply inv_idle_freeze.
  - by apply inv_retire.
  - by apply inv_idle_retire.
  - apply wp_bind, wp_bind. eapply full_block; [done|]. intros b s1 HF1 Hb. destruct b; [by eapply wp_ret, wp_ret, inv_full|].
    apply wp_bind. eapply full_hotplug; [done..|]. intros s2 HF2. by eapply wp_ret, wp_ret, inv_full.
  - apply wp_bind, wp_bind. eapply full_block; [done|]. intros b s1 HF1 Hb. destruct b; [by eapply wp_ret, wp_ret, inv_full|].
    apply wp_bind. eapply full_hotplug; [done..|]. intros s2 HF2. by eapply wp_ret, wp_ret, inv_full.
  - eapply wp_mono; [by apply (full_arrival ph)|intros ? ? Hx; exact (inv_full _ _ Hx)|done].
  - apply wp_modify. by eapply inv_receipt.
  - apply wp_modify. by eapply inv_receipt.
  - apply wp_modify. exists ph. pose proof HF as [A B C D E1 F G I J K]. by eapply Full_update.
  - pose proof HF as [A B C D E1 F G I J K]. pose proof (channel_step o (m_chan s) (d_ctl_nhi (m_dom s)) J) as Hw.
    unfold wp, on_channel in *. destruct (run_kop o (m_chan s)) as [[[]|e|] c]; [..|done]; destruct Hw as [Hh Hr];
      exists ph; (constructor; try done); intros Hl; apply Hr; by apply E1.
Qed.

Lemma wp_run_mops l s : Inv s → wp (run_mops l) (λ _, Inv) (λ _ _, False) s.
Proof.
  intros HI. apply wp_for_each; [done|]. intros o s1 _ HI1. apply wp_bind, wp_attempt.
  eapply wp_mono; [by apply inv_mop|intros; by apply wp_ret..].
Qed.

Lemma boot_inv d o c w : Held c → Inv (cm_boot d o c w : cm_state W V).
Proof. intros Hc. exists PStart. by constructor. Qed.
End retire.
