(* ===== verification/RetainedSafety.v ===== *)
(** * The retained tunnel: what every history keeps

    The claims about the private part of the connection manager, over every
    history of a domain and its control channel. *)

From S2P Require Import Prelude Wp HostData Ctl CtlProof Retained RetainedLogic RetainedInv RetainedProof RetainedRetire.

(** ** What comes after a hold *)

(** The phases that follow a hold of these three objects. *)
Definition descends (root sw t : Z) (ph : cm_phase) : Prop :=
  match ph with
  | PPinned a b c | PStopping a b c | POff a b c | PRetiring a b c | PStuck a b c => a = root ∧ b = sw ∧ c = t
  | PReleased a b | PRemoved a b => a = root ∧ b = sw
  | PDone idle => idle = false
  | _ => False
  end.

Lemma descends_step root sw t ph e ph' : descends root sw t ph → advance ph e = Some ph' → descends root sw t ph'.
Proof.
  destruct e as [c r]. intros Hd Ha. unfold advance in Ha. cbn [fst snd] in Ha.
  destruct c, ph as [| | | | | | | | | | | | |[]]; cbn in Hd; try done;
    repeat case_match; simplify_eq; bools; simplify_eq; naive_solver.
Qed.

Lemma phase_from L1 : ∀ L0 ph ph', phase_at L0 = Some ph → phase_at (L0 ++ L1) = Some ph' →
  ∀ root sw t, descends root sw t ph → descends root sw t ph'.
Proof.
  induction L1 as [|e L1 IH]; intros L0 ph ph' E0 E1 root sw t Hd.
  - rewrite app_nil_r in E1. by simplify_eq.
  - rewrite (cons_middle e L0 L1), app_assoc in E1. pose proof (phase_snoc L0 e ph E0) as Es.
    destruct (advance ph e) as [ph1|] eqn:Ea.
    + eapply (IH (L0 ++ [e])); [done..|]. by eapply descends_step.
    + unfold phase_at in E1, Es. rewrite foldl_app, Es in E1. clear -E1. exfalso. induction L1; [done|by apply IHL1].
Qed.

Lemma phase_prefix L0 L1 : is_Some (phase_at (L0 ++ L1)) → is_Some (phase_at L0).
Proof.
  unfold phase_at. rewrite foldl_app. destruct (foldl _ (Some PStart) L0) as [ph|]; [by eexists|].
  intros [ph Hp]. exfalso. induction L1; [done|by apply IHL1].
Qed.

(** A hold in the record names what the phase names. *)
Lemma pinned_names L0 root sw t r L1 ph :
  phase_at (L0 ++ (Pinned root sw t, r) :: L1) = Some ph → descends root sw t ph.
Proof.
  intros Hp. destruct (phase_prefix L0 ((Pinned root sw t, r) :: L1)) as [ph0 E0]; [by eexists|].
  destruct (phase_prefix (L0 ++ [(Pinned root sw t, r)]) L1) as [ph1 E1]; [rewrite <- app_assoc; by eexists|].
  eapply (phase_from L1 (L0 ++ [(Pinned root sw t, r)]) ph1 ph E1); [by rewrite <- app_assoc|].
  rewrite (phase_snoc _ _ _ E0) in E1. destruct ph0; try done. cbn in E1. case_match; [|done]. by simplify_eq.
Qed.

Section safety.
Context {W V : Type} `{CmEnv W} `{CtlLaws V}.
Implicit Types s : cm_state W V.

(** A domain over a fresh control channel; [None] when there is none. *)
Definition domain_life (l : list mop) (d : tb_dom) (o : cm_objs) (v : V) (w : W) : option (res unit * cm_state W V) :=
  match tb_ctl_alloc (chan_boot v) with
  | (Ok _, c) => Some (run_mops l (cm_boot d o c w))
  | _ => None
  end.

Lemma life_inv l d o v w r s : domain_life l d o v w = Some (r, s) → r = Ok tt ∧ Inv s.
Proof.
  unfold domain_life. pose proof (wp_alloc v) as Ha. unfold wp in Ha.
  destruct (tb_ctl_alloc (chan_boot v)) as [[[]|e|] c]; [|done..]. intros [= Hl].
  pose proof (wp_run_mops l (cm_boot d o c w)) as Hw. unfold wp in Hw. rewrite Hl in Hw.
  assert (Inv (cm_boot d o c w)) as Hi by (apply boot_inv; by left).
  destruct r as [[]|e|]; [by split; [|apply Hw]|by destruct (Hw Hi)..].
Qed.

(** C11. The protocol of the retained tunnel.  In every history of a domain (any
    sequence of approvals, validations, holds, stops, freezes, retirements,
    ordinary handlers, queued work, notifications and channel operations, with
    notifications at every call and handlers wherever the lock is dropped)
    nothing faults and the calls follow the protocol: one approval; one hold,
    of the approved tunnel; one stop of the held tunnel, checked or pulled; one
    retirement, of the stopped tunnel and its routers, or of the root of a
    frozen empty domain; the ordinary manager acts only before the hold or the
    freeze; and from the moment a retirement has begun the control channel is
    an empty shell: no packet, buffer or frame is left. *)
Theorem retained_protocol l d o v w r s :
  domain_life l d o v w = Some (r, s) →
  r = Ok tt ∧ ∃ ph, phase_at (m_log s) = Some ph ∧
    (la_retire (latched ph) = true →
       ks_heap (m_chan s) = ∅ ∧ ks_bufs (m_chan s) = ∅ ∧ ks_flight (m_chan s) = []).
Proof.
  intros (->&ph&HF)%life_inv. split; [done|]. exists ph. split; [apply HF|]. intros Hr.
  pose proof (f_channel _ _ _ HF Hr) as Hc. pose proof (held_settled _ (f_held _ _ _ HF)) as Hs.
  unfold ctl_retired, tb_ctl_x1_retired in Hc. unfold settled in Hs.
  destruct (ks_ctl (m_chan s)) as [c|]; [|done]. apply andb_prop in Hc as [_ Hc]. rewrite Hc in Hs. naive_solver.
Qed.

(** C12. References and counters of the retained tunnel.  At the end of every
    history the references taken on routers and tunnels and not given back are
    exactly those of the phase: root, device and tunnel from the hold until the
    tunnel is released, both routers until they are removed, the root during an
    idle removal, none before a hold and none after a retirement; the count of
    pending events is the number of queued and finishing workers, and the
    generation the number of notifications, both modulo their width. *)
Theorem retained_references l d o v w r s :
  domain_life l d o v w = Some (r, s) →
  (∃ ph, phase_at (m_log s) = Some ph ∧ ∀ q, pins (m_log s) q = holding ph q) ∧
  x_pending_events (m_x s) = u32 (Z.of_nat (length (m_works s) + m_finishing s)) ∧
  u64 (x_generation (m_x s)) = u64 (notified (m_log s)).
Proof.
  intros (->&ph&HF)%life_inv. split_and!.
  - exists ph. split; [apply HF|]. intros q. rewrite (f_pins _ _ _ HF). unfold none. lia.
  - rewrite (f_count _ _ _ HF). f_equal. lia.
  - apply HF.
Qed.

(** C13. A checked stop.  When the checked stop of a domain reports success, the
    held tunnel is inactive with both paths down and the device is no longer
    authorized; the record shows the hold of exactly this tunnel, and since
    then no notification of any kind has arrived, unless 2^64 notifications
    have wrapped the counter. *)
Theorem stop_unchanged l d o v w r s uid s' :
  domain_life l d o v w = Some (r, s) → tb_x1_stop_pcie_retained uid s = (Ok tt, s') →
  ∃ root sw t L0 k L1,
    x_held_tunnel (m_x s') = Some t ∧ tunnel_off s' t = true ∧ sw_authorized (o_switch (m_objs s') sw) = 0 ∧
    m_log s' = L0 ++ (Pinned root sw t, k) :: L1 ∧
    (notified L1 = 0 ∨ 2 ^ 64 ≤ notified (m_log s')).
Proof.
  intros [_ HI]%life_inv Hs. pose proof (stop_retained_full uid s HI) as Hw. unfold wp in Hw. rewrite Hs in Hw.
  destruct Hw as (root&sw&t&HF&Hoff&Hg). exists root, sw, t.
  destruct (Anchored_same (m_log s') (x_retained_generation (m_x s'))) as (L0&a&b&c&k&L1&HL&Hn).
  { by apply (f_anchor _ _ _ HF). }
  { rewrite <- Hg. apply HF. }
  pose proof (f_phase _ _ _ HF) as Hp. rewrite HL in Hp. apply pinned_names in Hp as (<-&<-&<-).
  exists L0, k, L1. split_and!; [exact (full_latch la_htunnel _ _ _ HF)|done|apply HF|done|done].
Qed.
End safety.

(** ** A concrete domain *)

Import Loopback.

(** Host router 1, device router 2, a tunnel 5 over paths 7 and 8. *)
Module Desk.
Definition lane (sw n : Z) (far : pref) : tb_port := TbPort (Some sw) n TB_TYPE_PORT false 0 None (Some far) false 0.
Definition bare (sw n : Z) (ty : port_type) : tb_port := TbPort (Some sw) n ty false 0 None None false 1.
Definition ports (p : pref) : tb_port :=
  if bool_decide (p = (1, 2%nat)) then lane 1 2 (2, 1%nat)
  else if bool_decide (p = (2, 1%nat)) then lane 2 1 (1, 2%nat)
  else bare p.1 (Z.of_nat p.2)
         (if bool_decide (p = (1, 3%nat)) then TB_TYPE_PCIE_DOWN
          else if bool_decide (p = (2, 2%nat)) then TB_TYPE_PCIE_UP else TB_TYPE_OTHER).
Definition switches (z : Z) : tb_switch :=
  if z =? 1 then TbSwitch true ParentDomain true 0 0 3 1 1 false false false true true false false 11 true
  else TbSwitch true (ParentSwitch 1) true 0 2 2 1 0 false false false true true false false 22 true.
Definition idle_tunnel : tb_tunnel :=
  TbTunnel true TB_TUNNEL_PCI (Some (1, 3%nat)) (Some (2, 2%nat)) TB_TUNNEL_INACTIVE 2 (Some 7) (Some 8) false.
Definition objs : cm_objs :=
  CmObjs switches ports (λ _, idle_tunnel) (λ _, false) (Some 1) [] [(1, 1%nat); (2, 2%nat)] [[]] true.
Definition dom : tb_dom := TbDom true true true false true true true true true.

(** Adapters read as enabled while the paths are up. *)
Definition answer (c : mcall) (o : cm_objs) (w : unit) : Z * Z * unit :=
  match c with
  | OwnerNode | KmallocEvent => (1, 0, w)
  | PortRead _ _ => (0, if o_path o 7 then 0x80000000 else 0, w)
  | _ => (0, 0, w)
  end.
#[export] Instance env : CmEnv unit := {
  m_answer := answer;
  m_notices w := ([], w);
  m_arrivals w := ([RunHandler HandleHotplug; RunNotice (NEvent TB_CFG_PKG_EVENT TB_CFG_ERROR_LINK_ERROR)], w);
  m_map_pcie_down _ _ root := Some (root, 3%nat);
  m_ordinary h o w := (0, o, [], w);
  m_tunnel_alloc o w := (5, idle_tunnel, w);
  m_tunnel_activate n w := (n <| tn_state := TB_TUNNEL_ACTIVE |>, true, true, w);
  m_deactivate w := Callback (λ x w, (x, w)) (λ r, Finish (λ x w,
    (r, (TB_TUNNEL_INACTIVE, false, false, x.2 <| ts_attempted := true |> <| ts_finished := true |>), w)));
  m_retired_list l w := [];
  m_removed root f w z := false;
  m_adp_pcie_cs_0 := 0;
  m_adp_pcie_cs_0_pe := 0x80000000;
}.

Definition held : list mop :=
  [MArrival (RunNotice (NEvent TB_CFG_PKG_EVENT TB_CFG_ERROR_LINK_ERROR)); MArrival (RunWork 0);
   MArrival (RunNotice NWorkerDone); MApprove (Some 2) 22; MValidate (Some 2) 22; MHold (Some 2) 22].
(** The whole life: held, stopped, the channel closed and retired, the domain
    retired, and everything tried once more. *)
Definition whole : list mop :=
  held ++ [MStopRetained 22; MArrival (RunHandler ScanPort)] ++
  (MChannel <$> [KStart; KStopRetained true true; KRetire true true]) ++
  [MGoingAway; MRetire 22; MRetire 22; MHold (Some 2) 22; MArrival (RunHandler CmStop)].
Definition life (l : list mop) : option (res unit * cm_state unit unit) := domain_life l dom objs tt tt.
Definition final (l : list mop) : cm_state unit unit :=
  match life l with Some (_, s) => s | None => cm_boot dom objs (chan_boot tt) tt end.
Lemma life_final l :
  fst <$> life l = Some (Ok tt) → domain_life (W:=unit) l dom objs tt tt = Some (Ok tt, final l).
Proof. unfold final, life. destruct (domain_life l dom objs tt tt) as [[r s]|]; [|done]. cbn. by intros [= ->]. Qed.
End Desk.
Import Desk.

Lemma retained_protocol_witness :
  ∃ ph, phase_at (m_log (Desk.final Desk.whole)) = Some ph ∧ ph = PDone false ∧
    (la_retire (latched ph) = true →
       ks_heap (m_chan (Desk.final Desk.whole)) = ∅ ∧ ks_bufs (m_chan (Desk.final Desk.whole)) = ∅ ∧
       ks_flight (m_chan (Desk.final Desk.whole)) = []).
Proof.
  assert (fst <$> Desk.life Desk.whole = Some (Ok tt)) as E0 by (vm_compute; reflexivity).
  destruct (retained_protocol Desk.whole Desk.dom Desk.objs tt tt (Ok tt) (Desk.final Desk.whole) (Desk.life_final Desk.whole E0)) as (_&ph&Hp&Hc).
  exists ph. split_and!; [exact Hp| |exact Hc].
  assert (phase_at (m_log (Desk.final Desk.whole)) = Some (PDone false)) as E by (vm_compute; reflexivity). congruence.
Defined.

Lemma retained_references_witness :
  (∃ ph, phase_at (m_log (Desk.final Desk.held)) = Some ph ∧ ph = PPinned 1 2 5 ∧
     ∀ q, pins (m_log (Desk.final Desk.held)) q = holding ph q) ∧
  x_generation (m_x (Desk.final Desk.held)) = 1.
Proof.
  assert (fst <$> Desk.life Desk.held = Some (Ok tt)) as E0 by (vm_compute; reflexivity).
  destruct (retained_references Desk.held Desk.dom Desk.objs tt tt (Ok tt) (Desk.final Desk.held) (Desk.life_final Desk.held E0)) as ((ph&Hp&Hc)&_).
  split; [|vm_compute; reflexivity]. exists ph. split_and!; [exact Hp| |exact Hc].
  assert (phase_at (m_log (Desk.final Desk.held)) = Some (PPinned 1 2 5)) as E by (vm_compute; reflexivity). congruence.
Defined.

Lemma stop_unchanged_witness :
  let s' := (tb_x1_stop_pcie_retained 22 (Desk.final Desk.held)).2 in
  ∃ root sw t L0 k L1,
    x_held_tunnel (m_x s') = Some t ∧ tunnel_off s' t = true ∧ sw_authorized (o_switch (m_objs s') sw) = 0 ∧
    m_log s' = L0 ++ (Pinned root sw t, k) :: L1 ∧
    (notified L1 = 0 ∨ 2 ^ 64 ≤ notified (m_log s')).
Proof.
  assert (fst <$> Desk.life Desk.held = Some (Ok tt)) as E0 by (vm_compute; reflexivity).
  assert ((tb_x1_stop_pcie_retained 22 (Desk.final Desk.held)).1 = Ok tt) as E by (vm_compute; reflexivity).
  pose proof (stop_unchanged Desk.held Desk.dom Desk.objs tt tt (Ok tt) (Desk.final Desk.held) 22) as Hs.
  specialize (Hs (tb_x1_stop_pcie_retained 22 (Desk.final Desk.held)).2 (Desk.life_final Desk.held E0)).
  apply Hs. rewrite <- E. apply surjective_pairing.
Defined.
