(* ===== verification/RetainedPull.v ===== *)
(** * The retained tunnel: a pulled device can always be let go

    After a hold, nothing that notifications, ordinary handlers or further
    private calls do can keep the software-only stop from succeeding. *)

From S2P Require Import Prelude Wp HostData Ctl CtlProof Retained RetainedLogic RetainedInv RetainedProof RetainedRetire RetainedSafety.

Section pull.
Context {W V : Type} `{CmEnv W} `{CtlLaws V}.
Implicit Types s : cm_state W V.
Notation MM := (M (cm_state W V)).

Definition owner_dom (d : tb_dom) : bool :=
  d_cm_ops d && d_nhi d && d_nhi_dev d && negb (d_going_away d) && d_nopcie d && d_driver d && d_dma_dev d && d_parent d.

(** What a hold establishes and notifications leave alone. *)
Definition Ready (uid t sw : Z) (p : pref * pref) s : Prop :=
  owner_dom (m_dom s) = true ∧ x_pcie_attempted (m_x s) = true ∧
  x_retained (m_x s) = true ∧ x_hold_attempted (m_x s) = true ∧ x_hold_ready (m_x s) = true ∧
  x_held_tunnel (m_x s) = Some t ∧ x_held_switch (m_x s) = Some sw ∧
  o_root (m_objs s) = x_held_root (m_x s) ∧ held_identity s t sw uid true = true ∧
  adapters (m_objs s) sw = Some p ∧ pinned_tunnel s t p = true ∧ tunnel_on s t = true.

Lemma ready_quiet P uid t sw p s s' : Quiet P s s' → Ready uid t sw p s → Ready uid t sw p s'.
Proof.
  intros Hq HR. destruct (held_same P s s' uid t sw true p Hq) as (A&B&_).
  destruct (q_view _ _ _ Hq) as (Eo&g&n&Ex). unfold Ready, tunnel_on in *.
  by rewrite A, B, (q_dom _ _ _ Hq), Eo, Ex.
Qed.

(** *** The owner *)

Lemma wp_cm_owner s (Q : unit → cm_state W V → Prop) (E : Z → cm_state W V → Prop) :
  (∀ s', Quiet asks s s' → owner_dom (m_dom s) = true → Q tt s') → (∀ e s', Quiet asks s s' → E e s') →
  wp tb_x1_pcie_owner Q E s.
Proof.
  intros HQ HE. assert (∀ e, E e s) as HE0 by (intros; apply HE; reflexivity).
  apply wp_bind, wp_get. cbv zeta. destruct (_ || _) eqn:E1; [by apply wp_fail|].
  destruct (negb (d_driver _) || _ || _) eqn:E2; [by apply wp_fail|].
  apply wp_bind. eapply (wp_calm asks); [by apply calm_mcall1|]. intros r s1 Hq.
  destruct (r !=? 0); [apply wp_ret, HQ; [done|]|by apply wp_fail, HE].
  unfold owner_dom. by destruct (d_cm_ops _), (d_nhi _), (d_nhi_dev _), (d_going_away _), (d_nopcie _),
    (d_driver _), (d_dma_dev _), (d_parent _).
Qed.

(** The device tree still names the owner. *)
Definition OwnerFound : Prop := ∀ o w, (m_answer OwnerNode o w).1.1 ≠ 0.

Lemma wp_owner_found s (Q : unit → cm_state W V → Prop) E :
  OwnerFound → owner_dom (m_dom s) = true → (∀ s', Quiet asks s s' → Q tt s') → wp tb_x1_pcie_owner Q E s.
Proof.
  intros Hf Hd HQ. apply wp_bind, wp_get. cbv zeta. unfold owner_dom in Hd. bools.
  repeat match goal with E1 : d_going_away _ = _ |- _ => rewrite E1; clear E1 | E1 : _ (m_dom s) = true |- _ => rewrite E1; clear E1 end.
  cbn [negb orb]. apply wp_bind, wp_bind, wp_bind. eapply (wp_calm asks); [apply calm_notices|]. intros [] s1 Hq.
  pose proof (calm_mleaf asks OwnerNode s1 eq_refl eq_refl) as Hm. unfold calm, wp in Hm. unfold wp at 1. unfold mleaf in *.
  specialize (Hf (m_objs s1) (m_w s1)). destruct (m_answer _ _ _) as [[r v] w]. apply wp_ret. cbn in Hf.
  cbn [fst]. rewrite (proj2 (Z.eqb_neq r 0)) by done. apply wp_ret, HQ. by etrans.
Qed.

(** *** The hold *)

Lemma tunnel_active_on s t up down : tunnel_active (m_objs s) t up down = true → tunnel_on s t = true.
Proof. unfold tunnel_active, tunnel_on. cbv zeta. intros. bools. rewrite !andb_true_iff, bool_decide_eq_true. done. Qed.

Lemma wp_pin root sw t p g s (Q : unit → cm_state W V → Prop) E :
  (∀ s', m_objs s' = (m_objs s) <| o_hotplug_active := false |> → m_dom s' = m_dom s → m_stop s' = m_stop s →
     m_live s' = m_live s → x_pcie_attempted (m_x s') = x_pcie_attempted (m_x s) →
     x_stop_attempted (m_x s') = x_stop_attempted (m_x s) → x_stop_complete (m_x s') = x_stop_complete (m_x s) →
     x_held_tunnel (m_x s') = Some t → x_held_switch (m_x s') = Some sw → Q tt s') →
  wp (pin root sw t p g) Q E s.
Proof.
  intros HQ. apply wp_bind. eapply (wp_calm all); [by apply calm_mcall0|]. intros [] s1 Hq1.
  apply wp_bind. eapply (wp_calm all); [by apply calm_mcall0|]. intros [] s2 Hq2.
  apply wp_bind. eapply (wp_calm all); [by apply calm_mcall0|]. intros [] s3 Hq3.
  assert (Quiet all s s3) as Hq by (etrans; [done|by etrans]). destruct (q_view _ _ _ Hq) as (Eo&a&b&Ex).
  apply wp_bind, wp_modify, wp_bind, wp_modify, wp_bind, wp_modify, wp_modify.
  apply HQ; try done; cbn; rewrite ?Ex; try done; [by rewrite Eo|apply Hq..].
Qed.

(** What the stop needs besides. *)
Definition fresh_stop s : Prop := receipt_used s = false ∧ x_stop_attempted (m_x s) = false.
Lemma fresh_quiet P s s' : Quiet P s s' → fresh_stop s → fresh_stop s'.
Proof.
  intros Hq. destruct (q_view _ _ _ Hq) as (_&g&n&Ex). unfold fresh_stop, receipt_used.
  by rewrite (q_stop _ _ _ Hq), (q_live _ _ _ Hq), Ex.
Qed.

Lemma hold_ready sw uid s :
  x_stop_complete (m_x s) = false → fresh_stop s →
  wp (tb_x1_hold_pcie (Some sw) uid) (λ _ s', fresh_stop s' ∧ ∃ t p, Ready uid t sw p s') (λ _ _, True) s.
Proof.
  intros Hsc Hfr. cbn [tb_x1_hold_pcie]. destruct (uid =? 0); [done|].
  apply wp_bind. eapply wp_cm_owner; [|done]. intros s1 Hq1 Hd. apply wp_bind, wp_get. destruct (_ || _); [done|].
  apply wp_bind. eapply wp_approved; [|done]. intros p t s2 Hq2 Hf. apply wp_bind, wp_get.
  rewrite (af_tunnel _ _ _ _ _ Hf). pose proof (af_topology _ _ _ _ _ Hf) as [root Hac]%topology_accepted.
  rewrite (ac_root _ _ _ _ Hac). destruct (foreign s2 t); [done|].
  apply wp_bind. eapply (wp_calm asks); [apply calm_notices|]. intros [] s3 Hq3. apply wp_bind, wp_get.
  destruct (_ !=? 0); [done|]. apply wp_bind. eapply (wp_calm asks); [apply calm_notices|]. intros [] s4 Hq4.
  assert (Quiet asks s s4) as Hq by (etrans; [done|etrans; [done|by etrans]]).
  assert (Quiet asks s2 s4) as Hq24 by by etrans.
  pose proof (approval_quiet _ _ _ _ _ _ _ Hq24 Hf) as Hf4. pose proof (fresh_quiet _ _ _ Hq Hfr) as [Hr4 Hs4].
  assert (x_stop_complete (m_x s4) = false) as Hsc4 by (destruct (q_view _ _ _ Hq) as (_&g&n&->); done).
  apply wp_bind, wp_get, wp_bind. eapply wp_pin. intros s5 Eo Ed Es El Ea Est Esc Et Esw. apply wp_on_error.
  assert (∀ s', wp (mx (λ x, x <| x_hold_ready := false |>) : MM unit) (λ _ _, True) (λ _ _, True) s') as Hfail by done.
  unfold hold_checks. apply wp_bind. eapply wp_retained_check; [|intros; by apply Hfail]. intros ? ? ? s6 Hq6%quiet_looks _.
  apply wp_bind. eapply wp_quiet; [apply quietly_port_state| |intros; by apply Hfail]. intros [] s7 Hq7.
  apply wp_bind. eapply wp_retained_check; [|intros; by apply Hfail]. intros ? ? ? s8 Hq8%quiet_looks _.
  apply wp_bind. eapply wp_quiet; [apply quietly_port_state| |intros; by apply Hfail]. intros [] s9 Hq9.
  eapply wp_retained_check; [|intros; by apply Hfail]. intros t' sw' p' s10 Hq10%quiet_looks Hh.
  assert (Quiet looks s5 s10) as Hq5 by (do 4 (etrans; [done|]); done).
  split.
  { eapply fresh_quiet; [done|]. unfold fresh_stop, receipt_used in *. by rewrite Es, El, Est. }
  destruct (q_view _ _ _ Hq5) as (Eo5&g&n&Ex5). destruct Hh as [B1 B2 B3 B4 B5 B6 B7 B8 B9 B10 B11].
  assert (t' = t ∧ sw' = sw) as [-> ->] by (rewrite Ex5 in B4, B5; cbn in B4, B5; split; congruence).
  exists t, p'. unfold Ready. split_and!; try done.
  - rewrite (q_dom _ _ _ Hq5), Ed, (q_dom _ _ _ Hq), <- Hd. done.
  - rewrite Ex5. cbn. rewrite Ea. apply Hf4.
  - rewrite Ex5 in B7 at 1. cbn in B7. rewrite Esc, Hsc4 in B7. done.
  - pose proof (tunnel_active_on _ _ _ _ (af_active _ _ _ _ _ Hf4)) as Ho. unfold tunnel_on in *. by rewrite Eo5, Eo.
Qed.

Lemma hold_refused sw uid s s' : x_retained (m_x s) = true → tb_x1_hold_pcie (Some sw) uid s ≠ (Ok tt, s').
Proof.
  intros Hr Hh. assert (wp (tb_x1_hold_pcie (Some sw) uid) (λ _ _, False) (λ _ _, True) s) as Hw.
  { cbn [tb_x1_hold_pcie]. destruct (uid =? 0); [done|]. apply wp_bind. eapply wp_quiet; [apply quietly_owner| |done].
    intros [] s1 Hq. apply wp_bind, wp_get. rewrite (Quiet_retained _ _ _ Hq), Hr, orb_true_r. done. }
  unfold wp in Hw. by rewrite Hh in Hw.
Qed.

(** *** Everything that may happen in between *)

(** Not a stop, not a fresh receipt, not the end of the interface. *)
Definition bystander (o : mop) : bool :=
  match o with
  | MStopRetained _ | MStopPulled _ | MFreshStop | MFreshRetire | MGoingAway | MChannel _ => false
  | _ => true
  end.

Lemma quietly_wp {A} P (m : MM A) s (Q : A → cm_state W V → Prop) (E : Z → cm_state W V → Prop) :
  quietly P m s → (∀ a s', Quiet all s s' → Q a s') → (∀ e s', Quiet all s s' → E e s') → wp m Q E s.
Proof. intros Hm HQ HE. eapply wp_quiet; [done|..]; intros; [apply HQ|apply HE]; by eapply quiet_all. Qed.

Lemma refused_retire check body s :
  going_away s = false → (∀ s, going_away s = false → wp check (λ _ _, False) (λ _, Quiet all s) s) →
  quietly all (retire_entry check body) s.
Proof.
  intros Ha Hc. apply wp_bind, wp_get. destruct (negb (d_cm_ops _)); [by apply wp_fail|].
  destruct (x_cm_retire_attempted _ || _); [by apply wp_fail|]. destruct (negb (receipt_pristine _)); [by apply wp_fail|].
  apply wp_bind, wp_bind. eapply (wp_calm all); [by apply calm_mcall1|]. intros r s1 Hq.
  apply wp_bind, wp_ok_or_fail; intros _; [|done]. eapply wp_mono; [apply Hc; by rewrite (away_quiet _ _ _ Hq)|done|].
  intros e s2 Hq2. by etrans.
Qed.

Lemma quietly_blocked (m : MM Z) s : x_retained (m_x s) = true →
  quietly all (do! (let! b := tb_x1_retained_block in if b : bool then ret (-EBUSY) else m) in ret tt) s.
Proof.
  intros Hr. apply wp_bind, wp_bind. eapply wp_mono; [by apply (calm_blocked all)| |done]. intros b s1 [-> Hq]. by apply wp_ret, wp_ret.
Qed.

Lemma ready_bystander uid t sw p o s : Ready uid t sw p s → bystander o = true → quietly all (run_mop o) s.
Proof.
  intros (Hd&Ha&Hr&Hh&_) Hb.
  assert (going_away s = false) as Haway.
  { unfold going_away, owner_dom in *. bools. cbv zeta. match goal with E : d_going_away _ = false |- _ => rewrite E end.
    by rewrite !andb_false_r. }
  destruct o; try done; cbn [run_mop].
  - destruct sw0 as [z|]; [|by apply wp_fail]. cbn. destruct (uid0 =? 0); [by apply wp_fail|].
    apply wp_bind. eapply quietly_wp; [apply quietly_owner| |done]. intros [] s1 Hq.
    apply wp_bind. eapply wp_topology; [|done]. intros _ _. apply wp_bind, wp_get.
    destruct (q_view _ _ _ Hq) as (_&g&n&->). cbn. rewrite Ha. by apply wp_fail.
  - destruct sw0 as [z|]; [|by apply wp_fail]. cbn. destruct (uid0 =? 0); [by apply wp_fail|].
    apply wp_bind. eapply quietly_wp; [apply quietly_owner| |done]. intros [] s1 Hq.
    apply wp_bind. eapply wp_approved; [|intros; etrans; [done|by eapply quiet_all]]. intros ? ? s2 Hq2%quiet_all _.
    apply wp_bind. eapply quietly_wp; [apply quietly_both_ports| |intros; by do 2 (etrans; [done|])]. intros [] s3 Hq3.
    apply wp_bind. eapply wp_approved; [|intros ? ? ?%quiet_all; by do 3 (etrans; [done|])].
    intros ? ? s4 Hq4%quiet_all _. apply wp_ret. by do 3 (etrans; [done|]).
  - destruct sw0 as [z|]; [|by apply wp_fail]. cbn. destruct (uid0 =? 0); [by apply wp_fail|].
    apply wp_bind. eapply quietly_wp; [apply quietly_owner| |done]. intros [] s1 Hq. apply wp_bind, wp_get.
    destruct (q_view _ _ _ Hq) as (_&g&n&->). cbn. rewrite Hh. by apply wp_fail.
  - unfold tb_x1_pcie_stopped. destruct (uid0 =? 0); [by apply wp_fail|]. apply wp_bind.
    eapply wp_retained_check; [|intros; by eapply quiet_all]. intros t' sw' p' s1 Hq%quiet_all Hf.
    apply wp_bind, wp_get. rewrite (hf_tunnel _ _ _ _ _ Hf), (hf_switch _ _ _ _ _ Hf).
    destruct (_ || _); [by apply wp_fail|by apply wp_ret].
  - apply wp_bind. eapply quietly_wp; [apply quietly_owner| |done]. intros [] s1 Hq. apply wp_bind, wp_get.
    destruct (q_view _ _ _ Hq) as (_&g&n&->). cbn. rewrite Hr. by apply wp_fail.
  - apply refused_retire; [done|]. intros s1 Ha1. apply wp_bind, wp_get. cbv zeta. rewrite Ha1.
    destruct (x_held_tunnel (m_x s1)), (x_held_switch (m_x s1)), (x_held_root (m_x s1)); by apply wp_fail.
  - apply refused_retire; [done|]. intros s1 Ha1. apply wp_bind, wp_get. cbv zeta. rewrite Ha1. by apply wp_fail.
  - by apply quietly_blocked.
  - by apply quietly_blocked.
  - by apply calm_quietly, calm_arrival.
Qed.

Lemma bystanders_quiet uid t sw p l s r s' :
  Ready uid t sw p s → forallb bystander l = true → run_mops l s = (r, s') → r = Ok tt ∧ Quiet all s s'.
Proof.
  intros HR Hl Hrun. assert (wp (run_mops l) (λ _, Quiet all s) (λ _ _, False) s) as Hw.
  { apply wp_for_each; [reflexivity|]. intros o s1 Hin Hq. apply wp_bind, wp_attempt. rewrite forallb_elem in Hl.
    pose proof (ready_quiet _ _ _ _ _ _ _ Hq HR) as HR1. pose proof (ready_bystander _ _ _ _ o _ HR1 (Hl o Hin)) as Ho.
    eapply wp_mono; [exact Ho|..]; intros; apply wp_ret; by etrans. }
  unfold wp in Hw. rewrite Hrun in Hw. by destruct r as [[]|e|].
Qed.

(** *** The stop *)

Lemma set_tunnel_off o t :
  let o' := set_tunnel o t TB_TUNNEL_INACTIVE false false in
  tn_state (o_tunnel o' t) = TB_TUNNEL_INACTIVE ∧
  path_active o' (tn_path0 (o_tunnel o' t)) = false ∧ path_active o' (tn_path1 (o_tunnel o' t)) = false.
Proof.
  cbn. unfold upd, path_active, set_path. rewrite Z.eqb_refl. cbn.
  destruct (tn_path0 (o_tunnel o t)) as [a|], (tn_path1 (o_tunnel o t)) as [b|]; cbn;
    unfold upd; rewrite ?Z.eqb_refl; repeat case_match; done.
Qed.

Lemma pulled_succeeds uid t sw p s :
  OwnerFound → uid ≠ 0 → Ready uid t sw p s → fresh_stop s →
  wp (tb_x1_stop_pcie_pulled uid) (λ _ s', tunnel_off s' t = true ∧ sw_authorized (o_switch (m_objs s') sw) = 0 ∧
    x_held_tunnel (m_x s') = Some t ∧ x_stop_complete (m_x s') = true ∧ ts_finished (m_stop s') = true ∧
    ts_error (m_stop s') = 0) (λ _ _, False) s.
Proof.
  intros Hof Hu HR Hfr. unfold tb_x1_stop_pcie_pulled. rewrite (proj2 (Z.eqb_neq uid 0)) by done.
  apply wp_bind. apply wp_owner_found; [done|apply HR|]. intros s1 Hq. apply (ready_quiet _ _ _ _ _ _ _ Hq) in HR.
  apply (fresh_quiet _ _ _ Hq) in Hfr as [Hru Hst]. apply wp_bind, wp_get. rewrite Hst, Hru.
  apply wp_bind, wp_modify, wp_bind, wp_modify, wp_bind, wp_modify, wp_bind, wp_attempt.
  destruct HR as (_&_&R1&R2&R3&R4&R5&R6&R7&R8&R9&R10). apply wp_bind, wp_get.
  match goal with |- wp _ _ _ ?x => set (s2 := x) end. cbv beta zeta.
  change (x_held_tunnel (m_x s2)) with (x_held_tunnel (m_x s1)).
  change (x_held_switch (m_x s2)) with (x_held_switch (m_x s1)). rewrite R4, R5.
  change (held_identity s2 t sw uid true) with (held_identity s1 t sw uid true).
  change (tunnel_on s2 t) with (tunnel_on s1 t). change (pinned_tunnel s2 t) with (pinned_tunnel s1 t).
  cbn [s2 m_x m_objs]. cbn. rewrite R1, R2, R3, R7, bool_decide_true by done. cbn.
  apply wp_bind, wp_bind, wp_get. cbn. rewrite R8. apply wp_ret. rewrite R9, R10. cbn.
  destruct (set_tunnel_off (m_objs s1) t) as (A&B&C). split_and!.
  - unfold tunnel_off. cbv zeta. rewrite !andb_true_iff, !negb_true_iff, bool_decide_eq_true.
    split_and!; [exact A|exact B|exact C].
  - cbn. unfold upd. by rewrite Z.eqb_refl.
  - done.
  - done.
  - done.
  - cbn. unfold receipt_used in Hru. bools. by destruct (Z.eqb_spec (ts_error (m_stop s1)) 0).
Qed.

(** C14. A pulled device can always be let go.  From any reachable domain whose
    stop has not been tried, after a successful hold and any number of
    notifications, ordinary handlers, queued workers, further approvals,
    validations, holds, freezes, retirements or power transitions, the
    software-only stop with a fresh receipt succeeds as long as the device tree
    still names the owner: the held tunnel is inactive with both paths down,
    the device is no longer authorized and the receipt says finished without an
    error. *)
Theorem pulled_stop l d o v w r s sw uid s1 l2 r2 s2 :
  OwnerFound → domain_life l d o v w = Some (r, s) →
  receipt_used s = false → x_stop_attempted (m_x s) = false →
  tb_x1_hold_pcie (Some sw) uid s = (Ok tt, s1) →
  forallb bystander l2 = true → run_mops l2 s1 = (r2, s2) →
  ∃ t s3, tb_x1_stop_pcie_pulled uid s2 = (Ok tt, s3) ∧ x_held_tunnel (m_x s3) = Some t ∧
    tunnel_off s3 t = true ∧ sw_authorized (o_switch (m_objs s3) sw) = 0 ∧
    ts_finished (m_stop s3) = true ∧ ts_error (m_stop s3) = 0.
Proof.
  intros Hof [_ [ph HF]]%life_inv Hru Hst Hhold Hl Hrun.
  assert (uid ≠ 0) as Hu by (intros ->; cbn in Hhold; discriminate).
  assert (x_retained (m_x s) = false) as Hret.
  { destruct (x_retained (m_x s)) eqn:Er; [|done]. exfalso. by eapply hold_refused. }
  assert (x_stop_complete (m_x s) = false) as Hsc.
  { rewrite (full_latch la_complete _ _ _ HF : x_stop_complete (m_x s) = _).
    rewrite (full_latch la_retained _ _ _ HF : x_retained (m_x s) = _) in Hret.
    by destruct ph as [| | | | | | | | | | | | |[]]. }
  pose proof (hold_ready sw uid s Hsc (conj Hru Hst)) as Hw. unfold wp in Hw. rewrite Hhold in Hw.
  destruct Hw as (Hfr&t&p&HR). destruct (bystanders_quiet _ _ _ _ _ _ _ _ HR Hl Hrun) as [-> Hq].
  pose proof (pulled_succeeds uid t sw p s2 Hof Hu (ready_quiet _ _ _ _ _ _ _ Hq HR) (fresh_quiet _ _ _ Hq Hfr)) as Hp.
  unfold wp in Hp. destruct (tb_x1_stop_pcie_pulled uid s2) as [[[]|e|] s3]; [|done..]. exists t, s3. naive_solver.
Qed.
End pull.

(** ** On the concrete domain *)

Import Loopback Desk.

(** Held, then a plug event, a hotplug worker, a hold and a freeze. *)
Definition pulled_run : list mop :=
  [MArrival (RunNotice (NEvent TB_CFG_PKG_EVENT TB_CFG_ERROR_LINK_ERROR)); MArrival (RunHandler HandleHotplug);
   MHold (Some 2) 22; MIdleFreeze; MFreezeNoirq; MRetire 22].
Definition before_hold : cm_state unit unit := Desk.final (take 5 Desk.held).
Definition after_hold : cm_state unit unit := (tb_x1_hold_pcie (Some 2) 22 before_hold).2.
Definition after_pull : cm_state unit unit := (run_mops pulled_run after_hold).2.

Lemma pulled_stop_witness :
  ∃ t s3, tb_x1_stop_pcie_pulled 22 after_pull = (Ok tt, s3) ∧ x_held_tunnel (m_x s3) = Some t ∧
    tunnel_off s3 t = true ∧ sw_authorized (o_switch (m_objs s3) 2) = 0 ∧
    ts_finished (m_stop s3) = true ∧ ts_error (m_stop s3) = 0.
Proof.
  assert (fst <$> Desk.life (take 5 Desk.held) = Some (Ok tt)) as E0 by (vm_compute; reflexivity).
  assert (receipt_used before_hold = false) as E1 by (vm_compute; reflexivity).
  assert (x_stop_attempted (m_x before_hold) = false) as E2 by (vm_compute; reflexivity).
  assert ((tb_x1_hold_pcie (Some 2) 22 before_hold).1 = Ok tt) as E3 by (vm_compute; reflexivity).
  assert (OwnerFound (W:=unit)) as E4 by done.
  pose proof (pulled_stop (take 5 Desk.held) Desk.dom Desk.objs tt tt (Ok tt) before_hold 2 22 after_hold pulled_run
    (run_mops pulled_run after_hold).1 after_pull E4 (Desk.life_final _ E0) E1 E2) as Hp.
  apply Hp; [rewrite <- E3; apply surjective_pairing|vm_compute; reflexivity|apply surjective_pairing].
Defined.
