(* ===== verification/HostPcie.v ===== *)
(** * The PCIe side of the production driver

    experiments/omarchy1/kernel/drivers/thunderbolt/qcom-usb4-x1-pcie.c: one
    context per prepared root port takes power, clocks, bandwidth and reset,
    switches the port to its mode, trains, inventories, publishes one filtered
    PCI bus, binds one NVMe endpoint, and later removes the endpoint, fences
    configuration space, and gives everything back in steps.

    Configuration callbacks, the enable hook and the mark of a pulled device
    take only the raw lock and arrive at any call out of the code.  Hardware,
    the PCI core, the receiver and the four register programs whose headers
    are not in the repository (decoder, CFG0, training, inventory) answer
    arbitrarily; a program is any finite tree of the requests its interface
    has.  Steps and evidence that are only printed are left out; the admission
    by device tree is an answer. *)

From S2P Require Import Prelude Wp HostData.

(** ** Data *)

Inductive win := WRouter | WRoot | WParf | WConfig.
#[export] Instance win_eq_dec : EqDecision win.
Proof. solve_decision. Defined.

Definition PCI_COMMAND : Z := 0x04.
Definition PCI_COMMAND_IO : Z := 1.
Definition PCI_COMMAND_DECODE : Z := 6.   (* MEMORY | MASTER *)
Definition X1_PCIE_GATE : Z := 0x82000.
Definition X1_PCIE_LTSSM : Z := 0x1b0.
Definition CLOCKS : nat := 8.

(** [struct x1_pcie_inventory], as filled by the inventory program. *)
Record inventory := Inventory {
  iv_complete : bool; iv_error : Z; iv_identity : Z; iv_class_revision : Z;
  iv_pcie_offset : Z; iv_msi_offset : Z; iv_msi_header : Z;
  iv_msix_offset : Z; iv_msix_header : Z; iv_msix_table : Z; iv_msix_pba : Z;
  iv_table_bir : nat; iv_table_offset : Z; iv_table_bytes : Z;
  iv_pba_bir : nat; iv_pba_offset : Z; iv_pba_bytes : Z;
  iv_standard : list (Z * Z);
}.

Definition inventory_zero : inventory :=
  Inventory false 0 0 0 0 0 0 0 0 0 0 0 0 0 0 0 0 [].

(** [struct x1_pcie_state]; only [cfg_error] of the receipt of the first
    refused access is kept. *)
Record pcie_rec := PcieRec {
  pr_attempted : bool; pr_prepared : bool; pr_error : Z; pr_pcie_cap : Z;
  pr_inspect_requested : bool; pr_inspect_attempted : bool; pr_inspect_complete : bool;
  pr_cfg0_requested : bool; pr_cfg0_attempted : bool; pr_cfg0_complete : bool;
  pr_inventory_requested : bool; pr_inventory_attempted : bool;
  pr_receiver_requested : bool; pr_bridge_allocated : bool; pr_receiver : receiver;
  pr_nvme_requested : bool; pr_host_attempted : bool; pr_host_published : bool;
  pr_host_prepared : bool; pr_nvme_bind_attempted : bool; pr_nvme_bound : bool;
  pr_general : bool; pr_endpoint_remove_attempted : bool; pr_endpoint_removed : bool;
  pr_endpoint_remove_error : Z; pr_pulled : bool; pr_config_fenced : bool;
  pr_namespace_retire_attempted : bool; pr_namespace_retired : bool; pr_namespace_retire_error : Z;
  pr_pci_retire_attempted : bool; pr_nvme_resources_retired : bool; pr_pci_retired : bool;
  pr_pci_retire_error : Z; pr_platform_retire_attempted : bool; pr_platform_reset : bool;
  pr_platform_retired : bool; pr_platform_clocks_released : Z; pr_platform_icc_released : bool;
  pr_platform_runtime_released : bool; pr_platform_retire_error : Z;
  pr_host_error : Z; pr_cfg_error : Z;
}.
#[export] Instance pcie_rec_eta : Eta pcie_rec := λ p,
  PcieRec (pr_attempted p) (pr_prepared p) (pr_error p) (pr_pcie_cap p)
    (pr_inspect_requested p) (pr_inspect_attempted p) (pr_inspect_complete p)
    (pr_cfg0_requested p) (pr_cfg0_attempted p) (pr_cfg0_complete p)
    (pr_inventory_requested p) (pr_inventory_attempted p)
    (pr_receiver_requested p) (pr_bridge_allocated p) (pr_receiver p)
    (pr_nvme_requested p) (pr_host_attempted p) (pr_host_published p)
    (pr_host_prepared p) (pr_nvme_bind_attempted p) (pr_nvme_bound p)
    (pr_general p) (pr_endpoint_remove_attempted p) (pr_endpoint_removed p)
    (pr_endpoint_remove_error p) (pr_pulled p) (pr_config_fenced p)
    (pr_namespace_retire_attempted p) (pr_namespace_retired p) (pr_namespace_retire_error p)
    (pr_pci_retire_attempted p) (pr_nvme_resources_retired p) (pr_pci_retired p)
    (pr_pci_retire_error p) (pr_platform_retire_attempted p) (pr_platform_reset p)
    (pr_platform_retired p) (pr_platform_clocks_released p) (pr_platform_icc_released p)
    (pr_platform_runtime_released p) (pr_platform_retire_error p)
    (pr_host_error p) (pr_cfg_error p).
Definition pcie_rec_zero (general nvme receiver : bool) : pcie_rec :=
  PcieRec false false 0 0 false false false false false false false false receiver false
    receiver_zero nvme false false false false false general false false 0 false false
    false false 0 false false false 0 false false false 0 false false 0 0 0.

(** [struct x1_pcie_context]: [cx_owner] and [cx_state] say whose it is,
    [cx_maps] which windows are mapped; devices are numbers. *)
Record pctx := Pctx {
  cx_owner : Z; cx_state : Z; cx_pdev : bool; cx_maps : list win; cx_reset_early : bool;
  cx_window : bool; cx_entered : bool; cx_root_bytes : Z;
  cx_trained : bool; cx_batch_active : bool; cx_inventory : option inventory;
  cx_bridge : bool; cx_receiver : bool; cx_receiver_retained : bool;
  cx_driver_registered : bool; cx_runtime_enabled : bool; cx_runtime_held : bool;
  cx_clocks : nat; cx_session : bool; cx_root_port : option Z; cx_endpoint : option Z;
  cx_root_msi : Z; cx_root_msix : Z; cx_root_pm : Z; cx_endpoint_pm : Z;
  cx_config_open : bool; cx_scan_writes : bool; cx_bind_writes : bool; cx_pulled : bool;
}.
#[export] Instance pctx_eta : Eta pctx := λ c,
  Pctx (cx_owner c) (cx_state c) (cx_pdev c) (cx_maps c) (cx_reset_early c)
    (cx_window c) (cx_entered c) (cx_root_bytes c)
    (cx_trained c) (cx_batch_active c) (cx_inventory c)
    (cx_bridge c) (cx_receiver c) (cx_receiver_retained c)
    (cx_driver_registered c) (cx_runtime_enabled c) (cx_runtime_held c)
    (cx_clocks c) (cx_session c) (cx_root_port c) (cx_endpoint c)
    (cx_root_msi c) (cx_root_msix c) (cx_root_pm c) (cx_endpoint_pm c)
    (cx_config_open c) (cx_scan_writes c) (cx_bind_writes c) (cx_pulled c).
Definition pctx_zero (owner st : Z) : pctx :=
  Pctx owner st false [WRouter] false false false 0 false false None false false false
    false false false 0 false None None 0 0 0 0 false false false false.

(** ** The PCI core's objects, as the code looks at them *)

Record res_view := ResView { rs_flags : bool; rs_mem : bool; rs_bad : bool; rs_parent : bool;
  rs_start : Z; rs_end : Z }.
Definition resource_size (r : res_view) : Z := rs_end r - rs_start r + 1.
(** [dv_rom], [dv_window]: the entries of the resource array for the ROM and
    the bridge window; [dv_bridge]: it has a subordinate bus; [dv_msi_domain]:
    0 is NULL; [dv_on_bus]: it is on the bus it was found on. *)
Record dev_view := DevView {
  dv_id : Z; dv_devfn : Z; dv_vendor : Z; dv_device : Z; dv_hdr_type : Z; dv_class : Z;
  dv_revision : Z; dv_no_msi : bool; dv_multifunction : bool; dv_pcie : bool; dv_pcie_type : Z;
  dv_driver : option string; dv_msix_cap : Z; dv_msi_cap : Z; dv_msi_domain : Z;
  dv_bridge : bool; dv_registered : bool; dv_drvdata : bool; dv_msi_data : bool;
  dv_disconnected : bool; dv_on_bus : bool; dv_resource : nat → res_view;
  dv_rom : bool; dv_window : res_view;
}.
(** The bus behind the root port, and the root bus. *)
Record sub_view := SubView { sv_number : Z; sv_parent : bool; sv_children : nat; sv_devices : list dev_view }.
Record bus_view := BusView {
  bv_number : Z; bv_domain : Z; bv_parent : bool; bv_ours : bool; bv_devices : list dev_view;
  bv_children : nat; bv_sub : option sub_view; bv_msi_domain : Z;
}.

(** A [struct pci_bus *] handed to a configuration callback. *)
Record cfg_bus := CfgBus { cb_ours : bool; cb_domain : Z; cb_is_root : bool; cb_number : Z;
  cb_parent : bool; cb_parent_is_root : bool }.

(** ** Calls, programs, environment *)

(** The last row marks where configuration opens, driver writes are admitted,
    the fence closes, a device was pulled and the context is unpublished;
    [ImsiRetired] marks that the receiver is gone. *)
Inductive pcall :=
| Rd (x : win) (off size : Z) | Wr (x : win) (off size v : Z)
| CtxAlloc | CtxFree | OwnerGet | OwnerPut | Admit | PdevPut | FindPdev | ModuleGet | ModulePut
| ResetGet | ResetPut | ResetAssert | ResetDeassert | Msleep (ms : Z)
| DriverProbe | DriverUnregister
| RtEnable | RtResume | RtForbid (owner : bool) | RtAllow (owner : bool) | RtPut | RtDisable
| MapWin (x : win) | ResetDevmGet | ClkGet (i : nat) | IccGet (mem : bool)
| ClkEnable (i : nat) | ClkDisable (i : nat) | IccSet (mem : bool) (v : Z)
| PmForbid (d : Z) | BatchLive | RtActive | BridgeAlloc | ImsiStop | ImsiRetired
| ScanBus | Override (d : Z) (name : string) | SizeBridges | AssignResources | AddDevices
| PciGet (d : Z) | PciPut (d : Z) | OpenSession | CloseSession
| Attach (d : Z) | RemoveEndpoint (d : Z) | TunnelAction | StopBus | RemoveBus | CheckStopped
| OpenConfig | BindWrites | Fenced | Pulled | CtxUnpublish.
Definition pevent : Type := pcall * Z.

Inductive ioreq := QLive (phase : Z) | QRead (region off : Z) | QWrite (region off v : Z) | QDelay (ms : Z).
(** A register program: its result and output, or a request and what follows
    its errno and value. *)
Inductive ioprog (A : Type) := IoDone (r : Z) (a : A) | IoReq (q : ioreq) (k : Z → Z → ioprog A).
Arguments IoDone {_} _ _.
Arguments IoReq {_} _ _.
(** A function that takes a callback. *)
Inductive cbprog := CbDone (r : Z) | CbCall (k : Z → cbprog).

Inductive parrival :=
| ACfgRead (b : cfg_bus) (devfn off size : Z) | ACfgWrite (b : cfg_bus) (devfn off size v : Z)
| AEnable (ours : bool) (d : Z) | APulled (owner st : Z).

Class PcieEnv (W : Type) := {
  x_answer : pcall → W → Z * W;
  x_arrivals : W → list parrival * W;
  x_bus : W → option bus_view;
  x_dev : Z → W → dev_view;
  x_bridge_registered : W → bool;
  x_root_bytes : W → Z;
  x_probes : W → bool;
  x_decoder : W → ioprog bool;
  x_cfg0 : W → ioprog bool;
  x_cfg0_validate : bool → W → ioprog unit;
  x_train : W → ioprog bool;
  x_inventory : Z → Z → W → ioprog inventory;
  x_mem : W → ioprog unit;
  x_imsi_prepare : W → ioprog bool;
  x_policy_global : W → ioprog unit;
  x_policy_target : W → ioprog unit;
  x_imsi_cached : receiver → W → receiver;
  x_imsi_release : W → cbprog;
  x_imsi_retire : W → cbprog;
  x_retire_irqs : W → cbprog;
  x_retire_namespaces : W → cbprog;
  x_retire_resources : W → cbprog;
  x_cfg0_write_allowed : Z → Z → bool;
  x_train_read_allowed : Z → Z → bool;
  x_train_write_allowed : Z → Z → bool;
  x_mem_offset : Z → bool;
}.

(** [x1_pcie], [x1_pcie_reset_held] and the callers' states. *)
Record psys (W : Type) := Psys {
  y_states : Z → pcie_rec; y_ctx : option pctx; y_reset_held : bool; y_log : list pevent; y_w : W;
}.
Arguments Psys {_} _ _ _ _ _.
Arguments y_states {_} _.
Arguments y_ctx {_} _.
Arguments y_reset_held {_} _.
Arguments y_log {_} _.
Arguments y_w {_} _.
#[export] Instance psys_eta {W} : Eta (psys W) := λ s,
  Psys (y_states s) (y_ctx s) (y_reset_held s) (y_log s) (y_w s).

(** ** Primitives *)

Section pcie.
Context {W : Type} `{PcieEnv W}.
Notation MP := (M (psys W)).
Implicit Types s : psys W.

Definition plog (c : pcall) (r : Z) : MP unit := modify (λ s, s <| y_log := y_log s ++ [(c, r)] |>).
(** A call during which nothing else happens; [pmark] only marks. *)
Definition pleaf (c : pcall) : MP Z := λ s,
  let '(r, w) := x_answer c (y_w s) in
  (Ok r, s <| y_w := w |> <| y_log := y_log s ++ [(c, r)] |>).
Definition pmark (c : pcall) : MP unit := plog c 0.

(** [ctx->field] *)
Definition cget : MP pctx := λ s,
  match y_ctx s with Some c => (Ok c, s) | None => (Fault, s) end.
Definition cset (f : pctx → pctx) : MP unit := λ s,
  match y_ctx s with Some c => (Ok tt, s <| y_ctx := Some (f c) |>) | None => (Fault, s) end.
Definition upd_rec (n : Z) (f : pcie_rec → pcie_rec) (m : Z → pcie_rec) : Z → pcie_rec :=
  λ k, if k =? n then f (m n) else m k.
Definition st_set (n : Z) (f : pcie_rec → pcie_rec) : MP unit :=
  modify (λ s, s <| y_states := upd_rec n f (y_states s) |>).
(** [ctx->state->field] *)
Definition sget : MP pcie_rec :=
  let! c := cget in let! s := get in ret (y_states s (cx_state c)).
Definition sset (f : pcie_rec → pcie_rec) : MP unit :=
  let! c := cget in st_set (cx_state c) f.

Definition width (size v : Z) : Z := if size =? 1 then u8 v else if size =? 2 then u16 v else u32 v.
(** An access to a window that is not mapped is [Fault]. *)
Definition rd (x : win) (off size : Z) : MP Z :=
  let! c := cget in
  if bool_decide (x ∈ cx_maps c) then let! v := pleaf (Rd x off size) in ret (width size v) else fault.
Definition wr (x : win) (off size v : Z) : MP unit :=
  let! c := cget in
  if bool_decide (x ∈ cx_maps c) then plog (Wr x off size (width size v)) 0 else fault.

(** ** The configuration filter *)

Definition rwin (root : bool) : win := if root then WRoot else WConfig.

(** [readw(base + offset)], with the bytes of the proposed write put in. *)
Definition merge_byte (where_ size value offset word : Z) (byte : nat) : Z :=
  let a := where_ + Z.of_nat byte in
  if (Z.of_nat byte <? size) && (offset <=? a) && (a <? offset + 2) then
    (word .& Z.lxor 0xffff (0xff << (8 * (a - offset)))) .|
    (((value >> (8 * Z.of_nat byte)) .& 0xff) << (8 * (a - offset)))
  else word.
Definition x1_pcie_config_word (root : bool) (where_ size value offset : Z) : MP Z :=
  let! word := rd (rwin root) offset 2 in
  ret (foldl (merge_byte where_ size value offset) word [0; 1; 2; 3]%nat).
Definition x1_pcie_config_touches (where_ size word : Z) : bool :=
  (where_ <? word + 2) && (word <? where_ + size).

(** [touches(word) && (config_word(word) & mask)] *)
Definition bad_word (root : bool) (where_ size value word mask : Z) : MP bool :=
  if x1_pcie_config_touches where_ size word then
    let! w := x1_pcie_config_word root where_ size value word in ret (tst w mask)
  else ret false.
Definition refuse_word (root : bool) (where_ size value word mask : Z) : MP unit :=
  let! bad := bad_word root where_ size value word mask in
  if bad : bool then fail (-EPERM) else ret tt.

(** The bus numbers that a write to the bridge would leave. *)
Definition merge_bus (where_ size value buses : Z) (byte : nat) : Z :=
  let a := where_ + Z.of_nat byte in
  if (Z.of_nat byte <? size) && (0x18 <=? a) && (a <? 0x1b) then
    (buses .& not32 (0xff << (8 * (a - 0x18)))) .|
    (((value >> (8 * Z.of_nat byte)) .& 0xff) << (8 * (a - 0x18)))
  else buses.

Definition x1_pcie_config_write_allowed (root : bool) (where_ size value : Z) : MP unit :=
  let! c := cget in
  let! q := sget in
  match cx_inventory c with
  | None => fault
  | Some inv =>
      let pcie := u16 (if root then pr_pcie_cap q else iv_pcie_offset inv) in
      let msi := u16 (if root then cx_root_msi c else iv_msi_offset inv) in
      let msix := u16 (if root then cx_root_msix c else iv_msix_offset inv) in
      let pm := u16 (if root then cx_root_pm c else cx_endpoint_pm c) in
      let refuse := refuse_word root where_ size value in
      if (where_ <? 4) || ((where_ <? 0xc) && (0x8 <? where_ + size)) then fail (-EPERM) else
      do! refuse PCI_COMMAND (if cx_bind_writes c then PCI_COMMAND_IO else PCI_COMMAND_IO .| PCI_COMMAND_DECODE) in
      do! (if root then refuse 0x3e 0x40 else ret tt) in
      do! refuse (pcie + 8) 0x8000 in
      do! refuse (pcie + 0x10) 0x30 in
      do! (if pm =? 0 then ret tt else refuse (pm + 4) 3) in
      do! (if root || negb (cx_bind_writes c) then
             do! (if msi =? 0 then ret tt else refuse (msi + 2) 1) in
             if msix =? 0 then ret tt else refuse (msix + 2) 0x8000
           else ret tt) in
      do! (if root && (where_ <? 0x1b) && (0x18 <? where_ + size) then
             let! buses := rd WRoot 0x18 4 in
             let proposed := foldl (merge_bus where_ size value) buses [0; 1; 2; 3]%nat in
             if proposed .& 0xffffff =? 0x010100 then ret tt else fail (-EPERM)
           else ret tt) in
      if negb (cx_scan_writes c) && (where_ <? (if root then 0x3c else 0x28)) && (0x10 <? where_ + size) then
        let! v := rd (rwin root) where_ size in
        if v =? value then ret tt else fail (-EPERM)
      else ret tt
  end.

(** Reads of the retained-local check; [cx_driver_registered] stands for
    [ctx->pdev->dev.driver == &x1_pcie_driver.driver]. *)
Definition decode_off (x : win) : MP unit :=
  let! c := cget in
  let! command := rd x PCI_COMMAND 2 in
  if (command =? 0xffff) || tst command PCI_COMMAND_IO ||
     (negb (cx_bind_writes c) && tst command PCI_COMMAND_DECODE) then fail (-EBUSY) else ret tt.
Definition x1_pcie_host_local : MP unit :=
  let! c := cget in
  let! q := sget in
  if negb (pr_nvme_requested q) || negb (cx_receiver_retained c) || negb (rc_ready (pr_receiver q)) ||
     negb (cx_trained c) || (pr_error q !=? 0) || (pr_host_error q !=? 0) || (pr_cfg_error q !=? 0) ||
     negb (cx_driver_registered c) then fail (-EPERM) else
  match cx_inventory c with
  | None => fault
  | Some inv =>
      let! gate := rd WRouter X1_PCIE_GATE 4 in
      if gate !=? 0 then fail (-ENODEV) else
      let! id := rd WRoot 0 4 in
      if id !=? 0x011117cb then fail (-ENODEV) else
      let! id := rd WConfig 0 4 in
      if id !=? iv_identity inv then fail (-ENODEV) else
      do! decode_off WRoot in
      decode_off WConfig
  end.

Definition PCIBIOS_DEVICE_NOT_FOUND : Z := 0x86.
Definition PCIBIOS_BAD_REGISTER_NUMBER : Z := 0x87.
Definition PCIBIOS_SET_FAILED : Z := 0x88.

Definition x1_pcie_config_base (s : psys W) (b : cfg_bus) (devfn : Z) : option bool :=
  match y_ctx s with
  | None => None
  | Some c =>
      if negb (cb_ours b) || negb (cx_bridge c) || negb (cx_config_open c) || (cb_domain b !=? 0) ||
         (devfn !=? 0) || negb (bool_decide (is_Some (x_bus (y_w s)))) then None else
      if cb_is_root b && (cb_number b =? 0) && negb (cb_parent b) then Some true else
      if (cb_number b =? 1) && cb_parent_is_root b then Some false else None
  end.
Definition bad_register (off size : Z) : bool :=
  negb ((size =? 1) || (size =? 2) || (size =? 4)) || (off <? 0) || (4096 <? off + size) ||
  (off mod size !=? 0).
(** The first refused access is kept. *)
Definition note_cfg_error (e : Z) : MP unit :=
  sset (λ q, if pr_cfg_error q =? 0 then q <| pr_cfg_error := e |> else q).

(** Return the PCIBIOS code; the value read is not followed. *)
Definition x1_pcie_config_read (b : cfg_bus) (devfn off size : Z) : MP Z :=
  if bad_register off size then ret PCIBIOS_BAD_REGISTER_NUMBER else
  let! s := get in
  match x1_pcie_config_base s b devfn with
  | None => ret PCIBIOS_DEVICE_NOT_FOUND
  | Some root =>
      let! c := cget in
      if cx_pulled c then ret PCIBIOS_DEVICE_NOT_FOUND else
      let! e := attempt x1_pcie_host_local in
      if e !=? 0 then do! note_cfg_error e in ret PCIBIOS_DEVICE_NOT_FOUND else
      do! rd (rwin root) off size in ret 0
  end.
Definition x1_pcie_config_write (b : cfg_bus) (devfn off size v : Z) : MP Z :=
  if bad_register off size then ret PCIBIOS_BAD_REGISTER_NUMBER else
  let! s := get in
  match x1_pcie_config_base s b devfn with
  | None => ret PCIBIOS_DEVICE_NOT_FOUND
  | Some root =>
      let! c := cget in
      if cx_pulled c then ret PCIBIOS_DEVICE_NOT_FOUND else
      let! e := attempt (do! x1_pcie_host_local in x1_pcie_config_write_allowed root off size v) in
      if e !=? 0 then do! note_cfg_error e in ret PCIBIOS_SET_FAILED else
      do! wr (rwin root) off size v in ret 0
  end.

Definition x1_pcie_enable_device (ours : bool) (d : Z) : MP unit :=
  let! s := get in
  match y_ctx s with
  | None => fail (-EPERM)
  | Some c =>
      let q := y_states s (cx_state c) in
      if negb ours || negb (cx_bind_writes c) || negb (pr_host_prepared q) || cx_pulled c ||
         negb (bool_decide (cx_root_port c = Some d) || bool_decide (cx_endpoint c = Some d))
      then fail (-EPERM) else x1_pcie_host_local
  end.

(** Owner 0 is NULL. *)
Definition mark_pulled (owner st : Z) : MP unit :=
  let! s := get in
  match y_ctx s with
  | None => ret tt
  | Some c =>
      let q := y_states s st in
      if (owner !=? 0) && (cx_owner c =? owner) && (cx_state c =? st) && pr_general q &&
         bool_decide (is_Some (cx_endpoint c)) && negb (pr_pci_retire_attempted q) then
        do! cset (λ c, c <| cx_pulled := true |>) in
        do! st_set st (λ q, q <| pr_pulled := true |>) in
        pmark Pulled
      else ret tt
  end.

Definition run_parrival (a : parrival) : MP unit :=
  match a with
  | ACfgRead b devfn off size => do! x1_pcie_config_read b devfn off size in ret tt
  | ACfgWrite b devfn off size v => do! x1_pcie_config_write b devfn off size v in ret tt
  | AEnable ours d => do! attempt (x1_pcie_enable_device ours d) in ret tt
  | APulled owner st => mark_pulled owner st
  end.
Definition arrivals : MP unit :=
  let! l := (λ s, let '(l, w) := x_arrivals (y_w s) in (Ok l, s <| y_w := w |>)) in
  for_each l run_parrival.

(** A call out of the code: others run first. *)
Definition pcall1 (c : pcall) : MP Z := do! arrivals in pleaf c.
Definition pcall0 (c : pcall) : MP unit := do! pcall1 c in ret tt.
Definition pcalle (c : pcall) : MP unit := let! r := pcall1 c in ok_or_fail r.

(** [ret > 0 ? -EIO : ret] *)
Definition strict (m : MP unit) : MP unit :=
  let! e := attempt m in
  if e =? 0 then ret tt else fail (if 0 <? e then -EIO else e).

Fixpoint run_io {A} (h : ioreq → MP Z) (p : ioprog A) : MP (Z * A) :=
  match p with
  | IoDone r a => ret (r, a)
  | IoReq q k => λ s,
      match h q s with
      | (Ok v, s) => run_io h (k 0 v) s
      | (Err e, s) => run_io h (k e 0) s
      | (Fault, s) => (Fault, s)
      end
  end.
Definition io {A} (f : W → ioprog A) (h : ioreq → MP Z) : MP (Z * A) :=
  let! s := get in run_io h (f (y_w s)).
Fixpoint run_cb (cb : MP unit) (p : cbprog) : MP unit :=
  match p with
  | CbDone r => ok_or_fail r
  | CbCall k => let! e := attempt cb in run_cb cb (k e)
  end.

(** ** Root port *)

Definition x1_pcie_mask (x : win) (off mask v : Z) : MP unit :=
  let! old := rd x off 4 in
  if old =? U32_MAX then fail (-EIO) else
  do! wr x off 4 ((old .& not32 mask) .| (v .& mask)) in
  let! new := rd x off 4 in
  if new .& mask =? v .& mask then ret tt else fail (-EIO).

Definition x1_pcie_disabled : MP unit :=
  let! control := rd WParf X1_PCIE_LTSSM 4 in
  if (control =? U32_MAX) || tst control 0x100 then fail (-EBUSY) else
  let! command := rd WRoot PCI_COMMAND 4 in
  if tst command 7 then fail (-EBUSY) else ret tt.
Definition x1_pcie_quiescent : MP unit :=
  let! gate := rd WRouter X1_PCIE_GATE 4 in
  if gate !=? 0 then fail (-EBUSY) else x1_pcie_disabled.

(** [root_id], [command_status], [class_revision], [header] *)
Definition x1_pcie_snapshot : MP (Z * Z * Z * Z) :=
  let! a := rd WRoot 0 4 in
  let! b := rd WRoot PCI_COMMAND 4 in
  let! c := rd WRoot 8 4 in
  let! d := rd WRoot 0xc 4 in
  ret (a, b, c, d).

Definition express_bad (cap ptr : Z) : bool :=
  let flags := cap >> 16 in
  (0xc4 <? ptr) || (flags .& 0xf0 !=? 0x40) || (flags .& 0xf =? 0) || (2 <? flags .& 0xf).
Definition interrupt_on (cap : Z) : bool :=
  ((cap .& 0xff =? 5) && tst (cap >> 16) 1) || ((cap .& 0xff =? 0x11) && tst (cap >> 16) 0x8000).
Definition note_capability (cap ptr : Z) : MP unit :=
  cset (λ c, let id := cap .& 0xff in
    c <| cx_root_msi := if id =? 5 then ptr else cx_root_msi c |>
      <| cx_root_msix := if id =? 0x11 then ptr else cx_root_msix c |>
      <| cx_root_pm := if id =? 1 then ptr else cx_root_pm c |>).

(** At most [count] more capabilities from [ptr]. *)
Fixpoint root_walk (count : nat) (ptr seen pcie : Z) : MP Z :=
  match count with
  | O => if (ptr !=? 0) || (pcie =? 0) then fail (-ENODEV) else ret pcie
  | S count =>
      if ptr =? 0 then (if pcie =? 0 then fail (-ENODEV) else ret pcie) else
      if (ptr <? 0x40) || (0xfc <? ptr) || tst ptr 3 || Z.testbit seen (ptr / 4 - 16) then fail (-EINVAL) else
      let seen := seen .| (1 << (ptr / 4 - 16)) in
      let! cap := rd WRoot ptr 4 in
      if (cap .& 0xff =? 0) || (cap .& 0xff =? 0xff) then fail (-ENODEV) else
      do! note_capability cap ptr in
      if interrupt_on cap then fail (-EBUSY) else
      if cap .& 0xff =? 0x10 then
        if (pcie !=? 0) || express_bad cap ptr then fail (-EINVAL)
        else root_walk count ((cap >> 8) .& 0xff) seen ptr
      else root_walk count ((cap >> 8) .& 0xff) seen pcie
  end.
Definition x1_pcie_root_identity : MP unit :=
  let! t := x1_pcie_snapshot in
  let '(id, command, _, header) := t in
  if (id !=? 0x011117cb) || ((header >> 16) .& 0xff !=? 1) || negb (tst command 0x100000) ||
     tst command 7 then fail (-ENODEV) else
  let! first := rd WRoot 0x34 4 in
  let! pcie := root_walk 48 (first .& 0xff) 0 0 in
  sset (λ q, q <| pr_pcie_cap := pcie |>).
Definition x1_pcie_root_validate : MP unit := do! x1_pcie_root_identity in x1_pcie_quiescent.

Definition inspect_root : list Z := [0x8f8; 0x8fc; 0x900].
Definition inspect_parf : list Z := [0; 0x174; 0x1a8; 0x1b0; 0x350; 0x354; 0x634; 0x638; 0x358; 0x35c].
Definition inspect_one (x : win) (off : Z) : MP unit :=
  do! x1_pcie_quiescent in do! rd x off 4 in ret tt.
Definition x1_pcie_inspect : MP unit :=
  let! q := sget in
  if negb (pr_inspect_requested q) || pr_inspect_attempted q then fail (-EPERM) else
  do! sset (λ q, q <| pr_inspect_attempted := true |> <| pr_inspect_complete := false |>) in
  do! x1_pcie_root_validate in
  do! for_each inspect_root (inspect_one WRoot) in
  do! for_each inspect_parf (inspect_one WParf) in
  do! x1_pcie_root_validate in
  sset (λ q, q <| pr_inspect_complete := true |>).

Definition set_gate (v : Z) : MP unit :=
  do! wr WRouter X1_PCIE_GATE 4 v in
  let! g := rd WRouter X1_PCIE_GATE 4 in
  if g =? v then ret tt else fail (-EIO).
Definition x1_pcie_mode : MP unit :=
  let! t := x1_pcie_snapshot in
  if negb (bool_decide (t = (0x011117cb, 0x00100000, 0xff000001, 0))) then fail (-ENODEV) else
  do! x1_pcie_quiescent in
  do! x1_pcie_mask WParf X1_PCIE_LTSSM 0x100 0 in
  do! set_gate 1 in
  do! pcalle ResetAssert in
  do! pcall0 (Msleep 5) in
  do! pcalle ResetDeassert in
  do! pcall0 (Msleep 5) in
  do! x1_pcie_disabled in
  do! x1_pcie_mask WParf 0x1000 0xf 4 in
  do! x1_pcie_disabled in
  do! set_gate 0 in
  do! pcall0 (Msleep 5) in
  x1_pcie_root_validate.

(** *** Local preparation *)

Definition local_admitted : MP unit :=
  let! c := cget in
  let! q := sget in
  if negb (cx_window c) || negb (cx_entered c) || negb (pr_attempted q) || negb (pr_cfg0_requested q)
  then fail (-EPERM) else ret tt.
Definition x1_pcie_local_live : MP unit := do! local_admitted in x1_pcie_quiescent.

(** Phase 0 is BOUNDARY, 1 is BASE_BATCH. *)
Definition x1_pcie_decoder_live (phase : Z) : MP unit :=
  if (phase !=? 0) && (phase !=? 1) then fail (-EINVAL) else
  do! local_admitted in
  let! gate := rd WRouter X1_PCIE_GATE 4 in
  if gate !=? 0 then fail (-EBUSY) else
  let! v := rd WParf X1_PCIE_LTSSM 4 in
  if phase =? 1 then (if v !=? 0 then fail (-EBUSY) else ret tt) else
  if (v =? U32_MAX) || tst v 0x100 then fail (-EBUSY) else
  let! command := rd WRoot PCI_COMMAND 4 in
  if tst command 7 then fail (-EBUSY) else ret tt.
(** Regions: 0 root, 1 PARF, 2 router. *)
Definition region_read (root_last : Z) (region off : Z) : MP Z :=
  if negb ((region =? 0) || (region =? 1)) || tst off 3 || (off <? 0) ||
     ((if region =? 0 then root_last else 0x7ffc) <? off) then fail (-EINVAL)
  else rd (if region =? 0 then WRoot else WParf) off 4.
Definition x1_pcie_decoder_read (region off : Z) : MP Z := region_read 0xffc region off.
Definition decoder_words : list (Z * Z) :=
  [(0x350, 0); (0x354, 4); (0x634, 0x1000); (0x638, 4); (0x358, 0); (0x35c, 0x80000000)].
Definition x1_pcie_decoder_write (region off v : Z) : MP unit :=
  if negb (region =? 1) || negb (bool_decide ((off, v) ∈ decoder_words)) then fail (-EINVAL)
  else wr WParf off 4 v.
Definition x1_pcie_cfg0_read (region off : Z) : MP Z := region_read 0x1ffc region off.
Definition x1_pcie_cfg0_write (region off v : Z) : MP unit :=
  if negb (x_cfg0_write_allowed region off) then fail (-EINVAL) else wr WRoot off 4 v.
Definition x1_pcie_cfg0_delay (ms : Z) : MP unit :=
  do! x1_pcie_local_live in
  if ms !=? 10 then fail (-EINVAL) else pcall0 (Msleep ms).

(** A callback the program does not have is never asked for. *)
Definition no_callback : MP Z := fail (-EINVAL).
Definition unit0 (m : MP unit) : MP Z := do! m in ret 0.
Definition decoder_io (q : ioreq) : MP Z :=
  match q with
  | QLive phase => unit0 (x1_pcie_decoder_live phase)
  | QRead region off => x1_pcie_decoder_read region off
  | QWrite region off v => unit0 (x1_pcie_decoder_write region off v)
  | QDelay _ => no_callback
  end.
Definition cfg0_io (q : ioreq) : MP Z :=
  match q with
  | QLive _ => unit0 x1_pcie_local_live
  | QRead region off => x1_pcie_cfg0_read region off
  | QWrite region off v => unit0 (x1_pcie_cfg0_write region off v)
  | QDelay ms => unit0 (x1_pcie_cfg0_delay ms)
  end.

Definition x1_pcie_local_cfg0 : MP unit :=
  let! c := cget in
  let! q := sget in
  if negb (pr_cfg0_requested q) || pr_cfg0_attempted q || negb (pr_inspect_complete q) ||
     (cx_root_bytes c !=? 0x2000) then fail (-EPERM) else
  do! sset (λ q, q <| pr_cfg0_attempted := true |>) in
  let! d := io x_decoder decoder_io in
  do! ok_or_fail d.1 in
  let! d := io x_cfg0 cfg0_io in
  do! sset (λ q, q <| pr_cfg0_complete := d.2 |>) in
  do! ok_or_fail d.1 in
  on_error x1_pcie_root_validate (sset (λ q, q <| pr_cfg0_complete := false |>)).

(** ** Preparation *)

Definition x1_pcie_release_early : MP unit :=
  let! s := get in
  if negb (y_reset_held s) then ret tt else
  do! pcalle ResetGet in
  do! cset (λ c, c <| cx_reset_early := true |>) in
  do! pcalle ResetDeassert in
  do! pcall0 (Msleep 5) in
  modify (λ s, s <| y_reset_held := false |>).

(** [qcom_usb4_x1_release_retired_reset] *)
Definition release_retired_reset (owner : Z) : MP unit :=
  if owner =? 0 then fail (-EINVAL) else
  let! s := get in
  if negb (y_reset_held s) then ret tt else
  if bool_decide (is_Some (y_ctx s)) then fail (-EBUSY) else
  let! found := pcall1 FindPdev in
  if found =? 0 then fail (-ENODEV) else
  let! e := attempt
    (do! pcalle ResetGet in
     let! e := pcall1 ResetDeassert in
     do! pcall0 ResetPut in
     do! ok_or_fail e in
     do! pcall0 (Msleep 5) in
     modify (λ s, s <| y_reset_held := false |>)) in
  do! pcall0 PdevPut in
  ok_or_fail e.

Definition map_win (x : win) : MP unit :=
  do! pcalle (MapWin x) in cset (λ c, c <| cx_maps := x :: cx_maps c |>).
Definition enable_clock (i : nat) : MP unit :=
  do! pcalle (ClkEnable i) in cset (λ c, c <| cx_clocks := S (cx_clocks c) |>).

Definition get_handles : MP unit :=
  do! for_each (seq 0 CLOCKS) (λ i, pcalle (ClkGet i)) in
  do! pcalle (IccGet true) in
  pcalle (IccGet false).
Definition set_bandwidth : MP unit := do! pcalle (IccSet true 2000000) in pcalle (IccSet false 75000).
Definition root_port_mode (q : pcie_rec) : MP unit :=
  do! x1_pcie_mode in
  do! (if pr_inspect_requested q then x1_pcie_inspect else ret tt) in
  if pr_cfg0_requested q then x1_pcie_local_cfg0 else ret tt.
(** [x1_pcie_prepare_probe] up to [done]. *)
Definition probe_steps : MP unit :=
  let! q := sget in
  let! c := cget in
  do! pcall0 RtEnable in
  do! cset (λ c, c <| cx_runtime_enabled := true |>) in
  let! r := pcall1 RtResume in
  if r <? 0 then fail r else
  do! cset (λ c, c <| cx_runtime_held := true |>) in
  do! pcall0 (RtForbid false) in
  do! map_win WRoot in
  do! map_win WParf in
  do! (if pr_inventory_requested q then map_win WConfig else ret tt) in
  do! (if cx_reset_early c then ret tt else pcalle ResetDevmGet) in
  do! get_handles in
  do! for_each (seq 0 CLOCKS) enable_clock in
  do! set_bandwidth in
  root_port_mode q.
(** Binds whatever the result; [pdev] is the admitted device. *)
Definition x1_pcie_prepare_probe : MP unit :=
  let! c := cget in
  if negb (cx_window c) || cx_entered c then ret tt else
  do! cset (λ c, c <| cx_entered := true |>) in
  let! e := attempt probe_steps in
  sset (λ q, q <| pr_error := e |> <| pr_prepared := e =? 0 |>).

(** A driver that did not stay bound has lost its mappings. *)
Definition prepare_admitted (st : Z) : MP unit :=
  let! a := pcall1 Admit in
  do! ok_or_fail a in
  let! s := get in
  do! cset (λ c, c <| cx_pdev := true |> <| cx_root_bytes := x_root_bytes (y_w s) |>) in
  do! x1_pcie_release_early in
  do! cset (λ c, c <| cx_window := true |>) in
  let! s := get in
  do! (if x_probes (y_w s) then x1_pcie_prepare_probe else ret tt) in
  let! r := pcall1 DriverProbe in
  do! cset (λ c, c <| cx_window := false |> <| cx_driver_registered := r =? 0 |>
                   <| cx_maps := if r =? 0 then cx_maps c else [WRouter] |>) in
  do! ok_or_fail r in
  let! c := cget in
  let! q := sget in
  if cx_entered c then ok_or_fail (pr_error q) else fail (-ENODEV).
Definition x1_pcie_prepare_once (owner st : Z) (inventory : bool) : MP unit :=
  if (owner =? 0) || (st =? 0) then fail (-EINVAL) else
  let! s := get in
  if negb inventory || negb (pr_receiver_requested (y_states s st)) then fail (-EPERM) else
  if pr_attempted (y_states s st) || bool_decide (is_Some (y_ctx s)) then fail (-EALREADY) else
  do! st_set st (λ q, q <| pr_attempted := true |>) in
  recording
    (let! a := pcall1 CtxAlloc in
     if a =? 0 then fail (-ENOMEM) else
     do! modify (λ s, s <| y_ctx := Some (pctx_zero owner st) |>) in
     do! st_set st (λ q, q <| pr_inventory_requested := true |> <| pr_inspect_requested := true |>
       <| pr_cfg0_requested := true |> <| pr_prepared := false |>) in
     do! plog OwnerGet 0 in
     prepare_admitted st)
    (λ e s, s <| y_states := upd_rec st (λ q, q <| pr_error := e |>) (y_states s) |>).

Definition qcom_usb4_x1_pcie_prepare (owner st : Z) : MP unit := x1_pcie_prepare_once owner st false.
Definition qcom_usb4_x1_batch_prepare (owner st : Z) : MP unit := x1_pcie_prepare_once owner st true.

(** ** Training and inventory *)

(** [check_live] is the caller's. *)
Definition x1_pcie_batch_live : MP unit :=
  let! c := cget in
  let! q := sget in
  if negb (cx_batch_active c) || negb (pr_inventory_requested q) || negb (pr_inventory_attempted q) ||
     negb (pr_prepared q) || (pr_error q !=? 0) then fail (-EPERM) else
  do! pcalle BatchLive in
  let! gate := rd WRouter X1_PCIE_GATE 4 in
  if gate !=? 0 then fail (-EBUSY) else x1_pcie_root_identity.

Definition x1_pcie_train_base (region : Z) : win :=
  if region =? 0 then WRoot else if region =? 1 then WParf else WRouter.
Definition x1_pcie_train_read (region off : Z) : MP Z :=
  if negb (x_train_read_allowed region off) then fail (-EINVAL) else
  do! x1_pcie_batch_live in rd (x1_pcie_train_base region) off 4.
Definition x1_pcie_train_write (region off v : Z) : MP unit :=
  if negb (x_train_write_allowed region off) then fail (-EINVAL) else
  do! x1_pcie_batch_live in wr (x1_pcie_train_base region) off 4 v.
Definition x1_pcie_train_delay (ms : Z) : MP unit :=
  do! x1_pcie_batch_live in
  if negb (ms =? 1) && negb (ms =? 20) then fail (-EINVAL) else pcall0 (Msleep ms).
Definition train_io (q : ioreq) : MP Z :=
  match q with
  | QLive _ => unit0 x1_pcie_batch_live
  | QRead region off => x1_pcie_train_read region off
  | QWrite region off v => unit0 (x1_pcie_train_write region off v)
  | QDelay ms => unit0 (x1_pcie_train_delay ms)
  end.

Definition validate_io (q : ioreq) : MP Z :=
  match q with
  | QLive _ => unit0 x1_pcie_batch_live
  | QRead region off => x1_pcie_cfg0_read region off
  | _ => no_callback
  end.
Definition x1_pcie_window_survived (trained : bool) : MP unit :=
  let! d := io (x_cfg0_validate trained) validate_io in ok_or_fail d.1.
Definition x1_pcie_inventory_read (off : Z) : MP Z :=
  let! c := cget in
  if tst off 3 || (off <? 0) || (0xffc <? off) || negb (cx_trained c) then fail (-EINVAL) else
  do! x1_pcie_window_survived true in rd WConfig off 4.
Definition inventory_io (q : ioreq) : MP Z :=
  match q with QRead _ off => x1_pcie_inventory_read off | _ => no_callback end.

(** ** Receiver *)

Definition bridge_bus : MP (option bus_view) := let! s := get in ret (x_bus (y_w s)).
Definition no_bus : MP bool := let! b := bridge_bus in ret (negb (bool_decide (is_Some b))).
(** One word must be the recorded one with the bits of [mask] clear. *)
Definition live_word (off : Z) (expected : option Z) (mask e : Z) : MP unit :=
  let! v := x1_pcie_inventory_read off in
  if bool_decide (is_Some expected ∧ expected ≠ Some v) || tst v mask then fail e else ret tt.
Definition live_words (inv : inventory) : MP unit :=
  do! live_word 0 (Some (iv_identity inv)) 0 (-ENODEV) in
  do! live_word PCI_COMMAND None 7 (-EBUSY) in
  do! live_word (iv_msix_offset inv) (Some (iv_msix_header inv)) 0x80000000 (-EBUSY) in
  do! (if iv_msi_offset inv =? 0 then ret tt
       else live_word (iv_msi_offset inv) (Some (iv_msi_header inv)) 0x10000 (-EBUSY)) in
  x1_pcie_batch_live.
Definition x1_pcie_receiver_live : MP unit :=
  let! c := cget in
  let! q := sget in
  let! none := no_bus in
  match cx_inventory c with
  | None => fail (-EPERM)
  | Some inv =>
      if negb (cx_batch_active c) || negb (iv_complete inv) || (iv_error inv !=? 0) ||
         negb (pr_receiver_requested q) || (iv_msix_offset inv =? 0) || negb (cx_bridge c) || negb none
      then fail (-EPERM) else strict (live_words inv)
  end.

(** Pins the module and keeps both devices active. *)
Definition x1_pcie_receiver_retain : MP unit :=
  do! x1_pcie_receiver_live in
  let! active := pcall1 RtActive in
  let! c := cget in
  if cx_receiver_retained c || negb (cx_driver_registered c) || (active =? 0) then fail (-EBUSY) else
  let! got := pcall1 ModuleGet in
  if got =? 0 then fail (-ENODEV) else
  do! pcall0 (RtForbid true) in
  do! pcall0 (RtForbid false) in
  cset (λ c, c <| cx_receiver_retained := true |>).

(** The policies read PARF and ask whether the receiver is live. *)
Definition policy_io (q : ioreq) : MP Z :=
  match q with
  | QLive _ => unit0 x1_pcie_receiver_live
  | QRead _ off => rd WParf off 4
  | QWrite _ off v => unit0 (wr WParf off 4 v)
  | QDelay _ => no_callback
  end.
Definition x1_pcie_receiver_global : MP unit := let! d := io x_policy_global policy_io in ok_or_fail d.1.
Definition x1_pcie_receiver_target : MP unit := let! d := io x_policy_target policy_io in ok_or_fail d.1.
(** Request 0 is [check_live], 1 [retain], 2 [global_route], other ones
    [target_check]; the receiver has the root and PARF windows. *)
Definition imsi_io (q : ioreq) : MP Z :=
  match q with
  | QLive phase => unit0 (if phase =? 0 then x1_pcie_receiver_live else
      if phase =? 1 then x1_pcie_receiver_retain else
      if phase =? 2 then x1_pcie_receiver_global else x1_pcie_receiver_target)
  | QRead region off => rd (if region =? 0 then WRoot else WParf) off 4
  | QWrite region off v => unit0 (wr (if region =? 0 then WRoot else WParf) off 4 v)
  | QDelay ms => unit0 (pcall0 (Msleep ms))
  end.
(** [x1_imsi_cached(ctx->receiver, &state->receiver)] *)
Definition cached : MP unit :=
  let! s := get in sset (λ q, q <| pr_receiver := x_imsi_cached (pr_receiver q) (y_w s) |>).
Definition x1_pcie_receiver_prepare : MP unit :=
  let! c := cget in
  if cx_bridge c || cx_receiver c then fail (-EALREADY) else
  do! strict (x1_pcie_window_survived true) in
  let! b := pcall1 BridgeAlloc in
  if b =? 0 then fail (-ENOMEM) else
  do! cset (λ c, c <| cx_bridge := true |>) in
  do! sset (λ q, q <| pr_bridge_allocated := true |>) in
  let! d := io x_imsi_prepare imsi_io in
  do! cset (λ c, c <| cx_receiver := d.2 |>) in
  do! cached in
  strict (do! ok_or_fail d.1 in x1_pcie_receiver_live).

(** ** Memory window *)

Definition x1_pcie_mem_check : MP unit :=
  let! c := cget in
  let! none := no_bus in
  if negb (cx_batch_active c) || negb none || cx_config_open c then fail (-EPERM)
  else x1_pcie_host_local.
Definition x1_pcie_mem_read (off : Z) : MP Z :=
  if negb (x_mem_offset off) then fail (-EINVAL) else rd WRoot off 4.
Definition x1_pcie_mem_write (off v : Z) : MP unit :=
  if negb (x_mem_offset off) then fail (-EINVAL) else wr WRoot off 4 v.
Definition x1_pcie_mem_delay (ms : Z) : MP unit :=
  do! x1_pcie_mem_check in
  if ms !=? 10 then fail (-EINVAL) else
  do! pcall0 (Msleep ms) in x1_pcie_mem_check.
Definition mem_io (q : ioreq) : MP Z :=
  match q with
  | QLive _ => unit0 x1_pcie_mem_check
  | QRead _ off => x1_pcie_mem_read off
  | QWrite _ off v => unit0 (x1_pcie_mem_write off v)
  | QDelay ms => unit0 (x1_pcie_mem_delay ms)
  end.

(** ** Publication of the bus *)

Definition no_driver (d : dev_view) : bool := negb (bool_decide (is_Some (dv_driver d))).
Definition root_shape (b : bus_view) (root : dev_view) (sub : sub_view) : bool :=
  (dv_devfn root =? 0) && (dv_vendor root =? 0x17cb) && (dv_device root =? 0x0111) &&
  (dv_hdr_type root =? 1) && (dv_class root =? 0x060400) && dv_no_msi root &&
  negb (dv_multifunction root) && dv_pcie root && (dv_pcie_type root =? 4) && no_driver root &&
  (sv_number sub =? 1) && sv_parent sub && (bv_children b =? 1)%nat && (sv_children sub =? 0)%nat.
Definition endpoint_shape (b : bus_view) (inv : inventory) (ep : dev_view) : bool :=
  (dv_devfn ep =? 0) && negb (dv_bridge ep) && (dv_vendor ep =? iv_identity inv .& 0xffff) &&
  (dv_device ep =? iv_identity inv >> 16) && (dv_class ep =? iv_class_revision inv >> 8) &&
  (dv_revision ep =? iv_class_revision inv .& 0xff) && (dv_hdr_type ep =? 0) &&
  negb (dv_multifunction ep) && no_driver ep && dv_pcie ep && (dv_msix_cap ep =? iv_msix_offset inv) &&
  (dv_msi_cap ep =? iv_msi_offset inv) && negb (dv_no_msi ep) && (bv_msi_domain b !=? 0) &&
  (dv_msi_domain ep =? bv_msi_domain b).
(** The root port and the endpoint of a bus with exactly these two. *)
Definition two_devices (b : option bus_view) (inv : inventory) : option (Z * Z) :=
  match b with
  | Some b =>
      match bv_devices b, bv_sub b with
      | [root], Some sub =>
          match sv_devices sub with
          | [ep] => if (bv_number b =? 0) && (bv_domain b =? 0) && negb (bv_parent b) &&
              root_shape b root sub && endpoint_shape b inv ep then Some (dv_id root, dv_id ep) else None
          | _ => None
          end
      | _, _ => None
      end
  | None => None
  end.
(** The first identification takes a reference on both; later ones must find
    the same two. *)
Definition x1_pcie_scan_identity : MP unit :=
  let! c := cget in
  let! b := bridge_bus in
  match cx_inventory c with
  | None => fault
  | Some inv =>
      match two_devices b inv with
      | None => fail (-ENODEV)
      | Some (root, ep) =>
          if bool_decide (is_Some (cx_root_port c)) || bool_decide (is_Some (cx_endpoint c)) then
            if bool_decide (cx_root_port c = Some root) && bool_decide (cx_endpoint c = Some ep)
            then ret tt else fail (-ENODEV)
          else
            do! plog (PciGet root) 0 in
            do! plog (PciGet ep) 0 in
            cset (λ c, c <| cx_root_port := Some root |> <| cx_endpoint := Some ep |>)
      end
  end.

Definition in_aperture (r : res_view) : bool :=
  rs_parent r && (0x40000000 <=? rs_start r) && (rs_end r <=? 0x4fffffff) && (rs_start r <=? rs_end r).
Definition check_bar (x : win) (d : dev_view) (bar : nat) : MP unit :=
  let r := dv_resource d bar in
  let reg := 0x10 + Z.of_nat bar * 4 in
  if negb (rs_flags r) then ret tt else
  if negb (rs_mem r) || rs_bad r || negb (in_aperture r) then fail (-ERANGE) else
  let! low := rd x reg 4 in
  if (low =? U32_MAX) || tst low 1 then fail (-EIO) else
  let! address :=
    if low .& 6 =? 4 then
      if (bar =? 5)%nat then fail (-EINVAL) else
      let! high := rd x (reg + 4) 4 in ret ((low .& not32 0xf) .| (high << 32))
    else ret (low .& not32 0xf) in
  if address =? rs_start r then ret tt else fail (-EIO).
Definition check_bars (x : win) (d : dev_view) : MP unit :=
  do! for_each (seq 0 6) (check_bar x d) in
  if dv_rom d then fail (-EOPNOTSUPP) else ret tt.
Definition bar_fits (r : res_view) (off bytes : Z) : bool := rs_mem r && (u64 (off + bytes) <=? resource_size r).
Definition dev (d : Z) : MP dev_view := let! s := get in ret (x_dev d (y_w s)).
Definition x1_pcie_assigned_bars : MP unit :=
  let! c := cget in
  match cx_inventory c, cx_root_port c, cx_endpoint c with
  | Some inv, Some root, Some ep =>
      let! root := dev root in
      let! ep := dev ep in
      do! check_bars WRoot root in
      do! check_bars WConfig ep in
      if negb (rs_mem (dv_resource ep 0)) || (resource_size (dv_resource ep 0) <? 0x2000) then fail (-ENODEV) else
      let! t := rd WConfig (iv_msix_offset inv + 4) 4 in
      if t !=? iv_msix_table inv then fail (-ENODEV) else
      let! t := rd WConfig (iv_msix_offset inv + 8) 4 in
      if t !=? iv_msix_pba inv then fail (-ENODEV) else
      if negb (bar_fits (dv_resource ep (iv_table_bir inv)) (iv_table_offset inv) (iv_table_bytes inv)) ||
         negb (bar_fits (dv_resource ep (iv_pba_bir inv)) (iv_pba_offset inv) (iv_pba_bytes inv)) ||
         negb (rs_mem (dv_window root)) || negb (in_aperture (dv_window root)) then fail (-ERANGE)
      else ret tt
  | _, _, _ => fault
  end.

(** [READ_ONCE(s->cfg_error) ?: ...] *)
Definition no_cfg_error : MP unit := let! q := sget in ok_or_fail (pr_cfg_error q).
Definition PCI_CAP_ID_PM : Z := 1.
Definition last_pm (l : list (Z * Z)) (pm : Z) : Z :=
  foldl (λ pm c, if c.1 =? PCI_CAP_ID_PM then c.2 else pm) pm l.
Definition the_devices : MP (Z * Z) :=
  let! c := cget in
  match cx_root_port c, cx_endpoint c with Some r, Some e => ret (r, e) | _, _ => fault end.
Definition HELD : string := "x1-private-held".

Definition scan_locked : MP unit :=
  let! r := pcall1 ScanBus in
  let! none := no_bus in
  do! sset (λ q, q <| pr_host_published := negb none |>) in
  do! ok_or_fail r in
  do! no_cfg_error in
  do! x1_pcie_scan_identity in
  let! d := the_devices in
  do! pcalle (Override d.1 HELD) in
  do! pcalle (Override d.2 HELD) in
  do! pcall0 SizeBridges in
  do! pcall0 AssignResources in
  do! no_cfg_error in
  do! x1_pcie_assigned_bars in
  do! x1_pcie_batch_live in
  do! cset (λ c, c <| cx_scan_writes := false |>) in
  do! pcall0 (PmForbid d.1) in
  do! pcall0 (PmForbid d.2) in
  do! pcall0 AddDevices in
  do! no_cfg_error in
  do! x1_pcie_scan_identity in
  do! x1_pcie_assigned_bars in
  do! x1_pcie_batch_live in
  sset (λ q, q <| pr_host_prepared := true |>).
Definition scan_mem : MP unit :=
  do! x1_pcie_receiver_live in
  let! d := io x_mem mem_io in
  do! ok_or_fail d.1 in
  x1_pcie_receiver_live.
Definition x1_pcie_host_scan : MP unit :=
  let! q := sget in
  if pr_host_attempted q then fail (-EALREADY) else
  do! sset (λ q, q <| pr_host_attempted := true |>) in
  let! e := attempt
    (do! scan_mem in
     do! cset (λ c, c <| cx_endpoint_pm :=
            match cx_inventory c with
            | Some inv => last_pm (iv_standard inv) (cx_endpoint_pm c)
            | None => cx_endpoint_pm c
            end |>) in
     do! cset (λ c, c <| cx_config_open := true |> <| cx_scan_writes := true |>) in
     do! pmark OpenConfig in
     scan_locked) in
  do! cset (λ c, c <| cx_scan_writes := false |>) in
  do! sset (λ q, q <| pr_host_error := e |>) in
  ok_or_fail e.

(** [qcom_usb4_x1_batch_inventory]; [x1_pcie_inventory_read] is asked for the
    identity when the caller names none. *)
Definition wanted (general : bool) (vendor device : Z) : MP (Z * Z) :=
  if general && (vendor =? 0) && (device =? 0) then
    let! id := x1_pcie_inventory_read 0 in ret (id .& 0xffff, id >> 16)
  else ret (vendor, device).
Definition batch_steps (vendor device : Z) : MP unit :=
  do! x1_pcie_window_survived false in
  let! t := io x_train train_io in
  do! cset (λ c, c <| cx_trained := t.2 |>) in
  do! ok_or_fail t.1 in
  do! x1_pcie_window_survived true in
  let! q := sget in
  let! id := wanted (pr_general q) vendor device in
  let! d := io (x_inventory id.1 id.2) inventory_io in
  do! cset (λ c, c <| cx_inventory := Some d.2 |>) in
  do! ok_or_fail d.1 in
  do! x1_pcie_window_survived true in
  do! x1_pcie_receiver_prepare in
  if pr_nvme_requested q then x1_pcie_host_scan else ret tt.
Definition ours (owner st : Z) (s : psys W) : bool :=
  match y_ctx s with Some c => (cx_owner c =? owner) && (cx_state c =? st) | None => false end.
Definition qcom_usb4_x1_batch_inventory (owner st vendor device : Z) : MP unit :=
  if st =? 0 then fail (-EINVAL) else
  let! s := get in
  if negb (ours owner st s) then fail (-EPERM) else
  let! c := cget in
  let! q := sget in
  if negb (pr_inventory_requested q) || negb (pr_prepared q) || (pr_error q !=? 0) ||
     negb (pr_cfg0_complete q) || cx_window c || negb (bool_decide (WConfig ∈ cx_maps c))
  then fail (-EPERM) else
  if pr_inventory_attempted q then fail (-EALREADY) else
  do! sset (λ q, q <| pr_inventory_attempted := true |>) in
  do! cset (λ c, c <| cx_batch_active := true |> <| cx_inventory := Some inventory_zero |>) in
  let! e := attempt (batch_steps vendor device) in
  do! cset (λ c, c <| cx_batch_active := false |>) in
  do! sset (λ q, q <| pr_error := e |>) in
  ok_or_fail e.

(** ** Binding and removal of the endpoint *)

(** A function of the caller [owner] with its state; the first check of all. *)
Definition with_ctx (owner st : Z) (m : pctx → pcie_rec → MP unit) : MP unit :=
  if (owner =? 0) || (st =? 0) then fail (-EINVAL) else
  let! s := get in
  if negb (ours owner st s) then fail (-EPERM) else
  let! c := cget in
  let! q := sget in
  m c q.

Definition has_devices (c : pctx) : bool :=
  bool_decide (is_Some (cx_endpoint c)) && bool_decide (is_Some (cx_root_port c)).
Definition no_errors (q : pcie_rec) : bool :=
  (pr_error q =? 0) && (pr_host_error q =? 0) && (pr_cfg_error q =? 0).

(** The attached driver must be the standard one. *)
Definition attached (ep r : Z) : MP unit :=
  let! d := dev ep in
  if (r !=? 1) || negb (bool_decide (dv_driver d = Some "nvme"%string)) then
    fail (if r <? 0 then r else -ENODEV)
  else no_cfg_error.
Definition bind_steps (q : pcie_rec) : MP unit :=
  do! x1_pcie_host_local in
  do! x1_pcie_scan_identity in
  do! x1_pcie_assigned_bars in
  let! d := the_devices in
  do! (if pr_general q then ret tt else
         do! pcalle OpenSession in cset (λ c, c <| cx_session := true |>)) in
  do! pcalle (Override d.2 "nvme") in
  do! cset (λ c, c <| cx_bind_writes := true |>) in
  do! pmark BindWrites in
  let! r := pcall1 (Attach d.2) in
  do! attached d.2 r in
  sset (λ q, q <| pr_nvme_bound := true |>).
Definition qcom_usb4_x1_nvme_bind (owner st : Z) : MP unit := with_ctx owner st (λ c q,
  if negb (pr_nvme_requested q) || negb (pr_host_prepared q) || negb (pr_host_published q) ||
     (pr_error q !=? 0) || cx_batch_active c || negb (has_devices c) then fail (-EPERM) else
  if pr_nvme_bind_attempted q then fail (-EALREADY) else
  do! sset (λ q, q <| pr_nvme_bind_attempted := true |>) in
  let! e := attempt (bind_steps q) in
  do! sset (λ q, q <| pr_host_error := e |> <| pr_error := if e =? 0 then pr_error q else e |>) in
  ok_or_fail e).

Definition still_there (d : dev_view) : bool :=
  bool_decide (is_Some (dv_driver d)) || dv_drvdata d || dv_msi_data d || dv_registered d.
Definition remove_endpoint (ep : Z) : MP unit :=
  do! pcall0 (RemoveEndpoint ep) in
  let! d := dev ep in
  if still_there d then fail (-EIO) else ret tt.
(** Under the raw lock: bus mastering and MSI-X are off. *)
Definition endpoint_quiet : MP unit :=
  do! x1_pcie_host_local in
  let! c := cget in
  match cx_inventory c with
  | None => fault
  | Some inv =>
      let! command := rd WConfig PCI_COMMAND 2 in
      let! msix := if iv_msix_offset inv =? 0 then ret 0 else rd WConfig (iv_msix_offset inv + 2) 2 in
      if tst command 4 || tst msix 0x8000 then fail (-EIO) else ret tt
  end.
Definition drive_usable (c : pctx) (q : pcie_rec) : bool :=
  pr_nvme_requested q && pr_host_prepared q && pr_host_published q && pr_nvme_bound q &&
  pr_nvme_bind_attempted q && no_errors q && negb (cx_batch_active c) && has_devices c &&
  cx_receiver_retained c && rc_ready (pr_receiver q).
Definition removing (m : MP unit) : MP unit :=
  let! e := attempt m in
  do! sset (λ q, q <| pr_endpoint_remove_error := e |> <| pr_endpoint_removed := e =? 0 |>
                   <| pr_error := if e =? 0 then pr_error q else e |>) in
  ok_or_fail e.
Definition qcom_usb4_x1_general_remove (owner st : Z) : MP unit := with_ctx owner st (λ c q,
  if negb (pr_general q) || negb (drive_usable c q) || pr_config_fenced q then fail (-EPERM) else
  if pr_endpoint_remove_attempted q then fail (-EALREADY) else
  do! sset (λ q, q <| pr_endpoint_remove_attempted := true |>) in
  let! d := the_devices in
  removing (do! remove_endpoint d.2 in endpoint_quiet)).
Definition qcom_usb4_x1_pulled_remove (owner st : Z) : MP unit := with_ctx owner st (λ c q,
  let! ep := match cx_endpoint c with Some e => let! d := dev e in ret (dv_disconnected d) | None => ret false end in
  if negb (pr_general q) || negb (pr_pulled q) || negb (cx_pulled c) || negb (drive_usable c q) ||
     pr_config_fenced q || negb ep then fail (-EPERM) else
  if pr_endpoint_remove_attempted q then fail (-EALREADY) else
  do! sset (λ q, q <| pr_endpoint_remove_attempted := true |>) in
  let! d := the_devices in
  removing (remove_endpoint d.2)).

(** ** Fence and retirement *)

(** [ret ?: call->action(call->context)]; the fence closes whatever [ret]. *)
Definition fence_result (c : pctx) (q : pcie_rec) : Z :=
  elvis (elvis (elvis (pr_cfg_error q) (pr_host_error q)) (pr_error q))
    (if cx_config_open c then 0 else -EPERM).
Definition x1_pcie_fence_action : MP unit :=
  let! c := cget in
  let! q := sget in
  if pr_config_fenced q then fail (-EALREADY) else
  do! cset (λ c, c <| cx_config_open := false |> <| cx_scan_writes := false |> <| cx_bind_writes := false |>) in
  do! sset (λ q, q <| pr_config_fenced := true |>) in
  do! pmark Fenced in
  do! ok_or_fail (fence_result c q) in
  let! r := pcall1 ImsiStop in
  do! cached in
  do! ok_or_fail r in
  pcalle TunnelAction.
Definition with_callback (f : W → cbprog) (cb : MP unit) : MP unit :=
  let! s := get in run_cb cb (f (y_w s)).
Definition qcom_usb4_x1_fence_and_quiesce (owner st : Z) : MP unit := with_ctx owner st (λ c q,
  if negb (drive_usable c q) || negb (eqb (pr_general q) (pr_endpoint_removed q)) then fail (-EPERM) else
  if pr_general q then x1_pcie_fence_action else with_callback x_retire_irqs x1_pcie_fence_action).

Definition check_stopped : MP unit := pcalle CheckStopped.
Definition imsi_stopped (r : receiver) : bool :=
  rc_stop_finished r && (rc_stop_error r =? 0) && (rc_banks_disabled r =? 8) && (rc_parents_detached r =? 8).
Definition config_closed (c : pctx) (q : pcie_rec) : bool :=
  pr_config_fenced q && negb (cx_config_open c) && negb (cx_scan_writes c) && negb (cx_bind_writes c).
Definition qcom_usb4_x1_retire_namespaces (owner st : Z) : MP unit := with_ctx owner st (λ c q,
  if negb (drive_usable c q) || negb (imsi_stopped (pr_receiver q)) || negb (config_closed c q) then fail (-EPERM) else
  if pr_namespace_retire_attempted q then fail (-EALREADY) else
  do! sset (λ q, q <| pr_namespace_retire_attempted := true |>) in
  recording
    (if pr_general q then (if pr_endpoint_removed q then check_stopped else fail (-EPERM))
     else with_callback x_retire_namespaces check_stopped)
    (λ e s, s <| y_states := upd_rec st
       (λ q, q <| pr_namespace_retire_error := e |> <| pr_namespace_retired := e =? 0 |>) (y_states s) |>)).

(** Software identity only. *)
Definition bare_root (b : bus_view) (root : Z) (d : dev_view) : bool :=
  bv_ours b && negb (bv_parent b) && (bv_domain b =? 0) && (bv_number b =? 0) && dv_on_bus d &&
  (dv_devfn d =? 0) && (dv_vendor d =? 0x17cb) && (dv_device d =? 0x0111) && no_driver d &&
  match bv_devices b with [r] => dv_id r =? root | _ => false end.
Definition sub_of (b : bus_view) : bool := match bv_sub b with Some v => sv_parent v | None => false end.
Definition sub_devices (b : bus_view) : list dev_view := from_option sv_devices [] (bv_sub b).
Definition old_endpoint (b : bus_view) (ep : Z) (e : dev_view) : bool :=
  dv_on_bus e && bool_decide (sv_number <$> bv_sub b = Some 1) && (dv_devfn e =? 0) && (dv_vendor e =? 0x1c19) &&
  (dv_device e =? 0x102b) && negb (dv_bridge e) && match sub_devices b with [d] => dv_id d =? ep | _ => false end.
Definition x1_pcie_retire_shape : MP bool :=
  let! c := cget in
  let! q := sget in
  let! b := bridge_bus in
  match b, cx_root_port c, cx_endpoint c with
  | Some b, Some root, Some ep =>
      let! r := dev root in
      let! e := dev ep in
      if pr_general q then
        ret (bare_root b root r && sub_of b && bool_decide (length (sub_devices b) = O) &&
             pr_endpoint_removed q && no_driver e && negb (dv_registered e))
      else ret (bare_root b root r && sub_of b && old_endpoint b ep e)
  | _, _, _ => ret false
  end.

Definition x1_pcie_receiver_release_proof : MP unit :=
  let! c := cget in
  let! q := sget in
  let! none := no_bus in
  if negb (cx_receiver_retained c) || negb (config_closed c q) || negb (pr_pci_retire_attempted q) ||
     negb (pr_nvme_resources_retired q) || negb (pr_pci_retired q) || (pr_pci_retire_error q !=? 0) ||
     bool_decide (is_Some (cx_endpoint c)) || bool_decide (is_Some (cx_root_port c)) || negb (cx_bridge c) ||
     negb none || pr_nvme_bound q || pr_host_published q || pr_host_prepared q then fail (-EPERM)
  else check_stopped.

Definition bus_removed (root ep : Z) : MP unit :=
  do! pcall0 StopBus in
  let! e := dev ep in
  let! r := dev root in
  if bool_decide (is_Some (dv_driver e)) || dv_drvdata e || dv_msi_data e || negb (no_driver r) then fail (-EIO) else
  do! pcall0 RemoveBus in
  let! none := no_bus in
  let! e := dev ep in
  let! r := dev root in
  let! s := get in
  if negb none || dv_registered e || dv_registered r || x_bridge_registered (y_w s) then fail (-EIO) else ret tt.
Definition retire_pci_steps (general : bool) (root ep : Z) : MP unit :=
  do! (if general then ret tt else with_callback x_retire_resources check_stopped) in
  do! sset (λ q, q <| pr_nvme_resources_retired := true |>) in
  do! bus_removed root ep in
  do! (if general then ret tt else pcalle CloseSession) in
  do! cset (λ c, c <| cx_session := false |>) in
  do! pcall0 (PciPut ep) in
  do! pcall0 (PciPut root) in
  do! cset (λ c, c <| cx_endpoint := None |> <| cx_root_port := None |>) in
  do! sset (λ q, q <| pr_nvme_bound := false |> <| pr_host_published := false |>
                   <| pr_host_prepared := false |> <| pr_pci_retired := true |>) in
  let! e := attempt (with_callback x_imsi_release x1_pcie_receiver_release_proof) in
  do! cached in
  ok_or_fail e.
Definition qcom_usb4_x1_retire_pci (owner st : Z) : MP unit := with_ctx owner st (λ c q,
  if negb (cx_bridge c) || negb (has_devices c) || negb (cx_receiver_retained c) || cx_batch_active c ||
     negb (pr_nvme_bound q) || negb (pr_host_prepared q) || negb (pr_host_published q) || negb (no_errors q) ||
     negb (pr_namespace_retire_attempted q) || negb (pr_namespace_retired q) ||
     (pr_namespace_retire_error q !=? 0) || negb (config_closed c q) || negb (imsi_stopped (pr_receiver q))
  then fail (-EPERM) else
  if pr_pci_retire_attempted q then fail (-EALREADY) else
  let! fine := x1_pcie_retire_shape in
  if negb fine then fail (-EPERM) else
  do! check_stopped in
  let! d := the_devices in
  do! sset (λ q, q <| pr_pci_retire_attempted := true |>) in
  recording (retire_pci_steps (pr_general q) d.1 d.2)
    (λ e s, s <| y_states := upd_rec st (λ q, q <| pr_pci_retire_error := e |>) (y_states s) |>)).

(** *** Providers and context *)

Definition disable_clock (i : nat) : MP unit :=
  do! pcall0 (ClkDisable i) in
  do! cset (λ c, c <| cx_clocks := pred (cx_clocks c) |>) in
  sset (λ q, q <| pr_platform_clocks_released := u32 (pr_platform_clocks_released q + 1) |>).
(** Reset, bandwidth, clocks and runtime power, in this order. *)
Definition release_providers : MP unit :=
  do! pcalle ResetAssert in
  do! sset (λ q, q <| pr_platform_reset := true |>) in
  do! modify (λ s, s <| y_reset_held := true |>) in
  do! pcalle (IccSet false 0) in
  do! pcalle (IccSet true 0) in
  do! sset (λ q, q <| pr_platform_icc_released := true |>) in
  do! for_each (rev (seq 0 CLOCKS)) disable_clock in
  do! pcall0 (RtAllow false) in
  let! r := pcall1 RtPut in
  do! cset (λ c, c <| cx_runtime_held := false |>) in
  if r <? 0 then fail r else
  do! pcall0 RtDisable in
  cset (λ c, c <| cx_runtime_enabled := false |>).
(** [x1_pcie = NULL] and what follows; [c] is the context that is freed. *)
Definition free_context (c : pctx) (st : Z) (pinned : bool) : MP unit :=
  do! modify (λ s, s <| y_ctx := None |>) in
  do! pmark CtxUnpublish in
  do! pcall0 DriverUnregister in
  do! (if cx_reset_early c then pcall0 ResetPut else ret tt) in
  do! st_set st (λ q, q <| pr_platform_retired := true |>) in
  do! pcall0 PdevPut in
  do! pcall0 OwnerPut in
  do! (if pinned then pcall0 ModulePut else ret tt) in
  pcall0 CtxFree.
Definition retire_steps : MP unit :=
  do! release_providers in
  do! pcall0 (RtAllow true) in
  do! sset (λ q, q <| pr_platform_runtime_released := true |>) in
  do! with_callback x_imsi_retire check_stopped in
  pmark ImsiRetired.
Definition idle_steps : MP unit :=
  do! release_providers in
  sset (λ q, q <| pr_platform_runtime_released := true |>).
(** Common end of both retirements. *)
Definition retire_with (st : Z) (steps : MP unit) (pinned : bool) : MP unit :=
  do! check_stopped in
  do! sset (λ q, q <| pr_platform_retire_attempted := true |>) in
  let! e := attempt steps in
  if e !=? 0 then do! sset (λ q, q <| pr_platform_retire_error := e |>) in fail e else
  let! c := cget in free_context c st pinned.
Definition platform_held (c : pctx) : bool :=
  cx_driver_registered c && cx_runtime_enabled c && cx_runtime_held c && (cx_clocks c =? CLOCKS)%nat.
Definition qcom_usb4_x1_retire_platform (owner st : Z) : MP unit := with_ctx owner st (λ c q,
  let! none := no_bus in
  let! s := get in
  if negb (pr_pci_retired q) || (pr_pci_retire_error q !=? 0) || negb (rc_released (pr_receiver q)) ||
     (rc_release_error (pr_receiver q) !=? 0) || negb (config_closed c q) || cx_batch_active c || cx_window c ||
     bool_decide (is_Some (cx_endpoint c)) || bool_decide (is_Some (cx_root_port c)) || cx_session c ||
     negb (cx_bridge c) || negb none || x_bridge_registered (y_w s) || negb (cx_receiver_retained c) ||
     negb (platform_held c) then fail (-EPERM) else
  if pr_platform_retire_attempted q then fail (-EALREADY) else
  retire_with st retire_steps true).
Definition qcom_usb4_x1_idle_retire_platform (owner st : Z) : MP unit := with_ctx owner st (λ c q,
  if negb (pr_general q) || negb (pr_prepared q) || (pr_error q !=? 0) || pr_inventory_attempted q ||
     pr_host_attempted q || pr_bridge_allocated q || pr_nvme_bind_attempted q || cx_bridge c || cx_receiver c ||
     cx_receiver_retained c || cx_config_open c || cx_scan_writes c || cx_bind_writes c || cx_batch_active c ||
     cx_window c || bool_decide (is_Some (cx_endpoint c)) || bool_decide (is_Some (cx_root_port c)) ||
     cx_session c || negb (platform_held c) then fail (-EPERM) else
  if pr_platform_retire_attempted q then fail (-EALREADY) else
  retire_with st idle_steps false).

(** ** Histories *)

Inductive pop :=
| PcPrepare (owner st : Z) | PcBatchPrepare (owner st : Z) | PcInventory (owner st vendor device : Z)
| PcBind (owner st : Z) | PcRemove (owner st : Z) | PcMark (owner st : Z) | PcPulledRemove (owner st : Z)
| PcFence (owner st : Z) | PcNamespaces (owner st : Z) | PcRetire (owner st : Z)
| PcPlatform (owner st : Z) | PcIdlePlatform (owner st : Z) | PcReleaseReset (owner : Z) | PcArrivals.
Definition run_pop (o : pop) : MP unit :=
  match o with
  | PcPrepare owner st => qcom_usb4_x1_pcie_prepare owner st
  | PcBatchPrepare owner st => qcom_usb4_x1_batch_prepare owner st
  | PcInventory owner st vendor device => qcom_usb4_x1_batch_inventory owner st vendor device
  | PcBind owner st => qcom_usb4_x1_nvme_bind owner st
  | PcRemove owner st => qcom_usb4_x1_general_remove owner st
  | PcMark owner st => mark_pulled owner st
  | PcPulledRemove owner st => qcom_usb4_x1_pulled_remove owner st
  | PcFence owner st => qcom_usb4_x1_fence_and_quiesce owner st
  | PcNamespaces owner st => qcom_usb4_x1_retire_namespaces owner st
  | PcRetire owner st => qcom_usb4_x1_retire_pci owner st
  | PcPlatform owner st => qcom_usb4_x1_retire_platform owner st
  | PcIdlePlatform owner st => qcom_usb4_x1_idle_retire_platform owner st
  | PcReleaseReset owner => release_retired_reset owner
  | PcArrivals => arrivals
  end.
(** What the frontend keeps to: no batch once the platform of a session is
    being retired. *)
Definition caller_ok (o : pop) (s : psys W) : bool :=
  match o with
  | PcInventory _ st _ _ => negb (pr_platform_retire_attempted (y_states s st))
  | _ => true
  end.
Fixpoint run_pops (l : list pop) (s : psys W) : res unit * psys W :=
  match l with
  | [] => (Ok tt, s)
  | o :: l =>
      if negb (caller_ok o s) then run_pops l s else
      match run_pop o s with (Fault, s) => (Fault, s) | (_, s) => run_pops l s end
  end.
(** Nothing prepared; each session has its request. *)
Definition pcie_boot (request : Z → bool * bool * bool) (w : W) : psys W :=
  Psys (λ n, let '(g, v, r) := request n in pcie_rec_zero g v r) None false [] w.
End pcie.
