(* ===== verification/HostPcieLogic.v ===== *)
(** * The PCIe side: ledger, protocol and proof rules

    What the calls so far have acquired is a ledger, a function of the record
    of calls; a call is permitted by the ledger before it.  A computation is
    followed through a ghost state: the context, the session's record and the
    ledger up to the fields others may change at any time. *)

From S2P Require Import Prelude Wp HostData HostPcie.

(** ** Ledger *)

(** [l_maps], [l_dreset], [l_clks] and [l_paths] go with the bound driver;
    [l_bus]: 0 no bus, 1 scanned, 2 stopped, 3 removed; [l_seen]: devices were
    identified; [l_ok]: every call was permitted. *)
Record ledger := Ledger {
  l_ctx : bool; l_owner : Z; l_pdev : Z; l_module : Z; l_lease : Z; l_driver : bool;
  l_enabled : bool; l_active : bool; l_forbidden : bool; l_owner_forbidden : bool;
  l_maps : list win; l_dreset : bool; l_clks : nat; l_paths : list bool;
  l_clocks : nat; l_mem : bool; l_cfg : bool; l_asserted : bool;
  l_pci : list Z; l_seen : bool; l_session : Z; l_open : bool; l_bind : bool; l_attached : bool;
  l_removed : bool; l_fenced : bool; l_stopped : bool; l_checked : bool; l_bus : nat;
  l_pulled : bool; l_ok : bool;
}.
#[export] Instance ledger_eta : Eta ledger := λ l,
  Ledger (l_ctx l) (l_owner l) (l_pdev l) (l_module l) (l_lease l) (l_driver l)
    (l_enabled l) (l_active l) (l_forbidden l) (l_owner_forbidden l)
    (l_maps l) (l_dreset l) (l_clks l) (l_paths l)
    (l_clocks l) (l_mem l) (l_cfg l) (l_asserted l)
    (l_pci l) (l_seen l) (l_session l) (l_open l) (l_bind l) (l_attached l)
    (l_removed l) (l_fenced l) (l_stopped l) (l_checked l) (l_bus l) (l_pulled l) (l_ok l).
(** Nothing held, with the reset line as it is. *)
Definition ledger_free (asserted : bool) : ledger :=
  Ledger false 0 0 0 0 false false false false false [] false 0 [] 0 false false asserted
    [] false 0 false false false false false false false 0 false true.

(** Power, eight clocks and both bandwidth votes are on and reset is off. *)
Definition powered (l : ledger) : bool :=
  l_active l && (l_clocks l =? CLOCKS)%nat && l_mem l && l_cfg l && negb (l_asserted l).
Definition holds_reset (l : ledger) : bool := (l_lease l =? 1) || l_dreset l.
Definition held_dev (l : ledger) (d : Z) : bool := bool_decide (d ∈ l_pci l).
Definition released (l : ledger) : bool := negb (l_active l) && (l_clocks l =? 0)%nat.
Definition bus_gone (l : ledger) : bool := (l_bus l =? 0)%nat || (l_bus l =? 3)%nat.

(** Registers are touched only with the providers on, the window mapped and
    the fence open, and not written after a pull; each provider is taken and
    given back in order, and given back only after the caller's check; the
    endpoint is attached once, removed once and before the fence; the tunnel
    is stopped behind the fence; the bus is removed behind the fence; the
    context is freed last. *)
Definition permitted (l : ledger) (c : pcall) : bool :=
  match c with
  | Rd x _ _ => powered l && negb (l_fenced l) && bool_decide (x ∈ l_maps l)
  | Wr x _ _ _ => powered l && negb (l_fenced l) && bool_decide (x ∈ l_maps l) && negb (l_pulled l)
  | CtxAlloc => negb (l_ctx l)
  | OwnerGet => l_ctx l && (l_owner l =? 0)
  | OwnerPut => (l_owner l =? 1) && (l_pdev l =? 0)
  | Admit => l_ctx l && (l_pdev l =? 0)
  | FindPdev => negb (l_ctx l) && (l_pdev l =? 0)
  | PdevPut => (l_pdev l =? 1) && (l_lease l =? 0) && negb (l_driver l)
  | ModuleGet => l_module l =? 0
  | ModulePut => (l_module l =? 1) && negb (l_driver l)
  | ResetGet => (l_pdev l =? 1) && (l_lease l =? 0)
  | ResetPut => (l_lease l =? 1) && negb (l_driver l)
  | ResetAssert | ResetDeassert => holds_reset l
  | Msleep _ => true
  | DriverProbe => (l_pdev l =? 1) && negb (l_driver l)
  | DriverUnregister => l_driver l && released l && negb (l_enabled l) && bus_gone l
  | RtEnable => negb (l_enabled l)
  | RtResume => l_enabled l && negb (l_active l)
  | RtForbid _ => l_active l
  | RtAllow false => l_active l && (l_clocks l =? 0)%nat
  | RtAllow true => negb (l_enabled l)
  | RtPut => l_active l && negb (l_forbidden l) && (l_clocks l =? 0)%nat
  | RtDisable => l_enabled l && negb (l_active l)
  | MapWin _ | ResetDevmGet | IccGet _ => l_active l
  | ClkGet i => l_active l && (l_clks l =? i)%nat
  | ClkEnable i => l_active l && (l_clocks l =? i)%nat && (i <? l_clks l)%nat
  | ClkDisable i => (l_clocks l =? S i)%nat && l_asserted l && l_checked l && negb (l_mem l) && negb (l_cfg l)
  | IccSet m v => bool_decide (m ∈ l_paths l) && (if v =? 0 then l_asserted l && l_checked l else (l_clocks l =? CLOCKS)%nat)
  | PmForbid d => held_dev l d
  | BatchLive | RtActive | CheckStopped => l_ctx l
  | BridgeAlloc => powered l
  | ImsiStop => l_fenced l
  | ImsiRetired => released l && negb (l_enabled l) && l_asserted l
  | ScanBus => l_open l && (l_bus l =? 0)%nat
  | Override d _ => l_open l && held_dev l d
  | SizeBridges | AssignResources | AddDevices => l_open l && (l_bus l =? 1)%nat
  | PciGet _ => l_open l && (length (l_pci l) <? 2)%nat
  | PciPut d => held_dev l d && (l_bus l =? 3)%nat
  | OpenSession => l_open l && (l_session l =? 0) && negb (l_attached l)
  | CloseSession => (l_session l =? 1) && (l_bus l =? 3)%nat
  | Attach d => l_open l && l_bind l && negb (l_attached l) && held_dev l d
  | RemoveEndpoint d => l_attached l && negb (l_removed l) && negb (l_fenced l) && held_dev l d
  | TunnelAction => l_fenced l && l_stopped l
  | StopBus => l_fenced l && l_checked l && (l_bus l =? 1)%nat
  | RemoveBus => (l_bus l =? 2)%nat
  | OpenConfig => powered l && negb (l_open l) && negb (l_fenced l) && (l_bus l =? 0)%nat
  | BindWrites => l_open l && negb (l_bind l)
  | Fenced => l_attached l && negb (l_fenced l)
  | Pulled => l_ctx l && l_seen l
  | CtxUnpublish => released l && negb (l_enabled l) && l_asserted l && bus_gone l &&
      bool_decide (l_pci l = []) && (l_session l =? 0)
  | CtxFree => l_ctx l && (l_owner l =? 0) && (l_pdev l =? 0) && (l_module l =? 0) && (l_lease l =? 0) &&
      negb (l_driver l) && released l && negb (l_enabled l) && bool_decide (l_pci l = []) && (l_session l =? 0)
  end.

(** Give back one of the references to [d]. *)
Fixpoint drop_ref (d : Z) (l : list Z) : list Z :=
  match l with [] => [] | x :: l => if x =? d then l else x :: drop_ref d l end.
(** The mappings and handles of the bound driver are gone. *)
Definition drop_devres (l : ledger) : ledger :=
  l <| l_maps := [WRouter] |> <| l_dreset := false |> <| l_clks := O |> <| l_paths := [] |>.
Definition effect (l : ledger) (e : pevent) : ledger :=
  let '(c, r) := e in
  match c with
  | CtxAlloc => if r =? 0 then l else (ledger_free (l_asserted l)) <| l_ctx := true |> <| l_maps := [WRouter] |>
  | CtxFree => ledger_free (l_asserted l)
  | OwnerGet => l <| l_owner := l_owner l + 1 |>
  | OwnerPut => l <| l_owner := l_owner l - 1 |>
  | Admit => if r =? 0 then l <| l_pdev := l_pdev l + 1 |> else l
  | FindPdev => if r =? 0 then l else l <| l_pdev := l_pdev l + 1 |>
  | PdevPut => l <| l_pdev := l_pdev l - 1 |>
  | ModuleGet => if r =? 0 then l else l <| l_module := l_module l + 1 |>
  | ModulePut => l <| l_module := l_module l - 1 |>
  | ResetGet => if r =? 0 then l <| l_lease := l_lease l + 1 |> else l
  | ResetPut => l <| l_lease := l_lease l - 1 |>
  | ResetAssert => l <| l_asserted := true |>
  | ResetDeassert => if r =? 0 then l <| l_asserted := false |> else l
  | DriverProbe => if r =? 0 then l <| l_driver := true |> else drop_devres l
  | DriverUnregister => (drop_devres l) <| l_driver := false |>
  | RtEnable => l <| l_enabled := true |>
  | RtResume => if r <? 0 then l else l <| l_active := true |>
  | RtForbid true => l <| l_owner_forbidden := true |>
  | RtForbid false => l <| l_forbidden := true |>
  | RtAllow true => l <| l_owner_forbidden := false |>
  | RtAllow false => l <| l_forbidden := false |>
  | RtPut => l <| l_active := false |>
  | RtDisable => l <| l_enabled := false |>
  | MapWin x => if r =? 0 then l <| l_maps := x :: l_maps l |> else l
  | ResetDevmGet => if r =? 0 then l <| l_dreset := true |> else l
  | ClkGet _ => if r =? 0 then l <| l_clks := S (l_clks l) |> else l
  | IccGet m => if r =? 0 then l <| l_paths := m :: l_paths l |> else l
  | ClkEnable _ => if r =? 0 then l <| l_clocks := S (l_clocks l) |> else l
  | ClkDisable _ => l <| l_clocks := pred (l_clocks l) |>
  | IccSet true v => if r =? 0 then l <| l_mem := v !=? 0 |> else l
  | IccSet false v => if r =? 0 then l <| l_cfg := v !=? 0 |> else l
  | ScanBus => l <| l_bus := 1%nat |>
  | StopBus => l <| l_bus := 2%nat |>
  | RemoveBus => l <| l_bus := 3%nat |>
  | PciGet d => l <| l_pci := l_pci l ++ [d] |> <| l_seen := true |>
  | PciPut d => l <| l_pci := drop_ref d (l_pci l) |>
  | OpenSession => if r =? 0 then l <| l_session := l_session l + 1 |> else l
  | CloseSession => if r =? 0 then l <| l_session := l_session l - 1 |> else l
  | Attach _ => l <| l_attached := true |>
  | RemoveEndpoint _ => l <| l_removed := true |>
  | ImsiStop => if r =? 0 then l <| l_stopped := true |> else l
  | CheckStopped => if r =? 0 then l <| l_checked := true |> else l
  | OpenConfig => l <| l_open := true |>
  | BindWrites => l <| l_bind := true |>
  | Fenced => l <| l_open := false |> <| l_bind := false |> <| l_fenced := true |>
  | Pulled => l <| l_pulled := true |>
  | _ => l
  end.
Definition ledger_step (l : ledger) (e : pevent) : ledger :=
  (effect l e) <| l_ok := l_ok l && permitted l e.1 |>.
Definition ledger_at (L : list pevent) : ledger := foldl ledger_step (ledger_free false) L.

Lemma ledger_at_snoc L e : ledger_at (L ++ [e]) = ledger_step (ledger_at L) e.
Proof. apply foldl_snoc. Qed.

(** ** Ghost state *)

(** What a callback, a refused access, a walk over the capabilities, a
    program's output or a printed receipt may change is erased. *)
Definition norm (c : pctx) : pctx :=
  Pctx (cx_owner c) (cx_state c) (cx_pdev c) (cx_maps c) (cx_reset_early c) false false 0 false false
    ((λ _, inventory_zero) <$> cx_inventory c) false false (cx_receiver_retained c)
    (cx_driver_registered c) (cx_runtime_enabled c) (cx_runtime_held c)
    (cx_clocks c) (cx_session c) (cx_root_port c) (cx_endpoint c) 0 0 0 0
    (cx_config_open c) false (cx_bind_writes c) false.
Definition normq (q : pcie_rec) : pcie_rec :=
  PcieRec (pr_attempted q) (pr_prepared q) (pr_error q) 0 false false false false false false
    (pr_inventory_requested q) (pr_inventory_attempted q) false false receiver_zero false false false
    (pr_host_prepared q) (pr_nvme_bind_attempted q) (pr_nvme_bound q) (pr_general q)
    (pr_endpoint_remove_attempted q) false 0 false (pr_config_fenced q) false false 0
    (pr_pci_retire_attempted q) false (pr_pci_retired q) 0 (pr_platform_retire_attempted q)
    false false 0 false false 0 0 0.
Definition norml (l : ledger) : ledger := l <| l_pulled := false |> <| l_ok := true |>.

Record ghost := Ghost { g_c : pctx; g_q : pcie_rec; g_held : bool; g_l : ledger }.
#[export] Instance ghost_eta : Eta ghost := λ k, Ghost (g_c k) (g_q k) (g_held k) (g_l k).

(** Calls that the rules for calls cover; the others touch registers, mark a
    pull, or begin and end the life of a context. *)
Definition neutral (c : pcall) : bool :=
  match c with Rd _ _ _ | Wr _ _ _ _ | Pulled | CtxAlloc | CtxFree => false | _ => true end.

Definition outward (c : pcall) : bool := match c with Rd _ _ _ | Wr _ _ _ _ | Pulled => false | _ => true end.
Lemma neutral_outward c : neutral c = true → outward c = true.
Proof. by destruct c. Qed.

Lemma norml_permitted l l' c : norml l = norml l' → outward c = true → permitted l c = permitted l' c.
Proof. destruct l, l'. intros [=]. subst. by destruct c. Qed.
Lemma norml_effect l l' c r :
  norml l = norml l' → outward c = true → norml (ledger_step l (c, r)) = norml (effect l' (c, r)).
Proof.
  destruct l, l'. intros [=]. subst. unfold norml, ledger_step.
  destruct c; try done; intros _; simpl; repeat case_match; reflexivity.
Qed.
Lemma pulled_effect l c r : neutral c = true → l_pulled (effect l (c, r)) = l_pulled l.
Proof. destruct c; try done; intros _; simpl; by repeat case_match. Qed.
Lemma seen_effect l c r : neutral c = true → l_seen l = true → l_seen (effect l (c, r)) = true.
Proof. destruct c; try done; intros _; simpl; by repeat case_match. Qed.

Lemma norml_access l l' x :
  norml l = norml l' → powered l' = true → l_fenced l' = false → x ∈ l_maps l' →
  powered l && negb (l_fenced l) && bool_decide (x ∈ l_maps l) = true.
Proof.
  intros E Hp Hf Hx. replace (powered l) with (powered l') by (destruct l, l'; by injection E as; subst).
  rewrite (f_equal l_fenced E : l_fenced l = _), (f_equal l_maps E : l_maps l = _). simpl.
  by rewrite Hp, Hf, bool_decide_true.
Qed.

(** ** Predicates that a computation keeps *)

Section stays.
Context {S : Type} (P : S → Prop).
Definition stays {A} (m : M S A) : Prop := ∀ s, P s → wp m (λ _, P) (λ _, P) s.

Lemma stays_ret {A} (a : A) : stays (ret a).
Proof. by intros s Hs. Qed.
Lemma stays_fail {A} e : stays (A := A) (fail e).
Proof. by intros s Hs. Qed.
Lemma stays_get : stays get.
Proof. by intros s Hs. Qed.
Lemma stays_seq {A B} (m : M S A) (k : A → M S B) : stays m → (∀ a, stays (k a)) → stays (bind m k).
Proof.
  intros Hm Hk s Hs. apply wp_bind. eapply wp_mono; [by apply Hm| |done].
  intros a t Ht. by apply Hk.
Qed.
Lemma stays_attempt (m : M S unit) : stays m → stays (attempt m).
Proof. intros Hm s Hs. apply wp_attempt. by apply Hm. Qed.
Lemma stays_ok r : stays (ok_or_fail r).
Proof. intros s Hs. by apply wp_ok_or_fail. Qed.
Lemma stays_for_each {X} (l : list X) (body : X → M S unit) : (∀ x, stays (body x)) → stays (for_each l body).
Proof. intros Hb s Hs. apply wp_for_each; [done|]. intros x t _. apply Hb. Qed.
Lemma stays_on_error {A} (m : M S A) c : stays m → stays c → stays (on_error m c).
Proof.
  intros Hm Hc s Hs. apply wp_on_error. eapply wp_mono; [by apply Hm|done|].
  intros e t Ht. eapply wp_mono; [by apply Hc|done..].
Qed.
Lemma stays_wp {A} (m : M S A) s (Q : A → S → Prop) (E : Z → S → Prop) :
  stays m → P s → (∀ a t, P t → Q a t) → (∀ e t, P t → E e t) → wp m Q E s.
Proof. intros Hm Hs HQ HE. eapply wp_mono; [by apply Hm|done|done]. Qed.
End stays.
Create HintDb stays discriminated.
#[export] Hint Resolve stays_ret stays_fail stays_get stays_attempt stays_ok stays_for_each stays_on_error : stays.

(** ** Following a computation *)

Section follow.
Context {W : Type} `{PcieEnv W}.
Notation MP := (M (psys W)).
Implicit Types s t : psys W.

(** A session that was never prepared is as its caller made it. *)
Definition pristine s : Prop :=
  ∀ n, pr_attempted (y_states s n) = false → ∃ g v r, y_states s n = pcie_rec_zero g v r.

(** With [u], nothing was pulled. *)
Definition at_ (u : bool) (k : ghost) s : Prop :=
  ∃ c, y_ctx s = Some c ∧ norm c = norm (g_c k) ∧
    normq (y_states s (cx_state c)) = normq (g_q k) ∧ y_reset_held s = g_held k ∧
    norml (ledger_at (y_log s)) = norml (g_l k) ∧ l_ok (ledger_at (y_log s)) = true ∧
    l_pulled (ledger_at (y_log s)) = cx_pulled c ∧ (cx_pulled c = true → l_seen (g_l k) = true) ∧
    (u = true → cx_pulled c = false) ∧ pr_attempted (g_q k) = true ∧ pristine s.

Lemma at_weaken u k s : at_ u k s → at_ false k s.
Proof. intros (c & ? & ? & ? & ? & ? & ? & ? & ? & _ & ? & ?). exists c. by repeat split. Qed.
Lemma at_seen u k s : l_seen (g_l k) = false → at_ false k s → at_ u k s.
Proof.
  intros Hl (c & ? & ? & ? & ? & ? & ? & ? & Hs & _ & ? & ?). exists c. repeat split; try done.
  intros _. destruct (cx_pulled c); [|done]. specialize (Hs eq_refl). congruence.
Qed.

(** Every window can be read. *)
Definition avail (k : ghost) : Prop :=
  powered (g_l k) = true ∧ l_fenced (g_l k) = false ∧ (∀ x, x ∈ l_maps (g_l k)) ∧ (∀ x, x ∈ cx_maps (g_c k)).
(** Others may come in. *)
Definition quiet (k : ghost) : Prop :=
  l_ctx (g_l k) = true ∧
  (cx_config_open (g_c k) || cx_bind_writes (g_c k) = true → avail k ∧ is_Some (cx_inventory (g_c k))) ∧
  (is_Some (cx_endpoint (g_c k)) → l_seen (g_l k) = true).

Lemma norm_fields c c' : norm c = norm c' →
  cx_owner c = cx_owner c' ∧ cx_state c = cx_state c' ∧ cx_maps c = cx_maps c' ∧
  cx_root_port c = cx_root_port c' ∧ cx_endpoint c = cx_endpoint c' ∧
  cx_config_open c = cx_config_open c' ∧ cx_bind_writes c = cx_bind_writes c' ∧ (is_Some (cx_inventory c) ↔ is_Some (cx_inventory c')).
Proof.
  intros E. pose proof (f_equal cx_inventory E) as Ei. simpl in Ei.
  repeat split; [exact (f_equal cx_owner E)|exact (f_equal cx_state E)|exact (f_equal cx_maps E)|
    exact (f_equal cx_root_port E)|exact (f_equal cx_endpoint E)|exact (f_equal cx_config_open E)|
    exact (f_equal cx_bind_writes E)|..].
  all: intros [i Ei']; rewrite Ei' in Ei; destruct (cx_inventory _); done.
Qed.

Lemma normq_attempted q q' : normq q = normq q' → pr_attempted q = pr_attempted q'.
Proof. exact (f_equal pr_attempted (x := _) (y := _)). Qed.

(** *** Registers *)

Lemma stays_rd u k x off size : avail k → stays (at_ u k) (rd x off size).
Proof.
  intros (Hp & Hf & Hm & Hc) s (c & Ec & Nc & Nq & Hh & Nl & Hok & Hpl & Hs & Hu & Ha & Hpr).
  unfold rd, wp, bind, cget. rewrite Ec. simpl.
  destruct (norm_fields _ _ Nc) as (_ & Es & Em & _).
  rewrite bool_decide_true by (rewrite Em; apply Hc). unfold pleaf, bind.
  destruct (x_answer _ _) as [r w] eqn:Ea. simpl. exists c. simpl. rewrite ledger_at_snoc.
  unfold ledger_step. simpl. rewrite Hok, (norml_access _ (g_l k)) by auto.
  by repeat split.
Qed.

(** The write is not after a pull. *)
Lemma wp_wr u k x off size v s (Q : unit → psys W → Prop) E :
  avail k → at_ true k s → (∀ t, at_ u k t → Q tt t) → wp (wr x off size v) Q E s.
Proof.
  intros (Hp & Hf & Hm & Hc) (c & Ec & Nc & Nq & Hh & Nl & Hok & Hpl & Hs & Hu & Ha & Hpr) HQ.
  unfold wr, wp, bind, cget. rewrite Ec. simpl. specialize (Hu eq_refl).
  destruct (norm_fields _ _ Nc) as (_ & Es & Em & _).
  rewrite bool_decide_true by (rewrite Em; apply Hc). unfold plog, modify.
  apply HQ. exists c. simpl. rewrite ledger_at_snoc. unfold ledger_step. simpl.
  rewrite Hok, Hpl, Hu, (norml_access _ (g_l k)) by auto. by repeat split.
Qed.
Lemma stays_wr u k x off size v :
  avail k → l_seen (g_l k) = false → stays (at_ u k) (wr x off size v).
Proof. intros Ha Hl s Hs. eapply wp_wr; [done| |done]. apply at_seen; [done|]. by eapply at_weaken. Qed.

(** *** Context and record *)

Lemma wp_cget u k s (Q : pctx → psys W → Prop) E :
  at_ u k s → (∀ c, norm c = norm (g_c k) → at_ u k s → y_ctx s = Some c → Q c s) → wp cget Q E s.
Proof.
  intros Hs HQ. destruct Hs as (c & Ec & Nc & Hr) eqn:Hat. clear Hat.
  unfold wp, cget. rewrite Ec. apply HQ; [done| |done]. by exists c.
Qed.
Lemma stays_cget {A} u k (f : pctx → MP A) :
  (∀ c, norm c = norm (g_c k) → stays (at_ u k) (f c)) → stays (at_ u k) (bind cget f).
Proof. intros Hf s Hs. apply wp_bind. eapply wp_cget; [done|]. intros c Nc Hc _. by apply Hf. Qed.
Lemma stays_sget u k : stays (at_ u k) sget.
Proof. apply stays_cget. intros c _. apply stays_seq; [apply stays_get|]. intros t. apply stays_ret. Qed.

Lemma wp_cset (u : bool) k (f : pctx → pctx) s (Q : unit → psys W → Prop) E :
  (∀ c, norm (f c) = norm (f (norm c))) → (∀ c, cx_pulled (f c) = cx_pulled c) →
  (∀ c, cx_state (f c) = cx_state c) → at_ u k s →
  (∀ t, at_ u (k <| g_c := f (g_c k) |>) t → Q tt t) → wp (cset f) Q E s.
Proof.
  intros Hf Hp Hst (c & Ec & Nc & Nq & Hh & Nl & Hok & Hpl & Hs & Hu & Ha & Hpr) HQ.
  unfold wp, cset. rewrite Ec. apply HQ. exists (f c). simpl. rewrite Hp, Hst.
  repeat split; try done. by rewrite Hf, Nc, <- Hf.
Qed.
Lemma wp_sset (u : bool) k (f : pcie_rec → pcie_rec) s (Q : unit → psys W → Prop) E :
  (∀ q, normq (f q) = normq (f (normq q))) → (∀ q, pr_attempted (f q) = pr_attempted q) → at_ u k s →
  (∀ t, at_ u (k <| g_q := f (g_q k) |>) t → Q tt t) → wp (sset f) Q E s.
Proof.
  intros Hf Hat (c & Ec & Nc & Nq & Hh & Nl & Hok & Hpl & Hs & Hu & Ha & Hpr) HQ.
  unfold wp, sset, bind, cget. rewrite Ec. unfold st_set, modify. apply HQ. exists c. simpl.
  unfold upd_rec. rewrite Z.eqb_refl. repeat split; try done.
  - by rewrite Hf, Nq, <- Hf.
  - by rewrite Hat.
  - intros n. simpl. unfold upd_rec. destruct (Z.eqb_spec n (cx_state c)) as [->|Hn]; [|apply Hpr].
    rewrite Hat, (normq_attempted _ _ Nq), Ha. done.
Qed.
(** A step that changes only what is erased. *)
Lemma stays_cset u k (f : pctx → pctx) :
  (∀ c, norm (f c) = norm c) → (∀ c, cx_pulled (f c) = cx_pulled c) → stays (at_ u k) (cset f).
Proof.
  intros Hf Hp s (c & Ec & Nc & Nq & Hr). unfold wp, cset. rewrite Ec. exists (f c). simpl.
  rewrite Hp, (f_equal cx_state (Hf c) : cx_state (f c) = _), Hf. split; [done|]. split; [done|]. by split.
Qed.
Lemma stays_sset u k (f : pcie_rec → pcie_rec) :
  (∀ q, normq (f q) = normq q) → stays (at_ u k) (sset f).
Proof.
  intros Hf s (c & Ec & Nc & Nq & Hh & Nl & Hok & Hpl & Hs & Hu & Ha & Hpr).
  unfold wp, sset, bind, cget. rewrite Ec. unfold st_set, modify. exists c. simpl.
  unfold upd_rec. rewrite Z.eqb_refl. repeat split; try done; [by rewrite Hf|].
  intros n. simpl. unfold upd_rec. destruct (Z.eqb_spec n (cx_state c)) as [->|Hn]; [|apply Hpr].
  rewrite (normq_attempted _ _ (Hf _)), (normq_attempted _ _ Nq).
  simpl. by rewrite Ha.
Qed.

End follow.

(** The body of a computation over [at_], one constructor at a time. *)
Ltac stay_step :=
  match goal with
  | |- stays _ (bind cget _) => apply stays_cget; intros ? ?
  | |- stays _ (bind sget _) => apply stays_seq; [apply stays_sget|intros ?]
  | |- stays _ (bind _ _) => apply stays_seq; [|intros ?]
  | |- stays _ (if ?b then _ else _) => destruct b eqn:?
  | |- stays _ (match ?x with _ => _ end) => destruct x eqn:?
  | |- stays _ (let '(_, _) := ?x in _) => destruct x eqn:?
  | |- stays _ _ => solve [auto with stays]
  end.
Ltac stay := repeat stay_step; try done.

(** ** Callbacks that come in, and calls *)

Section calls.
Context {W : Type} `{PcieEnv W}.
Notation MP := (M (psys W)).
Implicit Types s t : psys W.

Lemma stays_decode_off u k x : avail k → stays (at_ u k) (decode_off x).
Proof. intros Hk. unfold decode_off. stay. by apply stays_rd. Qed.
Lemma inventory_some k c :
  norm c = norm (g_c k) → is_Some (cx_inventory (g_c k)) → cx_inventory c ≠ None.
Proof.
  intros Nc Hi. destruct (norm_fields _ _ Nc) as (_ & _ & _ & _ & _ & _ & _ & [_ Hi']).
  by destruct (Hi' Hi) as [? ->].
Qed.
Lemma stays_host_local u k :
  avail k → is_Some (cx_inventory (g_c k)) → stays (at_ u k) x1_pcie_host_local.
Proof.
  intros Hk Hi. unfold x1_pcie_host_local. stay.
  all: try by (apply stays_rd || apply stays_decode_off).
  by destruct (inventory_some k c).
Qed.
Lemma stays_write_allowed u k root off size v :
  avail k → is_Some (cx_inventory (g_c k)) → stays (at_ u k) (x1_pcie_config_write_allowed root off size v).
Proof.
  intros Hk Hi. pose proof (λ x off size, stays_rd u k x off size Hk) as Hrd.
  assert (∀ w m, stays (at_ u k) (refuse_word root off size v w m)) as Hw.
  { intros w m. unfold refuse_word, bad_word, x1_pcie_config_word. stay; apply Hrd. }
  unfold x1_pcie_config_write_allowed. apply stays_cget. intros c Nc. apply stays_seq; [apply stays_sget|intros q].
  destruct (cx_inventory c) eqn:Ei; [|by destruct (inventory_some k c)]. cbn zeta. stay.
Qed.
Lemma stays_note u k e : stays (at_ (W := W) u k) (note_cfg_error e).
Proof. apply stays_sset. intros q. by destruct (pr_cfg_error q =? 0). Qed.

Lemma config_base_open s b devfn root :
  x1_pcie_config_base s b devfn = Some root → ∃ c, y_ctx s = Some c ∧ cx_config_open c || cx_bind_writes c = true.
Proof.
  unfold x1_pcie_config_base. destruct (y_ctx s) as [c|]; [|done]. exists c. split; [done|].
  destruct (cx_config_open c); [done|]. by rewrite !orb_true_r in *.
Qed.
(** An open configuration space has everything behind it. *)
Lemma quiet_open k c : quiet k → norm c = norm (g_c k) → cx_config_open c || cx_bind_writes c = true →
  avail k ∧ is_Some (cx_inventory (g_c k)).
Proof.
  intros (_ & Ho & _) Nc Hc. apply Ho.
  by destruct (norm_fields _ _ Nc) as (_ & _ & _ & _ & _ & <- & <- & _).
Qed.
Lemma at_ctx u k s : at_ u k s → ∃ c, y_ctx s = Some c ∧ norm c = norm (g_c k).
Proof. intros (c & ? & ? & _). by exists c. Qed.
Lemma at_unpulled k s c : at_ false k s → y_ctx s = Some c → cx_pulled c = false → at_ true k s.
Proof.
  intros (c' & Ec & ? & ? & ? & ? & ? & ? & ? & _ & ? & ?) Hc Hp. exists c'.
  assert (c' = c) as -> by congruence. by repeat split.
Qed.

Lemma stays_config_read k b devfn off size : quiet k → stays (at_ false k) (x1_pcie_config_read b devfn off size).
Proof.
  intros Hq s Hs. unfold x1_pcie_config_read. destruct (bad_register off size); [by apply wp_ret|].
  apply wp_bind, wp_get. destruct (x1_pcie_config_base s b devfn) as [root|] eqn:Eb; [|by apply wp_ret].
  destruct (config_base_open _ _ _ _ Eb) as (c & Ec & Ho). destruct (at_ctx _ _ _ Hs) as (c' & Ec' & Nc).
  assert (c' = c) as -> by congruence. destruct (quiet_open _ _ Hq Nc Ho) as [Hk Hi].
  revert s Hs Eb Ec Ec'. cut (stays (at_ false k) (let! c := cget in
    if cx_pulled c then ret PCIBIOS_DEVICE_NOT_FOUND else
    let! e := attempt x1_pcie_host_local in
    if e !=? 0 then do! note_cfg_error e in ret PCIBIOS_DEVICE_NOT_FOUND else
    do! rd (rwin root) off size in ret 0)); [intros Hst s Hs _ _ _; by apply Hst|].
  stay; [by apply stays_attempt, stays_host_local|apply stays_note|by apply stays_rd].
Qed.
Lemma stays_config_write k b devfn off size v :
  quiet k → stays (at_ false k) (x1_pcie_config_write b devfn off size v).
Proof.
  intros Hq s Hs. unfold x1_pcie_config_write. destruct (bad_register off size); [by apply wp_ret|].
  apply wp_bind, wp_get. destruct (x1_pcie_config_base s b devfn) as [root|] eqn:Eb; [|by apply wp_ret].
  destruct (config_base_open _ _ _ _ Eb) as (c & Ec & Ho). destruct (at_ctx _ _ _ Hs) as (c' & Ec' & Nc).
  assert (c' = c) as -> by congruence. destruct (quiet_open _ _ Hq Nc Ho) as [Hk Hi].
  apply wp_bind. eapply wp_cget; [done|]. intros c0 _ _ Ec0. assert (c0 = c) as -> by congruence.
  destruct (cx_pulled c) eqn:Ep; [by apply wp_ret|]. pose proof (at_unpulled _ _ _ Hs Ec Ep) as Hs1.
  apply wp_bind. eapply stays_wp; [|exact Hs1| |intros e t Ht; exact (at_weaken _ _ _ Ht)].
  { apply stays_attempt, stays_seq; [by apply stays_host_local|]. intros _. by apply stays_write_allowed. }
  intros e t Ht. simpl. destruct (e !=? 0).
  - apply wp_bind. eapply stays_wp; [apply stays_note|exact (at_weaken _ _ _ Ht)|..]; by intros.
  - apply wp_bind. eapply wp_wr; [done|exact Ht|]. intros t' Ht'. by apply wp_ret.
Qed.
Lemma stays_enable k ours d : quiet k → stays (at_ false k) (x1_pcie_enable_device ours d).
Proof.
  intros Hq s Hs. unfold x1_pcie_enable_device. apply wp_bind, wp_get.
  destruct (at_ctx _ _ _ Hs) as (c & Ec & Nc). rewrite Ec. case_match eqn:Eg; [by apply wp_fail|].
  assert (cx_bind_writes c = true) as Hb by (by destruct (cx_bind_writes c); rewrite ?orb_true_r in Eg).
  destruct (quiet_open k c) as [Hk Hi]; [done|done|by rewrite Hb, orb_true_r|].
  by apply stays_host_local.
Qed.
Lemma stays_mark k owner st : quiet k → stays (at_ (W := W) false k) (mark_pulled owner st).
Proof.
  intros (Hl & _ & He) s Hs. unfold mark_pulled. apply wp_bind, wp_get.
  destruct (y_ctx s) as [c0|] eqn:Ec0; [|by apply wp_ret]. case_match eqn:Eg; [|by apply wp_ret].
  destruct Hs as (c & Ec & Nc & Nq & Hh & Nl & Hok & Hpl & Hs & _ & Ha & Hpr).
  assert (c0 = c) as -> by congruence.
  rewrite !andb_true_iff, bool_decide_eq_true in Eg. destruct Eg as [[[[[_ _] Est] _] Hep] _].
  apply Z.eqb_eq in Est. destruct (norm_fields _ _ Nc) as (_ & _ & _ & _ & Ee & _).
  rewrite Ee in Hep. specialize (He Hep).
  unfold wp, bind, cset. rewrite Ec. unfold st_set, pmark, plog, modify. simpl.
  exists (c <| cx_pulled := true |>). simpl. rewrite ledger_at_snoc. unfold ledger_step. simpl.
  rewrite Hok, (f_equal l_ctx Nl : l_ctx (ledger_at _) = _), (f_equal l_seen Nl : l_seen (ledger_at _) = _). simpl.
  unfold upd_rec. subst st. rewrite Z.eqb_refl, Hl, He.
  repeat split; try done.
  intros n. simpl. unfold upd_rec. destruct (Z.eqb_spec n (cx_state c)) as [->|Hn]; [|apply Hpr].
  simpl. rewrite (normq_attempted _ _ Nq), Ha. done.
Qed.
Lemma stays_arrivals k : quiet k → stays (at_ false k) arrivals.
Proof.
  intros Hq. unfold arrivals. apply stays_seq.
  { intros s (c & Hc). unfold wp. destruct (x_arrivals (y_w s)) as [l w]. by exists c. }
  intros l. apply stays_for_each. intros [b devfn off size|b devfn off size v|ours d|owner st]; simpl; stay.
  - by apply stays_config_read.
  - by apply stays_config_write.
  - by apply stays_attempt, stays_enable.
  - by apply stays_mark.
Qed.

(** Callbacks hand their errors to their callers. *)
Lemma errs_arrivals : errs (λ _, False) arrivals.
Proof.
  apply errs_bind; [by intros s e t; destruct (x_arrivals (y_w s))|]. intros l. apply errs_for_each.
  assert (∀ x off size, errs (λ _, False) (rd x off size)) as Hrd.
  { intros x off size s e t. unfold rd, bind, cget. destruct (y_ctx s); [|done].
    case_match; [|done]. unfold pleaf. by destruct (x_answer _ _). }
  assert (∀ x off size v, errs (λ _, False) (wr (W := W) x off size v)) as Hwr.
  { intros x off size v s e t. unfold wr, bind, cget. destruct (y_ctx s); [|done]. by case_match. }
  assert (errs (λ _, False) (cget (W := W))) as Hc by (intros s e t; unfold cget; by destruct (y_ctx s)).
  assert (∀ e, errs (λ _, False) (note_cfg_error (W := W) e)) as Hn.
  { intros e. apply errs_bind; [done|]. by intros c s e' t. }
  assert (∀ m : MP unit, errs (λ _, False) (attempt m)) as Hat.
  { intros m s e t. unfold attempt. by destruct (m s) as [[]]. }
  assert (∀ (A : Type) (a : A), errs (λ _, False) (ret (S := psys W) a)) as Hr by done.
  intros [b devfn off size|b devfn off size v|ours d|owner st]; simpl.
  - apply errs_bind; [|done]. unfold x1_pcie_config_read. case_match; [done|].
    apply errs_bind; [done|]. intros s. case_match; [|done]. apply errs_bind; [done|]. intros c. case_match; [done|].
    apply errs_bind; [done|]. intros e. case_match; by apply errs_bind.
  - apply errs_bind; [|done]. unfold x1_pcie_config_write. case_match; [done|].
    apply errs_bind; [done|]. intros s. case_match; [|done]. apply errs_bind; [done|]. intros c. case_match; [done|].
    apply errs_bind; [done|]. intros e. case_match; by apply errs_bind.
  - by apply errs_bind.
  - unfold mark_pulled. apply errs_bind; [done|]. intros s. case_match; [|done]. case_match; [|done].
    apply errs_bind; [|done]. intros s' e t. unfold cset. by destruct (y_ctx s').
Qed.
Lemma wp_errs {A} P (m : MP A) Q (E : Z → psys W → Prop) s :
  errs P m → wp m Q E s → wp m Q (λ e t, P e ∧ E e t) s.
Proof. intros He Hm. unfold wp in *. destruct (m s) as [[a|e|] t] eqn:Em; try done. split; [by eapply He|done]. Qed.

(** *** Calls out *)

Lemma at_event u k s c r w :
  neutral c = true → permitted (g_l k) c = true → at_ u k s →
  at_ u (k <| g_l := effect (g_l k) (c, r) |>) (s <| y_w := w |> <| y_log := y_log s ++ [(c, r)] |>).
Proof.
  intros Hn Hp (c0 & Ec & Nc & Nq & Hh & Nl & Hok & Hpl & Hs & Hu & Ha & Hpr). exists c0. simpl.
  rewrite ledger_at_snoc. repeat split; try done.
  - by apply norml_effect, neutral_outward.
  - simpl. by rewrite Hok, (norml_permitted _ _ _ Nl (neutral_outward _ Hn)).
  - etrans; [exact (pulled_effect _ c r Hn)|done].
  - intros Hpu. exact (seen_effect _ c r Hn (Hs Hpu)).
Qed.
Lemma wp_pleaf u k s c (Q : Z → psys W → Prop) E :
  neutral c = true → permitted (g_l k) c = true → at_ u k s →
  (∀ r t, at_ u (k <| g_l := effect (g_l k) (c, r) |>) t → Q r t) → wp (pleaf c) Q E s.
Proof.
  intros Hn Hp Hs HQ. unfold wp, pleaf. destruct (x_answer c (y_w s)) as [r w].
  by apply HQ, at_event.
Qed.
Lemma wp_plog u k s c r (Q : unit → psys W → Prop) E :
  neutral c = true → permitted (g_l k) c = true → at_ u k s →
  (∀ t, at_ u (k <| g_l := effect (g_l k) (c, r) |>) t → Q tt t) → wp (plog c r) Q E s.
Proof. intros Hn Hp Hs HQ. apply (HQ (s <| y_log := _ |>)). exact (at_event u k s c r (y_w s) Hn Hp Hs). Qed.
Lemma wp_pcall k s c (Q : Z → psys W → Prop) E :
  quiet k → neutral c = true → permitted (g_l k) c = true → at_ false k s →
  (∀ r t, at_ false (k <| g_l := effect (g_l k) (c, r) |>) t → Q r t) → wp (pcall1 c) Q E s.
Proof.
  intros Hq Hn Hp Hs HQ. apply wp_bind.
  eapply wp_mono; [exact (wp_errs _ _ _ _ _ errs_arrivals (stays_arrivals k Hq s Hs))| |].
  - intros a t Ht. exact (wp_pleaf false k t c Q E Hn Hp Ht HQ).
  - by intros e t [[] _].
Qed.
End calls.
