(* ===== verification/HostPcieInv.v ===== *)
(** * The PCIe side: the invariant

    What callbacks and register programs leave alone, and the invariant that
    relates the context, the session's record and the ledger between two
    operations. *)

From S2P Require Import Prelude Wp HostData HostPcie HostPcieLogic.

Section volatile.
Context {W : Type} `{PcieEnv W}.
Notation MP := (M (psys W)).
Implicit Types s t : psys W.

(** ** Calls and programs *)

Lemma wp_call0 k s c (Q : unit → psys W → Prop) E :
  quiet k → neutral c = true → permitted (g_l k) c = true → at_ false k s →
  (∀ r t, at_ false (k <| g_l := effect (g_l k) (c, r) |>) t → Q tt t) → wp (pcall0 c) Q E s.
Proof. intros Hq Hn Hp Hs HQ. apply wp_bind. eapply wp_pcall; [done..|]. intros r t Ht. by apply wp_ret, (HQ r). Qed.
Lemma wp_calle k s c (Q : unit → psys W → Prop) (E : Z → psys W → Prop) :
  quiet k → neutral c = true → permitted (g_l k) c = true → at_ false k s →
  (∀ t, at_ false (k <| g_l := effect (g_l k) (c, 0) |>) t → Q tt t) →
  (∀ r t, r ≠ 0 → at_ false (k <| g_l := effect (g_l k) (c, r) |>) t → E r t) → wp (pcalle c) Q E s.
Proof.
  intros Hq Hn Hp Hs HQ HE. apply wp_bind. eapply wp_pcall; [done..|]. intros r t Ht.
  apply wp_ok_or_fail; [intros ->; by apply HQ|intros Hr; by apply HE].
Qed.
(** A call that takes nothing. *)
Definition plain (c : pcall) : bool :=
  match c with
  | Msleep _ | BatchLive | RtActive | TunnelAction | PmForbid _ | Override _ _ | SizeBridges | AssignResources
  | AddDevices | BridgeAlloc => true
  | _ => false
  end.
Lemma stays_call k c : quiet k → plain c = true → permitted (g_l k) c = true → stays (at_ false k) (pcall1 c).
Proof.
  intros Hq Hn Hp s Hs. eapply wp_pcall; [done|by destruct c|done..|]. intros r t Ht.
  destruct c; try done; by destruct k.
Qed.
Lemma stays_call0 k c : quiet k → plain c = true → permitted (g_l k) c = true → stays (at_ false k) (pcall0 c).
Proof. intros. apply stays_seq; [by apply stays_call|]. intros r. apply stays_ret. Qed.
Lemma stays_calle k c : quiet k → plain c = true → permitted (g_l k) c = true → stays (at_ false k) (pcalle c).
Proof. intros. apply stays_seq; [by apply stays_call|]. intros r. apply stays_ok. Qed.

Lemma stays_io {A} (P : psys W → Prop) (f : W → ioprog A) (h : ioreq → MP Z) :
  (∀ q, stays P (h q)) → stays P (io f h).
Proof.
  intros Hh. unfold io. apply stays_seq; [apply stays_get|]. intros s0.
  induction (f (y_w s0)) as [r a|q k IH]; simpl; [apply stays_ret|]. intros s Hs.
  unfold wp. specialize (Hh q s Hs). unfold wp in Hh.
  destruct (h q s) as [[v|e|] t]; [by apply IH|by apply IH|done].
Qed.
Lemma stays_callback (P : psys W → Prop) (f : W → cbprog) (cb : MP unit) :
  stays P cb → stays P (with_callback f cb).
Proof.
  intros Hc. unfold with_callback. apply stays_seq; [apply stays_get|]. intros s0.
  induction (f (y_w s0)) as [r|k IH]; simpl; [apply stays_ok|].
  apply stays_seq; [by apply stays_attempt|]. intros e. apply IH.
Qed.
Lemma stays_unit0 (P : psys W → Prop) (m : MP unit) : stays P m → stays P (unit0 m).
Proof. intros Hm. apply stays_seq; [done|]. intros _. apply stays_ret. Qed.
Lemma stays_strict (P : psys W → Prop) (m : MP unit) : stays P m → stays P (strict m).
Proof. intros Hm. unfold strict. stay. Qed.

(** ** The root port *)

Section reading.
Context (u : bool) (k : ghost) (Hk : avail k).

Lemma stays_reg x off size : stays (at_ u k) (rd x off size).
Proof using Hk. by apply stays_rd. Qed.
#[local] Hint Resolve stays_reg stays_sget : stays.
Lemma stays_snapshot : stays (at_ u k) x1_pcie_snapshot.
Proof using Hk. unfold x1_pcie_snapshot. stay. Qed.
Lemma stays_disabled : stays (at_ u k) x1_pcie_disabled.
Proof using Hk. unfold x1_pcie_disabled. stay. Qed.
Lemma stays_quiescent : stays (at_ u k) x1_pcie_quiescent.
Proof using Hk. unfold x1_pcie_quiescent. stay. apply stays_disabled. Qed.
Lemma stays_root_walk n ptr seen pcie : stays (at_ u k) (root_walk n ptr seen pcie).
Proof using Hk.
  revert ptr seen pcie. induction n as [|n IH]; intros ptr seen pcie; simpl; stay.
  all: try apply IH. by apply stays_cset.
Qed.
Lemma stays_root_identity : stays (at_ u k) x1_pcie_root_identity.
Proof using Hk.
  unfold x1_pcie_root_identity. apply stays_seq; [apply stays_snapshot|]. intros [[[id command] c] header].
  stay; [apply stays_root_walk|by apply stays_sset].
Qed.
Lemma stays_root_validate : stays (at_ u k) x1_pcie_root_validate.
Proof using Hk. unfold x1_pcie_root_validate. stay; [apply stays_root_identity|apply stays_quiescent]. Qed.
Lemma stays_region last region off : stays (at_ u k) (region_read last region off).
Proof using Hk. unfold region_read. stay. Qed.
Lemma stays_inspect : stays (at_ u k) x1_pcie_inspect.
Proof using Hk.
  assert (∀ x off, stays (at_ u k) (inspect_one x off)) as Hi.
  { intros. unfold inspect_one. stay. apply stays_quiescent. }
  unfold x1_pcie_inspect. stay; try (by apply stays_sset) || apply stays_root_validate.
  all: by apply stays_for_each.
Qed.
Lemma stays_bars x d : stays (at_ u k) (check_bars x d).
Proof using Hk.
  unfold check_bars. stay. apply stays_for_each. intros bar. unfold check_bar. stay.
Qed.
End reading.

(** ** The batch *)

(** Everything is on and others may come in. *)
Section live.
Context (k : ghost) (Hk : avail k) (Hq : quiet k).

#[local] Hint Resolve stays_reg stays_sget stays_unit0 stays_strict stays_io stays_root_identity stays_region : stays.
Lemma quiet_ctx : l_ctx (g_l k) = true.
Proof using Hq. apply Hq. Qed.
Lemma stays_sleep ms : stays (at_ false k) (pcall0 (Msleep ms)).
Proof using Hq. by apply stays_call0. Qed.
Lemma stays_batch_live : stays (at_ false k) x1_pcie_batch_live.
Proof using Hk Hq.
  unfold x1_pcie_batch_live. stay. apply stays_calle; [done|done|]. simpl. apply quiet_ctx.
Qed.
#[local] Hint Resolve stays_sleep stays_batch_live : stays.
Lemma stays_window trained : stays (at_ false k) (x1_pcie_window_survived trained).
Proof using Hk Hq.
  unfold x1_pcie_window_survived. stay. apply stays_io. intros []; simpl; unfold no_callback, x1_pcie_cfg0_read; stay.
Qed.
#[local] Hint Resolve stays_window : stays.
Lemma stays_inventory_read off : stays (at_ false k) (x1_pcie_inventory_read off).
Proof using Hk Hq. unfold x1_pcie_inventory_read. stay. Qed.
#[local] Hint Resolve stays_inventory_read : stays.
Lemma stays_inventory_io q : stays (at_ false k) (inventory_io q).
Proof using Hk Hq. unfold inventory_io, no_callback. stay. Qed.
Lemma stays_no_bus : stays (at_ (W := W) false k) no_bus.
Proof using Type. unfold no_bus, bridge_bus. stay. Qed.
#[local] Hint Resolve stays_no_bus : stays.
Lemma stays_receiver_live : stays (at_ false k) x1_pcie_receiver_live.
Proof using Hk Hq.
  unfold x1_pcie_receiver_live. stay. apply stays_strict. unfold live_words, live_word. stay.
Qed.
Lemma stays_mem_check : is_Some (cx_inventory (g_c k)) → stays (at_ false k) x1_pcie_mem_check.
Proof using Hk Hq. intros Hi. unfold x1_pcie_mem_check. stay. by apply stays_host_local. Qed.
Lemma stays_cached : stays (at_ (W := W) false k) cached.
Proof using Type. unfold cached. stay. by apply stays_sset. Qed.
Lemma stays_no_cfg_error : stays (at_ (W := W) false k) no_cfg_error.
Proof using Type. unfold no_cfg_error. stay. Qed.

(** Until devices are identified nothing is pulled, and registers may be
    written. *)
Section writing.
Context (Hseen : l_seen (g_l k) = false).
Lemma stays_store x off size v : stays (at_ (W := W) false k) (wr x off size v).
Proof using Hk Hseen. by apply stays_wr. Qed.
#[local] Hint Resolve stays_store : stays.
Lemma stays_train_io q : stays (at_ false k) (train_io q).
Proof using Hk Hq Hseen.
  destruct q; simpl; unfold x1_pcie_train_read, x1_pcie_train_write, x1_pcie_train_delay, unit0; stay.
Qed.
Lemma stays_policy_io q : stays (at_ false k) (policy_io q).
Proof using Hk Hq Hseen. destruct q; simpl; unfold unit0, no_callback; stay. apply stays_receiver_live. Qed.
Lemma stays_mem_io q : is_Some (cx_inventory (g_c k)) → stays (at_ false k) (mem_io q).
Proof using Hk Hq Hseen.
  intros Hi. pose proof (stays_mem_check Hi).
  destruct q; simpl; unfold x1_pcie_mem_read, x1_pcie_mem_write, x1_pcie_mem_delay, unit0; stay.
Qed.
Lemma stays_scan_mem : is_Some (cx_inventory (g_c k)) → stays (at_ false k) scan_mem.
Proof using Hk Hq Hseen.
  intros Hi. unfold scan_mem. stay; try apply stays_receiver_live. apply stays_io. intros q. by apply stays_mem_io.
Qed.
Lemma stays_decoder_io q : stays (at_ false k) (decoder_io q).
Proof using Hk Hq Hseen.
  destruct q; simpl; unfold unit0, no_callback, x1_pcie_decoder_live, local_admitted, x1_pcie_decoder_read,
    x1_pcie_decoder_write; stay.
Qed.
Lemma stays_cfg0_io q : stays (at_ false k) (cfg0_io q).
Proof using Hk Hq Hseen.
  destruct q; simpl; unfold unit0, x1_pcie_cfg0_read, x1_pcie_cfg0_write, x1_pcie_cfg0_delay, x1_pcie_local_live,
    local_admitted; stay; by apply stays_quiescent.
Qed.
Lemma stays_local_cfg0 : stays (at_ false k) x1_pcie_local_cfg0.
Proof using Hk Hq Hseen.
  unfold x1_pcie_local_cfg0. stay.
  all: try by apply stays_sset.
  - apply stays_io. apply stays_decoder_io.
  - apply stays_io. apply stays_cfg0_io.
  - apply stays_on_error; [by apply stays_root_validate|by apply stays_sset].
Qed.
End writing.
End live.

(** The two devices are known. *)
Lemma stays_assigned_bars u k :
  avail k → is_Some (cx_inventory (g_c k)) → is_Some (cx_root_port (g_c k)) → is_Some (cx_endpoint (g_c k)) →
  stays (at_ u k) x1_pcie_assigned_bars.
Proof.
  intros Hk Hi [r Hr] [e He]. unfold x1_pcie_assigned_bars. apply stays_cget. intros c Nc.
  destruct (norm_fields _ _ Nc) as (_ & _ & _ & Er & Ee & _). rewrite Er, Ee, Hr, He.
  destruct (cx_inventory c) eqn:Ei; [|by destruct (inventory_some k c)]. unfold dev.
  stay; by (apply stays_bars || apply stays_rd).
Qed.
End volatile.

(** ** The invariant *)

Definition pci_refs (c : pctx) : list Z :=
  match cx_root_port c, cx_endpoint c with Some r, Some e => [r; e] | _, _ => [] end.
(** All providers and handles are there. *)
Definition provided (l : ledger) : Prop :=
  powered l = true ∧ (∀ x, x ∈ l_maps l) ∧ holds_reset l = true ∧ (∀ m, m ∈ l_paths l).

(** The ledger is what the context and the session's record say. *)
Record books (c : pctx) (q : pcie_rec) (l : ledger) : Prop := Books {
  bk_ctx : l_ctx l = true;
  bk_owner : l_owner l = 1;
  bk_pdev : l_pdev l = Z.b2z (cx_pdev c);
  bk_module : l_module l = Z.b2z (cx_receiver_retained c);
  bk_lease : l_lease l = Z.b2z (cx_reset_early c);
  bk_driver : l_driver l = cx_driver_registered c;
  bk_enabled : l_enabled l = cx_runtime_enabled c;
  bk_active : l_active l = cx_runtime_held c;
  bk_maps : l_maps l = cx_maps c;
  bk_clocks : l_clocks l = cx_clocks c;
  bk_pci : l_pci l = pci_refs c;
  bk_session : l_session l = Z.b2z (cx_session c);
  bk_open : l_open l = cx_config_open c;
  bk_bind : l_bind l = cx_bind_writes c;
  bk_fenced : l_fenced l = pr_config_fenced q;
  bk_removed : l_removed l = pr_endpoint_remove_attempted q;
}.

Record stages (c : pctx) (q : pcie_rec) (l : ledger) : Prop := Stages {
  (* two devices or none *)
  sg_pair : is_Some (cx_root_port c) ↔ is_Some (cx_endpoint c);
  sg_seen : is_Some (cx_endpoint c) → l_seen l = true;
  (* an open configuration space *)
  sg_open : cx_config_open c || cx_bind_writes c = true →
    pr_config_fenced q = false ∧ pr_platform_retire_attempted q = false ∧ pr_inventory_attempted q = true;
  (* prepared, or in use *)
  sg_on : pr_platform_retire_attempted q = false →
    (pr_prepared q = true ∧ pr_error q = 0) ∨ pr_inventory_attempted q = true → provided l;
  sg_inventory : pr_inventory_attempted q = true → is_Some (cx_inventory c);
  (* before the batch *)
  sg_fresh : pr_inventory_attempted q = false →
    cx_endpoint c = None ∧ l_seen l = false ∧ l_bus l = O ∧ cx_receiver_retained c = false ∧
    pr_nvme_bind_attempted q = false ∧ pr_host_prepared q = false ∧ pr_pci_retired q = false ∧
    pr_endpoint_remove_attempted q = false;
  (* before the binding *)
  sg_unbound : pr_nvme_bind_attempted q = false →
    l_attached l = false ∧ cx_session c = false ∧ cx_bind_writes c = false ∧ pr_config_fenced q = false ∧
    pr_nvme_bound q = false;
  sg_bound : pr_nvme_bound q = true → l_attached l = true ∧ cx_session c = negb (pr_general q);
  sg_session : pr_general q = true → cx_session c = false;
  (* the published bus *)
  sg_bus : pr_host_prepared q = true → pr_pci_retire_attempted q = false → l_bus l = 1%nat;
  sg_published : pr_host_prepared q = true → pr_config_fenced q = false → cx_config_open c = true;
  sg_removed : pr_pci_retired q = true → l_bus l = 3%nat;
  sg_retiring : pr_platform_retire_attempted q = true → cx_endpoint c = None;
  sg_pdev : cx_driver_registered c = true → cx_pdev c = true;
}.

Definition good (k : ghost) : Prop := books (g_c k) (g_q k) (g_l k) ∧ stages (g_c k) (g_q k) (g_l k).

Lemma provided_avail c q h l :
  provided l → l_fenced l = false → l_maps l = cx_maps c → avail (Ghost c q h l).
Proof. intros (Hp & Hm & _) Hf Hc. split; [done|]. split; [done|]. split; [done|]. simpl. by rewrite <- Hc. Qed.
Lemma good_quiet k : good k → quiet k.
Proof.
  intros [B S]. split; [apply B|]. split; [|apply S]. intros Ho. destruct (sg_open _ _ _ S Ho) as (Hf & Hr & Hi).
  split; [|by apply (sg_inventory _ _ _ S)]. destruct k as [c q h l].
  apply provided_avail; [apply (sg_on _ _ _ S); auto|exact (eq_trans (bk_fenced _ _ _ B) Hf)|apply B].
Qed.

(** The invariant says nothing of what is erased. *)
Lemma good_norm c q h l : good (Ghost c q h l) ↔ good (Ghost (norm c) (normq q) h (norml l)).
Proof.
  split; intros [[] []]; (split; [by constructor|]).
  all: constructor; try done; simpl in *; intros Hi; apply fmap_is_Some in sg_inventory0 || apply fmap_is_Some; auto.
Qed.

Section inv.
Context {W : Type} `{PcieEnv W}.
Implicit Types s t : psys W.

(** No context: only the reset line may be held. *)
Definition gone (l : ledger) (held : bool) (m : Z → pcie_rec) s : Prop :=
  y_ctx s = None ∧ norml (ledger_at (y_log s)) = norml l ∧ l_ok (ledger_at (y_log s)) = true ∧
  y_reset_held s = held ∧ y_states s = m.
Definition idle s : Prop :=
  ∃ a h, gone (ledger_free a) h (y_states s) s ∧ (a = true → h = true) ∧ pristine s.
Definition busy s : Prop := ∃ k, at_ false k s ∧ good k.
Definition pinv s : Prop := idle s ∨ busy s.

(** The state as it is, as a ghost state. *)
Lemma busy_now s : busy s → ∃ c, y_ctx s = Some c ∧
  at_ false (Ghost c (y_states s (cx_state c)) (y_reset_held s) (ledger_at (y_log s))) s ∧
  good (Ghost c (y_states s (cx_state c)) (y_reset_held s) (ledger_at (y_log s))).
Proof.
  intros (k & (c & Ec & Nc & Nq & Hh & Nl & Hok & Hpl & Hs & _ & Ha & Hpr) & B & S). exists c. split; [done|]. split.
  - exists c. repeat split; try done.
    + intros Hp. specialize (Hs Hp). exact (eq_trans (f_equal l_seen Nl) Hs).
    + simpl. by rewrite (normq_attempted _ _ Nq).
  - apply good_norm. rewrite Nc, Nq, Nl. by apply (good_norm (g_c k) (g_q k) _ (g_l k)).
Qed.

(** Without a context others find nothing. *)
Lemma stays_gone_arrivals l h m : stays (gone l h m) arrivals.
Proof.
  unfold arrivals. apply stays_seq.
  { intros s Hs. unfold wp. destruct (x_arrivals (y_w s)) as [x w]. exact Hs. }
  intros x. apply stays_for_each.
  assert (∀ s, gone l h m s → y_ctx s = None) as Hc by by intros s [? _].
  intros [b devfn off size|b devfn off size v|ours d|owner st] s Hs; simpl.
  - apply wp_bind. unfold x1_pcie_config_read. case_match; [done|]. apply wp_bind, wp_get.
    unfold x1_pcie_config_base. by rewrite (Hc _ Hs).
  - apply wp_bind. unfold x1_pcie_config_write. case_match; [done|]. apply wp_bind, wp_get.
    unfold x1_pcie_config_base. by rewrite (Hc _ Hs).
  - apply wp_bind, wp_attempt. unfold x1_pcie_enable_device. apply wp_bind, wp_get. rewrite (Hc _ Hs). by apply wp_fail.
  - unfold mark_pulled. apply wp_bind, wp_get. by rewrite (Hc _ Hs).
Qed.
Lemma wp_gone_call l h m s c (Q : Z → psys W → Prop) E :
  gone l h m s → outward c = true → permitted l c = true →
  (∀ r t, gone (effect l (c, r)) h m t → (c = CtxAlloc → r ≠ 0 → l_pulled (ledger_at (y_log t)) = false) → Q r t) →
  wp (pcall1 c) Q E s.
Proof.
  intros Hs Ho Hp HQ. apply wp_bind.
  eapply wp_mono; [exact (wp_errs _ _ _ _ _ errs_arrivals (stays_gone_arrivals l h m s Hs))| |by intros e t [[] _]].
  clear s Hs. intros x s (Hc & Nl & Hok & Hh & Hpr). unfold wp, pleaf. destruct (x_answer c (y_w s)) as [r w].
  apply HQ; simpl; rewrite ?ledger_at_snoc.
  - split; [done|]. simpl. rewrite ledger_at_snoc. split; [by apply norml_effect|]. split; [|done].
    simpl. by rewrite Hok, (norml_permitted _ _ _ Nl Ho).
  - intros -> Hr. simpl. by rewrite (proj2 (Z.eqb_neq r 0) Hr).
Qed.

(** An entry point that begins with the caller's identity. *)
Lemma stays_with_ctx owner st (m : pctx → pcie_rec → M (psys W) unit) :
  (∀ c q h l s, at_ false (Ghost c q h l) s → good (Ghost c q h l) → cx_state c = st →
     wp (m c q) (λ _, pinv) (λ _, pinv) s) →
  stays pinv (with_ctx owner st m).
Proof.
  intros Hm s Hs. unfold with_ctx. case_match; [by apply wp_fail|]. apply wp_bind, wp_get.
  case_match eqn:Eo; [by apply wp_fail|]. unfold ours in Eo.
  destruct Hs as [(a & h & (Hc & _) & _)|Hb]; [by rewrite Hc in Eo|].
  destruct (busy_now s Hb) as (c & Ec & Ha & Hg). rewrite Ec in Eo.
  apply negb_false_iff, andb_true_iff in Eo as [_ Est]. apply Z.eqb_eq in Est.
  apply wp_bind. unfold cget at 1, wp at 1. rewrite Ec. apply wp_bind. unfold wp at 1, sget, bind, cget.
  rewrite Ec. simpl. by apply (Hm _ _ (y_reset_held s) (ledger_at (y_log s))).
Qed.
Lemma busy_pinv c q h l s : at_ false (Ghost c q h l) s → good (Ghost c q h l) → pinv s.
Proof. intros Ha Hg. right. by exists (Ghost c q h l). Qed.

(** [x1_pcie = NULL]. *)
Lemma at_gone k s : at_ false k s →
  gone (g_l k) (g_held k) (y_states s) (s <| y_ctx := None |>) ∧ pristine s.
Proof. intros (c & Ec & Nc & Nq & Hh & Nl & Hok & Hpl & Hs & _ & Ha & Hpr). by repeat split. Qed.
Lemma wp_gone_call0 l h m s c (Q : unit → psys W → Prop) E :
  gone l h m s → outward c = true → permitted l c = true →
  (∀ r t, gone (effect l (c, r)) h m t → Q tt t) → wp (pcall0 c) Q E s.
Proof.
  intros Hs Ho Hp HQ. apply wp_bind. eapply wp_gone_call; [done..|]. intros r t Ht _. by apply wp_ret, (HQ r).
Qed.
Lemma wp_gone_mark l h m s c (Q : unit → psys W → Prop) E :
  gone l h m s → outward c = true → permitted l c = true →
  (∀ t, gone (effect l (c, 0)) h m t → Q tt t) → wp (pmark c) Q E s.
Proof.
  intros (Hc & Nl & Hok & Hh & Em) Ho Hp HQ. apply wp_modify, HQ. split; [done|]. simpl. rewrite ledger_at_snoc.
  split; [by apply norml_effect|]. split; [|done]. simpl. by rewrite Hok, (norml_permitted _ _ _ Nl Ho).
Qed.
End inv.
