(* ===== verification/HostPcieSteps.v ===== *)
(** * The PCIe side: rules over explicit states, and the preparation *)

From S2P Require Import Prelude Wp HostData HostPcie HostPcieLogic HostPcieInv.

Section rules.
Context {W : Type} `{PcieEnv W}.
Notation MP := (M (psys W)).
Implicit Types s t : psys W.

(** ** Rules over explicit ghost states *)

(** A call that takes something only if it succeeds. *)
Definition fallible (c : pcall) : bool :=
  match c with
  | Admit | ResetGet | ResetDeassert | MapWin _ | ResetDevmGet | ClkGet _ | IccGet _ | ClkEnable _ | IccSet _ _
  | OpenSession | CloseSession | CheckStopped | Override _ _ | TunnelAction | BatchLive => true
  | _ => false
  end.
Lemma effect_failed l c r : fallible c = true → r ≠ 0 → effect l (c, r) = l.
Proof. intros Hc Hr. apply Z.eqb_neq in Hr. destruct c; try done; simpl; rewrite ?Hr; by repeat case_match. Qed.

Section one.
Context (c : pctx) (q : pcie_rec) (h : bool) (l : ledger) (s : psys W) (Hs : at_ false (Ghost c q h l) s).

Lemma wpx_call e (Q : Z → psys W → Prop) E :
  quiet (Ghost c q h l) → neutral e = true → permitted l e = true →
  (∀ r t, at_ false (Ghost c q h (effect l (e, r))) t → Q r t) → wp (pcall1 e) Q E s.
Proof using Hs. intros Hq Hn Hp HQ. by apply (wp_pcall (Ghost c q h l)). Qed.
Lemma wpx_call0 e (Q : unit → psys W → Prop) E :
  quiet (Ghost c q h l) → neutral e = true → permitted l e = true →
  (∀ r t, at_ false (Ghost c q h (effect l (e, r))) t → Q tt t) → wp (pcall0 e) Q E s.
Proof using Hs. intros Hq Hn Hp HQ. by apply (wp_call0 (Ghost c q h l)). Qed.
Lemma wpx_calle e (Q : unit → psys W → Prop) (E : Z → psys W → Prop) :
  quiet (Ghost c q h l) → neutral e && fallible e = true → permitted l e = true →
  (∀ t, at_ false (Ghost c q h (effect l (e, 0))) t → Q tt t) →
  (∀ r t, r ≠ 0 → at_ false (Ghost c q h l) t → E r t) → wp (pcalle e) Q E s.
Proof using Hs.
  intros Hq [Hn Hf]%andb_true_iff Hp HQ HE. apply (wp_calle (Ghost c q h l)); [done..|].
  intros r t Hr Ht. apply HE; [done|]. simpl in Ht. by rewrite <- (effect_failed l e r Hf Hr).
Qed.
Lemma wpx_plog e r (Q : unit → psys W → Prop) E :
  neutral e = true → permitted l e = true →
  (∀ t, at_ false (Ghost c q h (effect l (e, r))) t → Q tt t) → wp (plog e r) Q E s.
Proof using Hs. intros Hn Hp HQ. by apply (wp_plog false (Ghost c q h l)). Qed.
Lemma wpx_cset (f : pctx → pctx) (Q : unit → psys W → Prop) E :
  (∀ c, norm (f c) = norm (f (norm c))) → (∀ c, cx_pulled (f c) = cx_pulled c) →
  (∀ c, cx_state (f c) = cx_state c) →
  (∀ t, at_ false (Ghost (f c) q h l) t → Q tt t) → wp (cset f) Q E s.
Proof using Hs. intros ? ? ? HQ. by apply (wp_cset false (Ghost c q h l)). Qed.
Lemma wpx_sset (f : pcie_rec → pcie_rec) (Q : unit → psys W → Prop) E :
  (∀ q, normq (f q) = normq (f (normq q))) → (∀ q, pr_attempted (f q) = pr_attempted q) →
  (∀ t, at_ false (Ghost c (f q) h l) t → Q tt t) → wp (sset f) Q E s.
Proof using Hs. intros ? ? HQ. by apply (wp_sset false (Ghost c q h l)). Qed.
Lemma wpx_held b (Q : unit → psys W → Prop) E :
  (∀ t, at_ false (Ghost c q b l) t → Q tt t) → wp (modify (λ s, s <| y_reset_held := b |>)) Q E s.
Proof using Hs.
  intros HQ. apply wp_modify, HQ. destruct Hs as (c' & ? & ? & ? & ? & ? & ? & ? & ? & ? & ? & ?).
  exists c'. by repeat split.
Qed.
(** What only reads or writes keeps everything. *)
Lemma wpx_stays {A} (m : MP A) (Q : A → psys W → Prop) (E : Z → psys W → Prop) :
  stays (at_ false (Ghost c q h l)) m →
  (∀ a t, at_ false (Ghost c q h l) t → Q a t) → (∀ e t, at_ false (Ghost c q h l) t → E e t) → wp m Q E s.
Proof using Hs. intros Hm HQ HE. by apply (stays_wp (at_ false (Ghost c q h l))). Qed.
Lemma wpx_cget (Q : pctx → psys W → Prop) E :
  (∀ c', norm c' = norm c → Q c' s) → wp cget Q E s.
Proof using Hs. intros HQ. apply (wp_cget false (Ghost c q h l)); [done|]. intros c' Hc _ _. by apply HQ. Qed.
Lemma wpx_sget (Q : pcie_rec → psys W → Prop) E :
  (∀ q', normq q' = normq q → Q q' s) → wp sget Q E s.
Proof using Hs.
  intros HQ. destruct Hs as (c' & Ec & Nc & Nq & _). unfold wp, sget, bind, cget. rewrite Ec. by apply HQ.
Qed.
Lemma wpx_cset_same (f : pctx → pctx) (Q : unit → psys W → Prop) E :
  (∀ c, norm (f c) = norm c) → (∀ c, cx_pulled (f c) = cx_pulled c) →
  (∀ t, at_ false (Ghost c q h l) t → Q tt t) → wp (cset f) Q E s.
Proof using Hs.
  intros Hf Hp HQ. pose proof (stays_cset false (Ghost c q h l) f Hf Hp s Hs) as Hw.
  unfold wp, cset in *. destruct (y_ctx s); [by apply HQ|done].
Qed.
Lemma wpx_sset_same (f : pcie_rec → pcie_rec) (Q : unit → psys W → Prop) E :
  (∀ q, normq (f q) = normq q) → (∀ t, at_ false (Ghost c q h l) t → Q tt t) → wp (sset f) Q E s.
Proof using Hs.
  intros Hf HQ. pose proof (stays_sset false (Ghost c q h l) f Hf s Hs) as Hw.
  unfold wp, sset, bind, cget in *. destruct (y_ctx s); [by apply HQ|done].
Qed.
(** The same, written with the number of the session. *)
Lemma at_upd (f : pcie_rec → pcie_rec) :
  (∀ q, normq (f q) = normq (f (normq q))) → (∀ q, pr_attempted (f q) = pr_attempted q) →
  at_ false (Ghost c (f q) h l) (s <| y_states := upd_rec (cx_state c) f (y_states s) |>).
Proof using Hs.
  intros Hf Ha. destruct (at_ctx _ _ _ Hs) as (c' & Ec & Nc).
  assert (wp (sset f) (λ _, at_ false (Ghost c (f q) h l)) (λ _ _, False) s) as Hw by by apply wpx_sset.
  unfold wp, sset, bind, cget in Hw. rewrite Ec in Hw.
  by rewrite (f_equal cx_state Nc : cx_state c' = cx_state c) in Hw.
Qed.
End one.

Lemma quiet_closed c q h l :
  l_ctx l = true → cx_config_open c || cx_bind_writes c = false → cx_endpoint c = None → quiet (Ghost c q h l).
Proof. intros Hl Ho He. split; [done|]. simpl. rewrite Ho, He. split; [done|]. by intros [? ?]. Qed.
End rules.

(** ** Tactics *)

Ltac wpx_quiet := first [assumption | apply quiet_closed; done].
(** One step of a computation, with its error case left to [e]. *)
Ltac wpx_bind := repeat lazymatch goal with |- wp (bind _ _) _ _ _ => apply wp_bind end.
(** Evaluate the updates of a ghost state. *)
Ltac ghost_in A :=
  change (0 =? 0) with true in A;
  cbv beta iota zeta delta [effect drop_devres set_field
    l_ctx l_owner l_pdev l_module l_lease l_driver l_enabled l_active l_forbidden l_owner_forbidden
    l_maps l_dreset l_clks l_paths l_clocks l_mem l_cfg l_asserted l_pci l_seen l_session l_open l_bind
    l_attached l_removed l_fenced l_stopped l_checked l_bus l_pulled l_ok
    cx_owner cx_state cx_pdev cx_maps cx_reset_early cx_window cx_entered cx_root_bytes cx_trained
    cx_batch_active cx_inventory cx_bridge cx_receiver cx_receiver_retained cx_driver_registered
    cx_runtime_enabled cx_runtime_held cx_clocks cx_session cx_root_port cx_endpoint cx_root_msi
    cx_root_msix cx_root_pm cx_endpoint_pm cx_config_open cx_scan_writes cx_bind_writes cx_pulled
    pr_attempted pr_prepared pr_error pr_pcie_cap pr_inspect_requested pr_inspect_attempted
    pr_inspect_complete pr_cfg0_requested pr_cfg0_attempted pr_cfg0_complete pr_inventory_requested
    pr_inventory_attempted pr_receiver_requested pr_bridge_allocated pr_receiver pr_nvme_requested
    pr_host_attempted pr_host_published pr_host_prepared pr_nvme_bind_attempted pr_nvme_bound pr_general
    pr_endpoint_remove_attempted pr_endpoint_removed pr_endpoint_remove_error pr_pulled pr_config_fenced
    pr_namespace_retire_attempted pr_namespace_retired pr_namespace_retire_error pr_pci_retire_attempted
    pr_nvme_resources_retired pr_pci_retired pr_pci_retire_error pr_platform_retire_attempted
    pr_platform_reset pr_platform_retired pr_platform_clocks_released pr_platform_icc_released
    pr_platform_runtime_released pr_platform_retire_error pr_host_error pr_cfg_error] in A.
Ltac wpx_at t := let A := fresh "At" in intros t A; cbv beta; ghost_in A.
Ltac wpx_calle e :=
  wpx_bind; eapply wpx_calle; [eassumption|wpx_quiet|done|try done|let t := fresh "t" in wpx_at t|intros ? ? ? ?; e].
Ltac wpx_call0 := wpx_bind; eapply wpx_call0; [eassumption|wpx_quiet|done|try done|intros ?; let t := fresh "t" in wpx_at t].
Ltac norm_set := let x := fresh in intros x; unfold norm; cbn; destruct (cx_inventory x); reflexivity.
Ltac wpx_cset :=
  wpx_bind; eapply wpx_cset; [eassumption|norm_set|reflexivity|reflexivity|let t := fresh "t" in wpx_at t].
Ltac wpx_sset := wpx_bind; eapply wpx_sset; [eassumption|reflexivity|reflexivity|let t := fresh "t" in wpx_at t].

Section prepare.
Context {W : Type} `{PcieEnv W}.
Notation MP := (M (psys W)).
Implicit Types s t : psys W.

Lemma stays_mask k x off mask v :
  avail k → l_seen (g_l k) = false → stays (at_ (W := W) false k) (x1_pcie_mask x off mask v).
Proof. intros Hk Hl. unfold x1_pcie_mask. stay; by (apply stays_rd || apply stays_wr). Qed.
Lemma stays_gate k v : avail k → l_seen (g_l k) = false → stays (at_ (W := W) false k) (set_gate v).
Proof. intros Hk Hl. unfold set_gate. stay; by (apply stays_rd || apply stays_wr). Qed.

(** Errnos are not 0. *)
Notation nz := (λ e : Z, e ≠ 0).
Lemma nz_ret {A} (a : A) : errs (S := psys W) nz (ret a).
Proof. done. Qed.
Lemma nz_fail {A} e : e ≠ 0 → errs (S := psys W) (A := A) nz (fail e).
Proof. by intros He s e' t [= <- _]. Qed.
Lemma nz_ok r : errs (S := psys W) nz (ok_or_fail r).
Proof. intros s e t. unfold ok_or_fail. destruct (Z.eqb_spec r 0); [done|]. by intros [= <- _]. Qed.
Lemma nz_cget : errs (S := psys W) nz cget.
Proof. intros s e t. unfold cget. by destruct (y_ctx s). Qed.
Lemma nz_sget : errs (S := psys W) nz sget.
Proof. apply errs_bind; [apply nz_cget|]. done. Qed.
Lemma nz_cset f : errs (S := psys W) nz (cset f).
Proof. intros s e t. unfold cset. by destruct (y_ctx s). Qed.
Lemma nz_sset f : errs (S := psys W) nz (sset f).
Proof. apply errs_bind; [apply nz_cget|]. done. Qed.
Lemma nz_rd x off size : errs (S := psys W) nz (rd x off size).
Proof.
  apply errs_bind; [apply nz_cget|]. intros c. case_match; [|done]. intros s e t. unfold pleaf, bind.
  by destruct (x_answer _ _).
Qed.
Lemma nz_wr x off size v : errs (S := psys W) nz (wr x off size v).
Proof. apply errs_bind; [apply nz_cget|]. intros c. by case_match. Qed.
Lemma nz_call c : errs (S := psys W) nz (pcall1 c).
Proof.
  apply errs_bind; [|intros _ s e t; unfold pleaf; by destruct (x_answer _ _)].
  intros s e t He. by destruct (errs_arrivals s e t He).
Qed.
Lemma nz_call0 c : errs (S := psys W) nz (pcall0 c).
Proof. apply errs_bind; [apply nz_call|done]. Qed.
Lemma nz_calle c : errs (S := psys W) nz (pcalle c).
Proof. apply errs_bind; [apply nz_call|]. intros r. apply nz_ok. Qed.
Lemma nz_io {A} (f : W → ioprog A) h : errs (S := psys W) nz (io f h).
Proof.
  apply errs_bind; [done|]. intros s0. induction (f (y_w s0)) as [r a|q k IH]; simpl; [done|].
  intros s e t. destruct (h q s) as [[v|e'|] s']; [by apply IH|by apply IH|done].
Qed.
Lemma nz_on_error {A} (m : MP A) c : errs nz m → errs nz (on_error m c).
Proof.
  intros Hm s e t. unfold on_error. destruct (m s) as [[a|e'|] s'] eqn:E; [done| |done].
  destruct (c s') as [[b|e2|] s2]; intros [= <- _]; by eapply Hm.
Qed.
#[local] Hint Resolve nz_ret nz_ok nz_cget nz_sget nz_cset nz_sset nz_rd nz_wr nz_call nz_call0 nz_calle nz_io
  nz_on_error errs_for_each : nz.
Ltac nz_step :=
  match goal with
  | |- errs _ (bind _ _) => apply errs_bind; [|intros ?]
  | |- errs _ (if ?b then _ else _) => destruct b eqn:?
  | |- errs _ (match ?x with _ => _ end) => destruct x
  | |- errs _ (fail _) => apply nz_fail; done || lia
  | |- errs _ _ => solve [auto with nz]
  end.
Ltac nz_all := repeat nz_step.

Lemma nz_quiescent : errs (S := psys W) nz x1_pcie_quiescent.
Proof. unfold x1_pcie_quiescent, x1_pcie_disabled. nz_all. Qed.
Lemma nz_root_walk n ptr seen pcie : errs (S := psys W) nz (root_walk n ptr seen pcie).
Proof.
  revert ptr seen pcie. induction n as [|n IH]; intros ptr seen pcie; simpl; unfold note_capability; nz_all; apply IH.
Qed.
Lemma nz_root_validate : errs (S := psys W) nz x1_pcie_root_validate.
Proof.
  apply errs_bind; [|intros; apply nz_quiescent]. unfold x1_pcie_root_identity, x1_pcie_snapshot. nz_all.
  apply nz_root_walk.
Qed.
#[local] Hint Resolve nz_quiescent nz_root_validate : nz.
Lemma nz_probe_steps : errs (S := psys W) nz probe_steps.
Proof.
  assert (∀ x off mask v, errs (S := psys W) nz (x1_pcie_mask x off mask v)) as Hm
    by (intros; unfold x1_pcie_mask; nz_all).
  unfold probe_steps, get_handles, set_bandwidth, root_port_mode, map_win, enable_clock, x1_pcie_mode, set_gate, x1_pcie_snapshot, x1_pcie_disabled,
    x1_pcie_inspect, x1_pcie_local_cfg0. nz_all.
  all: try (apply errs_for_each; intros; unfold inspect_one; nz_all).
Qed.

(** The mode switch pulses the reset line. *)
Lemma wp_mode c q h l s (Q : unit → psys W → Prop) (E : Z → psys W → Prop) :
  at_ false (Ghost c q h l) s → quiet (Ghost c q h l) → avail (Ghost c q h l) → holds_reset l = true →
  l_seen l = false → quiet (Ghost c q h (l <| l_asserted := true |>)) →
  (∀ t, at_ false (Ghost c q h l) t → Q tt t) →
  (∀ e b t, at_ false (Ghost c q h (l <| l_asserted := b |>)) t → E e t) → wp x1_pcie_mode Q E s.
Proof.
  intros Hs Hq Hk Hr Hl Hq' HQ HE.
  assert (l_asserted l = false) as Ha.
  { destruct Hk as [Hp _]. unfold powered in Hp. simpl in Hp. by destruct (l_asserted l); rewrite ?andb_false_r in Hp. }
  assert (l <| l_asserted := true |> <| l_asserted := false |> = l) as Eff by (destruct l; simpl in *; by rewrite Ha).
  assert (l <| l_asserted := false |> = l) as Efl by (destruct l; simpl in *; by rewrite Ha).
  assert (∀ e t, at_ false (Ghost c q h l) t → E e t) as HE0 by (intros e t Ht; apply (HE e false); by rewrite Efl).
  set (k := Ghost c q h l) in *.
  unfold x1_pcie_mode.
  assert (∀ v t (Q' : unit → psys W → Prop), at_ false k t → (∀ t', at_ false k t' → Q' tt t') → wp (set_gate v) Q' E t) as Hg.
  { intros v t Q' Ht HQ'. apply (stays_wp (at_ false k)); [by apply stays_gate|done|by intros []|done]. }
  apply wp_bind, (stays_wp (at_ false k)); [by apply stays_snapshot|done| |done]. intros x t1 H1.
  destruct (negb _); [by apply wp_fail, HE0|].
  apply wp_bind, (stays_wp (at_ false k)); [by apply stays_quiescent|done| |done]. intros _ t2 H2.
  apply wp_bind, (stays_wp (at_ false k)); [by apply stays_mask|done| |done]. intros _ t3 H3.
  apply wp_bind. apply Hg; [done|]. intros t4 H4.
  apply wp_bind. eapply (wp_calle k); [done|done|done|done| |]; simpl.
  2: { intros r t _ Ht. by apply (HE r true). }
  intros t5 H5. apply wp_bind. eapply (wpx_call0 _ _ _ _ _ H5); [done|done|done|]. intros r6 t6 H6. change (effect _ (Msleep 5, r6)) with (l <| l_asserted := true |>) in H6.
  apply wp_bind. eapply (wpx_calle _ _ _ _ _ H6); [done|done|done| |].
  2: { intros r t _ Ht. by apply (HE r true). }
  intros t7 H7. simpl in H7. rewrite Eff in H7. fold k in H7.
  apply wp_bind, (stays_wp (at_ false k)); [by apply stays_sleep|done| |done]. intros _ t8 H8.
  apply wp_bind, (stays_wp (at_ false k)); [by apply stays_disabled|done| |done]. intros _ t9 H9.
  apply wp_bind, (stays_wp (at_ false k)); [by apply stays_mask|done| |done]. intros _ t10 H10.
  apply wp_bind, (stays_wp (at_ false k)); [by apply stays_disabled|done| |done]. intros _ t11 H11.
  apply wp_bind. apply Hg; [done|]. intros t12 H12.
  apply wp_bind, (stays_wp (at_ false k)); [by apply stays_sleep|done| |done]. intros _ t13 H13.
  apply (stays_wp (at_ false k)); [by apply stays_root_validate|done|by intros []|done].
Qed.

(** *** The platform device *)

(** Before the batch: nothing is published, identified or bound. *)
Record early (st : Z) (c : pctx) (q : pcie_rec) (l : ledger) : Prop := Early {
  ea_state : cx_state c = st;
  ea_books : books c q l;
  ea_devices : cx_root_port c = None ∧ cx_endpoint c = None;
  ea_closed : cx_config_open c || cx_bind_writes c = false;
  ea_ctx : cx_session c = false ∧ cx_receiver_retained c = false;
  ea_ledger : l_seen l = false ∧ l_bus l = O ∧ l_attached l = false ∧ l_pdev l = 1 ∧ l_driver l = false;
  ea_rec : pr_inventory_attempted q = false ∧ pr_nvme_bind_attempted q = false ∧ pr_host_prepared q = false ∧
    pr_pci_retired q = false ∧ pr_endpoint_remove_attempted q = false ∧ pr_config_fenced q = false ∧
    pr_nvme_bound q = false ∧ pr_platform_retire_attempted q = false;
}.
Context (g : bool).
Definition prep_c (owner st : Z) (early : bool) : pctx := Eval cbv in
  (pctx_zero owner st) <| cx_pdev := true |> <| cx_reset_early := early |>.
Definition prep_q : pcie_rec := Eval cbv in
  (pcie_rec_zero g false false) <| pr_attempted := true |> <| pr_inventory_requested := true |>.
Definition prep_l (early : bool) : ledger := Eval cbv in
  (ledger_free false) <| l_ctx := true |> <| l_maps := [WRouter] |> <| l_owner := 1 |> <| l_pdev := 1 |>
    <| l_lease := Z.b2z early |>.
Definition probed st h t : Prop := ∃ c l, at_ false (Ghost c prep_q h l) t ∧ early st c prep_q l.

(** A state of the preparation that a failure may leave. *)
Ltac prep_early := eexists _, _; split; [eassumption|by repeat constructor].

Lemma wp_enable_clocks c q h l n i s (Q : unit → psys W → Prop) (E : Z → psys W → Prop) :
  (∀ j, quiet (Ghost (c <| cx_clocks := j |>) q h (l <| l_clocks := j |>))) →
  l_active l = true → (i + n ≤ l_clks l)%nat →
  at_ false (Ghost (c <| cx_clocks := i |>) q h (l <| l_clocks := i |>)) s →
  (∀ t, at_ false (Ghost (c <| cx_clocks := (i + n)%nat |>) q h (l <| l_clocks := (i + n)%nat |>)) t → Q tt t) →
  (∀ j e t, at_ false (Ghost (c <| cx_clocks := j |>) q h (l <| l_clocks := j |>)) t → E e t) →
  wp (for_each (seq i n) enable_clock) Q E s.
Proof.
  intros Hq Ha. revert i s. induction n as [|n IH]; intros i s Hn Hs HQ HE; simpl.
  { apply wp_ret, HQ. by rewrite Nat.add_0_r. }
  unfold enable_clock. wpx_bind. eapply wpx_calle; [exact Hs|done|done| | |].
  - simpl. rewrite Ha, Nat.eqb_refl. simpl. apply Nat.ltb_lt. lia.
  - intros t Ht. cbv beta. eapply wpx_cset; [exact Ht|norm_set|done|done|]. intros t' Ht'. cbv beta.
    apply (IH (S i)); [lia|exact Ht'| |done]. replace (S i + n)%nat with (i + S n)%nat by lia. done.
  - intros r t _ Ht. by apply (HE i).
Qed.

(** Runtime power, mappings and the reset handle. *)
Definition bound_c owner st b : pctx := Eval cbv in
  (prep_c owner st b) <| cx_runtime_enabled := true |> <| cx_runtime_held := true |>
    <| cx_maps := [WConfig; WParf; WRoot; WRouter] |>.
Definition bound_l b : ledger := Eval cbv in
  (prep_l b) <| l_enabled := true |> <| l_active := true |> <| l_forbidden := true |>
    <| l_maps := [WConfig; WParf; WRoot; WRouter] |> <| l_dreset := negb b |>.
Definition handle_l b : ledger := Eval cbv in (bound_l b) <| l_clks := CLOCKS |> <| l_paths := [false; true] |>.
Definition clocked_c owner st b : pctx := Eval cbv in (bound_c owner st b) <| cx_clocks := CLOCKS |>.
Definition clocked_l b : ledger := Eval cbv in (handle_l b) <| l_clocks := CLOCKS |>.
Definition voted_l b : ledger := Eval cbv in (clocked_l b) <| l_mem := true |> <| l_cfg := true |>.
Lemma wp_handles owner st b h s (Q : unit → psys W → Prop) :
  at_ false (Ghost (bound_c owner st b) prep_q h (bound_l b)) s →
  (∀ t, at_ false (Ghost (bound_c owner st b) prep_q h (handle_l b)) t → Q tt t) →
  wp get_handles Q (λ _, probed st h) s.
Proof.
  unfold bound_c, bound_l, get_handles. intros Hs HQ. apply wp_bind. simpl for_each. do 8 wpx_calle prep_early. apply wp_ret. do 2 wpx_calle prep_early.
  apply HQ. eassumption.
Qed.
Lemma wp_clocks owner st b h s (Q : unit → psys W → Prop) :
  at_ false (Ghost (bound_c owner st b) prep_q h (handle_l b)) s →
  (∀ t, at_ false (Ghost (clocked_c owner st b) prep_q h (clocked_l b)) t → Q tt t) →
  wp (for_each (seq 0 CLOCKS) enable_clock) Q (λ _, probed st h) s.
Proof.
  intros Hs HQ.
  apply (wp_enable_clocks (bound_c owner st b) prep_q h (handle_l b) 8 0);
    [by intros; apply quiet_closed|done|done|cbn; exact Hs|cbn; exact HQ|].
  intros j e t Ht. cbn in Ht. eexists _, _. split; [exact Ht|by repeat constructor].
Qed.
Lemma wp_bandwidth owner st b h s (Q : unit → psys W → Prop) :
  at_ false (Ghost (clocked_c owner st b) prep_q h (clocked_l b)) s →
  (∀ t, at_ false (Ghost (clocked_c owner st b) prep_q h (voted_l b)) t → Q tt t) →
  wp set_bandwidth Q (λ _, probed st h) s.
Proof.
  unfold clocked_c, clocked_l, set_bandwidth. intros Hs HQ. do 2 wpx_calle prep_early. apply HQ. eassumption.
Qed.
Lemma voted_avail owner st b h : avail (Ghost (clocked_c owner st b) prep_q h (voted_l b)).
Proof. split; [done|]. split; [done|]. split; intros []; unfold elem_of; repeat (constructor || done). Qed.
Lemma wp_root_port owner st b h q s (Q : unit → psys W → Prop) :
  at_ false (Ghost (clocked_c owner st b) prep_q h (voted_l b)) s →
  (∀ t, at_ false (Ghost (clocked_c owner st b) prep_q h (voted_l b)) t → Q tt t) →
  wp (root_port_mode q) Q (λ _, probed st h) s.
Proof.
  intros Hs HQ. pose proof (voted_avail owner st b h) as Hk.
  assert (quiet (Ghost (clocked_c owner st b) prep_q h (voted_l b))) as Hq by by apply quiet_closed.
  assert (∀ t, at_ false (Ghost (clocked_c owner st b) prep_q h (voted_l b)) t → probed st h t) as Hp.
  { intros t Ht. eexists _, _. split; [exact Ht|by repeat constructor]. }
  apply wp_bind. eapply wp_mode; [exact Hs|done|done|by destruct b|done|by apply quiet_closed| |].
  2: { intros e b' t Ht. ghost_in Ht. eexists _, _. split; [exact Ht|by repeat constructor]. }
  clear s Hs. intros s Hs. apply wp_bind. eapply wpx_stays; [exact Hs| | |by intros ?; apply Hp].
  { case_match; [by apply stays_inspect|apply stays_ret]. }
  clear s Hs. intros _ s Hs. eapply wpx_stays; [exact Hs| |by intros []|by intros ?; apply Hp].
  case_match; [by apply stays_local_cfg0|apply stays_ret].
Qed.
Lemma wp_probe_steps owner st b h s :
  at_ false (Ghost (prep_c owner st b) prep_q h (prep_l b)) s →
  wp probe_steps (λ _, at_ false (Ghost (clocked_c owner st b) prep_q h (voted_l b))) (λ _, probed st h) s.
Proof.
  intros Hs. unfold probe_steps.
  apply wp_bind. eapply wpx_sget; [exact Hs|]. intros q Nq.
  rewrite (f_equal pr_inventory_requested Nq : pr_inventory_requested q = true).
  apply wp_bind. eapply wpx_cget; [exact Hs|]. intros c Nc.
  rewrite (f_equal cx_reset_early Nc : cx_reset_early c = b). clear Nq Nc.
  unfold prep_c, prep_l in Hs. wpx_call0. wpx_cset.
  apply wp_bind. eapply wpx_call; [eassumption|wpx_quiet|done|done|]. intros r' t' Ht. cbv beta.
  unfold effect in Ht. case_match eqn:Er; ghost_in Ht; [by apply wp_fail; prep_early|]. clear - Ht.
  wpx_cset. wpx_call0.
  do 3 (unfold map_win at 1; wpx_calle prep_early; wpx_cset).
  apply wp_bind. apply wp_mono with (Q := λ _, at_ false (Ghost (bound_c owner st b) prep_q h (bound_l b)))
    (E := λ _, probed st h); [|clear; intros _ s Hs|done].
  { unfold bound_c, bound_l. destruct b; [apply wp_ret; eassumption|]. wpx_calle prep_early. eassumption. }
  apply wp_bind. eapply wp_handles; [exact Hs|]. clear. intros s Hs.
  apply wp_bind. eapply wp_clocks; [exact Hs|]. clear. intros s Hs.
  apply wp_bind. eapply wp_bandwidth; [exact Hs|]. clear. intros s Hs.
  eapply wp_root_port; [exact Hs|]. done.
Qed.

(** After the probe: what is prepared without error has its providers. *)
Definition tried (st : Z) (c : pctx) (q : pcie_rec) (l : ledger) : Prop :=
  early st c q l ∧ (pr_prepared q = true → pr_error q = 0 → provided l).
Lemma early_probe st c l e p : early st c prep_q l → early st c (prep_q <| pr_error := e |> <| pr_prepared := p |>) l.
Proof. intros [? [] ? ? ? ? ?]. by repeat (constructor; try done). Qed.
Lemma voted_early owner st b : early st (clocked_c owner st b) prep_q (voted_l b) ∧ provided (voted_l b).
Proof.
  split; [by repeat constructor|]. split; [done|]. split; [|split; [by destruct b|]].
  - intros []; unfold elem_of; repeat (constructor || done).
  - intros []; unfold elem_of; repeat (constructor || done).
Qed.
Lemma wp_prepare_probe owner st b h s (Q : unit → psys W → Prop) E :
  at_ false (Ghost (prep_c owner st b) prep_q h (prep_l b)) s →
  (∀ c q l t, at_ false (Ghost c q h l) t → tried st c q l → Q tt t) → wp x1_pcie_prepare_probe Q E s.
Proof.
  intros Hs HQ. unfold x1_pcie_prepare_probe.
  apply wp_bind. eapply wpx_cget; [exact Hs|]. intros c _. case_match.
  { apply wp_ret. eapply HQ; [exact Hs|]. split; [by repeat constructor|done]. }
  apply wp_bind. eapply wpx_cset_same; [exact Hs|done|done|]. clear s Hs. intros s Hs.
  apply wp_bind, wp_attempt.
  eapply wp_mono; [exact (wp_errs _ _ _ _ _ nz_probe_steps (wp_probe_steps _ _ _ _ _ Hs))| |].
  - intros x t Ht. eapply wpx_sset; [exact Ht|done|done|]. intros t' Ht'. eapply HQ; [exact Ht'|].
    destruct (voted_early owner st b) as [He Hp]. split; [by apply early_probe|done].
  - intros e t [He (c' & l & Ht & Hea)]. eapply wpx_sset; [exact Ht|done|done|]. intros t' Ht'.
    eapply HQ; [exact Ht'|]. split; [by apply early_probe|]. simpl. by destruct (Z.eqb_spec e 0).
Qed.

(** *** Admission *)

Definition alloc_l (a : bool) : ledger := Eval cbv in
  (ledger_free a) <| l_ctx := true |> <| l_maps := [WRouter] |> <| l_owner := 1 |>.
Definition found_l (a : bool) : ledger := Eval cbv in (alloc_l a) <| l_pdev := 1 |>.
(** The state that a failed preparation leaves, with the errno still to be
    noted. *)
Definition refused (st e : Z) t : Prop :=
  ∃ c q h l, at_ false (Ghost c q h l) t ∧ cx_state c = st ∧ good (Ghost c (q <| pr_error := e |>) h l).
Ltac good_now := split; (constructor; cbn; try done; intuition (try done)).
Ltac refused_now := eexists _, _, _, _; split; [eassumption|]; split; [done|good_now].
Lemma wp_release_early owner st a h s (Q : unit → psys W → Prop) :
  at_ false (Ghost (prep_c owner st false) prep_q h (found_l a)) s → (a = true → h = true) →
  (∀ b h t, at_ false (Ghost (prep_c owner st b) prep_q h (prep_l b)) t → Q tt t) →
  wp x1_pcie_release_early Q (refused st) s.
Proof.
  unfold found_l. intros Hs Ha HQ. unfold x1_pcie_release_early. apply wp_bind, wp_get.
  assert (y_reset_held s = h) as -> by by destruct Hs as (? & _ & _ & _ & ? & _).
  destruct h; simpl.
  2: { apply wp_ret, (HQ false false). destruct a; [by specialize (Ha eq_refl)|]. exact Hs. }
  unfold prep_c in Hs. wpx_calle refused_now. wpx_cset. wpx_calle refused_now. wpx_call0.
  eapply wpx_held; [eassumption|]. intros t' Ht'. by apply (HQ true false).
Qed.

Lemma tried_good st c q h l : tried st c q l → good (Ghost c q h l).
Proof.
  intros [[_ [] [Hr He] Hc [Hs Hrr] (? & ? & ? & ? & ?) (? & ? & ? & ? & ? & ? & ? & ?)] Hp].
  apply orb_false_iff in Hc as [Hc Hb]. split; [done|]. constructor; simpl.
  - by rewrite Hr, He.
  - rewrite He. by intros [].
  - by rewrite Hc, Hb.
  - intros _ [[? ?]|?]; [by apply Hp|congruence].
  - congruence.
  - done.
  - done.
  - congruence.
  - congruence.
  - congruence.
  - congruence.
  - congruence.
  - congruence.
  - congruence.
Qed.
Lemma good_error c q h l e :
  good (Ghost c q h l) → e ≠ 0 → good (Ghost c (q <| pr_error := e |>) h l).
Proof.
  intros [[] []] He. split; constructor; try done. simpl in *. intros Hp [[_ ?]|?]; [done|]. auto.
Qed.
(** The driver stays bound, or its mappings are gone and an errno is noted. *)
Lemma tried_bound st c q h l :
  tried st c q l →
  good (Ghost (c <| cx_window := false |> <| cx_driver_registered := true |> <| cx_maps := cx_maps c |>) q h
    (l <| l_driver := true |>)).
Proof.
  intros Ht. destruct (tried_good st c q h l Ht) as [B S].
  assert (cx_pdev c = true) as Hd.
  { destruct Ht as [[_ B' _ _ _ (_ & _ & _ & Hp & _) _] _]. rewrite (bk_pdev _ _ _ B') in Hp. by destruct (cx_pdev c). }
  destruct B, S. split; by constructor.
Qed.
Lemma tried_unbound st c q h l e :
  tried st c q l → e ≠ 0 →
  good (Ghost (c <| cx_window := false |> <| cx_driver_registered := false |> <| cx_maps := [WRouter] |>)
    (q <| pr_error := e |>) h (drop_devres l)).
Proof.
  intros Ht He. destruct (tried_good st c q h l Ht) as [[] []].
  destruct Ht as [[_ _ _ _ _ (_ & _ & _ & _ & Hd) (Hi & _)] _]. split; constructor; try done; simpl in *.
  intros _ [[_ ?]|?]; congruence.
Qed.
Lemma wp_prepare_body owner st a h s :
  at_ false (Ghost (pctx_zero owner st) prep_q h (alloc_l a)) s → (a = true → h = true) →
  wp (prepare_admitted st) (λ _ t, ∃ k, at_ false k t ∧ cx_state (g_c k) = st ∧ good k ∧ pr_error (g_q k) = 0) (refused st) s.
Proof.
  unfold alloc_l. intros Hs Ha. unfold prepare_admitted, pctx_zero in *.
  apply wp_bind. eapply wpx_call; [exact Hs|wpx_quiet|done|done|]. clear s Hs. intros r s Hs. cbv beta.
  apply wp_bind, wp_ok_or_fail; intros Hr.
  2: { rewrite effect_failed in Hs by done. refused_now. }
  subst r. ghost_in Hs.
  apply wp_bind, wp_get. wpx_cset.
  apply wp_bind. eapply (wp_release_early owner st a); [eassumption|done|]. clear. intros b h s Hs.
  apply wp_bind. eapply wpx_cset_same; [exact Hs|done|done|]. clear s Hs. intros s Hs.
  apply wp_bind, wp_get. apply wp_bind.
  apply wp_mono with (Q := λ _ t, ∃ c q l, at_ false (Ghost c q h l) t ∧ tried st c q l) (E := λ _ _, False); [| |done].
  { case_match.
    - eapply wp_prepare_probe; [exact Hs|]. intros c q l t Ht Htr. by exists c, q, l.
    - apply wp_ret. eexists _, _, _. split; [exact Hs|]. split; [by repeat constructor|done]. }
  clear s Hs. intros _ s (c & q & l & Hs & Ht). assert (cx_state c = st) as Est by apply Ht. pose proof (good_quiet _ (tried_good st c q h l Ht)) as Hq.
  apply wp_bind. eapply wpx_call; [exact Hs|exact Hq|done| |].
  { simpl. destruct Ht as [[_ _ _ _ _ (_ & _ & _ & -> & ->) _] _]. done. }
  clear s Hs. intros r s Hs. cbv beta. unfold effect in Hs. destruct (Z.eqb_spec r 0) as [->|Hr].
  - apply wp_bind. eapply wpx_cset; [exact Hs|norm_set|done|done|]. clear s Hs. intros s Hs. cbv beta.
    apply wp_bind, wp_ret. apply wp_bind. eapply wpx_cget; [exact Hs|]. intros c' _. apply wp_bind.
    eapply wpx_sget; [exact Hs|]. intros q' Nq. pose proof (tried_bound st c q h l Ht) as Hg. case_match.
    + apply wp_ok_or_fail; intros Hr.
      * eexists. split; [exact Hs|]. split; [exact Est|]. split; [exact Hg|].
        exact (eq_trans (eq_sym (f_equal pr_error Nq)) Hr).
      * eexists _, _, _, _. split; [exact Hs|]. split; [exact Est|]. by apply good_error.
    + apply wp_fail. eexists _, _, _, _. split; [exact Hs|]. split; [exact Est|]. by apply good_error.
  - apply wp_bind. eapply wpx_cset; [exact Hs|norm_set|done|done|]. clear s Hs. intros s Hs. cbv beta.
    apply wp_bind. unfold ok_or_fail. rewrite (proj2 (Z.eqb_neq r 0) Hr). apply wp_fail.
    eexists _, _, _, _. split; [exact Hs|]. split; [exact Est|]. by apply (tried_unbound st).
Qed.

End prepare.

Section once.
Context {W : Type} `{PcieEnv W}.
Implicit Types s t : psys W.
Lemma stays_prepare_once owner st inventory : stays pinv (x1_pcie_prepare_once owner st inventory).
Proof.
  intros s Hs. unfold x1_pcie_prepare_once. case_match; [by apply wp_fail|]. apply wp_bind, wp_get.
  case_match; [by apply wp_fail|]. case_match eqn:Eg; [by apply wp_fail|].
  apply orb_false_iff in Eg as [Ea Ec]. apply bool_decide_eq_false in Ec.
  destruct Hs as [(a & h & (Hc & Nl & Hok & Hh & _) & Hah & Hpr)|(k & (c & Hc & _) & _)];
    [|by rewrite Hc in Ec; destruct Ec].
  destruct (Hpr st Ea) as (g & v & rr & Eq).
  set (m := upd_rec st (λ q, q <| pr_attempted := true |>) (y_states s)).
  assert (∀ n, pr_attempted (m n) = false → ∃ g v r, m n = pcie_rec_zero g v r) as Hm.
  { intros n. unfold m, upd_rec. destruct (Z.eqb_spec n st) as [->|]; [done|apply Hpr]. }
  apply wp_bind, wp_modify, wp_recording. apply wp_bind.
  eapply (wp_gone_call (ledger_free a) h m); [done..|].
  intros r t (Hc' & Nl' & Hok' & Hh' & Em) Hpl. cbv beta.
  assert (∀ f t', (∀ q, pr_attempted (f q) = pr_attempted q) → y_states t' = upd_rec st f m → pristine t') as Hpr'.
  { intros f t' Hf Et n. rewrite Et. unfold upd_rec. destruct (Z.eqb_spec n st) as [->|]; [|apply Hm].
    rewrite Hf. unfold m, upd_rec. by rewrite Z.eqb_refl. }
  destruct (Z.eqb_spec r 0) as [->|Hr].
  { apply wp_fail. left. exists a, h.
    split; [split_and!; [exact Hc'|exact Nl'|exact Hok'|exact Hh'|reflexivity]|]. split; [done|].
    apply (Hpr' (λ q, q <| pr_error := -ENOMEM |>)); [done|]. simpl. by rewrite Em. }
  specialize (Hpl eq_refl Hr).
  apply wp_bind, wp_modify, wp_bind, wp_modify, wp_bind. unfold plog. apply wp_modify. cbv beta.
  eapply wp_mono; [apply (wp_prepare_body g owner st a h); [|done]| |].
  - exists (pctx_zero owner st). simpl. rewrite ledger_at_snoc.
    unfold effect in Nl'. rewrite (proj2 (Z.eqb_neq r 0) Hr) in Nl'. split_and!; try done.
    + unfold upd_rec. rewrite Z.eqb_refl, Em. unfold m, upd_rec. rewrite Z.eqb_refl, Eq. done.
    + etrans; [exact (norml_effect _ _ OwnerGet 0 Nl' eq_refl)|]. done.
    + simpl. by rewrite Hok', (f_equal l_ctx Nl' : l_ctx (ledger_at _) = _), (f_equal l_owner Nl' : l_owner (ledger_at _) = _).
    + eapply Hpr'; [|simpl; by rewrite Em]. done.
  - intros _ t' ([c q h' l] & Ht & Est & Hg & He). right. simpl in *. subst st. eexists. split; [by apply (at_upd c q h' l)|].
    replace (q <| pr_error := 0 |>) with q; [done|]. destruct q. simpl in *. by subst.
  - intros e t' (c & q & h' & l & Ht & Est & Hg). right. subst st. eexists. by split; [by apply (at_upd c q h' l)|].
Qed.
End once.
