(* ===== verification/HostPcieBatch.v ===== *)
(** * The PCIe side: the batch keeps the invariant *)

From S2P Require Import Prelude Wp HostData HostPcie HostPcieLogic HostPcieInv HostPcieSteps.

(** ** Changes of the invariant's terms *)

Ltac good_tac := intros [[] []]; intros; split; constructor; try done; simpl in *; try done; intuition (try done).

(** In the batch, before anything is published. *)
Record batching (c : pctx) (q : pcie_rec) (l : ledger) : Prop := Batching {
  ba_good : ∀ h, good (Ghost c q h l);
  ba_rec : pr_inventory_attempted q = true ∧ pr_platform_retire_attempted q = false ∧
    pr_nvme_bind_attempted q = false ∧ pr_host_prepared q = false ∧ pr_pci_retired q = false;
  ba_ctx : cx_endpoint c = None ∧ cx_config_open c = false;
  ba_ledger : l_seen l = false ∧ l_bus l = O;
}.
Lemma good_failed c q h l e :
  pr_inventory_attempted q = true → good (Ghost c q h l) → good (Ghost c (q <| pr_error := e |>) h l).
Proof. intros Hi [[] []]. split; constructor; try done. simpl in *. intros Hr _. auto. Qed.

Lemma batch_begins c q h l :
  good (Ghost c q h l) → pr_prepared q = true → pr_error q = 0 → pr_inventory_attempted q = false →
  pr_platform_retire_attempted q = false →
  batching (c <| cx_batch_active := true |> <| cx_inventory := Some inventory_zero |>)
    (q <| pr_inventory_attempted := true |>) l.
Proof.
  intros [B S] Hp He Hi Hr. simpl in *.
  destruct (sg_fresh _ _ _ S Hi) as (Hep & Hse & Hbu & Hre & Hba & Hhp & Hpr & Hra).
  destruct (sg_unbound _ _ _ S Hba) as (Hat & Hss & Hbw & Hfe & Hnb).
  assert (cx_config_open c = false) as Ho.
  { destruct (cx_config_open c) eqn:Eo; [|done]. destruct (sg_open _ _ _ S) as (_ & _ & ?); [by rewrite Eo|congruence]. }
  pose proof (sg_on _ _ _ S Hr (or_introl (conj Hp He))) as Hon.
  split; [|done..]. intros h'. destruct B, S. split; constructor; try done; simpl in *; try congruence.
Qed.

Section batch.
Context {W : Type} `{PcieEnv W}.
Notation MP := (M (psys W)).
Implicit Types s t : psys W.

Lemma batching_quiet c q h l : batching c q l → quiet (Ghost c q h l).
Proof. intros [Hg _ _ _]. by apply good_quiet. Qed.
Lemma batching_avail c q h l : batching c q l → avail (Ghost c q h l).
Proof.
  intros [Hg (Hi & Hr & Hb & _) _ _]. destruct (Hg h) as [B S]. apply provided_avail; [|..|apply B].
  - apply (sg_on _ _ _ S); [done|by right].
  - exact (eq_trans (bk_fenced _ _ _ B) (proj1 (proj2 (proj2 (proj2 (sg_unbound _ _ _ S Hb)))))).
Qed.
Lemma batching_inventory c q l : batching c q l → is_Some (cx_inventory c).
Proof. intros [Hg (Hi & _) _ _]. destruct (Hg false) as [B S]. by apply (sg_inventory _ _ _ S). Qed.

(** ** The receiver *)

Definition kept_l (l : ledger) : ledger :=
  l <| l_module := 1 |> <| l_owner_forbidden := true |> <| l_forbidden := true |>.
Lemma batching_kept c q l :
  batching c q l → cx_receiver_retained c = false →
  batching (c <| cx_receiver_retained := true |>) q (kept_l l).
Proof.
  intros [Hg Hr Hc Hl] Hre. split; [|done..]. intros h. destruct (Hg h) as [[] []].
  split; constructor; try done; simpl in *; intuition congruence.
Qed.
(** Not retained, or retained. *)
Definition retaining c q h l s : Prop :=
  at_ false (Ghost c q h l) s ∨
  (cx_receiver_retained c = false ∧ at_ false (Ghost (c <| cx_receiver_retained := true |>) q h (kept_l l)) s).
Lemma stays_retaining {A} h (m : MP A) c q l :
  (∀ c q l, batching c q l → stays (at_ false (Ghost c q h l)) m) → batching c q l → stays (retaining c q h l) m.
Proof.
  intros Hm Hb s [Hs|[Hr Hs]].
  - eapply wpx_stays; [exact Hs|by apply Hm|by left|by left].
  - eapply wpx_stays; [exact Hs|by apply Hm, batching_kept|by right|by right].
Qed.
Lemma batching_live c q h l : batching c q l → stays (at_ (W := W) false (Ghost c q h l)) x1_pcie_receiver_live.
Proof. intros Hb. apply stays_receiver_live; [by apply batching_avail|by apply batching_quiet]. Qed.
Lemma batching_active c q l : batching c q l → l_active l = true.
Proof. intros Hb. destruct (batching_avail c q false l Hb) as [Hp _]. unfold powered in Hp. simpl in Hp. by destruct (l_active l). Qed.

Lemma wp_retain c q h l s :
  batching c q l → at_ false (Ghost c q h l) s →
  wp x1_pcie_receiver_retain (λ _, retaining c q h l) (λ _, retaining c q h l) s.
Proof.
  intros Hb Hs. unfold x1_pcie_receiver_retain. pose proof (batching_quiet c q h l Hb) as Hq.
  apply wp_bind. eapply wpx_stays; [exact Hs|by apply batching_live| |by left]. clear s Hs. intros _ s Hs.
  apply wp_bind. eapply wpx_stays; [exact Hs|by apply stays_call; [| |apply Hq]| |by left]. clear s Hs. intros r s Hs.
  apply wp_bind. eapply wpx_cget; [exact Hs|]. intros c' Nc.
  pose proof (f_equal cx_receiver_retained Nc : cx_receiver_retained c' = cx_receiver_retained c) as Er.
  case_match eqn:Eg; [apply wp_fail; by left|]. rewrite !orb_false_iff in Eg. destruct Eg as [[Er' _] _].
  assert (l_module l = 0) as Hm.
  { destruct Hb as [Hg _ _ _]. destruct (Hg h) as [B _]. pose proof (bk_module _ _ _ B) as Hm. simpl in Hm.
    by rewrite Hm, <- Er, Er'. }
  apply wp_bind. eapply wpx_call; [exact Hs|done|done|simpl; by rewrite Hm|]. clear s Hs. intros got s Hs.
  unfold effect in Hs. cbv beta. case_match eqn:Eg; [apply wp_fail; by left|].
  destruct (ba_ctx _ _ _ Hb) as [Hep Hop]. pose proof (batching_active _ _ _ Hb) as Hact.
  assert (cx_bind_writes c = false) as Hbw.
  { destruct Hb as [Hg (_ & _ & Hba & _) _ _]. destruct (Hg h) as [_ S]. by apply (sg_unbound _ _ _ S). }
  assert (l_ctx l = true) as Hlc by apply Hq.
  apply wp_bind. eapply wpx_call0; [exact Hs|apply quiet_closed; simpl; by rewrite ?Hop, ?Hbw|done|done|].
  clear s Hs. intros r1 s Hs. cbv beta.
  apply wp_bind. eapply wpx_call0; [exact Hs|apply quiet_closed; simpl; by rewrite ?Hop, ?Hbw|done|done|].
  clear s Hs. intros r2 s Hs. cbv beta. eapply wpx_cset; [exact Hs|norm_set|done|done|]. clear s Hs. intros s Hs.
  right. split; [congruence|]. unfold effect in Hs. rewrite Hm in Hs. exact Hs.
Qed.
Lemma stays_retain c q h l : batching c q l → stays (retaining c q h l) x1_pcie_receiver_retain.
Proof.
  intros Hb s [Hs|[Hr Hs]]; [by apply wp_retain|].
  eapply wp_mono; [by apply wp_retain; [apply batching_kept|]| |].
  all: intros x t [Ht|[Hr' _]]; [by right|done].
Qed.
Lemma stays_imsi_io c q h l r : batching c q l → stays (retaining c q h l) (imsi_io r).
Proof.
  intros Hb.
  assert (∀ c q l, batching c q l → l_seen l = false) as Hl by by intros ? ? ? [_ _ _ [? _]].
  destruct r as [phase|region off|region off v|ms]; simpl.
  - apply stays_unit0. destruct (phase =? 0); [|destruct (phase =? 1); [by apply stays_retain|destruct (phase =? 2)]].
    all: apply stays_retaining; [|done]; clear - Hl; intros c q l Hb.
    1: by apply batching_live.
    all: apply stays_seq; [|intros; apply stays_ok]; apply stays_io; intros r;
      apply stays_policy_io; [by apply batching_avail|by apply batching_quiet|by eapply Hl].
  - apply stays_retaining; [|done]. intros. by apply stays_rd, batching_avail.
  - apply stays_unit0, stays_retaining; [|done]. clear - Hl. intros c q l Hb.
    apply stays_wr; [by apply batching_avail|by eapply Hl].
  - apply stays_unit0, stays_retaining; [|done]. intros. by apply stays_sleep, batching_quiet.
Qed.
Lemma stays_retaining_cset c q h l f :
  (∀ c, norm (f c) = norm c) → (∀ c, cx_pulled (f c) = cx_pulled c) → batching c q l →
  stays (retaining c q h l) (cset f).
Proof. intros Hf Hp. apply stays_retaining. intros. by apply stays_cset. Qed.
Lemma stays_retaining_sset c q h l f :
  (∀ q, normq (f q) = normq q) → batching c q l → stays (retaining c q h l) (sset f).
Proof. intros Hf. apply stays_retaining. intros. by apply stays_sset. Qed.
Lemma stays_retaining_cget {A} c q h l (f : pctx → MP A) :
  (∀ c', stays (retaining c q h l) (f c')) → stays (retaining c q h l) (bind cget f).
Proof.
  intros Hf s Hs. apply wp_bind. unfold wp at 1, cget.
  destruct Hs as [Hs|[Hr Hs]]; destruct (at_ctx _ _ _ Hs) as (c' & -> & _); apply Hf; [by left|by right].
Qed.
Lemma stays_receiver_prepare c q h l : batching c q l → stays (retaining c q h l) x1_pcie_receiver_prepare.
Proof.
  intros Hb. unfold x1_pcie_receiver_prepare. apply stays_retaining_cget. intros c'. case_match; [apply stays_fail|].
  apply stays_seq.
  { apply stays_strict, stays_retaining; [|done]. intros. apply stays_window; [by apply batching_avail|by apply batching_quiet]. }
  intros _. apply stays_seq.
  { apply stays_retaining; [|done]. intros ? ? ? Hb'. apply stays_call; [by apply batching_quiet|done|].
    by destruct (batching_avail _ _ h _ Hb'). }
  intros b. case_match; [apply stays_fail|].
  apply stays_seq; [by apply stays_retaining_cset|intros _].
  apply stays_seq; [by apply stays_retaining_sset|intros _].
  apply stays_seq; [by apply stays_io; intros; apply stays_imsi_io|intros d].
  apply stays_seq; [by apply stays_retaining_cset|intros _].
  apply stays_seq; [by apply stays_retaining; [intros; apply stays_cached|]|intros _].
  apply stays_strict, stays_seq; [apply stays_ok|intros _].
  apply stays_retaining; [|done]. intros. by apply batching_live.
Qed.

(** ** The scan *)

(** Configuration space is open; [n] is 0 before and 1 after the scan. *)
Definition opened (c : pctx) : pctx := c <| cx_config_open := true |> <| cx_scan_writes := true |>.
Lemma good_opened c q h l n :
  batching c q l → (n ≤ 1)%nat → good (Ghost (opened c) q h (l <| l_open := true |> <| l_bus := n |>)).
Proof.
  intros [Hg (Hi & Hr & Hb & Hh & Hp) [He Ho] [Hl Hbu]] Hn. destruct (Hg h) as [[] []]. simpl in *.
  split; constructor; try done; simpl in *; intuition congruence.
Qed.
(** The two devices are known. *)
Definition named (c : pctx) (r e : Z) : pctx := (opened c) <| cx_root_port := Some r |> <| cx_endpoint := Some e |>.
Definition named_l (l : ledger) (r e : Z) : ledger :=
  l <| l_open := true |> <| l_bus := 1%nat |> <| l_pci := [r; e] |> <| l_seen := true |>.
Lemma good_named c q h l r e : batching c q l → good (Ghost (named c r e) q h (named_l l r e)).
Proof.
  intros [Hg (Hi & Hr & Hb & Hh & Hp) [He Ho] [Hl Hbu]]. destruct (Hg h) as [[] []]. simpl in *.
  split; constructor; try done; simpl in *; intuition congruence.
Qed.
Lemma good_prepared c q h l r e :
  batching c q l → good (Ghost (named c r e) (q <| pr_host_prepared := true |>) h (named_l l r e)).
Proof.
  intros Hb. pose proof (good_named c q h l r e Hb) as [[] []]. destruct Hb as [_ (Hi & Hr & Hbi & Hh & Hp) _ _].
  split; constructor; try done; simpl in *; intuition congruence.
Qed.

(** What a batch may leave. *)
Definition begun t : Prop :=
  ∃ c q h l, at_ false (Ghost c q h l) t ∧ good (Ghost c q h l) ∧ pr_inventory_attempted q = true.

Lemma wp_scan_identity c q h l s (Q : unit → psys W → Prop) (E : Z → psys W → Prop) :
  batching c q l → at_ false (Ghost (opened c) q h (l <| l_open := true |> <| l_bus := 1%nat |>)) s →
  (∀ r e t, at_ false (Ghost (named c r e) q h (named_l l r e)) t → Q tt t) →
  (∀ e t, at_ false (Ghost (opened c) q h (l <| l_open := true |> <| l_bus := 1%nat |>)) t → E e t) →
  wp x1_pcie_scan_identity Q E s.
Proof.
  intros Hb Hs HQ HE. unfold x1_pcie_scan_identity.
  apply wp_bind. eapply wpx_cget; [exact Hs|]. intros c' Nc.
  destruct (norm_fields _ _ Nc) as (_ & _ & _ & Er & Ee & _ & _ & [_ Hi]).
  destruct Hi as [inv Ei]; [by apply (batching_inventory c q l)|]. rewrite Ei.
  apply wp_bind, wp_bind, wp_get, wp_ret. destruct (two_devices _ inv) as [[r e]|]; [|by apply wp_fail, HE].
  destruct (ba_ctx _ _ _ Hb) as [Hep _]. destruct (ba_good _ _ _ Hb h) as [B S].
  assert (cx_root_port c = None) as Hro.
  { destruct (cx_root_port c) eqn:Eq; [|done]. destruct (sg_pair _ _ _ S) as [Hp _]. simpl in Hp.
    rewrite Eq, Hep in Hp. by destruct Hp. }
  assert (l_pci l = []) as Hpci.
  { pose proof (bk_pci _ _ _ B) as Hp. simpl in Hp. rewrite Hp. unfold pci_refs. by rewrite Hro. }
  simpl in Er, Ee. rewrite Er, Ee, Hro, Hep. simpl.
  apply wp_bind. eapply wpx_plog; [exact Hs|done|simpl; by rewrite Hpci|]. clear s Hs. intros s Hs. cbv beta.
  apply wp_bind. eapply wpx_plog; [exact Hs|done|simpl; by rewrite Hpci|]. clear s Hs. intros s Hs. cbv beta.
  eapply wpx_cset; [exact Hs|norm_set|done|done|]. clear s Hs. intros s Hs. apply (HQ r e).
  replace (named_l l r e) with (effect (effect (l <| l_open := true |> <| l_bus := 1%nat |>) (PciGet r, 0)) (PciGet e, 0));
    [exact Hs|]. clear - Hpci. destruct l. simpl in Hpci. by subst.
Qed.
Lemma stays_scan_identity u k :
  is_Some (cx_inventory (g_c k)) → is_Some (cx_endpoint (g_c k)) → stays (at_ (W := W) u k) x1_pcie_scan_identity.
Proof.
  intros Hi [e He]. unfold x1_pcie_scan_identity. apply stays_cget. intros c Nc.
  destruct (norm_fields _ _ Nc) as (_ & _ & _ & Er & Ee & _ & _ & [_ Hi']).
  destruct (Hi' Hi) as [inv ->]. rewrite Ee, He, orb_true_r. unfold bridge_bus. stay.
Qed.

(** A published pair: everything is on, and configuration space is open. *)
Record published (k : ghost) (r e : Z) : Prop := Published {
  pu_quiet : quiet k;
  pu_avail : avail k;
  pu_inventory : is_Some (cx_inventory (g_c k));
  pu_devices : cx_root_port (g_c k) = Some r ∧ cx_endpoint (g_c k) = Some e;
  pu_ledger : l_open (g_l k) = true ∧ l_pci (g_l k) = [r; e];
}.
Lemma published_held k r e d : published k r e → d ∈ [r; e] → held_dev (g_l k) d = true.
Proof. intros [_ _ _ _ [_ Hp]] Hd. unfold held_dev. rewrite Hp. by apply bool_decide_true. Qed.
Lemma wp_the_devices k r e s (Q : Z * Z → psys W → Prop) E :
  published k r e → at_ false k s → Q (r, e) s → wp the_devices Q E s.
Proof.
  intros [_ _ _ [Hr He] _] Hs HQ. unfold the_devices. apply wp_bind. eapply wp_cget; [exact Hs|].
  intros c Nc _ _. destruct (norm_fields _ _ Nc) as (_ & _ & _ & -> & -> & _). by rewrite Hr, He.
Qed.
Lemma stays_published_bars k r e : published k r e → stays (at_ false k) x1_pcie_assigned_bars.
Proof. intros [_ ? ? [Hr He] _]. apply stays_assigned_bars; [done|done|by rewrite Hr|by rewrite He]. Qed.
Lemma stays_published_identity k r e : published k r e → stays (at_ (W := W) false k) x1_pcie_scan_identity.
Proof. intros [_ _ ? [_ He] _]. apply stays_scan_identity; [done|by rewrite He]. Qed.

Lemma good_avail c q h l :
  good (Ghost c q h l) → cx_config_open c = true → avail (Ghost c q h l) ∧ is_Some (cx_inventory c).
Proof. intros Hg Ho. destruct (good_quiet _ Hg) as (_ & Hk & _). apply Hk. simpl. by rewrite Ho. Qed.
Lemma named_published c q h l r e : batching c q l → published (Ghost (named c r e) q h (named_l l r e)) r e.
Proof.
  intros Hb. pose proof (good_named c q h l r e Hb) as Hg. destruct (good_avail _ _ _ _ Hg) as [? ?]; [done|].
  split; try done. by apply good_quiet.
Qed.
Lemma wp_after (P : psys W → Prop) {A B} (m : MP A) (k : A → MP B) Q (E : Z → psys W → Prop) s :
  P s → (∀ e t, P t → E e t) → stays P m → (∀ a t, P t → wp (k a) Q E t) → wp (bind m k) Q E s.
Proof. intros Hs HE Hm Hk. apply wp_bind, (stays_wp P); [done|done|done|done]. Qed.
Lemma wp_scan_locked c q h l s :
  batching c q l → at_ false (Ghost (opened c) q h (l <| l_open := true |>)) s →
  wp scan_locked (λ _, begun) (λ _, begun) s.
Proof.
  intros Hb Hs. destruct (ba_rec _ _ _ Hb) as [Hia _]. destruct (ba_ledger _ _ _ Hb) as [_ Hbus].
  assert (good (Ghost (opened c) q h (l <| l_open := true |>))) as Hg0.
  { pose proof (good_opened c q h l 0 Hb) as Hg. destruct l. simpl in *. subst. apply Hg. lia. }
  unfold scan_locked.
  apply wp_bind. eapply wpx_call; [exact Hs|by apply good_quiet|done|simpl; by rewrite Hbus|].
  clear s Hs Hg0. intros r s Hs. cbv beta.
  change (effect (l <| l_open := true |>) (ScanBus, r)) with (l <| l_open := true |> <| l_bus := 1%nat |>) in Hs.
  set (K := Ghost (opened c) q h (l <| l_open := true |> <| l_bus := 1%nat |>)) in Hs.
  assert (∀ t, at_ false K t → begun t) as HE.
  { intros t Ht. eexists _, _, _, _. split; [exact Ht|]. split; [by apply good_opened; [|lia]|done]. }
  eapply (wp_after (at_ false K)); [done|by intros; apply HE|apply stays_no_bus|]. clear s Hs. intros none s Hs.
  eapply (wp_after (at_ false K)); [done|by intros; apply HE|by apply stays_sset|]. clear s Hs. intros _ s Hs.
  eapply (wp_after (at_ false K)); [done|by intros; apply HE|apply stays_ok|]. clear s Hs. intros _ s Hs.
  eapply (wp_after (at_ false K)); [done|by intros; apply HE|apply stays_no_cfg_error|]. clear s Hs. intros _ s Hs.
  apply wp_bind. eapply wp_scan_identity; [exact Hb|exact Hs| |by intros; apply HE].
  clear s Hs HE K r none. intros r e s Hs.
  set (K := Ghost (named c r e) q h (named_l l r e)) in Hs. pose proof (named_published c q h l r e Hb : published K r e) as Hp.
  assert (∀ t, at_ false K t → begun t) as HE.
  { intros t Ht. eexists _, _, _, _. split; [exact Ht|]. split; [by apply good_named|done]. }
  apply wp_bind. eapply wp_the_devices; [exact Hp|exact Hs|]. simpl fst. simpl snd.
  pose proof (stays_published_bars _ _ _ Hp) as Hba. pose proof (stays_published_identity _ _ _ Hp) as Hi.
  pose proof (stays_batch_live K (pu_avail _ _ _ Hp) (pu_quiet _ _ _ Hp)) as Hl.
  pose proof (stays_no_cfg_error (W := W) K) as Hn. pose proof (pu_quiet _ _ _ Hp) as Hq.
  pose proof (published_held K r e r Hp ltac:(set_solver)) as Hr. pose proof (published_held K r e e Hp ltac:(set_solver)) as He.
  repeat lazymatch goal with
  | |- wp (bind _ _) _ _ _ =>
      eapply (wp_after (at_ false K)); [eassumption|by intros; apply HE| |intros ? ? ?]
  end.
  all: try first [assumption|apply stays_calle; [done|done|done]|apply stays_call0; [done|done|done]|by apply stays_cset].
  eapply wpx_sset; [eassumption|done|done|]. intros t' Ht. eexists _, _, _, _. split; [exact Ht|].
  split; [by apply good_prepared|done].
Qed.

Lemma wp_host_scan c q h l s :
  batching c q l → at_ false (Ghost c q h l) s → wp x1_pcie_host_scan (λ _, begun) (λ _, begun) s.
Proof.
  intros Hb Hs. destruct (ba_rec _ _ _ Hb) as [Hia _]. destruct (ba_ledger _ _ _ Hb) as [Hse Hbus].
  destruct (ba_ctx _ _ _ Hb) as [_ Hop].
  assert (∀ t, at_ false (Ghost c q h l) t → begun t) as HB.
  { intros t Ht. eexists _, _, _, _. split; [exact Ht|]. split; [by apply ba_good|done]. }
  unfold x1_pcie_host_scan. apply wp_bind. eapply wpx_sget; [exact Hs|]. intros q' _.
  case_match; [by apply wp_fail, HB|].
  apply wp_bind. eapply wpx_sset_same; [exact Hs|done|]. clear s Hs. intros s Hs. apply wp_bind, wp_attempt.
  assert (∀ e t, begun t → wp (do! cset (λ c, c <| cx_scan_writes := false |>) in
    do! sset (λ q, q <| pr_host_error := e |>) in ok_or_fail e) (λ _, begun) (λ _, begun) t) as Hend.
  { intros e t (c' & q1 & h' & l' & Ht & Hg & Hi).
    apply wp_bind. eapply wpx_cset_same; [exact Ht|done|done|]. intros t1 H1.
    apply wp_bind. eapply wpx_sset_same; [exact H1|done|]. intros t2 H2.
    apply wp_ok_or_fail; intros _; by exists c', q1, h', l'. }
  eapply (wp_after (at_ false (Ghost c q h l))); [exact Hs|by intros; apply Hend, HB| |].
  { apply stays_scan_mem; [by apply batching_avail|by apply batching_quiet|done|by eapply batching_inventory]. }
  clear s Hs. intros _ s Hs. apply wp_bind. eapply wpx_cset_same; [exact Hs|done|done|].
  clear s Hs. intros s Hs. apply wp_bind. eapply wpx_cset; [exact Hs|norm_set|done|done|].
  clear s Hs. intros s Hs. cbv beta. apply wp_bind. eapply wpx_plog; [exact Hs|done| |].
  { destruct (ba_good _ _ _ Hb h) as [B _]. destruct (batching_avail c q h l Hb) as (Hp & Hf & _).
    pose proof (bk_open _ _ _ B) as Ho. simpl in *. by rewrite Hp, Ho, Hop, Hf, Hbus. }
  clear s Hs. intros s Hs. cbv beta.
  eapply wp_mono; [exact (wp_scan_locked c q h l s Hb Hs)| |]; intros; by apply Hend.
Qed.

(** ** The batch *)

Lemma at_norm c c' q h l s : norm c = norm c' → at_ (W := W) false (Ghost c q h l) s → at_ false (Ghost c' q h l) s.
Proof. intros E (c0 & ? & Nc & Hr). exists c0. split; [done|]. split; [by etrans|]. exact Hr. Qed.
Lemma norm_inventory c d : is_Some (cx_inventory c) → norm (c <| cx_inventory := Some d |>) = norm c.
Proof. intros [i Hi]. unfold norm. simpl. by rewrite Hi. Qed.
Lemma wp_batch_steps c q h l vendor device s :
  batching c q l → at_ false (Ghost c q h l) s → wp (batch_steps vendor device) (λ _, begun) (λ _, begun) s.
Proof.
  intros Hb Hs. destruct (ba_rec _ _ _ Hb) as [Hia _]. destruct (ba_ledger _ _ _ Hb) as [Hse _].
  set (K := Ghost c q h l) in Hs.
  assert (∀ t, at_ false K t → begun t) as HB.
  { intros t Ht. eexists _, _, _, _. split; [exact Ht|]. split; [by apply ba_good|done]. }
  pose proof (batching_avail c q h l Hb : avail K) as Hk. pose proof (batching_quiet c q h l Hb : quiet K) as Hq.
  pose proof (λ tr, stays_window K Hk Hq tr) as Hw.
  unfold batch_steps.
  eapply (wp_after (at_ false K)); [done|by intros; apply HB|apply Hw|]. clear s Hs. intros _ s Hs.
  eapply (wp_after (at_ false K)); [done|by intros; apply HB|by apply stays_io; intros; apply stays_train_io|].
  clear s Hs. intros t s Hs.
  eapply (wp_after (at_ false K)); [done|by intros; apply HB|by apply stays_cset|]. clear s Hs. intros _ s Hs.
  eapply (wp_after (at_ false K)); [done|by intros; apply HB|apply stays_ok|]. clear s Hs. intros _ s Hs.
  eapply (wp_after (at_ false K)); [done|by intros; apply HB|apply Hw|]. clear s Hs. intros _ s Hs.
  eapply (wp_after (at_ false K)); [done|by intros; apply HB|apply stays_sget|]. clear s Hs. intros q' s Hs.
  eapply (wp_after (at_ false K)); [done|by intros; apply HB| |].
  { unfold wanted. stay. by apply stays_inventory_read. }
  clear s Hs. intros id s Hs.
  eapply (wp_after (at_ false K)); [done|by intros; apply HB|by apply stays_io; intros; apply stays_inventory_io|].
  clear s Hs. intros d s Hs. apply wp_bind. eapply wpx_cset; [exact Hs|norm_set|done|done|].
  clear s Hs. intros s Hs. cbv beta.
  apply (at_norm _ c) in Hs; [|by apply norm_inventory; eapply batching_inventory]. fold K in Hs.
  eapply (wp_after (at_ false K)); [done|by intros; apply HB|apply stays_ok|]. clear s Hs. intros _ s Hs.
  eapply (wp_after (at_ false K)); [done|by intros; apply HB|apply Hw|]. clear s Hs. intros _ s Hs.
  assert (∀ t, retaining c q h l t → begun t) as HR.
  { intros t' [Ht|[Hr Ht]]; [by apply HB|]. eexists _, _, _, _. split; [exact Ht|].
    split; [by apply ba_good, batching_kept|done]. }
  eapply (wp_after (retaining c q h l)); [by left|by intros; apply HR|by apply stays_receiver_prepare|].
  clear s Hs. intros _ s Hs. case_match; [|by apply wp_ret, HR].
  destruct Hs as [Hs|[Hr Hs]]; [by eapply wp_host_scan|by eapply wp_host_scan; [apply batching_kept|]].
Qed.
Lemma wp_batch_inventory owner st vendor device s :
  caller_ok (PcInventory owner st vendor device) s = true → pinv s →
  wp (qcom_usb4_x1_batch_inventory owner st vendor device) (λ _, pinv) (λ _, pinv) s.
Proof.
  intros Hok Hs. unfold qcom_usb4_x1_batch_inventory. case_match; [by apply wp_fail|]. apply wp_bind, wp_get.
  case_match eqn:Eo; [by apply wp_fail|]. unfold ours in Eo.
  destruct Hs as [(a & h & (Hc & _) & _)|Hb]; [by rewrite Hc in Eo|].
  destruct (busy_now s Hb) as (c & Ec & Ha & Hg). rewrite Ec in Eo.
  apply negb_false_iff, andb_true_iff in Eo as [_ Est]. apply Z.eqb_eq in Est. subst st.
  simpl in Hok. apply negb_true_iff in Hok.
  apply wp_bind. unfold cget at 1, wp at 1. rewrite Ec. apply wp_bind. unfold wp at 1, sget, bind at 1, cget at 1.
  rewrite Ec. simpl. set (q := y_states s (cx_state c)) in *. set (l := ledger_at (y_log s)) in *.
  case_match eqn:Eg; [apply wp_fail; by right|]. rewrite !orb_false_iff, !negb_false_iff in Eg.
  destruct Eg as [[[[[_ Hp] He] _] _] _]. apply Z.eqb_eq in He.
  case_match eqn:Ei; [apply wp_fail; by right|].
  pose proof (batch_begins c q _ l Hg Hp He Ei Hok) as Hba. clear Hb.
  apply wp_bind. eapply wpx_sset; [exact Ha|done|done|]. clear Hok. intros t Ht. cbv beta.
  apply wp_bind. eapply wpx_cset; [exact Ht|norm_set|done|done|]. intros t1 H1. cbv beta. apply wp_bind, wp_attempt.
  assert (∀ e t, begun t → wp (do! cset (λ c, c <| cx_batch_active := false |>) in
    do! sset (λ q, q <| pr_error := e |>) in ok_or_fail e) (λ _, pinv) (λ _, pinv) t) as Hend.
  { intros e t' (c' & q1 & h' & l' & Ht' & Hg' & Hi).
    apply wp_bind. eapply wpx_cset_same; [exact Ht'|done|done|]. intros t2 H2.
    apply wp_bind. eapply wpx_sset; [exact H2|done|done|]. intros t3 H3.
    apply wp_ok_or_fail; intros _; (eapply busy_pinv; [exact H3|by apply good_failed]). }
  eapply wp_mono; [exact (wp_batch_steps _ _ _ _ vendor device _ Hba H1)| |]; intros; by apply Hend.
Qed.
End batch.
