(* ===== verification/HostPcieRetire.v ===== *)
(** * The PCIe side: binding, removal, fence and retirement keep the invariant *)

From S2P Require Import Prelude Wp HostData HostPcie HostPcieLogic HostPcieInv HostPcieSteps HostPcieBatch.

Section retire.
Context {W : Type} `{PcieEnv W}.
Notation MP := (M (psys W)).
Implicit Types s t : psys W.

(** ** Binding *)

Lemma has_both c : has_devices c = true → ∃ r e, cx_root_port c = Some r ∧ cx_endpoint c = Some e.
Proof.
  unfold has_devices. intros [He Hr]%andb_true_iff. apply bool_decide_eq_true in He as [e He], Hr as [r Hr].
  by exists r, e.
Qed.
(** An open and published pair. *)
Lemma good_published c q h l r e :
  good (Ghost c q h l) → cx_config_open c = true → cx_root_port c = Some r → cx_endpoint c = Some e →
  published (Ghost c q h l) r e.
Proof.
  intros Hg Ho Hr He. destruct (good_avail _ _ _ _ Hg Ho) as [? ?]. destruct (Hg) as [B S].
  split; try done; [by apply good_quiet|]. split; [exact (eq_trans (bk_open _ _ _ B) Ho)|].
  refine (eq_trans (bk_pci _ _ _ B) _). simpl. unfold pci_refs. by rewrite Hr, He.
Qed.

(** Ready for the binding. *)
Record bindable (c : pctx) (q : pcie_rec) (l : ledger) : Prop := Bindable {
  bi_good : ∀ h, good (Ghost c q h l);
  bi_rec : pr_inventory_attempted q = true ∧ pr_platform_retire_attempted q = false ∧
    pr_nvme_bind_attempted q = true ∧ pr_config_fenced q = false ∧ pr_nvme_bound q = false;
  bi_ctx : cx_config_open c = true ∧ cx_session c = false ∧ cx_bind_writes c = false;
  bi_ledger : l_attached l = false;
}.
Lemma bind_begins c q h l :
  good (Ghost c q h l) → pr_host_prepared q = true → pr_nvme_bind_attempted q = false → has_devices c = true →
  bindable c (q <| pr_nvme_bind_attempted := true |>) l.
Proof.
  intros [B S] Hh Hb (r & e & Hr & He)%has_both. simpl in *.
  destruct (sg_unbound _ _ _ S Hb) as (Ha & Hs & Hw & Hf & Hn). pose proof (sg_published _ _ _ S Hh Hf) as Ho.
  destruct (sg_open _ _ _ S) as (_ & Hp & Hi); [by rewrite Ho|].
  split; [|done..]. intros h'. destruct B, S. split; constructor; try done; simpl in *; congruence.
Qed.
(** Session [ss], driver writes [bw], attached [at'], bound [nb]. *)
Definition bind_c (c : pctx) (ss bw : bool) : pctx := c <| cx_session := ss |> <| cx_bind_writes := bw |>.
Definition bind_l (l : ledger) (ss bw at' : bool) : ledger :=
  l <| l_session := Z.b2z ss |> <| l_bind := bw |> <| l_attached := at' |>.
Lemma good_bind c q h l ss bw at' nb :
  bindable c q l → (nb = true → at' = true ∧ ss = negb (pr_general q)) → (pr_general q = true → ss = false) →
  good (Ghost (bind_c c ss bw) (q <| pr_nvme_bound := nb |>) h (bind_l l ss bw at')).
Proof.
  intros [Hg (Hi & Hp & Hb & Hf & Hn) (Ho & Hs & Hw) Ha] Hnb Hss. destruct (Hg h) as [[] []].
  split; constructor; try done; simpl in *; intuition congruence.
Qed.
Lemma bind_same c q l : bindable c q l → c = bind_c c false false ∧ q = q <| pr_nvme_bound := false |> ∧
  l = bind_l l false false false.
Proof.
  intros [Hg (Hi & Hp & Hb & Hf & Hn) (Ho & Hs & Hw) Ha]. destruct (Hg false) as [B _].
  pose proof (bk_session _ _ _ B) as Es. pose proof (bk_bind _ _ _ B) as Eb. clear B Hg. simpl in *.
  rewrite Hs in Es. rewrite Hw in Eb. split; [|split].
  - destruct c. simpl in *. by subst.
  - destruct q. simpl in *. by subst.
  - destruct l. simpl in *. by subst.
Qed.

Lemma wp_bind_steps c q h l q0 s r e :
  bindable c q l → pr_general q0 = pr_general q → cx_root_port c = Some r → cx_endpoint c = Some e →
  at_ false (Ghost c q h l) s →
  wp (bind_steps q0) (λ _ t, ∃ c q l, at_ false (Ghost c q h l) t ∧ good (Ghost c q h l) ∧ pr_inventory_attempted q = true)
    (λ _ t, ∃ c q l, at_ false (Ghost c q h l) t ∧ good (Ghost c q h l) ∧ pr_inventory_attempted q = true) s.
Proof.
  intros Hb Eg0 Hr He Hs. destruct (bi_rec _ _ _ Hb) as (Hi & _). destruct (bi_ctx _ _ _ Hb) as (Ho & _ & _).
  assert (∀ ss bw at' nb t, (nb = true → at' = true ∧ ss = negb (pr_general q)) → (pr_general q = true → ss = false) →
    at_ false (Ghost (bind_c c ss bw) (q <| pr_nvme_bound := nb |>) h (bind_l l ss bw at')) t →
    ∃ c q l, at_ false (Ghost c q h l) t ∧ good (Ghost c q h l) ∧ pr_inventory_attempted q = true) as HE.
  { intros ss bw at' nb t Hn Hss Ht. eexists _, _, _. split; [exact Ht|]. by split; [apply good_bind|]. }
  assert (∀ ss bw at', (pr_general q = true → ss = false) → published (Ghost (bind_c c ss bw) (q <| pr_nvme_bound := false |>) h (bind_l l ss bw at')) r e) as Hp.
  { intros ss bw at' Hss. apply good_published; [by apply good_bind|done..]. }
  destruct (bind_same c q l Hb) as (Ec & Eq & El). rewrite Ec, Eq, El in Hs.
  unfold bind_steps. set (K := Ghost (bind_c c false false) (q <| pr_nvme_bound := false |>) h (bind_l l false false false)) in Hs.
  pose proof (Hp false false false (λ _, eq_refl) : published K r e) as HK.
  assert (∀ t, at_ false K t → ∃ c q l, at_ false (Ghost c q h l) t ∧ good (Ghost c q h l) ∧ pr_inventory_attempted q = true) as HB
    by (intros t; by apply HE).
  eapply (wp_after (at_ false K)); [done|by intros; apply HB|exact (stays_host_local false K (pu_avail _ _ _ HK) (pu_inventory _ _ _ HK))|]. clear s Hs. intros _ s Hs.
  eapply (wp_after (at_ false K)); [done|by intros; apply HB|by eapply stays_published_identity|]. clear s Hs. intros _ s Hs.
  eapply (wp_after (at_ false K)); [done|by intros; apply HB|by eapply stays_published_bars|]. clear s Hs. intros _ s Hs.
  apply wp_bind. eapply wp_the_devices; [exact HK|exact Hs|].
  apply wp_bind. apply wp_mono with (E := λ _ t, ∃ c q l, at_ false (Ghost c q h l) t ∧ good (Ghost c q h l) ∧ pr_inventory_attempted q = true)
    (Q := λ _ t, ∃ ss, ss = negb (pr_general q) ∧ at_ false (Ghost (bind_c c ss false) (q <| pr_nvme_bound := false |>) h (bind_l l ss false false)) t); [| |done].
  { rewrite Eg0. case_match; [apply wp_ret; by exists false|]. apply wp_bind.
    eapply wpx_calle; [exact Hs|apply HK|done|simpl; by rewrite (proj1 (pu_ledger _ _ _ HK) : l_open l = _)| |].
    - intros t Ht. eapply wpx_cset; [exact Ht|norm_set|done|done|]. intros t' Ht'. exists true. split; [done|]. exact Ht'.
    - intros r' t _ Ht. by apply HB. }
  clear s Hs HB HK K. intros _ s (ss & Ess & Hs).
  assert (pr_general q = true → ss = false) as Hss by (intros Hg; by rewrite Ess, Hg).
  pose proof (Hp ss false false Hss) as HK.
  destruct (pu_ledger _ _ _ HK) as [Hol Hpl]. simpl in Hol, Hpl.
  assert (held_dev l e = true) as Hde by (unfold held_dev; rewrite Hpl; apply bool_decide_true; set_solver).
  simpl snd. apply wp_bind. eapply wpx_calle; [exact Hs|apply HK|done|simpl; rewrite Hol; exact Hde| |].
  2: { intros r' t _ Ht. by apply (HE ss false false false). }
  clear s Hs. intros s Hs. cbv beta. apply wp_bind. eapply wpx_cset; [exact Hs|norm_set|done|done|].
  clear s Hs. intros s Hs. cbv beta. apply wp_bind. eapply wpx_plog; [exact Hs|done|simpl; by rewrite Hol|].
  clear s Hs. intros s Hs. cbv beta.
  change (at_ false (Ghost (bind_c c ss true) (q <| pr_nvme_bound := false |>) h (bind_l l ss true false)) s) in Hs.
  apply wp_bind. eapply wpx_call; [exact Hs|apply (Hp ss true false Hss)|done| |].
  { simpl. by rewrite Hol. }
  clear s Hs. intros ra s Hs. cbv beta.
  change (at_ false (Ghost (bind_c c ss true) (q <| pr_nvme_bound := false |>) h (bind_l l ss true true)) s) in Hs.
  set (K := Ghost (bind_c c ss true) (q <| pr_nvme_bound := false |>) h (bind_l l ss true true)) in Hs.
  eapply (wp_after (at_ false K)); [exact Hs|by intros ? t Ht; apply (HE ss true true false)| |].
  { unfold attached, dev. stay. apply stays_no_cfg_error. }
  clear s Hs. intros _ s Hs. eapply wpx_sset; [exact Hs|done|done|]. intros t Ht.
  by apply (HE ss true true true).
Qed.
Lemma good_noted c q h l a b :
  pr_inventory_attempted q = true → good (Ghost c q h l) →
  good (Ghost c (q <| pr_host_error := a |> <| pr_error := b |>) h l).
Proof. intros Hi [[] []]. split; constructor; try done. simpl in *. intros Hr _. auto. Qed.
Lemma stays_nvme_bind owner st : stays pinv (qcom_usb4_x1_nvme_bind owner st).
Proof.
  apply stays_with_ctx. intros c q h l s Hs Hg _. case_match eqn:Eg; [apply wp_fail; by eapply busy_pinv|].
  rewrite !orb_false_iff, !negb_false_iff in Eg. destruct Eg as [[[[[_ Hh] _] _] _] Hd].
  case_match eqn:Eb; [apply wp_fail; by eapply busy_pinv|].
  pose proof (bind_begins c q h l Hg Hh Eb Hd) as Hb. destruct (has_both c Hd) as (r & e & Hr & He).
  apply wp_bind. eapply wpx_sset; [exact Hs|done|done|]. clear s Hs. intros s Hs. cbv beta.
  apply wp_bind, wp_attempt. eapply wp_mono; [exact (wp_bind_steps _ _ _ _ q s r e Hb eq_refl Hr He Hs)| |].
  all: intros x t (c' & q' & l' & Ht & Hg' & Hi); apply wp_bind; (eapply wpx_sset; [exact Ht|..]).
  1, 4: intros q''; by case_match.
  1, 3: done.
  all: intros t' Ht'; apply wp_ok_or_fail; intros _; (eapply busy_pinv; [exact Ht'|by apply good_noted]).
Qed.

(** ** Removal of the endpoint *)

Lemma good_q c q q' h l : normq q' = normq q → good (Ghost c q h l) → good (Ghost c q' h l).
Proof. intros E Hg. apply good_norm. rewrite E. by apply (good_norm c q h l). Qed.
Lemma usable_facts c q : drive_usable c q = true →
  pr_host_prepared q = true ∧ pr_nvme_bound q = true ∧ pr_nvme_bind_attempted q = true ∧ has_devices c = true.
Proof. unfold drive_usable. rewrite !andb_true_iff. tauto. Qed.
Lemma good_bound c q h l :
  good (Ghost c q h l) → drive_usable c q = true →
  pr_inventory_attempted q = true ∧ l_attached l = true ∧ pr_platform_retire_attempted q = false.
Proof.
  intros [B S] (Hh & Hb & Ha & Hd)%usable_facts. simpl in *. destruct (has_both c Hd) as (r & e & Hr & He).
  split; [|split].
  - destruct (pr_inventory_attempted q) eqn:Ei; [done|]. by destruct (sg_fresh _ _ _ S Ei) as (_ & _ & _ & _ & ? & _); congruence.
  - by apply (sg_bound _ _ _ S Hb).
  - destruct (pr_platform_retire_attempted q) eqn:Ep; [|done]. by rewrite (sg_retiring _ _ _ S Ep) in He.
Qed.
Lemma good_removing c q h l :
  good (Ghost c q h l) → pr_inventory_attempted q = true →
  good (Ghost c (q <| pr_endpoint_remove_attempted := true |>) h (l <| l_removed := true |>)).
Proof. intros [[] []] Hi. split; constructor; try done; simpl in *; intuition congruence. Qed.

Lemma wp_removing c q h l r e (body : Z → MP unit) (rest : MP unit) s :
  good (Ghost c q h l) → drive_usable c q = true → pr_config_fenced q = false → pr_endpoint_remove_attempted q = false →
  cx_root_port c = Some r → cx_endpoint c = Some e →
  (∀ k, published k r e → stays (at_ false k) rest) →
  (∀ Q E s, wp (do! remove_endpoint e in rest) Q E s → wp (body e) Q E s) → at_ false (Ghost c q h l) s →
  wp (do! sset (λ q, q <| pr_endpoint_remove_attempted := true |>) in
      let! d := the_devices in removing (body d.2)) (λ _, pinv) (λ _, pinv) s.
Proof.
  intros Hg Hu Hf Hra Hr He Hrest Hbody Hs. destruct (good_bound _ _ _ _ Hg Hu) as (Hi & Hat & Hp).
  destruct (usable_facts _ _ Hu) as (Hh & _). destruct (Hg) as [B S].
  pose proof (sg_published _ _ _ S Hh Hf : cx_config_open c = true) as Ho.
  pose proof (good_published _ _ _ _ _ _ Hg Ho Hr He) as HP.
  apply wp_bind. eapply wpx_sset; [exact Hs|done|done|]. clear s Hs. intros s Hs. cbv beta.
  assert (published (Ghost c (q <| pr_endpoint_remove_attempted := true |>) h l) r e) as HP1 by by destruct HP.
  apply wp_bind. eapply wp_the_devices; [exact HP1|exact Hs|]. simpl snd. unfold removing. apply wp_bind, wp_attempt.
  pose proof (good_removing c q h l Hg Hi) as Hg2.
  pose proof (good_published _ _ _ _ _ _ Hg2 Ho Hr He) as HP2.
  assert (∀ x t, at_ false (Ghost c (q <| pr_endpoint_remove_attempted := true |>) h (l <| l_removed := true |>)) t →
    wp (do! sset (λ q, q <| pr_endpoint_remove_error := x |> <| pr_endpoint_removed := x =? 0 |>
                         <| pr_error := if x =? 0 then pr_error q else x |>) in ok_or_fail x) (λ _, pinv) (λ _, pinv) t) as Hend.
  { intros x t Ht. apply wp_bind. eapply wpx_sset; [exact Ht|intros q''; by case_match|done|]. intros t' Ht'.
    assert (pinv t'); [|by apply wp_ok_or_fail]. eapply busy_pinv; [exact Ht'|].
    apply (good_q c (q <| pr_endpoint_remove_attempted := true |> <| pr_error := if x =? 0 then pr_error q else x |>));
      [done|]. by apply good_failed. }
  apply Hbody, wp_bind. unfold remove_endpoint. apply wp_bind.
  eapply wpx_call0; [exact Hs|apply HP1|done| |].
  { simpl. rewrite Hat, (bk_removed _ _ _ B : l_removed l = _), (bk_fenced _ _ _ B : l_fenced l = _). simpl. rewrite Hra, Hf. simpl.
    apply (published_held _ _ _ e HP). set_solver. }
  clear s Hs. intros r0 s Hs. cbv beta.
  change (at_ false (Ghost c (q <| pr_endpoint_remove_attempted := true |>) h (l <| l_removed := true |>)) s) in Hs.
  apply wp_bind. unfold dev. apply wp_bind, wp_get, wp_ret. case_match; [by apply wp_fail, Hend|]. apply wp_ret.
  eapply wpx_stays; [exact Hs|by apply Hrest|by intros [] t; apply Hend|by intros; apply Hend].
Qed.
Lemma stays_endpoint_quiet k r e : published k r e → stays (at_ false k) endpoint_quiet.
Proof.
  intros Hp. unfold endpoint_quiet. apply stays_seq; [exact (stays_host_local _ _ (pu_avail _ _ _ Hp) (pu_inventory _ _ _ Hp))|].
  intros _. apply stays_cget. intros c Nc. destruct (cx_inventory c) eqn:Ei; [|by destruct (inventory_some k c Nc (pu_inventory _ _ _ Hp))].
  pose proof (λ x off size, stays_rd false k x off size (pu_avail _ _ _ Hp)). stay.
Qed.
Lemma stays_general_remove owner st : stays pinv (qcom_usb4_x1_general_remove owner st).
Proof.
  apply stays_with_ctx. intros c q h l s Hs Hg _. case_match eqn:Eg; [apply wp_fail; by eapply busy_pinv|].
  rewrite !orb_false_iff, !negb_false_iff in Eg. destruct Eg as [[_ Hu] Hf].
  case_match eqn:Eb; [apply wp_fail; by eapply busy_pinv|].
  destruct (has_both c) as (r & e & Hr & He); [by apply (usable_facts c q)|].
  eapply (wp_removing c q h l r e (λ e, do! remove_endpoint e in endpoint_quiet)); try done.
  intros. by eapply stays_endpoint_quiet.
Qed.
Lemma stays_pulled_remove owner st : stays pinv (qcom_usb4_x1_pulled_remove owner st).
Proof.
  apply stays_with_ctx. intros c q h l s Hs Hg _. apply wp_bind.
  assert (∀ b, wp (if negb (pr_general q) || negb (pr_pulled q) || negb (cx_pulled c) || negb (drive_usable c q) ||
     pr_config_fenced q || negb b then fail (-EPERM) else
    if pr_endpoint_remove_attempted q then fail (-EALREADY) else
    do! sset (λ q, q <| pr_endpoint_remove_attempted := true |>) in
    let! d := the_devices in removing (remove_endpoint d.2)) (λ _, pinv) (λ _, pinv) s) as Hm.
  { intros b. case_match eqn:Eg; [apply wp_fail; by eapply busy_pinv|].
    rewrite !orb_false_iff, !negb_false_iff in Eg. destruct Eg as [[[_ Hu] Hf] _].
    case_match eqn:Eb; [apply wp_fail; by eapply busy_pinv|].
    destruct (has_both c) as (r & e & Hr & He); [by apply (usable_facts c q)|].
    eapply (wp_removing c q h l r e remove_endpoint (ret tt)); try done; [intros; apply stays_ret|].
    intros Q E t. unfold wp, bind. by destruct (remove_endpoint e t) as [[[]| |] ?]. }
  destruct (cx_endpoint c); [|by apply wp_ret]. unfold dev. apply wp_bind, wp_bind, wp_get, wp_ret, wp_ret. apply Hm.
Qed.

(** ** Fence *)

Definition fenced_c (c : pctx) : pctx :=
  c <| cx_config_open := false |> <| cx_scan_writes := false |> <| cx_bind_writes := false |>.
Definition fenced_l (l : ledger) : ledger := l <| l_open := false |> <| l_bind := false |> <| l_fenced := true |>.
Lemma good_fenced c q h l :
  good (Ghost c q h l) → drive_usable c q = true →
  good (Ghost (fenced_c c) (q <| pr_config_fenced := true |>) h (fenced_l l)).
Proof.
  intros Hg Hu. destruct (good_bound _ _ _ _ Hg Hu) as (Hi & Hat & Hp). destruct (usable_facts _ _ Hu) as (Hh & Hb & Hba & Hd).
  destruct Hg as [[] []]. split; constructor; try done; simpl in *; intuition congruence.
Qed.
(** What a fence may leave: everything closed, [l_stopped] as the receiver
    answered. *)
Definition fencing c q h l s : Prop :=
  at_ false (Ghost c q h l) s ∨
  ∃ b, at_ false (Ghost (fenced_c c) (q <| pr_config_fenced := true |>) h ((fenced_l l) <| l_stopped := b |>)) s.
Lemma good_stopped c q h l b : good (Ghost c q h l) → good (Ghost c q h (l <| l_stopped := b |>)).
Proof. intros [[] []]. split; by constructor. Qed.
Lemma good_checked c q h l b : good (Ghost c q h l) → good (Ghost c q h (l <| l_checked := b |>)).
Proof. intros [[] []]. split; by constructor. Qed.
Lemma same_stopped l : l = l <| l_stopped := l_stopped l |>.
Proof. by destruct l. Qed.
Lemma stays_fence_action c q h l :
  good (Ghost c q h l) → drive_usable c q = true → stays (fencing c q h l) x1_pcie_fence_action.
Proof.
  intros Hg Hu s Hs. unfold x1_pcie_fence_action.
  assert (∃ c0, y_ctx s = Some c0) as [c0 Ec].
  { destruct Hs as [Hs|[b Hs]]; destruct (at_ctx _ _ _ Hs) as (c0 & Ec & _); by exists c0. }
  apply wp_bind. unfold cget at 1, wp at 1. rewrite Ec. apply wp_bind. unfold wp at 1, sget, bind at 1, cget at 1.
  rewrite Ec. simpl. case_match eqn:Ef; [by apply wp_fail|].
  destruct Hs as [Hs|[b (c1 & Ec1 & _ & Nq & _)]].
  2: { assert (c1 = c0) as -> by congruence. pose proof (f_equal pr_config_fenced Nq) as Hf. simpl in Hf. congruence. }
  assert (l_fenced l = false) as Hfl.
  { destruct (Hg) as [B _]. destruct Hs as (c1 & Ec1 & _ & Nq & _). assert (c1 = c0) as -> by congruence.
    pose proof (f_equal pr_config_fenced Nq) as Hf. simpl in Hf. pose proof (bk_fenced _ _ _ B) as Hb. simpl in Hb. congruence. }
  destruct (good_bound _ _ _ _ Hg Hu) as (_ & Hat & _). pose proof (good_fenced c q h l Hg Hu) as Hg'.
  generalize (fence_result c0 (y_states s (cx_state c0))). intros res. clear Ec c0 Ef.
  apply wp_bind. eapply wpx_cset; [exact Hs|norm_set|done|done|]. clear s Hs. intros s Hs. cbv beta.
  apply wp_bind. eapply wpx_sset; [exact Hs|done|done|]. clear s Hs. intros s Hs. cbv beta.
  apply wp_bind. eapply wpx_plog; [exact Hs|done|simpl; by rewrite Hat, Hfl|]. clear s Hs. intros s Hs. cbv beta.
  change (at_ false (Ghost (fenced_c c) (q <| pr_config_fenced := true |>) h (fenced_l l)) s) in Hs.
  assert (∀ t, at_ false (Ghost (fenced_c c) (q <| pr_config_fenced := true |>) h (fenced_l l)) t → fencing c q h l t) as HF.
  { intros t Ht. right. exists (l_stopped (fenced_l l)). by rewrite <- same_stopped. }
  apply wp_bind, wp_ok_or_fail; intros _; [|by apply HF].
  apply wp_bind. eapply wpx_call; [exact Hs|by apply good_quiet|done|done|]. clear s Hs. intros r s Hs. cbv beta.
  unfold effect in Hs. apply wp_bind. destruct (Z.eqb_spec r 0) as [->|Hr].
  - eapply wpx_stays; [exact Hs|apply stays_cached| |by intros; right; exists true]. clear s Hs. intros _ s Hs.
    apply wp_bind, wp_ret. eapply wpx_stays; [exact Hs| |by intros; right; exists true..].
    apply stays_calle; [|done|done]. by apply good_quiet, good_stopped.
  - eapply wpx_stays; [exact Hs|apply stays_cached| |by intros; apply HF]. clear s Hs. intros _ s Hs.
    apply wp_bind, wp_ok_or_fail; [done|]. intros _. by apply HF.
Qed.
Lemma stays_fence owner st : stays pinv (qcom_usb4_x1_fence_and_quiesce owner st).
Proof.
  apply stays_with_ctx. intros c q h l s Hs Hg _. case_match eqn:Eg; [apply wp_fail; by eapply busy_pinv|].
  rewrite !orb_false_iff, !negb_false_iff in Eg. destruct Eg as [Hu _].
  assert (∀ t, fencing c q h l t → pinv t) as HP.
  { intros t [Ht|[b Ht]]; (eapply busy_pinv; [exact Ht|]); [done|]. by apply good_stopped, good_fenced. }
  apply (stays_wp (fencing c q h l)); [|by left|by intros; apply HP..].
  case_match; [|apply stays_callback]; by apply stays_fence_action.
Qed.

(** ** Namespaces *)

(** A check of the caller: nothing but the note that it passed. *)
Definition checking c q h l s : Prop := ∃ b, at_ false (Ghost c q h (l <| l_checked := b |>)) s.
Lemma same_checked l : l = l <| l_checked := l_checked l |>.
Proof. by destruct l. Qed.
Lemma checking_start c q h l s : at_ false (Ghost c q h l) s → checking c q h l s.
Proof. intros Hs. exists (l_checked l). by rewrite <- same_checked. Qed.
Lemma stays_checked c q h l : good (Ghost c q h l) → stays (checking c q h l) check_stopped.
Proof.
  intros Hg s [b Hs]. pose proof (good_checked c q h l b Hg) as Hg'. unfold check_stopped.
  eapply wpx_calle; [exact Hs|by apply good_quiet|done|apply Hg'|..].
  - intros t Ht. exists true. exact Ht.
  - intros r t _ Ht. by exists b.
Qed.
Lemma stays_retire_namespaces owner st : stays pinv (qcom_usb4_x1_retire_namespaces owner st).
Proof.
  apply stays_with_ctx. intros c q h l s Hs Hg Est. case_match eqn:Eg; [apply wp_fail; by eapply busy_pinv|].
  case_match; [apply wp_fail; by eapply busy_pinv|].
  apply wp_bind. eapply wpx_sset_same; [exact Hs|done|]. clear s Hs. intros s Hs. apply wp_recording.
  assert (∀ e t, checking c q h l t → pinv (t <| y_states := upd_rec st
    (λ q, q <| pr_namespace_retire_error := e |> <| pr_namespace_retired := e =? 0 |>) (y_states t) |>)) as HP.
  { intros e t [b Ht]. subst st. eapply busy_pinv; [by apply (at_upd _ _ _ _ _ Ht)|].
    apply (good_q c q); [done|]. by apply good_checked. }
  apply (stays_wp (checking c q h l)); [|by apply checking_start|by intros; apply HP..].
  pose proof (stays_checked c q h l Hg). case_match; [case_match; [done|apply stays_fail]|by apply stays_callback].
Qed.

(** ** Retirement of the bus *)

Lemma stays_passed c q h l :
  quiet (Ghost c q h l) → l_checked l = true → stays (at_ (W := W) false (Ghost c q h l)) check_stopped.
Proof.
  intros Hq Hc s Hs. unfold check_stopped. eapply wpx_calle; [exact Hs|done|done|apply Hq|..].
  - intros t Ht. replace l with (effect l (CheckStopped, 0)) by (simpl; clear - Hc; destruct l; simpl in *; by subst).
    exact Ht.
  - intros r t _ Ht. exact Ht.
Qed.
Lemma drop_both r e : drop_ref r (drop_ref e [r; e]) = [] ∧ r ∈ drop_ref e [r; e].
Proof.
  simpl. destruct (Z.eqb_spec r e) as [->|Hn].
  - simpl. rewrite Z.eqb_refl. split; [done|set_solver].
  - rewrite Z.eqb_refl. simpl. rewrite Z.eqb_refl. split; [done|set_solver].
Qed.

(** The bus is being taken down: [n] 1 before, 2 stopped, 3 removed. *)
Record falling (c : pctx) (q : pcie_rec) (l : ledger) (r e : Z) : Prop := Falling {
  fa_good : ∀ h n, good (Ghost c q h (l <| l_checked := true |> <| l_bus := n |>));
  fa_rec : pr_pci_retire_attempted q = true ∧ pr_pci_retired q = false ∧ pr_config_fenced q = true ∧
    pr_inventory_attempted q = true ∧ pr_nvme_bind_attempted q = true ∧ pr_nvme_bound q = true ∧
    pr_platform_retire_attempted q = false;
  fa_devices : cx_root_port c = Some r ∧ cx_endpoint c = Some e;
}.
Lemma falls c q h l r e :
  good (Ghost c q h l) → cx_root_port c = Some r → cx_endpoint c = Some e → pr_nvme_bound q = true →
  pr_host_prepared q = true → pr_config_fenced q = true → pr_pci_retire_attempted q = false →
  l_bus l = 1%nat ∧ falling c (q <| pr_pci_retire_attempted := true |>) l r e.
Proof.
  intros [B S] Hr He Hb Hh Hf Ha. simpl in *. pose proof (sg_bus _ _ _ S Hh Ha) as Hbus. split; [done|].
  assert (pr_nvme_bind_attempted q = true) as Hba.
  { destruct (pr_nvme_bind_attempted q) eqn:E; [done|]. destruct (sg_unbound _ _ _ S E) as (_ & _ & _ & _ & ?). congruence. }
  assert (pr_inventory_attempted q = true) as Hi.
  { destruct (pr_inventory_attempted q) eqn:E; [done|]. destruct (sg_fresh _ _ _ S E) as (? & _). congruence. }
  assert (pr_pci_retired q = false) as Hp.
  { destruct (pr_pci_retired q) eqn:E; [|done]. by rewrite (sg_removed _ _ _ S E) in Hbus. }
  assert (pr_platform_retire_attempted q = false) as Hpr.
  { destruct (pr_platform_retire_attempted q) eqn:E; [|done]. by rewrite (sg_retiring _ _ _ S E) in He. }
  split; [|done..]. intros h' n. destruct B, S. split; constructor; try done; simpl in *; intuition congruence.
Qed.
Definition busy_of st t : Prop := ∃ c q h l, at_ false (Ghost c q h l) t ∧ good (Ghost c q h l) ∧ cx_state c = st.
Definition fall_l (l : ledger) (n : nat) : ledger := l <| l_checked := true |> <| l_bus := n |>.

Lemma wp_bus_removed c q h l r e s (Q : unit → psys W → Prop) :
  falling c q l r e → at_ false (Ghost c q h (fall_l l 1)) s →
  (∀ t, at_ false (Ghost c q h (fall_l l 3)) t → Q tt t) →
  wp (bus_removed r e) Q (λ _, busy_of (cx_state c)) s.
Proof.
  intros Hfa Hs HQ. unfold bus_removed, dev.
  assert (∀ n t, at_ false (Ghost c q h (fall_l l n)) t → busy_of (cx_state c) t) as HE.
  { intros n t Ht. eexists _, _, _, _. split; [exact Ht|]. split; [apply Hfa|done]. }
  assert (l_fenced l = true) as Hf.
  { destruct (fa_good _ _ _ _ _ Hfa h 1%nat) as [B _]. pose proof (bk_fenced _ _ _ B) as Hf. simpl in Hf.
    destruct (fa_rec _ _ _ _ _ Hfa) as (_ & _ & ? & _). congruence. }
  apply wp_bind. eapply wpx_call0; [exact Hs|apply good_quiet, Hfa|done|simpl; by rewrite Hf|]. clear s Hs. intros x s Hs. cbv beta.
  change (at_ false (Ghost c q h (fall_l l 2)) s) in Hs.
  apply wp_bind, wp_bind, wp_get, wp_ret, wp_bind, wp_bind, wp_get, wp_ret.
  if_case E2; [by apply wp_fail, (HE 2%nat)|]. clear E2.
  apply wp_bind. eapply wpx_call0; [exact Hs|apply good_quiet, Hfa|done|done|]. clear s Hs. intros y s Hs. cbv beta.
  change (at_ false (Ghost c q h (fall_l l 3)) s) in Hs.
  unfold no_bus, bridge_bus. apply wp_bind, wp_bind, wp_bind, wp_get, wp_ret, wp_ret.
  apply wp_bind, wp_bind, wp_get, wp_ret, wp_bind, wp_bind, wp_get, wp_ret, wp_bind, wp_get.
  case_match; [by apply wp_fail, (HE 3%nat)|]. by apply wp_ret, HQ.
Qed.

(** The bus and the devices are gone. *)
Definition fallen_c (c : pctx) : pctx :=
  c <| cx_session := false |> <| cx_endpoint := None |> <| cx_root_port := None |>.
Definition fallen_q (q : pcie_rec) : pcie_rec :=
  q <| pr_nvme_bound := false |> <| pr_host_published := false |> <| pr_host_prepared := false |> <| pr_pci_retired := true |>.
Definition fallen_l (l : ledger) (ss : Z) (refs : list Z) : ledger :=
  (fall_l l 3) <| l_session := ss |> <| l_pci := refs |>.
Lemma good_fallen c q h l r e : falling c q l r e → good (Ghost (fallen_c c) (fallen_q q) h (fallen_l l 0 [])).
Proof.
  intros [Hg (Ha & Hp & Hf & Hi & Hb & Hn & Hr) [Er Ee]]. destruct (Hg h 3%nat) as [[] []].
  split; constructor; try done; simpl in *; try (by intros []); intuition congruence.
Qed.
Lemma fallen_same l ss refs : l_session l = ss → l_pci l = refs → fall_l l 3 = fallen_l l ss refs.
Proof. intros <- <-. by destruct l. Qed.
Lemma wp_retire_pci_steps c q h l r e s :
  falling c q l r e → at_ false (Ghost c q h (fall_l l 1)) s →
  wp (retire_pci_steps (pr_general q) r e) (λ _, busy_of (cx_state c)) (λ _, busy_of (cx_state c)) s.
Proof.
  intros Hfa Hs. unfold retire_pci_steps.
  assert (∀ n t, at_ false (Ghost c q h (fall_l l n)) t → busy_of (cx_state c) t) as HE.
  { intros n t Ht. eexists _, _, _, _. split; [exact Ht|]. split; [apply Hfa|done]. }
  assert (∀ n, quiet (Ghost c q h (fall_l l n))) as Hq by (intros n; apply good_quiet, Hfa).
  eapply (wp_after (at_ false (Ghost c q h (fall_l l 1)))); [exact Hs|by intros; apply (HE 1%nat)| |].
  { case_match; [apply stays_ret|]. apply stays_callback. by apply stays_passed. }
  clear s Hs. intros _ s Hs. apply wp_bind. eapply wpx_sset_same; [exact Hs|done|]. clear s Hs. intros s Hs.
  apply wp_bind. eapply wp_bus_removed; [exact Hfa|exact Hs|]. clear s Hs. intros s Hs.
  destruct (fa_good _ _ _ _ _ Hfa h 3%nat) as [B S]. destruct (fa_devices _ _ _ _ _ Hfa) as [Er Ee].
  destruct (fa_rec _ _ _ _ _ Hfa) as (_ & _ & Hf & _ & _ & Hn & _).
  destruct (sg_bound _ _ _ S Hn) as [_ Hss]. pose proof (bk_session _ _ _ B) as Hls. pose proof (bk_pci _ _ _ B) as Hpl.
  pose proof (sg_seen _ _ _ S) as Hse. pose proof (bk_ctx _ _ _ B) as Hlc.
  assert (cx_config_open c || cx_bind_writes c = false) as Hcl.
  { destruct (cx_config_open c || cx_bind_writes c) eqn:E; [|done]. destruct (sg_open _ _ _ S E) as (? & _). simpl in *. congruence. }
  simpl in Hss, Hls, Hpl, Hse, Hlc. unfold pci_refs in Hpl. rewrite Er, Ee in Hpl. rewrite Hss in Hls.
  assert (∀ ss refs, quiet (Ghost (c <| cx_session := false |>) q h (fallen_l l ss refs))) as Hq'.
  { intros ss refs. split; [done|]. split; [by simpl; rewrite Hcl|done]. }
  apply wp_bind. apply wp_mono with (Q := λ _, at_ false (Ghost c q h (fallen_l l 0 [r; e])))
    (E := λ _, busy_of (cx_state c)); [| |done].
  { destruct (pr_general q); simpl in Hls.
    - apply wp_ret. by rewrite <- (fallen_same l 0 [r; e]).
    - eapply wpx_calle; [exact Hs|apply Hq|done|simpl; by rewrite Hls|..].
      + intros t Ht. rewrite (fallen_same l 1 [r; e]) in Ht by done. exact Ht.
      + intros x t _ Ht. by apply (HE 3%nat). }
  clear s Hs. intros _ s Hs. apply wp_bind. eapply wpx_cset; [exact Hs|norm_set|done|done|]. clear s Hs. intros s Hs. cbv beta.
  destruct (drop_both r e) as [Hd0 Hd1].
  apply wp_bind. eapply wpx_call0; [exact Hs|apply Hq'|done| |].
  { simpl. unfold held_dev. simpl. rewrite bool_decide_true by set_solver. done. }
  clear s Hs. intros x s Hs. cbv beta.
  change (at_ false (Ghost (c <| cx_session := false |>) q h (fallen_l l 0 (drop_ref e [r; e]))) s) in Hs.
  apply wp_bind. eapply wpx_call0; [exact Hs|apply Hq'|done| |].
  { simpl permitted. unfold held_dev. rewrite bool_decide_true; [done|exact Hd1]. }
  clear s Hs. intros y s Hs. cbv beta.
  change (at_ false (Ghost (c <| cx_session := false |>) q h (fallen_l l 0 (drop_ref r (drop_ref e [r; e])))) s) in Hs.
  rewrite Hd0 in Hs.
  apply wp_bind. eapply wpx_cset; [exact Hs|norm_set|done|done|]. clear s Hs. intros s Hs. cbv beta.
  apply wp_bind. eapply wpx_sset; [exact Hs|done|done|]. clear s Hs. intros s Hs. cbv beta.
  change (at_ false (Ghost (fallen_c c) (fallen_q q) h (fallen_l l 0 [])) s) in Hs.
  pose proof (good_fallen c q h l r e Hfa) as Hgf. set (K := Ghost (fallen_c c) (fallen_q q) h (fallen_l l 0 [])) in *.
  assert (∀ t, at_ false K t → busy_of (cx_state c) t) as HB.
  { intros t Ht. eexists _, _, _, _. split; [exact Ht|]. by split. }
  apply (stays_wp (at_ false K)); [|done|by intros; apply HB..].
  apply stays_seq.
  { apply stays_attempt, stays_callback. unfold x1_pcie_receiver_release_proof, no_bus, bridge_bus. stay.
    apply stays_passed; [by apply good_quiet|done]. }
  intros er. apply stays_seq; [apply stays_cached|intros _; apply stays_ok].
Qed.
Lemma stays_retire_pci owner st : stays pinv (qcom_usb4_x1_retire_pci owner st).
Proof.
  apply stays_with_ctx. intros c q h l s Hs Hg Est. case_match eqn:Eg; [apply wp_fail; by eapply busy_pinv|].
  rewrite !orb_false_iff, !negb_false_iff in Eg.
  destruct Eg as [[[[[[[[[[[[_ Hd] _] _] Hb] Hh] _] _] _] _] _] Hcl] _].
  case_match eqn:Ea; [apply wp_fail; by eapply busy_pinv|].
  destruct (has_both c Hd) as (r & e & Hr & He).
  assert (pr_config_fenced q = true) as Hf by (unfold config_closed in Hcl; by destruct (pr_config_fenced q)).
  destruct (falls c q h l r e Hg Hr He Hb Hh Hf Ea) as [Hbus Hfa].
  eapply (wp_after (at_ false (Ghost c q h l))); [exact Hs|by intros; eapply busy_pinv| |].
  { unfold x1_pcie_retire_shape, bridge_bus, dev. stay. }
  clear s Hs. intros fine s Hs. case_match; [apply wp_fail; by eapply busy_pinv|].
  apply wp_bind. unfold check_stopped. eapply wpx_calle; [exact Hs|by apply good_quiet|done|apply Hg|..].
  2: { intros x t _ Ht. by eapply busy_pinv. }
  clear s Hs. intros s Hs. cbv beta.
  change (at_ false (Ghost c q h (l <| l_checked := true |>)) s) in Hs.
  replace (l <| l_checked := true |>) with (fall_l l 1) in Hs by (unfold fall_l; rewrite <- Hbus; by destruct l).
  apply wp_bind. unfold the_devices. apply wp_bind. eapply wpx_cget; [exact Hs|]. intros c' Nc.
  destruct (norm_fields _ _ Nc) as (_ & _ & _ & -> & -> & _). rewrite Hr, He. apply wp_ret.
  apply wp_bind. eapply wpx_sset; [exact Hs|done|done|]. clear s Hs. intros s Hs. cbv beta.
  apply wp_recording. simpl fst. simpl snd.
  eapply wp_mono; [exact (wp_retire_pci_steps _ _ _ _ _ _ _ Hfa Hs)|..].
  all: intros x t (c1 & q1 & h1 & l1 & Ht & Hg1 & Es1); rewrite <- Est, <- Es1; (eapply busy_pinv; [by apply (at_upd _ _ _ _ _ Ht)|]).
  all: by apply (good_q c1 q1).
Qed.
End retire.
