(* ===== verification/HostPciePlatform.v ===== *)
(** * The PCIe side: providers and context are given back *)

From S2P Require Import Prelude Wp HostData HostPcie HostPcieLogic HostPcieInv HostPcieSteps HostPcieBatch HostPcieRetire.

Section platform.
Context {W : Type} `{PcieEnv W}.
Notation MP := (M (psys W)).
Implicit Types s t : psys W.

(** ** What the release passes through *)

(** Clocks [n], active [ac], enabled [en]. *)
Definition down_c (c : pctx) (n : nat) (ac en : bool) : pctx :=
  Pctx (cx_owner c) (cx_state c) (cx_pdev c) (cx_maps c) (cx_reset_early c)
    (cx_window c) (cx_entered c) (cx_root_bytes c)
    (cx_trained c) (cx_batch_active c) (cx_inventory c)
    (cx_bridge c) (cx_receiver c) (cx_receiver_retained c)
    (cx_driver_registered c) en ac n (cx_session c) (cx_root_port c) (cx_endpoint c)
    (cx_root_msi c) (cx_root_msix c) (cx_root_pm c) (cx_endpoint_pm c)
    (cx_config_open c) (cx_scan_writes c) (cx_bind_writes c) (cx_pulled c).
(** Reset [a], bandwidth [m] and [g], clocks [n], forbidden [f], active [ac],
    enabled [en], owner forbidden [o]. *)
Definition down_l (l : ledger) (a m g : bool) (n : nat) (f ac en o : bool) : ledger :=
  Ledger (l_ctx l) (l_owner l) (l_pdev l) (l_module l) (l_lease l) (l_driver l)
    en ac f o (l_maps l) (l_dreset l) (l_clks l) (l_paths l) n m g a
    (l_pci l) (l_seen l) (l_session l) (l_open l) (l_bind l) (l_attached l)
    (l_removed l) (l_fenced l) (l_stopped l) true (l_bus l) (l_pulled l) (l_ok l).

(** Nothing is published any more and the platform is to go. *)
Record leaving (c : pctx) (q : pcie_rec) (l : ledger) : Prop := Leaving {
  le_good : ∀ h, good (Ghost c q h l);
  le_devices : cx_endpoint c = None ∧ cx_root_port c = None;
  le_closed : cx_config_open c || cx_bind_writes c = false;
  le_ctx : cx_session c = false ∧ cx_driver_registered c = true;
  le_ledger : provided l ∧ bus_gone l = true;
  le_held : l_clocks l = CLOCKS ∧ l_active l = true ∧ l_enabled l = true;
}.
Lemma good_down c q h l a m g n f ac en o :
  leaving c q l →
  good (Ghost (down_c c n ac en) (q <| pr_platform_retire_attempted := true |>) h (down_l l a m g n f ac en o)).
Proof.
  intros [Hg [He Hr] Hc [Hs Hd] _ _]. destruct (Hg h) as [[] []]. simpl in *.
  split; constructor; try done; simpl in *; try congruence.
Qed.
(** What is needed of the record while it leaves. *)
Definition downing c q l s : Prop := ∃ h a m g n f ac en o,
  at_ false (Ghost (down_c c n ac en) (q <| pr_platform_retire_attempted := true |>) h (down_l l a m g n f ac en o)) s.
Lemma downing_pinv c q l s : leaving c q l → downing c q l s → pinv s.
Proof. intros Hl (h & a & m & g & n & f & ac & en & o & Hs). eapply busy_pinv; [exact Hs|by apply good_down]. Qed.

Lemma wp_disable_clocks c q h l n f ac en o s (Q : unit → psys W → Prop) E :
  leaving c q l →
  at_ false (Ghost (down_c c n ac en) (q <| pr_platform_retire_attempted := true |>) h (down_l l true false false n f ac en o)) s →
  (∀ t, at_ false (Ghost (down_c c 0 ac en) (q <| pr_platform_retire_attempted := true |>) h (down_l l true false false 0 f ac en o)) t → Q tt t) →
  wp (for_each (rev (seq 0 n)) disable_clock) Q E s.
Proof.
  intros Hl. revert s. induction n as [|n IH]; intros s Hs HQ; [by apply wp_ret, HQ|].
  rewrite seq_S, rev_app_distr. simpl. unfold disable_clock. wpx_bind.
  eapply wpx_call0; [exact Hs|by apply good_quiet, good_down|done|simpl; by rewrite Nat.eqb_refl|].
  clear s Hs. intros r s Hs. cbv beta. apply wp_bind. eapply wpx_cset; [exact Hs|norm_set|done|done|].
  clear s Hs. intros s Hs. cbv beta. eapply wpx_sset_same; [exact Hs|done|]. clear s Hs. intros s Hs. cbv beta.
  apply IH; [|done]. exact Hs.
Qed.

Lemma down_same c q l : leaving c q l →
  c = down_c c CLOCKS true true ∧ l <| l_checked := true |> =
    down_l l false true true CLOCKS (l_forbidden l) true true (l_owner_forbidden l).
Proof.
  intros Hl. destruct (le_held _ _ _ Hl) as (Hc & Ha & He). destruct (le_ledger _ _ _ Hl) as [(Hp & _) _].
  destruct (le_good _ _ _ Hl false) as [B _]. pose proof (bk_clocks _ _ _ B) as E1. pose proof (bk_active _ _ _ B) as E2.
  pose proof (bk_enabled _ _ _ B) as E3. unfold powered in Hp. clear - Hc Ha He Hp E1 E2 E3. simpl in *.
  rewrite !andb_true_iff, negb_true_iff in Hp. destruct Hp as [[[_ Hm] Hg] Hs].
  rewrite Hc in E1. rewrite Ha in E2. rewrite He in E3. split.
  - clear - E1 E2 E3. destruct c. simpl in *. by rewrite <- E1, <- E2, <- E3.
  - clear - Hc Ha He Hm Hg Hs. destruct l. simpl in *. by rewrite Hc, Ha, He, Hm, Hg, Hs.
Qed.
Lemma down_cfg l a m g n f ac en o :
  effect (down_l l a m g n f ac en o) (IccSet false 0, 0) = down_l l a m false n f ac en o.
Proof. by destruct l. Qed.
Lemma down_mem l a m g n f ac en o :
  effect (down_l l a m g n f ac en o) (IccSet true 0, 0) = down_l l a false g n f ac en o.
Proof. by destruct l. Qed.
Lemma down_allow l a m g n f ac en o r :
  effect (down_l l a m g n f ac en o) (RtAllow false, r) = down_l l a m g n false ac en o.
Proof. by destruct l. Qed.
Lemma down_put l a m g n f ac en o r :
  effect (down_l l a m g n f ac en o) (RtPut, r) = down_l l a m g n f false en o.
Proof. by destruct l. Qed.
Lemma down_disable l a m g n f ac en o r :
  effect (down_l l a m g n f ac en o) (RtDisable, r) = down_l l a m g n f ac false o.
Proof. by destruct l. Qed.
Lemma down_assert l a m g n f ac en o r :
  effect (down_l l a m g n f ac en o) (ResetAssert, r) = down_l l true m g n f ac en o.
Proof. by destruct l. Qed.
Lemma down_owner l a m g n f ac en o r :
  effect (down_l l a m g n f ac en o) (RtAllow true, r) = down_l l a m g n f ac en false.
Proof. by destruct l. Qed.
Lemma down_held c n ac en ac' : (down_c c n ac en) <| cx_runtime_held := ac' |> = down_c c n ac' en.
Proof. by destruct c. Qed.
Lemma down_enabled c n ac en en' : (down_c c n ac en) <| cx_runtime_enabled := en' |> = down_c c n ac en'.
Proof. by destruct c. Qed.
Lemma wp_release_providers c q h l s (Q : unit → psys W → Prop) :
  leaving c q l →
  at_ false (Ghost c (q <| pr_platform_retire_attempted := true |>) h (l <| l_checked := true |>)) s →
  (∀ o t, at_ false (Ghost (down_c c 0 false false) (q <| pr_platform_retire_attempted := true |>) true
     (down_l l true false false 0 false false false o)) t → Q tt t) →
  wp release_providers Q (λ _, downing c q l) s.
Proof.
  intros Hl Hs HQ. destruct (down_same c q l Hl) as [Ec El]. rewrite Ec, El in Hs. clear Ec El.
  destruct (le_ledger _ _ _ Hl) as [(_ & _ & Hr & Hpa) _].
  revert Hs. generalize (l_forbidden l) (l_owner_forbidden l). intros f o Hs.
  set (q1 := q <| pr_platform_retire_attempted := true |>) in *.
  assert (∀ h a m g n f ac en o, quiet (Ghost (down_c c n ac en) q1 h (down_l l a m g n f ac en o))) as Hq
    by (intros; by apply good_quiet, good_down).
  assert (∀ h a m g n f ac en o t, at_ false (Ghost (down_c c n ac en) q1 h (down_l l a m g n f ac en o)) t → downing c q l t) as HD
    by (intros h' a m g n f' ac en o' t Ht; by exists h', a, m, g, n, f', ac, en, o').
  assert (∀ m a b n f ac en o, (m ∈ l_paths (down_l l true a b n f ac en o))) as Hpa' by (intros; apply Hpa).
  unfold release_providers.
  apply wp_bind. eapply (wp_calle (Ghost _ _ _ _)); [apply Hq|done|exact Hr|exact Hs|..]; simpl g_l.
  2: { intros r t _ Ht. cbn in Ht. apply (HD h true true true CLOCKS f true true o). by rewrite <- (down_assert _ false _ _ _ _ _ _ _ r). }
  clear s Hs. intros s Hs. cbv beta.
  change (at_ false (Ghost (down_c c CLOCKS true true) q1 h (effect (down_l l false true true CLOCKS f true true o) (ResetAssert, 0))) s) in Hs.
  rewrite down_assert in Hs.
  apply wp_bind. eapply wpx_sset_same; [exact Hs|done|]. clear s Hs. intros s Hs.
  apply wp_bind. eapply wpx_held; [exact Hs|]. clear s Hs. intros s Hs. cbv beta.
  apply wp_bind. eapply wpx_calle; [exact Hs|apply Hq|done|simpl; by rewrite bool_decide_true by apply Hpa|..].
  2: { intros r t _ Ht. by eapply HD. }
  clear s Hs. intros s Hs. cbv beta.
  rewrite down_cfg in Hs.
  apply wp_bind. eapply wpx_calle; [exact Hs|apply Hq|done|simpl; by rewrite bool_decide_true by apply Hpa|..].
  2: { intros r t _ Ht. by eapply HD. }
  clear s Hs. intros s Hs. cbv beta.
  rewrite down_mem in Hs.
  apply wp_bind. eapply wpx_sset_same; [exact Hs|done|]. clear s Hs. intros s Hs.
  apply wp_bind. eapply wp_disable_clocks; [exact Hl|exact Hs|]. clear s Hs. intros s Hs. fold q1 in Hs.
  apply wp_bind. eapply wpx_call0; [exact Hs|apply Hq|done|done|]. clear s Hs. intros r0 s Hs. cbv beta.
  rewrite down_allow in Hs.
  apply wp_bind. eapply wpx_call; [exact Hs|apply Hq|done|done|]. clear s Hs. intros r s Hs. cbv beta.
  apply wp_bind. eapply wpx_cset; [exact Hs|norm_set|done|done|]. clear s Hs. intros s Hs. cbv beta.
  rewrite down_put, down_held in Hs.
  case_match; [apply wp_fail; by eapply HD|].
  apply wp_bind. eapply wpx_call0; [exact Hs|apply Hq|done|done|]. intros r1 t Ht. cbv beta.
  eapply wpx_cset; [exact Ht|norm_set|done|done|]. intros t1 Ht1. apply (HQ o).
  by rewrite down_disable, down_enabled in Ht1.
Qed.

(** ** The context *)

Lemma wp_gone_set l h m s st f (Q : unit → psys W → Prop) E :
  gone l h m s → (∀ t, gone l h (upd_rec st f m) t → Q tt t) → wp (st_set st f) Q E s.
Proof.
  intros (Hc & Nl & Hok & Hh & Em) HQ. apply wp_modify, HQ. repeat split; try done. simpl. by rewrite Em.
Qed.

(** The context is out of reach; [pinned] and [early] say whether the module and the
    reset lease are held. *)
Lemma wp_give_back early st pinned m s o maps dr ck pa seen op bd at_' rm fe sp bus pu ok (E : Z → psys W → Prop) :
  (bus =? 0)%nat || (bus =? 3)%nat = true → pr_attempted (m st) = true →
  (∀ n, pr_attempted (m n) = false → ∃ g v r, m n = pcie_rec_zero g v r) →
  gone (Ledger true 1 1 (Z.b2z pinned) (Z.b2z early) true false false false o maps dr ck pa 0 false false true []
    seen 0 op bd at_' rm fe sp true bus pu ok) true m s →
  wp (do! pmark CtxUnpublish in
      do! pcall0 DriverUnregister in
      do! (if early then pcall0 ResetPut else ret tt) in
      do! st_set st (λ q, q <| pr_platform_retired := true |>) in
      do! pcall0 PdevPut in
      do! pcall0 OwnerPut in
      do! (if pinned then pcall0 ModulePut else ret tt) in
      pcall0 CtxFree) (λ _, pinv) E s.
Proof.
  intros Hbus Hat Hpr Hs. apply wp_bind. eapply wp_gone_mark; [exact Hs|done|by cbn; unfold bus_gone; cbn; rewrite Hbus|].
  clear s Hs. intros s Hs. ghost_in Hs.
  apply wp_bind. eapply wp_gone_call0; [exact Hs|done|by cbn; unfold bus_gone; cbn; rewrite Hbus|]. clear s Hs. intros r1 s Hs. ghost_in Hs.
  apply wp_bind. eapply (wp_mono _ (λ _, gone (Ledger true 1 1 (Z.b2z pinned) 0 false false false false o [WRouter] false 0 []
    0 false false true [] seen 0 op bd at_' rm fe sp true bus pu ok) true m)); [|clear s Hs; intros [] s Hs|done].
  { destruct early; [|by apply wp_ret].
    eapply wp_gone_call0; [exact Hs|done|done|]. clear s Hs. intros r2 s Hs. by ghost_in Hs. }
  apply wp_bind. eapply wp_gone_set; [exact Hs|]. clear s Hs. intros s Hs.
  apply wp_bind. eapply wp_gone_call0; [exact Hs|done|done|]. clear s Hs. intros r2 s Hs. ghost_in Hs.
  apply wp_bind. eapply wp_gone_call0; [exact Hs|done|done|]. clear s Hs. intros r3 s Hs. ghost_in Hs.
  set (m' := upd_rec st _ m) in *.
  apply wp_bind. eapply (wp_mono _ (λ _, gone (Ledger true 0 0 0 0 false false false false o [WRouter] false 0 []
    0 false false true [] seen 0 op bd at_' rm fe sp true bus pu ok) true m')); [|clear s Hs; intros [] s Hs|done].
  { destruct pinned; [|by apply wp_ret].
    eapply wp_gone_call0; [exact Hs|done|done|]. clear s Hs. intros r4 s Hs. by ghost_in Hs. }
  eapply wp_gone_call0; [exact Hs|done|done|]. clear s Hs. intros r4 s Hs. left. exists true, true.
  assert (y_states s = m') as Em by apply Hs. rewrite Em. split; [exact Hs|]. split; [done|].
  intros n Hn. rewrite Em in *. unfold m', upd_rec in *. destruct (Z.eqb_spec n st); [|by apply Hpr].
  change (pr_attempted (m st) = false) in Hn. congruence.
Qed.
Lemma wp_free_context c q l c0 st pinned s (E : Z → psys W → Prop) :
  leaving c q l → norm c0 = norm (down_c c 0 false false) → cx_receiver_retained c = pinned →
  cx_state c = st →
  (∃ o, at_ false (Ghost (down_c c 0 false false) (q <| pr_platform_retire_attempted := true |>) true
     (down_l l true false false 0 false false false o)) s) →
  wp (free_context c0 st pinned) (λ _, pinv) E s.
Proof.
  intros Hl Nc Hpin Est [o Hs].
  destruct (at_gone _ _ Hs) as [Hgo Hpr]. simpl in Hgo.
  assert (pr_attempted (y_states s st) = true) as Hat.
  { destruct Hs as (c1 & _ & Nc1 & Nq & _ & _ & _ & _ & _ & _ & Ha & _).
    rewrite <- Est, <- (f_equal cx_state Nc1 : cx_state c1 = cx_state c), (normq_attempted _ _ Nq). exact Ha. }
  clear Hs.
  destruct (le_good _ _ _ Hl false) as [B S]. destruct (le_devices _ _ _ Hl) as [He Hr]. destruct (le_ctx _ _ _ Hl) as [Hss Hd].
  destruct (le_ledger _ _ _ Hl) as [_ Hbus].
  pose proof (bk_pdev _ _ _ B) as Bp. pose proof (bk_module _ _ _ B) as Bm. pose proof (bk_lease _ _ _ B) as Bl.
  pose proof (bk_driver _ _ _ B) as Bd. pose proof (bk_pci _ _ _ B) as Bpci. pose proof (bk_session _ _ _ B) as Bs.
  pose proof (bk_ctx _ _ _ B) as Bc. pose proof (bk_owner _ _ _ B) as Bo. pose proof (sg_pdev _ _ _ S) as Sp. simpl in *.
  rewrite Sp in Bp by done. rewrite Hpin in Bm. rewrite Hd in Bd. rewrite Hss in Bs.
  unfold pci_refs in Bpci. rewrite Hr in Bpci.
  pose proof (f_equal cx_reset_early Nc : cx_reset_early c0 = cx_reset_early c) as Er. rewrite <- Er in Bl.
  unfold free_context. apply wp_bind, wp_modify. unfold down_l in Hgo. rewrite Bc, Bo, Bp, Bm, Bl, Bd, Bpci, Bs in Hgo.
  by eapply wp_give_back.
Qed.

(** ** Both retirements *)

(** No step fails with 0. *)
Notation nz := (λ e : Z, e ≠ 0).
#[local] Hint Resolve nz_ok nz_cset nz_sset nz_call nz_call0 nz_calle nz_ret : nz.
Ltac nz_here := repeat (lazymatch goal with |- errs _ (bind _ _) => apply errs_bind; [|intros ?] end); try solve [auto with nz | done].
Lemma nz_release : errs (S := psys W) nz release_providers.
Proof.
  unfold release_providers. nz_here.
  - apply errs_for_each. intros i. unfold disable_clock. nz_here.
  - case_match; [apply nz_fail; lia|]. nz_here.
Qed.
Lemma nz_callback f (cb : MP unit) : errs nz (with_callback f cb).
Proof.
  unfold with_callback. apply errs_bind; [done|]. intros s.
  induction (f (y_w s)) as [r|k IH]; simpl; [apply nz_ok|]. apply errs_bind; [|done].
  intros t e t'. unfold attempt. by destruct (cb t) as [[]].
Qed.
Lemma nz_retire_steps : errs (S := psys W) nz retire_steps.
Proof. unfold retire_steps. nz_here; [apply nz_release|apply nz_callback]. Qed.
Lemma nz_idle_steps : errs (S := psys W) nz idle_steps.
Proof. unfold idle_steps. nz_here. apply nz_release. Qed.

Definition down_all c q l s : Prop := ∃ o,
  at_ false (Ghost (down_c c 0 false false) (q <| pr_platform_retire_attempted := true |>) true
    (down_l l true false false 0 false false false o)) s.
Lemma wp_retire_with c q h l st steps pinned s :
  leaving c q l → cx_receiver_retained c = pinned → cx_state c = st →
  errs nz steps →
  (∀ t, at_ false (Ghost c (q <| pr_platform_retire_attempted := true |>) h (l <| l_checked := true |>)) t →
     wp steps (λ _, down_all c q l) (λ _, downing c q l) t) →
  at_ false (Ghost c q h l) s → wp (retire_with st steps pinned) (λ _, pinv) (λ _, pinv) s.
Proof.
  intros Hl Hp Est Hnz Hst Hs. pose proof (le_good _ _ _ Hl h) as Hg. unfold retire_with.
  apply wp_bind. unfold check_stopped. eapply wpx_calle; [exact Hs|by apply good_quiet|done|apply Hg|..].
  2: { intros x t _ Ht. by eapply busy_pinv. }
  clear s Hs. intros s Hs. cbv beta. change (at_ false (Ghost c q h (l <| l_checked := true |>)) s) in Hs.
  apply wp_bind. eapply wpx_sset; [exact Hs|done|done|]. clear s Hs. intros s Hs. cbv beta.
  apply wp_bind, wp_attempt. eapply wp_mono; [by apply wp_errs, Hst|..]; clear s Hs.
  - intros _ s [o Hs]. cbv beta. change (0 !=? 0) with false. cbv iota. apply wp_bind. eapply wpx_cget; [exact Hs|].
    intros c0 Nc. eapply wp_free_context; try done. by exists o.
  - intros e s [He (h' & a & m & g & n & f & ac & en & o & Hs)]. cbv beta.
    rewrite (proj2 (Z.eqb_neq e 0) He). apply wp_bind.
    eapply wpx_sset_same; [exact Hs|done|]. clear s Hs. intros s Hs. apply wp_fail.
    eapply downing_pinv; [done|]. by exists h', a, m, g, n, f, ac, en, o.
Qed.
Lemma wp_retire_steps c q h l s :
  leaving c q l → at_ false (Ghost c (q <| pr_platform_retire_attempted := true |>) h (l <| l_checked := true |>)) s →
  wp retire_steps (λ _, down_all c q l) (λ _, downing c q l) s.
Proof.
  intros Hl Hs. unfold retire_steps. apply wp_bind. eapply wp_release_providers; [done|exact Hs|].
  clear s Hs. intros o s Hs. set (q1 := q <| pr_platform_retire_attempted := true |>) in *.
  assert (∀ o, quiet (Ghost (down_c c 0 false false) q1 true (down_l l true false false 0 false false false o))) as Hq
    by (intros; by apply good_quiet, good_down).
  apply wp_bind. eapply wpx_call0; [exact Hs|apply Hq|done|done|]. clear s Hs. intros r s Hs. cbv beta.
  rewrite down_owner in Hs.
  apply wp_bind. eapply wpx_sset_same; [exact Hs|done|]. clear s Hs. intros s Hs.
  eapply (wp_after (at_ false (Ghost _ q1 true (down_l l true false false 0 false false false false)))); [exact Hs| | |].
  { intros e t Ht. by exists true, true, false, false, O, false, false, false, false. }
  { apply stays_callback, stays_passed; [apply Hq|done]. }
  clear s Hs. intros _ s Hs. eapply wpx_plog; [exact Hs|done|done|]. intros t Ht. by exists false.
Qed.
Lemma wp_idle_steps c q h l s :
  leaving c q l → at_ false (Ghost c (q <| pr_platform_retire_attempted := true |>) h (l <| l_checked := true |>)) s →
  wp idle_steps (λ _, down_all c q l) (λ _, downing c q l) s.
Proof.
  intros Hl Hs. unfold idle_steps. apply wp_bind. eapply wp_release_providers; [done|exact Hs|].
  clear s Hs. intros o s Hs. eapply wpx_sset_same; [exact Hs|done|]. clear s Hs. intros s Hs. by exists o.
Qed.

(** What a retirement has checked. *)
Lemma leaves c q h l :
  good (Ghost c q h l) → pr_platform_retire_attempted q = false → platform_held c = true →
  cx_endpoint c = None ∧ cx_root_port c = None → cx_config_open c || cx_bind_writes c = false → cx_session c = false →
  (pr_prepared q = true ∧ pr_error q = 0) ∨ pr_inventory_attempted q = true → bus_gone l = true → leaving c q l.
Proof.
  intros Hg Ha Hp Hd Hc Hs Ho Hb. unfold platform_held in Hp.
  rewrite !andb_true_iff, Nat.eqb_eq in Hp. destruct Hp as [[[Hr He] Hh] Hn]. destruct Hg as [B S].
  split; try done.
  - split; [apply (sg_on _ _ _ S); done|done].
  - pose proof (bk_clocks _ _ _ B) as E1. pose proof (bk_active _ _ _ B) as E2. pose proof (bk_enabled _ _ _ B) as E3.
    simpl in *. split; [congruence|]. split; congruence.
Qed.
Lemma stays_retire_platform owner st : stays pinv (qcom_usb4_x1_retire_platform owner st).
Proof.
  apply stays_with_ctx. intros c q h l s Hs Hg Est.
  eapply (wp_after (at_ false (Ghost c q h l))); [exact Hs|by intros; eapply busy_pinv|apply stays_no_bus|].
  clear s Hs. intros none s Hs. apply wp_bind, wp_get. case_match eqn:Eg; [apply wp_fail; by eapply busy_pinv|].
  rewrite !orb_false_iff, !negb_false_iff, !bool_decide_eq_false, <- !eq_None_not_Some in Eg.
  destruct Eg as [[[[[[[[[[[[[[Hpr _] _] _] Hcl] _] _] He] Hr] Hss] _] _] _] Hrt] Hph].
  case_match eqn:Ea; [apply wp_fail; by eapply busy_pinv|]. pose proof (proj2 Hg) as S. simpl in S.
  assert (leaving c q l) as Hl.
  { apply leaves with h; try done.
    - unfold config_closed in Hcl. clear - Hcl. destruct (pr_config_fenced q), (cx_config_open c), (cx_scan_writes c), (cx_bind_writes c); done.
    - right. destruct (pr_inventory_attempted q) eqn:Ei; [done|]. destruct (sg_fresh _ _ _ S Ei) as (_ & _ & _ & _ & _ & _ & ? & _). congruence.
    - unfold bus_gone. by rewrite (sg_removed _ _ _ S Hpr). }
  eapply wp_retire_with; [done|done|done|apply nz_retire_steps| |exact Hs]. intros t Ht. by eapply wp_retire_steps.
Qed.
Lemma stays_idle_retire_platform owner st : stays pinv (qcom_usb4_x1_idle_retire_platform owner st).
Proof.
  apply stays_with_ctx. intros c q h l s Hs Hg Est. case_match eqn:Eg; [apply wp_fail; by eapply busy_pinv|].
  rewrite !orb_false_iff, !negb_false_iff, !bool_decide_eq_false, <- !eq_None_not_Some in Eg.
  destruct Eg as [[[[[[[[[[[[[[[[[[_ Hp] Her] Hia] _] _] _] _] _] Hrt] Hco] _] Hbw] _] _] He] Hr] Hss] Hph].
  case_match eqn:Ea; [apply wp_fail; by eapply busy_pinv|]. pose proof (proj2 Hg) as S. simpl in S.
  assert (leaving c q l) as Hl.
  { apply leaves with h; try done.
    - by rewrite Hco, Hbw.
    - left. split; [done|]. by destruct (Z.eqb_spec (pr_error q) 0).
    - destruct (sg_fresh _ _ _ S Hia) as (_ & _ & Hb & _). unfold bus_gone. by rewrite Hb. }
  eapply wp_retire_with; [done|done|done|apply nz_idle_steps| |exact Hs]. intros t Ht. by eapply wp_idle_steps.
Qed.

(** ** Without a context *)

(** Only the device [p] and the reset lease [le] are held. *)
Definition lone (a : bool) (p le : Z) : ledger :=
  Ledger false 0 p 0 le false false false false false [] false 0 [] 0 false false a
    [] false 0 false false false false false false false 0 false true.
Definition wfm (m : Z → pcie_rec) : Prop := ∀ n, pr_attempted (m n) = false → ∃ g v r, m n = pcie_rec_zero g v r.
Lemma wp_lone_reset a m s :
  gone (lone a 1 0) true m s →
  wp (do! pcalle ResetGet in
      let! e := pcall1 ResetDeassert in
      do! pcall0 ResetPut in
      do! ok_or_fail e in
      do! pcall0 (Msleep 5) in
      modify (λ s, s <| y_reset_held := false |>))
    (λ _, gone (lone false 1 0) false m) (λ _ t, ∃ a, gone (lone a 1 0) true m t) s.
Proof.
  intros Hs. apply wp_bind, wp_bind. eapply wp_gone_call; [exact Hs|done|done|]. clear s Hs. intros r s Hs _.
  apply wp_ok_or_fail; intros Hr.
  2: { exists a. simpl in Hs. by rewrite (proj2 (Z.eqb_neq r 0) Hr) in Hs. }
  subst r. change (gone (lone a 1 1) true m s) in Hs.
  apply wp_bind. eapply wp_gone_call; [exact Hs|done|done|]. clear s Hs. intros e s Hs _. cbv beta.
  assert (gone (lone (if e =? 0 then false else a) 1 1) true m s) as Hs1 by (simpl in Hs; by destruct (e =? 0)).
  clear Hs. apply wp_bind. eapply wp_gone_call0; [exact Hs1|done|done|]. clear s Hs1. intros r1 s Hs. cbv beta.
  change (gone (lone (if e =? 0 then false else a) 1 0) true m s) in Hs.
  apply wp_bind, wp_ok_or_fail; intros He; [|by exists (if e =? 0 then false else a)]. subst e.
  apply wp_bind. eapply wp_gone_call0; [exact Hs|done|done|]. clear s Hs. intros r2 s Hs. cbv beta.
  apply wp_modify. destruct Hs as (? & ? & ? & ? & ?). by repeat split.
Qed.
Lemma stays_release_retired_reset owner : stays pinv (release_retired_reset owner).
Proof.
  intros s Hs. unfold release_retired_reset. destruct (owner =? 0); [by apply wp_fail|]. apply wp_bind, wp_get.
  destruct (y_reset_held s) eqn:Eh; [|by apply wp_ret]. simpl.
  destruct (y_ctx s) eqn:Ec; simpl; [by apply wp_fail|]. destruct Hs as [(a & h & Hg & Ha & Hpr)|Hb].
  2: { destruct (busy_now s Hb) as (c & Ec' & _). congruence. }
  assert (h = true) as -> by (destruct Hg as (_ & _ & _ & Hh & _); congruence).
  assert (wfm (y_states s)) as Hm by exact Hpr. clear Ha Hpr Ec Eh. revert Hm Hg. generalize (y_states s) as m. intros m Hm Hs.
  assert (∀ a h t, (a = true → h = true) → gone (lone a 0 0) h m t → pinv t) as HP.
  { intros a0 h0 t Ht Hg. left. assert (y_states t = m) as Em by apply Hg. exists a0, h0. rewrite Em.
    split; [exact Hg|]. split; [done|]. intros n. rewrite Em. apply Hm. }
  apply wp_bind. eapply wp_gone_call; [exact Hs|done|done|]. clear s Hs. intros r s Hs _.
  change (gone (if r =? 0 then lone a 0 0 else lone a 1 0) true m s) in Hs.
  destruct (r =? 0) eqn:Er; [apply wp_fail; by apply (HP a true)|].
  apply wp_bind, wp_attempt. eapply wp_mono; [by apply (wp_lone_reset a)|..]; clear s Hs.
  - intros [] s Hs. cbv beta. apply wp_bind. eapply wp_gone_call0; [exact Hs|done|done|]. clear s Hs. intros r1 s Hs.
    apply wp_ok_or_fail; intros _; by apply (HP false false).
  - intros e s [a0 Hs]. cbv beta. apply wp_bind. eapply wp_gone_call0; [exact Hs|done|done|]. clear s Hs. intros r1 s Hs.
    apply wp_ok_or_fail; intros _; by apply (HP a0 true).
Qed.

(** ** What arrives from outside *)

Lemma stays_pinv {A} (m : MP A) :
  (∀ l h p, stays (gone l h p) m) → (∀ k, quiet k → stays (at_ false k) m) → stays pinv m.
Proof.
  intros Hg Hk s [(a & h & Hs & Ha & Hpr)|(k & Hs & Hgk)].
  - eapply stays_wp; [apply Hg|exact Hs|..]; intros x t Ht; left; exists a, h.
    all: assert (y_states t = y_states s) as Em by apply Ht; split; [by rewrite Em|split; [done|]].
    all: intros n; rewrite Em; apply Hpr.
  - eapply stays_wp; [by apply Hk, good_quiet|exact Hs|..]; intros x t Ht; right; by exists k.
Qed.
Lemma stays_pinv_arrivals : stays pinv arrivals.
Proof. apply stays_pinv; [apply stays_gone_arrivals|apply stays_arrivals]. Qed.
Lemma stays_pinv_mark owner st : stays pinv (mark_pulled (W := W) owner st).
Proof.
  apply stays_pinv; [|intros; by apply stays_mark]. intros l h p s Hs.
  unfold mark_pulled. apply wp_bind, wp_get. by rewrite (proj1 Hs).
Qed.
End platform.
