(* ===== verification/HostPcieConfig.v ===== *)
(** * The PCIe side: what a configuration write may change

    The filter of the PCI core's configuration accesses, by bytes. *)

From S2P Require Import Prelude Wp HostData HostPcie.

(** ** Bytes of a register *)

(** Byte [i] of a value. *)
Definition byte_of (v i : Z) : Z := (v >> (8 * i)) .& 0xff.
(** A guard: a word and the bits of it that may not be set.  The write of
    [size] bytes of [v] at [off] sets none of them. *)
Definition spares (off size v : Z) (g : Z * Z) : Prop :=
  ∀ a, off <= a < off + size → g.1 <= a < g.1 + 2 → byte_of v (a - off) .& byte_of g.2 (a - g.1) = 0.
(** The words that the filter guards on the root port and on the endpoint:
    command, bridge control, device and link control, power state, MSI and
    MSI-X. *)
Definition guarded (c : pctx) (q : pcie_rec) (inv : inventory) (root : bool) : list (Z * Z) :=
  let pcie := u16 (if root then pr_pcie_cap q else iv_pcie_offset inv) in
  let msi := u16 (if root then cx_root_msi c else iv_msi_offset inv) in
  let msix := u16 (if root then cx_root_msix c else iv_msix_offset inv) in
  let pm := u16 (if root then cx_root_pm c else cx_endpoint_pm c) in
  [(PCI_COMMAND, if cx_bind_writes c then 1 else 7)] ++ (if root then [(0x3e, 0x40)] else []) ++
  [(pcie + 8, 0x8000); (pcie + 0x10, 0x30)] ++ (if pm =? 0 then [] else [(pm + 4, 3)]) ++
  (if root || negb (cx_bind_writes c) then
     (if msi =? 0 then [] else [(msi + 2, 1)]) ++ (if msix =? 0 then [] else [(msix + 2, 0x8000)])
   else []).
(** The bridge's bus numbers: primary 0, secondary 1, subordinate 1. *)
Definition bus_numbers (a : Z) : Z := if a =? 0x18 then 0 else 1.

(** Replace byte [d]. *)
Definition put (full word d x : Z) : Z := (word .& Z.lxor full (0xff << (8 * d))) .| ((x .& 0xff) << (8 * d)).

Lemma ff_bit k : 0 <= k → Z.testbit 0xff k = (k <? 8).
Proof.
  intros Hk. change 0xff with (Z.ones 8). destruct (Z.ltb_spec k 8); [apply Z.ones_spec_low|apply Z.ones_spec_high]; lia.
Qed.
Lemma ff_shift d e k : 0 <= d → 0 <= e → 0 <= k < 8 → Z.testbit (0xff << (8 * d)) (8 * e + k) = (d =? e).
Proof.
  intros Hd He Hk. rewrite Z.shiftl_spec by lia. destruct (Z.eqb_spec d e) as [->|Hn].
  - rewrite ff_bit by lia. lia.
  - destruct (Z.ltb_spec (8 * e + k - 8 * d) 0); [by apply Z.testbit_neg_r|]. rewrite ff_bit by lia. lia.
Qed.
Lemma put_bit full word d e x k :
  0 <= d → 0 <= e → 0 <= k < 8 → Z.testbit full (8 * e + k) = true →
  Z.testbit (put full word d x) (8 * e + k) = if d =? e then Z.testbit x k else Z.testbit word (8 * e + k).
Proof.
  intros Hd He Hk Hf. unfold put. rewrite Z.lor_spec, Z.land_spec, Z.lxor_spec, Hf, ff_shift by lia.
  rewrite Z.shiftl_spec by lia. destruct (Z.eqb_spec d e) as [->|Hn].
  - replace (8 * e + k - 8 * e) with k by lia. rewrite Z.land_spec, ff_bit by lia.
    rewrite (proj2 (Z.ltb_lt k 8)) by lia. simpl. by rewrite andb_false_r, andb_true_r.
  - simpl. rewrite andb_true_r. replace (Z.testbit (x .& 0xff) (8 * e + k - 8 * d)) with false; [apply orb_false_r|].
    destruct (Z.ltb_spec (8 * e + k - 8 * d) 0); [by rewrite Z.testbit_neg_r|].
    rewrite Z.land_spec, ff_bit by lia. rewrite (proj2 (Z.ltb_ge _ 8)) by lia. by rewrite andb_false_r.
Qed.
Lemma byte_bit v i k : 0 <= i → 0 <= k < 8 → Z.testbit (byte_of v i) k = Z.testbit v (8 * i + k).
Proof.
  intros Hi Hk. unfold byte_of. rewrite Z.land_spec, Z.shiftr_spec, ff_bit by lia.
  rewrite (proj2 (Z.ltb_lt k 8)) by lia. rewrite andb_true_r. f_equal. lia.
Qed.
Lemma byte_high v i k : 8 <= k → Z.testbit (byte_of v i) k = false.
Proof.
  intros Hk. unfold byte_of. rewrite Z.land_spec, ff_bit by lia. rewrite (proj2 (Z.ltb_ge k 8)) by lia. apply andb_false_r.
Qed.

(** The merged register has the written bytes: [lo] its address, [n] its
    bytes. *)
Section merged.
Context (full lo n off size v : Z).
Definition merge (word : Z) (byte : nat) : Z :=
  let a := off + Z.of_nat byte in
  if (Z.of_nat byte <? size) && (lo <=? a) && (a <? lo + n) then put full word (a - lo) (v >> (8 * Z.of_nat byte)) else word.
Lemma merge_bit word byte a k :
  lo <= a < lo + n → off <= a < off + size → 0 <= k < 8 → Z.testbit full (8 * (a - lo) + k) = true →
  Z.testbit (merge word byte) (8 * (a - lo) + k) =
    if Z.of_nat byte =? a - off then Z.testbit v (8 * (a - off) + k) else Z.testbit word (8 * (a - lo) + k).
Proof.
  intros Ha Hw Hk Hf. unfold merge. destruct (Z.eqb_spec (Z.of_nat byte) (a - off)) as [E|E].
  - rewrite E. replace (off + (a - off)) with a by lia.
    rewrite (proj2 (Z.ltb_lt _ _)), (proj2 (Z.leb_le _ _)), (proj2 (Z.ltb_lt _ _)) by lia. simpl.
    rewrite put_bit, Z.eqb_refl, Z.shiftr_spec by lia || done. f_equal. lia.
  - case_match eqn:Eg; [|done]. rewrite !andb_true_iff, !Z.ltb_lt, Z.leb_le in Eg.
    rewrite put_bit by lia || done. by rewrite (proj2 (Z.eqb_neq _ _)) by lia.
Qed.
Lemma merged_bit word a k :
  lo <= a < lo + n → off <= a < off + size → size <= 4 → 0 <= k < 8 → Z.testbit full (8 * (a - lo) + k) = true →
  Z.testbit (foldl merge word [0; 1; 2; 3]%nat) (8 * (a - lo) + k) = Z.testbit (byte_of v (a - off)) k.
Proof.
  intros Ha Hw Hs Hk Hf. rewrite byte_bit by lia. cbn [foldl]. rewrite !merge_bit by done.
  assert (a - off = 0 ∨ a - off = 1 ∨ a - off = 2 ∨ a - off = 3) as [E|[E|[E|E]]] by lia; by rewrite E.
Qed.
End merged.

Lemma merge_byte_eq off size v w : merge_byte off size v w = merge 0xffff w 2 off size v.
Proof. reflexivity. Qed.
Lemma merge_bus_put off size v word byte : merge_bus off size v word byte = merge U32_MAX 0x18 3 off size v word byte.
Proof. unfold merge_bus, merge, put, not32. by rewrite (Z.lxor_comm _ U32_MAX). Qed.
Lemma merge_bus_fold off size v word l :
  foldl (merge_bus off size v) word l = foldl (merge U32_MAX 0x18 3 off size v) word l.
Proof. revert word. induction l as [|b l IH]; intros word; simpl; [done|]. by rewrite merge_bus_put. Qed.

(** Not a bit of the mask in the merged word: not a bit of it in any byte. *)
Lemma merged_spares off size v word w m :
  size <= 4 → tst (foldl (merge_byte off size v w) word [0; 1; 2; 3]%nat) m = false → spares off size v (w, m).
Proof.
  intros Hs Ht a Ha Hw. cbn [fst snd] in *. unfold tst in Ht. apply negb_false_iff, Z.eqb_eq in Ht.
  apply Z.bits_inj'. intros k Hk. rewrite Z.land_spec, Z.bits_0.
  destruct (Z.ltb_spec k 8); [|by rewrite byte_high by lia].
  rewrite (byte_bit m) by lia. pose proof (f_equal (λ x, Z.testbit x (8 * (a - w) + k)) Ht) as E. cbv beta in E.
  rewrite Z.land_spec, Z.bits_0, merge_byte_eq, merged_bit in E; [done|lia..|].
  change 0xffff with (Z.ones 16). apply Z.ones_spec_low. lia.
Qed.
Lemma merged_bus off size v buses :
  size <= 4 → foldl (merge_bus off size v) buses [0; 1; 2; 3]%nat .& 0xffffff = 0x010100 →
  ∀ a, off <= a < off + size → 0x18 <= a < 0x1b → byte_of v (a - off) = bus_numbers a.
Proof.
  intros Hs E a Ha Hb. rewrite merge_bus_fold in E. apply Z.bits_inj'. intros k Hk.
  destruct (Z.ltb_spec k 8); cycle 1.
  { rewrite byte_high by lia. unfold bus_numbers. symmetry. case_match; [apply Z.bits_0|].
    by apply (Z.bits_above_log2 1); simpl; lia. }
  pose proof (f_equal (λ x, Z.testbit x (8 * (a - 0x18) + k)) E) as F. cbv beta in F.
  rewrite Z.land_spec, merged_bit in F; [|lia..|change U32_MAX with (Z.ones 32); apply Z.ones_spec_low; lia].
  change 0xffffff with (Z.ones 24) in F. rewrite Z.ones_spec_low, andb_true_r in F by lia. rewrite F.
  assert (a = 0x18 ∨ a = 0x19 ∨ a = 0x1a) as [->|[->| ->]] by lia.
  all: assert (k = 0 ∨ k = 1 ∨ k = 2 ∨ k = 3 ∨ k = 4 ∨ k = 5 ∨ k = 6 ∨ k = 7) as [->|[->|[->|[->|[->|[->|[->| ->]]]]]]] by lia; reflexivity.
Qed.
Lemma untouched_spares off size v w m : x1_pcie_config_touches off size w = false → spares off size v (w, m).
Proof. unfold x1_pcie_config_touches. intros Ht a Ha Hw. cbn [fst] in *. lia. Qed.

(** ** The filter *)

Section filter.
Context {W : Type} `{PcieEnv W}.
Notation MP := (M (psys W)).
Implicit Types s t : psys W.

(** Partial correctness; an error is never 0. *)
Definition pwp {A} (m : MP A) (Q : A → psys W → Prop) s : Prop :=
  match m s with (Ok a, t) => Q a t | (Err e, _) => e ≠ 0 | (Fault, _) => True end.
Lemma pwp_bind {A B} (m : MP A) (k : A → MP B) Q s : pwp m (λ a, pwp (k a) Q) s → pwp (bind m k) Q s.
Proof. unfold pwp, bind. by destruct (m s) as [[a|e|] t]. Qed.
Lemma pwp_mono {A} (m : MP A) (Q Q' : A → psys W → Prop) s :
  pwp m Q s → (∀ a t, Q a t → Q' a t) → pwp m Q' s.
Proof. unfold pwp. destruct (m s) as [[a|e|] t]; auto. Qed.

(** Nothing but reads since [s]. *)
Definition is_read (e : pevent) : Prop := match e.1 with Rd _ _ _ => True | _ => False end.
Definition reads s t : Prop :=
  y_ctx t = y_ctx s ∧ y_states t = y_states s ∧ ∃ R, y_log t = y_log s ++ R ∧ Forall is_read R.
Lemma reads_refl s : reads s s.
Proof. split; [done|]. split; [done|]. exists []. by rewrite app_nil_r. Qed.
Lemma pwp_rd s0 x off size s (Q : Z → psys W → Prop) :
  reads s0 s → (∀ r t, reads s0 t → (∃ R, y_log t = y_log s0 ++ R ++ [(Rd x off size, r)]) → Q (width size r) t) → pwp (rd x off size) Q s.
Proof.
  intros (Ec & Es & R & El & HR) HQ. unfold pwp, rd, bind, cget. destruct (y_ctx s) as [c|] eqn:Ey; [|done].
  destruct (bool_decide (x ∈ cx_maps c)); [|done]. unfold pleaf. destruct (x_answer _ _) as [r w]. simpl. apply HQ.
  - split; [exact (eq_trans Ey Ec)|]. split; [exact Es|]. exists (R ++ [(Rd x off size, r)]). simpl. rewrite El, app_assoc. split; [done|].
    apply Forall_app. by repeat constructor.
  - exists R. simpl. by rewrite El, <- app_assoc.
Qed.
Lemma pwp_cget s0 s (Q : pctx → psys W → Prop) :
  reads s0 s → (∀ c, y_ctx s0 = Some c → Q c s) → pwp cget Q s.
Proof. intros (Ec & _) HQ. unfold pwp, cget. rewrite Ec. destruct (y_ctx s0); auto. Qed.
Lemma pwp_sget s0 s (Q : pcie_rec → psys W → Prop) :
  reads s0 s → (∀ c, y_ctx s0 = Some c → Q (y_states s0 (cx_state c)) s) → pwp sget Q s.
Proof.
  intros (Ec & Es & _) HQ. unfold pwp, sget, cget, bind. rewrite Ec. destruct (y_ctx s0); [|done].
  simpl. rewrite Es. auto.
Qed.
Lemma pwp_decode_off s0 s x : reads s0 s → pwp (decode_off x) (λ _, reads s0) s.
Proof.
  intros Hs. apply pwp_bind. eapply pwp_cget; [done|]. intros c _. apply pwp_bind. eapply pwp_rd; [done|].
  intros r t Ht _. by case_match.
Qed.
Lemma pwp_host_local s0 s : reads s0 s → pwp x1_pcie_host_local (λ _, reads s0) s.
Proof.
  intros Hs. apply pwp_bind. eapply pwp_cget; [done|]. intros c _. apply pwp_bind. eapply pwp_sget; [done|]. intros c1 _.
  case_match; [done|]. case_match; [|done].
  do 3 (apply pwp_bind; eapply pwp_rd; [eassumption|]; clear s Hs; intros ? s Hs _; case_match; [done|]).
  apply pwp_bind. eapply pwp_mono; [by apply pwp_decode_off|]. intros [] t Ht. by apply pwp_decode_off.
Qed.
Lemma pwp_refuse s0 s root off size v w m : size <= 4 →
  reads s0 s → pwp (refuse_word root off size v w m) (λ _ t, reads s0 t ∧ spares off size v (w, m)) s.
Proof.
  intros Hz Hs. apply pwp_bind. unfold bad_word, x1_pcie_config_word. case_match eqn:Et.
  - apply pwp_bind, pwp_bind. eapply pwp_rd; [done|]. intros r t Ht _. unfold pwp, ret. destruct (tst _ m) eqn:E; [done|]. split; [done|]. by eapply merged_spares.
  - split; [done|]. by apply untouched_spares.
Qed.

(** What the filter lets through. *)
Record confined (c : pctx) (q : pcie_rec) (inv : inventory) (root : bool) (off size v : Z) : Prop := Confined {
  (* identity and class are not written *)
  cf_identity : 4 <= off ∧ (off + size <= 8 ∨ 0xc <= off);
  cf_spares : Forall (spares off size v) (guarded c q inv root);
  cf_buses : root = true → ∀ a, off <= a < off + size → 0x18 <= a < 0x1b → byte_of v (a - off) = bus_numbers a;
}.
(** Once the scan is over, a base address is written only with what it is. *)
Definition settled (c : pctx) (root : bool) (off size v : Z) (R : list pevent) : Prop :=
  cx_scan_writes c = false → off < (if root then 0x3c else 0x28) → 0x10 < off + size →
  ∃ R' r, R = R' ++ [(Rd (rwin root) off size, r)] ∧ width size r = v.

(** One guard, the guards [L] all together. *)
Definition guards (L : list (Z * Z)) (off size v : Z) (m : MP unit) : Prop :=
  ∀ s0 s, reads s0 s → pwp m (λ _ t, reads s0 t ∧ Forall (spares off size v) L) s.
Lemma guards_nil off size v : guards [] off size v (ret tt).
Proof. by intros s0 s Hs. Qed.
Lemma guards_one root off size v w m : size <= 4 → guards [(w, m)] off size v (refuse_word root off size v w m).
Proof.
  intros Hz s0 s Hs. eapply pwp_mono; [by apply pwp_refuse|]. intros [] t [Ht Hp]. split; [done|]. by repeat constructor.
Qed.
Lemma guards_app L L' off size v m m' :
  guards L off size v m → guards L' off size v m' → guards (L ++ L') off size v (do! m in m').
Proof.
  intros Hm Hm' s0 s Hs. apply pwp_bind. eapply pwp_mono; [by apply Hm|]. intros [] t [Ht HL].
  eapply pwp_mono; [by apply Hm'|]. intros [] t' [Ht' HL']. split; [done|]. by apply Forall_app.
Qed.
Lemma guards_if (b : bool) L L' off size v m m' :
  guards L off size v m → guards L' off size v m' →
  guards (if b then L else L') off size v (if b then m else m').
Proof. by destruct b. Qed.
(** A guard before the rest. *)
Lemma pwp_guards {A} L off size v m (k : MP A) s0 s Q :
  guards L off size v m → reads s0 s →
  (∀ t, reads s0 t → Forall (spares off size v) L → pwp k Q t) → pwp (do! m in k) Q s.
Proof.
  intros Hm Hs HQ. apply pwp_bind. eapply pwp_mono; [by apply Hm|]. intros [] t [Ht HL]. by apply HQ.
Qed.
Lemma command_mask c :
  (if cx_bind_writes c then PCI_COMMAND_IO else PCI_COMMAND_IO .| PCI_COMMAND_DECODE) = (if cx_bind_writes c then 1 else 7).
Proof. done. Qed.
Lemma pwp_buses s0 s root off size v : size <= 4 → reads s0 s →
  pwp (if root && (off <? 0x1b) && (0x18 <? off + size) then
         let! buses := rd WRoot 0x18 4 in
         let proposed := foldl (merge_bus off size v) buses [0; 1; 2; 3]%nat in
         if proposed .& 0xffffff =? 0x010100 then ret tt else fail (-EPERM)
       else ret tt : MP unit)
    (λ _ t, reads s0 t ∧ (root = true → ∀ a, off <= a < off + size → 0x18 <= a < 0x1b → byte_of v (a - off) = bus_numbers a)) s.
Proof.
  intros Hz Hs. destruct root; [|by split]. cbn [andb]. destruct ((off <? 0x1b) && (0x18 <? off + size)) eqn:E.
  - apply pwp_bind. eapply pwp_rd; [done|]. intros r t Ht _. cbv zeta. case_match eqn:Eb; [|done]. split; [done|].
    intros _. eapply merged_bus; [done|]. by apply Z.eqb_eq in Eb.
  - split; [done|]. intros _ a Ha Hb. lia.
Qed.
Lemma pwp_bars s0 s c (root : bool) off size v : reads s0 s →
  pwp (if negb (cx_scan_writes c) && (off <? (if root then 0x3c else 0x28)) && (0x10 <? off + size) then
         let! x := rd (rwin root) off size in
         if x =? v then ret tt else fail (-EPERM)
       else ret tt : MP unit)
    (λ _ t, reads s0 t ∧ ∀ R, y_log t = y_log s0 ++ R → settled c root off size v R) s.
Proof.
  intros Hs. case_match eqn:E.
  - apply pwp_bind. eapply pwp_rd; [done|]. intros r t Ht [R HR]. destruct (_ =? v) eqn:Eb; [|done]. split; [done|].
    intros R' HR' _ _ _. exists R, r. rewrite HR in HR'. apply app_inv_head in HR'. by apply Z.eqb_eq in Eb.
  - split; [done|]. intros R _ Hsc Ho Hp. rewrite Hsc in E. simpl in E.
    rewrite (proj2 (Z.ltb_lt _ _) Ho), (proj2 (Z.ltb_lt _ _) Hp) in E. done.
Qed.
Lemma pwp_write_allowed s0 s root off size v : size <= 4 → reads s0 s →
  pwp (x1_pcie_config_write_allowed root off size v) (λ _ t, reads s0 t ∧ ∃ c inv,
    y_ctx s0 = Some c ∧ cx_inventory c = Some inv ∧ confined c (y_states s0 (cx_state c)) inv root off size v ∧
    ∀ R, y_log t = y_log s0 ++ R → settled c root off size v R) s.
Proof.
  intros Hz Hs. unfold x1_pcie_config_write_allowed. apply pwp_bind. eapply pwp_cget; [done|]. intros c Ec.
  apply pwp_bind. eapply pwp_sget; [done|]. intros c' Ec'. assert (c' = c) as -> by congruence. clear Ec'.
  set (q := y_states s0 (cx_state c)). destruct (cx_inventory c) as [inv|] eqn:Ei; [|done].
  case_match eqn:Eid; [done|]. cbv zeta.
  eapply pwp_guards; [by apply guards_one|exact Hs|]. clear s Hs. intros s Hs H1.
  eapply pwp_guards; [by apply guards_if; [apply guards_one|apply guards_nil]|exact Hs|]. clear s Hs. intros s Hs H2.
  eapply pwp_guards; [by apply guards_one|exact Hs|]. clear s Hs. intros s Hs H3.
  eapply pwp_guards; [by apply guards_one|exact Hs|]. clear s Hs. intros s Hs H4.
  eapply pwp_guards; [by apply guards_if; [apply guards_nil|apply guards_one]|exact Hs|]. clear s Hs. intros s Hs H5.
  eapply pwp_guards; [by apply guards_if; [apply guards_app; apply guards_if; (apply guards_nil || by apply guards_one)|apply guards_nil]|exact Hs|].
  clear s Hs. intros s Hs H6.
  apply pwp_bind. eapply pwp_mono; [by apply pwp_buses|]. clear s Hs. intros [] s [Hs Hb]. cbv beta.
  eapply pwp_mono; [by apply pwp_bars|]. clear s Hs. intros [] s [Hs Hse]. split; [done|].
  exists c, inv. split; [done|]. split; [done|]. split; [|done]. split; [lia| |done].
  unfold guarded. cbv zeta. rewrite <- command_mask. repeat (apply Forall_app; split); try done.
  apply Forall_cons; split; [by inversion H3|done].
Qed.
End filter.
