(* ===== verification/HostPcieProof.v ===== *)
(** * The PCIe side: accounting, protocol and configuration writes

    What holds of every history of the entry points of
    qcom-usb4-x1-pcie.c, whatever the hardware, the PCI core, the programs and
    the callbacks that come in between do; what an admitted configuration
    write may change; and a pull in the middle of a removal. *)

From S2P Require Import Prelude Wp HostData HostPcie HostPcieLogic HostPcieInv HostPcieSteps HostPcieBatch HostPcieRetire HostPciePlatform HostPcieConfig.

(** ** Every history *)

(** What was taken and not given back. *)
Record holdings := Holdings {
  hd_owner : Z; hd_pdev : Z; hd_module : Z; hd_lease : Z; hd_driver : bool; hd_enabled : bool;
  hd_active : bool; hd_maps : list win; hd_clocks : nat; hd_pci : list Z; hd_session : Z;
}.
(** By the record of calls. *)
Definition taken (L : list pevent) : holdings :=
  let l := ledger_at L in
  Holdings (l_owner l) (l_pdev l) (l_module l) (l_lease l) (l_driver l) (l_enabled l) (l_active l) (l_maps l)
    (l_clocks l) (l_pci l) (l_session l).
(** By the context. *)
Definition recorded {W} (s : psys W) : holdings :=
  match y_ctx s with
  | None => Holdings 0 0 0 0 false false false [] 0 [] 0
  | Some c => Holdings 1 (Z.b2z (cx_pdev c)) (Z.b2z (cx_receiver_retained c)) (Z.b2z (cx_reset_early c))
      (cx_driver_registered c) (cx_runtime_enabled c) (cx_runtime_held c) (cx_maps c) (cx_clocks c) (pci_refs c)
      (Z.b2z (cx_session c))
  end.
(** Without a context no bandwidth is voted for, and a reset line that is
    asserted is on record. *)
Definition rest_off {W} (s : psys W) : Prop :=
  y_ctx s = None → let l := ledger_at (y_log s) in
  l_mem l = false ∧ l_cfg l = false ∧ l_paths l = [] ∧ (l_asserted l = true → y_reset_held s = true).
(** Each call is permitted by what was done before it. *)
Definition every_permitted (L : list pevent) : Prop :=
  ∀ L1 c r L2, L = L1 ++ (c, r) :: L2 → permitted (ledger_at L1) c = true.

Section histories.
Context {W : Type} `{PcieEnv W}.
Implicit Types s t : psys W.

Lemma boot_pinv request w : pinv (W := W) (pcie_boot request w).
Proof.
  left. exists false, false. split; [done|]. split; [done|]. intros n _. simpl. destruct (request n) as [[g v] r].
  by exists g, v, r.
Qed.
Lemma stays_pop o s : caller_ok o s = true → pinv s → wp (run_pop o) (λ _, pinv) (λ _, pinv) s.
Proof.
  intros Hc Hs. destruct o; simpl.
  - by apply stays_prepare_once.
  - by apply stays_prepare_once.
  - by apply wp_batch_inventory.
  - by apply stays_nvme_bind.
  - by apply stays_general_remove.
  - by apply stays_pinv_mark.
  - by apply stays_pulled_remove.
  - by apply stays_fence.
  - by apply stays_retire_namespaces.
  - by apply stays_retire_pci.
  - by apply stays_retire_platform.
  - by apply stays_idle_retire_platform.
  - by apply stays_release_retired_reset.
  - by apply stays_pinv_arrivals.
Qed.
Lemma run_pops_pinv ops s : pinv s → (run_pops ops s).1 ≠ Fault ∧ pinv (run_pops ops s).2.
Proof.
  revert s. induction ops as [|o ops IH]; intros s Hs; simpl; [done|].
  destruct (caller_ok o s) eqn:Ec; simpl; [|by apply IH].
  pose proof (stays_pop o s Ec Hs) as Hw. unfold wp in Hw. destruct (run_pop o s) as [[a|e|] t]; [by apply IH..|done].
Qed.
Lemma pinv_taken s : pinv s → taken (y_log s) = recorded s ∧ rest_off s.
Proof.
  intros [(a & h & (Hc & Nl & _ & Hh & _) & Ha & _)|Hb].
  - unfold taken, recorded, rest_off. rewrite Hc. revert Nl. generalize (ledger_at (y_log s)). intros [] [=]. subst.
    done.
  - destruct (busy_now s Hb) as (c & Ec & _ & [B _]). simpl in B. unfold taken, recorded, rest_off. rewrite Ec.
    destruct B. by split; [f_equal|].
Qed.
Lemma ledger_ok_snoc L c r :
  l_ok (ledger_at (L ++ [(c, r)])) = true → l_ok (ledger_at L) = true ∧ permitted (ledger_at L) c = true.
Proof. rewrite ledger_at_snoc. simpl. by intros [? ?]%andb_true_iff. Qed.
Lemma ok_permitted L : l_ok (ledger_at L) = true → every_permitted L.
Proof.
  intros Hok L1 c r L2 ->. revert Hok. induction L2 as [|e L2 IH] using rev_ind; intros Hok.
  - by apply (ledger_ok_snoc _ _ r).
  - rewrite app_comm_cons, app_assoc in Hok. destruct e as [c' r']. by apply IH, (ledger_ok_snoc _ c' r').
Qed.
Lemma pinv_permitted s : pinv s → every_permitted (y_log s).
Proof.
  intros [(a & h & (_ & _ & Hok & _) & _)|(k & (c & _ & _ & _ & _ & _ & Hok & _) & _)]; by apply ok_permitted.
Qed.

(** C9. Whatever the hardware, the PCI core and the callbacks do, after any
    history of the entry points the references, leases, runtime power, clocks,
    mappings and the session taken by the calls so far and not given back are
    exactly those the context records, and without a context there are none;
    a reset line left asserted is on record. *)
Theorem pcie_accounting request (w : W) ops :
  let s := (run_pops ops (pcie_boot request w)).2 in taken (y_log s) = recorded s ∧ rest_off s.
Proof. apply pinv_taken, run_pops_pinv, boot_pinv. Qed.


(** ** Configuration writes *)

(** C10. A configuration write that is admitted goes to the root port or the
    endpoint while it is not pulled, is preceded by reads only, writes neither
    identity nor class, sets no bit of a guarded word (I/O, and decode and bus
    mastering before binding; bridge reset; function-level reset; link disable
    and retrain; a low-power state; MSI and MSI-X before binding and on the
    root port), leaves the bridge's bus numbers at 0, 1 and 1, and once the
    scan is over writes a base address only with the value just read from it. *)
Theorem config_write_confined b devfn off size v s t :
  x1_pcie_config_write b devfn off size v s = (Ok 0, t) →
  ∃ c inv root R, y_ctx s = Some c ∧ cx_inventory c = Some inv ∧ x1_pcie_config_base s b devfn = Some root ∧
    cx_pulled c = false ∧ y_ctx t = Some c ∧ y_states t = y_states s ∧
    y_log t = y_log s ++ R ++ [(Wr (rwin root) off size (width size v), 0)] ∧ Forall is_read R ∧
    confined c (y_states s (cx_state c)) inv root off size v ∧ settled c root off size v R.
Proof.
  unfold x1_pcie_config_write. destruct (bad_register off size) eqn:Eb; [done|]. unfold bind at 1, get at 1.
  destruct (x1_pcie_config_base s b devfn) as [root|] eqn:Er; [|done]. unfold bind at 1, cget at 1.
  destruct (y_ctx s) as [c|] eqn:Ec; [|done]. destruct (cx_pulled c) eqn:Ep; [done|].
  assert (size <= 4) as Hz by (unfold bad_register in Eb; lia).
  assert (pwp (do! x1_pcie_host_local in x1_pcie_config_write_allowed root off size v) (λ _ t, reads s t ∧ ∃ c inv,
    y_ctx s = Some c ∧ cx_inventory c = Some inv ∧ confined c (y_states s (cx_state c)) inv root off size v ∧
    ∀ R, y_log t = y_log s ++ R → settled c root off size v R) s) as Hp.
  { apply pwp_bind. eapply pwp_mono; [apply pwp_host_local, reads_refl|]. intros [] t' Ht'. by apply pwp_write_allowed. }
  unfold pwp in Hp. unfold bind at 1, attempt. destruct (bind x1_pcie_host_local _ s) as [[[]|e|] t0]; [| |done].
  - destruct Hp as ((Ec0 & Es0 & R & El & HR) & c0 & inv & Ec1 & Ei & Hc & Hs). assert (c0 = c) as -> by congruence.
    simpl. unfold bind, wr, bind, cget. rewrite Ec0, Ec. destruct (bool_decide _); [|done]. intros [= <-].
    exists c, inv, root, R. simpl. repeat split; try done; try congruence; [|apply Hc..|by apply Hs].
    by rewrite El, <- app_assoc.
  - rewrite (proj2 (Z.eqb_neq e 0) Hp). simpl. unfold bind. destruct (note_cfg_error e t0) as [[]]; by intros [=].
Qed.
End histories.

(** ** A desk with one drive *)

(** [dk_gates]: reads of the gate so far; [dk_bus], [dk_ep]: scanned, stopped,
    removed, and attached, removed; [dk_pull]: the drive is pulled when it is
    about to be removed; [dk_gone]: it was. *)
Record desk := Desk { dk_gates : nat; dk_mode : bool; dk_bus : nat; dk_ep : nat; dk_pull : bool; dk_gone : bool }.
#[export] Instance desk_eta : Eta desk := λ d,
  Desk (dk_gates d) (dk_mode d) (dk_bus d) (dk_ep d) (dk_pull d) (dk_gone d).
Definition desk_root (d : desk) (off size : Z) : Z :=
  if off =? 0 then 0x011117cb else
  if off =? 4 then (if size =? 2 then 0 else 0x00100000) else
  if off =? 8 then 0xff000001 else
  if off =? 0xc then (if dk_mode d then 0x10000 else 0) else
  if off =? 0x18 then 0x010100 else
  if off =? 0x34 then 0x40 else
  if off =? 0x40 then 0x00420010 else 0.
Definition desk_config (d : desk) (off : Z) : Z :=
  if dk_gone d then U32_MAX else
  if off =? 0 then 0x102b1c19 else
  if off =? 0x10 then 0x40000000 else
  if off =? 0x50 then 0x11 else
  if off =? 0x54 then 0x2000 else
  if off =? 0x58 then 0x3000 else 0.
Definition desk_answer (c : pcall) (d : desk) : Z * desk :=
  match c with
  | Rd WRouter _ _ => (if (dk_gates d =? 1)%nat then 1 else 0, d <| dk_gates := S (dk_gates d) |>)
  | Rd WRoot off size => (desk_root d off size, d)
  | Rd WParf off _ => (if off =? 0x1000 then 4 else 0, d)
  | Rd WConfig off _ => (desk_config d off, d)
  | ResetDeassert => (0, d <| dk_mode := true |>)
  | ScanBus => (0, d <| dk_bus := 1%nat |>)
  | StopBus => (0, d <| dk_bus := 2%nat |>)
  | RemoveBus => (0, d <| dk_bus := 3%nat |>)
  | Attach _ => (1, d <| dk_ep := 1%nat |>)
  | RemoveEndpoint _ => (0, d <| dk_ep := 2%nat |>)
  | CtxAlloc | ModuleGet | RtActive | BridgeAlloc | FindPdev => (1, d)
  | _ => (0, d)
  end.
Definition desk_inventory : inventory :=
  Inventory true 0 0x102b1c19 0x01080201 0x70 0 0 0x50 0x11 0x2000 0x3000 0 0x2000 0x80 0 0x3000 8 [].
Definition no_res : res_view := ResView false false false false 0 0.
Definition live_bus (d : desk) : bool := (dk_bus d =? 1)%nat || (dk_bus d =? 2)%nat.
Definition desk_dev (id : Z) (d : desk) : dev_view :=
  if id =? 1 then
    DevView 1 0 0x17cb 0x0111 1 0x060400 0 true false true 4 None 0 0 0 true (live_bus d) false false false true
      (λ _, no_res) false (ResView true true false true 0x40000000 0x400fffff)
  else
    DevView 2 0 0x1c19 0x102b 0 0x010802 1 false false true 0
      (if (dk_ep d =? 1)%nat then Some "nvme"%string else None) 0x50 0 7 false (live_bus d && negb (dk_ep d =? 2)%nat)
      false false (dk_gone d) true
      (λ bar, if (bar =? 0)%nat then ResView true true false true 0x40000000 0x40003fff else no_res) false no_res.
Definition desk_bus (d : desk) : option bus_view :=
  if live_bus d then
    Some (BusView 0 0 false true [desk_dev 1 d] 1
      (Some (SubView 1 true 0 (if (dk_ep d =? 2)%nat then [] else [desk_dev 2 d]))) 7)
  else None.
Definition desk_arrivals (d : desk) : list parrival * desk :=
  if dk_pull d && (dk_ep d =? 1)%nat then ([APulled 9 5], d <| dk_pull := false |> <| dk_gone := true |>) else ([], d).
#[export] Instance desk_env : PcieEnv desk := {|
  x_answer := desk_answer; x_arrivals := desk_arrivals; x_bus := desk_bus; x_dev := desk_dev;
  x_bridge_registered := live_bus; x_root_bytes := λ _, 0x2000; x_probes := λ _, true;
  x_decoder := λ _, IoDone 0 true; x_cfg0 := λ _, IoDone 0 true; x_cfg0_validate := λ _ _, IoDone 0 tt;
  x_train := λ _, IoDone 0 true; x_inventory := λ _ _ _, IoDone 0 desk_inventory; x_mem := λ _, IoDone 0 tt;
  x_imsi_prepare := λ _, IoReq (QLive 1) (λ e _, IoDone e true);
  x_policy_global := λ _, IoDone 0 tt; x_policy_target := λ _, IoDone 0 tt;
  x_imsi_cached := λ _ _, Receiver true true true true true true true 0 true 0 8 8;
  x_imsi_release := λ _, CbCall CbDone; x_imsi_retire := λ _, CbCall CbDone; x_retire_irqs := λ _, CbCall CbDone;
  x_retire_namespaces := λ _, CbCall CbDone; x_retire_resources := λ _, CbCall CbDone;
  x_cfg0_write_allowed := λ _ _, false; x_train_read_allowed := λ _ _, false; x_train_write_allowed := λ _ _, false;
  x_mem_offset := λ _, false;
|}.
Definition desk_boot (pull : bool) : psys desk := pcie_boot (λ _, (true, true, true)) (Desk 0 false 0 0 pull false).
(** The result of each operation. *)
Fixpoint outcomes {W} `{PcieEnv W} (l : list pop) (s : psys W) : list (res unit) :=
  match l with
  | [] => []
  | o :: l => (run_pop o s).1 :: outcomes l (run_pop o s).2
  end.
Definition desk_up : list pop := [PcBatchPrepare 9 5; PcInventory 9 5 0 0; PcBind 9 5].
Definition desk_down : list pop :=
  [PcRemove 9 5; PcFence 9 5; PcNamespaces 9 5; PcRetire 9 5; PcPlatform 9 5; PcReleaseReset 9].

(** Brought up, and taken down again with nothing held. *)
Example desk_life :
  outcomes (desk_up ++ desk_down) (desk_boot false) = repeat (Ok tt) 9 ∧
  let s := (run_pops (desk_up ++ desk_down) (desk_boot false)).2 in y_ctx s = None ∧ y_reset_held s = false.
Proof. by vm_compute. Qed.
Lemma config_write_confined_witness :
  ∃ t, x1_pcie_config_write (CfgBus true 0 false 1 true true) 0 4 2 6 (run_pops desk_up (desk_boot false)).2 = (Ok 0, t) ∧
  ∃ c, y_ctx t = Some c ∧ cx_pulled c = false.
Proof.
  eexists. split; [vm_compute; reflexivity|].
  destruct (config_write_confined (CfgBus true 0 false 1 true true) 0 4 2 6 (run_pops desk_up (desk_boot false)).2
    (x1_pcie_config_write (CfgBus true 0 false 1 true true) 0 4 2 6 (run_pops desk_up (desk_boot false)).2).2)
    as (c & inv & root & R & _ & _ & _ & Hp & Ht & _); [vm_compute; reflexivity|].
  exists c. split; [|exact Hp]. rewrite <- Ht. vm_compute. reflexivity.
Defined.

(** ** A pull in the middle of a removal *)

(** The configuration space of the endpoint was read after the mark. *)
Fixpoint read_after_pull (pulled : bool) (L : list pevent) : bool :=
  match L with
  | [] => false
  | (Pulled, _) :: L => read_after_pull true L
  | (Rd WConfig _ _, _) :: L => pulled || read_after_pull pulled L
  | _ :: L => read_after_pull pulled L
  end.
(** A drive that is pulled while [qcom_usb4_x1_general_remove] removes it is
    still read after the mark; the removal fails, and its error makes the
    retirement of the pulled drive refuse to start. *)
Example pulled_while_removing :
  outcomes (desk_up ++ [PcRemove 9 5; PcPulledRemove 9 5; PcFence 9 5]) (desk_boot true) =
    [Ok tt; Ok tt; Ok tt; Err (-ENODEV); Err (-EPERM); Err (-EPERM)] ∧
  read_after_pull false (y_log (run_pops (desk_up ++ [PcRemove 9 5]) (desk_boot true)).2) = true.
Proof. by vm_compute. Qed.
